(* ===== verification/_CoqProject ===== *)
-Q . S2P
Prelude.v
Index.v
Storage.v
Cosmwasm.v
Types.v
Number.v
Time.v
Market.v
Price.v
Token.v
Cw20.v
DataSeries.v
Config.v
Position.v
Trading.v
State.v
Pool.v
LpHistory.v
Liquidity.v
LpToken.v
LiquidityCache.v
Books.v
LiquidityInv.v
LpTokenInv.v
Fees.v
FeesInv.v
LiquiditySystem.v
LpTokenSpec.v
LiquidityReset.v
Funding.v
FundingInv.v
DeltaNeutrality.v
DeltaNeutralityInv.v
OpenInterest.v
PositionStore.v
SpotPrice.v
TradeHistory.v
PositionToken.v
Text.v
ClosePosition.v
OpenPosition.v
UpdatePosition.v
Orders.v
Deferred.v
Crank.v
Entry.v
BalanceSheet.v
PositionStoreInv.v
BalanceEffects.v
MarketInv.v
ClosingInv.v
PositionMsgs.v
OrdersInv.v
DeferredInv.v
QueueInv.v
CrankInv.v
ProviderEffects.v
SystemEffects.v
MarketSystem.v
Factory.v
FactoryInv.v
TokenProxy.v
Sanity.v
SanityInv.v
EntrySpec.v
Vault.v
VaultInv.v
Queries.v
QueriesInv.v
Countertrade.v
CountertradeInv.v
CopyTrading.v
CopyTradingWork.v
CopyTradingInv.v
CopyTradingSpec.v
CopyTradingValue.v
Keys.v
Faucet.v
Tracker.v
FaucetInv.v
