(* ===== verification/Prelude.v ===== *)
(** * Levana Perps: a verification development

    This library models the smart contracts of the Levana perpetual swaps
    protocol (the Rust sources under [src/packages/perpswap] and
    [src/contracts]) and proves the properties its components are relied on
    for.  This file is the root: its header documents the whole development,
    and the file itself holds the notions every other file shares (results,
    handlers, dispatch helpers, integer and list lemmas, tactics, the scope
    [perps_scope]).

    ** The program

    A market contract ([src/contracts/market]) lets liquidity providers
    deposit collateral and traders open leveraged positions against it.  The
    providers own shares of the pool (LP, or xLP which is locked longer and
    earns more) and earn the borrow fees and trading fees traders pay; traders
    pay each other funding according to which side is more popular, and pay a
    delta neutrality fee (or receive it) according to how much they move the
    balance of the market.  What a trader asks for is queued and executed
    later, at a price published after the request: bots call the crank, which
    picks one piece of work after another (liquidations, liquifunding,
    triggers of limit orders, deferred requests, resets, shutdowns) and runs
    it.  A factory ([src/contracts/factory]) creates the markets, holds the
    roles and switches parts of the protocol off.  The LP tokens and the
    positions are presented as CW20 and CW721 tokens by facade contracts
    ([src/contracts/liquidity_token], [src/contracts/position_token]), and a
    cw20 contract ([src/contracts/cw20]) can hold the collateral.  Three
    contracts invest other people's money in markets: the vault
    ([src/contracts/vault]) spreads deposits over the pools of several
    markets, the countertrade contract ([src/contracts/countertrade]) trades
    against the popular side of one market, the copy trading contract
    ([src/contracts/copy_trading]) lets a leader trade with the pooled funds
    of others.  All amounts are unsigned 256 bit decimals with 18 digits or
    signed numbers built from them ([src/packages/perpswap/src/number]).

    ** How the code is modelled

    - Every Rust [Result] is a [result E A]; code that reads and writes the
      store is a [handler S E A], a state and error monad whose failures lose
      the changes, as a failing message does on chain.
    - 256 bit decimals are integers (the raw atomics), with the overflow,
      underflow and division checks of the library written out.  The
      arithmetic of the third-party numbers is the type class
      [Cosmwasm.CosmwasmStd] with the laws [CosmwasmStdSpec], whose instance
      [cosmwasm_ref] is used by the witnesses.  Operators that panic in Rust
      ([+], [-] on durations, [expect], [assert!]) are errors with the domain
      of a panic, so no theorem silently assumes that they succeed; the
      release profile keeps overflow checks and drops debug assertions.
    - A storage [Map] is a [gmap], an [Item] a field of a record; ordered
      iteration is [Storage.range_asc] and [range_desc], a prefix of a
      composite key [Index.v].  A handler of the market works on
      [State.MarketCtx] (all stores of the market and the response under
      construction) and reads [State.State] (configuration, environment,
      market id, token); the other contracts have one record of stores each.
    - What other contracts and the chain answer to a query is a parameter: a
      record of functions in [Entry], [Vault], [Countertrade] and
      [CopyTrading].  Messages a contract sends are data in its response.
    - Errors keep their identifier, domain and payload; message texts are
      kept where the code has nothing else.  Events of the market are
      constructors with the payload the code emits; the events of the vault,
      the countertrade and the copy trading contracts, which nothing in the
      repository's contracts reads, are dropped.

    ** Files and the sources they model

    - [Storage], [Index]: the ordered iteration of cw-storage-plus maps and
      secondary indexes; [Keys]: the bytes of the keys the code defines
      itself ([storage.rs], [time.rs], [types.rs] and the key types of the
      contracts), which justify the order those files iterate in.
    - [Cosmwasm], [Types], [Number]: Uint128/Uint256/Decimal256 arithmetic,
      the error types ([error.rs]), [number/*.rs].
    - [Time], [Market], [Price], [Token]: [time.rs], [market_type.rs],
      [price.rs] with [direction.rs], [leverage.rs] and [max_gains.rs],
      [token.rs] with the fund transfers of [state/token.rs].
    - [Text]: the text forms of timestamps, numbers, identifiers, max gains,
      take profit prices, directions and the prices of Pyth feeds.
    - [Cw20]: the whole cw20 contract, its ledger specification and the
      refinement theorem.
    - [DataSeries]: [state/data_series.rs], the cumulative rate series.
    - [Config]: [config.rs] of the market and [state/config.rs].
    - [Position], [Trading]: [contracts/market/position.rs], settlement of
      price exposure and liquidation prices; the records of orders, deferred
      executions and crank work.
    - [State]: [state.rs] and the stores of all components of the market.
    - [Pool], [LpHistory], [Liquidity], [LiquidityCache], [LpToken]: the
      liquidity pool ([state/liquidity.rs], [liquidity/stats.rs],
      [history/lp.rs], [referral.rs]) and its tokens ([liquidity/cw20.rs]).
    - [Fees], [Funding], [DeltaNeutrality], [OpenInterest]: [state/fees.rs],
      [state/funding.rs] with its submodules and [PositionFeeSettlement],
      [delta_neutrality_fee.rs], [AdjustOpenInterest].
    - [PositionStore], [PositionToken], [TradeHistory], [SpotPrice]:
      [state/position.rs], [position/cw721.rs], [history/trade.rs],
      [state/spot_price.rs].
    - [ClosePosition], [OpenPosition], [UpdatePosition], [Orders],
      [Deferred], [Crank]: [position/{liquifund,close}.rs],
      [position/{take_profit,validate,open}.rs], [position/update.rs],
      [state/order.rs], [deferred_execution.rs], [crank.rs] with
      [shutdown.rs].
    - [Entry], [Queries]: [contract.rs]: instantiate, execute, sudo, reply;
      every query.
    - [MarketSystem]: the transactions of a chain that reach a market.
    - [Books], [LiquidityInv], [LpTokenInv], [FeesInv], [LiquiditySystem],
      [LpTokenSpec], [LiquidityReset], [FundingInv], [DeltaNeutralityInv]:
      what the pool and the fees keep and guarantee.
    - [BalanceSheet], [PositionStoreInv], [BalanceEffects], [MarketInv],
      [ClosingInv], [PositionMsgs], [OrdersInv], [DeferredInv], [QueueInv],
      [CrankInv], [ProviderEffects], [SystemEffects]: the effect of every
      operation on the market's balance sheet, and the invariant of the
      market, as the lemmas of the solvency theorem in [MarketSystem].
    - [Sanity], [SanityInv]: [state/sanity.rs], the consistency checks of the
      test builds, and what they find in the states the invariants allow.
    - [EntrySpec], [QueriesInv]: who may send what; what queries answer.
    - [Factory], [FactoryInv], [TokenProxy]: the factory contract and the
      token facades.
    - [Vault], [VaultInv]; [Countertrade], [CountertradeInv]: the vault and
      the countertrade contract.
    - [Tracker]; [Faucet], [FaucetInv]: the code registry and the faucet of
      the test networks.
    - [CopyTrading] ([types.rs], [state.rs], [common.rs], the messages,
      queries and instantiation), [CopyTradingWork] ([work.rs], [reply.rs]
      and the working half of [execute.rs]), [CopyTradingInv] (its books),
      [CopyTradingSpec] and [CopyTradingValue]: the copy trading contract.

    ** What the theorems show

    - The market: in every state the chain can reach the market's collateral
      is what it owes its traders, providers, fee accounts and waiting
      requests, so that every payment is covered; the collateral locked for the
      positions is exact but for the dust that emptying the pool writes off;
      every message checks its
      sender, the shutdown switches and the funds that come with it.  The
      checks the test builds run on the state compute what the invariants say,
      and fail in exactly the named cases.
    - Liquidity: the books balance in every reachable state, no provider
      message lowers the collateral backing a share, every provider's yield
      is backed by the collected fees, unstaking vests linearly, the reset of
      an emptied pool ends after finitely many cranks, the cache in front of
      the store is transparent, transfers of the LP tokens are exact; and, as
      a finding, a referrer's claim can starve a provider.
    - Fees: funding payments are always covered by the other traders' margin,
      fee settlement conserves collateral, the borrow rate stays in its
      configured range, the funding rates balance, the delta neutrality fund
      is never overdrawn and its fee depends on the end points of a trade
      only, open interest respects the cap.
    - Positions: settling price exposure conserves collateral and the
      liquidation price is the price that exhausts the active collateral; the
      position query settles exposure as closing would; the pages of the
      limit order query list each order once.
    - Data series: the cumulative sums are integrals of the recorded rates.
    - Cw20: an invariant of all reachable states and the refinement of an
      abstract ledger.
    - Factory: a shutdown holds until it is undone; the referral codes agree
      with the referees.
    - Vault: the books agree, withdrawals are paid in the order of the queue,
      redistribution does not touch what is owed; deposits can be diluted.
    - Countertrade: the shares add up, a share's value never falls by a
      deposit or withdrawal, the search for a position hits the target rate;
      and the states in which the contract cannot work.
    - Copy trading: the queues, shares and pending deposits agree, a share's
      value computed in one transaction counts everything the markets hold,
      the leader is paid for new highs only; and the states in which the
      queues stand still or a share is valued wrongly.
    - Tracker and faucet: the registry is well formed and its queries total;
      the faucet's history is exact and a wallet waits between taps, but the
      limit of a trading competition can be bypassed.
    - Identifiers and keys: the market id round trip; the encoded storage keys
      sort as the keys do, so that the iteration of [Storage] is the one of
      the store, and are read back, with one exception.
    - Below the level of properties, [Number], [Config], [Cw20] and [Text]
      prove the exactness of checked arithmetic, the meaning of validation,
      the authorisation of tokens, and that text forms are read back.

    ** Bounds and fuel

    Loops over finite lists and maps recurse on them.  The exceptions:
    - the reset of the pool is a sequence of cranks, and [LiquidityReset]
      gives the number of cranks that completes it;
    - the search of the countertrade contract has the configured number of
      iterations as its fuel, as in the code;
    - the loops of the copy trading contract over pages are bounded by the
      budget of queries, which is their fuel ([budget_fuel]: a page costs a
      query, so the budget ends first), except the loop over limit orders in
      [process_single_market], which nothing but gas ends: the gas is a
      parameter ([ce_gas]).

    ** Not modelled

    - JSON serialisation derived by serde ([from_json] of a CW20 message is a
      parameter) and the rendering of events as attributes, except where a
      contract reads them back; the hand-written key bytes and text forms are
      in [Keys] and [Text].
    - [migrate] of every contract: it checks and writes a version.
    - Debug assertions, which the release profile compiles out; the checks of
      [sanity.rs], compiled for the tests, are modelled in [Sanity].
    - The off-chain programs under [src/packages/perps-exes] (bots, indexer,
      deployment), which are asynchronous clients of chains and services, and
      the test harness and fuzzer ([src/packages/multi_test],
      [src/packages/fuzz]). *)

From stdpp Require Import base gmap strings list sorting.
From Stdlib Require Import ZArith Lia.

Declare Scope perps_scope.
Delimit Scope perps_scope with perps.
Open Scope perps_scope.
Local Open Scope Z_scope.

(** ** Fallible computations: Rust's [Result<T, E>] *)

Inductive result (E A : Type) : Type :=
| Ok (a : A)
| Err (e : E).
Arguments Ok {E A} a.
Arguments Err {E A} e.

Definition rbind {E A B} (c : result E A) (k : A -> result E B) : result E B :=
  match c with
  | Ok a => k a
  | Err e => Err e
  end.

(** [opt.ok_or(e)] / [opt.context(e)]: an absent value becomes an error. *)
Definition of_option {E A} (e : E) (o : option A) : result E A :=
  match o with
  | Some a => Ok a
  | None => Err e
  end.

(** [res.ok()]: forget the error. *)
Definition res_ok {E A} (r : result E A) : option A :=
  match r with
  | Ok a => Some a
  | Err _ => None
  end.

(** [ensure!(cond, e)]. *)
Definition ensure {E} (b : bool) (e : E) : result E unit :=
  if b then Ok tt else Err e.

Definition is_ok {E A} (r : result E A) : bool :=
  match r with
  | Ok _ => true
  | Err _ => false
  end.

Definition is_some {A} (o : option A) : bool := match o with Some _ => true | None => false end.
Definition is_empty {A} (l : list A) : bool := match l with [] => true | _ => false end.

(** ** Handlers: state passing with errors

    A contract entry point reads and writes storage and can fail; a failure
    discards every write (the chain reverts the message), so the state is
    returned only on success. *)

Definition handler (S E A : Type) : Type := S -> result E (A * S).

Definition hret {S E A} (a : A) : handler S E A := fun s => Ok (a, s).
Definition herr {S E A} (e : E) : handler S E A := fun _ => Err e.
Definition hlift {S E A} (r : result E A) : handler S E A :=
  fun s => match r with Ok a => Ok (a, s) | Err e => Err e end.
Definition hget {S E A} (f : S -> A) : handler S E A := fun s => Ok (f s, s).
Definition hask {S E A} (f : S -> result E A) : handler S E A :=
  fun s => match f s with Ok a => Ok (a, s) | Err e => Err e end.
Definition hmod {S E} (f : S -> S) : handler S E unit := fun s => Ok (tt, f s).
Definition hbind {S E A B} (c : handler S E A) (k : A -> handler S E B) : handler S E B :=
  fun s => match c s with Ok (a, s') => k a s' | Err e => Err e end.
Definition hensure {S E} (b : bool) (e : E) : handler S E unit :=
  if b then hret tt else herr e.

Notation "x <- c ; k" := (rbind c (fun x => k))
  (at level 20, c at level 100, k at level 200, only parsing) : perps_scope.
Notation "' p <- c ; k" := (rbind c (fun x => match x with p => k end))
  (at level 20, p pattern, c at level 100, k at level 200, only parsing) : perps_scope.
Notation "x <~ c ; k" := (hbind c (fun x => k))
  (at level 20, c at level 100, k at level 200, only parsing) : perps_scope.
Notation "' p <~ c ; k" := (hbind c (fun x => match x with p => k end))
  (at level 20, p pattern, c at level 100, k at level 200, only parsing) : perps_scope.
Notation "c ;;; k" := (hbind c (fun _ => k))
  (at level 100, k at level 200, right associativity, only parsing) : perps_scope.

(** *** Inversion lemmas: what a successful run did *)

Section Inversion.
Context {S E A B : Type}.

Lemma rbind_ok (c : result E A) (k : A -> result E B) b :
  rbind c k = Ok b <-> exists a, c = Ok a /\ k a = Ok b.
Proof. destruct c; simpl; naive_solver. Qed.

Lemma of_option_ok (e : E) (o : option A) a :
  of_option e o = Ok a <-> o = Some a.
Proof. destruct o; simpl; naive_solver. Qed.

Lemma res_ok_some (r : result E A) a : res_ok r = Some a <-> r = Ok a.
Proof. destruct r; simpl; naive_solver. Qed.

Lemma ensure_ok b (e : E) u : ensure b e = Ok u <-> b = true.
Proof. destruct b, u; simpl; naive_solver. Qed.

Lemma hbind_ok (c : handler S E A) (k : A -> handler S E B) s b s' :
  hbind c k s = Ok (b, s') <-> exists a s1, c s = Ok (a, s1) /\ k a s1 = Ok (b, s').
Proof. unfold hbind. destruct (c s) as [[a s1]|e]; naive_solver. Qed.

Lemma hlift_ok (r : result E A) (s s' : S) a :
  hlift r s = Ok (a, s') <-> r = Ok a /\ s' = s.
Proof. unfold hlift. destruct r; naive_solver. Qed.

Lemma hask_ok (f : S -> result E A) (s s' : S) a :
  hask f s = Ok (a, s') <-> f s = Ok a /\ s' = s.
Proof. unfold hask. destruct (f s); naive_solver. Qed.

Lemma hget_ok (f : S -> A) (s s' : S) a :
  hget (E:=E) f s = Ok (a, s') <-> a = f s /\ s' = s.
Proof. unfold hget. naive_solver. Qed.

Lemma hmod_ok (f : S -> S) (s s' : S) u :
  hmod (E:=E) f s = Ok (u, s') <-> s' = f s.
Proof. unfold hmod. destruct u. naive_solver. Qed.

Lemma hret_ok (a a' : A) (s s' : S) :
  hret (E:=E) a s = Ok (a', s') <-> a' = a /\ s' = s.
Proof. unfold hret. naive_solver. Qed.

Lemma hensure_ok b (e : E) (s s' : S) u :
  hensure b e s = Ok (u, s') <-> b = true /\ s' = s.
Proof. unfold hensure, hret, herr. destruct b, u; naive_solver. Qed.
End Inversion.

Lemma is_ok_Ok {E A} (r : result E A) : is_ok r = true -> exists a, r = Ok a.
Proof. destruct r as [a|e]; [by exists a|done]. Qed.

Lemma herr_not_ok {S E A} (e : E) (s : S) (x : A * S) : herr e s = Ok x -> False.
Proof. discriminate. Qed.

(** Invert every successful bind, lift and guard in the context. *)
Ltac inv_ok1 :=
  match goal with
  | H : rbind _ _ = Ok _ |- _ => apply rbind_ok in H; destruct H as (? & ? & H)
  | H : hbind _ _ _ = Ok _ |- _ =>
      apply hbind_ok in H; destruct H as (? & ? & ? & H)
  | H : of_option _ _ = Ok _ |- _ => apply of_option_ok in H
  | H : ensure _ _ = Ok _ |- _ => apply ensure_ok in H
  | H : hlift _ _ = Ok _ |- _ => apply hlift_ok in H; destruct H as (H & ->)
  | H : hask _ _ = Ok _ |- _ => apply hask_ok in H; destruct H as (H & ->)
  | H : hget _ _ = Ok _ |- _ => apply hget_ok in H; destruct H as (-> & ->)
  | H : hmod _ _ = Ok _ |- _ => apply hmod_ok in H; subst
  | H : hret _ _ = Ok _ |- _ => apply hret_ok in H; destruct H as (-> & ->)
  | H : hensure _ _ _ = Ok _ |- _ => apply hensure_ok in H; destruct H as (H & ->)
  | H : herr _ _ = Ok _ |- _ => exfalso; exact (herr_not_ok _ _ _ H)
  | H : Err _ = Ok _ |- _ => discriminate H
  | H : Ok _ = Err _ |- _ => discriminate H
  | H : Ok _ = Ok _ |- _ => injection H as H; try subst
  | H : (_, _) = (_, _) |- _ => injection H as ? ?; try subst
  | H : Some _ = Some _ |- _ => injection H as H; try subst
  | H : None = Some _ |- _ => discriminate H
  | H : Some _ = None |- _ => discriminate H
  | x : unit |- _ => destruct x
  end.
Ltac inv_ok := repeat inv_ok1.

(** The same, also splitting on the conditions a successful run went through. *)
Ltac inv_branch1 :=
  match goal with
  | H : (if ?b then _ else _) = Ok _ |- _ => destruct b eqn:?
  | H : (if ?b then _ else _) _ = Ok _ |- _ => destruct b eqn:?
  | H : match ?x with _ => _ end = Ok _ |- _ => destruct x eqn:?
  | H : match ?x with _ => _ end _ = Ok _ |- _ => destruct x eqn:?
  end.
Ltac inv_all := repeat (inv_ok1 || (inv_branch1; try discriminate)).

(** Expose one bind of a successful run. *)
Ltac step_in H x m1 Hx :=
  apply hbind_ok in H; destruct H as (x & m1 & Hx & H).
Ltac lift_in H x Hx :=
  apply hbind_ok in H; destruct H as (x & ? & Hx & H);
  first [apply hlift_ok in Hx | apply hask_ok in Hx]; destruct Hx as [Hx ->].
Ltac get_in H := apply hget_ok in H; destruct H as [-> ->].

(** Turn boolean comparisons into propositions. *)
Ltac bool_prop :=
  repeat match goal with
  | H : (_ && _)%bool = true |- _ => apply andb_true_iff in H as [? ?]
  | H : (_ || _)%bool = false |- _ => apply orb_false_iff in H as [? ?]
  | H : negb _ = true |- _ => apply negb_true_iff in H
  | H : negb _ = false |- _ => apply negb_false_iff in H
  | H : (_ =? _) = true |- _ => apply Z.eqb_eq in H
  | H : (_ =? _) = false |- _ => apply Z.eqb_neq in H
  | H : (_ <? _) = true |- _ => apply Z.ltb_lt in H
  | H : (_ <? _) = false |- _ => apply Z.ltb_ge in H
  | H : (_ <=? _) = true |- _ => apply Z.leb_le in H
  | H : (_ <=? _) = false |- _ => apply Z.leb_gt in H
  | H : bool_decide _ = true |- _ => apply bool_decide_eq_true_1 in H
  | H : bool_decide _ = false |- _ => apply bool_decide_eq_false_1 in H
  end.

(** ** Invariants of handlers *)

Definition preserves {S E A} (P : S -> Prop) (h : handler S E A) : Prop :=
  forall s a s', P s -> h s = Ok (a, s') -> P s'.

Section Preserves.
Context {S E : Type} (P : S -> Prop).

Lemma preserves_ret {A} (a : A) : preserves P (hret (E:=E) a).
Proof. intros s b s' HP H. inv_ok. done. Qed.
Lemma preserves_err {A} (e : E) : preserves P (herr (A:=A) e).
Proof. intros s b s' HP H. inv_ok. Qed.
Lemma preserves_lift {A} (r : result E A) : preserves P (hlift r).
Proof. intros s b s' HP H. inv_ok. done. Qed.
Lemma preserves_ask {A} (f : S -> result E A) : preserves P (hask f).
Proof. intros s b s' HP H. inv_ok. done. Qed.
Lemma preserves_get {A} (f : S -> A) : preserves P (hget (E:=E) f).
Proof. intros s b s' HP H. inv_ok. done. Qed.
Lemma preserves_ensure b (e : E) : preserves P (hensure b e).
Proof. intros s u s' HP H. inv_ok. done. Qed.
Lemma preserves_mod (f : S -> S) :
  (forall s, P s -> P (f s)) -> preserves P (hmod (E:=E) f).
Proof. intros Hf s b s' HP H. inv_ok. auto. Qed.
Lemma preserves_bind {A B} (c : handler S E A) (k : A -> handler S E B) :
  preserves P c -> (forall a, preserves P (k a)) -> preserves P (hbind c k).
Proof. intros Hc Hk s b s' HP H. inv_ok. eapply Hk; [|done]. by eapply Hc. Qed.
Lemma preserves_if {A} (b : bool) (h1 h2 : handler S E A) :
  preserves P h1 -> preserves P h2 -> preserves P (if b then h1 else h2).
Proof. by destruct b. Qed.
End Preserves.

Create HintDb perps.
#[export] Hint Resolve preserves_ret preserves_err preserves_lift preserves_ask
  preserves_get preserves_ensure preserves_bind preserves_if : perps.

(** The head of an application. *)
Ltac head_of t := lazymatch t with ?f _ => head_of f | _ => t end.

(** A part of the state that no update of a handler touches: follow the
    handler's structure down to the updates, and to what [known] solves. *)
Ltac frame_with known :=
  repeat first
    [ progress intros
    | solve [known]
    | apply preserves_bind | apply preserves_lift | apply preserves_ask | apply preserves_get
    | apply preserves_ensure | apply preserves_ret | apply preserves_err
    | apply preserves_mod; let m := fresh in let Hm := fresh in intros m Hm;
      repeat match goal with |- context [if ?b then _ else _] => destruct b end; exact Hm
    | match goal with
      | |- preserves _ (match ?x with _ => _ end) => destruct x
      | |- preserves _ ?h => let f := head_of h in unfold f
      end
    | progress cbv zeta ].
Ltac frame := frame_with fail.

(** ** Machine words *)

Definition U64_MAX : Z := 2 ^ 64 - 1.
Definition U128_MAX : Z := 2 ^ 128 - 1.
Definition U256_MAX : Z := 2 ^ 256 - 1.

Definition u64_ok (z : Z) : bool := (0 <=? z) && (z <=? U64_MAX).
Definition u128_ok (z : Z) : bool := (0 <=? z) && (z <=? U128_MAX).
Definition u256_ok (z : Z) : bool := (0 <=? z) && (z <=? U256_MAX).

Lemma u64_ok_true z : u64_ok z = true <-> 0 <= z <= U64_MAX.
Proof. unfold u64_ok. rewrite andb_true_iff, !Z.leb_le. done. Qed.
Lemma u128_ok_true z : u128_ok z = true <-> 0 <= z <= U128_MAX.
Proof. unfold u128_ok. rewrite andb_true_iff, !Z.leb_le. done. Qed.
Lemma u256_ok_true z : u256_ok z = true <-> 0 <= z <= U256_MAX.
Proof. unfold u256_ok. rewrite andb_true_iff, !Z.leb_le. done. Qed.
