(* ===== verification/Index.v ===== *)
(** * Ordered indexes

    Several stores are indexes: [Map]s over a composite key whose byte encoding
    sorts by the first component and then by the second ([(PriceKey,
    PositionId)], [(Timestamp, PositionId)], [(PriceKey, OrderId)]), read with
    [range(..).next()] or [prefix_range(..).next()] in either order.  Keys are
    unsigned integers encoded big-endian, so the order is the numeric one.
    [KeyOrder] is what an iteration needs of its keys; [entry_min] and
    [entry_max] are the first entry in ascending and in descending order. *)

From stdpp Require Import base option gmap list sorting.
From Stdlib Require Import ZArith Lia.
From S2P Require Import Prelude.
Local Open Scope Z_scope.

Class KeyOrder (K : Type) := {
  key_lt : K -> K -> bool;
  key_lt_irrefl k : key_lt k k = false;
  key_lt_trans a b c : key_lt a b = true -> key_lt b c = true -> key_lt a c = true;
  key_lt_total a b : key_lt a b = false -> key_lt b a = false -> a = b;
}.

#[export, program] Instance KeyOrder_Z : KeyOrder Z := {| key_lt := Z.ltb |}.
Next Obligation. intros k. apply Z.ltb_irrefl. Qed.
Next Obligation. intros a b c. rewrite !Z.ltb_lt. lia. Qed.
Next Obligation. intros a b. rewrite !Z.ltb_ge. lia. Qed.

(** The order of a composite key. *)
Definition pair_lt (a b : Z * Z) : bool := (a.1 <? b.1) || ((a.1 =? b.1) && (a.2 <? b.2)).

Lemma pair_lt_true a b : pair_lt a b = true <-> a.1 < b.1 \/ (a.1 = b.1 /\ a.2 < b.2).
Proof. unfold pair_lt. rewrite orb_true_iff, andb_true_iff, !Z.ltb_lt, Z.eqb_eq. done. Qed.
Lemma pair_lt_false a b : pair_lt a b = false <-> b.1 < a.1 \/ (b.1 = a.1 /\ b.2 <= a.2).
Proof.
  destruct (pair_lt a b) eqn:E.
  - apply pair_lt_true in E. split; [done|lia].
  - split; [intros _|done]. destruct (Z.lt_total b.1 a.1) as [|[|]]; try lia.
    + right. split; [done|]. apply Z.nlt_ge. intros Hlt.
      rewrite (proj2 (pair_lt_true a b)) in E; [done|lia].
    + rewrite (proj2 (pair_lt_true a b)) in E; [done|lia].
Qed.

#[export, program] Instance KeyOrder_pair : KeyOrder (Z * Z) := {| key_lt := pair_lt |}.
Next Obligation. intros k. apply pair_lt_false. lia. Qed.
Next Obligation. intros a b c. rewrite !pair_lt_true. lia. Qed.
Next Obligation.
  intros [a1 a2] [b1 b2]. rewrite !pair_lt_false. simpl. intros. f_equal; lia.
Qed.

Section Entries.
Context {K V : Type} `{Countable K} `{KeyOrder K}.

(** The entry no other admitted entry comes [before]. *)
Definition choose (before : K -> K -> bool) (P : K -> bool) (e : K * V) (acc : option (K * V)) :
    option (K * V) :=
  if P e.1 then
    match acc with
    | Some a => if before a.1 e.1 then Some a else Some e
    | None => Some e
    end
  else acc.

Definition entry_min (P : K -> bool) (m : gmap K V) : option (K * V) :=
  foldr (choose key_lt P) None (map_to_list m).
Definition entry_max (P : K -> bool) (m : gmap K V) : option (K * V) :=
  foldr (choose (fun a b => key_lt b a) P) None (map_to_list m).

Definition is_first (before : K -> K -> bool) (P : K -> bool) (l : list (K * V))
    (r : option (K * V)) : Prop :=
  match r with
  | Some e => e ∈ l /\ P e.1 = true /\
              forall e', e' ∈ l -> P e'.1 = true -> before e'.1 e.1 = false
  | None => forall e, e ∈ l -> P e.1 = false
  end.

Lemma choose_first before P l :
  (forall k, before k k = false) ->
  (forall a b c, before a b = true -> before b c = true -> before a c = true) ->
  (forall a b, before a b = false -> before b a = false -> a = b) ->
  is_first before P l (foldr (choose before P) None l).
Proof.
  intros Hirr Htr Htot. induction l as [|e l IH]; simpl; [by intros e He%elem_of_nil|].
  unfold choose at 1. destruct (P e.1) eqn:HP.
  - destruct (foldr _ None l) as [a|]; simpl in *.
    + destruct IH as (Ha & HPa & Hmin). destruct (before a.1 e.1) eqn:Hb; simpl.
      * split; [by right|]. split; [done|]. intros e' [->|He']%elem_of_cons HP'; [|auto].
        destruct (before e.1 a.1) eqn:E; [|done].
        specialize (Htr _ _ _ Hb E). by rewrite Hirr in Htr.
      * split; [by left|]. split; [done|]. intros e' [->|He']%elem_of_cons HP'; [by rewrite Hirr|].
        destruct (before e'.1 e.1) eqn:E; [|done]. specialize (Hmin _ He' HP').
        destruct (before e.1 a.1) eqn:E2.
        -- specialize (Htr _ _ _ E E2). congruence.
        -- rewrite (Htot _ _ Hb E2) in Hmin. congruence.
    + split; [by left|]. split; [done|]. intros e' [->|He']%elem_of_cons HP'; [by rewrite Hirr|].
      by rewrite (IH _ He') in HP'.
  - destruct (foldr _ None l) as [a|]; simpl in *.
    + destruct IH as (Ha & HPa & Hmin). split; [by right|]. split; [done|].
      intros e' [->|He']%elem_of_cons HP'; [congruence|auto].
    + intros e' [->|He']%elem_of_cons; auto.
Qed.

Lemma entry_min_Some P (m : gmap K V) k v :
  entry_min P m = Some (k, v) ->
  m !! k = Some v /\ P k = true /\
  forall k' v', m !! k' = Some v' -> P k' = true -> key_lt k' k = false.
Proof.
  intros He. pose proof (choose_first key_lt P (map_to_list m) key_lt_irrefl key_lt_trans
    key_lt_total) as Hf. fold (entry_min P m) in Hf. rewrite He in Hf.
  destruct Hf as (Hin & HP & Hmin). split; [by apply elem_of_map_to_list|]. split; [done|].
  intros k' v' Hk'. apply (Hmin (k', v')). by apply elem_of_map_to_list.
Qed.

Lemma entry_min_None P (m : gmap K V) k v :
  entry_min P m = None -> m !! k = Some v -> P k = false.
Proof.
  intros He Hk. pose proof (choose_first key_lt P (map_to_list m) key_lt_irrefl key_lt_trans
    key_lt_total) as Hf. fold (entry_min P m) in Hf. rewrite He in Hf.
  apply (Hf (k, v)). by apply elem_of_map_to_list.
Qed.

Lemma entry_max_first P (m : gmap K V) :
  is_first (fun a b => key_lt b a) P (map_to_list m) (entry_max P m).
Proof.
  apply choose_first.
  - apply key_lt_irrefl.
  - intros a b c Hab Hbc. by eapply key_lt_trans.
  - intros a b Hab Hba. by apply key_lt_total.
Qed.

Lemma entry_max_Some P (m : gmap K V) k v :
  entry_max P m = Some (k, v) ->
  m !! k = Some v /\ P k = true /\
  forall k' v', m !! k' = Some v' -> P k' = true -> key_lt k k' = false.
Proof.
  intros He. pose proof (entry_max_first P m) as Hf. rewrite He in Hf.
  destruct Hf as (Hin & HP & Hmax). split; [by apply elem_of_map_to_list|]. split; [done|].
  intros k' v' Hk'. apply (Hmax (k', v')). by apply elem_of_map_to_list.
Qed.

Lemma entry_max_None P (m : gmap K V) k v :
  entry_max P m = None -> m !! k = Some v -> P k = false.
Proof.
  intros He Hk. pose proof (entry_max_first P m) as Hf. rewrite He in Hf.
  apply (Hf (k, v)). by apply elem_of_map_to_list.
Qed.

(** An entry is found exactly when one is admitted. *)
Lemma entry_min_is_Some P (m : gmap K V) :
  is_Some (entry_min P m) <-> exists k v, m !! k = Some v /\ P k = true.
Proof.
  split.
  - intros [[k v] He]. apply entry_min_Some in He as (Hk & HP & _). eauto.
  - intros (k & v & Hk & HP). destruct (entry_min P m) as [e|] eqn:He; [by eexists|].
    by rewrite (entry_min_None _ _ _ _ He Hk) in HP.
Qed.
Lemma entry_max_is_Some P (m : gmap K V) :
  is_Some (entry_max P m) <-> exists k v, m !! k = Some v /\ P k = true.
Proof.
  split.
  - intros [[k v] He]. apply entry_max_Some in He as (Hk & HP & _). eauto.
  - intros (k & v & Hk & HP). destruct (entry_max P m) as [e|] eqn:He; [by eexists|].
    by rewrite (entry_max_None _ _ _ _ He Hk) in HP.
Qed.
End Entries.

(** [range(.., Order::Ascending)] and [range(.., Order::Descending)]: every
    admitted entry in key order. *)
Section Range.
Context {K V : Type} `{Countable K} `{KeyOrder K}.

Definition entry_le (a b : K * V) : Prop := key_lt b.1 a.1 = false.
#[global] Instance entry_le_dec a b : Decision (entry_le a b).
Proof. unfold entry_le. apply _. Defined.

Definition range_asc (P : K -> bool) (m : gmap K V) : list (K * V) :=
  merge_sort entry_le (filter (fun e => P e.1 = true) (map_to_list m)).
Definition range_desc (P : K -> bool) (m : gmap K V) : list (K * V) := reverse (range_asc P m).

#[global] Instance entry_le_total : Total entry_le.
Proof.
  intros a b. unfold entry_le. destruct (key_lt b.1 a.1) eqn:E; [|by left]. right.
  destruct (key_lt a.1 b.1) eqn:E2; [|done].
  pose proof (key_lt_trans _ _ _ E E2) as E3. by rewrite key_lt_irrefl in E3.
Qed.
#[global] Instance entry_le_trans : Transitive entry_le.
Proof.
  intros a b c. unfold entry_le. intros Hab Hbc. destruct (key_lt c.1 a.1) eqn:E; [|done].
  destruct (key_lt a.1 b.1) eqn:E2.
  - pose proof (key_lt_trans _ _ _ E E2). congruence.
  - rewrite (key_lt_total _ _ E2 Hab) in E. congruence.
Qed.

Lemma range_asc_spec P (m : gmap K V) :
  StronglySorted entry_le (range_asc P m) /\ NoDup (range_asc P m).*1 /\
  forall k v, (k, v) ∈ range_asc P m <-> m !! k = Some v /\ P k = true.
Proof.
  unfold range_asc. split_and!.
  - apply StronglySorted_merge_sort; apply _.
  - rewrite merge_sort_Permutation. apply (sublist_NoDup _ (map_to_list m).*1);
      [apply NoDup_fst_map_to_list|apply fmap_sublist, sublist_filter].
  - intros k v. rewrite merge_sort_Permutation, list_elem_of_filter, elem_of_map_to_list. naive_solver.
Qed.
End Range.

(** [map.prefix(a)]: the entries of a composite key under its first part. *)
Definition prefix_of {A B V} `{Countable A, Countable B} (a : A) (m : gmap (A * B) V) : gmap B V :=
  map_fold (fun k v acc => if bool_decide (k.1 = a) then <[k.2 := v]> acc else acc) ∅ m.
Lemma prefix_of_lookup {A B V} `{Countable A, Countable B} (a : A) (m : gmap (A * B) V) b :
  prefix_of a m !! b = m !! (a, b).
Proof.
  unfold prefix_of. apply (map_fold_weak_ind (fun (r : gmap B V) (m : gmap (A * B) V) => r !! b = m !! (a, b))).
  - by rewrite !lookup_empty.
  - intros [x y] v m' r Hm IH. simpl. destruct (bool_decide (x = a)) eqn:E; bool_prop.
    + subst x. destruct (decide (y = b)) as [->|Hne].
      * by rewrite !lookup_insert_eq.
      * rewrite !lookup_insert_ne by congruence. done.
    + rewrite lookup_insert_ne by congruence. done.
Qed.

(** The last id used under a numeric prefix ([MonotonicMultilevelMap]; the one
    for a string prefix is [last_id]). *)
Definition last_id_pair {V} (k : Z) (m : gmap (Z * Z) V) : option Z :=
  match entry_max (fun key => key.1 =? k) m with
  | Some ((_, i), _) => Some i
  | None => None
  end.
