(* ===== verification/Storage.v ===== *)
(** * Contract storage

    [cw_storage_plus::Item<T>] is a field of the component's state record (an
    [option] where the code distinguishes the unset item), and
    [cw_storage_plus::Map<K, V>] a stdpp [gmap].  This file has what the code
    uses of ordered iteration ([range], [keys], [prefix]) and the sums the
    accounting invariants are stated with. *)

From stdpp Require Import base gmap strings list sorting.
From Stdlib Require Import ZArith Lia Ascii.
From S2P Require Import Prelude Index.
Local Open Scope Z_scope.

(** ** Sums over a map *)

Section MapSum.
Context {K V : Type} `{Countable K}.
Implicit Types (m : gmap K V) (f : V -> Z).

Definition map_sum (f : V -> Z) (m : gmap K V) : Z :=
  map_fold (fun _ v acc => f v + acc) 0 m.

Lemma map_sum_empty f : map_sum f ∅ = 0.
Proof. apply map_fold_empty. Qed.

Lemma map_sum_insert_new f m i x :
  m !! i = None -> map_sum f (<[i:=x]> m) = f x + map_sum f m.
Proof.
  intros Hi. unfold map_sum. rewrite map_fold_insert_L; [done| |done].
  intros. lia.
Qed.

Lemma map_sum_delete f m i x :
  m !! i = Some x -> map_sum f (delete i m) = map_sum f m - f x.
Proof.
  intros Hi. rewrite <- (insert_id m i x) at 2 by done.
  rewrite <- insert_delete_eq, map_sum_insert_new by apply lookup_delete_eq. lia.
Qed.

(** The value an absent key counts for is 0. *)
Definition map_get (f : V -> Z) (m : gmap K V) (i : K) : Z :=
  from_option f 0 (m !! i).

Lemma map_get_Some f m i x : m !! i = Some x -> map_get f m i = f x.
Proof. unfold map_get. by intros ->. Qed.

Lemma map_sum_insert f m i x :
  map_sum f (<[i:=x]> m) = map_sum f m - map_get f m i + f x.
Proof.
  unfold map_get. destruct (m !! i) as [y|] eqn:Hi; simpl.
  - rewrite <- insert_delete_eq, map_sum_insert_new by apply lookup_delete_eq.
    rewrite (map_sum_delete _ _ _ y) by done. lia.
  - rewrite map_sum_insert_new by done. lia.
Qed.

Lemma map_sum_remove f m i :
  map_sum f (delete i m) = map_sum f m - map_get f m i.
Proof.
  unfold map_get. destruct (m !! i) as [y|] eqn:Hi; simpl.
  - by apply map_sum_delete.
  - rewrite delete_id by done. lia.
Qed.

Lemma map_sum_nonneg f m :
  (forall i x, m !! i = Some x -> 0 <= f x) -> 0 <= map_sum f m.
Proof.
  induction m as [|i x m Hi IH] using map_ind; intros Hf.
  - rewrite map_sum_empty. lia.
  - rewrite map_sum_insert_new by done.
    specialize (Hf i x) as Hx. rewrite lookup_insert_eq in Hx.
    assert (0 <= map_sum f m); [|specialize (Hx eq_refl); lia].
    apply IH. intros j y Hj. apply (Hf j).
    rewrite lookup_insert_ne by congruence. done.
Qed.

Lemma map_sum_ge f m i x :
  (forall j y, m !! j = Some y -> 0 <= f y) -> m !! i = Some x -> f x <= map_sum f m.
Proof.
  intros Hf Hi.
  assert (0 <= map_sum f (delete i m)) as Hd.
  { apply map_sum_nonneg. intros j y Hj. apply lookup_delete_Some in Hj as [_ Hj]. eauto. }
  rewrite (map_sum_delete _ _ _ x) in Hd by done. lia.
Qed.

Lemma map_sum_ext f g m :
  (forall i x, m !! i = Some x -> f x = g x) -> map_sum f m = map_sum g m.
Proof.
  induction m as [|i x m Hi IH] using map_ind; intros Hfg.
  - by rewrite !map_sum_empty.
  - rewrite !map_sum_insert_new by done. rewrite IH.
    + f_equal. apply (Hfg i). apply lookup_insert_eq.
    + intros j y Hj. apply (Hfg j). rewrite lookup_insert_ne by congruence. done.
Qed.

Lemma map_sum_zero f m :
  (forall i x, m !! i = Some x -> f x = 0) -> map_sum f m = 0.
Proof.
  induction m as [|i x m Hi IH] using map_ind; intros Hf.
  - by rewrite map_sum_empty.
  - rewrite map_sum_insert_new by done. rewrite (Hf i x) by apply lookup_insert_eq.
    rewrite IH; [lia|]. intros j y Hj. apply (Hf j).
    rewrite lookup_insert_ne by congruence. done.
Qed.
End MapSum.

(** ** [map.range(store, None, max, Order::Descending).next()]

    The entry with the greatest key among those the bound admits.  Keys are
    [u64] (or newtypes of it), whose big-endian encoding sorts numerically. *)

Section LastEntry.
Context {V : Type}.

Definition later_entry (a : option (Z * V)) (k : Z) (v : V) : option (Z * V) :=
  match a with
  | Some (k', v') => if k' <? k then Some (k, v) else Some (k', v')
  | None => Some (k, v)
  end.

Definition last_entry (P : Z -> bool) (m : gmap Z V) : option (Z * V) :=
  map_fold (fun k v acc => if P k then later_entry acc k v else acc) None m.

(** What [last_entry] returns, as a relation. *)
Definition is_last_entry (P : Z -> bool) (m : gmap Z V) (r : option (Z * V)) : Prop :=
  match r with
  | Some (k, v) =>
      m !! k = Some v /\ P k = true /\
      (forall k' v', m !! k' = Some v' -> P k' = true -> k' <= k)
  | None => forall k v, m !! k = Some v -> P k = false
  end.

Lemma last_entry_spec P m : is_last_entry P m (last_entry P m).
Proof.
  unfold last_entry. apply (map_fold_weak_ind (fun r m => is_last_entry P m r)).
  - intros k v Hk. by rewrite lookup_empty in Hk.
  - intros i x m' r Hi IH. unfold is_last_entry in *.
    destruct (P i) eqn:HPi.
    + destruct r as [[k v]|]; simpl.
      * destruct IH as (Hk & HPk & Hmax). destruct (k <? i) eqn:Hlt.
        -- apply Z.ltb_lt in Hlt. split; [apply lookup_insert_eq|]. split; [done|].
           intros k' v' Hk' HPk'. destruct (decide (i = k')) as [->|Hne]; [lia|].
           rewrite lookup_insert_ne in Hk' by done. specialize (Hmax k' v' Hk' HPk'). lia.
        -- apply Z.ltb_ge in Hlt. assert (i <> k) by congruence.
           split; [by rewrite lookup_insert_ne|]. split; [done|].
           intros k' v' Hk' HPk'. destruct (decide (i = k')) as [->|Hne]; [lia|].
           rewrite lookup_insert_ne in Hk' by done. eauto.
      * split; [apply lookup_insert_eq|]. split; [done|].
        intros k' v' Hk' HPk'. destruct (decide (i = k')) as [->|Hne]; [lia|].
        rewrite lookup_insert_ne in Hk' by done.
        specialize (IH k' v' Hk'). congruence.
    + destruct r as [[k v]|].
      * destruct IH as (Hk & HPk & Hmax). assert (i <> k) by congruence.
        split; [by rewrite lookup_insert_ne|]. split; [done|].
        intros k' v' Hk' HPk'. destruct (decide (i = k')) as [->|Hne]; [congruence|].
        rewrite lookup_insert_ne in Hk' by done. eauto.
      * intros k v Hk. destruct (decide (i = k)) as [->|Hne]; [done|].
        rewrite lookup_insert_ne in Hk by done. eauto.
Qed.

Lemma last_entry_unique P m r : is_last_entry P m r -> last_entry P m = r.
Proof.
  intros Hr. pose proof (last_entry_spec P m) as Hl.
  destruct (last_entry P m) as [[k v]|], r as [[k' v']|]; simpl in *; try done.
  - destruct Hr as (Hk' & HP' & Hm'), Hl as (Hk & HP & Hm).
    assert (k = k') as -> by (apply Z.le_antisymm; eauto). congruence.
  - destruct Hl as (Hk & HP & _). rewrite (Hr _ _ Hk) in HP. done.
  - destruct Hr as (Hk & HP & _). rewrite (Hl _ _ Hk) in HP. done.
Qed.

Lemma last_entry_Some P m k v :
  last_entry P m = Some (k, v) <->
  m !! k = Some v /\ P k = true /\
  (forall k' v', m !! k' = Some v' -> P k' = true -> k' <= k).
Proof.
  split.
  - intros He. pose proof (last_entry_spec P m) as Hl. rewrite He in Hl. exact Hl.
  - intros Hr. by apply last_entry_unique.
Qed.

Lemma last_entry_None P m :
  last_entry P m = None <-> (forall k v, m !! k = Some v -> P k = false).
Proof.
  split.
  - intros He. pose proof (last_entry_spec P m) as Hl. rewrite He in Hl. exact Hl.
  - intros Hr. by apply last_entry_unique.
Qed.

(** Inserting at or after every key of the map makes the new entry the last. *)
Lemma last_entry_insert_last P m i x :
  (forall k v, m !! k = Some v -> P k = true -> k <= i) -> P i = true ->
  last_entry P (<[i:=x]> m) = Some (i, x).
Proof.
  intros Hm HP. apply last_entry_Some. split; [apply lookup_insert_eq|]. split; [done|].
  intros k' v' Hk' HP'. destruct (decide (i = k')) as [->|Hne]; [lia|].
  rewrite lookup_insert_ne in Hk' by done. eauto.
Qed.
End LastEntry.

(** Every key: [range(store, None, None, ..)]. *)
Definition any_key (_ : Z) : bool := true.

(** ** Iteration in key order over maps keyed by addresses

    [Addr] keys are compared bytewise. *)

Definition str_le (a b : string) : Prop := String.leb a b = true.
#[global] Instance str_le_dec a b : Decision (str_le a b).
Proof. unfold str_le. apply _. Defined.

(** [map.keys(store, start_after.map(exclusive), None, Order::Ascending)]. *)
Definition str_after (start : option string) (k : string) : bool :=
  match start with
  | None => true
  | Some a => String.ltb a k
  end.

Definition keys_after {V} (start : option string) (m : gmap string V) : list string :=
  merge_sort str_le (filter (fun k => str_after start k = true) (map fst (map_to_list m))).

#[global] Instance str_le_total : Total str_le.
Proof. intros a b. apply String.leb_total. Qed.
#[global] Instance str_le_antisymm : AntiSymm eq str_le.
Proof. intros a b. apply String.leb_antisym. Qed.
#[global] Instance str_le_trans : Transitive str_le.
Proof.
  unfold str_le, String.leb.
  assert (forall a b c, String.compare a b <> Gt -> String.compare b c <> Gt ->
    String.compare a c <> Gt) as Htrans.
  { induction a as [|x a IH]; intros [|y b] [|z c]; simpl; try done.
    unfold Ascii.compare.
    destruct (N.compare_spec (N_of_ascii x) (N_of_ascii y)) as [Hxy|Hxy|Hxy]; try done;
    destruct (N.compare_spec (N_of_ascii y) (N_of_ascii z)) as [Hyz|Hyz|Hyz]; try done;
    intros H1 H2.
    - rewrite Hxy, Hyz, N.compare_refl. eauto.
    - rewrite Hxy, (proj2 (N.compare_lt_iff _ _) Hyz). done.
    - rewrite <- Hyz, (proj2 (N.compare_lt_iff _ _) Hxy). done.
    - rewrite (proj2 (N.compare_lt_iff (N_of_ascii x) (N_of_ascii z))) by lia. done. }
  intros a b c H1 H2.
  specialize (Htrans a b c).
  destruct (String.compare a b), (String.compare b c), (String.compare a c);
    done || (exfalso; by apply Htrans).
Qed.

(** The keys of a map after [start], in ascending order and without
    repetition. *)
Lemma keys_after_spec {V} start (m : gmap string V) :
  StronglySorted str_le (keys_after start m) /\ NoDup (keys_after start m) /\
  forall k, k ∈ keys_after start m <-> is_Some (m !! k) /\ str_after start k = true.
Proof.
  unfold keys_after. split_and!.
  - apply StronglySorted_merge_sort; apply _.
  - rewrite merge_sort_Permutation. apply NoDup_filter, NoDup_fst_map_to_list.
  - intros k. rewrite merge_sort_Permutation, list_elem_of_filter, list_elem_of_fmap.
    split.
    + intros (Hs & [k' v] & -> & H%elem_of_map_to_list). split; [by eexists|done].
    + intros [[v Hv] Hs]. split; [done|]. exists (k, v). by rewrite elem_of_map_to_list.
Qed.

(** The first key after [start] is the least of them. *)
Lemma keys_after_head {V} start (m : gmap string V) a rest :
  keys_after start m = a :: rest ->
  is_Some (m !! a) /\ str_after start a = true /\
  forall k, is_Some (m !! k) -> str_after start k = true -> k <> a -> str_after (Some a) k = true.
Proof.
  intros H. destruct (keys_after_spec start m) as (Hs & Hn & Hin). rewrite H in *.
  destruct (proj1 (Hin a)) as [Ha Hsa]; [by left|]. split_and!; try done.
  intros k Hk Hsk Hne. simpl.
  assert (k ∈ a :: rest) as Hk' by (by apply Hin). apply elem_of_cons in Hk' as [?|Hk']; [done|].
  apply StronglySorted_inv in Hs as [_ Hall]. rewrite Forall_forall in Hall.
  specialize (Hall k Hk'). unfold str_le, String.leb in Hall. unfold String.ltb.
  destruct (String.compare a k) eqn:E; [|done|done].
  apply String.compare_eq_iff in E. congruence.
Qed.

Lemma keys_after_nil {V} start (m : gmap string V) k :
  keys_after start m = [] -> is_Some (m !! k) -> str_after start k = false.
Proof.
  intros H Hk. destruct (keys_after_spec start m) as (_ & _ & Hin). rewrite H in Hin.
  destruct (str_after start k) eqn:E; [|done]. exfalso. apply (not_elem_of_nil k), Hin. done.
Qed.

(** [MonotonicMultilevelMap]: the last id used under a prefix. *)
Definition last_id {V} (a : string) (m : gmap (string * Z) V) : option Z :=
  map_fold (fun k _ acc =>
    if bool_decide (k.1 = a)
    then Some (match acc with Some i => Z.max i k.2 | None => k.2 end)
    else acc) None m.

Section LastId.
Context {V : Type}.

Lemma last_id_spec (a : string) (m : gmap (string * Z) V) :
  match last_id a m with
  | Some i => is_Some (m !! (a, i)) /\ (forall j v, m !! (a, j) = Some v -> j <= i)
  | None => forall j, m !! (a, j) = None
  end.
Proof.
  unfold last_id.
  apply (map_fold_weak_ind (fun (r : option Z) (m : gmap (string * Z) V) =>
    match r with
    | Some i => is_Some (m !! (a, i)) /\ (forall j v, m !! (a, j) = Some v -> j <= i)
    | None => forall j, m !! (a, j) = None
    end)).
  - intros j. apply lookup_empty.
  - intros [b n] x m' r Hi IH. simpl. case_bool_decide as Hb; [subst b|].
    + destruct r as [i|].
      * destruct IH as [[v Hv] Hmax]. split.
        -- destruct (Z.max_spec i n) as [[? ->]|[? ->]].
           ++ exists x. apply lookup_insert_eq.
           ++ exists v. rewrite lookup_insert_ne; [done|]. intros [= ->]. congruence.
        -- intros j w Hw. destruct (decide (n = j)) as [->|Hne]; [lia|].
           rewrite lookup_insert_ne in Hw by congruence. specialize (Hmax _ _ Hw). lia.
      * split; [exists x; apply lookup_insert_eq|].
        intros j w Hw. destruct (decide (n = j)) as [->|Hne]; [lia|].
        rewrite lookup_insert_ne in Hw by congruence. by rewrite IH in Hw.
    + destruct r as [i|].
      * destruct IH as [[v Hv] Hmax]. split.
        -- exists v. rewrite lookup_insert_ne by congruence. done.
        -- intros j w Hw. rewrite lookup_insert_ne in Hw by congruence. eauto.
      * intros j. rewrite lookup_insert_ne by congruence. apply IH.
Qed.
End LastId.

(** ** Text keys are ordered as their bytes *)

Lemma string_ltb_le a b : String.ltb a b = negb (String.leb b a).
Proof.
  unfold String.ltb, String.leb. rewrite (String.compare_antisym b a).
  by destruct (String.compare a b).
Qed.
#[export, program] Instance KeyOrder_string : KeyOrder string := {| key_lt := String.ltb |}.
Next Obligation.
  intros k. rewrite string_ltb_le. destruct (String.leb_total k k) as [E|E]; by rewrite E.
Qed.
Next Obligation.
  intros a b c. rewrite !string_ltb_le, !negb_true_iff. intros Hab Hbc.
  destruct (String.leb c a) eqn:E; [|done].
  assert (str_le a b) as Hle.
  { unfold str_le. destruct (String.leb_total b a) as [X|X]; [congruence|done]. }
  assert (str_le c b) as Hcb by (by transitivity a). unfold str_le in Hcb. congruence.
Qed.
Next Obligation.
  intros a b. rewrite !string_ltb_le, !negb_false_iff. intros Hba Hab. by apply String.leb_antisym.
Qed.
