(* ===== verification/Cosmwasm.v ===== *)
(** * The interface to [cosmwasm_std] and [cw_utils]

    The contracts compute with the third-party types [Decimal256], [Uint128]
    and [Uint256], validate addresses through the chain's [Api], and compare
    [cw_utils::Expiration]s with the current block.  None of that code is in
    this repository, so it is a parameter of the model: the operations are the
    fields of [CosmwasmStd], and [CosmwasmStdSpec] states their documented
    behaviour.  Every component is defined over the interface and every theorem
    about numbers is proved from the laws alone; [cosmwasm_ref] is a concrete
    implementation that meets them, used where a theorem is applied to concrete
    inputs.

    A [Decimal256] is carried as its [atomics()], the integer it stores (18
    decimal places), and [Uint128]/[Uint256] as the integer itself.  An
    operation that returns [None] either returns an error in Rust (the
    [checked_] methods, [try_from], [from_atomics], [parse]) or panics (the
    operators, [from_ratio], [pow]); the callers say which. *)

From stdpp Require Import base option strings.
From Stdlib Require Import ZArith Lia.
From S2P Require Import Prelude.
Local Open Scope Z_scope.

(** [Decimal256::DECIMAL_PLACES] and the atomics of [Decimal256::one()]. *)
Definition DECIMAL_PLACES : Z := 18.
Definition DEC_ONE : Z := 10 ^ 18.

(** [cosmwasm_std::BlockInfo], the fields the contracts look at. *)
Record BlockInfo := { block_height : Z; block_time : Z }.

(** [cw_utils::Expiration], carried as the text it is stored and sent as. *)
Abbreviation Expiration := string (only parsing).

Class CosmwasmStd := {
  (** [Decimal256::checked_add], [checked_sub], [checked_mul], [checked_div] *)
  dec_add : Z -> Z -> option Z;
  dec_sub : Z -> Z -> option Z;
  dec_mul : Z -> Z -> option Z;
  dec_div : Z -> Z -> option Z;
  (** the operators [+], [-], [*], [/] of [Decimal256] *)
  dec_op_add : Z -> Z -> option Z;
  dec_op_sub : Z -> Z -> option Z;
  dec_op_mul : Z -> Z -> option Z;
  dec_op_div : Z -> Z -> option Z;
  (** [Decimal256::from_ratio] and [Decimal256::from_atomics] *)
  dec_from_ratio : Z -> Z -> option Z;
  dec_from_atomics : Z -> Z -> option Z;
  (** [Decimal256::from_str] *)
  dec_from_str : string -> option Z;
  (** [Uint128]: [+], [checked_sub], [try_from(Uint256)], [multiply_ratio] *)
  u128_op_add : Z -> Z -> option Z;
  u128_sub : Z -> Z -> option Z;
  u128_try_from : Z -> option Z;
  u128_multiply_ratio : Z -> Z -> Z -> option Z;
  (** [Uint256]: [*], [/], [checked_div], [pow] *)
  u256_op_mul : Z -> Z -> option Z;
  u256_op_div : Z -> Z -> option Z;
  u256_div : Z -> Z -> option Z;
  u256_pow : Z -> Z -> option Z;
  (** [Api::addr_validate] *)
  addr_validate : string -> option string;
  (** [cw_utils::Expiration], its [Default] and [is_expired] *)
  expiration_default : Expiration;
  is_expired : Expiration -> BlockInfo -> bool;
}.

(** A result that fits the width, or none. *)
Definition fits (ok : Z -> bool) (z : Z) : option Z := if ok z then Some z else None.
Abbreviation fits256 := (fits u256_ok).
Abbreviation fits128 := (fits u128_ok).

(** Documented behaviour: exact addition and subtraction, multiplication and
    division that round down, an error or a panic outside the width and on a
    zero divisor, and [addr_validate] returning the address it was given. *)
Class CosmwasmStdSpec (CW : CosmwasmStd) : Prop := {
  dec_add_spec a b : dec_add a b = fits256 (a + b);
  dec_sub_spec a b : dec_sub a b = fits256 (a - b);
  dec_mul_spec a b : dec_mul a b = fits256 (a * b / DEC_ONE);
  dec_div_spec a b :
    dec_div a b = if b =? 0 then None else fits256 (a * DEC_ONE / b);
  dec_op_add_spec a b : dec_op_add a b = fits256 (a + b);
  dec_op_sub_spec a b : dec_op_sub a b = fits256 (a - b);
  dec_op_mul_spec a b : dec_op_mul a b = fits256 (a * b / DEC_ONE);
  dec_op_div_spec a b :
    dec_op_div a b = if b =? 0 then None else fits256 (a * DEC_ONE / b);
  dec_from_ratio_spec a b :
    dec_from_ratio a b = if b =? 0 then None else fits256 (a * DEC_ONE / b);
  dec_from_atomics_spec a p :
    0 <= p <= DECIMAL_PLACES ->
    dec_from_atomics a p = fits256 (a * 10 ^ (DECIMAL_PLACES - p));
  u128_op_add_spec a b : u128_op_add a b = fits128 (a + b);
  u128_sub_spec a b : u128_sub a b = fits128 (a - b);
  u128_try_from_spec a : u128_try_from a = fits128 a;
  u128_multiply_ratio_spec a n d :
    u128_multiply_ratio a n d = if d =? 0 then None else fits128 (a * n / d);
  u256_op_mul_spec a b : u256_op_mul a b = fits256 (a * b);
  u256_op_div_spec a b : u256_op_div a b = if b =? 0 then None else Some (a / b);
  u256_div_spec a b : u256_div a b = if b =? 0 then None else Some (a / b);
  u256_pow_spec a n : u256_pow a n = fits256 (a ^ n);
  addr_validate_spec s a : addr_validate s = Some a -> a = s;
}.

(** ** Consequences of the laws, in the form the proofs use *)

Lemma fits_Some ok z r : fits ok z = Some r <-> r = z /\ ok z = true.
Proof. unfold fits. destruct (ok z); split; [intros [= ->]|intros [-> _]| |intros [_ ?]]; done. Qed.
Lemma fits_None ok z : fits ok z = None <-> ok z = false.
Proof. unfold fits. by destruct (ok z). Qed.

Lemma DEC_ONE_pos : 0 < DEC_ONE.
Proof. vm_compute. repeat split; congruence. Qed.
Lemma DEC_ONE_fits : u256_ok DEC_ONE = true.
Proof. vm_compute. repeat split; congruence. Qed.
#[export] Hint Resolve DEC_ONE_pos DEC_ONE_fits : perps.

(** [z] is the [atomics()] of some [Decimal256]. *)
Definition is_dec (z : Z) : Prop := 0 <= z <= U256_MAX.
Lemma is_dec_ok z : u256_ok z = true <-> is_dec z.
Proof. apply u256_ok_true. Qed.
Lemma is_dec_0 : is_dec 0.
Proof. vm_compute. repeat split; congruence. Qed.
Lemma is_dec_one : is_dec DEC_ONE.
Proof. vm_compute. repeat split; congruence. Qed.
Lemma is_dec_le a b : 0 <= a <= b -> is_dec b -> is_dec a.
Proof. unfold is_dec. lia. Qed.
#[export] Hint Resolve is_dec_0 is_dec_one : perps.

Section Laws.
Context {CW : CosmwasmStd} {CWS : CosmwasmStdSpec CW}.

Lemma dec_add_Some a b c : dec_add a b = Some c <-> c = a + b /\ is_dec (a + b).
Proof. rewrite dec_add_spec, fits_Some, is_dec_ok. done. Qed.
Lemma dec_sub_Some a b c : dec_sub a b = Some c <-> c = a - b /\ is_dec (a - b).
Proof. rewrite dec_sub_spec, fits_Some, is_dec_ok. done. Qed.
Lemma dec_op_add_Some a b c : dec_op_add a b = Some c <-> c = a + b /\ is_dec (a + b).
Proof. rewrite dec_op_add_spec, fits_Some, is_dec_ok. done. Qed.
Lemma dec_op_sub_Some a b c : dec_op_sub a b = Some c <-> c = a - b /\ is_dec (a - b).
Proof. rewrite dec_op_sub_spec, fits_Some, is_dec_ok. done. Qed.
Lemma dec_mul_Some a b c :
  dec_mul a b = Some c <-> c = a * b / DEC_ONE /\ is_dec (a * b / DEC_ONE).
Proof. rewrite dec_mul_spec, fits_Some, is_dec_ok. done. Qed.
Lemma dec_op_mul_Some a b c :
  dec_op_mul a b = Some c <-> c = a * b / DEC_ONE /\ is_dec (a * b / DEC_ONE).
Proof. rewrite dec_op_mul_spec, fits_Some, is_dec_ok. done. Qed.
Lemma dec_div_Some a b c :
  dec_div a b = Some c <->
  b <> 0 /\ c = a * DEC_ONE / b /\ is_dec (a * DEC_ONE / b).
Proof.
  rewrite dec_div_spec. destruct (Z.eqb_spec b 0) as [->|Hb].
  - split; [done|]. by intros (? & _).
  - rewrite fits_Some, is_dec_ok. tauto.
Qed.
Lemma dec_op_div_Some a b c :
  dec_op_div a b = Some c <->
  b <> 0 /\ c = a * DEC_ONE / b /\ is_dec (a * DEC_ONE / b).
Proof.
  rewrite dec_op_div_spec. destruct (Z.eqb_spec b 0) as [->|Hb].
  - split; [done|]. by intros (? & _).
  - rewrite fits_Some, is_dec_ok. tauto.
Qed.
Lemma dec_from_ratio_Some a b c :
  dec_from_ratio a b = Some c <->
  b <> 0 /\ c = a * DEC_ONE / b /\ is_dec (a * DEC_ONE / b).
Proof.
  rewrite dec_from_ratio_spec. destruct (Z.eqb_spec b 0) as [->|Hb].
  - split; [done|]. by intros (? & _).
  - rewrite fits_Some, is_dec_ok. tauto.
Qed.
Lemma u128_op_add_Some a b c :
  u128_op_add a b = Some c <-> c = a + b /\ 0 <= a + b <= U128_MAX.
Proof. rewrite u128_op_add_spec, fits_Some, u128_ok_true. done. Qed.
Lemma u128_sub_Some a b c :
  u128_sub a b = Some c <-> c = a - b /\ 0 <= a - b <= U128_MAX.
Proof. rewrite u128_sub_spec, fits_Some, u128_ok_true. done. Qed.
Lemma u128_multiply_ratio_Some a n d c :
  u128_multiply_ratio a n d = Some c <-> d <> 0 /\ c = a * n / d /\ 0 <= a * n / d <= U128_MAX.
Proof.
  rewrite u128_multiply_ratio_spec. destruct (Z.eqb_spec d 0) as [->|Hd].
  - split; [done|]. by intros (? & _).
  - rewrite fits_Some, u128_ok_true. tauto.
Qed.
End Laws.

(** Rewrite every successful library call in the context into arithmetic. *)
Ltac std_inv1 :=
  match goal with
  | H : dec_add _ _ = Some _ |- _ => apply dec_add_Some in H; destruct H as [-> ?]
  | H : dec_sub _ _ = Some _ |- _ => apply dec_sub_Some in H; destruct H as [-> ?]
  | H : dec_op_add _ _ = Some _ |- _ => apply dec_op_add_Some in H; destruct H as [-> ?]
  | H : dec_op_sub _ _ = Some _ |- _ => apply dec_op_sub_Some in H; destruct H as [-> ?]
  | H : dec_mul _ _ = Some _ |- _ => apply dec_mul_Some in H; destruct H as [-> ?]
  | H : dec_op_mul _ _ = Some _ |- _ => apply dec_op_mul_Some in H; destruct H as [-> ?]
  | H : dec_div _ _ = Some _ |- _ => apply dec_div_Some in H; destruct H as (? & -> & ?)
  | H : dec_op_div _ _ = Some _ |- _ => apply dec_op_div_Some in H; destruct H as (? & -> & ?)
  | H : dec_from_ratio _ _ = Some _ |- _ =>
      apply dec_from_ratio_Some in H; destruct H as (? & -> & ?)
  | H : u128_op_add _ _ = Some _ |- _ => apply u128_op_add_Some in H; destruct H as [-> ?]
  | H : u128_sub _ _ = Some _ |- _ => apply u128_sub_Some in H; destruct H as [-> ?]
  end.
Ltac std_inv := repeat std_inv1.

(** ** A concrete implementation, for concrete runs *)

Definition ref_div (a b : Z) : option Z :=
  if b =? 0 then None else fits256 (a * DEC_ONE / b).
Definition ref_int_div (a b : Z) : option Z := if b =? 0 then None else Some (a / b).

(** An address is valid when it is not empty; the expirations are ["never"],
    the default, and texts that have expired. *)
Definition cosmwasm_ref : CosmwasmStd := {|
  dec_add a b := fits256 (a + b);
  dec_sub a b := fits256 (a - b);
  dec_mul a b := fits256 (a * b / DEC_ONE);
  dec_div := ref_div;
  dec_op_add a b := fits256 (a + b);
  dec_op_sub a b := fits256 (a - b);
  dec_op_mul a b := fits256 (a * b / DEC_ONE);
  dec_op_div := ref_div;
  dec_from_ratio := ref_div;
  dec_from_atomics a p := fits256 (a * 10 ^ (DECIMAL_PLACES - p));
  dec_from_str s := None;
  u128_op_add a b := fits128 (a + b);
  u128_sub a b := fits128 (a - b);
  u128_try_from a := fits128 a;
  u128_multiply_ratio a n d := if d =? 0 then None else fits128 (a * n / d);
  u256_op_mul a b := fits256 (a * b);
  u256_op_div := ref_int_div;
  u256_div := ref_int_div;
  u256_pow a n := fits256 (a ^ n);
  addr_validate s := if String.eqb s "" then None else Some s;
  expiration_default := "never"%string;
  is_expired e b := negb (String.eqb e "never");
|}.

Lemma cosmwasm_ref_spec : CosmwasmStdSpec cosmwasm_ref.
Proof.
  split; try done.
  intros s a. simpl. destruct (String.eqb s ""); congruence.
Qed.
