(* ===== verification/Types.v ===== *)
(** * Shared data types and errors

    The enums of [packages/perpswap/src/{market_type,direction}.rs], the
    [Signed] struct of [number/types.rs], and the error types of
    [error.rs] and [error/market.rs], with the conversion of a [MarketError]
    into the [anyhow::Error] a handler returns.

    The newtypes over [Decimal256] ([Collateral], [Notional], [Usd],
    [LpToken], ...) are transparent here: a value is its atomics.  So is
    [NonZero<T>], whose smart constructors are in Number.v. *)

From stdpp Require Import base strings.
From Stdlib Require Import ZArith Lia.
From S2P Require Import Prelude Cosmwasm.
Local Open Scope Z_scope.

(** ** Numbers *)

Abbreviation Decimal256 := Z (only parsing).
Abbreviation Collateral := Z (only parsing).
Abbreviation Notional := Z (only parsing).
Abbreviation Base := Z (only parsing).
Abbreviation Usd := Z (only parsing).
Abbreviation LpToken := Z (only parsing).
Abbreviation NonZero t := (t : Type) (only parsing).
(** Nanoseconds, a [u64]; see Time.v. *)
Abbreviation Timestamp := Z (only parsing).
Abbreviation Duration := Z (only parsing).
Abbreviation Addr := string (only parsing).
(** [RawAddr]: an address that has not been validated. *)
Abbreviation RawAddr := string (only parsing).

(** [Signed<T>]: a magnitude and a sign. *)
Record Signed := mkSigned { value : Z; negative : bool }.
Abbreviation Number := Signed (only parsing).

#[global] Instance Signed_eq_dec : EqDecision Signed.
Proof. solve_decision. Defined.

(** ** Markets and directions *)

Inductive MarketType := CollateralIsQuote | CollateralIsBase.
Inductive DirectionToNotional := LongToNotional | ShortToNotional.
Inductive DirectionToBase := LongToBase | ShortToBase.

#[global] Instance MarketType_eq_dec : EqDecision MarketType.
Proof. solve_decision. Defined.
#[global] Instance DirectionToNotional_eq_dec : EqDecision DirectionToNotional.
Proof. solve_decision. Defined.
#[global] Instance DirectionToBase_eq_dec : EqDecision DirectionToBase.
Proof. solve_decision. Defined.

(** ** Errors *)

Inductive ErrorId :=
| InvalidStakeLp | InvalidAmount | SlippageAssert | PriceAlreadyExists | PriceNotFound
| PriceTooOld | PositionUpdate | NativeFunds | Cw20Funds | Auth | Expired | MsgValidation
| Conversion | ConfigId | InternalReply | Exceeded | Any | Stale | InsufficientMargin
| InvalidLiquidityTokenMsg | AddressAlreadyExists
| IdDeltaNeutralityFeeAlreadyLong | IdDeltaNeutralityFeeAlreadyShort
| IdDeltaNeutralityFeeNewlyLong | IdDeltaNeutralityFeeNewlyShort
| IdDeltaNeutralityFeeLongToShort | IdDeltaNeutralityFeeShortToLong
| DirectionToBaseFlipped | MissingFunds | UnnecessaryFunds | NoYieldToClaim
| InsufficientForReinvest | TimestampSubtractUnderflow
| IdInvalidInfiniteMaxGains | IdInvalidInfiniteTakeProfitPrice | IdMaxGainsTooLarge
| IdWithdrawTooMuch | IdInsufficientLiquidityForWithdrawal | IdMissingPosition
| IdTraderLeverageOutOfRange | IdMinimumDeposit | IdCongestion | IdMaxLiquidity
| InvalidTriggerPrice | IdLiquidityCooldown | IdPendingDeferredExec
| IdVolatilePriceFeedTimeDelta | IdLimitOrderAlreadyCanceling | IdPositionAlreadyClosing
| IdNoPricePublishTimeFound | IdPositionAlreadyClosed | MissingTakeProfit
| IdInsufficientLiquidityForUnlock | IdLiquidity.

(** The largest page a query of the market returns. *)
Definition QUERY_MAX_LIMIT : Z := 1000.

Inductive ErrorDomain :=
| DomMarket | DomSpotPrice | DomPositionToken | DomLiquidityToken | DomCw20 | DomWallet
| DomFactory | DomDefault | DomFaucet | DomPyth | DomFarming | DomStride | DomSimpleOracle.

Inductive CongestionReason := OpenMarket | PlaceLimit | UpdatePosition | SetTrigger.

Inductive MarketError :=
| InvalidInfiniteMaxGains (market_type : MarketType) (direction : DirectionToBase)
| InvalidInfiniteTakeProfitPrice (market_type : MarketType) (direction : DirectionToBase)
| MaxGainsTooLarge
| WithdrawTooMuch (requested available : LpToken)
| InsufficientLiquidityForWithdrawal (requested_lp : LpToken)
    (requested_collateral : Collateral) (unlocked : Collateral)
| MissingPosition (id : string)
| TraderLeverageOutOfRange (low_allowed high_allowed new_leverage : Decimal256)
    (current_leverage : option Decimal256)
| MinimumDeposit (deposit_collateral : Collateral) (deposit_usd minimum_usd : Usd)
| Congestion (current_queue max_size : Z) (reason : CongestionReason)
| ErrMaxLiquidity (price_collateral_in_usd : Decimal256) (current deposit max : Usd)
| DeltaNeutralityFeeAlreadyLong (cap sensitivity instant_before : Number)
    (net_notional_before net_notional_after : Signed)
| DeltaNeutralityFeeAlreadyShort (cap sensitivity instant_before : Number)
    (net_notional_before net_notional_after : Signed)
| DeltaNeutralityFeeNewlyLong (cap sensitivity instant_after : Number)
    (net_notional_before net_notional_after : Signed)
| DeltaNeutralityFeeNewlyShort (cap sensitivity instant_after : Number)
    (net_notional_before net_notional_after : Signed)
| DeltaNeutralityFeeLongToShort (cap sensitivity instant_before instant_after : Number)
    (net_notional_before net_notional_after : Signed)
| DeltaNeutralityFeeShortToLong (cap sensitivity instant_before instant_after : Number)
    (net_notional_before net_notional_after : Signed)
| ErrLiquidityCooldown (ends_at : Timestamp) (seconds_remaining : Z)
| PendingDeferredExec
| VolatilePriceFeedTimeDelta (oldest newest : Timestamp)
| LimitOrderAlreadyCanceling (order_id : Z)
| PositionAlreadyClosing (position_id : Z)
| NoPricePublishTimeFound
| PositionAlreadyClosed (id : Z) (close_time : Timestamp) (reason : string)
| InsufficientLiquidityForUnlock (requested : Collateral) (total_locked : Collateral)
| ErrLiquidity (requested : Collateral) (total_unlocked allowed : Collateral).

(** [MarketError::get_error_id]. *)
Definition get_error_id (e : MarketError) : ErrorId :=
  match e with
  | InvalidInfiniteMaxGains _ _ => IdInvalidInfiniteMaxGains
  | InvalidInfiniteTakeProfitPrice _ _ => IdInvalidInfiniteTakeProfitPrice
  | MaxGainsTooLarge => IdMaxGainsTooLarge
  | WithdrawTooMuch _ _ => IdWithdrawTooMuch
  | InsufficientLiquidityForWithdrawal _ _ _ => IdInsufficientLiquidityForWithdrawal
  | MissingPosition _ => IdMissingPosition
  | TraderLeverageOutOfRange _ _ _ _ => IdTraderLeverageOutOfRange
  | MinimumDeposit _ _ _ => IdMinimumDeposit
  | Congestion _ _ _ => IdCongestion
  | ErrMaxLiquidity _ _ _ _ => IdMaxLiquidity
  | DeltaNeutralityFeeAlreadyLong _ _ _ _ _ => IdDeltaNeutralityFeeAlreadyLong
  | DeltaNeutralityFeeAlreadyShort _ _ _ _ _ => IdDeltaNeutralityFeeAlreadyShort
  | DeltaNeutralityFeeNewlyLong _ _ _ _ _ => IdDeltaNeutralityFeeNewlyLong
  | DeltaNeutralityFeeNewlyShort _ _ _ _ _ => IdDeltaNeutralityFeeNewlyShort
  | DeltaNeutralityFeeLongToShort _ _ _ _ _ _ => IdDeltaNeutralityFeeLongToShort
  | DeltaNeutralityFeeShortToLong _ _ _ _ _ _ => IdDeltaNeutralityFeeShortToLong
  | ErrLiquidityCooldown _ _ => IdLiquidityCooldown
  | PendingDeferredExec => IdPendingDeferredExec
  | VolatilePriceFeedTimeDelta _ _ => IdVolatilePriceFeedTimeDelta
  | LimitOrderAlreadyCanceling _ => IdLimitOrderAlreadyCanceling
  | PositionAlreadyClosing _ => IdPositionAlreadyClosing
  | NoPricePublishTimeFound => IdNoPricePublishTimeFound
  | PositionAlreadyClosed _ _ _ => IdPositionAlreadyClosed
  | InsufficientLiquidityForUnlock _ _ => IdInsufficientLiquidityForUnlock
  | ErrLiquidity _ _ _ => IdLiquidity
  end.

(** What an [anyhow::Error] can be downcast to.  Descriptions are dropped,
    except for the free-form messages that identify an [anyhow!] or a panic. *)
Inductive error :=
| PerpError (id : ErrorId) (domain : ErrorDomain) (data : option MarketError)
| RawMarketError (e : MarketError)
| StdError
| AnyhowError (msg : string)
| Panic (msg : string).

(** [MarketError::into_anyhow] (the plain [.into()] gives [RawMarketError]). *)
Definition into_anyhow (e : MarketError) : error :=
  PerpError (get_error_id e) DomMarket (Some e).

(** [PerpError::market] and [PerpError::cw20]. *)
Definition perp_market (id : ErrorId) : error := PerpError id DomMarket None.
Definition perp_cw20 (id : ErrorId) : error := PerpError id DomCw20 None.
Definition perp_auth (d : ErrorDomain) : error := PerpError Auth d None.

Abbreviation res := (result error).

(** A standard-library error ([?] on a [StdError], [OverflowError],
    [CheckedFromRatioError], ...), and a panic that aborts the message. *)
Definition std {A} (o : option A) : res A := of_option StdError o.
Definition panics {A} (msg : string) (o : option A) : res A := of_option (Panic msg) o.
(** [assert!]. *)
Definition assert (b : bool) : res unit := if b then Ok tt else Err (Panic "assertion failed").

Lemma std_ok {A} (o : option A) a : std o = Ok a <-> o = Some a.
Proof. apply of_option_ok. Qed.
Lemma panics_ok {A} m (o : option A) a : panics m o = Ok a <-> o = Some a.
Proof. apply of_option_ok. Qed.

Ltac lib_inv1 :=
  match goal with
  | H : std _ = Ok _ |- _ => apply std_ok in H
  | H : panics _ _ = Ok _ |- _ => apply panics_ok in H
  | _ => inv_ok1
  | _ => std_inv1
  end.
Ltac lib_inv := repeat lib_inv1.
