(* ===== verification/Number.v ===== *)
(** * Signed, non-zero and fixed-precision numbers

    [packages/perpswap/src/number/*.rs]: the [UnsignedDecimal] trait, the
    [Signed<T>] wrapper with its checked arithmetic and total order, the
    [NonZero<T>] smart constructors, the token conversions and the bounded
    ratios.  [sval] gives the integer a [Signed] stands for (in atomics), and
    the theorems relate every operation to integer arithmetic on it, on the
    success and on the error branches. *)

From stdpp Require Import base option strings.
From Stdlib Require Import ZArith Lia Ascii.
From S2P Require Import Prelude Cosmwasm Types.
Local Open Scope Z_scope.

Section Definitions.
  Context {CW : CosmwasmStd}.

(** ** [trait UnsignedDecimal] *)

Definition ud_is_zero (self : Decimal256) : bool := self =? 0.

Definition ud_checked_add (self rhs : Decimal256) : res Decimal256 := std (dec_add self rhs).

Definition ud_checked_sub (self rhs : Decimal256) : res Decimal256 := std (dec_sub self rhs).

(** ** Construction of [Signed] *)

Definition new_positive (v : Decimal256) : Signed := mkSigned v false.

Definition new_negative (v : Decimal256) : Signed := mkSigned v (negb (ud_is_zero v)).

(** [UnsignedDecimal::into_signed], [into_number] and [From<T> for Signed<T>]. *)
Definition into_signed (v : Decimal256) : Signed := new_positive v.

Definition is_negative (s : Signed) : bool := negative s.

(** [Signed::into_number] and [Signed::from_number] rebuild the same pair. *)
Definition into_number (s : Signed) : Number := mkSigned (value s) (negative s).
Definition from_number (s : Number) : Signed := mkSigned (value s) (negative s).

Definition signed_zero : Signed := new_positive 0.

Definition try_into_non_negative_value (s : Signed) : option Decimal256 :=
  if is_negative s then None else Some (value s).

Definition signed_neg (s : Signed) : Signed :=
  if ud_is_zero (value s) then s else mkSigned (value s) (negb (negative s)).

Definition NUMBER_MAX : Number := mkSigned U256_MAX false.
Definition NUMBER_MIN : Number := mkSigned U256_MAX true.
Definition NUMBER_ONE : Number := mkSigned DEC_ONE false.
Definition NUMBER_NEG_ONE : Number := mkSigned DEC_ONE true.
Definition NUMBER_ZERO : Number := mkSigned 0 false.
Definition EPS_E7 : Number := mkSigned 100000000000 false.
Definition EPS_E6 : Number := mkSigned 1000000000000 false.
Definition EPS_E17 : Number := mkSigned 10 false.

(** ** [impl Signed<T>] of number.rs *)

Definition signed_abs (s : Signed) : Signed := new_positive (value s).
Definition abs_unsigned (s : Signed) : Decimal256 := value s.
Definition signed_is_zero (s : Signed) : bool := ud_is_zero (value s).
Definition is_strictly_positive (s : Signed) : bool :=
  negb (signed_is_zero s) && negb (is_negative s).
Definition is_positive_or_zero (s : Signed) : bool := negb (is_negative s).

Definition signed_map (f : Decimal256 -> Decimal256) (s : Signed) : Signed :=
  let v := f (value s) in
  if is_negative s then new_negative v else new_positive v.

(** [try_map]; also [map] with a closure that can panic. *)
Definition try_map (f : Decimal256 -> res Decimal256) (s : Signed) : res Signed :=
  v <- f (value s);
  Ok (if is_negative s then new_negative v else new_positive v).

(** ** Arithmetic (number/ops.rs) *)

Definition signed_checked_add (self rhs : Signed) : res Signed :=
  match is_negative self, is_negative rhs with
  | false, false =>
      v <- ud_checked_add (value self) (value rhs); Ok (new_positive v)
  | true, true =>
      v <- ud_checked_add (value self) (value rhs); Ok (new_negative v)
  | false, true =>
      if value rhs <=? value self
      then v <- ud_checked_sub (value self) (value rhs); Ok (new_positive v)
      else v <- ud_checked_sub (value rhs) (value self); Ok (new_negative v)
  | true, false =>
      if value rhs <=? value self
      then v <- ud_checked_sub (value self) (value rhs); Ok (new_negative v)
      else v <- ud_checked_sub (value rhs) (value self); Ok (new_positive v)
  end.

Definition signed_checked_sub (self rhs : Signed) : res Signed :=
  signed_checked_add self (signed_neg rhs).

Definition number_checked_mul (self rhs : Number) : res Number :=
  match dec_mul (value self) (value rhs) with
  | None => Err (AnyhowError "Overflow while multiplying")
  | Some v =>
      Ok (if Bool.eqb (is_negative self) (is_negative rhs)
          then new_positive v else new_negative v)
  end.

Definition number_checked_div (self rhs : Number) : res Number :=
  if signed_is_zero rhs then Err (AnyhowError "Cannot divide with zero")
  else match dec_div (value self) (value rhs) with
       | None => Err (AnyhowError "Overflow while dividing")
       | Some v =>
           Ok (if Bool.eqb (is_negative self) (is_negative rhs)
               then new_positive v else new_negative v)
       end.

(** [impl Ord for Signed<T>]. *)
Definition signed_cmp (self other : Signed) : comparison :=
  match is_positive_or_zero self, is_positive_or_zero other with
  | true, true => Z.compare (value self) (value other)
  | false, false => Z.compare (value other) (value self)
  | true, false => Gt
  | false, true => Lt
  end.

Definition signed_ltb (a b : Signed) : bool :=
  match signed_cmp a b with Lt => true | _ => false end.
Definition signed_gtb (a b : Signed) : bool :=
  match signed_cmp a b with Gt => true | _ => false end.
Definition signed_leb (a b : Signed) : bool := negb (signed_gtb a b).

(** [Ord::min] and [Ord::max]: [min] keeps [self] on a tie, [max] takes [other]. *)
Definition signed_min (a b : Signed) : Signed := if signed_gtb a b then b else a.
Definition signed_max (a b : Signed) : Signed := if signed_gtb a b then a else b.

Definition number_approx_eq (self other : Number) : res bool :=
  d <- signed_checked_sub self other; Ok (signed_ltb (signed_abs d) EPS_E7).
Definition approx_eq_eps (self other eps : Number) : res bool :=
  d <- signed_checked_sub self other; Ok (signed_ltb (signed_abs d) eps).
Definition approx_lt_relaxed (self other : Number) : res bool :=
  o <- signed_checked_add other EPS_E7; Ok (signed_ltb self o).
Definition approx_gt_relaxed (self other : Number) : res bool :=
  o <- signed_checked_sub other EPS_E7; Ok (signed_gtb self o).
Definition approx_gt_strict (self other : Number) : res bool :=
  o <- signed_checked_add other EPS_E7; Ok (signed_gtb self o).

(** ** More of [UnsignedDecimal] *)

Definition ud_checked_add_signed (self : Decimal256) (rhs : Signed) : res Decimal256 :=
  s <- signed_checked_add (into_signed self) rhs;
  of_option (AnyhowError "checked_add_signed") (try_into_non_negative_value s).

Definition ud_try_from_number (s : Number) : res Decimal256 :=
  if negative s then Err (AnyhowError "try_from_number: received a negative value")
  else Ok (value s).

Definition ud_two : res Decimal256 := panics "from_atomics" (dec_from_atomics 2 0).

Definition ud_diff (self rhs : Decimal256) : res Decimal256 :=
  panics "subtract" (if rhs <? self then dec_op_sub self rhs else dec_op_sub rhs self).

Definition ud_approx_eq (self rhs : Decimal256) : res bool :=
  d <- ud_diff self rhs;
  eps <- panics "from_ratio" (dec_from_ratio 1 10000000);
  Ok (d <? eps).

Definition signed_two : res Signed := v <- ud_two; Ok (new_positive v).

(** The [unsigned!] macro's [floor_with_precision]. *)
Definition floor_with_precision (self : Decimal256) (precision : Z) : res Decimal256 :=
  p <- panics "pow" (u256_pow 10 precision);
  factor <- panics "divide by zero" (u256_op_div DEC_ONE p);
  q <- panics "divide by zero" (u256_op_div self factor);
  panics "multiply" (u256_op_mul q factor).

(** ** [NonZero<T>] *)

Definition nonzero_new (src : Decimal256) : option Decimal256 :=
  if ud_is_zero src then None else Some src.

Definition try_into_non_zero (s : Signed) : option Decimal256 :=
  match try_into_non_negative_value s with
  | Some v => nonzero_new v
  | None => None
  end.

(** [NonZero::try_from_signed]. *)
Definition nonzero_try_from_signed (src : Signed) : res Decimal256 :=
  of_option (AnyhowError "Could not converted signed value into NonZero")
    (match try_into_non_negative_value src with
     | Some v => nonzero_new v
     | None => None
     end).

(** [TryFrom<Signed<T>> for NonZero<T>]. *)
Definition nonzero_try_from (v : Signed) : res Decimal256 :=
  if is_strictly_positive v then Ok (value v)
  else Err (AnyhowError "Cannot convert Signed to NonZero").

(** [NonZero::try_from_number]. *)
Definition nonzero_try_from_number (src : Number) : option Decimal256 :=
  match ud_try_from_number src with
  | Ok v => nonzero_new v
  | Err _ => None
  end.

Definition nonzero_checked_add (self rhs : Decimal256) : res Decimal256 :=
  x <- ud_checked_add self rhs;
  panics "Impossible! NonZero::checked_add returned 0" (nonzero_new x).

Definition nonzero_checked_sub (self rhs : Decimal256) : res Decimal256 :=
  of_option (AnyhowError "NonZero::checked_sub: cannot perform")
    (match ud_checked_sub self rhs with
     | Ok v => nonzero_new v
     | Err _ => None
     end).

Definition nonzero_checked_add_signed (self : Decimal256) (rhs : Signed) : res Decimal256 :=
  s <- signed_checked_add (into_signed self) rhs; nonzero_try_from_signed s.

Definition nonzero_checked_sub_signed (self : Decimal256) (rhs : Signed) : res Decimal256 :=
  s <- signed_checked_add (into_signed self) (signed_neg rhs); nonzero_try_from_signed s.

Definition nonzero_one : Decimal256 := DEC_ONE.

(** [NonZero::inverse] (number/nonzero.rs): the division and the [expect]. *)
Definition nonzero_inverse (self : Decimal256) : res Decimal256 :=
  q <- panics "divide" (dec_op_div DEC_ONE self);
  panics "NonZero::inverse failed but that should be impossible!" (nonzero_new q).

(** ** Operations of the concrete newtypes *)

(** [Collateral::checked_mul_dec], and the same of [Usd] and [LvnToken]. *)
Definition checked_mul_dec (self rhs : Decimal256) : res Decimal256 := std (dec_mul self rhs).
Definition checked_div_dec (self rhs : Decimal256) : res Decimal256 := std (dec_div self rhs).

Definition div_non_zero_dec (self rhs : Decimal256) : res Decimal256 :=
  panics "divide" (dec_op_div self rhs).
Definition div_non_zero (self rhs : Decimal256) : res Decimal256 :=
  panics "divide" (dec_op_div self rhs).

(** [NonZero<Collateral>]: the inner constructor is applied without a check. *)
Definition checked_mul_non_zero (self rhs : Decimal256) : res Decimal256 :=
  checked_mul_dec self rhs.
Definition checked_div_collateral (self rhs : Decimal256) : res Decimal256 :=
  std (dec_div self rhs).

Definition checked_mul_number (self : Signed) (rhs : Number) : res Signed :=
  n <- number_checked_mul (into_number self) rhs; Ok (from_number n).

Definition LP_TOKEN_DIVIDER : Z := 1000000000000.
Definition LP_TOKEN_PRECISION : Z := 6.

Definition lp_token_into_u128 (self : LpToken) : res Z :=
  q <- std (u256_div self LP_TOKEN_DIVIDER); std (u128_try_from q).

Definition lp_token_from_u128 (x : Z) : res LpToken :=
  std (dec_from_atomics x LP_TOKEN_PRECISION).

(** ** Conversions (number/convert.rs) *)

(** [From<u128> for Signed<T>] and [From<u64>]. *)
Definition number_from_u128 (v : Z) : res Signed :=
  d <- panics "from_ratio" (dec_from_ratio v 1); Ok (new_positive d).
Definition number_from_u64 (v : Z) : res Signed := number_from_u128 v.

Definition from_ratio_u256 (numerator denominator : Z) : res Number :=
  d <- panics "from_ratio" (dec_from_ratio numerator denominator); Ok (new_positive d).

(** [None] inside [Ok] is the method's [None]; the division by a zero factor
    and the power can panic. *)
Definition to_u128_with_precision (self : Number) (precision : Z) : res (option Z) :=
  if is_negative self then Ok None
  else
    p <- panics "pow" (u256_pow 10 precision);
    factor <- panics "divide by zero" (u256_op_div DEC_ONE p);
    raw <- panics "divide by zero" (u256_op_div (value self) factor);
    Ok (u128_try_from raw).

(** [10u128.pow(places)], with the overflow check of the release profile. *)
Definition u128_prim_pow (base n : Z) : option Z := fits128 (base ^ n).

Definition from_fixed_u128 (amount places : Z) : res Number :=
  a <- number_from_u128 amount;
  p <- panics "pow" (u128_prim_pow 10 places);
  d <- number_from_u128 p;
  panics "from_fixed_u128" (res_ok (number_checked_div a d)).

(** [FromStr for Signed<T>]. *)
Definition signed_from_str (input : string) : res Signed :=
  of_option (AnyhowError "Unable to parse Number")
    (match input with
     | String "-"%char rest => new_negative <$> dec_from_str rest
     | _ => new_positive <$> dec_from_str input
     end).

(** ** Bounded ratios (number/ratio.rs) *)

Inductive Bound := Included (b : Decimal256) | Excluded (b : Decimal256) | Unbounded.

Definition validate_ratio (v : Decimal256) (lower upper : Bound) : res unit :=
  let is_valid :=
    (match lower with
     | Included l => l <=? v
     | Excluded l => l <? v
     | Unbounded => true
     end) &&
    (match upper with
     | Included u => v <=? u
     | Excluded u => v <? u
     | Unbounded => true
     end) in
  ensure is_valid (AnyhowError "Invalid ratio").

Definition inclusive_ratio_new (v : Decimal256) : res Decimal256 :=
  _ <- validate_ratio v (Included 0) (Included DEC_ONE); Ok v.

End Definitions.

(** * Theory *)

(** The integer a signed number stands for, and the type's invariant ("must
    always be false if value is 0"). *)
Definition sval (s : Signed) : Z := if negative s then - value s else value s.
Definition signed_ok (s : Signed) : Prop :=
  is_dec (value s) /\ (negative s = true -> value s <> 0).
(** The canonical representation of an integer. *)
Definition signed_of (z : Z) : Signed :=
  if z <? 0 then mkSigned (- z) true else mkSigned z false.

Lemma is_dec_abs z : is_dec (Z.abs z) <-> Z.abs z <= U256_MAX.
Proof. unfold is_dec. lia. Qed.

Lemma signed_of_ok z : is_dec (Z.abs z) -> signed_ok (signed_of z).
Proof.
  unfold signed_of, signed_ok, is_dec. destruct (Z.ltb_spec z 0); simpl; split; lia.
Qed.

Lemma sval_signed_of z : sval (signed_of z) = z.
Proof. unfold sval, signed_of. destruct (Z.ltb_spec z 0); simpl; lia. Qed.

Lemma signed_of_sval s : signed_ok s -> signed_of (sval s) = s.
Proof.
  destruct s as [v n]. unfold signed_ok, signed_of, sval, is_dec; simpl. intros [Hv Hn].
  destruct n; simpl.
  - specialize (Hn eq_refl). destruct (Z.ltb_spec (- v) 0); [|lia]. f_equal; lia.
  - destruct (Z.ltb_spec v 0); [lia|done].
Qed.

Lemma sval_abs s : signed_ok s -> Z.abs (sval s) = value s.
Proof. unfold signed_ok, sval, is_dec. destruct (negative s); lia. Qed.

Lemma sval_value s : sval s = value s \/ sval s = - value s.
Proof. unfold sval. destruct (negative s); auto. Qed.

Lemma new_positive_of v : 0 <= v -> new_positive v = signed_of v.
Proof. intros Hv. unfold new_positive, signed_of. destruct (Z.ltb_spec v 0); [lia|done]. Qed.

Lemma new_negative_of v : 0 <= v -> new_negative v = signed_of (- v).
Proof.
  intros Hv. unfold new_negative, signed_of, ud_is_zero.
  destruct (Z.eqb_spec v 0) as [->|Hz]; [done|].
  destruct (Z.ltb_spec (- v) 0); [|lia]. simpl. f_equal. lia.
Qed.

Lemma sval_new_positive v : sval (new_positive v) = v.
Proof. done. Qed.
Lemma sval_into_signed v : sval (into_signed v) = v.
Proof. done. Qed.
Lemma sval_new_negative v : sval (new_negative v) = - v.
Proof.
  unfold sval, new_negative, ud_is_zero; simpl. destruct (Z.eqb_spec v 0); simpl; lia.
Qed.
Lemma sval_neg s : sval (signed_neg s) = - sval s.
Proof.
  unfold signed_neg, sval, ud_is_zero. destruct (Z.eqb_spec (value s) 0) as [Hz|Hz]; simpl.
  - rewrite Hz. by destruct (negative s).
  - destruct (negative s); simpl; lia.
Qed.
Lemma sval_zero : sval signed_zero = 0.
Proof. done. Qed.

Lemma new_positive_ok v : is_dec v -> signed_ok (new_positive v).
Proof. done. Qed.
Lemma into_signed_ok v : is_dec v -> signed_ok (into_signed v).
Proof. done. Qed.
Lemma new_negative_ok v : is_dec v -> signed_ok (new_negative v).
Proof.
  intros Hv. split; [done|]. unfold new_negative, ud_is_zero; simpl.
  destruct (Z.eqb_spec v 0); done.
Qed.
Lemma signed_neg_ok s : signed_ok s -> signed_ok (signed_neg s).
Proof.
  intros [Hv Hn]. unfold signed_neg, ud_is_zero.
  destruct (Z.eqb_spec (value s) 0); [done|]. split; [done|]. by intros _.
Qed.
Lemma signed_zero_ok : signed_ok signed_zero.
Proof. apply new_positive_ok, is_dec_0. Qed.
#[export] Hint Resolve new_positive_ok into_signed_ok new_negative_ok signed_neg_ok
  signed_zero_ok : perps.

Lemma is_negative_sval s : signed_ok s -> is_negative s = (sval s <? 0).
Proof.
  intros [Hv Hn]. unfold is_negative, sval, is_dec in *. destruct (negative s).
  - specialize (Hn eq_refl). symmetry. apply Z.ltb_lt. lia.
  - symmetry. apply Z.ltb_ge. lia.
Qed.

Lemma try_into_non_negative_value_Some s v :
  try_into_non_negative_value s = Some v <-> negative s = false /\ v = sval s.
Proof.
  unfold try_into_non_negative_value, is_negative, sval.
  destruct (negative s); split; [done|by intros [? _]|by intros [= ->]|by intros [_ ->]].
Qed.

Lemma nonzero_new_Some v w : nonzero_new v = Some w <-> w = v /\ v <> 0.
Proof.
  unfold nonzero_new, ud_is_zero. destruct (Z.eqb_spec v 0) as [->|Hv]; split.
  - done.
  - by intros [_ ?].
  - by intros [= ->].
  - by intros [-> _].
Qed.
Lemma nonzero_new_None v : nonzero_new v = None <-> v = 0.
Proof. unfold nonzero_new, ud_is_zero. destruct (Z.eqb_spec v 0); done. Qed.

Lemma try_into_non_zero_Some s v :
  try_into_non_zero s = Some v <-> negative s = false /\ v = sval s /\ v <> 0.
Proof.
  unfold try_into_non_zero. destruct (try_into_non_negative_value s) as [w|] eqn:E.
  - apply try_into_non_negative_value_Some in E as [Hn ->]. rewrite nonzero_new_Some.
    split; [intros [-> ?]|intros (_ & -> & ?)]; done.
  - split; [done|]. intros (Hn & -> & _). unfold try_into_non_negative_value, is_negative in E.
    by rewrite Hn in E.
Qed.

Lemma nonzero_try_from_Ok s v :
  signed_ok s -> (nonzero_try_from s = Ok v <-> v = sval s /\ 0 < sval s).
Proof.
  intros [Hv Hn]. destruct s as [x n]; simpl in *.
  unfold nonzero_try_from, is_strictly_positive, signed_is_zero, ud_is_zero,
    is_negative, sval, is_dec in *; simpl in *.
  destruct (Z.eqb_spec x 0) as [->|Hx], n; simpl.
  - by destruct (Hn eq_refl).
  - split; [discriminate|lia].
  - split; [discriminate|lia].
  - split; [intros [= <-]; lia|intros [-> _]; done].
Qed.

Section Theory.
Context {CW : CosmwasmStd} {CWS : CosmwasmStdSpec CW}.
Implicit Types a b r s : Signed.

Lemma ud_add_ok (a b c : Z) : ud_checked_add a b = Ok c <-> c = a + b /\ is_dec (a + b).
Proof. unfold ud_checked_add. by rewrite std_ok, dec_add_Some. Qed.
Lemma ud_sub_ok (a b c : Z) : ud_checked_sub a b = Ok c <-> c = a - b /\ is_dec (a - b).
Proof. unfold ud_checked_sub. by rewrite std_ok, dec_sub_Some. Qed.
Lemma mul_dec_ok (a b c : Z) :
  checked_mul_dec a b = Ok c <-> c = a * b / DEC_ONE /\ is_dec (a * b / DEC_ONE).
Proof. unfold checked_mul_dec. by rewrite std_ok, dec_mul_Some. Qed.

(** The result of exact integer arithmetic, or the overflow error [e]. *)
Definition signed_fits (e : error) (z : Z) : res Signed :=
  if Z.abs z <=? U256_MAX then Ok (signed_of z) else Err e.

Lemma signed_fits_ok e z r :
  signed_fits e z = Ok r <-> r = signed_of z /\ is_dec (Z.abs z).
Proof.
  unfold signed_fits. rewrite is_dec_abs. destruct (Z.leb_spec (Z.abs z) U256_MAX) as [H|H].
  - split; [by intros [= <-]|by intros [-> _]].
  - split; [discriminate|lia].
Qed.

Lemma std_fits256_pos z :
  0 <= z -> (v <- std (fits256 z); Ok (new_positive v)) = signed_fits StdError z.
Proof.
  intros Hz. unfold fits, signed_fits, u256_ok. rewrite (proj2 (Z.leb_le 0 z) Hz), Z.abs_eq by done.
  simpl. destruct (Z.leb z U256_MAX); simpl; [|done]. by rewrite new_positive_of.
Qed.

Lemma std_fits256_neg z :
  0 <= z -> (v <- std (fits256 z); Ok (new_negative v)) = signed_fits StdError (- z).
Proof.
  intros Hz. unfold fits, signed_fits, u256_ok.
  rewrite (proj2 (Z.leb_le 0 z) Hz), Z.abs_opp, Z.abs_eq by done.
  simpl. destruct (Z.leb z U256_MAX); simpl; [|done]. by rewrite new_negative_of.
Qed.

(** *** Addition and subtraction: exact, or [OverflowError] *)

Lemma signed_checked_add_fits a b :
  signed_ok a -> signed_ok b ->
  signed_checked_add a b = signed_fits StdError (sval a + sval b).
Proof.
  intros [Ha _] [Hb _]. destruct a as [x nx], b as [y ny].
  unfold signed_checked_add, is_negative, ud_checked_add, ud_checked_sub, sval, is_dec in *;
    simpl in *.
  rewrite dec_add_spec, !dec_sub_spec.
  destruct nx, ny; simpl; try destruct (Z.leb_spec y x);
    rewrite ?std_fits256_pos, ?std_fits256_neg by lia; f_equal; lia.
Qed.

Lemma signed_checked_sub_fits a b :
  signed_ok a -> signed_ok b ->
  signed_checked_sub a b = signed_fits StdError (sval a - sval b).
Proof.
  intros Ha Hb. unfold signed_checked_sub.
  rewrite signed_checked_add_fits, sval_neg by auto with perps. done.
Qed.

Lemma signed_checked_add_ok a b r :
  signed_ok a -> signed_ok b -> signed_checked_add a b = Ok r ->
  sval r = sval a + sval b /\ signed_ok r.
Proof.
  intros Ha Hb H. rewrite signed_checked_add_fits in H by done.
  apply signed_fits_ok in H as [-> H]. split; [apply sval_signed_of|by apply signed_of_ok].
Qed.

Lemma signed_checked_sub_ok a b r :
  signed_ok a -> signed_ok b -> signed_checked_sub a b = Ok r ->
  sval r = sval a - sval b /\ signed_ok r.
Proof.
  intros Ha Hb H. rewrite signed_checked_sub_fits in H by done.
  apply signed_fits_ok in H as [-> H]. split; [apply sval_signed_of|by apply signed_of_ok].
Qed.

Lemma try_into_non_negative_value_signed_of z :
  try_into_non_negative_value (signed_of z) = if z <? 0 then None else Some z.
Proof.
  unfold try_into_non_negative_value, signed_of. by destruct (z <? 0).
Qed.

(** [checked_add_signed] moves an unsigned amount by a signed one, and fails
    exactly when the result leaves the unsigned range. *)
Lemma ud_checked_add_signed_ok (x : Decimal256) b v :
  is_dec x -> signed_ok b ->
  (ud_checked_add_signed x b = Ok v <-> v = x + sval b /\ is_dec (x + sval b)).
Proof.
  intros Hx Hb. unfold ud_checked_add_signed.
  rewrite signed_checked_add_fits, sval_into_signed by auto with perps.
  rewrite rbind_ok. setoid_rewrite signed_fits_ok. setoid_rewrite of_option_ok.
  unfold is_dec in *. split.
  - intros (r & [-> Hr] & H). rewrite try_into_non_negative_value_signed_of in H.
    destruct (Z.ltb_spec (x + sval b) 0); [done|]. injection H as <-. lia.
  - intros [-> Hr]. eexists. split; [split; [done|lia]|].
    rewrite try_into_non_negative_value_signed_of.
    destruct (Z.ltb_spec (x + sval b) 0); [lia|done].
Qed.

(** *** Multiplication and division truncate towards zero *)

Lemma quot_abs_sign x y d (nx ny : bool) :
  0 <= x -> 0 <= y -> 0 < d ->
  Z.quot ((if nx then - x else x) * (if ny then - y else y)) d =
  if Bool.eqb nx ny then x * y / d else - (x * y / d).
Proof.
  intros. destruct nx, ny; simpl;
    rewrite ?Z.mul_opp_opp, ?Z.mul_opp_l, ?Z.mul_opp_r, ?Z.quot_opp_l by lia;
    rewrite Z.quot_div_nonneg by nia; done.
Qed.

Lemma signed_result_fits (same : bool) e (o : option Z) z :
  0 <= z -> o = fits256 z ->
  match o with
  | None => Err e
  | Some v => Ok (if same then new_positive v else new_negative v)
  end = signed_fits e (if same then z else - z).
Proof.
  intros Hz ->. unfold fits, signed_fits, u256_ok. rewrite (proj2 (Z.leb_le 0 z) Hz). simpl.
  destruct same; rewrite ?Z.abs_opp, Z.abs_eq by done; destruct (z <=? U256_MAX); simpl;
    rewrite ?new_positive_of, ?new_negative_of by done; done.
Qed.

Lemma number_checked_mul_fits a b :
  signed_ok a -> signed_ok b ->
  number_checked_mul a b =
  signed_fits (AnyhowError "Overflow while multiplying")
    (Z.quot (sval a * sval b) DEC_ONE).
Proof.
  intros [Ha _] [Hb _]. destruct a as [x nx], b as [y ny].
  unfold number_checked_mul, is_negative, sval, is_dec in *; simpl in *.
  pose proof DEC_ONE_pos.
  rewrite quot_abs_sign by lia.
  apply signed_result_fits; [apply Z.div_pos; nia|apply dec_mul_spec].
Qed.

Lemma number_checked_div_fits a b :
  signed_ok a -> signed_ok b ->
  number_checked_div a b =
  if sval b =? 0 then Err (AnyhowError "Cannot divide with zero")
  else signed_fits (AnyhowError "Overflow while dividing")
         (Z.quot (sval a * DEC_ONE) (sval b)).
Proof.
  intros [Ha _] [Hb Hbn]. destruct a as [x nx], b as [y ny].
  unfold number_checked_div, is_negative, signed_is_zero, ud_is_zero, sval, is_dec in *;
    simpl in *.
  pose proof DEC_ONE_pos.
  destruct (Z.eqb_spec y 0) as [->|Hy].
  { destruct ny; [by destruct (Hbn eq_refl)|done]. }
  replace ((if ny then - y else y) =? 0) with false
    by (symmetry; apply Z.eqb_neq; destruct ny; lia).
  assert (Z.quot ((if nx then - x else x) * DEC_ONE) (if ny then - y else y) =
          if Bool.eqb nx ny then x * DEC_ONE / y else - (x * DEC_ONE / y)) as ->.
  { destruct nx, ny; simpl;
      rewrite ?Z.mul_opp_l, ?Z.quot_opp_opp, ?Z.quot_opp_l, ?Z.quot_opp_r by lia;
      rewrite Z.quot_div_nonneg by nia; done. }
  apply signed_result_fits; [apply Z.div_pos; nia|].
  rewrite dec_div_spec. destruct (Z.eqb_spec y 0); [lia|done].
Qed.

(** *** The order *)

Lemma signed_cmp_sval a b :
  signed_ok a -> signed_ok b -> signed_cmp a b = (sval a ?= sval b).
Proof.
  intros [Ha Han] [Hb Hbn]. destruct a as [x nx], b as [y ny].
  unfold signed_cmp, is_positive_or_zero, is_negative, sval, is_dec in *; simpl in *.
  destruct nx, ny; simpl; try specialize (Han eq_refl); try specialize (Hbn eq_refl).
  - by rewrite <- Z.compare_opp.
  - symmetry. apply Z.compare_lt_iff. lia.
  - symmetry. apply Z.compare_gt_iff. lia.
  - done.
Qed.

Lemma signed_ltb_sval a b :
  signed_ok a -> signed_ok b -> signed_ltb a b = (sval a <? sval b).
Proof. intros. unfold signed_ltb, Z.ltb. by rewrite signed_cmp_sval. Qed.
Lemma signed_gtb_sval a b :
  signed_ok a -> signed_ok b -> signed_gtb a b = (sval b <? sval a).
Proof.
  intros. unfold signed_gtb, Z.ltb. rewrite signed_cmp_sval, Z.compare_antisym by done.
  by destruct (sval b ?= sval a).
Qed.
Lemma signed_leb_sval a b :
  signed_ok a -> signed_ok b -> signed_leb a b = (sval a <=? sval b).
Proof. intros. unfold signed_leb. rewrite signed_gtb_sval, Z.leb_antisym by done. done. Qed.

Lemma signed_min_sval a b :
  signed_ok a -> signed_ok b ->
  sval (signed_min a b) = Z.min (sval a) (sval b) /\ signed_ok (signed_min a b).
Proof.
  intros. unfold signed_min. rewrite signed_gtb_sval by done.
  destruct (Z.ltb_spec (sval b) (sval a)); split; try done; lia.
Qed.
Lemma signed_max_sval a b :
  signed_ok a -> signed_ok b ->
  sval (signed_max a b) = Z.max (sval a) (sval b) /\ signed_ok (signed_max a b).
Proof.
  intros. unfold signed_max. rewrite signed_gtb_sval by done.
  destruct (Z.ltb_spec (sval b) (sval a)); split; try done; lia.
Qed.

Lemma sval_inj a b : signed_ok a -> signed_ok b -> sval a = sval b -> a = b.
Proof. intros Ha Hb H. by rewrite <- (signed_of_sval a), <- (signed_of_sval b), H. Qed.

(** *** Non-zero amounts *)

Lemma nonzero_checked_add_total (x y : Decimal256) :
  0 < x -> 0 < y ->
  nonzero_checked_add x y = if x + y <=? U256_MAX then Ok (x + y) else Err StdError.
Proof.
  intros Hx Hy. unfold nonzero_checked_add, ud_checked_add. rewrite dec_add_spec.
  unfold fits, u256_ok. rewrite (proj2 (Z.leb_le 0 (x + y))) by lia. simpl.
  destruct (x + y <=? U256_MAX); simpl; [|done].
  by rewrite (proj2 (nonzero_new_Some (x + y) (x + y))) by lia.
Qed.

Lemma nonzero_checked_sub_ok (x y v : Decimal256) :
  is_dec x -> 0 <= y ->
  (nonzero_checked_sub x y = Ok v <-> v = x - y /\ y < x).
Proof.
  intros [Hx0 Hx] Hy. unfold nonzero_checked_sub, ud_checked_sub. rewrite of_option_ok.
  destruct (dec_sub x y) as [d|] eqn:E; simpl.
  - apply dec_sub_Some in E as [-> E]. rewrite nonzero_new_Some. unfold is_dec in E. lia.
  - split; [done|]. rewrite dec_sub_spec, fits_None in E. intros [-> Hlt].
    exfalso. unfold u256_ok in E. rewrite (proj2 (Z.leb_le 0 (x - y))) in E by lia.
    simpl in E. apply Z.leb_gt in E. lia.
Qed.

Lemma nonzero_try_from_signed_ok s v :
  nonzero_try_from_signed s = Ok v <-> negative s = false /\ v = sval s /\ v <> 0.
Proof. unfold nonzero_try_from_signed. rewrite of_option_ok. apply try_into_non_zero_Some. Qed.

Lemma signed_of_nonneg z : negative (signed_of z) = false <-> 0 <= z.
Proof. unfold signed_of. destruct (Z.ltb_spec z 0); simpl; split; (done || lia). Qed.

Lemma nonzero_checked_add_signed_ok (x : Decimal256) s v :
  is_dec x -> signed_ok s ->
  (nonzero_checked_add_signed x s = Ok v <->
   v = x + sval s /\ 0 < x + sval s <= U256_MAX).
Proof.
  intros Hx Hs. unfold nonzero_checked_add_signed.
  rewrite signed_checked_add_fits, sval_into_signed by auto with perps.
  rewrite rbind_ok. setoid_rewrite signed_fits_ok.
  setoid_rewrite nonzero_try_from_signed_ok. unfold is_dec in *. split.
  - intros (r & [-> Hr] & Hn & -> & H0). rewrite sval_signed_of in *.
    apply signed_of_nonneg in Hn. lia.
  - intros [-> Hr]. eexists. split; [split; [done|lia]|].
    rewrite sval_signed_of, signed_of_nonneg. lia.
Qed.

(** [NonZero::inverse] panics exactly when the quotient rounds to zero. *)
Lemma nonzero_inverse_total (x : Decimal256) :
  0 < x ->
  nonzero_inverse x =
  if x <=? DEC_ONE * DEC_ONE then Ok (DEC_ONE * DEC_ONE / x)
  else Err (Panic "NonZero::inverse failed but that should be impossible!").
Proof.
  intros Hx. unfold nonzero_inverse. rewrite dec_op_div_spec.
  rewrite (proj2 (Z.eqb_neq x 0)) by lia.
  assert (is_dec (DEC_ONE * DEC_ONE / x)) as Hq.
  { pose proof DEC_ONE_pos. split; [apply Z.div_pos; nia|].
    transitivity (DEC_ONE * DEC_ONE); [apply Z.div_le_upper_bound; nia|].
    vm_compute. congruence. }
  unfold fits. rewrite (proj2 (is_dec_ok _) Hq). simpl.
  destruct (Z.leb_spec x (DEC_ONE * DEC_ONE)) as [H|H].
  - assert (0 < DEC_ONE * DEC_ONE / x) by (apply Z.div_str_pos; lia).
    by rewrite (proj2 (nonzero_new_Some _ _) (conj eq_refl (not_eq_sym (Z.lt_neq _ _ H0)))).
  - rewrite Z.div_small by (pose proof DEC_ONE_pos; nia). done.
Qed.

(** *** Fixed-precision conversions *)

Lemma u256_pow10 n : 0 <= n <= 77 -> u256_pow 10 n = Some (10 ^ n).
Proof.
  intros Hn. rewrite u256_pow_spec. apply fits_Some. split; [done|].
  apply u256_ok_true. split; [apply Z.pow_nonneg; lia|].
  transitivity (10 ^ 77); [apply Z.pow_le_mono_r; lia|vm_compute; congruence].
Qed.

Lemma DEC_ONE_div_pow p : 0 <= p <= 18 -> DEC_ONE / 10 ^ p = 10 ^ (18 - p).
Proof.
  intros Hp. unfold DEC_ONE. replace 18 with ((18 - p) + p) at 1 by lia.
  rewrite Z.pow_add_r by lia. apply Z.div_mul. apply Z.pow_nonzero; lia.
Qed.

Lemma u256_op_div_Some (a b : Z) : b <> 0 -> u256_op_div a b = Some (a / b).
Proof. intros. rewrite u256_op_div_spec. by rewrite (proj2 (Z.eqb_neq b 0)). Qed.

Lemma to_u128_with_precision_total s p :
  0 <= p <= 18 ->
  to_u128_with_precision s p =
  Ok (if negative s then None else fits128 (value s / 10 ^ (18 - p))).
Proof.
  intros Hp. unfold to_u128_with_precision, is_negative. destruct (negative s); [done|].
  rewrite u256_pow10 by lia. simpl.
  rewrite u256_op_div_Some by (apply Z.pow_nonzero; lia). simpl.
  rewrite DEC_ONE_div_pow by done.
  rewrite u256_op_div_Some by (apply Z.pow_nonzero; lia). simpl.
  by rewrite u128_try_from_spec.
Qed.

Lemma to_u128_with_precision_panics s p :
  18 < p <= 77 -> negative s = false ->
  to_u128_with_precision s p = Err (Panic "divide by zero").
Proof.
  intros Hp Hs. unfold to_u128_with_precision, is_negative. rewrite Hs.
  rewrite u256_pow10 by lia. simpl.
  rewrite u256_op_div_Some by (apply Z.pow_nonzero; lia). simpl.
  rewrite Z.div_small; [|split; [vm_compute; congruence|]].
  2: { apply Z.pow_lt_mono_r; lia. }
  rewrite u256_op_div_spec. done.
Qed.

Lemma floor_with_precision_total (x : Decimal256) p :
  is_dec x -> 0 <= p <= 18 ->
  floor_with_precision x p = Ok (x / 10 ^ (18 - p) * 10 ^ (18 - p)).
Proof.
  intros Hx Hp. unfold floor_with_precision.
  rewrite u256_pow10 by lia. simpl.
  rewrite u256_op_div_Some by (apply Z.pow_nonzero; lia). simpl.
  rewrite DEC_ONE_div_pow by done.
  assert (0 < 10 ^ (18 - p)) by (apply Z.pow_pos_nonneg; lia).
  rewrite u256_op_div_Some by lia. simpl.
  rewrite u256_op_mul_spec. unfold fits. rewrite (proj2 (u256_ok_true _)); [done|].
  unfold is_dec in Hx. pose proof (Z.mul_div_le x (10 ^ (18 - p)) H).
  pose proof (Z.div_pos x (10 ^ (18 - p))). nia.
Qed.

Lemma lp_token_into_u128_ok (l : LpToken) n :
  lp_token_into_u128 l = Ok n <-> n = l / LP_TOKEN_DIVIDER /\ u128_ok n = true.
Proof.
  unfold lp_token_into_u128. rewrite u256_div_spec. simpl.
  rewrite std_ok, u128_try_from_spec, fits_Some.
  split; intros [-> ?]; done.
Qed.

Lemma lp_token_from_u128_ok n l :
  lp_token_from_u128 n = Ok l <-> l = n * LP_TOKEN_DIVIDER /\ is_dec l.
Proof.
  unfold lp_token_from_u128.
  rewrite std_ok, dec_from_atomics_spec by (unfold LP_TOKEN_PRECISION, DECIMAL_PLACES; lia).
  rewrite fits_Some, is_dec_ok. split; intros [-> ?]; done.
Qed.
End Theory.

(** * Properties *)

Section Properties.
Context {CW : CosmwasmStd} {CWS : CosmwasmStdSpec CW}.

(** Signed arithmetic is exact integer arithmetic on the represented
    values, with a canonical result; products and quotients truncate towards
    zero, and the only failures are leaving the 256-bit range and a zero
    divisor. *)
Theorem signed_arithmetic_exact (a b : Signed) :
  signed_ok a -> signed_ok b ->
  signed_checked_add a b = signed_fits StdError (sval a + sval b) /\
  signed_checked_sub a b = signed_fits StdError (sval a - sval b) /\
  number_checked_mul a b =
    signed_fits (AnyhowError "Overflow while multiplying")
      (Z.quot (sval a * sval b) DEC_ONE) /\
  number_checked_div a b =
    if sval b =? 0 then Err (AnyhowError "Cannot divide with zero")
    else signed_fits (AnyhowError "Overflow while dividing")
           (Z.quot (sval a * DEC_ONE) (sval b)).
Proof.
  intros Ha Hb. split_and!;
    auto using signed_checked_add_fits, signed_checked_sub_fits,
      number_checked_mul_fits, number_checked_div_fits.
Qed.

(** on well-formed numbers the derived equality and the hand-written
    [Ord] agree with the integers: the comparison of two numbers is the
    comparison of their values, it is [Eq] only for identical numbers, and
    [min]/[max] pick the smaller and the larger value. *)
Theorem signed_order_total (a b : Signed) :
  signed_ok a -> signed_ok b ->
  signed_cmp a b = (sval a ?= sval b) /\
  (signed_cmp a b = Eq <-> a = b) /\
  sval (signed_min a b) = Z.min (sval a) (sval b) /\
  sval (signed_max a b) = Z.max (sval a) (sval b).
Proof.
  intros Ha Hb. rewrite signed_cmp_sval by done. split_and!; [done| | |].
  - rewrite Z.compare_eq_iff. split; [by apply sval_inj|by intros ->].
  - by apply signed_min_sval.
  - by apply signed_max_sval.
Qed.

(** operations on [NonZero] amounts give a positive amount or an error:
    addition never reaches its "impossible" panic, subtraction and signed
    addition succeed exactly when the result is positive and in range, and
    [inverse] panics exactly for amounts above 10^18 (10^36 atomics). *)
Theorem nonzero_operations_total (x y : Decimal256) (s : Signed) :
  0 < x <= U256_MAX -> 0 < y <= U256_MAX -> signed_ok s ->
  nonzero_checked_add x y = (if x + y <=? U256_MAX then Ok (x + y) else Err StdError) /\
  (forall v, nonzero_checked_sub x y = Ok v <-> v = x - y /\ y < x) /\
  (forall v, nonzero_checked_add_signed x s = Ok v <->
     v = x + sval s /\ 0 < x + sval s <= U256_MAX) /\
  nonzero_inverse x =
    (if x <=? DEC_ONE * DEC_ONE then Ok (DEC_ONE * DEC_ONE / x)
     else Err (Panic "NonZero::inverse failed but that should be impossible!")).
Proof.
  intros Hx Hy Hs. split_and!.
  - apply nonzero_checked_add_total; lia.
  - intros v. apply nonzero_checked_sub_ok; unfold is_dec; lia.
  - intros v. apply nonzero_checked_add_signed_ok; [unfold is_dec; lia|done].
  - apply nonzero_inverse_total; lia.
Qed.

(** LP tokens and their 6-decimal [u128] form: every integer amount that
    fits survives the round trip, and the conversion to [u128] drops less
    than one unit of the 6-decimal form. *)
Theorem lp_token_u128_roundtrip (n : Z) (l : LpToken) :
  u128_ok n = true -> is_dec l ->
  (exists l', lp_token_from_u128 n = Ok l' /\ lp_token_into_u128 l' = Ok n) /\
  (forall m, lp_token_into_u128 l = Ok m ->
     exists l', lp_token_from_u128 m = Ok l' /\ l - LP_TOKEN_DIVIDER < l' <= l).
Proof.
  intros Hn Hl. apply u128_ok_true in Hn as Hn'.
  assert (0 < LP_TOKEN_DIVIDER) as Hd by done. split.
  - exists (n * LP_TOKEN_DIVIDER). rewrite lp_token_from_u128_ok, lp_token_into_u128_ok.
    rewrite Z.div_mul by done. split; [split; [done|]|done]. split.
    + apply Z.mul_nonneg_nonneg; lia.
    + transitivity (U128_MAX * LP_TOKEN_DIVIDER); [|vm_compute; congruence].
      apply Z.mul_le_mono_nonneg_r; lia.
  - intros m Hm. apply lp_token_into_u128_ok in Hm as [-> _].
    pose proof (Z.div_mod l LP_TOKEN_DIVIDER) as Hdm.
    pose proof (Z.mod_pos_bound l LP_TOKEN_DIVIDER Hd). unfold is_dec in Hl.
    pose proof (Z.div_pos l LP_TOKEN_DIVIDER).
    exists (l / LP_TOKEN_DIVIDER * LP_TOKEN_DIVIDER).
    rewrite lp_token_from_u128_ok. unfold is_dec. rewrite (Z.mul_comm (l / _)).
    split; [split; [done|]|]; lia.
Qed.
End Properties.

(** * Witnesses *)

Lemma signed_arithmetic_exact_witness :
  signed_ok (mkSigned 5 true) /\
  signed_checked_add (CW:=cosmwasm_ref) (mkSigned 5 true) (mkSigned 3 false)
  = Ok (mkSigned 2 true).
Proof.
  assert (signed_ok (mkSigned 5 true)) as H5 by (repeat split; vm_compute; congruence).
  assert (signed_ok (mkSigned 3 false)) as H3 by (repeat split; vm_compute; congruence).
  split; [exact H5|].
  destruct (signed_arithmetic_exact (CW:=cosmwasm_ref) (CWS:=cosmwasm_ref_spec) _ _ H5 H3)
    as [-> _].
  vm_compute. reflexivity.
Defined.

Lemma signed_order_total_witness :
  signed_cmp (mkSigned 5 true) (mkSigned 3 true) = Lt.
Proof.
  assert (signed_ok (mkSigned 5 true)) as H5 by (repeat split; vm_compute; congruence).
  assert (signed_ok (mkSigned 3 true)) as H3 by (repeat split; vm_compute; congruence).
  destruct (signed_order_total _ _ H5 H3) as [-> _]. vm_compute. reflexivity.
Defined.

Lemma nonzero_operations_total_witness :
  nonzero_inverse (CW:=cosmwasm_ref) (10 ^ 37)
  = Err (Panic "NonZero::inverse failed but that should be impossible!").
Proof.
  destruct (nonzero_operations_total (CW:=cosmwasm_ref) (CWS:=cosmwasm_ref_spec)
    (10 ^ 37) 1 signed_zero) as (_ & _ & _ & H).
  - vm_compute. split; congruence.
  - vm_compute. split; congruence.
  - apply signed_zero_ok.
  - rewrite H. vm_compute. reflexivity.
Defined.

Lemma lp_token_u128_roundtrip_witness :
  exists l, lp_token_from_u128 (CW:=cosmwasm_ref) 7 = Ok l /\
            lp_token_into_u128 (CW:=cosmwasm_ref) l = Ok 7.
Proof.
  exact (proj1 (lp_token_u128_roundtrip (CW:=cosmwasm_ref) (CWS:=cosmwasm_ref_spec)
    7 0 eq_refl is_dec_0)).
Defined.
