(* ===== verification/Time.v ===== *)
(** * Timestamps and durations

    [packages/perpswap/src/time.rs]: both types are a [u64] of nanoseconds.
    The operators are the primitive ones of the release profile, which traps an
    overflow, so each returns a panic outside 64 bits. *)

From stdpp Require Import base option strings.
From Stdlib Require Import ZArith Lia.
From S2P Require Import Prelude Cosmwasm Types Number.
Local Open Scope Z_scope.

Section Definitions.
Context {CW : CosmwasmStd}.

(** A primitive [u64] operation under [overflow-checks]. *)
Definition u64_checked (z : Z) : res Z := panics "arithmetic overflow" (fits u64_ok z).

Definition timestamp_from_nanos (nanos : Z) : Timestamp := nanos.
Definition timestamp_from_seconds (seconds : Z) : res Timestamp :=
  u64_checked (seconds * 1000000000).
Definition timestamp_from_millis (millis : Z) : res Timestamp :=
  u64_checked (millis * 1000000).

Definition duration_from_nanos (nanos : Z) : Duration := nanos.
Definition duration_from_seconds (seconds : Z) : res Duration :=
  u64_checked (seconds * 1000000000).
Definition as_nanos (d : Duration) : Z := d.

(** [Timestamp + Duration] and [Timestamp::plus_seconds]. *)
Definition timestamp_add (t : Timestamp) (d : Duration) : res Timestamp := u64_checked (t + d).
Definition plus_seconds (t : Timestamp) (secs : Z) : res Timestamp :=
  d <- duration_from_seconds secs; timestamp_add t d.

Definition timestamp_checked_sub (self rhs : Timestamp) : res Duration :=
  if rhs <=? self then Ok (self - rhs)
  else Err (PerpError TimestampSubtractUnderflow DomDefault None).

Definition as_ms_number_lossy (d : Duration) : res Number := number_from_u64 (d / 1000000).
Definition as_ms_decimal_lossy (d : Duration) : res Decimal256 :=
  panics "as_ms_decimal_lossy failed, but range won't allow that to happen"
    (dec_from_atomics d 6).

(** The operators of [Duration]. *)
Definition duration_sub (a b : Duration) : res Duration := u64_checked (a - b).
Definition duration_add (a b : Duration) : res Duration := u64_checked (a + b).
Definition duration_mul (a : Duration) (n : Z) : res Duration := u64_checked (a * n).
Definition duration_div (a : Duration) (n : Z) : res Duration :=
  panics "divide by zero" (if n =? 0 then None else Some (a / n)).
Definition duration_div_duration (a b : Duration) : res Z :=
  panics "divide by zero" (if b =? 0 then None else Some (a / b)).

End Definitions.

(** * Theory *)

Lemma u64_checked_ok z r : u64_checked z = Ok r <-> r = z /\ 0 <= z <= U64_MAX.
Proof. unfold u64_checked. rewrite panics_ok, fits_Some, u64_ok_true. done. Qed.

Lemma timestamp_add_ok t d r :
  timestamp_add t d = Ok r <-> r = t + d /\ 0 <= t + d <= U64_MAX.
Proof. apply u64_checked_ok. Qed.

Lemma timestamp_checked_sub_ok a b d :
  timestamp_checked_sub a b = Ok d <-> d = a - b /\ b <= a.
Proof.
  unfold timestamp_checked_sub. destruct (Z.leb_spec b a) as [H|H].
  - split; [intros [= <-]; lia|intros [-> _]; done].
  - split; [discriminate|lia].
Qed.

Lemma plus_seconds_ok t secs r :
  0 <= t -> 0 <= secs ->
  (plus_seconds t secs = Ok r <-> r = t + secs * 1000000000 /\ r <= U64_MAX).
Proof.
  intros Ht Hs. unfold plus_seconds, duration_from_seconds. rewrite rbind_ok.
  setoid_rewrite u64_checked_ok. split.
  - intros (d & [-> ?] & -> & ?). lia.
  - intros [-> ?]. exists (secs * 1000000000). lia.
Qed.

Section Theory.
Context {CW : CosmwasmStd} {CWS : CosmwasmStdSpec CW}.

(** The [expect] of [as_ms_decimal_lossy] is never reached. *)
Lemma as_ms_decimal_lossy_total d :
  0 <= d <= U64_MAX -> as_ms_decimal_lossy d = Ok (d * 10 ^ 12).
Proof.
  intros Hd. unfold as_ms_decimal_lossy.
  rewrite dec_from_atomics_spec by (unfold DECIMAL_PLACES; lia).
  apply panics_ok, fits_Some. split; [done|]. apply is_dec_ok.
  change (10 ^ (DECIMAL_PLACES - 6)) with 1000000000000.
  split; [lia|]. transitivity (U64_MAX * 1000000000000); [lia|vm_compute; congruence].
Qed.
End Theory.
