(* ===== verification/Market.v ===== *)
(** * Market identifiers

    [packages/perpswap/src/market_type.rs]: the [MarketId] of a pair, its
    encoding [BASE_QUOTE] with a [+] on the collateral asset whenever the
    default (a fiat quote is not the collateral) does not apply, and the
    parser.  Strings are the UTF-8 bytes; both separators are ASCII. *)

From stdpp Require Import base option strings.
From Stdlib Require Import ZArith Lia Ascii.
From S2P Require Import Prelude Types.
Local Open Scope string_scope.
#[local] Arguments String.append !_ _ / : simpl nomatch.

(** [struct MarketId]; equality, order and hash look at [encoded] only. *)
Record MarketId := mkMarketId {
  mid_base : string;
  mid_quote : string;
  mid_market_type : MarketType;
  mid_encoded : string;
}.

Definition is_fiat (s : string) : bool := String.eqb s "USD" || String.eqb s "EUR".

Definition make_encoded (base quote : string) (market_type : MarketType) : string :=
  let '(base_plus, quote_plus) :=
    match market_type, is_fiat quote with
    | CollateralIsQuote, true => ("", "+")
    | CollateralIsQuote, false => ("", "")
    | CollateralIsBase, true => ("", "")
    | CollateralIsBase, false => ("+", "")
    end in
  base ++ base_plus ++ "_" ++ quote ++ quote_plus.

Definition market_id_new (base quote : string) (market_type : MarketType) : MarketId :=
  mkMarketId base quote market_type (make_encoded base quote market_type).

(** [str::split_once] and [str::strip_suffix] with a one-byte pattern. *)
Fixpoint split_once (c : ascii) (s : string) : option (string * string) :=
  match s with
  | EmptyString => None
  | String a rest =>
      if Ascii.eqb a c then Some ("", rest)
      else match split_once c rest with
           | Some (l, r) => Some (String a l, r)
           | None => None
           end
  end.

Fixpoint strip_suffix (c : ascii) (s : string) : option string :=
  match s with
  | EmptyString => None
  | String a EmptyString => if Ascii.eqb a c then Some "" else None
  | String a rest => String a <$> strip_suffix c rest
  end.

(** [MarketId::parse], with the [assert_eq!] as a panic. *)
Definition market_id_parse (s : string) : res (option MarketId) :=
  match split_once "_" s with
  | None => Ok None
  | Some (base, quote) =>
      match (match strip_suffix "+" base with
             | Some base' => if is_fiat quote then None else Some (base', true)
             | None => Some (base, false)
             end) with
      | None => Ok None
      | Some (base, base_is_collateral) =>
          match (match strip_suffix "+" quote with
                 | Some quote' => if is_fiat quote' then Some (quote', true) else None
                 | None => Some (quote, false)
                 end) with
          | None => Ok None
          | Some (quote, quote_is_collateral) =>
              match (match base_is_collateral, quote_is_collateral with
                     | true, true => None
                     | true, false => Some CollateralIsBase
                     | false, true => Some CollateralIsQuote
                     | false, false =>
                         Some (if is_fiat quote then CollateralIsBase else CollateralIsQuote)
                     end) with
              | None => Ok None
              | Some market_type =>
                  if String.eqb (make_encoded base quote market_type) s
                  then Ok (Some (mkMarketId base quote market_type s))
                  else Err (Panic "assert_eq!(make_encoded(base, quote, market_type), s)")
              end
          end
      end
  end.

Definition get_notional (m : MarketId) : string :=
  match mid_market_type m with
  | CollateralIsQuote => mid_base m
  | CollateralIsBase => mid_quote m
  end.

Definition get_collateral (m : MarketId) : string :=
  match mid_market_type m with
  | CollateralIsQuote => mid_quote m
  | CollateralIsBase => mid_base m
  end.

Definition market_is_notional_usd (m : MarketId) : bool := String.eqb (get_notional m) "USD".

(** [FromStr]: the parser's [None] is a parse error. *)
Definition market_id_from_str (s : string) : res MarketId :=
  o <- market_id_parse s; of_option StdError o.

(** * Theory *)

Fixpoint contains (c : ascii) (s : string) : bool :=
  match s with
  | EmptyString => false
  | String a rest => Ascii.eqb a c || contains c rest
  end.

Lemma string_app_assoc (a b c : string) : (a ++ b) ++ c = a ++ (b ++ c).
Proof. induction a; simpl; congruence. Qed.
Lemma string_app_nil (a : string) : a ++ "" = a.
Proof. induction a; simpl; congruence. Qed.

Lemma split_once_Some c s l r :
  split_once c s = Some (l, r) <-> s = l ++ String c r /\ contains c l = false.
Proof.
  revert l. induction s as [|a s IH]; intros l; simpl.
  { split; [done|]. intros [H _]. by destruct l. }
  destruct (Ascii.eqb_spec a c) as [->|Ha].
  - split; [by intros [= <- <-]|]. intros [H Hc]. destruct l as [|b l]; simpl in *.
    + by injection H as ->.
    + injection H as <- H. by rewrite Ascii.eqb_refl in Hc.
  - destruct (split_once c s) as [[l' r']|] eqn:E.
    + split.
      * intros [= <- <-]. destruct (proj1 (IH l')) as [-> Hc]; [done|]. simpl.
        by rewrite (proj2 (Ascii.eqb_neq a c) Ha).
      * intros [H Hc]. destruct l as [|b l]; simpl in *; [by injection H as ->|].
        injection H as <- H. apply orb_false_iff in Hc as [_ Hc].
        assert (Some (l', r') = Some (l, r)) as [= -> ->] by (by apply IH). done.
    + split; [done|]. intros [H Hc]. destruct l as [|b l]; simpl in *.
      * by injection H as ->.
      * injection H as <- H. apply orb_false_iff in Hc as [_ Hc].
        assert (None = Some (l, r)) by (by apply IH). done.
Qed.

Lemma strip_suffix_Some c s t : strip_suffix c s = Some t <-> s = t ++ String c "".
Proof.
  revert t. induction s as [|a s IH]; intros t.
  { split; [done|]. by destruct t. }
  destruct s as [|b s].
  - simpl. destruct (Ascii.eqb_spec a c) as [->|Ha]; split.
    + by intros [= <-].
    + destruct t as [|x [|]]; [done|by intros [=]|by intros [=]].
    + done.
    + destruct t as [|x [|]]; intros [=]. done.
  - change (strip_suffix c (String a (String b s)))
      with (String a <$> strip_suffix c (String b s)).
    rewrite fmap_Some. setoid_rewrite IH. split.
    + intros (u & -> & ->). done.
    + destruct t as [|x t]; [done|]. simpl. intros [= -> H]. by exists t.
Qed.

Lemma strip_suffix_app c s : strip_suffix c (s ++ String c "") = Some s.
Proof. by apply strip_suffix_Some. Qed.

Lemma split_once_app c l r :
  contains c l = false -> split_once c (l ++ String c r) = Some (l, r).
Proof. intros. by apply split_once_Some. Qed.

Lemma contains_app c a b : contains c (a ++ b) = contains c a || contains c b.
Proof. induction a; simpl; [done|]. rewrite IHa. by destruct (Ascii.eqb a c). Qed.

(** The names a round trip needs: no underscore in the base (it would be taken
    for the separator), no trailing plus on either side. *)
Definition plain_pair (base quote : string) : Prop :=
  contains "_" base = false /\ strip_suffix "+" base = None /\ strip_suffix "+" quote = None.

Lemma fiat_no_plus s : is_fiat s = true -> strip_suffix "+" s = None.
Proof.
  unfold is_fiat. rewrite orb_true_iff, !String.eqb_eq. by intros [-> | ->].
Qed.

(** * Properties *)

(** parsing a string never trips the parser's internal assertion, and a
    successful parse returns an identifier whose encoding is the input. *)
Theorem market_id_parse_sound (s : string) :
  market_id_parse s = Ok None \/
  exists m, market_id_parse s = Ok (Some m) /\ mid_encoded m = s /\
    m = market_id_new (mid_base m) (mid_quote m) (mid_market_type m).
Proof.
  assert (forall b q mt, make_encoded b q mt = s ->
    (if String.eqb (make_encoded b q mt) s
     then Ok (Some (mkMarketId b q mt s))
     else Err (Panic "assert_eq!(make_encoded(base, quote, market_type), s)")) = Ok None \/
    exists m : MarketId,
      (if String.eqb (make_encoded b q mt) s
       then Ok (Some (mkMarketId b q mt s))
       else Err (Panic "assert_eq!(make_encoded(base, quote, market_type), s)")) = Ok (Some m) /\
      mid_encoded m = s /\
      m = market_id_new (mid_base m) (mid_quote m) (mid_market_type m)) as Hend.
  { intros b q mt H. right. exists (mkMarketId b q mt s). rewrite H, String.eqb_refl.
    unfold market_id_new; simpl. by rewrite H. }
  unfold market_id_parse.
  destruct (split_once "_" s) as [[b q]|] eqn:Hs; [|by left].
  apply split_once_Some in Hs as [Hs _].
  destruct (strip_suffix "+" b) as [b'|] eqn:Hb.
  - destruct (is_fiat q) eqn:Hf; [by left|].
    apply strip_suffix_Some in Hb as ->.
    destruct (strip_suffix "+" q) as [q'|] eqn:Hq.
    + destruct (is_fiat q'); by left.
    + apply Hend. unfold make_encoded. rewrite Hf, Hs.
      simpl. by rewrite string_app_nil, string_app_assoc.
  - destruct (strip_suffix "+" q) as [q'|] eqn:Hq.
    + destruct (is_fiat q') eqn:Hf; [|by left].
      apply strip_suffix_Some in Hq as ->. apply Hend. unfold make_encoded. by rewrite Hf, Hs.
    + destruct (is_fiat q) eqn:Hf; apply Hend; unfold make_encoded; rewrite Hf, Hs; simpl;
        by rewrite string_app_nil.
Qed.

Lemma market_id_read_back (base quote : string) (market_type : MarketType) :
  plain_pair base quote ->
  market_id_from_str (mid_encoded (market_id_new base quote market_type)) = Ok (market_id_new base quote market_type).
Proof.
  intros (Hu & Hb & Hq).
  unfold market_id_from_str, market_id_parse, market_id_new; simpl.
  destruct (is_fiat quote) eqn:Hf, market_type; unfold make_encoded at 1; rewrite Hf; simpl;
    rewrite ?string_app_nil.
  - rewrite split_once_app, Hb, strip_suffix_app, Hf by done.
    by rewrite String.eqb_refl.
  - rewrite split_once_app, Hb, Hq, Hf by done. by rewrite String.eqb_refl.
  - rewrite split_once_app, Hb, Hq, Hf by done. by rewrite String.eqb_refl.
  - change (base ++ String "+" (String "_" quote))
      with (base ++ (String "+" "" ++ String "_" quote)).
    rewrite <- string_app_assoc, split_once_app by (by rewrite contains_app, Hu).
    rewrite strip_suffix_app, Hf, Hq. simpl.
    assert (make_encoded base quote CollateralIsBase = (base ++ "+") ++ String "_" quote) as ->.
    { unfold make_encoded. rewrite Hf. simpl. by rewrite string_app_nil, string_app_assoc. }
    by rewrite String.eqb_refl.
Qed.

(** C40: parsing the encoding of a market built from plain asset names gives
    that market back, so distinct markets have distinct encodings, and the
    notional and collateral assets are the two sides of the pair. *)
Theorem market_id_roundtrip (base quote : string) (market_type : MarketType) :
  plain_pair base quote ->
  market_id_from_str (mid_encoded (market_id_new base quote market_type)) =
    Ok (market_id_new base quote market_type) /\
  (get_notional (market_id_new base quote market_type),
   get_collateral (market_id_new base quote market_type)) =
    match market_type with
    | CollateralIsQuote => (base, quote)
    | CollateralIsBase => (quote, base)
    end.
Proof. intros Hp. split; [by apply market_id_read_back|by destruct market_type]. Qed.

Lemma market_id_roundtrip_witness :
  market_id_from_str "BTC_USD+" = Ok (market_id_new "BTC" "USD" CollateralIsQuote).
Proof.
  exact (proj1 (market_id_roundtrip "BTC" "USD" CollateralIsQuote
    (conj eq_refl (conj eq_refl eq_refl)))).
Defined.
