(* ===== verification/Price.v ===== *)
(** * Prices, directions, leverage and max gains

    [packages/perpswap/src/{price,direction,leverage,max_gains}.rs]: the three
    price representations with their conversions, the translation of
    directions and leverage between the trader's view (base) and the protocol's
    view (notional), and the counter collateral implied by the max gains.
    [Price], [PriceBaseInQuote], [PriceCollateralInUsd] and the leverage types
    are transparent newtypes.  Decimal operators panic, so the conversions
    return a [res]. *)

From stdpp Require Import base option strings.
From Stdlib Require Import ZArith Lia.
From S2P Require Import Prelude Cosmwasm Types Number Market.
Local Open Scope Z_scope.

Abbreviation Price := Z (only parsing).
Abbreviation PriceBaseInQuote := Z (only parsing).
Abbreviation PriceCollateralInUsd := Z (only parsing).
Abbreviation LeverageToBase := Z (only parsing).
Abbreviation SignedLeverageToBase := Signed (only parsing).
Abbreviation SignedLeverageToNotional := Signed (only parsing).

(** ** Directions *)

Definition direction_invert (d : DirectionToBase) : DirectionToBase :=
  match d with LongToBase => ShortToBase | ShortToBase => LongToBase end.

Definition direction_into_notional (d : DirectionToBase) (market_type : MarketType) :
    DirectionToNotional :=
  match market_type, d with
  | CollateralIsQuote, LongToBase => LongToNotional
  | CollateralIsQuote, ShortToBase => ShortToNotional
  | CollateralIsBase, LongToBase => ShortToNotional
  | CollateralIsBase, ShortToBase => LongToNotional
  end.

Definition direction_into_base (d : DirectionToNotional) (market_type : MarketType) :
    DirectionToBase :=
  match market_type, d with
  | CollateralIsQuote, LongToNotional => LongToBase
  | CollateralIsQuote, ShortToNotional => ShortToBase
  | CollateralIsBase, LongToNotional => ShortToBase
  | CollateralIsBase, ShortToNotional => LongToBase
  end.

Definition direction_sign (d : DirectionToNotional) : Number :=
  match d with LongToNotional => NUMBER_ONE | ShortToNotional => NUMBER_NEG_ONE end.

(** ** [struct PricePoint] *)

Record PricePoint := mkPricePoint {
  price_notional : Price;
  price_usd : PriceCollateralInUsd;
  price_base : PriceBaseInQuote;
  pp_timestamp : Timestamp;
  pp_is_notional_usd : bool;
  pp_market_type : MarketType;
  pp_publish_time : option Timestamp;
  pp_publish_time_usd : option Timestamp;
}.

(** [TakeProfitTrader] and [MaxGainsInQuote]. *)
Inductive TakeProfitTrader := TakeProfitFinite (x : Decimal256) | TakeProfitPosInfinity.
Inductive MaxGainsInQuote := MaxGainsFinite (x : Decimal256) | MaxGainsPosInfinity.

Section Definitions.
Context {CW : CosmwasmStd}.

(** The [*] and [/] operators of [Decimal256]. *)
Definition op_mul (a b : Decimal256) : res Decimal256 := panics "multiply" (dec_op_mul a b).
Definition op_div (a b : Decimal256) : res Decimal256 := panics "divide" (dec_op_div a b).

(** ** [impl PriceBaseInQuote] *)

Definition into_notional_price (self : PriceBaseInQuote) (market_type : MarketType) : res Price :=
  match market_type with
  | CollateralIsQuote => Ok self
  | CollateralIsBase => nonzero_inverse self
  end.

Definition price_base_try_from_number (raw : Number) : res PriceBaseInQuote :=
  nonzero_try_from raw.

Definition price_try_into_usd (self : PriceBaseInQuote) (market_id : MarketId) :
    res (option PriceCollateralInUsd) :=
  if String.eqb (mid_base market_id) "USD" then
    match mid_market_type market_id with
    | CollateralIsQuote => p <- nonzero_inverse self; Ok (Some p)
    | CollateralIsBase => Ok (Some nonzero_one)
    end
  else if String.eqb (mid_quote market_id) "USD" then
    match mid_market_type market_id with
    | CollateralIsQuote => Ok (Some nonzero_one)
    | CollateralIsBase => Ok (Some self)
    end
  else Ok None.

(** ** [impl PriceCollateralInUsd] *)

Definition usd_price_collateral_to_usd (self : PriceCollateralInUsd) (collateral : Collateral) :
    res Usd := op_mul collateral self.
Definition usd_price_usd_to_collateral (self : PriceCollateralInUsd) (usd : Usd) :
    res Collateral := op_div usd self.
Definition usd_price_collateral_to_usd_non_zero (self : PriceCollateralInUsd)
    (collateral : Collateral) : res Usd :=
  v <- op_mul collateral self;
  panics "collateral_to_usd_non_zero: Impossible! Output cannot be 0" (nonzero_new v).

(** ** [impl Price] *)

Definition into_base_price (self : Price) (market_type : MarketType) : res PriceBaseInQuote :=
  match market_type with
  | CollateralIsQuote => Ok self
  | CollateralIsBase => nonzero_inverse self
  end.

Definition price_collateral_to_base_non_zero (self : Price) (market_type : MarketType)
    (collateral : Collateral) : res Base :=
  v <- match market_type with
       | CollateralIsQuote => op_div collateral self
       | CollateralIsBase => Ok collateral
       end;
  panics "collateral_to_base_non_zero: impossible 0 value as a result" (nonzero_new v).

Definition price_base_to_collateral (self : Price) (market_type : MarketType) (amount : Base) :
    res Collateral :=
  match market_type with
  | CollateralIsQuote => op_mul amount self
  | CollateralIsBase => Ok amount
  end.

Definition price_notional_to_collateral (self : Price) (amount : Notional) : res Collateral :=
  op_mul amount self.
Definition price_collateral_to_notional (self : Price) (amount : Collateral) : res Notional :=
  op_div amount self.
Definition price_collateral_to_notional_non_zero (self : Price) (amount : Collateral) :
    res Notional :=
  v <- op_div amount self;
  panics "collateral_to_notional_non_zero resulted in 0" (nonzero_new v).

Definition price_try_from_number (number : Number) : res Price :=
  match nonzero_try_from number with
  | Ok p => Ok p
  | Err _ => Err (AnyhowError "Cannot convert number to Price")
  end.

(** ** [impl PricePoint] *)

Definition notional_to_collateral (self : PricePoint) (amount : Notional) : res Collateral :=
  price_notional_to_collateral (price_notional self) amount.
Definition collateral_to_notional (self : PricePoint) (amount : Collateral) : res Notional :=
  price_collateral_to_notional (price_notional self) amount.
Definition collateral_to_notional_non_zero (self : PricePoint) (amount : Collateral) :
    res Notional :=
  v <- collateral_to_notional self amount;
  panics "collateral_to_notional_non_zero: impossible 0 result" (nonzero_new v).
Definition base_to_collateral (self : PricePoint) (base : Base) : res Collateral :=
  price_base_to_collateral (price_notional self) (pp_market_type self) base.
Definition collateral_to_usd (self : PricePoint) (collateral : Collateral) : res Usd :=
  usd_price_collateral_to_usd (price_usd self) collateral.
Definition usd_to_collateral (self : PricePoint) (usd : Usd) : res Collateral :=
  usd_price_usd_to_collateral (price_usd self) usd.
Definition base_to_usd (self : PricePoint) (base : Base) : res Usd :=
  c <- base_to_collateral self base; collateral_to_usd self c.
Definition collateral_to_base_non_zero (self : PricePoint) (collateral : Collateral) : res Base :=
  price_collateral_to_base_non_zero (price_notional self) (pp_market_type self) collateral.
Definition collateral_to_usd_non_zero (self : PricePoint) (collateral : Collateral) : res Usd :=
  usd_price_collateral_to_usd_non_zero (price_usd self) collateral.
Definition notional_to_usd (self : PricePoint) (notional : Notional) : res Usd :=
  if pp_is_notional_usd self then Ok notional
  else c <- notional_to_collateral self notional; collateral_to_usd self c.

(** ** [impl TakeProfitTrader] *)

Definition take_profit_as_finite (self : TakeProfitTrader) : option Decimal256 :=
  match self with TakeProfitFinite x => Some x | TakeProfitPosInfinity => None end.

Definition take_profit_into_notional (self : TakeProfitTrader) (market_type : MarketType) :
    res (option Price) :=
  match self with
  | TakeProfitPosInfinity => Ok None
  | TakeProfitFinite x => p <- into_notional_price x market_type; Ok (Some p)
  end.

(** ** Leverage *)

Definition leverage_into_signed (self : LeverageToBase) (direction : DirectionToBase) :
    SignedLeverageToBase :=
  match direction with
  | LongToBase => into_signed self
  | ShortToBase => signed_neg (into_signed self)
  end.

Definition leverage_into_notional (self : SignedLeverageToBase) (market_type : MarketType) :
    res SignedLeverageToNotional :=
  match market_type with
  | CollateralIsQuote => Ok self
  | CollateralIsBase => signed_checked_sub NUMBER_ONE self
  end.

Definition leverage_split (self : SignedLeverageToBase) : DirectionToBase * LeverageToBase :=
  match try_into_non_negative_value self with
  | Some x => (LongToBase, x)
  | None => (ShortToBase, abs_unsigned self)
  end.

Definition checked_mul_base (self : SignedLeverageToBase) (base : Base) : res Signed :=
  checked_mul_number (into_signed base) self.

Definition leverage_direction (self : SignedLeverageToNotional) : DirectionToNotional :=
  match try_into_non_negative_value self with
  | Some _ => LongToNotional
  | None => ShortToNotional
  end.

Definition leverage_calculate (notional_size : Signed) (price_point : PricePoint)
    (collateral : Collateral) : res SignedLeverageToNotional :=
  notional_size_in_collateral <-
    try_map (notional_to_collateral price_point) notional_size;
  try_map (fun x => div_non_zero x collateral) notional_size_in_collateral.

Definition leverage_into_base (self : SignedLeverageToNotional) (market_type : MarketType) :
    res SignedLeverageToBase :=
  match market_type with
  | CollateralIsQuote => Ok self
  | CollateralIsBase => signed_checked_sub NUMBER_ONE self
  end.

Definition checked_mul_collateral (self : SignedLeverageToNotional) (collateral : Collateral) :
    res Signed := checked_mul_number (into_signed collateral) self.

(** ** [MaxGainsInQuote::calculate_counter_collateral] *)

Definition calculate_counter_collateral (self : MaxGainsInQuote) (market_type : MarketType)
    (collateral : Collateral) (notional_size_in_collateral : Signed)
    (leverage_to_notional : SignedLeverageToNotional) : res Collateral :=
  let direction_to_base :=
    direction_into_base (leverage_direction leverage_to_notional) market_type in
  match market_type with
  | CollateralIsQuote =>
      match self with
      | MaxGainsFinite max_gains_in_collateral =>
          checked_mul_non_zero collateral max_gains_in_collateral
      | MaxGainsPosInfinity =>
          Err (into_anyhow (InvalidInfiniteMaxGains market_type direction_to_base))
      end
  | CollateralIsBase =>
      match self with
      | MaxGainsPosInfinity =>
          match leverage_direction leverage_to_notional with
          | LongToNotional =>
              Err (into_anyhow (InvalidInfiniteMaxGains market_type direction_to_base))
          | ShortToNotional =>
              of_option (AnyhowError "notional_size_in_collateral is zero")
                (nonzero_new (abs_unsigned notional_size_in_collateral))
          end
      | MaxGainsFinite max_gains_in_notional =>
          gains_plus_one <-
            signed_checked_add (into_signed max_gains_in_notional) NUMBER_ONE;
          quotient <- number_checked_div gains_plus_one leverage_to_notional;
          max_gains_multiple <- signed_checked_sub NUMBER_ONE quotient;
          too_large <- approx_lt_relaxed max_gains_multiple NUMBER_ZERO;
          if (too_large : bool) then Err (RawMarketError MaxGainsTooLarge)
          else
            product <- number_checked_mul (into_signed collateral)
                         (into_signed max_gains_in_notional);
            counter_collateral <- number_checked_div product max_gains_multiple;
            of_option (AnyhowError "Calculated an invalid counter_collateral")
              (nonzero_try_from_number counter_collateral)
      end
  end.

End Definitions.

(** * Theory *)

Lemma NUMBER_ONE_ok : signed_ok NUMBER_ONE.
Proof. split; [apply is_dec_one|done]. Qed.
Lemma NUMBER_ZERO_ok : signed_ok NUMBER_ZERO.
Proof. split; [apply is_dec_0|done]. Qed.
Lemma EPS_E7_ok : signed_ok EPS_E7.
Proof. split; [vm_compute; split; congruence|done]. Qed.
#[export] Hint Resolve NUMBER_ONE_ok NUMBER_ZERO_ok EPS_E7_ok : perps.

Lemma direction_roundtrip mt :
  (forall d, direction_into_base (direction_into_notional d mt) mt = d) /\
  (forall d, direction_into_notional (direction_into_base d mt) mt = d).
Proof. by split; intros []; destruct mt. Qed.

Section Theory.
Context {CW : CosmwasmStd} {CWS : CosmwasmStdSpec CW}.

Lemma op_mul_ok a b c :
  op_mul a b = Ok c <-> c = a * b / DEC_ONE /\ is_dec (a * b / DEC_ONE).
Proof. unfold op_mul. rewrite panics_ok. apply dec_op_mul_Some. Qed.
Lemma op_div_ok a b c :
  op_div a b = Ok c <-> b <> 0 /\ c = a * DEC_ONE / b /\ is_dec (a * DEC_ONE / b).
Proof. unfold op_div. rewrite panics_ok. apply dec_op_div_Some. Qed.

(** Scaling down by [x/y] and back up loses less than one unit of each. *)
Lemma div_mul_roundtrip a x y :
  0 <= a -> 0 < x -> 0 < y ->
  a * x / y * y / x <= a /\ (a - a * x / y * y / x) * x < x + y.
Proof.
  intros Ha Hx Hy.
  pose proof (Z.mul_div_le (a * x) y Hy). pose proof (Z.mul_succ_div_gt (a * x) y Hy).
  set (q := a * x / y) in *.
  pose proof (Z.mul_div_le (q * y) x Hx). pose proof (Z.mul_succ_div_gt (q * y) x Hx).
  set (r := q * y / x) in *. nia.
Qed.

Lemma leverage_flip_ok l :
  signed_ok l -> Z.abs (sval l) <= U256_MAX - DEC_ONE ->
  exists n, signed_checked_sub NUMBER_ONE l = Ok n /\ signed_ok n /\
    sval n = DEC_ONE - sval l.
Proof.
  intros Hl Hb. exists (signed_of (DEC_ONE - sval l)).
  rewrite signed_checked_sub_fits by auto with perps. rewrite signed_fits_ok.
  change (sval NUMBER_ONE) with DEC_ONE. pose proof DEC_ONE_pos.
  assert (is_dec (Z.abs (DEC_ONE - sval l))) by (unfold is_dec; lia).
  split; [done|]. split; [by apply signed_of_ok|apply sval_signed_of].
Qed.

Lemma signed_sub_involutive a l n :
  signed_ok a -> signed_ok l -> signed_ok n -> sval n = sval a - sval l ->
  signed_checked_sub a n = Ok l.
Proof.
  intros Ha Hl Hn Hv. rewrite signed_checked_sub_fits by done. apply signed_fits_ok.
  replace (sval a - sval n) with (sval l) by lia.
  rewrite signed_of_sval by done. split; [done|]. rewrite sval_abs by done. by destruct Hl.
Qed.

Lemma approx_lt_relaxed_zero a b :
  signed_ok a -> approx_lt_relaxed a NUMBER_ZERO = Ok b -> b = (sval a <? 100000000000).
Proof.
  intros Ha. unfold approx_lt_relaxed. intros (o & H & [= <-])%rbind_ok.
  apply signed_checked_add_ok in H as [Hv Ho]; [|auto with perps..].
  rewrite signed_ltb_sval by done. rewrite Hv. done.
Qed.

Lemma nonzero_try_from_number_signed_of z v :
  nonzero_try_from_number (signed_of z) = Some v <-> v = z /\ 0 < z.
Proof.
  unfold nonzero_try_from_number, ud_try_from_number, signed_of.
  destruct (Z.ltb_spec z 0); simpl.
  - split; [done|lia].
  - rewrite nonzero_new_Some. lia.
Qed.

Lemma leverage_direction_sval l :
  signed_ok l -> leverage_direction l = if sval l <? 0 then ShortToNotional else LongToNotional.
Proof.
  intros Hl. unfold leverage_direction, try_into_non_negative_value.
  rewrite is_negative_sval by done. by destruct (sval l <? 0).
Qed.

Lemma counter_collateral_base_finite g c ns l cc :
  signed_ok l -> is_dec c -> is_dec g ->
  calculate_counter_collateral (MaxGainsFinite g) CollateralIsBase c ns l = Ok cc ->
  let m := DEC_ONE - Z.quot ((g + DEC_ONE) * DEC_ONE) (sval l) in
  sval l <> 0 /\ 100000000000 <= m /\ cc = Z.quot (c * g / DEC_ONE * DEC_ONE) m /\ 0 < cc.
Proof.
  intros Hl Hc Hg H. unfold calculate_counter_collateral in H.
  apply rbind_ok in H as (gp & Hgp & H). apply rbind_ok in H as (q & Hq & H).
  apply rbind_ok in H as (m & Hm & H). apply rbind_ok in H as (tl & Htl & H).
  rewrite signed_checked_add_fits, sval_into_signed in Hgp by auto with perps.
  apply signed_fits_ok in Hgp as [-> ?]. change (sval NUMBER_ONE) with DEC_ONE in *.
  rewrite number_checked_div_fits, sval_signed_of in Hq by auto using signed_of_ok.
  destruct (Z.eqb_spec (sval l) 0) as [Hz|Hz]; [done|].
  apply signed_fits_ok in Hq as [-> ?].
  rewrite signed_checked_sub_fits, sval_signed_of in Hm by auto using signed_of_ok with perps.
  change (sval NUMBER_ONE) with DEC_ONE in Hm. apply signed_fits_ok in Hm as [-> Hm].
  apply approx_lt_relaxed_zero in Htl; [|by apply signed_of_ok].
  rewrite sval_signed_of in Htl. subst tl.
  set (m := DEC_ONE - _) in *. destruct (Z.ltb_spec m 100000000000); [done|].
  apply rbind_ok in H as (p & Hp & H). apply rbind_ok in H as (cs & Hcs & H).
  rewrite number_checked_mul_fits, !sval_into_signed in Hp by auto with perps.
  apply signed_fits_ok in Hp as [-> ?].
  rewrite number_checked_div_fits, !sval_signed_of in Hcs by auto using signed_of_ok.
  destruct (Z.eqb_spec m 0); [done|]. apply signed_fits_ok in Hcs as [-> ?].
  apply of_option_ok, nonzero_try_from_number_signed_of in H as [-> ?].
  unfold is_dec in Hc, Hg.
  rewrite (Z.quot_div_nonneg (c * g)) in * by (pose proof DEC_ONE_pos; nia).
  done.
Qed.
End Theory.

(** * Properties *)

Section Properties.
Context {CW : CosmwasmStd} {CWS : CosmwasmStdSpec CW}.

(** a direction survives the translation to the protocol's view and back
    in both market types, and so does every leverage that leaves room for the
    off-by-one: in a collateral-is-base market it becomes [1 - leverage]. *)
Theorem direction_leverage_roundtrip (mt : MarketType) (d : DirectionToBase)
    (l : SignedLeverageToBase) :
  signed_ok l -> Z.abs (sval l) <= U256_MAX - DEC_ONE ->
  direction_into_base (direction_into_notional d mt) mt = d /\
  exists n, leverage_into_notional l mt = Ok n /\ leverage_into_base n mt = Ok l /\
    sval n = match mt with CollateralIsQuote => sval l | CollateralIsBase => DEC_ONE - sval l end.
Proof.
  intros Hl Hb. split; [apply direction_roundtrip|].
  destruct mt; simpl; [by exists l|].
  destruct (leverage_flip_ok l Hl Hb) as (n & Hn & Hok & Hv). exists n.
  split; [done|]. split; [|done].
  apply signed_sub_involutive; auto with perps.
Qed.

(** converting collateral to notional and back never gains, always
    succeeds, and loses less than one atomic unit plus the price of one; the
    same holds the other way round. *)
Theorem price_conversion_roundtrip (pp : PricePoint) (c n : Decimal256) :
  0 < price_notional pp -> is_dec c -> is_dec n ->
  (forall n', collateral_to_notional pp c = Ok n' ->
     exists c', notional_to_collateral pp n' = Ok c' /\ c' <= c /\
       (c - c') * DEC_ONE < DEC_ONE + price_notional pp) /\
  (forall c', notional_to_collateral pp n = Ok c' ->
     exists n', collateral_to_notional pp c' = Ok n' /\ n' <= n /\
       (n - n') * price_notional pp < price_notional pp + DEC_ONE).
Proof.
  intros Hp Hc Hn. pose proof DEC_ONE_pos as HD.
  unfold collateral_to_notional, notional_to_collateral, price_collateral_to_notional,
    price_notional_to_collateral. unfold is_dec in Hc, Hn.
  split.
  - intros n' H. apply op_div_ok in H as (_ & -> & _).
    destruct (div_mul_roundtrip c DEC_ONE (price_notional pp)) as [Hle Hlt]; [lia..|].
    eexists. split; [|split; [exact Hle|exact Hlt]].
    apply op_mul_ok. split; [done|]. unfold is_dec. split; [|lia].
    apply Z.div_pos; [|lia]. apply Z.mul_nonneg_nonneg; [apply Z.div_pos|]; nia.
  - intros c' H. apply op_mul_ok in H as (-> & _).
    destruct (div_mul_roundtrip n (price_notional pp) DEC_ONE) as [Hle Hlt]; [lia..|].
    eexists. split; [|split; [exact Hle|exact Hlt]].
    apply op_div_ok. split; [lia|]. split; [done|]. unfold is_dec. split; [|lia].
    apply Z.div_pos; [|lia]. apply Z.mul_nonneg_nonneg; [apply Z.div_pos|]; nia.
Qed.

(** the counter collateral of a position, on every branch: collateral
    times gains in a collateral-is-quote market, where infinite gains are
    refused; the notional size for infinite gains on a notional short, refused
    on a notional long; otherwise collateral times gains over
    [1 - (gains + 1) / leverage], which is at least the epsilon of the
    too-large check, and the result is positive. *)
Theorem counter_collateral_spec (mg : MaxGainsInQuote) (mt : MarketType) (c : Collateral)
    (ns : Signed) (l : SignedLeverageToNotional) (cc : Collateral) :
  signed_ok l -> is_dec c ->
  (forall g, mg = MaxGainsFinite g -> is_dec g) ->
  calculate_counter_collateral mg mt c ns l = Ok cc ->
  match mt, mg with
  | CollateralIsQuote, MaxGainsFinite g => cc = c * g / DEC_ONE
  | CollateralIsQuote, MaxGainsPosInfinity => False
  | CollateralIsBase, MaxGainsPosInfinity => sval l < 0 /\ cc = value ns /\ cc <> 0
  | CollateralIsBase, MaxGainsFinite g =>
      let m := DEC_ONE - Z.quot ((g + DEC_ONE) * DEC_ONE) (sval l) in
      sval l <> 0 /\ 100000000000 <= m /\
      cc = Z.quot (c * g / DEC_ONE * DEC_ONE) m /\ 0 < cc
  end.
Proof.
  intros Hl Hc Hg H. destruct mt, mg as [g|].
  - simpl in H. unfold checked_mul_non_zero, checked_mul_dec in H. by lib_inv.
  - done.
  - eapply counter_collateral_base_finite; eauto.
  - simpl in H. rewrite leverage_direction_sval in H by done.
    destruct (Z.ltb_spec (sval l) 0); lib_inv. apply nonzero_new_Some in H as [-> ?]. done.
Qed.
End Properties.

(** * Witnesses *)

Lemma direction_leverage_roundtrip_witness :
  exists n, leverage_into_notional (CW:=cosmwasm_ref) (new_negative (5 * DEC_ONE)) CollateralIsBase
    = Ok n /\ sval n = 6 * DEC_ONE.
Proof.
  assert (signed_ok (new_negative (5 * DEC_ONE))) as Hl
    by (apply new_negative_ok; vm_compute; split; congruence).
  destruct (direction_leverage_roundtrip (CW:=cosmwasm_ref) (CWS:=cosmwasm_ref_spec)
    CollateralIsBase LongToBase _ Hl) as (_ & n & Hn & _ & Hv).
  { vm_compute. congruence. }
  exists n. split; [exact Hn|]. rewrite Hv. vm_compute. reflexivity.
Defined.

Definition sample_price_point : PricePoint :=
  mkPricePoint (3 * DEC_ONE) DEC_ONE (3 * DEC_ONE) 0 false CollateralIsQuote None None.

Lemma price_conversion_roundtrip_witness :
  exists c', notional_to_collateral (CW:=cosmwasm_ref) sample_price_point (DEC_ONE / 3) = Ok c' /\
    c' <= DEC_ONE.
Proof.
  assert (is_dec DEC_ONE) as Hd by apply is_dec_one.
  destruct (price_conversion_roundtrip (CW:=cosmwasm_ref) (CWS:=cosmwasm_ref_spec)
    sample_price_point DEC_ONE DEC_ONE eq_refl Hd Hd) as [H _].
  destruct (H (DEC_ONE / 3)) as (c' & Hc & Hle & _); [vm_compute; reflexivity|].
  exists c'. split; [exact Hc|exact Hle].
Defined.

Lemma counter_collateral_spec_witness :
  0 < 1499999999999999999.
Proof.
  assert (signed_ok (new_positive (6 * DEC_ONE))) as Hl
    by (apply new_positive_ok; vm_compute; split; congruence).
  destruct (counter_collateral_spec (CW:=cosmwasm_ref) (CWS:=cosmwasm_ref_spec)
    (MaxGainsFinite DEC_ONE) CollateralIsBase DEC_ONE (new_positive DEC_ONE)
    (new_positive (6 * DEC_ONE)) 1499999999999999999 Hl is_dec_one) as (_ & _ & _ & H).
  - intros g [= <-]. apply is_dec_one.
  - vm_compute. reflexivity.
  - exact H.
Defined.
