(* ===== verification/Token.v ===== *)
(** * The collateral token and outgoing transfers

    [packages/perpswap/src/token.rs] (amount conversions, precision check,
    transfer messages), [contracts/market/src/state/token.rs] (accumulating
    the transfers of one message) and [StateContext::into_response] of
    [contracts/market/src/state.rs] (turning them into chain messages). *)

From stdpp Require Import base option gmap strings list.
From Stdlib Require Import ZArith Lia.
From S2P Require Import Prelude Cosmwasm Types Number.
Local Open Scope Z_scope.

(** [enum Token]; the decimal places are a [u8]. *)
Inductive Token :=
| TokenCw20 (addr : RawAddr) (decimal_places : Z)
| TokenNative (denom : string) (decimal_places : Z).

(** [enum TokenInit]: the decimals of a cw20 are asked from its contract. *)
Inductive TokenInit :=
| InitCw20 (addr : RawAddr)
| InitNative (denom : string) (decimal_places : Z).

(** The chain messages a transfer becomes: [BankMsg::Send], or a
    [WasmMsg::Execute] of [Cw20ExecuteMsg::Transfer] on the token contract. *)
Inductive CosmosMsg :=
| BankSend (to_address : Addr) (denom : string) (amount : Z)
| Cw20Transfer (contract_addr : string) (recipient : Addr) (amount : Z).

(** A [WasmMsg::Execute] of a contract's message: directly with native funds, or
    inside a [Cw20ExecuteMsg::Send] on the token contract. *)
Inductive WasmExecute (A : Type) :=
| ExecDirect (contract_addr : Addr) (msg : A) (funds : list (string * Z))
| ExecCw20Send (token_addr : string) (contract_addr : Addr) (amount : Z) (msg : A).
Arguments ExecDirect {A} _ _ _.
Arguments ExecCw20Send {A} _ _ _ _.

Definition perp_wallet (id : ErrorId) : error := PerpError id DomWallet None.

Section Definitions.
Context {CW : CosmwasmStd}.

Definition decimal_places (self : Token) : Z :=
  match self with TokenCw20 _ d | TokenNative _ d => d end.

Definition token_from_u128 (self : Token) (amount : Z) : res Decimal256 :=
  std (dec_from_atomics amount (decimal_places self)).

Definition token_into_u128 (self : Token) (amount : Decimal256) : res (option Z) :=
  o <- to_u128_with_precision (new_positive amount) (decimal_places self);
  value <- of_option (perp_wallet Conversion) o;
  Ok (if 0 <? value then Some value else None).

Definition round_down_to_precision (self : Token) (amount : Collateral) : res Collateral :=
  o <- token_into_u128 self amount; token_from_u128 self (default 0 o).

Definition validate_collateral (self : Token) (value : Collateral) : res Collateral :=
  o <- token_into_u128 self value;
  ok <- match o with
        | Some value_128 =>
            value_truncated <- token_from_u128 self value_128;
            Ok (value_truncated =? value)
        | None => Ok false
        end;
  if (ok : bool) then Ok value else Err (perp_wallet Conversion).

(** [into_native_coin]: the denom and amount of the coin. *)
Definition into_native_coin (self : Token) (amount : Decimal256) : res (option (string * Z)) :=
  match self with
  | TokenNative denom _ => o <- token_into_u128 self amount; Ok (pair denom <$> o)
  | TokenCw20 _ _ => Err (perp_wallet NativeFunds)
  end.

(** [into_cw20_execute_transfer_msg]: the recipient and amount. *)
Definition into_cw20_execute_transfer_msg (self : Token) (recipient : Addr)
    (amount : Collateral) : res (option (Addr * Z)) :=
  match self with
  | TokenNative _ _ => Err (perp_wallet Cw20Funds)
  | TokenCw20 _ _ => o <- token_into_u128 self amount; Ok (pair recipient <$> o)
  end.

Definition into_transfer_msg (self : Token) (recipient : Addr) (amount : Collateral) :
    res (option CosmosMsg) :=
  match self with
  | TokenNative _ _ =>
      coin <- into_native_coin self amount;
      Ok ((fun '(denom, a) => BankSend recipient denom a) <$> coin)
  | TokenCw20 addr _ =>
      msg <- into_cw20_execute_transfer_msg self recipient amount;
      Ok ((fun '(r, a) => Cw20Transfer addr r a) <$> msg)
  end.

(** [query_balance]: from what the bank and the token contract report. *)
Definition query_balance (self : Token) (bank : string -> res Z) (cw20 : string -> res Z) :
    res Collateral :=
  amount <- match self with TokenCw20 addr _ => cw20 addr | TokenNative denom _ => bank denom end;
  token_from_u128 self amount.

(** [into_cw20_execute_send_msg]: the amount of the send. *)
Definition into_cw20_execute_send_msg (self : Token) (amount : Collateral) : res (option Z) :=
  match self with
  | TokenNative _ _ => Err (perp_wallet Cw20Funds)
  | TokenCw20 _ _ => token_into_u128 self amount
  end.

(** [into_execute_msg]: the coin of a native amount is [unwrap]ped. *)
Definition into_execute_msg {A} (self : Token) (contract_addr : Addr) (amount : Collateral)
    (execute_msg : A) : res (WasmExecute A) :=
  match self with
  | TokenCw20 addr _ =>
      match into_cw20_execute_send_msg self amount with
      | Ok (Some a) => Ok (ExecCw20Send addr contract_addr a execute_msg)
      | Ok None => Ok (ExecDirect contract_addr execute_msg [])
      | Err (Panic msg) => Err (Panic msg)
      | Err _ => Err (perp_wallet Conversion)
      end
  | TokenNative _ _ =>
      if amount =? 0 then Ok (ExecDirect contract_addr execute_msg [])
      else
        match into_native_coin self amount with
        | Ok (Some coin) => Ok (ExecDirect contract_addr execute_msg [coin])
        | Ok None => Err (Panic "called `Option::unwrap()` on a `None` value")
        | Err (Panic msg) => Err (Panic msg)
        | Err _ => Err (perp_wallet Conversion)
        end
  end.

(** [token_init]: [query_decimals] is the answer of the cw20 contract. *)
Definition token_init (query_decimals : string -> res Z) (init : TokenInit) : res Token :=
  match init with
  | InitCw20 addr => d <- query_decimals addr; Ok (TokenCw20 addr d)
  | InitNative denom d => Ok (TokenNative denom d)
  end.

(** [add_token_transfer_msg] on the [fund_transfers] of the message (the
    balance check is compiled into debug builds only). *)
Definition fund_transfer (fund_transfers : gmap Addr Collateral) (addr : Addr)
    (amount : Collateral) : res (gmap Addr Collateral) :=
  match fund_transfers !! addr with
  | Some old => new_value <- nonzero_checked_add old amount;
                Ok (<[addr := new_value]> fund_transfers)
  | None => Ok (<[addr := amount]> fund_transfers)
  end.

(** [StateContext::into_response]: one message per recipient with a whole unit
    to receive, in the order the map yields them. *)
Fixpoint transfer_messages (token : Token) (transfers : list (Addr * Collateral)) :
    res (list CosmosMsg) :=
  match transfers with
  | [] => Ok []
  | (addr, amount) :: rest =>
      o <- into_transfer_msg token addr amount;
      msgs <- transfer_messages token rest;
      Ok (match o with Some m => m :: msgs | None => msgs end)
  end.

Definition into_response (token : Token) (fund_transfers : gmap Addr Collateral) :
    res (list CosmosMsg) := transfer_messages token (map_to_list fund_transfers).

(** A run of transfers within one message. *)
Fixpoint fund_transfer_all (fund_transfers : gmap Addr Collateral)
    (l : list (Addr * Collateral)) : res (gmap Addr Collateral) :=
  match l with
  | [] => Ok fund_transfers
  | (addr, amount) :: rest =>
      m <- fund_transfer fund_transfers addr amount; fund_transfer_all m rest
  end.

End Definitions.

(** * Theory *)

(** The size of one whole unit of the token, in atomics of a decimal. *)
Definition token_unit (t : Token) : Z := 10 ^ (18 - decimal_places t).
Definition token_ok (t : Token) : Prop := 0 <= decimal_places t <= 18.

Definition msg_recipient (m : CosmosMsg) : Addr :=
  match m with BankSend r _ _ | Cw20Transfer _ r _ => r end.
Definition msg_amount (m : CosmosMsg) : Z :=
  match m with BankSend _ _ a | Cw20Transfer _ _ a => a end.
(** What [addr] receives from the messages, and is owed by the calls. *)
Definition received (addr : Addr) (ms : list CosmosMsg) : Z :=
  foldr (fun m acc => (if decide (msg_recipient m = addr) then msg_amount m else 0) + acc) 0 ms.
Definition owed (addr : Addr) (l : list (Addr * Collateral)) : Z :=
  foldr (fun p acc => (if decide (p.1 = addr) then p.2 else 0) + acc) 0 l.

Section Theory.
Context {CW : CosmwasmStd} {CWS : CosmwasmStdSpec CW}.

Lemma token_unit_pos t : token_ok t -> 0 < token_unit t.
Proof. intros [? ?]. apply Z.pow_pos_nonneg; lia. Qed.

Lemma token_into_u128_ok t x o :
  token_ok t -> 0 <= x ->
  (token_into_u128 t x = Ok o <->
   x / token_unit t <= U128_MAX /\
   o = if 0 <? x / token_unit t then Some (x / token_unit t) else None).
Proof.
  intros Ht Hx. unfold token_into_u128. rewrite to_u128_with_precision_total by done. simpl.
  fold (token_unit t). pose proof (token_unit_pos t Ht).
  assert (0 <= x / token_unit t) by (apply Z.div_pos; lia).
  rewrite rbind_ok. setoid_rewrite of_option_ok. setoid_rewrite fits_Some. split.
  - intros (v & [-> Hv] & [= <-]). apply u128_ok_true in Hv. split; [lia|done].
  - intros [Hv ->]. exists (x / token_unit t). rewrite u128_ok_true. split; [|done]. split; [done|lia].
Qed.

Lemma exact_div_pos x u : 0 < x -> 0 < u -> x mod u = 0 -> 0 < x / u.
Proof.
  intros Hx Hu Hm. pose proof (Z.div_mod x u). pose proof (Z.div_pos x u).
  destruct (Z.eq_dec (x / u) 0) as [Hz|]; [|lia]. rewrite Hz in *. lia.
Qed.

Lemma token_into_u128_whole t x :
  token_ok t -> 0 < x -> 0 < x / token_unit t -> x / token_unit t <= U128_MAX ->
  token_into_u128 t x = Ok (Some (x / token_unit t)).
Proof.
  intros Ht Hx Hpos Hm. apply token_into_u128_ok; [done|lia|]. split; [done|].
  by rewrite (proj2 (Z.ltb_lt _ _) Hpos).
Qed.

Lemma token_from_u128_ok t n x :
  token_ok t -> (token_from_u128 t n = Ok x <-> x = n * token_unit t /\ is_dec x).
Proof.
  intros Ht. unfold token_from_u128. rewrite std_ok.
  rewrite dec_from_atomics_spec by (unfold DECIMAL_PLACES; exact Ht).
  rewrite fits_Some, is_dec_ok. unfold token_unit, DECIMAL_PLACES.
  split; intros [-> ?]; done.
Qed.

Lemma into_transfer_msg_ok t a x o :
  token_ok t -> 0 <= x -> into_transfer_msg t a x = Ok o ->
  x / token_unit t <= U128_MAX /\
  match o with
  | Some m => msg_recipient m = a /\ msg_amount m = x / token_unit t /\ 0 < x / token_unit t
  | None => x / token_unit t = 0
  end.
Proof.
  intros Ht Hx H.
  assert (forall w, token_into_u128 t x = Ok w ->
    x / token_unit t <= U128_MAX /\
    match w with Some v => v = x / token_unit t /\ 0 < v | None => x / token_unit t = 0 end) as Hw.
  { intros w Hw. apply token_into_u128_ok in Hw as [Hm ->]; [|assumption..]. split; [done|].
    pose proof (token_unit_pos t Ht).
    assert (0 <= x / token_unit t) by (apply Z.div_pos; lia).
    destruct (Z.ltb_spec 0 (x / token_unit t)); [done|lia]. }
  unfold into_transfer_msg, into_native_coin, into_cw20_execute_transfer_msg in H.
  destruct t; apply rbind_ok in H as (r & H & [= <-]);
    apply rbind_ok in H as (w & [? Hv]%Hw & [= <-]); (split; [done|]);
    destruct w as [v|]; simpl in *; try done; by destruct Hv as [-> ?].
Qed.

Lemma transfer_messages_received t l ms :
  token_ok t -> NoDup l.*1 -> Forall (fun p => 0 <= p.2) l ->
  transfer_messages t l = Ok ms ->
  forall a, received a ms = foldr (fun p acc =>
    (if decide (p.1 = a) then p.2 / token_unit t else 0) + acc) 0 l.
Proof.
  intros Ht. revert ms. induction l as [|[a x] l IH]; intros ms Hnd Hpos H b; simpl in *.
  { by injection H as <-. }
  apply NoDup_cons in Hnd as [_ Hnd]. apply Forall_cons in Hpos as [Hx Hpos]. simpl in Hx.
  apply rbind_ok in H as (o & Ho & H). apply rbind_ok in H as (ms' & Hms & [= <-]).
  apply into_transfer_msg_ok in Ho as [_ Ho]; [|done..].
  rewrite <- (IH ms' Hnd Hpos Hms b). destruct o as [m|]; simpl.
  - destruct Ho as (-> & -> & _). done.
  - rewrite Ho. by destruct (decide (a = b)).
Qed.

Lemma foldr_lookup_NoDup {A} (f : A -> Z) (l : list (Addr * A)) a x :
  NoDup l.*1 -> (a, x) ∈ l ->
  foldr (fun p acc => (if decide (p.1 = a) then f p.2 else 0) + acc) 0 l = f x.
Proof.
  assert (forall k, a ∉ k.*1 ->
    foldr (fun (p : Addr * A) acc => (if decide (p.1 = a) then f p.2 else 0) + acc) 0 k = 0) as H0.
  { induction k as [|[b y] k IHk]; simpl; [done|]. intros [Hn Hk]%not_elem_of_cons.
    rewrite IHk by done. rewrite decide_False by (intros ->; done). done. }
  induction l as [|[b y] l IH]; simpl; [by intros _ ?%elem_of_nil|].
  intros [Hb Hnd]%NoDup_cons [[= <- <-]|Hin]%elem_of_cons.
  - rewrite decide_True, H0 by done. lia.
  - rewrite decide_False, IH by (try done; intros ->; apply Hb, (list_elem_of_fmap_2 fst _ _ Hin)).
    done.
Qed.

Lemma foldr_lookup_absent {A} (f : A -> Z) (l : list (Addr * A)) a :
  a ∉ l.*1 ->
  foldr (fun p acc => (if decide (p.1 = a) then f p.2 else 0) + acc) 0 l = 0.
Proof.
  induction l as [|[b y] l IH]; simpl; [done|]. intros [Hn Hl]%not_elem_of_cons.
  rewrite IH by done. rewrite decide_False by (intros ->; done). done.
Qed.

Definition transfers_ok (m : gmap Addr Collateral) : Prop := map_Forall (fun _ x => 0 < x) m.

Lemma fund_transfer_ok m a x m' :
  transfers_ok m -> 0 < x -> fund_transfer m a x = Ok m' ->
  transfers_ok m' /\ forall b, default 0 (m' !! b) = default 0 (m !! b) + if decide (a = b) then x else 0.
Proof.
  intros Hm Hx H. unfold fund_transfer in H.
  assert (exists y, m' = <[a := y]> m /\ y = default 0 (m !! a) + x /\ 0 < y) as (y & -> & Hy & Hpos).
  { destruct (m !! a) as [old|] eqn:E.
    - apply rbind_ok in H as (y & Hy & [= <-]). pose proof (Hm a old E) as Hold; simpl in Hold.
      rewrite nonzero_checked_add_total in Hy by done.
      destruct (_ <=? _); [|done]. injection Hy as <-. exists (old + x). simpl. split; [done|lia].
    - injection H as <-. exists x. simpl. split; [done|lia]. }
  split.
  - by apply map_Forall_insert_2.
  - intros b. destruct (decide (a = b)) as [->|Hab].
    + rewrite lookup_insert_eq. simpl. done.
    + rewrite lookup_insert_ne by done. lia.
Qed.

Lemma fund_transfer_all_ok l m m' :
  transfers_ok m -> Forall (fun p => 0 < p.2) l -> fund_transfer_all m l = Ok m' ->
  transfers_ok m' /\ forall b, default 0 (m' !! b) = default 0 (m !! b) + owed b l.
Proof.
  revert m. induction l as [|[a x] l IH]; intros m Hm Hl H; simpl in *.
  { injection H as <-. split; [done|]. intros b. lia. }
  apply Forall_cons in Hl as [Hx Hl]. simpl in Hx.
  apply rbind_ok in H as (m1 & H1 & H).
  apply fund_transfer_ok in H1 as [Hm1 Hv]; [|done..].
  destruct (IH m1 Hm1 Hl H) as [Hok Hb]. split; [done|]. intros b.
  rewrite Hb, Hv. simpl. lia.
Qed.
End Theory.

(** * Properties *)

Section Properties.
Context {CW : CosmwasmStd} {CWS : CosmwasmStdSpec CW}.

(** the transfers requested while one message is processed are settled
    together: every address receives the sum of what it was owed, rounded down
    to the token's precision once, in at most one chain message. *)
Theorem transfers_settled (t : Token) (l : list (Addr * Collateral))
    (m : gmap Addr Collateral) (ms : list CosmosMsg) :
  token_ok t -> Forall (fun p => 0 < p.2) l ->
  fund_transfer_all ∅ l = Ok m -> into_response t m = Ok ms ->
  forall a, received a ms = owed a l / token_unit t.
Proof.
  intros Ht Hl Hm Hms a.
  destruct (fund_transfer_all_ok l ∅ m (map_Forall_empty _) Hl Hm) as [Hok Hv].
  rewrite (transfer_messages_received t (map_to_list m) ms Ht) with (a := a).
  - assert (owed a l = default 0 (m !! a)) as -> by (rewrite Hv, lookup_empty; done).
    destruct (m !! a) as [x|] eqn:E; simpl.
    + apply (foldr_lookup_NoDup (fun x => x / token_unit t)); [apply NoDup_fst_map_to_list|].
      by apply elem_of_map_to_list.
    + rewrite Z.div_0_l by (pose proof (token_unit_pos t Ht); lia).
      apply (foldr_lookup_absent (fun x => x / token_unit t)).
      intros ([b y] & -> & Hin)%list_elem_of_fmap. apply elem_of_map_to_list in Hin.
      simpl in E. congruence.
  - apply NoDup_fst_map_to_list.
  - apply Forall_forall. intros [b y] Hin%elem_of_map_to_list. simpl.
    specialize (Hok b y Hin). simpl in Hok. lia.
  - done.
Qed.

(** collateral is accepted for a token exactly when it is a positive whole
    number of token units that fits 128 bits, and rounding down gives the
    largest such amount below; an accepted amount is converted to tokens and
    back without loss. *)
Theorem token_precision (t : Token) (x : Collateral) :
  token_ok t -> 0 < x <= U256_MAX ->
  (validate_collateral t x = Ok x <->
   x mod token_unit t = 0 /\ x / token_unit t <= U128_MAX) /\
  (forall y, round_down_to_precision t x = Ok y ->
     y = x / token_unit t * token_unit t /\ x - token_unit t < y <= x) /\
  (validate_collateral t x = Ok x -> round_down_to_precision t x = Ok x).
Proof.
  intros Ht [Hx0 Hx]. pose proof (token_unit_pos t Ht) as Hu.
  assert (0 <= x / token_unit t) as Hq by (apply Z.div_pos; lia).
  pose proof (Z.div_mod x (token_unit t)) as Hdm. pose proof (Z.mod_pos_bound x (token_unit t) Hu).
  assert (forall o, token_into_u128 t x = Ok o -> default 0 o = x / token_unit t) as Hdef.
  { intros o Ho. apply token_into_u128_ok in Ho as [_ ->]; [|done|lia].
    destruct (Z.ltb_spec 0 (x / token_unit t)); simpl; lia. }
  assert (validate_collateral t x = Ok x <->
    x mod token_unit t = 0 /\ x / token_unit t <= U128_MAX) as Hval.
  { unfold validate_collateral. split.
    - intros (o & Ho & (b & Hb & H1)%rbind_ok)%rbind_ok. destruct b; [|done].
      specialize (Hdef o Ho). apply token_into_u128_ok in Ho as [Hm _]; [|done|lia].
      destruct o as [v|]; [|done]. simpl in Hdef. subst v.
      apply rbind_ok in Hb as (w & [-> _]%token_from_u128_ok & [= Hb]); [|done].
      apply Z.eqb_eq in Hb. lia.
    - intros [Hmod Hm].
      assert (0 < x / token_unit t) as Hpos by (by apply exact_div_pos).
      rewrite token_into_u128_whole by done.
      simpl. assert (x / token_unit t * token_unit t = x) as He by lia.
      assert (token_from_u128 t (x / token_unit t) = Ok x) as ->.
      { apply token_from_u128_ok; [done|]. rewrite He. unfold is_dec. split; [done|lia]. }
      simpl. by rewrite Z.eqb_refl. }
  split; [done|]. split.
  - intros y (o & Ho & H1)%rbind_ok. rewrite (Hdef o Ho) in H1.
    apply token_from_u128_ok in H1 as [-> _]; [|done]. split; [done|]. lia.
  - intros [Hmod Hm]%Hval. unfold round_down_to_precision.
    assert (0 < x / token_unit t) as Hpos by (by apply exact_div_pos).
    rewrite token_into_u128_whole by done.
    simpl. apply token_from_u128_ok; [done|].
    assert (x / token_unit t * token_unit t = x) as He by lia. rewrite He.
    unfold is_dec. split; [done|lia].
Qed.
End Properties.

(** * Witnesses *)

Lemma transfers_settled_witness :
  received "trader" [Cw20Transfer "token" "trader" 3] = 3.
Proof.
  assert (token_ok (TokenCw20 "token" 6)) as Ht by (split; vm_compute; congruence).
  rewrite (transfers_settled (CW:=cosmwasm_ref) (CWS:=cosmwasm_ref_spec) (TokenCw20 "token" 6)
    [("trader", 1500000000000); ("trader", 1500000000000)]
    (<["trader" := 3000000000000]> ∅) [Cw20Transfer "token" "trader" 3] Ht);
    vm_compute; try reflexivity.
  repeat constructor.
Defined.

Lemma token_precision_witness :
  validate_collateral (CW:=cosmwasm_ref) (TokenNative "uusd" 6) 1500000000000
  <> Ok 1500000000000.
Proof.
  assert (token_ok (TokenNative "uusd" 6)) as Ht by (split; vm_compute; congruence).
  destruct (token_precision (CW:=cosmwasm_ref) (CWS:=cosmwasm_ref_spec) (TokenNative "uusd" 6)
    1500000000000 Ht) as [H _]; [vm_compute; split; congruence|].
  rewrite H. vm_compute. intros [? _]. discriminate.
Defined.
