(* ===== verification/Cw20.v ===== *)
(** * The CW20 token contract

    [contracts/cw20/src/{contract,state/cw20,state/trading_competition}.rs]
    and the messages of [packages/perpswap/src/contracts/cw20/entry.rs]: the
    storage items as a record, every entry point as a handler over the storage
    and the response being built, and [execute]/[instantiate] as the contract
    dispatches them.  [ALLOWANCES] is keyed by owner and spender,
    [ALLOWANCES_SPENDER] is its index in the other order.  The serialisation
    of the submessage sent to a receiving contract cannot fail and is not
    modelled further; the event texts are the fields of their structs. *)

From stdpp Require Import base option gmap strings list sorting.
From Stdlib Require Import ZArith Lia Ascii.
From S2P Require Import Prelude Storage Cosmwasm Types.
Local Open Scope Z_scope.

Abbreviation Uint128 := Z (only parsing).
Abbreviation Binary := string (only parsing).

(** ** Data *)

Inductive EmbeddedLogo := LogoSvg (data : Binary) | LogoPng (data : Binary).
Inductive Logo := LogoUrl (url : string) | LogoEmbedded (l : EmbeddedLogo).
Inductive LogoInfo := InfoUrl (url : string) | InfoEmbedded.

Definition logo_info (logo : Logo) : LogoInfo :=
  match logo with LogoUrl url => InfoUrl url | LogoEmbedded _ => InfoEmbedded end.

Record TokenInfo := mkTokenInfo {
  ti_name : string;
  ti_symbol : string;
  ti_decimals : Z;
  total_supply : Uint128;
}.

Record MarketingInfo := mkMarketingInfo {
  mi_project : option string;
  mi_description : option string;
  mi_logo : option LogoInfo;
  mi_marketing : option Addr;
}.
Definition marketing_default : MarketingInfo := mkMarketingInfo None None None None.

Record InstantiateMarketingInfo := mkInstantiateMarketing {
  im_project : option string;
  im_description : option string;
  im_marketing : option Addr;
  im_logo : option Logo;
}.

Record Cw20Instantiate := mkCw20Instantiate {
  ci_name : string;
  ci_symbol : string;
  ci_decimals : Z;
  ci_initial_balances : list (string * Uint128);
  ci_minter : RawAddr;
  ci_cap : option Uint128;
  ci_marketing : option InstantiateMarketingInfo;
}.

Inductive AllowanceChangeKind := Increase | Decrease.

Section Definitions.
Context {CW : CosmwasmStd}.

Record AllowanceResponse := mkAllowance { allowance : Uint128; expires : Expiration }.
Definition allowance_default : AllowanceResponse := mkAllowance 0 expiration_default.

Inductive Cw20ExecuteMsg :=
| ExecTransfer (recipient : RawAddr) (amount : Uint128)
| ExecBurn (amount : Uint128)
| ExecSend (contract : RawAddr) (amount : Uint128) (msg : Binary)
| ExecIncreaseAllowance (spender : RawAddr) (amount : Uint128) (expires : option Expiration)
| ExecDecreaseAllowance (spender : RawAddr) (amount : Uint128) (expires : option Expiration)
| ExecTransferFrom (owner recipient : RawAddr) (amount : Uint128)
| ExecSendFrom (owner contract : RawAddr) (amount : Uint128) (msg : Binary)
| ExecBurnFrom (owner : RawAddr) (amount : Uint128)
| ExecMint (recipient : RawAddr) (amount : Uint128)
| ExecUpdateMinter (new_minter : RawAddr)
| ExecUpdateMarketing (project description marketing : option string)
| ExecUploadLogo (logo : Logo)
| ExecSetMarket (addr : RawAddr).

Inductive Cw20Event :=
| TransferEvent (owner recipient : Addr) (amount : Uint128) (by_ : option Addr)
| BurnEvent (owner : Addr) (amount : Uint128) (by_ : option Addr)
| SendEvent (owner contract : Addr) (amount : Uint128) (by_ : option Addr)
| MintEvent (owner recipient : Addr) (amount : Uint128)
| AllowanceChangeEvent (kind : AllowanceChangeKind) (owner spender : Addr)
    (amount : Uint128) (expires : option Expiration)
| MarketingChangeEvent (project description marketing : option string)
| LogoChangeEvent (logo : Logo)
| MinterChangeEvent (minter : Addr).

(** The submessage [ReceiverExecuteMsg::Receive] sent to a contract. *)
Record ReceiveMsg := mkReceive {
  rm_contract : Addr; rm_sender : string; rm_amount : Uint128; rm_msg : Binary }.

(** The storage items of the contract. *)
Record Cw20Storage := mkCw20Storage {
  MINTER : option Addr;
  MINTER_CAP : option Uint128;
  TOKEN_INFO : option TokenInfo;
  MARKETING_INFO : option MarketingInfo;
  LOGO : option Logo;
  BALANCES : gmap Addr Uint128;
  ALLOWANCES : gmap (Addr * Addr) AllowanceResponse;
  ALLOWANCES_SPENDER : gmap (Addr * Addr) AllowanceResponse;
  MARKET_ADDRESS : option Addr;
}.

Definition cw20_empty : Cw20Storage :=
  mkCw20Storage None None None None None ∅ ∅ ∅ None.

(** [StateContext]: the storage and the response under construction. *)
Record Cw20Ctx := mkCw20Ctx {
  cstore : Cw20Storage;
  cevents : list Cw20Event;
  cmessages : list ReceiveMsg;
}.

Definition cw20_handler (A : Type) : Type := handler Cw20Ctx error A.

Definition on_store (f : Cw20Storage -> Cw20Storage) (c : Cw20Ctx) : Cw20Ctx :=
  mkCw20Ctx (f (cstore c)) (cevents c) (cmessages c).
Definition set_MINTER (v : option Addr) (s : Cw20Storage) : Cw20Storage :=
  mkCw20Storage v (MINTER_CAP s) (TOKEN_INFO s) (MARKETING_INFO s) (LOGO s) (BALANCES s)
    (ALLOWANCES s) (ALLOWANCES_SPENDER s) (MARKET_ADDRESS s).
Definition set_MINTER_CAP (v : option Uint128) (s : Cw20Storage) : Cw20Storage :=
  mkCw20Storage (MINTER s) v (TOKEN_INFO s) (MARKETING_INFO s) (LOGO s) (BALANCES s)
    (ALLOWANCES s) (ALLOWANCES_SPENDER s) (MARKET_ADDRESS s).
Definition set_TOKEN_INFO (v : option TokenInfo) (s : Cw20Storage) : Cw20Storage :=
  mkCw20Storage (MINTER s) (MINTER_CAP s) v (MARKETING_INFO s) (LOGO s) (BALANCES s)
    (ALLOWANCES s) (ALLOWANCES_SPENDER s) (MARKET_ADDRESS s).
Definition set_MARKETING_INFO (v : option MarketingInfo) (s : Cw20Storage) : Cw20Storage :=
  mkCw20Storage (MINTER s) (MINTER_CAP s) (TOKEN_INFO s) v (LOGO s) (BALANCES s)
    (ALLOWANCES s) (ALLOWANCES_SPENDER s) (MARKET_ADDRESS s).
Definition set_LOGO (v : option Logo) (s : Cw20Storage) : Cw20Storage :=
  mkCw20Storage (MINTER s) (MINTER_CAP s) (TOKEN_INFO s) (MARKETING_INFO s) v (BALANCES s)
    (ALLOWANCES s) (ALLOWANCES_SPENDER s) (MARKET_ADDRESS s).
Definition set_BALANCES (v : gmap Addr Uint128) (s : Cw20Storage) : Cw20Storage :=
  mkCw20Storage (MINTER s) (MINTER_CAP s) (TOKEN_INFO s) (MARKETING_INFO s) (LOGO s) v
    (ALLOWANCES s) (ALLOWANCES_SPENDER s) (MARKET_ADDRESS s).
Definition set_ALLOWANCES (v : gmap (Addr * Addr) AllowanceResponse) (s : Cw20Storage) :
    Cw20Storage :=
  mkCw20Storage (MINTER s) (MINTER_CAP s) (TOKEN_INFO s) (MARKETING_INFO s) (LOGO s)
    (BALANCES s) v (ALLOWANCES_SPENDER s) (MARKET_ADDRESS s).
Definition set_ALLOWANCES_SPENDER (v : gmap (Addr * Addr) AllowanceResponse) (s : Cw20Storage) :
    Cw20Storage :=
  mkCw20Storage (MINTER s) (MINTER_CAP s) (TOKEN_INFO s) (MARKETING_INFO s) (LOGO s)
    (BALANCES s) (ALLOWANCES s) v (MARKET_ADDRESS s).
Definition set_MARKET_ADDRESS (v : option Addr) (s : Cw20Storage) : Cw20Storage :=
  mkCw20Storage (MINTER s) (MINTER_CAP s) (TOKEN_INFO s) (MARKETING_INFO s) (LOGO s)
    (BALANCES s) (ALLOWANCES s) (ALLOWANCES_SPENDER s) v.

Definition add_event (e : Cw20Event) : cw20_handler unit :=
  hmod (fun c => mkCw20Ctx (cstore c) (cevents c ++ [e]) (cmessages c)).
Definition add_receive (m : ReceiveMsg) : cw20_handler unit :=
  hmod (fun c => mkCw20Ctx (cstore c) (cevents c) (cmessages c ++ [m])).
Definition load {A} (f : Cw20Storage -> A) : cw20_handler A := hget (fun c => f (cstore c)).
Definition save (f : Cw20Storage -> Cw20Storage) : cw20_handler unit := hmod (on_store f).

(** [RawAddr::validate]. *)
Definition validate (a : RawAddr) : res Addr := std (addr_validate a).

(** ** [cw_storage_plus::Map::update] on the three maps *)

Definition update_balance (a : Addr) (f : option Uint128 -> res Uint128) : cw20_handler unit :=
  old <~ load (fun s => BALANCES s !! a);
  new <~ hlift (f old);
  save (fun s => set_BALANCES (<[a := new]> (BALANCES s)) s).

Definition update_allowance (k : Addr * Addr)
    (f : option AllowanceResponse -> res AllowanceResponse) : cw20_handler AllowanceResponse :=
  old <~ load (fun s => ALLOWANCES s !! k);
  new <~ hlift (f old);
  save (fun s => set_ALLOWANCES (<[k := new]> (ALLOWANCES s)) s) ;;;
  hret new.

Definition update_allowance_spender (k : Addr * Addr)
    (f : option AllowanceResponse -> res AllowanceResponse) : cw20_handler AllowanceResponse :=
  old <~ load (fun s => ALLOWANCES_SPENDER s !! k);
  new <~ hlift (f old);
  save (fun s => set_ALLOWANCES_SPENDER (<[k := new]> (ALLOWANCES_SPENDER s)) s) ;;;
  hret new.

(** The closures of the balance updates: [checked_sub] with a context message
    or as a plain [?], and the trapping [+]. *)
Definition sub_context (amount : Uint128) (b : option Uint128) : res Uint128 :=
  of_option (AnyhowError "In CW20 contract, cannot transfer or send")
    (u128_sub (default 0 b) amount).
Definition sub_plain (amount : Uint128) (b : option Uint128) : res Uint128 :=
  std (u128_sub (default 0 b) amount).
Definition add_amount (amount : Uint128) (b : option Uint128) : res Uint128 :=
  panics "attempt to add with overflow" (u128_op_add (default 0 b) amount).

Definition zero_check (amount : Uint128) : cw20_handler unit :=
  if amount =? 0 then herr (perp_cw20 Cw20Funds) else hret tt.

(** ** Queries used by the handlers *)

Definition minter_addr : cw20_handler Addr :=
  o <~ load MINTER; hlift (of_option (AnyhowError "MINTER is not set") o).
Definition minter_cap : cw20_handler (option Uint128) := load MINTER_CAP.

(** ** The operations of [state/cw20.rs] *)

Definition cw20_transfer (owner recipient : Addr) (amount : Uint128) : cw20_handler unit :=
  add_event (TransferEvent owner recipient amount None) ;;;
  zero_check amount ;;;
  update_balance owner (sub_context amount) ;;;
  update_balance recipient (add_amount amount).

Definition deduct_allowance (block : BlockInfo) (owner spender : Addr) (amount : Uint128) :
    cw20_handler AllowanceResponse :=
  let update_fn current :=
    match current with
    | Some a =>
        if is_expired (expires a) block then Err (perp_cw20 Expired)
        else v <- std (u128_sub (allowance a) amount); Ok (mkAllowance v (expires a))
    | None => Err (perp_cw20 Auth)
    end in
  update_allowance (owner, spender) update_fn ;;;
  update_allowance_spender (spender, owner) update_fn.

Definition transfer_from (block : BlockInfo) (sender owner recipient : Addr) (amount : Uint128) :
    cw20_handler unit :=
  add_event (TransferEvent owner recipient amount (Some sender)) ;;;
  deduct_allowance block owner sender amount ;;;
  update_balance owner (sub_context amount) ;;;
  update_balance recipient (add_amount amount).

Definition reduce_supply (amount : Uint128) : cw20_handler unit :=
  o <~ load TOKEN_INFO;
  info <~ hlift (of_option StdError o);
  v <~ hlift (std (u128_sub (total_supply info) amount));
  save (set_TOKEN_INFO
    (Some (mkTokenInfo (ti_name info) (ti_symbol info) (ti_decimals info) v))).

Definition burn (owner : Addr) (amount : Uint128) : cw20_handler unit :=
  add_event (BurnEvent owner amount None) ;;;
  zero_check amount ;;;
  update_balance owner (sub_plain amount) ;;;
  reduce_supply amount.

Definition burn_from (block : BlockInfo) (sender owner : Addr) (amount : Uint128) :
    cw20_handler unit :=
  add_event (BurnEvent owner amount (Some sender)) ;;;
  deduct_allowance block owner sender amount ;;;
  update_balance owner (sub_plain amount) ;;;
  reduce_supply amount.

Definition send_with_msg (owner contract : Addr) (amount : Uint128) (msg : Binary) :
    cw20_handler unit :=
  add_event (SendEvent owner contract amount None) ;;;
  zero_check amount ;;;
  update_balance owner (sub_plain amount) ;;;
  update_balance contract (add_amount amount) ;;;
  add_receive (mkReceive contract owner amount msg).

Definition send_with_msg_from (block : BlockInfo) (sender owner contract : Addr)
    (amount : Uint128) (msg : Binary) : cw20_handler unit :=
  add_event (SendEvent owner contract amount (Some sender)) ;;;
  deduct_allowance block owner sender amount ;;;
  update_balance owner (sub_plain amount) ;;;
  update_balance contract (add_amount amount) ;;;
  add_receive (mkReceive contract sender amount msg).

Definition mint (sender recipient : Addr) (amount : Uint128) : cw20_handler unit :=
  add_event (MintEvent sender recipient amount) ;;;
  zero_check amount ;;;
  o <~ load TOKEN_INFO;
  config <~ hlift (of_option (perp_cw20 Auth) o);
  minter <~ minter_addr;
  (if String.eqb minter sender then hret tt else herr (perp_cw20 Auth)) ;;;
  supply <~ hlift (panics "attempt to add with overflow"
                     (u128_op_add (total_supply config) amount));
  cap <~ minter_cap;
  (match cap with
   | Some limit => if limit <? supply then herr (perp_cw20 Cw20Funds) else hret tt
   | None => hret tt
   end) ;;;
  save (set_TOKEN_INFO
    (Some (mkTokenInfo (ti_name config) (ti_symbol config) (ti_decimals config) supply))) ;;;
  update_balance recipient (add_amount amount).

Definition increase_allowance (owner spender : Addr) (amount : Uint128)
    (exp : option Expiration) : cw20_handler unit :=
  add_event (AllowanceChangeEvent Increase owner spender amount exp) ;;;
  (if String.eqb spender owner then herr (perp_cw20 Auth) else hret tt) ;;;
  let update_fn allow :=
    let val := default allowance_default allow in
    v <- panics "attempt to add with overflow" (u128_op_add (allowance val) amount);
    Ok (mkAllowance v (default (expires val) exp)) in
  update_allowance (owner, spender) update_fn ;;;
  update_allowance_spender (spender, owner) update_fn ;;;
  hret tt.

Definition decrease_allowance (owner spender : Addr) (amount : Uint128)
    (exp : option Expiration) : cw20_handler unit :=
  add_event (AllowanceChangeEvent Decrease owner spender amount exp) ;;;
  (if String.eqb spender owner then herr (perp_cw20 Auth) else hret tt) ;;;
  o <~ load (fun s => ALLOWANCES s !! (owner, spender));
  a <~ hlift (of_option StdError o);
  if amount <? allowance a then
    v <~ hlift (std (u128_sub (allowance a) amount));
    let a' := mkAllowance v (default (expires a) exp) in
    save (fun s => set_ALLOWANCES (<[(owner, spender) := a']> (ALLOWANCES s)) s) ;;;
    save (fun s => set_ALLOWANCES_SPENDER
                     (<[(spender, owner) := a']> (ALLOWANCES_SPENDER s)) s)
  else
    save (fun s => set_ALLOWANCES (delete (owner, spender) (ALLOWANCES s)) s) ;;;
    save (fun s => set_ALLOWANCES_SPENDER (delete (spender, owner) (ALLOWANCES_SPENDER s)) s).

(** [str::trim().is_empty()]: only Unicode white space, in UTF-8. *)
Fixpoint is_blank (s : string) : bool :=
  let ws1 a := let n := nat_of_ascii a in ((9 <=? n) && (n <=? 13) || (n =? 32))%nat in
  match s with
  | EmptyString => true
  | String a rest =>
      if ws1 a then is_blank rest
      else match rest with
           | EmptyString => false
           | String b rest2 =>
               let na := nat_of_ascii a in let nb := nat_of_ascii b in
               if ((na =? 194) && ((nb =? 133) || (nb =? 160)))%nat then is_blank rest2
               else match rest2 with
                    | EmptyString => false
                    | String c rest3 =>
                        let nc := nat_of_ascii c in
                        if ((na =? 225) && (nb =? 154) && (nc =? 128)
                            || (na =? 226) && (nb =? 128) &&
                               ((128 <=? nc) && (nc <=? 138) || (nc =? 168) || (nc =? 169)
                                || (nc =? 175))
                            || (na =? 226) && (nb =? 129) && (nc =? 159)
                            || (na =? 227) && (nb =? 128) && (nc =? 128))%nat
                        then is_blank rest3 else false
                    end
           end
  end.

(** The guard shared by [set_marketing] and [set_logo]: the stored marketing
    account must be the sender. *)
Definition marketing_auth (info : MarketingInfo) (sender : Addr) : res unit :=
  m <- of_option (perp_cw20 Auth) (mi_marketing info);
  if String.eqb m sender then Ok tt else Err (perp_cw20 Auth).

Definition update_text (old new : option string) : option string :=
  match new with
  | Some s => if is_blank s then None else Some s
  | None => old
  end.

Definition set_marketing (sender : Addr) (project description marketing : option string) :
    cw20_handler unit :=
  add_event (MarketingChangeEvent project description marketing) ;;;
  o <~ load MARKETING_INFO;
  info <~ hlift (of_option StdError o);
  hlift (marketing_auth info sender) ;;;
  let project' := update_text (mi_project info) project in
  let description' := update_text (mi_description info) description in
  marketing' <~ hlift (match marketing with
    | Some s => if is_blank s then Ok None else a <- std (addr_validate s); Ok (Some a)
    | None => Ok (mi_marketing info)
    end);
  match project', description', marketing', mi_logo info with
  | None, None, None, None => save (set_MARKETING_INFO None)
  | _, _, _, _ =>
      save (set_MARKETING_INFO
        (Some (mkMarketingInfo project' description' (mi_logo info) marketing')))
  end.

Definition set_logo (sender : Addr) (logo : Logo) : cw20_handler unit :=
  add_event (LogoChangeEvent logo) ;;;
  o <~ load MARKETING_INFO;
  info <~ hlift (of_option StdError o);
  hlift (marketing_auth info sender) ;;;
  save (set_LOGO (Some logo)) ;;;
  save (set_MARKETING_INFO
    (Some (mkMarketingInfo (mi_project info) (mi_description info) (Some (logo_info logo))
             (mi_marketing info)))).

Definition set_minter (sender : Addr) (new_minter : RawAddr) : cw20_handler unit :=
  old_minter_addr <~ minter_addr;
  (if String.eqb old_minter_addr sender then hret tt else herr (perp_cw20 Auth)) ;;;
  new_minter <~ hlift (validate new_minter);
  save (set_MINTER (Some new_minter)) ;;;
  add_event (MinterChangeEvent new_minter).

(** ** [state/trading_competition.rs] *)

Definition restricted_recipient (msg : Cw20ExecuteMsg) : option RawAddr :=
  match msg with
  | ExecTransfer recipient _ => Some recipient
  | ExecSend contract _ _ => Some contract
  | ExecIncreaseAllowance spender _ _ => Some spender
  | ExecDecreaseAllowance spender _ _ => Some spender
  | ExecTransferFrom _ recipient _ => Some recipient
  | ExecSendFrom _ contract _ _ => Some contract
  | _ => None
  end.

Definition assert_trading_competition (sender : Addr) (msg : Cw20ExecuteMsg) :
    cw20_handler unit :=
  o <~ load MARKET_ADDRESS;
  match o with
  | None => hret tt
  | Some market_address =>
      if String.eqb sender market_address then hret tt
      else match restricted_recipient msg with
           | None => hret tt
           | Some raw =>
               recipient <~ hlift (validate raw);
               if String.eqb market_address recipient then hret tt
               else herr (perp_cw20 Auth)
           end
  end.

Definition set_market_addr (market : Addr) : cw20_handler unit :=
  o <~ load MARKET_ADDRESS;
  match o with
  | Some _ => herr (AnyhowError "Condition failed")
  | None => save (set_MARKET_ADDRESS (Some market))
  end.

(** ** [contract.rs] *)

Definition cw20_dispatch (block : BlockInfo) (sender : Addr) (msg : Cw20ExecuteMsg) :
    cw20_handler unit :=
  match msg with
  | ExecSetMarket addr =>
      minter <~ minter_addr;
      (if String.eqb minter sender then hret tt else herr (perp_auth DomCw20)) ;;;
      a <~ hlift (validate addr);
      set_market_addr a
  | ExecTransfer recipient amount =>
      r <~ hlift (validate recipient); cw20_transfer sender r amount
  | ExecBurn amount => burn sender amount
  | ExecSend contract amount msg =>
      c <~ hlift (validate contract); send_with_msg sender c amount msg
  | ExecMint recipient amount =>
      r <~ hlift (validate recipient); mint sender r amount
  | ExecIncreaseAllowance spender amount exp =>
      s <~ hlift (validate spender); increase_allowance sender s amount exp
  | ExecDecreaseAllowance spender amount exp =>
      s <~ hlift (validate spender); decrease_allowance sender s amount exp
  | ExecTransferFrom owner recipient amount =>
      o <~ hlift (validate owner);
      r <~ hlift (validate recipient);
      transfer_from block sender o r amount
  | ExecBurnFrom owner amount =>
      o <~ hlift (validate owner); burn_from block sender o amount
  | ExecSendFrom owner contract amount msg =>
      o <~ hlift (validate owner);
      c <~ hlift (validate contract);
      send_with_msg_from block sender o c amount msg
  | ExecUpdateMarketing project description marketing =>
      set_marketing sender project description marketing
  | ExecUploadLogo logo => set_logo sender logo
  | ExecUpdateMinter new_minter => set_minter sender new_minter
  end.

Definition cw20_execute (block : BlockInfo) (sender : Addr) (msg : Cw20ExecuteMsg)
    (s : Cw20Storage) : res Cw20Ctx :=
  '(_, c) <- (assert_trading_competition sender msg ;;; cw20_dispatch block sender msg)
               (mkCw20Ctx s [] []);
  Ok c.

(** ** Instantiation *)

Definition has_valid_name (m : Cw20Instantiate) : bool :=
  let n := String.length (ci_name m) in negb ((n <? 3) || (50 <? n))%nat.

Fixpoint symbol_bytes_ok (s : string) : bool :=
  match s with
  | EmptyString => true
  | String a rest =>
      let b := nat_of_ascii a in
      if (negb (b =? 45) && ((b <? 65) || (90 <? b)) && ((b <? 97) || (122 <? b)))%nat
      then false else symbol_bytes_ok rest
  end.

Definition has_valid_symbol (m : Cw20Instantiate) : bool :=
  let n := String.length (ci_symbol m) in
  if ((n <? 3) || (12 <? n))%nat then false else symbol_bytes_ok (ci_symbol m).

(** [Vec::dedup]: drop consecutive repetitions. *)
Fixpoint dedup (l : list string) : list string :=
  match l with
  | a :: (b :: _) as rest => if String.eqb a b then dedup rest else a :: dedup rest
  | _ => l
  end.

Definition has_valid_balances (m : Cw20Instantiate) : bool :=
  let addresses := dedup (merge_sort str_le (map fst (ci_initial_balances m))) in
  (length addresses =? length (ci_initial_balances m))%nat.

Definition cw20_validate (m : Cw20Instantiate) : res unit :=
  _ <- ensure (has_valid_name m) (perp_cw20 MsgValidation);
  _ <- ensure (has_valid_symbol m) (perp_cw20 MsgValidation);
  _ <- ensure (negb (18 <? ci_decimals m)) (perp_cw20 MsgValidation);
  ensure (has_valid_balances m) (perp_cw20 MsgValidation).

Fixpoint init_balances (rows : list (string * Uint128)) (total : Uint128) :
    cw20_handler Uint128 :=
  match rows with
  | [] => hret total
  | (raw, amount) :: rest =>
      a <~ hlift (std (addr_validate raw));
      save (fun s => set_BALANCES (<[a := amount]> (BALANCES s)) s) ;;;
      total' <~ hlift (panics "attempt to add with overflow" (u128_op_add total amount));
      init_balances rest total'
  end.

Definition init_marketing (m : InstantiateMarketingInfo) : MarketingInfo :=
  mkMarketingInfo (im_project m) (im_description m) (logo_info <$> im_logo m) (im_marketing m).

Definition cw20_token_init (m : Cw20Instantiate) : cw20_handler unit :=
  hlift (cw20_validate m) ;;;
  total_supply <~ init_balances (ci_initial_balances m) 0;
  minter <~ hlift (validate (ci_minter m));
  save (set_MINTER (Some minter)) ;;;
  (match ci_cap m with
   | Some cap =>
       save (set_MINTER_CAP (Some cap)) ;;;
       if cap <? total_supply then herr (perp_cw20 MsgValidation) else hret tt
   | None => hret tt
   end) ;;;
  (match ci_marketing m with
   | Some i => match im_logo i with
               | Some l => save (set_LOGO (Some l))
               | None => hret tt
               end
   | None => hret tt
   end) ;;;
  save (set_MARKETING_INFO (Some (match ci_marketing m with
                                  | Some i => init_marketing i
                                  | None => marketing_default
                                  end))) ;;;
  save (set_TOKEN_INFO
    (Some (mkTokenInfo (ci_name m) (ci_symbol m) (ci_decimals m) total_supply))).

Definition cw20_instantiate (m : Cw20Instantiate) : res Cw20Ctx :=
  '(_, c) <- cw20_token_init m (mkCw20Ctx cw20_empty [] []);
  Ok c.

(** ** Queries *)

Definition query_balance (s : Cw20Storage) (a : Addr) : Uint128 := default 0 (BALANCES s !! a).
Definition query_token_info (s : Cw20Storage) : res TokenInfo := of_option StdError (TOKEN_INFO s).
Definition query_minter (s : Cw20Storage) : res (Addr * option Uint128) :=
  a <- of_option (AnyhowError "MINTER is not set") (MINTER s); Ok (a, MINTER_CAP s).
Definition query_allowance (s : Cw20Storage) (owner spender : Addr) : AllowanceResponse :=
  default allowance_default (ALLOWANCES s !! (owner, spender)).

Definition page_limit (limit : option Z) : nat := Z.to_nat (Z.min (default 10 limit) 30).

(** The entries of a map under the first component of its key. *)
Definition prefix {A} (p : Addr) (m : gmap (Addr * Addr) A) : gmap Addr A :=
  list_to_map (omap (fun '((k1, k2), v) => if String.eqb k1 p then Some (k2, v) else None)
                 (map_to_list m)).

Definition page_of {A} (m : gmap Addr A) (start_after : option Addr) (limit : option Z) :
    list (Addr * A) :=
  omap (fun k => pair k <$> m !! k) (take (page_limit limit) (keys_after start_after m)).

Definition all_accounts (s : Cw20Storage) (start_after : option Addr) (limit : option Z) :
    list Addr := take (page_limit limit) (keys_after start_after (BALANCES s)).

Definition owner_allowances (s : Cw20Storage) (owner : Addr) (start_after : option Addr)
    (limit : option Z) : list (Addr * AllowanceResponse) :=
  page_of (prefix owner (ALLOWANCES s)) start_after limit.
Definition spender_allowances (s : Cw20Storage) (spender : Addr) (start_after : option Addr)
    (limit : option Z) : list (Addr * AllowanceResponse) :=
  page_of (prefix spender (ALLOWANCES_SPENDER s)) start_after limit.

Definition query_marketing_info (s : Cw20Storage) : MarketingInfo :=
  default marketing_default (MARKETING_INFO s).

(** [logo]: the mime type and the data of an embedded logo. *)
Definition query_logo (s : Cw20Storage) : res (string * Binary) :=
  l <- of_option StdError (LOGO s);
  match l with
  | LogoEmbedded (LogoSvg d) => Ok ("image/svg+xml"%string, d)
  | LogoEmbedded (LogoPng d) => Ok ("image/png"%string, d)
  | LogoUrl _ => Err (perp_cw20 MsgValidation)
  end.

End Definitions.

(** * Theory *)

Lemma map_sum_id_insert (m : gmap Addr Z) a v :
  map_sum id (<[a := v]> m) = map_sum id m - default 0 (m !! a) + v.
Proof. rewrite map_sum_insert. unfold map_get. by destruct (m !! a). Qed.

Lemma default_insert (m : gmap Addr Z) a v b :
  default 0 (<[a := v]> m !! b) = if decide (b = a) then v else default 0 (m !! b).
Proof.
  destruct (decide (b = a)) as [->|Hb]; [by rewrite lookup_insert_eq|by rewrite lookup_insert_ne].
Qed.

Section Theory.
Context {CW : CosmwasmStd} {CWS : CosmwasmStdSpec CW}.
Implicit Types (c : Cw20Ctx) (s : Cw20Storage).

(** ** What each primitive handler did *)

Lemma update_balance_ok a f c u c' :
  update_balance a f c = Ok (u, c') <->
  exists v, f (BALANCES (cstore c) !! a) = Ok v /\
    c' = on_store (set_BALANCES (<[a := v]> (BALANCES (cstore c)))) c.
Proof.
  unfold update_balance, load, save. rewrite hbind_ok. setoid_rewrite hget_ok.
  setoid_rewrite hbind_ok. setoid_rewrite hlift_ok. setoid_rewrite hmod_ok. split.
  - intros (o & c1 & (-> & ->) & v & c2 & (Hv & ->) & ->). by exists v.
  - intros (v & Hv & ->). eauto 10.
Qed.

Lemma sub_plain_ok n b v :
  sub_plain n b = Ok v <-> v = default 0 b - n /\ 0 <= default 0 b - n <= U128_MAX.
Proof. unfold sub_plain. rewrite std_ok. apply u128_sub_Some. Qed.
Lemma sub_context_ok n b v :
  sub_context n b = Ok v <-> v = default 0 b - n /\ 0 <= default 0 b - n <= U128_MAX.
Proof. unfold sub_context. rewrite of_option_ok. apply u128_sub_Some. Qed.
Lemma add_amount_ok n b v :
  add_amount n b = Ok v <-> v = default 0 b + n /\ 0 <= default 0 b + n <= U128_MAX.
Proof. unfold add_amount. rewrite panics_ok. apply u128_op_add_Some. Qed.

Lemma zero_check_ok n c u c' : zero_check n c = Ok (u, c') <-> n <> 0 /\ c' = c.
Proof.
  unfold zero_check. destruct (Z.eqb_spec n 0); destruct u.
  - split; [intros H; inv_ok|by intros [? _]].
  - rewrite hret_ok. split; [by intros [_ ->]|by intros [_ ->]].
Qed.

Lemma guard_ok (b : bool) (e : error) c u c' :
  (if b then hret tt else herr e) c = Ok (u, c') <-> b = true /\ c' = c.
Proof.
  destruct b, u; [rewrite hret_ok|]; split; try by intros [? ->]; try (by intros [_ ->]).
  - intros H; inv_ok.
Qed.

Lemma guard_neg_ok (b : bool) (e : error) c u c' :
  (if b then herr e else hret tt) c = Ok (u, c') <-> b = false /\ c' = c.
Proof. rewrite <- negb_true_iff, <- (guard_ok (negb b) e c u c'). by destruct b. Qed.

Lemma minter_addr_ok c a c' : minter_addr c = Ok (a, c') <-> MINTER (cstore c) = Some a /\ c' = c.
Proof.
  unfold minter_addr, load. rewrite hbind_ok. setoid_rewrite hget_ok. setoid_rewrite hlift_ok.
  setoid_rewrite of_option_ok. split.
  - intros (o & c1 & (-> & ->) & H & ->). done.
  - intros [H ->]. eauto 6.
Qed.

Lemma validate_ok raw a : validate raw = Ok a -> a = raw.
Proof. unfold validate. intros H%std_ok. by apply addr_validate_spec in H. Qed.

Lemma update_allowance_ok k f c r c' :
  update_allowance k f c = Ok (r, c') <->
  f (ALLOWANCES (cstore c) !! k) = Ok r /\
  c' = on_store (set_ALLOWANCES (<[k := r]> (ALLOWANCES (cstore c)))) c.
Proof.
  unfold update_allowance, load, save. split.
  - intros H. inv_ok. split; done.
  - intros [H ->]. unfold hbind, hget, hlift, hmod, hret. by rewrite H.
Qed.

Lemma update_allowance_spender_ok k f c r c' :
  update_allowance_spender k f c = Ok (r, c') <->
  f (ALLOWANCES_SPENDER (cstore c) !! k) = Ok r /\
  c' = on_store (set_ALLOWANCES_SPENDER (<[k := r]> (ALLOWANCES_SPENDER (cstore c)))) c.
Proof.
  unfold update_allowance_spender, load, save. split.
  - intros H. inv_ok. split; done.
  - intros [H ->]. unfold hbind, hget, hlift, hmod, hret. by rewrite H.
Qed.

(** ** The ledger *)

Definition bal (s : Cw20Storage) (a : Addr) : Z := default 0 (BALANCES s !! a).
Definition supply (s : Cw20Storage) : Z := from_option total_supply 0 (TOKEN_INFO s).
Definition balances_sum (s : Cw20Storage) : Z := map_sum id (BALANCES s).
Definition at_addr (n : Z) (t a : Addr) : Z := if decide (a = t) then n else 0.

(** [s'] is [s] with [n] more tokens on [t] (fewer, when [n] is negative). *)
Definition credited (n : Z) (t : Addr) (s s' : Cw20Storage) : Prop :=
  exists B, s' = set_BALANCES B s /\
    (forall a, bal s' a = bal s a + at_addr n t a) /\
    balances_sum s' = balances_sum s + n /\
    (map_Forall (fun _ v => 0 <= v) (BALANCES s) -> map_Forall (fun _ v => 0 <= v) B).

Lemma credited_set n t s v :
  v = bal s t + n -> 0 <= v ->
  credited n t s (set_BALANCES (<[t := v]> (BALANCES s)) s).
Proof.
  intros -> Hpos. exists (<[t := bal s t + n]> (BALANCES s)). split; [done|]. split; [|split].
  - intros a. unfold bal, at_addr; simpl. rewrite default_insert.
    destruct (decide (a = t)) as [->|]; lia.
  - unfold balances_sum; simpl. rewrite map_sum_id_insert. fold (bal s t). lia.
  - intros H. by apply map_Forall_insert_2.
Qed.

Lemma update_balance_add n t c u c' :
  update_balance t (add_amount n) c = Ok (u, c') ->
  credited n t (cstore c) (cstore c') /\ cstore c' = cstore c' /\
  cevents c' = cevents c /\ cmessages c' = cmessages c.
Proof.
  intros (v & [-> ?]%add_amount_ok & ->)%update_balance_ok. split; [|done].
  apply credited_set; [done|lia].
Qed.

Lemma update_balance_sub f n t c u c' :
  (forall b v, f b = Ok v <-> v = default 0 b - n /\ 0 <= default 0 b - n <= U128_MAX) ->
  update_balance t f c = Ok (u, c') ->
  n <= bal (cstore c) t /\ credited (- n) t (cstore c) (cstore c').
Proof.
  intros Hf (v & [-> ?]%Hf & ->)%update_balance_ok. fold (bal (cstore c) t) in *.
  split; [lia|]. apply credited_set; lia.
Qed.

(** Everything outside the balances and the supply is untouched. *)
Definition same_rest (s s' : Cw20Storage) : Prop :=
  MINTER s' = MINTER s /\ MINTER_CAP s' = MINTER_CAP s /\ MARKETING_INFO s' = MARKETING_INFO s /\
  LOGO s' = LOGO s /\ MARKET_ADDRESS s' = MARKET_ADDRESS s.

(** The effect of a message on the ledger. *)
Inductive LedgerOp :=
| LMove (from to : Addr) (n : Z)
| LBurn (from : Addr) (n : Z)
| LMint (to : Addr) (n : Z)
| LKeep.

Definition ledger_op (sender : Addr) (msg : Cw20ExecuteMsg) : LedgerOp :=
  match msg with
  | ExecTransfer r n => LMove sender r n
  | ExecSend r n _ => LMove sender r n
  | ExecTransferFrom o r n => LMove o r n
  | ExecSendFrom o r n _ => LMove o r n
  | ExecBurn n => LBurn sender n
  | ExecBurnFrom o n => LBurn o n
  | ExecMint r n => LMint r n
  | _ => LKeep
  end.

Definition op_amount (op : LedgerOp) : Z :=
  match op with LMove _ _ n | LBurn _ n | LMint _ n => n | LKeep => 0 end.
Definition op_delta (op : LedgerOp) (a : Addr) : Z :=
  match op with
  | LMove f t n => at_addr n t a - at_addr n f a
  | LBurn f n => - at_addr n f a
  | LMint t n => at_addr n t a
  | LKeep => 0
  end.
Definition op_supply (op : LedgerOp) : Z :=
  match op with LBurn _ n => - n | LMint _ n => n | _ => 0 end.
Definition op_funded (op : LedgerOp) (s : Cw20Storage) : Prop :=
  match op with LMove f _ n | LBurn f n => n <= bal s f | _ => True end.

(** The concrete storage implements the ledger step [op]. *)
Definition ledger_step (op : LedgerOp) (s s' : Cw20Storage) : Prop :=
  op_funded op s /\
  (forall a, bal s' a = bal s a + op_delta op a) /\
  supply s' = supply s + op_supply op /\
  balances_sum s' = balances_sum s + op_supply op /\
  (map_Forall (fun _ v => 0 <= v) (BALANCES s) -> map_Forall (fun _ v => 0 <= v) (BALANCES s')) /\
  (is_Some (TOKEN_INFO s) -> is_Some (TOKEN_INFO s')).

Lemma ledger_keep s s' :
  BALANCES s' = BALANCES s -> TOKEN_INFO s' = TOKEN_INFO s -> ledger_step LKeep s s'.
Proof.
  intros HB HT. unfold ledger_step, bal, supply, balances_sum. simpl. rewrite HB, HT.
  split_and!; intros; try done; lia.
Qed.

Lemma ledger_move f t n s s1 s' :
  n <= bal s f -> credited (- n) f s s1 -> credited n t s1 s' -> ledger_step (LMove f t n) s s'.
Proof.
  intros Hn (B1 & -> & Hb1 & Hs1 & Hp1) (B2 & -> & Hb2 & Hs2 & Hp2).
  unfold ledger_step; simpl. split_and!; try done.
  - intros a. rewrite Hb2, Hb1. unfold at_addr. destruct (decide (a = t)), (decide (a = f)); lia.
  - unfold supply; simpl. lia.
  - rewrite Hs2, Hs1. lia.
  - auto.
Qed.

(** ** Allowances *)

Definition mirror s : Prop :=
  forall o sp, ALLOWANCES s !! (o, sp) = ALLOWANCES_SPENDER s !! (sp, o).

Lemma mirror_insert (o sp : Addr) (r : AllowanceResponse)
    (A B : gmap (Addr * Addr) AllowanceResponse) :
  (forall o sp, A !! (o, sp) = B !! (sp, o)) ->
  forall o' sp', <[(o, sp) := r]> A !! (o', sp') = <[(sp, o) := r]> B !! (sp', o').
Proof.
  intros H o' sp'. destruct (decide ((o', sp') = (o, sp))) as [[= -> ->]|Hn].
  - by rewrite !lookup_insert_eq.
  - rewrite !lookup_insert_ne by congruence. apply H.
Qed.

Lemma mirror_delete (o sp : Addr) (A B : gmap (Addr * Addr) AllowanceResponse) :
  (forall o sp, A !! (o, sp) = B !! (sp, o)) ->
  forall o' sp', delete (o, sp) A !! (o', sp') = delete (sp, o) B !! (sp', o').
Proof.
  intros H o' sp'. destruct (decide ((o', sp') = (o, sp))) as [[= -> ->]|Hn].
  - by rewrite !lookup_delete_eq.
  - rewrite !lookup_delete_ne by congruence. apply H.
Qed.

Lemma deduct_allowance_ok block o sp n c r c' :
  deduct_allowance block o sp n c = Ok (r, c') ->
  (exists a, ALLOWANCES (cstore c) !! (o, sp) = Some a /\
     is_expired (expires a) block = false /\ n <= allowance a /\
     ALLOWANCES (cstore c') = <[(o, sp) := mkAllowance (allowance a - n) (expires a)]>
                                (ALLOWANCES (cstore c))) /\
  BALANCES (cstore c') = BALANCES (cstore c) /\ TOKEN_INFO (cstore c') = TOKEN_INFO (cstore c) /\
  same_rest (cstore c) (cstore c') /\
  (mirror (cstore c) -> mirror (cstore c')).
Proof.
  unfold deduct_allowance. intros (r1 & c1 & H1 & H2)%hbind_ok.
  apply update_allowance_ok in H1 as [H1 ->]. apply update_allowance_spender_ok in H2 as [H2 ->].
  simpl in *. destruct (ALLOWANCES (cstore c) !! (o, sp)) as [a|] eqn:Ea; [|done].
  destruct (is_expired (expires a) block) eqn:Ex; [done|].
  apply rbind_ok in H1 as (v & Hv & [= <-]). apply std_ok, u128_sub_Some in Hv as [-> ?].
  split; [exists a; split_and!; done || lia|].
  split_and!; try done.
  intros Hm. unfold mirror; simpl. intros o' sp'. revert H2.
  rewrite <- (Hm o sp), Ea, Ex. intros (v & Hv & [= <-])%rbind_ok.
  apply std_ok, u128_sub_Some in Hv as [-> _]. by apply mirror_insert.
Qed.

Lemma reduce_supply_ok n c u c' :
  reduce_supply n c = Ok (u, c') ->
  exists info, TOKEN_INFO (cstore c) = Some info /\ 
    cstore c' = set_TOKEN_INFO (Some (mkTokenInfo (ti_name info) (ti_symbol info)
                  (ti_decimals info) (total_supply info - n))) (cstore c).
Proof.
  unfold reduce_supply, load, save. intros H. inv_ok.
  repeat match goal with H : of_option _ _ = Ok _ |- _ => apply of_option_ok in H end.
  repeat match goal with H : std _ = Ok _ |- _ => apply std_ok in H end.
  std_inv. eauto.
Qed.

Lemma ledger_burn f n s s1 s' info :
  n <= bal s f -> credited (- n) f s s1 -> TOKEN_INFO s1 = Some info ->
  s' = set_TOKEN_INFO (Some (mkTokenInfo (ti_name info) (ti_symbol info)
         (ti_decimals info) (total_supply info - n))) s1 ->
  ledger_step (LBurn f n) s s'.
Proof.
  intros Hn (B1 & -> & Hb1 & Hs1 & Hp1) Hi ->. simpl in Hi.
  unfold ledger_step; simpl. split_and!; try done.
  - intros a. transitivity (bal (set_BALANCES B1 s) a); [done|]. rewrite Hb1.
    unfold at_addr. destruct (decide (a = f)); lia.
  - unfold supply; simpl. rewrite Hi. simpl. lia.
Qed.

Lemma ledger_mint t n s s' info :
  TOKEN_INFO s = Some info ->
  credited n t (set_TOKEN_INFO (Some (mkTokenInfo (ti_name info) (ti_symbol info)
         (ti_decimals info) (total_supply info + n))) s) s' ->
  ledger_step (LMint t n) s s'.
Proof.
  intros Hi (B1 & -> & Hb1 & Hs1 & Hp1). unfold ledger_step; simpl. split_and!; try done.
  unfold supply; simpl. rewrite Hi. simpl. lia.
Qed.

(** ** What each operation did *)

(** The summary the invariant needs, shared by all operations. *)
Definition op_spec (op : LedgerOp) s (s' : Cw20Storage) : Prop :=
  ledger_step op s s' /\ MINTER_CAP s' = MINTER_CAP s /\
  (is_Some (MINTER s) -> is_Some (MINTER s')) /\ (mirror s -> mirror s').

Lemma credited_rest n t s (s' : Cw20Storage) :
  credited n t s s' ->
  same_rest s s' /\ TOKEN_INFO s' = TOKEN_INFO s /\ ALLOWANCES s' = ALLOWANCES s /\
  ALLOWANCES_SPENDER s' = ALLOWANCES_SPENDER s.
Proof. intros (B & -> & _). done. Qed.

Lemma op_spec_intro op s (s' : Cw20Storage) :
  ledger_step op s s' -> same_rest s s' -> (mirror s -> mirror s') -> op_spec op s s'.
Proof. intros H1 (Hm & Hc & _) H2. unfold op_spec. rewrite Hm, Hc. done. Qed.

Lemma mirror_same s (s' : Cw20Storage) :
  ALLOWANCES s' = ALLOWANCES s -> ALLOWANCES_SPENDER s' = ALLOWANCES_SPENDER s ->
  mirror s -> mirror s'.
Proof. intros HA HB H o sp. rewrite HA, HB. apply H. Qed.

Lemma same_rest_trans s1 s2 s3 : same_rest s1 s2 -> same_rest s2 s3 -> same_rest s1 s3.
Proof. unfold same_rest. intuition congruence. Qed.

(** Moving tokens: a checked subtraction followed by a trapping addition. *)
Lemma move_ok f t n g c u (c' : Cw20Ctx) :
  (forall b v, g b = Ok v <-> v = default 0 b - n /\ 0 <= default 0 b - n <= U128_MAX) ->
  hbind (update_balance f g) (fun _ => update_balance t (add_amount n)) c = Ok (u, c') ->
  op_spec (LMove f t n) (cstore c) (cstore c').
Proof.
  intros Hg (u1 & c1 & [Hn H1]%(update_balance_sub _ n) & H2)%hbind_ok; [|done].
  apply update_balance_add in H2 as (H2 & _).
  destruct (credited_rest _ _ _ _ H1) as (R1 & _ & A1 & S1).
  destruct (credited_rest _ _ _ _ H2) as (R2 & _ & A2 & S2).
  apply op_spec_intro.
  - by eapply ledger_move.
  - by eapply same_rest_trans.
  - apply mirror_same; congruence.
Qed.

Lemma burn_ok f n g c u (c' : Cw20Ctx) :
  (forall b v, g b = Ok v <-> v = default 0 b - n /\ 0 <= default 0 b - n <= U128_MAX) ->
  hbind (update_balance f g) (fun _ => reduce_supply n) c = Ok (u, c') ->
  op_spec (LBurn f n) (cstore c) (cstore c').
Proof.
  intros Hg (u1 & c1 & [Hn H1]%(update_balance_sub _ n) & H2)%hbind_ok; [|done].
  apply reduce_supply_ok in H2 as (info & Hi & H2).
  destruct (credited_rest _ _ _ _ H1) as (R1 & _ & A1 & S1).
  apply op_spec_intro.
  - by eapply ledger_burn.
  - eapply same_rest_trans; [exact R1|]. by rewrite H2.
  - apply mirror_same; rewrite H2; simpl; done.
Qed.

(** Deducting an allowance first does not change the ledger step that follows. *)
Lemma op_spec_after_deduct block o sp n op c r (c1 : Cw20Ctx) (s' : Cw20Storage) :
  deduct_allowance block o sp n c = Ok (r, c1) ->
  op_spec op (cstore c1) s' -> op_spec op (cstore c) s'.
Proof.
  intros (_ & HB & HT & (HM & HC & _) & Hmir)%deduct_allowance_ok (Hl & HC' & HM' & Hmir').
  unfold op_spec. rewrite <- HM, <- HC. split_and!; auto.
  destruct Hl as (H1 & H2 & H3 & H4 & H5 & H6).
  unfold ledger_step, supply, balances_sum in *. rewrite <- HB, <- HT. split_and!; try done.
  - destruct op; simpl in *; unfold bal in *; rewrite <- ?HB; done.
  - intros a. rewrite (H2 a). unfold bal. by rewrite HB.
Qed.

Lemma add_event_ok e c u (c' : Cw20Ctx) :
  add_event e c = Ok (u, c') -> cstore c' = cstore c.
Proof. by intros ->%hmod_ok. Qed.
Lemma add_receive_ok m c u (c' : Cw20Ctx) :
  add_receive m c = Ok (u, c') -> cstore c' = cstore c.
Proof. by intros ->%hmod_ok. Qed.

Lemma cw20_transfer_ok o t n c u (c' : Cw20Ctx) :
  cw20_transfer o t n c = Ok (u, c') -> op_spec (LMove o t n) (cstore c) (cstore c').
Proof.
  intros (? & c1 & <-%add_event_ok & H)%hbind_ok.
  apply hbind_ok in H as (? & ? & [_ ->]%zero_check_ok & H).
  by eapply move_ok in H; [|apply sub_context_ok].
Qed.

Lemma transfer_from_ok block sender o t n c u (c' : Cw20Ctx) :
  transfer_from block sender o t n c = Ok (u, c') ->
  op_spec (LMove o t n) (cstore c) (cstore c').
Proof.
  intros (? & c1 & <-%add_event_ok & H)%hbind_ok.
  apply hbind_ok in H as (r & c2 & Hd & H).
  eapply op_spec_after_deduct; [done|]. by eapply move_ok in H; [|apply sub_context_ok].
Qed.

Lemma cw20_burn_ok o n c u (c' : Cw20Ctx) :
  burn o n c = Ok (u, c') -> op_spec (LBurn o n) (cstore c) (cstore c').
Proof.
  intros (? & c1 & <-%add_event_ok & H)%hbind_ok.
  apply hbind_ok in H as (? & ? & [_ ->]%zero_check_ok & H).
  by eapply burn_ok in H; [|apply sub_plain_ok].
Qed.

Lemma burn_from_ok block sender o n c u (c' : Cw20Ctx) :
  burn_from block sender o n c = Ok (u, c') -> op_spec (LBurn o n) (cstore c) (cstore c').
Proof.
  intros (? & c1 & <-%add_event_ok & H)%hbind_ok.
  apply hbind_ok in H as (r & c2 & Hd & H).
  eapply op_spec_after_deduct; [done|]. by eapply burn_ok in H; [|apply sub_plain_ok].
Qed.

(** The send handlers append a receive message after moving the tokens. *)
Lemma move_receive_ok f t n m c u (c' : Cw20Ctx) :
  hbind (update_balance f (sub_plain n)) (fun _ =>
    hbind (update_balance t (add_amount n)) (fun _ => add_receive m)) c = Ok (u, c') ->
  op_spec (LMove f t n) (cstore c) (cstore c').
Proof.
  intros (u1 & c1 & H1 & H)%hbind_ok. apply hbind_ok in H as (u2 & c2 & H2 & ->%add_receive_ok).
  apply (move_ok f t n (sub_plain n) c u2 c2); [apply sub_plain_ok|].
  apply hbind_ok. eauto.
Qed.

Lemma send_with_msg_ok o t n m c u (c' : Cw20Ctx) :
  send_with_msg o t n m c = Ok (u, c') -> op_spec (LMove o t n) (cstore c) (cstore c').
Proof.
  intros (? & c1 & <-%add_event_ok & H)%hbind_ok.
  apply hbind_ok in H as (? & ? & [_ ->]%zero_check_ok & H). by apply move_receive_ok in H.
Qed.

Lemma send_with_msg_from_ok block sender o t n m c u (c' : Cw20Ctx) :
  send_with_msg_from block sender o t n m c = Ok (u, c') ->
  op_spec (LMove o t n) (cstore c) (cstore c').
Proof.
  intros (? & c1 & <-%add_event_ok & H)%hbind_ok.
  apply hbind_ok in H as (r & c2 & Hd & H).
  eapply op_spec_after_deduct; [done|]. by apply move_receive_ok in H.
Qed.

Lemma mint_ok sender t n c u (c' : Cw20Ctx) :
  mint sender t n c = Ok (u, c') ->
  op_spec (LMint t n) (cstore c) (cstore c') /\ MINTER (cstore c) = Some sender /\ n <> 0 /\
  supply (cstore c') <= U128_MAX /\
  (forall cap, MINTER_CAP (cstore c) = Some cap -> supply (cstore c') <= cap).
Proof.
  intros (? & c1 & He%add_event_ok & H)%hbind_ok. rewrite <- He. clear He c. rename c1 into c.
  apply hbind_ok in H as (? & ? & [Hn ->]%zero_check_ok & H).
  apply hbind_ok in H as (o & ? & [-> ->]%hget_ok & H).
  apply hbind_ok in H as (info & ? & [Hi%of_option_ok ->]%hlift_ok & H).
  apply hbind_ok in H as (minter & ? & [Hm ->]%minter_addr_ok & H).
  apply hbind_ok in H as (? & ? & [->%String.eqb_eq ->]%guard_ok & H).
  apply hbind_ok in H as (v & ? & [Hv%panics_ok ->]%hlift_ok & H).
  apply u128_op_add_Some in Hv as [-> Hv].
  apply hbind_ok in H as (cap & ? & [-> ->]%hget_ok & H).
  apply hbind_ok in H as (? & c2 & Hcap & H).
  assert (c2 = c /\ forall l, MINTER_CAP (cstore c) = Some l -> total_supply info + n <= l)
    as [-> Hle].
  { destruct (MINTER_CAP (cstore c)) as [l|].
    - destruct (Z.ltb_spec l (total_supply info + n)); [by apply herr_not_ok in Hcap|].
      apply hret_ok in Hcap as [_ ->]. split; [done|]. by intros ? [= <-].
    - by apply hret_ok in Hcap as [_ ->]. }
  apply hbind_ok in H as (? & ? & ->%hmod_ok & H). apply update_balance_add in H as (H & _).
  destruct (credited_rest _ _ _ _ H) as (R & HT & A & S).
  split; [|split_and!; [done|done| |]].
  - apply op_spec_intro; [by eapply ledger_mint|done|by apply mirror_same].
  - unfold supply. rewrite HT. simpl. lia.
  - intros l Hl. unfold supply. rewrite HT. simpl. by apply Hle.
Qed.

(** Handlers that leave the ledger alone. *)
Lemma op_spec_keep s (s' : Cw20Storage) :
  BALANCES s' = BALANCES s -> TOKEN_INFO s' = TOKEN_INFO s -> MINTER_CAP s' = MINTER_CAP s ->
  (is_Some (MINTER s) -> is_Some (MINTER s')) -> (mirror s -> mirror s') ->
  op_spec LKeep s s'.
Proof. intros HB HT HC HM Hm. split_and!; try done. by apply ledger_keep. Qed.

Lemma increase_allowance_ok o sp n e c u (c' : Cw20Ctx) :
  increase_allowance o sp n e c = Ok (u, c') -> op_spec LKeep (cstore c) (cstore c').
Proof.
  intros (? & c1 & <-%add_event_ok & H)%hbind_ok.
  apply hbind_ok in H as (? & ? & [_ ->]%guard_neg_ok & H).
  apply hbind_ok in H as (r1 & ? & [H1 ->]%update_allowance_ok & H).
  apply hbind_ok in H as (r2 & ? & [H2 ->]%update_allowance_spender_ok & [_ ->]%hret_ok).
  apply op_spec_keep; try done. intros Hm o' sp'; simpl in *.
  rewrite <- (Hm o sp), H1 in H2. injection H2 as <-. by apply mirror_insert.
Qed.

Lemma decrease_allowance_ok o sp n e c u (c' : Cw20Ctx) :
  decrease_allowance o sp n e c = Ok (u, c') -> op_spec LKeep (cstore c) (cstore c').
Proof.
  intros (? & c1 & <-%add_event_ok & H)%hbind_ok.
  apply hbind_ok in H as (? & ? & [_ ->]%guard_neg_ok & H).
  apply hbind_ok in H as (r & ? & [-> ->]%hget_ok & H).
  apply hbind_ok in H as (a & ? & [_ ->]%hlift_ok & H).
  destruct (n <? allowance a).
  - apply hbind_ok in H as (v & ? & [_ ->]%hlift_ok & H).
    apply hbind_ok in H as (? & ? & ->%hmod_ok & ->%hmod_ok).
    apply op_spec_keep; try done. intros Hm. unfold mirror; simpl. by apply mirror_insert.
  - apply hbind_ok in H as (? & ? & ->%hmod_ok & ->%hmod_ok).
    apply op_spec_keep; try done. intros Hm. unfold mirror; simpl. by apply mirror_delete.
Qed.

Lemma set_marketing_ok sender p d m c u (c' : Cw20Ctx) :
  set_marketing sender p d m c = Ok (u, c') -> op_spec LKeep (cstore c) (cstore c').
Proof.
  intros (? & c1 & <-%add_event_ok & H)%hbind_ok.
  apply hbind_ok in H as (r & ? & [-> ->]%hget_ok & H).
  apply hbind_ok in H as (info & ? & [_ ->]%hlift_ok & H).
  apply hbind_ok in H as (? & ? & [_ ->]%hlift_ok & H).
  apply hbind_ok in H as (mk & ? & [_ ->]%hlift_ok & H).
  assert (exists v, c' = on_store (set_MARKETING_INFO v) c1) as [v ->]; [|by apply op_spec_keep].
  repeat match type of H with context [match ?x with _ => _ end] => destruct x end;
    apply hmod_ok in H; eauto.
Qed.

Lemma set_logo_ok sender l c u (c' : Cw20Ctx) :
  set_logo sender l c = Ok (u, c') -> op_spec LKeep (cstore c) (cstore c').
Proof.
  intros (? & c1 & <-%add_event_ok & H)%hbind_ok.
  apply hbind_ok in H as (r & ? & [-> ->]%hget_ok & H).
  apply hbind_ok in H as (info & ? & [_ ->]%hlift_ok & H).
  apply hbind_ok in H as (? & ? & [_ ->]%hlift_ok & H).
  apply hbind_ok in H as (? & ? & ->%hmod_ok & ->%hmod_ok). by apply op_spec_keep.
Qed.

Lemma set_minter_ok sender m c u (c' : Cw20Ctx) :
  set_minter sender m c = Ok (u, c') ->
  op_spec LKeep (cstore c) (cstore c') /\ MINTER (cstore c) = Some sender.
Proof.
  intros (a & ? & [Hm ->]%minter_addr_ok & H)%hbind_ok.
  apply hbind_ok in H as (? & ? & [->%String.eqb_eq ->]%guard_ok & H).
  apply hbind_ok in H as (v & ? & [_ ->]%hlift_ok & H).
  apply hbind_ok in H as (? & ? & ->%hmod_ok & ->%add_event_ok).
  split; [|done]. by apply op_spec_keep.
Qed.

Lemma set_market_addr_ok m c u (c' : Cw20Ctx) :
  set_market_addr m c = Ok (u, c') -> op_spec LKeep (cstore c) (cstore c').
Proof.
  intros (o & ? & [-> ->]%hget_ok & H)%hbind_ok.
  destruct (MARKET_ADDRESS (cstore c)); [by apply herr_not_ok in H|].
  apply hmod_ok in H as ->. by apply op_spec_keep.
Qed.

#[local] Hint Resolve cw20_transfer_ok transfer_from_ok cw20_burn_ok burn_from_ok
  send_with_msg_ok send_with_msg_from_ok increase_allowance_ok decrease_allowance_ok
  set_marketing_ok set_logo_ok set_market_addr_ok : perps.

Lemma cw20_dispatch_ok block sender msg c u (c' : Cw20Ctx) :
  cw20_dispatch block sender msg c = Ok (u, c') ->
  op_spec (ledger_op sender msg) (cstore c) (cstore c').
Proof.
  destruct msg; simpl; intros H;
    repeat match goal with
    | H : hbind (hlift (validate _)) _ _ = Ok _ |- _ =>
        apply hbind_ok in H as (? & ? & [->%validate_ok ->]%hlift_ok & H)
    end; eauto with perps.
  - by apply mint_ok in H as [H _].
  - by apply set_minter_ok in H as [H _].
  - apply hbind_ok in H as (a & ? & [_ ->]%minter_addr_ok & H).
    apply hbind_ok in H as (? & ? & [_ ->]%guard_ok & H).
    apply hbind_ok in H as (? & ? & [_ ->]%hlift_ok & H). eauto with perps.
Qed.

Lemma assert_trading_competition_ok sender msg c u (c' : Cw20Ctx) :
  assert_trading_competition sender msg c = Ok (u, c') ->
  c' = c /\ forall m, MARKET_ADDRESS (cstore c) = Some m -> sender <> m ->
    forall raw, restricted_recipient msg = Some raw -> raw = m.
Proof.
  intros (o & ? & [-> ->]%hget_ok & H)%hbind_ok.
  destruct (MARKET_ADDRESS (cstore c)) as [m|]; [|by apply hret_ok in H as [_ ->]].
  destruct (String.eqb_spec sender m) as [->|Hs].
  { apply hret_ok in H as [_ ->]. split; [done|]. by intros m' [= <-] ?. }
  destruct (restricted_recipient msg) as [raw|].
  - apply hbind_ok in H as (r & ? & [->%validate_ok ->]%hlift_ok & H).
    apply guard_ok in H as [->%String.eqb_eq ->]. split; [done|]. congruence.
  - apply hret_ok in H as [_ ->]. split; [done|]. done.
Qed.

Lemma cw20_execute_ok block sender msg s (c' : Cw20Ctx) :
  cw20_execute block sender msg s = Ok c' ->
  (forall m, MARKET_ADDRESS s = Some m -> sender <> m ->
    forall raw, restricted_recipient msg = Some raw -> raw = m) /\
  cw20_dispatch block sender msg (mkCw20Ctx s [] []) = Ok (tt, c').
Proof.
  unfold cw20_execute. intros ([u c] & H & [= <-])%rbind_ok.
  apply hbind_ok in H as (? & ? & [-> Ht]%assert_trading_competition_ok & H).
  destruct u. done.
Qed.
End Theory.

(** ** Instantiation *)

Lemma dedup_length l : (length (dedup l) <= length l)%nat.
Proof.
  induction l as [|a [|b l] IH]; [done..|].
  change (dedup (a :: b :: l)) with (if String.eqb a b then dedup (b :: l) else a :: dedup (b :: l)).
  destruct (String.eqb a b); simpl in *; lia.
Qed.

Lemma dedup_sorted_NoDup l :
  StronglySorted str_le l -> length (dedup l) = length l -> NoDup l.
Proof.
  induction l as [|a [|b l] IH]; intros Hs Hl; [constructor|apply NoDup_singleton|].
  change (dedup (a :: b :: l))
    with (if String.eqb a b then dedup (b :: l) else a :: dedup (b :: l)) in Hl.
  pose proof (dedup_length (b :: l)).
  destruct (String.eqb_spec a b) as [->|Hab]; simpl in *; [lia|].
  apply StronglySorted_inv in Hs as [Hs Ha]. constructor; [|apply IH; [done|lia]].
  intros [->|Hin]%elem_of_cons; [done|]. apply Hab.
  rewrite Forall_cons in Ha. destruct Ha as [Ha _].
  apply StronglySorted_inv in Hs as [_ Hb]. rewrite Forall_forall in Hb.
  apply (anti_symm str_le); auto.
Qed.

Lemma has_valid_balances_NoDup m :
  has_valid_balances m = true -> NoDup (ci_initial_balances m).*1.
Proof.
  unfold has_valid_balances. intros H%Nat.eqb_eq.
  change (map fst (ci_initial_balances m)) with (ci_initial_balances m).*1 in H.
  rewrite <- (merge_sort_Permutation str_le). apply dedup_sorted_NoDup.
  - apply StronglySorted_merge_sort; apply _.
  - rewrite H, (Permutation_length (merge_sort_Permutation str_le _)). by rewrite length_fmap.
Qed.

Section Reachable.
Context {CW : CosmwasmStd} {CWS : CosmwasmStdSpec CW}.
Implicit Types (c : Cw20Ctx) (s : Cw20Storage).

Lemma init_balances_ok rows t c t' (c' : Cw20Ctx) :
  init_balances rows t c = Ok (t', c') ->
  NoDup rows.*1 -> Forall (fun r => 0 <= r.2) rows ->
  (forall r, r ∈ rows -> BALANCES (cstore c) !! r.1 = None) ->
  map_Forall (fun _ v => 0 <= v) (BALANCES (cstore c)) ->
  exists B, cstore c' = set_BALANCES B (cstore c) /\ map_Forall (fun _ v => 0 <= v) B /\
    map_sum id B - t' = map_sum id (BALANCES (cstore c)) - t /\
    (t <= U128_MAX -> t' <= U128_MAX).
Proof.
  revert t c. induction rows as [|[raw n] rows IH]; intros t c H Hnd Hpos Hfresh HB; simpl in H.
  { apply hret_ok in H as [-> ->]. exists (BALANCES (cstore c)). split; [|done].
    by destruct (cstore c). }
  apply hbind_ok in H as (a & ? & [Ha%std_ok%addr_validate_spec ->]%hlift_ok & H). subst a.
  apply hbind_ok in H as (? & ? & ->%hmod_ok & H).
  apply hbind_ok in H as (t1 & ? & [Ht%panics_ok ->]%hlift_ok & H).
  apply u128_op_add_Some in Ht as [-> Ht].
  simpl in Hnd. apply NoDup_cons in Hnd as [Hn Hnd]. apply Forall_cons in Hpos as [Hn0 Hpos].
  apply IH in H as (B & -> & HBp & Hsum & Hmax); simpl in *; try done.
  - exists B. split_and!; try done; [|intros _; apply Hmax; lia]. rewrite Hsum, map_sum_id_insert.
    assert (BALANCES (cstore c) !! raw = None) as ->
      by (apply (Hfresh (raw, n)), list_elem_of_here). simpl. lia.
  - intros r Hr. rewrite lookup_insert_ne; [apply Hfresh; by apply list_elem_of_further|].
    intros ->. apply Hn. by apply (list_elem_of_fmap_2 fst).
  - by apply map_Forall_insert_2.
Qed.

(** The contract's invariant. *)
Definition cw20_inv s : Prop :=
  is_Some (TOKEN_INFO s) /\ is_Some (MINTER s) /\
  supply s = balances_sum s /\ supply s <= U128_MAX /\
  map_Forall (fun _ v => 0 <= v) (BALANCES s) /\
  (forall cap, MINTER_CAP s = Some cap -> supply s <= cap) /\
  mirror s.

Definition msg_amount_ok (msg : Cw20ExecuteMsg) : Prop :=
  forall sender, 0 <= op_amount (ledger_op sender msg).

Lemma op_spec_inv op s (s' : Cw20Storage) :
  cw20_inv s -> op_spec op s s' ->
  op_supply op <= 0 \/ supply s' <= U128_MAX /\
    (forall cap, MINTER_CAP s = Some cap -> supply s' <= cap) ->
  cw20_inv s'.
Proof.
  intros (HT & HM & Hs & Hmax & HB & Hc & Hm) (Hl & HC & HM' & Hmir) Hcap.
  destruct Hl as (_ & Hb & Hs' & Hsum & HB' & HT').
  split_and!; auto.
  - lia.
  - lia.
  - intros cap. rewrite HC. intros Hcap'. specialize (Hc cap Hcap').
    destruct Hcap as [|[_ Hcap]]; [lia|auto].
Qed.

Lemma cw20_execute_inv block sender msg s (c' : Cw20Ctx) :
  cw20_inv s -> msg_amount_ok msg -> cw20_execute block sender msg s = Ok c' ->
  cw20_inv (cstore c').
Proof.
  intros Hinv Hn (_ & H)%cw20_execute_ok.
  pose proof (cw20_dispatch_ok _ _ _ _ _ _ H) as Hop. simpl in Hop.
  apply (op_spec_inv _ _ _ Hinv Hop).
  specialize (Hn sender).
  destruct msg; simpl in *; try (left; lia).
  right. apply hbind_ok in H as (r & ? & [_ ->]%hlift_ok & H).
  by apply mint_ok in H as (_ & _ & _ & H).
Qed.

Lemma cw20_instantiate_inv m (c' : Cw20Ctx) :
  Forall (fun r => 0 <= r.2) (ci_initial_balances m) -> cw20_instantiate m = Ok c' ->
  cw20_inv (cstore c').
Proof.
  intros Hpos. unfold cw20_instantiate. intros ([u c] & H & [= <-])%rbind_ok.
  unfold cw20_token_init in H.
  apply hbind_ok in H as (? & ? & [Hv ->]%hlift_ok & H).
  apply hbind_ok in H as (total & c1 & Hb & H).
  apply init_balances_ok in Hb as (B & HB & HBp & Hsum & Hmax); simpl in *; try done.
  2: { unfold cw20_validate in Hv. inv_ok. apply has_valid_balances_NoDup.
       match goal with H : has_valid_balances _ = true |- _ => exact H end. }
  rewrite map_sum_empty in Hsum. specialize (Hmax ltac:(vm_compute; congruence)).
  apply hbind_ok in H as (minter & ? & [_ ->]%hlift_ok & H).
  apply hbind_ok in H as (? & ? & ->%hmod_ok & H).
  apply hbind_ok in H as (? & c2 & Hcap & H).
  assert (exists cap, cstore c2 = set_MINTER_CAP cap (set_MINTER (Some minter) (cstore c1)) /\
    forall l, cap = Some l -> total <= l) as (cap & Hc2 & Hle).
  { destruct (ci_cap m) as [l|].
    - apply hbind_ok in Hcap as (? & ? & ->%hmod_ok & [Hl%Z.ltb_ge ->]%guard_neg_ok).
      exists (Some l). split; [done|]. by intros ? [= <-].
    - apply hret_ok in Hcap as [_ ->]. exists None. simpl. rewrite HB. done. }
  apply hbind_ok in H as (? & c3 & Hlogo & H).
  assert (exists l, cstore c3 = set_LOGO l (cstore c2)) as [l Hc3].
  { destruct (ci_marketing m) as [i|]; [destruct (im_logo i)|].
    - apply hmod_ok in Hlogo as ->. by eexists.
    - apply hret_ok in Hlogo as [_ ->]. exists (LOGO (cstore c2)). by destruct (cstore c2).
    - apply hret_ok in Hlogo as [_ ->]. exists (LOGO (cstore c2)). by destruct (cstore c2). }
  apply hbind_ok in H as (? & ? & ->%hmod_ok & ->%hmod_ok).
  simpl. rewrite Hc3, Hc2, HB. unfold cw20_inv, supply, balances_sum, mirror; simpl.
  split_and!; try done; try lia.
Qed.

(** The contract over time: an instantiation followed by any messages. *)
Inductive cw20_reachable : Cw20Storage -> Prop :=
| reach_instantiate m c :
    Forall (fun r => 0 <= r.2) (ci_initial_balances m) ->
    cw20_instantiate m = Ok c -> cw20_reachable (cstore c)
| reach_execute s block sender msg c :
    cw20_reachable s -> msg_amount_ok msg ->
    cw20_execute block sender msg s = Ok c -> cw20_reachable (cstore c).

Lemma cw20_reachable_inv' s : cw20_reachable s -> cw20_inv s.
Proof. induction 1; eauto using cw20_instantiate_inv, cw20_execute_inv. Qed.

(** * Properties *)

(** C38: in every state the token contract can reach, the total supply is the
    sum of the balances, no balance is negative, the supply respects the
    minter's cap, there is a minter, and the two allowance maps mirror each
    other. *)
Theorem cw20_reachable_inv s : cw20_reachable s -> cw20_inv s.
Proof. apply cw20_reachable_inv'. Qed.

(** C39: every message refines the abstract ledger: a transfer or send moves
    exactly the amount from one account that has it to another, a burn and a
    mint change one account and the supply by the amount, and every other
    message leaves all balances and the supply alone. *)
Theorem cw20_execute_refines_ledger block sender msg s (c' : Cw20Ctx) :
  cw20_execute block sender msg s = Ok c' ->
  let op := ledger_op sender msg in
  op_funded op s /\
  (forall a, bal (cstore c') a = bal s a + op_delta op a) /\
  supply (cstore c') = supply s + op_supply op.
Proof.
  intros (_ & H)%cw20_execute_ok. apply cw20_dispatch_ok in H as ((H1 & H2 & H3 & _) & _).
  done.
Qed.

Lemma two_balances_le s (a b : Addr) :
  map_Forall (fun _ v => 0 <= v) (BALANCES s) -> a <> b -> bal s a + bal s b <= balances_sum s.
Proof.
  intros Hpos Hab. unfold bal, balances_sum.
  assert (forall (m : gmap Addr Z) k, map_Forall (fun _ v => 0 <= v) m ->
    default 0 (m !! k) <= map_sum id m) as Hle.
  { intros m k Hm. destruct (m !! k) as [v|] eqn:E; simpl.
    - by apply (map_sum_ge id m k v).
    - by apply (map_sum_nonneg id). }
  pose proof (Hle (delete a (BALANCES s)) b (map_Forall_delete _ _ _ Hpos)) as H.
  rewrite lookup_delete_ne, map_sum_remove in H by done. unfold map_get in H.
  destruct (BALANCES s !! a); simpl in *; lia.
Qed.

(** a transfer in a reachable state outside the trading competition is
    total: it is refused for a zero amount and for more than the sender's
    balance, and otherwise succeeds (the addition cannot overflow), moving
    exactly the amount and emitting the transfer event. *)
Theorem cw20_transfer_total block sender r n s :
  cw20_reachable s -> MARKET_ADDRESS s = None -> addr_validate r = Some r -> 0 <= n ->
  cw20_execute block sender (ExecTransfer r n) s =
    if n =? 0 then Err (perp_cw20 Cw20Funds)
    else if bal s sender <? n
      then Err (AnyhowError "In CW20 contract, cannot transfer or send")
    else
      let B := <[sender := bal s sender - n]> (BALANCES s) in
      Ok (mkCw20Ctx (set_BALANCES (<[r := default 0 (B !! r) + n]> B) s)
            [TransferEvent sender r n None] []).
Proof.
  intros (_ & _ & Hs & Hmax & HB & _)%cw20_reachable_inv' Hm Hr Hn.
  unfold cw20_execute, assert_trading_competition, cw20_dispatch, cw20_transfer, validate,
    zero_check, add_event, update_balance, load, save, hbind, hget, hlift, hmod, hret. simpl.
  rewrite Hm. simpl. rewrite Hr. simpl. destruct (Z.eqb_spec n 0); [done|]. simpl.
  fold (bal s sender). unfold sub_context. fold (bal s sender). rewrite u128_sub_spec.
  assert (bal s sender <= balances_sum s /\ 0 <= bal s sender) as [Hle Hge].
  { unfold bal, balances_sum. destruct (BALANCES s !! sender) as [v|] eqn:E; simpl.
    - split; [by apply (map_sum_ge id _ sender)|by apply (HB sender)].
    - split; [by apply (map_sum_nonneg id)|done]. }
  unfold fits at 1. unfold u128_ok. destruct (Z.ltb_spec (bal s sender) n).
  - rewrite (proj2 (Z.leb_gt 0 (bal s sender - n))) by lia. done.
  - rewrite (proj2 (Z.leb_le 0 (bal s sender - n))), (proj2 (Z.leb_le _ U128_MAX)) by lia. simpl.
    unfold add_amount. rewrite u128_op_add_spec, default_insert.
    unfold fits. rewrite (proj2 (u128_ok_true _)); [done|].
    destruct (decide (r = sender)) as [->|Hne]; [lia|]. fold (bal s r).
    pose proof (two_balances_le s r sender HB Hne).
    assert (0 <= bal s r) by (unfold bal; destruct (BALANCES s !! r) eqn:E; simpl;
      [by apply (HB r)|done]). lia.
Qed.

(** The owner whose allowance a message spends, and the amount. *)
Definition spends_allowance (msg : Cw20ExecuteMsg) : option (Addr * Z) :=
  match msg with
  | ExecTransferFrom o _ n | ExecSendFrom o _ n _ | ExecBurnFrom o n => Some (o, n)
  | _ => None
  end.

Lemma execute_deducts block sender msg s (c' : Cw20Ctx) o n :
  cw20_execute block sender msg s = Ok c' -> spends_allowance msg = Some (o, n) ->
  exists a, ALLOWANCES s !! (o, sender) = Some a /\
    is_expired (expires a) block = false /\ n <= allowance a.
Proof.
  intros (_ & H)%cw20_execute_ok Hsp.
  assert (exists r (c1 c2 : Cw20Ctx), cstore c1 = s /\
    deduct_allowance block o sender n c1 = Ok (r, c2)) as (r & c1 & c2 & Hc1 & Hd).
  { destruct msg; simpl in *; try done; injection Hsp as <- <-;
      repeat match goal with
      | H : hbind (hlift (validate _)) _ _ = Ok _ |- _ =>
          apply hbind_ok in H as (? & ? & [->%validate_ok ->]%hlift_ok & H)
      end;
      apply hbind_ok in H as (? & c1 & He%add_event_ok & H);
      apply hbind_ok in H as (r & c2 & Hd & H); by exists r, c1, c2. }
  apply deduct_allowance_ok in Hd as ((a & Ha & Hx & Hle & _) & _). rewrite Hc1 in Ha.
  by exists a.
Qed.

(** Tokens move only with their owner's consent: when a message lowers an
    account's balance, that account sent it, or it had granted the sender an
    unexpired allowance covering the amount; and only the minter's mint can
    raise the supply. *)
Theorem cw20_authorisation block sender msg s (c' : Cw20Ctx) :
  msg_amount_ok msg -> cw20_execute block sender msg s = Ok c' ->
  (forall a, bal (cstore c') a < bal s a ->
     a = sender \/
     exists n r, spends_allowance msg = Some (a, n) /\
       ALLOWANCES s !! (a, sender) = Some r /\ is_expired (expires r) block = false /\
       bal s a - bal (cstore c') a <= n <= allowance r) /\
  (supply s < supply (cstore c') -> MINTER s = Some sender).
Proof.
  intros Hn H. pose proof (fun o n => execute_deducts _ _ _ _ _ o n H) as Hded.
  pose proof H as (_ & Hdis)%cw20_execute_ok.
  pose proof (cw20_dispatch_ok _ _ _ _ _ _ Hdis) as ((_ & Hb & Hs & _) & _). simpl in Hb, Hs.
  specialize (Hn sender). split.
  - intros a Ha. rewrite (Hb a) in Ha. rewrite (Hb a).
    destruct msg; simpl in *; unfold at_addr in *; 
      repeat match goal with H : context [decide (?x = ?y)] |- _ =>
        destruct (decide (x = y)); subst end; auto; try lia;
      (right; edestruct Hded as (r & Hr & Hx & Hle); [done|];
       eexists _, r; split_and!; try done; lia).
  - intros Hlt. destruct msg; simpl in *; try lia.
    apply hbind_ok in Hdis as (r & ? & [_ ->]%hlift_ok & Hm).
    by apply mint_ok in Hm as (_ & Hm & _).
Qed.

(** while a market is set for the trading competition, an account other
    than the market can only gain tokens from the market itself or by a mint. *)
Theorem cw20_trading_competition block sender msg s (c' : Cw20Ctx) (m a : Addr) :
  msg_amount_ok msg -> MARKET_ADDRESS s = Some m -> a <> m ->
  cw20_execute block sender msg s = Ok c' -> bal s a < bal (cstore c') a ->
  sender = m \/ MINTER s = Some sender.
Proof.
  intros Hn Hm Ha H Hlt. destruct (decide (sender = m)) as [|Hs]; [by left|right].
  apply cw20_execute_ok in H as (Hr & H). specialize (Hr m Hm Hs).
  pose proof (cw20_dispatch_ok _ _ _ _ _ _ H) as ((_ & Hb & _) & _).
  rewrite (Hb a) in Hlt. simpl in Hlt. specialize (Hn sender).
  destruct msg; simpl in *; unfold at_addr in *;
    try (specialize (Hr _ eq_refl); subst);
    repeat match goal with H : context [decide (?x = ?y)] |- _ =>
      destruct (decide (x = y)); subst end; try done; try lia.
  apply hbind_ok in H as (r & ? & [_ ->]%hlift_ok & H).
  by apply mint_ok in H as (_ & H & _).
Qed.
End Reachable.

(** * Witnesses *)

Definition sample_instantiate : Cw20Instantiate :=
  mkCw20Instantiate "token" "TOK" 6 [("alice", 100); ("bob", 50)] "minter" (Some 1000) None.
Definition sample_block : BlockInfo := {| block_height := 7; block_time := 0 |}.

Definition ctx_store (r : res Cw20Ctx) : Cw20Storage :=
  match r with Ok c => cstore c | Err _ => cw20_empty end.

(** Alice lets Carol spend 30 of her tokens. *)
Definition sample_state : Cw20Storage :=
  ctx_store (cw20_instantiate (CW:=cosmwasm_ref) sample_instantiate).
Definition sample_allowed : Cw20Storage :=
  ctx_store (cw20_execute (CW:=cosmwasm_ref) sample_block "alice"
    (ExecIncreaseAllowance "carol" 30 None) sample_state).

Lemma sample_reachable : cw20_reachable (CW:=cosmwasm_ref) sample_state.
Proof.
  destruct (is_ok_Ok (cw20_instantiate (CW:=cosmwasm_ref) sample_instantiate)) as [c Hc];
    [vm_compute; reflexivity|].
  unfold sample_state. rewrite Hc. apply (reach_instantiate sample_instantiate c); [|done].
  repeat constructor; vm_compute; congruence.
Qed.

Lemma cw20_reachable_inv_witness :
  supply sample_state = balances_sum sample_state.
Proof.
  destruct (cw20_reachable_inv (CW:=cosmwasm_ref) (CWS:=cosmwasm_ref_spec) sample_state
    sample_reachable) as (_ & _ & H & _).
  exact H.
Defined.

Lemma cw20_execute_refines_ledger_witness :
  exists c, cw20_execute (CW:=cosmwasm_ref) sample_block "carol" (ExecTransferFrom "alice" "bob" 30)
    sample_allowed = Ok c /\ bal (cstore c) "bob" = 80.
Proof.
  destruct (is_ok_Ok (cw20_execute (CW:=cosmwasm_ref) sample_block "carol"
    (ExecTransferFrom "alice" "bob" 30) sample_allowed)) as [c Hc]; [vm_compute; reflexivity|].
  exists c. split; [exact Hc|].
  destruct (cw20_execute_refines_ledger (CW:=cosmwasm_ref) (CWS:=cosmwasm_ref_spec) _ _ _ _ _ Hc)
    as (_ & H & _).
  rewrite H. vm_compute. reflexivity.
Defined.

Lemma cw20_transfer_total_witness :
  cw20_execute (CW:=cosmwasm_ref) sample_block "alice" (ExecTransfer "bob" 101) sample_state =
  Err (AnyhowError "In CW20 contract, cannot transfer or send").
Proof.
  rewrite (cw20_transfer_total (CW:=cosmwasm_ref) (CWS:=cosmwasm_ref_spec) sample_block "alice"
    "bob" 101 sample_state sample_reachable); [|vm_compute; reflexivity|reflexivity|lia].
  assert ((bal sample_state "alice" <? 101) = true) as ->
    by (vm_compute; reflexivity).
  reflexivity.
Defined.

(** Carol burns from the allowance Alice granted her. *)
Lemma cw20_authorisation_witness :
  exists c n r, cw20_execute (CW:=cosmwasm_ref) sample_block "carol"
    (ExecBurnFrom "alice" 20) sample_allowed = Ok c /\
    spends_allowance (ExecBurnFrom "alice" 20) = Some ("alice"%string, n) /\
    ALLOWANCES sample_allowed !! ("alice"%string, "carol"%string) = Some r /\
    n <= allowance r.
Proof.
  destruct (is_ok_Ok (cw20_execute (CW:=cosmwasm_ref) sample_block "carol"
    (ExecBurnFrom "alice" 20) sample_allowed)) as [c Hc]; [vm_compute; reflexivity|].
  assert (msg_amount_ok (ExecBurnFrom "alice" 20)) as Hn
    by (intros sender; simpl; lia).
  destruct (cw20_authorisation (CW:=cosmwasm_ref) (CWS:=cosmwasm_ref_spec) _ _ _ _ _
    Hn Hc) as [H _].
  assert (bal (cstore c) "alice" = 80) as Hb.
  { assert (bal (ctx_store (cw20_execute (CW:=cosmwasm_ref) sample_block "carol"
      (ExecBurnFrom "alice" 20) sample_allowed)) "alice" = 80) as Hb by (vm_compute; reflexivity).
    rewrite Hc in Hb. exact Hb. }
  destruct (H "alice"%string) as [Heq|(n & r & Hs & Hr & _ & Hle)].
  - rewrite Hb. vm_compute. reflexivity.
  - discriminate Heq.
  - exists c, n, r. split; [exact Hc|]. split; [exact Hs|]. split; [exact Hr|lia].
Defined.

Definition sample_competition : Cw20Storage :=
  set_MARKET_ADDRESS (Some "market"%string)
    (set_BALANCES (<["market"%string := 1]> ∅) sample_state).

Lemma cw20_trading_competition_witness :
  exists c, cw20_execute (CW:=cosmwasm_ref) sample_block "market" (ExecTransfer "bob" 1)
    sample_competition = Ok c /\
  ("market"%string = "market"%string \/
   MINTER sample_competition = Some "market"%string).
Proof.
  destruct (is_ok_Ok (cw20_execute (CW:=cosmwasm_ref) sample_block "market"
    (ExecTransfer "bob" 1) sample_competition)) as [c Hc]; [vm_compute; reflexivity|].
  exists c. split; [exact Hc|].
  assert (msg_amount_ok (ExecTransfer "bob" 1)) as Hn
    by (intros sender; simpl; lia).
  apply (cw20_trading_competition (CW:=cosmwasm_ref) (CWS:=cosmwasm_ref_spec) _ _ _
    sample_competition _ "market" "bob" Hn eq_refl ltac:(discriminate) Hc).
  assert (bal (ctx_store (cw20_execute (CW:=cosmwasm_ref) sample_block "market"
    (ExecTransfer "bob" 1) sample_competition)) "bob" = 1) as Hb by (vm_compute; reflexivity).
  rewrite Hc in Hb. simpl in Hb. rewrite Hb. vm_compute. reflexivity.
Defined.
