(* ===== verification/DataSeries.v ===== *)
(** * Prefix-sum time series

    [contracts/market/src/state/data_series.rs]: a map from timestamps to data
    points that carry a value and the sum of everything before them, so that
    the sum over a range takes two lookups.  [rate] is the step function a
    series stands for, and the theory proves that [sum] is its integral. *)

From stdpp Require Import base option gmap strings list.
From Stdlib Require Import ZArith Lia.
From S2P Require Import Prelude Storage Cosmwasm Types Number Time.
Local Open Scope Z_scope.

Record DataPoint := mkDataPoint { prefix_sum : Number; dp_value : Number }.

(** [DataSeries]: the storage map of the series. *)
Abbreviation DataSeries := (gmap Timestamp DataPoint).

Definition before (t : Timestamp) (k : Timestamp) : bool := k <? t.
Definition until (t : Timestamp) (k : Timestamp) : bool := k <=? t.

Definition try_load_last (m : DataSeries) : option (Timestamp * DataPoint) :=
  last_entry any_key m.

Section Definitions.
Context {CW : CosmwasmStd}.

(** The cumulative value of a data point [elapsed] nanoseconds later. *)
Definition extend (dp : DataPoint) (elapsed : Duration) : res Number :=
  elapsed <- number_from_u64 (as_nanos elapsed);
  elapsed_sum <- number_checked_mul (dp_value dp) elapsed;
  signed_checked_add (prefix_sum dp) elapsed_sum.

Definition series_append (m : DataSeries) (time : Timestamp) (value : Number) :
    res DataSeries :=
  prefix_sum <- match try_load_last m with
                | None => Ok NUMBER_ZERO
                | Some (last_time, data_point) =>
                    elapsed <- timestamp_checked_sub time last_time;
                    extend data_point elapsed
                end;
  Ok (<[time := mkDataPoint prefix_sum value]> m).

Definition series_sum (m : DataSeries) (start end_ : Timestamp) : res Number :=
  '(start_time, start_point) <-
    of_option (AnyhowError "Unable to find entry for start time") (last_entry (until start) m);
  '(end_time, end_point) <-
    of_option (AnyhowError "Unable to find entry for end time") (last_entry (before end_) m);
  elapsed_start <- timestamp_checked_sub start start_time;
  start_prefix_sum <- extend start_point elapsed_start;
  elapsed_end <- timestamp_checked_sub end_ end_time;
  end_prefix_sum <- extend end_point elapsed_end;
  signed_checked_sub end_prefix_sum start_prefix_sum.

End Definitions.

(** * Theory *)

(** The value in force at time [t], zero before the first entry. *)
Definition rate (m : DataSeries) (t : Timestamp) : Z :=
  match last_entry (until t) m with
  | Some (_, dp) => sval (dp_value dp)
  | None => 0
  end.

(** The integral of the step function over [n] nanoseconds from [t]. *)
Fixpoint integral (m : DataSeries) (t : Timestamp) (n : nat) : Z :=
  match n with
  | O => 0
  | S n => rate m t + integral m (t + 1) n
  end.

Definition point_at (r : option (Timestamp * DataPoint)) (t : Timestamp) : Z :=
  match r with
  | Some (k, dp) => sval (prefix_sum dp) + sval (dp_value dp) * (t - k)
  | None => 0
  end.

(** The cumulative value at time [t]. *)
Definition cumulative (m : DataSeries) (t : Timestamp) : Z := point_at (last_entry (until t) m) t.

(** Timestamps are [u64]s, numbers are well formed, and the prefix sum of each
    entry continues the entry before it. *)
Record series_ok (m : DataSeries) : Prop := {
  series_times : forall k dp, m !! k = Some dp -> 0 <= k <= U64_MAX;
  series_numbers : forall k dp, m !! k = Some dp ->
    signed_ok (prefix_sum dp) /\ signed_ok (dp_value dp);
  series_prefix : forall k dp r, m !! k = Some dp -> last_entry (before k) m = Some r ->
    sval (prefix_sum dp) = point_at (Some r) k;
}.

Lemma series_ok_empty : series_ok ∅.
Proof. split; intros *; by rewrite lookup_empty. Qed.

Lemma last_entry_ext P Q (m : DataSeries) :
  (forall k dp, m !! k = Some dp -> P k = Q k) -> last_entry P m = last_entry Q m.
Proof.
  intros HPQ. apply last_entry_unique. pose proof (last_entry_spec Q m) as H.
  destruct (last_entry Q m) as [[k dp]|]; simpl in *.
  - destruct H as (Hk & HQ & Hle). rewrite (HPQ k dp Hk). split_and!; try done.
    intros k' v' Hk' HP. rewrite (HPQ k' v' Hk') in HP. eauto.
  - intros k v Hk. rewrite (HPQ k v Hk). eauto.
Qed.

Lemma before_succ (m : DataSeries) t : last_entry (before (t + 1)) m = last_entry (until t) m.
Proof.
  apply last_entry_ext. intros k _ _. unfold before, until.
  destruct (Z.ltb_spec k (t + 1)), (Z.leb_spec k t); lia || done.
Qed.

(** The cumulative value is continuous: just before an entry it agrees. *)
Lemma cumulative_before m t r :
  series_ok m -> last_entry (before t) m = Some r -> point_at (Some r) t = cumulative m t.
Proof.
  intros Hok Hr. unfold cumulative. destruct (m !! t) as [dp|] eqn:Et.
  - assert (last_entry (until t) m = Some (t, dp)) as ->.
    { apply last_entry_Some. unfold until. rewrite Z.leb_refl. split_and!; try done.
      intros k' _ _ ?%Z.leb_le. done. }
    rewrite <- (series_prefix m Hok t dp r Et Hr). simpl. lia.
  - rewrite <- Hr. f_equal. apply last_entry_ext. intros k dp Hk. unfold before, until.
    destruct (Z.ltb_spec k t), (Z.leb_spec k t); try lia; try done.
    assert (k = t) as -> by lia. congruence.
Qed.

Lemma cumulative_succ m t :
  series_ok m -> is_Some (last_entry (until t) m) ->
  cumulative m (t + 1) = cumulative m t + rate m t.
Proof.
  intros Hok [[k dp] Hr]. rewrite <- (cumulative_before m (t + 1) (k, dp)); [|done|].
  - unfold cumulative, rate. rewrite Hr. simpl. lia.
  - by rewrite before_succ.
Qed.

Lemma last_entry_until_mono (m : DataSeries) t t' :
  t <= t' -> is_Some (last_entry (until t) m) -> is_Some (last_entry (until t') m).
Proof.
  intros Ht [[k dp] (Hk & Hle & _)%last_entry_Some].
  destruct (last_entry (until t') m) eqn:E; [done|].
  apply (proj1 (last_entry_None _ _)) with (k := k) (v := dp) in E; [|done].
  unfold until in *. apply Z.leb_le in Hle. apply Z.leb_gt in E. lia.
Qed.

Lemma integral_cumulative m t n :
  series_ok m -> is_Some (last_entry (until t) m) ->
  integral m t n = cumulative m (t + Z.of_nat n) - cumulative m t.
Proof.
  intros Hok. revert t. induction n as [|n IH]; intros t Ht.
  - change (Z.of_nat 0) with 0. rewrite Z.add_0_r, Z.sub_diag. done.
  - change (integral m t (S n)) with (rate m t + integral m (t + 1) n).
    rewrite IH by (eapply last_entry_until_mono; [|exact Ht]; lia).
    replace (t + 1 + Z.of_nat n) with (t + Z.of_nat (S n)) by lia.
    rewrite (cumulative_succ m t) by done. lia.
Qed.

Section Theory.
Context {CW : CosmwasmStd} {CWS : CosmwasmStdSpec CW}.

Lemma from_u64_ok n : 0 <= n <= U64_MAX -> is_dec (n * DEC_ONE).
Proof.
  intros Hn. split; [apply Z.mul_nonneg_nonneg; [lia|pose proof DEC_ONE_pos; lia]|].
  transitivity (U64_MAX * DEC_ONE); [|vm_compute; congruence].
  apply Z.mul_le_mono_nonneg_r; [pose proof DEC_ONE_pos|]; lia.
Qed.

Lemma number_from_u64_total n :
  0 <= n <= U64_MAX -> number_from_u64 n = Ok (new_positive (n * DEC_ONE)).
Proof.
  intros Hn. unfold number_from_u64, number_from_u128.
  assert (dec_from_ratio n 1 = Some (n * DEC_ONE)) as ->; [|done].
  apply dec_from_ratio_Some. rewrite Z.div_1_r. split; [done|]. split; [done|].
  by apply from_u64_ok.
Qed.

Lemma extend_ok dp elapsed r :
  signed_ok (prefix_sum dp) -> signed_ok (dp_value dp) -> 0 <= elapsed <= U64_MAX ->
  extend dp elapsed = Ok r ->
  sval r = sval (prefix_sum dp) + sval (dp_value dp) * elapsed /\ signed_ok r.
Proof.
  intros Hp Hv He. unfold extend, as_nanos. rewrite number_from_u64_total by done. simpl.
  intros (p & Hmul & H)%rbind_ok.
  rewrite number_checked_mul_fits in Hmul by auto using new_positive_ok, from_u64_ok.
  rewrite sval_new_positive, Z.mul_assoc, Z.quot_mul in Hmul
    by (pose proof DEC_ONE_pos; lia).
  apply signed_fits_ok in Hmul as [-> Hb].
  apply signed_checked_add_ok in H as [-> Hr]; [|done|by apply signed_of_ok].
  by rewrite sval_signed_of.
Qed.

Lemma any_entry_until (m : DataSeries) t k dp :
  try_load_last m = Some (k, dp) -> k <= t -> last_entry (until t) m = Some (k, dp).
Proof.
  intros (Hk & _ & Hmax)%last_entry_Some Hle. apply last_entry_Some. unfold until.
  split_and!; [done|by apply Z.leb_le|]. intros k' v' Hk' _. by apply (Hmax k' v').
Qed.

(** What [append] does to the entries, and to the cumulative value. *)
Lemma series_append_entries m t v m' :
  series_ok m -> 0 <= t <= U64_MAX -> signed_ok v -> series_append m t v = Ok m' ->
  exists ps, m' = <[t := mkDataPoint ps v]> m /\ signed_ok ps /\
    sval ps = cumulative m t /\ forall k dp, m !! k = Some dp -> k <= t.
Proof.
  intros Hok Ht Hv. unfold series_append. intros (ps & Hps & [= <-])%rbind_ok.
  exists ps. split; [done|]. destruct (try_load_last m) as [[k dp]|] eqn:El.
  - apply rbind_ok in Hps as (e & [-> Hle]%timestamp_checked_sub_ok & Hps).
    pose proof El as (Hk & _ & Hmax)%last_entry_Some.
    destruct (series_numbers m Hok k dp Hk) as [H1 H2].
    pose proof (series_times m Hok k dp Hk).
    apply extend_ok in Hps as [Hs Hn]; [|done|done|lia]. split_and!; [done| |].
    + rewrite Hs. unfold cumulative. by rewrite (any_entry_until m t k dp).
    + intros k' dp' Hk'. specialize (Hmax k' dp' Hk' eq_refl). lia.
  - injection Hps as <-.
    assert (forall k dp, m !! k = Some dp -> False) as Hnone.
    { intros k dp Hk. unfold try_load_last in El.
      apply (proj1 (last_entry_None _ _)) with (k := k) (v := dp) in El; done. }
    split_and!.
    + apply signed_zero_ok.
    + unfold cumulative. destruct (last_entry (until t) m) as [[k dp]|] eqn:E; [|done].
      apply last_entry_Some in E as (Hk & _). by destruct (Hnone k dp).
    + intros k dp Hk. by destruct (Hnone k dp).
Qed.

Lemma lookup_before_insert (m : DataSeries) t dp t' :
  t' <= t -> last_entry (before t') (<[t := dp]> m) = last_entry (before t') m.
Proof.
  intros Ht. apply last_entry_unique. pose proof (last_entry_spec (before t') m) as H.
  destruct (last_entry (before t') m) as [[k v]|]; simpl in *.
  - destruct H as (Hk & Hb & Hmax). unfold before in *. apply Z.ltb_lt in Hb as Hb'.
    rewrite lookup_insert_ne by lia. split_and!; try done.
    intros k' v' Hk' Hlt. apply Z.ltb_lt in Hlt as Hlt'.
    rewrite lookup_insert_ne in Hk' by lia. by apply (Hmax k' v').
  - intros k v Hk. destruct (before t' k) eqn:E; [|done].
    unfold before in E. apply Z.ltb_lt in E as E'. rewrite lookup_insert_ne in Hk by lia.
    specialize (H k v Hk). unfold before in H. congruence.
Qed.

Lemma series_append_ok m t v m' :
  series_ok m -> 0 <= t <= U64_MAX -> signed_ok v -> series_append m t v = Ok m' ->
  series_ok m' /\
  (forall t', rate m' t' = if t' <? t then rate m t' else sval v) /\
  (forall t', t' <= t -> cumulative m' t' = cumulative m t').
Proof.
  intros Hok Ht Hv H.
  destruct (series_append_entries m t v m' Hok Ht Hv H) as (ps & -> & Hps & Hcum & Hlast).
  assert (forall t', t <= t' ->
    last_entry (until t') (<[t := mkDataPoint ps v]> m) = Some (t, mkDataPoint ps v)) as Hnew.
  { intros t' Hle. apply last_entry_Some. rewrite lookup_insert_eq. unfold until.
    split_and!; [done|by apply Z.leb_le|]. intros k' v' Hk' _.
    destruct (decide (k' = t)) as [->|Hne]; [lia|].
    rewrite lookup_insert_ne in Hk' by done. by apply (Hlast k' v'). }
  assert (forall t', t' < t ->
    last_entry (until t') (<[t := mkDataPoint ps v]> m) = last_entry (until t') m) as Hold.
  { intros t' Hlt. rewrite <- !before_succ. apply lookup_before_insert. lia. }
  split_and!.
  - split.
    + intros k dp. rewrite lookup_insert_Some. intros [[<- _]|[_ Hk]]; [done|].
      by eapply series_times.
    + intros k dp. rewrite lookup_insert_Some. intros [[_ <-]|[_ Hk]]; [done|].
      by eapply series_numbers.
    + intros k dp r. rewrite lookup_insert_Some. intros [[<- <-]|[Hne Hk]] Hr.
      * rewrite lookup_before_insert in Hr by lia. simpl. rewrite Hcum.
        symmetry. by apply cumulative_before.
      * rewrite lookup_before_insert in Hr by by eapply Hlast.
        by eapply series_prefix.
  - intros t'. unfold rate. destruct (Z.ltb_spec t' t).
    + by rewrite Hold.
    + by rewrite Hnew.
  - intros t' Hle. unfold cumulative. destruct (decide (t' = t)) as [->|Hne].
    + rewrite Hnew by lia. simpl. fold (cumulative m t). lia.
    + by rewrite Hold by lia.
Qed.
End Theory.

(** * Properties *)

Section Properties.
Context {CW : CosmwasmStd} {CWS : CosmwasmStdSpec CW}.

(** C37: summing a series over a range gives exactly the integral of its step
    function, nanosecond by nanosecond, whatever entries lie at the ends. *)
Theorem series_sum_is_integral (m : DataSeries) (start end_ : Timestamp) (r : Number) :
  series_ok m -> 0 <= start <= end_ -> end_ <= U64_MAX ->
  series_sum m start end_ = Ok r ->
  sval r = integral m start (Z.to_nat (end_ - start)).
Proof.
  intros Hok Hse Hmax. unfold series_sum.
  intros ([ks dps] & Hs%of_option_ok & H)%rbind_ok.
  apply rbind_ok in H as ([ke dpe] & He%of_option_ok & H).
  apply rbind_ok in H as (es & [-> Hes]%timestamp_checked_sub_ok & H).
  apply rbind_ok in H as (ss & Hss & H).
  apply rbind_ok in H as (ee & [-> Hee]%timestamp_checked_sub_ok & H).
  apply rbind_ok in H as (se & Hse' & H).
  pose proof Hs as (Hks & _)%last_entry_Some. pose proof He as (Hke & _)%last_entry_Some.
  destruct (series_numbers m Hok ks dps Hks) as [Hp1 Hv1].
  destruct (series_numbers m Hok ke dpe Hke) as [Hp2 Hv2].
  pose proof (series_times m Hok ks dps Hks). pose proof (series_times m Hok ke dpe Hke).
  apply extend_ok in Hss as [Hss Hss']; [|done|done|lia].
  apply extend_ok in Hse' as [Hse' Hse'']; [|done|done|lia].
  apply signed_checked_sub_ok in H as [-> _]; [|done..].
  rewrite integral_cumulative by (try done; by eexists).
  rewrite Z2Nat.id by lia. replace (start + (end_ - start)) with end_ by lia.
  rewrite <- (cumulative_before m end_ (ke, dpe)) by done.
  unfold cumulative. rewrite Hs. simpl. lia.
Qed.

(** appending at a time keeps the series well formed, changes the step
    function from that time on (an entry at the same time is replaced), and
    leaves every sum up to it unchanged. *)
Theorem series_append_extends (m m' : DataSeries) (t : Timestamp) (v : Number) :
  series_ok m -> 0 <= t <= U64_MAX -> signed_ok v -> series_append m t v = Ok m' ->
  series_ok m' /\
  (forall t', rate m' t' = if t' <? t then rate m t' else sval v) /\
  (forall t', t' <= t -> cumulative m' t' = cumulative m t').
Proof. apply series_append_ok. Qed.
End Properties.

(** * Witnesses *)

Definition sample_series : DataSeries :=
  match series_append (CW:=cosmwasm_ref) ∅ 10 (mkSigned DEC_ONE false) with
  | Ok m => match series_append (CW:=cosmwasm_ref) m 20 (mkSigned DEC_ONE true) with
            | Ok m' => m'
            | Err _ => ∅
            end
  | Err _ => ∅
  end.

Lemma one_ok n : signed_ok (mkSigned DEC_ONE n).
Proof. split; [apply is_dec_one|done]. Qed.

Lemma sample_series_ok : series_ok sample_series.
Proof.
  unfold sample_series.
  destruct (series_append (CW:=cosmwasm_ref) ∅ 10 (mkSigned DEC_ONE false)) as [m|] eqn:E;
    [|apply series_ok_empty].
  apply (series_append_ok (CW:=cosmwasm_ref) (CWS:=cosmwasm_ref_spec)) in E as [Hm _];
    [|apply series_ok_empty|vm_compute; split; congruence|apply one_ok].
  destruct (series_append (CW:=cosmwasm_ref) m 20 (mkSigned DEC_ONE true)) as [m'|] eqn:E';
    [|apply series_ok_empty].
  by apply (series_append_ok (CW:=cosmwasm_ref) (CWS:=cosmwasm_ref_spec)) in E' as [Hm' _];
    [|done|vm_compute; split; congruence|apply one_ok].
Qed.

Lemma series_sum_is_integral_witness :
  integral sample_series 15 8 = 2 * DEC_ONE.
Proof.
  pose proof (series_sum_is_integral (CW:=cosmwasm_ref) (CWS:=cosmwasm_ref_spec) sample_series
    15 23 (mkSigned (2 * DEC_ONE) false) sample_series_ok ltac:(lia)
    ltac:(vm_compute; congruence) ltac:(vm_compute; reflexivity)) as H.
  exact (eq_sym H).
Defined.

Lemma series_append_extends_witness :
  exists m, series_append (CW:=cosmwasm_ref) sample_series 30 (mkSigned DEC_ONE false) = Ok m /\
    rate m 35 = DEC_ONE.
Proof.
  destruct (is_ok_Ok (series_append (CW:=cosmwasm_ref) sample_series 30 (mkSigned DEC_ONE false)))
    as [m Hm]; [vm_compute; reflexivity|].
  exists m. split; [exact Hm|].
  assert (0 <= 30 <= U64_MAX) as Ht by (split; [lia|vm_compute; congruence]).
  destruct (series_append_extends (CW:=cosmwasm_ref) (CWS:=cosmwasm_ref_spec) sample_series m 30
    (mkSigned DEC_ONE false) sample_series_ok Ht (one_ok false) Hm) as (_ & Hr & _).
  rewrite Hr. reflexivity.
Defined.
