(* ===== verification/Config.v ===== *)
(** * Market configuration

    [packages/perpswap/src/contracts/market/{config,config/defaults,spot_price}.rs]
    and [contracts/market/src/state/config.rs]: the configuration of a market,
    its defaults, the validation, and updating it.  The [...Init] message types
    differ from the stored ones only in carrying addresses that have not been
    validated; addresses are strings in both cases, so one type serves. *)

From stdpp Require Import base option strings list.
From Stdlib Require Import ZArith Lia.
From S2P Require Import Prelude Cosmwasm Types Number.
Local Open Scope Z_scope.

Abbreviation u32 := Z (only parsing).

(** ** Spot price configuration *)

Inductive PythPriceServiceNetwork := PythStable | PythEdge.
Record PythConfig := mkPythConfig {
  pyth_contract_address : Addr; pyth_network : PythPriceServiceNetwork }.
Record StrideConfig := mkStrideConfig { stride_contract_address : Addr }.

(** The Pyth price identifier is an opaque string of bytes. *)
Inductive SpotPriceFeedData :=
| FeedConstant (price : Decimal256)
| FeedPyth (id : string) (age_tolerance_seconds : u32)
| FeedStride (denom : string) (age_tolerance_seconds : u32)
| FeedSei (denom : string)
| FeedRujira (asset : string)
| FeedSimple (contract : Addr) (age_tolerance_seconds : u32).

Record SpotPriceFeed := mkSpotPriceFeed {
  feed_data : SpotPriceFeedData; inverted : bool; volatile : option bool }.

Inductive SpotPriceConfig :=
| SpotManual (admin : Addr)
| SpotOracle (pyth : option PythConfig) (stride : option StrideConfig)
    (feeds feeds_usd : list SpotPriceFeed) (volatile_diff_seconds : option u32).

(** ** [struct Config] *)

Inductive MaxLiquidity := MaxUnlimited | MaxUsd (amount : Usd).

(** The fields kept for historical migrations only ([_unused1] to [_unused4])
    are left out. *)
Record Config := mkConfig {
  trading_fee_notional_size : Decimal256;
  trading_fee_counter_collateral : Decimal256;
  crank_execs : u32;
  max_leverage : Number;
  funding_rate_sensitivity : Decimal256;
  funding_rate_max_annualized : Decimal256;
  borrow_fee_rate_min_annualized : Decimal256;
  borrow_fee_rate_max_annualized : Decimal256;
  carry_leverage : Decimal256;
  mute_events : bool;
  liquifunding_delay_seconds : u32;
  protocol_tax : Decimal256;
  unstake_period_seconds : u32;
  target_utilization : Decimal256;
  borrow_fee_sensitivity : Decimal256;
  max_xlp_rewards_multiplier : Decimal256;
  min_xlp_rewards_multiplier : Decimal256;
  delta_neutrality_fee_sensitivity : Decimal256;
  delta_neutrality_fee_cap : Decimal256;
  delta_neutrality_fee_tax : Decimal256;
  crank_fee_charged : Usd;
  crank_fee_surcharge : Usd;
  crank_fee_reward : Usd;
  minimum_deposit_usd : Usd;
  liquifunding_delay_fuzz_seconds : u32;
  max_liquidity : MaxLiquidity;
  disable_position_nft_exec : bool;
  liquidity_cooldown_seconds : u32;
  exposure_margin_ratio : Decimal256;
  referral_reward_ratio : Decimal256;
  spot_price : SpotPriceConfig;
}.

(** [Config::new] with the values of [ConfigDefaults], in atomics. *)
Definition config_new (spot : SpotPriceConfig) : Config := {|
  trading_fee_notional_size := 1000000000000000;
  trading_fee_counter_collateral := 1000000000000000;
  crank_execs := 7;
  max_leverage := mkSigned (30 * DEC_ONE) false;
  funding_rate_sensitivity := 10 * DEC_ONE;
  funding_rate_max_annualized := 900000000000000000;
  borrow_fee_rate_min_annualized := 10000000000000000;
  borrow_fee_rate_max_annualized := 600000000000000000;
  carry_leverage := 10 * DEC_ONE;
  mute_events := false;
  liquifunding_delay_seconds := 60 * 60 * 24;
  protocol_tax := 300000000000000000;
  unstake_period_seconds := 60 * 60 * 24 * 45;
  target_utilization := 800000000000000000;
  borrow_fee_sensitivity := DEC_ONE * DEC_ONE / (12 * DEC_ONE);
  max_xlp_rewards_multiplier := 2 * DEC_ONE;
  min_xlp_rewards_multiplier := DEC_ONE;
  delta_neutrality_fee_sensitivity := 50000000 * DEC_ONE;
  delta_neutrality_fee_cap := 5000000000000000;
  delta_neutrality_fee_tax := 50000000000000000;
  crank_fee_charged := 100000000000000000;
  crank_fee_surcharge := 80000000000000000;
  crank_fee_reward := 90000000000000000;
  minimum_deposit_usd := 5 * DEC_ONE;
  liquifunding_delay_fuzz_seconds := 60 * 60;
  max_liquidity := MaxUnlimited;
  disable_position_nft_exec := false;
  liquidity_cooldown_seconds := 60 * 60;
  exposure_margin_ratio := 5000000000000000;
  referral_reward_ratio := 50000000000000000;
  spot_price := spot;
|}.

(** ** [struct ConfigUpdate]: the same fields, each optional *)

Record ConfigUpdate := mkConfigUpdate {
  u_trading_fee_notional_size : option Decimal256;
  u_trading_fee_counter_collateral : option Decimal256;
  u_crank_execs : option u32;
  u_max_leverage : option Number;
  u_carry_leverage : option Decimal256;
  u_funding_rate_sensitivity : option Decimal256;
  u_funding_rate_max_annualized : option Decimal256;
  u_borrow_fee_rate_min_annualized : option Decimal256;
  u_borrow_fee_rate_max_annualized : option Decimal256;
  u_mute_events : option bool;
  u_liquifunding_delay_seconds : option u32;
  u_protocol_tax : option Decimal256;
  u_unstake_period_seconds : option u32;
  u_target_utilization : option Decimal256;
  u_borrow_fee_sensitivity : option Decimal256;
  u_max_xlp_rewards_multiplier : option Decimal256;
  u_min_xlp_rewards_multiplier : option Decimal256;
  u_delta_neutrality_fee_sensitivity : option Decimal256;
  u_delta_neutrality_fee_cap : option Decimal256;
  u_delta_neutrality_fee_tax : option Decimal256;
  u_crank_fee_charged : option Usd;
  u_crank_fee_surcharge : option Usd;
  u_crank_fee_reward : option Usd;
  u_minimum_deposit_usd : option Usd;
  u_liquifunding_delay_fuzz_seconds : option u32;
  u_max_liquidity : option MaxLiquidity;
  u_disable_position_nft_exec : option bool;
  u_liquidity_cooldown_seconds : option u32;
  u_spot_price : option SpotPriceConfig;
  u_exposure_margin_ratio : option Decimal256;
  u_referral_reward_ratio : option Decimal256;
}.

(** [ConfigUpdate::default()]. *)
Definition config_update_default : ConfigUpdate :=
  mkConfigUpdate None None None None None None None None None None None None None None None None
    None None None None None None None None None None None None None None None.

Section Definitions.
Context {CW : CosmwasmStd}.

(** [bail!(PerpError::market(ErrorId::Config, ..))] when the condition holds. *)
Definition reject_if (b : bool) : res unit := ensure (negb b) (perp_market ConfigId).

(** ["0.0999".parse()]. *)
Definition FEE_LIMIT : Decimal256 := 99900000000000000.

Definition config_validate (self : Config) : res unit :=
  _ <- reject_if (FEE_LIMIT <=? trading_fee_notional_size self);
  _ <- reject_if (FEE_LIMIT <=? trading_fee_counter_collateral self);
  _ <- reject_if (crank_execs self =? 0);
  _ <- reject_if (signed_leb (max_leverage self) NUMBER_ONE);
  _ <- reject_if (carry_leverage self <=? DEC_ONE);
  carry_plus_one <- signed_checked_add (into_signed (carry_leverage self)) NUMBER_ONE;
  _ <- reject_if (signed_gtb carry_plus_one (max_leverage self));
  _ <- reject_if (borrow_fee_rate_max_annualized self <? borrow_fee_rate_min_annualized self);
  _ <- reject_if (DEC_ONE <=? protocol_tax self);
  _ <- reject_if (unstake_period_seconds self =? 0);
  _ <- reject_if (negb (signed_ltb (into_signed (target_utilization self)) NUMBER_ONE));
  _ <- reject_if (signed_ltb (into_signed (min_xlp_rewards_multiplier self)) NUMBER_ONE);
  _ <- reject_if (max_xlp_rewards_multiplier self <? min_xlp_rewards_multiplier self);
  _ <- reject_if (crank_fee_charged self <? crank_fee_reward self);
  _ <- reject_if (DEC_ONE <? delta_neutrality_fee_tax self);
  _ <- reject_if (liquifunding_delay_seconds self <=? liquifunding_delay_fuzz_seconds self);
  _ <- reject_if (DEC_ONE <=? exposure_margin_ratio self);
  reject_if (DEC_ONE <=? referral_reward_ratio self).

(** [RawAddr::validate]. *)
Definition config_addr (a : RawAddr) : res Addr := std (addr_validate a).

Definition convert_feed (f : SpotPriceFeed) : res SpotPriceFeed :=
  match feed_data f with
  | FeedSimple contract age =>
      a <- config_addr contract; Ok (mkSpotPriceFeed (FeedSimple a age) (inverted f) (volatile f))
  | _ => Ok f
  end.

Fixpoint map_feeds (feeds : list SpotPriceFeed) : res (list SpotPriceFeed) :=
  match feeds with
  | [] => Ok []
  | f :: rest => f' <- convert_feed f; rest' <- map_feeds rest; Ok (f' :: rest')
  end.

Definition convert_spot_price_init (init : SpotPriceConfig) : res SpotPriceConfig :=
  match init with
  | SpotManual admin => a <- config_addr admin; Ok (SpotManual a)
  | SpotOracle pyth stride feeds feeds_usd diff =>
      _ <- ensure (negb (is_empty feeds)) (AnyhowError "feeds cannot be empty");
      _ <- ensure (negb (is_empty feeds_usd)) (AnyhowError "feeds_usd cannot be empty");
      pyth' <- match pyth with
               | Some p => a <- config_addr (pyth_contract_address p);
                           Ok (Some (mkPythConfig a (pyth_network p)))
               | None => Ok None
               end;
      stride' <- match stride with
                 | Some s => a <- config_addr (stride_contract_address s);
                             Ok (Some (mkStrideConfig a))
                 | None => Ok None
                 end;
      feeds' <- map_feeds feeds;
      feeds_usd' <- map_feeds feeds_usd;
      Ok (SpotOracle pyth' stride' feeds' feeds_usd' diff)
  end.

(** [update_config]: the configuration it saves. *)
Definition update_config (c : Config) (u : ConfigUpdate) : res Config :=
  spot <- match u_spot_price u with
          | Some x => convert_spot_price_init x
          | None => Ok (spot_price c)
          end;
  let c' := {|
    trading_fee_notional_size :=
      default (trading_fee_notional_size c) (u_trading_fee_notional_size u);
    trading_fee_counter_collateral :=
      default (trading_fee_counter_collateral c) (u_trading_fee_counter_collateral u);
    crank_execs := default (crank_execs c) (u_crank_execs u);
    max_leverage := default (max_leverage c) (u_max_leverage u);
    funding_rate_sensitivity :=
      default (funding_rate_sensitivity c) (u_funding_rate_sensitivity u);
    funding_rate_max_annualized :=
      default (funding_rate_max_annualized c) (u_funding_rate_max_annualized u);
    borrow_fee_rate_min_annualized :=
      default (borrow_fee_rate_min_annualized c) (u_borrow_fee_rate_min_annualized u);
    borrow_fee_rate_max_annualized :=
      default (borrow_fee_rate_max_annualized c) (u_borrow_fee_rate_max_annualized u);
    carry_leverage := default (carry_leverage c) (u_carry_leverage u);
    mute_events := default (mute_events c) (u_mute_events u);
    liquifunding_delay_seconds :=
      default (liquifunding_delay_seconds c) (u_liquifunding_delay_seconds u);
    protocol_tax := default (protocol_tax c) (u_protocol_tax u);
    unstake_period_seconds := default (unstake_period_seconds c) (u_unstake_period_seconds u);
    target_utilization := default (target_utilization c) (u_target_utilization u);
    borrow_fee_sensitivity := default (borrow_fee_sensitivity c) (u_borrow_fee_sensitivity u);
    max_xlp_rewards_multiplier :=
      default (max_xlp_rewards_multiplier c) (u_max_xlp_rewards_multiplier u);
    min_xlp_rewards_multiplier :=
      default (min_xlp_rewards_multiplier c) (u_min_xlp_rewards_multiplier u);
    delta_neutrality_fee_sensitivity :=
      default (delta_neutrality_fee_sensitivity c) (u_delta_neutrality_fee_sensitivity u);
    delta_neutrality_fee_cap := default (delta_neutrality_fee_cap c) (u_delta_neutrality_fee_cap u);
    delta_neutrality_fee_tax := default (delta_neutrality_fee_tax c) (u_delta_neutrality_fee_tax u);
    crank_fee_charged := default (crank_fee_charged c) (u_crank_fee_charged u);
    crank_fee_surcharge := default (crank_fee_surcharge c) (u_crank_fee_surcharge u);
    crank_fee_reward := default (crank_fee_reward c) (u_crank_fee_reward u);
    minimum_deposit_usd := default (minimum_deposit_usd c) (u_minimum_deposit_usd u);
    liquifunding_delay_fuzz_seconds :=
      default (liquifunding_delay_fuzz_seconds c) (u_liquifunding_delay_fuzz_seconds u);
    max_liquidity := default (max_liquidity c) (u_max_liquidity u);
    disable_position_nft_exec :=
      default (disable_position_nft_exec c) (u_disable_position_nft_exec u);
    liquidity_cooldown_seconds :=
      default (liquidity_cooldown_seconds c) (u_liquidity_cooldown_seconds u);
    exposure_margin_ratio := default (exposure_margin_ratio c) (u_exposure_margin_ratio u);
    referral_reward_ratio := default (referral_reward_ratio c) (u_referral_reward_ratio u);
    spot_price := spot;
  |} in
  _ <- config_validate c';
  Ok c'.

Definition config_init (config : option ConfigUpdate) (spot : SpotPriceConfig) : res Config :=
  s <- convert_spot_price_init spot;
  update_config (config_new s) (default config_update_default config).

End Definitions.

(** * Theory *)

(** What the rest of the market relies on, on values. *)
Record config_valid (c : Config) : Prop := {
  cv_fees : trading_fee_notional_size c < FEE_LIMIT /\
            trading_fee_counter_collateral c < FEE_LIMIT;
  cv_crank : crank_execs c <> 0 /\ unstake_period_seconds c <> 0;
  cv_leverage : DEC_ONE < carry_leverage c /\
                carry_leverage c + DEC_ONE <= sval (max_leverage c);
  cv_borrow : borrow_fee_rate_min_annualized c <= borrow_fee_rate_max_annualized c;
  cv_tax : protocol_tax c < DEC_ONE /\ delta_neutrality_fee_tax c <= DEC_ONE;
  cv_utilization : target_utilization c < DEC_ONE;
  cv_xlp : DEC_ONE <= min_xlp_rewards_multiplier c <= max_xlp_rewards_multiplier c;
  cv_crank_fee : crank_fee_reward c <= crank_fee_charged c;
  cv_liquifunding : liquifunding_delay_fuzz_seconds c < liquifunding_delay_seconds c;
  cv_ratios : exposure_margin_ratio c < DEC_ONE /\ referral_reward_ratio c < DEC_ONE;
}.

(** The numbers of a configuration are decimals (its type). *)
Record config_typed (c : Config) : Prop := {
  ct_max_leverage : signed_ok (max_leverage c);
  ct_carry : is_dec (carry_leverage c);
  ct_target : is_dec (target_utilization c);
  ct_min_xlp : is_dec (min_xlp_rewards_multiplier c);
}.

Section Theory.
Context {CW : CosmwasmStd} {CWS : CosmwasmStdSpec CW}.

Lemma NUMBER_ONE_signed_ok : signed_ok NUMBER_ONE.
Proof. split; [apply is_dec_one|done]. Qed.

Lemma reject_if_ok b u : reject_if b = Ok u <-> b = false.
Proof. unfold reject_if. rewrite ensure_ok. apply negb_true_iff. Qed.

Lemma reject_if_bind {A} b (k : unit -> res A) a :
  rbind (reject_if b) k = Ok a <-> b = false /\ k tt = Ok a.
Proof.
  rewrite rbind_ok. setoid_rewrite reject_if_ok. split; [intros ([] & ?); done|].
  intros ?. by exists tt.
Qed.

Lemma carry_plus_one_bind {A} c (k : Signed -> res A) a :
  config_typed c ->
  (rbind (signed_checked_add (into_signed (carry_leverage c)) NUMBER_ONE) k = Ok a <->
   carry_leverage c + DEC_ONE <= U256_MAX /\
   k (signed_of (carry_leverage c + DEC_ONE)) = Ok a).
Proof.
  intros Hc. rewrite signed_checked_add_fits
    by (apply into_signed_ok, Hc || apply NUMBER_ONE_signed_ok).
  rewrite sval_into_signed, rbind_ok. setoid_rewrite signed_fits_ok.
  change (sval NUMBER_ONE) with DEC_ONE.
  destruct (ct_carry c Hc). pose proof DEC_ONE_pos. unfold is_dec. split.
  - intros (r & [-> ?] & ?). split; [lia|done].
  - intros [? ?]. eexists. split; [split; [done|lia]|done].
Qed.

Lemma config_validate_iff c :
  config_typed c -> (config_validate c = Ok tt <-> config_valid c).
Proof.
  intros Hc. destruct (ct_carry c Hc) as [Hcarry _]. pose proof DEC_ONE_pos as HD.
  unfold config_validate.
  rewrite !reject_if_bind, carry_plus_one_bind, !reject_if_bind, reject_if_ok by done.
  rewrite !signed_leb_sval by (apply Hc || apply NUMBER_ONE_signed_ok).
  rewrite !signed_ltb_sval, !sval_into_signed
    by (apply into_signed_ok, Hc || apply NUMBER_ONE_signed_ok).
  change (sval NUMBER_ONE) with DEC_ONE.
  assert (carry_leverage c + DEC_ONE <= U256_MAX ->
    signed_gtb (signed_of (carry_leverage c + DEC_ONE)) (max_leverage c) =
    (sval (max_leverage c) <? carry_leverage c + DEC_ONE)) as Hgt.
  { intros Hb. rewrite signed_gtb_sval, sval_signed_of; [done| |apply Hc].
    apply signed_of_ok. unfold is_dec. lia. }
  assert (sval (max_leverage c) <= U256_MAX) as Hmax.
  { destruct (ct_max_leverage c Hc) as [[? ?] _]. unfold sval.
    destruct (negative (max_leverage c)); lia. }
  rewrite !Z.leb_gt, !Z.eqb_neq, !Z.ltb_ge, !negb_false_iff, !Z.ltb_lt. split.
  - intros (? & ? & ? & ? & ? & Hb & H & ?). rewrite Hgt in H by done.
    apply Z.ltb_ge in H. split; lia.
  - intros []. destruct_and?. rewrite Hgt by lia. rewrite Z.ltb_ge. split_and!; done || lia.
Qed.
(** The empty update only validates. *)
Lemma update_config_default c :
  update_config c config_update_default = (_ <- config_validate c; Ok c).
Proof. by destruct c. Qed.

Lemma config_new_valid admin : config_validate (config_new (SpotManual admin)) = Ok tt.
Proof.
  apply config_validate_iff; split; vm_compute; repeat split; congruence.
Qed.
End Theory.

(** * Properties *)

Section Properties.
Context {CW : CosmwasmStd} {CWS : CosmwasmStdSpec CW}.

(** Validation accepts a configuration exactly when it satisfies the
    bounds the market relies on: fees below the limit, a protocol tax below
    one, a target utilisation below one, ordered borrow rates and xLP
    multipliers, crank rewards covered by crank fees, room for the carry
    leverage, and a liquifunding fuzz shorter than the delay. *)
Theorem config_validate_correct (c : Config) :
  config_typed c -> (config_validate c = Ok tt <-> config_valid c).
Proof. apply config_validate_iff. Qed.

(** a stored configuration is always valid: an update is saved only if
    the configuration it produces is, a field is the update's where it has one
    and the old one otherwise (stated for the tax, the leverage limit and the
    cooldown), and the defaults are accepted with a manual price admin. *)
Theorem update_config_valid (c c' : Config) (u : ConfigUpdate) :
  (update_config c u = Ok c' -> config_typed c' ->
   config_valid c' /\
   protocol_tax c' = default (protocol_tax c) (u_protocol_tax u) /\
   max_leverage c' = default (max_leverage c) (u_max_leverage u) /\
   liquidity_cooldown_seconds c' =
     default (liquidity_cooldown_seconds c) (u_liquidity_cooldown_seconds u)) /\
  (forall admin, addr_validate admin = Some admin ->
   config_init None (SpotManual admin) = Ok (config_new (SpotManual admin))).
Proof.
  split.
  - unfold update_config. intros (spot & _ & H)%rbind_ok Ht.
    apply rbind_ok in H as ([] & Hv & [= <-]).
    by rewrite config_validate_iff in Hv.
  - intros admin Ha. unfold config_init, convert_spot_price_init, config_addr. rewrite Ha.
    change (update_config (config_new (SpotManual admin)) config_update_default =
            Ok (config_new (SpotManual admin))).
    by rewrite update_config_default, config_new_valid.
Qed.
End Properties.

(** * Witnesses *)

Definition sample_config : Config := config_new (SpotManual "admin").
Lemma sample_config_typed : config_typed sample_config.
Proof. split; vm_compute; repeat split; congruence. Qed.

Lemma config_validate_correct_witness : config_valid sample_config.
Proof.
  apply (config_validate_correct (CW:=cosmwasm_ref) (CWS:=cosmwasm_ref_spec) sample_config
    sample_config_typed).
  vm_compute. reflexivity.
Defined.

Lemma update_config_valid_witness :
  config_init (CW:=cosmwasm_ref) None (SpotManual "admin") = Ok sample_config.
Proof.
  apply (update_config_valid (CW:=cosmwasm_ref) (CWS:=cosmwasm_ref_spec)
    sample_config sample_config config_update_default).
  vm_compute. reflexivity.
Defined.
