(* ===== verification/Position.v ===== *)
(** * Positions

    [packages/perpswap/src/contracts/market/position.rs],
    [position/{closed,collateral_and_usd}.rs] and [perpswap/src/compat.rs]: the
    record of an open position, the margins and prices derived from it, and
    the settlement of a price movement between the trader's and the liquidity
    pool's collateral. *)

From stdpp Require Import base option strings.
From Stdlib Require Import ZArith Lia.
From S2P Require Import Prelude Cosmwasm Types Number Time Price Config.
Local Open Scope Z_scope.

(** ** Collateral tracked together with its USD value *)

Record CollateralAndUsd := mkCollateralAndUsd { cu_collateral : Collateral; cu_usd : Usd }.
Record SignedCollateralAndUsd := mkSignedCollateralAndUsd {
  scu_collateral : Signed; scu_usd : Signed }.

Record LiquidationMargin := mkLiquidationMargin {
  margin_borrow : Collateral;
  margin_funding : Collateral;
  margin_delta_neutrality : Collateral;
  margin_crank : Collateral;
  margin_exposure : Collateral;
}.

(** [PositionId] wraps a [Uint64]. *)
Abbreviation PositionId := Z (only parsing).

Record Position := mkPosition {
  pos_owner : Addr;
  pos_id : PositionId;
  deposit_collateral : SignedCollateralAndUsd;
  active_collateral : Collateral;
  counter_collateral : Collateral;
  notional_size : Signed;
  created_at : Timestamp;
  price_point_created_at : option Timestamp;
  pos_trading_fee : CollateralAndUsd;
  funding_fee : SignedCollateralAndUsd;
  borrow_fee : CollateralAndUsd;
  pos_crank_fee : CollateralAndUsd;
  delta_neutrality_fee : SignedCollateralAndUsd;
  liquifunded_at : Timestamp;
  next_liquifunding : Timestamp;
  stop_loss_override : option PriceBaseInQuote;
  stop_loss_override_notional : option Price;
  pos_liquidation_price : option Price;
  pos_liquidation_margin : LiquidationMargin;
  take_profit_trader : option TakeProfitTrader;
  take_profit_trader_notional : option Price;
  take_profit_total : option Price;
}.

Inductive LiquidationReason := LiqLiquidated | LiqMaxGains | LiqStopLoss | LiqTakeProfit.
Inductive PositionCloseReason := CloseLiquidated (r : LiquidationReason) | CloseDirect.

Record ClosePositionInstructions := mkClosePosition {
  close_pos : Position;
  capped_exposure : Signed;
  additional_losses : Collateral;
  settlement_price : PricePoint;
  close_reason : PositionCloseReason;
  closed_during_liquifunding : bool;
}.

Inductive MaybeClosedPosition :=
| PosOpen (p : Position)
| PosClose (i : ClosePositionInstructions).

Definition maybe_closed_position (m : MaybeClosedPosition) : Position :=
  match m with PosOpen p => p | PosClose i => close_pos i end.

(** Field updates. *)
Definition set_collaterals (p : Position) (active counter : Collateral) : Position :=
  mkPosition (pos_owner p) (pos_id p) (deposit_collateral p) active counter (notional_size p)
    (created_at p) (price_point_created_at p) (pos_trading_fee p) (funding_fee p) (borrow_fee p)
    (pos_crank_fee p) (delta_neutrality_fee p) (liquifunded_at p) (next_liquifunding p)
    (stop_loss_override p) (stop_loss_override_notional p) (pos_liquidation_price p)
    (pos_liquidation_margin p) (take_profit_trader p) (take_profit_trader_notional p)
    (take_profit_total p).
Definition set_delta_neutrality_fee (p : Position) (fee : SignedCollateralAndUsd) : Position :=
  mkPosition (pos_owner p) (pos_id p) (deposit_collateral p) (active_collateral p)
    (counter_collateral p) (notional_size p) (created_at p) (price_point_created_at p)
    (pos_trading_fee p) (funding_fee p) (borrow_fee p) (pos_crank_fee p) fee (liquifunded_at p)
    (next_liquifunding p) (stop_loss_override p) (stop_loss_override_notional p)
    (pos_liquidation_price p) (pos_liquidation_margin p) (take_profit_trader p)
    (take_profit_trader_notional p) (take_profit_total p).
Definition set_accrued_fees (p : Position) (funding : SignedCollateralAndUsd)
    (borrow crank : CollateralAndUsd) : Position :=
  mkPosition (pos_owner p) (pos_id p) (deposit_collateral p) (active_collateral p)
    (counter_collateral p) (notional_size p) (created_at p) (price_point_created_at p)
    (pos_trading_fee p) funding borrow crank (delta_neutrality_fee p) (liquifunded_at p)
    (next_liquifunding p) (stop_loss_override p) (stop_loss_override_notional p)
    (pos_liquidation_price p) (pos_liquidation_margin p) (take_profit_trader p)
    (take_profit_trader_notional p) (take_profit_total p).
Definition set_pos_owner (v : Addr) (p : Position) : Position :=
  mkPosition v (pos_id p) (deposit_collateral p) (active_collateral p) (counter_collateral p)
    (notional_size p) (created_at p) (price_point_created_at p) (pos_trading_fee p)
    (funding_fee p) (borrow_fee p) (pos_crank_fee p) (delta_neutrality_fee p) (liquifunded_at p)
    (next_liquifunding p) (stop_loss_override p) (stop_loss_override_notional p)
    (pos_liquidation_price p) (pos_liquidation_margin p) (take_profit_trader p)
    (take_profit_trader_notional p) (take_profit_total p).
Definition set_deposit_collateral (v : SignedCollateralAndUsd) (p : Position) : Position :=
  mkPosition (pos_owner p) (pos_id p) v (active_collateral p) (counter_collateral p)
    (notional_size p) (created_at p) (price_point_created_at p) (pos_trading_fee p)
    (funding_fee p) (borrow_fee p) (pos_crank_fee p) (delta_neutrality_fee p) (liquifunded_at p)
    (next_liquifunding p) (stop_loss_override p) (stop_loss_override_notional p)
    (pos_liquidation_price p) (pos_liquidation_margin p) (take_profit_trader p)
    (take_profit_trader_notional p) (take_profit_total p).
Definition set_active_collateral (v : Collateral) (p : Position) : Position :=
  mkPosition (pos_owner p) (pos_id p) (deposit_collateral p) v (counter_collateral p)
    (notional_size p) (created_at p) (price_point_created_at p) (pos_trading_fee p)
    (funding_fee p) (borrow_fee p) (pos_crank_fee p) (delta_neutrality_fee p) (liquifunded_at p)
    (next_liquifunding p) (stop_loss_override p) (stop_loss_override_notional p)
    (pos_liquidation_price p) (pos_liquidation_margin p) (take_profit_trader p)
    (take_profit_trader_notional p) (take_profit_total p).
Definition set_counter_collateral (v : Collateral) (p : Position) : Position :=
  mkPosition (pos_owner p) (pos_id p) (deposit_collateral p) (active_collateral p) v
    (notional_size p) (created_at p) (price_point_created_at p) (pos_trading_fee p)
    (funding_fee p) (borrow_fee p) (pos_crank_fee p) (delta_neutrality_fee p) (liquifunded_at p)
    (next_liquifunding p) (stop_loss_override p) (stop_loss_override_notional p)
    (pos_liquidation_price p) (pos_liquidation_margin p) (take_profit_trader p)
    (take_profit_trader_notional p) (take_profit_total p).
Definition set_notional_size (v : Signed) (p : Position) : Position :=
  mkPosition (pos_owner p) (pos_id p) (deposit_collateral p) (active_collateral p)
    (counter_collateral p) v (created_at p) (price_point_created_at p) (pos_trading_fee p)
    (funding_fee p) (borrow_fee p) (pos_crank_fee p) (delta_neutrality_fee p) (liquifunded_at p)
    (next_liquifunding p) (stop_loss_override p) (stop_loss_override_notional p)
    (pos_liquidation_price p) (pos_liquidation_margin p) (take_profit_trader p)
    (take_profit_trader_notional p) (take_profit_total p).
Definition set_pos_trading_fee (v : CollateralAndUsd) (p : Position) : Position :=
  mkPosition (pos_owner p) (pos_id p) (deposit_collateral p) (active_collateral p)
    (counter_collateral p) (notional_size p) (created_at p) (price_point_created_at p) v
    (funding_fee p) (borrow_fee p) (pos_crank_fee p) (delta_neutrality_fee p) (liquifunded_at p)
    (next_liquifunding p) (stop_loss_override p) (stop_loss_override_notional p)
    (pos_liquidation_price p) (pos_liquidation_margin p) (take_profit_trader p)
    (take_profit_trader_notional p) (take_profit_total p).
Definition set_pos_crank_fee (v : CollateralAndUsd) (p : Position) : Position :=
  mkPosition (pos_owner p) (pos_id p) (deposit_collateral p) (active_collateral p)
    (counter_collateral p) (notional_size p) (created_at p) (price_point_created_at p)
    (pos_trading_fee p) (funding_fee p) (borrow_fee p) v (delta_neutrality_fee p)
    (liquifunded_at p) (next_liquifunding p) (stop_loss_override p)
    (stop_loss_override_notional p) (pos_liquidation_price p) (pos_liquidation_margin p)
    (take_profit_trader p) (take_profit_trader_notional p) (take_profit_total p).
Definition set_liquifunded_at (v : Timestamp) (p : Position) : Position :=
  mkPosition (pos_owner p) (pos_id p) (deposit_collateral p) (active_collateral p)
    (counter_collateral p) (notional_size p) (created_at p) (price_point_created_at p)
    (pos_trading_fee p) (funding_fee p) (borrow_fee p) (pos_crank_fee p)
    (delta_neutrality_fee p) v (next_liquifunding p) (stop_loss_override p)
    (stop_loss_override_notional p) (pos_liquidation_price p) (pos_liquidation_margin p)
    (take_profit_trader p) (take_profit_trader_notional p) (take_profit_total p).
Definition set_pos_next_liquifunding (v : Timestamp) (p : Position) : Position :=
  mkPosition (pos_owner p) (pos_id p) (deposit_collateral p) (active_collateral p)
    (counter_collateral p) (notional_size p) (created_at p) (price_point_created_at p)
    (pos_trading_fee p) (funding_fee p) (borrow_fee p) (pos_crank_fee p)
    (delta_neutrality_fee p) (liquifunded_at p) v (stop_loss_override p)
    (stop_loss_override_notional p) (pos_liquidation_price p) (pos_liquidation_margin p)
    (take_profit_trader p) (take_profit_trader_notional p) (take_profit_total p).
Definition set_pos_liquidation_price (v : option Price) (p : Position) : Position :=
  mkPosition (pos_owner p) (pos_id p) (deposit_collateral p) (active_collateral p)
    (counter_collateral p) (notional_size p) (created_at p) (price_point_created_at p)
    (pos_trading_fee p) (funding_fee p) (borrow_fee p) (pos_crank_fee p)
    (delta_neutrality_fee p) (liquifunded_at p) (next_liquifunding p) (stop_loss_override p)
    (stop_loss_override_notional p) v (pos_liquidation_margin p) (take_profit_trader p)
    (take_profit_trader_notional p) (take_profit_total p).
Definition set_pos_liquidation_margin (v : LiquidationMargin) (p : Position) : Position :=
  mkPosition (pos_owner p) (pos_id p) (deposit_collateral p) (active_collateral p)
    (counter_collateral p) (notional_size p) (created_at p) (price_point_created_at p)
    (pos_trading_fee p) (funding_fee p) (borrow_fee p) (pos_crank_fee p)
    (delta_neutrality_fee p) (liquifunded_at p) (next_liquifunding p) (stop_loss_override p)
    (stop_loss_override_notional p) (pos_liquidation_price p) v (take_profit_trader p)
    (take_profit_trader_notional p) (take_profit_total p).
Definition set_take_profit_total (v : option Price) (p : Position) : Position :=
  mkPosition (pos_owner p) (pos_id p) (deposit_collateral p) (active_collateral p)
    (counter_collateral p) (notional_size p) (created_at p) (price_point_created_at p)
    (pos_trading_fee p) (funding_fee p) (borrow_fee p) (pos_crank_fee p)
    (delta_neutrality_fee p) (liquifunded_at p) (next_liquifunding p) (stop_loss_override p)
    (stop_loss_override_notional p) (pos_liquidation_price p) (pos_liquidation_margin p)
    (take_profit_trader p) (take_profit_trader_notional p) v.
Definition set_stop_loss (v : option PriceBaseInQuote) (v_notional : option Price) (p : Position) : Position :=
  mkPosition (pos_owner p) (pos_id p) (deposit_collateral p) (active_collateral p)
    (counter_collateral p) (notional_size p) (created_at p) (price_point_created_at p)
    (pos_trading_fee p) (funding_fee p) (borrow_fee p) (pos_crank_fee p)
    (delta_neutrality_fee p) (liquifunded_at p) (next_liquifunding p) v v_notional
    (pos_liquidation_price p) (pos_liquidation_margin p) (take_profit_trader p)
    (take_profit_trader_notional p) (take_profit_total p).
Definition set_take_profit (v : option TakeProfitTrader) (v_notional : option Price) (p : Position) : Position :=
  mkPosition (pos_owner p) (pos_id p) (deposit_collateral p) (active_collateral p)
    (counter_collateral p) (notional_size p) (created_at p) (price_point_created_at p)
    (pos_trading_fee p) (funding_fee p) (borrow_fee p) (pos_crank_fee p)
    (delta_neutrality_fee p) (liquifunded_at p) (next_liquifunding p) (stop_loss_override p)
    (stop_loss_override_notional p) (pos_liquidation_price p) (pos_liquidation_margin p) v
    v_notional (take_profit_total p).

Section Definitions.
Context {CW : CosmwasmStd}.

(** ** [CollateralAndUsd] and [SignedCollateralAndUsd] *)

Definition cu_new (collateral : Collateral) (price_point : PricePoint) : res CollateralAndUsd :=
  usd <- collateral_to_usd price_point collateral; Ok (mkCollateralAndUsd collateral usd).

Definition cu_checked_add_assign (self : CollateralAndUsd) (collateral : Collateral)
    (price_point : PricePoint) : res CollateralAndUsd :=
  c <- ud_checked_add (cu_collateral self) collateral;
  usd <- collateral_to_usd price_point collateral;
  u <- ud_checked_add (cu_usd self) usd;
  Ok (mkCollateralAndUsd c u).

Definition scu_new (collateral : Signed) (price_point : PricePoint) :
    res SignedCollateralAndUsd :=
  usd <- try_map (collateral_to_usd price_point) collateral;
  Ok (mkSignedCollateralAndUsd collateral usd).

Definition scu_checked_add_assign (self : SignedCollateralAndUsd) (collateral : Signed)
    (price_point : PricePoint) : res SignedCollateralAndUsd :=
  c <- signed_checked_add (scu_collateral self) collateral;
  usd <- try_map (collateral_to_usd price_point) collateral;
  u <- signed_checked_add (scu_usd self) usd;
  Ok (mkSignedCollateralAndUsd c u).

(** ** [impl LiquidationMargin] and [impl Position] *)

Definition margin_total (m : LiquidationMargin) : res Collateral :=
  a <- ud_checked_add (margin_borrow m) (margin_funding m);
  b <- ud_checked_add (margin_delta_neutrality m) (margin_crank m);
  ab <- ud_checked_add a b;
  ud_checked_add ab (margin_exposure m).

Definition pos_direction (p : Position) : DirectionToNotional :=
  if is_negative (notional_size p) then ShortToNotional else LongToNotional.

Definition active_leverage_to_notional (p : Position) (price_point : PricePoint) : res Signed :=
  leverage_calculate (notional_size p) price_point (active_collateral p).
Definition counter_leverage_to_notional (p : Position) (price_point : PricePoint) : res Signed :=
  leverage_calculate (notional_size p) price_point (counter_collateral p).
Definition notional_size_in_collateral (p : Position) (price_point : PricePoint) : res Signed :=
  try_map (notional_to_collateral price_point) (notional_size p).

Definition position_size_base (p : Position) (market_type : MarketType)
    (price_point : PricePoint) : res Signed :=
  l <- active_leverage_to_notional p price_point;
  leverage <- leverage_into_base l market_type;
  base <- collateral_to_base_non_zero price_point (active_collateral p);
  checked_mul_base leverage base.

Definition pnl_in_collateral (p : Position) : res Signed :=
  signed_checked_sub (into_signed (active_collateral p)) (scu_collateral (deposit_collateral p)).

Definition pnl_in_usd (p : Position) (price_point : PricePoint) : res Signed :=
  usd <- collateral_to_usd_non_zero price_point (active_collateral p);
  signed_checked_sub (into_signed usd) (scu_usd (deposit_collateral p)).

(** The price shared by [Position] and [compat.rs]: spot plus counter
    collateral per notional unit, with infinity encoded as zero. *)
Definition take_profit_raw (price_point : PricePoint) (counter_collateral : Collateral)
    (notional_size : Signed) : res (option Price) :=
  q <- number_checked_div (into_signed counter_collateral) (into_number notional_size);
  take_profit_price_raw <- signed_checked_add (into_signed (price_notional price_point)) q;
  zero <- number_approx_eq take_profit_price_raw NUMBER_ZERO;
  Ok (if (zero : bool) then None else res_ok (price_try_from_number take_profit_price_raw)).

Definition take_profit_price_total (p : Position) (price_point : PricePoint)
    (market_type : MarketType) : res (option Price) :=
  take_profit_price <- take_profit_raw price_point (counter_collateral p) (notional_size p);
  match take_profit_price with
  | Some price => Ok (Some price)
  | None =>
      match market_type with
      | CollateralIsBase => Ok None
      | CollateralIsQuote => Err (AnyhowError "Calculated a take profit price in a collateral-is-quote market")
      end
  end.

Definition max_gains_in_quote (p : Position) (market_type : MarketType)
    (price_point : PricePoint) : res MaxGainsInQuote :=
  match market_type with
  | CollateralIsQuote =>
      x <- checked_div_collateral (counter_collateral p) (active_collateral p);
      Ok (MaxGainsFinite x)
  | CollateralIsBase =>
      take_profit_price <- take_profit_price_total p price_point market_type;
      match take_profit_price with
      | None => Ok MaxGainsPosInfinity
      | Some price =>
          take_profit_collateral <-
            nonzero_checked_add (active_collateral p) (counter_collateral p);
          take_profit_in_notional <-
            price_collateral_to_notional_non_zero price take_profit_collateral;
          active_in_notional <-
            collateral_to_notional_non_zero price_point (active_collateral p);
          _ <- ensure (active_in_notional <? take_profit_in_notional)
                 (AnyhowError "Max gains in quote is negative, this should not be possible.");
          d <- panics "subtract" (dec_op_sub take_profit_in_notional active_in_notional);
          r <- std (dec_div d active_in_notional);
          x <- of_option (AnyhowError "Max gains of 0") (nonzero_new r);
          Ok (MaxGainsFinite x)
      end
  end.

Definition MS_PER_YEAR : Z := 31536000 * 1000.

Definition liquidation_margin (p : Position) (price_point : PricePoint) (config : Config) :
    res LiquidationMargin :=
  ms_per_year <- panics "unwrap" (dec_from_atomics MS_PER_YEAR 0);
  d <- duration_from_seconds (liquifunding_delay_seconds config);
  duration <- as_ms_decimal_lossy d;
  r <- op_mul (borrow_fee_rate_max_annualized config) duration;
  borrow_fee_max_rate <- op_div r ms_per_year;
  total <- ud_checked_add (active_collateral p) (counter_collateral p);
  borrow_fee_max_payment <- checked_mul_dec total borrow_fee_max_rate;
  let size := abs_unsigned (notional_size p) in
  per_unit <- op_div (match pos_direction p with
                      | LongToNotional => counter_collateral p
                      | ShortToNotional => active_collateral p
                      end) size;
  max_price <- panics "add" (dec_op_add (price_notional price_point) per_unit);
  f <- op_mul (funding_rate_max_annualized config) duration;
  funding_max_rate <- op_div f ms_per_year;
  g <- op_mul funding_max_rate size;
  funding_max_payment <- op_mul g max_price;
  s <- op_mul (delta_neutrality_fee_cap config) size;
  slippage_max <- op_mul s max_price;
  crank <- usd_to_collateral price_point (crank_fee_charged config);
  e <- notional_to_collateral price_point size;
  exposure <- checked_mul_dec e (exposure_margin_ratio config);
  Ok (mkLiquidationMargin borrow_fee_max_payment funding_max_payment slippage_max crank exposure).

Definition liquidation_price (p : Position) (price : Price) (active_collateral : Collateral)
    (margin : LiquidationMargin) : option Price :=
  res_ok (
    m <- margin_total margin;
    above <- signed_checked_sub (into_signed active_collateral) (into_signed m);
    delta <- number_checked_div above (into_number (notional_size p));
    liquidation_price <- signed_checked_sub (into_signed price) delta;
    price_try_from_number liquidation_price).

Definition add_delta_neutrality_fee (p : Position) (amount : Signed) (price_point : PricePoint) :
    res Position :=
  fee <- scu_checked_add_assign (delta_neutrality_fee p) amount price_point;
  Ok (set_delta_neutrality_fee p fee).

Definition get_price_exposure (p : Position) (start_price : Price) (end_price : PricePoint) :
    res Signed :=
  price_delta <- signed_checked_sub (into_signed (price_notional end_price))
                   (into_signed start_price);
  e <- number_checked_mul price_delta (into_number (notional_size p));
  Ok (from_number e).

Definition settle_price_exposure (p : Position) (start_price : Price) (end_price : PricePoint)
    (liquidation_margin : Collateral) : res (MaybeClosedPosition * Signed) :=
  exposure <- get_price_exposure p start_price end_price;
  min_exposure <- signed_checked_sub (into_signed liquidation_margin)
                    (into_signed (active_collateral p));
  let max_exposure := into_signed (counter_collateral p) in
  if signed_leb exposure min_exposure then
    d <- signed_checked_sub min_exposure exposure;
    losses <- of_option (AnyhowError "Calculated additional_losses is negative")
                (try_into_non_negative_value d);
    Ok (PosClose (mkClosePosition p min_exposure losses end_price
                    (CloseLiquidated LiqLiquidated) true), min_exposure)
  else if signed_leb max_exposure exposure then
    Ok (PosClose (mkClosePosition p max_exposure 0 end_price
                    (CloseLiquidated LiqMaxGains) true), max_exposure)
  else
    active <- nonzero_checked_add_signed (active_collateral p) exposure;
    counter <- nonzero_checked_sub_signed (counter_collateral p) exposure;
    Ok (PosOpen (set_collaterals p active counter), exposure).

Definition position_id_next (id : PositionId) : res PositionId := u64_checked (id + 1).

Definition calculate_base_and_quote (market_type : MarketType) (price : Price) (amount : Number) :
    res (Number * Number) :=
  match market_type with
  | CollateralIsQuote =>
      b <- number_checked_div amount (into_signed price); Ok (b, amount)
  | CollateralIsBase =>
      q <- number_checked_mul amount (into_signed price); Ok (amount, q)
  end.

(** ** [compat.rs] *)

Definition calc_notional_size (leverage : LeverageToBase) (direction : DirectionToBase)
    (market_type : MarketType) (price_point : PricePoint) (collateral : Collateral) :
    res Signed :=
  let leverage_to_base := leverage_into_signed leverage direction in
  leverage_to_notional <- leverage_into_notional leverage_to_base market_type;
  in_collateral <- checked_mul_collateral leverage_to_notional collateral;
  try_map (collateral_to_notional price_point) in_collateral.

Definition take_profit_from_counter_collateral (market_type : MarketType)
    (collateral counter_collateral : Collateral) (leverage_to_base : LeverageToBase)
    (price_point : PricePoint) (direction : DirectionToBase) : res TakeProfitTrader :=
  size <- calc_notional_size leverage_to_base direction market_type price_point collateral;
  take_profit_price <- take_profit_raw price_point counter_collateral size;
  match take_profit_price with
  | Some price => b <- into_base_price price market_type; Ok (TakeProfitFinite b)
  | None =>
      match market_type with
      | CollateralIsBase => Ok TakeProfitPosInfinity
      | CollateralIsQuote => Err (AnyhowError "Calculated a take profit price in a collateral-is-quote market")
      end
  end.

Definition backwards_compat_take_profit (collateral : Collateral) (direction : DirectionToBase)
    (leverage : LeverageToBase) (market_type : MarketType) (price_point : PricePoint)
    (max_gains : MaxGainsInQuote) (take_profit : option PriceBaseInQuote) :
    res TakeProfitTrader :=
  match take_profit with
  | Some t => Ok (TakeProfitFinite t)
  | None =>
      match max_gains with
      | MaxGainsPosInfinity => Ok TakeProfitPosInfinity
      | MaxGainsFinite _ =>
          leverage_to_notional <-
            leverage_into_notional (leverage_into_signed leverage direction) market_type;
          in_collateral <- checked_mul_collateral leverage_to_notional collateral;
          counter_collateral <- calculate_counter_collateral max_gains market_type collateral
                                  in_collateral leverage_to_notional;
          take_profit_from_counter_collateral market_type collateral counter_collateral leverage
            price_point direction
      end
  end.

End Definitions.

(** * Theory *)

Lemma into_number_id s : into_number s = s.
Proof. by destruct s. Qed.
Lemma from_number_id s : from_number s = s.
Proof. by destruct s. Qed.

(** A position as the market stores it. *)
Record position_ok (p : Position) : Prop := {
  pos_active : 0 < active_collateral p <= U256_MAX;
  pos_counter : 0 < counter_collateral p <= U256_MAX;
  pos_size : signed_ok (notional_size p);
}.

Section Theory.
Context {CW : CosmwasmStd} {CWS : CosmwasmStdSpec CW}.

Lemma get_price_exposure_ok p start end_ e :
  position_ok p -> is_dec start -> is_dec (price_notional end_) ->
  get_price_exposure p start end_ = Ok e ->
  signed_ok e /\
  sval e = Z.quot ((price_notional end_ - start) * sval (notional_size p)) DEC_ONE.
Proof.
  intros Hp Hs He. unfold get_price_exposure. intros (d & Hd & H)%rbind_ok.
  apply signed_checked_sub_ok in Hd as [Hd Hok]; [|by apply into_signed_ok..].
  apply rbind_ok in H as (m & Hm & [= <-]).
  rewrite into_number_id, number_checked_mul_fits in Hm by (done || apply Hp).
  apply signed_fits_ok in Hm as [-> Hb]. rewrite from_number_id, sval_signed_of.
  split; [by apply signed_of_ok|]. by rewrite Hd, !sval_into_signed.
Qed.

Lemma nonzero_checked_sub_signed_ok (x : Decimal256) s v :
  is_dec x -> signed_ok s ->
  (nonzero_checked_sub_signed x s = Ok v <->
   v = x - sval s /\ 0 < x - sval s <= U256_MAX).
Proof.
  intros Hx Hs.
  pose proof (nonzero_checked_add_signed_ok x (signed_neg s) v Hx (signed_neg_ok s Hs)) as H.
  rewrite sval_neg in H. unfold nonzero_checked_sub_signed, nonzero_checked_add_signed in *.
  rewrite H. lia.
Qed.
End Theory.

(** * Properties *)

Section Properties.
Context {CW : CosmwasmStd} {CWS : CosmwasmStdSpec CW}.

(** Settling a price movement only moves collateral between the trader
    and the liquidity pool.  A position that stays open keeps the sum of its
    two collaterals, stays above the liquidation margin and keeps some counter
    collateral; a liquidated one is capped at the collateral above the margin,
    the excess being reported as additional losses; a position at maximum
    gains takes exactly the counter collateral. *)
Theorem settle_price_exposure_conserves (p : Position) (start : Price) (end_ : PricePoint)
    (margin : Collateral) (r : MaybeClosedPosition) (e : Signed) :
  position_ok p -> is_dec start -> is_dec (price_notional end_) -> is_dec margin ->
  settle_price_exposure p start end_ margin = Ok (r, e) ->
  let exposure := Z.quot ((price_notional end_ - start) * sval (notional_size p)) DEC_ONE in
  match r with
  | PosOpen p' =>
      sval e = exposure /\
      active_collateral p' + counter_collateral p' =
        active_collateral p + counter_collateral p /\
      active_collateral p' = active_collateral p + exposure /\
      margin < active_collateral p' /\ 0 < counter_collateral p' /\ position_ok p'
  | PosClose i =>
      close_pos i = p /\ capped_exposure i = e /\
      ((close_reason i = CloseLiquidated LiqLiquidated /\
        sval e = margin - active_collateral p /\ exposure <= sval e /\
        additional_losses i = sval e - exposure) \/
       (close_reason i = CloseLiquidated LiqMaxGains /\
        sval e = counter_collateral p /\ sval e <= exposure /\ additional_losses i = 0))
  end.
Proof.
  intros Hp Hs He Hm. unfold settle_price_exposure. intros (ex & Hex & H)%rbind_ok.
  destruct (get_price_exposure_ok p start end_ ex Hp Hs He Hex) as [Hxok Hxv].
  rewrite <- Hxv. simpl.
  destruct (pos_active p Hp), (pos_counter p Hp).
  assert (is_dec (active_collateral p)) as Ha by (unfold is_dec; lia).
  assert (is_dec (counter_collateral p)) as Hc by (unfold is_dec; lia).
  apply rbind_ok in H as (mn & Hmn & H).
  apply signed_checked_sub_ok in Hmn as [Hmn Hmnok]; [|by apply into_signed_ok..].
  rewrite !sval_into_signed in Hmn. rewrite !signed_leb_sval in H by auto with perps.
  rewrite sval_into_signed in H.
  destruct (Z.leb_spec (sval ex) (sval mn)).
  - apply rbind_ok in H as (d & Hd & H). apply rbind_ok in H as (l & Hl & [= <- <-]). simpl.
    apply signed_checked_sub_ok in Hd as [Hd _]; [|done..].
    apply of_option_ok, try_into_non_negative_value_Some in Hl as [_ ->].
    split; [done|]. split; [done|]. left. split; [done|lia].
  - destruct (Z.leb_spec (counter_collateral p) (sval ex)).
    + injection H as <- <-. simpl. split; [done|]. split; [done|]. right.
      rewrite sval_into_signed. split; [done|lia].
    + apply rbind_ok in H as (a & Hadd & H). apply rbind_ok in H as (c & Hsub & [= <- <-]). simpl.
      apply nonzero_checked_add_signed_ok in Hadd as [-> ?]; [|done..].
      apply nonzero_checked_sub_signed_ok in Hsub as [-> ?]; [|done..].
      split_and!; try done; try lia.
      split; simpl; [lia|lia|apply Hp].
Qed.

(** C36: the liquidation price is where the price exposure has used up the
    active collateral above the liquidation margin, up to the rounding of the
    division: less than the value of one atomic price step. *)
Theorem liquidation_price_exhausts (p : Position) (price : Price) (active : Collateral)
    (margin : LiquidationMargin) (m : Collateral) (lp : Price) :
  position_ok p -> is_dec price -> is_dec active -> is_dec m ->
  margin_total margin = Ok m -> liquidation_price p price active margin = Some lp ->
  sval (notional_size p) <> 0 /\ 0 < lp /\
  Z.abs ((lp - price) * sval (notional_size p) + (active - m) * DEC_ONE) <
    Z.abs (sval (notional_size p)).
Proof.
  intros Hp Hpr Ha Hm Hmt. unfold liquidation_price. rewrite Hmt, into_number_id.
  change (rbind (Ok m) ?k) with (k m). intros H%res_ok_some.
  apply rbind_ok in H as (ab & Hab & H).
  apply signed_checked_sub_ok in Hab as [Hab Habok]; [|by apply into_signed_ok..].
  apply rbind_ok in H as (d & Hd & H).
  rewrite number_checked_div_fits in Hd by (done || apply Hp).
  destruct (Z.eqb_spec (sval (notional_size p)) 0) as [|Hn]; [done|].
  apply signed_fits_ok in Hd as [-> Hd].
  apply rbind_ok in H as (l & Hl & H).
  apply signed_checked_sub_ok in Hl as [Hl Hlok];
    [|by apply into_signed_ok|by apply signed_of_ok].
  unfold price_try_from_number in H.
  destruct (nonzero_try_from l) as [x|] eqn:Ex; [|done]. injection H as ->.
  apply nonzero_try_from_Ok in Ex as [-> Hpos]; [|done].
  rewrite sval_signed_of, !sval_into_signed in *. rewrite Hab in *.
  split; [done|]. split; [done|]. rewrite Hl.
  pose proof (Z.quot_rem' ((active - m) * DEC_ONE) (sval (notional_size p))).
  pose proof (Z.rem_bound_abs ((active - m) * DEC_ONE) (sval (notional_size p)) Hn).
  set (q := Z.quot _ _) in *. set (n := sval (notional_size p)) in *.
  replace ((price - q - price) * n + (active - m) * DEC_ONE)
    with (Z.rem ((active - m) * DEC_ONE) n) by lia.
  done.
Qed.
End Properties.

(** * Witnesses *)

(** A long of 2 notional at price 3, with 1 collateral against 2. *)
Definition sample_position : Position :=
  mkPosition "trader" 1 (mkSignedCollateralAndUsd (mkSigned DEC_ONE false) (mkSigned DEC_ONE false))
    DEC_ONE (2 * DEC_ONE) (mkSigned (2 * DEC_ONE) false) 0 None
    (mkCollateralAndUsd 0 0) (mkSignedCollateralAndUsd NUMBER_ZERO NUMBER_ZERO)
    (mkCollateralAndUsd 0 0) (mkCollateralAndUsd 0 0)
    (mkSignedCollateralAndUsd NUMBER_ZERO NUMBER_ZERO) 0 0 None None None
    (mkLiquidationMargin 0 0 0 0 0) None None None.

Lemma sample_position_ok : position_ok sample_position.
Proof. split; vm_compute; repeat split; congruence. Qed.

Definition higher_price_point : PricePoint :=
  mkPricePoint (3 * DEC_ONE + DEC_ONE / 2) DEC_ONE (3 * DEC_ONE) 0 false CollateralIsQuote None None.

Lemma settle_price_exposure_conserves_witness :
  exists p' e, settle_price_exposure (CW:=cosmwasm_ref) sample_position (3 * DEC_ONE)
    higher_price_point (DEC_ONE / 10) = Ok (PosOpen p', e) /\
    active_collateral p' + counter_collateral p' = 3 * DEC_ONE.
Proof.
  set (p' := set_collaterals sample_position (2 * DEC_ONE) DEC_ONE).
  assert (settle_price_exposure (CW:=cosmwasm_ref) sample_position (3 * DEC_ONE)
    higher_price_point (DEC_ONE / 10) = Ok (PosOpen p', mkSigned DEC_ONE false)) as Hs
    by (vm_compute; reflexivity).
  exists p', (mkSigned DEC_ONE false). split; [exact Hs|].
  pose proof (settle_price_exposure_conserves (CW:=cosmwasm_ref) (CWS:=cosmwasm_ref_spec)
    sample_position (3 * DEC_ONE) higher_price_point (DEC_ONE / 10) (PosOpen p')
    (mkSigned DEC_ONE false) sample_position_ok ltac:(vm_compute; split; congruence)
    ltac:(vm_compute; split; congruence) ltac:(vm_compute; split; congruence) Hs)
    as (_ & H & _).
  rewrite H. reflexivity.
Defined.

Lemma liquidation_price_exhausts_witness :
  liquidation_price (CW:=cosmwasm_ref) sample_position (3 * DEC_ONE) DEC_ONE
    (mkLiquidationMargin 0 0 0 0 (DEC_ONE / 2)) = Some (2750000000000000000) /\
  0 < 2750000000000000000.
Proof.
  assert (liquidation_price (CW:=cosmwasm_ref) sample_position (3 * DEC_ONE) DEC_ONE
    (mkLiquidationMargin 0 0 0 0 (DEC_ONE / 2)) = Some (2750000000000000000)) as Hl
    by (vm_compute; reflexivity).
  split; [exact Hl|].
  exact (proj1 (proj2 (liquidation_price_exhausts (CW:=cosmwasm_ref) (CWS:=cosmwasm_ref_spec)
    sample_position (3 * DEC_ONE) DEC_ONE (mkLiquidationMargin 0 0 0 0 (DEC_ONE / 2)) (DEC_ONE / 2)
    2750000000000000000 sample_position_ok ltac:(vm_compute; split; congruence) is_dec_one
    ltac:(vm_compute; split; congruence) ltac:(vm_compute; reflexivity) Hl))).
Defined.
