(* ===== verification/Trading.v ===== *)
(** * Data of the trading side of the market

    The records and enums that positions, limit orders, deferred executions,
    the crank and the trade history keep in storage or emit
    ([packages/perpswap/src/contracts/market/{position,position/closed,order,
    deferred_execution,crank,entry}.rs] and [contracts/position_token.rs]).
    Identifiers are [u64]s. *)

From stdpp Require Import base option gmap strings list.
From Stdlib Require Import ZArith Lia.
From S2P Require Import Prelude Cosmwasm Types Number Time Market Price Config Position.
Local Open Scope Z_scope.

Abbreviation OrderId := Z (only parsing).
Abbreviation DeferredExecId := Z (only parsing).
Abbreviation Binary := string (only parsing).

(** ** Positions *)

Inductive PositionSaveReason :=
| SaveOpenMarket | SaveUpdate | SaveCrank | SaveExecuteLimitOrder | SaveSetTrigger.

(** [ClosedPosition]. *)
Record ClosedPosition := mkClosedPosition {
  cp_owner : Addr;
  cp_id : PositionId;
  cp_direction_to_base : DirectionToBase;
  cp_created_at : Timestamp;
  cp_price_point_created_at : option Timestamp;
  cp_liquifunded_at : Timestamp;
  cp_trading_fee : CollateralAndUsd;
  cp_funding_fee : SignedCollateralAndUsd;
  cp_borrow_fee : CollateralAndUsd;
  cp_crank_fee : CollateralAndUsd;
  cp_delta_neutrality_fee : SignedCollateralAndUsd;
  cp_deposit_collateral : SignedCollateralAndUsd;
  cp_active_collateral : Collateral;
  cp_pnl_collateral : Signed;
  cp_pnl_usd : Signed;
  cp_notional_size : Signed;
  cp_entry_price_base : PriceBaseInQuote;
  cp_close_time : Timestamp;
  cp_settlement_time : Timestamp;
  cp_reason : PositionCloseReason;
  cp_liquidation_margin : option LiquidationMargin;
}.

(** [PositionCollaterals] and [PositionAttributes]. *)
Record PositionCollaterals := mkPositionCollaterals {
  pc_deposit_collateral : Signed;
  pc_deposit_collateral_usd : Signed;
  pc_active_collateral : Collateral;
  pc_counter_collateral : Collateral;
}.

Record PositionAttributes := mkPositionAttributes {
  at_pos_id : PositionId;
  at_owner : Addr;
  at_collaterals : PositionCollaterals;
  at_market_type : MarketType;
  at_notional_size : Signed;
  at_notional_size_in_collateral : Signed;
  at_notional_size_usd : Signed;
  at_trading_fee : CollateralAndUsd;
  at_direction : DirectionToBase;
  at_leverage : LeverageToBase;
  at_counter_leverage : LeverageToBase;
  at_stop_loss_override : option PriceBaseInQuote;
  at_take_profit_trader : option TakeProfitTrader;
}.

Record PositionUpdateEvent := mkPositionUpdateEvent {
  ue_position_attributes : PositionAttributes;
  ue_deposit_collateral_delta : Signed;
  ue_deposit_collateral_delta_usd : Signed;
  ue_active_collateral_delta : Signed;
  ue_active_collateral_delta_usd : Signed;
  ue_counter_collateral_delta : Signed;
  ue_counter_collateral_delta_usd : Signed;
  ue_leverage_delta : Signed;
  ue_counter_leverage_delta : Signed;
  ue_notional_size_delta : Signed;
  ue_notional_size_delta_usd : Signed;
  ue_notional_size_abs_delta : Signed;
  ue_notional_size_abs_delta_usd : Signed;
  ue_trading_fee_delta : Collateral;
  ue_trading_fee_delta_usd : Usd;
  ue_delta_neutrality_fee_delta : Signed;
  ue_delta_neutrality_fee_delta_usd : Signed;
  ue_updated_at : Timestamp;
}.

(** ** Trade history *)

Inductive PositionActionKind := ActionOpen | ActionUpdate | ActionClose | ActionTransfer.

Record PositionAction := mkPositionAction {
  pa_id : option PositionId;
  pa_kind : PositionActionKind;
  pa_timestamp : Timestamp;
  pa_price_timestamp : option Timestamp;
  pa_collateral : Collateral;
  pa_transfer_collateral : Signed;
  pa_leverage : option LeverageToBase;
  pa_max_gains : option MaxGainsInQuote;
  pa_trade_fee : option Usd;
  pa_delta_neutrality_fee : option Signed;
  pa_old_owner : option Addr;
  pa_new_owner : option Addr;
  pa_take_profit_trader : option TakeProfitTrader;
  pa_stop_loss_override : option PriceBaseInQuote;
}.

Record TradeHistorySummary := mkTradeHistorySummary {
  trade_volume : Usd;
  realized_pnl : Signed;
}.

(** ** The position token *)

Record Approval := mkApproval { approval_spender : Addr; approval_expires : Expiration }.

(** [ExecuteMsg] of the position token. *)
Inductive NftExecuteMsg :=
| NftApprove (spender : RawAddr) (token_id : string) (expires : option Expiration)
| NftRevoke (spender : RawAddr) (token_id : string)
| NftApproveAll (operator : RawAddr) (expires : option Expiration)
| NftRevokeAll (operator : RawAddr)
| NftTransferNft (recipient : RawAddr) (token_id : string)
| NftSendNft (contract : RawAddr) (token_id : string) (msg : Binary).

(** ** Limit orders *)

Record LimitOrder := mkLimitOrder {
  lo_order_id : OrderId;
  lo_owner : Addr;
  lo_trigger_price : PriceBaseInQuote;
  lo_collateral : Collateral;
  lo_leverage : LeverageToBase;
  lo_direction : DirectionToNotional;
  lo_max_gains : option MaxGainsInQuote;
  lo_stop_loss_override : option PriceBaseInQuote;
  lo_take_profit : option TakeProfitTrader;
  lo_crank_fee_collateral : Collateral;
  lo_crank_fee_usd : Usd;
}.

(** The error text of a failed order is modelled as the error itself. *)
Inductive LimitOrderResult :=
| OrderSuccess (position : PositionId)
| OrderFailure (reason : error).

Record ExecutedLimitOrder := mkExecutedLimitOrder {
  el_order : LimitOrder;
  el_result : LimitOrderResult;
  el_timestamp : Timestamp;
}.

(** ** Deferred execution *)

Record SlippageAssertion := mkSlippageAssertion {
  sa_price : PriceBaseInQuote;
  sa_tolerance : Number;
}.

Inductive StopLoss := StopLossRemove | StopLossPrice (price : PriceBaseInQuote).

Inductive DeferredExecItem :=
| DeferOpenPosition (slippage_assert : option SlippageAssertion) (leverage : LeverageToBase)
    (direction : DirectionToBase) (max_gains : option MaxGainsInQuote)
    (stop_loss_override : option PriceBaseInQuote) (take_profit : option TakeProfitTrader)
    (amount : Collateral) (crank_fee : Collateral) (crank_fee_usd : Usd)
| DeferAddCollateralImpactLeverage (id : PositionId) (amount : Collateral)
| DeferAddCollateralImpactSize (id : PositionId) (slippage_assert : option SlippageAssertion)
    (amount : Collateral)
| DeferRemoveCollateralImpactLeverage (id : PositionId) (amount : Collateral)
| DeferRemoveCollateralImpactSize (id : PositionId) (amount : Collateral)
    (slippage_assert : option SlippageAssertion)
| DeferUpdateLeverage (id : PositionId) (leverage : LeverageToBase)
    (slippage_assert : option SlippageAssertion)
| DeferUpdateMaxGains (id : PositionId) (max_gains : MaxGainsInQuote)
| DeferUpdateTakeProfitPrice (id : PositionId) (price : TakeProfitTrader)
| DeferUpdateStopLossPrice (id : PositionId) (stop_loss : StopLoss)
| DeferClosePosition (id : PositionId) (slippage_assert : option SlippageAssertion)
| DeferSetTriggerOrder (id : PositionId) (stop_loss_override : option PriceBaseInQuote)
    (take_profit : option TakeProfitTrader)
| DeferPlaceLimitOrder (trigger_price : PriceBaseInQuote) (leverage : LeverageToBase)
    (direction : DirectionToBase) (max_gains : option MaxGainsInQuote)
    (stop_loss_override : option PriceBaseInQuote) (take_profit : option TakeProfitTrader)
    (amount : Collateral) (crank_fee : Collateral) (crank_fee_usd : Usd)
| DeferCancelLimitOrder (order_id : OrderId).

Inductive DeferredExecTarget :=
| TargetDoesNotExist | TargetPosition (id : PositionId) | TargetOrder (id : OrderId).

Inductive DeferredExecCompleteTarget :=
| CompletePosition (id : PositionId) | CompleteOrder (id : OrderId).

(** The reason of a failure is modelled as the error itself, absent when the
    chain reported one the contract does not see. *)
Inductive DeferredExecStatus :=
| DeferPending
| DeferSuccess (target : DeferredExecCompleteTarget) (executed : Timestamp)
| DeferFailure (reason : option error) (executed : Timestamp) (crank_price : option PricePoint).

Record DeferredExecWithStatus := mkDeferredExecWithStatus {
  de_id : DeferredExecId;
  de_created : Timestamp;
  de_status : DeferredExecStatus;
  de_owner : Addr;
  de_item : DeferredExecItem;
}.

Record DeferredExecLatestIds := mkDeferredExecLatestIds {
  issued : DeferredExecId;
  processed : option DeferredExecId;
}.

(** [DeferredExecItem::target]. *)
Definition defer_target (item : DeferredExecItem) : DeferredExecTarget :=
  match item with
  | DeferOpenPosition _ _ _ _ _ _ _ _ _ => TargetDoesNotExist
  | DeferAddCollateralImpactLeverage id _ => TargetPosition id
  | DeferAddCollateralImpactSize id _ _ => TargetPosition id
  | DeferRemoveCollateralImpactLeverage id _ => TargetPosition id
  | DeferRemoveCollateralImpactSize id _ _ => TargetPosition id
  | DeferUpdateLeverage id _ _ => TargetPosition id
  | DeferUpdateMaxGains id _ => TargetPosition id
  | DeferUpdateTakeProfitPrice id _ => TargetPosition id
  | DeferUpdateStopLossPrice id _ => TargetPosition id
  | DeferClosePosition id _ => TargetPosition id
  | DeferSetTriggerOrder id _ _ => TargetPosition id
  | DeferPlaceLimitOrder _ _ _ _ _ _ _ _ _ => TargetDoesNotExist
  | DeferCancelLimitOrder order_id => TargetOrder order_id
  end.

(** [DeferredExecItem::deposited_amount]. *)
Definition deposited_amount (item : DeferredExecItem) : Collateral :=
  match item with
  | DeferOpenPosition _ _ _ _ _ _ amount _ _ => amount
  | DeferAddCollateralImpactLeverage _ amount => amount
  | DeferAddCollateralImpactSize _ _ amount => amount
  | DeferPlaceLimitOrder _ _ _ _ _ _ amount _ _ => amount
  | _ => 0
  end.

(** [DeferredExecStatus::is_pending]. *)
Definition is_pending (s : DeferredExecStatus) : bool :=
  match s with DeferPending => true | _ => false end.

(** ** The crank *)

Inductive CrankWorkInfo :=
| WorkCloseAllPositions (position : PositionId)
| WorkResetLpBalances
| WorkLiquifunding (position : PositionId)
| WorkLiquidation (position : PositionId) (liquidation_reason : LiquidationReason)
| WorkDeferredExec (deferred_exec_id : DeferredExecId) (target : DeferredExecTarget)
| WorkLimitOrder (order_id : OrderId)
| WorkCompleted.

(** [CrankWorkInfo::receives_crank_rewards]. *)
Definition receives_crank_rewards (w : CrankWorkInfo) : bool :=
  match w with
  | WorkCloseAllPositions _ | WorkResetLpBalances | WorkCompleted => false
  | WorkLiquifunding _ | WorkLiquidation _ _ | WorkDeferredExec _ _ | WorkLimitOrder _ => true
  end.

Record CrankProgress := mkCrankProgress {
  weight_budget_left : Z;
  paying_work_done : Z;
  crank_requested : Z;
  crank_rewards_addr : Addr;
  crank_actual : list (CrankWorkInfo * PricePoint);
}.

(** ** Shutdown *)

(** [ShutdownImpact] (packages/perpswap/src/shutdown.rs). *)
Inductive ShutdownImpact :=
| NewTrades | ClosePositions | OwnerActions | ImpactDepositLiquidity | ImpactWithdrawLiquidity
| Staking | Unstaking | TransferPositions | TransferLp | SetPrice | ImpactTransferDaoFees
| ImpactCrank | ImpactSetManualPrice.

Inductive LiquidityTokenKind := KindLp | KindXlp.
