(* ===== verification/State.v ===== *)
(** * The market contract's state

    The storage items of [contracts/market/src/state] that the liquidity, fee,
    funding, delta neutrality, position, order, deferred execution, crank and
    LP token components share, the [State] and [StateContext] a handler runs with ([state.rs]), and the reads every
    component makes: the spot price ([state/spot_price.rs]), the open interest
    ([state/position.rs]) and the market id ([state/meta.rs]).

    An [Item] that instantiation always writes is a plain field.  [State] has
    what a message sees of its environment: the block time, the configuration,
    the market id, the collateral token and the answers of the factory
    contract to raw queries. *)

From stdpp Require Import base option gmap strings list.
From Stdlib Require Import ZArith Lia.
From S2P Require Import Prelude Storage Cosmwasm Types Number Time Market Price Token DataSeries Config Position Trading Cw20.
Local Open Scope Z_scope.

(** ** Stored data *)

Record PriceStorage := mkPriceStorage {
  ps_price : Price;
  ps_price_usd : PriceCollateralInUsd;
  ps_price_base : PriceBaseInQuote;
  ps_publish_time : option Timestamp;
  ps_publish_time_usd : option Timestamp;
  ps_block_time : option Timestamp;
}.

(** Protocol-wide liquidity. *)
Record LiquidityStats := mkLiquidityStats {
  locked : Collateral; unlocked : Collateral; total_lp : LpToken; total_xlp : LpToken }.

(** Prefix sums of the yield per LP and xLP token. *)
Record YieldPerToken := mkYieldPerToken { y_lp : Collateral; y_xlp : Collateral }.

Record UnstakingXlp := mkUnstakingXlp {
  xlp_amount : LpToken;
  collected : LpToken;
  unstake_started : Timestamp;
  unstake_duration : Duration;
  last_collected : Timestamp;
}.

Record LiquidityStatsByAddr := mkLiquidityStatsByAddr {
  lp : LpToken;
  xlp : LpToken;
  last_accrue_key : Z;
  lp_accrued_yield : Collateral;
  xlp_accrued_yield : Collateral;
  crank_rewards : Collateral;
  referrer_rewards : Collateral;
  unstaking : option UnstakingXlp;
  cooldown_ends : option Timestamp;
}.

Inductive ResetLpStatus := ResetBegin | ResetLastSaw (addr : Addr).

(** Fees collected and not yet paid out. *)
Record Fees := mkFees {
  fees_wallets : Collateral;
  fees_protocol : Collateral;
  fees_crank : Collateral;
  fees_referral : Collateral;
}.

Inductive LpActionKind :=
| DepositLp | DepositXlp | ReinvestYieldLp | ReinvestYieldXlp | UnstakeXlp | CollectLp
| ActionWithdraw | ActionClaimYield.

Record LpAction := mkLpAction {
  action_kind : LpActionKind;
  action_timestamp : Timestamp;
  action_tokens : option LpToken;
  action_collateral : Collateral;
  action_collateral_usd : Usd;
}.

Record LpHistorySummary := mkLpHistorySummary {
  summary_deposit : Collateral;
  summary_deposit_usd : Usd;
  summary_yield : Collateral;
  summary_yield_usd : Usd;
}.

Record ReferralStats := mkReferralStats {
  generated : CollateralAndUsd; received_referral : CollateralAndUsd }.

(** [LpAndXlp]: the two parts of a fee. *)
Record LpAndXlp := mkLpAndXlp { la_lp : Collateral; la_xlp : Collateral }.

(** ** Events *)

Inductive TradeId :=
| TradePosition (id : PositionId) | TradeLimitOrder (id : Z) | TradeDeferred (id : Z).
Inductive FeeSource := FeeTrading | FeeBorrow | FeeDeltaNeutrality.
Inductive FeeType :=
| FeeTypeOverall | FeeTypeBorrow | FeeTypeDeltaNeutrality | FeeTypeFunding | FeeTypeCrank
| FeeTypeFundingTotal.
Inductive DeltaNeutralityFeeReason := PositionOpen | PositionUpdateReason | PositionClose.

Record FeeEvent := mkFeeEvent {
  fe_trade_id : TradeId;
  fe_fee_source : FeeSource;
  fe_lp_amount : Collateral;
  fe_lp_amount_usd : Usd;
  fe_xlp_amount : Collateral;
  fe_xlp_amount_usd : Usd;
  fe_protocol_amount : Collateral;
  fe_protocol_amount_usd : Usd;
}.

Record InsufficientMarginEvent := mkInsufficientMarginEvent {
  ime_pos : PositionId;
  ime_fee_type : FeeType;
  ime_available : Signed;
  ime_requested : Signed;
}.

Record LiquidityPoolSizeEvent := mkLiquidityPoolSizeEvent {
  pse_locked : Collateral;
  pse_locked_usd : Usd;
  pse_unlocked : Collateral;
  pse_unlocked_usd : Usd;
  pse_lp_collateral : Collateral;
  pse_xlp_collateral : Collateral;
  pse_total_lp : LpToken;
  pse_total_xlp : LpToken;
}.

Record DeltaNeutralityFeeEvent := mkDeltaNeutralityFeeEvent {
  dne_amount : Signed;
  dne_total_funds_before : Collateral;
  dne_total_funds_after : Collateral;
  dne_reason : DeltaNeutralityFeeReason;
  dne_protocol_amount : Collateral;
}.

Inductive MarketEvent :=
| EvFee (e : FeeEvent)
| EvInsufficientMargin (e : InsufficientMarginEvent)
| EvFundingPayment (pos_id : PositionId) (amount amount_usd : Signed) (direction : DirectionToBase)
| EvFundingRateChange (time : Timestamp) (long_rate_base short_rate_base : Number)
| EvBorrowFeeChange (time : Timestamp) (total_rate lp_rate xlp_rate : Decimal256)
| EvCrankFee (trade_id : TradeId) (amount : Collateral) (amount_usd : Usd)
    (old_balance new_balance : Collateral)
| EvCrankFeeEarned (recipient : Addr) (amount : Collateral) (amount_usd : Usd)
| EvFeesReturned (recipient : Addr) (amount : Collateral) (amount_usd : Usd)
| EvReferralReward (referrer referee : Addr) (collateral : Collateral) (usd : Usd)
| EvWithdraw (burned_shares : LpToken) (withdrawn_funds : Collateral) (withdrawn_funds_usd : Usd)
| EvDeposit (amount : Collateral) (amount_usd : Usd) (shares : LpToken)
| EvLock (amount : Collateral)
| EvUnlock (amount : Collateral)
| EvLockUpdate (amount : Signed)
| EvPoolSize (e : LiquidityPoolSizeEvent)
| EvDeltaNeutralityRatio (total_liquidity : Collateral) (long_interest short_interest : Notional)
    (net_notional : Signed) (price_notional : Price) (delta_neutrality_ratio : Signed)
| EvDeltaNeutralityFee (e : DeltaNeutralityFeeEvent)
| EvLpAction (addr : Addr) (action : LpAction) (action_id : Z)
| EvLpDeposit (deposit : Collateral) (deposit_usd : Usd)
| EvLpYield (addr : Addr) (yield : Collateral) (yield_usd : Usd)
| EvPositionSave (id : PositionId) (reason : PositionSaveReason)
| EvPositionOpen (attributes : PositionAttributes) (created_at price_point_created_at : Timestamp)
| EvPositionUpdate (e : PositionUpdateEvent)
| EvPositionClose (closed_position : ClosedPosition)
| EvPositionAction (pos_id : PositionId) (action : PositionAction)
| EvTradeVolume (volume_usd : Usd)
| EvPnl (pnl pnl_usd : Signed)
| EvNftMint (owner : Addr) (token_id : string)
| EvNftBurn (token_id : string)
| EvNftTransfer (recipient : Addr) (token_id : string)
| EvNftApproval (spender : Addr) (token_id : string) (expires : Expiration)
| EvNftRevoke (spender : Addr) (token_id : string)
| EvNftApproveAll (operator : Addr) (expires : Expiration)
| EvNftRevokeAll (operator : Addr)
| EvPlaceLimitOrder (order : LimitOrder) (market_type : MarketType) (collateral_usd : Usd)
    (leverage : SignedLeverageToBase) (direction : DirectionToBase)
| EvCancelLimitOrder (order_id : OrderId)
| EvExecuteLimitOrder (order_id : OrderId) (pos_id : option PositionId) (err : option error)
| EvDeferredExecQueued (id : DeferredExecId) (target : DeferredExecTarget) (owner : Addr)
| EvDeferredExecExecuted (id : DeferredExecId) (target : DeferredExecTarget) (owner : Addr)
    (success : bool)
| EvCrankWorkInfo (work_info : CrankWorkInfo) (price_point : PricePoint)
| EvCrankExecBatch (requested paying : Z) (actual : list (CrankWorkInfo * PricePoint))
| EvSpotPrice (price_point : PricePoint)
| EvLiquidityToken (e : Cw20Event).

(** The messages a response carries besides the transfers. *)
Inductive SubMessage :=
| PerformDeferredExec (id : DeferredExecId) (price_point_timestamp : Timestamp)
| Cw721Receive (contract sender : Addr) (token_id : string) (msg : Binary)
| Cw20Receive (msg : ReceiveMsg).

(** ** Storage, one record per component *)

Record LiquidityStore := mkLiquidityStore {
  LIQUIDITY_STATS : LiquidityStats;
  LIQUIDITY_STATS_BY_ADDR : gmap Addr LiquidityStatsByAddr;
  RESET_LP_STATUS : option ResetLpStatus;
  YIELD_PER_TIME_PER_TOKEN : gmap Z YieldPerToken;
}.

Record FundingStore := mkFundingStore {
  LP_BORROW_FEE_DATA_SERIES : DataSeries;
  XLP_BORROW_FEE_DATA_SERIES : DataSeries;
  LONG_RF_PRICE_PREFIX_SUM : DataSeries;
  SHORT_RF_PRICE_PREFIX_SUM : DataSeries;
  TOTAL_NET_FUNDING_PAID : Signed;
  TOTAL_FUNDING_MARGIN : Collateral;
}.

Record HistoryStore := mkHistoryStore {
  LP_HISTORY_SUMMARY : gmap Addr LpHistorySummary;
  LP_HISTORY_BY_ADDRESS : gmap (Addr * Z) LpAction;
  REFERRAL_STATS_MAP : gmap Addr ReferralStats;
}.

Record PositionStore := mkPositionStore {
  OPEN_POSITIONS : gmap PositionId Position;
  LAST_POSITION_ID : PositionId;
  PRICE_TRIGGER_DESC : gmap (Z * Z) LiquidationReason;
  PRICE_TRIGGER_ASC : gmap (Z * Z) LiquidationReason;
  CLOSED_POSITION_HISTORY : gmap (Addr * (Z * Z)) ClosedPosition;
  CLOSED_POSITIONS : gmap PositionId ClosedPosition;
  NEXT_LIQUIFUNDING : gmap (Z * Z) unit;
}.

Record NftStore := mkNftStore {
  NFT_APPROVALS : gmap string (list Approval);
  NFT_OPERATORS : gmap (Addr * Addr) Expiration;
  NFT_COUNT : option Z;
  NFT_OWNERS : gmap (Addr * string) unit;
  NFT_POSITION_IDS : gmap string unit;
}.

Record LpTokenStore := mkLpTokenStore {
  LP_ALLOWANCES : gmap (Addr * Addr) AllowanceResponse;
  LP_ALLOWANCES_SPENDER : gmap (Addr * Addr) AllowanceResponse;
  XLP_ALLOWANCES : gmap (Addr * Addr) AllowanceResponse;
  XLP_ALLOWANCES_SPENDER : gmap (Addr * Addr) AllowanceResponse;
}.

Record TradeStore := mkTradeStore {
  TRADE_HISTORY_SUMMARY : gmap Addr TradeHistorySummary;
  TRADE_HISTORY_BY_POSITION : gmap (Z * Z) PositionAction;
  TRADE_HISTORY_BY_ADDRESS : gmap (Addr * Z) PositionAction;
}.

Record OrderStore := mkOrderStore {
  LAST_ORDER_ID : option OrderId;
  LIMIT_ORDERS : gmap OrderId LimitOrder;
  LIMIT_ORDERS_BY_PRICE_LONG : gmap (Z * Z) unit;
  LIMIT_ORDERS_BY_PRICE_SHORT : gmap (Z * Z) unit;
  LIMIT_ORDERS_BY_ADDR : gmap (Addr * Z) unit;
  EXECUTED_LIMIT_ORDERS : gmap (Addr * Z) ExecutedLimitOrder;
}.

Record DeferredStore := mkDeferredStore {
  DEFERRED_EXEC_LATEST_IDS : option DeferredExecLatestIds;
  DEFERRED_EXECS : gmap DeferredExecId DeferredExecWithStatus;
  DEFERRED_EXECS_BY_WALLET : gmap (Addr * Z) unit;
  PENDING_DEFERRED_FOR_POSITION : gmap (Z * Z) unit;
  PENDING_DEFERRED_FOR_ORDER : gmap (Z * Z) unit;
  IS_LIMIT_ORDER_CANCELING : gmap OrderId unit;
  IS_POSITION_CLOSING : gmap PositionId unit;
}.

Record CrankStore := mkCrankStore {
  LAST_CRANK_COMPLETED : option Timestamp;
  CRANK_BATCH_WEIGHT_LEFT : option CrankProgress;
  CLOSE_ALL_POSITIONS : option unit;
}.

(** [StateContext]: the storage with the transfers and the events the message
    has accumulated. *)
Record MarketCtx := mkMarketCtx {
  PRICES : gmap Timestamp PriceStorage;
  MANUAL_SPOT_PRICE : option PriceStorage;
  OPEN_NOTIONAL_LONG_INTEREST : Notional;
  OPEN_NOTIONAL_SHORT_INTEREST : Notional;
  m_liquidity : LiquidityStore;
  ALL_FEES : Fees;
  m_funding : FundingStore;
  DELTA_NEUTRALITY_FUND : option Collateral;
  m_history : HistoryStore;
  m_positions : PositionStore;
  m_nft : NftStore;
  m_lp_tokens : LpTokenStore;
  m_trades : TradeStore;
  m_orders : OrderStore;
  m_deferred : DeferredStore;
  m_crank : CrankStore;
  fund_transfers : gmap Addr Collateral;
  m_events : list MarketEvent;
  m_messages : list SubMessage;
}.

(** *** Field updates *)

Definition set_locked (v : Collateral) (s : LiquidityStats) : LiquidityStats :=
  mkLiquidityStats v (unlocked s) (total_lp s) (total_xlp s).
Definition set_unlocked (v : Collateral) (s : LiquidityStats) : LiquidityStats :=
  mkLiquidityStats (locked s) v (total_lp s) (total_xlp s).
Definition set_total_lp (v : LpToken) (s : LiquidityStats) : LiquidityStats :=
  mkLiquidityStats (locked s) (unlocked s) v (total_xlp s).
Definition set_total_xlp (v : LpToken) (s : LiquidityStats) : LiquidityStats :=
  mkLiquidityStats (locked s) (unlocked s) (total_lp s) v.

Definition set_lp (v : LpToken) (s : LiquidityStatsByAddr) : LiquidityStatsByAddr :=
  mkLiquidityStatsByAddr v (xlp s) (last_accrue_key s) (lp_accrued_yield s)
    (xlp_accrued_yield s) (crank_rewards s) (referrer_rewards s) (unstaking s) (cooldown_ends s).
Definition set_xlp (v : LpToken) (s : LiquidityStatsByAddr) : LiquidityStatsByAddr :=
  mkLiquidityStatsByAddr (lp s) v (last_accrue_key s) (lp_accrued_yield s) (xlp_accrued_yield s)
    (crank_rewards s) (referrer_rewards s) (unstaking s) (cooldown_ends s).
Definition set_last_accrue_key (v : Z) (s : LiquidityStatsByAddr) : LiquidityStatsByAddr :=
  mkLiquidityStatsByAddr (lp s) (xlp s) v (lp_accrued_yield s) (xlp_accrued_yield s)
    (crank_rewards s) (referrer_rewards s) (unstaking s) (cooldown_ends s).
Definition set_lp_accrued_yield (v : Collateral) (s : LiquidityStatsByAddr) : LiquidityStatsByAddr :=
  mkLiquidityStatsByAddr (lp s) (xlp s) (last_accrue_key s) v (xlp_accrued_yield s)
    (crank_rewards s) (referrer_rewards s) (unstaking s) (cooldown_ends s).
Definition set_xlp_accrued_yield (v : Collateral) (s : LiquidityStatsByAddr) : LiquidityStatsByAddr :=
  mkLiquidityStatsByAddr (lp s) (xlp s) (last_accrue_key s) (lp_accrued_yield s) v
    (crank_rewards s) (referrer_rewards s) (unstaking s) (cooldown_ends s).
Definition set_crank_rewards (v : Collateral) (s : LiquidityStatsByAddr) : LiquidityStatsByAddr :=
  mkLiquidityStatsByAddr (lp s) (xlp s) (last_accrue_key s) (lp_accrued_yield s)
    (xlp_accrued_yield s) v (referrer_rewards s) (unstaking s) (cooldown_ends s).
Definition set_referrer_rewards (v : Collateral) (s : LiquidityStatsByAddr) : LiquidityStatsByAddr :=
  mkLiquidityStatsByAddr (lp s) (xlp s) (last_accrue_key s) (lp_accrued_yield s)
    (xlp_accrued_yield s) (crank_rewards s) v (unstaking s) (cooldown_ends s).
Definition set_unstaking (v : option UnstakingXlp) (s : LiquidityStatsByAddr) : LiquidityStatsByAddr :=
  mkLiquidityStatsByAddr (lp s) (xlp s) (last_accrue_key s) (lp_accrued_yield s)
    (xlp_accrued_yield s) (crank_rewards s) (referrer_rewards s) v (cooldown_ends s).
Definition set_cooldown_ends (v : option Timestamp) (s : LiquidityStatsByAddr) : LiquidityStatsByAddr :=
  mkLiquidityStatsByAddr (lp s) (xlp s) (last_accrue_key s) (lp_accrued_yield s)
    (xlp_accrued_yield s) (crank_rewards s) (referrer_rewards s) (unstaking s) v.

Definition set_LIQUIDITY_STATS (v : LiquidityStats) (s : LiquidityStore) : LiquidityStore :=
  mkLiquidityStore v (LIQUIDITY_STATS_BY_ADDR s) (RESET_LP_STATUS s)
    (YIELD_PER_TIME_PER_TOKEN s).
Definition set_LIQUIDITY_STATS_BY_ADDR (v : gmap Addr LiquidityStatsByAddr) (s : LiquidityStore) : LiquidityStore :=
  mkLiquidityStore (LIQUIDITY_STATS s) v (RESET_LP_STATUS s) (YIELD_PER_TIME_PER_TOKEN s).
Definition set_RESET_LP_STATUS (v : option ResetLpStatus) (s : LiquidityStore) : LiquidityStore :=
  mkLiquidityStore (LIQUIDITY_STATS s) (LIQUIDITY_STATS_BY_ADDR s) v
    (YIELD_PER_TIME_PER_TOKEN s).
Definition set_YIELD_PER_TIME_PER_TOKEN (v : gmap Z YieldPerToken) (s : LiquidityStore) : LiquidityStore :=
  mkLiquidityStore (LIQUIDITY_STATS s) (LIQUIDITY_STATS_BY_ADDR s) (RESET_LP_STATUS s) v.

Definition set_LP_BORROW_FEE_DATA_SERIES (v : DataSeries) (s : FundingStore) : FundingStore :=
  mkFundingStore v (XLP_BORROW_FEE_DATA_SERIES s) (LONG_RF_PRICE_PREFIX_SUM s)
    (SHORT_RF_PRICE_PREFIX_SUM s) (TOTAL_NET_FUNDING_PAID s) (TOTAL_FUNDING_MARGIN s).
Definition set_XLP_BORROW_FEE_DATA_SERIES (v : DataSeries) (s : FundingStore) : FundingStore :=
  mkFundingStore (LP_BORROW_FEE_DATA_SERIES s) v (LONG_RF_PRICE_PREFIX_SUM s)
    (SHORT_RF_PRICE_PREFIX_SUM s) (TOTAL_NET_FUNDING_PAID s) (TOTAL_FUNDING_MARGIN s).
Definition set_LONG_RF_PRICE_PREFIX_SUM (v : DataSeries) (s : FundingStore) : FundingStore :=
  mkFundingStore (LP_BORROW_FEE_DATA_SERIES s) (XLP_BORROW_FEE_DATA_SERIES s) v
    (SHORT_RF_PRICE_PREFIX_SUM s) (TOTAL_NET_FUNDING_PAID s) (TOTAL_FUNDING_MARGIN s).
Definition set_SHORT_RF_PRICE_PREFIX_SUM (v : DataSeries) (s : FundingStore) : FundingStore :=
  mkFundingStore (LP_BORROW_FEE_DATA_SERIES s) (XLP_BORROW_FEE_DATA_SERIES s)
    (LONG_RF_PRICE_PREFIX_SUM s) v (TOTAL_NET_FUNDING_PAID s) (TOTAL_FUNDING_MARGIN s).
Definition set_TOTAL_NET_FUNDING_PAID (v : Signed) (s : FundingStore) : FundingStore :=
  mkFundingStore (LP_BORROW_FEE_DATA_SERIES s) (XLP_BORROW_FEE_DATA_SERIES s)
    (LONG_RF_PRICE_PREFIX_SUM s) (SHORT_RF_PRICE_PREFIX_SUM s) v (TOTAL_FUNDING_MARGIN s).
Definition set_TOTAL_FUNDING_MARGIN (v : Collateral) (s : FundingStore) : FundingStore :=
  mkFundingStore (LP_BORROW_FEE_DATA_SERIES s) (XLP_BORROW_FEE_DATA_SERIES s)
    (LONG_RF_PRICE_PREFIX_SUM s) (SHORT_RF_PRICE_PREFIX_SUM s) (TOTAL_NET_FUNDING_PAID s) v.

Definition set_LP_HISTORY_SUMMARY (v : gmap Addr LpHistorySummary) (s : HistoryStore) : HistoryStore :=
  mkHistoryStore v (LP_HISTORY_BY_ADDRESS s) (REFERRAL_STATS_MAP s).
Definition set_LP_HISTORY_BY_ADDRESS (v : gmap (Addr * Z) LpAction) (s : HistoryStore) : HistoryStore :=
  mkHistoryStore (LP_HISTORY_SUMMARY s) v (REFERRAL_STATS_MAP s).
Definition set_REFERRAL_STATS_MAP (v : gmap Addr ReferralStats) (s : HistoryStore) : HistoryStore :=
  mkHistoryStore (LP_HISTORY_SUMMARY s) (LP_HISTORY_BY_ADDRESS s) v.

Definition set_OPEN_POSITIONS (v : gmap PositionId Position) (s : PositionStore) : PositionStore :=
  mkPositionStore v (LAST_POSITION_ID s) (PRICE_TRIGGER_DESC s) (PRICE_TRIGGER_ASC s)
    (CLOSED_POSITION_HISTORY s) (CLOSED_POSITIONS s) (NEXT_LIQUIFUNDING s).
Definition set_LAST_POSITION_ID (v : PositionId) (s : PositionStore) : PositionStore :=
  mkPositionStore (OPEN_POSITIONS s) v (PRICE_TRIGGER_DESC s) (PRICE_TRIGGER_ASC s)
    (CLOSED_POSITION_HISTORY s) (CLOSED_POSITIONS s) (NEXT_LIQUIFUNDING s).
Definition set_PRICE_TRIGGER_DESC (v : gmap (Z * Z) LiquidationReason) (s : PositionStore) : PositionStore :=
  mkPositionStore (OPEN_POSITIONS s) (LAST_POSITION_ID s) v (PRICE_TRIGGER_ASC s)
    (CLOSED_POSITION_HISTORY s) (CLOSED_POSITIONS s) (NEXT_LIQUIFUNDING s).
Definition set_PRICE_TRIGGER_ASC (v : gmap (Z * Z) LiquidationReason) (s : PositionStore) : PositionStore :=
  mkPositionStore (OPEN_POSITIONS s) (LAST_POSITION_ID s) (PRICE_TRIGGER_DESC s) v
    (CLOSED_POSITION_HISTORY s) (CLOSED_POSITIONS s) (NEXT_LIQUIFUNDING s).
Definition set_CLOSED_POSITION_HISTORY (v : gmap (Addr * (Z * Z)) ClosedPosition) (s : PositionStore) : PositionStore :=
  mkPositionStore (OPEN_POSITIONS s) (LAST_POSITION_ID s) (PRICE_TRIGGER_DESC s)
    (PRICE_TRIGGER_ASC s) v (CLOSED_POSITIONS s) (NEXT_LIQUIFUNDING s).
Definition set_CLOSED_POSITIONS (v : gmap PositionId ClosedPosition) (s : PositionStore) : PositionStore :=
  mkPositionStore (OPEN_POSITIONS s) (LAST_POSITION_ID s) (PRICE_TRIGGER_DESC s)
    (PRICE_TRIGGER_ASC s) (CLOSED_POSITION_HISTORY s) v (NEXT_LIQUIFUNDING s).
Definition set_NEXT_LIQUIFUNDING (v : gmap (Z * Z) unit) (s : PositionStore) : PositionStore :=
  mkPositionStore (OPEN_POSITIONS s) (LAST_POSITION_ID s) (PRICE_TRIGGER_DESC s)
    (PRICE_TRIGGER_ASC s) (CLOSED_POSITION_HISTORY s) (CLOSED_POSITIONS s) v.

Definition set_NFT_APPROVALS (v : gmap string (list Approval)) (s : NftStore) : NftStore :=
  mkNftStore v (NFT_OPERATORS s) (NFT_COUNT s) (NFT_OWNERS s) (NFT_POSITION_IDS s).
Definition set_NFT_OPERATORS (v : gmap (Addr * Addr) Expiration) (s : NftStore) : NftStore :=
  mkNftStore (NFT_APPROVALS s) v (NFT_COUNT s) (NFT_OWNERS s) (NFT_POSITION_IDS s).
Definition set_NFT_COUNT (v : option Z) (s : NftStore) : NftStore :=
  mkNftStore (NFT_APPROVALS s) (NFT_OPERATORS s) v (NFT_OWNERS s) (NFT_POSITION_IDS s).
Definition set_NFT_OWNERS (v : gmap (Addr * string) unit) (s : NftStore) : NftStore :=
  mkNftStore (NFT_APPROVALS s) (NFT_OPERATORS s) (NFT_COUNT s) v (NFT_POSITION_IDS s).
Definition set_NFT_POSITION_IDS (v : gmap string unit) (s : NftStore) : NftStore :=
  mkNftStore (NFT_APPROVALS s) (NFT_OPERATORS s) (NFT_COUNT s) (NFT_OWNERS s) v.

Definition set_LP_ALLOWANCES (v : gmap (Addr * Addr) AllowanceResponse) (s : LpTokenStore) : LpTokenStore :=
  mkLpTokenStore v (LP_ALLOWANCES_SPENDER s) (XLP_ALLOWANCES s) (XLP_ALLOWANCES_SPENDER s).
Definition set_LP_ALLOWANCES_SPENDER (v : gmap (Addr * Addr) AllowanceResponse) (s : LpTokenStore) : LpTokenStore :=
  mkLpTokenStore (LP_ALLOWANCES s) v (XLP_ALLOWANCES s) (XLP_ALLOWANCES_SPENDER s).
Definition set_XLP_ALLOWANCES (v : gmap (Addr * Addr) AllowanceResponse) (s : LpTokenStore) : LpTokenStore :=
  mkLpTokenStore (LP_ALLOWANCES s) (LP_ALLOWANCES_SPENDER s) v (XLP_ALLOWANCES_SPENDER s).
Definition set_XLP_ALLOWANCES_SPENDER (v : gmap (Addr * Addr) AllowanceResponse) (s : LpTokenStore) : LpTokenStore :=
  mkLpTokenStore (LP_ALLOWANCES s) (LP_ALLOWANCES_SPENDER s) (XLP_ALLOWANCES s) v.

Definition set_TRADE_HISTORY_SUMMARY (v : gmap Addr TradeHistorySummary) (s : TradeStore) : TradeStore :=
  mkTradeStore v (TRADE_HISTORY_BY_POSITION s) (TRADE_HISTORY_BY_ADDRESS s).
Definition set_TRADE_HISTORY_BY_POSITION (v : gmap (Z * Z) PositionAction) (s : TradeStore) : TradeStore :=
  mkTradeStore (TRADE_HISTORY_SUMMARY s) v (TRADE_HISTORY_BY_ADDRESS s).
Definition set_TRADE_HISTORY_BY_ADDRESS (v : gmap (Addr * Z) PositionAction) (s : TradeStore) : TradeStore :=
  mkTradeStore (TRADE_HISTORY_SUMMARY s) (TRADE_HISTORY_BY_POSITION s) v.

Definition set_LAST_ORDER_ID (v : option OrderId) (s : OrderStore) : OrderStore :=
  mkOrderStore v (LIMIT_ORDERS s) (LIMIT_ORDERS_BY_PRICE_LONG s) (LIMIT_ORDERS_BY_PRICE_SHORT s)
    (LIMIT_ORDERS_BY_ADDR s) (EXECUTED_LIMIT_ORDERS s).
Definition set_LIMIT_ORDERS (v : gmap OrderId LimitOrder) (s : OrderStore) : OrderStore :=
  mkOrderStore (LAST_ORDER_ID s) v (LIMIT_ORDERS_BY_PRICE_LONG s)
    (LIMIT_ORDERS_BY_PRICE_SHORT s) (LIMIT_ORDERS_BY_ADDR s) (EXECUTED_LIMIT_ORDERS s).
Definition set_LIMIT_ORDERS_BY_PRICE_LONG (v : gmap (Z * Z) unit) (s : OrderStore) : OrderStore :=
  mkOrderStore (LAST_ORDER_ID s) (LIMIT_ORDERS s) v (LIMIT_ORDERS_BY_PRICE_SHORT s)
    (LIMIT_ORDERS_BY_ADDR s) (EXECUTED_LIMIT_ORDERS s).
Definition set_LIMIT_ORDERS_BY_PRICE_SHORT (v : gmap (Z * Z) unit) (s : OrderStore) : OrderStore :=
  mkOrderStore (LAST_ORDER_ID s) (LIMIT_ORDERS s) (LIMIT_ORDERS_BY_PRICE_LONG s) v
    (LIMIT_ORDERS_BY_ADDR s) (EXECUTED_LIMIT_ORDERS s).
Definition set_LIMIT_ORDERS_BY_ADDR (v : gmap (Addr * Z) unit) (s : OrderStore) : OrderStore :=
  mkOrderStore (LAST_ORDER_ID s) (LIMIT_ORDERS s) (LIMIT_ORDERS_BY_PRICE_LONG s)
    (LIMIT_ORDERS_BY_PRICE_SHORT s) v (EXECUTED_LIMIT_ORDERS s).
Definition set_EXECUTED_LIMIT_ORDERS (v : gmap (Addr * Z) ExecutedLimitOrder) (s : OrderStore) : OrderStore :=
  mkOrderStore (LAST_ORDER_ID s) (LIMIT_ORDERS s) (LIMIT_ORDERS_BY_PRICE_LONG s)
    (LIMIT_ORDERS_BY_PRICE_SHORT s) (LIMIT_ORDERS_BY_ADDR s) v.

Definition set_DEFERRED_EXEC_LATEST_IDS (v : option DeferredExecLatestIds) (s : DeferredStore) : DeferredStore :=
  mkDeferredStore v (DEFERRED_EXECS s) (DEFERRED_EXECS_BY_WALLET s)
    (PENDING_DEFERRED_FOR_POSITION s) (PENDING_DEFERRED_FOR_ORDER s)
    (IS_LIMIT_ORDER_CANCELING s) (IS_POSITION_CLOSING s).
Definition set_DEFERRED_EXECS (v : gmap DeferredExecId DeferredExecWithStatus) (s : DeferredStore) : DeferredStore :=
  mkDeferredStore (DEFERRED_EXEC_LATEST_IDS s) v (DEFERRED_EXECS_BY_WALLET s)
    (PENDING_DEFERRED_FOR_POSITION s) (PENDING_DEFERRED_FOR_ORDER s)
    (IS_LIMIT_ORDER_CANCELING s) (IS_POSITION_CLOSING s).
Definition set_DEFERRED_EXECS_BY_WALLET (v : gmap (Addr * Z) unit) (s : DeferredStore) : DeferredStore :=
  mkDeferredStore (DEFERRED_EXEC_LATEST_IDS s) (DEFERRED_EXECS s) v
    (PENDING_DEFERRED_FOR_POSITION s) (PENDING_DEFERRED_FOR_ORDER s)
    (IS_LIMIT_ORDER_CANCELING s) (IS_POSITION_CLOSING s).
Definition set_PENDING_DEFERRED_FOR_POSITION (v : gmap (Z * Z) unit) (s : DeferredStore) : DeferredStore :=
  mkDeferredStore (DEFERRED_EXEC_LATEST_IDS s) (DEFERRED_EXECS s) (DEFERRED_EXECS_BY_WALLET s) v
    (PENDING_DEFERRED_FOR_ORDER s) (IS_LIMIT_ORDER_CANCELING s) (IS_POSITION_CLOSING s).
Definition set_PENDING_DEFERRED_FOR_ORDER (v : gmap (Z * Z) unit) (s : DeferredStore) : DeferredStore :=
  mkDeferredStore (DEFERRED_EXEC_LATEST_IDS s) (DEFERRED_EXECS s) (DEFERRED_EXECS_BY_WALLET s)
    (PENDING_DEFERRED_FOR_POSITION s) v (IS_LIMIT_ORDER_CANCELING s) (IS_POSITION_CLOSING s).
Definition set_IS_LIMIT_ORDER_CANCELING (v : gmap OrderId unit) (s : DeferredStore) : DeferredStore :=
  mkDeferredStore (DEFERRED_EXEC_LATEST_IDS s) (DEFERRED_EXECS s) (DEFERRED_EXECS_BY_WALLET s)
    (PENDING_DEFERRED_FOR_POSITION s) (PENDING_DEFERRED_FOR_ORDER s) v (IS_POSITION_CLOSING s).
Definition set_IS_POSITION_CLOSING (v : gmap PositionId unit) (s : DeferredStore) : DeferredStore :=
  mkDeferredStore (DEFERRED_EXEC_LATEST_IDS s) (DEFERRED_EXECS s) (DEFERRED_EXECS_BY_WALLET s)
    (PENDING_DEFERRED_FOR_POSITION s) (PENDING_DEFERRED_FOR_ORDER s)
    (IS_LIMIT_ORDER_CANCELING s) v.

Definition set_LAST_CRANK_COMPLETED (v : option Timestamp) (s : CrankStore) : CrankStore :=
  mkCrankStore v (CRANK_BATCH_WEIGHT_LEFT s) (CLOSE_ALL_POSITIONS s).
Definition set_CRANK_BATCH_WEIGHT_LEFT (v : option CrankProgress) (s : CrankStore) : CrankStore :=
  mkCrankStore (LAST_CRANK_COMPLETED s) v (CLOSE_ALL_POSITIONS s).
Definition set_CLOSE_ALL_POSITIONS (v : option unit) (s : CrankStore) : CrankStore :=
  mkCrankStore (LAST_CRANK_COMPLETED s) (CRANK_BATCH_WEIGHT_LEFT s) v.

Definition set_PRICES (v : gmap Timestamp PriceStorage) (s : MarketCtx) : MarketCtx :=
  mkMarketCtx v (MANUAL_SPOT_PRICE s) (OPEN_NOTIONAL_LONG_INTEREST s)
    (OPEN_NOTIONAL_SHORT_INTEREST s) (m_liquidity s) (ALL_FEES s) (m_funding s)
    (DELTA_NEUTRALITY_FUND s) (m_history s) (m_positions s) (m_nft s) (m_lp_tokens s)
    (m_trades s) (m_orders s) (m_deferred s) (m_crank s) (fund_transfers s) (m_events s)
    (m_messages s).
Definition set_MANUAL_SPOT_PRICE (v : option PriceStorage) (s : MarketCtx) : MarketCtx :=
  mkMarketCtx (PRICES s) v (OPEN_NOTIONAL_LONG_INTEREST s) (OPEN_NOTIONAL_SHORT_INTEREST s)
    (m_liquidity s) (ALL_FEES s) (m_funding s) (DELTA_NEUTRALITY_FUND s) (m_history s)
    (m_positions s) (m_nft s) (m_lp_tokens s) (m_trades s) (m_orders s) (m_deferred s)
    (m_crank s) (fund_transfers s) (m_events s) (m_messages s).
Definition set_OPEN_NOTIONAL_LONG_INTEREST (v : Notional) (s : MarketCtx) : MarketCtx :=
  mkMarketCtx (PRICES s) (MANUAL_SPOT_PRICE s) v (OPEN_NOTIONAL_SHORT_INTEREST s)
    (m_liquidity s) (ALL_FEES s) (m_funding s) (DELTA_NEUTRALITY_FUND s) (m_history s)
    (m_positions s) (m_nft s) (m_lp_tokens s) (m_trades s) (m_orders s) (m_deferred s)
    (m_crank s) (fund_transfers s) (m_events s) (m_messages s).
Definition set_OPEN_NOTIONAL_SHORT_INTEREST (v : Notional) (s : MarketCtx) : MarketCtx :=
  mkMarketCtx (PRICES s) (MANUAL_SPOT_PRICE s) (OPEN_NOTIONAL_LONG_INTEREST s) v (m_liquidity s)
    (ALL_FEES s) (m_funding s) (DELTA_NEUTRALITY_FUND s) (m_history s) (m_positions s) (m_nft s)
    (m_lp_tokens s) (m_trades s) (m_orders s) (m_deferred s) (m_crank s) (fund_transfers s)
    (m_events s) (m_messages s).
Definition set_m_liquidity (v : LiquidityStore) (s : MarketCtx) : MarketCtx :=
  mkMarketCtx (PRICES s) (MANUAL_SPOT_PRICE s) (OPEN_NOTIONAL_LONG_INTEREST s)
    (OPEN_NOTIONAL_SHORT_INTEREST s) v (ALL_FEES s) (m_funding s) (DELTA_NEUTRALITY_FUND s)
    (m_history s) (m_positions s) (m_nft s) (m_lp_tokens s) (m_trades s) (m_orders s)
    (m_deferred s) (m_crank s) (fund_transfers s) (m_events s) (m_messages s).
Definition set_ALL_FEES (v : Fees) (s : MarketCtx) : MarketCtx :=
  mkMarketCtx (PRICES s) (MANUAL_SPOT_PRICE s) (OPEN_NOTIONAL_LONG_INTEREST s)
    (OPEN_NOTIONAL_SHORT_INTEREST s) (m_liquidity s) v (m_funding s) (DELTA_NEUTRALITY_FUND s)
    (m_history s) (m_positions s) (m_nft s) (m_lp_tokens s) (m_trades s) (m_orders s)
    (m_deferred s) (m_crank s) (fund_transfers s) (m_events s) (m_messages s).
Definition set_m_funding (v : FundingStore) (s : MarketCtx) : MarketCtx :=
  mkMarketCtx (PRICES s) (MANUAL_SPOT_PRICE s) (OPEN_NOTIONAL_LONG_INTEREST s)
    (OPEN_NOTIONAL_SHORT_INTEREST s) (m_liquidity s) (ALL_FEES s) v (DELTA_NEUTRALITY_FUND s)
    (m_history s) (m_positions s) (m_nft s) (m_lp_tokens s) (m_trades s) (m_orders s)
    (m_deferred s) (m_crank s) (fund_transfers s) (m_events s) (m_messages s).
Definition set_DELTA_NEUTRALITY_FUND (v : option Collateral) (s : MarketCtx) : MarketCtx :=
  mkMarketCtx (PRICES s) (MANUAL_SPOT_PRICE s) (OPEN_NOTIONAL_LONG_INTEREST s)
    (OPEN_NOTIONAL_SHORT_INTEREST s) (m_liquidity s) (ALL_FEES s) (m_funding s) v (m_history s)
    (m_positions s) (m_nft s) (m_lp_tokens s) (m_trades s) (m_orders s) (m_deferred s)
    (m_crank s) (fund_transfers s) (m_events s) (m_messages s).
Definition set_m_history (v : HistoryStore) (s : MarketCtx) : MarketCtx :=
  mkMarketCtx (PRICES s) (MANUAL_SPOT_PRICE s) (OPEN_NOTIONAL_LONG_INTEREST s)
    (OPEN_NOTIONAL_SHORT_INTEREST s) (m_liquidity s) (ALL_FEES s) (m_funding s)
    (DELTA_NEUTRALITY_FUND s) v (m_positions s) (m_nft s) (m_lp_tokens s) (m_trades s)
    (m_orders s) (m_deferred s) (m_crank s) (fund_transfers s) (m_events s) (m_messages s).
Definition set_m_positions (v : PositionStore) (s : MarketCtx) : MarketCtx :=
  mkMarketCtx (PRICES s) (MANUAL_SPOT_PRICE s) (OPEN_NOTIONAL_LONG_INTEREST s)
    (OPEN_NOTIONAL_SHORT_INTEREST s) (m_liquidity s) (ALL_FEES s) (m_funding s)
    (DELTA_NEUTRALITY_FUND s) (m_history s) v (m_nft s) (m_lp_tokens s) (m_trades s)
    (m_orders s) (m_deferred s) (m_crank s) (fund_transfers s) (m_events s) (m_messages s).
Definition set_m_nft (v : NftStore) (s : MarketCtx) : MarketCtx :=
  mkMarketCtx (PRICES s) (MANUAL_SPOT_PRICE s) (OPEN_NOTIONAL_LONG_INTEREST s)
    (OPEN_NOTIONAL_SHORT_INTEREST s) (m_liquidity s) (ALL_FEES s) (m_funding s)
    (DELTA_NEUTRALITY_FUND s) (m_history s) (m_positions s) v (m_lp_tokens s) (m_trades s)
    (m_orders s) (m_deferred s) (m_crank s) (fund_transfers s) (m_events s) (m_messages s).
Definition set_m_lp_tokens (v : LpTokenStore) (s : MarketCtx) : MarketCtx :=
  mkMarketCtx (PRICES s) (MANUAL_SPOT_PRICE s) (OPEN_NOTIONAL_LONG_INTEREST s)
    (OPEN_NOTIONAL_SHORT_INTEREST s) (m_liquidity s) (ALL_FEES s) (m_funding s)
    (DELTA_NEUTRALITY_FUND s) (m_history s) (m_positions s) (m_nft s) v (m_trades s)
    (m_orders s) (m_deferred s) (m_crank s) (fund_transfers s) (m_events s) (m_messages s).
Definition set_m_trades (v : TradeStore) (s : MarketCtx) : MarketCtx :=
  mkMarketCtx (PRICES s) (MANUAL_SPOT_PRICE s) (OPEN_NOTIONAL_LONG_INTEREST s)
    (OPEN_NOTIONAL_SHORT_INTEREST s) (m_liquidity s) (ALL_FEES s) (m_funding s)
    (DELTA_NEUTRALITY_FUND s) (m_history s) (m_positions s) (m_nft s) (m_lp_tokens s) v
    (m_orders s) (m_deferred s) (m_crank s) (fund_transfers s) (m_events s) (m_messages s).
Definition set_m_orders (v : OrderStore) (s : MarketCtx) : MarketCtx :=
  mkMarketCtx (PRICES s) (MANUAL_SPOT_PRICE s) (OPEN_NOTIONAL_LONG_INTEREST s)
    (OPEN_NOTIONAL_SHORT_INTEREST s) (m_liquidity s) (ALL_FEES s) (m_funding s)
    (DELTA_NEUTRALITY_FUND s) (m_history s) (m_positions s) (m_nft s) (m_lp_tokens s)
    (m_trades s) v (m_deferred s) (m_crank s) (fund_transfers s) (m_events s) (m_messages s).
Definition set_m_deferred (v : DeferredStore) (s : MarketCtx) : MarketCtx :=
  mkMarketCtx (PRICES s) (MANUAL_SPOT_PRICE s) (OPEN_NOTIONAL_LONG_INTEREST s)
    (OPEN_NOTIONAL_SHORT_INTEREST s) (m_liquidity s) (ALL_FEES s) (m_funding s)
    (DELTA_NEUTRALITY_FUND s) (m_history s) (m_positions s) (m_nft s) (m_lp_tokens s)
    (m_trades s) (m_orders s) v (m_crank s) (fund_transfers s) (m_events s) (m_messages s).
Definition set_m_crank (v : CrankStore) (s : MarketCtx) : MarketCtx :=
  mkMarketCtx (PRICES s) (MANUAL_SPOT_PRICE s) (OPEN_NOTIONAL_LONG_INTEREST s)
    (OPEN_NOTIONAL_SHORT_INTEREST s) (m_liquidity s) (ALL_FEES s) (m_funding s)
    (DELTA_NEUTRALITY_FUND s) (m_history s) (m_positions s) (m_nft s) (m_lp_tokens s)
    (m_trades s) (m_orders s) (m_deferred s) v (fund_transfers s) (m_events s) (m_messages s).
Definition set_fund_transfers (v : gmap Addr Collateral) (s : MarketCtx) : MarketCtx :=
  mkMarketCtx (PRICES s) (MANUAL_SPOT_PRICE s) (OPEN_NOTIONAL_LONG_INTEREST s)
    (OPEN_NOTIONAL_SHORT_INTEREST s) (m_liquidity s) (ALL_FEES s) (m_funding s)
    (DELTA_NEUTRALITY_FUND s) (m_history s) (m_positions s) (m_nft s) (m_lp_tokens s)
    (m_trades s) (m_orders s) (m_deferred s) (m_crank s) v (m_events s) (m_messages s).
Definition set_m_events (v : list MarketEvent) (s : MarketCtx) : MarketCtx :=
  mkMarketCtx (PRICES s) (MANUAL_SPOT_PRICE s) (OPEN_NOTIONAL_LONG_INTEREST s)
    (OPEN_NOTIONAL_SHORT_INTEREST s) (m_liquidity s) (ALL_FEES s) (m_funding s)
    (DELTA_NEUTRALITY_FUND s) (m_history s) (m_positions s) (m_nft s) (m_lp_tokens s)
    (m_trades s) (m_orders s) (m_deferred s) (m_crank s) (fund_transfers s) v (m_messages s).
Definition set_m_messages (v : list SubMessage) (s : MarketCtx) : MarketCtx :=
  mkMarketCtx (PRICES s) (MANUAL_SPOT_PRICE s) (OPEN_NOTIONAL_LONG_INTEREST s)
    (OPEN_NOTIONAL_SHORT_INTEREST s) (m_liquidity s) (ALL_FEES s) (m_funding s)
    (DELTA_NEUTRALITY_FUND s) (m_history s) (m_positions s) (m_nft s) (m_lp_tokens s)
    (m_trades s) (m_orders s) (m_deferred s) (m_crank s) (fund_transfers s) (m_events s) v.

(** ** [State]: what a message reads of its environment *)

(** What the oracle contracts answer: a Pyth price, the redemption rate of
    Stride, and the response of a simple oracle. *)
Record PythPrice := mkPythPrice { py_price : Z; py_expo : Z; py_publish_time : Z }.
Record StrideResp := mkStrideResp { sr_redemption_rate : Decimal256; sr_update_time : Z }.
Record SimpleResp := mkSimpleResp {
  sp_value : Decimal256;
  sp_block_time : Timestamp;
  sp_timestamp : option Timestamp;
  sp_volatile : bool;
}.

Record OracleQuerier := mkOracleQuerier {
  (** [query_price_feed] followed by [get_price_unchecked] and by
      [get_price_no_older_than] *)
  oq_pyth_unchecked : Addr -> string -> res PythPrice;
  oq_pyth_no_older_than : Addr -> string -> Z -> Z -> res (option PythPrice);
  oq_stride : Addr -> string -> res StrideResp;
  (** [ChainSymbol::parse(..).symbol()] and [EnshrinedPrice::load] *)
  oq_rujira_symbol : string -> string;
  oq_rujira : string -> res Decimal256;
  oq_simple : Addr -> res SimpleResp;
}.

(** What the factory contract answers to raw queries. *)
Record FactoryQuerier := mkFactoryQuerier {
  fq_owner : res Addr;
  fq_wind_down : res Addr;
  fq_is_shut_down : ShutdownImpact -> res bool;
  fq_position_token : res Addr;
  fq_liquidity_token : LiquidityTokenKind -> res Addr;
}.

Record State := mkState {
  st_now : Timestamp;
  st_config : Config;
  st_market_id : MarketId;
  st_token : Token;
  (** the raw query to the factory for the referrer of a trader *)
  st_query_referrer : Addr -> res (option RawAddr);
  (** the raw query to the factory for the DAO treasury *)
  st_query_dao : res Addr;
  st_height : Z;
  (** the address of the market contract *)
  st_contract : Addr;
  (** [DefaultHasher] applied to the time, a position's owner and its id *)
  st_semi_random : Timestamp -> Addr -> PositionId -> Z;
  (** when the market was instantiated *)
  st_instantiation_time : Timestamp;
  st_oracle : OracleQuerier;
  st_factory : FactoryQuerier;
}.

Definition st_block (st : State) : BlockInfo :=
  {| block_height := st_height st; block_time := st_now st |}.

Abbreviation mhandler A := (handler MarketCtx error A) (only parsing).

(** Write access to a component's storage. *)
Definition mod_liquidity (f : LiquidityStore -> LiquidityStore) : mhandler unit :=
  hmod (fun m => set_m_liquidity (f (m_liquidity m)) m).
Definition mod_funding (f : FundingStore -> FundingStore) : mhandler unit :=
  hmod (fun m => set_m_funding (f (m_funding m)) m).
Definition mod_history (f : HistoryStore -> HistoryStore) : mhandler unit :=
  hmod (fun m => set_m_history (f (m_history m)) m).
Definition mod_positions (f : PositionStore -> PositionStore) : mhandler unit :=
  hmod (fun m => set_m_positions (f (m_positions m)) m).
Definition mod_nft (f : NftStore -> NftStore) : mhandler unit :=
  hmod (fun m => set_m_nft (f (m_nft m)) m).
Definition mod_lp_tokens (f : LpTokenStore -> LpTokenStore) : mhandler unit :=
  hmod (fun m => set_m_lp_tokens (f (m_lp_tokens m)) m).
Definition mod_trades (f : TradeStore -> TradeStore) : mhandler unit :=
  hmod (fun m => set_m_trades (f (m_trades m)) m).
Definition mod_orders (f : OrderStore -> OrderStore) : mhandler unit :=
  hmod (fun m => set_m_orders (f (m_orders m)) m).
Definition mod_deferred (f : DeferredStore -> DeferredStore) : mhandler unit :=
  hmod (fun m => set_m_deferred (f (m_deferred m)) m).
Definition mod_crank (f : CrankStore -> CrankStore) : mhandler unit :=
  hmod (fun m => set_m_crank (f (m_crank m)) m).
Definition add_message (msg : SubMessage) : mhandler unit :=
  hmod (fun m => set_m_messages (m_messages m ++ [msg]) m).

(** [ResponseBuilder::add_event]. *)
Definition add_event (st : State) (e : MarketEvent) : mhandler unit :=
  hmod (fun m => if mute_events (st_config st) then m else set_m_events (m_events m ++ [e]) m).
Definition add_events (st : State) (es : list MarketEvent) : mhandler unit :=
  hmod (fun m => if mute_events (st_config st) then m else set_m_events (m_events m ++ es) m).

Definition market_type (st : State) : MarketType := mid_market_type (st_market_id st).

(** *** Open interest *)

Definition open_long_interest (m : MarketCtx) : Notional := OPEN_NOTIONAL_LONG_INTEREST m.
Definition open_short_interest (m : MarketCtx) : Notional := OPEN_NOTIONAL_SHORT_INTEREST m.
Definition positions_net_open_interest {CW : CosmwasmStd} (m : MarketCtx) : res Signed :=
  signed_checked_sub (into_signed (open_long_interest m)) (into_signed (open_short_interest m)).

(** *** Spot price *)

Definition make_price_point (st : State) (timestamp : Timestamp) (p : PriceStorage) : PricePoint :=
  mkPricePoint (ps_price p) (ps_price_usd p) (ps_price_base p) timestamp
    (market_is_notional_usd (st_market_id st)) (market_type st) (ps_publish_time p)
    (ps_publish_time_usd p).

Definition spot_price_inner_opt (st : State) (m : MarketCtx) (timestamp : Timestamp) :
    option PricePoint :=
  '(timestamp, price_storage) ← last_entry (until timestamp) (PRICES m);
  Some (make_price_point st timestamp price_storage).

Definition spot_price_at (st : State) (m : MarketCtx) (timestamp : Timestamp) : res PricePoint :=
  of_option (PerpError PriceNotFound DomSpotPrice None) (spot_price_inner_opt st m timestamp).

Definition current_spot_price (st : State) (m : MarketCtx) : res PricePoint :=
  spot_price_at st m (st_now st).

Section Definitions.
Context {CW : CosmwasmStd}.

Definition add_token_transfer_msg (addr : Addr) (amount : Collateral) : mhandler unit :=
  transfers <~ hget fund_transfers;
  transfers <~ hlift (fund_transfer transfers addr amount);
  hmod (set_fund_transfers transfers).

(** [get_referrer_for]: the factory's answer, validated. *)
Definition get_referrer_for (st : State) (referee : Addr) : res (option Addr) :=
  raw <- st_query_referrer st referee;
  match raw with
  | None => Ok None
  | Some referrer => a <- std (addr_validate referrer); Ok (Some a)
  end.

End Definitions.

(** * Theory: what an operation leaves alone *)

(** The liquidity accounting and the fee balances are unchanged. *)
Definition same_books (m m' : MarketCtx) : Prop :=
  m_liquidity m' = m_liquidity m /\ ALL_FEES m' = ALL_FEES m.

Definition keeps_books {A} (h : mhandler A) : Prop :=
  forall m a m', h m = Ok (a, m') -> same_books m m'.

Section Keeps.
Lemma keeps_bind {A B} (c : mhandler A) (k : A -> mhandler B) :
  keeps_books c -> (forall a, keeps_books (k a)) -> keeps_books (hbind c k).
Proof.
  intros Hc Hk m b m' H. inv_ok. destruct (Hc _ _ _ H0) as [? ?], (Hk _ _ _ _ H) as [? ?].
  split; congruence.
Qed.
Lemma keeps_ret {A} (a : A) : keeps_books (hret a).
Proof. intros m b m' H. inv_ok. done. Qed.
Lemma keeps_err {A} (e : error) : keeps_books (herr (A:=A) e).
Proof. intros m b m' H. inv_ok. Qed.
Lemma keeps_lift {A} (r : res A) : keeps_books (hlift r).
Proof. intros m b m' H. inv_ok. done. Qed.
Lemma keeps_ask {A} (f : MarketCtx -> res A) : keeps_books (hask f).
Proof. intros m b m' H. inv_ok. done. Qed.
Lemma keeps_get {A} (f : MarketCtx -> A) : keeps_books (hget f).
Proof. intros m b m' H. inv_ok. done. Qed.
Lemma keeps_ensure b (e : error) : keeps_books (hensure b e).
Proof. intros m u m' H. inv_ok. done. Qed.
Lemma keeps_mod_history f : keeps_books (mod_history f).
Proof. intros m u m' H. unfold mod_history in H. inv_ok. done. Qed.
Lemma keeps_mod_funding f : keeps_books (mod_funding f).
Proof. intros m u m' H. unfold mod_funding in H. inv_ok. done. Qed.
Lemma keeps_transfers t : keeps_books (hmod (set_fund_transfers t)).
Proof. intros m u m' H. inv_ok. done. Qed.
Lemma keeps_dnf t : keeps_books (hmod (set_DELTA_NEUTRALITY_FUND t)).
Proof. intros m u m' H. inv_ok. done. Qed.
Lemma keeps_add_event st e : keeps_books (add_event st e).
Proof.
  intros m u m' H. unfold add_event in H. inv_ok. by destruct (mute_events _).
Qed.
Lemma keeps_add_events st es : keeps_books (add_events st es).
Proof.
  intros m u m' H. unfold add_events in H. inv_ok. by destruct (mute_events _).
Qed.
End Keeps.

#[export] Hint Resolve keeps_bind keeps_ret keeps_err keeps_lift keeps_ask keeps_get keeps_ensure
  keeps_mod_history keeps_mod_funding keeps_transfers keeps_dnf keeps_add_event
  keeps_add_events : perps.

(** Prove [keeps_books] by following the structure of a handler. *)
Ltac keeps :=
  repeat first
    [ progress intros
    | apply keeps_bind
    | solve [eauto 2 with perps]
    | match goal with
      | |- keeps_books (match ?x with _ => _ end) => destruct x
      | |- keeps_books (if ?x then _ else _) => destruct x
      end ].

Lemma keeps_add_token_transfer_msg {CW : CosmwasmStd} addr amount :
  keeps_books (add_token_transfer_msg addr amount).
Proof. unfold add_token_transfer_msg. keeps. Qed.
#[export] Hint Resolve keeps_add_token_transfer_msg : perps.

(** Replace a successful run of such an operation by the equations. *)
Lemma same_books_refl m : same_books m m.
Proof. done. Qed.
Lemma same_books_trans m1 m2 m3 : same_books m1 m2 -> same_books m2 m3 -> same_books m1 m3.
Proof. intros [? ?] [? ?]. split; congruence. Qed.
