(* ===== verification/Pool.v ===== *)
(** * The liquidity pool's exchange rate

    [packages/perpswap/src/contracts/market/liquidity.rs]: the conversions
    between LP tokens and the collateral that backs them, and the pool size
    event.  The theory relates the rounded conversions to the exact rate
    [total_collateral / total_tokens]. *)

From stdpp Require Import base option gmap strings list.
From Stdlib Require Import ZArith Lia.
From S2P Require Import Prelude Storage Cosmwasm Types Number Time Market Price Token DataSeries Config Position State.
Local Open Scope Z_scope.

Definition liquidity_stats_default : LiquidityStats := mkLiquidityStats 0 0 0 0.

Section Definitions.
Context {CW : CosmwasmStd}.

Definition total_collateral (self : LiquidityStats) : res Collateral :=
  ud_checked_add (locked self) (unlocked self).
Definition total_tokens (self : LiquidityStats) : res LpToken :=
  ud_checked_add (total_lp self) (total_xlp self).

Definition lp_to_collateral (self : LiquidityStats) (lp : LpToken) : res Collateral :=
  if ud_is_zero lp then Ok 0
  else
    total_collateral <- total_collateral self;
    is_empty <- ud_approx_eq total_collateral 0;
    _ <- ensure (negb is_empty)
           (AnyhowError "LiquidityStats::lp_to_collateral: no liquidity is in the pool");
    total_tokens <- total_tokens self;
    p <- std (dec_mul total_collateral lp);
    std (dec_div p total_tokens).

Definition lp_to_collateral_non_zero (self : LiquidityStats) (lp : LpToken) : res Collateral :=
  c <- lp_to_collateral self lp;
  of_option (AnyhowError "lp_to_collateral_non_zero: amount of backing collateral rounded to 0")
    (nonzero_new c).

Definition collateral_to_lp (self : LiquidityStats) (amount : Collateral) : res LpToken :=
  total_collateral <- total_collateral self;
  shares <- (if ud_is_zero total_collateral then Ok amount
             else total_tokens <- total_tokens self;
                  p <- std (dec_mul total_tokens amount);
                  std (dec_div p total_collateral));
  of_option (AnyhowError "liquidity_deposit_inner: new shares is (impossibly) 0")
    (nonzero_new shares).

(** [LiquidityPoolSizeEvent::from_stats]. *)
Definition pool_size_from_stats (stats : LiquidityStats) (price : PricePoint) :
    res LiquidityPoolSizeEvent :=
  total_collateral <- total_collateral stats;
  total_tokens <- total_tokens stats;
  '(lp_collateral, xlp_collateral) <-
    (if ud_is_zero total_tokens then Ok (0, 0)
     else
       p <- op_mul total_collateral (total_lp stats);
       lp_collateral <- op_div p total_tokens;
       xlp_collateral <- ud_checked_sub total_collateral lp_collateral;
       Ok (lp_collateral, xlp_collateral));
  locked_usd <- collateral_to_usd price (locked stats);
  unlocked_usd <- collateral_to_usd price (unlocked stats);
  Ok (mkLiquidityPoolSizeEvent (locked stats) locked_usd (unlocked stats) unlocked_usd
        lp_collateral xlp_collateral (total_lp stats) (total_xlp stats)).

End Definitions.

(** * Theory *)

(** The exact totals, without the overflow check. *)
Definition collateral_of (s : LiquidityStats) : Z := locked s + unlocked s.
Definition tokens_of (s : LiquidityStats) : Z := total_lp s + total_xlp s.

Record pool_ok (s : LiquidityStats) : Prop := {
  pool_locked : 0 <= locked s <= U256_MAX;
  pool_unlocked : 0 <= unlocked s;
  pool_lp : 0 <= total_lp s;
  pool_xlp : 0 <= total_xlp s;
}.

Lemma pool_ok_default : pool_ok liquidity_stats_default.
Proof. repeat split; vm_compute; congruence. Qed.

(** [floor(floor(a * b / one) * one / d)] is at most [a * b / d]. *)
Lemma mul_div_bound a b d :
  0 <= a -> 0 <= b -> 0 < d -> (a * b / DEC_ONE * DEC_ONE / d) * d <= a * b.
Proof.
  intros Ha Hb Hd. pose proof DEC_ONE_pos as H1.
  transitivity (a * b / DEC_ONE * DEC_ONE).
  - rewrite (Z.mul_comm (_ / d) d). by apply Z.mul_div_le.
  - rewrite (Z.mul_comm (_ / DEC_ONE)). by apply Z.mul_div_le.
Qed.

Section Theory.
Context {CW : CosmwasmStd} {CWS : CosmwasmStdSpec CW}.

Lemma total_collateral_ok s c : total_collateral s = Ok c -> c = collateral_of s.
Proof. unfold total_collateral, ud_checked_add. intros H. by lib_inv. Qed.
Lemma total_tokens_ok s c : total_tokens s = Ok c -> c = tokens_of s.
Proof. unfold total_tokens, ud_checked_add. intros H. by lib_inv. Qed.

(** What the tokens are exchanged for is at most their exact share. *)
Lemma lp_to_collateral_bound s l c :
  pool_ok s -> 0 <= l -> lp_to_collateral s l = Ok c ->
  0 <= c /\ c * tokens_of s <= collateral_of s * l.
Proof.
  intros Hs Hl H. unfold lp_to_collateral in H.
  assert (0 <= collateral_of s) by (destruct Hs; unfold collateral_of; lia).
  assert (0 <= tokens_of s) by (destruct Hs; unfold tokens_of; lia).
  destruct (ud_is_zero l) eqn:El.
  - inv_ok. split; [lia|]. rewrite Z.mul_0_l. by apply Z.mul_nonneg_nonneg.
  - apply rbind_ok in H as (C & HC & H). apply total_collateral_ok in HC as ->.
    apply rbind_ok in H as (b & _ & H). apply rbind_ok in H as (? & _ & H).
    apply rbind_ok in H as (T & HT & H). apply total_tokens_ok in HT as ->.
    apply rbind_ok in H as (p & Hp & H). lib_inv.
    split; [unfold is_dec in *; lia|]. apply mul_div_bound; lia.
Qed.

Lemma lp_to_collateral_non_zero_bound s l c :
  pool_ok s -> 0 <= l -> lp_to_collateral_non_zero s l = Ok c ->
  0 < c /\ c * tokens_of s <= collateral_of s * l.
Proof.
  intros Hs Hl H. unfold lp_to_collateral_non_zero in H. apply rbind_ok in H as (c' & Hc & H).
  apply of_option_ok, nonzero_new_Some in H as [-> Hne].
  apply lp_to_collateral_bound in Hc as [? ?]; try done. split; [lia|done].
Qed.

(** The tokens minted for a deposit: one per atom into an empty pool, and
    otherwise at most the exact number. *)
Lemma collateral_to_lp_bound s a shares :
  pool_ok s -> 0 < a -> collateral_to_lp s a = Ok shares ->
  0 < shares /\
  (collateral_of s = 0 -> shares = a) /\
  shares * collateral_of s <= tokens_of s * a.
Proof.
  intros Hs Ha H. unfold collateral_to_lp in H.
  assert (0 <= collateral_of s) by (destruct Hs; unfold collateral_of; lia).
  assert (0 <= tokens_of s) by (destruct Hs; unfold tokens_of; lia).
  apply rbind_ok in H as (C & HC & H). apply total_collateral_ok in HC as ->.
  apply rbind_ok in H as (sh & Hsh & H). apply of_option_ok, nonzero_new_Some in H as [-> Hne].
  unfold ud_is_zero in Hsh. destruct (Z.eqb_spec (collateral_of s) 0) as [E|E].
  - inv_ok. split_and!; [lia|done|]. rewrite E, Z.mul_0_r. apply Z.mul_nonneg_nonneg; lia.
  - apply rbind_ok in Hsh as (T & HT & Hsh). apply total_tokens_ok in HT as ->.
    lib_inv. split_and!; [unfold is_dec in *; lia|done|]. apply mul_div_bound; lia.
Qed.

(** The collateral behind the LP tokens and behind the xLP tokens add up to
    the pool. *)
Lemma pool_size_parts s pp e :
  pool_ok s -> pool_size_from_stats s pp = Ok e ->
  0 < tokens_of s -> pse_lp_collateral e + pse_xlp_collateral e = collateral_of s /\
  0 <= pse_lp_collateral e /\ 0 <= pse_xlp_collateral e.
Proof.
  intros Hs H HT. unfold pool_size_from_stats in H.
  apply rbind_ok in H as (C & HC & H). apply total_collateral_ok in HC as ->.
  apply rbind_ok in H as (T & HT' & H). apply total_tokens_ok in HT' as ->.
  apply rbind_ok in H as ([l x] & Hlx & H). unfold ud_is_zero in Hlx.
  destruct (Z.eqb_spec (tokens_of s) 0); [lia|].
  unfold op_mul, op_div, ud_checked_sub in *. inv_ok. simpl. lib_inv.
  unfold is_dec in *. lia.
Qed.

(** ** Properties *)

(** what depositing and withdrawing do to everyone else.  Minting the
    tokens of a deposit, or burning tokens for their collateral, never lowers
    the collateral per token of the pool; and the tokens of a deposit, if
    redeemed at once, never return more than was deposited. *)
Theorem exchange_rate_never_falls (s : LiquidityStats) :
  pool_ok s ->
  (forall a shares, 0 < a -> collateral_to_lp s a = Ok shares ->
    collateral_of s * (tokens_of s + shares) <= (collateral_of s + a) * tokens_of s) /\
  (forall l c, 0 <= l -> lp_to_collateral s l = Ok c ->
    collateral_of s * (tokens_of s - l) <= (collateral_of s - c) * tokens_of s) /\
  (forall a shares c, 0 < a -> collateral_to_lp s a = Ok shares ->
    lp_to_collateral (mkLiquidityStats (locked s) (unlocked s + a) (total_lp s + shares)
      (total_xlp s)) shares = Ok c ->
    c <= a).
Proof.
  intros Hs. split_and!.
  - intros a shares Ha (_ & _ & Hle)%collateral_to_lp_bound; [lia|done..].
  - intros l c Hl (_ & Hle)%lp_to_collateral_bound; [lia|done..].
  - intros a shares c Ha (Hpos & _ & Hle)%collateral_to_lp_bound Hc; [|done..].
    assert (0 <= tokens_of s) by (destruct Hs; unfold tokens_of; lia).
    apply lp_to_collateral_bound in Hc as [Hc0 Hc]; [|destruct Hs; split; simpl; lia|lia].
    unfold collateral_of, tokens_of in *. simpl in Hc.
    apply Z.mul_le_mono_pos_r with (total_lp s + shares + total_xlp s); [lia|].
    etransitivity; [exact Hc|]. nia.
Qed.

End Theory.

(** ** Witnesses *)

Definition sample_pool : LiquidityStats :=
  mkLiquidityStats (300 * DEC_ONE) (701 * DEC_ONE) (500 * DEC_ONE) (400 * DEC_ONE).

Lemma sample_pool_ok : pool_ok sample_pool.
Proof. repeat split; vm_compute; congruence. Qed.

Lemma exchange_rate_never_falls_witness :
  exists shares c,
    collateral_to_lp (CW:=cosmwasm_ref) sample_pool (7 * DEC_ONE) = Ok shares /\
    lp_to_collateral (CW:=cosmwasm_ref)
      (mkLiquidityStats (300 * DEC_ONE) (708 * DEC_ONE) (500 * DEC_ONE + shares) (400 * DEC_ONE))
      shares = Ok c /\
    c <= 7 * DEC_ONE.
Proof.
  exists 6293706293706293706, 6999999999999999999. split; [vm_compute; reflexivity|].
  split; [vm_compute; reflexivity|].
  destruct (exchange_rate_never_falls (CW:=cosmwasm_ref) (CWS:=cosmwasm_ref_spec) sample_pool
    sample_pool_ok) as (_ & _ & H).
  apply (H (7 * DEC_ONE) 6293706293706293706); vm_compute; reflexivity.
Defined.
