(* ===== verification/LpHistory.v ===== *)
(** * History of liquidity actions and referrals

    [contracts/market/src/state/history/lp.rs] and the write side of
    [contracts/market/src/state/referral.rs]. *)

From stdpp Require Import base option gmap strings list.
From Stdlib Require Import ZArith Lia.
From S2P Require Import Prelude Storage Cosmwasm Types Number Time Market Price Token DataSeries Config Position State Pool.
Local Open Scope Z_scope.

Definition lp_history_summary_default : LpHistorySummary := mkLpHistorySummary 0 0 0 0.
Definition collateral_and_usd_default : CollateralAndUsd := mkCollateralAndUsd 0 0.
Definition referral_stats_default : ReferralStats :=
  mkReferralStats collateral_and_usd_default collateral_and_usd_default.

Section Definitions.
Context {CW : CosmwasmStd}.
Context (st : State).

(** [push_to_monotonic_multilevel_map] (packages/perpswap/src/storage.rs). *)
Definition push_to_monotonic_multilevel_map {T} (m : gmap (string * Z) T) (k : string) (t : T) :
    res (Z * gmap (string * Z) T) :=
  next_id <- match last_id k m with None => Ok 0 | Some x => u64_checked (x + 1) end;
  Ok (next_id, <[(k, next_id) := t]> m).

Definition lp_history_get_summary (m : MarketCtx) (addr : Addr) : LpHistorySummary :=
  default lp_history_summary_default (LP_HISTORY_SUMMARY (m_history m) !! addr).

Definition lp_history_add_action (addr : Addr) (kind : LpActionKind) (tokens : option LpToken)
    (collateral : Collateral) : mhandler Z :=
  price <~ hask (current_spot_price st);
  collateral_usd <~ hlift (collateral_to_usd price collateral);
  let action := mkLpAction kind (st_now st) tokens collateral collateral_usd in
  history <~ hget (fun m => LP_HISTORY_BY_ADDRESS (m_history m));
  '(action_id, history) <~ hlift (push_to_monotonic_multilevel_map history addr action);
  mod_history (set_LP_HISTORY_BY_ADDRESS history);;;
  add_event st (EvLpAction addr action action_id);;;
  hret action_id.

Definition save_summary (addr : Addr) (summary : LpHistorySummary) : mhandler unit :=
  mod_history (fun h => set_LP_HISTORY_SUMMARY (<[addr := summary]> (LP_HISTORY_SUMMARY h)) h).

Definition lp_history_add_summary_deposit (addr : Addr) (deposit : Collateral) : mhandler unit :=
  summary <~ hget (fun m => lp_history_get_summary m addr);
  price <~ hask (current_spot_price st);
  deposit_usd <~ hlift (collateral_to_usd price deposit);
  total <~ hlift (ud_checked_add (summary_deposit summary) deposit);
  total_usd <~ hlift (ud_checked_add (summary_deposit_usd summary) deposit_usd);
  save_summary addr (mkLpHistorySummary total total_usd (summary_yield summary)
    (summary_yield_usd summary));;;
  add_event st (EvLpDeposit deposit deposit_usd).

Definition lp_history_add_summary_yield (addr : Addr) (yield_earned : Collateral) : mhandler unit :=
  summary <~ hget (fun m => lp_history_get_summary m addr);
  price <~ hask (current_spot_price st);
  yield_usd <~ hlift (collateral_to_usd price yield_earned);
  total <~ hlift (ud_checked_add (summary_yield summary) yield_earned);
  total_usd <~ hlift (ud_checked_add (summary_yield_usd summary) yield_usd);
  save_summary addr (mkLpHistorySummary (summary_deposit summary) (summary_deposit_usd summary)
    total total_usd);;;
  add_event st (EvLpYield addr yield_earned yield_usd).

Definition lp_history_add_deposit (addr : Addr) (tokens : LpToken) (collateral : Collateral)
    (is_xlp : bool) : mhandler unit :=
  lp_history_add_action addr (if is_xlp then DepositXlp else DepositLp) (Some tokens)
    collateral;;;
  lp_history_add_summary_deposit addr collateral.

Definition lp_history_add_reinvest_yield (addr : Addr) (tokens : LpToken)
    (collateral : Collateral) (is_xlp : bool) : mhandler unit :=
  lp_history_add_action addr (if is_xlp then ReinvestYieldXlp else ReinvestYieldLp)
    (Some tokens) collateral;;;
  hret tt.

Definition lp_history_add_unstake_xlp (addr : Addr) (tokens : LpToken) (collateral : Collateral) :
    mhandler unit :=
  lp_history_add_action addr UnstakeXlp (Some tokens) collateral;;; hret tt.

Definition lp_history_add_withdraw (addr : Addr) (tokens : LpToken) (collateral : Collateral) :
    mhandler unit :=
  lp_history_add_action addr ActionWithdraw (Some tokens) collateral;;; hret tt.

Definition lp_history_add_claim_yield (addr : Addr) (collateral : Collateral) : mhandler unit :=
  lp_history_add_action addr ActionClaimYield None collateral;;;
  lp_history_add_summary_yield addr collateral.

Definition lp_history_add_collect_lp (addr : Addr) (tokens : LpToken) (collateral : Collateral) :
    mhandler unit :=
  lp_history_add_action addr CollectLp (Some tokens) collateral;;; hret tt.

(** ** Referrals *)

Definition referral_stats_of (m : MarketCtx) (addr : Addr) : ReferralStats :=
  default referral_stats_default (REFERRAL_STATS_MAP (m_history m) !! addr).

Definition save_referral_stats (addr : Addr) (s : ReferralStats) : mhandler unit :=
  mod_history (fun h => set_REFERRAL_STATS_MAP (<[addr := s]> (REFERRAL_STATS_MAP h)) h).

Definition add_summary_referral (referee referrer : Addr) (referral_earned : Collateral) :
    mhandler unit :=
  price <~ hask (current_spot_price st);
  referee_stats <~ hget (fun m => referral_stats_of m referee);
  g <~ hlift (cu_checked_add_assign (generated referee_stats) referral_earned price);
  save_referral_stats referee (mkReferralStats g (received_referral referee_stats));;;
  referrer_stats <~ hget (fun m => referral_stats_of m referrer);
  r <~ hlift (cu_checked_add_assign (received_referral referrer_stats) referral_earned price);
  save_referral_stats referrer (mkReferralStats (generated referrer_stats) r);;;
  usd <~ hlift (collateral_to_usd price referral_earned);
  add_event st (EvReferralReward referrer referee referral_earned usd).

End Definitions.

(** * Theory: history never touches the books *)

Section Theory.
Context {CW : CosmwasmStd}.

Lemma keeps_save_summary a s : keeps_books (save_summary a s).
Proof. unfold save_summary. keeps. Qed.
Lemma keeps_save_referral_stats a s : keeps_books (save_referral_stats a s).
Proof. unfold save_referral_stats. keeps. Qed.
#[local] Hint Resolve keeps_save_summary keeps_save_referral_stats : perps.

Lemma keeps_lp_history_add_action st a k t c : keeps_books (lp_history_add_action st a k t c).
Proof. unfold lp_history_add_action. keeps. Qed.
#[local] Hint Resolve keeps_lp_history_add_action : perps.

Lemma keeps_lp_history_add_deposit st a t c b : keeps_books (lp_history_add_deposit st a t c b).
Proof. unfold lp_history_add_deposit, lp_history_add_summary_deposit. keeps. Qed.
Lemma keeps_lp_history_add_reinvest_yield st a t c b :
  keeps_books (lp_history_add_reinvest_yield st a t c b).
Proof. unfold lp_history_add_reinvest_yield. keeps. Qed.
Lemma keeps_lp_history_add_unstake_xlp st a t c :
  keeps_books (lp_history_add_unstake_xlp st a t c).
Proof. unfold lp_history_add_unstake_xlp. keeps. Qed.
Lemma keeps_lp_history_add_withdraw st a t c : keeps_books (lp_history_add_withdraw st a t c).
Proof. unfold lp_history_add_withdraw. keeps. Qed.
Lemma keeps_lp_history_add_claim_yield st a c : keeps_books (lp_history_add_claim_yield st a c).
Proof. unfold lp_history_add_claim_yield, lp_history_add_summary_yield. keeps. Qed.
Lemma keeps_lp_history_add_collect_lp st a t c :
  keeps_books (lp_history_add_collect_lp st a t c).
Proof. unfold lp_history_add_collect_lp. keeps. Qed.
Lemma keeps_add_summary_referral st a b c : keeps_books (add_summary_referral st a b c).
Proof. unfold add_summary_referral. keeps. Qed.
End Theory.

#[export] Hint Resolve keeps_lp_history_add_deposit keeps_lp_history_add_reinvest_yield
  keeps_lp_history_add_unstake_xlp keeps_lp_history_add_withdraw
  keeps_lp_history_add_claim_yield keeps_lp_history_add_collect_lp
  keeps_add_summary_referral : perps.
