(* ===== verification/Liquidity.v ===== *)
(** * Liquidity

    [contracts/market/src/state/liquidity.rs] and [state/liquidity/stats.rs]:
    deposits, withdrawals, staking, the linear unstaking of xLP, yield
    accounting by prefix sums, locking liquidity for positions, and the reset
    of all balances after the pool was drained.  [register_lp_claimed_yield] is
    from [state/fees.rs].  The in-memory [LiquidityCache] is in LiquidityCache.v;
    here a load reads storage. *)

From stdpp Require Import base option gmap strings list.
From Stdlib Require Import ZArith Lia.
From S2P Require Import Prelude Storage Cosmwasm Types Number Time Market Price Token DataSeries Config Position State Pool LpHistory.
Local Open Scope Z_scope.

(** [LpInfoResp] and the records inside it. *)
Record LiquidityCooldown := mkLiquidityCooldown { cooldown_at : Timestamp; cooldown_seconds : Z }.

Record UnstakingStatus := mkUnstakingStatus {
  us_start : Timestamp;
  us_end : Timestamp;
  us_xlp_unstaking : LpToken;
  us_xlp_unstaking_collateral : Collateral;
  us_collected : LpToken;
  us_available : LpToken;
  us_pending : LpToken;
}.

Record LpInfoResp := mkLpInfoResp {
  info_lp_amount : LpToken;
  info_lp_collateral : Collateral;
  info_xlp_amount : LpToken;
  info_xlp_collateral : Collateral;
  info_available_yield : Collateral;
  info_available_yield_lp : Collateral;
  info_available_yield_xlp : Collateral;
  info_available_crank_rewards : Collateral;
  info_available_referrer_rewards : Collateral;
  info_unstaking : option UnstakingStatus;
  info_history : LpHistorySummary;
  info_liquidity_cooldown : option LiquidityCooldown;
}.

(** [LiquidityNewYieldToProcess]: the next entry of the yield table. *)
Record LiquidityNewYieldToProcess := mkLiquidityNewYield {
  next_index : Z; new_yield : YieldPerToken }.

(** [LiquidityUnlock], [LiquidityLock] and [LiquidityUpdateLocked]: validated
    changes of the pool that [apply] stores. *)
Record LiquidityUnlock := mkLiquidityUnlock {
  unlock_amount : Collateral; unlock_price : PricePoint; unlock_stats : LiquidityStats }.
Record LiquidityLock := mkLiquidityLock {
  lock_amount : Collateral; lock_stats : LiquidityStats; lock_price : PricePoint }.
Record LiquidityUpdateLocked := mkLiquidityUpdateLocked {
  update_amount : Signed; update_price : PricePoint; update_stats : LiquidityStats }.

(** [ResetLpStatus::as_bound]. *)
Definition as_bound (s : ResetLpStatus) : option Addr :=
  match s with ResetBegin => None | ResetLastSaw addr => Some addr end.

(** [LiquidityStatsByAddr::is_empty]. *)
Definition stats_is_empty (s : LiquidityStatsByAddr) : bool :=
  ud_is_zero (lp s) && ud_is_zero (xlp s)
  && match unstaking s with None => true | Some _ => false end
  && ud_is_zero (lp_accrued_yield s) && ud_is_zero (xlp_accrued_yield s)
  && ud_is_zero (crank_rewards s) && ud_is_zero (referrer_rewards s).

(** ** Initialisation: [liquidity_init] and [yield_init] *)

Definition liquidity_store_init : LiquidityStore :=
  mkLiquidityStore (mkLiquidityStats 0 0 0 0) ∅ None {[ 0 := mkYieldPerToken 0 0 ]}.

Section Definitions.
Context {CW : CosmwasmStd}.
Context (st : State).

(** ** Stored stats (stats.rs) *)

Definition liquidity_stats (m : MarketCtx) : LiquidityStats := LIQUIDITY_STATS (m_liquidity m).
Definition load_liquidity_stats : mhandler LiquidityStats := hget liquidity_stats.

Definition save_liquidity_stats (stats : LiquidityStats) : mhandler unit :=
  total_collateral <~ hlift (total_collateral stats);
  reset <~ (if ud_is_zero total_collateral
            then total_tokens <~ hlift (total_tokens stats);
                 hret (negb (ud_is_zero total_tokens))
            else hret false);
  if reset : bool
  then mod_liquidity (fun l =>
         set_RESET_LP_STATUS (Some ResetBegin)
           (set_LIQUIDITY_STATS (mkLiquidityStats 0 0 0 0) l))
  else mod_liquidity (set_LIQUIDITY_STATS stats).

Definition liquidity_stats_addr_may (m : MarketCtx) (lp_addr : Addr) :
    option LiquidityStatsByAddr := LIQUIDITY_STATS_BY_ADDR (m_liquidity m) !! lp_addr.

(** [latest_yield_per_token]. *)
Definition latest_yield_per_token (m : MarketCtx) : res (Z * YieldPerToken) :=
  panics "YIELD_PER_TIME_PER_TOKEN cannot be empty"
    (last_entry any_key (YIELD_PER_TIME_PER_TOKEN (m_liquidity m))).

(** [LiquidityStatsByAddr::new]. *)
Definition stats_by_addr_new (m : MarketCtx) : res LiquidityStatsByAddr :=
  '(last_accrue_key, _) <- latest_yield_per_token m;
  Ok (mkLiquidityStatsByAddr 0 0 last_accrue_key 0 0 0 0 None None).

Definition load_liquidity_stats_addr_default (lp_addr : Addr) : mhandler LiquidityStatsByAddr :=
  hask (fun m => match liquidity_stats_addr_may m lp_addr with
                 | Some stats => Ok stats
                 | None => stats_by_addr_new m
                 end).

Definition load_liquidity_stats_addr (lp_addr : Addr) : mhandler LiquidityStatsByAddr :=
  hask (fun m => of_option (AnyhowError "No liquidity stats found")
                   (liquidity_stats_addr_may m lp_addr)).

Definition save_liquidity_stats_addr (lp_addr : Addr) (addr_stats : LiquidityStatsByAddr) :
    mhandler unit :=
  mod_liquidity (fun l =>
    set_LIQUIDITY_STATS_BY_ADDR
      (if stats_is_empty addr_stats
       then delete lp_addr (LIQUIDITY_STATS_BY_ADDR l)
       else <[lp_addr := addr_stats]> (LIQUIDITY_STATS_BY_ADDR l)) l).

Definition liquidity_providers (m : MarketCtx) (start : option Addr) (limit : nat) : list Addr :=
  take limit (keys_after start (LIQUIDITY_STATS_BY_ADDR (m_liquidity m))).

Definition should_reset_lp_balances (m : MarketCtx) : bool :=
  match RESET_LP_STATUS (m_liquidity m) with Some _ => true | None => false end.

(** ** Yield *)

Definition liquidity_process_new_yield (m : MarketCtx) (new : LpAndXlp) :
    res LiquidityNewYieldToProcess :=
  let stats := liquidity_stats m in
  lp_yield_per_token <- match nonzero_new (total_lp stats) with
                        | None => Ok 0
                        | Some total_lp => div_non_zero_dec (la_lp new) total_lp
                        end;
  xlp_yield_per_token <- match nonzero_new (total_xlp stats) with
                         | None => Ok 0
                         | Some total_xlp => div_non_zero_dec (la_xlp new) total_xlp
                         end;
  '(last_index, last_yield) <- latest_yield_per_token m;
  lp <- ud_checked_add (y_lp last_yield) lp_yield_per_token;
  xlp <- ud_checked_add (y_xlp last_yield) xlp_yield_per_token;
  next_index <- u64_checked (last_index + 1);
  Ok (mkLiquidityNewYield next_index (mkYieldPerToken lp xlp)).

(** [LiquidityNewYieldToProcess::apply]. *)
Definition new_yield_apply (y : LiquidityNewYieldToProcess) : mhandler unit :=
  mod_liquidity (fun l =>
    set_YIELD_PER_TIME_PER_TOKEN
      (<[next_index y := new_yield y]> (YIELD_PER_TIME_PER_TOKEN l)) l).

(** The LP tokens that earn LP rewards: the pending xLP counts as LP. *)
Definition lp_reward_amount (addr_stats : LiquidityStatsByAddr) : res LpToken :=
  match unstaking addr_stats with
  | Some u => pending <- ud_checked_sub (xlp_amount u) (collected u);
              ud_checked_add (lp addr_stats) pending
  | None => Ok (lp addr_stats)
  end.

Definition calculate_accrued_yield (m : MarketCtx) (addr_stats : LiquidityStatsByAddr) :
    res (option (Z * LpAndXlp)) :=
  '(end_index, end_yield) <- latest_yield_per_token m;
  if end_index =? last_accrue_key addr_stats then Ok None
  else
    start_yield <- std (YIELD_PER_TIME_PER_TOKEN (m_liquidity m) !! last_accrue_key addr_stats);
    lp_amount <- lp_reward_amount addr_stats;
    lp_yield_per_token_sum <- ud_checked_sub (y_lp end_yield) (y_lp start_yield);
    lp_accrued <- checked_mul_dec lp_yield_per_token_sum lp_amount;
    xlp_yield_per_token_sum <- ud_checked_sub (y_xlp end_yield) (y_xlp start_yield);
    xlp_accrued <- checked_mul_dec xlp_yield_per_token_sum (xlp addr_stats);
    Ok (Some (end_index, mkLpAndXlp lp_accrued xlp_accrued)).

Definition update_accrued_yield (lp_addr : Addr) : mhandler unit :=
  addr_stats <~ load_liquidity_stats_addr_default lp_addr;
  accrued <~ hask (fun m => calculate_accrued_yield m addr_stats);
  match accrued with
  | Some (latest_index, accrued) =>
      lp_yield <~ hlift (ud_checked_add (lp_accrued_yield addr_stats) (la_lp accrued));
      xlp_yield <~ hlift (ud_checked_add (xlp_accrued_yield addr_stats) (la_xlp accrued));
      save_liquidity_stats_addr lp_addr
        (set_last_accrue_key latest_index
          (set_lp_accrued_yield lp_yield (set_xlp_accrued_yield xlp_yield addr_stats)))
  | None => hret tt
  end.

Definition add_lp_crank_rewards (lp_addr : Addr) (amount : Collateral) : mhandler unit :=
  addr_stats <~ load_liquidity_stats_addr_default lp_addr;
  rewards <~ hlift (ud_checked_add (crank_rewards addr_stats) amount);
  save_liquidity_stats_addr lp_addr (set_crank_rewards rewards addr_stats).

(** ** Unstaking *)

Definition calculate_unstaked_lp (u : UnstakingXlp) : res LpToken :=
  elapsed_since_start <- timestamp_checked_sub (st_now st) (unstake_started u);
  amount <- (if unstake_duration u <=? elapsed_since_start
             then signed_checked_sub (into_signed (xlp_amount u)) (into_signed (collected u))
             else
               elapsed_since_last_collected <-
                 timestamp_checked_sub (st_now st) (last_collected u);
               elapsed <- number_from_u64 (as_nanos elapsed_since_last_collected);
               duration <- number_from_u64 (as_nanos (unstake_duration u));
               elapsed_ratio <- number_checked_div elapsed duration;
               number_checked_mul elapsed_ratio (into_signed (xlp_amount u)));
  ud_try_from_number amount.

Definition collect_unstaked_lp (lp_addr : Addr) : mhandler bool :=
  pending <~ hget (fun m => stats ← liquidity_stats_addr_may m lp_addr; unstaking stats);
  match pending with
  | None => hret false
  | Some _ =>
      update_accrued_yield lp_addr;;;
      addr_stats <~ load_liquidity_stats_addr lp_addr;
      unstaking_info <~ hlift (of_option
        (AnyhowError "Withtin collect_unstaked_lp, unstaking is None") (unstaking addr_stats));
      unstaked_lp <~ hlift (calculate_unstaked_lp unstaking_info);
      match nonzero_new unstaked_lp with
      | None => hret false
      | Some unstaked_lp =>
          collected <~ hlift (ud_checked_add (collected unstaking_info) unstaked_lp);
          unstaking <~
            match Z.compare collected (xlp_amount unstaking_info) with
            | Lt => hret (Some (mkUnstakingXlp (xlp_amount unstaking_info) collected
                      (unstake_started unstaking_info) (unstake_duration unstaking_info)
                      (st_now st)))
            | Eq => hret None
            | Gt => herr (AnyhowError "unable to collect LP: more than was unstaked")
            end;
          new_lp <~ hlift (ud_checked_add (lp addr_stats) unstaked_lp);
          save_liquidity_stats_addr lp_addr
            (set_lp new_lp (set_unstaking unstaking addr_stats));;;
          stats <~ load_liquidity_stats;
          value <~ hlift (lp_to_collateral_non_zero stats unstaked_lp);
          lp_history_add_collect_lp st lp_addr unstaked_lp value;;;
          hret true
      end
  end.

Definition perform_lp_book_keeping (lp_addr : Addr) : mhandler unit :=
  update_accrued_yield lp_addr;;;
  collect_unstaked_lp lp_addr;;;
  hret tt.

(** ** Events of the pool *)

Definition add_delta_neutrality_ratio_event (stats : LiquidityStats) (price_point : PricePoint) :
    mhandler unit :=
  total_liquidity <~ hlift (total_collateral stats);
  long_interest_protocol <~ hget open_long_interest;
  short_interest_protocol <~ hget open_short_interest;
  let '(long_interest, short_interest) :=
    match market_type st with
    | CollateralIsQuote => (long_interest_protocol, short_interest_protocol)
    | CollateralIsBase => (short_interest_protocol, long_interest_protocol)
    end in
  net_notional <~ hlift (signed_checked_sub (into_signed long_interest)
                           (into_signed short_interest));
  net_collateral <~ hlift (try_map (notional_to_collateral price_point) net_notional);
  let delta_neutrality_ratio :=
    default NUMBER_ZERO
      (res_ok (number_checked_div (into_number net_collateral) (into_signed total_liquidity))) in
  add_event st (EvDeltaNeutralityRatio total_liquidity long_interest short_interest net_notional
    (price_notional price_point) delta_neutrality_ratio).

Definition add_pool_size_change_events (stats : LiquidityStats) (price : PricePoint) :
    mhandler unit :=
  e <~ hlift (pool_size_from_stats stats price);
  add_event st (EvPoolSize e);;;
  add_delta_neutrality_ratio_event stats price.

(** ** Deposits *)

Definition ensure_max_liquidity (m : MarketCtx) (deposit : Collateral) (stats : LiquidityStats) :
    res unit :=
  match max_liquidity (st_config st) with
  | MaxUnlimited => Ok tt
  | MaxUsd max =>
      price <- current_spot_price st m;
      deposit <- collateral_to_usd price deposit;
      current <- total_collateral stats;
      current <- collateral_to_usd price current;
      new_total <- ud_checked_add current deposit;
      if max <? new_total
      then Err (into_anyhow (ErrMaxLiquidity (price_usd price) current deposit max))
      else Ok tt
  end.

Definition liquidity_deposit_inner (lp_addr : Addr) (amount : Collateral)
    (start_cooldown : bool) : mhandler LpToken :=
  liquidity_stats <~ load_liquidity_stats;
  hask (fun m => ensure_max_liquidity m amount liquidity_stats);;;
  perform_lp_book_keeping lp_addr;;;
  new_shares <~ hlift (collateral_to_lp liquidity_stats amount);
  new_total_lp <~ hlift (ud_checked_add (total_lp liquidity_stats) new_shares);
  new_unlocked <~ hlift (ud_checked_add (unlocked liquidity_stats) amount);
  let liquidity_stats := set_total_lp new_total_lp (set_unlocked new_unlocked liquidity_stats) in
  save_liquidity_stats liquidity_stats;;;
  price <~ hask (current_spot_price st);
  add_pool_size_change_events liquidity_stats price;;;
  stats <~ load_liquidity_stats_addr_default lp_addr;
  new_lp <~ hlift (ud_checked_add (lp stats) new_shares);
  ends <~ (if start_cooldown
           then t <~ hlift (plus_seconds (st_now st) (liquidity_cooldown_seconds (st_config st)));
                hret (Some t)
           else hret (cooldown_ends stats));
  save_liquidity_stats_addr lp_addr (set_lp new_lp (set_cooldown_ends ends stats));;;
  amount_usd <~ hlift (collateral_to_usd_non_zero price amount);
  add_event st (EvDeposit amount amount_usd new_shares);;;
  hret new_shares.

(** ** Staking *)

Definition liquidity_stake_lp (lp_addr : Addr) (lp_amount : option LpToken) : mhandler unit :=
  perform_lp_book_keeping lp_addr;;;
  addr_stats <~ load_liquidity_stats_addr lp_addr;
  old_lp <~ hlift (of_option (AnyhowError "Cannot stake LP, no LP tokens found")
                     (nonzero_new (lp addr_stats)));
  let lp_amount := default old_lp lp_amount in
  stats <~ load_liquidity_stats;
  new_lp <~ hlift (of_option (perp_market InvalidStakeLp)
                     (res_ok (ud_checked_sub old_lp lp_amount)));
  new_xlp <~ hlift (ud_checked_add (xlp addr_stats) lp_amount);
  save_liquidity_stats_addr lp_addr (set_lp new_lp (set_xlp new_xlp addr_stats));;;
  new_total_lp <~ hlift (ud_checked_sub (total_lp stats) lp_amount);
  new_total_xlp <~ hlift (ud_checked_add (total_xlp stats) lp_amount);
  save_liquidity_stats (set_total_lp new_total_lp (set_total_xlp new_total_xlp stats)).

Definition liquidity_deposit (lp_addr : Addr) (amount : Collateral) (stake_to_xlp : bool) :
    mhandler unit :=
  lp_shares <~ liquidity_deposit_inner lp_addr amount (negb stake_to_xlp);
  lp_history_add_deposit st lp_addr lp_shares amount stake_to_xlp;;;
  if stake_to_xlp then liquidity_stake_lp lp_addr (Some lp_shares) else hret tt.

Definition liquidity_stop_unstaking_xlp (lp_addr : Addr)
    (fail_on_no_unstaking save_new_stats : bool) : mhandler LiquidityStatsByAddr :=
  perform_lp_book_keeping lp_addr;;;
  addr_stats <~ load_liquidity_stats_addr lp_addr;
  let old_unstaking := unstaking addr_stats in
  let addr_stats := set_unstaking None addr_stats in
  addr_stats <~
    match old_unstaking with
    | Some old_unstaking =>
        xlp_to_restore <~ hlift (ud_checked_sub (xlp_amount old_unstaking)
                                   (collected old_unstaking));
        if negb (ud_is_zero xlp_to_restore) then
          stats <~ load_liquidity_stats;
          new_total_lp <~ hlift (ud_checked_sub (total_lp stats) xlp_to_restore);
          new_total_xlp <~ hlift (ud_checked_add (total_xlp stats) xlp_to_restore);
          save_liquidity_stats (set_total_lp new_total_lp (set_total_xlp new_total_xlp stats));;;
          new_xlp <~ hlift (ud_checked_add (xlp addr_stats) xlp_to_restore);
          hret (set_xlp new_xlp addr_stats)
        else hret addr_stats
    | None =>
        if fail_on_no_unstaking
        then herr (AnyhowError "Cannot stop unstaking, not currently unstaking xLP")
        else hret addr_stats
    end;
  (if save_new_stats then save_liquidity_stats_addr lp_addr addr_stats else hret tt);;;
  hret addr_stats.

Definition liquidity_unstake_xlp (lp_addr : Addr) (amount : option LpToken) : mhandler unit :=
  addr_stats <~ liquidity_stop_unstaking_xlp lp_addr false false;
  owned_xlp <~ hlift (of_option (AnyhowError "Wallet does not have any xLP tokens to unstake")
                        (nonzero_new (xlp addr_stats)));
  amount <~ match amount with
            | None => hret owned_xlp
            | Some amount =>
                hensure (amount <=? owned_xlp)
                  (AnyhowError "Insufficient xLP tokens for unstaking");;;
                hret amount
            end;
  duration <~ hlift (duration_from_seconds (unstake_period_seconds (st_config st)));
  new_xlp <~ hlift (ud_checked_sub (xlp addr_stats) amount);
  save_liquidity_stats_addr lp_addr
    (set_xlp new_xlp (set_unstaking
      (Some (mkUnstakingXlp amount 0 (st_now st) duration (st_now st))) addr_stats));;;
  stats <~ load_liquidity_stats;
  new_total_lp <~ hlift (ud_checked_add (total_lp stats) amount);
  new_total_xlp <~ hlift (ud_checked_sub (total_xlp stats) amount);
  let stats := set_total_lp new_total_lp (set_total_xlp new_total_xlp stats) in
  save_liquidity_stats stats;;;
  xlp_collateral_value <~ hlift (lp_to_collateral_non_zero stats amount);
  lp_history_add_unstake_xlp st lp_addr amount xlp_collateral_value.

(** ** Withdrawals *)

(** The collateral that must stay unlocked so that a trade at the carry
    leverage can balance the net notional. *)
Definition min_unlocked_liquidity (net_notional : Signed) (price : PricePoint) : res Collateral :=
  net_notional_in_collateral <- notional_to_collateral price (abs_unsigned net_notional);
  carry_leverage <- of_option (AnyhowError "Carry leverage of 0 configuration error")
                      (nonzero_new (carry_leverage (st_config st)));
  div_non_zero_dec net_notional_in_collateral carry_leverage.

Definition get_liquidity_cooldown (stats : LiquidityStatsByAddr) : res (option LiquidityCooldown) :=
  match cooldown_ends stats with
  | None => Ok None
  | Some ends =>
      if ends <=? st_now st then Ok None
      else d <- timestamp_checked_sub ends (st_now st);
           Ok (Some (mkLiquidityCooldown ends (as_nanos d / 1000000000)))
  end.

Definition ensure_liquidity_cooldown (stats : LiquidityStatsByAddr) : res unit :=
  cooldown <- get_liquidity_cooldown stats;
  match cooldown with
  | Some c => Err (into_anyhow (ErrLiquidityCooldown (cooldown_at c) (cooldown_seconds c)))
  | None => Ok tt
  end.

Definition liquidity_withdraw (lp_addr : Addr) (lp_amount : option LpToken) : mhandler unit :=
  perform_lp_book_keeping lp_addr;;;
  addr_stats <~ load_liquidity_stats_addr lp_addr;
  hlift (ensure_liquidity_cooldown addr_stats);;;
  old_lp <~ hlift (of_option (AnyhowError "unable to withdraw, no liquidity deposited")
                     (nonzero_new (lp addr_stats)));
  shares_to_withdraw <~
    match lp_amount with
    | None => hret old_lp
    | Some lp_amount =>
        if old_lp <? lp_amount
        then herr (RawMarketError (WithdrawTooMuch lp_amount old_lp))
        else hret lp_amount
    end;
  new_lp <~ hlift (ud_checked_sub (lp addr_stats) shares_to_withdraw);
  save_liquidity_stats_addr lp_addr (set_lp new_lp addr_stats);;;
  liquidity_stats <~ load_liquidity_stats;
  hlift (ud_checked_add (locked liquidity_stats) (unlocked liquidity_stats));;;
  liquidity_to_return <~ hlift (lp_to_collateral_non_zero liquidity_stats shares_to_withdraw);
  long_interest_protocol <~ hget open_long_interest;
  short_interest_protocol <~ hget open_short_interest;
  net_notional <~ hlift (signed_checked_sub (into_signed long_interest_protocol)
                           (into_signed short_interest_protocol));
  price <~ hask (current_spot_price st);
  min_unlocked <~ hlift (min_unlocked_liquidity net_notional price);
  needed <~ hlift (ud_checked_add liquidity_to_return min_unlocked);
  (if unlocked liquidity_stats <? needed
   then
     available <~ hlift (signed_checked_sub (into_signed (unlocked liquidity_stats))
                           (into_signed min_unlocked));
     herr (RawMarketError (InsufficientLiquidityForWithdrawal shares_to_withdraw
       liquidity_to_return (abs_unsigned (signed_max available (into_signed 0)))))
   else hret tt);;;
  new_total_lp <~ hlift (ud_checked_sub (total_lp liquidity_stats) shares_to_withdraw);
  new_unlocked <~ hlift (ud_checked_sub (unlocked liquidity_stats) liquidity_to_return);
  let liquidity_stats := set_total_lp new_total_lp (set_unlocked new_unlocked liquidity_stats) in
  tokens_left <~ hlift (total_tokens liquidity_stats);
  liquidity_stats <~
    (if ud_is_zero tokens_left then
       dust <~ hlift (total_collateral liquidity_stats);
       is_dust <~ hlift (ud_approx_eq dust 0);
       hensure is_dust
         (AnyhowError "liquidity_withdraw: no lp tokens left, but collateral is not zero");;;
       hret liquidity_stats_default
     else hret liquidity_stats);
  save_liquidity_stats liquidity_stats;;;
  add_pool_size_change_events liquidity_stats price;;;
  add_token_transfer_msg lp_addr liquidity_to_return;;;
  lp_history_add_withdraw st lp_addr shares_to_withdraw liquidity_to_return;;;
  withdrawn_funds_usd <~ hlift (collateral_to_usd_non_zero price liquidity_to_return);
  add_event st (EvWithdraw shares_to_withdraw liquidity_to_return withdrawn_funds_usd).

(** ** Claiming and reinvesting yield *)

(** [LiquidityStatsByAddr::total_yield]. *)
Definition total_yield (s : LiquidityStatsByAddr) : res Collateral :=
  a <- ud_checked_add (lp_accrued_yield s) (xlp_accrued_yield s);
  b <- ud_checked_add a (crank_rewards s);
  ud_checked_add b (referrer_rewards s).

(** fees.rs *)
Definition register_lp_claimed_yield (amount : Collateral) : mhandler unit :=
  fees <~ hget ALL_FEES;
  wallets <~ hlift (ud_checked_sub (fees_wallets fees) amount);
  hmod (set_ALL_FEES (mkFees wallets (fees_protocol fees) (fees_crank fees)
    (fees_referral fees))).

Definition liquidity_claim_yield (lp_addr : Addr) (send_to_wallet : bool) : mhandler Collateral :=
  perform_lp_book_keeping lp_addr;;;
  addr_stats <~ load_liquidity_stats_addr lp_addr;
  yield <~ hlift (total_yield addr_stats);
  yield <~ hlift (of_option (perp_market NoYieldToClaim) (nonzero_new yield));
  save_liquidity_stats_addr lp_addr
    (set_lp_accrued_yield 0 (set_xlp_accrued_yield 0 (set_crank_rewards 0
      (set_referrer_rewards 0 addr_stats))));;;
  register_lp_claimed_yield yield;;;
  (if send_to_wallet
   then add_token_transfer_msg lp_addr yield;;;
        lp_history_add_claim_yield st lp_addr yield
   else hret tt);;;
  hret yield.

Definition reinvest_yield (lp_addr : Addr) (amount : option Collateral) (stake_to_xlp : bool) :
    mhandler unit :=
  available <~ liquidity_claim_yield lp_addr false;
  yield_to_reinvest <~
    match amount with
    | None => hret available
    | Some amount =>
        remainder <~ hlift (of_option (perp_market InsufficientForReinvest)
                              (res_ok (ud_checked_sub available amount)));
        match nonzero_new remainder with
        | Some remainder =>
            add_token_transfer_msg lp_addr remainder;;;
            lp_history_add_claim_yield st lp_addr remainder
        | None => hret tt
        end;;;
        hret amount
    end;
  lp_shares <~ liquidity_deposit_inner lp_addr yield_to_reinvest false;
  (if stake_to_xlp then liquidity_stake_lp lp_addr (Some lp_shares) else hret tt);;;
  lp_history_add_reinvest_yield st lp_addr lp_shares yield_to_reinvest stake_to_xlp.

(** ** Locking liquidity for positions *)

Definition liquidity_unlock_new (m : MarketCtx) (amount : Collateral) (price : PricePoint)
    (stats : option LiquidityStats) : res LiquidityUnlock :=
  let stats := default (liquidity_stats m) stats in
  if locked stats <? amount
  then Err (into_anyhow (InsufficientLiquidityForUnlock amount (locked stats)))
  else
    new_locked <- ud_checked_sub (locked stats) amount;
    new_unlocked <- ud_checked_add (unlocked stats) amount;
    Ok (mkLiquidityUnlock amount price (set_locked new_locked (set_unlocked new_unlocked stats))).

Definition liquidity_unlock_apply (u : LiquidityUnlock) : mhandler unit :=
  save_liquidity_stats (unlock_stats u);;;
  add_pool_size_change_events (unlock_stats u) (unlock_price u);;;
  add_event st (EvUnlock (unlock_amount u)).

Definition liquidity_lock_new (m : MarketCtx) (amount : Collateral) (price : PricePoint)
    (delta_notional net_notional_override : option Signed) (stats : option LiquidityStats) :
    res LiquidityLock :=
  let stats := default (liquidity_stats m) stats in
  net_notional <- match net_notional_override with
                  | Some net_notional_override => Ok net_notional_override
                  | None => signed_checked_sub (into_signed (open_long_interest m))
                              (into_signed (open_short_interest m))
                  end;
  net_notional <- signed_checked_add net_notional (default (into_signed 0) delta_notional);
  min_unlocked <- min_unlocked_liquidity net_notional price;
  needed <- ud_checked_add min_unlocked amount;
  if unlocked stats <? needed
  then Err (into_anyhow (ErrLiquidity amount (unlocked stats) min_unlocked))
  else
    new_locked <- ud_checked_add (locked stats) amount;
    new_unlocked <- ud_checked_sub (unlocked stats) amount;
    Ok (mkLiquidityLock amount (set_locked new_locked (set_unlocked new_unlocked stats)) price).

Definition liquidity_lock_apply (l : LiquidityLock) : mhandler unit :=
  save_liquidity_stats (lock_stats l);;;
  add_pool_size_change_events (lock_stats l) (lock_price l);;;
  add_event st (EvLock (lock_amount l)).

Definition liquidity_update_locked_new (m : MarketCtx) (amount : Signed) (price : PricePoint)
    (stats : option LiquidityStats) : res LiquidityUpdateLocked :=
  let stats := default (liquidity_stats m) stats in
  sum <- signed_checked_add (into_signed (locked stats)) amount;
  match try_into_non_negative_value sum with
  | None => Err (AnyhowError "liquidity_update_locked")
  | Some new_locked => Ok (mkLiquidityUpdateLocked amount price (set_locked new_locked stats))
  end.

Definition liquidity_update_locked_apply (u : LiquidityUpdateLocked) : mhandler unit :=
  save_liquidity_stats (update_stats u);;;
  add_pool_size_change_events (update_stats u) (update_price u);;;
  add_event st (EvLockUpdate (update_amount u)).

(** ** Resetting the balances of a drained pool *)

Definition crank_reset_lp_balances : mhandler unit :=
  reset_lp_status <~ hask (fun m => of_option
    (AnyhowError "crank_reset_lp_balances called, but RESET_LP_START_AFTER is empty")
    (RESET_LP_STATUS (m_liquidity m)));
  addrs <~ hget (fun m => liquidity_providers m (as_bound reset_lp_status) 1);
  match addrs with
  | [] => mod_liquidity (set_RESET_LP_STATUS None)
  | addr :: _ =>
      update_accrued_yield addr;;;
      stats <~ load_liquidity_stats_addr addr;
      '(key, _) <~ hask latest_yield_per_token;
      save_liquidity_stats_addr addr
        (set_lp 0 (set_xlp 0 (set_last_accrue_key key (set_unstaking None
          (set_cooldown_ends None stats)))));;;
      mod_liquidity (set_RESET_LP_STATUS (Some (ResetLastSaw addr)))
  end.

(** ** [lp_info] *)

Definition lp_info (m : MarketCtx) (lp_addr : Addr) : res LpInfoResp :=
  let stats := liquidity_stats m in
  addr_stats <- match liquidity_stats_addr_may m lp_addr with
                | Some stats => Ok stats
                | None => stats_by_addr_new m
                end;
  liquidity_cooldown <- get_liquidity_cooldown addr_stats;
  accrued <- calculate_accrued_yield m addr_stats;
  let accrued := match accrued with None => mkLpAndXlp 0 0 | Some x => x.2 end in
  available_yield_lp <- ud_checked_add (lp_accrued_yield addr_stats) (la_lp accrued);
  available_yield_xlp <- ud_checked_add (xlp_accrued_yield addr_stats) (la_xlp accrued);
  a <- ud_checked_add available_yield_lp available_yield_xlp;
  b <- ud_checked_add a (crank_rewards addr_stats);
  available_yield <- ud_checked_add b (referrer_rewards addr_stats);
  '(lp_amount, xlp_amount', unstaking) <-
    match unstaking addr_stats with
    | None => Ok (lp addr_stats, xlp addr_stats, None)
    | Some u =>
        unstaked_lp <- calculate_unstaked_lp u;
        l <- ud_checked_add (lp addr_stats) unstaked_lp;
        x <- ud_checked_add (xlp addr_stats) (xlp_amount u);
        x <- ud_checked_sub x (collected u);
        x <- ud_checked_sub x unstaked_lp;
        ends <- timestamp_add (unstake_started u) (unstake_duration u);
        value <- lp_to_collateral stats (xlp_amount u);
        p <- ud_checked_sub (xlp_amount u) unstaked_lp;
        pending <- ud_checked_sub p (collected u);
        Ok (l, x, Some (mkUnstakingStatus (unstake_started u) ends (xlp_amount u) value
                          (collected u) unstaked_lp pending))
    end;
  c <- total_collateral stats;
  let '(lp_amount, xlp_amount', unstaking) :=
    if ud_is_zero c then (0, 0, None) else (lp_amount, xlp_amount', unstaking) in
  lp_collateral <- lp_to_collateral stats lp_amount;
  xlp_collateral <- lp_to_collateral stats xlp_amount';
  Ok (mkLpInfoResp lp_amount lp_collateral xlp_amount' xlp_collateral available_yield
        available_yield_lp available_yield_xlp (crank_rewards addr_stats)
        (referrer_rewards addr_stats) unstaking (lp_history_get_summary m lp_addr)
        liquidity_cooldown).

End Definitions.
