(* ===== verification/LpToken.v ===== *)
(** * The LP and xLP tokens

    [contracts/market/src/state/liquidity/cw20.rs]: the CW20 interface the two
    liquidity token proxies give to the LP and xLP balances of a market.  The
    balances are the providers' records of Liquidity.v; only the allowances
    are stored here, for each kind by owner and spender with an index in the
    other order.  The message sent to a receiving contract is in
    [m_messages]. *)

From stdpp Require Import base option gmap strings list.
From Stdlib Require Import ZArith Lia.
From S2P Require Import Cw20.
From S2P Require Import Prelude Storage Cosmwasm Types Number Time Market Price Token DataSeries Config Position Trading State Pool LpHistory Liquidity.
Local Open Scope Z_scope.

(** ** Messages *)

(** The proxy's [ExecuteMsg]. *)
Inductive LpTokenMsg :=
| LtTransfer (recipient : RawAddr) (amount : Uint128)
| LtSend (contract : RawAddr) (amount : Uint128) (msg : Binary)
| LtIncreaseAllowance (spender : RawAddr) (amount : Uint128) (expires : option Expiration)
| LtDecreaseAllowance (spender : RawAddr) (amount : Uint128) (expires : option Expiration)
| LtTransferFrom (owner recipient : RawAddr) (amount : Uint128)
| LtSendFrom (owner contract : RawAddr) (amount : Uint128) (msg : Binary).

Inductive LpTokenQuery :=
| LqVersion
| LqBalance (address : RawAddr)
| LqTokenInfo
| LqAllowance (owner spender : RawAddr)
| LqAllAllowances (owner : RawAddr) (start_after : option RawAddr) (limit : option Z)
| LqAllSpenderAllowances (spender : RawAddr) (start_after : option RawAddr) (limit : option Z)
| LqAllAccounts (start_after : option RawAddr) (limit : option Z)
| LqMarketingInfo
| LqKind.

(** The answers, each with its payload. *)
Inductive LpTokenAnswer :=
| LaBalance (balance : Uint128)
| LaTokenInfo (info : TokenInfo)
| LaAllowance (a : AllowanceResponse)
| LaAllowances (l : list (Addr * AllowanceResponse))
| LaAccounts (l : list Addr)
| LaMarketingInfo (i : MarketingInfo)
| LaKind (kind : LiquidityTokenKind).

Definition LT_DECIMAL_PLACES : Z := 6.
Definition LT_DEFAULT_LIMIT : Z := 10.

Definition kind_eqb (a b : LiquidityTokenKind) : bool :=
  match a, b with KindLp, KindLp | KindXlp, KindXlp => true | _, _ => false end.

(** ** The allowance maps of a kind *)

Definition allowances_map (kind : LiquidityTokenKind) (s : LpTokenStore) :
    gmap (Addr * Addr) AllowanceResponse :=
  match kind with KindLp => LP_ALLOWANCES s | KindXlp => XLP_ALLOWANCES s end.
Definition allowances_spender_map (kind : LiquidityTokenKind) (s : LpTokenStore) :
    gmap (Addr * Addr) AllowanceResponse :=
  match kind with KindLp => LP_ALLOWANCES_SPENDER s | KindXlp => XLP_ALLOWANCES_SPENDER s end.
Definition set_allowances (kind : LiquidityTokenKind)
    (v : gmap (Addr * Addr) AllowanceResponse) (s : LpTokenStore) : LpTokenStore :=
  match kind with KindLp => set_LP_ALLOWANCES v s | KindXlp => set_XLP_ALLOWANCES v s end.
Definition set_spender_allowances (kind : LiquidityTokenKind)
    (v : gmap (Addr * Addr) AllowanceResponse) (s : LpTokenStore) : LpTokenStore :=
  match kind with
  | KindLp => set_LP_ALLOWANCES_SPENDER v s
  | KindXlp => set_XLP_ALLOWANCES_SPENDER v s
  end.

Section Definitions.
Context {CW : CosmwasmStd}.
Context (st : State).

(** The closures run on the token of the proxies, which has no address. *)
Definition lp_token : Token := TokenCw20 "" LT_DECIMAL_PLACES.
Definition lp_token_into_uint_128 (amount : LpToken) : res Uint128 :=
  o <- token_into_u128 lp_token amount; Ok (default 0 o).
Definition uint_128_into_lp_token (amount : Z) : res LpToken := token_from_u128 lp_token amount.

Definition lt_validate (a : RawAddr) : res Addr := std (addr_validate a).
Definition lt_validate_opt (a : option RawAddr) : res (option Addr) :=
  match a with None => Ok None | Some a => x <- lt_validate a; Ok (Some x) end.

(** ** Balances *)

Definition liquidity_token_balance_change_inner (owner : Addr) (delta : Signed)
    (kind : LiquidityTokenKind) : mhandler unit :=
  perform_lp_book_keeping st owner;;;
  addr_stats <~ load_liquidity_stats_addr_default owner;
  (if is_negative delta && kind_eqb kind KindLp
   then hlift (ensure_liquidity_cooldown st addr_stats) else hret tt);;;
  let old := match kind with KindLp => lp addr_stats | KindXlp => xlp addr_stats end in
  new_balance <~ hlift (signed_checked_add (into_signed old) delta);
  match try_into_non_negative_value new_balance with
  | None => herr (PerpError Cw20Funds DomLiquidityToken None)
  | Some new_balance =>
      save_liquidity_stats_addr owner
        (match kind with
         | KindLp => set_lp new_balance addr_stats
         | KindXlp => set_xlp new_balance addr_stats
         end)
  end.

(** The end of the four transfers: take from one record, add to the other. *)
Definition liquidity_token_move (owner recipient : Addr) (amount : Uint128)
    (kind : LiquidityTokenKind) : mhandler unit :=
  a <~ hlift (uint_128_into_lp_token amount);
  let amount := into_signed a in
  liquidity_token_balance_change_inner owner (signed_neg amount) kind;;;
  liquidity_token_balance_change_inner recipient amount kind.

(** ** Allowances *)

(** [Map::update] on the two maps of a kind. *)
Definition lt_update_allowance (kind : LiquidityTokenKind) (k : Addr * Addr)
    (f : option AllowanceResponse -> res AllowanceResponse) : mhandler AllowanceResponse :=
  old <~ hget (fun m => allowances_map kind (m_lp_tokens m) !! k);
  new <~ hlift (f old);
  mod_lp_tokens (fun s => set_allowances kind (<[k := new]> (allowances_map kind s)) s);;;
  hret new.
Definition lt_update_allowance_spender (kind : LiquidityTokenKind) (k : Addr * Addr)
    (f : option AllowanceResponse -> res AllowanceResponse) : mhandler AllowanceResponse :=
  old <~ hget (fun m => allowances_spender_map kind (m_lp_tokens m) !! k);
  new <~ hlift (f old);
  mod_lp_tokens (fun s =>
    set_spender_allowances kind (<[k := new]> (allowances_spender_map kind s)) s);;;
  hret new.

Definition raise_allowance (amount : Uint128) (exp : option Expiration)
    (allow : option AllowanceResponse) : res AllowanceResponse :=
  let val := default allowance_default allow in
  v <- panics "attempt to add with overflow" (u128_op_add (allowance val) amount);
  Ok (mkAllowance v (default (expires val) exp)).

Definition spend_allowance (amount : Uint128) (current : option AllowanceResponse) :
    res AllowanceResponse :=
  match current with
  | Some a =>
      if is_expired (expires a) (st_block st) then Err (perp_cw20 Expired)
      else v <- std (u128_sub (allowance a) amount); Ok (mkAllowance v (expires a))
  | None => Err (perp_auth DomCw20)
  end.

Definition liquidity_token_increase_allowance (owner spender : Addr) (amount : Uint128)
    (exp : option Expiration) (kind : LiquidityTokenKind) : mhandler unit :=
  add_event st (EvLiquidityToken (AllowanceChangeEvent Increase owner spender amount exp));;;
  hensure (negb (String.eqb spender owner)) (perp_cw20 Auth);;;
  lt_update_allowance kind (owner, spender) (raise_allowance amount exp);;;
  lt_update_allowance_spender kind (spender, owner) (raise_allowance amount exp);;;
  hret tt.

Definition liquidity_token_decrease_allowance (owner spender : Addr) (amount : Uint128)
    (exp : option Expiration) (kind : LiquidityTokenKind) : mhandler unit :=
  add_event st (EvLiquidityToken (AllowanceChangeEvent Decrease owner spender amount exp));;;
  hensure (negb (String.eqb spender owner)) (perp_auth DomCw20);;;
  a <~ hask (fun m => of_option StdError (allowances_map kind (m_lp_tokens m) !! (owner, spender)));
  if amount <? allowance a then
    v <~ hlift (std (u128_sub (allowance a) amount));
    let a' := mkAllowance v (default (expires a) exp) in
    mod_lp_tokens (fun s =>
      set_allowances kind (<[(owner, spender) := a']> (allowances_map kind s)) s);;;
    mod_lp_tokens (fun s =>
      set_spender_allowances kind (<[(spender, owner) := a']> (allowances_spender_map kind s)) s)
  else
    mod_lp_tokens (fun s =>
      set_allowances kind (delete (owner, spender) (allowances_map kind s)) s);;;
    mod_lp_tokens (fun s =>
      set_spender_allowances kind (delete (spender, owner) (allowances_spender_map kind s)) s).

Definition liquidity_token_deduct_allowance_inner (owner spender : Addr) (amount : Uint128)
    (kind : LiquidityTokenKind) : mhandler AllowanceResponse :=
  lt_update_allowance kind (owner, spender) (spend_allowance amount);;;
  lt_update_allowance_spender kind (spender, owner) (spend_allowance amount).

(** ** The CW20 handlers *)

Definition liquidity_token_transfer (owner recipient : Addr) (amount : Uint128)
    (kind : LiquidityTokenKind) : mhandler unit :=
  add_event st (EvLiquidityToken (TransferEvent owner recipient amount None));;;
  liquidity_token_move owner recipient amount kind.

Definition liquidity_token_transfer_from (sender owner recipient : Addr) (amount : Uint128)
    (kind : LiquidityTokenKind) : mhandler unit :=
  add_event st (EvLiquidityToken (TransferEvent owner recipient amount (Some sender)));;;
  liquidity_token_deduct_allowance_inner owner sender amount kind;;;
  liquidity_token_move owner recipient amount kind.

Definition liquidity_token_send_with_msg (owner contract : Addr) (amount : Uint128)
    (msg : Binary) (kind : LiquidityTokenKind) : mhandler unit :=
  add_event st (EvLiquidityToken (SendEvent owner contract amount None));;;
  add_message (Cw20Receive (mkReceive contract owner amount msg));;;
  liquidity_token_move owner contract amount kind.

Definition liquidity_token_send_with_msg_from (sender owner contract : Addr)
    (amount : Uint128) (msg : Binary) (kind : LiquidityTokenKind) : mhandler unit :=
  add_event st (EvLiquidityToken (SendEvent owner contract amount (Some sender)));;;
  liquidity_token_deduct_allowance_inner owner sender amount kind;;;
  add_message (Cw20Receive (mkReceive contract sender amount msg));;;
  liquidity_token_move owner contract amount kind.

Definition liquidity_token_handle_exec (msg_sender : Addr) (kind : LiquidityTokenKind)
    (msg : LpTokenMsg) : mhandler unit :=
  match msg with
  | LtTransfer recipient amount =>
      r <~ hlift (lt_validate recipient);
      liquidity_token_transfer msg_sender r amount kind
  | LtSend contract amount msg =>
      c <~ hlift (lt_validate contract);
      liquidity_token_send_with_msg msg_sender c amount msg kind
  | LtIncreaseAllowance spender amount exp =>
      s <~ hlift (lt_validate spender);
      liquidity_token_increase_allowance msg_sender s amount exp kind
  | LtDecreaseAllowance spender amount exp =>
      s <~ hlift (lt_validate spender);
      liquidity_token_decrease_allowance msg_sender s amount exp kind
  | LtTransferFrom owner recipient amount =>
      o <~ hlift (lt_validate owner);
      r <~ hlift (lt_validate recipient);
      liquidity_token_transfer_from msg_sender o r amount kind
  | LtSendFrom owner contract amount msg =>
      o <~ hlift (lt_validate owner);
      c <~ hlift (lt_validate contract);
      liquidity_token_send_with_msg_from msg_sender o c amount msg kind
  end.

(** ** Queries *)

(** [lp_info] counts the LP already unstaked; for xLP the stored amount. *)
Definition liquidity_token_balance (m : MarketCtx) (addr : Addr) (kind : LiquidityTokenKind) :
    res Uint128 :=
  amount <- match kind with
            | KindLp => i <- lp_info st m addr; Ok (info_lp_amount i)
            | KindXlp => s <- match liquidity_stats_addr_may m addr with
                              | Some s => Ok s
                              | None => stats_by_addr_new m
                              end;
                         Ok (xlp s)
            end;
  lp_token_into_uint_128 amount.

Definition liquidity_token_allowance (m : MarketCtx) (owner spender : Addr)
    (kind : LiquidityTokenKind) : AllowanceResponse :=
  default allowance_default (allowances_map kind (m_lp_tokens m) !! (owner, spender)).

Definition lt_limit (limit : option Z) : nat :=
  Z.to_nat (Z.min (default LT_DEFAULT_LIMIT limit) QUERY_MAX_LIMIT).

Definition lt_page {A} (m : gmap Addr A) (start_after : option Addr) (limit : option Z) :
    list (Addr * A) :=
  omap (fun k => pair k <$> m !! k) (take (lt_limit limit) (keys_after start_after m)).

Definition liquidity_token_owner_allowances (m : MarketCtx) (owner : Addr)
    (start_after : option Addr) (limit : option Z) (kind : LiquidityTokenKind) :
    list (Addr * AllowanceResponse) :=
  lt_page (prefix owner (allowances_map kind (m_lp_tokens m))) start_after limit.
Definition liquidity_token_spender_allowances (m : MarketCtx) (spender : Addr)
    (start_after : option Addr) (limit : option Z) (kind : LiquidityTokenKind) :
    list (Addr * AllowanceResponse) :=
  lt_page (prefix spender (allowances_spender_map kind (m_lp_tokens m))) start_after limit.

Definition liquidity_token_all_accounts (m : MarketCtx) (start_after : option Addr)
    (limit : option Z) : list Addr :=
  liquidity_providers m start_after (lt_limit limit).

(** The name and the symbol of a token. *)
Definition lp_token_name (kind : LiquidityTokenKind) : string :=
  mid_encoded (st_market_id st) +:+ "-" +:+
  match kind with KindLp => "LEVLP" | KindXlp => "LEVxLP" end.

Definition liquidity_token_info (m : MarketCtx) (kind : LiquidityTokenKind) : res TokenInfo :=
  let stats := liquidity_stats m in
  total <- lp_token_into_uint_128
             (match kind with KindLp => total_lp stats | KindXlp => total_xlp stats end);
  Ok (mkTokenInfo (lp_token_name kind) (lp_token_name kind) LT_DECIMAL_PLACES total).

Definition liquidity_token_handle_query (m : MarketCtx) (kind : LiquidityTokenKind)
    (msg : LpTokenQuery) : res LpTokenAnswer :=
  match msg with
  | LqKind => Ok (LaKind kind)
  | LqBalance address =>
      a <- lt_validate address; b <- liquidity_token_balance m a kind; Ok (LaBalance b)
  | LqTokenInfo => i <- liquidity_token_info m kind; Ok (LaTokenInfo i)
  | LqAllowance owner spender =>
      o <- lt_validate owner; s <- lt_validate spender;
      Ok (LaAllowance (liquidity_token_allowance m o s kind))
  | LqAllAllowances owner start_after limit =>
      o <- lt_validate owner; start <- lt_validate_opt start_after;
      Ok (LaAllowances (liquidity_token_owner_allowances m o start limit kind))
  | LqAllSpenderAllowances spender start_after limit =>
      s <- lt_validate spender; start <- lt_validate_opt start_after;
      Ok (LaAllowances (liquidity_token_spender_allowances m s start limit kind))
  | LqAllAccounts start_after limit =>
      start <- lt_validate_opt start_after;
      Ok (LaAccounts (liquidity_token_all_accounts m start limit))
  | LqMarketingInfo => Ok (LaMarketingInfo marketing_default)
  | LqVersion => Err (PerpError InvalidLiquidityTokenMsg DomLiquidityToken None)
  end.

End Definitions.
