(* ===== verification/LiquidityCache.v ===== *)
(** * The liquidity cache

    [LiquidityCache] of [contracts/market/src/state/liquidity/stats.rs] holds,
    for the duration of one message, the pool totals and the provider records
    that were read or written.  The operations here go through the cache the
    way the code does; the theorem says that this is the same as going to
    storage every time, which is what Liquidity.v does. *)

From stdpp Require Import base option gmap strings list.
From Stdlib Require Import ZArith Lia.
From S2P Require Import Prelude Storage Cosmwasm Types Number Time Market Price Token DataSeries Config Position State Pool LpHistory Liquidity.
Local Open Scope Z_scope.

Record LiquidityCache := mkLiquidityCache {
  cache_protocol : option LiquidityStats;
  cache_addr : gmap Addr (option LiquidityStatsByAddr);
}.

(** [LiquidityCache::default], at the start of a message. *)
Definition liquidity_cache_default : LiquidityCache := mkLiquidityCache None ∅.

Abbreviation CachedCtx := (MarketCtx * LiquidityCache)%type.

(** The operations of the module, and what they return. *)
Inductive CacheOp :=
| LoadStats
| SaveStats (stats : LiquidityStats)
| LoadAddrMay (addr : Addr)
| SaveAddr (addr : Addr) (stats : LiquidityStatsByAddr).

Inductive CacheOut :=
| OutStats (stats : LiquidityStats)
| OutAddr (stats : option LiquidityStatsByAddr)
| OutUnit.

Section Definitions.
Context {CW : CosmwasmStd}.

Definition cached_load_stats : handler CachedCtx error LiquidityStats := fun '(m, c) =>
  match cache_protocol c with
  | Some x => Ok (x, (m, c))
  | None =>
      let liquidity_stats := liquidity_stats m in
      Ok (liquidity_stats, (m, mkLiquidityCache (Some liquidity_stats) (cache_addr c)))
  end.

Definition cached_save_stats (stats : LiquidityStats) : handler CachedCtx error unit :=
  fun '(m, c) =>
  total_collateral <- total_collateral stats;
  reset <- (if ud_is_zero total_collateral
            then total_tokens <- total_tokens stats; Ok (negb (ud_is_zero total_tokens))
            else Ok false);
  if reset : bool
  then
    let stats := mkLiquidityStats 0 0 0 0 in
    let l := set_RESET_LP_STATUS (Some ResetBegin) (set_LIQUIDITY_STATS stats (m_liquidity m)) in
    Ok (tt, (set_m_liquidity l m, mkLiquidityCache (Some stats) ∅))
  else
    Ok (tt, (set_m_liquidity (set_LIQUIDITY_STATS stats (m_liquidity m)) m,
             mkLiquidityCache (Some stats) (cache_addr c))).

Definition cached_load_addr_may (addr : Addr) :
    handler CachedCtx error (option LiquidityStatsByAddr) := fun '(m, c) =>
  match cache_addr c !! addr with
  | Some stats => Ok (stats, (m, c))
  | None =>
      let stats := liquidity_stats_addr_may m addr in
      Ok (stats, (m, mkLiquidityCache (cache_protocol c) (<[addr := stats]> (cache_addr c))))
  end.

Definition cached_save_addr (addr : Addr) (stats : LiquidityStatsByAddr) :
    handler CachedCtx error unit := fun '(m, c) =>
  let by_addr := LIQUIDITY_STATS_BY_ADDR (m_liquidity m) in
  if stats_is_empty stats
  then Ok (tt, (set_m_liquidity (set_LIQUIDITY_STATS_BY_ADDR (delete addr by_addr)
                                   (m_liquidity m)) m,
                mkLiquidityCache (cache_protocol c) (<[addr := None]> (cache_addr c))))
  else Ok (tt, (set_m_liquidity (set_LIQUIDITY_STATS_BY_ADDR (<[addr := stats]> by_addr)
                                   (m_liquidity m)) m,
                mkLiquidityCache (cache_protocol c) (<[addr := Some stats]> (cache_addr c)))).

Definition cached_op (op : CacheOp) : handler CachedCtx error CacheOut :=
  match op with
  | LoadStats => x <~ cached_load_stats; hret (OutStats x)
  | SaveStats s => cached_save_stats s;;; hret OutUnit
  | LoadAddrMay a => x <~ cached_load_addr_may a; hret (OutAddr x)
  | SaveAddr a s => cached_save_addr a s;;; hret OutUnit
  end.

(** The same operations of Liquidity.v. *)
Definition stored_op (op : CacheOp) : mhandler CacheOut :=
  match op with
  | LoadStats => x <~ load_liquidity_stats; hret (OutStats x)
  | SaveStats s => save_liquidity_stats s;;; hret OutUnit
  | LoadAddrMay a => x <~ hget (fun m => liquidity_stats_addr_may m a); hret (OutAddr x)
  | SaveAddr a s => save_liquidity_stats_addr a s;;; hret OutUnit
  end.

Fixpoint run_ops {S} (step : CacheOp -> handler S error CacheOut) (ops : list CacheOp) :
    handler S error (list CacheOut) :=
  match ops with
  | [] => hret []
  | op :: rest => x <~ step op; xs <~ run_ops step rest; hret (x :: xs)
  end.

End Definitions.

(** * Theory *)

(** The cache agrees with storage wherever it has an entry. *)
Definition coherent (m : MarketCtx) (c : LiquidityCache) : Prop :=
  (forall s, cache_protocol c = Some s -> s = liquidity_stats m) /\
  (forall a o, cache_addr c !! a = Some o -> o = liquidity_stats_addr_may m a).

Lemma coherent_default m : coherent m liquidity_cache_default.
Proof. split; [done|]. intros a o H. simpl in H. by rewrite lookup_empty in H. Qed.

(** [hc] on a coherent cache does what [h] does on storage. *)
Definition simulates {A} (hc : handler CachedCtx error A) (h : mhandler A) : Prop :=
  forall m c, coherent m c ->
    match hc (m, c) with
    | Ok (a, (m', c')) => h m = Ok (a, m') /\ coherent m' c'
    | Err e => h m = Err e
    end.

Lemma simulates_bind {A B} (hc : handler CachedCtx error A) (h : mhandler A)
    (kc : A -> handler CachedCtx error B) (k : A -> mhandler B) :
  simulates hc h -> (forall a, simulates (kc a) (k a)) -> simulates (hbind hc kc) (hbind h k).
Proof.
  intros Hh Hk m c Hc. specialize (Hh m c Hc). unfold hbind.
  destruct (hc (m, c)) as [[a [m' c']]|e].
  - destruct Hh as [-> Hc']. apply (Hk a m' c' Hc').
  - by rewrite Hh.
Qed.

Lemma simulates_ret {A} (a : A) : simulates (hret a) (hret a).
Proof. intros m c Hc. done. Qed.

Section Theory.
Context {CW : CosmwasmStd}.

Lemma simulates_load_stats : simulates cached_load_stats load_liquidity_stats.
Proof.
  intros m c [Hp Ha]. unfold cached_load_stats, load_liquidity_stats, hget.
  destruct (cache_protocol c) as [s|] eqn:E.
  - split; [by rewrite (Hp s eq_refl)|]. split; [by rewrite E|exact Ha].
  - split; [done|]. split; [|exact Ha]. simpl. intros s0 H. by injection H.
Qed.

Lemma simulates_save_stats s : simulates (cached_save_stats s) (save_liquidity_stats s).
Proof.
  intros m c [Hp Ha]. unfold cached_save_stats, save_liquidity_stats, mod_liquidity, hmod, hbind,
    hlift, hret.
  destruct (total_collateral s) as [col|e]; simpl; [|done].
  destruct (ud_is_zero col); simpl.
  - destruct (total_tokens s) as [t|e]; simpl; [|done].
    destruct (ud_is_zero t); simpl; (split; [done|]); split; simpl.
    + by intros ? [= <-].
    + exact Ha.
    + by intros ? [= <-].
    + intros a o H. by rewrite lookup_empty in H.
  - split; [done|]. split; simpl; [by intros ? [= <-]|exact Ha].
Qed.

Lemma simulates_load_addr a :
  simulates (cached_load_addr_may a) (hget (fun m => liquidity_stats_addr_may m a)).
Proof.
  intros m c [Hp Ha]. unfold cached_load_addr_may, hget.
  destruct (cache_addr c !! a) as [o|] eqn:E.
  - split; [by rewrite (Ha a o E)|by split].
  - split; [done|]. split; [done|]. simpl.
    intros b o [[<- <-]|[_ H]]%lookup_insert_Some; [done|by apply Ha].
Qed.

Lemma simulates_save_addr a s :
  simulates (cached_save_addr a s) (save_liquidity_stats_addr a s).
Proof.
  intros m c [Hp Ha]. unfold cached_save_addr, save_liquidity_stats_addr, mod_liquidity, hmod.
  destruct (stats_is_empty s); (split; [done|]); (split; [done|]); simpl;
    intros b o [[<- <-]|[Hne H]]%lookup_insert_Some; unfold liquidity_stats_addr_may; simpl.
  - by rewrite lookup_delete_eq.
  - rewrite lookup_delete_ne by done. by apply Ha.
  - by rewrite lookup_insert_eq.
  - rewrite lookup_insert_ne by done. by apply Ha.
Qed.

Lemma simulates_op op : simulates (cached_op op) (stored_op op).
Proof.
  destruct op; apply simulates_bind; try (intros; apply simulates_ret).
  - apply simulates_load_stats.
  - apply simulates_save_stats.
  - apply simulates_load_addr.
  - apply simulates_save_addr.
Qed.

Lemma simulates_ops ops : simulates (run_ops cached_op ops) (run_ops stored_op ops).
Proof.
  induction ops as [|op ops IH]; simpl; [apply simulates_ret|].
  apply simulates_bind; [apply simulates_op|]. intros x.
  apply simulates_bind; [exact IH|]. intros xs. apply simulates_ret.
Qed.

(** C35: the cache is invisible.  Starting a message with the empty cache, any
    sequence of loads and saves of pool totals and provider records returns
    through the cache exactly what it returns on storage, fails exactly when it
    fails there, and leaves the same storage behind, also across the save that
    drains the pool and empties the cache. *)
Theorem liquidity_cache_refines_storage (ops : list CacheOp) (m : MarketCtx) :
  match run_ops cached_op ops (m, liquidity_cache_default) with
  | Ok (outs, (m', _)) => run_ops stored_op ops m = Ok (outs, m')
  | Err e => run_ops stored_op ops m = Err e
  end.
Proof.
  pose proof (simulates_ops ops m _ (coherent_default m)) as H.
  destruct (run_ops cached_op ops (m, liquidity_cache_default)) as [[outs [m' c]]|e]; [|done].
  by destruct H.
Qed.
End Theory.
