(* ===== verification/Books.v ===== *)
(** * The liquidity books

    The part of the market's storage that accounts for the liquidity providers
    (pool totals, per-provider stats, the yield table, the reset status and the
    collateral that backs unclaimed yield), as a record of its own, with the
    invariant of Liquidity.v and Fees.v on it.

    The yield a provider can claim is kept exact by scaling with [DEC_ONE]:
    what has been accrued, plus the growth of the prefix sums since the last
    accrual times the provider's tokens. *)

From stdpp Require Import base option gmap strings list.
From Stdlib Require Import ZArith Lia.
From S2P Require Import Prelude Storage Cosmwasm Types Number Time Market Price Token DataSeries Config Position State Pool LpHistory Liquidity.
Local Open Scope Z_scope.

Abbreviation Providers := (gmap Addr LiquidityStatsByAddr).
Abbreviation Yields := (gmap Z YieldPerToken).

Record Books := mkBooks {
  b_stats : LiquidityStats;
  b_addrs : Providers;
  b_reset : option ResetLpStatus;
  b_yields : Yields;
  b_backing : Z;
  b_crank : Z;
}.

Definition backing (f : Fees) : Z := fees_wallets f + fees_referral f.

Definition books (m : MarketCtx) : Books :=
  mkBooks (liquidity_stats m) (LIQUIDITY_STATS_BY_ADDR (m_liquidity m))
    (RESET_LP_STATUS (m_liquidity m)) (YIELD_PER_TIME_PER_TOKEN (m_liquidity m))
    (backing (ALL_FEES m)) (fees_crank (ALL_FEES m)).

Lemma same_books_books m m' : same_books m m' -> books m' = books m.
Proof. intros [Hl Hf]. unfold books, liquidity_stats. by rewrite Hl, Hf. Qed.

Lemma keeps_books_books {A} (h : mhandler A) m a m' :
  keeps_books h -> h m = Ok (a, m') -> books m' = books m.
Proof. intros Hk H. eapply same_books_books, Hk, H. Qed.

(** ** Tokens *)

Definition pending_xlp (s : LiquidityStatsByAddr) : Z :=
  match unstaking s with Some u => xlp_amount u - collected u | None => 0 end.

(** What a provider holds as LP for the protocol totals. *)
Definition lp_weight (s : LiquidityStatsByAddr) : Z := lp s + pending_xlp s.

(** The vesting is linear: what was collected is at most the elapsed share. *)
Record unstaking_ok (u : UnstakingXlp) : Prop := {
  unstaking_amount : is_dec (xlp_amount u);
  unstaking_collected : 0 <= collected u < xlp_amount u;
  unstaking_started : unstake_started u <= last_collected u;
  unstaking_duration : 0 <= unstake_duration u;
  unstaking_linear :
    collected u * unstake_duration u <= xlp_amount u * (last_collected u - unstake_started u);
}.

Record addr_ok (y : Yields) (s : LiquidityStatsByAddr) : Prop := {
  addr_lp : 0 <= lp s;
  addr_xlp : is_dec (xlp s);
  addr_lp_yield : 0 <= lp_accrued_yield s;
  addr_xlp_yield : 0 <= xlp_accrued_yield s;
  addr_crank : 0 <= crank_rewards s;
  addr_referrer : 0 <= referrer_rewards s;
  addr_unstaking : forall u, unstaking s = Some u -> unstaking_ok u;
  addr_key : is_Some (y !! last_accrue_key s);
}.

(** ** Yield *)

(** The prefix sums grow along the table. *)
Definition yields_ok (y : Yields) : Prop :=
  exists k e, last_entry any_key y = Some (k, e) /\ 0 <= k /\
    forall k' e', y !! k' = Some e' -> y_lp e' <= y_lp e /\ y_xlp e' <= y_xlp e.

Definition accrued_total (s : LiquidityStatsByAddr) : Z :=
  lp_accrued_yield s + xlp_accrued_yield s + crank_rewards s + referrer_rewards s.

(** What the prefix sums add between an entry and the end of the table. *)
Definition growth (y : Yields) (s : LiquidityStatsByAddr) : Z :=
  match last_entry any_key y, y !! last_accrue_key s with
  | Some (_, e), Some b => (y_lp e - y_lp b) * lp_weight s + (y_xlp e - y_xlp b) * xlp s
  | _, _ => 0
  end.

Definition claim (y : Yields) (s : LiquidityStatsByAddr) : Z :=
  accrued_total s * DEC_ONE + growth y s.

(** What [calculate_accrued_yield] makes of it, rounding each part down. *)
Definition owed (y : Yields) (s : LiquidityStatsByAddr) : Z :=
  accrued_total s +
  match last_entry any_key y, y !! last_accrue_key s with
  | Some (_, e), Some b =>
      (y_lp e - y_lp b) * lp_weight s / DEC_ONE + (y_xlp e - y_xlp b) * xlp s / DEC_ONE
  | _, _ => 0
  end.

(** ** The invariant *)

Definition addrs_ok (y : Yields) (a : Providers) : Prop :=
  forall addr s, a !! addr = Some s -> addr_ok y s.

(** [dc] is backing that is promised but not yet recorded with a provider. *)
Record core (b : Books) (dc : Z) : Prop := {
  core_pool : pool_ok (b_stats b);
  core_drained : collateral_of (b_stats b) = 0 -> tokens_of (b_stats b) = 0;
  core_yields : yields_ok (b_yields b);
  core_addrs : addrs_ok (b_yields b) (b_addrs b);
  core_nonempty : forall a s, b_addrs b !! a = Some s -> stats_is_empty s = false;
  core_backed : map_sum (claim (b_yields b)) (b_addrs b) + dc <= b_backing b * DEC_ONE;
  core_crank : 0 <= b_crank b;
}.

(** [dl] and [dx] are tokens the totals have and no provider has yet. *)
Definition tokens (b : Books) (dl dx : Z) : Prop :=
  b_reset b = None /\
  map_sum lp_weight (b_addrs b) + dl = total_lp (b_stats b) /\
  map_sum xlp (b_addrs b) + dx = total_xlp (b_stats b).

(** During a reset the totals are zero, and so are the tokens of every provider
    the crank has been through. *)
Definition reset_done (r : ResetLpStatus) (addr : Addr) : bool :=
  match r with ResetBegin => false | ResetLastSaw last => negb (str_after (Some last) addr) end.

Definition resetting (b : Books) : Prop :=
  exists r, b_reset b = Some r /\ total_lp (b_stats b) = 0 /\ total_xlp (b_stats b) = 0 /\
    forall addr s, b_addrs b !! addr = Some s -> reset_done r addr = true ->
      lp_weight s = 0 /\ xlp s = 0.

Definition books_ok (b : Books) : Prop := core b 0 /\ (tokens b 0 0 \/ resetting b).

(** ** Updates of the books *)

Definition store_addr (a : Addr) (s : LiquidityStatsByAddr) (m : Providers) : Providers :=
  if stats_is_empty s then delete a m else <[a := s]> m.

Definition b_store (a : Addr) (s : LiquidityStatsByAddr) (b : Books) : Books :=
  mkBooks (b_stats b) (store_addr a s (b_addrs b)) (b_reset b) (b_yields b) (b_backing b) (b_crank b).
Definition b_set_stats (s : LiquidityStats) (b : Books) : Books :=
  mkBooks s (b_addrs b) (b_reset b) (b_yields b) (b_backing b) (b_crank b).
Definition b_begin_reset (b : Books) : Books :=
  mkBooks liquidity_stats_default (b_addrs b) (Some ResetBegin) (b_yields b) (b_backing b) (b_crank b).
Definition b_add_backing (x : Z) (b : Books) : Books :=
  mkBooks (b_stats b) (b_addrs b) (b_reset b) (b_yields b) (b_backing b + x) (b_crank b).
Definition b_set_crank (c : Z) (b : Books) : Books :=
  mkBooks (b_stats b) (b_addrs b) (b_reset b) (b_yields b) (b_backing b) c.
Definition b_add_yield (k : Z) (e : YieldPerToken) (b : Books) : Books :=
  mkBooks (b_stats b) (b_addrs b) (b_reset b) (<[k := e]> (b_yields b)) (b_backing b) (b_crank b).

(** ** Sums after an update *)

Lemma stats_is_empty_true s :
  stats_is_empty s = true ->
  lp s = 0 /\ xlp s = 0 /\ unstaking s = None /\ accrued_total s = 0.
Proof.
  unfold stats_is_empty, ud_is_zero, accrued_total. intros H. bool_prop.
  destruct (unstaking s); [done|]. split_and!; try done. lia.
Qed.

Lemma empty_lp_weight s : stats_is_empty s = true -> lp_weight s = 0.
Proof.
  intros (? & ? & Hu & _)%stats_is_empty_true. unfold lp_weight, pending_xlp. rewrite Hu. lia.
Qed.
Lemma empty_xlp s : stats_is_empty s = true -> xlp s = 0.
Proof. by intros (? & ? & _)%stats_is_empty_true. Qed.
Lemma growth_zero y s : lp_weight s = 0 -> xlp s = 0 -> growth y s = 0.
Proof.
  intros Hl Hx. unfold growth. rewrite Hl, Hx.
  destruct (last_entry any_key y) as [[? ?]|]; [|done]. destruct (y !! _); lia.
Qed.
Lemma empty_claim y s : stats_is_empty s = true -> claim y s = 0.
Proof.
  intros H. unfold claim. rewrite growth_zero by auto using empty_lp_weight, empty_xlp.
  destruct (stats_is_empty_true s H) as (_ & _ & _ & ->). lia.
Qed.

Lemma map_sum_store (f : LiquidityStatsByAddr -> Z) (m : Providers) a s :
  (stats_is_empty s = true -> f s = 0) ->
  map_sum f (store_addr a s m) = map_sum f m - map_get f m a + f s.
Proof.
  intros Hf. unfold store_addr. destruct (stats_is_empty s) eqn:E.
  - rewrite map_sum_remove, Hf by done. lia.
  - apply map_sum_insert.
Qed.

Lemma store_addr_lookup (m : Providers) a s b s' :
  store_addr a s m !! b = Some s' -> (b = a /\ s' = s) \/ (b <> a /\ m !! b = Some s').
Proof.
  unfold store_addr. destruct (stats_is_empty s).
  - rewrite lookup_delete_Some. naive_solver.
  - rewrite lookup_insert_Some. naive_solver.
Qed.

Lemma store_addr_nonempty (m : Providers) a s :
  (forall c s', m !! c = Some s' -> stats_is_empty s' = false) ->
  forall c s', store_addr a s m !! c = Some s' -> stats_is_empty s' = false.
Proof.
  intros Hm c s'. unfold store_addr. destruct (stats_is_empty s) eqn:E.
  - intros [_ H]%lookup_delete_Some. by apply (Hm c).
  - intros [[_ <-]|[_ H]]%lookup_insert_Some; [done|by apply (Hm c)].
Qed.

Lemma core_store b dc a s :
  core b dc -> addr_ok (b_yields b) s ->
  core (b_store a s b) (dc + map_get (claim (b_yields b)) (b_addrs b) a - claim (b_yields b) s).
Proof.
  intros [Hp Hd Hy Ha Hn Hb Hcr] Hs. split; simpl; try done.
  - intros b' s' [[_ ->]|[_ H]]%store_addr_lookup; [done|by apply (Ha b')].
  - intros b' s' H. by apply (store_addr_nonempty _ _ _ Hn) in H.
  - rewrite map_sum_store by apply empty_claim. lia.
Qed.

Lemma tokens_store b dl dx a s :
  tokens b dl dx ->
  tokens (b_store a s b) (dl + map_get lp_weight (b_addrs b) a - lp_weight s)
    (dx + map_get xlp (b_addrs b) a - xlp s).
Proof.
  intros (Hr & Hl & Hx). split_and!; simpl; [done|..].
  - rewrite map_sum_store by apply empty_lp_weight. lia.
  - rewrite map_sum_store by apply empty_xlp. lia.
Qed.

Lemma resetting_store b a s :
  resetting b -> map_get lp_weight (b_addrs b) a = lp_weight s ->
  map_get xlp (b_addrs b) a = xlp s -> resetting (b_store a s b).
Proof.
  intros (r & Hr & Hl & Hx & Hdone) Hw Hxs. exists r. split_and!; try done.
  intros c s' [[-> ->]|[_ H]]%store_addr_lookup Hc; [|by apply (Hdone c)].
  unfold map_get in *. destruct (b_addrs b !! a) as [s0|] eqn:E; simpl in *.
  - rewrite <- Hw, <- Hxs. by apply (Hdone a).
  - lia.
Qed.

(** ** Book-keeping steps change nothing that the invariant counts *)

Record bk_step (b b' : Books) : Prop := {
  bk_stats : b_stats b' = b_stats b;
  bk_reset : b_reset b' = b_reset b;
  bk_yields : b_yields b' = b_yields b;
  bk_core : forall dc, core b dc -> core b' dc;
  bk_tokens : forall dl dx, tokens b dl dx -> tokens b' dl dx;
  bk_resetting : resetting b -> resetting b';
}.

Lemma bk_step_refl b : bk_step b b.
Proof. by split. Qed.
Lemma bk_step_trans b1 b2 b3 : bk_step b1 b2 -> bk_step b2 b3 -> bk_step b1 b3.
Proof. intros [] []. split; try congruence; eauto. Qed.

Lemma core_weaken b dc dc' : core b dc -> dc' <= dc -> core b dc'.
Proof. intros [] Hle. split; try done. lia. Qed.

(** Rewriting a provider's record without changing tokens or raising the
    claim is such a step. *)
Lemma bk_step_store b a s :
  (forall dc, core b dc -> addr_ok (b_yields b) s /\
    claim (b_yields b) s <= map_get (claim (b_yields b)) (b_addrs b) a) ->
  map_get lp_weight (b_addrs b) a = lp_weight s ->
  map_get xlp (b_addrs b) a = xlp s ->
  bk_step b (b_store a s b).
Proof.
  intros Hc Hl Hx. split; try done.
  - intros dc Hcore. destruct (Hc _ Hcore) as [Hs Hle].
    eapply core_weaken; [by apply core_store|]. lia.
  - intros dl dx Ht. pose proof (tokens_store _ _ _ a s Ht) as H. rewrite Hl, Hx in H.
    destruct H as (? & ? & ?). split_and!; [done|lia..].
  - intros Hr. by apply resetting_store.
Qed.

(** ** Provider records whose yield has been accrued *)

Definition fresh (y : Yields) (s : LiquidityStatsByAddr) : Prop :=
  exists e, last_entry any_key y = Some (last_accrue_key s, e).

Lemma claim_fresh y s : fresh y s -> claim y s = accrued_total s * DEC_ONE.
Proof.
  intros [e He]. unfold claim, growth. rewrite He.
  pose proof (last_entry_spec any_key y) as Hs. rewrite He in Hs. destruct Hs as (-> & _ & _).
  lia.
Qed.

Lemma owed_still y s : lp_weight s = 0 -> xlp s = 0 -> owed y s = accrued_total s.
Proof.
  intros Hl Hx. unfold owed. rewrite Hl, Hx. destruct (last_entry any_key y) as [[? ?]|]; [|lia].
  destruct (y !! _); rewrite ?Z.mul_0_r; change (0 / DEC_ONE) with 0; lia.
Qed.

Lemma owed_fresh y s : fresh y s -> owed y s = accrued_total s.
Proof.
  intros [e He]. unfold owed. rewrite He. destruct (proj1 (last_entry_Some _ _ _ _) He) as [-> _].
  rewrite !Z.sub_diag, !Z.mul_0_l. change (0 / DEC_ONE) with 0. lia.
Qed.

Lemma owed_claim y s : owed y s * DEC_ONE <= claim y s.
Proof.
  unfold owed, claim, growth. destruct (last_entry any_key y) as [[k e]|]; [|lia].
  destruct (y !! _) as [b|]; [|lia].
  pose proof (Z.mul_div_le ((y_lp e - y_lp b) * lp_weight s) DEC_ONE DEC_ONE_pos).
  pose proof (Z.mul_div_le ((y_xlp e - y_xlp b) * xlp s) DEC_ONE DEC_ONE_pos). lia.
Qed.

Lemma fresh_same_key y s s' : last_accrue_key s' = last_accrue_key s -> fresh y s -> fresh y s'.
Proof. unfold fresh. by intros ->. Qed.

Lemma fresh_key y s : fresh y s -> is_Some (y !! last_accrue_key s).
Proof.
  intros [e He]. pose proof (last_entry_spec any_key y) as Hs. rewrite He in Hs.
  destruct Hs as (-> & _ & _). by eexists.
Qed.

(** ** Pool totals *)

Lemma core_set_stats b dc s :
  core b dc -> pool_ok s -> (collateral_of s = 0 -> tokens_of s = 0) ->
  core (b_set_stats s b) dc.
Proof. intros [] Hs Hd. by split. Qed.

Lemma tokens_set_stats b dl dx s :
  tokens b dl dx ->
  tokens (b_set_stats s b) (dl + total_lp s - total_lp (b_stats b))
    (dx + total_xlp s - total_xlp (b_stats b)).
Proof. intros (Hr & Hl & Hx). split_and!; simpl; [done|lia..]. Qed.

Lemma core_begin_reset b dc : core b dc -> core (b_begin_reset b) dc.
Proof. intros []. split; try done. Qed.

Lemma resetting_begin b : resetting (b_begin_reset b).
Proof. exists ResetBegin. done. Qed.

Lemma tokens_eq b dl dx dl' dx' : tokens b dl dx -> dl = dl' -> dx = dx' -> tokens b dl' dx'.
Proof. by intros ? -> ->. Qed.

(** A provider never holds more than the totals. *)
Lemma tokens_holder b dc dl dx a s :
  core b dc -> tokens b dl dx -> b_addrs b !! a = Some s ->
  lp_weight s + dl <= total_lp (b_stats b) /\ xlp s + dx <= total_xlp (b_stats b) /\
  0 <= pending_xlp s.
Proof.
  intros Hc (_ & Hl & Hx) Hs.
  assert (forall a' s', b_addrs b !! a' = Some s' ->
    0 <= lp_weight s' /\ 0 <= xlp s' /\ 0 <= pending_xlp s') as Hn.
  { intros a' s' Hs'. destruct (core_addrs _ _ Hc a' s' Hs') as [? Hxlp ? ? ? ? Hu _].
    unfold lp_weight, pending_xlp. destruct (unstaking s') as [u|].
    - destruct (Hu u eq_refl). unfold is_dec in *. lia.
    - unfold is_dec in *. lia. }
  pose proof (map_sum_ge lp_weight (b_addrs b) a s (fun j y Hj => proj1 (Hn j y Hj)) Hs).
  pose proof (map_sum_ge xlp (b_addrs b) a s (fun j y Hj => proj1 (proj2 (Hn j y Hj))) Hs).
  destruct (Hn a s Hs) as (? & ? & ?). lia.
Qed.

(** ** Backing and the yield table *)

Lemma core_add_backing b dc x : core b dc -> core (b_add_backing x b) (dc + x * DEC_ONE).
Proof. intros []. split; try done. simpl. lia. Qed.

Lemma map_sum_linear (f g h : LiquidityStatsByAddr -> Z) x y (m : Providers) :
  map_sum (fun s => f s + (x * g s + y * h s)) m =
  map_sum f m + (x * map_sum g m + y * map_sum h m).
Proof.
  induction m as [|i s m Hi IH] using map_ind.
  - rewrite !map_sum_empty. lia.
  - rewrite !map_sum_insert_new by done. rewrite IH. lia.
Qed.

(** Appending an entry after the last one raises every claim by the increase of
    the prefix sums times the provider's tokens. *)
Lemma core_add_yield b dc k e dl dx :
  core b dc -> last_entry any_key (b_yields b) = Some (k, e) -> 0 <= dl -> 0 <= dx ->
  core (b_add_yield (k + 1) (mkYieldPerToken (y_lp e + dl) (y_xlp e + dx)) b)
    (dc - (dl * map_sum lp_weight (b_addrs b) + dx * map_sum xlp (b_addrs b))).
Proof.
  intros [Hp Hd (k0 & e0 & Hlast & Hk0 & Hmono) Ha Hb Hcr] He Hdl Hdx.
  rewrite He in Hlast. injection Hlast as <- <-.
  set (e' := mkYieldPerToken _ _). set (y' := <[k + 1 := e']> (b_yields b)).
  assert (forall j v, b_yields b !! j = Some v -> j <= k) as Hmax.
  { intros j v Hj. pose proof (last_entry_spec any_key (b_yields b)) as Hs. rewrite He in Hs.
    destruct Hs as (_ & _ & Hs). by apply (Hs j v). }
  assert (last_entry any_key y' = Some (k + 1, e')) as Hlast'.
  { apply last_entry_Some. unfold y'. rewrite lookup_insert_eq. split_and!; try done.
    intros j v [[<- _]|[_ Hj]]%lookup_insert_Some _; [lia|]. specialize (Hmax _ _ Hj). lia. }
  assert (forall s, addr_ok (b_yields b) s -> y' !! last_accrue_key s = b_yields b !! last_accrue_key s)
    as Hkey.
  { intros s [? ? ? ? ? ? _ [v Hv]]. unfold y'. apply lookup_insert_ne.
    specialize (Hmax _ _ Hv). lia. }
  split; simpl; try done.
  - exists (k + 1), e'. split_and!; [done|lia|].
    intros j v [[_ <-]|[_ Hj]]%lookup_insert_Some; [lia|]. specialize (Hmono _ _ Hj). simpl. lia.
  - intros a s Hs. specialize (Ha a s Hs). pose proof (Hkey s Ha) as Hks. destruct Ha.
    split; try done. fold y'. by rewrite Hks.
  - fold y'. rewrite (map_sum_ext (claim y')
      (fun s => claim (b_yields b) s + (dl * lp_weight s + dx * xlp s))).
    + rewrite map_sum_linear. lia.
    + intros a s Hs. pose proof (Ha a s Hs) as Hok. unfold claim, growth.
      rewrite Hlast', He, (Hkey s Hok). destruct (addr_key _ _ Hok) as [v ->]. simpl. lia.
Qed.
