(* ===== verification/LiquidityInv.v ===== *)
(** * Liquidity operations keep the books

    Each operation of Liquidity.v, as a change of the books of Books.v: what it
    stores, that the book-keeping before it counts nothing twice, and that the
    invariant [books_ok] holds afterwards. *)

From stdpp Require Import base option gmap strings list.
From Stdlib Require Import ZArith Lia.
From S2P Require Import Prelude Storage Cosmwasm Types Number Time Market Price Token DataSeries Config Position State Pool LpHistory Liquidity Books.
Local Open Scope Z_scope.

Section Primitives.
Context {CW : CosmwasmStd} {CWS : CosmwasmStdSpec CW}.

Lemma save_addr_books a s m u m' :
  save_liquidity_stats_addr a s m = Ok (u, m') -> books m' = b_store a s (books m).
Proof. unfold save_liquidity_stats_addr, mod_liquidity. intros H. by inv_ok. Qed.

Lemma save_stats_books s m u m' :
  save_liquidity_stats s m = Ok (u, m') ->
  (collateral_of s = 0 /\ tokens_of s <> 0 /\ books m' = b_begin_reset (books m)) \/
  ((collateral_of s = 0 -> tokens_of s = 0) /\ books m' = b_set_stats s (books m)).
Proof.
  unfold save_liquidity_stats, mod_liquidity. intros H. lift_in H c Hc.
  apply total_collateral_ok in Hc as ->. unfold ud_is_zero in H.
  destruct (Z.eqb_spec (collateral_of s) 0) as [E|E].
  - step_in H r m1 Hr. lift_in Hr t Ht. apply total_tokens_ok in Ht as ->. inv_ok.
    destruct (Z.eqb_spec (tokens_of s) 0) as [E'|E']; simpl in H; inv_ok; [right|left]; done.
  - step_in H r m1 Hr. inv_ok. by right.
Qed.

(** A save while the pool holds collateral, or no tokens, is a plain store. *)
Lemma save_stats_plain s m u m' :
  save_liquidity_stats s m = Ok (u, m') ->
  (collateral_of s = 0 -> tokens_of s = 0) ->
  books m' = b_set_stats s (books m).
Proof. intros [(? & ? & _)|[_ ?]]%save_stats_books ?; [tauto|done]. Qed.

Lemma load_addr_ok a m s m' :
  load_liquidity_stats_addr a m = Ok (s, m') -> m' = m /\ b_addrs (books m) !! a = Some s.
Proof. unfold load_liquidity_stats_addr. intros H. by inv_ok. Qed.

Lemma latest_ok m k e :
  latest_yield_per_token m = Ok (k, e) <-> last_entry any_key (b_yields (books m)) = Some (k, e).
Proof. apply panics_ok. Qed.

Lemma load_default_ok a m s m' dc :
  load_liquidity_stats_addr_default a m = Ok (s, m') -> core (books m) dc ->
  m' = m /\ addr_ok (b_yields (books m)) s /\
  map_get lp_weight (b_addrs (books m)) a = lp_weight s /\
  map_get xlp (b_addrs (books m)) a = xlp s /\
  map_get (claim (b_yields (books m))) (b_addrs (books m)) a = claim (b_yields (books m)) s /\
  (b_addrs (books m) !! a = Some s \/
   (b_addrs (books m) !! a = None /\ fresh (b_yields (books m)) s)).
Proof.
  unfold load_liquidity_stats_addr_default, liquidity_stats_addr_may. intros H Hc.
  apply hask_ok in H as [H ->]. split; [done|]. unfold map_get. simpl.
  destruct (LIQUIDITY_STATS_BY_ADDR (m_liquidity m) !! a) as [s0|] eqn:E.
  - inv_ok. split_and!; try done; [|by left]. by apply (core_addrs _ _ Hc a).
  - unfold stats_by_addr_new in H. apply rbind_ok in H as ([k e] & Hk & H). inv_ok.
    assert (fresh (b_yields (books m)) (mkLiquidityStatsByAddr 0 0 k 0 0 0 0 None None)) as Hf.
    { exists e. by apply latest_ok in Hk. }
    split_and!; try done; [split; simpl; try lia; try done; by apply (fresh_key _ _ Hf)|..].
    + rewrite claim_fresh by done. simpl. done.
    + by right.
Qed.
End Primitives.

(** ** Accruing yield *)

Definition fresh_at (b : Books) (a : Addr) : Prop :=
  forall s, b_addrs b !! a = Some s -> fresh (b_yields b) s.

Section Accrual.
Context {CW : CosmwasmStd} {CWS : CosmwasmStdSpec CW}.

Lemma lp_reward_amount_ok s v : lp_reward_amount s = Ok v -> v = lp_weight s.
Proof.
  unfold lp_reward_amount, lp_weight, pending_xlp. destruct (unstaking s) as [u|].
  - intros H. apply rbind_ok in H as (p & [-> _]%ud_sub_ok & [-> _]%ud_add_ok). done.
  - intros [= <-]. lia.
Qed.

(** Accruing moves at most the growth into the recorded yield. *)
Lemma calculate_accrued_ok m s o :
  calculate_accrued_yield m s = Ok o ->
  match o with
  | None => fresh (b_yields (books m)) s
  | Some (k, acc) =>
      (exists e, last_entry any_key (b_yields (books m)) = Some (k, e)) /\
      0 <= la_lp acc /\ 0 <= la_xlp acc /\
      (la_lp acc + la_xlp acc) * DEC_ONE <= growth (b_yields (books m)) s
  end.
Proof.
  unfold calculate_accrued_yield. intros H. apply rbind_ok in H as ([k e] & Hk & H).
  apply latest_ok in Hk. destruct (Z.eqb_spec k (last_accrue_key s)) as [->|Hne].
  - inv_ok. by exists e.
  - apply rbind_ok in H as (b & Hb & H). apply std_ok in Hb.
    apply rbind_ok in H as (w & ->%lp_reward_amount_ok & H).
    apply rbind_ok in H as (dl & [-> _]%ud_sub_ok & H).
    apply rbind_ok in H as (al & [-> Hal]%mul_dec_ok & H).
    apply rbind_ok in H as (dx & [-> _]%ud_sub_ok & H).
    apply rbind_ok in H as (ax & [-> Hax]%mul_dec_ok & H). inv_ok.
    unfold is_dec in *. split_and!; [by exists e|simpl; lia|simpl; lia|].
    unfold growth. rewrite Hk. change (b_yields (books m)) with
      (YIELD_PER_TIME_PER_TOKEN (m_liquidity m)). rewrite Hb. simpl.
    pose proof (Z.mul_div_le ((y_lp e - y_lp b) * lp_weight s) DEC_ONE DEC_ONE_pos).
    pose proof (Z.mul_div_le ((y_xlp e - y_xlp b) * xlp s) DEC_ONE DEC_ONE_pos). lia.
Qed.

(** Together with what is recorded it is what the provider is owed. *)
Lemma calculate_accrued_owed m s o :
  calculate_accrued_yield m s = Ok o ->
  match o with Some (_, acc) => la_lp acc + la_xlp acc | None => 0 end + accrued_total s
    = owed (b_yields (books m)) s.
Proof.
  intros H. pose proof (calculate_accrued_ok _ _ _ H) as Hok. revert H.
  unfold calculate_accrued_yield. intros H. apply rbind_ok in H as ([k e] & Hk & H).
  apply latest_ok in Hk. destruct (Z.eqb_spec k (last_accrue_key s)) as [->|Hne].
  - inv_ok. by rewrite owed_fresh.
  - apply rbind_ok in H as (b & Hb & H). apply std_ok in Hb.
    apply rbind_ok in H as (w & ->%lp_reward_amount_ok & H).
    apply rbind_ok in H as (dl & [-> _]%ud_sub_ok & H).
    apply rbind_ok in H as (al & [-> _]%mul_dec_ok & H).
    apply rbind_ok in H as (dx & [-> _]%ud_sub_ok & H).
    apply rbind_ok in H as (ax & [-> _]%mul_dec_ok & H). injection H as <-.
    unfold owed. rewrite Hk. change (b_yields (books m)) with
      (YIELD_PER_TIME_PER_TOKEN (m_liquidity m)). rewrite Hb. simpl. lia.
Qed.

Lemma update_accrued_yield_bk a m u m' :
  update_accrued_yield a m = Ok (u, m') -> (exists dc, core (books m) dc) ->
  bk_step (books m) (books m') /\ fresh_at (books m') a.
Proof.
  unfold update_accrued_yield. intros H [dc Hc].
  step_in H s m1 Hs. destruct (load_default_ok _ _ _ _ _ Hs Hc) as (-> & Hok & Hl & Hx & Hcl & Hcase).
  apply hbind_ok in H as (o & m2 & Ho & H). apply hask_ok in Ho as [Ho ->].
  apply calculate_accrued_ok in Ho. destruct o as [[k acc]|].
  - destruct Ho as ([e He] & H1 & H2 & Hle).
    lift_in H ly Hly. apply ud_add_ok in Hly as [-> _].
    lift_in H xy Hxy. apply ud_add_ok in Hxy as [-> _].
    rewrite (save_addr_books _ _ _ _ _ H).
    set (s' := set_last_accrue_key _ _).
    assert (fresh (b_yields (books m)) s') as Hf by (by exists e).
    split.
    + apply bk_step_store; [|done..]. intros dc' _. split.
      * destruct Hok. split; simpl; try lia; try done. by apply (fresh_key _ _ Hf).
      * rewrite Hcl, claim_fresh by done. unfold claim.
        assert (accrued_total s' = accrued_total s + (la_lp acc + la_xlp acc)) as ->
          by (unfold accrued_total; simpl; lia). lia.
    + intros s'' [[_ ->]|[Hne _]]%store_addr_lookup; done.
  - inv_ok. split; [apply bk_step_refl|]. intros s' Hs'.
    destruct Hcase as [Hsome|[Hnone _]]; congruence.
Qed.
End Accrual.

(** ** Linear unstaking *)

Section Unstaking.
Context {CW : CosmwasmStd} {CWS : CosmwasmStdSpec CW}.
Context (st : State).

Lemma number_from_u64_ok n r :
  number_from_u64 n = Ok r -> r = new_positive (n * DEC_ONE) /\ is_dec (n * DEC_ONE).
Proof.
  unfold number_from_u64, number_from_u128. intros H. apply rbind_ok in H as (d & Hd & H).
  apply panics_ok, dec_from_ratio_Some in Hd as (_ & -> & Hd). rewrite Z.div_1_r in *. by inv_ok.
Qed.

(** The product of a rounded ratio is at most the exact share. *)
Lemma vested_bound e d x ratio amt :
  0 <= e -> 0 < d -> is_dec x -> is_dec (e * DEC_ONE) -> is_dec (d * DEC_ONE) ->
  number_checked_div (new_positive (e * DEC_ONE)) (new_positive (d * DEC_ONE)) = Ok ratio ->
  number_checked_mul ratio (into_signed x) = Ok amt ->
  0 <= sval amt /\ sval amt * d <= x * e.
Proof.
  intros He Hd Hx He1 Hd1 Hr Hm. pose proof DEC_ONE_pos as H1.
  rewrite number_checked_div_fits, !sval_new_positive in Hr by auto using new_positive_ok.
  replace (d * DEC_ONE =? 0) with false in Hr by (symmetry; apply Z.eqb_neq; nia).
  apply signed_fits_ok in Hr as [-> Hrd].
  rewrite number_checked_mul_fits, sval_signed_of, sval_into_signed in Hm
    by auto using signed_of_ok, into_signed_ok.
  apply signed_fits_ok in Hm as [-> _]. rewrite sval_signed_of. unfold is_dec in *.
  rewrite Z.quot_mul_cancel_r by nia.
  rewrite (Z.quot_div_nonneg (e * DEC_ONE) d) by nia.
  assert (0 <= e * DEC_ONE / d) by (apply Z.div_pos; nia).
  rewrite Z.quot_div_nonneg by nia.
  split; [apply Z.div_pos; nia|].
  pose proof (Z.mul_div_le (e * DEC_ONE) d Hd).
  pose proof (Z.mul_div_le (e * DEC_ONE / d * x) DEC_ONE H1).
  apply Z.mul_le_mono_pos_r with DEC_ONE; [done|]. nia.
Qed.

(** What can be collected keeps within the elapsed share, and completes the
    unstaking when the period is over. *)
Lemma calculate_unstaked_ok (u : UnstakingXlp) v :
  unstaking_ok u -> calculate_unstaked_lp st u = Ok v ->
  0 <= v /\ collected u + v <= xlp_amount u /\
  (unstake_started u + unstake_duration u <= st_now st -> collected u + v = xlp_amount u) /\
  (st_now st < unstake_started u + unstake_duration u ->
    last_collected u <= st_now st /\
    (collected u + v) * unstake_duration u
      <= xlp_amount u * (st_now st - unstake_started u)).
Proof.
  intros [Hdec Hcol Hstart Hdur Hlin] H. unfold calculate_unstaked_lp in H.
  apply rbind_ok in H as (el & [-> Hel]%timestamp_checked_sub_ok & H).
  apply rbind_ok in H as (amt & Hamt & H).
  assert (Hv : v = value amt /\ negative amt = false).
  { unfold ud_try_from_number in H. destruct (negative amt); inv_ok. done. }
  destruct Hv as [-> Hneg]. clear H.
  destruct (Z.leb_spec (unstake_duration u) (st_now st - unstake_started u)) as [Hd|Hd].
  - apply signed_checked_sub_ok in Hamt as (Hs & _);
      [|apply into_signed_ok; unfold is_dec in *; lia..].
    rewrite !sval_into_signed in Hs. unfold sval in Hs. rewrite Hneg in Hs. lia.
  - apply rbind_ok in Hamt as (d & [-> Hd0]%timestamp_checked_sub_ok & Hamt).
    apply rbind_ok in Hamt as (e & (-> & He)%number_from_u64_ok & Hamt).
    apply rbind_ok in Hamt as (du & (-> & Hdu)%number_from_u64_ok & Hamt).
    apply rbind_ok in Hamt as (ratio & Hr & Hamt). unfold as_nanos in *.
    destruct (vested_bound (st_now st - last_collected u) (unstake_duration u) (xlp_amount u)
      ratio amt) as [Hv0 Hv]; try done; try lia.
    unfold sval in Hv0, Hv. rewrite Hneg in Hv0, Hv. nia.
Qed.
End Unstaking.

(** ** Book-keeping *)

Lemma fresh_at_bk b b' a :
  bk_step b b' -> fresh_at b a ->
  (forall s', b_addrs b' !! a = Some s' ->
    exists s, b_addrs b !! a = Some s /\ last_accrue_key s' = last_accrue_key s) ->
  fresh_at b' a.
Proof.
  intros Hbk Hf Hk s' Hs'. destruct (Hk _ Hs') as (s & Hs & Heq).
  rewrite (bk_yields _ _ Hbk). eapply fresh_same_key; eauto.
Qed.

Section BookKeeping.
Context {CW : CosmwasmStd} {CWS : CosmwasmStdSpec CW}.
Context (st : State).

(** A fresh record rewritten without changing the tokens or the yield. *)
Lemma bk_step_fresh b a s s' :
  b_addrs b !! a = Some s -> fresh (b_yields b) s ->
  last_accrue_key s' = last_accrue_key s -> accrued_total s' <= accrued_total s ->
  lp_weight s' = lp_weight s -> xlp s' = xlp s ->
  (addr_ok (b_yields b) s -> addr_ok (b_yields b) s') ->
  bk_step b (b_store a s' b) /\ fresh_at (b_store a s' b) a.
Proof.
  intros Hs Hf Hk Hacc Hl Hx Hok. split.
  - apply bk_step_store; rewrite ?(map_get_Some _ _ _ _ Hs); try done.
    intros dc Hc. split; [apply Hok, (core_addrs _ _ Hc a), Hs|].
    rewrite !claim_fresh by eauto using fresh_same_key.
    apply Z.mul_le_mono_nonneg_r; [pose proof DEC_ONE_pos; lia|done].
  - intros s'' [[_ ->]|[? _]]%store_addr_lookup; [|done]. simpl.
    eauto using fresh_same_key.
Qed.

Lemma collect_unstaked_bk a m r m' :
  collect_unstaked_lp st a m = Ok (r, m') -> (exists dc, core (books m) dc) ->
  bk_step (books m) (books m') /\ (fresh_at (books m) a -> fresh_at (books m') a).
Proof.
  unfold collect_unstaked_lp. intros H Hc. step_in H p m0 Hp. inv_ok.
  destruct (stats ← liquidity_stats_addr_may m a; unstaking stats) as [u0|];
    [|inv_ok; split; [apply bk_step_refl|done]].
  step_in H x m1 Hu. destruct (update_accrued_yield_bk _ _ _ _ Hu Hc) as [Hbk Hf].
  step_in H s m2 Hs. apply load_addr_ok in Hs as [-> Hs].
  lift_in H u Huns. apply of_option_ok in Huns. lift_in H v Hv.
  destruct Hc as [dc Hc]. pose proof (bk_core _ _ Hbk _ Hc) as Hc1.
  pose proof (core_addrs _ _ Hc1 a s Hs) as Hok.
  destruct (calculate_unstaked_ok st u v (addr_unstaking _ _ Hok u Huns) Hv)
    as (Hv0 & Hle & Hfull & Hpart).
  destruct (nonzero_new v) as [v'|] eqn:Ev; [|inv_ok; split; [done|intros _; done]].
  apply nonzero_new_Some in Ev as [-> Hne].
  lift_in H c Hcol. apply ud_add_ok in Hcol as [-> _].
  step_in H unst m3 Hunst.
  assert (m3 = m1 /\ match unst with
    | Some u' => pending_xlp (set_unstaking (Some u') s) = xlp_amount u - (collected u + v) /\
                 unstaking_ok u'
    | None => collected u + v = xlp_amount u end) as [-> Hpend].
  { destruct (addr_unstaking _ _ Hok u Huns) as [Hdec Hcol Hstart Hdur Hlin].
    destruct (Z.compare_spec (collected u + v) (xlp_amount u)) as [E|E|E]; inv_ok;
      [done|split; [done|]].
    split; [done|]. destruct Hpart as [Hlast Hbound]; [lia|].
    split; simpl; try done; lia. }
  lift_in H nl Hnl. apply ud_add_ok in Hnl as [-> Hnl].
  step_in H y m4 Hsave. apply save_addr_books in Hsave.
  assert (books m' = books m4) as ->.
  { eapply (keeps_books_books _ _ _ _ _ H). Unshelve. unfold load_liquidity_stats. keeps. }
  rewrite Hsave.
  assert (pending_xlp s = xlp_amount u - collected u) as Hp0
    by (unfold pending_xlp; by rewrite Huns).
  destruct (bk_step_fresh (books m1) a s (set_lp (lp s + v) (set_unstaking unst s)))
    as [Hbk2 Hf2]; try done; [by apply Hf|..].
  - unfold lp_weight. rewrite Hp0. destruct unst as [u'|].
    + destruct Hpend as [Hpend _]. change (pending_xlp (set_lp _ _)) with
        (pending_xlp (set_unstaking (Some u') s)). rewrite Hpend. simpl. lia.
    + unfold pending_xlp. simpl. lia.
  - intros [Hlp]. split; simpl; try done; [lia|].
    intros u' ->. by destruct Hpend.
  - split; [by eapply bk_step_trans|by intros _].
Qed.

Lemma book_keeping_bk a m u m' :
  perform_lp_book_keeping st a m = Ok (u, m') -> (exists dc, core (books m) dc) ->
  bk_step (books m) (books m') /\ fresh_at (books m') a.
Proof.
  unfold perform_lp_book_keeping. intros H Hc.
  step_in H x m1 H1. destruct (update_accrued_yield_bk _ _ _ _ H1 Hc) as [Hbk1 Hf1].
  destruct Hc as [dc Hc]. step_in H y m2 H2. inv_ok.
  destruct (collect_unstaked_bk _ _ _ _ H2) as [Hbk2 Hf2].
  { exists dc. by apply (bk_core _ _ Hbk1). }
  split; [by eapply bk_step_trans|auto].
Qed.
End BookKeeping.

(** ** Deposits and staking *)

(** The fee balances alone. *)
Definition keeps_fees {A} (h : mhandler A) : Prop :=
  forall m a m', h m = Ok (a, m') -> ALL_FEES m' = ALL_FEES m.

Lemma keeps_fees_books {A} (h : mhandler A) : keeps_books h -> keeps_fees h.
Proof. intros Hk m a m' H. by destruct (Hk m a m' H). Qed.
Lemma keeps_fees_bind {A B} (c : mhandler A) (k : A -> mhandler B) :
  keeps_fees c -> (forall a, keeps_fees (k a)) -> keeps_fees (hbind c k).
Proof.
  intros Hc Hk m b m' H. step_in H a m1 H1. rewrite (Hk _ _ _ _ H). by apply (Hc _ _ _ H1).
Qed.
Lemma keeps_fees_mod_liquidity f : keeps_fees (mod_liquidity f).
Proof. intros m u m' H. unfold mod_liquidity in H. by inv_ok. Qed.
Lemma keeps_fees_save_addr {CW : CosmwasmStd} a s : keeps_fees (save_liquidity_stats_addr a s).
Proof. apply keeps_fees_mod_liquidity. Qed.
#[export] Hint Resolve keeps_fees_mod_liquidity keeps_fees_save_addr : perps.
#[export] Hint Extern 5 (keeps_fees _) => apply keeps_fees_books; solve [eauto 2 with perps] : perps.

Ltac keeps_fees :=
  repeat first
    [ progress intros
    | apply keeps_fees_bind
    | solve [eauto 2 with perps]
    | match goal with
      | |- keeps_fees (match ?x with _ => _ end) => destruct x
      | |- keeps_fees (if ?x then _ else _) => destruct x
      end ].

Section Operations.
Context {CW : CosmwasmStd} {CWS : CosmwasmStdSpec CW}.
Context (st : State).

Lemma keeps_pool_events s p : keeps_books (add_pool_size_change_events st s p).
Proof. unfold add_pool_size_change_events, add_delta_neutrality_ratio_event. keeps. Qed.
#[local] Hint Resolve keeps_pool_events : perps.

(** Book-keeping does not move the backing. *)
Lemma book_keeping_backing a m u m' :
  perform_lp_book_keeping st a m = Ok (u, m') -> b_backing (books m') = b_backing (books m).
Proof.
  intros H. unfold books, backing. simpl.
  assert (keeps_fees (perform_lp_book_keeping st a)) as Hk.
  { unfold perform_lp_book_keeping, collect_unstaked_lp, update_accrued_yield,
      load_liquidity_stats_addr_default, load_liquidity_stats_addr, load_liquidity_stats.
    keeps_fees. }
  by rewrite (Hk _ _ _ H).
Qed.

(** A state in which the books balance. *)
Definition balanced (m : MarketCtx) : Prop := core (books m) 0 /\ tokens (books m) 0 0.

Lemma balanced_core m : balanced m -> exists dc, core (books m) dc.
Proof. intros [H _]. by exists 0. Qed.

(** Book-keeping keeps the balance and leaves the provider fresh. *)
Lemma book_keeping_balanced a m u m' :
  perform_lp_book_keeping st a m = Ok (u, m') -> balanced m ->
  balanced m' /\ fresh_at (books m') a /\ b_stats (books m') = b_stats (books m).
Proof.
  intros H Hb. destruct (book_keeping_bk _ _ _ _ _ H (balanced_core _ Hb)) as [Hbk Hf].
  destruct Hb as [Hc Ht]. split; [|split; [done|apply (bk_stats _ _ Hbk)]].
  split; [by apply (bk_core _ _ Hbk)|by apply (bk_tokens _ _ Hbk)].
Qed.

(** Storing a fresh provider's new token balances, with the pool totals. *)
Lemma store_fresh_core b a s s' :
  core b 0 -> addr_ok (b_yields b) s -> fresh (b_yields b) s ->
  map_get (claim (b_yields b)) (b_addrs b) a = claim (b_yields b) s ->
  last_accrue_key s' = last_accrue_key s -> accrued_total s' = accrued_total s ->
  addr_ok (b_yields b) s' ->
  core (b_store a s' b) 0.
Proof.
  intros Hc Hok Hf Hg Hk Ha Hok'.
  assert (claim (b_yields b) s' = claim (b_yields b) s) as Heq
    by (rewrite !claim_fresh by eauto using fresh_same_key; by rewrite Ha).
  pose proof (core_store b 0 a s' Hc Hok') as H. rewrite Hg, Heq in H.
  by replace 0 with (0 + claim (b_yields b) s - claim (b_yields b) s) by lia.
Qed.

Lemma deposit_inner_balanced a amount c m shares m' :
  liquidity_deposit_inner st a amount c m = Ok (shares, m') -> 0 < amount -> balanced m ->
  balanced m' /\ 0 < shares /\ collateral_to_lp (liquidity_stats m) amount = Ok shares /\
  liquidity_stats m' = set_total_lp (total_lp (liquidity_stats m) + shares)
    (set_unlocked (unlocked (liquidity_stats m) + amount) (liquidity_stats m)).
Proof.
  unfold liquidity_deposit_inner. intros H Ha Hbal.
  step_in H s0 m0 Hs0. get_in Hs0. lift_in H x Hx. clear x Hx.
  step_in H x m1 Hbk. destruct (book_keeping_balanced _ _ _ _ Hbk Hbal) as (Hb1 & Hf & Hst).
  lift_in H sh Hsh. lift_in H t1 Htl. apply ud_add_ok in Htl as [-> Htl].
  lift_in H un Hun. apply ud_add_ok in Hun as [-> Hun].
  change (liquidity_stats m) with (b_stats (books m)) in *.
  assert (pool_ok (b_stats (books m))) as Hpool by apply Hbal.
  remember (b_stats (books m)) as s0 eqn:Es0.
  destruct (collateral_to_lp_bound _ _ _ Hpool Ha Hsh) as (Hpos & _ & _).
  set (stats := set_total_lp _ _) in *. simpl in stats.
  step_in H y m2 Hsave. apply save_stats_plain in Hsave.
  2: { destruct Hpool. unfold collateral_of, stats. simpl. lia. }
  lift_in H price Hprice. step_in H y' m3 Hev.
  apply (keeps_books_books _ _ _ _ (keeps_pool_events _ _)) in Hev.
  step_in H s m4 Hs. destruct Hb1 as [Hc1 Ht1].
  assert (core (books m3) 0) as Hc3.
  { rewrite Hev, Hsave. apply core_set_stats; [done|..]; destruct Hpool;
      [split; simpl; lia|]. unfold collateral_of, stats. simpl. lia. }
  assert (tokens (books m3) sh 0) as Ht3.
  { rewrite Hev, Hsave. eapply tokens_eq; [by apply tokens_set_stats|..]; rewrite Hst; simpl; lia. }
  destruct (load_default_ok _ _ _ _ _ Hs Hc3) as (-> & Hok & Hl & Hxl & Hcl & Hcase).
  assert (fresh (b_yields (books m3)) s) as Hfs.
  { destruct Hcase as [E|[_ ?]]; [|done]. rewrite Hev, Hsave in *. by apply Hf. }
  lift_in H nl Hnl. apply ud_add_ok in Hnl as [-> Hnl].
  step_in H ends m5 Hends.
  assert (m5 = m3) as -> by (destruct c; inv_ok; done).
  step_in H y'' m6 Hstore. apply save_addr_books in Hstore.
  set (s' := set_lp _ _) in Hstore. lift_in H usd Husd. step_in H z m7 Hev2.
  apply (keeps_books_books _ _ _ _ (keeps_add_event _ _)) in Hev2. inv_ok.
  assert (books m7 = b_store a s' (books m3)) as Hfin by congruence.
  split; [split|split_and!; [done|done|]].
  - rewrite Hfin. apply store_fresh_core with s; try done.
    destruct Hok. split; simpl; try done. unfold is_dec in *. lia.
  - rewrite Hfin. eapply tokens_eq; [by apply tokens_store|..]; rewrite ?Hl, ?Hxl;
      unfold lp_weight, pending_xlp; simpl; lia.
  - change (liquidity_stats m7) with (b_stats (books m7)). rewrite Hfin, Hev, Hsave. done.
Qed.
(** Replacing a fresh provider's record and moving the totals along. *)
Lemma move_tokens_balanced b a s s' stats :
  core b 0 -> tokens b 0 0 -> b_addrs b !! a = Some s -> fresh (b_yields b) s ->
  last_accrue_key s' = last_accrue_key s -> accrued_total s' = accrued_total s ->
  (addr_ok (b_yields b) s -> addr_ok (b_yields b) s') ->
  pool_ok stats -> (collateral_of stats = 0 -> tokens_of stats = 0) ->
  total_lp stats - total_lp (b_stats b) = lp_weight s' - lp_weight s ->
  total_xlp stats - total_xlp (b_stats b) = xlp s' - xlp s ->
  core (b_set_stats stats (b_store a s' b)) 0 /\
  tokens (b_set_stats stats (b_store a s' b)) 0 0.
Proof.
  intros Hc Ht Hs Hf Hk Ha Hok Hp Hd Hl Hx. pose proof (core_addrs _ _ Hc a s Hs) as Hoks.
  split.
  - apply core_set_stats; [|done..].
    apply store_fresh_core with s; auto using map_get_Some.
  - eapply tokens_eq; [apply tokens_set_stats, tokens_store, Ht|..];
      simpl; rewrite !(map_get_Some _ _ _ _ Hs); lia.
Qed.

(** The same collateral behind the same number of tokens. *)
Definition same_pool (m m' : MarketCtx) : Prop :=
  collateral_of (liquidity_stats m') = collateral_of (liquidity_stats m) /\
  tokens_of (liquidity_stats m') = tokens_of (liquidity_stats m).

(** Moving tokens between LP and xLP leaves the pool as drained as it was. *)
Lemma swap_tokens_pool stats n :
  pool_ok stats -> (collateral_of stats = 0 -> tokens_of stats = 0) ->
  0 <= total_lp stats - n -> 0 <= total_xlp stats + n ->
  pool_ok (set_total_lp (total_lp stats - n) (set_total_xlp (total_xlp stats + n) stats)) /\
  (collateral_of (set_total_lp (total_lp stats - n)
     (set_total_xlp (total_xlp stats + n) stats)) = 0 ->
   tokens_of (set_total_lp (total_lp stats - n)
     (set_total_xlp (total_xlp stats + n) stats)) = 0).
Proof.
  intros [] Hd H1 H2. split; [split; simpl; lia|].
  unfold collateral_of, tokens_of in *. simpl in *. intros H. specialize (Hd H). lia.
Qed.

Lemma stake_lp_balanced a amount m u m' :
  liquidity_stake_lp st a amount m = Ok (u, m') -> balanced m -> balanced m' /\ same_pool m m'.
Proof.
  unfold liquidity_stake_lp. intros H Hbal.
  step_in H x m1 Hbk. destruct (book_keeping_balanced _ _ _ _ Hbk Hbal) as ([Hc Ht] & Hf & Hst).
  step_in H s m2 Hs. apply load_addr_ok in Hs as [-> Hs]. lift_in H old Hold.
  apply of_option_ok, nonzero_new_Some in Hold as [-> Hne].
  set (n := default (lp s) amount) in *.
  step_in H stats m2 Hstats. get_in Hstats.
  change (liquidity_stats m1) with (b_stats (books m1)) in *.
  lift_in H nl Hnl. apply of_option_ok, res_ok_some, ud_sub_ok in Hnl as [-> Hnl].
  lift_in H nx Hnx. apply ud_add_ok in Hnx as [-> Hnx].
  step_in H y m2 Hstore. apply save_addr_books in Hstore.
  lift_in H t1 Htl. apply ud_sub_ok in Htl as [-> Htl].
  lift_in H t2 Htx. apply ud_add_ok in Htx as [-> Htx]. unfold is_dec in *.
  destruct (swap_tokens_pool (b_stats (books m1)) n) as [Hp Hd];
    [apply Hc|by apply (core_drained _ _ Hc)|lia..|].
  apply save_stats_plain in H; [|done]. split.
  2: { unfold same_pool. change (liquidity_stats m') with (b_stats (books m')).
       change (liquidity_stats m) with (b_stats (books m)). rewrite H, <- Hst.
       unfold collateral_of, tokens_of. cbn [b_stats b_set_stats]. remember (b_stats (books m1)).
       simpl. lia. }
  unfold balanced. rewrite H, Hstore. apply move_tokens_balanced with s; try done.
  - by apply Hf.
  - intros []. split; simpl; try done; unfold is_dec; lia.
  - unfold lp_weight, pending_xlp. simpl. lia.
  - simpl. lia.
Qed.

(** ** Unstaking *)

(** Stopping an unstaking gives the rest back as xLP; without the final save
    only the totals have moved. *)
Lemma stop_unstaking_books a fail save m s' m' :
  liquidity_stop_unstaking_xlp st a fail save m = Ok (s', m') -> balanced m ->
  exists b s stats,
    core b 0 /\ tokens b 0 0 /\ b_addrs b !! a = Some s /\ fresh (b_yields b) s /\
    books m' = (if save then b_store a s' (b_set_stats stats b) else b_set_stats stats b) /\
    pool_ok stats /\ (collateral_of stats = 0 -> tokens_of stats = 0) /\
    unstaking s' = None /\ last_accrue_key s' = last_accrue_key s /\
    accrued_total s' = accrued_total s /\ (addr_ok (b_yields b) s -> addr_ok (b_yields b) s') /\
    total_lp stats - total_lp (b_stats b) = lp_weight s' - lp_weight s /\
    total_xlp stats - total_xlp (b_stats b) = xlp s' - xlp s /\
    b_stats b = liquidity_stats m /\ collateral_of stats = collateral_of (b_stats b) /\
    tokens_of stats = tokens_of (b_stats b).
Proof.
  unfold liquidity_stop_unstaking_xlp. intros H Hbal.
  step_in H x m1 Hbk. destruct (book_keeping_balanced _ _ _ _ Hbk Hbal) as ([Hc Ht] & Hf & Hst).
  step_in H s m2 Hs. apply load_addr_ok in Hs as [-> Hs].
  step_in H s1 m3 Hs1. step_in H y m4 Hy.
  apply hret_ok in H as [Hr1 Hr2]. symmetry in Hr1, Hr2. subst s1 m4.
  assert (exists stats, books m3 = b_set_stats stats (books m1) /\ pool_ok stats /\
    (collateral_of stats = 0 -> tokens_of stats = 0) /\ unstaking s' = None /\
    last_accrue_key s' = last_accrue_key s /\ accrued_total s' = accrued_total s /\
    (addr_ok (b_yields (books m1)) s -> addr_ok (b_yields (books m1)) s') /\
    total_lp stats - total_lp (b_stats (books m1)) = lp_weight s' - lp_weight s /\
    total_xlp stats - total_xlp (b_stats (books m1)) = xlp s' - xlp s /\
    collateral_of stats = collateral_of (b_stats (books m1)) /\
    tokens_of stats = tokens_of (b_stats (books m1)))
    as (stats & Hb3 & Hrest).
  { assert (books m1 = b_set_stats (b_stats (books m1)) (books m1)) as Hid by by destruct (books m1).
    assert (forall s0, unstaking s = Some s0 -> addr_ok (b_yields (books m1)) s ->
      addr_ok (b_yields (books m1)) (set_unstaking None s)) as Hokn
      by (intros ? _ []; by split).
    destruct (unstaking s) as [u|] eqn:Eu.
    - lift_in Hs1 r Hr. apply ud_sub_ok in Hr as [-> Hr]. unfold ud_is_zero in Hs1.
      destruct (Z.eqb_spec (xlp_amount u - collected u) 0) as [E|E]; simpl in Hs1.
      + inv_ok. exists (b_stats (books m1)). split_and!; try done; [apply Hc|apply Hc|eauto|..];
          unfold lp_weight, pending_xlp; rewrite ?Eu; simpl; lia.
      + step_in Hs1 stats m4' Hstats. get_in Hstats.
        change (liquidity_stats m1) with (b_stats (books m1)) in *.
        lift_in Hs1 t1 Htl. apply ud_sub_ok in Htl as [-> Htl].
        lift_in Hs1 t2 Htx. apply ud_add_ok in Htx as [-> Htx].
        step_in Hs1 z m5 Hsave. lift_in Hs1 nx Hnx. apply ud_add_ok in Hnx as [-> Hnx]. inv_ok.
        unfold is_dec in *.
        destruct (swap_tokens_pool (b_stats (books m1)) (xlp_amount u - collected u)) as [Hp Hd];
          [apply Hc|by apply (core_drained _ _ Hc)|lia..|].
        apply save_stats_plain in Hsave; [|done]. eexists. split; [exact Hsave|].
        split_and!; try done.
        * intros []. split; simpl; try done.
        * unfold lp_weight, pending_xlp. rewrite Eu. simpl. lia.
        * simpl. lia.
        * unfold tokens_of. simpl. lia.
    - destruct fail; inv_ok. exists (b_stats (books m1)).
      split_and!; try done; [apply Hc|apply Hc|intros []; by split|..];
        unfold lp_weight, pending_xlp; rewrite ?Eu; simpl; lia. }
  exists (books m1), s, stats. split_and!; try tauto; [by apply Hf|].
  destruct save; [by apply save_addr_books in Hy; rewrite Hy, Hb3|inv_ok; done].
Qed.

Lemma stop_unstaking_balanced a fail m s' m' :
  liquidity_stop_unstaking_xlp st a fail true m = Ok (s', m') -> balanced m ->
  balanced m' /\ same_pool m m'.
Proof.
  intros H Hbal. destruct (stop_unstaking_books _ _ _ _ _ _ H Hbal)
    as (b & s & stats & Hc & Ht & Hs & Hf & Hb & Hp & Hd & _ & Hk & Ha & Hok & Hl & Hx & Hst & Hcol & Htok).
  split.
  - unfold balanced. rewrite Hb. by apply (move_tokens_balanced b a s s' stats).
  - unfold same_pool. change (liquidity_stats m') with (b_stats (books m')). rewrite Hb, <- Hst.
    done.
Qed.

Lemma unstake_xlp_balanced a amount m u m' :
  liquidity_unstake_xlp st a amount m = Ok (u, m') ->
  (forall k, amount = Some k -> 0 < k) -> balanced m -> balanced m' /\ same_pool m m'.
Proof.
  unfold liquidity_unstake_xlp. intros H Hamt Hbal.
  step_in H s' m1 Hstop. destruct (stop_unstaking_books _ _ _ _ _ _ Hstop Hbal)
    as (b & s & stats & Hc & Ht & Hs & Hf & Hb & Hp & Hd & Hu & Hk & Ha & Hok & Hl & Hx & Hst & Hcol
        & Htok).
  lift_in H owned Hown. apply of_option_ok, nonzero_new_Some in Hown as [-> Hne].
  pose proof (core_addrs _ _ Hc a s Hs) as Hoks. pose proof (Hok Hoks) as Hoks'.
  assert (is_dec (xlp s')) as Hxdec by apply Hoks'. unfold is_dec in Hxdec.
  step_in H n m2 Hn.
  assert (m2 = m1 /\ 0 < n <= xlp s') as [-> Hnle].
  { destruct amount as [n0|]; [|inv_ok; split; [done|lia]].
    specialize (Hamt n0 eq_refl). step_in Hn z m3 Hz. inv_ok. split; [done|]. bool_prop. lia. }
  lift_in H dur Hdur. apply u64_checked_ok in Hdur as [-> Hdur].
  lift_in H nx Hnx. apply ud_sub_ok in Hnx as [-> Hnx].
  step_in H y m2 Hstore. apply save_addr_books in Hstore.
  step_in H st2 m3 Hst2. get_in Hst2.
  change (liquidity_stats m2) with (b_stats (books m2)) in *.
  lift_in H t1 Htl. apply ud_add_ok in Htl as [-> Htl].
  lift_in H t2 Htx. apply ud_sub_ok in Htx as [-> Htx].
  step_in H z m3 Hsave. lift_in H v Hv. unfold is_dec in *.
  apply (keeps_books_books _ _ _ _ (keeps_lp_history_add_unstake_xlp _ _ _ _)) in H.
  assert (b_stats (books m2) = stats) as Est by (rewrite Hstore, Hb; done).
  rewrite Est in *.
  destruct (swap_tokens_pool stats (- n)) as [Hp' Hd']; [done..|lia|lia|].
  rewrite Z.sub_opp_r, Z.add_opp_r in Hp', Hd'.
  apply save_stats_plain in Hsave; [|done].
  set (s2 := set_xlp _ _) in Hstore. set (stats' := set_total_lp _ _) in Hsave.
  assert (books m' = b_set_stats stats' (b_store a s2 b)) as Hfin
    by (rewrite H, Hsave, Hstore, Hb; done).
  split.
  2: { unfold same_pool. change (liquidity_stats m') with (b_stats (books m')).
       rewrite Hfin, <- Hst, <- Hcol, <- Htok. unfold collateral_of, tokens_of. simpl. lia. }
  unfold balanced. rewrite Hfin. apply move_tokens_balanced with s; try done.
  - intros _. destruct Hoks'. split; simpl; try done; try (unfold is_dec; lia).
    intros u' [= <-]. split; simpl; try lia. unfold is_dec. lia.
  - unfold lp_weight, pending_xlp in *. rewrite Hu in Hl. simpl. lia.
  - simpl. lia.
Qed.

(** ** Withdrawals *)

(** A [NonZero] argument. *)
Definition nonzero_opt (o : option Z) : Prop := forall k, o = Some k -> 0 < k.

(** A withdrawal burns [n] tokens for [r] collateral, at most their share, out
    of the unlocked liquidity. *)
Definition withdrawn (b b' : LiquidityStats) (n r : Z) : Prop :=
  lp_to_collateral_non_zero b n = Ok r /\ 0 < n <= total_lp b /\ r <= unlocked b /\
  (b' = set_total_lp (total_lp b - n) (set_unlocked (unlocked b - r) b) \/
   (tokens_of b = n /\ b' = liquidity_stats_default)).

(** The pool after a withdrawal: well formed, and without collateral only when
    no tokens are left. *)
Lemma withdrawn_pool b n r :
  pool_ok b -> (collateral_of b = 0 -> tokens_of b = 0) ->
  lp_to_collateral_non_zero b n = Ok r -> 0 < n <= total_lp b -> r <= unlocked b ->
  let b' := set_total_lp (total_lp b - n) (set_unlocked (unlocked b - r) b) in
  pool_ok b' /\ (collateral_of b' = 0 -> tokens_of b' = 0).
Proof.
  intros Hp Hd Hr Hn Hu b'.
  apply lp_to_collateral_non_zero_bound in Hr as [Hr Hle]; [|done|lia].
  destruct Hp as [Hl Hun Htl Htx]. split; [split; simpl; lia|].
  unfold b', collateral_of, tokens_of in *. simpl in *. intros H0.
  assert (locked b + unlocked b = r) as Hr' by lia. rewrite Hr' in Hle.
  assert (total_lp b + total_xlp b <= n) by nia. lia.
Qed.

Lemma withdraw_balanced a amount m u m' :
  liquidity_withdraw st a amount m = Ok (u, m') -> nonzero_opt amount -> balanced m ->
  balanced m' /\ exists n r, withdrawn (liquidity_stats m) (liquidity_stats m') n r /\
    (forall k, amount = Some k -> n = k).
Proof.
  unfold liquidity_withdraw. intros H Hpos Hbal.
  step_in H x m1 Hbk. destruct (book_keeping_balanced _ _ _ _ Hbk Hbal) as ([Hc Ht] & Hf & Hst).
  step_in H s m2 Hs. apply load_addr_ok in Hs as [-> Hs]. lift_in H y Hcool. clear y Hcool.
  lift_in H old Hold. apply of_option_ok, nonzero_new_Some in Hold as [-> Hne].
  pose proof (core_addrs _ _ Hc a s Hs) as Hoks.
  step_in H n m2 Hn.
  assert (m2 = m1 /\ n = default (lp s) amount) as [-> ->].
  { destruct amount as [k|]; [|by inv_ok]. destruct (lp s <? k); by inv_ok. }
  assert (0 < default (lp s) amount) as Hn0.
  { destruct amount as [k|]; simpl; [by apply Hpos|]. destruct Hoks. lia. }
  assert (forall k, amount = Some k -> default (lp s) amount = k) as Hk by by intros k ->.
  set (n := default (lp s) amount) in *. clearbody n. clear Hn.
  lift_in H nl Hnl. apply ud_sub_ok in Hnl as [-> Hnl]. unfold is_dec in Hnl.
  step_in H y m2 Hstore. apply save_addr_books in Hstore.
  step_in H stats m3 Hstats. get_in Hstats.
  change (liquidity_stats m2) with (b_stats (books m2)) in *.
  assert (b_stats (books m2) = b_stats (books m1)) as Hs2 by by rewrite Hstore.
  rewrite Hs2 in H. lift_in H z Hz. clear z Hz. lift_in H r Hr.
  do 2 (let z := fresh in let mz := fresh in step_in H z mz Hx; get_in Hx).
  lift_in H nn Hnn. lift_in H price Hprice. lift_in H mu Hmu. lift_in H need Hneed.
  step_in H w m3 Hw. assert (m3 = m2) as ->.
  { destruct (_ <? _) in Hw; [|by inv_ok]. lift_in Hw av Hav. inv_ok. } clear w Hw.
  lift_in H t1 Htl. apply ud_sub_ok in Htl as [-> Htl].
  lift_in H t2 Hun. apply ud_sub_ok in Hun as [-> Hun].
  set (b1 := b_stats (books m1)) in *.
  set (b' := set_total_lp (total_lp b1 - n) (set_unlocked (unlocked b1 - r) b1)) in *.
  lift_in H tl' Htok. apply total_tokens_ok in Htok as ->.
  unfold is_dec in *.
  destruct (withdrawn_pool b1 n r) as [Hp' Hd'];
    [apply Hc|apply (core_drained _ _ Hc)|done|lia|lia|]. fold b' in Hp', Hd'.
  step_in H stats m3 Hdust. unfold ud_is_zero in Hdust.
  assert (m3 = m2 /\ pool_ok stats /\ (collateral_of stats = 0 -> tokens_of stats = 0) /\
    total_lp stats = total_lp b1 - n /\ total_xlp stats = total_xlp b1 /\
    (stats = b' \/ (tokens_of b1 = n /\ stats = liquidity_stats_default)))
    as (-> & Hp & Hd & Hl & Hx & Hcase).
  { destruct (Z.eqb_spec (tokens_of b') 0) as [E|E]; [|inv_ok; split_and!; by try left].
    lift_in Hdust d Hd0. lift_in Hdust isd Hisd. step_in Hdust v m4 Hv. inv_ok.
    unfold tokens_of, b' in *. simpl in *. destruct Hp'. simpl in *.
    split_and!; try done; simpl; try lia. right. split; [lia|done]. }
  step_in H v m3 Hsave. apply save_stats_plain in Hsave; [|done].
  assert (books m' = books m3) as Hfin.
  { eapply (keeps_books_books _ _ _ _ _ H). Unshelve. keeps. }
  assert (books m' = b_set_stats stats (b_store a (set_lp (lp s - n) s) (books m1))) as Hb
    by (rewrite Hfin, Hsave, Hstore; done).
  split.
  - unfold balanced. rewrite Hb. apply move_tokens_balanced with s; try done.
    + by apply Hf.
    + intros []. split; simpl; try done. lia.
    + fold b1. rewrite Hl. unfold lp_weight, pending_xlp. simpl. lia.
    + fold b1. rewrite Hx. simpl. lia.
  - exists n, r. split; [|done].
    change (liquidity_stats m') with (b_stats (books m')). rewrite Hb. simpl.
    change (liquidity_stats m) with (b_stats (books m)). rewrite <- Hst. fold b1.
    split_and!; [done|lia|lia|lia|exact Hcase].
Qed.

(** ** Claiming, reinvesting and depositing *)

Lemma total_yield_ok s y : total_yield s = Ok y -> y = accrued_total s.
Proof.
  unfold total_yield. intros H. apply rbind_ok in H as (v & [-> _]%ud_add_ok & H).
  apply rbind_ok in H as (w & [-> _]%ud_add_ok & [-> _]%ud_add_ok). done.
Qed.

Lemma claim_yield_balanced a send m y m' :
  liquidity_claim_yield st a send m = Ok (y, m') -> balanced m ->
  balanced m' /\ 0 < y /\ b_backing (books m') = b_backing (books m) - y /\
  b_stats (books m') = b_stats (books m).
Proof.
  unfold liquidity_claim_yield. intros H Hbal.
  step_in H x m1 Hbk. destruct (book_keeping_balanced _ _ _ _ Hbk Hbal) as ([Hc Ht] & Hf & Hst).
  assert (b_backing (books m1) = b_backing (books m)) as Hback.
  { eapply book_keeping_backing, Hbk. }
  step_in H s m2 Hs. apply load_addr_ok in Hs as [-> Hs].
  pose proof (core_addrs _ _ Hc a s Hs) as Hoks.
  lift_in H y0 Hy. apply total_yield_ok in Hy as ->.
  lift_in H y1 Hy. apply of_option_ok, nonzero_new_Some in Hy as [-> Hne].
  step_in H z m2 Hstore. apply save_addr_books in Hstore. set (s' := set_lp_accrued_yield _ _) in Hstore.
  step_in H w m3 Hreg.
  assert (books m3 = b_add_backing (- accrued_total s) (books m2)) as Hb3.
  { unfold register_lp_claimed_yield in Hreg. step_in Hreg f m4 Hfees. get_in Hfees.
    lift_in Hreg nw Hnw. apply ud_sub_ok in Hnw as [-> _]. inv_ok.
    unfold books, b_add_backing, backing. simpl. f_equal. lia. }
  step_in H v m4 Hsend. inv_ok.
  assert (books m4 = books m3) as Hb4.
  { eapply (keeps_books_books _ _ _ _ _ Hsend). Unshelve. keeps. }
  rewrite Hb4, Hb3, Hstore.
  assert (0 < accrued_total s) by (destruct Hoks; unfold accrued_total in *; lia).
  assert (fresh (b_yields (books m1)) s) as Hfs by by apply Hf.
  split; [split|split_and!; [done| |done]].
  3: { change (b_backing (books m1) + - accrued_total s = b_backing (books m) - accrued_total s).
       lia. }
  - unfold balanced. rewrite Hb4, Hb3, Hstore.
    replace 0 with (0 + claim (b_yields (books m1)) s - claim (b_yields (books m1)) s'
      + - accrued_total s * DEC_ONE).
    + apply core_add_backing. rewrite <- (map_get_Some (claim (b_yields (books m1))) _ _ _ Hs).
      apply core_store; [done|]. destruct Hoks. split; simpl; try done; lia.
    + rewrite !claim_fresh by eauto using fresh_same_key. unfold accrued_total. simpl. lia.
  - unfold balanced. rewrite Hb4, Hb3, Hstore.
    eapply tokens_eq; [by apply (tokens_store (books m1) 0 0)|..];
      rewrite (map_get_Some _ _ _ _ Hs); unfold lp_weight, pending_xlp; simpl; lia.
Qed.

(** [amount] was added to the pool for the tokens the exchange rate gives. *)
Definition deposited (b b' : LiquidityStats) (amount : Z) : Prop :=
  exists shares, collateral_to_lp b amount = Ok shares /\ 0 < shares /\
    collateral_of b' = collateral_of b + amount /\ tokens_of b' = tokens_of b + shares.

Lemma deposit_balanced a amount stake m u m' :
  liquidity_deposit st a amount stake m = Ok (u, m') -> 0 < amount -> balanced m ->
  balanced m' /\ deposited (liquidity_stats m) (liquidity_stats m') amount.
Proof.
  unfold liquidity_deposit. intros H Ha Hbal. step_in H sh m1 H1.
  destruct (deposit_inner_balanced _ _ _ _ _ _ H1 Ha Hbal) as (Hb1 & Hsh & Hlp & Hst).
  step_in H x m2 H2. apply (keeps_books_books _ _ _ _ (keeps_lp_history_add_deposit _ _ _ _ _)) in H2.
  assert (balanced m2) as Hb2 by (unfold balanced; by rewrite H2).
  assert (liquidity_stats m2 = liquidity_stats m1) as Hst2
    by (change (b_stats (books m2) = b_stats (books m1)); by rewrite H2).
  assert (balanced m' /\ same_pool m2 m') as [Hb' [Hc' Ht']]
    by (destruct stake; [by eapply stake_lp_balanced|by inv_ok]).
  split; [done|]. exists sh. rewrite Hc', Ht', Hst2, Hst.
  unfold collateral_of, tokens_of. simpl. split_and!; [done|done|lia|lia].
Qed.

Lemma reinvest_balanced a amount stake m u m' :
  reinvest_yield st a amount stake m = Ok (u, m') -> nonzero_opt amount -> balanced m ->
  balanced m' /\ exists n, 0 < n /\ deposited (liquidity_stats m) (liquidity_stats m') n.
Proof.
  unfold reinvest_yield. intros H Hpos Hbal. step_in H y m1 H1.
  destruct (claim_yield_balanced _ _ _ _ _ H1 Hbal) as (Hb1 & Hy & _ & Hst1).
  step_in H n m2 Hn.
  assert (0 < n /\ books m2 = books m1) as [Hn0 Hbk].
  { destruct amount as [k|]; [|by inv_ok]. split.
    - lift_in Hn r Hr. step_in Hn x m3 Hx. apply hret_ok in Hn as [-> _]. by apply Hpos.
    - eapply (keeps_books_books _ _ _ _ _ Hn). Unshelve. keeps. }
  assert (balanced m2) as Hb2 by (unfold balanced; by rewrite Hbk).
  step_in H sh m3 H3. destruct (deposit_inner_balanced _ _ _ _ _ _ H3 Hn0 Hb2) as (Hb3 & Hsh & Hlp & Hst).
  step_in H x m4 H4.
  assert (balanced m4 /\ same_pool m3 m4) as [Hb4 [Hc4 Ht4]]
    by (destruct stake; [by eapply stake_lp_balanced|by inv_ok]).
  apply (keeps_books_books _ _ _ _ (keeps_lp_history_add_reinvest_yield _ _ _ _ _)) in H.
  split; [unfold balanced; by rewrite H|]. exists n. split; [done|]. exists sh.
  assert (liquidity_stats m2 = liquidity_stats m) as Hst2.
  { change (b_stats (books m2) = b_stats (books m)). by rewrite Hbk. }
  change (liquidity_stats m') with (b_stats (books m')). rewrite H.
  change (b_stats (books m4)) with (liquidity_stats m4). rewrite Hc4, Ht4, Hst, Hst2 in *.
  unfold collateral_of, tokens_of. simpl. split_and!; [done|done|lia|lia].
Qed.

Lemma collect_unstaked_balanced a m r m' :
  collect_unstaked_lp st a m = Ok (r, m') -> balanced m ->
  balanced m' /\ liquidity_stats m' = liquidity_stats m.
Proof.
  intros H [Hc Ht]. destruct (collect_unstaked_bk _ _ _ _ _ H) as [[] _]; [by exists 0|].
  split; [split; auto|done].
Qed.

(** ** Moving liquidity between the locked and the unlocked part *)

(** Storing pool totals that leave the tokens alone: the balance is kept, or
    the pool is drained and a reset begins. *)
Lemma save_pool_balanced stats m u m' :
  save_liquidity_stats stats m = Ok (u, m') -> pool_ok stats ->
  total_lp stats = total_lp (liquidity_stats m) ->
  total_xlp stats = total_xlp (liquidity_stats m) ->
  balanced m ->
  core (books m') 0 /\
  ((tokens (books m') 0 0 /\ liquidity_stats m' = stats) \/
   (resetting (books m') /\ collateral_of stats = 0 /\
    liquidity_stats m' = liquidity_stats_default)).
Proof.
  intros H Hp Hl Hx [Hc Ht].
  change (liquidity_stats m') with (b_stats (books m')).
  change (liquidity_stats m) with (b_stats (books m)) in *.
  apply save_stats_books in H as [(H0 & _ & ->)|[Hd ->]].
  - split; [by apply core_begin_reset|]. right. split_and!; [apply resetting_begin|done|done].
  - split; [by apply core_set_stats|]. left. split; [|done].
    eapply tokens_eq; [by apply tokens_set_stats|..]; lia.
Qed.

Lemma apply_pool_events_books stats price e m u m' :
  (save_liquidity_stats stats;;; add_pool_size_change_events st stats price;;; add_event st e) m
    = Ok (u, m') ->
  exists u1 m1, save_liquidity_stats stats m = Ok (u1, m1) /\ books m' = books m1.
Proof.
  intros H. step_in H x m1 H1. exists x, m1. split; [done|].
  eapply (keeps_books_books _ _ _ _ _ H). Unshelve. keeps.
Qed.

(** What the validations of a lock, an unlock and an update compute. *)
Lemma lock_new_stats m amount price dn override l u :
  liquidity_lock_new st m amount price dn override u = Ok l ->
  let s := default (liquidity_stats m) u in
  l = mkLiquidityLock amount (set_locked (locked s + amount)
        (set_unlocked (unlocked s - amount) s)) price /\
  (pool_ok s -> 0 < amount -> pool_ok (lock_stats l) /\ amount <= unlocked s).
Proof.
  unfold liquidity_lock_new. simpl. intros Hl.
  apply rbind_ok in Hl as (nn & _ & Hl). apply rbind_ok in Hl as (nn' & _ & Hl).
  apply rbind_ok in Hl as (mu & _ & Hl). apply rbind_ok in Hl as (need & _ & Hl).
  destruct (unlocked (default (liquidity_stats m) u) <? need); [discriminate|].
  apply rbind_ok in Hl as (nl & [-> Hnl]%ud_add_ok & Hl).
  apply rbind_ok in Hl as (nu & [-> Hnu]%ud_sub_ok & Hl). injection Hl as <-.
  split; [done|]. unfold is_dec in *. intros [] Ha. split; [split; simpl; lia|lia].
Qed.

Lemma unlock_new_stats m amount price l u :
  liquidity_unlock_new m amount price u = Ok l ->
  let s := default (liquidity_stats m) u in
  l = mkLiquidityUnlock amount price (set_locked (locked s - amount)
        (set_unlocked (unlocked s + amount) s)) /\
  (pool_ok s -> 0 < amount -> pool_ok (unlock_stats l) /\ amount <= locked s).
Proof.
  unfold liquidity_unlock_new. simpl. intros Hl.
  destruct (Z.ltb_spec (locked (default (liquidity_stats m) u)) amount); [discriminate|].
  apply rbind_ok in Hl as (nl & [-> Hnl]%ud_sub_ok & Hl).
  apply rbind_ok in Hl as (nu & [-> Hnu]%ud_add_ok & Hl). injection Hl as <-.
  split; [done|]. unfold is_dec in *. intros [] Ha. split; [split; simpl; lia|lia].
Qed.

Lemma update_locked_new_stats m amount price l u :
  liquidity_update_locked_new m amount price u = Ok l -> signed_ok amount ->
  pool_ok (default (liquidity_stats m) u) ->
  let s := default (liquidity_stats m) u in
  l = mkLiquidityUpdateLocked amount price (set_locked (locked s + sval amount) s) /\
  pool_ok (update_stats l).
Proof.
  unfold liquidity_update_locked_new. intros Hl Ha [].
  apply rbind_ok in Hl as (sum & Hsum & Hl).
  apply signed_checked_add_ok in Hsum as [Hsum Hok]; [|by apply into_signed_ok|done].
  rewrite sval_into_signed in Hsum.
  destruct (try_into_non_negative_value sum) as [v|] eqn:Ev; [|discriminate].
  apply try_into_non_negative_value_Some in Ev as [Hn ->].
  assert (0 <= sval sum <= U256_MAX) by (unfold sval; rewrite Hn; destruct Hok as [? _]; done).
  injection Hl as <-. rewrite Hsum in *. split; [done|]. split; simpl; done.
Qed.

(** Locking takes liquidity that is not needed to balance the net notional;
    unlocking gives it back; neither changes the size of the pool. *)
Lemma lock_balanced m amount price dn override l u m' :
  liquidity_lock_new st m amount price dn override None = Ok l ->
  liquidity_lock_apply st l m = Ok (u, m') -> 0 < amount -> balanced m ->
  balanced m' /\
  liquidity_stats m' = set_locked (locked (liquidity_stats m) + amount)
    (set_unlocked (unlocked (liquidity_stats m) - amount) (liquidity_stats m)) /\
  amount <= unlocked (liquidity_stats m).
Proof.
  intros Hl H Ha Hbal. destruct (lock_new_stats _ _ _ _ _ _ _ Hl) as [-> Hp]. simpl in Hp.
  destruct Hp as [Hp Hle]; [apply Hbal|done|]. unfold liquidity_lock_apply in H. simpl in H.
  destruct (apply_pool_events_books _ _ _ _ _ _ H) as (u1 & m1 & H1 & Hb).
  destruct (save_pool_balanced _ _ _ _ H1) as (Hc & Hcase); try done.
  assert (pool_ok (liquidity_stats m)) as [] by apply Hbal.
  destruct Hcase as [[Ht Hst]|(_ & H0 & Hst)].
  - change (liquidity_stats m') with (b_stats (books m')). unfold balanced. rewrite Hb.
    split_and!; [done|done|exact Hst|lia].
  - exfalso. unfold collateral_of in *. simpl in *. lia.
Qed.

Lemma unlock_balanced m amount price l u m' :
  liquidity_unlock_new m amount price None = Ok l ->
  liquidity_unlock_apply st l m = Ok (u, m') -> 0 < amount -> balanced m ->
  balanced m' /\
  liquidity_stats m' = set_locked (locked (liquidity_stats m) - amount)
    (set_unlocked (unlocked (liquidity_stats m) + amount) (liquidity_stats m)) /\
  amount <= locked (liquidity_stats m).
Proof.
  intros Hl H Ha Hbal. destruct (unlock_new_stats _ _ _ _ _ Hl) as [-> Hp]. simpl in Hp.
  destruct Hp as [Hp Hle]; [apply Hbal|done|]. unfold liquidity_unlock_apply in H. simpl in H.
  destruct (apply_pool_events_books _ _ _ _ _ _ H) as (u1 & m1 & H1 & Hb).
  destruct (save_pool_balanced _ _ _ _ H1) as (Hc & Hcase); try done.
  assert (pool_ok (liquidity_stats m)) as [] by apply Hbal.
  destruct Hcase as [[Ht Hst]|(_ & H0 & Hst)].
  - change (liquidity_stats m') with (b_stats (books m')). unfold balanced. rewrite Hb.
    split_and!; [done|done|exact Hst|lia].
  - exfalso. unfold collateral_of in *. simpl in *. lia.
Qed.

(** ** Credits, new yield and the reset *)

(** A credit of [x] to a provider's recorded yield. *)
Lemma credit_books b dc a s s' x :
  core b dc -> addr_ok (b_yields b) s' ->
  map_get lp_weight (b_addrs b) a = lp_weight s -> map_get xlp (b_addrs b) a = xlp s ->
  map_get (claim (b_yields b)) (b_addrs b) a = claim (b_yields b) s ->
  last_accrue_key s' = last_accrue_key s -> lp_weight s' = lp_weight s -> xlp s' = xlp s ->
  accrued_total s' = accrued_total s + x ->
  core (b_store a s' b) (dc - x * DEC_ONE) /\
  (forall dl dx, tokens b dl dx -> tokens (b_store a s' b) dl dx) /\
  (resetting b -> resetting (b_store a s' b)).
Proof.
  intros Hc Hok Hl Hx Hcl Hk Hl' Hx' Ha. split_and!.
  - assert (claim (b_yields b) s' = claim (b_yields b) s + x * DEC_ONE) as Heq.
    { unfold claim, growth. rewrite Hk, Hl', Hx', Ha. lia. }
    replace (dc - x * DEC_ONE) with (dc + map_get (claim (b_yields b)) (b_addrs b) a
      - claim (b_yields b) s') by (rewrite Hcl, Heq; lia).
    by apply core_store.
  - intros dl dx Ht. eapply tokens_eq; [by apply tokens_store|..]; lia.
  - intros Hr. apply resetting_store; [done|congruence..].
Qed.

Lemma add_crank_rewards_books a amount m u m' dc :
  add_lp_crank_rewards a amount m = Ok (u, m') -> 0 <= amount -> core (books m) dc ->
  core (books m') (dc - amount * DEC_ONE) /\
  (forall dl dx, tokens (books m) dl dx -> tokens (books m') dl dx) /\
  (resetting (books m) -> resetting (books m')).
Proof.
  unfold add_lp_crank_rewards. intros H Ha Hc. step_in H s m1 Hs.
  destruct (load_default_ok _ _ _ _ _ Hs Hc) as (-> & Hok & Hl & Hx & Hcl & _).
  lift_in H r Hr. apply ud_add_ok in Hr as [-> _]. rewrite (save_addr_books _ _ _ _ _ H).
  apply credit_books with s; try done.
  - destruct Hok. split; simpl; try done. lia.
  - unfold accrued_total. simpl. lia.
Qed.

(** New yield raises the claims by no more than the yield, so that backing set
    aside for it covers them. *)
Lemma new_yield_books new m y u m' dc :
  liquidity_process_new_yield m new = Ok y -> new_yield_apply y m = Ok (u, m') ->
  0 <= la_lp new -> 0 <= la_xlp new ->
  core (books m) dc -> tokens (books m) 0 0 \/ resetting (books m) ->
  core (books m') (dc - (la_lp new + la_xlp new) * DEC_ONE) /\
  (tokens (books m) 0 0 -> tokens (books m') 0 0) /\
  (resetting (books m) -> resetting (books m')).
Proof.
  unfold liquidity_process_new_yield, new_yield_apply, mod_liquidity. intros Hy H Hl0 Hx0 Hc Hcase.
  change (liquidity_stats m) with (b_stats (books m)) in Hy.
  assert (forall v t r, match nonzero_new t with None => Ok 0 | Some t => div_non_zero_dec v t end
    = Ok r -> 0 <= v -> 0 <= t -> 0 <= r /\ r * t <= v * DEC_ONE /\ (t = 0 -> r = 0)) as Hdiv.
  { intros v t r Hr Hv Ht. pose proof DEC_ONE_pos. destruct (nonzero_new t) as [t'|] eqn:E.
    - apply nonzero_new_Some in E as [-> Hne]. unfold div_non_zero_dec in Hr. lib_inv.
      unfold is_dec in *. split_and!; [lia| |done].
      rewrite Z.mul_comm. apply Z.mul_div_le. lia.
    - apply nonzero_new_None in E as ->. inv_ok. lia. }
  assert (pool_ok (b_stats (books m))) as [_ _ Hlp Hxlp] by apply Hc.
  apply rbind_ok in Hy as (dl & Hdl & Hy). destruct (Hdiv _ _ _ Hdl Hl0 Hlp) as (Hdl0 & Hdl1 & Hdl2).
  apply rbind_ok in Hy as (dx & Hdx & Hy). destruct (Hdiv _ _ _ Hdx Hx0 Hxlp) as (Hdx0 & Hdx1 & Hdx2).
  apply rbind_ok in Hy as ([k e] & He & Hy). apply latest_ok in He.
  apply rbind_ok in Hy as (nl & [-> _]%ud_add_ok & Hy).
  apply rbind_ok in Hy as (nx & [-> _]%ud_add_ok & Hy).
  apply rbind_ok in Hy as (k' & [-> _]%u64_checked_ok & Hy). injection Hy as <-. simpl in H.
  assert (books m' = b_add_yield (k + 1) (mkYieldPerToken (y_lp e + dl) (y_xlp e + dx)) (books m))
    as -> by (by inv_ok).
  split_and!; [|by intros|by intros].
  eapply core_weaken; [by apply core_add_yield|].
  destruct Hcase as [(_ & Hl & Hx)|(r & _ & Hl & Hx & _)].
  - rewrite !Z.add_0_r in *. rewrite Hl, Hx. lia.
  - rewrite (Hdl2 Hl), (Hdx2 Hx). pose proof DEC_ONE_pos.
    assert (0 <= (la_lp new + la_xlp new) * DEC_ONE) by (apply Z.mul_nonneg_nonneg; lia). lia.
Qed.

Lemma update_accrued_others a m u m' c :
  update_accrued_yield a m = Ok (u, m') -> c <> a ->
  b_addrs (books m') !! c = b_addrs (books m) !! c.
Proof.
  unfold update_accrued_yield. intros H Hne. step_in H s m1 Hs.
  unfold load_liquidity_stats_addr_default in Hs. apply hask_ok in Hs as [_ ->].
  apply hbind_ok in H as (o & m2 & Ho & H). apply hask_ok in Ho as [_ ->].
  destruct o as [[k acc]|]; [|by inv_ok].
  lift_in H ly Hly. lift_in H xy Hxy. rewrite (save_addr_books _ _ _ _ _ H).
  unfold b_store, store_addr. simpl. destruct (stats_is_empty _).
  - by rewrite lookup_delete_ne.
  - by rewrite lookup_insert_ne.
Qed.

Lemma reset_done_bound r c : reset_done r c = negb (str_after (as_bound r) c).
Proof. by destruct r. Qed.

(** One step of the reset clears the next provider, and the last one ends it. *)
Lemma crank_reset_books m u m' :
  crank_reset_lp_balances m = Ok (u, m') -> core (books m) 0 -> resetting (books m) ->
  books_ok (books m').
Proof.
  unfold crank_reset_lp_balances, liquidity_providers, mod_liquidity. intros H Hc Hres.
  apply hbind_ok in H as (r & m0 & Hr & H). apply hask_ok in Hr as [Hr ->].
  apply of_option_ok in Hr. step_in H l m0 Hl. get_in Hl.
  destruct Hres as (r' & Hr' & Hlp & Hxlp & Hdone).
  assert (r' = r) as -> by (change (b_reset (books m) = Some r) in Hr; congruence).
  change (LIQUIDITY_STATS_BY_ADDR (m_liquidity m)) with (b_addrs (books m)) in H.
  destruct (keys_after (as_bound r) (b_addrs (books m))) as [|a rest] eqn:Ek; simpl in H.
  - assert (forall c s, b_addrs (books m) !! c = Some s -> lp_weight s = 0 /\ xlp s = 0) as Hz.
    { intros c s Hs. apply (Hdone c s Hs). rewrite reset_done_bound.
      by rewrite (keys_after_nil _ _ c Ek) by (by eexists). }
    inv_ok. split; [destruct Hc; by split|]. left. split_and!; simpl; [done|..].
    + rewrite (map_sum_zero lp_weight); [by symmetry|]. intros c s Hs. by apply (Hz c s).
    + rewrite (map_sum_zero xlp); [by symmetry|]. intros c s Hs. by apply (Hz c s).
  - destruct (keys_after_head _ _ _ _ Ek) as (_ & _ & Hnext).
    step_in H x m1 Hacc. destruct (update_accrued_yield_bk _ _ _ _ Hacc) as [Hbk Hf];
      [by exists 0|].
    pose proof (bk_core _ _ Hbk 0 Hc) as Hc1.
    step_in H s m2 Hs. apply load_addr_ok in Hs as [-> Hs].
    apply hbind_ok in H as ([k e] & m2 & Hk & H). apply hask_ok in Hk as [Hk ->].
    apply latest_ok in Hk. step_in H y m2 Hstore. apply save_addr_books in Hstore.
    set (s' := set_lp 0 _) in Hstore. apply hmod_ok in H. subst m'.
    assert (fresh (b_yields (books m1)) s') as Hfs by (by exists e).
    pose proof (core_addrs _ _ Hc1 a s Hs) as Hoks.
    assert (core (b_store a s' (books m1)) 0) as Hc2.
    { eapply core_weaken; [apply (core_store _ 0); [done|]|].
      - destruct Hoks. split; simpl; try done; by apply (fresh_key _ _ Hfs).
      - rewrite (map_get_Some _ _ _ _ Hs), !claim_fresh by auto. unfold accrued_total. simpl. lia. }
    rewrite <- Hstore in Hc2. split; [destruct Hc2; by split|]. right.
    exists (ResetLastSaw a). split; [done|].
    change (b_stats (books (set_m_liquidity _ m2))) with (b_stats (books m2)).
    change (b_addrs (books (set_m_liquidity _ m2))) with (b_addrs (books m2)).
    rewrite Hstore. cbn [b_store b_stats b_addrs]. rewrite (bk_stats _ _ Hbk).
    split_and!; [done|done|]. intros c sc Hsc Hd.
    apply store_addr_lookup in Hsc as [[-> ->]|[Hne Hsc]]; [done|].
    rewrite (update_accrued_others _ _ _ _ _ Hacc Hne) in Hsc.
    apply (Hdone c sc Hsc). rewrite reset_done_bound.
    destruct (str_after (as_bound r) c) eqn:E; [|done].
    unfold reset_done in Hd. by rewrite (Hnext c) in Hd by (eauto || by eexists).
Qed.

End Operations.
