(* ===== verification/LpTokenInv.v ===== *)
(** * What the LP tokens keep

    Every message of a liquidity token proxy keeps the liquidity books in
    balance and leaves the pool alone, and a transfer moves exactly the
    amount between the two balances the token reports. *)

From stdpp Require Import base option gmap strings list.
From Stdlib Require Import ZArith Lia.
From S2P Require Import Cw20.
From S2P Require Import Prelude Storage Cosmwasm Types Number Time Market Price Token DataSeries Config Position Trading State Pool LpHistory Liquidity LpToken Books LiquidityInv.
Local Open Scope Z_scope.

#[global] Instance token_kind_eq_dec : EqDecision LiquidityTokenKind.
Proof. solve_decision. Defined.

Section Balances.
Context {CW : CosmwasmStd} {CWS : CosmwasmStdSpec CW}.
Context (st : State).

Lemma keeps_mod_lp_tokens f : keeps_books (mod_lp_tokens f).
Proof. unfold mod_lp_tokens. intros m a m' H. by inv_ok. Qed.
Lemma keeps_lt_add_message msg : keeps_books (add_message msg).
Proof. unfold add_message. intros m a m' H. by inv_ok. Qed.
#[local] Hint Resolve keeps_mod_lp_tokens keeps_lt_add_message : perps.

Lemma keeps_deduct owner spender amount kind :
  keeps_books (liquidity_token_deduct_allowance_inner st owner spender amount kind).
Proof.
  unfold liquidity_token_deduct_allowance_inner, lt_update_allowance,
    lt_update_allowance_spender. keeps.
Qed.
Lemma keeps_increase owner spender amount ex kind :
  keeps_books (liquidity_token_increase_allowance st owner spender amount ex kind).
Proof.
  unfold liquidity_token_increase_allowance, lt_update_allowance,
    lt_update_allowance_spender. keeps.
Qed.
Lemma keeps_decrease owner spender amount ex kind :
  keeps_books (liquidity_token_decrease_allowance st owner spender amount ex kind).
Proof. unfold liquidity_token_decrease_allowance. keeps. Qed.
#[local] Hint Resolve keeps_deduct keeps_increase keeps_decrease : perps.


(** ** Amounts *)

Definition lp_unit : Z := token_unit lp_token.
Lemma lp_token_valid : token_ok lp_token.
Proof. vm_compute. split; congruence. Qed.

Lemma token_amount_ok n a :
  uint_128_into_lp_token n = Ok a -> a = n * lp_unit /\ is_dec a.
Proof. apply token_from_u128_ok, lp_token_valid. Qed.

Lemma token_balance_ok x b : 0 <= x -> lp_token_into_uint_128 x = Ok b -> b = x / lp_unit.
Proof.
  intros Hx H. unfold lp_token_into_uint_128 in H. apply rbind_ok in H as (o & Ho & H). inv_ok.
  apply token_into_u128_ok in Ho as [_ ->]; [|apply lp_token_valid|done].
  fold lp_unit. assert (0 <= x / lp_unit) by (apply Z.div_pos; [done|reflexivity]).
  destruct (Z.ltb_spec 0 (x / lp_unit)); simpl; [done|lia].
Qed.

(** ** One balance changes *)

Definition tokens_of_kind (k k' : LiquidityTokenKind) (n : Z) : Z :=
  if kind_eqb k k' then n else 0.

(** Storing a fresh record with other token balances. *)
Lemma change_tokens_core b dl dx a s s' l x :
  core b 0 -> tokens b dl dx -> addr_ok (b_yields b) s -> fresh (b_yields b) s ->
  map_get lp_weight (b_addrs b) a = lp_weight s -> map_get xlp (b_addrs b) a = xlp s ->
  map_get (claim (b_yields b)) (b_addrs b) a = claim (b_yields b) s ->
  s' = set_lp l (set_xlp x s) -> 0 <= l -> is_dec x ->
  core (b_store a s' b) 0 /\ tokens (b_store a s' b) (dl + lp s - l) (dx + xlp s - x).
Proof.
  intros Hc Ht Hok Hf Hl Hx Hcl -> Hl0 Hx0. split.
  - apply store_fresh_core with s; try done. destruct Hok. by split.
  - eapply tokens_eq; [by apply tokens_store|..]; rewrite ?Hl, ?Hx;
      unfold lp_weight, pending_xlp; simpl; lia.
Qed.

(** ** What the token reports *)

(** LP already vested but not collected counts as LP. *)
Definition vested (s : LiquidityStatsByAddr) : Z :=
  match unstaking s with
  | Some u => match calculate_unstaked_lp st u with Ok v => v | Err _ => 0 end
  | None => 0
  end.
Definition held_of (k : LiquidityTokenKind) (s : LiquidityStatsByAddr) : Z :=
  match k with KindLp => lp s + vested s | KindXlp => xlp s end.
Definition held (k : LiquidityTokenKind) (p : Providers) (a : Addr) : Z :=
  map_get (held_of k) p a.

Lemma held_store k p a s c :
  held k (store_addr a s p) c = if decide (c = a) then held_of k s else held k p c.
Proof.
  unfold held, map_get, store_addr. destruct (stats_is_empty s) eqn:E; case_decide as Hc.
  - subst. rewrite lookup_delete_eq. simpl.
    destruct (stats_is_empty_true s E) as (Hl & Hx & Hu & _).
    unfold held_of, vested. rewrite Hl, Hx, Hu. by destruct k.
  - by rewrite lookup_delete_ne.
  - subst. by rewrite lookup_insert_eq.
  - by rewrite lookup_insert_ne.
Qed.

Lemma load_default_held a m s m' k :
  load_liquidity_stats_addr_default a m = Ok (s, m') -> held k (b_addrs (books m)) a = held_of k s.
Proof.
  unfold load_liquidity_stats_addr_default, liquidity_stats_addr_may, held, map_get.
  intros H. apply hask_ok in H as [H _]. simpl.
  destruct (LIQUIDITY_STATS_BY_ADDR (m_liquidity m) !! a); inv_ok; [done|].
  unfold stats_by_addr_new in H. apply rbind_ok in H as ([i e] & _ & H). inv_ok. by destruct k.
Qed.

(** Nothing vests between two looks at the same time. *)
Lemma vested_now u v :
  unstaking_ok u -> last_collected u = st_now st ->
  st_now st < unstake_started u + unstake_duration u ->
  calculate_unstaked_lp st u = Ok v -> v = 0.
Proof.
  intros [Hdec Hcol Hstart Hdur _] Hnow Hlt H. unfold calculate_unstaked_lp in H.
  apply rbind_ok in H as (el & [-> _]%timestamp_checked_sub_ok & H).
  apply rbind_ok in H as (amt & Hamt & H).
  assert (v = value amt /\ negative amt = false) as [-> Hneg].
  { unfold ud_try_from_number in H. destruct (negative amt); inv_ok. done. }
  destruct (Z.leb_spec (unstake_duration u) (st_now st - unstake_started u)); [lia|].
  apply rbind_ok in Hamt as (d & [-> _]%timestamp_checked_sub_ok & Hamt).
  apply rbind_ok in Hamt as (e & (-> & He)%number_from_u64_ok & Hamt).
  apply rbind_ok in Hamt as (du & (-> & Hdu)%number_from_u64_ok & Hamt).
  apply rbind_ok in Hamt as (ratio & Hr & Hamt). unfold as_nanos in *. rewrite Hnow in *.
  destruct (vested_bound (st_now st - st_now st) (unstake_duration u) (xlp_amount u) ratio amt)
    as [Ha Hb]; try done; try lia.
  unfold sval in Ha, Hb. rewrite Hneg in Ha, Hb. nia.
Qed.

Lemma update_accrued_held a m u m' k c :
  update_accrued_yield a m = Ok (u, m') ->
  held k (b_addrs (books m')) c = held k (b_addrs (books m)) c.
Proof.
  unfold update_accrued_yield. intros H. step_in H s m1 Hs.
  pose proof (load_default_held _ _ _ _ k Hs) as Hh.
  unfold load_liquidity_stats_addr_default in Hs. apply hask_ok in Hs as [_ ->].
  apply hbind_ok in H as (o & m2 & Ho & H). apply hask_ok in Ho as [Ho ->].
  destruct o as [[i acc]|]; [|by inv_ok].
  lift_in H ly Hly. lift_in H xy Hxy. rewrite (save_addr_books _ _ _ _ _ H). unfold b_store. cbn [b_addrs].
  rewrite held_store. case_decide; [subst; rewrite Hh; by destruct k|done].
Qed.

Lemma collect_unstaked_held a m r m' k c :
  collect_unstaked_lp st a m = Ok (r, m') -> (exists dc, core (books m) dc) ->
  held k (b_addrs (books m')) c = held k (b_addrs (books m)) c.
Proof.
  unfold collect_unstaked_lp. intros H Hc. step_in H p m0 Hp. inv_ok.
  destruct (stats ← liquidity_stats_addr_may m a; unstaking stats) as [u0|]; [|by inv_ok].
  step_in H x m1 Hu. rewrite <- (update_accrued_held _ _ _ _ k c Hu).
  destruct (update_accrued_yield_bk _ _ _ _ Hu Hc) as [Hbk _].
  destruct Hc as [dc Hc]. pose proof (bk_core _ _ Hbk _ Hc) as Hc1.
  step_in H s m2 Hs. apply load_addr_ok in Hs as [-> Hs].
  lift_in H u Huns. apply of_option_ok in Huns. lift_in H v Hv.
  pose proof (addr_unstaking _ _ (core_addrs _ _ Hc1 a s Hs) u Huns) as Hok.
  destruct (calculate_unstaked_ok st u v Hok Hv) as (Hv0 & Hle & Hfull & Hpart).
  destruct (nonzero_new v) as [v'|] eqn:Ev; [|by inv_ok].
  apply nonzero_new_Some in Ev as [-> Hne].
  lift_in H q Hcol. apply ud_add_ok in Hcol as [-> _].
  step_in H unst m3 Hunst. lift_in H nl Hnl. apply ud_add_ok in Hnl as [-> _].
  step_in H y m4 Hsave. apply save_addr_books in Hsave.
  assert (m3 = m1 /\ vested (set_lp (lp s + v) (set_unstaking unst s)) = 0) as [-> Hz].
  { clear H Hv. unfold vested. simpl.
    destruct (Z.compare_spec (collected u + v) (xlp_amount u)) as [E|E|E]; inv_ok; [done|].
    split; [done|]. set (u' := mkUnstakingXlp _ _ _ _ _).
    destruct (calculate_unstaked_lp st u') as [w|] eqn:Ew; [|done].
    destruct Hok as [Hdec Hcl Hstart Hdur Hlin]. destruct Hpart as [Hlast Hbound]; [lia|].
    apply (vested_now u'); [split; simpl; try done; lia|done|simpl; lia|done]. }
  assert (books m' = books m4) as ->.
  { eapply (keeps_books_books _ _ _ _ _ H). Unshelve. unfold load_liquidity_stats. keeps. }
  rewrite Hsave. unfold b_store. cbn [b_addrs]. rewrite held_store. case_decide as Hd; [|done]. subst c.
  unfold held, map_get. change (LIQUIDITY_STATS_BY_ADDR (m_liquidity m1)) with (b_addrs (books m1)).
  rewrite Hs. destruct k; simpl; [|done].
  rewrite Hz. unfold vested at 1. rewrite Huns, Hv. lia.
Qed.

Lemma book_keeping_held a m u m' k c :
  perform_lp_book_keeping st a m = Ok (u, m') -> (exists dc, core (books m) dc) ->
  held k (b_addrs (books m')) c = held k (b_addrs (books m)) c.
Proof.
  unfold perform_lp_book_keeping. intros H Hc. step_in H x m1 H1.
  rewrite <- (update_accrued_held _ _ _ _ k c H1).
  destruct (update_accrued_yield_bk _ _ _ _ H1 Hc) as [Hbk1 _]. destruct Hc as [dc Hc].
  step_in H y m2 H2. inv_ok. apply (collect_unstaked_held _ _ _ _ k c H2).
  exists dc. by apply (bk_core _ _ Hbk1).
Qed.

(** What a change leaves: everything the invariant counts, with [n] tokens of
    the kind more in the books of [a]. *)
Definition balance_changed (k : LiquidityTokenKind) (a : Addr) (n : Z) (m m' : MarketCtx) : Prop :=
  core (books m') 0 /\ b_stats (books m') = b_stats (books m) /\
  (forall dl dx, tokens (books m) dl dx ->
     tokens (books m') (dl - tokens_of_kind k KindLp n) (dx - tokens_of_kind k KindXlp n)) /\
  forall k' c, held k' (b_addrs (books m')) c =
    held k' (b_addrs (books m)) c + if decide (k' = k /\ c = a) then n else 0.

Lemma new_balance_ok old delta nb v :
  0 <= old -> signed_ok delta -> signed_checked_add (into_signed old) delta = Ok nb ->
  try_into_non_negative_value nb = Some v -> v = old + sval delta /\ is_dec v.
Proof.
  intros Ho [Hd _] H Hv. destruct delta as [x [|]]; unfold signed_checked_add in H; simpl in H.
  - unfold sval. simpl. destruct (Z.leb_spec x old) as [Hle|Hlt].
    + apply rbind_ok in H as (w & [-> Hw]%ud_sub_ok & H). inv_ok. injection Hv as <-.
      split; [lia|done].
    + apply rbind_ok in H as (w & [-> Hw]%ud_sub_ok & H). inv_ok.
      unfold try_into_non_negative_value, new_negative, is_negative, ud_is_zero in Hv. simpl in Hv.
      replace (x - old =? 0) with false in Hv by (symmetry; apply Z.eqb_neq; lia). done.
  - apply rbind_ok in H as (w & [-> Hw]%ud_add_ok & H). inv_ok. injection Hv as <-.
    by unfold sval.
Qed.

Lemma balance_change_ok a delta k m u m' :
  liquidity_token_balance_change_inner st a delta k m = Ok (u, m') -> signed_ok delta ->
  core (books m) 0 -> (exists dl dx, tokens (books m) dl dx) ->
  balance_changed k a (sval delta) m m'.
Proof.
  unfold liquidity_token_balance_change_inner. intros H Hd Hc (dl0 & dx0 & Ht0).
  step_in H x m1 Hbk.
  assert (exists dc, core (books m) dc) as Hex by by exists 0.
  pose proof (fun k' c => book_keeping_held _ _ _ _ k' c Hbk Hex) as Hheld.
  destruct (book_keeping_bk _ _ _ _ _ Hbk Hex) as [Hst Hf].
  pose proof (bk_core _ _ Hst _ Hc) as Hc1. pose proof (bk_tokens _ _ Hst _ _ Ht0) as Ht1.
  step_in H s m2 Hs. pose proof (fun k' => load_default_held _ _ _ _ k' Hs) as Hls.
  destruct (load_default_ok _ _ _ _ _ Hs Hc1) as (-> & Hok & Hl & Hx & Hcl & Hcase).
  assert (fresh (b_yields (books m1)) s) as Hfs by (destruct Hcase as [E|[_ ?]]; [by apply Hf|done]).
  step_in H y m2 Hy. assert (m2 = m1) as -> by (destruct (_ && _); inv_ok; done).
  lift_in H nb Hnb. destruct (try_into_non_negative_value nb) as [v|] eqn:Ev; [|done].
  set (old := match k with KindLp => lp s | KindXlp => xlp s end) in *.
  assert (0 <= old) as Hold by (destruct Hok as [? []]; unfold old; destruct k; lia).
  destruct (new_balance_ok _ _ _ _ Hold Hd Hnb Ev) as [Hv Hvd].
  apply save_addr_books in H. set (s' := match k with KindLp => _ | KindXlp => _ end) in H.
  assert (s' = set_lp (match k with KindLp => v | KindXlp => lp s end)
                 (set_xlp (match k with KindLp => xlp s | KindXlp => v end) s)) as Hs'
    by (unfold s'; destruct s, k; done).
  pose proof (addr_lp _ _ Hok) as Hlp. pose proof (addr_xlp _ _ Hok) as Hxlp.
  assert (forall dl dx, tokens (books m1) dl dx -> core (books m') 0 /\
    tokens (books m') (dl - tokens_of_kind k KindLp (sval delta))
                      (dx - tokens_of_kind k KindXlp (sval delta))) as Hct.
  { intros dl dx Ht. rewrite H.
    destruct (change_tokens_core _ dl dx a s s' _ _ Hc1 Ht Hok Hfs Hl Hx Hcl Hs')
      as [Hc' Ht'].
    - unfold is_dec in *. destruct k; lia.
    - destruct k; done.
    - split; [done|]. eapply tokens_eq; [exact Ht'|..]; unfold tokens_of_kind, old in *;
        destruct k; simpl; lia. }
  split_and!.
  - by apply (Hct dl0 dx0).
  - rewrite H. simpl. apply (bk_stats _ _ Hst).
  - intros dl dx Ht. apply Hct. by apply (bk_tokens _ _ Hst).
  - intros k' c. rewrite H. unfold b_store. cbn [b_addrs]. rewrite held_store, <- Hheld.
    case_decide as E1; [subst c; rewrite Hls|rewrite decide_False by tauto; lia].
    clear -Hv. unfold held_of, vested, s', old in *.
    destruct (decide (k' = k)) as [->|Hne].
    + rewrite decide_True by done. destruct k; simpl; lia.
    + rewrite decide_False by tauto. destruct k, k'; simpl; done || lia.
Qed.

(** ** Transfers *)

Definition tokens_moved (k : LiquidityTokenKind) (owner recipient : Addr) (n : Z)
    (m m' : MarketCtx) : Prop :=
  forall k' c, held k' (b_addrs (books m')) c =
    held k' (b_addrs (books m)) c
    + (if decide (k' = k /\ c = recipient) then n else 0)
    - (if decide (k' = k /\ c = owner) then n else 0).

Lemma token_move_ok owner recipient amount k m u m' :
  liquidity_token_move st owner recipient amount k m = Ok (u, m') -> balanced m ->
  balanced m' /\ b_stats (books m') = b_stats (books m) /\
  tokens_moved k owner recipient (amount * lp_unit) m m'.
Proof.
  unfold liquidity_token_move. intros H [Hc Ht]. lift_in H a Ha.
  apply token_amount_ok in Ha as [-> Ha].
  step_in H x m1 H1.
  destruct (balance_change_ok _ _ _ _ _ _ H1) as (Hc1 & Hs1 & Ht1 & Hh1); [auto with perps|done|eauto|].
  specialize (Ht1 _ _ Ht).
  destruct (balance_change_ok _ _ _ _ _ _ H) as (Hc2 & Hs2 & Ht2 & Hh2); [auto with perps|done|eauto|].
  rewrite sval_neg, sval_into_signed in *. split; [split; [done|]|split; [congruence|]].
  - eapply tokens_eq; [apply Ht2, Ht1|..]; unfold tokens_of_kind; destruct k; simpl; lia.
  - intros k' c. rewrite Hh2, Hh1. repeat case_decide; lia.
Qed.

(** Owner, recipient and amount of the messages that move tokens. *)
Definition token_transfer (sender : Addr) (msg : LpTokenMsg) : res (option (Addr * Addr * Z)) :=
  match msg with
  | LtTransfer recipient amount => r <- lt_validate recipient; Ok (Some (sender, r, amount))
  | LtSend contract amount _ => c <- lt_validate contract; Ok (Some (sender, c, amount))
  | LtTransferFrom owner recipient amount =>
      o <- lt_validate owner; r <- lt_validate recipient; Ok (Some (o, r, amount))
  | LtSendFrom owner contract amount _ =>
      o <- lt_validate owner; c <- lt_validate contract; Ok (Some (o, c, amount))
  | LtIncreaseAllowance _ _ _ | LtDecreaseAllowance _ _ _ => Ok None
  end.

(** A spender's allowance is used up by what is moved. *)
Definition allowance_spent (k : LiquidityTokenKind) (owner spender : Addr) (n : Z)
    (m m' : MarketCtx) : Prop :=
  exists a, allowances_map k (m_lp_tokens m) !! (owner, spender) = Some a /\
    is_expired (expires a) (st_block st) = false /\ n <= allowance a /\
    allowances_map k (m_lp_tokens m') !! (owner, spender) =
      Some (mkAllowance (allowance a - n) (expires a)).

Definition token_effect (k : LiquidityTokenKind) (sender : Addr) (msg : LpTokenMsg)
    (m m' : MarketCtx) : Prop :=
  match token_transfer sender msg with
  | Ok (Some (o, r, n)) => tokens_moved k o r (n * lp_unit) m m'
  | _ => books m' = books m
  end.

Lemma token_exec_ok sender k msg m u m' :
  liquidity_token_handle_exec st sender k msg m = Ok (u, m') -> balanced m ->
  balanced m' /\ b_stats (books m') = b_stats (books m) /\ token_effect k sender msg m m'.
Proof.
  intros H Hb. unfold token_effect, token_transfer.
  assert (forall m1, books m1 = books m -> balanced m1 /\ b_stats (books m1) = b_stats (books m) /\
    books m1 = books m) as Hsame by (intros m1 E; unfold balanced; by rewrite E).
  assert (forall o r n m1, books m1 = books m -> liquidity_token_move st o r n k m1 = Ok (u, m') ->
    balanced m' /\ b_stats (books m') = b_stats (books m) /\
    tokens_moved k o r (n * lp_unit) m m') as Hmove.
  { intros o r n m1 E H1. apply token_move_ok in H1; [|unfold balanced; by rewrite E].
    unfold tokens_moved in *. by rewrite E in H1. }
  destruct msg; simpl in H;
    repeat (let x := fresh in let Hx := fresh in
            apply hbind_ok in H as (x & ? & [Hx ->]%hlift_ok & H); rewrite Hx; simpl);
    try (apply Hsame; eapply keeps_books_books; [|exact H]; keeps);
    cbv [liquidity_token_transfer liquidity_token_transfer_from
         liquidity_token_send_with_msg liquidity_token_send_with_msg_from] in H;
    repeat lazymatch type of H with
           | hbind _ _ _ = _ =>
               let m1 := fresh "m1" in let Hstep := fresh in
               apply hbind_ok in H as (? & m1 & Hstep & H);
               apply keeps_books_books in Hstep; [|by eauto 2 with perps]
           end;
    (eapply Hmove; [|exact H]; congruence).
Qed.

(** Messages on behalf of an owner spend the sender's allowance. *)
Definition is_spend (msg : LpTokenMsg) : bool :=
  match msg with LtTransferFrom _ _ _ | LtSendFrom _ _ _ _ => true | _ => false end.

Lemma set_allowances_lookup k v s :
  allowances_map k (set_allowances k v s) = v /\
  allowances_map k (set_spender_allowances k v s) = allowances_map k s.
Proof. by destruct k, s. Qed.

Lemma deduct_ok owner spender n k m u m' :
  liquidity_token_deduct_allowance_inner st owner spender n k m = Ok (u, m') ->
  allowance_spent k owner spender n m m'.
Proof.
  unfold liquidity_token_deduct_allowance_inner, lt_update_allowance,
    lt_update_allowance_spender, mod_lp_tokens. intros H.
  apply hbind_ok in H as (a & m1 & H1 & H2). inv_ok.
  destruct (set_allowances_lookup k (<[(owner, spender):=x7]> (allowances_map k (m_lp_tokens m)))
    (m_lp_tokens m)) as [E1 _].
  unfold allowance_spent. simpl. rewrite (proj2 (set_allowances_lookup _ _ _)), E1, lookup_insert_eq.
  unfold spend_allowance in *.
  destruct (allowances_map k (m_lp_tokens m) !! (owner, spender)) as [a|]; [|done].
  destruct (is_expired (expires a) (st_block st)) eqn:Ee; [done|].
  apply rbind_ok in H5 as (v & Hv & H5). apply std_ok, u128_sub_Some in Hv as [-> Hv].
  inv_ok. exists a. split_and!; try done. lia.
Qed.

(** The allowances are not touched by the move itself. *)
Lemma move_keeps_allowances owner recipient n k s :
  preserves (fun m => m_lp_tokens m = s) (liquidity_token_move st owner recipient n k).
Proof.
  frame.
Qed.

Lemma add_event_tokens e m u m' : add_event st e m = Ok (u, m') -> m_lp_tokens m' = m_lp_tokens m.
Proof. unfold add_event. intros H. apply hmod_ok in H as ->. by destruct (mute_events _). Qed.

Lemma allowance_spent_frame k o sp n m0 m m1 m' :
  m_lp_tokens m0 = m_lp_tokens m -> m_lp_tokens m1 = m_lp_tokens m' ->
  allowance_spent k o sp n m m' -> allowance_spent k o sp n m0 m1.
Proof. unfold allowance_spent. by intros -> ->. Qed.

Lemma spend_exec_ok sender k msg m u m' o r n :
  liquidity_token_handle_exec st sender k msg m = Ok (u, m') -> is_spend msg = true ->
  token_transfer sender msg = Ok (Some (o, r, n)) -> allowance_spent k o sender n m m'.
Proof.
  intros H Hs Ht.
  destruct msg as [| | | |ow re amount|ow co amount msg]; try discriminate Hs; simpl in H, Ht;
    apply rbind_ok in Ht as (x & Hx & Ht); apply rbind_ok in Ht as (y & Hy & [= <- <- <-]);
    rewrite Hx, Hy in H; lift_in H x' Hx'; lift_in H y' Hy';
    injection Hx' as <-; injection Hy' as <-.
  - step_in H e m1 He. apply add_event_tokens in He.
    apply hbind_ok in H as (a & m2 & Hd & H). apply deduct_ok in Hd.
    apply (move_keeps_allowances _ _ _ _ _ _ _ _ eq_refl) in H.
    by eapply allowance_spent_frame.
  - step_in H e m1 He. apply add_event_tokens in He.
    apply hbind_ok in H as (a & m2 & Hd & H). apply deduct_ok in Hd.
    step_in H w m3 Hw. apply hmod_ok in Hw. subst m3.
    apply (move_keeps_allowances _ _ _ _ _ _ _ _ eq_refl) in H.
    by eapply allowance_spent_frame.
Qed.

(** ** The balance query *)

Lemma held_drained m : balanced m -> collateral_of (b_stats (books m)) = 0 ->
  forall a s, b_addrs (books m) !! a = Some s -> lp s + vested s = 0.
Proof.
  intros [Hc Ht] H0 a s Hs. pose proof (core_drained _ _ Hc H0) as Htok.
  destruct (core_pool _ _ Hc). unfold tokens_of in Htok.
  destruct (tokens_holder _ _ _ _ _ _ Hc Ht Hs) as (Hl & Hx & Hp).
  destruct (core_addrs _ _ Hc a s Hs) as [Hlp [Hxlp _] _ _ _ _ Hu _].
  assert (0 <= vested s <= pending_xlp s).
  { unfold vested, pending_xlp in *. destruct (unstaking s) as [u|]; [|lia].
    destruct (calculate_unstaked_lp st u) as [v|] eqn:Ev; [|lia].
    destruct (calculate_unstaked_ok st u v (Hu u eq_refl) Ev) as (? & ? & _). lia. }
  unfold lp_weight in Hl. lia.
Qed.

Lemma lp_info_amount m a i :
  lp_info st m a = Ok i -> balanced m -> info_lp_amount i = held KindLp (b_addrs (books m)) a.
Proof.
  unfold lp_info. intros H Hb. apply rbind_ok in H as (s & Hs & H).
  assert (lp s + vested s = held KindLp (b_addrs (books m)) a /\
          (b_addrs (books m) !! a = Some s \/ lp s + vested s = 0)) as [Hh Hcase].
  { unfold held, map_get, liquidity_stats_addr_may in *. simpl.
    destruct (LIQUIDITY_STATS_BY_ADDR (m_liquidity m) !! a); inv_ok; [by auto|].
    unfold stats_by_addr_new in Hs. apply rbind_ok in Hs as ([? ?] & _ & Hs). inv_ok. by auto. }
  do 7 (apply rbind_ok in H as (? & _ & H)).
  apply rbind_ok in H as ([[l x'] us] & Hl & H).
  assert (l = lp s + vested s) as ->.
  { unfold vested. destruct (unstaking s) as [u|]; [|inv_ok; lia].
    apply rbind_ok in Hl as (v & -> & Hl). apply rbind_ok in Hl as (l' & [-> _]%ud_add_ok & Hl).
    do 7 (apply rbind_ok in Hl as (? & _ & Hl)). by inv_ok. }
  apply rbind_ok in H as (c & Hc & H). apply total_collateral_ok in Hc as ->.
  unfold ud_is_zero in H. destruct (Z.eqb_spec (collateral_of (liquidity_stats m)) 0) as [E|E];
    apply rbind_ok in H as (? & _ & H); apply rbind_ok in H as (? & _ & H); inv_ok; cbn [info_lp_amount]; [|done].
  rewrite <- Hh. destruct Hcase as [Hs'|Hz]; [|by rewrite Hz]. symmetry. by eapply held_drained.
Qed.

Lemma held_nonneg k m a : balanced m -> 0 <= held k (b_addrs (books m)) a.
Proof.
  intros [Hc _]. unfold held, map_get. destruct (b_addrs (books m) !! a) as [s|] eqn:Hs; [|done].
  destruct (core_addrs _ _ Hc a s Hs) as [Hlp [Hxlp _] _ _ _ _ Hu _]. simpl.
  destruct k; [|done]. unfold held_of, vested. destruct (unstaking s) as [u|]; [|lia].
  destruct (calculate_unstaked_lp st u) as [v|] eqn:Ev; [|lia].
  destruct (calculate_unstaked_ok st u v (Hu u eq_refl) Ev) as (? & _). lia.
Qed.

Lemma balance_ok k m a b :
  liquidity_token_balance st m a k = Ok b -> balanced m ->
  b = held k (b_addrs (books m)) a / lp_unit.
Proof.
  unfold liquidity_token_balance. intros H Hb. apply rbind_ok in H as (x & Hx & H).
  assert (x = held k (b_addrs (books m)) a) as ->.
  { destruct k.
    - apply rbind_ok in Hx as (i & Hi & Hx). inv_ok. by apply lp_info_amount.
    - apply rbind_ok in Hx as (s & Hs & Hx). inv_ok. symmetry.
      apply (load_default_held a m s m KindXlp).
      unfold load_liquidity_stats_addr_default. by apply hask_ok. }
  apply token_balance_ok; [by apply held_nonneg|done].
Qed.
End Balances.
