(* ===== verification/Fees.v ===== *)
(** * Fees

    [contracts/market/src/state/fees.rs] and the trading fee of
    [packages/perpswap/src/contracts/market/fees.rs]: splitting a fee between
    the protocol, LP and xLP holders, referral rewards, the crank fee fund, and
    the transfer to the DAO.  [register_lp_claimed_yield] is in Liquidity.v. *)

From stdpp Require Import base option gmap strings list.
From Stdlib Require Import ZArith Lia.
From S2P Require Import Prelude Storage Cosmwasm Types Number Time Market Price Token DataSeries Config Position State Pool LpHistory Liquidity Books LiquidityInv.
Local Open Scope Z_scope.

(** [fees_init]. *)
Definition fees_init : Fees := mkFees 0 0 0 0.

Record BorrowFeeCollection := mkBorrowFeeCollection {
  bfc_event : FeeEvent;
  liquidity_yield_to_process : LiquidityNewYieldToProcess;
}.

Record CapCrankFee := mkCapCrankFee {
  cap_amount : Collateral;
  cap_amount_usd : Usd;
  cap_event : option InsufficientMarginEvent;
  cap_trade_id : TradeId;
}.

(** [CapCrankFee::new]. *)
Definition cap_crank_fee_new (amount : Collateral) (amount_usd : Usd) (trade_id : TradeId) :
    CapCrankFee := mkCapCrankFee amount amount_usd None trade_id.

Section Definitions.
Context {CW : CosmwasmStd}.

(** ** [Config::calculate_trade_fee] *)

Definition calculate_trade_fee (config : Config)
    (old_notional_size_in_collateral new_notional_size_in_collateral : Signed)
    (old_counter_collateral new_counter_collateral : Collateral) : res Collateral :=
  notional_size_fee <-
    match res_ok (ud_checked_sub (abs_unsigned new_notional_size_in_collateral)
                    (abs_unsigned old_notional_size_in_collateral)) with
    | Some delta => checked_mul_dec delta (trading_fee_notional_size config)
    | None => Ok 0
    end;
  counter_collateral_fee <-
    match res_ok (ud_checked_sub new_counter_collateral old_counter_collateral) with
    | Some delta => checked_mul_dec delta (trading_fee_counter_collateral config)
    | None => Ok 0
    end;
  of_option (AnyhowError "Overflow when calculating trading fee")
    (res_ok (ud_checked_add notional_size_fee counter_collateral_fee)).

Definition calculate_trade_fee_open (config : Config) (notional_size_in_collateral : Signed)
    (counter_collateral : Collateral) : res Collateral :=
  calculate_trade_fee config signed_zero notional_size_in_collateral 0 counter_collateral.

Context (st : State).

(** [ALL_FEES.update] and [ALL_FEES.save]. *)
Definition save_fees (f : Fees) : mhandler unit := hmod (set_ALL_FEES f).

(** Credit the wallets and the protocol. *)
Definition earmark_fees (lp_fee xlp_fee protocol_fee : Collateral) : mhandler unit :=
  fee <~ hget ALL_FEES;
  s <~ hlift (ud_checked_add lp_fee xlp_fee);
  wallets <~ hlift (ud_checked_add (fees_wallets fee) s);
  protocol <~ hlift (ud_checked_add (fees_protocol fee) protocol_fee);
  save_fees (mkFees wallets protocol (fees_crank fee) (fees_referral fee)).

(** [FeeEvent { .. }] with the USD values at [price]. *)
Definition fee_event (trade_id : TradeId) (fee_source : FeeSource) (lp_fee xlp_fee protocol_fee
    : Collateral) (price : PricePoint) : res FeeEvent :=
  lp_usd <- collateral_to_usd price lp_fee;
  xlp_usd <- collateral_to_usd price xlp_fee;
  protocol_usd <- collateral_to_usd price protocol_fee;
  Ok (mkFeeEvent trade_id fee_source lp_fee lp_usd xlp_fee xlp_usd protocol_fee protocol_usd).

(** ** Borrow fees *)

Definition collect_borrow_fee (m : MarketCtx) (pos_id : PositionId) (amount : LpAndXlp)
    (price : PricePoint) : res BorrowFeeCollection :=
  let protocol_tax := protocol_tax (st_config st) in
  protocol_fee_lp <- checked_mul_dec (la_lp amount) protocol_tax;
  protocol_fee_xlp <- checked_mul_dec (la_xlp amount) protocol_tax;
  lp_fee <- ud_checked_sub (la_lp amount) protocol_fee_lp;
  xlp_fee <- ud_checked_sub (la_xlp amount) protocol_fee_xlp;
  protocol_fee <- ud_checked_add protocol_fee_lp protocol_fee_xlp;
  liquidity_yield_to_process <- liquidity_process_new_yield m (mkLpAndXlp lp_fee xlp_fee);
  event <- fee_event (TradePosition pos_id) FeeBorrow lp_fee xlp_fee protocol_fee price;
  Ok (mkBorrowFeeCollection event liquidity_yield_to_process).

(** [BorrowFeeCollection::apply]. *)
Definition borrow_fee_apply (c : BorrowFeeCollection) : mhandler unit :=
  new_yield_apply (liquidity_yield_to_process c);;;
  earmark_fees (fe_lp_amount (bfc_event c)) (fe_xlp_amount (bfc_event c))
    (fe_protocol_amount (bfc_event c));;;
  add_event st (EvFee (bfc_event c)).

(** ** Trading fees *)

(** The current borrow rate of a series, zero before the first entry. *)
Definition current_rate (series : DataSeries) (msg : string) : res Decimal256 :=
  of_option (AnyhowError msg)
    (try_into_non_negative_value
      (match try_load_last series with None => NUMBER_ZERO | Some (_, dp) => dp_value dp end)).

(** The split in the ratio of the current rates. *)
Definition split_by_rates (lp xlp : Decimal256) (lp_and_xlp_fee : Collateral) :
    res (Collateral * Collateral) :=
  if ud_is_zero lp then Ok (0, lp_and_xlp_fee)
  else if ud_is_zero xlp then Ok (lp_and_xlp_fee, 0)
  else
    p <- std (dec_mul lp_and_xlp_fee lp);
    sum <- std (dec_add lp xlp);
    lp_fee <- std (dec_div p sum);
    xlp_fee <- ud_checked_sub lp_and_xlp_fee lp_fee;
    Ok (lp_fee, xlp_fee).

Definition collect_trading_fee_inner (amount : Collateral) (price : PricePoint)
    (trade_id : TradeId) (fee_source : FeeSource) : mhandler unit :=
  protocol_fee <~ hlift (checked_mul_dec amount (protocol_tax (st_config st)));
  lp_and_xlp_fee <~ hlift (ud_checked_sub amount protocol_fee);
  lp <~ hask (fun m => current_rate (LP_BORROW_FEE_DATA_SERIES (m_funding m))
                         "LP_BORROW_FEE_DATA_SERIES gave a negative value");
  xlp <~ hask (fun m => current_rate (XLP_BORROW_FEE_DATA_SERIES (m_funding m))
                          "XLP_BORROW_FEE_DATA_SERIES gave a negative value");
  hensure (negb (ud_is_zero lp) || negb (ud_is_zero xlp))
    (AnyhowError "Cannot receive a trading fee if there is no liquidity in the system");;;
  '(lp_fee, xlp_fee) <~ hlift (split_by_rates lp xlp lp_and_xlp_fee);
  earmark_fees lp_fee xlp_fee protocol_fee;;;
  y <~ hask (fun m => liquidity_process_new_yield m (mkLpAndXlp lp_fee xlp_fee));
  new_yield_apply y;;;
  event <~ hlift (fee_event trade_id fee_source lp_fee xlp_fee protocol_fee price);
  add_event st (EvFee event).

(** The referrer's reward, recorded with the referrer's liquidity stats. *)
Definition reward_referrer (owner referrer : Addr) (reward : Collateral) : mhandler unit :=
  fees <~ hget ALL_FEES;
  referral <~ hlift (ud_checked_add (fees_referral fees) reward);
  save_fees (mkFees (fees_wallets fees) (fees_protocol fees) (fees_crank fees) referral);;;
  addr_stats <~ load_liquidity_stats_addr_default referrer;
  rewards <~ hlift (ud_checked_add (referrer_rewards addr_stats) reward);
  save_liquidity_stats_addr referrer (set_referrer_rewards rewards addr_stats);;;
  match nonzero_new reward with
  | Some reward => add_summary_referral st owner referrer reward
  | None => hret tt
  end.

Definition collect_trading_fee (pos_id : PositionId) (amount : Collateral) (price : PricePoint)
    (fee_source : FeeSource) (owner : Addr) : mhandler unit :=
  referrer <~ hlift (get_referrer_for st owner);
  amount <~ match referrer with
            | None => hret amount
            | Some referrer =>
                reward <~ hlift (checked_mul_dec amount (referral_reward_ratio (st_config st)));
                reward_referrer owner referrer reward;;;
                hlift (ud_checked_sub amount reward)
            end;
  collect_trading_fee_inner amount price (TradePosition pos_id) fee_source.

Definition collect_delta_neutrality_fee_for_protocol (pos_id : PositionId) (amount : Collateral)
    (price : PricePoint) : mhandler unit :=
  collect_trading_fee_inner amount price (TradePosition pos_id) FeeDeltaNeutrality.

(** ** The DAO and the crank *)

Definition transfer_fees_to_dao : mhandler unit :=
  fees_before <~ hget ALL_FEES;
  amount <~ hlift (of_option (AnyhowError "No DAO fees available to transfer")
                     (nonzero_new (fees_protocol fees_before)));
  save_fees (mkFees (fees_wallets fees_before) 0 (fees_crank fees_before)
    (fees_referral fees_before));;;
  dao_addr <~ hlift (st_query_dao st);
  add_token_transfer_msg dao_addr amount.

Definition provide_crank_funds (added : Collateral) : mhandler unit :=
  fees <~ hget ALL_FEES;
  crank <~ hlift (ud_checked_add (fees_crank fees) added);
  save_fees (mkFees (fees_wallets fees) (fees_protocol fees) crank (fees_referral fees)).

(** The code reads the reward, an amount in USD, as an amount of collateral. *)
Definition allocate_crank_fees (addr : Addr) (cranks : Z) : mhandler unit :=
  if cranks =? 0 then hret tt
  else
    n <~ hlift (std (dec_from_atomics cranks 0));
    max_payments <~ hlift (std (dec_mul (crank_fee_reward (st_config st)) n));
    fees <~ hget ALL_FEES;
    match nonzero_new (Z.min max_payments (fees_crank fees)) with
    | None => hret tt
    | Some payment =>
        crank <~ hlift (ud_checked_sub (fees_crank fees) payment);
        wallets <~ hlift (ud_checked_add (fees_wallets fees) payment);
        save_fees (mkFees wallets (fees_protocol fees) crank (fees_referral fees));;;
        add_lp_crank_rewards addr payment;;;
        price_point <~ hask (current_spot_price st);
        usd <~ hlift (collateral_to_usd_non_zero price_point payment);
        add_event st (EvCrankFeeEarned addr payment usd)
    end.

Definition return_funds_to_user (addr : Addr) (amount : Collateral) (price_point : PricePoint) :
    mhandler unit :=
  fees <~ hget ALL_FEES;
  wallets <~ hlift (ud_checked_add (fees_wallets fees) amount);
  save_fees (mkFees wallets (fees_protocol fees) (fees_crank fees) (fees_referral fees));;;
  add_lp_crank_rewards addr amount;;;
  usd <~ hlift (collateral_to_usd_non_zero price_point amount);
  add_event st (EvFeesReturned addr amount usd).

(** [CapCrankFee::apply]. *)
Definition cap_crank_fee_apply (c : CapCrankFee) : mhandler unit :=
  match cap_event c with
  | Some e => add_event st (EvInsufficientMargin e)
  | None => hret tt
  end;;;
  fees <~ hget ALL_FEES;
  crank <~ hlift (ud_checked_add (fees_crank fees) (cap_amount c));
  save_fees (mkFees (fees_wallets fees) (fees_protocol fees) crank (fees_referral fees));;;
  add_event st (EvCrankFee (cap_trade_id c) (cap_amount c) (cap_amount_usd c) (fees_crank fees)
    crank).

End Definitions.
