(* ===== verification/FeesInv.v ===== *)
(** * Fee operations keep the books

    Every fee operation of Fees.v keeps the invariant of Books.v: what is
    promised to liquidity providers, crankers and referrers is set aside.  The
    theory also has the conservation laws of the fee splits. *)

From stdpp Require Import base option gmap strings list.
From Stdlib Require Import ZArith Lia.
From S2P Require Import Prelude Storage Cosmwasm Types Number Time Market Price Token DataSeries Config Position State Pool LpHistory Liquidity Books LiquidityInv Fees.
Local Open Scope Z_scope.

(** [books_ok] with [dc] of the backing not yet promised to anyone. *)
Definition books_spare (b : Books) (dc : Z) : Prop :=
  core b dc /\ (tokens b 0 0 \/ resetting b).

Lemma books_spare_ok b dc : books_spare b dc -> 0 <= dc -> books_ok b.
Proof. intros [Hc Ht] ?. split; [by eapply core_weaken|done]. Qed.

Lemma books_spare_backing b dc x :
  books_spare b dc -> books_spare (b_add_backing x b) (dc + x * DEC_ONE).
Proof. intros [Hc Ht]. split; [by apply core_add_backing|]. destruct Ht; [by left|by right]. Qed.

Lemma books_spare_crank b dc c : books_spare b dc -> 0 <= c -> books_spare (b_set_crank c b) dc.
Proof. intros [[] Ht] Hcr. split; [by split|]. destruct Ht; [by left|by right]. Qed.

Lemma spare_crank m dc : books_spare (books m) dc -> 0 <= fees_crank (ALL_FEES m).
Proof. intros [Hc _]. apply (core_crank _ _ Hc). Qed.

Section Theory.
Context {CW : CosmwasmStd} {CWS : CosmwasmStdSpec CW}.
Context (st : State).

Lemma save_fees_books f m u m' :
  save_fees f m = Ok (u, m') ->
  books m' = b_set_crank (fees_crank f)
    (b_add_backing (backing f - backing (ALL_FEES m)) (books m)).
Proof.
  unfold save_fees. intros H. inv_ok. unfold books, b_set_crank, b_add_backing, backing. simpl.
  f_equal. lia.
Qed.

Lemma save_fees_spare f m u m' dc :
  save_fees f m = Ok (u, m') -> 0 <= fees_crank f -> books_spare (books m) dc ->
  books_spare (books m') (dc + (backing f - backing (ALL_FEES m)) * DEC_ONE).
Proof. intros ->%save_fees_books Hcr Hb. apply books_spare_crank; [by apply books_spare_backing|done]. Qed.

Lemma keeps_spare {A} (h : mhandler A) m a m' dc :
  h m = Ok (a, m') -> keeps_books h -> books_spare (books m) dc -> books_spare (books m') dc.
Proof. intros H Hk Hb. by rewrite (keeps_books_books _ _ _ _ Hk H). Qed.

Lemma new_yield_spare new m y u m' dc :
  liquidity_process_new_yield m new = Ok y -> new_yield_apply y m = Ok (u, m') ->
  0 <= la_lp new -> 0 <= la_xlp new -> books_spare (books m) dc ->
  books_spare (books m') (dc - (la_lp new + la_xlp new) * DEC_ONE).
Proof.
  intros Hy H Hl Hx [Hc Ht].
  destruct (new_yield_books new m y u m' dc Hy H Hl Hx Hc Ht) as (Hc' & H1 & H2).
  split; [done|]. destruct Ht; [left|right]; auto.
Qed.

Lemma crank_rewards_spare a amount m u m' dc :
  add_lp_crank_rewards a amount m = Ok (u, m') -> 0 <= amount -> books_spare (books m) dc ->
  books_spare (books m') (dc - amount * DEC_ONE).
Proof.
  intros H Ha [Hc Ht]. destruct (add_crank_rewards_books _ _ _ _ _ _ H Ha Hc) as (Hc' & H1 & H2).
  split; [done|]. destruct Ht; [left|right]; auto.
Qed.

Lemma earmark_ok l x p m u m' :
  earmark_fees l x p m = Ok (u, m') ->
  exists w pr, save_fees (mkFees w pr (fees_crank (ALL_FEES m)) (fees_referral (ALL_FEES m))) m
    = Ok (u, m') /\ w = fees_wallets (ALL_FEES m) + (l + x) /\ pr = fees_protocol (ALL_FEES m) + p.
Proof.
  unfold earmark_fees. intros H. step_in H f m1 Hf. get_in Hf.
  lift_in H s Hs. apply ud_add_ok in Hs as [-> _].
  lift_in H w Hw. apply ud_add_ok in Hw as [-> _].
  lift_in H pr Hpr. apply ud_add_ok in Hpr as [-> _]. eauto 10.
Qed.

Lemma earmark_spare l x p m u m' dc :
  earmark_fees l x p m = Ok (u, m') -> books_spare (books m) dc ->
  books_spare (books m') (dc + (l + x) * DEC_ONE).
Proof.
  intros (w & pr & H & -> & ->)%earmark_ok Hb. eapply save_fees_spare in H; [|by eapply spare_crank|done].
  unfold backing in H. simpl in H.
  by replace (l + x) with (fees_wallets (ALL_FEES m) + (l + x) + fees_referral (ALL_FEES m)
    - (fees_wallets (ALL_FEES m) + fees_referral (ALL_FEES m))) by lia.
Qed.

(** ** Splitting *)

(** The rates divide a fee without loss. *)
Lemma split_by_rates_ok lp xlp fee l x :
  split_by_rates lp xlp fee = Ok (l, x) -> 0 <= fee -> l + x = fee /\ 0 <= l /\ 0 <= x.
Proof.
  unfold split_by_rates, ud_is_zero. intros H Hf.
  destruct (lp =? 0); [inv_ok; lia|]. destruct (xlp =? 0); [inv_ok; lia|].
  apply rbind_ok in H as (p & Hp & H). apply rbind_ok in H as (s & Hs & H).
  apply rbind_ok in H as (lf & Hl & H). apply rbind_ok in H as (xf & [-> Hx]%ud_sub_ok & H).
  inv_ok. lib_inv. unfold is_dec in *. lia.
Qed.

Lemma trading_fee_spare amount price t src m u m' dc :
  collect_trading_fee_inner st amount price t src m = Ok (u, m') -> 
  books_spare (books m) dc -> books_spare (books m') dc.
Proof.
  unfold collect_trading_fee_inner. intros H Hb.
  lift_in H pf Hpf. lift_in H fee Hfee. apply ud_sub_ok in Hfee as [-> Hfee].
  lift_in H lr Hlr. lift_in H xr Hxr. step_in H x m1 Hens. apply hensure_ok in Hens as [_ ->].
  apply hbind_ok in H as ([l xl] & m2 & Hsplit & H). apply hlift_ok in Hsplit as [Hsplit ->].
  apply split_by_rates_ok in Hsplit as (Hsum & Hl & Hx); [|unfold is_dec in *; lia].
  step_in H y m2 Hear. eapply earmark_spare in Hear; [|done].
  lift_in H ny Hny. step_in H z m3 Hap.
  eapply new_yield_spare in Hap; [|done|done|done|done]. simpl in Hap.
  replace (dc + (l + xl) * DEC_ONE - (l + xl) * DEC_ONE) with dc in Hap by lia.
  eapply keeps_spare; [exact H| |exact Hap]. keeps.
Qed.

(** The reward moves into the referral fund and into the referrer's stats. *)
Lemma reward_referrer_spare owner referrer reward m u m' dc :
  reward_referrer st owner referrer reward m = Ok (u, m') -> 0 <= reward ->
  books_spare (books m) dc -> books_spare (books m') dc.
Proof.
  unfold reward_referrer. intros H Hr Hb. step_in H f m1 Hf. get_in Hf.
  lift_in H rf Hrf. apply ud_add_ok in Hrf as [-> _].
  step_in H x m1 Hsave. eapply save_fees_spare in Hsave; [|by eapply spare_crank|done].
  replace (backing _ - backing _) with reward in Hsave by (unfold backing; simpl; lia).
  destruct Hsave as [Hc Ht].
  step_in H s m2 Hs. destruct (load_default_ok _ _ _ _ _ Hs Hc) as (-> & Hok & Hl & Hx & Hcl & _).
  lift_in H rw Hrw. apply ud_add_ok in Hrw as [-> _].
  step_in H y m2 Hstore. apply save_addr_books in Hstore.
  destruct (credit_books (books m1) _ referrer s
    (set_referrer_rewards (referrer_rewards s + reward) s) reward Hc) as (Hc2 & Ht2 & Hr2);
    try done.
  { destruct Hok. split; simpl; try done. lia. }
  { unfold accrued_total. simpl. lia. }
  rewrite <- Hstore in *.
  replace (dc + reward * DEC_ONE - reward * DEC_ONE) with dc in Hc2 by lia.
  assert (books_spare (books m2) dc) as Hb2.
  { split; [done|]. destruct Ht; [left|right]; auto. }
  eapply keeps_spare; [exact H| |exact Hb2]. keeps.
Qed.

Lemma collect_trading_fee_spare pos amount price src owner m u m' dc :
  collect_trading_fee st pos amount price src owner m = Ok (u, m') ->
  0 <= referral_reward_ratio (st_config st) -> 0 <= amount ->
  books_spare (books m) dc -> books_spare (books m') dc.
Proof.
  unfold collect_trading_fee. intros H Hratio Ha Hb. lift_in H r Hr. step_in H n m1 Hn.
  assert (books_spare (books m1) dc) as Hb1.
  { destruct r as [referrer|]; [|by inv_ok].
    lift_in Hn rw Hrw. apply mul_dec_ok in Hrw as [-> Hrw].
    step_in Hn x m2 Hx. apply hlift_ok in Hn as [_ ->].
    eapply reward_referrer_spare; [exact Hx| |done]. unfold is_dec in *. lia. }
  by eapply trading_fee_spare.
Qed.

(** ** Borrow fees *)

Lemma borrow_fee_spare pos amount price m c u m' dc :
  collect_borrow_fee st m pos amount price = Ok c -> borrow_fee_apply st c m = Ok (u, m') ->
  books_spare (books m) dc -> books_spare (books m') dc.
Proof.
  unfold collect_borrow_fee, borrow_fee_apply, fee_event. intros Hc H Hb.
  apply rbind_ok in Hc as (pl & _ & Hc). apply rbind_ok in Hc as (px & _ & Hc).
  apply rbind_ok in Hc as (lf & [-> Hl]%ud_sub_ok & Hc).
  apply rbind_ok in Hc as (xf & [-> Hx]%ud_sub_ok & Hc).
  apply rbind_ok in Hc as (pf & _ & Hc). apply rbind_ok in Hc as (y & Hy & Hc).
  apply rbind_ok in Hc as (e & He & Hc). injection Hc as <-. simpl in H.
  apply rbind_ok in He as (u1 & _ & He). apply rbind_ok in He as (u2 & _ & He).
  apply rbind_ok in He as (u3 & _ & He). injection He as <-. simpl in H.
  unfold is_dec in *. step_in H z m1 Hap.
  eapply new_yield_spare in Hap; [|done|simpl; lia|simpl; lia|done]. simpl in Hap.
  step_in H w m2 Hear. eapply earmark_spare in Hear; [|done].
  rewrite Z.sub_add in Hear. eapply keeps_spare; [exact H| |exact Hear]. keeps.
Qed.

(** ** The DAO and the crank *)

Lemma provide_crank_spare added m u m' dc :
  provide_crank_funds added m = Ok (u, m') -> books_spare (books m) dc ->
  books_spare (books m') dc.
Proof.
  unfold provide_crank_funds. intros H Hb. step_in H f m1 Hf. get_in Hf. lift_in H c Hc.
  apply ud_add_ok in Hc as [-> Hc]. eapply save_fees_spare in H; [|apply Hc|done].
  replace (backing _ - backing _) with 0 in H by (unfold backing; simpl; lia).
  by rewrite Z.add_0_r in H.
Qed.

Lemma transfer_dao_spare m u m' dc :
  transfer_fees_to_dao st m = Ok (u, m') -> books_spare (books m) dc -> books_spare (books m') dc.
Proof.
  unfold transfer_fees_to_dao. intros H Hb. step_in H f m1 Hf. get_in Hf. lift_in H a Ha.
  step_in H x m1 Hs. eapply save_fees_spare in Hs; [|by eapply spare_crank|done].
  replace (backing _ - backing _) with 0 in Hs by (unfold backing; simpl; lia).
  rewrite Z.add_0_r in Hs. eapply keeps_spare; [exact H| |exact Hs]. keeps.
Qed.

Lemma allocate_crank_spare addr n m u m' dc :
  allocate_crank_fees st addr n m = Ok (u, m') ->
  books_spare (books m) dc -> books_spare (books m') dc.
Proof.
  unfold allocate_crank_fees. intros H Hb. pose proof (spare_crank _ _ Hb) as Hcr. destruct (n =? 0); [by inv_ok|].
  lift_in H k Hk. lift_in H mx Hmx. step_in H f m1 Hf. get_in Hf.
  apply std_ok, dec_mul_Some in Hmx as [Hmx0 Hmx].
  destruct (nonzero_new _) as [p|] eqn:Ep; [|by inv_ok].
  apply nonzero_new_Some in Ep as [-> Hne]. set (p := Z.min _ _) in *.
  assert (0 <= p) by (unfold is_dec in *; lia).
  lift_in H c Hc. apply ud_sub_ok in Hc as [-> Hc]. lift_in H w Hw. apply ud_add_ok in Hw as [-> _].
  step_in H x m1 Hs. eapply save_fees_spare in Hs; [|apply Hc|done].
  replace (backing _ - backing _) with p in Hs by (unfold backing; simpl; lia).
  step_in H y m2 Hr. eapply crank_rewards_spare in Hr; [|done|done].
  replace (dc + p * DEC_ONE - p * DEC_ONE) with dc in Hr by lia.
  eapply keeps_spare; [exact H| |exact Hr]. keeps.
Qed.

Lemma return_funds_spare addr amount price m u m' dc :
  return_funds_to_user st addr amount price m = Ok (u, m') -> 0 <= amount ->
  books_spare (books m) dc -> books_spare (books m') dc.
Proof.
  unfold return_funds_to_user. intros H Ha Hb. step_in H f m1 Hf. get_in Hf.
  lift_in H w Hw. apply ud_add_ok in Hw as [-> _].
  step_in H x m1 Hs. eapply save_fees_spare in Hs; [|by eapply spare_crank|done].
  replace (backing _ - backing _) with amount in Hs by (unfold backing; simpl; lia).
  step_in H y m2 Hr. eapply crank_rewards_spare in Hr; [|done|done].
  replace (dc + amount * DEC_ONE - amount * DEC_ONE) with dc in Hr by lia.
  eapply keeps_spare; [exact H| |exact Hr]. keeps.
Qed.

Lemma cap_crank_spare c m u m' dc :
  cap_crank_fee_apply st c m = Ok (u, m') -> books_spare (books m) dc ->
  books_spare (books m') dc.
Proof.
  unfold cap_crank_fee_apply. intros H Hb. step_in H x m1 H1.
  eapply keeps_spare in H1; [|destruct (cap_event c); auto with perps|exact Hb].
  step_in H f m2 Hf. get_in Hf. lift_in H cr Hcr. apply ud_add_ok in Hcr as [-> Hcr].
  step_in H y m2 Hs. eapply save_fees_spare in Hs; [|apply Hcr|done].
  replace (backing _ - backing _) with 0 in Hs by (unfold backing; simpl; lia).
  rewrite Z.add_0_r in Hs. eapply keeps_spare; [exact H| |exact Hs]. auto with perps.
Qed.

End Theory.
