(* ===== verification/LiquiditySystem.v ===== *)
(** * The liquidity system

    The entry point of the liquidity messages ([execute] in
    [contracts/market/src/contract.rs]) with the guard that holds them back
    during a reset, the calls other components make, and the runs of both.
    The main result: the books balance and stay backed in every reachable
    state. *)

From stdpp Require Import base option gmap strings list.
From Stdlib Require Import ZArith Lia.
From S2P Require Import Prelude Storage Cosmwasm Types Number Time Market Price Token DataSeries Config Position Trading State Pool LpHistory Liquidity LpToken Books LiquidityInv LpTokenInv Fees FeesInv.
Local Open Scope Z_scope.

(** The variants of the market's [ExecuteMsg], without their payloads. *)
Inductive ExecuteKind :=
| ExOwner | ExReceive | ExOpenPosition | ExAddCollateralImpactLeverage
| ExAddCollateralImpactSize | ExRemoveCollateralImpactLeverage | ExRemoveCollateralImpactSize
| ExUpdateLeverage | ExUpdateMaxGains | ExUpdateTakeProfitPrice | ExUpdateStopLossPrice
| ExSetTriggerOrder | ExClosePosition | ExDepositLiquidity | ExReinvestYield
| ExWithdrawLiquidity | ExClaimYield | ExStakeLp | ExUnstakeXlp | ExStopUnstakingXlp
| ExCollectUnstakedLp | ExCrank | ExNftProxy | ExLiquidityTokenProxy | ExTransferDaoFees
| ExCloseAllPositions | ExPlaceLimitOrder | ExCancelLimitOrder | ExProvideCrankFunds
| ExSetManualPrice | ExPerformDeferredExec.

Definition touches_liquidity (k : ExecuteKind) : bool :=
  match k with
  | ExOwner | ExCrank | ExProvideCrankFunds | ExSetManualPrice => false
  | _ => true
  end.

Inductive LiquidityMsg :=
| MsgDepositLiquidity (funds : Collateral) (stake_to_xlp : bool)
| MsgReinvestYield (stake_to_xlp : bool) (amount : option Collateral)
| MsgWithdrawLiquidity (lp_amount : option LpToken) (claim_yield : bool)
| MsgClaimYield
| MsgStakeLp (amount : option LpToken)
| MsgUnstakeXlp (amount : option LpToken)
| MsgStopUnstakingXlp
| MsgCollectUnstakedLp
| MsgTransferDaoFees
| MsgProvideCrankFunds (funds : Collateral)
(** from the proxy of a liquidity token, on behalf of the sender *)
| MsgLiquidityToken (kind : LiquidityTokenKind) (msg : LpTokenMsg).

Definition kind_of (msg : LiquidityMsg) : ExecuteKind :=
  match msg with
  | MsgDepositLiquidity _ _ => ExDepositLiquidity
  | MsgReinvestYield _ _ => ExReinvestYield
  | MsgWithdrawLiquidity _ _ => ExWithdrawLiquidity
  | MsgClaimYield => ExClaimYield
  | MsgStakeLp _ => ExStakeLp
  | MsgUnstakeXlp _ => ExUnstakeXlp
  | MsgStopUnstakingXlp => ExStopUnstakingXlp
  | MsgCollectUnstakedLp => ExCollectUnstakedLp
  | MsgTransferDaoFees => ExTransferDaoFees
  | MsgProvideCrankFunds _ => ExProvideCrankFunds
  | MsgLiquidityToken _ _ => ExLiquidityTokenProxy
  end.

(** What other components ask of liquidity and fees. *)
Inductive LiquidityCall :=
| CallLock (amount : Collateral) (price : PricePoint)
    (delta_notional net_notional_override : option Signed)
| CallUnlock (amount : Collateral) (price : PricePoint)
| CallUpdateLocked (amount : Signed) (price : PricePoint)
| CallTradingFee (pos_id : PositionId) (amount : Collateral) (price : PricePoint)
    (source : FeeSource) (owner : Addr)
| CallDeltaNeutralityFee (pos_id : PositionId) (amount : Collateral) (price : PricePoint)
| CallBorrowFee (pos_id : PositionId) (amount : LpAndXlp) (price : PricePoint)
| CallCapCrankFee (c : CapCrankFee)
| CallCrankReset
| CallAllocateCrankFees (addr : Addr) (cranks : Z)
| CallReturnFunds (addr : Addr) (amount : Collateral) (price : PricePoint).

Section Definitions.
Context {CW : CosmwasmStd}.
Context (st : State).

Definition ensure_not_resetting_lps (k : ExecuteKind) : mhandler unit :=
  resetting <~ hget should_reset_lp_balances;
  hensure (negb (touches_liquidity k && resetting))
    (AnyhowError "Protocol temporarily halted while we reset LP balances, please try again").

Definition liquidity_dispatch (sender : Addr) (msg : LiquidityMsg) : mhandler unit :=
  match msg with
  | MsgDepositLiquidity funds stake => liquidity_deposit st sender funds stake
  | MsgReinvestYield stake amount => reinvest_yield st sender amount stake
  | MsgWithdrawLiquidity lp_amount claim =>
      (if claim then liquidity_claim_yield st sender true;;; hret tt else hret tt);;;
      liquidity_withdraw st sender lp_amount
  | MsgClaimYield => liquidity_claim_yield st sender true;;; hret tt
  | MsgStakeLp amount => liquidity_stake_lp st sender amount
  | MsgUnstakeXlp amount => liquidity_unstake_xlp st sender amount
  | MsgStopUnstakingXlp => liquidity_stop_unstaking_xlp st sender true true;;; hret tt
  | MsgCollectUnstakedLp =>
      collected <~ collect_unstaked_lp st sender;
      hensure collected (AnyhowError "There is no unstaked LP")
  | MsgTransferDaoFees => transfer_fees_to_dao st
  | MsgProvideCrankFunds funds => provide_crank_funds funds
  | MsgLiquidityToken kind msg => liquidity_token_handle_exec st sender kind msg
  end.

Definition liquidity_execute (sender : Addr) (msg : LiquidityMsg) : mhandler unit :=
  ensure_not_resetting_lps (kind_of msg);;;
  liquidity_dispatch sender msg.

Definition liquidity_call (c : LiquidityCall) : mhandler unit :=
  match c with
  | CallLock amount price dn override =>
      l <~ hask (fun m => liquidity_lock_new st m amount price dn override None);
      liquidity_lock_apply st l
  | CallUnlock amount price =>
      l <~ hask (fun m => liquidity_unlock_new m amount price None);
      liquidity_unlock_apply st l
  | CallUpdateLocked amount price =>
      l <~ hask (fun m => liquidity_update_locked_new m amount price None);
      liquidity_update_locked_apply st l
  | CallTradingFee pos amount price source owner =>
      collect_trading_fee st pos amount price source owner
  | CallDeltaNeutralityFee pos amount price =>
      collect_delta_neutrality_fee_for_protocol st pos amount price
  | CallBorrowFee pos amount price =>
      c <~ hask (fun m => collect_borrow_fee st m pos amount price);
      borrow_fee_apply st c
  | CallCapCrankFee c => cap_crank_fee_apply st c
  | CallCrankReset => crank_reset_lp_balances
  | CallAllocateCrankFees addr cranks => allocate_crank_fees st addr cranks
  | CallReturnFunds addr amount price => return_funds_to_user st addr amount price
  end.

(** [NonZero] and sign facts of the argument types. *)
Definition msg_typed (msg : LiquidityMsg) : Prop :=
  match msg with
  | MsgDepositLiquidity funds _ => 0 < funds
  | MsgReinvestYield _ amount => nonzero_opt amount
  | MsgWithdrawLiquidity amount _ => nonzero_opt amount
  | MsgStakeLp amount => nonzero_opt amount
  | MsgUnstakeXlp amount => nonzero_opt amount
  | MsgProvideCrankFunds funds => 0 < funds
  | _ => True
  end.

Definition call_typed (c : LiquidityCall) : Prop :=
  match c with
  | CallLock amount _ _ _ => 0 < amount
  | CallUnlock amount _ => 0 < amount
  | CallUpdateLocked amount _ => signed_ok amount
  | CallTradingFee _ amount _ _ _ => 0 <= amount
  | CallReturnFunds _ amount _ => 0 < amount
  | _ => True
  end.

End Definitions.

(** The states of a market's liquidity and fee storage: the instantiated one,
    and what messages, calls and the rest of the contract make of it. *)
Inductive liquidity_reachable {CW : CosmwasmStd} : MarketCtx -> Prop :=
| reach_init m :
    m_liquidity m = liquidity_store_init -> ALL_FEES m = fees_init -> liquidity_reachable m
| reach_execute st sender msg m m' :
    msg_typed msg -> liquidity_reachable m ->
    liquidity_execute st sender msg m = Ok (tt, m') -> liquidity_reachable m'
| reach_call st c m m' :
    call_typed c -> 0 <= referral_reward_ratio (st_config st) -> liquidity_reachable m ->
    liquidity_call st c m = Ok (tt, m') -> liquidity_reachable m'
| reach_other m m' : same_books m m' -> liquidity_reachable m -> liquidity_reachable m'.

(** * Theory *)

Section Theory.
Context {CW : CosmwasmStd} {CWS : CosmwasmStdSpec CW}.

Lemma books_init m :
  m_liquidity m = liquidity_store_init -> ALL_FEES m = fees_init -> books_ok (books m).
Proof.
  intros Hl Hf. unfold books, liquidity_stats. rewrite Hl, Hf. split; [split|].
  - apply pool_ok_default.
  - done.
  - exists 0, (mkYieldPerToken 0 0). split_and!; [done|done|]. simpl.
    intros k e [<- <-]%lookup_singleton_Some. done.
  - intros a s H. simpl in H. by rewrite lookup_empty in H.
  - intros a s H. simpl in H. by rewrite lookup_empty in H.
  - simpl. rewrite map_sum_empty. done.
  - done.
  - left. split_and!; simpl; rewrite ?map_sum_empty; done.
Qed.

Lemma balanced_books m : balanced m -> books_ok (books m).
Proof. intros [? ?]. split; [done|by left]. Qed.

(** Outside a reset, the invariant is the balance. *)
Lemma ensure_not_resetting_balanced k m u m' :
  ensure_not_resetting_lps k m = Ok (u, m') ->
  m' = m /\ (touches_liquidity k = true -> books_ok (books m) -> balanced m).
Proof.
  unfold ensure_not_resetting_lps. intros H. step_in H r m1 Hr. get_in Hr.
  apply hensure_ok in H as [H ->]. split; [done|]. intros Hk [Hc [Ht|(s & Hs & _)]]; [done|].
  exfalso. rewrite Hk in H. change (RESET_LP_STATUS (m_liquidity m) = Some s) in Hs.
  unfold should_reset_lp_balances in H. by rewrite Hs in H.
Qed.

(** The collateral per token does not fall. *)
Definition rate_kept (s s' : LiquidityStats) : Prop :=
  collateral_of s * tokens_of s' <= collateral_of s' * tokens_of s.

Lemma rate_kept_same m m' : same_pool m m' -> rate_kept (liquidity_stats m) (liquidity_stats m').
Proof. unfold same_pool, rate_kept. intros [-> ->]. lia. Qed.
Lemma rate_kept_eq s s' : s' = s -> rate_kept s s'.
Proof. intros ->. unfold rate_kept. lia. Qed.

Lemma rate_kept_deposited s s' n :
  pool_ok s -> 0 < n -> deposited s s' n -> rate_kept s s'.
Proof.
  intros Hp Hn (sh & Hsh & _ & Hc & Ht). unfold rate_kept. rewrite Hc, Ht.
  apply collateral_to_lp_bound in Hsh as (_ & _ & Hle); [lia|done..].
Qed.

Lemma rate_kept_withdrawn s s' n r :
  pool_ok s -> withdrawn s s' n r -> rate_kept s s'.
Proof.
  intros Hp (Hr & Hn & Hu & Hcase). unfold rate_kept.
  apply lp_to_collateral_non_zero_bound in Hr as [Hr Hle]; [|done|lia].
  destruct Hcase as [->|[_ ->]]; unfold collateral_of, tokens_of in *; simpl; lia.
Qed.

Lemma dispatch_ok st sender msg m m' :
  liquidity_dispatch st sender msg m = Ok (tt, m') -> msg_typed msg ->
  touches_liquidity (kind_of msg) = true -> balanced m ->
  books_ok (books m') /\ rate_kept (liquidity_stats m) (liquidity_stats m').
Proof.
  intros H Ht Hk Hb. assert (pool_ok (liquidity_stats m)) as Hp by apply Hb.
  assert (books_spare (books m) 0) as Hs by (split; [apply Hb|left; apply Hb]).
  destruct msg as [f s|s a|a c| |a|a| | | |f|k msg]; simpl in H, Ht, Hk; try done.
  - destruct (deposit_balanced _ _ _ _ _ _ _ H Ht Hb) as [Hb' Hd].
    split; [by apply balanced_books|by eapply rate_kept_deposited].
  - destruct (reinvest_balanced _ _ _ _ _ _ _ H Ht Hb) as [Hb' (n & Hn & Hd)].
    split; [by apply balanced_books|by eapply rate_kept_deposited].
  - step_in H x m1 Hcl.
    assert (balanced m1 /\ liquidity_stats m1 = liquidity_stats m) as [Hb1 Hst].
    { destruct c; [|by inv_ok]. step_in Hcl y m2 Hy. apply hret_ok in Hcl as [_ ->].
      by destruct (claim_yield_balanced _ _ _ _ _ _ Hy Hb) as (? & _ & _ & ?). }
    destruct (withdraw_balanced _ _ _ _ _ _ H Ht Hb1) as [Hb' (n & r & Hw & _)].
    rewrite Hst in Hw. split; [by apply balanced_books|by eapply rate_kept_withdrawn].
  - step_in H y m1 Hy. apply hret_ok in H as [_ ->].
    destruct (claim_yield_balanced _ _ _ _ _ _ Hy Hb) as (Hb' & _ & _ & Hst).
    split; [by apply balanced_books|by apply rate_kept_eq].
  - destruct (stake_lp_balanced _ _ _ _ _ _ H Hb) as [Hb' Hsame].
    split; [by apply balanced_books|by apply rate_kept_same].
  - destruct (unstake_xlp_balanced _ _ _ _ _ _ H Ht Hb) as [Hb' Hsame].
    split; [by apply balanced_books|by apply rate_kept_same].
  - step_in H y m1 Hy. apply hret_ok in H as [_ ->].
    destruct (stop_unstaking_balanced _ _ _ _ _ _ Hy Hb) as [Hb' Hsame].
    split; [by apply balanced_books|by apply rate_kept_same].
  - step_in H y m1 Hy. apply hensure_ok in H as [_ ->].
    destruct (collect_unstaked_balanced _ _ _ _ _ Hy Hb) as [Hb' Hst].
    split; [by apply balanced_books|by apply rate_kept_eq].
  - split; [eapply (books_spare_ok _ 0); [eapply transfer_dao_spare; eauto|done]|].
    apply rate_kept_eq. unfold transfer_fees_to_dao, save_fees in H.
    step_in H f m1 Hf. get_in Hf. lift_in H n Hn. step_in H y m1 Hy. apply hmod_ok in Hy. subst m1.
    apply (keeps_books_books (dao <~ hlift (st_query_dao st); add_token_transfer_msg dao n)) in H;
      [|keeps]. by apply (f_equal b_stats) in H.
  - destruct (token_exec_ok _ _ _ _ _ _ _ H Hb) as (Hb' & Hst & _).
    split; [by apply balanced_books|by apply rate_kept_eq].
Qed.

(** Storing new pool totals with the same tokens, in any state. *)
Lemma save_pool_books_ok stats m u m' :
  save_liquidity_stats stats m = Ok (u, m') -> pool_ok stats ->
  total_lp stats = total_lp (liquidity_stats m) ->
  total_xlp stats = total_xlp (liquidity_stats m) ->
  books_ok (books m) -> books_ok (books m').
Proof.
  intros H Hp Hl Hx [Hc Ht].
  change (liquidity_stats m) with (b_stats (books m)) in *.
  apply save_stats_books in H as [(H0 & _ & ->)|[Hd ->]].
  - split; [by apply core_begin_reset|]. right. apply resetting_begin.
  - split; [by apply core_set_stats|]. destruct Ht as [Ht|(r & Hr & Hl0 & Hx0 & Hdone)].
    + left. eapply tokens_eq; [by apply tokens_set_stats|..]; lia.
    + right. exists r. split_and!; [done|simpl; congruence..|done].
Qed.

Lemma apply_pool_ok st stats price e m u m' :
  (save_liquidity_stats stats;;; add_pool_size_change_events st stats price;;; add_event st e) m
    = Ok (u, m') ->
  pool_ok stats -> total_lp stats = total_lp (liquidity_stats m) ->
  total_xlp stats = total_xlp (liquidity_stats m) ->
  books_ok (books m) -> books_ok (books m').
Proof.
  intros (u1 & m1 & H & ->)%apply_pool_events_books ? ? ? ?. by eapply save_pool_books_ok.
Qed.

Lemma call_books_ok st c m m' :
  liquidity_call st c m = Ok (tt, m') -> call_typed c ->
  0 <= referral_reward_ratio (st_config st) -> books_ok (books m) -> books_ok (books m').
Proof.
  intros H Ht Hratio Hb. assert (books_spare (books m) 0) as Hs by exact Hb.
  destruct c as [a p dn o|a p|a p|i a p s o|i a p|i a p|c| |a n|a x p]; simpl in H, Ht.
  - apply hbind_ok in H as (l & m1 & Hl & H). apply hask_ok in Hl as [Hl ->].
    destruct (lock_new_stats _ _ _ _ _ _ _ _ Hl) as (-> & Hp).
    unfold liquidity_lock_apply in H. eapply apply_pool_ok; [exact H|..]; try done.
    apply Hp; [apply Hb|done].
  - apply hbind_ok in H as (l & m1 & Hl & H). apply hask_ok in Hl as [Hl ->].
    destruct (unlock_new_stats _ _ _ _ _ Hl) as (-> & Hp).
    unfold liquidity_unlock_apply in H. eapply apply_pool_ok; [exact H|..]; try done.
    apply Hp; [apply Hb|done].
  - apply hbind_ok in H as (l & m1 & Hl & H). apply hask_ok in Hl as [Hl ->].
    destruct (update_locked_new_stats _ _ _ _ _ Hl Ht) as (-> & Hp); [apply Hb|].
    unfold liquidity_update_locked_apply in H. by eapply apply_pool_ok; [exact H|..].
  - eapply (books_spare_ok _ 0); [eapply collect_trading_fee_spare; eauto|done].
  - eapply (books_spare_ok _ 0); [eapply trading_fee_spare; eauto|done].
  - apply hbind_ok in H as (l & m1 & Hl & H). apply hask_ok in Hl as [Hl ->].
    eapply (books_spare_ok _ 0); [eapply borrow_fee_spare; eauto|done].
  - eapply (books_spare_ok _ 0); [eapply cap_crank_spare; eauto|done].
  - destruct Hb as [Hc [Htok|Hr]]; [|by eapply crank_reset_books].
    exfalso. destruct Htok as [Hnone _].
    change (RESET_LP_STATUS (m_liquidity m) = None) in Hnone.
    unfold crank_reset_lp_balances in H. apply hbind_ok in H as (r & m1 & Hr & _).
    apply hask_ok in Hr as [Hr _]. by rewrite Hnone in Hr.
  - eapply (books_spare_ok _ 0); [eapply allocate_crank_spare; eauto|done].
  - eapply (books_spare_ok _ 0); [eapply return_funds_spare; eauto; lia|done].
Qed.

(** Every reachable state satisfies the invariant. *)
Lemma execute_books_ok st sender msg m m' :
  liquidity_execute st sender msg m = Ok (tt, m') -> msg_typed msg -> books_ok (books m) ->
  books_ok (books m') /\
  (touches_liquidity (kind_of msg) = true ->
   rate_kept (liquidity_stats m) (liquidity_stats m')).
Proof.
  unfold liquidity_execute. intros H Ht Hb. step_in H x m1 Hens.
  apply ensure_not_resetting_balanced in Hens as [-> Hbal].
  destruct (touches_liquidity (kind_of msg)) eqn:Ek.
  - destruct (dispatch_ok _ _ _ _ _ H Ht Ek (Hbal eq_refl Hb)). by split.
  - split; [|done]. destruct msg; try discriminate Ek. simpl in H.
    eapply (books_spare_ok _ 0); [eapply provide_crank_spare; eauto|done].
Qed.

Lemma reachable_books_ok m : liquidity_reachable m -> books_ok (books m).
Proof.
  induction 1 as [m Hl Hf|st a msg m m' Ht _ IH H|st c m m' Ht Hr _ IH H|m m' Hs _ IH].
  - by apply books_init.
  - by destruct (execute_books_ok _ _ _ _ _ H Ht IH).
  - by eapply call_books_ok.
  - by rewrite (same_books_books _ _ Hs).
Qed.

(** ** Claims *)

Lemma growth_nonneg b dc s :
  core b dc -> addr_ok (b_yields b) s -> 0 <= lp_weight s /\ 0 <= growth (b_yields b) s.
Proof.
  intros Hc [Hlp Hxlp _ _ _ _ Hu [v Hv]]. destruct (core_yields _ _ Hc) as (k & e & He & _ & Hm).
  assert (0 <= lp_weight s) as Hw.
  { unfold lp_weight, pending_xlp. destruct (unstaking s) as [u|]; [|lia].
    destruct (Hu u eq_refl). lia. }
  split; [done|]. unfold growth. rewrite He, Hv. destruct (Hm _ _ Hv). unfold is_dec in *. nia.
Qed.

Lemma claim_nonneg b dc s :
  core b dc -> addr_ok (b_yields b) s -> 0 <= claim (b_yields b) s.
Proof.
  intros Hc Hok. destruct (growth_nonneg _ _ _ Hc Hok) as [_ Hg]. destruct Hok.
  unfold claim, accrued_total. pose proof DEC_ONE_pos.
  assert (0 <= (lp_accrued_yield s + xlp_accrued_yield s + crank_rewards s + referrer_rewards s)
    * DEC_ONE) by (apply Z.mul_nonneg_nonneg; lia). lia.
Qed.

(** What [lp_info] offers as yield is what the provider is owed, and so within
    the provider's claim. *)
Lemma lp_info_owed st m a i s :
  lp_info st m a = Ok i -> b_addrs (books m) !! a = Some s ->
  info_available_yield i = owed (b_yields (books m)) s.
Proof.
  unfold lp_info. intros H Hs.
  change (liquidity_stats_addr_may m a) with (b_addrs (books m) !! a) in H. rewrite Hs in H.
  apply rbind_ok in H as (s0 & [= <-] & H). apply rbind_ok in H as (cd & _ & H).
  apply rbind_ok in H as (acc & Hacc & H). rewrite <- (calculate_accrued_owed _ _ _ Hacc).
  apply rbind_ok in H as (yl & [-> _]%ud_add_ok & H).
  apply rbind_ok in H as (yx & [-> _]%ud_add_ok & H).
  apply rbind_ok in H as (ya & [-> _]%ud_add_ok & H).
  apply rbind_ok in H as (yb & [-> _]%ud_add_ok & H).
  apply rbind_ok in H as (yc & [-> _]%ud_add_ok & H).
  apply rbind_ok in H as ([[l x] un] & _ & H). apply rbind_ok in H as (c & _ & H).
  assert (forall A B (p : A * B * option UnstakingStatus) (k : A -> B -> option UnstakingStatus -> res LpInfoResp) y,
    (let '(l, x, u) := p in k l x u) = Ok i ->
    (forall l x u, k l x u = Ok i -> info_available_yield i = y) -> info_available_yield i = y)
    as Hlet by (intros A B [[? ?] ?] k y Hk Hall; by eapply Hall).
  apply (Hlet _ _ _ _ (lp_accrued_yield s + la_lp (match acc with
    | None => mkLpAndXlp 0 0 | Some x => x.2 end) + (xlp_accrued_yield s + la_xlp (match acc with
    | None => mkLpAndXlp 0 0 | Some x => x.2 end)) + crank_rewards s + referrer_rewards s)) in H;
    [|intros l' x' u' Hk; apply rbind_ok in Hk as (? & _ & Hk);
      apply rbind_ok in Hk as (? & _ & Hk); injection Hk as <-; reflexivity].
  rewrite H. unfold accrued_total. destruct acc as [[k acc]|]; cbn [snd la_lp la_xlp]; lia.
Qed.

Lemma lp_info_claim st m a i s :
  lp_info st m a = Ok i -> b_addrs (books m) !! a = Some s ->
  info_available_yield i * DEC_ONE <= claim (b_yields (books m)) s.
Proof. intros H Hs. rewrite (lp_info_owed _ _ _ _ _ H Hs). apply owed_claim. Qed.

(** An address without stats has no yield. *)
Lemma lp_info_absent st m a i :
  lp_info st m a = Ok i -> b_addrs (books m) !! a = None -> info_available_yield i = 0.
Proof.
  unfold lp_info, stats_by_addr_new. intros H Hs.
  change (liquidity_stats_addr_may m a) with (b_addrs (books m) !! a) in H. rewrite Hs in H.
  apply rbind_ok in H as (s0 & Hs0 & H). apply rbind_ok in Hs0 as ([k e] & Hk & [= <-]).
  apply rbind_ok in H as (cd & _ & H). apply rbind_ok in H as (acc & Hacc & H).
  assert (acc = None) as ->.
  { unfold calculate_accrued_yield in Hacc. rewrite Hk in Hacc. simpl in Hacc.
    rewrite Z.eqb_refl in Hacc. by injection Hacc. }
  apply rbind_ok in H as (yl & [-> _]%ud_add_ok & H).
  apply rbind_ok in H as (yx & [-> _]%ud_add_ok & H).
  apply rbind_ok in H as (ya & [-> _]%ud_add_ok & H).
  apply rbind_ok in H as (yb & [-> _]%ud_add_ok & H).
  apply rbind_ok in H as (yc & [-> _]%ud_add_ok & H). simpl in H.
  apply rbind_ok in H as (c & _ & H). destruct (ud_is_zero c);
    apply rbind_ok in H as (? & _ & H); apply rbind_ok in H as (? & _ & H);
    injection H as <-; reflexivity.
Qed.

(** ** Properties *)

(** C4: in every state a market's liquidity and fee storage can reach, through
    provider messages, calls from the trading components and anything else the
    contract does, the books balance.  Outside a reset the provider balances
    (xLP that is being unstaked counting as LP) add up to the pool totals; a
    pool without collateral has no tokens; and the exact claims of all
    providers, recorded and still to be accrued, are covered by the wallet and
    referral funds. *)
Theorem liquidity_books_invariant (m : MarketCtx) :
  liquidity_reachable m ->
  let stats := liquidity_stats m in
  let addrs := LIQUIDITY_STATS_BY_ADDR (m_liquidity m) in
  (RESET_LP_STATUS (m_liquidity m) = None ->
    map_sum lp_weight addrs = total_lp stats /\ map_sum xlp addrs = total_xlp stats) /\
  (locked stats + unlocked stats = 0 -> total_lp stats + total_xlp stats = 0) /\
  map_sum (claim (YIELD_PER_TIME_PER_TOKEN (m_liquidity m))) addrs
    <= (fees_wallets (ALL_FEES m) + fees_referral (ALL_FEES m)) * DEC_ONE /\
  (forall addr s u, addrs !! addr = Some s -> unstaking s = Some u -> unstaking_ok u).
Proof.
  intros Hm. apply reachable_books_ok in Hm as [Hc Ht]. simpl. split_and!.
  - intros Hr. destruct Ht as [(_ & Hl & Hx)|(r & Hr' & _)].
    + simpl in Hl, Hx. unfold liquidity_stats in *. lia.
    + simpl in Hr'. congruence.
  - apply (core_drained _ _ Hc).
  - pose proof (core_backed _ _ Hc) as H. simpl in H. unfold backing in H. lia.
  - intros a s u Hs Hu. apply (addr_unstaking _ _ (core_addrs _ _ Hc a s Hs) u Hu).
Qed.

(** C5: no provider message dilutes the others: whatever a provider deposits,
    reinvests, withdraws, stakes, unstakes, collects or claims, the collateral
    behind each liquidity token of the pool never falls. *)
Theorem provider_messages_keep_rate (st : State) (sender : Addr) (msg : LiquidityMsg)
    (m m' : MarketCtx) :
  liquidity_reachable m -> msg_typed msg ->
  liquidity_execute st sender msg m = Ok (tt, m') ->
  touches_liquidity (kind_of msg) = true ->
  let s := liquidity_stats m in let s' := liquidity_stats m' in
  (locked s + unlocked s) * (total_lp s' + total_xlp s')
    <= (locked s' + unlocked s') * (total_lp s + total_xlp s).
Proof.
  intros Hm Ht H Hk. apply reachable_books_ok in Hm.
  destruct (execute_books_ok _ _ _ _ _ H Ht Hm) as [_ Hr]. by apply Hr.
Qed.

(** C6: the yield a provider is shown is backed: it is at most what the wallet
    and referral funds hold together. *)
Theorem provider_yield_backed (st : State) (m : MarketCtx) (a : Addr) (i : LpInfoResp) :
  liquidity_reachable m -> lp_info st m a = Ok i ->
  info_available_yield i <= fees_wallets (ALL_FEES m) + fees_referral (ALL_FEES m).
Proof.
  intros Hm Hi. apply reachable_books_ok in Hm as Hb. pose proof DEC_ONE_pos as H1.
  destruct (b_addrs (books m) !! a) as [s|] eqn:Hs.
  - pose proof (lp_info_claim _ _ _ _ _ Hi Hs) as Hle. destruct Hb as [Hc _].
    pose proof (map_sum_ge (claim (b_yields (books m))) _ _ _
      (fun j y Hj => claim_nonneg _ _ y Hc (core_addrs _ _ Hc j y Hj)) Hs) as Hge.
    pose proof (core_backed _ _ Hc) as Hcov. simpl in Hcov. unfold backing in Hcov.
    simpl in Hge, Hle. apply (Z.mul_le_mono_pos_r _ _ DEC_ONE); [done|]. lia.
  - rewrite (lp_info_absent st m a i Hi Hs). destruct Hb as [Hc _].
    pose proof (map_sum_nonneg (claim (b_yields (books m))) (b_addrs (books m))
      (fun j y Hj => claim_nonneg _ _ y Hc (core_addrs _ _ Hc j y Hj))) as Hge.
    pose proof (core_backed _ _ Hc) as Hcov. simpl in Hcov, Hge. unfold backing in Hcov.
    apply (Z.mul_le_mono_pos_r _ _ DEC_ONE); [done|]. lia.
Qed.

(** C8: unstaking is linear.  What a provider can collect never exceeds the part
    of the unstaking period that has elapsed, never more than was unstaked in
    total, and is everything once the period is over. *)
Theorem unstaking_vests_linearly (st : State) (m : MarketCtx) (a : Addr)
    (s : LiquidityStatsByAddr) (u : UnstakingXlp) (v : LpToken) :
  liquidity_reachable m -> liquidity_stats_addr_may m a = Some s -> unstaking s = Some u ->
  calculate_unstaked_lp st u = Ok v ->
  0 <= v /\ collected u + v <= xlp_amount u /\
  (unstake_started u + unstake_duration u <= st_now st -> collected u + v = xlp_amount u) /\
  (st_now st < unstake_started u + unstake_duration u ->
    (collected u + v) * unstake_duration u <= xlp_amount u * (st_now st - unstake_started u)).
Proof.
  intros Hm Hs Hu Hv. apply reachable_books_ok in Hm as [Hc _].
  destruct (calculate_unstaked_ok st u v) as (? & ? & ? & Hp); [|done|].
  - apply (addr_unstaking _ _ (core_addrs _ _ Hc a s Hs) u Hu).
  - split_and!; try done. intros Hlt. by destruct (Hp Hlt).
Qed.

End Theory.

(** * A concrete run, and what it shows of referrals

    Alice provides 100, a trader referred by Carol pays a fee of 10, and Carol
    claims her reward. *)

Definition sample_state (now : Timestamp) : State :=
  mkState now sample_config (market_id_new "ATOM" "USDC" CollateralIsQuote)
    (TokenNative "uusdc" 6)
    (fun a => Ok (if String.eqb a "trader" then Some "carol"%string else None))
    (Ok "dao"%string) 7 "market" (fun _ _ _ => 0) 0
    (mkOracleQuerier (fun _ _ => Err StdError) (fun _ _ _ _ => Err StdError)
       (fun _ _ => Err StdError) (fun asset => asset) (fun _ => Err StdError)
       (fun _ => Err StdError))
    (mkFactoryQuerier (Ok "owner"%string) (Ok "winddown"%string) (fun _ => Ok false)
       (Ok "positions"%string)
       (fun kind => Ok (match kind with KindLp => "lp" | KindXlp => "xlp" end)%string)).

Definition sample_price : PriceStorage :=
  mkPriceStorage (7 * DEC_ONE) DEC_ONE (7 * DEC_ONE) None None None.

Definition sample_funding : FundingStore :=
  mkFundingStore {[ 0 := mkDataPoint NUMBER_ZERO (mkSigned (DEC_ONE / 10) false) ]}
    {[ 0 := mkDataPoint NUMBER_ZERO NUMBER_ZERO ]} ∅ ∅ NUMBER_ZERO 0.

Definition sample_market : MarketCtx :=
  mkMarketCtx {[ 0 := sample_price ]} None 0 0 liquidity_store_init fees_init sample_funding None
    (mkHistoryStore ∅ ∅ ∅) (mkPositionStore ∅ 0 ∅ ∅ ∅ ∅ ∅) (mkNftStore ∅ ∅ None ∅ ∅) (mkLpTokenStore ∅ ∅ ∅ ∅)
    (mkTradeStore ∅ ∅ ∅) (mkOrderStore None ∅ ∅ ∅ ∅ ∅) (mkDeferredStore None ∅ ∅ ∅ ∅ ∅ ∅)
    (mkCrankStore (Some 0) None None) ∅ [] [].

Definition ctx_after (r : res (unit * MarketCtx)) : MarketCtx :=
  match r with Ok (_, m) => m | Err _ => sample_market end.

Definition sample_deposited : MarketCtx :=
  ctx_after (liquidity_execute (CW:=cosmwasm_ref) (sample_state 1000) "alice"
    (MsgDepositLiquidity (100 * DEC_ONE) false) sample_market).
Definition sample_fee_paid : MarketCtx :=
  ctx_after (liquidity_call (CW:=cosmwasm_ref) (sample_state 2000)
    (CallTradingFee 1 (10 * DEC_ONE)
      (make_price_point (sample_state 2000) 0 sample_price) FeeTrading "trader")
    sample_deposited).
Definition sample_referrer_claimed : MarketCtx :=
  ctx_after (liquidity_execute (CW:=cosmwasm_ref) (sample_state 3000) "carol" MsgClaimYield
    sample_fee_paid).

Lemma ctx_after_ok r : is_ok r = true -> r = Ok (tt, ctx_after r).
Proof. destruct r as [[[] m]|e]; done. Qed.

Lemma sample_deposited_reachable : liquidity_reachable (CW:=cosmwasm_ref) sample_deposited.
Proof.
  eapply (reach_execute (CW:=cosmwasm_ref) (sample_state 1000) "alice"
    (MsgDepositLiquidity (100 * DEC_ONE) false) sample_market); [done|by apply reach_init|].
  apply ctx_after_ok. vm_compute. reflexivity.
Qed.

Lemma sample_fee_paid_reachable : liquidity_reachable (CW:=cosmwasm_ref) sample_fee_paid.
Proof.
  eapply (reach_call (CW:=cosmwasm_ref) (sample_state 2000)
    (CallTradingFee 1 (10 * DEC_ONE)
      (make_price_point (sample_state 2000) 0 sample_price) FeeTrading "trader") sample_deposited);
    [done|done|apply sample_deposited_reachable|].
  apply ctx_after_ok. vm_compute. reflexivity.
Qed.

Lemma sample_referrer_claimed_reachable :
  liquidity_reachable (CW:=cosmwasm_ref) sample_referrer_claimed.
Proof.
  eapply (reach_execute (CW:=cosmwasm_ref) (sample_state 3000) "carol" MsgClaimYield
    sample_fee_paid); [done|apply sample_fee_paid_reachable|].
  apply ctx_after_ok. vm_compute. reflexivity.
Qed.

(** C9: a reachable state in which a provider cannot claim the yield [lp_info]
    shows her.  Referral rewards are set aside in [Fees::referral] but paid out
    of [Fees::wallets]: once a referrer has claimed, the wallets fund is short
    of what the providers are owed and the subtraction fails, although the two
    funds together cover everybody. *)
Theorem referrer_claim_starves_provider :
  exists m : MarketCtx,
    liquidity_reachable (CW:=cosmwasm_ref) m /\
    (exists i, lp_info (CW:=cosmwasm_ref) (sample_state 4000) m "alice" = Ok i /\
       fees_wallets (ALL_FEES m) < info_available_yield i
         <= fees_wallets (ALL_FEES m) + fees_referral (ALL_FEES m)) /\
    liquidity_execute (CW:=cosmwasm_ref) (sample_state 4000) "alice" MsgClaimYield m
      = Err StdError.
Proof.
  exists sample_referrer_claimed. split; [exact sample_referrer_claimed_reachable|]. split.
  - destruct (is_ok_Ok (lp_info (CW:=cosmwasm_ref) (sample_state 4000) sample_referrer_claimed
      "alice")) as [i Hi]; [vm_compute; reflexivity|].
    exists i. split; [exact Hi|].
    assert (match lp_info (CW:=cosmwasm_ref) (sample_state 4000) sample_referrer_claimed "alice"
      with Ok i => info_available_yield i | Err _ => 0 end = 6650000000000000000) as Hv
      by (vm_compute; reflexivity).
    rewrite Hi in Hv. rewrite Hv. vm_compute. repeat split; congruence.
  - vm_compute. reflexivity.
Qed.

(** ** Witnesses *)

Lemma liquidity_books_invariant_witness :
  map_sum lp_weight (LIQUIDITY_STATS_BY_ADDR (m_liquidity sample_fee_paid)) = 100 * DEC_ONE.
Proof.
  destruct (liquidity_books_invariant (CW:=cosmwasm_ref) (CWS:=cosmwasm_ref_spec) sample_fee_paid
    sample_fee_paid_reachable) as (H & _).
  destruct H as [H _]; [vm_compute; reflexivity|].
  rewrite H. vm_compute. reflexivity.
Defined.

Lemma provider_messages_keep_rate_witness :
  exists m', liquidity_execute (CW:=cosmwasm_ref) (sample_state 5000000000000) "alice"
    (MsgWithdrawLiquidity (Some (30 * DEC_ONE)) true) sample_fee_paid = Ok (tt, m') /\
  let s := liquidity_stats sample_fee_paid in let s' := liquidity_stats m' in
  (locked s + unlocked s) * (total_lp s' + total_xlp s')
    <= (locked s' + unlocked s') * (total_lp s + total_xlp s).
Proof.
  destruct (is_ok_Ok (liquidity_execute (CW:=cosmwasm_ref) (sample_state 5000000000000) "alice"
    (MsgWithdrawLiquidity (Some (30 * DEC_ONE)) true) sample_fee_paid)) as [[[] m'] Hm];
    [vm_compute; reflexivity|].
  exists m'. split; [exact Hm|].
  apply (provider_messages_keep_rate (CW:=cosmwasm_ref) (CWS:=cosmwasm_ref_spec)
    (sample_state 5000000000000) "alice" (MsgWithdrawLiquidity (Some (30 * DEC_ONE)) true)
    sample_fee_paid m' sample_fee_paid_reachable); [|exact Hm|reflexivity].
  intros k Hk. injection Hk as Hk. rewrite <- Hk. vm_compute. reflexivity.
Defined.

Lemma provider_yield_backed_witness :
  exists i, lp_info (CW:=cosmwasm_ref) (sample_state 4000) sample_fee_paid "alice" = Ok i /\
    info_available_yield i <= 7150000000000000000.
Proof.
  destruct (is_ok_Ok (lp_info (CW:=cosmwasm_ref) (sample_state 4000) sample_fee_paid "alice"))
    as [i Hi]; [vm_compute; reflexivity|].
  exists i. split; [exact Hi|].
  apply (provider_yield_backed (CW:=cosmwasm_ref) (CWS:=cosmwasm_ref_spec) (sample_state 4000)
    sample_fee_paid "alice" i sample_fee_paid_reachable Hi).
Defined.

(** Alice stakes, then unstakes 45 of her tokens; nine days later. *)
Definition sample_staked : MarketCtx :=
  ctx_after (liquidity_execute (CW:=cosmwasm_ref) (sample_state 3000) "alice"
    (MsgStakeLp None) sample_fee_paid).
Definition sample_unstaking : MarketCtx :=
  ctx_after (liquidity_execute (CW:=cosmwasm_ref) (sample_state 3000) "alice"
    (MsgUnstakeXlp (Some (45 * DEC_ONE))) sample_staked).

Lemma sample_unstaking_reachable : liquidity_reachable (CW:=cosmwasm_ref) sample_unstaking.
Proof.
  eapply (reach_execute (CW:=cosmwasm_ref) (sample_state 3000) "alice"
    (MsgUnstakeXlp (Some (45 * DEC_ONE))) sample_staked).
  - intros k Hk. injection Hk as Hk. rewrite <- Hk. vm_compute. reflexivity.
  - eapply (reach_execute (CW:=cosmwasm_ref) (sample_state 3000) "alice" (MsgStakeLp None)
      sample_fee_paid); [|apply sample_fee_paid_reachable|].
    + intros k Hk. discriminate Hk.
    + apply ctx_after_ok. vm_compute. reflexivity.
  - apply ctx_after_ok. vm_compute. reflexivity.
Qed.

Lemma unstaking_vests_linearly_witness :
  exists s u, liquidity_stats_addr_may sample_unstaking "alice" = Some s /\
    unstaking s = Some u /\
    calculate_unstaked_lp (CW:=cosmwasm_ref) (sample_state (3000 + 9 * 86400 * 1000000000)) u
      = Ok (9 * DEC_ONE) /\
    collected u + 9 * DEC_ONE <= xlp_amount u.
Proof.
  eexists _, (mkUnstakingXlp (45 * DEC_ONE) 0 3000 (45 * 86400 * 1000000000) 3000).
  split; [vm_compute; reflexivity|]. split; [vm_compute; reflexivity|].
  split; [vm_compute; reflexivity|].
  eapply (unstaking_vests_linearly (CW:=cosmwasm_ref) (CWS:=cosmwasm_ref_spec)
    (sample_state (3000 + 9 * 86400 * 1000000000)) sample_unstaking "alice"
    _ (mkUnstakingXlp (45 * DEC_ONE) 0 3000 (45 * 86400 * 1000000000) 3000)
    (9 * DEC_ONE) sample_unstaking_reachable); vm_compute; reflexivity.
Defined.
