(* ===== verification/LpTokenSpec.v ===== *)
(** * The contract of the LP and xLP tokens

    What a CW20 user of the two liquidity tokens may rely on, in every
    reachable state of the market, with a transfer of vested LP as the
    example. *)

From stdpp Require Import base option gmap strings list.
From Stdlib Require Import ZArith Lia.
From S2P Require Import Cw20.
From S2P Require Import Prelude Storage Cosmwasm Types Number Time Market Price Token DataSeries Config Position Trading State Pool LpHistory Liquidity LpToken Books LiquidityInv LpTokenInv Fees FeesInv LiquiditySystem.
Local Open Scope Z_scope.

Section Properties.
Context {CW : CosmwasmStd} {CWS : CosmwasmStdSpec CW}.

(** A message of a liquidity token proxy that succeeds in a reachable
    state leaves the pool's totals as they were.  A transfer lowers the
    balance the token reports for the owner and raises the recipient's by
    exactly the amount, LP that vested and was not collected included, and no
    other balance of either token changes; moving someone else's tokens takes
    an unexpired allowance of at least the amount and lowers it by the
    amount. *)
Theorem lp_token_transfer_exact (st : State) (sender : Addr) (k : LiquidityTokenKind)
    (msg : LpTokenMsg) (m m' : MarketCtx) :
  liquidity_reachable m ->
  liquidity_execute st sender (MsgLiquidityToken k msg) m = Ok (tt, m') ->
  liquidity_stats m' = liquidity_stats m /\
  forall k' c b b',
    liquidity_token_balance st m c k' = Ok b -> liquidity_token_balance st m' c k' = Ok b' ->
    match token_transfer sender msg with
    | Ok (Some (o, r, n)) =>
        b' = b + (if decide (k' = k /\ c = r) then n else 0)
               - (if decide (k' = k /\ c = o) then n else 0) /\
        (is_spend msg = true -> allowance_spent st k o sender n m m')
    | _ => b' = b
    end.
Proof.
  intros Hr%reachable_books_ok H. unfold liquidity_execute in H. step_in H x m1 Hens.
  apply ensure_not_resetting_balanced in Hens as [-> Hb]. specialize (Hb eq_refl Hr).
  destruct (token_exec_ok _ _ _ _ _ _ _ H Hb) as (Hb' & Hs & He).
  split; [done|]. intros k' c b b' ->%balance_ok ->%balance_ok; [|done..].
  unfold token_effect in He. destruct (token_transfer sender msg) as [[[[o r] n]|]|] eqn:Et;
    [|by rewrite He..].
  split; [|intros Hsp; by eapply spend_exec_ok].
  rewrite (He k' c). replace (if decide (k' = k /\ c = r) then n * lp_unit else 0)
    with ((if decide (k' = k /\ c = r) then n else 0) * lp_unit) by (case_decide; lia).
  replace (if decide (k' = k /\ c = o) then n * lp_unit else 0)
    with ((if decide (k' = k /\ c = o) then n else 0) * lp_unit) by (case_decide; lia).
  rewrite <- Z.add_sub_assoc, <- Z.mul_sub_distr_r, Z.div_add by done. lia.
Qed.
End Properties.

(** Nine days into the unstaking of [sample_unstaking], Alice sends 4 of the 9
    LP that vested to Bob. *)
Definition sample_token_state : State := sample_state (3000 + 9 * 86400 * 1000000000).
Definition sample_token_sent : MarketCtx :=
  ctx_after (liquidity_execute (CW:=cosmwasm_ref) sample_token_state "alice"
    (MsgLiquidityToken KindLp (LtTransfer "bob" 4000000)) sample_unstaking).

Lemma lp_token_transfer_exact_witness :
  liquidity_token_balance (CW:=cosmwasm_ref) sample_token_state sample_unstaking "alice" KindLp
    = Ok 9000000 /\
  forall b', liquidity_token_balance (CW:=cosmwasm_ref) sample_token_state sample_token_sent
    "alice" KindLp = Ok b' -> b' = 5000000.
Proof.
  assert (liquidity_token_balance (CW:=cosmwasm_ref) sample_token_state sample_unstaking "alice" KindLp
    = Ok 9000000) as Hbal by (vm_compute; reflexivity).
  split; [exact Hbal|]. intros b' Hb'.
  destruct (lp_token_transfer_exact (CW:=cosmwasm_ref) (CWS:=cosmwasm_ref_spec) sample_token_state
    "alice" KindLp (LtTransfer "bob" 4000000) sample_unstaking sample_token_sent
    sample_unstaking_reachable) as [_ H].
  - apply ctx_after_ok. vm_compute. reflexivity.
  - destruct (H KindLp "alice"%string _ b' Hbal Hb') as [-> _]. vm_compute. reflexivity.
Defined.
