(* ===== verification/LiquidityReset.v ===== *)
(** * The reset of a drained pool

    Once the pool's collateral is gone, its LP and xLP tokens are worthless and
    the crank clears the balances, one provider per work item
    ([crank_reset_lp_balances] in [contracts/market/src/state/liquidity/stats.rs],
    run by [crank_exec_batch] in [contracts/market/src/state/crank.rs]).  Until
    that is over every liquidity message is refused, so the theorem here is that
    it ends: no step fails, each one finishes a provider, and what the providers
    were owed stays recorded. *)

From stdpp Require Import base option gmap strings list sorting.
From Stdlib Require Import ZArith Lia.
From S2P Require Import Prelude Storage Cosmwasm Types Number Time Market Price Token DataSeries Config Position State Pool LpHistory Liquidity Books LiquidityInv Fees FeesInv LiquiditySystem.
Local Open Scope Z_scope.

(** The crank's loop, as far as it has [ResetLpBalances] items. *)
Fixpoint crank_resets {CW : CosmwasmStd} (n : nat) : mhandler unit :=
  match n with
  | O => hret tt
  | S n =>
      resetting <~ hget should_reset_lp_balances;
      if resetting : bool then crank_reset_lp_balances;;; crank_resets n else hret tt
  end.

(** * Theory *)

(** What is stored fits its type, and so do the funds together. *)
Record numbers_fit (b : Books) : Prop := {
  fit_backing : b_backing b <= U256_MAX;
  fit_yields : forall k e, b_yields b !! k = Some e -> is_dec (y_lp e) /\ is_dec (y_xlp e);
  fit_weights : forall a s, b_addrs b !! a = Some s -> lp_weight s <= U256_MAX;
}.

(** ** Progress through the providers *)

Lemma string_compare_refl x : String.compare x x = Eq.
Proof.
  induction x as [|c x IH]; [done|]. simpl. unfold Ascii.compare. by rewrite N.compare_refl.
Qed.

Lemma str_after_trans start a k :
  str_after start a = true -> str_after (Some a) k = true -> str_after start k = true /\ k <> a.
Proof.
  assert (forall x, String.ltb x x = false) as Hirr.
  { intros x. unfold String.ltb. by rewrite string_compare_refl. }
  assert (forall x y, String.ltb x y = true -> str_le x y) as Hle.
  { intros x y. unfold String.ltb, str_le, String.leb. by destruct (String.compare x y). }
  simpl. intros Ha Hk. split.
  - destruct start as [s|]; [|done]. simpl in *.
    pose proof (str_le_trans _ _ _ (Hle _ _ Ha) (Hle _ _ Hk)) as H. revert H.
    unfold str_le, String.leb, String.ltb. destruct (String.compare s k) eqn:E; [|done|done].
    apply String.compare_eq_iff in E. subst k. intros _.
    assert (a = s) as -> by (apply str_le_antisymm; by apply Hle). by rewrite Hirr in Ha.
  - intros ->. by rewrite Hirr in Hk.
Qed.

Lemma keys_after_next {V} start (m m' : gmap string V) a rest :
  keys_after start m = a :: rest -> (forall k, k <> a -> m' !! k = m !! k) ->
  (length (keys_after (Some a) m') <= length rest)%nat.
Proof.
  intros H Hm. destruct (keys_after_head _ _ _ _ H) as (_ & Ha & _).
  destruct (keys_after_spec start m) as (_ & Hn & Hin). rewrite H in Hin, Hn.
  destruct (keys_after_spec (Some a) m') as (_ & Hn' & Hin').
  apply submseteq_length, NoDup_submseteq; [done|]. intros k Hk.
  apply Hin' in Hk as [Hk Hs]. destruct (str_after_trans _ _ _ Ha Hs) as [Hsk Hne].
  rewrite Hm in Hk by done. assert (k ∈ a :: rest) as Hk' by (by apply Hin).
  apply elem_of_cons in Hk' as [?|?]; [done|done].
Qed.

Lemma keys_after_size {V} start (m : gmap string V) : (length (keys_after start m) <= size m)%nat.
Proof.
  unfold keys_after. rewrite (Permutation_length (merge_sort_Permutation _ _)).
  etrans; [apply length_filter|]. by rewrite length_map, length_map_to_list.
Qed.

(** ** One step *)

Section Theory.
Context {CW : CosmwasmStd} {CWS : CosmwasmStdSpec CW}.

Lemma owed_bounds b s :
  core b 0 -> (exists a, b_addrs b !! a = Some s) -> accrued_total s <= owed (b_yields b) s <= b_backing b.
Proof.
  intros Hc [a Hs]. pose proof (core_addrs _ _ Hc a s Hs) as Hok. split.
  - destruct (core_yields _ _ Hc) as (k & e & He & _ & Hm). unfold owed. rewrite He.
    destruct (addr_key _ _ Hok) as [v Hv]. rewrite Hv. destruct (Hm _ _ Hv).
    destruct (growth_nonneg _ _ _ Hc Hok) as [Hw _]. destruct Hok as [_ [Hx _] _ _ _ _ _ _].
    pose proof (Z.div_pos ((y_lp e - y_lp v) * lp_weight s) DEC_ONE ltac:(nia) DEC_ONE_pos).
    pose proof (Z.div_pos ((y_xlp e - y_xlp v) * xlp s) DEC_ONE ltac:(nia) DEC_ONE_pos). lia.
  - apply (Z.mul_le_mono_pos_r _ _ DEC_ONE); [apply DEC_ONE_pos|].
    pose proof (owed_claim (b_yields b) s). pose proof (core_backed _ _ Hc).
    pose proof (map_sum_ge (claim (b_yields b)) _ _ _
      (fun j y Hj => claim_nonneg _ _ y Hc (core_addrs _ _ Hc j y Hj)) Hs). simpl in *. lia.
Qed.

Lemma lp_reward_runs y s :
  addr_ok y s -> lp_weight s <= U256_MAX -> lp_reward_amount s = Ok (lp_weight s).
Proof.
  intros [Hl _ _ _ _ _ Hu _] Hw. unfold lp_reward_amount. unfold lp_weight, pending_xlp in *.
  destruct (unstaking s) as [u|]; [|by rewrite Z.add_0_r].
  destruct (Hu u eq_refl) as [[? ?] ? _ _ _].
  apply rbind_ok. eexists. split; apply ud_add_ok || apply ud_sub_ok; split; try done;
    unfold is_dec in *; lia.
Qed.

Lemma calculate_accrued_runs m a s :
  core (books m) 0 -> numbers_fit (books m) -> b_addrs (books m) !! a = Some s ->
  exists o, calculate_accrued_yield m s = Ok o.
Proof.
  intros Hc Hf Hs. pose proof (core_addrs _ _ Hc a s Hs) as Hok.
  pose proof (owed_bounds _ _ Hc (ex_intro _ a Hs)) as [_ Hle].
  destruct (growth_nonneg _ _ _ Hc Hok) as [Hw _].
  pose proof (fit_backing _ Hf) as Hb. pose proof (fit_weights _ Hf a s Hs) as Hwf.
  unfold calculate_accrued_yield. destruct (core_yields _ _ Hc) as (k & e & He & _ & Hm).
  rewrite (proj2 (latest_ok m k e) He). simpl.
  destruct (Z.eqb_spec k (last_accrue_key s)) as [|Hk]; [by eexists|].
  destruct (addr_key _ _ Hok) as [v Hv].
  change (YIELD_PER_TIME_PER_TOKEN (m_liquidity m)) with (b_yields (books m)). rewrite Hv. simpl.
  rewrite (lp_reward_runs _ _ Hok Hwf). simpl. unfold owed in Hle. rewrite He, Hv in Hle.
  destruct (Hm _ _ Hv) as [Hl Hx]. destruct (fit_yields _ Hf _ _ Hv) as [[? ?] [? ?]].
  destruct (fit_yields _ Hf k e) as [[? ?] [? ?]]; [by apply last_entry_Some in He as [? _]|].
  assert (0 <= accrued_total s) as Ha by (destruct Hok; unfold accrued_total; lia).
  destruct Hok as [_ [Hx0 _] _ _ _ _ _ _].
  pose proof (Z.div_pos ((y_lp e - y_lp v) * lp_weight s) DEC_ONE ltac:(nia) DEC_ONE_pos).
  pose proof (Z.div_pos ((y_xlp e - y_xlp v) * xlp s) DEC_ONE ltac:(nia) DEC_ONE_pos).
  eexists. apply rbind_ok. eexists. split; [apply ud_sub_ok; split; [done|unfold is_dec; lia]|].
  apply rbind_ok. eexists. split; [apply mul_dec_ok; split; [done|unfold is_dec; lia]|].
  apply rbind_ok. eexists. split; [apply ud_sub_ok; split; [done|unfold is_dec; lia]|].
  apply rbind_ok. eexists. split; [apply mul_dec_ok; split; [done|unfold is_dec; lia]|]. done.
Qed.

Lemma accrue_nonempty k x y s :
  0 <= lp_accrued_yield s <= x -> 0 <= xlp_accrued_yield s <= y -> stats_is_empty s = false ->
  stats_is_empty (set_last_accrue_key k (set_lp_accrued_yield x (set_xlp_accrued_yield y s)))
    = false.
Proof.
  intros Hx Hy Hne. apply not_true_is_false. intros He. rewrite <- not_true_iff_false in Hne.
  apply Hne. revert He. unfold stats_is_empty, ud_is_zero. simpl.
  rewrite !andb_true_iff, !Z.eqb_eq. intros ((((((? & ?) & ?) & ?) & ?) & ?) & ?).
  repeat split; try done; lia.
Qed.

(** Accruing succeeds; the record then holds everything the provider is owed. *)
Lemma update_accrued_runs m a s :
  core (books m) 0 -> numbers_fit (books m) -> b_addrs (books m) !! a = Some s ->
  exists m1 s1, update_accrued_yield a m = Ok (tt, m1) /\ books m1 = b_store a s1 (books m) /\
    stats_is_empty s1 = false /\ accrued_total s1 = owed (b_yields (books m)) s.
Proof.
  intros Hc Hf Hs. pose proof (core_addrs _ _ Hc a s Hs) as Hok.
  pose proof (core_nonempty _ _ Hc a s Hs) as Hne.
  pose proof (owed_bounds _ _ Hc (ex_intro _ a Hs)) as [_ Hle].
  destruct (calculate_accrued_runs m a s Hc Hf Hs) as [o Ho].
  pose proof (calculate_accrued_owed _ _ _ Ho) as Howed.
  pose proof (calculate_accrued_ok _ _ _ Ho) as Hacc. pose proof (fit_backing _ Hf) as Hb.
  assert (load_liquidity_stats_addr_default a m = Ok (s, m)) as Hload.
  { apply hask_ok. split; [|done]. change (liquidity_stats_addr_may m a) with (b_addrs (books m) !! a).
    by rewrite Hs. }
  unfold update_accrued_yield, hbind. rewrite Hload. unfold hask. rewrite Ho.
  destruct o as [[k acc]|].
  - cbv beta iota in Howed. destruct Hacc as ([e He] & Hl & Hx & _). unfold accrued_total in *. destruct Hok.
    rewrite (proj2 (ud_add_ok (lp_accrued_yield s) (la_lp acc) _)) by (unfold is_dec; split; [done|lia]).
    rewrite (proj2 (ud_add_ok (xlp_accrued_yield s) (la_xlp acc) _)) by (unfold is_dec; split; [done|lia]).
    eexists _, _. split; [reflexivity|]. split; [by eapply save_addr_books|]. split; [|rewrite <- Howed; simpl; lia].
    by apply accrue_nonempty; try lia.
  - eexists _, s. split; [reflexivity|]. split; [|split; [done|lia]].
    unfold b_store, store_addr. rewrite Hne, insert_id by done. by destruct (books m).
Qed.

(** What is recorded as owed to an address. *)
Definition owed_at (b : Books) (a : Addr) : Z :=
  match b_addrs b !! a with Some s => owed (b_yields b) s | None => 0 end.

Lemma owed_at_store a s b c :
  owed_at (b_store a s b) c = if decide (c = a) then owed (b_yields b) s else owed_at b c.
Proof.
  unfold owed_at, b_store, store_addr. simpl. destruct (decide (c = a)) as [->|Hne].
  - destruct (stats_is_empty s) eqn:E; [|by rewrite lookup_insert_eq].
    rewrite lookup_delete_eq, owed_still by auto using empty_lp_weight, empty_xlp.
    by destruct (stats_is_empty_true s E) as (_ & _ & _ & ->).
  - destruct (stats_is_empty s); by rewrite ?lookup_delete_ne, ?lookup_insert_ne by done.
Qed.

Record resettable (b : Books) (r : ResetLpStatus) : Prop := {
  rs_core : core b 0;
  rs_resetting : resetting b;
  rs_status : b_reset b = Some r;
  rs_fit : numbers_fit b;
}.

Definition b_reset_to (r : option ResetLpStatus) (b : Books) : Books :=
  mkBooks (b_stats b) (b_addrs b) r (b_yields b) (b_backing b) (b_crank b).

Lemma b_store_store a s s' b : b_store a s (b_store a s' b) = b_store a s b.
Proof.
  unfold b_store, store_addr. simpl. f_equal.
  destruct (stats_is_empty s), (stats_is_empty s');
    by rewrite ?delete_insert_eq, ?delete_delete_eq, ?insert_insert_eq, ?insert_delete_eq.
Qed.

Lemma load_addr_runs a m s :
  b_addrs (books m) !! a = Some s -> load_liquidity_stats_addr a m = Ok (s, m).
Proof.
  intros Hs. unfold load_liquidity_stats_addr, hask.
  change (liquidity_stats_addr_may m a) with (b_addrs (books m) !! a). by rewrite Hs.
Qed.

(** The item for the provider [a] that is next in line. *)
Lemma crank_reset_runs m r a rest :
  resettable (books m) r -> keys_after (as_bound r) (b_addrs (books m)) = a :: rest ->
  exists m' s', crank_reset_lp_balances m = Ok (tt, m') /\
    books m' = b_reset_to (Some (ResetLastSaw a)) (b_store a s' (books m)) /\
    lp_weight s' = 0 /\ xlp s' = 0 /\
    owed (b_yields (books m)) s' = owed_at (books m) a.
Proof.
  intros [Hc _ Hr Hf] Hk. destruct (keys_after_head _ _ _ _ Hk) as ([s Hs] & _ & _).
  destruct (update_accrued_runs m a s Hc Hf Hs) as (m1 & s1 & Hu & Hb1 & Hne & Ho).
  destruct (core_yields _ _ Hc) as (k & e & He & _ & _).
  unfold crank_reset_lp_balances, hbind at 1. unfold hask at 1.
  change (RESET_LP_STATUS (m_liquidity m)) with (b_reset (books m)). rewrite Hr. simpl of_option.
  unfold hbind at 1, hget at 1, liquidity_providers.
  change (LIQUIDITY_STATS_BY_ADDR (m_liquidity m)) with (b_addrs (books m)). rewrite Hk.
  cbv beta iota delta [take]. unfold hbind at 1. rewrite Hu.
  unfold hbind at 1. rewrite (load_addr_runs a m1 s1).
  2:{ rewrite Hb1. unfold b_store, store_addr. simpl. by rewrite Hne, lookup_insert_eq. }
  unfold hbind at 1. unfold hask at 1. rewrite (proj2 (latest_ok m1 k e)) by (by rewrite Hb1).
  set (s' := set_lp 0 _). exists (set_m_liquidity (set_RESET_LP_STATUS (Some (ResetLastSaw a))
    (m_liquidity (match save_liquidity_stats_addr a s' m1 with Ok (_, m) => m | Err _ => m1 end)))
    (match save_liquidity_stats_addr a s' m1 with Ok (_, m) => m | Err _ => m1 end)), s'.
  split; [reflexivity|]. split; [|split; [|split]].
  - rewrite <- (b_store_store a s' s1), <- Hb1. reflexivity.
  - reflexivity.
  - reflexivity.
  - rewrite owed_still by reflexivity. unfold owed_at. rewrite Hs, <- Ho. reflexivity.
Qed.
(** It leaves a state of the same kind, with one provider fewer to go. *)
Lemma crank_reset_step m r a rest :
  resettable (books m) r -> keys_after (as_bound r) (b_addrs (books m)) = a :: rest ->
  exists m', crank_reset_lp_balances m = Ok (tt, m') /\
    resettable (books m') (ResetLastSaw a) /\
    (length (keys_after (Some a) (b_addrs (books m'))) <= length rest)%nat /\
    forall c, owed_at (books m') c = owed_at (books m) c.
Proof.
  intros Hrs Hk. destruct (crank_reset_runs _ _ _ _ Hrs Hk) as (m' & s' & H & Hb & Hw & Hx & Ho).
  exists m'. split; [done|]. destruct Hrs as [Hc Hres Hr Hf].
  destruct (crank_reset_books _ _ _ H Hc Hres) as [Hc' Ht'].
  assert (b_reset (books m') = Some (ResetLastSaw a)) as Hr' by (by rewrite Hb).
  split; [split; [done| |done|]|split].
  - destruct Ht' as [(Hn & _)|?]; [congruence|done].
  - destruct Hf as [Hf1 Hf2 Hf3]. rewrite Hb. split; simpl; [done|done|].
    intros c sc [[_ ->]|[_ Hsc]]%store_addr_lookup; [rewrite Hw; done|by eapply Hf3].
  - eapply keys_after_next; [exact Hk|]. intros c Hne. rewrite Hb. simpl. unfold store_addr.
    destruct (stats_is_empty s'); by rewrite ?lookup_delete_ne, ?lookup_insert_ne by done.
  - intros c. rewrite Hb. transitivity (owed_at (b_store a s' (books m)) c); [done|].
    rewrite owed_at_store. by destruct (decide (c = a)) as [->|].
Qed.

Lemma crank_reset_last m r :
  resettable (books m) r -> keys_after (as_bound r) (b_addrs (books m)) = [] ->
  exists m', crank_reset_lp_balances m = Ok (tt, m') /\ books m' = b_reset_to None (books m) /\
    forall c s, b_addrs (books m) !! c = Some s -> lp_weight s = 0 /\ xlp s = 0.
Proof.
  intros [Hc (r' & Hr' & _ & _ & Hdone) Hr Hf] Hk. assert (r' = r) as -> by congruence.
  unfold crank_reset_lp_balances, hbind, hask, hget, liquidity_providers.
  change (RESET_LP_STATUS (m_liquidity m)) with (b_reset (books m)). rewrite Hr. simpl of_option. cbv beta iota.
  change (LIQUIDITY_STATS_BY_ADDR (m_liquidity m)) with (b_addrs (books m)). rewrite Hk.
  eexists. split; [reflexivity|]. split; [reflexivity|]. intros c s Hs. apply (Hdone c s Hs).
  rewrite reset_done_bound. by rewrite (keys_after_nil _ _ c Hk) by (by eexists).
Qed.

Lemma crank_resets_complete n m r :
  resettable (books m) r -> (length (keys_after (as_bound r) (b_addrs (books m))) <= n)%nat ->
  exists m', crank_resets (S n) m = Ok (tt, m') /\ b_reset (books m') = None /\
    core (books m') 0 /\
    (forall c s, b_addrs (books m') !! c = Some s -> lp_weight s = 0 /\ xlp s = 0) /\
    forall c, owed_at (books m') c = owed_at (books m) c.
Proof.
  revert m r. induction n as [|n IH]; intros m r Hrs Hn;
    (assert (should_reset_lp_balances m = true) as Hs
       by (unfold should_reset_lp_balances; change (RESET_LP_STATUS (m_liquidity m)) with
             (b_reset (books m)); by rewrite (rs_status _ _ Hrs)));
    (destruct (keys_after (as_bound r) (b_addrs (books m))) as [|a rest] eqn:Hk;
      [destruct (crank_reset_last _ _ Hrs Hk) as (m' & H & Hb & Hz)|]).
  - exists m'. rewrite Hb. split; [|split; [done|split; [|split; [exact Hz|done]]]].
    + simpl. unfold hbind at 1, hget. rewrite Hs. unfold hbind. by rewrite H.
    + destruct (rs_core _ _ Hrs). by split.
  - simpl in Hn. lia.
  - exists m'. rewrite Hb. split; [|split; [done|split; [|split; [exact Hz|done]]]].
    + cbn [crank_resets]. unfold hbind at 1, hget at 1. rewrite Hs. unfold hbind at 1. rewrite H.
      unfold hbind, hget. assert (should_reset_lp_balances m' = false) as ->; [|done].
      unfold should_reset_lp_balances. change (RESET_LP_STATUS (m_liquidity m')) with
        (b_reset (books m')). by rewrite Hb.
    + destruct (rs_core _ _ Hrs). by split.
  - destruct (crank_reset_step _ _ _ _ Hrs Hk) as (m1 & H & Hrs1 & Hn1 & Ho1).
    destruct (IH m1 _ Hrs1) as (m' & H' & Hr' & Hc' & Hz & Ho); [simpl in *; lia|].
    exists m'. split; [|split; [done|split; [done|split; [done|]]]].
    + change (crank_resets (S (S n)) m) with ((resetting <~ hget should_reset_lp_balances;
        if resetting : bool then crank_reset_lp_balances;;; crank_resets (S n) else hret tt) m).
      unfold hbind at 1, hget at 1. rewrite Hs. unfold hbind at 1. by rewrite H.
    + intros c. by rewrite Ho, Ho1.
Qed.

(** C7: a reset of the balances always completes.  In any reachable state with a
    reset under way whose numbers fit their types, at most one crank item per
    provider record and one more, none of which fails, ends it: the liquidity
    messages are open again, nobody is left with LP or xLP tokens or an
    unstaking process, and every address keeps, as recorded yield, exactly what
    [lp_info] showed before. *)
Theorem reset_completes (m : MarketCtx) :
  liquidity_reachable m -> should_reset_lp_balances m = true -> numbers_fit (books m) ->
  exists m', crank_resets (S (size (LIQUIDITY_STATS_BY_ADDR (m_liquidity m)))) m = Ok (tt, m') /\
    should_reset_lp_balances m' = false /\
    (forall a s, liquidity_stats_addr_may m' a = Some s ->
       lp s = 0 /\ xlp s = 0 /\ unstaking s = None) /\
    (forall st a i, lp_info st m a = Ok i ->
       match liquidity_stats_addr_may m' a with Some s => accrued_total s | None => 0 end
         = info_available_yield i).
Proof.
  intros Hm Hs Hf. apply reachable_books_ok in Hm as [Hc Ht].
  unfold should_reset_lp_balances in Hs. destruct (RESET_LP_STATUS (m_liquidity m)) as [r|] eqn:Hr;
    [|done].
  assert (resettable (books m) r) as Hrs.
  { split; try done. destruct Ht as [(Hn & _)|?]; [simpl in Hn; congruence|done]. }
  destruct (crank_resets_complete (size (LIQUIDITY_STATS_BY_ADDR (m_liquidity m))) m r Hrs
    (keys_after_size _ _)) as (m' & H & Hr' & Hc' & Hz & Ho).
  exists m'. split; [done|]. split; [|split].
  - unfold should_reset_lp_balances. simpl in Hr'. by rewrite Hr'.
  - intros a s Ha. destruct (Hz a s Ha) as [Hw Hx]. destruct (core_addrs _ _ Hc' a s Ha).
    unfold lp_weight, pending_xlp in Hw. destruct (unstaking s) as [u|]; [|split_and!; [lia|done|done]].
    destruct (addr_unstaking u eq_refl). lia.
  - intros st a i Hi. specialize (Ho a). unfold owed_at in Ho.
    change (liquidity_stats_addr_may m' a) with (b_addrs (books m') !! a).
    destruct (b_addrs (books m) !! a) as [s|] eqn:E.
    + rewrite (lp_info_owed _ _ _ _ _ Hi E), <- Ho.
      destruct (b_addrs (books m') !! a) as [s'|] eqn:E'; [|done].
      destruct (Hz _ _ E'). by rewrite owed_still.
    + rewrite (lp_info_absent _ _ _ _ Hi E), <- Ho.
      destruct (b_addrs (books m') !! a) as [s'|] eqn:E'; [|done].
      destruct (Hz _ _ E'). by rewrite owed_still.
Qed.
End Theory.

(** ** Witness: a trader wins everything Alice provided *)

Definition sample_call (c : LiquidityCall) (m : MarketCtx) : MarketCtx :=
  ctx_after (liquidity_call (CW:=cosmwasm_ref) (sample_state 3000) c m).
Definition sample_spot : PricePoint := make_price_point (sample_state 3000) 0 sample_price.
Definition sample_drained : MarketCtx :=
  sample_call (CallUpdateLocked (mkSigned (100 * DEC_ONE) true) sample_spot)
    (sample_call (CallLock (100 * DEC_ONE) sample_spot None None) sample_fee_paid).

Lemma sample_call_reachable c m :
  call_typed c -> liquidity_reachable (CW:=cosmwasm_ref) m ->
  is_ok (liquidity_call (CW:=cosmwasm_ref) (sample_state 3000) c m) = true ->
  liquidity_reachable (CW:=cosmwasm_ref) (sample_call c m).
Proof.
  intros Hc Hm Hok. eapply (reach_call (CW:=cosmwasm_ref) (sample_state 3000) c m); [done|done|done|].
  by apply ctx_after_ok.
Qed.

Lemma sample_drained_reachable : liquidity_reachable (CW:=cosmwasm_ref) sample_drained.
Proof.
  apply sample_call_reachable; [by vm_compute| |vm_compute; reflexivity].
  apply sample_call_reachable; [done|apply sample_fee_paid_reachable|vm_compute; reflexivity].
Qed.

Lemma reset_completes_witness :
  should_reset_lp_balances sample_drained = true /\
  exists m', crank_resets (CW:=cosmwasm_ref) 3 sample_drained = Ok (tt, m') /\
    should_reset_lp_balances m' = false.
Proof.
  split; [vm_compute; reflexivity|].
  destruct (reset_completes (CW:=cosmwasm_ref) (CWS:=cosmwasm_ref_spec) sample_drained
    sample_drained_reachable) as (m' & H & Hr & _).
  - vm_compute. reflexivity.
  - split.
    + vm_compute. discriminate.
    + intros k e H. assert (map_Forall (fun _ e => is_dec (y_lp e) /\ is_dec (y_xlp e))
        (b_yields (books sample_drained))) as Hall; [|exact (Hall k e H)].
      apply (bool_decide_unpack _). vm_compute. reflexivity.
    + intros a s H. assert (map_Forall (fun _ s => lp_weight s <= U256_MAX)
        (b_addrs (books sample_drained))) as Hall; [|exact (Hall a s H)].
      apply (bool_decide_unpack _). vm_compute. reflexivity.
  - exists m'. split; [|exact Hr]. rewrite <- H. f_equal.
Defined.
