(* ===== verification/Funding.v ===== *)
(** * Funding payments and borrow fees

    [contracts/market/src/state/funding.rs], [funding/aggregate_capping.rs] and
    [funding/borrow_fees.rs]: the rates derived from utilisation and open
    interest, their accumulation into the data series, what a position owes for
    a time slice with the caps of its liquidation margin, and the settlement of
    these fees on a position ([PositionFeeSettlement]). *)

From stdpp Require Import base option gmap strings list.
From Stdlib Require Import ZArith Lia.
From S2P Require Import Prelude Storage Cosmwasm Types Number Time Market Price Token DataSeries Config Position State Pool LpHistory Liquidity Fees.
Local Open Scope Z_scope.

(** [funding/borrow_fees.rs]. *)
Record BorrowFees := mkBorrowFees { bf_lp : Decimal256; bf_xlp : Decimal256 }.

Inductive AggregateCapping := NoCapping | Capped (capped_amount : Signed).

Record FundingFeePaymentWithCapping := mkFundingFeePayment {
  ffp_amount : Signed;
  ffp_event : option InsufficientMarginEvent;
  ffp_total_net_funding_paid : Signed;
}.

Record FundingPaymentEvent := mkFundingPaymentEvent {
  fpe_pos_id : PositionId;
  fpe_amount : Signed;
  fpe_amount_usd : Signed;
  fpe_direction : DirectionToBase;
}.

Record PositionFeeSettlement := mkPositionFeeSettlement {
  pfs_position : MaybeClosedPosition;
  pfs_insufficient_margin_events : list InsufficientMarginEvent;
  pfs_funding_fee_payment : FundingFeePaymentWithCapping;
  pfs_borrow_fee_collection : BorrowFeeCollection;
  pfs_funding_payment_event : FundingPaymentEvent;
  pfs_cap_crank_fee : option CapCrankFee;
}.

Definition NS_PER_YEAR : Z := 31536000000000000.
Definition NS_PER_DAY : Z := 1000000000 * 60 * 60 * 24.

(** [res.unwrap_or(d)]: an error is replaced, a panic is not. *)
Definition unwrap_or {A} (d : A) (r : res A) : res A :=
  match r with
  | Err (Panic msg) => Err (Panic msg)
  | Err _ => Ok d
  | Ok a => Ok a
  end.

Section Definitions.
Context {CW : CosmwasmStd}.

(** [BorrowFees::total]. *)
Definition borrow_fees_total (r : BorrowFees) : res Decimal256 := ud_checked_add (bf_lp r) (bf_xlp r).

(** ** aggregate_capping.rs *)

Definition aggregate_capping (total_paid : Signed) (total_margin : Collateral) (amount : Signed)
    (pos_margin : Collateral) : res AggregateCapping :=
  total_margin_without_pos <- ud_checked_sub total_margin pos_margin;
  available_margin <- signed_checked_add (into_signed total_margin_without_pos) total_paid;
  let available_margin := signed_neg available_margin in
  let '(is_capped, capped_amount) :=
    if signed_ltb amount available_margin then (true, available_margin) else (false, amount) in
  let pos_margin := into_signed pos_margin in
  let '(is_capped, capped_amount) :=
    if signed_gtb capped_amount pos_margin then (true, pos_margin)
    else (is_capped, capped_amount) in
  Ok (if is_capped : bool then Capped capped_amount else NoCapping).

(** ** Rates *)

(** The multiplier of xLP over LP rewards, interpolated between its bounds. *)
Definition calc_multiplier (min_multiplier max_multiplier : Decimal256) (total_lp total_xlp : LpToken) :
    res Decimal256 :=
  a <- std (dec_mul min_multiplier total_xlp);
  b <- std (dec_mul max_multiplier total_lp);
  sum <- std (dec_add a b);
  tokens <- ud_checked_add total_lp total_xlp;
  op_div sum tokens.

Context (st : State).

Definition get_current_borrow_fee_rate_annual (m : MarketCtx) : res (Timestamp * BorrowFees) :=
  '(lp_timestamp, lp_rate) <- of_option
    (AnyhowError "get_current_borrow_fee_rate_annual: No initial lp borrow fee set")
    (try_load_last (LP_BORROW_FEE_DATA_SERIES (m_funding m)));
  '(_, xlp_rate) <- of_option
    (AnyhowError "get_current_borrow_fee_rate_annual: No initial xlp borrow fee set")
    (try_load_last (XLP_BORROW_FEE_DATA_SERIES (m_funding m)));
  lp <- of_option (AnyhowError "lp_rate is negative")
          (try_into_non_negative_value (dp_value lp_rate));
  xlp <- of_option (AnyhowError "xlp_rate is negative")
           (try_into_non_negative_value (dp_value xlp_rate));
  Ok (lp_timestamp, mkBorrowFees lp xlp).

(** [NonZero<Decimal256>::clamp]. *)
Definition clamp (v lo hi : Decimal256) : res Decimal256 :=
  if lo <=? hi then Ok (Z.min (Z.max v lo) hi) else Err (Panic "assertion failed: min <= max").

(** How far the pool is from its target utilisation. *)
Definition utilization_bias (stats : LiquidityStats) : res Number :=
  if ud_is_zero (locked stats) && ud_is_zero (unlocked stats) then Ok NUMBER_NEG_ONE
  else
    total <- ud_checked_add (locked stats) (unlocked stats);
    actual_utilization <- std (dec_div (locked stats) total);
    signed_checked_sub (into_signed actual_utilization)
      (into_signed (target_utilization (st_config st))).

(** The previous rate, moved by the bias and held between the configured
    bounds. *)
Definition next_total_rate (previous_rate : BorrowFees) (bias : Number) (nanos_since_last_rate : Z) :
    res Decimal256 :=
  let config := st_config st in
  sensitivity_bias <- number_checked_mul (into_signed (borrow_fee_sensitivity config)) bias;
  nanos <- number_from_u64 nanos_since_last_rate;
  scaled <- number_checked_mul sensitivity_bias nanos;
  day <- number_from_u128 NS_PER_DAY;
  rate_delta <- number_checked_div scaled day;
  previous_total <- borrow_fees_total previous_rate;
  calculated_rate <- signed_checked_add (into_signed previous_total) rate_delta;
  match (v ← try_into_non_negative_value calculated_rate; nonzero_new v) with
  | None => Ok (borrow_fee_rate_min_annualized config)
  | Some calculated_rate =>
      clamp calculated_rate (borrow_fee_rate_min_annualized config)
        (borrow_fee_rate_max_annualized config)
  end.

(** The split of the total rate between LP and xLP. *)
Definition split_rate (stats : LiquidityStats) (total_rate : Decimal256) : res BorrowFees :=
  if ud_is_zero (total_xlp stats) then Ok (mkBorrowFees total_rate 0)
  else if ud_is_zero (total_lp stats) then Ok (mkBorrowFees 0 total_rate)
  else
    multiplier <- calc_multiplier (min_xlp_rewards_multiplier (st_config st))
                    (max_xlp_rewards_multiplier (st_config st)) (total_lp stats) (total_xlp stats);
    let lp_shares := total_lp stats in
    xlp_shares <- std (dec_mul (total_xlp stats) multiplier);
    shares <- ud_checked_add lp_shares xlp_shares;
    scaled <- std (dec_mul total_rate lp_shares);
    lp <- std (dec_div scaled shares);
    xlp <- std (dec_sub total_rate lp);
    Ok (mkBorrowFees lp xlp).

Definition derive_instant_borrow_fee_rate_annual (m : MarketCtx) (price_point : PricePoint) :
    res BorrowFees :=
  '(previous_rate_time, previous_rate) <- get_current_borrow_fee_rate_annual m;
  nanos_since_last_rate <-
    (if previous_rate_time <? pp_timestamp price_point
     then d <- timestamp_checked_sub (pp_timestamp price_point) previous_rate_time; Ok (as_nanos d)
     else Ok 0);
  let stats := liquidity_stats m in
  bias <- utilization_bias stats;
  total_rate <- next_total_rate previous_rate bias nanos_since_last_rate;
  split_rate stats total_rate.

(** The rate the popular side pays, as a share of its notional size. *)
Definition rf_popular (effective_funding_rate_sensitivity : Decimal256) (net : Signed)
    (open_long open_short : Notional) : res Decimal256 :=
  total <- ud_checked_add open_long open_short;
  ratio <- std (dec_div (abs_unsigned net) total);
  r <- std (dec_mul effective_funding_rate_sensitivity ratio);
  Ok (Z.min r (funding_rate_max_annualized (st_config st))).

(** The rate the unpopular side receives. *)
Definition rf_unpopular (effective_funding_rate_sensitivity : Decimal256) (net : Signed)
    (open_long open_short : Notional) : res Decimal256 :=
  match Z.compare open_long open_short with
  | Gt =>
      r <- rf_popular effective_funding_rate_sensitivity net open_long open_short;
      q <- std (dec_div open_long open_short);
      std (dec_mul r q)
  | Lt =>
      r <- rf_popular effective_funding_rate_sensitivity net open_long open_short;
      q <- std (dec_div open_short open_long);
      std (dec_mul r q)
  | Eq => Ok 0
  end.

Definition derive_instant_funding_rate_annual (m : MarketCtx) : res (Number * Number) :=
  let config := st_config st in
  let rf_per_annual_cap := funding_rate_max_annualized config in
  net <- positions_net_open_interest m;
  let open_short := open_short_interest m in
  let open_long := open_long_interest m in
  total_interest <- ud_checked_add open_long open_short;
  notional_high_cap <-
    std (dec_mul (delta_neutrality_fee_sensitivity config) (delta_neutrality_fee_cap config));
  p <- std (dec_mul rf_per_annual_cap total_interest);
  from_delta_neutrality <- std (dec_div p notional_high_cap);
  let effective := Z.max (funding_rate_sensitivity config) from_delta_neutrality in
  if ud_is_zero open_long || ud_is_zero open_short then Ok (NUMBER_ZERO, NUMBER_ZERO)
  else
    match Z.compare open_long open_short with
    | Gt =>
        popular <- rf_popular effective net open_long open_short;
        unpopular <- rf_unpopular effective net open_long open_short;
        Ok (into_signed popular, signed_neg (into_signed unpopular))
    | Lt =>
        unpopular <- rf_unpopular effective net open_long open_short;
        popular <- rf_popular effective net open_long open_short;
        Ok (signed_neg (into_signed unpopular), into_signed popular)
    | Eq => Ok (NUMBER_ZERO, NUMBER_ZERO)
    end.

(** ** Accumulation *)

(** [DataSeries::append] on one of the series of the store. *)
Definition append_to (get : FundingStore -> DataSeries)
    (set : DataSeries -> FundingStore -> FundingStore) (time : Timestamp) (v : Number) :
    mhandler unit :=
  s <~ hask (fun m => series_append (get (m_funding m)) time v);
  mod_funding (set s).

Definition accumulate_funding_rate (price_point : PricePoint) : mhandler unit :=
  let time := pp_timestamp price_point in
  let spot_price := price_notional price_point in
  '(long_rate, short_rate) <~ hask derive_instant_funding_rate_annual;
  long <~ hlift (number_checked_mul long_rate (into_signed spot_price));
  append_to LONG_RF_PRICE_PREFIX_SUM set_LONG_RF_PRICE_PREFIX_SUM time long;;;
  short <~ hlift (number_checked_mul short_rate (into_signed spot_price));
  append_to SHORT_RF_PRICE_PREFIX_SUM set_SHORT_RF_PRICE_PREFIX_SUM time short;;;
  let '(long_rate_base, short_rate_base) :=
    match market_type st with
    | CollateralIsQuote => (long_rate, short_rate)
    | CollateralIsBase => (short_rate, long_rate)
    end in
  add_event st (EvFundingRateChange time long_rate_base short_rate_base).

Definition initialize_borrow_fee_rate (initial_rate : Decimal256) : mhandler unit :=
  hensure (borrow_fee_rate_min_annualized (st_config st) <=? initial_rate)
    (AnyhowError "Initial borrow rate must be at least minimum rate");;;
  hensure (initial_rate <=? borrow_fee_rate_max_annualized (st_config st))
    (AnyhowError "Initial borrow rate must be at most maximum rate");;;
  append_to LP_BORROW_FEE_DATA_SERIES set_LP_BORROW_FEE_DATA_SERIES (st_now st)
    (into_signed initial_rate);;;
  append_to XLP_BORROW_FEE_DATA_SERIES set_XLP_BORROW_FEE_DATA_SERIES (st_now st) NUMBER_ZERO.

Definition accumulate_borrow_fee_rate (price_point : PricePoint) : mhandler unit :=
  let time := pp_timestamp price_point in
  rate <~ hask (fun m => derive_instant_borrow_fee_rate_annual m price_point);
  append_to LP_BORROW_FEE_DATA_SERIES set_LP_BORROW_FEE_DATA_SERIES time (into_signed (bf_lp rate));;;
  append_to XLP_BORROW_FEE_DATA_SERIES set_XLP_BORROW_FEE_DATA_SERIES time
    (into_signed (bf_xlp rate));;;
  total_rate <~ hlift (std (dec_add (bf_lp rate) (bf_xlp rate)));
  add_event st (EvBorrowFeeChange time total_rate (bf_lp rate) (bf_xlp rate)).

(** ** What a position owes *)

(** A yearly rate summed over nanoseconds, applied to an amount. *)
Definition per_year (rate_sum : Number) (amount : Decimal256) : res Number :=
  p <- number_checked_mul rate_sum (into_signed amount);
  year <- number_from_u128 NS_PER_YEAR;
  number_checked_div p year.

Definition calculate_funding_payment (m : MarketCtx) (pos : Position) (starts_at ends_at : Timestamp) :
    res Signed :=
  let series := match pos_direction pos with
                | LongToNotional => LONG_RF_PRICE_PREFIX_SUM (m_funding m)
                | ShortToNotional => SHORT_RF_PRICE_PREFIX_SUM (m_funding m)
                end in
  sum <- unwrap_or NUMBER_ZERO (series_sum series starts_at ends_at);
  n <- per_year sum (abs_unsigned (notional_size pos));
  Ok (from_number n).

Definition calculate_borrow_fee_payment (m : MarketCtx) (pos : Position)
    (starts_at ends_at : Timestamp) : res LpAndXlp :=
  lp_instant_rate <- series_sum (LP_BORROW_FEE_DATA_SERIES (m_funding m)) starts_at ends_at;
  xlp_instant_rate <- series_sum (XLP_BORROW_FEE_DATA_SERIES (m_funding m)) starts_at ends_at;
  l <- per_year lp_instant_rate (counter_collateral pos);
  lp <- ud_try_from_number l;
  x <- per_year xlp_instant_rate (counter_collateral pos);
  xlp <- ud_try_from_number x;
  Ok (mkLpAndXlp lp xlp).

Definition calc_capped_borrow_fee_payment (m : MarketCtx) (pos : Position)
    (starts_at ends_at : Timestamp) : res (LpAndXlp * option InsufficientMarginEvent) :=
  uncapped <- calculate_borrow_fee_payment m pos starts_at ends_at;
  total <- ud_checked_add (la_lp uncapped) (la_xlp uncapped);
  match nonzero_new total with
  | None => Ok (uncapped, None)
  | Some total =>
      let cap := margin_borrow (pos_liquidation_margin pos) in
      if total <=? cap then Ok (uncapped, None)
      else
        let event := mkInsufficientMarginEvent (pos_id pos) FeeTypeBorrow (into_signed cap)
                       (into_signed total) in
        scale <- div_non_zero cap total;
        lp <- checked_mul_dec (la_lp uncapped) scale;
        xlp <- ud_checked_sub cap lp;
        Ok (mkLpAndXlp lp xlp, Some event)
  end.

Definition calc_capped_funding_payment (m : MarketCtx) (pos : Position)
    (starts_at ends_at : Timestamp) : res (Signed * option InsufficientMarginEvent) :=
  uncapped_signed <- calculate_funding_payment m pos starts_at ends_at;
  match res_ok (nonzero_try_from_signed uncapped_signed) with
  | None => Ok (uncapped_signed, None)
  | Some uncapped =>
      let cap := margin_funding (pos_liquidation_margin pos) in
      if uncapped <=? cap then Ok (uncapped_signed, None)
      else
        Ok (into_signed cap,
            Some (mkInsufficientMarginEvent (pos_id pos) FeeTypeFunding (into_signed cap)
                    (into_signed uncapped)))
  end.

Definition cap_crank_fee (pos : Position) (price_point : PricePoint) (uncapped_usd : Usd) :
    res CapCrankFee :=
  let trade_id := TradePosition (pos_id pos) in
  uncapped <- usd_to_collateral price_point uncapped_usd;
  match nonzero_new uncapped with
  | None => Ok (mkCapCrankFee uncapped uncapped_usd None trade_id)
  | Some uncapped =>
      let cap := margin_crank (pos_liquidation_margin pos) in
      if uncapped <=? cap then Ok (mkCapCrankFee uncapped uncapped_usd None trade_id)
      else
        cap_usd <- collateral_to_usd price_point cap;
        Ok (mkCapCrankFee cap cap_usd
              (Some (mkInsufficientMarginEvent (pos_id pos) FeeTypeCrank (into_signed cap)
                       (into_signed uncapped))) trade_id)
  end.

(** ** The funding totals *)

Definition initialize_funding_totals : mhandler unit :=
  mod_funding (set_TOTAL_NET_FUNDING_PAID signed_zero);;;
  mod_funding (set_TOTAL_FUNDING_MARGIN 0).

Definition track_funding_fee_payment_with_capping (m : MarketCtx) (amount : Signed)
    (pos : Position) : res FundingFeePaymentWithCapping :=
  let total_paid := TOTAL_NET_FUNDING_PAID (m_funding m) in
  let total_margin := TOTAL_FUNDING_MARGIN (m_funding m) in
  capping <- aggregate_capping total_paid total_margin amount
               (margin_funding (pos_liquidation_margin pos));
  let '(amount, insufficient_margin_event) :=
    match capping with
    | NoCapping => (amount, None)
    | Capped capped_amount =>
        (capped_amount,
         Some (mkInsufficientMarginEvent (pos_id pos) FeeTypeFundingTotal
                 (signed_neg capped_amount) (signed_neg amount)))
    end in
  total_net_funding_paid <- signed_checked_add total_paid amount;
  Ok (mkFundingFeePayment amount insufficient_margin_event total_net_funding_paid).

Definition increase_total_funding_margin (amount : Collateral) : mhandler unit :=
  x <~ hask (fun m => ud_checked_add (TOTAL_FUNDING_MARGIN (m_funding m)) amount);
  mod_funding (set_TOTAL_FUNDING_MARGIN x).

Definition decrease_total_funding_margin (amount : Collateral) : mhandler unit :=
  x <~ hask (fun m => ud_checked_sub (TOTAL_FUNDING_MARGIN (m_funding m)) amount);
  mod_funding (set_TOTAL_FUNDING_MARGIN x).

(** [FundingFeePaymentWithCapping::apply]. *)
Definition funding_fee_payment_apply (p : FundingFeePaymentWithCapping) : mhandler unit :=
  match ffp_event p with
  | Some event => add_event st (EvInsufficientMargin event)
  | None => hret tt
  end;;;
  mod_funding (set_TOTAL_NET_FUNDING_PAID (ffp_total_net_funding_paid p)).

(** ** [PositionFeeSettlement] *)

Definition option_events {A} (o : option A) : list A := match o with Some e => [e] | None => [] end.

(** The tiny collateral of the degenerate case, ["0.000000001"]. *)
Definition TINY_COLLATERAL : Collateral := 1000000000.

(** Take the fees out of the active collateral; a position that cannot pay
    them is closed. *)
Definition charge_fees (position : Position) (to_subtract : Signed) (price : PricePoint) :
    MaybeClosedPosition * list InsufficientMarginEvent :=
  match res_ok (nonzero_checked_sub_signed (active_collateral position) to_subtract) with
  | Some active =>
      (PosOpen (set_collaterals position active (counter_collateral position)), [])
  | None =>
      (PosClose (mkClosePosition
         (set_collaterals position TINY_COLLATERAL (counter_collateral position))
         signed_zero 0 price (CloseLiquidated LiqLiquidated) true),
       match try_into_non_zero to_subtract with
       | Some to_subtract =>
           [mkInsufficientMarginEvent (pos_id position) FeeTypeOverall
              (into_signed (active_collateral position)) (into_signed to_subtract)]
       | None => []
       end)
  end.

(** [PositionFeeSettlement::new]. *)
Definition fee_settlement_new (m : MarketCtx) (position : Position) (starts_at ends_at : Timestamp)
    (charge_crank_fee : bool) : res PositionFeeSettlement :=
  price <- spot_price_at st m ends_at;
  '(borrow_owed, event1) <- calc_capped_borrow_fee_payment m position starts_at ends_at;
  '(funding_owed, event2) <- calc_capped_funding_payment m position starts_at ends_at;
  funding_owed <- track_funding_fee_payment_with_capping m funding_owed position;
  funding <- scu_checked_add_assign (funding_fee position) (ffp_amount funding_owed) price;
  borrow_total <- ud_checked_add (la_lp borrow_owed) (la_xlp borrow_owed);
  borrow <- cu_checked_add_assign (borrow_fee position) borrow_total price;
  let position := set_accrued_fees position funding borrow (pos_crank_fee position) in
  borrow_fee_collection <- collect_borrow_fee st m (pos_id position) borrow_owed price;
  amount_usd <- try_map (collateral_to_usd price) (ffp_amount funding_owed);
  let funding_payment_event :=
    mkFundingPaymentEvent (pos_id position) (ffp_amount funding_owed) amount_usd
      (direction_into_base (pos_direction position) (market_type st)) in
  '(position, cap_crank) <-
    (if charge_crank_fee
     then
       cap_crank <- cap_crank_fee position price (crank_fee_charged (st_config st));
       crank <- cu_checked_add_assign (pos_crank_fee position) (cap_amount cap_crank) price;
       Ok (set_accrued_fees position (funding_fee position) (borrow_fee position) crank,
           Some cap_crank)
     else Ok (position, None));
  b <- signed_checked_add (into_signed (la_lp borrow_owed)) (into_signed (la_xlp borrow_owed));
  f <- signed_checked_add b (ffp_amount funding_owed);
  to_subtract <- signed_checked_add f
    (match cap_crank with Some c => into_signed (cap_amount c) | None => into_signed 0 end);
  let '(position, events) := charge_fees position to_subtract price in
  Ok (mkPositionFeeSettlement position (option_events event1 ++ option_events event2 ++ events)
        funding_owed borrow_fee_collection funding_payment_event cap_crank).

(** [PositionFeeSettlement::apply]. *)
Definition fee_settlement_apply (s : PositionFeeSettlement) : mhandler unit :=
  add_events st (map EvInsufficientMargin (pfs_insufficient_margin_events s));;;
  funding_fee_payment_apply (pfs_funding_fee_payment s);;;
  borrow_fee_apply st (pfs_borrow_fee_collection s);;;
  let e := pfs_funding_payment_event s in
  add_event st (EvFundingPayment (fpe_pos_id e) (fpe_amount e) (fpe_amount_usd e) (fpe_direction e));;;
  match pfs_cap_crank_fee s with
  | Some c => cap_crank_fee_apply st c
  | None => hret tt
  end.

End Definitions.
