(* ===== verification/FundingInv.v ===== *)
(** * What funding and borrow fees guarantee

    The caps of Funding.v: a funding payment never takes more out of the
    contract than the margins of the other positions cover, borrow rates stay
    between their bounds, the popular side pays for what the unpopular side
    receives, and a fee settlement moves exactly what it records. *)

From stdpp Require Import base option gmap strings list.
From Stdlib Require Import ZArith Lia.
From S2P Require Import Prelude Storage Cosmwasm Types Number Time Market Price Token DataSeries Config Position State Pool LpHistory Liquidity Fees Funding LiquiditySystem.
Local Open Scope Z_scope.

(** The totals as their types have them. *)
Record funding_typed (f : FundingStore) : Prop := {
  ft_paid : signed_ok (TOTAL_NET_FUNDING_PAID f);
  ft_margin : is_dec (TOTAL_FUNDING_MARGIN f);
}.

Record margin_typed (m : LiquidationMargin) : Prop := {
  mt_borrow : is_dec (margin_borrow m);
  mt_funding : is_dec (margin_funding m);
  mt_crank : is_dec (margin_crank m);
}.

Section Theory.
Context {CW : CosmwasmStd} {CWS : CosmwasmStdSpec CW}.

(** ** Results of the number operations, whatever the operands *)

Lemma signed_choice_ok (b : bool) v :
  is_dec v -> signed_ok (if b then new_positive v else new_negative v).
Proof. destruct b; auto with perps. Qed.

Lemma number_mul_typed a b r : number_checked_mul a b = Ok r -> signed_ok r.
Proof.
  unfold number_checked_mul. destruct (dec_mul _ _) as [v|] eqn:E; [|done]. intros [= <-].
  apply dec_mul_Some in E as [-> ?]. by apply signed_choice_ok.
Qed.

Lemma number_div_typed a b r : number_checked_div a b = Ok r -> signed_ok r.
Proof.
  unfold number_checked_div. destruct (signed_is_zero b); [done|].
  destruct (dec_div _ _) as [v|] eqn:E; [|done]. intros [= <-].
  apply dec_div_Some in E as (_ & -> & ?). by apply signed_choice_ok.
Qed.

Lemma per_year_typed a b r : per_year a b = Ok r -> signed_ok r.
Proof.
  unfold per_year. intros (p & _ & H)%rbind_ok. apply rbind_ok in H as (y & _ & H).
  by eapply number_div_typed.
Qed.

Lemma ud_try_from_number_ok n v :
  signed_ok n -> ud_try_from_number n = Ok v -> v = sval n /\ is_dec v.
Proof.
  intros [Hd _]. unfold ud_try_from_number, sval. destruct (negative n); [done|].
  by intros [= <-].
Qed.

Lemma std_div_ok (a b c : Z) : std (dec_div a b) = Ok c <->
  b <> 0 /\ c = a * DEC_ONE / b /\ is_dec (a * DEC_ONE / b).
Proof. by rewrite std_ok, dec_div_Some. Qed.
Lemma std_mul_ok (a b c : Z) :
  std (dec_mul a b) = Ok c <-> c = a * b / DEC_ONE /\ is_dec (a * b / DEC_ONE).
Proof. by rewrite std_ok, dec_mul_Some. Qed.
Lemma std_add_ok (a b c : Z) : std (dec_add a b) = Ok c <-> c = a + b /\ is_dec (a + b).
Proof. by rewrite std_ok, dec_add_Some. Qed.
Lemma std_sub_ok (a b c : Z) : std (dec_sub a b) = Ok c <-> c = a - b /\ is_dec (a - b).
Proof. by rewrite std_ok, dec_sub_Some. Qed.

(** ** The cap of funding payments *)

Lemma aggregate_capping_ok paid total amount margin c :
  signed_ok paid -> is_dec total -> signed_ok amount -> is_dec margin ->
  aggregate_capping paid total amount margin = Ok c ->
  let available := total - margin + sval paid in
  let r := match c with NoCapping => amount | Capped r => r end in
  margin <= total /\ signed_ok r /\
  sval r = Z.min (Z.max (sval amount) (- available)) margin /\
  (c = NoCapping <-> - available <= sval amount <= margin).
Proof.
  intros Hp Ht Ha Hm H. unfold aggregate_capping in H.
  apply rbind_ok in H as (wo & [-> Hwo]%ud_sub_ok & H).
  apply rbind_ok in H as (av & Hav & H).
  apply signed_checked_add_ok in Hav as [Hav Hok]; [|auto with perps..].
  rewrite sval_into_signed in Hav.
  assert (signed_ok (signed_neg av)) as Hnok by auto with perps.
  assert (signed_ok (into_signed margin)) as Hmok by auto with perps.
  assert (sval (signed_neg av) = - (total - margin + sval paid)) as Hn by (rewrite sval_neg; lia).
  rewrite signed_ltb_sval in H by done.
  assert (margin <= total) as Hle by (unfold is_dec in Hwo; lia).
  destruct (Z.ltb_spec (sval amount) (sval (signed_neg av))) as [Hlt|Hge];
    rewrite signed_gtb_sval, sval_into_signed in H by done;
    match type of H with context [?a <? ?b] => destruct (Z.ltb_spec a b) end;
    injection H as <-; simpl; rewrite ?sval_into_signed; unfold is_dec in *;
    (split_and!; [lia|done|lia|split; [intros Hc; first [done|lia]|intros; first [done|exfalso; lia]]]).
Qed.

(** C10: what a position pays for funding is capped so that the funds always
    cover what the others may still receive.  The payment is the amount owed,
    raised to what keeps the net payments covered by the other positions'
    margins and then lowered to the position's own margin.  An event, with the
    amount paid and the amount owed, is emitted exactly when the amount owed is
    outside these two bounds.  Without an event the amount is paid as owed;
    with one it is another amount, except when the position owes its whole
    margin while more would be needed, where the two caps cancel out.  And if
    the net funding paid was covered by all margins, the new total is covered
    without this position's. *)
Theorem funding_payment_covered (m : MarketCtx) (amount : Signed) (pos : Position)
    (p : FundingFeePaymentWithCapping) :
  funding_typed (m_funding m) -> signed_ok amount -> margin_typed (pos_liquidation_margin pos) ->
  track_funding_fee_payment_with_capping m amount pos = Ok p ->
  let paid := sval (TOTAL_NET_FUNDING_PAID (m_funding m)) in
  let total := TOTAL_FUNDING_MARGIN (m_funding m) in
  let margin := margin_funding (pos_liquidation_margin pos) in
  let available := total - margin + paid in
  sval (ffp_amount p) = Z.min (Z.max (sval amount) (- available)) margin /\
  sval (ffp_total_net_funding_paid p) = paid + sval (ffp_amount p) /\
  (ffp_event p = None <-> - available <= sval amount <= margin) /\
  (forall event, ffp_event p = Some event ->
     event = mkInsufficientMarginEvent (pos_id pos) FeeTypeFundingTotal
               (signed_neg (ffp_amount p)) (signed_neg amount)) /\
  (sval (ffp_amount p) = sval amount <->
     ffp_event p = None \/ sval amount = margin /\ margin < - available) /\
  (0 <= paid + total -> 0 <= sval (ffp_total_net_funding_paid p) + (total - margin)).
Proof.
  intros [Hp Ht] Ha [_ Hm _] H. unfold track_funding_fee_payment_with_capping in H.
  apply rbind_ok in H as (c & Hc & H).
  apply aggregate_capping_ok in Hc as (Hle & Hok & Hv & Hcap); [|done..].
  destruct c as [|r]; apply rbind_ok in H as (t & Hsum & H); injection H as <-; simpl;
    (apply signed_checked_add_ok in Hsum as [Hsum _]; [|done..]);
    (split_and!; [done|done|by rewrite <- Hcap|by intros e [= <-]| |lia]).
  - split; [by left|done].
  - assert (~ (- (TOTAL_FUNDING_MARGIN (m_funding m) - margin_funding (pos_liquidation_margin pos)
      + sval (TOTAL_NET_FUNDING_PAID (m_funding m))) <= sval amount
      <= margin_funding (pos_liquidation_margin pos))) as Hout by (intros Hc; by apply Hcap in Hc).
    simpl in *. split; [right; lia|intros [?|?]; [done|lia]].
Qed.

(** ** The borrow rate *)

Lemma next_total_rate_bounds st prev bias n r :
  borrow_fee_rate_min_annualized (st_config st) <= borrow_fee_rate_max_annualized (st_config st) ->
  next_total_rate st prev bias n = Ok r ->
  borrow_fee_rate_min_annualized (st_config st) <= r
    <= borrow_fee_rate_max_annualized (st_config st).
Proof.
  intros Hle H. unfold next_total_rate in H.
  apply rbind_ok in H as (a & _ & H). apply rbind_ok in H as (b & _ & H).
  apply rbind_ok in H as (c & _ & H). apply rbind_ok in H as (d & _ & H).
  apply rbind_ok in H as (e & _ & H). apply rbind_ok in H as (f & _ & H).
  apply rbind_ok in H as (g & _ & H).
  destruct (try_into_non_negative_value g ≫= nonzero_new) as [v|].
  - unfold clamp in H. destruct (Z.leb_spec (borrow_fee_rate_min_annualized (st_config st))
      (borrow_fee_rate_max_annualized (st_config st))); [|done]. injection H as <-. lia.
  - injection H as <-. lia.
Qed.

(** With multipliers of at least one, so is the multiplier between them. *)
Lemma calc_multiplier_ge_one lo hi l x r :
  DEC_ONE <= lo <= hi -> 0 <= l -> 0 <= x -> 0 < l + x ->
  calc_multiplier lo hi l x = Ok r -> DEC_ONE <= r.
Proof.
  intros Hlo Hl Hx Hpos H. unfold calc_multiplier in H. pose proof DEC_ONE_pos as H1.
  apply rbind_ok in H as (a & [-> _]%std_mul_ok & H).
  apply rbind_ok in H as (b & [-> _]%std_mul_ok & H).
  apply rbind_ok in H as (s & [-> _]%std_add_ok & H).
  apply rbind_ok in H as (t & [-> _]%ud_add_ok & H). apply op_div_ok in H as (_ & -> & _).
  assert (x <= lo * x / DEC_ONE) by (apply Z.div_le_lower_bound; nia).
  assert (l <= hi * l / DEC_ONE) by (apply Z.div_le_lower_bound; nia).
  apply Z.div_le_lower_bound; [done|]. nia.
Qed.

Lemma split_rate_ok st stats total r :
  config_valid (st_config st) -> pool_ok stats -> 0 <= total ->
  split_rate st stats total = Ok r ->
  bf_lp r + bf_xlp r = total /\ 0 <= bf_lp r /\ 0 <= bf_xlp r /\
  (total_xlp stats = 0 -> bf_xlp r = 0) /\
  (total_xlp stats <> 0 -> total_lp stats = 0 -> bf_lp r = 0) /\
  bf_lp r * total_xlp stats <= bf_xlp r * total_lp stats.
Proof.
  intros Hv [_ _ Hl Hx] Ht H. unfold split_rate, ud_is_zero in H. pose proof DEC_ONE_pos as H1.
  destruct (Z.eqb_spec (total_xlp stats) 0) as [E|E].
  { injection H as <-. simpl. rewrite E. split_and!; try done; lia. }
  destruct (Z.eqb_spec (total_lp stats) 0) as [E'|E'].
  { injection H as <-. simpl. rewrite E'. split_and!; try done; lia. }
  apply rbind_ok in H as (k & Hk & H).
  apply calc_multiplier_ge_one in Hk; [|apply Hv|lia..].
  apply rbind_ok in H as (xs & [-> Hxs]%std_mul_ok & H).
  apply rbind_ok in H as (sh & [-> Hsh]%ud_add_ok & H).
  apply rbind_ok in H as (sc & [-> Hsc]%std_mul_ok & H).
  apply rbind_ok in H as (lp & (Hne & -> & Hlp)%std_div_ok & H).
  apply rbind_ok in H as (xlp & [-> Hxlp]%std_sub_ok & H). injection H as <-. simpl.
  unfold is_dec in *. split; [lia|]. split; [lia|]. split; [lia|]. split; [done|]. split; [done|].
  set (l := total_lp stats) in *. set (x := total_xlp stats) in *.
  assert (x <= x * k / DEC_ONE) as Hxk by (apply Z.div_le_lower_bound; nia).
  set (xs := x * k / DEC_ONE) in *.
  pose proof (mul_div_bound total l (l + xs) ltac:(lia) ltac:(lia) ltac:(lia)) as Hb.
  set (q := total * l / DEC_ONE * DEC_ONE / (l + xs)) in *.
  assert (q * (l + x) <= q * (l + xs)) by (apply Z.mul_le_mono_nonneg_l; lia). nia.
Qed.

Lemma derive_borrow_rate_ok st m pp r :
  config_valid (st_config st) -> 0 <= borrow_fee_rate_min_annualized (st_config st) ->
  pool_ok (liquidity_stats m) -> derive_instant_borrow_fee_rate_annual st m pp = Ok r ->
  let c := st_config st in let s := liquidity_stats m in
  borrow_fee_rate_min_annualized c <= bf_lp r + bf_xlp r <= borrow_fee_rate_max_annualized c /\
  0 <= bf_lp r /\ 0 <= bf_xlp r /\
  (total_xlp s = 0 -> bf_xlp r = 0) /\ (total_xlp s <> 0 -> total_lp s = 0 -> bf_lp r = 0) /\
  bf_lp r * total_xlp s <= bf_xlp r * total_lp s.
Proof.
  intros Hv Hmin Hp H. unfold derive_instant_borrow_fee_rate_annual in H.
  apply rbind_ok in H as ([t prev] & _ & H). apply rbind_ok in H as (n & _ & H).
  apply rbind_ok in H as (bias & _ & H). apply rbind_ok in H as (total & Ht & H).
  apply next_total_rate_bounds in Ht; [|apply Hv].
  apply split_rate_ok in H as (Hsum & ? & ? & ? & ? & ?); [|done|done|lia].
  simpl. rewrite Hsum. split_and!; try done; lia.
Qed.

Lemma append_to_ok get set time v m u m' :
  append_to get set time v m = Ok (u, m') ->
  exists s, series_append (get (m_funding m)) time v = Ok s /\
    m' = set_m_funding (set s (m_funding m)) m /\
    exists p, s !! time = Some (mkDataPoint p v).
Proof.
  unfold append_to, mod_funding. intros H. apply hbind_ok in H as (s & m1 & Hs & H).
  apply hask_ok in Hs as [Hs ->]. apply hmod_ok in H. exists s. split; [done|]. split; [done|].
  unfold series_append in Hs. apply rbind_ok in Hs as (p & _ & Hs). injection Hs as <-.
  exists p. by rewrite lookup_insert_eq.
Qed.

(** C12: the borrow rate the crank stores keeps to the configuration.  Whatever
    the utilisation and the time since the last update, the LP and xLP parts are
    not negative and add up to a rate between the configured minimum and
    maximum; nothing goes to a kind of token that does not exist; and an xLP
    token never earns less than an LP token. *)
Theorem borrow_rate_bounds (st : State) (m m' : MarketCtx) (pp : PricePoint) :
  config_valid (st_config st) -> 0 <= borrow_fee_rate_min_annualized (st_config st) ->
  pool_ok (liquidity_stats m) -> accumulate_borrow_fee_rate st pp m = Ok (tt, m') ->
  let c := st_config st in let s := liquidity_stats m in
  exists lp_rate xlp_rate pl px,
    LP_BORROW_FEE_DATA_SERIES (m_funding m') !! pp_timestamp pp
      = Some (mkDataPoint pl (into_signed lp_rate)) /\
    XLP_BORROW_FEE_DATA_SERIES (m_funding m') !! pp_timestamp pp
      = Some (mkDataPoint px (into_signed xlp_rate)) /\
    borrow_fee_rate_min_annualized c <= lp_rate + xlp_rate <= borrow_fee_rate_max_annualized c /\
    0 <= lp_rate /\ 0 <= xlp_rate /\
    (total_xlp s = 0 -> xlp_rate = 0) /\ (total_xlp s <> 0 -> total_lp s = 0 -> lp_rate = 0) /\
    lp_rate * total_xlp s <= xlp_rate * total_lp s.
Proof.
  intros Hv Hmin Hp H. unfold accumulate_borrow_fee_rate in H.
  apply hbind_ok in H as (r & m1 & Hr & H). apply hask_ok in Hr as [Hr ->].
  apply derive_borrow_rate_ok in Hr; [|done..].
  step_in H u1 m1 H1. apply append_to_ok in H1 as (s1 & _ & -> & p1 & H1).
  step_in H u2 m2 H2. apply append_to_ok in H2 as (s2 & _ & -> & p2 & H2).
  lift_in H t Ht. unfold add_event in H. apply hmod_ok in H.
  exists (bf_lp r), (bf_xlp r), p1, p2.
  assert (m_funding m' = set_XLP_BORROW_FEE_DATA_SERIES s2
    (set_LP_BORROW_FEE_DATA_SERIES s1 (m_funding m))) as ->
    by (rewrite H; by destruct (mute_events (st_config st))).
  split; [exact H1|]. split; [exact H2|]. exact Hr.
Qed.

(** ** The funding rate *)

Lemma rf_popular_ok st eff net l s r :
  0 <= eff -> 0 <= value net -> 0 <= l -> 0 <= s -> 0 <= funding_rate_max_annualized (st_config st) ->
  rf_popular st eff net l s = Ok r -> 0 <= r <= funding_rate_max_annualized (st_config st).
Proof.
  intros He Hn Hl Hs Hc H. unfold rf_popular in H.
  apply rbind_ok in H as (t & [-> _]%ud_add_ok & H).
  apply rbind_ok in H as (q & (_ & -> & [Hq _])%std_div_ok & H).
  apply rbind_ok in H as (p & [-> [Hp _]]%std_mul_ok & H). injection H as <-. lia.
Qed.

(** The unpopular side receives at most what the popular side pays. *)
Lemma rf_unpopular_ok st eff net l s r u :
  0 <= r -> rf_popular st eff net l s = Ok r -> rf_unpopular st eff net l s = Ok u ->
  0 < l -> 0 < s ->
  0 <= u /\ (s < l -> u * s <= r * l) /\ (l < s -> u * l <= r * s).
Proof.
  intros Hr Hpop H Hl Hs. pose proof DEC_ONE_pos as H1. unfold rf_unpopular in H.
  assert (forall a b, 0 < a -> 0 < b ->
    0 <= r * (a * DEC_ONE / b) / DEC_ONE /\ r * (a * DEC_ONE / b) / DEC_ONE * b <= r * a) as Hdiv.
  { intros a b Ha Hb. assert (0 <= a * DEC_ONE / b) by (apply Z.div_pos; nia).
    split; [apply Z.div_pos; nia|].
    pose proof (Z.mul_div_le (a * DEC_ONE) b Hb).
    pose proof (Z.mul_div_le (r * (a * DEC_ONE / b)) DEC_ONE H1). nia. }
  destruct (Z.compare_spec l s) as [E|E|E].
  - injection H as <-. split_and!; lia.
  - apply rbind_ok in H as (r' & Hr' & H). rewrite Hpop in Hr'. injection Hr' as <-.
    apply rbind_ok in H as (q & (_ & -> & _)%std_div_ok & H). apply std_mul_ok in H as [-> _].
    destruct (Hdiv s l Hs Hl). split_and!; try done; lia.
  - apply rbind_ok in H as (r' & Hr' & H). rewrite Hpop in Hr'. injection Hr' as <-.
    apply rbind_ok in H as (q & (_ & -> & _)%std_div_ok & H). apply std_mul_ok in H as [-> _].
    destruct (Hdiv l s Hl Hs). split_and!; try done; lia.
Qed.

(** Funding rates are a transfer from the popular to the unpopular side.
    The side with more open interest pays a rate between zero and the annual
    cap, the other side receives, what all positions of the popular side pay
    covers what the other side receives, and there are no payments in a balanced
    or one-sided market. *)
Theorem funding_rates_balanced (st : State) (m : MarketCtx) (long_rate short_rate : Number) :
  let cap := funding_rate_max_annualized (st_config st) in
  let long := open_long_interest m in let short := open_short_interest m in
  is_dec long -> is_dec short -> 0 <= cap -> 0 <= funding_rate_sensitivity (st_config st) ->
  derive_instant_funding_rate_annual st m = Ok (long_rate, short_rate) ->
  0 <= sval long_rate * long + sval short_rate * short /\
  (short < long -> 0 <= sval long_rate <= cap /\ sval short_rate <= 0) /\
  (long < short -> 0 <= sval short_rate <= cap /\ sval long_rate <= 0) /\
  (long = short \/ long = 0 \/ short = 0 -> sval long_rate = 0 /\ sval short_rate = 0).
Proof.
  intros cap long short Hl Hs Hcap Hsens H. unfold derive_instant_funding_rate_annual in H.
  fold long short cap in H. unfold positions_net_open_interest in H. fold long short in H.
  apply rbind_ok in H as (net & Hnet & H).
  apply signed_checked_sub_ok in Hnet as [_ [[Hnet _] _]]; [|auto with perps..].
  apply rbind_ok in H as (total & _ & H). apply rbind_ok in H as (high & _ & H).
  apply rbind_ok in H as (p & _ & H). apply rbind_ok in H as (dn & _ & H).
  set (eff := Z.max _ dn) in H. assert (0 <= eff) as Heff by lia.
  unfold ud_is_zero in H. unfold is_dec in *.
  destruct (Z.eqb_spec long 0) as [El|El]; [injection H as <- <-; change (sval NUMBER_ZERO) with 0; split_and!; lia|].
  destruct (Z.eqb_spec short 0) as [Es|Es]; [injection H as <- <-; change (sval NUMBER_ZERO) with 0; split_and!; lia|].
  simpl in H. destruct (Z.compare_spec long short) as [E|E|E].
  - injection H as <- <-. change (sval NUMBER_ZERO) with 0. split_and!; lia.
  - apply rbind_ok in H as (u & Hu & H). apply rbind_ok in H as (r & Hr & H). injection H as <- <-.
    pose proof (rf_popular_ok st eff net long short r Heff Hnet ltac:(lia) ltac:(lia) Hcap Hr) as [Hr0 Hr1].
    destruct (rf_unpopular_ok st eff net long short r u Hr0 Hr Hu ltac:(lia) ltac:(lia)) as (Hu0 & _ & Hule).
    rewrite sval_neg, !sval_into_signed. specialize (Hule E). split_and!; lia.
  - apply rbind_ok in H as (r & Hr & H). apply rbind_ok in H as (u & Hu & H). injection H as <- <-.
    pose proof (rf_popular_ok st eff net long short r Heff Hnet ltac:(lia) ltac:(lia) Hcap Hr) as [Hr0 Hr1].
    destruct (rf_unpopular_ok st eff net long short r u Hr0 Hr Hu ltac:(lia) ltac:(lia)) as (Hu0 & Hule & _).
    rewrite sval_neg, !sval_into_signed. specialize (Hule E). split_and!; lia.
Qed.

(** ** Fee settlement *)

Lemma borrow_payment_ok m pos a b r :
  calculate_borrow_fee_payment m pos a b = Ok r -> is_dec (la_lp r) /\ is_dec (la_xlp r).
Proof.
  unfold calculate_borrow_fee_payment. intros H.
  apply rbind_ok in H as (lr & _ & H). apply rbind_ok in H as (xr & _ & H).
  apply rbind_ok in H as (l & Hl%per_year_typed & H). apply rbind_ok in H as (lp & Hlp & H).
  apply rbind_ok in H as (x & Hx%per_year_typed & H). apply rbind_ok in H as (xlp & Hxlp & H).
  injection H as <-. apply ud_try_from_number_ok in Hlp as [_ ?]; [|done].
  by apply ud_try_from_number_ok in Hxlp as [_ ?].
Qed.

Lemma capped_borrow_ok m pos a b r e :
  margin_typed (pos_liquidation_margin pos) ->
  calc_capped_borrow_fee_payment m pos a b = Ok (r, e) ->
  is_dec (la_lp r) /\ is_dec (la_xlp r) /\
  la_lp r + la_xlp r <= margin_borrow (pos_liquidation_margin pos).
Proof.
  intros [[Hm _] _ _] H. unfold calc_capped_borrow_fee_payment in H.
  apply rbind_ok in H as (u & [Hl Hx]%borrow_payment_ok & H).
  apply rbind_ok in H as (t & [-> _]%ud_add_ok & H).
  destruct (nonzero_new _) as [t|] eqn:E.
  - apply nonzero_new_Some in E as [-> Hne].
    destruct (Z.leb_spec (la_lp u + la_xlp u) (margin_borrow (pos_liquidation_margin pos))).
    + by injection H as <- <-.
    + apply rbind_ok in H as (sc & _ & H). apply rbind_ok in H as (lp & [-> Hlp]%mul_dec_ok & H).
      apply rbind_ok in H as (xlp & [-> Hxlp]%ud_sub_ok & H). injection H as <- <-. simpl.
      split; [done|]. split; [done|]. lia.
  - apply nonzero_new_None in E. injection H as <- <-. split; [done|]. split; [done|]. lia.
Qed.

Lemma capped_funding_typed m pos a b r e :
  margin_typed (pos_liquidation_margin pos) ->
  calc_capped_funding_payment m pos a b = Ok (r, e) -> signed_ok r.
Proof.
  intros [_ Hm _] H. unfold calc_capped_funding_payment in H.
  apply rbind_ok in H as (u & Hu & H). unfold calculate_funding_payment in Hu.
  apply rbind_ok in Hu as (s & _ & Hu). apply rbind_ok in Hu as (n & Hn%per_year_typed & Hu).
  injection Hu as <-. rewrite from_number_id in H.
  destruct (res_ok _) as [v|]; [|by injection H as <- <-].
  destruct (v <=? _); injection H as <- <-; auto with perps.
Qed.

Lemma usd_to_collateral_dec pp x c : usd_to_collateral pp x = Ok c -> is_dec c.
Proof. unfold usd_to_collateral, usd_price_usd_to_collateral. by intros (_ & -> & ?)%op_div_ok. Qed.

Lemma cap_crank_fee_ok pos pp usd c :
  margin_typed (pos_liquidation_margin pos) -> cap_crank_fee pos pp usd = Ok c ->
  is_dec (cap_amount c) /\ cap_amount c <= margin_crank (pos_liquidation_margin pos).
Proof.
  intros [_ _ [Hm Hm']] H. unfold cap_crank_fee in H.
  apply rbind_ok in H as (u & Hu%usd_to_collateral_dec & H).
  destruct (nonzero_new u) as [v|] eqn:E.
  - apply nonzero_new_Some in E as [-> _].
    destruct (Z.leb_spec u (margin_crank (pos_liquidation_margin pos))); [by injection H as <-|].
    apply rbind_ok in H as (cu & _ & H). injection H as <-. simpl. split; [split|]; lia || done.
  - apply nonzero_new_None in E as ->. injection H as <-. simpl. done.
Qed.

Definition borrow_collected (c : BorrowFeeCollection) : Z :=
  fe_lp_amount (bfc_event c) + fe_xlp_amount (bfc_event c) + fe_protocol_amount (bfc_event c).

Lemma collect_borrow_fee_ok st m id a pp c :
  collect_borrow_fee st m id a pp = Ok c -> borrow_collected c = la_lp a + la_xlp a.
Proof.
  unfold collect_borrow_fee. intros H.
  apply rbind_ok in H as (pl & _ & H). apply rbind_ok in H as (px & _ & H).
  apply rbind_ok in H as (l & [-> _]%ud_sub_ok & H). apply rbind_ok in H as (x & [-> _]%ud_sub_ok & H).
  apply rbind_ok in H as (p & [-> _]%ud_add_ok & H). apply rbind_ok in H as (y & _ & H).
  apply rbind_ok in H as (e & He & H). injection H as <-. unfold fee_event in He.
  apply rbind_ok in He as (? & _ & He). apply rbind_ok in He as (? & _ & He).
  apply rbind_ok in He as (? & _ & He). injection He as <-. unfold borrow_collected. simpl. lia.
Qed.

Lemma charge_fees_ok p t price p' ev :
  position_ok p -> signed_ok t -> charge_fees p t price = (p', ev) ->
  match p' with
  | PosOpen q => q = set_collaterals p (active_collateral p - sval t) (counter_collateral p) /\
      0 < active_collateral q <= U256_MAX
  | PosClose i => i = mkClosePosition (set_collaterals p TINY_COLLATERAL (counter_collateral p))
        signed_zero 0 price (CloseLiquidated LiqLiquidated) true /\
      (active_collateral p <= sval t \/ U256_MAX < active_collateral p - sval t)
  end.
Proof.
  intros Hp Ht H. unfold charge_fees in H. destruct (pos_active _ Hp) as [Ha Ha'].
  destruct (nonzero_checked_sub_signed (active_collateral p) t) as [a|err] eqn:E; simpl in H;
    injection H as <- _.
  - apply nonzero_checked_sub_signed_ok in E as [-> ?]; [|unfold is_dec; lia|done].
    split; [done|]. simpl. lia.
  - split; [done|]. destruct (Z.le_gt_cases (active_collateral p) (sval t)) as [?|Hgt]; [by left|].
    destruct (Z.le_gt_cases (active_collateral p - sval t) U256_MAX) as [Hle|?]; [|by right].
    exfalso. assert (nonzero_checked_sub_signed (active_collateral p) t
      = Ok (active_collateral p - sval t)) as E'; [|by rewrite E' in E].
    apply nonzero_checked_sub_signed_ok; [unfold is_dec; lia|done|]. split; [done|lia].
Qed.

(** The fees of a settlement. *)
Definition crank_charged (s : PositionFeeSettlement) : Z :=
  match pfs_cap_crank_fee s with Some c => cap_amount c | None => 0 end.
Definition settled_total (s : PositionFeeSettlement) : Z :=
  borrow_collected (pfs_borrow_fee_collection s) + sval (ffp_amount (pfs_funding_fee_payment s))
  + crank_charged s.

Lemma track_payment_ok m amount pos p :
  margin_typed (pos_liquidation_margin pos) -> funding_typed (m_funding m) -> signed_ok amount ->
  track_funding_fee_payment_with_capping m amount pos = Ok p ->
  sval (ffp_amount p) <= margin_funding (pos_liquidation_margin pos) /\ signed_ok (ffp_amount p) /\
  sval (ffp_total_net_funding_paid p) = sval (TOTAL_NET_FUNDING_PAID (m_funding m)) + sval (ffp_amount p) /\
  signed_ok (ffp_total_net_funding_paid p).
Proof.
  intros Hm [Hpaid Htot] Ha H. unfold track_funding_fee_payment_with_capping in H.
  apply rbind_ok in H as (c & Hc & H).
  apply aggregate_capping_ok in Hc as (_ & Hok & Hv & _); [|done|done|done|apply Hm].
  destruct c; apply rbind_ok in H as (t & Ht & H); injection H as <-; simpl;
    (apply signed_checked_add_ok in Ht as [? ?]; [|done..]); split_and!; done || lia.
Qed.

(** What a settlement computes, in full. *)
Lemma fee_settlement_ok (st : State) (m : MarketCtx) (pos : Position)
    (starts_at ends_at : Timestamp) (charge : bool) (s : PositionFeeSettlement) :
  position_ok pos -> margin_typed (pos_liquidation_margin pos) -> funding_typed (m_funding m) ->
  fee_settlement_new st m pos starts_at ends_at charge = Ok s ->
  let margin := pos_liquidation_margin pos in
  let paid := pfs_funding_fee_payment s in
  let active := active_collateral pos - settled_total s in
  0 <= borrow_collected (pfs_borrow_fee_collection s) <= margin_borrow margin /\
  sval (ffp_amount paid) <= margin_funding margin /\
  0 <= crank_charged s <= margin_crank margin /\
  sval (ffp_total_net_funding_paid paid) =
    sval (TOTAL_NET_FUNDING_PAID (m_funding m)) + sval (ffp_amount paid) /\
  signed_ok (ffp_total_net_funding_paid paid) /\
  exists price funding borrow crank,
    let p := set_accrued_fees pos funding borrow crank in
    spot_price_at st m ends_at = Ok price /\
    match pfs_position s with
    | PosOpen q => q = set_collaterals p active (counter_collateral pos) /\ 0 < active <= U256_MAX
    | PosClose i =>
        i = mkClosePosition (set_collaterals p TINY_COLLATERAL (counter_collateral pos)) signed_zero 0
              price (CloseLiquidated LiqLiquidated) true /\
        (active <= 0 \/ U256_MAX < active)
    end.
Proof.
  intros Hp Hm Hf H. unfold fee_settlement_new in H. simpl.
  apply rbind_ok in H as (price & Hprice & H).
  apply rbind_ok in H as ([bo e1] & (Hlp & Hxlp & Hb)%capped_borrow_ok & H); [|done].
  apply rbind_ok in H as ([fo e2] & Hfo%capped_funding_typed & H); [|done].
  apply rbind_ok in H as (fp & Hfp & H). apply track_payment_ok in Hfp as (Hfl & Hfok & Htv & Htok); [|done..].
  apply rbind_ok in H as (fu & _ & H). apply rbind_ok in H as (bt & _ & H).
  apply rbind_ok in H as (bf & _ & H). apply rbind_ok in H as (bc & Hbc%collect_borrow_fee_ok & H).
  apply rbind_ok in H as (usd & _ & H). apply rbind_ok in H as ([pos' cc] & Hcc & H).
  assert (exists crank, pos' = set_accrued_fees pos fu bf crank /\
    is_dec (match cc with Some c => cap_amount c | None => 0 end) /\
    match cc with Some c => cap_amount c | None => 0 end
      <= margin_crank (pos_liquidation_margin pos)) as (crank & -> & Hcd & Hcl).
  { destruct charge.
    - apply rbind_ok in Hcc as (c & Hc & Hcc). apply cap_crank_fee_ok in Hc as [? ?]; [|done].
      apply rbind_ok in Hcc as (k & _ & Hcc). injection Hcc as <- <-. by exists k.
    - injection Hcc as <- <-. destruct Hm as [_ _ [? ?]]. by exists (pos_crank_fee pos). }
  apply rbind_ok in H as (b & Hb1 & H). apply rbind_ok in H as (f & Hf1 & H).
  apply rbind_ok in H as (t & Ht1 & H).
  apply signed_checked_add_ok in Hb1 as [Hb1 Hbok]; [|auto with perps..].
  apply signed_checked_add_ok in Hf1 as [Hf1 Hfok1]; [|done..].
  assert (signed_ok (match cc with Some c => into_signed (cap_amount c) | None => into_signed 0 end)
    /\ sval (match cc with Some c => into_signed (cap_amount c) | None => into_signed 0 end)
       = match cc with Some c => cap_amount c | None => 0 end) as [Hcok Hcv]
    by (destruct cc; split; auto with perps).
  apply signed_checked_add_ok in Ht1 as [Ht1 Htok1]; [|done..].
  destruct (charge_fees _ t price) as [q ev] eqn:Hq. injection H as <-.
  apply charge_fees_ok in Hq; [|by destruct Hp|done].
  unfold settled_total, crank_charged. simpl. rewrite Hbc.
  replace (la_lp bo + la_xlp bo + sval (ffp_amount fp) + match cc with Some c => cap_amount c | None => 0 end)
    with (sval t) by (rewrite Ht1, Hf1, Hb1, Hcv, !sval_into_signed; done).
  unfold is_dec in Hlp, Hxlp, Hcd. split_and!; try done; try lia.
  exists price, fu, bf, crank. split; [done|]. destruct Hp as [[? ?] ? ?]. simpl in Hq.
  destruct q as [q|i]; [destruct Hq as [-> ?]; simpl in *|destruct Hq as [-> ?]]; (split; [done|]).
  - done.
  - lia.
Qed.

(** C11: settling a position's fees takes from its collateral exactly what it
    collects.  Borrow, funding and crank fees are each within the margin set
    aside for them; the active collateral falls by their sum, which is what goes
    to the liquidity providers and the protocol, to the funding total and to the
    crank fund; and as long as the collateral exceeds these margins the position
    stays open, the forced closing being left to a position that could not pay
    (or whose collateral would overflow). *)
Theorem fee_settlement_conserves (st : State) (m : MarketCtx) (pos : Position)
    (starts_at ends_at : Timestamp) (charge : bool) (s : PositionFeeSettlement) :
  position_ok pos -> margin_typed (pos_liquidation_margin pos) -> funding_typed (m_funding m) ->
  fee_settlement_new st m pos starts_at ends_at charge = Ok s ->
  let margin := pos_liquidation_margin pos in
  0 <= borrow_collected (pfs_borrow_fee_collection s) <= margin_borrow margin /\
  sval (ffp_amount (pfs_funding_fee_payment s)) <= margin_funding margin /\
  0 <= crank_charged s <= margin_crank margin /\
  match pfs_position s with
  | PosOpen p => active_collateral p = active_collateral pos - settled_total s /\
      counter_collateral p = counter_collateral pos /\ notional_size p = notional_size pos
  | PosClose _ => active_collateral pos <= settled_total s \/
      U256_MAX < active_collateral pos - settled_total s
  end /\
  (margin_borrow margin + margin_funding margin + margin_crank margin < active_collateral pos ->
   active_collateral pos - settled_total s <= U256_MAX -> exists p, pfs_position s = PosOpen p).
Proof.
  intros Hp Hm Hf H. simpl.
  apply fee_settlement_ok in H as (Hb & Hfl & Hc & _ & _ & price & fu & bo & cr & _ & H); [|done..].
  split; [done|]. split; [done|]. split; [done|].
  destruct (pfs_position s) as [q|i]; destruct H as [-> H]; simpl.
  - split; [done|]. intros _ _. by eexists.
  - split; [lia|]. unfold settled_total in *. lia.
Qed.
End Theory.

(** ** Witnesses: a market with a popular long side *)

Definition sample_funding_market : MarketCtx :=
  set_m_funding
    (mkFundingStore {[ 0 := mkDataPoint NUMBER_ZERO (mkSigned (DEC_ONE / 10) false) ]}
      {[ 0 := mkDataPoint NUMBER_ZERO (mkSigned (DEC_ONE / 20) false) ]}
      {[ 0 := mkDataPoint NUMBER_ZERO (mkSigned (DEC_ONE / 5) false) ]}
      {[ 0 := mkDataPoint NUMBER_ZERO (mkSigned (DEC_ONE / 4) true) ]}
      (mkSigned (2 * DEC_ONE) true) (50 * DEC_ONE))
    (set_OPEN_NOTIONAL_LONG_INTEREST (50 * DEC_ONE)
      (set_OPEN_NOTIONAL_SHORT_INTEREST (40 * DEC_ONE)
        (set_m_liquidity (m_liquidity sample_staked) sample_market))).

Definition sample_day : Timestamp := 24 * 3600 * 1000000000.

Lemma funding_payment_covered_witness :
  exists p, track_funding_fee_payment_with_capping (CW:=cosmwasm_ref) sample_funding_market
    (mkSigned (100 * DEC_ONE) true) sample_position = Ok p /\
  ffp_event p <> None /\
  0 <= sval (ffp_total_net_funding_paid p)
       + (50 * DEC_ONE - margin_funding (pos_liquidation_margin sample_position)).
Proof.
  destruct (is_ok_Ok (track_funding_fee_payment_with_capping (CW:=cosmwasm_ref)
    sample_funding_market (mkSigned (100 * DEC_ONE) true) sample_position)) as [p Hp];
    [vm_compute; reflexivity|].
  exists p. split; [exact Hp|].
  destruct (funding_payment_covered (CW:=cosmwasm_ref) (CWS:=cosmwasm_ref_spec)
    sample_funding_market (mkSigned (100 * DEC_ONE) true) sample_position p) as (_ & _ & He & _ & _ & Hs);
    [..|exact Hp|].
  - split; (split; [split; vm_compute; discriminate|]) || split; vm_compute; discriminate.
  - split; [split; vm_compute; discriminate|discriminate].
  - split; split; vm_compute; discriminate.
  - split; [|apply Hs; vm_compute; discriminate].
    rewrite He. intros [Hc _]. revert Hc. vm_compute. tauto.
Defined.

Lemma sample_config_valid : config_valid sample_config.
Proof.
  apply (config_validate_iff (CW:=cosmwasm_ref) (CWS:=cosmwasm_ref_spec) sample_config
    sample_config_typed).
  vm_compute. reflexivity.
Qed.

Lemma borrow_rate_bounds_witness :
  exists m', accumulate_borrow_fee_rate (CW:=cosmwasm_ref) (sample_state sample_day)
    (make_price_point (sample_state sample_day) sample_day sample_price) sample_funding_market
    = Ok (tt, m') /\
  exists lp_rate xlp_rate, lp_rate + xlp_rate <= borrow_fee_rate_max_annualized sample_config /\
    XLP_BORROW_FEE_DATA_SERIES (m_funding m') !! sample_day <> None /\ 0 <= lp_rate.
Proof.
  destruct (is_ok_Ok (accumulate_borrow_fee_rate (CW:=cosmwasm_ref) (sample_state sample_day)
    (make_price_point (sample_state sample_day) sample_day sample_price) sample_funding_market))
    as [[[] m'] Hm]; [vm_compute; reflexivity|].
  exists m'. split; [exact Hm|].
  destruct (borrow_rate_bounds (CW:=cosmwasm_ref) (CWS:=cosmwasm_ref_spec)
    (sample_state sample_day) sample_funding_market m'
    (make_price_point (sample_state sample_day) sample_day sample_price) sample_config_valid)
    as (lp_rate & xlp_rate & pl & px & Hl & Hx & [_ Hmax] & H0 & _); [..|exact Hm|].
  - vm_compute. discriminate.
  - repeat split; vm_compute; discriminate.
  - exists lp_rate, xlp_rate. split; [exact Hmax|]. split; [|exact H0].
    change (pp_timestamp (make_price_point (sample_state sample_day) sample_day sample_price))
      with sample_day in Hx. rewrite Hx. discriminate.
Defined.

Lemma funding_rates_balanced_witness :
  exists long short, derive_instant_funding_rate_annual (CW:=cosmwasm_ref) (sample_state sample_day)
    sample_funding_market = Ok (long, short) /\
  0 < sval long /\ sval short <= 0 /\ 0 <= sval long * (50 * DEC_ONE) + sval short * (40 * DEC_ONE).
Proof.
  destruct (is_ok_Ok (derive_instant_funding_rate_annual (CW:=cosmwasm_ref)
    (sample_state sample_day) sample_funding_market)) as [[long short] H]; [vm_compute; reflexivity|].
  exists long, short. split; [exact H|].
  destruct (funding_rates_balanced (CW:=cosmwasm_ref) (CWS:=cosmwasm_ref_spec)
    (sample_state sample_day) sample_funding_market long short) as (Hsum & Hgt & _);
    [split; vm_compute; discriminate..|vm_compute; discriminate|vm_compute; discriminate|exact H|].
  destruct Hgt as [_ Hs]; [vm_compute; reflexivity|].
  split; [|split; [exact Hs|exact Hsum]].
  assert (match derive_instant_funding_rate_annual (CW:=cosmwasm_ref) (sample_state sample_day)
    sample_funding_market with Ok (l, _) => 0 <? sval l | Err _ => false end = true) as Hpos
    by (vm_compute; reflexivity).
  rewrite H in Hpos. by apply Z.ltb_lt.
Defined.

(** A long of 20 notional with 10 collateral and margins of one each. *)
Definition sample_trade : Position :=
  mkPosition "trader" 1 (mkSignedCollateralAndUsd (mkSigned (10 * DEC_ONE) false)
    (mkSigned (10 * DEC_ONE) false))
    (10 * DEC_ONE) (30 * DEC_ONE) (mkSigned (20 * DEC_ONE) false) 0 None
    (mkCollateralAndUsd 0 0) (mkSignedCollateralAndUsd NUMBER_ZERO NUMBER_ZERO)
    (mkCollateralAndUsd 0 0) (mkCollateralAndUsd 0 0)
    (mkSignedCollateralAndUsd NUMBER_ZERO NUMBER_ZERO) 0 sample_day None None None
    (mkLiquidationMargin DEC_ONE DEC_ONE DEC_ONE DEC_ONE DEC_ONE) None None None.

Lemma sample_trade_ok : position_ok sample_trade.
Proof. split; vm_compute; repeat split; congruence. Qed.

Lemma fee_settlement_conserves_witness :
  exists s p, fee_settlement_new (CW:=cosmwasm_ref) (sample_state sample_day) sample_funding_market
    sample_trade 0 sample_day true = Ok s /\ pfs_position s = PosOpen p /\
    active_collateral p = 10 * DEC_ONE - settled_total s.
Proof.
  destruct (is_ok_Ok (fee_settlement_new (CW:=cosmwasm_ref) (sample_state sample_day)
    sample_funding_market sample_trade 0 sample_day true)) as [s Hs]; [vm_compute; reflexivity|].
  destruct (fee_settlement_conserves (CW:=cosmwasm_ref) (CWS:=cosmwasm_ref_spec)
    (sample_state sample_day) sample_funding_market sample_trade 0 sample_day true s sample_trade_ok)
    as (_ & _ & _ & Hp & Hopen); [..|exact Hs|].
  - split; split; vm_compute; discriminate.
  - split; [split; [split; vm_compute; discriminate|intros _; vm_compute; discriminate]|].
    split; vm_compute; discriminate.
  - destruct Hopen as [p Hpos].
    + vm_compute. reflexivity.
    + assert (match fee_settlement_new (CW:=cosmwasm_ref) (sample_state sample_day)
        sample_funding_market sample_trade 0 sample_day true with
        | Ok s => active_collateral sample_trade - settled_total s <=? U256_MAX
        | Err _ => false end = true) as Hle by (vm_compute; reflexivity).
      rewrite Hs in Hle. by apply Z.leb_le.
    + exists s, p. split; [exact Hs|]. split; [exact Hpos|]. rewrite Hpos in Hp. apply Hp.
Defined.
