(* ===== verification/DeltaNeutrality.v ===== *)
(** * The delta neutrality fee

    [contracts/market/src/state/delta_neutrality_fee.rs]: the slippage a trade
    pays for moving the market away from balance and receives for moving it
    back, the fund the payouts come from, and the part the protocol keeps. *)

From stdpp Require Import base option gmap strings list.
From Stdlib Require Import ZArith Lia.
From S2P Require Import Prelude Storage Cosmwasm Types Number Time Market Price Token DataSeries Config Position State Pool LpHistory Liquidity Fees.
Local Open Scope Z_scope.

Record CapTriggeredInfo := mkCapTriggeredInfo {
  cti_available : Collateral;
  cti_requested : Collateral;
}.

(** [DeltaNeutralityFeeMultiPass], without its constant configuration. *)
Record DeltaNeutralityFeeMultiPass := mkMultiPass {
  mp_fees : Signed;
  mp_total_in_fund_before_calc : Collateral;
  mp_net_notional : Signed;
  mp_delta_notional : Signed;
  mp_price : PricePoint;
  mp_liquidation_margin_factor : option Collateral;
  mp_cap_triggered_info : option CapTriggeredInfo;
}.

Record ChargeDeltaNeutralityFeeResult := mkChargeResult {
  cr_pos_id : PositionId;
  cr_fee : Signed;
  cr_fee_event : DeltaNeutralityFeeEvent;
  cr_cap_triggered_info : option CapTriggeredInfo;
  cr_total_funds_after : Collateral;
  cr_protocol_fees : Collateral;
  cr_price : PricePoint;
}.

Section Definitions.
Context {CW : CosmwasmStd}.

(** The slippage for moving the net notional by [delta_notional]: linear in the
    imbalance up to the cap, constant beyond. *)
Definition calculate_delta_neutrality_fee_amount (cap sensitivity net_notional delta_notional : Number) :
    res Number :=
  notional_low_cap <- number_checked_mul (signed_neg cap) sensitivity;
  notional_high_cap <- number_checked_mul cap sensitivity;
  after <- signed_checked_add net_notional delta_notional;
  delta_notional_at_low_cap <-
    signed_checked_sub (signed_min after notional_low_cap) (signed_min net_notional notional_low_cap);
  after <- signed_checked_add net_notional delta_notional;
  delta_notional_at_high_cap <-
    signed_checked_sub (signed_max after notional_high_cap)
      (signed_max net_notional notional_high_cap);
  rest <- signed_checked_sub delta_notional delta_notional_at_low_cap;
  delta_notional_uncapped <- signed_checked_sub rest delta_notional_at_high_cap;
  low_amount <- number_checked_mul delta_notional_at_low_cap (signed_neg cap);
  high_amount <- number_checked_mul delta_notional_at_high_cap cap;
  capped_amount <- signed_checked_add low_amount high_amount;
  let net_notional_cap := signed_max (signed_min net_notional notional_high_cap) notional_low_cap in
  square <- number_checked_mul delta_notional_uncapped delta_notional_uncapped;
  two <- signed_two;
  twice <- number_checked_mul two delta_notional_uncapped;
  cross <- number_checked_mul twice net_notional_cap;
  numerator <- signed_checked_add square cross;
  two <- signed_two;
  denominator <- number_checked_mul two sensitivity;
  amount <- number_checked_div numerator denominator;
  signed_checked_add capped_amount amount.

Context (st : State).

Definition fee_cap : Number := into_signed (delta_neutrality_fee_cap (st_config st)).
Definition fee_sensitivity : Number := into_signed (delta_neutrality_fee_sensitivity (st_config st)).

Definition multi_pass_new (m : MarketCtx) (net_notional delta_notional : Signed) (price : PricePoint)
    (liquidation_margin_factor : option Collateral) : DeltaNeutralityFeeMultiPass :=
  mkMultiPass signed_zero (default 0 (DELTA_NEUTRALITY_FUND m)) net_notional delta_notional price
    liquidation_margin_factor None.

(** A payout is scaled by how well the fund covers a return to balance, and
    never exceeds the fund. *)
Definition payout_from_fund (net_notional : Signed) (price : PricePoint)
    (total_in_fund_so_far : Collateral) (amount_in_collateral : Signed) : res Signed :=
  to_balance <- calculate_delta_neutrality_fee_amount fee_cap fee_sensitivity net_notional
                  (signed_neg net_notional);
  slippage_to_balance <- notional_to_collateral price (abs_unsigned to_balance);
  ratio <- match nonzero_new slippage_to_balance with
           | Some slippage_to_balance =>
               tiny <- ud_approx_eq slippage_to_balance 0;
               if tiny : bool then Ok DEC_ONE
               else div_non_zero total_in_fund_so_far slippage_to_balance
           | None => Ok DEC_ONE
           end;
  let ratio := Z.min ratio DEC_ONE in
  n <- checked_mul_number amount_in_collateral (into_signed ratio);
  Ok (if signed_gtb (signed_neg n) (into_signed total_in_fund_so_far)
      then signed_neg (into_signed total_in_fund_so_far) else n).

(** A charge is capped by the margin set aside for it. *)
Definition cap_by_margin (factor : option Collateral) (amount : Signed)
    (info : option CapTriggeredInfo) : Signed * option CapTriggeredInfo :=
  match factor with
  | Some cap =>
      match try_into_non_zero amount with
      | Some requested =>
          if cap <? requested
          then (into_signed cap, Some (mkCapTriggeredInfo cap requested))
          else (amount, info)
      | None => (amount, info)
      end
  | None => (amount, info)
  end.

Definition update_inner (delta_notional : Signed) (self : DeltaNeutralityFeeMultiPass) :
    res DeltaNeutralityFeeMultiPass :=
  total_in_fund_so_far <- ud_checked_add_signed (mp_total_in_fund_before_calc self) (mp_fees self);
  amount_in_notional <- calculate_delta_neutrality_fee_amount fee_cap fee_sensitivity
                          (into_number (mp_net_notional self)) (into_number delta_notional);
  amount_in_collateral <- try_map (notional_to_collateral (mp_price self)) (from_number amount_in_notional);
  amount_in_collateral <-
    (if is_negative amount_in_collateral
     then payout_from_fund (mp_net_notional self) (mp_price self) total_in_fund_so_far
            amount_in_collateral
     else Ok amount_in_collateral);
  let '(amount_in_collateral, info) :=
    cap_by_margin (mp_liquidation_margin_factor self) amount_in_collateral
      (mp_cap_triggered_info self) in
  fees <- signed_checked_add (mp_fees self) amount_in_collateral;
  net_notional <- signed_checked_add (mp_net_notional self) delta_notional;
  Ok (mkMultiPass fees (mp_total_in_fund_before_calc self) net_notional (mp_delta_notional self)
        (mp_price self) (mp_liquidation_margin_factor self) info).

(** [DeltaNeutralityFeeMultiPass::run]: a trade that flips the side of the
    imbalance is charged in two passes. *)
Definition multi_pass_run (self : DeltaNeutralityFeeMultiPass) : res DeltaNeutralityFeeMultiPass :=
  net_notional_after <- signed_checked_add (mp_net_notional self) (mp_delta_notional self);
  let net_notional := mp_net_notional self in
  sign <- number_checked_mul (into_number net_notional) (into_number net_notional_after);
  if is_negative sign
  then
    self <- update_inner (signed_neg net_notional) self;
    rest <- signed_checked_add (mp_delta_notional self) net_notional;
    update_inner rest self
  else update_inner (mp_delta_notional self) self.

Definition calc_delta_neutrality_fee (m : MarketCtx) (notional_delta : Signed) (price : PricePoint)
    (liquidation_margin_factor : option Collateral) : res Signed :=
  net <- positions_net_open_interest m;
  calc <- multi_pass_run (multi_pass_new m net notional_delta price liquidation_margin_factor);
  Ok (mp_fees calc).

(** The protocol's part of a payment into the fund. *)
Definition protocol_part (fees : Signed) : Collateral :=
  default 0 (fees ← try_into_non_zero fees;
             res_ok (checked_mul_dec fees (delta_neutrality_fee_tax (st_config st)))).

Definition charge_delta_neutrality_fee_no_update (m : MarketCtx) (pos : Position)
    (notional_delta : Signed) (price : PricePoint) (reason : DeltaNeutralityFeeReason) :
    res ChargeDeltaNeutralityFeeResult :=
  net <- positions_net_open_interest m;
  calc <- multi_pass_run (multi_pass_new m net notional_delta price
            (match reason with
             | PositionClose | PositionUpdateReason =>
                 Some (margin_delta_neutrality (pos_liquidation_margin pos))
             | PositionOpen => None
             end));
  let protocol_fees := protocol_part (mp_fees calc) in
  fund_fees <- signed_checked_sub (mp_fees calc) (into_signed protocol_fees);
  total_funds_after <- ud_checked_add_signed (mp_total_in_fund_before_calc calc) fund_fees;
  Ok (mkChargeResult (pos_id pos) (mp_fees calc)
        (mkDeltaNeutralityFeeEvent fund_fees (mp_total_in_fund_before_calc calc) total_funds_after
           reason protocol_fees)
        (mp_cap_triggered_info calc) total_funds_after protocol_fees price).

Definition charge_delta_neutrality_fee (m : MarketCtx) (pos : Position) (notional_delta : Signed)
    (price : PricePoint) (reason : DeltaNeutralityFeeReason) :
    res (ChargeDeltaNeutralityFeeResult * Position) :=
  r <- charge_delta_neutrality_fee_no_update m pos notional_delta price reason;
  active <- nonzero_checked_sub_signed (active_collateral pos) (cr_fee r);
  pos <- add_delta_neutrality_fee (set_collaterals pos active (counter_collateral pos)) (cr_fee r)
           price;
  Ok (r, pos).

(** [ChargeDeltaNeutralityFeeResult::apply]. *)
Definition charge_result_apply (r : ChargeDeltaNeutralityFeeResult) : mhandler Signed :=
  add_event st (EvDeltaNeutralityFee (cr_fee_event r));;;
  match cr_cap_triggered_info r with
  | Some info =>
      add_event st (EvInsufficientMargin (mkInsufficientMarginEvent (cr_pos_id r)
        FeeTypeDeltaNeutrality (into_signed (cti_available info)) (into_signed (cti_requested info))))
  | None => hret tt
  end;;;
  hmod (set_DELTA_NEUTRALITY_FUND (Some (cr_total_funds_after r)));;;
  collect_delta_neutrality_fee_for_protocol st (cr_pos_id r) (cr_protocol_fees r) (cr_price r);;;
  hret (cr_fee r).

End Definitions.
