(* ===== verification/DeltaNeutralityInv.v ===== *)
(** * What the delta neutrality fee guarantees

    The fee is the difference of a cost of imbalance, so it does not matter in
    how many steps a market is moved, up to the rounding of the steps; and the
    fund is never overdrawn. *)

From stdpp Require Import base option gmap strings list.
From Stdlib Require Import ZArith Lia.
From S2P Require Import Prelude Storage Cosmwasm Types Number Time Market Price Token DataSeries Config Position State Pool LpHistory Liquidity Fees Funding LiquiditySystem FundingInv DeltaNeutrality.
Local Open Scope Z_scope.

(** ** The cost of imbalance *)

Definition clamp_to (h x : Z) : Z := Z.max (Z.min x h) (- h).

(** The cost of a net notional [x], scaled by [2 * s * DEC_ONE]: quadratic up to
    the cap [h], then linear. *)
Definition imbalance_cost (c s x : Z) : Z :=
  let h := c * s / DEC_ONE in
  2 * s * c * (Z.max x h - Z.min x (- h)) + DEC_ONE * (clamp_to h x * clamp_to h x).

(** What the code computes, on integers. *)
Definition fee_formula (c s n d : Z) : Z :=
  let h := c * s / DEC_ONE in
  let low := Z.min (n + d) (- h) - Z.min n (- h) in
  let high := Z.max (n + d) h - Z.max n h in
  let u := d - low - high in
  Z.quot (low * - c) DEC_ONE + Z.quot (high * c) DEC_ONE
  + Z.quot ((Z.quot (u * u) DEC_ONE + Z.quot (2 * u * clamp_to h n) DEC_ONE) * DEC_ONE) (2 * s).

Lemma quot_close a b : 0 < b -> Z.abs (Z.quot a b * b - a) < b.
Proof.
  intros Hb. pose proof (Z.quot_rem a b ltac:(lia)) as H.
  pose proof (Z.rem_bound_abs a b ltac:(lia)). lia.
Qed.

Lemma quot_nonpos a b : a <= 0 -> 0 < b -> Z.quot a b <= 0.
Proof.
  intros Ha Hb. pose proof (Z.quot_opp_l (- a) b ltac:(lia)) as H. rewrite Z.opp_involutive in H.
  pose proof (Z.quot_pos (- a) b ltac:(lia) Hb). lia.
Qed.

Lemma quot_mul_exact a b : 0 < b -> Z.quot (b * a) b = a.
Proof. intros Hb. rewrite Z.mul_comm. apply Z.quot_mul. lia. Qed.

Lemma fee_formula_close c s n d :
  0 <= c -> 0 < s ->
  Z.abs (2 * s * DEC_ONE * fee_formula c s n d - (imbalance_cost c s (n + d) - imbalance_cost c s n))
    < 6 * s * DEC_ONE + 2 * DEC_ONE * DEC_ONE.
Proof.
  intros Hc Hs. pose proof DEC_ONE_pos as HO. unfold fee_formula, imbalance_cost.
  assert (0 <= c * s / DEC_ONE) as Hh by (apply Z.div_pos; nia).
  set (h := c * s / DEC_ONE) in *. set (O := DEC_ONE) in *.
  set (low := Z.min (n + d) (- h) - Z.min n (- h)).
  set (high := Z.max (n + d) h - Z.max n h). set (u := d - low - high).
  pose proof (quot_close (low * - c) O HO) as H1. set (t1 := Z.quot (low * - c) O) in *.
  pose proof (quot_close (high * c) O HO) as H2. set (t2 := Z.quot (high * c) O) in *.
  pose proof (quot_close (u * u) O HO) as H3. set (q1 := Z.quot (u * u) O) in *.
  pose proof (quot_close (2 * u * clamp_to h n) O HO) as H4.
  set (q2 := Z.quot (2 * u * clamp_to h n) O) in *.
  pose proof (quot_close ((q1 + q2) * O) (2 * s) ltac:(lia)) as H5.
  set (am := Z.quot ((q1 + q2) * O) (2 * s)) in *.
  assert (clamp_to h (n + d) = clamp_to h n + u) as Hcl by (unfold clamp_to, u, low, high; lia).
  rewrite Hcl. set (k := clamp_to h n) in *.
  assert (Z.max (n + d) h - Z.min (n + d) (- h) = Z.max n h - Z.min n (- h) + high - low) as Hml
    by (unfold high, low; lia).
  rewrite Hml. set (b := Z.max n h - Z.min n (- h)).
  clearbody t1 t2 q1 q2 am k u low high b h O. clear Hcl Hml Hh.
  set (e1 := t1 * O - low * - c) in *. set (e2 := t2 * O - high * c) in *.
  set (e3 := q1 * O - u * u) in *. set (e4 := q2 * O - 2 * u * k) in *.
  set (e5 := am * (2 * s) - (q1 + q2) * O) in *.
  replace (2 * s * O * (t1 + t2 + am) - (2 * s * c * (b + high - low) + O * ((k + u) * (k + u))
    - (2 * s * c * b + O * (k * k)))) with (2 * s * e1 + 2 * s * e2 + O * e5 + O * e3 + O * e4)
    by (unfold e1, e2, e3, e4, e5; ring).
  clearbody e1 e2 e3 e4 e5.
  assert (forall e w g, 0 < w -> Z.abs e < g -> - (w * g) < w * e < w * g) as Hw by (intros; nia).
  pose proof (Hw e1 s O Hs H1). pose proof (Hw e2 s O Hs H2). pose proof (Hw e3 O O HO H3).
  pose proof (Hw e4 O O HO H4). pose proof (Hw e5 O (2 * s) HO H5). lia.
Qed.

(** Returning to balance is never charged. *)
Lemma fee_formula_to_balance c s n : 0 <= c -> 0 < s -> fee_formula c s n (- n) <= 0.
Proof.
  intros Hc Hs. pose proof DEC_ONE_pos as HO. unfold fee_formula.
  assert (0 <= c * s / DEC_ONE) as Hh by (apply Z.div_pos; nia).
  set (h := c * s / DEC_ONE) in *.
  replace (n + - n) with 0 by lia. rewrite (Z.min_r 0 (- h)), (Z.max_r 0 h) by lia.
  set (low := - h - Z.min n (- h)). set (high := h - Z.max n h).
  assert (0 <= low) by (unfold low; lia). assert (high <= 0) by (unfold high; lia).
  assert (- n - low - high = - clamp_to h n) as -> by (unfold clamp_to, low, high; lia).
  set (k := clamp_to h n).
  assert (Z.quot (low * - c) DEC_ONE <= 0) by (apply quot_nonpos; [nia|done]).
  assert (Z.quot (high * c) DEC_ONE <= 0) by (apply quot_nonpos; [nia|done]).
  assert (Z.quot ((Z.quot (- k * - k) DEC_ONE + Z.quot (2 * - k * k) DEC_ONE) * DEC_ONE) (2 * s) <= 0);
    [|lia].
  apply quot_nonpos; [|lia].
  replace (2 * - k * k) with (- (2 * (k * k))) by ring. rewrite Z.quot_opp_l by lia.
  replace (- k * - k) with (k * k) by ring.
  assert (Z.quot (k * k) DEC_ONE <= Z.quot (2 * (k * k)) DEC_ONE)
    by (apply Z.quot_le_mono; nia). nia.
Qed.

Section Theory.
Context {CW : CosmwasmStd} {CWS : CosmwasmStdSpec CW}.

Lemma signed_two_ok t : signed_two = Ok t -> t = new_positive (2 * DEC_ONE).
Proof.
  unfold signed_two, ud_two. intros (v & Hv & [= <-])%rbind_ok. apply panics_ok in Hv.
  rewrite dec_from_atomics_spec in Hv by (vm_compute; split; discriminate).
  by apply fits_Some in Hv as [-> _].
Qed.

Lemma number_mul_ok a b r :
  signed_ok a -> signed_ok b -> number_checked_mul a b = Ok r ->
  sval r = Z.quot (sval a * sval b) DEC_ONE /\ signed_ok r.
Proof.
  intros Ha Hb H. split; [|by eapply number_mul_typed].
  rewrite number_checked_mul_fits in H by done. apply signed_fits_ok in H as [-> _].
  by rewrite sval_signed_of.
Qed.

Lemma number_div_ok a b r :
  signed_ok a -> signed_ok b -> number_checked_div a b = Ok r ->
  sval r = Z.quot (sval a * DEC_ONE) (sval b) /\ signed_ok r.
Proof.
  intros Ha Hb H. split; [|by eapply number_div_typed].
  rewrite number_checked_div_fits in H by done. destruct (sval b =? 0); [done|].
  apply signed_fits_ok in H as [-> _]. by rewrite sval_signed_of.
Qed.

Lemma is_dec_two : is_dec (2 * DEC_ONE).
Proof. split; vm_compute; discriminate. Qed.

(** The code computes the formula. *)
Lemma calculate_amount_ok cap sens net d r :
  signed_ok cap -> signed_ok sens -> signed_ok net -> signed_ok d ->
  0 <= sval cap -> 0 < sval sens ->
  calculate_delta_neutrality_fee_amount cap sens net d = Ok r ->
  sval r = fee_formula (sval cap) (sval sens) (sval net) (sval d) /\ signed_ok r.
Proof.
  intros Hcap Hsens Hnet Hd Hc Hs H. unfold calculate_delta_neutrality_fee_amount in H.
  pose proof DEC_ONE_pos as HO.
  apply rbind_ok in H as (lo & Hlo & H). apply number_mul_ok in Hlo as [Hlo Hlook]; [|auto with perps..].
  apply rbind_ok in H as (hi & Hhi & H). apply number_mul_ok in Hhi as [Hhi Hhiok]; [|auto with perps..].
  apply rbind_ok in H as (af & Haf & H). apply signed_checked_add_ok in Haf as [Haf Hafok]; [|done..].
  apply rbind_ok in H as (dl & Hdl & H).
  destruct (signed_min_sval af lo Hafok Hlook) as [Hm1 Hm1ok].
  destruct (signed_min_sval net lo Hnet Hlook) as [Hm2 Hm2ok].
  apply signed_checked_sub_ok in Hdl as [Hdl Hdlok]; [|done..].
  apply rbind_ok in H as (af' & Haf' & H).
  apply signed_checked_add_ok in Haf' as [Haf' Hafok']; [|done..].
  apply rbind_ok in H as (dh & Hdh & H).
  destruct (signed_max_sval af' hi Hafok' Hhiok) as [Hm3 Hm3ok].
  destruct (signed_max_sval net hi Hnet Hhiok) as [Hm4 Hm4ok].
  apply signed_checked_sub_ok in Hdh as [Hdh Hdhok]; [|done..].
  apply rbind_ok in H as (re & Hre & H). apply signed_checked_sub_ok in Hre as [Hre Hreok]; [|done..].
  apply rbind_ok in H as (u & Hu & H). apply signed_checked_sub_ok in Hu as [Hu Huok]; [|done..].
  apply rbind_ok in H as (t1 & Ht1 & H). apply number_mul_ok in Ht1 as [Ht1 Ht1ok]; [|auto with perps..].
  apply rbind_ok in H as (t2 & Ht2 & H). apply number_mul_ok in Ht2 as [Ht2 Ht2ok]; [|auto with perps..].
  apply rbind_ok in H as (ca & Hca & H). apply signed_checked_add_ok in Hca as [Hca Hcaok]; [|done..].
  destruct (signed_min_sval net hi Hnet Hhiok) as [Hm5 Hm5ok].
  destruct (signed_max_sval (signed_min net hi) lo Hm5ok Hlook) as [Hm6 Hm6ok].
  apply rbind_ok in H as (q1 & Hq1 & H). apply number_mul_ok in Hq1 as [Hq1 Hq1ok]; [|done..].
  apply rbind_ok in H as (tw & ->%signed_two_ok & H).
  assert (signed_ok (new_positive (2 * DEC_ONE))) as Htwok by (apply new_positive_ok, is_dec_two).
  apply rbind_ok in H as (u2 & Hu2 & H). apply number_mul_ok in Hu2 as [Hu2 Hu2ok]; [|done..].
  apply rbind_ok in H as (q2 & Hq2 & H). apply number_mul_ok in Hq2 as [Hq2 Hq2ok]; [|done..].
  apply rbind_ok in H as (nu & Hnu & H). apply signed_checked_add_ok in Hnu as [Hnu Hnuok]; [|done..].
  apply rbind_ok in H as (tw & ->%signed_two_ok & H).
  apply rbind_ok in H as (de & Hde & H). apply number_mul_ok in Hde as [Hde Hdeok]; [|done..].
  apply rbind_ok in H as (am & Ham & H). apply number_div_ok in Ham as [Ham Hamok]; [|done..].
  apply signed_checked_add_ok in H as [H Hok]; [|done..]. split; [|done].
  rewrite sval_new_positive in Hu2, Hde.
  assert (forall x, 2 * DEC_ONE * x = DEC_ONE * (2 * x)) as Htwo by (intros; ring).
  rewrite Htwo, quot_mul_exact in Hu2, Hde by done.
  rewrite sval_neg, Z.mul_opp_l, Z.quot_opp_l in Hlo by lia.
  rewrite Z.quot_div_nonneg in Hlo, Hhi by nia. rewrite sval_neg in Ht1.
  unfold fee_formula, clamp_to. rewrite H, Hca, Ham, Hnu, Hde, Hq1, Hq2, Hu2, Ht1, Ht2, Hm6, Hm5.
  rewrite Hu, Hre, Hdl, Hdh, Hm1, Hm2, Hm3, Hm4, Haf, Haf', Hlo, Hhi. reflexivity.
Qed.

(** C14: splitting a trade does not change its delta neutrality fee.  The fee for
    moving the net notional is the difference of the cost of imbalance at the
    two ends (quadratic up to the cap and linear beyond), so two moves in a row
    cost what the combined move costs; each up to a few units in the last place
    of the fixed-point numbers (for a single fee fewer than three plus the
    reciprocal of the sensitivity). *)
Theorem delta_neutrality_fee_path_independent (cap sens net net' d1 d2 d r1 r2 r : Number) :
  signed_ok cap -> signed_ok sens -> signed_ok net -> signed_ok net' ->
  signed_ok d1 -> signed_ok d2 -> signed_ok d -> 0 <= sval cap -> 0 < sval sens ->
  sval net' = sval net + sval d1 -> sval d = sval d1 + sval d2 ->
  calculate_delta_neutrality_fee_amount cap sens net d1 = Ok r1 ->
  calculate_delta_neutrality_fee_amount cap sens net' d2 = Ok r2 ->
  calculate_delta_neutrality_fee_amount cap sens net d = Ok r ->
  let s := sval sens in
  let cost := imbalance_cost (sval cap) s in
  Z.abs (2 * s * DEC_ONE * sval r - (cost (sval net + sval d) - cost (sval net)))
    < 6 * s * DEC_ONE + 2 * DEC_ONE * DEC_ONE /\
  Z.abs (sval r1 + sval r2 - sval r) * s < 9 * s + 3 * DEC_ONE.
Proof.
  intros Hcap Hsens Hn Hn' Hd1 Hd2 Hd Hc Hs En' Ed H1 H2 H3.
  apply calculate_amount_ok in H1 as [-> _]; [|done..].
  apply calculate_amount_ok in H2 as [-> _]; [|done..].
  apply calculate_amount_ok in H3 as [-> _]; [|done..].
  pose proof DEC_ONE_pos as HO. simpl.
  pose proof (fee_formula_close _ _ (sval net) (sval d1) Hc Hs) as B1.
  pose proof (fee_formula_close _ _ (sval net') (sval d2) Hc Hs) as B2.
  pose proof (fee_formula_close _ _ (sval net) (sval d) Hc Hs) as B3.
  split; [exact B3|]. rewrite En', Ed in *. rewrite Z.add_assoc in B3.
  set (f1 := fee_formula _ _ _ (sval d1)) in *. set (f2 := fee_formula _ _ _ (sval d2)) in *.
  set (f3 := fee_formula _ _ _ (_ + _)) in *.
  assert (Z.abs (2 * sval sens * DEC_ONE * (f1 + f2 - f3))
    < 3 * (6 * sval sens * DEC_ONE + 2 * DEC_ONE * DEC_ONE)) as Hb by lia.
  rewrite Z.abs_mul, (Z.abs_eq (2 * sval sens * DEC_ONE)) in Hb by nia.
  apply (Z.mul_lt_mono_pos_l (2 * DEC_ONE)); [lia|]. lia.
Qed.

(** ** The fund *)

Lemma notional_to_collateral_ok pp x v :
  notional_to_collateral pp x = Ok v -> is_dec v /\ (x = 0 -> v = 0).
Proof.
  unfold notional_to_collateral, price_notional_to_collateral. intros [-> ?]%op_mul_ok.
  split; [done|]. intros ->. by rewrite ?Z.mul_0_l, ?Z.mul_0_r.
Qed.

(** Converting a signed amount keeps its sign. *)
Lemma collateral_sign pp a r :
  signed_ok a -> try_map (notional_to_collateral pp) a = Ok r ->
  signed_ok r /\ (sval a <= 0 -> sval r <= 0) /\ (is_negative r = true -> sval r < 0).
Proof.
  intros Ha H. unfold try_map in H. apply rbind_ok in H as (v & [Hv Hz]%notional_to_collateral_ok & H).
  injection H as <-. rewrite (is_negative_sval a Ha).
  destruct (Z.ltb_spec (sval a) 0) as [Hlt|Hge].
  - assert (signed_ok (new_negative v)) as Hok by auto with perps. split; [done|].
    rewrite is_negative_sval, sval_new_negative by done. rewrite Z.ltb_lt.
    unfold is_dec in Hv. split; [lia|done].
  - assert (signed_ok (new_positive v)) as Hok by auto with perps. split; [done|].
    split; [|by rewrite is_negative_sval, Z.ltb_lt by done].
    intros Hle. rewrite sval_new_positive. rewrite Hz; [done|]. destruct (sval_value a); lia.
Qed.

Lemma payout_ok st net pp total a r :
  is_dec total -> signed_ok a -> sval a <= 0 ->
  payout_from_fund st net pp total a = Ok r -> signed_ok r /\ - total <= sval r <= 0.
Proof.
  intros Ht Ha Hle H. unfold payout_from_fund in H.
  apply rbind_ok in H as (b & _ & H). apply rbind_ok in H as (sl & _ & H).
  apply rbind_ok in H as (ra & Hra & H). apply rbind_ok in H as (n & Hn & H).
  assert (is_dec (Z.min ra DEC_ONE)) as Hmin.
  { assert (0 <= ra) as Hra0; [|pose proof is_dec_one; unfold is_dec in *; lia].
    destruct (nonzero_new sl) as [w|]; [|injection Hra as <-; apply is_dec_one].
    apply rbind_ok in Hra as (t & _ & Hra). destruct t; [injection Hra as <-; apply is_dec_one|].
    by apply op_div_ok in Hra as (_ & -> & [? _]). }
  unfold checked_mul_number in Hn. apply rbind_ok in Hn as (n' & Hn' & Hn). injection Hn as <-.
  rewrite from_number_id in H. rewrite into_number_id in Hn'.
  apply number_mul_ok in Hn' as [Hn' Hnok]; [|done|by apply into_signed_ok].
  assert (sval n' <= 0) as Hn0.
  { rewrite Hn'. apply quot_nonpos; [|apply DEC_ONE_pos]. rewrite sval_into_signed.
    unfold is_dec in Hmin. nia. }
  injection H as <-. rewrite signed_gtb_sval, sval_into_signed, sval_neg by auto with perps.
  unfold is_dec in Ht. destruct (Z.ltb_spec total (- sval n')) as [Hlt|Hge].
  - split; [auto with perps|]. rewrite sval_neg, sval_into_signed. lia.
  - split; [done|]. lia.
Qed.

Lemma cap_by_margin_ok factor a info r info' :
  signed_ok a -> (forall c, factor = Some c -> is_dec c) ->
  cap_by_margin factor a info = (r, info') ->
  signed_ok r /\ Z.min (sval a) 0 <= sval r /\ (sval a <= 0 -> sval r = sval a) /\
  (forall c, factor = Some c -> sval r <= c).
Proof.
  intros Ha Hf H. unfold cap_by_margin in H. destruct factor as [c|].
  - pose proof (Hf c eq_refl) as Hc. destruct (try_into_non_zero a) as [v|] eqn:E.
    + apply try_into_non_zero_Some in E as (Hn & -> & Hne). destruct (Z.ltb_spec c (sval a));
        injection H as <- _; rewrite ?sval_into_signed; unfold is_dec in Hc.
      * split_and!; [auto with perps|lia| |by intros ? [= <-]].
        intros. lia.
      * split_and!; [done|lia|done|by intros ? [= <-]].
    + injection H as <- _. split_and!; [done|lia|done|]. intros ? [= <-].
      assert (sval a <= 0); [|unfold is_dec in Hc; lia].
      destruct (Z.le_gt_cases (sval a) 0); [done|]. exfalso.
      assert (try_into_non_zero a = Some (sval a)) as E'; [|congruence].
      apply try_into_non_zero_Some. split; [|split; [done|lia]].
      pose proof (is_negative_sval a Ha) as Hneg. unfold is_negative in Hneg. rewrite Hneg.
      apply Z.ltb_ge. lia.
  - injection H as <- _. split_and!; [done|lia|done|done].
Qed.

(** The configuration the fee works with. *)
Record dnf_config (c : Config) : Prop := {
  dc_cap : is_dec (delta_neutrality_fee_cap c);
  dc_sensitivity : is_dec (delta_neutrality_fee_sensitivity c) /\
                   delta_neutrality_fee_sensitivity c <> 0;
  dc_tax : 0 <= delta_neutrality_fee_tax c <= DEC_ONE;
}.

(** A calculation in progress: what has been paid out is within the fund. *)
Record calc_ok (p : DeltaNeutralityFeeMultiPass) : Prop := {
  co_fund : is_dec (mp_total_in_fund_before_calc p);
  co_fees : signed_ok (mp_fees p);
  co_net : signed_ok (mp_net_notional p);
  co_delta : signed_ok (mp_delta_notional p);
  co_factor : forall c, mp_liquidation_margin_factor p = Some c -> is_dec c;
  co_covered : 0 <= mp_total_in_fund_before_calc p + sval (mp_fees p);
}.

Lemma update_inner_ok st d p p' :
  dnf_config (st_config st) -> calc_ok p -> signed_ok d -> update_inner st d p = Ok p' ->
  calc_ok p' /\ mp_total_in_fund_before_calc p' = mp_total_in_fund_before_calc p /\
  mp_liquidation_margin_factor p' = mp_liquidation_margin_factor p /\
  mp_delta_notional p' = mp_delta_notional p /\
  (sval d = - sval (mp_net_notional p) -> sval (mp_fees p') <= sval (mp_fees p)) /\
  (forall c, mp_liquidation_margin_factor p = Some c -> sval (mp_fees p') <= sval (mp_fees p) + c).
Proof.
  intros [Hcap [Hs Hsne] _] [Hfund Hfees Hnet Hdel Hfac Hcov] Hd H. unfold update_inner in H.
  apply rbind_ok in H as (tot & Htot & H). apply ud_checked_add_signed_ok in Htot as [-> Htot]; [|done..].
  apply rbind_ok in H as (an & Han & H). rewrite !into_number_id in Han.
  apply calculate_amount_ok in Han as [Han Hanok];
    [|by apply into_signed_ok|by apply into_signed_ok|done|done|
      unfold fee_cap; rewrite sval_into_signed; apply Hcap|
      unfold fee_sensitivity; rewrite sval_into_signed; unfold is_dec in Hs; lia].
  unfold fee_cap, fee_sensitivity in Han. rewrite !sval_into_signed in Han.
  apply rbind_ok in H as (ac & Hac & H). rewrite from_number_id in Hac.
  apply collateral_sign in Hac as (Hacok & Hacle & Hacneg); [|done].
  apply rbind_ok in H as (ac' & Hac' & H).
  set (total := mp_total_in_fund_before_calc p + sval (mp_fees p)) in *.
  assert (signed_ok ac' /\ - total <= sval ac' /\ (sval an <= 0 -> sval ac' <= 0)) as (Hok' & Hlow & Hneg').
  { destruct (is_negative ac) eqn:En.
    - apply payout_ok in Hac' as [? ?]; [|done|done|specialize (Hacneg eq_refl); lia].
      split_and!; [done|lia|lia].
    - injection Hac' as <-. split; [done|].
      rewrite is_negative_sval in En by done. apply Z.ltb_ge in En. unfold is_dec in Htot.
      split; [lia|done]. }
  destruct (cap_by_margin _ _ _) as [r info] eqn:Er.
  apply cap_by_margin_ok in Er as (Hrok & Hrlow & Hreq & Hrcap); [|done..].
  apply rbind_ok in H as (fees & Hf & H). apply signed_checked_add_ok in Hf as [Hf Hfok]; [|done..].
  apply rbind_ok in H as (nn & Hnn & H). apply signed_checked_add_ok in Hnn as [Hnn Hnnok]; [|done..].
  injection H as <-. simpl. unfold is_dec in Htot.
  split; [split; simpl; try done; lia|]. split; [done|]. split; [done|]. split; [done|]. split.
  - intros Hzero. pose proof (fee_formula_to_balance (delta_neutrality_fee_cap (st_config st))
      (delta_neutrality_fee_sensitivity (st_config st)) (sval (mp_net_notional p))) as Hbal.
    rewrite <- Hzero, <- Han in Hbal. unfold is_dec in Hcap, Hs.
    specialize (Hbal ltac:(lia) ltac:(lia)). specialize (Hneg' Hbal). rewrite Hreq in Hf by done. lia.
  - intros c Hc. specialize (Hrcap c Hc). lia.
Qed.

Lemma multi_pass_run_ok st p p' :
  dnf_config (st_config st) -> calc_ok p -> sval (mp_fees p) = 0 -> multi_pass_run st p = Ok p' ->
  calc_ok p' /\ mp_total_in_fund_before_calc p' = mp_total_in_fund_before_calc p /\
  (forall c, mp_liquidation_margin_factor p = Some c -> sval (mp_fees p') <= c).
Proof.
  intros Hcfg Hp H0 H. unfold multi_pass_run in H. destruct Hp as [? ? Hnet Hdel ? ?] eqn:E; clear E.
  apply rbind_ok in H as (af & _ & H). apply rbind_ok in H as (si & _ & H).
  destruct (is_negative si).
  - apply rbind_ok in H as (p1 & H1 & H).
    apply update_inner_ok in H1 as (Hp1 & Hf1 & Hfac1 & Hd1 & Hz & _); [|done|done|auto with perps].
    apply rbind_ok in H as (re & Hre & H). rewrite Hd1 in Hre.
    apply signed_checked_add_ok in Hre as [_ Hreok]; [|done..].
    apply update_inner_ok in H as (Hp2 & Hf2 & _ & _ & _ & Hc2); [|done..].
    split; [done|]. split; [congruence|]. intros c Hc. rewrite Hfac1 in Hc2. specialize (Hc2 c Hc).
    rewrite sval_neg in Hz. specialize (Hz eq_refl). lia.
  - apply update_inner_ok in H as (Hp2 & Hf2 & _ & _ & _ & Hc2); [|done..].
    split; [done|]. split; [done|]. intros c Hc. specialize (Hc2 c Hc). lia.
Qed.

Lemma protocol_part_ok st f :
  dnf_config (st_config st) -> signed_ok f ->
  0 <= protocol_part st f <= Z.max (sval f) 0.
Proof.
  intros [_ _ Htax] Hf. unfold protocol_part. pose proof DEC_ONE_pos as HO.
  destruct (try_into_non_zero f) as [v|] eqn:E; simpl; [|lia].
  apply try_into_non_zero_Some in E as (Hn & -> & _).
  destruct (checked_mul_dec _ _) as [x|e] eqn:Ex; simpl; [|lia].
  apply mul_dec_ok in Ex as [-> [Hx _]].
  assert (0 <= sval f) as Hpos.
  { pose proof (is_negative_sval f Hf) as H. unfold is_negative in H. rewrite Hn in H.
    symmetry in H. by apply Z.ltb_ge in H. }
  split; [done|]. rewrite Z.max_l by done.
  apply Z.div_le_upper_bound; [done|]. nia.
Qed.

(** The fees and events of a charge leave the fund alone. *)
Lemma collect_for_protocol_keeps_fund st id a pp f :
  preserves (fun m => DELTA_NEUTRALITY_FUND m = f) (collect_delta_neutrality_fee_for_protocol st id a pp).
Proof.
  unfold collect_delta_neutrality_fee_for_protocol, collect_trading_fee_inner, earmark_fees,
    save_fees, new_yield_apply, mod_liquidity, add_event.
  repeat first [apply preserves_bind; [|intros ?] | apply preserves_lift | apply preserves_ask
    | apply preserves_get | apply preserves_ensure | apply preserves_ret
    | apply preserves_mod; intros m Hm; destruct (mute_events (st_config st)); exact Hm
    | match goal with |- preserves _ (match ?x with _ => _ end) => destruct x end].
Qed.

(** What a charge computes. *)
Lemma charge_no_update_ok (st : State) (m : MarketCtx) (pos : Position) (notional_delta : Signed)
    (price : PricePoint) (reason : DeltaNeutralityFeeReason) (r : ChargeDeltaNeutralityFeeResult) :
  dnf_config (st_config st) -> signed_ok notional_delta ->
  is_dec (open_long_interest m) -> is_dec (open_short_interest m) ->
  is_dec (default 0 (DELTA_NEUTRALITY_FUND m)) ->
  (reason <> PositionOpen -> is_dec (margin_delta_neutrality (pos_liquidation_margin pos))) ->
  charge_delta_neutrality_fee_no_update st m pos notional_delta price reason = Ok r ->
  let fund := default 0 (DELTA_NEUTRALITY_FUND m) in
  signed_ok (cr_fee r) /\ - fund <= sval (cr_fee r) /\
  (reason <> PositionOpen -> sval (cr_fee r) <= margin_delta_neutrality (pos_liquidation_margin pos)) /\
  0 <= cr_protocol_fees r <= Z.max (sval (cr_fee r)) 0 /\
  cr_total_funds_after r = fund + (sval (cr_fee r) - cr_protocol_fees r) /\
  is_dec (cr_total_funds_after r).
Proof.
  intros Hcfg Hd Hl Hs Hfund Hmargin H. simpl.
  set (fund := default 0 (DELTA_NEUTRALITY_FUND m)) in *.
  unfold charge_delta_neutrality_fee_no_update in H.
  apply rbind_ok in H as (net & Hnet & H). unfold positions_net_open_interest in Hnet.
  apply signed_checked_sub_ok in Hnet as [_ Hnet]; [|by apply into_signed_ok..].
  apply rbind_ok in H as (calc & Hcalc & H).
  apply multi_pass_run_ok in Hcalc as ([Hf Hfees _ _ _ Hcov] & Hfe & Hcap); [|done| |done].
  2:{ split; simpl; try done; try apply signed_zero_ok; [|fold fund; unfold is_dec in Hfund; rewrite sval_zero; lia].
      intros c Hc. destruct reason; simplify_eq; by apply Hmargin. }
  simpl in Hfe. fold fund in Hfe. rewrite Hfe in *.
  pose proof (protocol_part_ok st _ Hcfg Hfees) as Hpp.
  apply rbind_ok in H as (ff & Hff & H).
  apply signed_checked_sub_ok in Hff as [Hff Hffok]; [| done|].
  2:{ apply into_signed_ok. destruct Hfees as [Hv _]. unfold is_dec in *.
      destruct (sval_value (mp_fees calc)); lia. }
  rewrite sval_into_signed in Hff.
  apply rbind_ok in H as (tot & Htot & H). apply ud_checked_add_signed_ok in Htot as [-> Htot]; [|done..].
  injection H as <-. simpl. rewrite Hff in *. split; [done|]. split; [lia|]. split; [|done].
  intros Hr. destruct reason; [done|by apply Hcap|by apply Hcap].
Qed.

(** C13: the delta neutrality fund is never overdrawn.  A trader is paid at most
    what the fund holds; when a position is closed or updated the charge is at
    most the margin set aside for it; the protocol takes its tax from charges
    only, the rest is what changes the fund, and the amount stored after the
    charge is applied is that. *)
Theorem delta_neutrality_fund_covered (st : State) (m0 m m' : MarketCtx) (pos : Position)
    (notional_delta fee : Signed) (price : PricePoint) (reason : DeltaNeutralityFeeReason)
    (r : ChargeDeltaNeutralityFeeResult) :
  dnf_config (st_config st) -> signed_ok notional_delta ->
  is_dec (open_long_interest m0) -> is_dec (open_short_interest m0) ->
  is_dec (default 0 (DELTA_NEUTRALITY_FUND m0)) ->
  is_dec (margin_delta_neutrality (pos_liquidation_margin pos)) ->
  charge_delta_neutrality_fee_no_update st m0 pos notional_delta price reason = Ok r ->
  charge_result_apply st r m = Ok (fee, m') ->
  let fund := default 0 (DELTA_NEUTRALITY_FUND m0) in
  - fund <= sval fee /\
  (reason <> PositionOpen -> sval fee <= margin_delta_neutrality (pos_liquidation_margin pos)) /\
  0 <= cr_protocol_fees r <= Z.max (sval fee) 0 /\
  DELTA_NEUTRALITY_FUND m' = Some (fund + (sval fee - cr_protocol_fees r)) /\
  0 <= fund + (sval fee - cr_protocol_fees r).
Proof.
  intros Hcfg Hd Hl Hs Hfund Hmargin H Happ. simpl.
  apply charge_no_update_ok in H as (_ & Hlo & Hhi & Hpp & Htot & Hok); [|done..]. rewrite Htot in Hok.
  unfold charge_result_apply in Happ. simpl in Happ.
  step_in Happ u1 m1 H1. step_in Happ u2 m2 H2. step_in Happ u3 m3 H3. apply hmod_ok in H3.
  step_in Happ u4 m4 H4. apply hret_ok in Happ as [-> ->].
  apply (collect_for_protocol_keeps_fund st _ _ _ (Some (cr_total_funds_after r))) in H4; [|by rewrite H3].
  rewrite H4, Htot. split_and!; try done; try lia. apply Hok.
Qed.
End Theory.

(** ** Witnesses: the numbers of the test of the code, and a closing position *)

Lemma delta_neutrality_fee_path_independent_witness :
  exists r1 r2 r,
    let cap := mkSigned (DEC_ONE / 20) false in let sens := mkSigned (1000000 * DEC_ONE) false in
    calculate_delta_neutrality_fee_amount (CW:=cosmwasm_ref) cap sens
      (mkSigned (119000 * DEC_ONE) false) (mkSigned (95000 * DEC_ONE) true) = Ok r1 /\
    calculate_delta_neutrality_fee_amount (CW:=cosmwasm_ref) cap sens
      (mkSigned (24000 * DEC_ONE) false) (mkSigned (24000 * DEC_ONE) true) = Ok r2 /\
    calculate_delta_neutrality_fee_amount (CW:=cosmwasm_ref) cap sens
      (mkSigned (119000 * DEC_ONE) false) (mkSigned (119000 * DEC_ONE) true) = Ok r /\
    Z.abs (sval r1 + sval r2 - sval r) * (1000000 * DEC_ONE)
      < 9 * (1000000 * DEC_ONE) + 3 * DEC_ONE.
Proof.
  set (cap := mkSigned (DEC_ONE / 20) false). set (sens := mkSigned (1000000 * DEC_ONE) false).
  destruct (is_ok_Ok (calculate_delta_neutrality_fee_amount (CW:=cosmwasm_ref) cap sens
      (mkSigned (119000 * DEC_ONE) false) (mkSigned (95000 * DEC_ONE) true))) as [r1 H1];
    [vm_compute; reflexivity|].
  destruct (is_ok_Ok (calculate_delta_neutrality_fee_amount (CW:=cosmwasm_ref) cap sens
      (mkSigned (24000 * DEC_ONE) false) (mkSigned (24000 * DEC_ONE) true))) as [r2 H2];
    [vm_compute; reflexivity|].
  destruct (is_ok_Ok (calculate_delta_neutrality_fee_amount (CW:=cosmwasm_ref) cap sens
      (mkSigned (119000 * DEC_ONE) false) (mkSigned (119000 * DEC_ONE) true))) as [r H];
    [vm_compute; reflexivity|].
  exists r1, r2, r. split; [exact H1|]. split; [exact H2|]. split; [exact H|].
  assert (forall v n, (0 <? v) && (v <=? U256_MAX) = true -> signed_ok (mkSigned v n)) as Hok.
  { intros v n [Hv Hle]%andb_true_iff. apply Z.ltb_lt in Hv. apply Z.leb_le in Hle.
    split; simpl; [unfold is_dec; lia|intros _; lia]. }
  destruct (delta_neutrality_fee_path_independent (CW:=cosmwasm_ref) (CWS:=cosmwasm_ref_spec)
    cap sens (mkSigned (119000 * DEC_ONE) false) (mkSigned (24000 * DEC_ONE) false)
    (mkSigned (95000 * DEC_ONE) true) (mkSigned (24000 * DEC_ONE) true)
    (mkSigned (119000 * DEC_ONE) true) r1 r2 r) as [_ Hsum];
    [apply Hok; vm_compute; reflexivity..|vm_compute; discriminate|vm_compute; reflexivity
    |vm_compute; reflexivity|vm_compute; reflexivity|exact H1|exact H2|exact H|].
  exact Hsum.
Defined.

Definition sample_dnf_market : MarketCtx :=
  set_DELTA_NEUTRALITY_FUND (Some (3 * DEC_ONE)) sample_funding_market.

Lemma sample_dnf_config : dnf_config sample_config.
Proof.
  assert (forall v, (0 <=? v) && (v <=? U256_MAX) = true -> is_dec v) as Hok
    by (intros v [Hv Hle]%andb_true_iff; by split; apply Z.leb_le).
  split.
  - apply Hok. vm_compute. reflexivity.
  - split; [apply Hok; vm_compute; reflexivity|]. apply Z.eqb_neq. vm_compute. reflexivity.
  - split; apply Z.leb_le; vm_compute; reflexivity.
Qed.

Lemma delta_neutrality_fund_covered_witness :
  exists r fee m',
    charge_delta_neutrality_fee_no_update (CW:=cosmwasm_ref) (sample_state sample_day)
      sample_dnf_market sample_trade (mkSigned (20 * DEC_ONE) true)
      (make_price_point (sample_state sample_day) sample_day sample_price) PositionClose = Ok r /\
    charge_result_apply (CW:=cosmwasm_ref) (sample_state sample_day) r sample_dnf_market
      = Ok (fee, m') /\
    - (3 * DEC_ONE) <= sval fee <= DEC_ONE.
Proof.
  destruct (is_ok_Ok (charge_delta_neutrality_fee_no_update (CW:=cosmwasm_ref)
    (sample_state sample_day) sample_dnf_market sample_trade (mkSigned (20 * DEC_ONE) true)
    (make_price_point (sample_state sample_day) sample_day sample_price) PositionClose))
    as [r Hr]; [vm_compute; reflexivity|].
  destruct (is_ok_Ok (charge_result_apply (CW:=cosmwasm_ref) (sample_state sample_day) r
    sample_dnf_market)) as [[fee m'] Hm].
  { assert (match charge_delta_neutrality_fee_no_update (CW:=cosmwasm_ref)
      (sample_state sample_day) sample_dnf_market sample_trade (mkSigned (20 * DEC_ONE) true)
      (make_price_point (sample_state sample_day) sample_day sample_price) PositionClose with
      | Ok r => is_ok (charge_result_apply (CW:=cosmwasm_ref) (sample_state sample_day) r
                  sample_dnf_market)
      | Err _ => false end = true) as Hok by (vm_compute; reflexivity).
    by rewrite Hr in Hok. }
  exists r, fee, m'. split; [exact Hr|]. split; [exact Hm|].
  destruct (delta_neutrality_fund_covered (CW:=cosmwasm_ref) (CWS:=cosmwasm_ref_spec)
    (sample_state sample_day) sample_dnf_market sample_dnf_market m' sample_trade
    (mkSigned (20 * DEC_ONE) true) fee
    (make_price_point (sample_state sample_day) sample_day sample_price) PositionClose r)
    as (Hlow & Hcap & _); [..|exact Hr|exact Hm|].
  - apply sample_dnf_config.
  - split; [split; vm_compute; discriminate|vm_compute; discriminate].
  - split; vm_compute; discriminate.
  - split; vm_compute; discriminate.
  - split; vm_compute; discriminate.
  - split; vm_compute; discriminate.
  - split; [exact Hlow|]. apply Hcap. discriminate.
Defined.
