(* ===== verification/OpenInterest.v ===== *)
(** * Open interest

    [AdjustOpenInterest] of [contracts/market/src/state/position.rs]: the
    running totals of long and short notional, and the check that a trade does
    not push the market's imbalance past the delta neutrality cap. *)

From stdpp Require Import base option gmap strings list.
From Stdlib Require Import ZArith Lia.
From S2P Require Import Prelude Storage Cosmwasm Types Number Time Market Price Token DataSeries Config Position State Funding LiquiditySystem FundingInv DeltaNeutrality DeltaNeutralityInv.
Local Open Scope Z_scope.

Inductive AdjustOpenInterest := AdjustLong (v : Notional) | AdjustShort (v : Notional).

(** The errors of the check, by direction to base. *)
Definition already (dir : DirectionToBase) (cap sensitivity instant_before : Number)
    (net_notional_before net_notional_after : Signed) : MarketError :=
  match dir with
  | LongToBase => DeltaNeutralityFeeAlreadyLong cap sensitivity instant_before
                    net_notional_before net_notional_after
  | ShortToBase => DeltaNeutralityFeeAlreadyShort cap sensitivity instant_before
                     net_notional_before net_notional_after
  end.

Definition newly (dir : DirectionToBase) (cap sensitivity instant_after : Number)
    (net_notional_before net_notional_after : Signed) : MarketError :=
  match dir with
  | LongToBase => DeltaNeutralityFeeNewlyLong cap sensitivity instant_after
                    net_notional_before net_notional_after
  | ShortToBase => DeltaNeutralityFeeNewlyShort cap sensitivity instant_after
                     net_notional_before net_notional_after
  end.

Definition flipped (dir : DirectionToBase) (cap sensitivity instant_before instant_after : Number)
    (net_notional_before net_notional_after : Signed) : MarketError :=
  match dir with
  | LongToBase => DeltaNeutralityFeeShortToLong cap sensitivity instant_before instant_after
                    net_notional_before net_notional_after
  | ShortToBase => DeltaNeutralityFeeLongToShort cap sensitivity instant_before instant_after
                     net_notional_before net_notional_after
  end.

Section Definitions.
Context {CW : CosmwasmStd}.
Context (st : State).

(** The totals after a change of [diff] by a position in direction [dir]. *)
Definition interest_after (m : MarketCtx) (diff : Signed) (dir : DirectionToNotional) :
    res (Notional * Notional * AdjustOpenInterest) :=
  let long_before := open_long_interest m in
  let short_before := open_short_interest m in
  match dir with
  | LongToNotional =>
      long_after <- ud_checked_add_signed long_before diff;
      Ok (long_after, short_before, AdjustLong long_after)
  | ShortToNotional =>
      short_after <- ud_checked_add_signed short_before (signed_neg diff);
      Ok (long_before, short_after, AdjustShort short_after)
  end.

(** The direction a change of the net notional moves the market in. *)
Definition notional_direction (diff : Signed) : DirectionToNotional :=
  if is_positive_or_zero diff then LongToNotional else ShortToNotional.

(** The decision on the imbalance before and after, relative to the
    sensitivity. *)
Definition check_cap (diff net_before net_after : Signed) : res unit :=
  let cap := fee_cap st in
  let sensitivity := fee_sensitivity st in
  let is_capped_low x := signed_leb x (signed_neg cap) in
  let is_capped_high x := signed_leb cap x in
  before <- number_checked_div (into_number net_before) sensitivity;
  after <- number_checked_div (into_number net_after) sensitivity;
  let dir := notional_direction diff in
  let base_direction := direction_into_base dir (market_type st) in
  let already := Err (into_anyhow (already base_direction cap sensitivity before net_before net_after)) in
  let flipped := Err (into_anyhow (flipped base_direction cap sensitivity before after net_before net_after)) in
  let newly := Err (into_anyhow (newly base_direction cap sensitivity after net_before net_after)) in
  if is_capped_low before then
    match dir with
    | ShortToNotional => already
    | LongToNotional => if is_capped_high after then flipped else Ok tt
    end
  else if is_capped_high before then
    match dir with
    | LongToNotional => already
    | ShortToNotional => if is_capped_low after then flipped else Ok tt
    end
  else if is_capped_low after then newly
  else if is_capped_high after then newly
  else Ok tt.

(** [AdjustOpenInterest::new]. *)
Definition adjust_open_interest_new (m : MarketCtx) (notional_size_diff : Signed)
    (dir : DirectionToNotional) (assert_delta_neutrality_fee_cap : bool) : res AdjustOpenInterest :=
  '(long_after, short_after, adjust_res) <- interest_after m notional_size_diff dir;
  if assert_delta_neutrality_fee_cap
  then
    net_before <- signed_checked_sub (into_signed (open_long_interest m))
                    (into_signed (open_short_interest m));
    net_after <- signed_checked_sub (into_signed long_after) (into_signed short_after);
    _ <- check_cap notional_size_diff net_before net_after;
    Ok adjust_res
  else Ok adjust_res.

(** [AdjustOpenInterest::net_notional]. *)
Definition adjust_net_notional (a : AdjustOpenInterest) (m : MarketCtx) : res Signed :=
  match a with
  | AdjustLong long => signed_checked_sub (into_signed long) (into_signed (open_short_interest m))
  | AdjustShort short => signed_checked_sub (into_signed (open_long_interest m)) (into_signed short)
  end.

(** [AdjustOpenInterest::apply]. *)
Definition adjust_open_interest_apply (a : AdjustOpenInterest) : mhandler unit :=
  match a with
  | AdjustLong long => hmod (set_OPEN_NOTIONAL_LONG_INTEREST long)
  | AdjustShort short => hmod (set_OPEN_NOTIONAL_SHORT_INTEREST short)
  end.

End Definitions.

(** * Theory *)

(** The imbalance in units of the sensitivity, as the code divides it. *)
Definition imbalance (c : Config) (net : Z) : Z :=
  Z.quot (net * DEC_ONE) (delta_neutrality_fee_sensitivity c).

Section Theory.
Context {CW : CosmwasmStd} {CWS : CosmwasmStdSpec CW}.

Lemma imbalance_mono c a b :
  0 < delta_neutrality_fee_sensitivity c -> a <= b -> imbalance c a <= imbalance c b.
Proof.
  intros Hs Hle. unfold imbalance. apply Z.quot_le_mono; [done|]. pose proof DEC_ONE_pos. nia.
Qed.

Lemma interest_after_ok m diff dir l s a m' :
  is_dec (open_long_interest m) -> is_dec (open_short_interest m) -> signed_ok diff ->
  interest_after m diff dir = Ok (l, s, a) -> adjust_open_interest_apply a m = Ok (tt, m') ->
  open_long_interest m' = l /\ open_short_interest m' = s /\ is_dec l /\ is_dec s /\
  l - s = open_long_interest m - open_short_interest m + sval diff /\
  match dir with
  | LongToNotional => s = open_short_interest m
  | ShortToNotional => l = open_long_interest m
  end.
Proof.
  intros Hl Hs Hd H Ha. unfold interest_after in H. destruct dir.
  - apply rbind_ok in H as (la & Hla & H). apply ud_checked_add_signed_ok in Hla as [-> ?]; [|done..].
    injection H as <- <- <-. apply hmod_ok in Ha as ->. split_and!; try done. lia.
  - apply rbind_ok in H as (sa & Hsa & H).
    apply ud_checked_add_signed_ok in Hsa as [-> ?]; [|done|auto with perps].
    rewrite sval_neg in *. injection H as <- <- <-. apply hmod_ok in Ha as ->.
    split_and!; try done. lia.
Qed.

(** C30: a trade cannot push the market past the delta neutrality cap.  When an
    adjustment that asks for the check is applied, the net notional moves by
    exactly the difference; a market inside the cap stays strictly inside it;
    and a market already at or beyond the cap only moves back, and not through
    to the cap of the other side, so that its imbalance does not grow. *)
Theorem open_interest_cap (st : State) (m m' : MarketCtx) (diff : Signed)
    (dir : DirectionToNotional) (a : AdjustOpenInterest) :
  dnf_config (st_config st) -> signed_ok diff ->
  is_dec (open_long_interest m) -> is_dec (open_short_interest m) ->
  adjust_open_interest_new st m diff dir true = Ok a ->
  adjust_open_interest_apply a m = Ok (tt, m') ->
  let net := open_long_interest m - open_short_interest m in
  let net' := open_long_interest m' - open_short_interest m' in
  let before := imbalance (st_config st) net in
  let after := imbalance (st_config st) net' in
  let cap := delta_neutrality_fee_cap (st_config st) in
  net' = net + sval diff /\
  (Z.abs before < cap -> Z.abs after < cap) /\
  (before <= - cap -> 0 <= sval diff /\ after < cap) /\
  (cap <= before -> - cap < before -> sval diff < 0 /\ - cap < after) /\
  (Z.abs after < cap \/ Z.abs after <= Z.abs before).
Proof.
  intros Hcfg Hd Hl Hs H Ha. destruct Hcfg as [Hcap [Hsens Hne] _].
  assert (0 < delta_neutrality_fee_sensitivity (st_config st)) as Hpos by (unfold is_dec in Hsens; lia).
  unfold adjust_open_interest_new in H. apply rbind_ok in H as ([[l s] a'] & Hi & H).
  apply rbind_ok in H as (nb & Hnb & H). apply signed_checked_sub_ok in Hnb as [Hnb Hnbok];
    [|by apply into_signed_ok..].
  apply rbind_ok in H as (na & Hna & H). apply rbind_ok in H as (u & Hc & H). injection H as <-.
  destruct (interest_after_ok _ _ _ _ _ _ _ Hl Hs Hd Hi Ha) as (Hl' & Hs' & Hld & Hsd & Hnet & _).
  apply signed_checked_sub_ok in Hna as [Hna Hnaok]; [|by apply into_signed_ok..].
  rewrite !sval_into_signed in Hnb, Hna. simpl. rewrite Hl', Hs'.
  unfold check_cap in Hc. rewrite !into_number_id in Hc.
  assert (signed_ok (fee_sensitivity st)) as Hsok by (by apply into_signed_ok).
  assert (signed_ok (fee_cap st)) as Hcok by (by apply into_signed_ok).
  apply rbind_ok in Hc as (b & Hb & Hc). apply number_div_ok in Hb as [Hb Hbok]; [|done..].
  apply rbind_ok in Hc as (f & Hf & Hc). apply number_div_ok in Hf as [Hf Hfok]; [|done..].
  unfold fee_sensitivity in Hb, Hf. rewrite sval_into_signed, Hnb in Hb.
  rewrite sval_into_signed, Hna in Hf.
  rewrite !signed_leb_sval in Hc by auto with perps. unfold fee_cap in Hc.
  rewrite !sval_neg, !sval_into_signed, Hb, Hf in Hc.
  unfold notional_direction, is_positive_or_zero in Hc. rewrite is_negative_sval in Hc by done.
  fold (imbalance (st_config st) (l - s)) in Hc.
  fold (imbalance (st_config st) (open_long_interest m - open_short_interest m)) in Hc.
  set (net := open_long_interest m - open_short_interest m) in *.
  set (cap := delta_neutrality_fee_cap (st_config st)) in *.
  pose proof (imbalance_mono (st_config st) net (l - s) Hpos) as Hup.
  pose proof (imbalance_mono (st_config st) (l - s) net Hpos) as Hdown.
  set (before := imbalance (st_config st) net) in *.
  set (after := imbalance (st_config st) (l - s)) in *.
  unfold is_dec in Hcap. rewrite Hnet in Hup, Hdown.
  destruct (Z.leb_spec before (- cap)), (Z.leb_spec cap before), (Z.leb_spec after (- cap)),
    (Z.leb_spec cap after), (Z.ltb_spec (sval diff) 0); simpl in Hc; try discriminate;
    (split; [done|]); (split; [lia|]); (split; [lia|]); (split; [lia|]); lia.
Qed.

End Theory.

Lemma open_interest_cap_witness :
  exists a m', adjust_open_interest_new (CW:=cosmwasm_ref) (sample_state sample_day)
    sample_funding_market (mkSigned (5 * DEC_ONE) false) LongToNotional true = Ok a /\
  adjust_open_interest_apply a sample_funding_market = Ok (tt, m') /\
  open_long_interest m' - open_short_interest m' = 15 * DEC_ONE.
Proof.
  destruct (is_ok_Ok (adjust_open_interest_new (CW:=cosmwasm_ref) (sample_state sample_day)
    sample_funding_market (mkSigned (5 * DEC_ONE) false) LongToNotional true)) as [a Ha];
    [vm_compute; reflexivity|].
  assert (exists m', adjust_open_interest_apply a sample_funding_market = Ok (tt, m')) as [m' Hm]
    by (destruct a; eexists; reflexivity).
  exists a, m'. split; [exact Ha|]. split; [exact Hm|].
  destruct (open_interest_cap (CW:=cosmwasm_ref) (CWS:=cosmwasm_ref_spec) (sample_state sample_day)
    sample_funding_market m' (mkSigned (5 * DEC_ONE) false) LongToNotional a sample_dnf_config)
    as (Hnet & _); [..|exact Ha|exact Hm|].
  - split; [split; vm_compute; discriminate|vm_compute; discriminate].
  - split; vm_compute; discriminate.
  - split; vm_compute; discriminate.
  - rewrite Hnet. reflexivity.
Defined.
