(* ===== verification/PositionStore.v ===== *)
(** * The store of positions

    [contracts/market/src/state/position.rs]: the open positions with the two
    indexes of their price triggers and the index of their next liquifunding,
    the history of closed positions, and how a position is saved, removed and
    found to be liquidatable. *)

From stdpp Require Import base option gmap strings list pretty.
From Stdlib Require Import ZArith Lia.
From S2P Require Import Prelude Index Storage Cosmwasm Types Number Time Market Price Token DataSeries Config Position Trading State Pool LpHistory Liquidity Fees Funding.
Local Open Scope Z_scope.

Record LiquidatablePosition := mkLiquidatablePosition {
  liq_id : PositionId;
  liq_reason : LiquidationReason;
}.

Record ClosedPositionCursor := mkClosedPositionCursor {
  cursor_time : Timestamp;
  cursor_position : PositionId;
}.

Record ClosedPositionsResp := mkClosedPositionsResp {
  resp_positions : list ClosedPosition;
  resp_cursor : option ClosedPositionCursor;
}.

Inductive OrderInMessage := OrderAscending | OrderDescending.

Definition DEFAULT_CLOSED_POSITION_HISTORY_LIMIT : Z := 100.

(** [get_position]. *)
Definition get_position (m : MarketCtx) (id : PositionId) : res Position :=
  of_option (into_anyhow (MissingPosition (pretty id))) (OPEN_POSITIONS (m_positions m) !! id).

(** ** Closed positions *)

(** The loop of [closed_positions_history]. *)
Fixpoint history_page (limit : nat) (positions : list ClosedPosition)
    (iter : list ((Z * Z) * ClosedPosition)) : ClosedPositionsResp :=
  match iter with
  | [] => mkClosedPositionsResp positions None
  | (key, pos) :: iter =>
      let positions := positions ++ [pos] in
      if Nat.eqb (length positions) limit
      then mkClosedPositionsResp positions
             (match iter with
              | [] => None
              | _ :: _ => Some (mkClosedPositionCursor key.1 key.2)
              end)
      else history_page limit positions iter
  end.

(** [CLOSED_POSITION_HISTORY.prefix(&owner)]. *)
Definition history_of (m : MarketCtx) (owner : Addr) : gmap (Z * Z) ClosedPosition :=
  map_fold (fun k v acc => if bool_decide (k.1 = owner) then <[k.2 := v]> acc else acc) ∅
    (CLOSED_POSITION_HISTORY (m_positions m)).

Definition closed_positions_history (m : MarketCtx) (owner : Addr)
    (cursor : option ClosedPositionCursor) (order : option OrderInMessage) (limit : option Z) :
    ClosedPositionsResp :=
  let order := default OrderDescending order in
  let limit := Z.to_nat (Z.min (default DEFAULT_CLOSED_POSITION_HISTORY_LIMIT limit) QUERY_MAX_LIMIT) in
  let iter :=
    match order with
    | OrderAscending =>
        range_asc (fun k => match cursor with
                            | Some c => key_lt (cursor_time c, cursor_position c) k
                            | None => true
                            end) (history_of m owner)
    | OrderDescending =>
        range_desc (fun k => match cursor with
                             | Some c => key_lt k (cursor_time c, cursor_position c)
                             | None => true
                             end) (history_of m owner)
    end in
  history_page limit [] iter.

(** ** Price triggers *)

(** What each trigger of a position is, by the index it is kept in. *)
Definition price_key (id : PositionId) (reason : LiquidationReason) (p : option Price) :
    list ((Z * Z) * LiquidationReason) :=
  match p with Some price => [((price, id), reason)] | None => [] end.

Definition save_all (es : list ((Z * Z) * LiquidationReason))
    (m : gmap (Z * Z) LiquidationReason) : gmap (Z * Z) LiquidationReason :=
  foldl (fun m e => <[e.1 := e.2]> m) m es.
Definition remove_all (es : list ((Z * Z) * LiquidationReason))
    (m : gmap (Z * Z) LiquidationReason) : gmap (Z * Z) LiquidationReason :=
  foldl (fun m e => delete e.1 m) m es.

(** The triggers on the side of the liquidation price and on the side of the
    take profit price, in the order they are stored. *)
Definition loss_triggers (pos : Position) : list ((Z * Z) * LiquidationReason) :=
  price_key (pos_id pos) LiqLiquidated (pos_liquidation_price pos) ++
  price_key (pos_id pos) LiqStopLoss (stop_loss_override_notional pos).
Definition gain_triggers (pos : Position) : list ((Z * Z) * LiquidationReason) :=
  price_key (pos_id pos) LiqMaxGains (take_profit_total pos) ++
  price_key (pos_id pos) LiqTakeProfit (take_profit_trader_notional pos).

Definition desc_triggers (pos : Position) : list ((Z * Z) * LiquidationReason) :=
  match pos_direction pos with
  | LongToNotional => loss_triggers pos
  | ShortToNotional => gain_triggers pos
  end.
Definition asc_triggers (pos : Position) : list ((Z * Z) * LiquidationReason) :=
  match pos_direction pos with
  | LongToNotional => gain_triggers pos
  | ShortToNotional => loss_triggers pos
  end.

Definition store_liquidation_prices (pos : Position) : mhandler unit :=
  mod_positions (fun s =>
    set_PRICE_TRIGGER_DESC (save_all (desc_triggers pos) (PRICE_TRIGGER_DESC s))
      (set_PRICE_TRIGGER_ASC (save_all (asc_triggers pos) (PRICE_TRIGGER_ASC s)) s)).

Definition remove_liquidation_prices (pos : Position) : mhandler unit :=
  mod_positions (fun s =>
    set_PRICE_TRIGGER_DESC (remove_all (desc_triggers pos) (PRICE_TRIGGER_DESC s))
      (set_PRICE_TRIGGER_ASC (remove_all (asc_triggers pos) (PRICE_TRIGGER_ASC s)) s)).

Definition liquidatable_position (m : MarketCtx) (price : Price) : option LiquidatablePosition :=
  match entry_max (fun k => price <=? k.1) (PRICE_TRIGGER_DESC (m_positions m)) with
  | Some ((_, id), reason) => Some (mkLiquidatablePosition id reason)
  | None =>
      match entry_min (fun k => k.1 <=? price) (PRICE_TRIGGER_ASC (m_positions m)) with
      | Some ((_, id), reason) => Some (mkLiquidatablePosition id reason)
      | None => None
      end
  end.

Definition newly_liquidatable_position (m : MarketCtx) (oracle_price new_price : Price) : bool :=
  is_some (entry_max (fun k => (new_price <=? k.1) && (k.1 <? oracle_price))
             (PRICE_TRIGGER_DESC (m_positions m))) ||
  is_some (entry_min (fun k => (oracle_price <? k.1) && (k.1 <=? new_price))
             (PRICE_TRIGGER_ASC (m_positions m))).

(** ** Saving and removing *)

Definition positions_init : mhandler unit :=
  mod_positions (set_LAST_POSITION_ID 0);;;
  hmod (set_OPEN_NOTIONAL_SHORT_INTEREST 0);;;
  hmod (set_OPEN_NOTIONAL_LONG_INTEREST 0).

Definition position_assert_owner (m : MarketCtx) (id : PositionId) (addr : Addr) : res unit :=
  match get_position m id with
  | Err _ => Err (perp_auth DomMarket)
  | Ok pos => ensure (bool_decide (pos_owner pos = addr)) (perp_auth DomMarket)
  end.

Section Definitions.
Context {CW : CosmwasmStd}.
Context (st : State).

Definition position_remove (id : PositionId) : mhandler unit :=
  position <~ hask (fun m => get_position m id);
  mod_positions (fun s => set_OPEN_POSITIONS (delete (pos_id position) (OPEN_POSITIONS s)) s);;;
  mod_positions (fun s => set_NEXT_LIQUIFUNDING
    (delete (next_liquifunding position, pos_id position) (NEXT_LIQUIFUNDING s)) s);;;
  remove_liquidation_prices position;;;
  decrease_total_funding_margin (margin_funding (pos_liquidation_margin position)).

Definition position_save_no_recalc (pos : Position) : mhandler unit :=
  mod_positions (fun s => set_OPEN_POSITIONS (<[pos_id pos := pos]> (OPEN_POSITIONS s)) s).

(** The fields [position_save] recalculates. *)
Definition position_recalc (pos : Position) (price_point : PricePoint)
    (recalc_liquidation_margin : bool) : res Position :=
  pos <- (if recalc_liquidation_margin
          then
            margin <- liquidation_margin pos price_point (st_config st);
            Ok (set_pos_liquidation_margin margin pos)
          else Ok pos);
  total <- margin_total (pos_liquidation_margin pos);
  _ <- ensure (total <=? active_collateral pos) (perp_market InsufficientMargin);
  let pos := set_pos_liquidation_price
    (liquidation_price pos (price_notional price_point) (active_collateral pos)
       (pos_liquidation_margin pos)) pos in
  total <- take_profit_price_total pos price_point (market_type st);
  Ok (set_take_profit_total total pos).

(** [position_save]; the saved position is the value of [pos] afterwards. *)
Definition position_save (pos : Position) (price_point : PricePoint)
    (is_update recalc_liquidation_margin : bool) (reason : PositionSaveReason) :
    mhandler Position :=
  (if is_update then position_remove (pos_id pos) else hret tt);;;
  pos <~ hlift (position_recalc pos price_point recalc_liquidation_margin);
  mod_positions (fun s => set_OPEN_POSITIONS (<[pos_id pos := pos]> (OPEN_POSITIONS s)) s);;;
  mod_positions (fun s => set_NEXT_LIQUIFUNDING
    (<[(next_liquifunding pos, pos_id pos) := tt]> (NEXT_LIQUIFUNDING s)) s);;;
  store_liquidation_prices pos;;;
  increase_total_funding_margin (margin_funding (pos_liquidation_margin pos));;;
  add_event st (EvPositionSave (pos_id pos) reason);;;
  hret pos.

End Definitions.
