(* ===== verification/SpotPrice.v ===== *)
(** * Spot prices

    [contracts/market/src/state/spot_price.rs] and the conversion of a Pyth
    price in [packages/perpswap/src/price.rs]: reading the oracles a market is
    configured with, composing their prices, and appending to the history of
    prices.  The answers of the oracle contracts are [st_oracle]. *)

From stdpp Require Import base option gmap strings list pretty.
From Stdlib Require Import ZArith Lia.
From S2P Require Import Prelude Index Storage Cosmwasm Types Number Time Market Price Token DataSeries Config Position Trading State PositionStore.
Local Open Scope Z_scope.

(** [OraclePriceFeedPythResp], [..SeiResp] and [..StrideResp]. *)
Record OraclePriceFeed := mkOraclePriceFeed {
  opf_price : Decimal256;
  opf_publish_time : Timestamp;
  opf_volatile : bool;
}.

Record OraclePriceFeedRujira := mkOraclePriceFeedRujira {
  opr_price : Decimal256;
  opr_volatile : bool;
}.

Record OraclePriceInternal := mkOraclePriceInternal {
  op_pyth : gmap string OraclePriceFeed;
  op_sei : gmap string OraclePriceFeed;
  op_rujira : gmap string OraclePriceFeedRujira;
  op_stride : gmap string OraclePriceFeed;
  op_simple : gmap Addr SimpleResp;
}.

Definition oracle_empty : OraclePriceInternal := mkOraclePriceInternal ∅ ∅ ∅ ∅ ∅.

Definition DEFAULT_VOLATILE_DIFF_SECONDS : Z := 5.

(** ** Publish times *)

Definition map_values {K V} `{Countable K} (m : gmap K V) : list V := (map_to_list m).*2.

(** The publish times of the volatile feeds. *)
Definition volatile_times (o : OraclePriceInternal) (block_time : Timestamp) : list Timestamp :=
  let of_feeds (m : gmap string OraclePriceFeed) :=
    omap (fun f => if opf_volatile f then Some (opf_publish_time f) else None) (map_values m) in
  of_feeds (op_pyth o) ++ of_feeds (op_sei o) ++ of_feeds (op_stride o) ++
  omap (fun f => if sp_volatile f then sp_timestamp f else None) (map_values (op_simple o)) ++
  omap (fun f => if opr_volatile f then Some block_time else None) (map_values (op_rujira o)).

(** [add_new_timestamp]. *)
Definition oldest_newest (times : list Timestamp) : option (Timestamp * Timestamp) :=
  foldl (fun acc t => Some (match acc with
                            | None => (t, t)
                            | Some (oldest, newest) => (Z.min oldest t, Z.max newest t)
                            end)) None times.

Section Definitions.
Context {CW : CosmwasmStd}.

Definition calculate_publish_time (o : OraclePriceInternal) (volatile_diff_seconds : Z)
    (block_time : Timestamp) : res (option Timestamp) :=
  match oldest_newest (volatile_times o block_time) with
  | None => Ok None
  | Some (oldest, newest) =>
      diff <- timestamp_checked_sub newest oldest;
      allowed <- duration_from_seconds volatile_diff_seconds;
      if diff <=? allowed then Ok (Some oldest)
      else Err (into_anyhow (VolatilePriceFeedTimeDelta oldest newest))
  end.

(** ** Composing prices *)

Definition feed_price (o : OraclePriceInternal) (symbol : string -> string)
    (data : SpotPriceFeedData) : res Decimal256 :=
  match data with
  | FeedPyth id _ =>
      of_option (AnyhowError "no pyth price for id") (opf_price <$> op_pyth o !! id)
  | FeedSei denom =>
      of_option (AnyhowError "no sei price for denom") (opf_price <$> op_sei o !! denom)
  | FeedStride denom _ =>
      of_option (AnyhowError "no stride redemption rate for denom")
        (opf_price <$> op_stride o !! denom)
  | FeedConstant price => Ok price
  | FeedRujira asset =>
      of_option (AnyhowError "no rujira price for asset")
        (opr_price <$> op_rujira o !! symbol asset)
  | FeedSimple contract _ =>
      of_option (AnyhowError "no simple price for contract") (sp_value <$> op_simple o !! contract)
  end.

(** The loop of [compose_price_feeds]. *)
Fixpoint compose_loop (o : OraclePriceInternal) (symbol : string -> string)
    (acc_price : option Number) (feeds : list SpotPriceFeed) : res (option Number) :=
  match feeds with
  | [] => Ok acc_price
  | feed :: feeds =>
      price <- feed_price o symbol (feed_data feed);
      price <- (if inverted feed then number_checked_div NUMBER_ONE (into_signed price)
                else Ok (into_signed price));
      acc_price <- match acc_price with
                   | None => Ok price
                   | Some prev_price => number_checked_mul prev_price price
                   end;
      compose_loop o symbol (Some acc_price) feeds
  end.

Definition compose_price_feeds (o : OraclePriceInternal) (symbol : string -> string)
    (feeds : list SpotPriceFeed) : res Decimal256 :=
  acc_price <- compose_loop o symbol None feeds;
  match acc_price with
  | Some price => nonzero_try_from price
  | None => Err (AnyhowError "No price feeds provided")
  end.

Definition compose_price (o : OraclePriceInternal) (symbol : string -> string)
    (market_type : MarketType) (feeds feeds_usd : list SpotPriceFeed) (block_time : Timestamp) :
    res PriceStorage :=
  price_base <- compose_price_feeds o symbol feeds;
  price_usd <- compose_price_feeds o symbol feeds_usd;
  price <- into_notional_price price_base market_type;
  Ok (mkPriceStorage price price_usd price_base None None (Some block_time)).

(** [TryFrom<pyth_sdk_cw::Price> for Number]. *)
Definition number_from_pyth (price : PythPrice) : res Number :=
  n <- signed_from_str (pretty (py_price price));
  if py_expo price =? 0 then Ok n
  else
    p <- panics "pow" (u128_prim_pow 10 (Z.abs (py_expo price)));
    d <- number_from_u128 p;
    if 0 <? py_expo price then number_checked_mul n d else number_checked_div n d.

(** [i64] to [u64]. *)
Definition u64_try_from (z : Z) : res Z := std (fits u64_ok z).

Context (st : State).

(** ** Reading the oracles *)

Definition price_too_old (d : ErrorDomain) : error := PerpError PriceTooOld d None.

Definition query_pyth (config : option PythConfig) (validate_age : bool) (id : string)
    (age_tolerance_seconds : Z) (volatile : option bool) : res OraclePriceFeed :=
  let now_seconds := st_now st / 1000000000 in
  config <- of_option (AnyhowError "pyth feeds need a pyth config!") config;
  price <-
    (if validate_age
     then
       fresh <- oq_pyth_no_older_than (st_oracle st) (pyth_contract_address config) id now_seconds
                  age_tolerance_seconds;
       of_option (price_too_old DomPyth) fresh
     else oq_pyth_unchecked (st_oracle st) (pyth_contract_address config) id);
  seconds <- u64_try_from (py_publish_time price);
  publish_time <- timestamp_from_seconds seconds;
  number <- number_from_pyth price;
  positive <- nonzero_try_from number;
  Ok (mkOraclePriceFeed positive publish_time (default true volatile)).

Definition query_stride (config : option StrideConfig) (validate_age : bool) (denom : string)
    (age_tolerance_seconds : Z) (volatile : option bool) : res OraclePriceFeed :=
  let now_seconds := st_now st / 1000000000 in
  config <- of_option (AnyhowError "stride config not set") config;
  resp <- oq_stride (st_oracle st) (stride_contract_address config) denom;
  _ <- (if validate_age && (age_tolerance_seconds <? now_seconds - sr_update_time resp)
        then Err (price_too_old DomStride) else Ok tt);
  publish_time <- timestamp_from_seconds (sr_update_time resp);
  rate <- nonzero_try_from (into_signed (sr_redemption_rate resp));
  Ok (mkOraclePriceFeed rate publish_time (default false volatile)).

Definition query_rujira (symbol : string) (volatile : option bool) : res OraclePriceFeedRujira :=
  raw_price <- oq_rujira (st_oracle st) symbol;
  price <- nonzero_try_from (into_signed raw_price);
  Ok (mkOraclePriceFeedRujira price (default true volatile)).

Definition query_simple (validate_age : bool) (contract : Addr) (age_tolerance_seconds : Z) :
    res SimpleResp :=
  resp <- oq_simple (st_oracle st) contract;
  _ <- (if validate_age
        then
          time_diff <- timestamp_checked_sub (st_now st)
                         (default (sp_block_time resp) (sp_timestamp resp));
          tolerance <- duration_from_seconds age_tolerance_seconds;
          ensure (time_diff <=? tolerance) (price_too_old DomSimpleOracle)
        else Ok tt);
  Ok resp.

(** One iteration of the loop of [get_oracle_price]: a feed that is already
    there is not queried again. *)
Definition query_feed (pyth : option PythConfig) (stride : option StrideConfig)
    (validate_age : bool) (feed : SpotPriceFeed) (o : OraclePriceInternal) :
    res OraclePriceInternal :=
  match feed_data feed with
  | FeedPyth id tolerance =>
      match op_pyth o !! id with
      | Some _ => Ok o
      | None =>
          f <- query_pyth pyth validate_age id tolerance (volatile feed);
          Ok (mkOraclePriceInternal (<[id := f]> (op_pyth o)) (op_sei o) (op_rujira o)
                (op_stride o) (op_simple o))
      end
  | FeedSei _ => Err (AnyhowError "SEI price feed is only available on sei network")
  | FeedStride denom tolerance =>
      match op_stride o !! denom with
      | Some _ => Ok o
      | None =>
          f <- query_stride stride validate_age denom tolerance (volatile feed);
          Ok (mkOraclePriceInternal (op_pyth o) (op_sei o) (op_rujira o)
                (<[denom := f]> (op_stride o)) (op_simple o))
      end
  | FeedRujira asset =>
      let symbol := oq_rujira_symbol (st_oracle st) asset in
      match op_rujira o !! symbol with
      | Some _ => Ok o
      | None =>
          f <- query_rujira symbol (volatile feed);
          Ok (mkOraclePriceInternal (op_pyth o) (op_sei o) (<[symbol := f]> (op_rujira o))
                (op_stride o) (op_simple o))
      end
  | FeedConstant _ => Ok o
  | FeedSimple contract tolerance =>
      match op_simple o !! contract with
      | Some _ => Ok o
      | None =>
          f <- query_simple validate_age contract tolerance;
          Ok (mkOraclePriceInternal (op_pyth o) (op_sei o) (op_rujira o) (op_stride o)
                (<[contract := f]> (op_simple o)))
      end
  end.

Fixpoint query_feeds (pyth : option PythConfig) (stride : option StrideConfig)
    (validate_age : bool) (feeds : list SpotPriceFeed) (o : OraclePriceInternal) :
    res OraclePriceInternal :=
  match feeds with
  | [] => Ok o
  | feed :: feeds =>
      o <- query_feed pyth stride validate_age feed o;
      query_feeds pyth stride validate_age feeds o
  end.

Definition get_oracle_price (validate_age : bool) : res OraclePriceInternal :=
  match spot_price (st_config st) with
  | SpotManual _ => Err (AnyhowError "Manual spot price does not have an oracle price")
  | SpotOracle pyth stride feeds feeds_usd _ =>
      query_feeds pyth stride validate_age (feeds ++ feeds_usd) oracle_empty
  end.

(** ** The price history *)

Definition config_volatile_time : Z :=
  default DEFAULT_VOLATILE_DIFF_SECONDS
    (match spot_price (st_config st) with
     | SpotManual _ => None
     | SpotOracle _ _ _ _ volatile_diff_seconds => volatile_diff_seconds
     end).

Definition save_manual_spot_price (price_base : PriceBaseInQuote)
    (price_usd : PriceCollateralInUsd) : mhandler unit :=
  price <~ hlift (into_notional_price price_base (market_type st));
  hmod (set_MANUAL_SPOT_PRICE
    (Some (mkPriceStorage price price_usd price_base None None (Some (st_now st))))).

(** The price to append and its publish time. *)
Definition new_spot_price (m : MarketCtx) : res (Timestamp * PriceStorage) :=
  match spot_price (st_config st) with
  | SpotManual _ =>
      p <- of_option (AnyhowError "This contract has manual price updates, and no price has been set yet.")
             (MANUAL_SPOT_PRICE m);
      Ok (st_now st, p)
  | SpotOracle _ _ feeds feeds_usd _ =>
      internal <- get_oracle_price true;
      time <- calculate_publish_time internal config_volatile_time (st_now st);
      new_publish_time <- of_option (into_anyhow NoPricePublishTimeFound) time;
      price_storage <- compose_price internal (oq_rujira_symbol (st_oracle st)) (market_type st)
                         feeds feeds_usd (st_now st);
      Ok (new_publish_time, price_storage)
  end.

Definition spot_price_append : mhandler unit :=
  '(new_publish_time, price_storage) <~ hask new_spot_price;
  last <~ hget (fun m => entry_max (fun _ => true) (PRICES m));
  let append :=
    add_event st (EvSpotPrice (make_price_point st new_publish_time price_storage));;;
    hmod (fun m => set_PRICES (<[new_publish_time := price_storage]> (PRICES m)) m) in
  match last with
  | None =>
      hensure (st_instantiation_time st <=? new_publish_time)
        (AnyhowError "Cannot use a spot price publish time earlier than the contract instantiation time");;;
      append
  | Some (last_published, _) =>
      if new_publish_time <=? last_published then hret tt else append
  end.

(** [spot_price_after]. *)
Definition spot_price_after (m : MarketCtx) (min : option Timestamp) : option PricePoint :=
  match entry_min (fun t => match min with Some a => a <? t | None => true end) (PRICES m) with
  | Some (timestamp, price_storage) => Some (make_price_point st timestamp price_storage)
  | None => None
  end.

Definition historical_spot_prices (m : MarketCtx) (start_after : option Timestamp)
    (limit : option Z) (order : option OrderInMessage) : list PricePoint :=
  let iter :=
    match default OrderDescending order with
    | OrderAscending =>
        range_asc (fun t => match start_after with Some a => a <? t | None => true end) (PRICES m)
    | OrderDescending =>
        range_desc (fun t => match start_after with Some a => t <? a | None => true end) (PRICES m)
    end in
  take (Z.to_nat (Z.min (default 20 limit) QUERY_MAX_LIMIT))
    (map (fun e => make_price_point st e.1 e.2) iter).

(** [next_crank_timestamp] (crank.rs). *)
Definition next_crank_timestamp (m : MarketCtx) : option PricePoint :=
  spot_price_after m (LAST_CRANK_COMPLETED (m_crank m)).

End Definitions.
