(* ===== verification/TradeHistory.v ===== *)
(** * The history of trades

    [contracts/market/src/state/history/trade.rs]: the actions recorded for
    each position and each trader, the traded volume and the realized profit
    or loss of a trader. *)

From stdpp Require Import base option gmap strings list.
From Stdlib Require Import ZArith Lia.
From S2P Require Import Prelude Index Storage Cosmwasm Types Number Time Market Price Token DataSeries Config Position Trading State Pool LpHistory.
Local Open Scope Z_scope.

Definition HISTORY_DEFAULT_LIMIT : Z := 20.

Section Definitions.
Context {CW : CosmwasmStd}.
Context (st : State).

Definition trade_volume_usd (pos : Position) (price_point : PricePoint) (market_type : MarketType) :
    res Usd :=
  l <- active_leverage_to_notional pos price_point;
  base <- leverage_into_base l market_type;
  let leverage := (leverage_split base).2 in
  trade_volume_collateral <- checked_mul_dec (active_collateral pos) leverage;
  collateral_to_usd price_point trade_volume_collateral.

Definition trade_volume_usd_from_closed (pos : ClosedPosition) (price_point : PricePoint) :
    res Usd :=
  collateral_factor <-
    match pp_market_type price_point with
    | CollateralIsQuote => Ok (into_signed 0)
    | CollateralIsBase =>
        n <- collateral_to_notional price_point (cp_active_collateral pos);
        Ok (match cp_direction_to_base pos with
            | LongToBase => into_signed n
            | ShortToBase => signed_neg (into_signed n)
            end)
    end;
  trade_volume_notional <- signed_checked_add (cp_notional_size pos) collateral_factor;
  notional_to_usd price_point (abs_unsigned trade_volume_notional).

(** [push_to_monotonic_multilevel_map] on the two histories. *)
Definition push_position_history (id : PositionId) (action : PositionAction) : mhandler unit :=
  next_id <~ hask (fun m =>
    match last_id_pair id (TRADE_HISTORY_BY_POSITION (m_trades m)) with
    | None => Ok 0
    | Some x => u64_checked (x + 1)
    end);
  mod_trades (fun s => set_TRADE_HISTORY_BY_POSITION
    (<[(id, next_id) := action]> (TRADE_HISTORY_BY_POSITION s)) s).

Definition push_address_history (addr : Addr) (action : PositionAction) : mhandler unit :=
  history <~ hget (fun m => TRADE_HISTORY_BY_ADDRESS (m_trades m));
  '(_, history) <~ hlift (push_to_monotonic_multilevel_map history addr action);
  mod_trades (set_TRADE_HISTORY_BY_ADDRESS history).

Definition position_history_add_transfer (pos : Position) (old_owner : Addr) : mhandler unit :=
  let new_owner_action :=
    mkPositionAction (Some (pos_id pos)) ActionTransfer (st_now st) None (active_collateral pos)
      (into_signed (active_collateral pos)) None None None None (Some old_owner)
      (Some (pos_owner pos)) (take_profit_trader pos) (stop_loss_override pos) in
  let old_owner_action :=
    mkPositionAction (Some (pos_id pos)) ActionTransfer (st_now st) None (active_collateral pos)
      (signed_neg (into_signed (active_collateral pos))) None None None None (Some old_owner)
      (Some (pos_owner pos)) (take_profit_trader pos) (stop_loss_override pos) in
  add_event st (EvPositionAction (pos_id pos) new_owner_action);;;
  push_position_history (pos_id pos) new_owner_action;;;
  push_address_history (pos_owner pos) new_owner_action;;;
  push_address_history old_owner old_owner_action.

Definition trade_history_get_summary (m : MarketCtx) (addr : Addr) : TradeHistorySummary :=
  default (mkTradeHistorySummary 0 NUMBER_ZERO) (TRADE_HISTORY_SUMMARY (m_trades m) !! addr).

Definition save_trade_summary (addr : Addr) (summary : TradeHistorySummary) : mhandler unit :=
  mod_trades (fun s => set_TRADE_HISTORY_SUMMARY (<[addr := summary]> (TRADE_HISTORY_SUMMARY s)) s).

Definition trade_history_add_volume (addr : Addr) (volume_usd : Usd) : mhandler unit :=
  summary <~ hget (fun m => trade_history_get_summary m addr);
  volume <~ hlift (ud_checked_add (trade_volume summary) volume_usd);
  save_trade_summary addr (mkTradeHistorySummary volume (realized_pnl summary));;;
  add_event st (EvTradeVolume volume_usd).

Definition trade_history_add_realized_pnl (addr : Addr) (pnl pnl_usd : Signed) : mhandler unit :=
  summary <~ hget (fun m => trade_history_get_summary m addr);
  realized <~ hlift (signed_checked_add (realized_pnl summary) pnl_usd);
  save_trade_summary addr (mkTradeHistorySummary (trade_volume summary) realized);;;
  add_event st (EvPnl pnl pnl_usd).

Definition position_history_add_close_action (pos : ClosedPosition) (active_collateral : Collateral)
    (delta_neutrality_fee : Signed) (price_point : PricePoint) : mhandler unit :=
  fee_usd <~ hlift (try_map (collateral_to_usd price_point) delta_neutrality_fee);
  let action :=
    mkPositionAction (Some (cp_id pos)) ActionClose (st_now st) (Some (pp_timestamp price_point))
      active_collateral (into_signed active_collateral) None None None (Some fee_usd)
      None None None None in
  add_event st (EvPositionAction (cp_id pos) action);;;
  push_position_history (cp_id pos) action;;;
  push_address_history (cp_owner pos) action.

Definition position_history_add_close (pos : ClosedPosition) (delta_neutrality_fee : Signed)
    (settlement_price : PricePoint) : mhandler unit :=
  position_history_add_close_action pos (cp_active_collateral pos) delta_neutrality_fee
    settlement_price;;;
  volume <~ hlift (trade_volume_usd_from_closed pos settlement_price);
  trade_history_add_volume (cp_owner pos) volume;;;
  trade_history_add_realized_pnl (cp_owner pos) (cp_pnl_collateral pos) (cp_pnl_usd pos).

Definition position_history_add_open_update_action (pos : Position) (kind : PositionActionKind)
    (trading_fee : option Collateral) (delta_neutrality_fee : option Signed)
    (deposit_collateral_delta : Signed) (price_point : PricePoint) : mhandler unit :=
  l <~ hlift (active_leverage_to_notional pos price_point);
  base <~ hlift (leverage_into_base l (market_type st));
  let leverage := (leverage_split base).2 in
  trade_fee_usd <~ hlift (match trading_fee with
                          | None => Ok None
                          | Some x => u <- collateral_to_usd price_point x; Ok (Some u)
                          end);
  max_gains <~ hlift (max_gains_in_quote pos (market_type st) price_point);
  fee_usd <~ hlift (match delta_neutrality_fee with
                    | None => Ok None
                    | Some x => u <- try_map (collateral_to_usd price_point) x; Ok (Some u)
                    end);
  let action :=
    mkPositionAction (Some (pos_id pos)) kind (st_now st) (Some (pp_timestamp price_point))
      (active_collateral pos) deposit_collateral_delta (Some leverage) (Some max_gains)
      trade_fee_usd fee_usd None None (take_profit_trader pos) (stop_loss_override pos) in
  add_event st (EvPositionAction (pos_id pos) action);;;
  push_position_history (pos_id pos) action;;;
  push_address_history (pos_owner pos) action.

End Definitions.

(** ** Reading the history *)

Section Queries.
Context {T : Type}.

(** The loop of [get_history_helper] over the entries left to read, with the
    entries taken so far and the key of the last one. *)
Fixpoint history_loop (limit : nat) (actions : list T) (next_start_after : option Z)
    (iter : list (Z * T)) : list T * option Z * list (Z * T) :=
  match limit with
  | O => (actions, next_start_after, iter)
  | S limit =>
      match iter with
      | (k, v) :: iter => history_loop limit (actions ++ [v]) (Some k) iter
      | [] => (actions, None, [])
      end
  end.

(** [get_history_helper], on the map under the prefix. *)
Definition get_history_helper (map : gmap Z T) (start_after : option Z) (limit : option Z)
    (descending : bool) : list T * option Z :=
  let iter :=
    if descending
    then range_desc (fun k => match start_after with Some a => k <? a | None => true end) map
    else range_asc (fun k => match start_after with Some a => a <? k | None => true end) map in
  let limit := Z.to_nat (Z.min (default HISTORY_DEFAULT_LIMIT limit) 1000) in
  let '(actions, next_start_after, iter) := history_loop limit [] None iter in
  (actions, match iter with [] => None | _ :: _ => next_start_after end).
End Queries.

Definition position_actions (m : MarketCtx) (id : PositionId) : gmap Z PositionAction :=
  map_fold (fun k v acc => if k.1 =? id then <[k.2 := v]> acc else acc) ∅
    (TRADE_HISTORY_BY_POSITION (m_trades m)).
Definition trader_actions (m : MarketCtx) (owner : Addr) : gmap Z PositionAction :=
  map_fold (fun k v acc => if bool_decide (k.1 = owner) then <[k.2 := v]> acc else acc) ∅
    (TRADE_HISTORY_BY_ADDRESS (m_trades m)).

Definition position_action_get_history (m : MarketCtx) (id : PositionId) (start_after limit : option Z)
    (descending : bool) : list PositionAction * option Z :=
  get_history_helper (position_actions m id) start_after limit descending.
Definition trader_action_get_history (m : MarketCtx) (owner : Addr) (start_after limit : option Z)
    (descending : bool) : list PositionAction * option Z :=
  get_history_helper (trader_actions m owner) start_after limit descending.
