(* ===== verification/PositionToken.v ===== *)
(** * Positions as tokens

    [contracts/market/src/state/position/cw721.rs]: the ownership of positions
    as a CW721 token: minting and burning, approvals and operators, transfers.
    A token id is the decimal text of a position id. *)

From stdpp Require Import base option gmap strings list pretty.
From Stdlib Require Import ZArith Lia Ascii.
From S2P Require Import Prelude Index Storage Cosmwasm Types Number Time Market Price Token DataSeries Config Position Trading State Pool LpHistory Liquidity Fees Funding PositionStore TradeHistory.
Local Open Scope Z_scope.

(** [u64::from_str]: an optional plus sign and digits, checked for overflow. *)
Definition digit_of (c : ascii) : option Z :=
  let n := Z.of_N (N_of_ascii c) - 48 in
  if (0 <=? n) && (n <=? 9) then Some n else None.

Fixpoint parse_digits (s : string) (acc : Z) : option Z :=
  match s with
  | EmptyString => Some acc
  | String c s => d ← digit_of c; v ← fits u64_ok (acc * 10 + d); parse_digits s v
  end.

Definition parse_u64 (s : string) : option Z :=
  match s with
  | EmptyString => None
  | String "+" EmptyString => None
  | String "+" s => parse_digits s 0
  | s => parse_digits s 0
  end.

(** [PositionId::from_str] and [PositionId::to_string]. *)
Definition position_id_parse (token_id : string) : res PositionId := std (parse_u64 token_id).
Definition position_token_id (id : PositionId) : string := pretty id.

Section Definitions.
Context {CW : CosmwasmStd}.
Context (st : State).

Definition approval_is_expired (a : Approval) : bool := is_expired (approval_expires a) (st_block st).

(** ** Queries *)

Definition nft_token_approvals (m : MarketCtx) (token_id : string) : res (list Approval) :=
  std (NFT_APPROVALS (m_nft m) !! token_id).

Definition nft_num_tokens (m : MarketCtx) : Z := default 0 (NFT_COUNT (m_nft m)).

Definition filter_approvals (approvals : list Approval) (include_expired : bool) : list Approval :=
  List.filter (fun apr => include_expired || negb (approval_is_expired apr)) approvals.

Definition nft_owner_of (m : MarketCtx) (token_id : string) (include_expired : bool) :
    res (Addr * list Approval) :=
  id <- position_id_parse token_id;
  position <- get_position m id;
  approvals <- nft_token_approvals m token_id;
  Ok (pos_owner position, filter_approvals approvals include_expired).

Definition nft_approval (m : MarketCtx) (token_id : string) (spender : Addr) (include_expired : bool) :
    res Approval :=
  id <- position_id_parse token_id;
  position <- get_position m id;
  approvals <- nft_token_approvals m token_id;
  if bool_decide (pos_owner position = spender)
  then Ok (mkApproval (pos_owner position) expiration_default)
  else
    match List.filter (fun t => include_expired || negb (approval_is_expired t))
            (List.filter (fun t => bool_decide (approval_spender t = spender)) approvals) with
    | [] => Err (perp_auth DomPositionToken)
    | approval :: _ => Ok approval
    end.

Definition nft_approvals (m : MarketCtx) (token_id : string) (include_expired : bool) :
    res (list Approval) :=
  approvals <- nft_token_approvals m token_id;
  Ok (filter_approvals approvals include_expired).

Definition NFT_DEFAULT_LIMIT : Z := 10.

(** The tokens of an owner, or all of them. *)
Definition owner_tokens (m : MarketCtx) (owner : Addr) : gmap string unit :=
  map_fold (fun k v acc => if bool_decide (k.1 = owner) then <[k.2 := v]> acc else acc) ∅
    (NFT_OWNERS (m_nft m)).

Definition nft_map_token_ids (m : MarketCtx) (owner : option Addr) (start_after : option string)
    (limit : option Z) : list string :=
  let limit := Z.to_nat (Z.min (default NFT_DEFAULT_LIMIT limit) QUERY_MAX_LIMIT) in
  take limit (keys_after start_after
    (match owner with
     | Some owner => owner_tokens m owner
     | None => NFT_POSITION_IDS (m_nft m)
     end)).

(** ** Permissions *)

(** The operator part of both checks. *)
Definition check_operator (m : MarketCtx) (owner msg_sender : Addr) : res unit :=
  match NFT_OPERATORS (m_nft m) !! (owner, msg_sender) with
  | Some ex => if is_expired ex (st_block st) then Err (perp_auth DomPositionToken) else Ok tt
  | None => Err (perp_auth DomPositionToken)
  end.

Definition nft_check_can_approve (m : MarketCtx) (msg_sender : Addr) (token_id : string) : res unit :=
  id <- position_id_parse token_id;
  position <- get_position m id;
  if bool_decide (pos_owner position = msg_sender) then Ok tt
  else check_operator m (pos_owner position) msg_sender.

Definition nft_check_can_send (m : MarketCtx) (msg_sender : Addr) (token_id : string)
    (approvals : list Approval) : res unit :=
  id <- position_id_parse token_id;
  position <- get_position m id;
  if bool_decide (pos_owner position = msg_sender) || bool_decide (st_contract st = msg_sender)
  then Ok tt
  else if existsb (fun apr => bool_decide (approval_spender apr = msg_sender) &&
                              negb (approval_is_expired apr)) approvals
  then Ok tt
  else check_operator m (pos_owner position) msg_sender.

(** ** Minting and burning *)

Definition save_approvals (token_id : string) (approvals : list Approval) : mhandler unit :=
  mod_nft (fun s => set_NFT_APPROVALS (<[token_id := approvals]> (NFT_APPROVALS s)) s).

Definition nft_increment_tokens : mhandler unit :=
  val <~ hask (fun m => u64_checked (nft_num_tokens m + 1));
  mod_nft (set_NFT_COUNT (Some val)).

Definition nft_decrement_tokens : mhandler unit :=
  val <~ hask (fun m => u64_checked (nft_num_tokens m - 1));
  mod_nft (set_NFT_COUNT (Some val)).

Definition nft_mint (owner : Addr) (token_id : string) : mhandler unit :=
  mod_nft (fun s => set_NFT_POSITION_IDS (<[token_id := tt]> (NFT_POSITION_IDS s)) s);;;
  mod_nft (fun s => set_NFT_OWNERS (<[(owner, token_id) := tt]> (NFT_OWNERS s)) s);;;
  save_approvals token_id [];;;
  nft_increment_tokens;;;
  add_event st (EvNftMint owner token_id).

Definition nft_burn (owner : Addr) (token_id : string) : mhandler unit :=
  mod_nft (fun s => set_NFT_POSITION_IDS (delete token_id (NFT_POSITION_IDS s)) s);;;
  mod_nft (fun s => set_NFT_OWNERS (delete (owner, token_id) (NFT_OWNERS s)) s);;;
  mod_nft (fun s => set_NFT_APPROVALS (delete token_id (NFT_APPROVALS s)) s);;;
  nft_decrement_tokens;;;
  add_event st (EvNftBurn token_id).

(** ** Execute messages *)

Definition nft_transfer_inner (msg_sender recipient : Addr) (token_id : string) : mhandler unit :=
  approvals <~ hask (fun m => nft_token_approvals m token_id);
  hask (fun m => nft_check_can_send m msg_sender token_id approvals);;;
  id <~ hlift (position_id_parse token_id);
  pos <~ hask (fun m => get_position m id);
  mod_nft (fun s => set_NFT_OWNERS (delete (pos_owner pos, token_id) (NFT_OWNERS s)) s);;;
  mod_nft (fun s => set_NFT_OWNERS (<[(recipient, token_id) := tt]> (NFT_OWNERS s)) s);;;
  let old_owner := pos_owner pos in
  let pos := set_pos_owner recipient pos in
  position_save_no_recalc pos;;;
  position_history_add_transfer st pos old_owner;;;
  save_approvals token_id [];;;
  add_event st (EvNftTransfer recipient token_id).

Definition nft_transfer (msg_sender recipient : Addr) (token_id : string) : mhandler unit :=
  nft_transfer_inner msg_sender recipient token_id.

Definition nft_send (msg_sender contract : Addr) (token_id : string) (msg : Binary) :
    mhandler unit :=
  nft_transfer_inner msg_sender contract token_id;;;
  add_message (Cw721Receive contract msg_sender token_id msg).

Definition nft_update_approvals (msg_sender spender : Addr) (token_id : string) (add : bool)
    (expires : option Expiration) : mhandler unit :=
  approvals <~ hask (fun m => nft_token_approvals m token_id);
  hask (fun m => nft_check_can_approve m msg_sender token_id);;;
  let approvals := List.filter (fun apr => negb (bool_decide (approval_spender apr = spender)))
                     approvals in
  approvals <~ (if add
                then
                  let expires := default expiration_default expires in
                  hensure (negb (is_expired expires (st_block st)))
                    (PerpError Expired DomPositionToken None);;;
                  add_event st (EvNftApproval spender token_id expires);;;
                  hret (approvals ++ [mkApproval spender expires])
                else
                  add_event st (EvNftRevoke spender token_id);;;
                  hret approvals);
  save_approvals token_id approvals.

Definition nft_approve (msg_sender spender : Addr) (token_id : string)
    (expires : option Expiration) : mhandler unit :=
  nft_update_approvals msg_sender spender token_id true expires.

Definition nft_revoke (msg_sender spender : Addr) (token_id : string) : mhandler unit :=
  nft_update_approvals msg_sender spender token_id false None.

Definition nft_approve_all (msg_sender operator : Addr) (expires : option Expiration) :
    mhandler unit :=
  let expires := default expiration_default expires in
  hensure (negb (is_expired expires (st_block st))) (PerpError Expired DomPositionToken None);;;
  mod_nft (fun s => set_NFT_OPERATORS (<[(msg_sender, operator) := expires]> (NFT_OPERATORS s)) s);;;
  add_event st (EvNftApproveAll operator expires).

Definition nft_revoke_all (msg_sender operator : Addr) : mhandler unit :=
  mod_nft (fun s => set_NFT_OPERATORS (delete (msg_sender, operator) (NFT_OPERATORS s)) s);;;
  add_event st (EvNftRevokeAll operator).

Definition nft_handle_exec (msg_sender : Addr) (msg : NftExecuteMsg) : mhandler unit :=
  if disable_position_nft_exec (st_config st) then herr (perp_auth DomPositionToken)
  else
    match msg with
    | NftApprove spender token_id expires =>
        spender <~ hlift (std (addr_validate spender));
        nft_approve msg_sender spender token_id expires
    | NftRevoke spender token_id =>
        spender <~ hlift (std (addr_validate spender));
        nft_revoke msg_sender spender token_id
    | NftApproveAll operator expires =>
        operator <~ hlift (std (addr_validate operator));
        nft_approve_all msg_sender operator expires
    | NftRevokeAll operator =>
        operator <~ hlift (std (addr_validate operator));
        nft_revoke_all msg_sender operator
    | NftTransferNft recipient token_id =>
        recipient <~ hlift (std (addr_validate recipient));
        nft_transfer msg_sender recipient token_id
    | NftSendNft contract token_id msg =>
        contract <~ hlift (std (addr_validate contract));
        nft_send msg_sender contract token_id msg
    end.

End Definitions.
