(* ===== verification/Text.v ===== *)
(** * Text forms

    The [Display], [FromStr] and serde implementations of the shared types whose
    text is more than that of a wrapped number: timestamps ([time.rs]), signed
    and non-zero numbers ([number/convert.rs], [number/nonzero.rs]), finite or
    infinite gains and take profit prices ([max_gains.rs], [price.rs]), ids.
    The texts of [Decimal256] are those of cosmwasm-std. *)

From stdpp Require Import base option gmap strings list pretty.
From Stdlib Require Import ZArith Lia Ascii.
From S2P Require Import Prelude Index Storage Cosmwasm Types Number Time Market Price Token DataSeries Config Position Trading State Pool LpHistory Liquidity Fees Funding PositionStore TradeHistory PositionToken.
Local Open Scope Z_scope.

(** [{:0w}]: at least [w] characters, filled with zeros. *)
Fixpoint zeros (n : nat) : string := match n with O => EmptyString | S n => String "0" (zeros n) end.
Definition padded (w : nat) (n : Z) : string :=
  let s : string := pretty n in (zeros (w - String.length s) +:+ s)%string.

(** ** Timestamps *)

Definition timestamp_display (t : Timestamp) : string :=
  let whole := t / 1000000000 in
  let fractional := t mod 1000000000 in
  (pretty whole +:+ "." +:+ padded 9 fractional)%string.

(** [serialize_str(&self.0.to_string())] and the visitor of the text. *)
Definition timestamp_serialize (t : Timestamp) : string := pretty t.
Definition nano_visit_str (v : string) : res Timestamp :=
  of_option (AnyhowError "invalid Nano") (parse_u64 v).

(** The sum of the last line is made of trapping operators. *)
Definition timestamp_from_str (s : string) : res Timestamp :=
  let err := PerpError Conversion DomDefault None in
  '(seconds, nanos) <- of_option err (split_once "." s);
  seconds <- of_option err (parse_u64 seconds);
  nanos <- of_option err (parse_u64 nanos);
  t <- timestamp_from_seconds seconds;
  timestamp_add t (duration_from_nanos nanos).

(** ** Ids *)

Definition order_id_from_str (src : string) : option OrderId := parse_u64 src.
Definition deferred_exec_id_from_str (src : string) : option DeferredExecId := parse_u64 src.

(** ** Numbers *)

Definition POS_INF_STR : string := "+Inf".

Section Definitions.
Context {CW : CosmwasmStd}.
(** [Decimal256::to_string]. *)
Context (dec_to_string : Z -> string).

Definition signed_display (s : Signed) : string :=
  if ud_is_zero (value s) then "0"
  else if is_negative s then ("-" +:+ dec_to_string (value s))%string
  else dec_to_string (value s).

Definition nonzero_from_str (s : string) : res Decimal256 :=
  of_option (AnyhowError "Could not parse a non-zero value") (d ← dec_from_str s; nonzero_new d).

Definition max_gains_display (m : MaxGainsInQuote) : string :=
  match m with MaxGainsFinite val => dec_to_string val | MaxGainsPosInfinity => POS_INF_STR end.
Definition max_gains_from_str (src : string) : res MaxGainsInQuote :=
  if String.eqb src POS_INF_STR then Ok MaxGainsPosInfinity
  else match nonzero_from_str src with
       | Ok number => Ok (MaxGainsFinite number)
       | Err _ => Err (PerpError Conversion DomDefault None)
       end.
Definition max_gains_visit_str (v : string) : res MaxGainsInQuote :=
  of_option (AnyhowError "Invalid MaxGainsInQuote") (res_ok (max_gains_from_str v)).

Definition take_profit_display (t : TakeProfitTrader) : string :=
  match t with TakeProfitFinite val => dec_to_string val | TakeProfitPosInfinity => POS_INF_STR end.
Definition take_profit_from_str (src : string) : res TakeProfitTrader :=
  if String.eqb src POS_INF_STR then Ok TakeProfitPosInfinity
  else match nonzero_from_str src with
       | Ok number => Ok (TakeProfitFinite number)
       | Err _ => Err (PerpError Conversion DomDefault None)
       end.
Definition take_profit_visit_str (v : string) : res TakeProfitTrader :=
  of_option (AnyhowError "Invalid TakeProfitPrice") (res_ok (take_profit_from_str v)).

(** ** Pyth prices *)

(** [pyth_sdk_cw::Price], as far as the conversions read it. *)
Record PythPrice := mkPythPrice { pyth_price : Z; pyth_expo : Z; pyth_conf : Z; pyth_publish_time : Z }.

(** [10u128.pow] panics where the power does not fit. *)
Definition number_try_from_pyth (price : PythPrice) : res Number :=
  n <- signed_from_str (pretty (pyth_price price));
  match pyth_expo price ?= 0 with
  | Eq => Ok n
  | Gt => p <- panics "pow" (u128_prim_pow 10 (Z.abs (pyth_expo price)));
          f <- number_from_u128 p; number_checked_mul n f
  | Lt => p <- panics "pow" (u128_prim_pow 10 (Z.abs (pyth_expo price)));
          f <- number_from_u128 p; number_checked_div n f
  end.

(** [i64::from_str]. *)
Definition parse_i64 (s : string) : option Z :=
  match s with
  | String "-" EmptyString => None
  | String "-" rest => v ← parse_digits rest 0; if v <=? 2 ^ 63 then Some (- v) else None
  | _ => v ← parse_u64 s; if v <? 2 ^ 63 then Some v else None
  end.

Definition to_pyth_price (self : Number) (conf publish_time : Z) : res PythPrice :=
  let s := signed_display self in
  let '(integer, decimal) := default (s, EmptyString) (split_once "." s) in
  price <- of_option (AnyhowError "invalid digit found in string") (parse_i64 (integer +:+ decimal));
  Ok (mkPythPrice price (- Z.of_nat (String.length decimal)) conf publish_time).

Definition price_base_try_from_pyth (value : PythPrice) : res PriceBaseInQuote :=
  n <- number_try_from_pyth value; price_base_try_from_number n.
Definition price_collateral_try_from_pyth (value : PythPrice) : res PriceCollateralInUsd :=
  n <- number_try_from_pyth value; nonzero_try_from n.

End Definitions.

(** ** [direction.rs] *)

Definition direction_as_str (d : DirectionToNotional) : string :=
  match d with LongToNotional => "long" | ShortToNotional => "short" end.
Definition direction_to_base_as_str (d : DirectionToBase) : string :=
  match d with LongToBase => "long" | ShortToBase => "short" end.
Definition direction_from_text (s : string) : res DirectionToNotional :=
  if String.eqb s "long" then Ok LongToNotional
  else if String.eqb s "short" then Ok ShortToNotional
  else Err (Panic "not implemented").

(** * Theory *)

(** ** Decimal digits *)

Lemma parse_digits_step c s d acc :
  digit_of c = Some d -> parse_digits (String c s) acc = (v ← fits u64_ok (acc * 10 + d); parse_digits s v).
Proof. intros Hd. simpl. by rewrite Hd. Qed.

Lemma digit_of_char (n : N) : (n < 10)%N -> digit_of (pretty_N_char n) = Some (Z.of_N n).
Proof.
  intros Hn. destruct n as [|p]; [done|].
  do 4 (destruct p as [p|p|]; try (vm_compute; reflexivity); try lia).
Qed.

Lemma fits_u64 z : 0 <= z <= U64_MAX -> fits u64_ok z = Some z.
Proof. intros Hz. apply fits_Some. split; [done|]. by apply u64_ok_true. Qed.

Lemma parse_pretty_go (x : N) s :
  Z.of_N x <= U64_MAX -> parse_digits (pretty_N_go x s) 0 = parse_digits s (Z.of_N x).
Proof.
  revert s. induction (N.lt_wf_0 x) as [x _ IH]; intros s Hx.
  destruct (decide (x = 0)%N) as [->|Hne]; [by rewrite pretty_N_go_0|].
  rewrite pretty_N_go_step by lia. rewrite IH; [|by apply N.div_lt; lia|].
  - rewrite (parse_digits_step _ _ (Z.of_N (x mod 10))) by (apply digit_of_char, N.mod_lt; lia).
    assert (Z.of_N (x / 10) * 10 + Z.of_N (x mod 10) = Z.of_N x) as ->.
    { pose proof (N.div_mod x 10). lia. }
    by rewrite fits_u64 by lia.
  - transitivity (Z.of_N x); [|done]. apply N2Z.inj_le, N.Div0.div_le_upper_bound. lia.
Qed.

Lemma parse_digits_pretty z : 0 <= z <= U64_MAX -> parse_digits (pretty z) 0 = Some z.
Proof.
  intros Hz. destruct z as [|p|p]; [done| |lia].
  change (pretty (Z.pos p)) with (pretty (N.pos p)). unfold pretty, pretty_N.
  rewrite decide_False by done. rewrite parse_pretty_go; [done|simpl; lia].
Qed.

Lemma parse_zeros n s : parse_digits (zeros n +:+ s) 0 = parse_digits s 0.
Proof. induction n as [|n IH]; [done|]. exact IH. Qed.

Lemma parse_u64_digits s v : s <> "" -> parse_digits s 0 = Some v -> parse_u64 s = Some v.
Proof.
  intros Hne H. destruct s as [|c s]; [done|]. unfold parse_u64.
  destruct (Ascii.eqb_spec c "+") as [->|Hc]; [done|].
  destruct c as [[] [] [] [] [] [] [] []]; try exact H. done.
Qed.

(** Digits have no point. *)
Lemma parse_no_point s acc v : parse_digits s acc = Some v -> contains "." s = false.
Proof.
  revert acc. induction s as [|c s IH]; intros acc; [done|]. cbn [parse_digits contains].
  destruct (Ascii.eqb_spec c ".") as [->|Hc]; [done|].
  destruct (digit_of c) as [d|]; [|done]. simpl. destruct (fits _ _); [|done]. apply IH.
Qed.

Lemma pretty_nonempty z : 0 <= z <= U64_MAX -> pretty z <> "".
Proof. intros Hz E. pose proof (parse_digits_pretty z Hz) as H. rewrite E in H. simpl in H.
  injection H as <-. done.
Qed.

Lemma parse_u64_pretty z : 0 <= z <= U64_MAX -> parse_u64 (pretty z) = Some z.
Proof. intros Hz. apply parse_u64_digits; [by apply pretty_nonempty|by apply parse_digits_pretty]. Qed.

Lemma parse_u64_padded w z : 0 <= z <= U64_MAX -> parse_u64 (padded w z) = Some z.
Proof.
  intros Hz. apply parse_u64_digits; unfold padded.
  - destruct (w - _)%nat; [by apply pretty_nonempty|done].
  - rewrite parse_zeros. by apply parse_digits_pretty.
Qed.

(** ** Round trips *)

(** A timestamp is read back from its text and from its serialized form. *)
Lemma timestamp_text_roundtrip t :
  0 <= t <= U64_MAX ->
  timestamp_from_str (timestamp_display t) = Ok t /\ nano_visit_str (timestamp_serialize t) = Ok t.
Proof.
  intros Ht. split.
  - assert (t / 1000000000 * 1000000000 + t mod 1000000000 = t) as Ediv by (pose proof (Z.div_mod t 1000000000); lia).
    assert (0 <= t / 1000000000) by (apply Z.div_pos; lia).
    assert (0 <= t mod 1000000000 < 1000000000) by (apply Z.mod_pos_bound; lia).
    assert (timestamp_display t =
      (pretty (t / 1000000000)%Z +:+ String "." (padded 9 (t mod 1000000000)))%string) as -> by done.
    unfold timestamp_from_str. rewrite split_once_app.
    + simpl. rewrite parse_u64_pretty by lia. simpl. rewrite parse_u64_padded by lia. simpl.
      unfold timestamp_from_seconds. rewrite (proj2 (u64_checked_ok _ _)) by (split; [reflexivity|lia]).
      simpl. apply timestamp_add_ok. unfold duration_from_nanos. lia.
    + eapply (parse_no_point _ 0), parse_digits_pretty. lia.
  - unfold nano_visit_str, timestamp_serialize. by rewrite parse_u64_pretty.
Qed.

(** The digits after the point are nanoseconds, however many there are, and a
    value that does not fit is a panic and not the error of the parser. *)
Example timestamp_fraction : timestamp_from_str "1.5" = Ok 1000000005.
Proof. vm_compute. reflexivity. Qed.
Example timestamp_too_large : timestamp_from_str "18446744074.0" = Err (Panic "arithmetic overflow").
Proof. vm_compute. reflexivity. Qed.

Section Numbers.
Context {CW : CosmwasmStd}.
Context (dec_to_string : Z -> string).
(** A decimal is read back from its text, which starts with a digit. *)
Hypothesis dec_text : forall d, is_dec d -> dec_from_str (dec_to_string d) = Some d.
Hypothesis dec_digit : forall d, is_dec d ->
  exists c s, dec_to_string d = String c s /\ is_Some (digit_of c).
Hypothesis dec_zero : dec_from_str "0" = Some 0.

Lemma dec_not_inf d : is_dec d -> String.eqb (dec_to_string d) POS_INF_STR = false.
Proof.
  intros Hd. destruct (dec_digit d Hd) as (c & s & -> & Hc). apply String.eqb_neq.
  intros [= -> _]. by destruct Hc.
Qed.

(** A text that does not start with a minus sign. *)
Lemma signed_from_plain s :
  (forall r, s <> String "-" r) ->
  signed_from_str s = of_option (AnyhowError "Unable to parse Number") (new_positive <$> dec_from_str s).
Proof.
  intros Hs. unfold signed_from_str. destruct s as [|c s]; [done|].
  destruct (Ascii.eqb_spec c "-") as [->|Hne]; [by destruct (Hs s)|].
  destruct c as [[] [] [] [] [] [] [] []]; done.
Qed.

Lemma signed_text_roundtrip s : signed_ok s -> signed_from_str (signed_display dec_to_string s) = Ok s.
Proof.
  intros [Hd Hn]. unfold signed_display, ud_is_zero, is_negative.
  destruct s as [v n]. simpl in Hd, Hn |- *. destruct (Z.eqb_spec v 0) as [->|Hv].
  - unfold signed_from_str. rewrite dec_zero. destruct n; [by destruct Hn|done].
  - destruct n.
    + unfold signed_from_str. simpl. change ("" +:+ dec_to_string v)%string with (dec_to_string v).
      rewrite dec_text by done. simpl. unfold new_negative, ud_is_zero. by rewrite (proj2 (Z.eqb_neq _ _) Hv).
    + destruct (dec_digit v Hd) as (c & r & E & Hc). rewrite signed_from_plain.
      * by rewrite dec_text.
      * rewrite E. intros r' [= -> _]. by destruct Hc.
Qed.

Lemma nonzero_text_roundtrip d : is_dec d -> d <> 0 -> nonzero_from_str (dec_to_string d) = Ok d.
Proof.
  intros Hd Hne. unfold nonzero_from_str. rewrite dec_text by done. simpl. unfold nonzero_new, ud_is_zero.
  by rewrite (proj2 (Z.eqb_neq _ _) Hne).
Qed.

(** The infinite value is told apart from every number. *)
Lemma max_gains_text_roundtrip g :
  (forall d, g = MaxGainsFinite d -> is_dec d /\ d <> 0) ->
  max_gains_from_str (max_gains_display dec_to_string g) = Ok g /\
  max_gains_visit_str (max_gains_display dec_to_string g) = Ok g.
Proof.
  intros Hg. enough (max_gains_from_str (max_gains_display dec_to_string g) = Ok g) as E
    by (split; [done|]; unfold max_gains_visit_str; by rewrite E).
  destruct g as [d|]; [|done]. destruct (Hg d eq_refl). unfold max_gains_from_str. simpl.
  by rewrite dec_not_inf, nonzero_text_roundtrip.
Qed.
Lemma take_profit_text_roundtrip g :
  (forall d, g = TakeProfitFinite d -> is_dec d /\ d <> 0) ->
  take_profit_from_str (take_profit_display dec_to_string g) = Ok g /\
  take_profit_visit_str (take_profit_display dec_to_string g) = Ok g.
Proof.
  intros Hg. enough (take_profit_from_str (take_profit_display dec_to_string g) = Ok g) as E
    by (split; [done|]; unfold take_profit_visit_str; by rewrite E).
  destruct g as [d|]; [|done]. destruct (Hg d eq_refl). unfold take_profit_from_str. simpl.
  by rewrite dec_not_inf, nonzero_text_roundtrip.
Qed.
(** Integers are read from their digits. *)
Context {CWS : CosmwasmStdSpec CW}.
Hypothesis dec_integer : forall k, 0 <= k <= 2 ^ 63 -> dec_from_str (pretty k) = Some (k * DEC_ONE).

Lemma signed_from_integer p n :
  - 2 ^ 63 <= p < 2 ^ 63 -> signed_from_str (pretty p) = Ok n -> sval n = p * DEC_ONE /\ signed_ok n.
Proof.
  intros Hp. assert (forall k, 0 <= k <= 2 ^ 63 -> is_dec (k * DEC_ONE)) as Hd.
  { intros k Hk. unfold is_dec. assert (2 ^ 63 * DEC_ONE <= U256_MAX) by (vm_compute; discriminate).
    pose proof DEC_ONE_pos. nia. }
  destruct (Z.ltb_spec p 0) as [Hneg|Hpos].
  - destruct p as [|x|x]; [lia..|].
    assert (signed_from_str (pretty (Z.neg x)) = of_option (AnyhowError "Unable to parse Number")
      (new_negative <$> dec_from_str (pretty (Z.pos x)))) as -> by reflexivity.
    rewrite dec_integer by lia.
    intros [= <-]. rewrite sval_new_negative. split; [lia|]. apply new_negative_ok, Hd. lia.
  - rewrite signed_from_plain.
    + rewrite dec_integer by lia. intros [= <-]. split; [done|]. apply new_positive_ok, Hd. lia.
    + intros r E. assert (2 ^ 63 <= U64_MAX) by (vm_compute; discriminate).
      pose proof (parse_digits_pretty p ltac:(lia)) as Hr. by rewrite E in Hr.
Qed.

(** A Pyth price is scaled by its exponent, rounded towards zero. *)
Lemma pyth_scaled price n :
  - 2 ^ 63 <= pyth_price price < 2 ^ 63 -> number_try_from_pyth price = Ok n ->
  sval n = Z.quot (pyth_price price * DEC_ONE * 10 ^ Z.max 0 (pyth_expo price))
             (10 ^ Z.max 0 (- pyth_expo price)).
Proof.
  intros Hp. unfold number_try_from_pyth. intros H. apply rbind_ok in H as (a & Ha & H).
  apply signed_from_integer in Ha as [Ha Hok]; [|done].
  assert (forall k f, 0 <= k -> (p <- panics "pow" (u128_prim_pow 10 k); number_from_u128 p) = Ok f ->
    sval f = 10 ^ k * DEC_ONE /\ signed_ok f) as Hpow.
  { intros k f Hk Hf. apply rbind_ok in Hf as (q & Hq & Hf). apply panics_ok, fits_Some in Hq as [-> _].
    apply rbind_ok in Hf as (d & Hd & [= <-]). apply panics_ok, dec_from_ratio_Some in Hd as (_ & -> & Hd).
    rewrite Z.div_1_r in *. rewrite sval_new_positive. split; [done|by apply new_positive_ok]. }
  pose proof DEC_ONE_pos as H1. destruct (Z.compare_spec (pyth_expo price) 0) as [E|E|E].
  - injection H as <-. rewrite E. cbn [Z.max Z.opp Z.compare]. by rewrite Z.pow_0_r, Z.quot_1_r, Z.mul_1_r.
  - assert (exists f, sval f = 10 ^ Z.abs (pyth_expo price) * DEC_ONE /\ signed_ok f /\
      number_checked_div a f = Ok n) as (f & Hf & Hfok & Hn).
    { apply rbind_ok in H as (q & Hq & H). apply rbind_ok in H as (f & Hf & H). exists f.
      destruct (Hpow (Z.abs (pyth_expo price)) f); [lia|apply rbind_ok; by exists q|done]. }
    rewrite number_checked_div_fits, Ha, Hf in Hn by done. destruct (_ =? 0); [done|].
    apply signed_fits_ok in Hn as [-> _]. rewrite sval_signed_of.
    rewrite (Z.max_l 0 (pyth_expo price)), (Z.max_r 0 (- pyth_expo price)), Z.abs_neq by lia. rewrite Z.mul_1_r, Z.quot_mul_cancel_r; [done| |lia].
    apply Z.pow_nonzero; lia.
  - assert (exists f, sval f = 10 ^ Z.abs (pyth_expo price) * DEC_ONE /\ signed_ok f /\
      number_checked_mul a f = Ok n) as (f & Hf & Hfok & Hn).
    { apply rbind_ok in H as (q & Hq & H). apply rbind_ok in H as (f & Hf & H). exists f.
      destruct (Hpow (Z.abs (pyth_expo price)) f); [lia|apply rbind_ok; by exists q|done]. }
    rewrite number_checked_mul_fits, Ha, Hf in Hn by done.
    apply signed_fits_ok in Hn as [-> _]. rewrite sval_signed_of.
    rewrite (Z.max_r 0 (pyth_expo price)), (Z.max_l 0 (- pyth_expo price)), Z.abs_eq by lia. rewrite Z.quot_1_r, Z.mul_assoc, Z.quot_mul; [done|lia].
Qed.
End Numbers.

Lemma direction_text_roundtrip d : direction_from_text (direction_as_str d) = Ok d.
Proof. by destruct d. Qed.
