(* ===== verification/ClosePosition.v ===== *)
(** * Liquifunding and closing positions

    [contracts/market/src/state/position/{liquifund,close}.rs]: the periodic
    settlement of a position's fees and price exposure, which may end the
    position, and the closing of a position: the delta neutrality fee, the
    final split of the two collaterals, the release of the locked liquidity and
    the payment to the trader.  As in the code, the operations are computed
    against the store first ([.._new]) and applied afterwards ([.._apply]). *)

From stdpp Require Import base option gmap strings list pretty.
From Stdlib Require Import ZArith Lia.
From S2P Require Import Prelude Index Storage Cosmwasm Types Number Time Market Price Token DataSeries Config Position Trading State Pool LpHistory Liquidity Fees LiquiditySystem Funding FundingInv DeltaNeutrality DeltaNeutralityInv OpenInterest PositionStore TradeHistory PositionToken.
Local Open Scope Z_scope.

Record PositionLiquifund := mkPositionLiquifund {
  pl_fee_settlement : PositionFeeSettlement;
  pl_position : MaybeClosedPosition;
  pl_liquidity_update_locked : option LiquidityUpdateLocked;
}.

Record ClosePositionExec := mkClosePositionExec {
  ce_dnf : ChargeDeltaNeutralityFeeResult;
  ce_open_interest : AdjustOpenInterest;
  ce_liquidity_update : LiquidityUpdateLocked;
  ce_liquidity_unlock : option LiquidityUnlock;
  ce_trader_collateral_to_send : option Collateral;
  ce_closed_position : ClosedPosition;
  ce_settlement_price : PricePoint;
  ce_liquifund_via_close_msg : option PositionLiquifund;
}.

Section Definitions.
Context {CW : CosmwasmStd}.
Context (st : State).

(** ** Liquifunding *)

(** [State::set_next_liquifunding]. *)
Definition set_next_liquifunding (pos : Position) (liquifunded_at : Timestamp) : res Position :=
  let delay := liquifunding_delay_seconds (st_config st) in
  let fuzz := liquifunding_delay_fuzz_seconds (st_config st) in
  next <- plus_seconds liquifunded_at delay;
  let pos := set_pos_next_liquifunding next (set_liquifunded_at liquifunded_at pos) in
  if fuzz =? 0 then Ok pos
  else
    let semi_random := st_semi_random st (st_now st) (pos_owner pos) (pos_id pos) in
    let how_early_seconds := semi_random mod fuzz in
    if how_early_seconds <=? delay
    then
      next <- plus_seconds liquifunded_at (delay - how_early_seconds);
      Ok (set_pos_next_liquifunding next pos)
    else Ok pos.

(** The direction to base of a position at a price. *)
Definition direction_to_base_at (pos : Position) (price : PricePoint) : res DirectionToBase :=
  l <- active_leverage_to_notional pos price;
  base <- leverage_into_base l (market_type st);
  Ok (leverage_split base).1.

(** [PositionLiquifund::new]. *)
Definition position_liquifund_new (m : MarketCtx) (pos : Position) (starts_at ends_at : Timestamp)
    (charge_crank_fee : bool) : res PositionLiquifund :=
  start_price <- spot_price_at st m starts_at;
  end_price <- spot_price_at st m ends_at;
  original_direction_to_base <- direction_to_base_at pos end_price;
  pos_fee_settlement <- fee_settlement_new st m pos starts_at ends_at charge_crank_fee;
  match pfs_position pos_fee_settlement with
  | PosClose instructions =>
      Ok (mkPositionLiquifund pos_fee_settlement (PosClose instructions) None)
  | PosOpen pos =>
      '(mcp, exposure) <- settle_price_exposure pos (price_notional start_price) end_price
                            (margin_delta_neutrality (pos_liquidation_margin pos));
      update <- liquidity_update_locked_new m (signed_neg exposure) end_price None;
      match mcp with
      | PosClose instructions =>
          Ok (mkPositionLiquifund pos_fee_settlement (PosClose instructions) (Some update))
      | PosOpen pos =>
          margin <- liquidation_margin pos end_price (st_config st);
          total <- margin_total margin;
          if active_collateral pos <=? total
          then
            Ok (mkPositionLiquifund pos_fee_settlement
                  (PosClose (mkClosePosition pos signed_zero 0 end_price
                               (CloseLiquidated LiqLiquidated) true)) (Some update))
          else
            new_direction_to_base <- direction_to_base_at pos end_price;
            if negb (bool_decide (original_direction_to_base = new_direction_to_base))
            then
              Ok (mkPositionLiquifund pos_fee_settlement
                    (PosClose (mkClosePosition pos signed_zero 0 end_price
                                 (CloseLiquidated LiqMaxGains) true)) (Some update))
            else
              pos <- set_next_liquifunding pos ends_at;
              Ok (mkPositionLiquifund pos_fee_settlement
                    (PosOpen (set_pos_liquidation_margin margin pos)) (Some update))
      end
  end.

(** [PositionLiquifund::apply]. *)
Definition position_liquifund_apply (l : PositionLiquifund) : mhandler MaybeClosedPosition :=
  fee_settlement_apply st (pl_fee_settlement l);;;
  match pl_liquidity_update_locked l with
  | Some u => liquidity_update_locked_apply st u
  | None => hret tt
  end;;;
  hret (pl_position l).

(** ** Closing *)

(** The settlement of the two collaterals: what the trader receives, what goes
    back to the pool, and the losses beyond the capped exposure that the
    trader's collateral can still cover. *)
Definition close_settlement (pos : Position) (dnf_fee capped_exposure : Signed)
    (additional_losses : Collateral) : res (Collateral * Collateral * Signed) :=
  _ <- ensure (signed_leb (signed_neg capped_exposure) (into_signed (active_collateral pos)))
         (AnyhowError "Calculated exposure outweighs active collateral");
  _ <- ensure (signed_leb capped_exposure (into_signed (counter_collateral pos)))
         (AnyhowError "Calculated exposure outweighs counter collateral");
  active <- signed_checked_sub (into_signed (active_collateral pos)) dnf_fee;
  _ <- ensure (is_positive_or_zero active) (AnyhowError "Condition failed");
  with_losses <- signed_checked_sub capped_exposure (into_signed additional_losses);
  let final_exposure := signed_max with_losses (signed_neg active) in
  additional_lp_funds <- signed_checked_sub capped_exposure final_exposure;
  a <- signed_checked_add active final_exposure;
  active_final <- of_option (AnyhowError "close_position: negative active collateral")
                    (try_into_non_negative_value a);
  c <- signed_checked_sub (into_signed (counter_collateral pos)) final_exposure;
  counter_final <- of_option (AnyhowError "close_position: negative counter collateral")
                     (try_into_non_negative_value c);
  Ok (active_final, counter_final, additional_lp_funds).

(** The record kept of a closed position. *)
Definition closed_position_of (m : MarketCtx) (pos : Position) (active_final : Collateral)
    (settlement_price : PricePoint) (reason : PositionCloseReason) : res ClosedPosition :=
  active_usd <- collateral_to_usd settlement_price active_final;
  let direction_to_base := direction_into_base (pos_direction pos) (market_type st) in
  entry_price <- spot_price_at st m (default (created_at pos) (price_point_created_at pos));
  pnl_collateral <- signed_checked_sub (into_signed active_final)
                      (scu_collateral (deposit_collateral pos));
  pnl_usd <- signed_checked_sub (into_signed active_usd) (scu_usd (deposit_collateral pos));
  Ok {| cp_owner := pos_owner pos;
        cp_id := pos_id pos;
        cp_direction_to_base := direction_to_base;
        cp_created_at := created_at pos;
        cp_price_point_created_at := price_point_created_at pos;
        cp_liquifunded_at := liquifunded_at pos;
        cp_trading_fee := pos_trading_fee pos;
        cp_funding_fee := funding_fee pos;
        cp_borrow_fee := borrow_fee pos;
        cp_crank_fee := pos_crank_fee pos;
        cp_delta_neutrality_fee := delta_neutrality_fee pos;
        cp_deposit_collateral := deposit_collateral pos;
        cp_active_collateral := active_final;
        cp_pnl_collateral := pnl_collateral;
        cp_pnl_usd := pnl_usd;
        cp_notional_size := notional_size pos;
        cp_entry_price_base := price_base entry_price;
        cp_close_time := st_now st;
        cp_settlement_time := pp_timestamp settlement_price;
        cp_reason := reason;
        cp_liquidation_margin := Some (pos_liquidation_margin pos) |}.

(** [ClosePositionExec::new]. *)
Definition close_position_new (m : MarketCtx) (i : ClosePositionInstructions)
    (liquifund_via_close_msg : option PositionLiquifund) : res ClosePositionExec :=
  let pos := close_pos i in
  let settlement_price := settlement_price i in
  let notional_size_return := signed_neg (notional_size pos) in
  dnf <- charge_delta_neutrality_fee_no_update st m pos notional_size_return settlement_price
           PositionClose;
  pos <- add_delta_neutrality_fee pos (cr_fee dnf) settlement_price;
  open_interest <- adjust_open_interest_new st m notional_size_return (pos_direction pos) false;
  '(active_final, counter_final, additional_lp_funds) <-
    close_settlement pos (cr_fee dnf) (capped_exposure i) (additional_losses i);
  liquidity_update <- liquidity_update_locked_new m additional_lp_funds settlement_price
    (l ← liquifund_via_close_msg; u ← pl_liquidity_update_locked l; Some (update_stats u));
  liquidity_unlock <-
    match nonzero_new counter_final with
    | None => Ok None
    | Some counter_collateral =>
        u <- liquidity_unlock_new m counter_collateral settlement_price
               (Some (update_stats liquidity_update));
        Ok (Some u)
    end;
  closed_position <- closed_position_of m pos active_final settlement_price (close_reason i);
  Ok (mkClosePositionExec dnf open_interest liquidity_update liquidity_unlock
        (nonzero_new active_final) closed_position settlement_price liquifund_via_close_msg).

(** [ClosePositionExec::new_via_msg]. *)
Definition close_position_new_via_msg (m : MarketCtx) (pos : Position)
    (settlement_price : PricePoint) : res ClosePositionExec :=
  liquifund <- position_liquifund_new m pos (liquifunded_at pos) (pp_timestamp settlement_price)
                 false;
  let instructions :=
    match pl_position liquifund with
    | PosOpen pos => mkClosePosition pos signed_zero 0 settlement_price CloseDirect false
    | PosClose instructions => instructions
    end in
  close_position_new m instructions (Some liquifund).

Definition record_closed (closed : ClosedPosition) : mhandler unit :=
  mod_positions (fun s => set_CLOSED_POSITION_HISTORY
    (<[(cp_owner closed, (cp_close_time closed, cp_id closed)) := closed]>
      (CLOSED_POSITION_HISTORY s)) s);;;
  mod_positions (fun s => set_CLOSED_POSITIONS (<[cp_id closed := closed]> (CLOSED_POSITIONS s)) s).

(** [ClosePositionExec::apply]. *)
Definition close_position_apply (e : ClosePositionExec) : mhandler unit :=
  let closed := ce_closed_position e in
  match ce_liquifund_via_close_msg e with
  | Some liquifund => position_liquifund_apply liquifund;;; hret tt
  | None => hret tt
  end;;;
  charge_result_apply st (ce_dnf e);;;
  adjust_open_interest_apply (ce_open_interest e);;;
  liquidity_update_locked_apply st (ce_liquidity_update e);;;
  match ce_liquidity_unlock e with
  | Some u => liquidity_unlock_apply st u
  | None => hret tt
  end;;;
  match ce_trader_collateral_to_send e with
  | Some collateral => add_token_transfer_msg (cp_owner closed) collateral
  | None => hret tt
  end;;;
  position_remove (cp_id closed);;;
  position_history_add_close st closed (cr_fee (ce_dnf e)) (ce_settlement_price e);;;
  nft_burn st (cp_owner closed) (position_token_id (cp_id closed));;;
  record_closed closed;;;
  add_event st (EvPositionClose closed).

(** [State::load_closed_position]. *)
Definition load_closed_position (m : MarketCtx) (id : PositionId) : option ClosedPosition :=
  CLOSED_POSITIONS (m_positions m) !! id.

(** [State::position_liquifund_store]. *)
Definition position_liquifund_store (pos : Position) (starts_at ends_at : Timestamp)
    (charge_crank_fee : bool) (reason : PositionSaveReason) : mhandler unit :=
  l <~ hask (fun m => position_liquifund_new m pos starts_at ends_at charge_crank_fee);
  mcp <~ position_liquifund_apply l;
  match mcp with
  | PosOpen position =>
      price_point <~ hask (fun m => spot_price_at st m ends_at);
      position_save st position price_point true false reason;;;
      hret tt
  | PosClose instructions =>
      e <~ hask (fun m => close_position_new m instructions None);
      close_position_apply e
  end.

End Definitions.
