(* ===== verification/OpenPosition.v ===== *)
(** * Opening positions

    [contracts/market/src/state/position/{take_profit,validate,open}.rs]: the
    counter collateral a take profit price asks for, the checks on leverage,
    deposit and slippage, and the opening of a position.  As in the code,
    [open_position_new] validates against the store and [open_position_apply]
    writes. *)

From stdpp Require Import base option gmap strings list pretty.
From Stdlib Require Import ZArith Lia.
From S2P Require Import Prelude Index Storage Cosmwasm Types Number Time Market Price Token DataSeries Config Position Trading State Pool LpHistory Liquidity Fees LiquiditySystem Funding FundingInv DeltaNeutrality DeltaNeutralityInv OpenInterest PositionStore TradeHistory PositionToken ClosePosition.
Local Open Scope Z_scope.

Record TakeProfitToCounterCollateral := mkTakeProfitToCounterCollateral {
  tp_take_profit_trader : TakeProfitTrader;
  tp_market_type : MarketType;
  tp_collateral : Collateral;
  tp_leverage_to_base : LeverageToBase;
  tp_direction : DirectionToBase;
  tp_config : Config;
  tp_price_point : PricePoint;
}.

Record OpenPositionParams := mkOpenPositionParams {
  op_owner : Addr;
  op_collateral : Collateral;
  op_crank_fee : CollateralAndUsd;
  op_leverage : LeverageToBase;
  op_direction : DirectionToBase;
  op_slippage_assert : option SlippageAssertion;
  op_stop_loss_override : option PriceBaseInQuote;
  op_take_profit_trader : TakeProfitTrader;
}.

Record OpenPositionExec := mkOpenPositionExec {
  oe_pos : Position;
  oe_trade_volume_usd : Usd;
  oe_price_point : PricePoint;
  oe_delta_neutrality_fee : ChargeDeltaNeutralityFeeResult;
  oe_open_interest : AdjustOpenInterest;
  oe_liquidity : LiquidityLock;
}.

(** [o.map(f)] with an [f] that can panic. *)
Definition map_option {A B} (f : A -> res B) (o : option A) : res (option B) :=
  match o with None => Ok None | Some x => y <- f x; Ok (Some y) end.

Section Definitions.
Context {CW : CosmwasmStd}.

(** ** take_profit.rs *)

Definition tp_notional_size (t : TakeProfitToCounterCollateral) : res Signed :=
  calc_notional_size (tp_leverage_to_base t) (tp_direction t) (tp_market_type t)
    (tp_price_point t) (tp_collateral t).

(** [TakeProfitToCounterCollateral::counter_collateral]. *)
Definition tp_counter_collateral (t : TakeProfitToCounterCollateral)
    (take_profit_price : TakeProfitTrader) : res Collateral :=
  notional_size <- tp_notional_size t;
  match take_profit_price with
  | TakeProfitPosInfinity =>
      leverage_to_notional <-
        leverage_into_notional (leverage_into_signed (tp_leverage_to_base t) (tp_direction t))
          (tp_market_type t);
      notional_size_in_collateral <-
        checked_mul_collateral leverage_to_notional (tp_collateral t);
      match tp_market_type t with
      | CollateralIsQuote =>
          Err (into_anyhow (InvalidInfiniteTakeProfitPrice (tp_market_type t) (tp_direction t)))
      | CollateralIsBase =>
          match leverage_direction leverage_to_notional with
          | LongToNotional =>
              Err (into_anyhow (InvalidInfiniteTakeProfitPrice (tp_market_type t) (tp_direction t)))
          | ShortToNotional =>
              of_option (AnyhowError "notional_size_in_collateral is zero")
                (nonzero_new (abs_unsigned notional_size_in_collateral))
          end
      end
  | TakeProfitFinite take_profit_price =>
      take_profit_price_notional <- into_notional_price take_profit_price (tp_market_type t);
      d <- signed_checked_sub (into_signed take_profit_price_notional)
             (into_signed (price_notional (tp_price_point t)));
      counter_collateral <- number_checked_mul d (into_number notional_size);
      c <- of_option (AnyhowError "Take profit results in negative counter-collateral")
             (res_ok (ud_try_from_number counter_collateral));
      of_option (AnyhowError "counter_collateral is zero") (nonzero_new c)
  end.

(** [TakeProfitToCounterCollateral::calc]. *)
Definition take_profit_calc (t : TakeProfitToCounterCollateral) : res Collateral :=
  size <- tp_notional_size t;
  in_collateral <- notional_to_collateral (tp_price_point t) (abs_unsigned size);
  max_leverage <- of_option (AnyhowError "Impossible negative max_leverage")
                    (try_into_non_negative_value (max_leverage (tp_config t)));
  min_counter_collateral <- checked_div_dec in_collateral max_leverage;
  let max_counter_collateral := in_collateral in
  req_counter_collateral <- tp_counter_collateral t (tp_take_profit_trader t);
  counter_collateral <- clamp req_counter_collateral min_counter_collateral max_counter_collateral;
  of_option (AnyhowError "Calculated counter_collateral is 0") (nonzero_new counter_collateral).

Context (st : State).

(** ** validate.rs *)

Definition position_validate_trader_leverage (market_type : MarketType)
    (new_leverage_notional : SignedLeverageToNotional)
    (current_leverage : option SignedLeverageToNotional) : res unit :=
  max_allowed_leverage <- of_option (AnyhowError "Max allowed leverage is negative")
                            (try_into_non_negative_value (max_leverage (st_config st)));
  current_leverage <- map_option (fun l => b <- leverage_into_base l market_type;
                                           Ok (leverage_split b).2) current_leverage;
  b <- leverage_into_base new_leverage_notional market_type;
  let new_leverage := (leverage_split b).2 in
  zero <- number_approx_eq (into_number new_leverage_notional) NUMBER_ZERO;
  let is_out_of_range :=
    if (zero : bool) then true
    else
      match current_leverage with
      | Some current_leverage =>
          if new_leverage <=? current_leverage then false else max_allowed_leverage <? new_leverage
      | None => max_allowed_leverage <? new_leverage
      end in
  if is_out_of_range
  then Err (RawMarketError (TraderLeverageOutOfRange 0 max_allowed_leverage new_leverage
              current_leverage))
  else Ok tt.

Definition position_validate_leverage_data (market_type : MarketType) (new_position : Position)
    (price_point : PricePoint) (current_position : option Position) : res unit :=
  let get_direction pos := direction_into_base (pos_direction pos) market_type in
  _ <- match current_position with
       | Some current_position =>
           ensure (bool_decide (get_direction current_position = get_direction new_position))
             (AnyhowError "Direction changed on position update")
       | None => Ok tt
       end;
  new_leverage <- active_leverage_to_notional new_position price_point;
  current_leverage <- map_option (fun p => active_leverage_to_notional p price_point)
                        current_position;
  position_validate_trader_leverage market_type new_leverage current_leverage.

(** [0.9]: a dip of 10% on the minimum deposit is allowed. *)
Definition REAL_MINIMUM_RATIO : Decimal256 := 9 * (DEC_ONE / 10).

Definition validate_minimum_deposit_collateral (deposit_collateral : Collateral)
    (price_point : PricePoint) : res unit :=
  deposit <- collateral_to_usd price_point deposit_collateral;
  minimum <- checked_mul_dec (minimum_deposit_usd (st_config st)) REAL_MINIMUM_RATIO;
  if deposit <? minimum
  then Err (RawMarketError (MinimumDeposit deposit_collateral deposit
              (minimum_deposit_usd (st_config st))))
  else Ok tt.

(** The percentages the error message shows: they can overflow. *)
Definition percent (x : Number) : res Number :=
  hundred <- number_from_u64 100; number_checked_mul hundred x.

(** [do_slippage_assert]. *)
Definition do_slippage_assert (m : MarketCtx) (slippage_assert : SlippageAssertion)
    (delta_notional_size : Signed) (market_type : MarketType)
    (delta_neutrality_fee_margin : option Collateral) (price_point : PricePoint) : res unit :=
  if signed_is_zero delta_notional_size then Ok tt
  else
    fee <- calc_delta_neutrality_fee st m delta_notional_size price_point
             delta_neutrality_fee_margin;
    fee_rate <- number_checked_div (into_number fee) (into_number delta_notional_size);
    factor <- signed_checked_add NUMBER_ONE fee_rate;
    price <- number_checked_mul (into_signed (price_notional price_point)) factor;
    p <- into_notional_price (sa_price slippage_assert) market_type;
    let slippage_assert_price := into_signed p in
    exceeds <-
      (if is_strictly_positive delta_notional_size
       then
         f <- signed_checked_add NUMBER_ONE (sa_tolerance slippage_assert);
         limit <- number_checked_mul slippage_assert_price f;
         if signed_leb price limit then Ok false
         else
           d <- signed_checked_sub price slippage_assert_price;
           _ <- percent d;
           Ok true
       else
         f <- signed_checked_sub NUMBER_ONE (sa_tolerance slippage_assert);
         limit <- number_checked_mul slippage_assert_price f;
         if signed_leb limit price then Ok false
         else
           d <- signed_checked_sub slippage_assert_price price;
           _ <- percent d;
           Ok true);
    if (exceeds : bool)
    then
      _ <- percent (sa_tolerance slippage_assert);
      Err (perp_market SlippageAssert)
    else Ok tt.

(** ** open.rs *)

(** The position before the trading fee is taken. *)
Definition open_initial_position (m : MarketCtx) (o : OpenPositionParams)
    (counter : Collateral) (size : Signed) (price_point : PricePoint) : res Position :=
  id <- u64_checked (LAST_POSITION_ID (m_positions m) + 1);
  let liquifunded_at := pp_timestamp price_point in
  total <- ud_checked_add (op_collateral o) (cu_collateral (op_crank_fee o));
  deposit <- scu_new (into_signed total) price_point;
  take_profit_notional <- take_profit_into_notional (op_take_profit_trader o) (market_type st);
  stop_loss_notional <- map_option (fun x => into_notional_price x (market_type st))
                          (op_stop_loss_override o);
  set_next_liquifunding st
    {| pos_owner := op_owner o;
       pos_id := id;
       active_collateral := op_collateral o;
       deposit_collateral := deposit;
       pos_trading_fee := mkCollateralAndUsd 0 0;
       funding_fee := mkSignedCollateralAndUsd NUMBER_ZERO NUMBER_ZERO;
       borrow_fee := mkCollateralAndUsd 0 0;
       pos_crank_fee := op_crank_fee o;
       delta_neutrality_fee := mkSignedCollateralAndUsd NUMBER_ZERO NUMBER_ZERO;
       counter_collateral := counter;
       notional_size := size;
       created_at := st_now st;
       price_point_created_at := Some (pp_timestamp price_point);
       liquifunded_at := liquifunded_at;
       next_liquifunding := liquifunded_at;
       stop_loss_override := op_stop_loss_override o;
       pos_liquidation_margin := mkLiquidationMargin 0 0 0 0 0;
       pos_liquidation_price := None;
       take_profit_total := None;
       take_profit_trader := Some (op_take_profit_trader o);
       take_profit_trader_notional := take_profit_notional;
       stop_loss_override_notional := stop_loss_notional |} liquifunded_at.

(** Take a trading fee out of the active collateral. *)
Definition charge_trading_fee (pos : Position) (fee : Collateral) (price_point : PricePoint) :
    res Position :=
  active <- nonzero_checked_sub (active_collateral pos) fee;
  trading_fee <- cu_checked_add_assign (pos_trading_fee pos) fee price_point;
  Ok (set_pos_trading_fee trading_fee (set_active_collateral active pos)).

(** [OpenPositionExec::new]. *)
Definition open_position_new (m : MarketCtx) (o : OpenPositionParams) (price_point : PricePoint) :
    res OpenPositionExec :=
  let config := st_config st in
  let leverage_to_base := leverage_into_signed (op_leverage o) (op_direction o) in
  leverage_to_notional <- leverage_into_notional leverage_to_base (market_type st);
  size_in_collateral <- checked_mul_collateral leverage_to_notional (op_collateral o);
  size <- try_map (collateral_to_notional price_point) size_in_collateral;
  _ <- match op_slippage_assert o with
       | Some slippage_assert =>
           do_slippage_assert m slippage_assert size (market_type st) None price_point
       | None => Ok tt
       end;
  counter <- take_profit_calc (mkTakeProfitToCounterCollateral (op_take_profit_trader o)
    (market_type st) (op_collateral o) (op_leverage o) (op_direction o) config price_point);
  pos <- open_initial_position m o counter size price_point;
  volume <- trade_volume_usd pos price_point (market_type st);
  _ <- position_validate_leverage_data (market_type st) pos price_point None;
  _ <- validate_minimum_deposit_collateral (op_collateral o) price_point;
  fee <- calculate_trade_fee_open config size_in_collateral counter;
  trading_fee <- cu_checked_add_assign (pos_trading_fee pos) fee price_point;
  active <- nonzero_checked_sub (active_collateral pos) (cu_collateral trading_fee);
  let pos := set_active_collateral active (set_pos_trading_fee trading_fee pos) in
  '(dnf, pos) <- charge_delta_neutrality_fee st m pos size price_point PositionOpen;
  liquidity <- liquidity_lock_new st m (counter_collateral pos) price_point
                 (Some (notional_size pos)) None None;
  margin <- liquidation_margin pos price_point config;
  let pos := set_pos_liquidation_margin margin pos in
  total <- margin_total (pos_liquidation_margin pos);
  _ <- ensure (total <=? active_collateral pos) (perp_market InsufficientMargin);
  open_interest <- adjust_open_interest_new st m (notional_size pos) (pos_direction pos) true;
  Ok (mkOpenPositionExec pos volume price_point dnf open_interest liquidity).

(** The leverage of the two sides, in terms of the base asset. *)
Definition leverage_to_base_at (pos : Position) (price_point : PricePoint) :
    res (DirectionToBase * LeverageToBase) :=
  l <- active_leverage_to_notional pos price_point;
  b <- leverage_into_base l (market_type st);
  Ok (leverage_split b).
Definition counter_leverage_to_base_at (pos : Position) (price_point : PricePoint) :
    res (DirectionToBase * LeverageToBase) :=
  l <- counter_leverage_to_notional pos price_point;
  b <- leverage_into_base l (market_type st);
  Ok (leverage_split b).

(** [calculate_position_collaterals]. *)
Definition calculate_position_collaterals (pos : Position) : PositionCollaterals :=
  mkPositionCollaterals (scu_collateral (deposit_collateral pos)) (scu_usd (deposit_collateral pos))
    (active_collateral pos) (counter_collateral pos).

(** The attributes an event reports. *)
Definition position_attributes (pos : Position) (trading_fee : CollateralAndUsd)
    (direction : DirectionToBase) (leverage counter_leverage : LeverageToBase)
    (price_point : PricePoint) : res PositionAttributes :=
  in_collateral <- try_map (notional_to_collateral price_point) (notional_size pos);
  in_usd <- try_map (notional_to_usd price_point) (notional_size pos);
  Ok (mkPositionAttributes (pos_id pos) (pos_owner pos) (calculate_position_collaterals pos)
        (market_type st) (notional_size pos) in_collateral in_usd trading_fee direction leverage
        counter_leverage (stop_loss_override pos) (take_profit_trader pos)).

(** [OpenPositionExec::apply]. *)
Definition open_position_apply (e : OpenPositionExec) (save_reason : PositionSaveReason) :
    mhandler PositionId :=
  let pos := oe_pos e in
  let price_point := oe_price_point e in
  trade_history_add_volume st (pos_owner pos) (oe_trade_volume_usd e);;;
  adjust_open_interest_apply (oe_open_interest e);;;
  collect_trading_fee st (pos_id pos) (cu_collateral (pos_trading_fee pos)) price_point FeeTrading
    (pos_owner pos);;;
  charge_result_apply st (oe_delta_neutrality_fee e);;;
  liquidity_lock_apply st (oe_liquidity e);;;
  pos <~ position_save st pos price_point false true save_reason;
  nft_mint st (pos_owner pos) (position_token_id (pos_id pos));;;
  mod_positions (set_LAST_POSITION_ID (pos_id pos));;;
  let trading_fee := cu_collateral (pos_trading_fee pos) in
  trading_fee <~ hlift (cu_new trading_fee price_point);
  '(direction, leverage) <~ hlift (leverage_to_base_at pos price_point);
  '(_, counter_leverage) <~ hlift (counter_leverage_to_base_at pos price_point);
  position_history_add_open_update_action st pos ActionOpen
    (Some (cu_collateral (pos_trading_fee pos)))
    (Some (scu_collateral (delta_neutrality_fee pos)))
    (scu_collateral (deposit_collateral pos)) price_point;;;
  attributes <~ hlift (position_attributes pos trading_fee direction leverage counter_leverage
                         price_point);
  add_event st (EvPositionOpen attributes (created_at pos) (pp_timestamp price_point));;;
  hret (pos_id pos).

End Definitions.
