(* ===== verification/UpdatePosition.v ===== *)
(** * Updating positions

    [contracts/market/src/state/position/update.rs]: adding and removing
    collateral with the leverage or the size adjusting, changing the leverage,
    the maximum gains, the take profit price and the stop loss of an open
    position.  As in the code, each update is computed against the store
    ([.._new]) and applied afterwards ([.._apply]).  What two of the code's
    executions share ([UpdatePositionSizeExec] with
    [UpdatePositionLeverageExec], [UpdatePositionMaxGainsExec] with
    [UpdatePositionTakeProfitPriceExec]) is [PositionResize] and
    [CounterCollateralExec] here. *)

From stdpp Require Import base option gmap strings list pretty.
From Stdlib Require Import ZArith Lia.
From S2P Require Import Prelude Index Storage Cosmwasm Types Number Time Market Price Token DataSeries Config Position Trading State Pool LpHistory Liquidity Fees LiquiditySystem Funding FundingInv DeltaNeutrality DeltaNeutralityInv OpenInterest PositionStore TradeHistory PositionToken ClosePosition OpenPosition.
Local Open Scope Z_scope.

Inductive LiquidityUpdate :=
| UpdateLock (l : LiquidityLock)
| UpdateUnlock (u : LiquidityUnlock).

Record UpdatePositionCollateralExec := mkUpdatePositionCollateralExec {
  uc_pos : Position;
  uc_price_point : PricePoint;
  uc_trade_volume : Usd;
  uc_user_refund : option Collateral;
  uc_event : PositionUpdateEvent;
}.

(** [UpdatePositionLeverageExec], and [UpdatePositionSizeExec] but for the
    refund. *)
Record PositionResize := mkPositionResize {
  rs_pos : Position;
  rs_price_point : PricePoint;
  rs_trade_volume : Usd;
  rs_dnf : ChargeDeltaNeutralityFeeResult;
  rs_open_interest : AdjustOpenInterest;
  rs_liquidity_update : option LiquidityUpdate;
  rs_trading_fee_delta : Collateral;
  rs_event : PositionUpdateEvent;
}.

Record UpdatePositionSizeExec := mkUpdatePositionSizeExec {
  us_resize : PositionResize;
  us_user_refund : option Collateral;
}.

(** [UpdatePositionMaxGainsExec] and [UpdatePositionTakeProfitPriceExec]. *)
Record CounterCollateralExec := mkCounterCollateralExec {
  ucc_pos : Position;
  ucc_price_point : PricePoint;
  ucc_liquidity_update : option LiquidityUpdate;
  ucc_trading_fee_delta : Collateral;
  ucc_event : PositionUpdateEvent;
}.

(** [TriggerOrderExec] and [UpdatePositionStopLossPriceExec]. *)
Record TriggerOrderExec := mkTriggerOrderExec {
  to_pos : Position;
  to_price_point : PricePoint;
}.

Section Definitions.
Context {CW : CosmwasmStd}.
Context (st : State).

(** ** Helpers *)

Definition update_leverage_new_notional_size (m : MarketCtx) (id : PositionId)
    (leverage : LeverageToBase) (price_point : PricePoint) : res Signed :=
  pos <- get_position m id;
  let leverage_to_base :=
    leverage_into_signed leverage (direction_into_base (pos_direction pos) (market_type st)) in
  leverage_to_notional <- leverage_into_notional leverage_to_base (market_type st);
  in_collateral <- checked_mul_collateral leverage_to_notional (active_collateral pos);
  try_map (collateral_to_notional price_point) in_collateral.

Definition update_size_new_notional_size (m : MarketCtx) (id : PositionId)
    (collateral_delta : Signed) : res Signed :=
  pos <- get_position m id;
  new <- signed_checked_add (into_signed (active_collateral pos)) (into_number collateral_delta);
  scale_factor <- number_checked_div new (into_signed (active_collateral pos));
  size <- number_checked_mul (into_number (notional_size pos)) scale_factor;
  Ok (from_number size).

Definition update_max_gains_new_counter_collateral (m : MarketCtx) (id : PositionId)
    (max_gains_in_quote : MaxGainsInQuote) (price_point : PricePoint) : res Collateral :=
  pos <- get_position m id;
  match market_type st with
  | CollateralIsQuote =>
      match max_gains_in_quote with
      | MaxGainsPosInfinity =>
          Err (RawMarketError (InvalidInfiniteMaxGains (market_type st)
                 (direction_into_base (pos_direction pos) (market_type st))))
      | MaxGainsFinite x => checked_mul_non_zero (active_collateral pos) x
      end
  | CollateralIsBase =>
      in_collateral <- try_map (notional_to_collateral price_point) (notional_size pos);
      leverage <- active_leverage_to_notional pos price_point;
      calculate_counter_collateral max_gains_in_quote (market_type st) (active_collateral pos)
        in_collateral leverage
  end.

(** [position_update_event]. *)
Definition position_update_event (original_pos pos : Position) (spot_price : PricePoint) :
    res PositionUpdateEvent :=
  new_leverage <- active_leverage_to_notional pos spot_price;
  new_counter_leverage <- counter_leverage_to_notional pos spot_price;
  old_leverage <- active_leverage_to_notional original_pos spot_price;
  old_counter_leverage <- counter_leverage_to_notional original_pos spot_price;
  old_base <- leverage_into_base old_leverage (market_type st);
  new_base <- leverage_into_base new_leverage (market_type st);
  _ <- ensure (bool_decide ((leverage_split old_base).1 = (leverage_split new_base).1))
         (perp_market DirectionToBaseFlipped);
  leverage_delta <- signed_checked_sub (into_number new_leverage) (into_number old_leverage);
  counter_collateral_delta <- signed_checked_sub (into_signed (counter_collateral pos))
                                (into_signed (counter_collateral original_pos));
  counter_leverage_delta <-
    signed_checked_sub (into_number new_counter_leverage) (into_number old_counter_leverage);
  active_collateral_delta <- signed_checked_sub (into_signed (active_collateral pos))
                               (into_signed (active_collateral original_pos));
  trading_fee_delta <- ud_checked_sub (cu_collateral (pos_trading_fee pos))
                         (cu_collateral (pos_trading_fee original_pos));
  dnf_delta <- signed_checked_sub (scu_collateral (delta_neutrality_fee pos))
                 (scu_collateral (delta_neutrality_fee original_pos));
  notional_size_delta <- signed_checked_sub (notional_size pos) (notional_size original_pos);
  notional_size_abs_delta <-
    signed_checked_sub (signed_abs (notional_size pos)) (signed_abs (notional_size original_pos));
  deposit_collateral_delta <- signed_checked_sub (scu_collateral (deposit_collateral pos))
                                (scu_collateral (deposit_collateral original_pos));
  counter_base <- leverage_into_base new_counter_leverage (market_type st);
  attributes <- position_attributes st pos (pos_trading_fee pos) (leverage_split new_base).1
                  (leverage_split new_base).2 (leverage_split counter_base).2 spot_price;
  let usd := try_map (collateral_to_usd spot_price) in
  let size_usd := try_map (notional_to_usd spot_price) in
  deposit_usd <- usd deposit_collateral_delta;
  active_usd <- usd active_collateral_delta;
  counter_usd <- usd counter_collateral_delta;
  notional_usd <- size_usd notional_size_delta;
  notional_abs_usd <- size_usd notional_size_abs_delta;
  trading_fee_usd <- collateral_to_usd spot_price trading_fee_delta;
  dnf_usd <- usd dnf_delta;
  Ok {| ue_position_attributes := attributes;
        ue_deposit_collateral_delta := deposit_collateral_delta;
        ue_deposit_collateral_delta_usd := deposit_usd;
        ue_active_collateral_delta := active_collateral_delta;
        ue_active_collateral_delta_usd := active_usd;
        ue_counter_collateral_delta := counter_collateral_delta;
        ue_counter_collateral_delta_usd := counter_usd;
        ue_leverage_delta := leverage_delta;
        ue_counter_leverage_delta := counter_leverage_delta;
        ue_notional_size_delta := notional_size_delta;
        ue_notional_size_delta_usd := notional_usd;
        ue_notional_size_abs_delta := notional_size_abs_delta;
        ue_notional_size_abs_delta_usd := notional_abs_usd;
        ue_trading_fee_delta := trading_fee_delta;
        ue_trading_fee_delta_usd := trading_fee_usd;
        ue_delta_neutrality_fee_delta := dnf_delta;
        ue_delta_neutrality_fee_delta_usd := dnf_usd;
        ue_updated_at := st_now st |}.

(** [PositionUpdateEventExt::emit]. *)
Definition update_event_emit (e : PositionUpdateEvent) (pos : Position) (spot_price : PricePoint) :
    mhandler unit :=
  add_event st (EvPositionUpdate e);;;
  position_history_add_open_update_action st pos ActionUpdate
    (if ud_is_zero (ue_trading_fee_delta e) then None else Some (ue_trading_fee_delta e))
    (if signed_is_zero (ue_delta_neutrality_fee_delta e) then None
     else Some (ue_delta_neutrality_fee_delta e))
    (ue_deposit_collateral_delta e) spot_price.

Definition clamp_counter_collateral (requested_counter_collateral : Collateral) (size : Signed)
    (config : Config) (price_point : PricePoint) : res Collateral :=
  in_collateral <- notional_to_collateral price_point (abs_unsigned size);
  max_leverage <- of_option (AnyhowError "Impossible negative max_leverage")
                    (try_into_non_negative_value (max_leverage config));
  min_counter_collateral <- checked_div_dec in_collateral max_leverage;
  counter <- clamp requested_counter_collateral min_counter_collateral in_collateral;
  of_option (AnyhowError "Calculated counter_collateral is 0") (nonzero_new counter).

(** [LiquidityUpdate::new] and [apply]. *)
Definition liquidity_update_new (m : MarketCtx) (counter_collateral_delta : Signed)
    (price_point : PricePoint) (open_interest : option AdjustOpenInterest) :
    res (option LiquidityUpdate) :=
  match nonzero_new (abs_unsigned counter_collateral_delta) with
  | Some delta_abs =>
      if is_strictly_positive counter_collateral_delta
      then
        net <- map_option (fun x => adjust_net_notional x m) open_interest;
        l <- liquidity_lock_new st m delta_abs price_point None net None;
        Ok (Some (UpdateLock l))
      else
        u <- liquidity_unlock_new m delta_abs price_point None;
        Ok (Some (UpdateUnlock u))
  | None => Ok None
  end.

Definition liquidity_update_apply (u : option LiquidityUpdate) : mhandler unit :=
  match u with
  | None => hret tt
  | Some (UpdateLock l) => liquidity_lock_apply st l
  | Some (UpdateUnlock u) => liquidity_unlock_apply st u
  end.

Definition refund_apply (pos : Position) (user_refund : option Collateral) : mhandler unit :=
  match user_refund with
  | Some refund => add_token_transfer_msg (pos_owner pos) refund
  | None => hret tt
  end.

(** The traded volume of an update. *)
Definition update_volume (original_pos pos : Position) (price_point : PricePoint) : res Usd :=
  old <- trade_volume_usd original_pos price_point (market_type st);
  new <- trade_volume_usd pos price_point (market_type st);
  ud_diff old new.

(** ** Collateral, at a constant size *)

Definition update_collateral_new (pos : Position) (collateral_delta : Signed)
    (price_point : PricePoint) : res UpdatePositionCollateralExec :=
  let original_pos := pos in
  active <- nonzero_checked_add_signed (active_collateral pos) collateral_delta;
  deposit <- scu_checked_add_assign (deposit_collateral pos) collateral_delta price_point;
  let pos := set_deposit_collateral deposit (set_active_collateral active pos) in
  trade_volume <- update_volume original_pos pos price_point;
  _ <- position_validate_leverage_data st (market_type st) pos price_point (Some original_pos);
  _ <- (if is_negative collateral_delta
        then validate_minimum_deposit_collateral st (active_collateral pos) price_point
        else Ok tt);
  event <- position_update_event original_pos pos price_point;
  Ok (mkUpdatePositionCollateralExec pos price_point trade_volume
        (try_into_non_zero (signed_neg collateral_delta)) event).

Definition update_collateral_apply (e : UpdatePositionCollateralExec) : mhandler unit :=
  let pos := uc_pos e in
  trade_history_add_volume st (pos_owner pos) (uc_trade_volume e);;;
  update_event_emit (uc_event e) pos (uc_price_point e);;;
  pos <~ position_save st pos (uc_price_point e) true true SaveUpdate;
  refund_apply pos (uc_user_refund e).

(** ** Size and leverage *)

(** The part of [UpdatePositionSizeExec::new] and
    [UpdatePositionLeverageExec::new] after the new size and counter collateral
    are set on the position. *)
Definition resize_new (m : MarketCtx) (original_pos pos : Position)
    (old_in_collateral new_in_collateral counter_collateral_delta : Signed)
    (deposit_check : bool) (price_point : PricePoint) : res PositionResize :=
  trade_volume <- update_volume original_pos pos price_point;
  _ <- position_validate_leverage_data st (market_type st) pos price_point (Some original_pos);
  _ <- (if deposit_check
        then validate_minimum_deposit_collateral st (active_collateral pos) price_point
        else Ok tt);
  trading_fee_delta <- calculate_trade_fee (st_config st) old_in_collateral new_in_collateral
                         (counter_collateral original_pos) (counter_collateral pos);
  pos <- charge_trading_fee pos trading_fee_delta price_point;
  notional_size_diff <- signed_checked_sub (notional_size pos) (notional_size original_pos);
  '(dnf, pos) <- charge_delta_neutrality_fee st m pos notional_size_diff price_point
                   PositionUpdateReason;
  open_interest <- adjust_open_interest_new st m notional_size_diff (pos_direction pos) true;
  liquidity_update <- liquidity_update_new m counter_collateral_delta price_point
                        (Some open_interest);
  event <- position_update_event original_pos pos price_point;
  Ok (mkPositionResize pos price_point trade_volume dnf open_interest liquidity_update
        trading_fee_delta event).

Definition resize_apply (e : PositionResize) : mhandler Position :=
  let pos := rs_pos e in
  trade_history_add_volume st (pos_owner pos) (rs_trade_volume e);;;
  charge_result_apply st (rs_dnf e);;;
  adjust_open_interest_apply (rs_open_interest e);;;
  pos <~ position_save st pos (rs_price_point e) true true SaveUpdate;
  stats <~ load_liquidity_stats;
  add_delta_neutrality_ratio_event st stats (rs_price_point e);;;
  liquidity_update_apply (rs_liquidity_update e);;;
  collect_trading_fee st (pos_id pos) (rs_trading_fee_delta e) (rs_price_point e) FeeTrading
    (pos_owner pos);;;
  update_event_emit (rs_event e) pos (rs_price_point e);;;
  hret pos.

(** [UpdatePositionSizeExec]. *)
Definition update_size_new (m : MarketCtx) (pos : Position) (collateral_delta : Signed)
    (price_point : PricePoint) : res UpdatePositionSizeExec :=
  let original_pos := pos in
  sum <- signed_checked_add (into_signed (active_collateral pos)) collateral_delta;
  positive <- approx_gt_strict (into_number sum) NUMBER_ZERO;
  _ <- ensure positive (perp_market PositionUpdate);
  new <- signed_checked_add (into_signed (active_collateral pos)) (into_number collateral_delta);
  ratio <- number_checked_div new (into_signed (active_collateral pos));
  scale_factor <- of_option (AnyhowError "scale_factor is negative or zero")
                    (try_into_non_zero ratio);
  active <- nonzero_checked_add_signed (active_collateral pos) collateral_delta;
  deposit <- scu_checked_add_assign (deposit_collateral pos) collateral_delta price_point;
  let pos := set_deposit_collateral deposit (set_active_collateral active pos) in
  old_in_collateral <- notional_size_in_collateral pos price_point;
  new_in_collateral <- try_map (fun x => checked_mul_dec x scale_factor) old_in_collateral;
  size <- try_map (collateral_to_notional price_point) new_in_collateral;
  let pos := set_notional_size size pos in
  scaled <- checked_mul_non_zero (counter_collateral pos) scale_factor;
  counter <- clamp_counter_collateral scaled (notional_size pos) (st_config st) price_point;
  counter_collateral_delta <- signed_checked_sub (into_signed counter)
                                (into_signed (counter_collateral pos));
  let pos := set_counter_collateral counter pos in
  resize <- resize_new m original_pos pos old_in_collateral new_in_collateral
              counter_collateral_delta (is_negative collateral_delta) price_point;
  Ok (mkUpdatePositionSizeExec resize (try_into_non_zero (signed_neg collateral_delta))).

Definition update_size_apply (e : UpdatePositionSizeExec) : mhandler unit :=
  pos <~ resize_apply (us_resize e);
  refund_apply pos (us_user_refund e).

(** [UpdatePositionLeverageExec]. *)
Definition update_leverage_new (m : MarketCtx) (pos : Position) (size : Signed)
    (price_point : PricePoint) : res PositionResize :=
  let original_pos := pos in
  zero <- number_approx_eq (into_number size) NUMBER_ZERO;
  _ <- ensure (negb zero) (perp_market PositionUpdate);
  in_collateral <- notional_to_collateral price_point (abs_unsigned (notional_size pos));
  divisor <- of_option (AnyhowError "notional_size is zero") (nonzero_new in_collateral);
  counter_ratio <- checked_div_collateral (counter_collateral pos) divisor;
  old_in_collateral <- try_map (notional_to_collateral price_point) (notional_size pos);
  new_in_collateral <- try_map (notional_to_collateral price_point) size;
  let pos := set_notional_size size pos in
  raw <- checked_mul_dec (abs_unsigned new_in_collateral) counter_ratio;
  requested <- of_option (AnyhowError "new_counter_collateral is zero") (nonzero_new raw);
  counter <- clamp_counter_collateral requested (notional_size pos) (st_config st) price_point;
  counter_collateral_delta <- signed_checked_sub (into_signed counter)
                                (into_signed (counter_collateral pos));
  let pos := set_counter_collateral counter pos in
  resize_new m original_pos pos old_in_collateral new_in_collateral counter_collateral_delta false
    price_point.

Definition update_leverage_apply (e : PositionResize) : mhandler unit :=
  resize_apply e;;; hret tt.

(** ** Maximum gains and take profit price *)

(** The part of [UpdatePositionMaxGainsExec::new] and
    [UpdatePositionTakeProfitPriceExec::new] after the new counter collateral is
    known. *)
Definition counter_collateral_update_new (m : MarketCtx) (pos : Position) (counter : Collateral)
    (price_point : PricePoint) : res CounterCollateralExec :=
  let original_pos := pos in
  counter_collateral_delta <- signed_checked_sub (into_signed counter)
                                (into_signed (counter_collateral pos));
  let pos := set_counter_collateral counter pos in
  _ <- position_validate_leverage_data st (market_type st) pos price_point (Some original_pos);
  trading_fee_delta <- calculate_trade_fee (st_config st) signed_zero signed_zero
                         (counter_collateral original_pos) counter;
  pos <- charge_trading_fee pos trading_fee_delta price_point;
  _ <- signed_checked_sub (notional_size pos) (notional_size original_pos);
  liquidity_update <- liquidity_update_new m counter_collateral_delta price_point None;
  event <- position_update_event original_pos pos price_point;
  Ok (mkCounterCollateralExec pos price_point liquidity_update trading_fee_delta event).

Definition update_max_gains_new (m : MarketCtx) (pos : Position) (max_gains : MaxGainsInQuote)
    (price_point : PricePoint) : res CounterCollateralExec :=
  requested <- update_max_gains_new_counter_collateral m (pos_id pos) max_gains price_point;
  counter <- clamp_counter_collateral requested (notional_size pos) (st_config st) price_point;
  counter_collateral_update_new m pos counter price_point.

(** The trigger prices change after the event is made. *)
Definition update_take_profit_price_new (m : MarketCtx) (pos : Position)
    (take_profit_trader : TakeProfitTrader) (price_point : PricePoint) :
    res CounterCollateralExec :=
  '(_, leverage_to_base) <- leverage_to_base_at st pos price_point;
  counter <- take_profit_calc (mkTakeProfitToCounterCollateral take_profit_trader (market_type st)
    (active_collateral pos) leverage_to_base
    (direction_into_base (pos_direction pos) (market_type st)) (st_config st) price_point);
  e <- counter_collateral_update_new m pos counter price_point;
  take_profit_notional <- take_profit_into_notional take_profit_trader (market_type st);
  Ok (mkCounterCollateralExec
        (set_take_profit (Some take_profit_trader) take_profit_notional (ucc_pos e))
        (ucc_price_point e) (ucc_liquidity_update e) (ucc_trading_fee_delta e) (ucc_event e)).

Definition counter_collateral_update_apply (e : CounterCollateralExec) : mhandler unit :=
  pos <~ position_save st (ucc_pos e) (ucc_price_point e) true true SaveUpdate;
  liquidity_update_apply (ucc_liquidity_update e);;;
  collect_trading_fee st (pos_id pos) (ucc_trading_fee_delta e) (ucc_price_point e) FeeTrading
    (pos_owner pos);;;
  update_event_emit (ucc_event e) pos (ucc_price_point e).

(** ** Trigger prices *)

Definition trigger_order_new (m : MarketCtx) (id : PositionId)
    (stop_loss : option PriceBaseInQuote) (take_profit : option TakeProfitTrader)
    (price_point : PricePoint) : res TriggerOrderExec :=
  pos <- get_position m id;
  stop_loss_notional <- map_option (fun x => into_notional_price x (market_type st)) stop_loss;
  let pos := set_stop_loss stop_loss stop_loss_notional pos in
  take_profit_notional <- match take_profit with
                          | Some x => take_profit_into_notional x (market_type st)
                          | None => Ok None
                          end;
  Ok (mkTriggerOrderExec (set_take_profit take_profit take_profit_notional pos) price_point).

Definition update_stop_loss_price_new (m : MarketCtx) (id : PositionId) (stop_loss : StopLoss)
    (price_point : PricePoint) : res TriggerOrderExec :=
  pos <- get_position m id;
  match stop_loss with
  | StopLossRemove => Ok (mkTriggerOrderExec (set_stop_loss None None pos) price_point)
  | StopLossPrice price =>
      notional <- into_notional_price price (market_type st);
      Ok (mkTriggerOrderExec (set_stop_loss (Some price) (Some notional) pos) price_point)
  end.

Definition trigger_order_apply (e : TriggerOrderExec) : mhandler unit :=
  position_save st (to_pos e) (to_price_point e) true false SaveUpdate;;;
  hret tt.

End Definitions.
