(* ===== verification/Orders.v ===== *)
(** * Limit orders

    [contracts/market/src/state/order.rs]: the store of limit orders with its
    price indexes, placing, cancelling and executing an order. *)

From stdpp Require Import base option gmap strings list pretty.
From Stdlib Require Import ZArith Lia.
From S2P Require Import Prelude Index Storage Cosmwasm Types Number Time Market Price Token DataSeries Config Position Trading State Pool LpHistory Liquidity Fees LiquiditySystem Funding FundingInv DeltaNeutrality DeltaNeutralityInv OpenInterest PositionStore TradeHistory PositionToken ClosePosition OpenPosition.
Local Open Scope Z_scope.

Record PlaceLimitOrderExec := mkPlaceLimitOrderExec {
  ple_order_id : OrderId;
  ple_crank_fee : CapCrankFee;
  ple_order : LimitOrder;
  ple_price : PricePoint;
}.

Record CancelLimitOrderExec := mkCancelLimitOrderExec {
  cle_order_id : OrderId;
  cle_order : LimitOrder;
}.

(** [match r { Ok(a) => .., Err(e) => .. }]: an error is a value, a panic still
    aborts. *)
Definition catch {A} (r : res A) : res (A + error) :=
  match r with
  | Ok a => Ok (inl a)
  | Err (Panic msg) => Err (Panic msg)
  | Err e => Ok (inr e)
  end.

Definition load_order (m : MarketCtx) (id : OrderId) : res LimitOrder :=
  std (LIMIT_ORDERS (m_orders m) !! id).

(** ** Triggered orders *)

Definition limit_order_triggered_order (m : MarketCtx) (price : Price) : option OrderId :=
  match entry_max (fun k => price <=? k.1) (LIMIT_ORDERS_BY_PRICE_LONG (m_orders m)) with
  | Some ((_, id), _) => Some id
  | None =>
      match entry_min (fun k => k.1 <=? price) (LIMIT_ORDERS_BY_PRICE_SHORT (m_orders m)) with
      | Some ((_, id), _) => Some id
      | None => None
      end
  end.

Definition limit_order_newly_triggered_order (m : MarketCtx) (oracle_price new_price : Price) : bool :=
  is_some (entry_min (fun k => (new_price <=? k.1) && (k.1 <? oracle_price))
             (LIMIT_ORDERS_BY_PRICE_LONG (m_orders m))) ||
  is_some (entry_max (fun k => (oracle_price <? k.1) && (k.1 <=? new_price))
             (LIMIT_ORDERS_BY_PRICE_SHORT (m_orders m))).

Definition limit_order_assert_owner (m : MarketCtx) (owner : Addr) (id : OrderId) : res unit :=
  match LIMIT_ORDERS_BY_ADDR (m_orders m) !! (owner, id) with
  | Some _ => Ok tt
  | None => Err (AnyhowError "Limit order is not owned by")
  end.

Section Definitions.
Context {CW : CosmwasmStd}.
Context (st : State).

(** The take profit of an order or of an item that may still carry the
    deprecated maximum gains. *)
Definition requested_take_profit (take_profit : option TakeProfitTrader)
    (max_gains : option MaxGainsInQuote) (collateral : Collateral) (direction : DirectionToBase)
    (leverage : LeverageToBase) (price_point : PricePoint) : res TakeProfitTrader :=
  match max_gains with
  | None =>
      of_option (AnyhowError "must supply at least one of take_profit or max_gains") take_profit
  | Some max_gains =>
      take_profit <-
        match take_profit with
        | None => Ok None
        | Some TakeProfitPosInfinity =>
            Err (AnyhowError "cannot set infinite take profit price and max_gains")
        | Some (TakeProfitFinite x) => Ok (Some x)
        end;
      backwards_compat_take_profit collateral direction leverage (market_type st) price_point
        max_gains take_profit
  end.

(** The key of an order in the index of its direction. *)
Definition order_price_key (order : LimitOrder) : res (Z * Z) :=
  price <- into_notional_price (lo_trigger_price order) (market_type st);
  Ok (price, lo_order_id order).

Definition index_order (direction : DirectionToNotional)
    (f : gmap (Z * Z) unit -> gmap (Z * Z) unit) : mhandler unit :=
  match direction with
  | LongToNotional => mod_orders (fun s =>
      set_LIMIT_ORDERS_BY_PRICE_LONG (f (LIMIT_ORDERS_BY_PRICE_LONG s)) s)
  | ShortToNotional => mod_orders (fun s =>
      set_LIMIT_ORDERS_BY_PRICE_SHORT (f (LIMIT_ORDERS_BY_PRICE_SHORT s)) s)
  end.

Definition limit_order_remove (order : LimitOrder) : mhandler unit :=
  mod_orders (fun s => set_LIMIT_ORDERS (delete (lo_order_id order) (LIMIT_ORDERS s)) s);;;
  key <~ hlift (order_price_key order);
  index_order (lo_direction order) (delete key);;;
  mod_orders (fun s => set_LIMIT_ORDERS_BY_ADDR
    (delete (lo_owner order, lo_order_id order) (LIMIT_ORDERS_BY_ADDR s)) s).

(** ** Executing *)

Definition order_params (order : LimitOrder) (take_profit_trader : TakeProfitTrader) :
    OpenPositionParams :=
  {| op_owner := lo_owner order;
     op_collateral := lo_collateral order;
     op_crank_fee := mkCollateralAndUsd (lo_crank_fee_collateral order) (lo_crank_fee_usd order);
     op_leverage := lo_leverage order;
     op_direction := direction_into_base (lo_direction order) (market_type st);
     op_slippage_assert := None;
     op_stop_loss_override := lo_stop_loss_override order;
     op_take_profit_trader := take_profit_trader |}.

Definition limit_order_execute_order (order_id : OrderId) (price_point : PricePoint) :
    mhandler unit :=
  order <~ hask (fun m => load_order m order_id);
  limit_order_remove order;;;
  take_profit_trader <~ hlift (requested_take_profit (lo_take_profit order) (lo_max_gains order)
    (lo_collateral order) (direction_into_base (lo_direction order) (market_type st))
    (lo_leverage order) price_point);
  validated <~ hask (fun m => catch (open_position_new st m (order_params order take_profit_trader)
                                       price_point));
  res <~ match validated with
         | inl validated_position =>
             pos_id <~ open_position_apply st validated_position SaveExecuteLimitOrder;
             hret (OrderSuccess pos_id)
         | inr e =>
             add_token_transfer_msg (lo_owner order) (lo_collateral order);;;
             hret (OrderFailure e)
         end;
  add_event st (EvExecuteLimitOrder order_id
    (match res with OrderSuccess id => Some id | OrderFailure _ => None end)
    (match res with OrderSuccess _ => None | OrderFailure e => Some e end));;;
  mod_orders (fun s => set_EXECUTED_LIMIT_ORDERS
    (<[(lo_owner order, order_id) := mkExecutedLimitOrder order res (st_now st)]>
      (EXECUTED_LIMIT_ORDERS s)) s).

(** ** Placing *)

(** [PlaceLimitOrderExec::new]. *)
Definition place_limit_order_new (m : MarketCtx) (owner : Addr) (trigger_price : PriceBaseInQuote)
    (collateral : Collateral) (leverage : LeverageToBase) (direction : DirectionToNotional)
    (stop_loss_override : option PriceBaseInQuote) (take_profit : TakeProfitTrader)
    (deferred_exec_crank_fee : Collateral) (deferred_exec_crank_fee_usd : Usd)
    (price : PricePoint) : res PlaceLimitOrderExec :=
  let last_order_id := default 0 (LAST_ORDER_ID (m_orders m)) in
  order_id <- u64_checked (last_order_id + 1);
  fee <- usd_to_collateral price (crank_fee_charged (st_config st));
  let crank_fee := cap_crank_fee_new fee (crank_fee_charged (st_config st))
                     (TradeLimitOrder order_id) in
  collateral <- nonzero_checked_sub collateral (cap_amount crank_fee);
  fee_collateral <- ud_checked_add (cap_amount crank_fee) deferred_exec_crank_fee;
  fee_usd <- ud_checked_add (cap_amount_usd crank_fee) deferred_exec_crank_fee_usd;
  let order :=
    {| lo_order_id := order_id;
       lo_owner := owner;
       lo_trigger_price := trigger_price;
       lo_collateral := collateral;
       lo_leverage := leverage;
       lo_direction := direction;
       lo_stop_loss_override := stop_loss_override;
       lo_max_gains := None;
       lo_take_profit := Some take_profit;
       lo_crank_fee_collateral := fee_collateral;
       lo_crank_fee_usd := fee_usd |} in
  Ok (mkPlaceLimitOrderExec order_id crank_fee order price).

(** [PlaceLimitOrderExec::apply]. *)
Definition place_limit_order_apply (e : PlaceLimitOrderExec) : mhandler OrderId :=
  let order := ple_order e in
  let order_id := ple_order_id e in
  mod_orders (set_LAST_ORDER_ID (Some order_id));;;
  cap_crank_fee_apply st (ple_crank_fee e);;;
  mod_orders (fun s => set_LIMIT_ORDERS (<[order_id := order]> (LIMIT_ORDERS s)) s);;;
  price <~ hlift (into_notional_price (lo_trigger_price order) (market_type st));
  index_order (lo_direction order) (insert (price, order_id) tt);;;
  mod_orders (fun s => set_LIMIT_ORDERS_BY_ADDR
    (<[(lo_owner order, order_id) := tt]> (LIMIT_ORDERS_BY_ADDR s)) s);;;
  let direction_to_base := direction_into_base (lo_direction order) (market_type st) in
  usd <~ hlift (collateral_to_usd_non_zero (ple_price e) (lo_collateral order));
  add_event st (EvPlaceLimitOrder order (market_type st) usd
    (leverage_into_signed (lo_leverage order) direction_to_base) direction_to_base);;;
  hret order_id.

(** ** Cancelling *)

Definition cancel_limit_order_new (m : MarketCtx) (order_id : OrderId) : res CancelLimitOrderExec :=
  order <- load_order m order_id;
  Ok (mkCancelLimitOrderExec order_id order).

Definition cancel_limit_order_apply (e : CancelLimitOrderExec) : mhandler unit :=
  limit_order_remove (cle_order e);;;
  add_token_transfer_msg (lo_owner (cle_order e)) (lo_collateral (cle_order e));;;
  add_event st (EvCancelLimitOrder (cle_order_id e)).

(** ** Queries *)

(** [backwards_compat_limit_order_take_profit]: an order without a take profit
    price is valued at its trigger price. *)
Definition backwards_compat_limit_order_take_profit (m : MarketCtx) (order : LimitOrder) :
    res TakeProfitTrader :=
  match lo_take_profit order with
  | Some x => Ok x
  | None =>
      current <- current_spot_price st m;
      notional <- into_notional_price (lo_trigger_price order) (market_type st);
      let patched := mkPricePoint notional (price_usd current) (lo_trigger_price order)
        (pp_timestamp current) (pp_is_notional_usd current) (pp_market_type current)
        (pp_publish_time current) (pp_publish_time_usd current) in
      usd <- base_to_usd patched (lo_trigger_price order);
      price_usd <- of_option (AnyhowError "must be non-zero") (nonzero_new usd);
      let price_point := mkPricePoint notional price_usd (lo_trigger_price order)
        (pp_timestamp current) (pp_is_notional_usd current) (pp_market_type current)
        (pp_publish_time current) (pp_publish_time_usd current) in
      max_gains <- of_option
        (AnyhowError "max_gains should be set in limit order backwards-compat branch")
        (lo_max_gains order);
      backwards_compat_take_profit (lo_collateral order)
        (direction_into_base (lo_direction order) (market_type st)) (lo_leverage order)
        (market_type st) price_point max_gains None
  end.

End Definitions.

Definition executed_orders (m : MarketCtx) (addr : Addr) : gmap Z ExecutedLimitOrder :=
  map_fold (fun k v acc => if bool_decide (k.1 = addr) then <[k.2 := v]> acc else acc) ∅
    (EXECUTED_LIMIT_ORDERS (m_orders m)).

Definition limit_order_get_history (m : MarketCtx) (addr : Addr) (start_after limit : option Z)
    (descending : bool) : list ExecutedLimitOrder * option Z :=
  get_history_helper (executed_orders m addr) start_after limit descending.
