(* ===== verification/Deferred.v ===== *)
(** * Deferred execution

    [contracts/market/src/state/deferred_execution.rs] and [deferred_exec.rs]:
    a trader's request is queued with the funds it carries, and executed later
    against a newer price in a submessage of its own, whose outcome the reply
    records.  [helper_validate] runs the checks of [helper_execute] without
    writing. *)

From stdpp Require Import base option gmap strings list pretty.
From Stdlib Require Import ZArith Lia.
From S2P Require Import Prelude Index Storage Cosmwasm Types Number Time Market Price Token DataSeries Config Position Trading State Pool LpHistory Liquidity Fees LiquiditySystem Funding FundingInv DeltaNeutrality DeltaNeutralityInv OpenInterest PositionStore SpotPrice TradeHistory PositionToken ClosePosition OpenPosition UpdatePosition Orders.
Local Open Scope Z_scope.

(** [DeferredExecId::first] and [next]. *)
Definition deferred_id_first : DeferredExecId := 1.
Definition deferred_id_next (id : DeferredExecId) : res DeferredExecId := u64_checked (id + 1).

(** The result of a submessage; the text of an error is not visible to the
    contract. *)
Inductive SubMsgResult := SubMsgOk | SubMsgErr.

(** [PositionCloseReason::to_string]. *)
Definition liquidation_reason_to_string (r : LiquidationReason) : string :=
  match r with
  | LiqLiquidated => "liquidated"
  | LiqMaxGains => "max-gains"
  | LiqStopLoss => "stop-loss"
  | LiqTakeProfit => "take-profit"
  end.
Definition close_reason_to_string (r : PositionCloseReason) : string :=
  match r with
  | CloseLiquidated reason => liquidation_reason_to_string reason
  | CloseDirect => "Manual close"
  end.

Definition load_deferred (m : MarketCtx) (id : DeferredExecId) : option DeferredExecWithStatus :=
  DEFERRED_EXECS (m_deferred m) !! id.

Definition save_deferred (item : DeferredExecWithStatus) (id : DeferredExecId) : mhandler unit :=
  mod_deferred (fun s => set_DEFERRED_EXECS (<[id := item]> (DEFERRED_EXECS s)) s).

Definition set_de_status (status : DeferredExecStatus) (d : DeferredExecWithStatus) :
    DeferredExecWithStatus :=
  mkDeferredExecWithStatus (de_id d) (de_created d) status (de_owner d) (de_item d).

(** ** The queue *)

Section Queue.
Context {CW : CosmwasmStd}.

(** [get_next_deferred_execution]. *)
Definition get_next_deferred_execution (m : MarketCtx) :
    res (option (DeferredExecId * DeferredExecWithStatus)) :=
  match DEFERRED_EXEC_LATEST_IDS (m_deferred m) with
  | None => Ok None
  | Some ids =>
      next <- match processed ids with
              | None => Ok (Some deferred_id_first)
              | Some p =>
                  if issued ids <=? p then Ok None
                  else n <- deferred_id_next p; Ok (Some n)
              end;
      match next with
      | None => Ok None
      | Some next_id =>
          item <- panics "Logic error, next_id in get_next_deferred_execution does not exist"
                    (load_deferred m next_id);
          Ok (Some (next_id, item))
      end
  end.

(** [next_crankable_deferred_exec_id]: only a price published after the request
    was made may execute it. *)
Definition next_crankable_deferred_exec_id (m : MarketCtx) (publish_time : Timestamp) :
    res (option (DeferredExecId * DeferredExecTarget)) :=
  next <- get_next_deferred_execution m;
  Ok (match next with
      | None => None
      | Some (id, item) =>
          if de_created item <? publish_time then Some (id, defer_target (de_item item)) else None
      end).

(** [DeferredExecLatestIds::queue_size]. *)
Definition queue_size (ids : DeferredExecLatestIds) : res Z :=
  n <- u64_checked (issued ids - default 0 (processed ids));
  Ok (Z.min n (2 ^ 32 - 1)).

(** The new id, the queue's counters afterwards and its size before. *)
Definition issue_deferred_id (m : MarketCtx) : res (DeferredExecId * DeferredExecLatestIds * Z) :=
  match DEFERRED_EXEC_LATEST_IDS (m_deferred m) with
  | None => Ok (deferred_id_first, mkDeferredExecLatestIds deferred_id_first None, 0)
  | Some ids =>
      size <- u64_checked (issued ids - default 0 (processed ids));
      new_id <- deferred_id_next (issued ids);
      Ok (new_id, mkDeferredExecLatestIds new_id (processed ids), size)
  end.

(** [assert_no_pending_deferred]. *)
Definition assert_no_pending_deferred (m : MarketCtx) (id : PositionId) : res unit :=
  match entry_min (fun k => k.1 =? id) (PENDING_DEFERRED_FOR_POSITION (m_deferred m)) with
  | Some _ => Err (into_anyhow PendingDeferredExec)
  | None => Ok tt
  end.
End Queue.

Section Definitions.
Context {CW : CosmwasmStd}.
Context (st : State).

(** ** Executing *)

Definition update_position_slippage_assert (m : MarketCtx) (id : PositionId) (size : option Signed)
    (slippage_assert : option SlippageAssertion) (price_point : PricePoint) : res unit :=
  match slippage_assert with
  | None => Ok tt
  | Some slippage_assert =>
      pos <- get_position m id;
      delta <- signed_checked_sub (default (notional_size pos) size) (notional_size pos);
      do_slippage_assert st m slippage_assert delta (market_type st)
        (Some (margin_delta_neutrality (pos_liquidation_margin pos))) price_point
  end.

Definition execute_slippage_assert_and_liquifund (id : PositionId) (size : option Signed)
    (slippage_assert : option SlippageAssertion) (price_point : PricePoint) : mhandler unit :=
  hask (fun m => update_position_slippage_assert m id size slippage_assert price_point);;;
  pos <~ hask (fun m => get_position m id);
  position_liquifund_store st pos (liquifunded_at pos) (pp_timestamp price_point) false SaveUpdate.

Definition validate_slippage_assert_and_liquifund (m : MarketCtx) (id : PositionId)
    (size : option Signed) (slippage_assert : option SlippageAssertion) (price_point : PricePoint) :
    res PositionLiquifund :=
  _ <- update_position_slippage_assert m id size slippage_assert price_point;
  pos <- get_position m id;
  position_liquifund_new st m pos (liquifunded_at pos) (pp_timestamp price_point) false.

(** [helper_close_position]. *)
Definition helper_close_position (m : MarketCtx) (id : PositionId)
    (slippage_assert : option SlippageAssertion) (price_point : PricePoint) :
    res ClosePositionExec :=
  pos <- match get_position m id with
         | Ok pos => Ok pos
         | Err e =>
             match load_closed_position m id with
             | Some closed => Err (into_anyhow (PositionAlreadyClosed id (cp_close_time closed)
                                     (close_reason_to_string (cp_reason closed))))
             | None => Err e
             end
         end;
  _ <- match slippage_assert with
       | None => Ok tt
       | Some slippage_assert =>
           do_slippage_assert st m slippage_assert (signed_neg (notional_size pos)) (market_type st)
             (Some (margin_delta_neutrality (pos_liquidation_margin pos))) price_point
       end;
  close_position_new_via_msg st m pos price_point.

(** The slippage assertion on a change of leverage. *)
Definition leverage_slippage_assert (m : MarketCtx) (pos : Position) (size : Signed)
    (slippage_assert : option SlippageAssertion) (price_point : PricePoint) : res unit :=
  match slippage_assert with
  | None => Ok tt
  | Some slippage_assert =>
      delta <- signed_checked_sub size (notional_size pos);
      do_slippage_assert st m slippage_assert delta (market_type st)
        (Some (margin_delta_neutrality (pos_liquidation_margin pos))) price_point
  end.

Definition open_params (owner : Addr) (slippage_assert : option SlippageAssertion)
    (leverage : LeverageToBase) (direction : DirectionToBase)
    (stop_loss_override : option PriceBaseInQuote) (amount : Collateral) (crank_fee : Collateral)
    (crank_fee_usd : Usd) (take_profit_trader : TakeProfitTrader) : OpenPositionParams :=
  mkOpenPositionParams owner amount (mkCollateralAndUsd crank_fee crank_fee_usd) leverage direction
    slippage_assert stop_loss_override take_profit_trader.

(** Liquifund the position up to the price, then run an update on what is
    stored afterwards. *)
Definition update_after_liquifund {A} (id : PositionId) (size : option Signed)
    (slippage_assert : option SlippageAssertion) (price_point : PricePoint)
    (compute : MarketCtx -> Position -> res A) (apply : A -> mhandler unit) :
    mhandler DeferredExecCompleteTarget :=
  execute_slippage_assert_and_liquifund id size slippage_assert price_point;;;
  pos <~ hask (fun m => get_position m id);
  e <~ hask (fun m => compute m pos);
  apply e;;;
  hret (CompletePosition id).

Definition helper_execute (item : DeferredExecWithStatus) (price_point : PricePoint) :
    mhandler DeferredExecCompleteTarget :=
  match de_item item with
  | DeferOpenPosition slippage_assert leverage direction max_gains stop_loss take_profit amount
      crank_fee crank_fee_usd =>
      take_profit_trader <~ hlift (requested_take_profit st take_profit max_gains amount direction
                                     leverage price_point);
      e <~ hask (fun m => open_position_new st m (open_params (de_owner item) slippage_assert
             leverage direction stop_loss amount crank_fee crank_fee_usd take_profit_trader)
             price_point);
      id <~ open_position_apply st e SaveOpenMarket;
      hret (CompletePosition id)
  | DeferAddCollateralImpactLeverage id amount =>
      update_after_liquifund id None None price_point
        (fun _ pos => update_collateral_new st pos (into_signed amount) price_point)
        (update_collateral_apply st)
  | DeferAddCollateralImpactSize id slippage_assert amount =>
      let funds := into_signed amount in
      size <~ hask (fun m => update_size_new_notional_size m id funds);
      update_after_liquifund id (Some size) slippage_assert price_point
        (fun m pos => update_size_new st m pos funds price_point) (update_size_apply st)
  | DeferRemoveCollateralImpactLeverage id amount =>
      update_after_liquifund id None None price_point
        (fun _ pos => update_collateral_new st pos (signed_neg (into_signed amount)) price_point)
        (update_collateral_apply st)
  | DeferRemoveCollateralImpactSize id amount slippage_assert =>
      let funds := signed_neg (into_signed amount) in
      size <~ hask (fun m => update_size_new_notional_size m id funds);
      update_after_liquifund id (Some size) slippage_assert price_point
        (fun m pos => update_size_new st m pos funds price_point) (update_size_apply st)
  | DeferUpdateLeverage id leverage slippage_assert =>
      update_after_liquifund id None None price_point
        (fun m pos =>
           size <- update_leverage_new_notional_size st m id leverage price_point;
           _ <- leverage_slippage_assert m pos size slippage_assert price_point;
           update_leverage_new st m pos size price_point) (update_leverage_apply st)
  | DeferUpdateMaxGains id max_gains =>
      update_after_liquifund id None None price_point
        (fun m pos => update_max_gains_new st m pos max_gains price_point)
        (counter_collateral_update_apply st)
  | DeferUpdateTakeProfitPrice id price =>
      update_after_liquifund id None None price_point
        (fun m pos => update_take_profit_price_new st m pos price price_point)
        (counter_collateral_update_apply st)
  | DeferUpdateStopLossPrice id stop_loss =>
      execute_slippage_assert_and_liquifund id None None price_point;;;
      e <~ hask (fun m => update_stop_loss_price_new st m id stop_loss price_point);
      trigger_order_apply st e;;;
      hret (CompletePosition id)
  | DeferClosePosition id slippage_assert =>
      e <~ hask (fun m => helper_close_position m id slippage_assert price_point);
      close_position_apply st e;;;
      hret (CompletePosition id)
  | DeferSetTriggerOrder id stop_loss take_profit =>
      execute_slippage_assert_and_liquifund id None None price_point;;;
      e <~ hask (fun m => trigger_order_new st m id stop_loss take_profit price_point);
      trigger_order_apply st e;;;
      hret (CompletePosition id)
  | DeferPlaceLimitOrder trigger_price leverage direction max_gains stop_loss take_profit amount
      crank_fee crank_fee_usd =>
      take_profit_price <~ hlift (requested_take_profit st take_profit max_gains amount direction
                                    leverage price_point);
      e <~ hask (fun m => place_limit_order_new st m (de_owner item) trigger_price amount leverage
             (direction_into_notional direction (market_type st)) stop_loss take_profit_price
             crank_fee crank_fee_usd price_point);
      order_id <~ place_limit_order_apply st e;
      hret (CompleteOrder order_id)
  | DeferCancelLimitOrder order_id =>
      e <~ hask (fun m => cancel_limit_order_new m order_id);
      cancel_limit_order_apply st e;;;
      hret (CompleteOrder order_id)
  end.

(** ** Validating *)

(** [helper_validate]; the result of each computation is discarded. *)
Definition discard {A} (r : res A) : res unit := _ <- r; Ok tt.

Definition helper_validate (m : MarketCtx) (item : DeferredExecWithStatus)
    (price_point : PricePoint) (slippage_check : bool) : res unit :=
  let check (a : option SlippageAssertion) := if slippage_check then a else None in
  let liquifunded id size a :=
    l <- validate_slippage_assert_and_liquifund m id size a price_point;
    Ok (maybe_closed_position (pl_position l)) in
  match de_item item with
  | DeferOpenPosition slippage_assert leverage direction max_gains stop_loss take_profit amount
      crank_fee crank_fee_usd =>
      take_profit_trader <- requested_take_profit st take_profit max_gains amount direction
                              leverage price_point;
      discard (open_position_new st m (open_params (de_owner item) (check slippage_assert)
        leverage direction stop_loss amount crank_fee crank_fee_usd take_profit_trader) price_point)
  | DeferAddCollateralImpactLeverage id amount =>
      pos <- liquifunded id None None;
      discard (update_collateral_new st pos (into_signed amount) price_point)
  | DeferAddCollateralImpactSize id slippage_assert amount =>
      let funds := into_signed amount in
      size <- update_size_new_notional_size m id funds;
      pos <- liquifunded id (Some size) (check slippage_assert);
      discard (update_size_new st m pos funds price_point)
  | DeferRemoveCollateralImpactLeverage id amount =>
      pos <- liquifunded id None None;
      discard (update_collateral_new st pos (signed_neg (into_signed amount)) price_point)
  | DeferRemoveCollateralImpactSize id amount slippage_assert =>
      let funds := signed_neg (into_signed amount) in
      size <- update_size_new_notional_size m id funds;
      pos <- liquifunded id (Some size) (check slippage_assert);
      discard (update_size_new st m pos funds price_point)
  | DeferUpdateLeverage id leverage slippage_assert =>
      pos <- liquifunded id None (check slippage_assert);
      size <- update_leverage_new_notional_size st m id leverage price_point;
      _ <- leverage_slippage_assert m pos size (check slippage_assert) price_point;
      discard (update_leverage_new st m pos size price_point)
  | DeferUpdateMaxGains id max_gains =>
      pos <- liquifunded id None None;
      discard (update_max_gains_new st m pos max_gains price_point)
  | DeferUpdateTakeProfitPrice id price =>
      pos <- liquifunded id None None;
      discard (update_take_profit_price_new st m pos price price_point)
  | DeferUpdateStopLossPrice id stop_loss =>
      _ <- liquifunded id None None;
      discard (update_stop_loss_price_new st m id stop_loss price_point)
  | DeferClosePosition id slippage_assert =>
      discard (helper_close_position m id (check slippage_assert) price_point)
  | DeferSetTriggerOrder id stop_loss take_profit =>
      _ <- liquifunded id None None;
      discard (trigger_order_new st m id stop_loss take_profit price_point)
  | DeferPlaceLimitOrder trigger_price leverage direction max_gains stop_loss take_profit amount
      crank_fee crank_fee_usd =>
      take_profit_price <- requested_take_profit st take_profit max_gains amount direction leverage
                             price_point;
      discard (place_limit_order_new st m (de_owner item) trigger_price amount leverage
        (direction_into_notional direction (market_type st)) stop_loss take_profit_price crank_fee
        crank_fee_usd price_point)
  | DeferCancelLimitOrder order_id => discard (cancel_limit_order_new m order_id)
  end.

Definition load_deferred_exec_item (m : MarketCtx) (id : DeferredExecId) :
    res DeferredExecWithStatus :=
  of_option (AnyhowError "Could not load deferred exec item") (load_deferred m id).

Definition deferred_validate (m : MarketCtx) (id : DeferredExecId) (price_point : PricePoint)
    (slippage_check : bool) : res unit :=
  item <- load_deferred_exec_item m id;
  helper_validate m item price_point slippage_check.

Definition mark_deferred_exec_success (item : DeferredExecWithStatus)
    (target : DeferredExecCompleteTarget) : mhandler unit :=
  save_deferred (set_de_status (DeferSuccess target (st_now st)) item) (de_id item).

(** [perform_deferred_exec]: the handler of the submessage. *)
Definition perform_deferred_exec (id : DeferredExecId) (price_point_timestamp : Timestamp) :
    mhandler unit :=
  price_point <~ hask (fun m => spot_price_at st m price_point_timestamp);
  item <~ hask (fun m => load_deferred_exec_item m id);
  target <~ helper_execute item price_point;
  mark_deferred_exec_success item target.

(** ** Queueing *)

(** Record the crank fee on a position, without saving it. *)
Definition position_with_crank_fee (m : MarketCtx) (id : PositionId) (fee : Collateral)
    (price : PricePoint) : res Position :=
  pos <- get_position m id;
  crank <- cu_checked_add_assign (pos_crank_fee pos) fee price;
  deposit <- scu_checked_add_assign (deposit_collateral pos) (into_signed fee) price;
  Ok (set_deposit_collateral deposit (set_pos_crank_fee crank pos)).

(** The crank fee of a queued item, with a surcharge for a long queue. *)
Definition deferred_crank_fee (size : Z) : res Usd :=
  n <- panics "from_ratio" (dec_from_ratio (size / 10) 1);
  crank_fee_surcharge <- checked_mul_dec (crank_fee_surcharge (st_config st)) n;
  ud_checked_add (crank_fee_charged (st_config st)) crank_fee_surcharge.

(** An item whose crank fee the trader pays with attached funds; what is left
    of them becomes rewards of the trader. *)
Definition charge_attached (trader : Addr) (id : PositionId) (fee : Collateral) (fee_usd : Usd)
    (funds_attached : res Collateral) (price : PricePoint) : mhandler unit :=
  funds <~ hlift (if ud_is_zero fee then Ok 0 else funds_attached);
  funds_after_crank <~ hlift (ud_checked_sub funds fee);
  cap_crank_fee_apply st (cap_crank_fee_new fee fee_usd (TradePosition id));;;
  match nonzero_new funds_after_crank with
  | Some funds_after_crank => return_funds_to_user st trader funds_after_crank price
  | None => hret tt
  end;;;
  pos <~ hask (fun m => position_with_crank_fee m id fee price);
  position_save_no_recalc pos.

(** An item whose crank fee is taken from the collateral it adds. *)
Definition charge_added (id : PositionId) (amount fee : Collateral) (fee_usd : Usd)
    (price : PricePoint) : mhandler Collateral :=
  amount <~ hlift (nonzero_checked_sub amount fee);
  pos <~ hask (fun m => position_with_crank_fee m id fee price);
  cap_crank_fee_apply st (cap_crank_fee_new fee fee_usd (TradePosition id));;;
  position_save_no_recalc pos;;;
  hret amount.

(** Charge an item for the crank and return it as it is queued. *)
Definition charge_deferred_item (trader : Addr) (new_id : DeferredExecId) (item : DeferredExecItem)
    (funds_attached : res Collateral) (fee : Collateral) (fee_usd : Usd) (price : PricePoint) :
    mhandler DeferredExecItem :=
  let attached id := charge_attached trader id fee fee_usd funds_attached price;;; hret item in
  match item with
  | DeferOpenPosition sa leverage direction max_gains stop_loss take_profit amount _ _ =>
      amount <~ hlift (nonzero_checked_sub amount fee);
      cap_crank_fee_apply st (cap_crank_fee_new fee fee_usd (TradeDeferred new_id));;;
      hret (DeferOpenPosition sa leverage direction max_gains stop_loss take_profit amount fee
              fee_usd)
  | DeferPlaceLimitOrder trigger leverage direction max_gains stop_loss take_profit amount _ _ =>
      amount <~ hlift (nonzero_checked_sub amount fee);
      cap_crank_fee_apply st (cap_crank_fee_new fee fee_usd (TradeDeferred new_id));;;
      hret (DeferPlaceLimitOrder trigger leverage direction max_gains stop_loss take_profit amount
              fee fee_usd)
  | DeferAddCollateralImpactLeverage id amount =>
      amount <~ charge_added id amount fee fee_usd price;
      hret (DeferAddCollateralImpactLeverage id amount)
  | DeferAddCollateralImpactSize id sa amount =>
      amount <~ charge_added id amount fee fee_usd price;
      hret (DeferAddCollateralImpactSize id sa amount)
  | DeferRemoveCollateralImpactLeverage id _ => attached id
  | DeferRemoveCollateralImpactSize id _ _ => attached id
  | DeferUpdateLeverage id _ _ => attached id
  | DeferUpdateMaxGains id _ => attached id
  | DeferUpdateTakeProfitPrice id _ => attached id
  | DeferUpdateStopLossPrice id _ => attached id
  | DeferSetTriggerOrder id _ _ => attached id
  | DeferClosePosition id (Some _) => attached id
  | DeferClosePosition id None =>
      hensure (negb (is_ok funds_attached))
        (AnyhowError "No funds should be attached for close position");;;
      closing <~ hget (fun m => IS_POSITION_CLOSING (m_deferred m));
      hensure (negb (is_some (closing !! id))) (into_anyhow (PositionAlreadyClosing id));;;
      mod_deferred (set_IS_POSITION_CLOSING (<[id := tt]> closing));;;
      hret item
  | DeferCancelLimitOrder order_id =>
      hensure (negb (is_ok funds_attached))
        (AnyhowError "No funds should be attached for cancel limit order");;;
      canceling <~ hget (fun m => IS_LIMIT_ORDER_CANCELING (m_deferred m));
      hensure (negb (is_some (canceling !! order_id)))
        (into_anyhow (LimitOrderAlreadyCanceling order_id));;;
      mod_deferred (set_IS_LIMIT_ORDER_CANCELING (<[order_id := tt]> canceling));;;
      hret item
  end.

(** [defer_execution]. *)
Definition defer_execution (trader : Addr) (item : DeferredExecItem)
    (funds_attached : res Collateral) : mhandler unit :=
  '(new_id, new_latest_ids, size) <~ hask issue_deferred_id;
  mod_deferred (set_DEFERRED_EXEC_LATEST_IDS (Some new_latest_ids));;;
  mod_deferred (fun s => set_DEFERRED_EXECS_BY_WALLET
    (<[(trader, new_id) := tt]> (DEFERRED_EXECS_BY_WALLET s)) s);;;
  fee_usd <~ hlift (deferred_crank_fee size);
  current_price <~ hask (current_spot_price st);
  fee <~ hlift (usd_to_collateral current_price fee_usd);
  let target := defer_target item in
  item <~ charge_deferred_item trader new_id item funds_attached fee fee_usd current_price;
  match target with
  | TargetDoesNotExist => hret tt
  | TargetPosition pos_id => hask (fun m => position_assert_owner m pos_id trader)
  | TargetOrder order_id => hask (fun m => limit_order_assert_owner m trader order_id)
  end;;;
  save_deferred (mkDeferredExecWithStatus new_id (st_now st) DeferPending trader item) new_id;;;
  match target with
  | TargetDoesNotExist => hret tt
  | TargetPosition pos_id => mod_deferred (fun s => set_PENDING_DEFERRED_FOR_POSITION
      (<[(pos_id, new_id) := tt]> (PENDING_DEFERRED_FOR_POSITION s)) s)
  | TargetOrder order_id => mod_deferred (fun s => set_PENDING_DEFERRED_FOR_ORDER
      (<[(order_id, new_id) := tt]> (PENDING_DEFERRED_FOR_ORDER s)) s)
  end;;;
  price_point <~ hask (current_spot_price st);
  hask (fun m => deferred_validate m new_id price_point false);;;
  add_event st (EvDeferredExecQueued new_id target trader).

(** ** Processing and replying *)

(** [process_deferred_exec]: hand the item to a submessage and advance the
    queue. *)
Definition process_deferred_exec (id : DeferredExecId) (price_point : PricePoint) : mhandler unit :=
  add_message (PerformDeferredExec id (pp_timestamp price_point));;;
  ids <~ hask (fun m => panics "Logic error: process_deferred_exec had no DEFERRED_EXEC_LATEST_IDS"
                          (DEFERRED_EXEC_LATEST_IDS (m_deferred m)));
  mod_deferred (set_DEFERRED_EXEC_LATEST_IDS (Some (mkDeferredExecLatestIds (issued ids) (Some id))));;;
  item <~ hask (fun m => std (load_deferred m id));
  match de_item item with
  | DeferClosePosition pos_id None => mod_deferred (fun s =>
      set_IS_POSITION_CLOSING (delete pos_id (IS_POSITION_CLOSING s)) s)
  | _ => hret tt
  end.

(** The target of a finished item is no longer pending. *)
Definition clear_pending (id : DeferredExecId) (target : DeferredExecTarget) : mhandler unit :=
  match target with
  | TargetDoesNotExist => hret tt
  | TargetPosition pos_id =>
      pending <~ hget (fun m => PENDING_DEFERRED_FOR_POSITION (m_deferred m));
      hensure (is_some (pending !! (pos_id, id))) (AnyhowError "Condition failed");;;
      mod_deferred (set_PENDING_DEFERRED_FOR_POSITION (delete (pos_id, id) pending))
  | TargetOrder order_id =>
      pending <~ hget (fun m => PENDING_DEFERRED_FOR_ORDER (m_deferred m));
      hensure (is_some (pending !! (order_id, id))) (AnyhowError "Condition failed");;;
      mod_deferred (set_PENDING_DEFERRED_FOR_ORDER (delete (order_id, id) pending))
  end.

(** The validation error that replaces the redacted error of the submessage. *)
Definition failure_reason (m : MarketCtx) (id : DeferredExecId) (price_point : option PricePoint) :
    res (option error) :=
  match price_point with
  | None => Ok None
  | Some price_point =>
      r <- catch (deferred_validate m id price_point true);
      Ok (match r with inl _ => None | inr e => Some e end)
  end.

(** [handle_deferred_exec_reply]. *)
Definition handle_deferred_exec_reply (id : DeferredExecId) (r : SubMsgResult) : mhandler unit :=
  item <~ hask (fun m => panics "handle_deferred_exec_reply: ID not found" (load_deferred m id));
  '(item, success) <~
    match r with
    | SubMsgOk =>
        match de_status item with
        | DeferSuccess _ _ => hret (item, true)
        | DeferPending =>
            herr (AnyhowError "handle_deferred_exec_reply: success reply but still Pending")
        | DeferFailure _ _ _ =>
            herr (AnyhowError "handle_deferred_exec_reply: success reply but see a Failure")
        end
    | SubMsgErr =>
        price_point <~ hget (next_crank_timestamp st);
        reason <~ hask (fun m => failure_reason m id price_point);
        hensure (is_pending (de_status item)) (AnyhowError "Item should still be pending");;;
        match nonzero_new (deposited_amount (de_item item)) with
        | Some amount => add_token_transfer_msg (de_owner item) amount
        | None => hret tt
        end;;;
        hret (set_de_status (DeferFailure reason (st_now st) price_point) item, false)
    end;
  save_deferred item id;;;
  let target := defer_target (de_item item) in
  clear_pending id target;;;
  add_event st (EvDeferredExecExecuted id target (de_owner item) success).

End Definitions.
