(* ===== verification/Crank.v ===== *)
(** * The crank

    [contracts/market/src/state/{crank,shutdown}.rs] and [reply] of
    [contract.rs]: the work to do for the next price point, in the order the
    market does it, and the batches that do it. *)

From stdpp Require Import base option gmap strings list pretty.
From Stdlib Require Import ZArith Lia.
From S2P Require Import Prelude Index Storage Cosmwasm Types Number Time Market Price Token DataSeries Config Position Trading State Pool LpHistory Liquidity Fees LiquiditySystem Funding FundingInv DeltaNeutrality DeltaNeutralityInv OpenInterest PositionStore SpotPrice TradeHistory PositionToken ClosePosition OpenPosition UpdatePosition Orders Deferred.
Local Open Scope Z_scope.

Definition REGULAR_WEIGHT : Z := 5.
Definition COMPLETED_WEIGHT : Z := 1.

(** [u32] arithmetic of the release profile. *)
Definition u32_checked (z : Z) : res Z :=
  panics "arithmetic overflow" (fits (fun z => (0 <=? z) && (z <=? 2 ^ 32 - 1)) z).

Definition crank_init : mhandler unit := mod_crank (set_LAST_CRANK_COMPLETED (Some 0)).

(** [.map_err(|e| anyhow!(..))]: a new error with the text of the old one. *)
Definition with_context {A} (msg : string) (h : mhandler A) : mhandler A := fun m =>
  match h m with
  | Ok r => Ok r
  | Err (Panic msg) => Err (Panic msg)
  | Err _ => Err (AnyhowError msg)
  end.

(** ** shutdown.rs *)

Definition set_close_all_positions : mhandler unit :=
  closing <~ hget (fun m => CLOSE_ALL_POSITIONS (m_crank m));
  hensure (negb (is_some closing)) (AnyhowError "Already closing all positions");;;
  mod_crank (set_CLOSE_ALL_POSITIONS (Some tt)).

Definition get_close_all_positions (m : MarketCtx) : bool := is_some (CLOSE_ALL_POSITIONS (m_crank m)).

(** ** The next piece of work *)

Definition get_close_all_positions_work (m : MarketCtx) : option PositionId :=
  if get_close_all_positions m
  then fst <$> entry_min (fun _ => true) (OPEN_POSITIONS (m_positions m))
  else None.

(** A position whose next liquifunding has come. *)
Definition liquifunding_due (m : MarketCtx) (now : Timestamp) : option PositionId :=
  match entry_min (fun k => k.1 <=? now) (NEXT_LIQUIFUNDING (m_positions m)) with
  | Some ((_, position), _) => Some position
  | None => None
  end.

Section Definitions.
Context {CW : CosmwasmStd}.

Definition crank_work (m : MarketCtx) (price_point : PricePoint) : res CrankWorkInfo :=
  if should_reset_lp_balances m then Ok WorkResetLpBalances
  else
    match liquifunding_due m (pp_timestamp price_point) with
    | Some position => Ok (WorkLiquifunding position)
    | None =>
        match get_close_all_positions_work m with
        | Some position => Ok (WorkCloseAllPositions position)
        | None =>
            match liquidatable_position m (price_notional price_point) with
            | Some pos => Ok (WorkLiquidation (liq_id pos) (liq_reason pos))
            | None =>
                deferred <- next_crankable_deferred_exec_id m (pp_timestamp price_point);
                match deferred with
                | Some (id, target) => Ok (WorkDeferredExec id target)
                | None =>
                    match limit_order_triggered_order m (price_notional price_point) with
                    | Some order_id => Ok (WorkLimitOrder order_id)
                    | None => Ok WorkCompleted
                    end
                end
            end
        end
    end.

Context (st : State).

(** [price_would_trigger]. *)
Definition price_would_trigger (m : MarketCtx) (new_price : PriceBaseInQuote) : res bool :=
  oracle_price <-
    match spot_price (st_config st) with
    | SpotManual _ => p <- current_spot_price st m; Ok (price_notional p)
    | SpotOracle _ _ feeds feeds_usd _ =>
        o <- get_oracle_price st false;
        p <- compose_price o (oq_rujira_symbol (st_oracle st)) (market_type st) feeds feeds_usd
               (st_now st);
        Ok (ps_price p)
    end;
  new_price <- into_notional_price new_price (market_type st);
  Ok (newly_liquidatable_position m oracle_price new_price ||
      limit_order_newly_triggered_order m oracle_price new_price).

(** ** Doing it *)

(** A liquidation: liquifund up to the price point, then close. *)
Definition crank_liquidate (position : PositionId) (reason : LiquidationReason)
    (price_point : PricePoint) : mhandler unit :=
  pos <~ hask (fun m => get_position m position);
  l <~ hask (fun m => position_liquifund_new st m pos (liquifunded_at pos)
                        (pp_timestamp price_point) true);
  mcp <~ position_liquifund_apply st l;
  let instructions :=
    match mcp with
    | PosOpen pos =>
        mkClosePosition pos signed_zero 0 price_point (CloseLiquidated reason) false
    | PosClose x => x
    end in
  e <~ hask (fun m => close_position_new st m instructions None);
  close_position_apply st e.

(** [crank_exec]; [true] when the batch continues in the reply of a
    submessage. *)
Definition crank_exec (work_info : CrankWorkInfo) (price_point : PricePoint) : mhandler bool :=
  add_event st (EvCrankWorkInfo work_info price_point);;;
  match work_info with
  | WorkResetLpBalances => crank_reset_lp_balances;;; hret false
  | WorkLiquifunding position =>
      pos <~ hask (fun m => get_position m position);
      position_liquifund_store st pos (liquifunded_at pos) (next_liquifunding pos) true SaveCrank;;;
      hret false
  | WorkCloseAllPositions position =>
      pos <~ hask (fun m => get_position m position);
      e <~ hask (fun m => close_position_new_via_msg st m pos price_point);
      close_position_apply st e;;;
      hret false
  | WorkLiquidation position liquidation_reason =>
      crank_liquidate position liquidation_reason price_point;;;
      hret false
  | WorkDeferredExec deferred_exec_id _ =>
      process_deferred_exec deferred_exec_id price_point;;;
      hret true
  | WorkLimitOrder order_id =>
      limit_order_execute_order st order_id price_point;;;
      hret false
  | WorkCompleted =>
      with_context "accumulate_borrow_fee_rate failed" (accumulate_borrow_fee_rate st price_point);;;
      accumulate_funding_rate st price_point;;;
      mod_crank (set_LAST_CRANK_COMPLETED (Some (pp_timestamp price_point)));;;
      hret false
  end.

Definition work_weight (w : CrankWorkInfo) : Z :=
  match w with WorkCompleted => COMPLETED_WEIGHT | _ => REGULAR_WEIGHT end.

(** The progress after a piece of work is taken on. *)
Definition progress_with (p : CrankProgress) (weight_left : Z) (work : CrankWorkInfo)
    (price_point : PricePoint) : res CrankProgress :=
  paying <- (if receives_crank_rewards work then u32_checked (paying_work_done p + 1)
             else Ok (paying_work_done p));
  Ok (mkCrankProgress weight_left paying (crank_requested p) (crank_rewards_addr p)
        (crank_actual p ++ [(work, price_point)])).

(** The loop of [crank_exec_batch]; [None] when it continues in a reply.  The
    fuel is the number of iterations, one of which takes at least one from the
    budget. *)
Fixpoint crank_loop (fuel : nat) (p : CrankProgress) : mhandler (option CrankProgress) :=
  match fuel with
  | O => herr (AnyhowError "out of fuel")
  | S fuel =>
      next <~ hget (next_crank_timestamp st);
      match next with
      | None => hret (Some p)
      | Some price_point =>
          work_info <~ hask (fun m => crank_work m price_point);
          let item_weight := work_weight work_info in
          if weight_budget_left p <? item_weight
          then
            mod_crank (set_CRANK_BATCH_WEIGHT_LEFT None);;;
            hret (Some p)
          else
            p <~ hlift (progress_with p (weight_budget_left p - item_weight) work_info price_point);
            more <~ crank_exec work_info price_point;
            if (more : bool)
            then mod_crank (set_CRANK_BATCH_WEIGHT_LEFT (Some p));;; hret None
            else crank_loop fuel p
      end
  end.

(** [crank_exec_batch]. *)
Definition crank_exec_batch (start_n_execs_and_rewards : option (Z * Addr)) : mhandler unit :=
  p <~ match start_n_execs_and_rewards with
       | Some (start_n_execs, rewards) =>
           weight <~ hlift (u32_checked (start_n_execs * REGULAR_WEIGHT));
           hret (mkCrankProgress weight 0 start_n_execs rewards [])
       | None => hask (fun m => std (CRANK_BATCH_WEIGHT_LEFT (m_crank m)))
       end;
  outcome <~ crank_loop (S (Z.to_nat (weight_budget_left p))) p;
  match outcome with
  | None => hret tt
  | Some p =>
      allocate_crank_fees st (crank_rewards_addr p) (paying_work_done p);;;
      add_event st (EvCrankExecBatch (crank_requested p) (paying_work_done p) (crank_actual p))
  end.

(** [reply] (contract.rs). *)
Definition market_reply (id : DeferredExecId) (r : SubMsgResult) : mhandler unit :=
  handle_deferred_exec_reply st id r;;;
  crank_exec_batch None.

End Definitions.
