(* ===== verification/Entry.v ===== *)
(** * The entry points of the market contract

    [contracts/market/src/contract.rs] with [contract/perps_info.rs],
    [state/shutdown.rs], [packages/perpswap/src/{shutdown,auth}.rs]: the funds
    a message brings in, the checks every message passes, the dispatch to the
    components, and the response.  [from_json], which parses the message
    inside a CW20 [Receive], is a parameter.

    What is stored besides the [MarketCtx], the configuration, the market id
    and the token, reaches a message in its [State]; [execute] and [sudo]
    return the configuration they leave. *)

From stdpp Require Import base option gmap strings list pretty.
From Stdlib Require Import ZArith Lia.
From S2P Require Import Prelude Index Storage Cosmwasm Types Number Time Market Price Token DataSeries Config Position Trading State Pool LpHistory Liquidity LpToken Fees LiquiditySystem Funding DeltaNeutrality OpenInterest PositionStore SpotPrice TradeHistory PositionToken ClosePosition OpenPosition UpdatePosition Orders Deferred Crank.
Local Open Scope Z_scope.

(** ** Messages *)

Inductive ExecuteOwnerMsg := OwnerConfigUpdate (update : ConfigUpdate).

Inductive ExecuteMsg :=
| Owner (msg : ExecuteOwnerMsg)
| Receive (sender : RawAddr) (amount : Z) (msg : Binary)
| OpenPositionMsg (slippage_assert : option SlippageAssertion) (leverage : LeverageToBase)
    (direction : DirectionToBase) (stop_loss_override : option PriceBaseInQuote)
    (take_profit : TakeProfitTrader)
| UpdatePositionAddCollateralImpactLeverage (id : PositionId)
| UpdatePositionAddCollateralImpactSize (id : PositionId)
    (slippage_assert : option SlippageAssertion)
| UpdatePositionRemoveCollateralImpactLeverage (id : PositionId) (amount : Collateral)
| UpdatePositionRemoveCollateralImpactSize (id : PositionId) (amount : Collateral)
    (slippage_assert : option SlippageAssertion)
| UpdatePositionLeverage (id : PositionId) (leverage : LeverageToBase)
    (slippage_assert : option SlippageAssertion)
| UpdatePositionMaxGains (id : PositionId) (max_gains : MaxGainsInQuote)
| UpdatePositionTakeProfitPrice (id : PositionId) (price : TakeProfitTrader)
| UpdatePositionStopLossPrice (id : PositionId) (stop_loss : StopLoss)
| SetTriggerOrder (id : PositionId) (stop_loss_override : option PriceBaseInQuote)
    (take_profit : option TakeProfitTrader)
| PlaceLimitOrderMsg (trigger_price : PriceBaseInQuote) (leverage : LeverageToBase)
    (direction : DirectionToBase) (stop_loss_override : option PriceBaseInQuote)
    (take_profit : TakeProfitTrader)
| CancelLimitOrderMsg (order_id : OrderId)
| ClosePositionMsg (id : PositionId) (slippage_assert : option SlippageAssertion)
| DepositLiquidity (stake_to_xlp : bool)
| ReinvestYield (stake_to_xlp : bool) (amount : option Collateral)
| WithdrawLiquidity (lp_amount : option LpToken) (claim_yield : bool)
| ClaimYield
| StakeLp (amount : option LpToken)
| UnstakeXlp (amount : option LpToken)
| StopUnstakingXlp
| CollectUnstakedLp
| CrankMsg (execs : option Z) (rewards : option RawAddr)
| NftProxy (sender : RawAddr) (msg : NftExecuteMsg)
| LiquidityTokenProxy (sender : RawAddr) (kind : LiquidityTokenKind) (msg : LpTokenMsg)
| TransferDaoFees
| CloseAllPositions
| ProvideCrankFunds
| SetManualPrice (price : PriceBaseInQuote) (price_usd : PriceCollateralInUsd)
| PerformDeferredExecMsg (id : DeferredExecId) (price_point_timestamp : Timestamp).

Definition execute_kind (msg : ExecuteMsg) : ExecuteKind :=
  match msg with
  | Owner _ => ExOwner
  | Receive _ _ _ => ExReceive
  | OpenPositionMsg _ _ _ _ _ => ExOpenPosition
  | UpdatePositionAddCollateralImpactLeverage _ => ExAddCollateralImpactLeverage
  | UpdatePositionAddCollateralImpactSize _ _ => ExAddCollateralImpactSize
  | UpdatePositionRemoveCollateralImpactLeverage _ _ => ExRemoveCollateralImpactLeverage
  | UpdatePositionRemoveCollateralImpactSize _ _ _ => ExRemoveCollateralImpactSize
  | UpdatePositionLeverage _ _ _ => ExUpdateLeverage
  | UpdatePositionMaxGains _ _ => ExUpdateMaxGains
  | UpdatePositionTakeProfitPrice _ _ => ExUpdateTakeProfitPrice
  | UpdatePositionStopLossPrice _ _ => ExUpdateStopLossPrice
  | SetTriggerOrder _ _ _ => ExSetTriggerOrder
  | PlaceLimitOrderMsg _ _ _ _ _ => ExPlaceLimitOrder
  | CancelLimitOrderMsg _ => ExCancelLimitOrder
  | ClosePositionMsg _ _ => ExClosePosition
  | DepositLiquidity _ => ExDepositLiquidity
  | ReinvestYield _ _ => ExReinvestYield
  | WithdrawLiquidity _ _ => ExWithdrawLiquidity
  | ClaimYield => ExClaimYield
  | StakeLp _ => ExStakeLp
  | UnstakeXlp _ => ExUnstakeXlp
  | StopUnstakingXlp => ExStopUnstakingXlp
  | CollectUnstakedLp => ExCollectUnstakedLp
  | CrankMsg _ _ => ExCrank
  | NftProxy _ _ => ExNftProxy
  | LiquidityTokenProxy _ _ _ => ExLiquidityTokenProxy
  | TransferDaoFees => ExTransferDaoFees
  | CloseAllPositions => ExCloseAllPositions
  | ProvideCrankFunds => ExProvideCrankFunds
  | SetManualPrice _ _ => ExSetManualPrice
  | PerformDeferredExecMsg _ _ => ExPerformDeferredExec
  end.

Inductive SudoMsg := SudoConfigUpdate (update : ConfigUpdate).

(** [InitialPrice] and [InstantiateMsg]. *)
Record InitialPrice := mkInitialPrice {
  ip_price : PriceBaseInQuote; ip_price_usd : PriceCollateralInUsd }.
Record InstantiateMsg := mkInstantiateMsg {
  inst_factory : RawAddr;
  inst_config : option ConfigUpdate;
  inst_spot_price : SpotPriceConfig;
  inst_initial_price : option InitialPrice;
  inst_market_id : MarketId;
  inst_token : TokenInit;
  inst_initial_borrow_fee_rate : Decimal256;
}.

(** [cosmwasm_std::MessageInfo]: the sender and the native coins. *)
Record MessageInfo := mkMessageInfo { info_sender : Addr; info_funds : list (string * Z) }.

(** [PerpsMessageInfo], with the amount of [CollateralSent]. *)
Record PerpsMessageInfo := mkPerpsMessageInfo {
  pmi_funds : option Collateral;
  pmi_msg : ExecuteMsg;
  pmi_sender : Addr;
}.

(** [NftExecuteMsg::get_position_id]. *)
Definition nft_get_position_id (msg : NftExecuteMsg) : res (option PositionId) :=
  match msg with
  | NftTransferNft _ token_id | NftSendNft _ token_id _
  | NftApprove _ token_id _ | NftRevoke _ token_id =>
      id <- position_id_parse token_id; Ok (Some id)
  | NftApproveAll _ _ | NftRevokeAll _ => Ok None
  end.

(** ** Shutdown and authorisation *)

(** [ShutdownImpact::for_market_execute_msg]. *)
Definition for_market_execute_msg (msg : ExecuteMsg) : option ShutdownImpact :=
  match msg with
  | Owner _ => Some OwnerActions
  | Receive _ _ _ => None
  | OpenPositionMsg _ _ _ _ _ => Some NewTrades
  | UpdatePositionAddCollateralImpactLeverage _ => Some NewTrades
  | UpdatePositionAddCollateralImpactSize _ _ => Some NewTrades
  | UpdatePositionRemoveCollateralImpactLeverage _ _ => Some NewTrades
  | UpdatePositionRemoveCollateralImpactSize _ _ _ => Some NewTrades
  | UpdatePositionLeverage _ _ _ => Some NewTrades
  | UpdatePositionMaxGains _ _ => Some NewTrades
  | UpdatePositionTakeProfitPrice _ _ => Some NewTrades
  | UpdatePositionStopLossPrice _ _ => Some NewTrades
  | SetTriggerOrder _ _ _ => Some NewTrades
  | ClosePositionMsg _ _ => Some ClosePositions
  | DepositLiquidity _ => Some ImpactDepositLiquidity
  | ReinvestYield _ _ => Some ImpactDepositLiquidity
  | WithdrawLiquidity _ _ => Some ImpactWithdrawLiquidity
  | ClaimYield => Some ImpactWithdrawLiquidity
  | StakeLp _ => Some Staking
  | UnstakeXlp _ => Some Unstaking
  | StopUnstakingXlp => Some Unstaking
  | CollectUnstakedLp => Some Unstaking
  | CrankMsg _ _ => Some ImpactCrank
  | NftProxy _ _ => Some TransferPositions
  | LiquidityTokenProxy _ _ _ => Some TransferLp
  | TransferDaoFees => Some ImpactTransferDaoFees
  | CloseAllPositions => None
  | PlaceLimitOrderMsg _ _ _ _ _ => Some NewTrades
  | CancelLimitOrderMsg _ => Some ClosePositions
  | ProvideCrankFunds => Some ImpactCrank
  | SetManualPrice _ _ => Some ImpactSetManualPrice
  | PerformDeferredExecMsg _ _ => None
  end.

Inductive AuthCheck := AuthOwner | AuthAddr (a : Addr) | AuthWindDown.

Section Definitions.
Context {CW : CosmwasmStd}.
(** [cosmwasm_std::from_json] at the market's messages. *)
Context (from_json : Binary -> res ExecuteMsg).
Context (st : State).

Definition ensure_not_shut_down (impact : ShutdownImpact) : res unit :=
  is_disabled <- fq_is_shut_down (st_factory st) impact;
  ensure (negb is_disabled) (AnyhowError "Cannot perform action, market shutdown in place").

Definition assert_auth (addr : Addr) (check : AuthCheck) : res unit :=
  success <- match check with
             | AuthOwner => owner_addr <- fq_owner (st_factory st);
                            Ok (String.eqb addr owner_addr)
             | AuthAddr role_addr => Ok (String.eqb addr role_addr)
             | AuthWindDown => wind_down_addr <- fq_wind_down (st_factory st);
                               Ok (String.eqb addr wind_down_addr)
             end;
  ensure success (perp_auth DomDefault).

(** ** The funds of a message ([perps_info.rs]) *)

Definition parse_perps_message_info (info : MessageInfo) (msg : ExecuteMsg) :
    res PerpsMessageInfo :=
  match msg with
  | Receive sender amount msg =>
      msg <- from_json msg;
      funds <- match st_token st with
               | TokenNative _ _ => Err (perp_market Cw20Funds)
               | TokenCw20 addr decimal_places =>
                   _ <- ensure (String.eqb addr (info_sender info)) (perp_market Cw20Funds);
                   n <- std (dec_from_atomics amount decimal_places);
                   of_option (AnyhowError "Cannot send 0 tokens into the contract") (nonzero_new n)
               end;
      _ <- ensure (is_empty (info_funds info)) (perp_market Cw20Funds);
      sender <- std (addr_validate sender);
      Ok (mkPerpsMessageInfo (Some funds) msg sender)
  | _ =>
      match info_funds info with
      | [] => Ok (mkPerpsMessageInfo None msg (info_sender info))
      | (coin_denom, coin_amount) :: funds =>
          _ <- ensure (is_empty funds) (perp_market NativeFunds);
          match st_token st with
          | TokenNative denom decimal_places =>
              _ <- ensure (String.eqb coin_denom denom) (perp_market NativeFunds);
              n <- std (dec_from_atomics coin_amount decimal_places);
              amount <- of_option (perp_market NativeFunds) (nonzero_new n);
              Ok (mkPerpsMessageInfo (Some amount) msg (info_sender info))
          | TokenCw20 _ _ => Err (perp_market NativeFunds)
          end
      end
  end.

(** [CollateralSent::take]; what it leaves is nothing. *)
Definition funds_take (funds : option Collateral) : res Collateral :=
  of_option (perp_market MissingFunds) funds.
Definition funds_ensure_empty (funds : option Collateral) : res unit :=
  ensure (negb (is_some funds)) (perp_market UnnecessaryFunds).

(** ** [execute] *)

(** A request a trader makes, as the message carries it: the item, with the
    funds it takes in, and what [defer_execution] is told of attached funds. *)
Definition deferred_request (funds : option Collateral) (msg : ExecuteMsg) :
    option (res (DeferredExecItem * res Collateral)) :=
  let unused := Err (AnyhowError "This value should never be evaluated") in
  let validated amount item := _ <- validate_collateral (st_token st) amount; Ok (item, funds_take funds) in
  match msg with
  | OpenPositionMsg slippage_assert leverage direction stop_loss_override take_profit =>
      Some (amount <- funds_take funds;
            Ok (DeferOpenPosition slippage_assert leverage direction None stop_loss_override
                  (Some take_profit) amount 0 0, unused))
  | UpdatePositionAddCollateralImpactLeverage id =>
      Some (amount <- funds_take funds; Ok (DeferAddCollateralImpactLeverage id amount, unused))
  | UpdatePositionRemoveCollateralImpactLeverage id amount =>
      Some (validated amount (DeferRemoveCollateralImpactLeverage id amount))
  | UpdatePositionAddCollateralImpactSize id slippage_assert =>
      Some (amount <- funds_take funds;
            Ok (DeferAddCollateralImpactSize id slippage_assert amount, unused))
  | UpdatePositionRemoveCollateralImpactSize id amount slippage_assert =>
      Some (validated amount (DeferRemoveCollateralImpactSize id amount slippage_assert))
  | UpdatePositionLeverage id leverage slippage_assert =>
      Some (Ok (DeferUpdateLeverage id leverage slippage_assert, funds_take funds))
  | UpdatePositionMaxGains id max_gains => Some (Ok (DeferUpdateMaxGains id max_gains, funds_take funds))
  | UpdatePositionTakeProfitPrice id price =>
      Some (Ok (DeferUpdateTakeProfitPrice id price, funds_take funds))
  | UpdatePositionStopLossPrice id stop_loss =>
      Some (Ok (DeferUpdateStopLossPrice id stop_loss, funds_take funds))
  | SetTriggerOrder id stop_loss_override take_profit =>
      Some (Ok (DeferSetTriggerOrder id stop_loss_override take_profit, funds_take funds))
  | PlaceLimitOrderMsg trigger_price leverage direction stop_loss_override take_profit =>
      Some (amount <- funds_take funds;
            Ok (DeferPlaceLimitOrder trigger_price leverage direction None stop_loss_override
                  (Some take_profit) amount 0 0, unused))
  | CancelLimitOrderMsg order_id => Some (Ok (DeferCancelLimitOrder order_id, funds_take funds))
  | ClosePositionMsg id slippage_assert =>
      Some (Ok (DeferClosePosition id slippage_assert, funds_take funds))
  | _ => None
  end.

(** The provider messages, as LiquiditySystem.v runs them. *)
Definition provider_request (funds : option Collateral) (msg : ExecuteMsg) :
    option (res LiquidityMsg) :=
  match msg with
  | DepositLiquidity stake => Some (f <- funds_take funds; Ok (MsgDepositLiquidity f stake))
  | ReinvestYield stake amount => Some (Ok (MsgReinvestYield stake amount))
  | WithdrawLiquidity lp_amount claim_yield => Some (Ok (MsgWithdrawLiquidity lp_amount claim_yield))
  | ClaimYield => Some (Ok MsgClaimYield)
  | StakeLp amount => Some (Ok (MsgStakeLp amount))
  | UnstakeXlp amount => Some (Ok (MsgUnstakeXlp amount))
  | StopUnstakingXlp => Some (Ok MsgStopUnstakingXlp)
  | CollectUnstakedLp => Some (Ok MsgCollectUnstakedLp)
  | TransferDaoFees => Some (Ok MsgTransferDaoFees)
  | ProvideCrankFunds => Some (f <- funds_take funds; Ok (MsgProvideCrankFunds f))
  | _ => None
  end.

(** Does the handler take the funds?  [take] is called whether or not
    [defer_execution] looks at its result. *)
Definition takes_funds (msg : ExecuteMsg) : bool :=
  match msg with
  | DepositLiquidity _ | ProvideCrankFunds => true
  | _ => is_some (deferred_request None msg)
  end.

(** The other messages. *)
Definition execute_other (sender : Addr) (msg : ExecuteMsg) : mhandler Config :=
  let config := st_config st in
  match msg with
  | Owner (OwnerConfigUpdate update) =>
      hlift (assert_auth sender AuthOwner);;;
      hlift (update_config config update)
  | SetManualPrice price price_usd =>
      match spot_price config with
      | SpotManual admin => hlift (assert_auth sender (AuthAddr admin))
      | SpotOracle _ _ _ _ _ =>
          herr (AnyhowError "Cannot set manual spot price on this market, it uses an oracle")
      end;;;
      save_manual_spot_price st price price_usd;;;
      spot_price_append st;;;
      hret config
  | Receive _ _ _ => herr (AnyhowError "Cannot nest a Receive inside another Receive")
  | CrankMsg execs rewards =>
      rewards <~ hlift (match rewards with
                        | None => Ok sender
                        | Some rewards => std (addr_validate rewards)
                        end);
      spot_price_append st;;;
      crank_exec_batch st (Some (default (crank_execs config) execs, rewards));;;
      hret config
  | NftProxy nft_sender msg =>
      position_token_addr <~ hlift (fq_position_token (st_factory st));
      hlift (assert_auth sender (AuthAddr position_token_addr));;;
      pos_id <~ hlift (nft_get_position_id msg);
      (match pos_id with
       | Some pos_id => hask (fun m => assert_no_pending_deferred m pos_id)
       | None => hret tt
       end);;;
      nft_sender <~ hlift (std (addr_validate nft_sender));
      nft_handle_exec st nft_sender msg;;;
      hret config
  | LiquidityTokenProxy token_sender kind msg =>
      liquidity_token_addr <~ hlift (fq_liquidity_token (st_factory st) kind);
      hlift (assert_auth sender (AuthAddr liquidity_token_addr));;;
      token_sender <~ hlift (std (addr_validate token_sender));
      liquidity_token_handle_exec st token_sender kind msg;;;
      hret config
  | CloseAllPositions =>
      hlift (assert_auth sender AuthWindDown);;;
      set_close_all_positions;;;
      hret config
  | PerformDeferredExecMsg id price_point_timestamp =>
      hlift (assert_auth sender (AuthAddr (st_contract st)));;;
      perform_deferred_exec st id price_point_timestamp;;;
      hret config
  | _ => hret config
  end.

(** The [match] of [execute]. *)
Definition execute_dispatch (sender : Addr) (funds : option Collateral) (msg : ExecuteMsg) :
    mhandler Config :=
  match deferred_request funds msg with
  | Some request =>
      '(item, funds_attached) <~ hlift request;
      defer_execution st sender item funds_attached;;;
      hret (st_config st)
  | None =>
      match provider_request funds msg with
      | Some request =>
          msg <~ hlift request;
          liquidity_dispatch st sender msg;;;
          hret (st_config st)
      | None => execute_other sender msg
      end
  end.

Definition execute_handler (info : MessageInfo) (msg : ExecuteMsg) : mhandler Config :=
  info <~ hlift (parse_perps_message_info info msg);
  (match for_market_execute_msg (pmi_msg info) with
   | Some impact => hlift (ensure_not_shut_down impact)
   | None => hret tt
   end);;;
  ensure_not_resetting_lps (execute_kind (pmi_msg info));;;
  config <~ execute_dispatch (pmi_sender info) (pmi_funds info) (pmi_msg info);
  hlift (funds_ensure_empty (if takes_funds (pmi_msg info) then None else pmi_funds info));;;
  hret config.

(** ** The response *)

Inductive ResponseMsg := RespSub (msg : SubMessage) | RespPay (msg : CosmosMsg).

(** [StateContext::into_response]: the submessages, then the payments. *)
Definition market_response (m : MarketCtx) : res (list ResponseMsg) :=
  pays <- into_response (st_token st) (fund_transfers m);
  Ok (map RespSub (m_messages m) ++ map RespPay pays).

(** [StateContext::new]: the storage with an empty response. *)
Definition new_ctx (m : MarketCtx) : MarketCtx :=
  set_m_messages [] (set_m_events [] (set_fund_transfers ∅ m)).

Definition entry_point {A} (h : mhandler A) (m : MarketCtx) :
    res (A * MarketCtx * list ResponseMsg) :=
  '(a, m') <- h (new_ctx m);
  msgs <- market_response m';
  Ok (a, m', msgs).

Definition execute (info : MessageInfo) (msg : ExecuteMsg) (m : MarketCtx) :
    res (Config * MarketCtx * list ResponseMsg) :=
  entry_point (execute_handler info msg) m.

Definition sudo (msg : SudoMsg) (m : MarketCtx) : res (Config * MarketCtx * list ResponseMsg) :=
  entry_point (match msg with
               | SudoConfigUpdate update => hlift (update_config (st_config st) update)
               end) m.

Definition reply (id : DeferredExecId) (r : SubMsgResult) (m : MarketCtx) :
    res (unit * MarketCtx * list ResponseMsg) := entry_point (market_reply st id r) m.

End Definitions.

(** ** [instantiate] *)

Section Instantiate.
Context {CW : CosmwasmStd}.
Context (st : State).

(** The initial price belongs to manual prices, and only to them. *)
Definition initial_price_check (spot : SpotPriceConfig) (p : option InitialPrice) : res unit :=
  match spot, p with
  | SpotManual _, Some _ => Ok tt
  | SpotManual _, None => Err (AnyhowError "Maual price config used, but no initial price set")
  | SpotOracle _ _ _ _ _, None => Ok tt
  | SpotOracle _ _ _ _ _, Some _ =>
      Err (AnyhowError "Cannot set initial price for oracle price updates")
  end.

(** The storage before anything is written: [crank_init], [positions_init] and
    the totals of the funding fees fill the items that are left here. *)
Definition empty_store : MarketCtx :=
  mkMarketCtx ∅ None 0 0 liquidity_store_init fees_init
    (mkFundingStore ∅ ∅ ∅ ∅ signed_zero 0) None
    (mkHistoryStore ∅ ∅ ∅) (mkPositionStore ∅ 0 ∅ ∅ ∅ ∅ ∅) (mkNftStore ∅ ∅ None ∅ ∅)
    (mkLpTokenStore ∅ ∅ ∅ ∅) (mkTradeStore ∅ ∅ ∅) (mkOrderStore None ∅ ∅ ∅ ∅ ∅)
    (mkDeferredStore None ∅ ∅ ∅ ∅ ∅ ∅) (mkCrankStore None None None) ∅ [] [].

(** The state the rest of the message runs with. *)
Definition with_stored (config : Config) (market_id : MarketId) (token : Token) : State :=
  mkState (st_now st) config market_id token (st_query_referrer st) (st_query_dao st)
    (st_height st) (st_contract st) (st_semi_random st) (st_now st) (st_oracle st) (st_factory st).

(** [query_decimals] is the answer of a CW20 contract to [TokenInfo]. *)
Definition instantiate (query_decimals : string -> res Z) (msg : InstantiateMsg) :
    res (Addr * State * MarketCtx * list ResponseMsg) :=
  _ <- initial_price_check (inst_spot_price msg) (inst_initial_price msg);
  factory <- std (addr_validate (inst_factory msg));
  config <- config_init (inst_config msg) (inst_spot_price msg);
  token <- token_init query_decimals (inst_token msg);
  let st' := with_stored config (inst_market_id msg) token in
  '(_, m, msgs) <- entry_point st'
    (crank_init;;;
     positions_init;;;
     initialize_borrow_fee_rate st' (inst_initial_borrow_fee_rate msg);;;
     initialize_funding_totals;;;
     match inst_initial_price msg with
     | Some p =>
         save_manual_spot_price st' (ip_price p) (ip_price_usd p);;;
         spot_price_append st'
     | None => hret tt
     end) empty_store;
  Ok (factory, st', m, msgs).

End Instantiate.
