(* ===== verification/BalanceSheet.v ===== *)
(** * What an operation leaves alone

    The balance sheet of the market: the part of its state its money and its
    indexes are made of.  An operation is [quiet] when it keeps it: events,
    messages, histories, the accounting of single liquidity providers. *)

From stdpp Require Import base option gmap strings list pretty.
From Stdlib Require Import ZArith Lia.
From S2P Require Import Prelude Index Storage Cosmwasm Types Number Time Market Price Token DataSeries Config Position Trading State Pool LpHistory Liquidity Fees Funding DeltaNeutrality OpenInterest PositionStore TradeHistory.
Local Open Scope Z_scope.

(** The fees the contract holds, whoever they are for. *)
Definition fees_total (f : Fees) : Collateral :=
  fees_wallets f + fees_protocol f + fees_crank f + fees_referral f.

Record Sheet := mkSheet {
  s_locked : Collateral;
  s_unlocked : Collateral;
  s_fees : Collateral;
  s_paid : Signed;
  s_margin : Collateral;
  s_dnf : Collateral;
  s_long : Notional;
  s_short : Notional;
  s_transfers : Collateral;
  s_positions : PositionStore;
  s_nft : NftStore;
  s_orders : OrderStore;
  s_deferred : DeferredStore;
  s_crank : CrankStore;
  s_prices : gmap Timestamp PriceStorage;
  s_manual : option PriceStorage;
}.

Definition sheet (m : MarketCtx) : Sheet :=
  {| s_locked := locked (liquidity_stats m);
     s_unlocked := unlocked (liquidity_stats m);
     s_fees := fees_total (ALL_FEES m);
     s_paid := TOTAL_NET_FUNDING_PAID (m_funding m);
     s_margin := TOTAL_FUNDING_MARGIN (m_funding m);
     s_dnf := default 0 (DELTA_NEUTRALITY_FUND m);
     s_long := open_long_interest m;
     s_short := open_short_interest m;
     s_transfers := map_sum id (fund_transfers m);
     s_positions := m_positions m;
     s_nft := m_nft m;
     s_orders := m_orders m;
     s_deferred := m_deferred m;
     s_crank := m_crank m;
     s_prices := PRICES m;
     s_manual := MANUAL_SPOT_PRICE m |}.

(** *** Field updates *)

Definition with_locked (v : Collateral) (s : Sheet) : Sheet :=
  mkSheet v (s_unlocked s) (s_fees s) (s_paid s) (s_margin s) (s_dnf s) (s_long s) (s_short s)
    (s_transfers s) (s_positions s) (s_nft s) (s_orders s) (s_deferred s) (s_crank s) (s_prices
    s) (s_manual s).
Definition with_unlocked (v : Collateral) (s : Sheet) : Sheet :=
  mkSheet (s_locked s) v (s_fees s) (s_paid s) (s_margin s) (s_dnf s) (s_long s) (s_short s)
    (s_transfers s) (s_positions s) (s_nft s) (s_orders s) (s_deferred s) (s_crank s) (s_prices
    s) (s_manual s).
Definition with_fees (v : Collateral) (s : Sheet) : Sheet :=
  mkSheet (s_locked s) (s_unlocked s) v (s_paid s) (s_margin s) (s_dnf s) (s_long s) (s_short s)
    (s_transfers s) (s_positions s) (s_nft s) (s_orders s) (s_deferred s) (s_crank s) (s_prices
    s) (s_manual s).
Definition with_paid (v : Signed) (s : Sheet) : Sheet :=
  mkSheet (s_locked s) (s_unlocked s) (s_fees s) v (s_margin s) (s_dnf s) (s_long s) (s_short s)
    (s_transfers s) (s_positions s) (s_nft s) (s_orders s) (s_deferred s) (s_crank s) (s_prices
    s) (s_manual s).
Definition with_margin (v : Collateral) (s : Sheet) : Sheet :=
  mkSheet (s_locked s) (s_unlocked s) (s_fees s) (s_paid s) v (s_dnf s) (s_long s) (s_short s)
    (s_transfers s) (s_positions s) (s_nft s) (s_orders s) (s_deferred s) (s_crank s) (s_prices
    s) (s_manual s).
Definition with_dnf (v : Collateral) (s : Sheet) : Sheet :=
  mkSheet (s_locked s) (s_unlocked s) (s_fees s) (s_paid s) (s_margin s) v (s_long s) (s_short
    s) (s_transfers s) (s_positions s) (s_nft s) (s_orders s) (s_deferred s) (s_crank s)
    (s_prices s) (s_manual s).
Definition with_long (v : Notional) (s : Sheet) : Sheet :=
  mkSheet (s_locked s) (s_unlocked s) (s_fees s) (s_paid s) (s_margin s) (s_dnf s) v (s_short s)
    (s_transfers s) (s_positions s) (s_nft s) (s_orders s) (s_deferred s) (s_crank s) (s_prices
    s) (s_manual s).
Definition with_short (v : Notional) (s : Sheet) : Sheet :=
  mkSheet (s_locked s) (s_unlocked s) (s_fees s) (s_paid s) (s_margin s) (s_dnf s) (s_long s) v
    (s_transfers s) (s_positions s) (s_nft s) (s_orders s) (s_deferred s) (s_crank s) (s_prices
    s) (s_manual s).
Definition with_transfers (v : Collateral) (s : Sheet) : Sheet :=
  mkSheet (s_locked s) (s_unlocked s) (s_fees s) (s_paid s) (s_margin s) (s_dnf s) (s_long s)
    (s_short s) v (s_positions s) (s_nft s) (s_orders s) (s_deferred s) (s_crank s) (s_prices s)
    (s_manual s).
Definition with_positions (v : PositionStore) (s : Sheet) : Sheet :=
  mkSheet (s_locked s) (s_unlocked s) (s_fees s) (s_paid s) (s_margin s) (s_dnf s) (s_long s)
    (s_short s) (s_transfers s) v (s_nft s) (s_orders s) (s_deferred s) (s_crank s) (s_prices s)
    (s_manual s).
Definition with_nft (v : NftStore) (s : Sheet) : Sheet :=
  mkSheet (s_locked s) (s_unlocked s) (s_fees s) (s_paid s) (s_margin s) (s_dnf s) (s_long s)
    (s_short s) (s_transfers s) (s_positions s) v (s_orders s) (s_deferred s) (s_crank s)
    (s_prices s) (s_manual s).
Definition with_orders (v : OrderStore) (s : Sheet) : Sheet :=
  mkSheet (s_locked s) (s_unlocked s) (s_fees s) (s_paid s) (s_margin s) (s_dnf s) (s_long s)
    (s_short s) (s_transfers s) (s_positions s) (s_nft s) v (s_deferred s) (s_crank s) (s_prices
    s) (s_manual s).
Definition with_deferred (v : DeferredStore) (s : Sheet) : Sheet :=
  mkSheet (s_locked s) (s_unlocked s) (s_fees s) (s_paid s) (s_margin s) (s_dnf s) (s_long s)
    (s_short s) (s_transfers s) (s_positions s) (s_nft s) (s_orders s) v (s_crank s) (s_prices
    s) (s_manual s).
Definition with_crank (v : CrankStore) (s : Sheet) : Sheet :=
  mkSheet (s_locked s) (s_unlocked s) (s_fees s) (s_paid s) (s_margin s) (s_dnf s) (s_long s)
    (s_short s) (s_transfers s) (s_positions s) (s_nft s) (s_orders s) (s_deferred s) v
    (s_prices s) (s_manual s).
Definition with_prices (v : gmap Timestamp PriceStorage) (s : Sheet) : Sheet :=
  mkSheet (s_locked s) (s_unlocked s) (s_fees s) (s_paid s) (s_margin s) (s_dnf s) (s_long s)
    (s_short s) (s_transfers s) (s_positions s) (s_nft s) (s_orders s) (s_deferred s) (s_crank
    s) v (s_manual s).
Definition with_manual (v : option PriceStorage) (s : Sheet) : Sheet :=
  mkSheet (s_locked s) (s_unlocked s) (s_fees s) (s_paid s) (s_margin s) (s_dnf s) (s_long s)
    (s_short s) (s_transfers s) (s_positions s) (s_nft s) (s_orders s) (s_deferred s) (s_crank
    s) (s_prices s) v.

(** A handler that keeps the balance sheet. *)
Definition quiet {A} (h : mhandler A) : Prop := forall m a m', h m = Ok (a, m') -> sheet m' = sheet m.

Section Quiet.
Lemma quiet_bind {A B} (c : mhandler A) (k : A -> mhandler B) :
  quiet c -> (forall a, quiet (k a)) -> quiet (hbind c k).
Proof. intros Hc Hk m b m' H. step_in H a m1 H1. apply Hc in H1 as <-. by eapply Hk. Qed.
Lemma quiet_ret {A} (a : A) : quiet (hret a).
Proof. intros m b m' [-> ->]%hret_ok. done. Qed.
Lemma quiet_err {A} (e : error) : quiet (herr (A:=A) e).
Proof. intros m b m' []%herr_not_ok. Qed.
Lemma quiet_lift {A} (r : res A) : quiet (hlift r).
Proof. intros m b m' [_ ->]%hlift_ok. done. Qed.
Lemma quiet_ask {A} (f : MarketCtx -> res A) : quiet (hask f).
Proof. intros m b m' [_ ->]%hask_ok. done. Qed.
Lemma quiet_get {A} (f : MarketCtx -> A) : quiet (hget f).
Proof. intros m b m' [_ ->]%hget_ok. done. Qed.
Lemma quiet_ensure b (e : error) : quiet (hensure b e).
Proof. intros m u m' [_ ->]%hensure_ok. done. Qed.
Lemma quiet_mod f : (forall m, sheet (f m) = sheet m) -> quiet (hmod f).
Proof. intros Hf m u m' ->%hmod_ok. apply Hf. Qed.
Lemma quiet_event st e : quiet (add_event st e).
Proof. apply quiet_mod. intros m. by destruct (mute_events _). Qed.
Lemma quiet_events st es : quiet (add_events st es).
Proof. apply quiet_mod. intros m. by destruct (mute_events _). Qed.
Lemma quiet_history f : quiet (mod_history f).
Proof. by apply quiet_mod. Qed.
Lemma quiet_trades f : quiet (mod_trades f).
Proof. by apply quiet_mod. Qed.
Lemma quiet_message msg : quiet (add_message msg).
Proof. by apply quiet_mod. Qed.
Lemma quiet_lp_tokens f : quiet (mod_lp_tokens f).
Proof. by apply quiet_mod. Qed.
Lemma quiet_liquidity f :
  (forall s, LIQUIDITY_STATS (f s) = LIQUIDITY_STATS s) -> quiet (mod_liquidity f).
Proof.
  intros Hf. apply quiet_mod. intros m. unfold sheet, liquidity_stats. simpl. by rewrite Hf.
Qed.
Lemma quiet_funding f :
  (forall s, TOTAL_NET_FUNDING_PAID (f s) = TOTAL_NET_FUNDING_PAID s) ->
  (forall s, TOTAL_FUNDING_MARGIN (f s) = TOTAL_FUNDING_MARGIN s) -> quiet (mod_funding f).
Proof. intros H1 H2. apply quiet_mod. intros m. unfold sheet. simpl. by rewrite H1, H2. Qed.
End Quiet.

Create HintDb quiet discriminated.
#[export] Hint Resolve quiet_bind quiet_ret quiet_err quiet_lift quiet_ask quiet_get quiet_ensure
  quiet_event quiet_events quiet_history quiet_trades quiet_message quiet_lp_tokens : quiet.

(** Follow the structure of a handler. *)
Ltac quiet :=
  repeat first
    [ progress intros
    | apply quiet_bind
    | solve [eauto 2 with quiet]
    | solve [apply quiet_liquidity; intros []; reflexivity]
    | match goal with
      | |- quiet (match ?x with _ => _ end) => destruct x
      | |- quiet (if ?x then _ else _) => destruct x
      end ].

Section Operations.
Context {CW : CosmwasmStd}.

Lemma quiet_save_addr a s : quiet (save_liquidity_stats_addr a s).
Proof. unfold save_liquidity_stats_addr. quiet. Qed.
Lemma quiet_load_addr a : quiet (load_liquidity_stats_addr a).
Proof. unfold load_liquidity_stats_addr. quiet. Qed.
Lemma quiet_load_default a : quiet (load_liquidity_stats_addr_default a).
Proof. unfold load_liquidity_stats_addr_default. quiet. Qed.
Lemma quiet_new_yield y : quiet (new_yield_apply y).
Proof. unfold new_yield_apply. quiet. Qed.
Hint Resolve quiet_save_addr quiet_load_addr quiet_load_default : quiet.
Lemma quiet_crank_rewards a x : quiet (add_lp_crank_rewards a x).
Proof. unfold add_lp_crank_rewards. quiet. Qed.
Lemma quiet_accrue a : quiet (update_accrued_yield a).
Proof. unfold update_accrued_yield. quiet. Qed.

Context (st : State).
Lemma quiet_pool_events s p : quiet (add_pool_size_change_events st s p).
Proof. unfold add_pool_size_change_events. quiet. Qed.
Lemma quiet_ratio_event s p : quiet (add_delta_neutrality_ratio_event st s p).
Proof. unfold add_delta_neutrality_ratio_event. quiet. Qed.
Lemma quiet_summary_referral a b x : quiet (add_summary_referral st a b x).
Proof. unfold add_summary_referral. quiet. Qed.
Lemma quiet_position_history id a : quiet (push_position_history id a).
Proof. unfold push_position_history. quiet. Qed.
Lemma quiet_address_history id a : quiet (push_address_history id a).
Proof. unfold push_address_history. quiet. Qed.
Hint Resolve quiet_position_history quiet_address_history : quiet.
Lemma quiet_history_transfer pos a : quiet (position_history_add_transfer st pos a).
Proof. unfold position_history_add_transfer. quiet. Qed.
Lemma quiet_trade_summary a s : quiet (save_trade_summary a s).
Proof. unfold save_trade_summary. quiet. Qed.
Hint Resolve quiet_trade_summary : quiet.
Lemma quiet_volume a v : quiet (trade_history_add_volume st a v).
Proof. unfold trade_history_add_volume. quiet. Qed.
Lemma quiet_pnl a v w : quiet (trade_history_add_realized_pnl st a v w).
Proof. unfold trade_history_add_realized_pnl. quiet. Qed.
Hint Resolve quiet_volume quiet_pnl : quiet.
Lemma quiet_history_close c d p : quiet (position_history_add_close st c d p).
Proof. unfold position_history_add_close, position_history_add_close_action. quiet. Qed.
Lemma quiet_history_update pos k t d x p :
  quiet (position_history_add_open_update_action st pos k t d x p).
Proof. unfold position_history_add_open_update_action. quiet. Qed.
End Operations.

#[export] Hint Resolve quiet_save_addr quiet_load_addr quiet_load_default quiet_new_yield
  quiet_crank_rewards quiet_accrue quiet_pool_events quiet_ratio_event quiet_summary_referral
  quiet_position_history quiet_address_history quiet_history_transfer quiet_trade_summary
  quiet_volume quiet_pnl quiet_history_close quiet_history_update : quiet.

