(* ===== verification/PositionStoreInv.v ===== *)
(** * The position indexes are exact

    Every index of the open positions is the one their fields determine: the
    price triggers, the schedule of liquifundings, and the total of the funding
    margins.  [position_save] and [position_remove] keep it so, and a position
    is found for liquidation exactly when a trigger is reached. *)

From stdpp Require Import base option gmap strings list pretty.
From Stdlib Require Import ZArith Lia.
From S2P Require Import Prelude Index Storage Cosmwasm Types Number Time Market Price Token DataSeries Config Position Trading State Pool LpHistory Liquidity Fees Funding DeltaNeutrality OpenInterest PositionStore TradeHistory BalanceSheet.
Local Open Scope Z_scope.

(** ** Trigger entries *)

Abbreviation Triggers := (gmap (Z * Z) LiquidationReason).
Abbreviation TriggerList := (list ((Z * Z) * LiquidationReason)).

Lemma save_all_app (es1 es2 : TriggerList) (m : Triggers) : save_all (es1 ++ es2) m = save_all es2 (save_all es1 m).
Proof. apply foldl_app. Qed.

Lemma save_all_lookup (es : TriggerList) (m : Triggers) k :
  save_all es m !! k = match save_all es ∅ !! k with Some r => Some r | None => m !! k end.
Proof.
  induction es as [|[k' r] es IH] using rev_ind; simpl.
  - by rewrite lookup_empty.
  - rewrite !save_all_app. simpl. destruct (decide (k' = k)) as [->|Hne].
    + by rewrite !lookup_insert_eq.
    + by rewrite !lookup_insert_ne.
Qed.

Lemma save_all_keys (es : TriggerList) k : save_all es ∅ !! k = None <-> k ∉ es.*1.
Proof.
  induction es as [|[k' r] es IH] using rev_ind; simpl.
  - rewrite lookup_empty. set_solver.
  - rewrite save_all_app, fmap_app. simpl. destruct (decide (k' = k)) as [->|Hne].
    + rewrite lookup_insert_eq. set_solver.
    + rewrite lookup_insert_ne, IH by done. set_solver.
Qed.

Lemma remove_all_lookup (es : TriggerList) (m : Triggers) k :
  remove_all es m !! k = if decide (k ∈ es.*1) then None else m !! k.
Proof.
  revert m. induction es as [|[k' r] es IH]; intros m; simpl.
  - done.
  - rewrite IH. destruct (decide (k = k')) as [->|Hne].
    + rewrite lookup_delete_eq. repeat case_decide; done || set_solver.
    + rewrite lookup_delete_ne by done. repeat case_decide; done || set_solver.
Qed.

Lemma price_key_id id r p k : k ∈ (price_key id r p).*1 -> k.2 = id.
Proof. destruct p; simpl; set_solver. Qed.

Lemma trigger_id pos k : k ∈ (desc_triggers pos).*1 \/ k ∈ (asc_triggers pos).*1 -> k.2 = pos_id pos.
Proof.
  unfold desc_triggers, asc_triggers, loss_triggers, gain_triggers.
  destruct (pos_direction pos); rewrite !fmap_app, !elem_of_app;
    intros [[?|?]|[?|?]]; by eapply price_key_id.
Qed.

(** ** The invariant *)

(** The triggers the open positions determine. *)
Definition expected (triggers : Position -> TriggerList) (open : gmap PositionId Position)
    (k : Z * Z) : option LiquidationReason :=
  pos ← open !! k.2; save_all (triggers pos) ∅ !! k.

(** When each open position is due. *)
Definition expected_next (open : gmap PositionId Position) (k : Z * Z) : option unit :=
  pos ← open !! k.2; if next_liquifunding pos =? k.1 then Some tt else None.

Definition funding_margin (pos : Position) : Z := margin_funding (pos_liquidation_margin pos).

(** The indexes of a store, and the total of the funding margins kept beside
    it. *)
Record positions_inv (s : PositionStore) (total_margin : Collateral) : Prop := {
  pi_ids : forall id pos, OPEN_POSITIONS s !! id = Some pos -> pos_id pos = id;
  pi_desc : forall k, PRICE_TRIGGER_DESC s !! k = expected desc_triggers (OPEN_POSITIONS s) k;
  pi_asc : forall k, PRICE_TRIGGER_ASC s !! k = expected asc_triggers (OPEN_POSITIONS s) k;
  pi_next : forall k, NEXT_LIQUIFUNDING s !! k = expected_next (OPEN_POSITIONS s) k;
  pi_margin : total_margin = map_sum funding_margin (OPEN_POSITIONS s);
}.

Lemma expected_delete (triggers : Position -> TriggerList) (open : gmap PositionId Position) (pos : Position) (t : Triggers) :
  (forall k, k ∈ (triggers pos).*1 -> k.2 = pos_id pos) ->
  open !! pos_id pos = Some pos -> (forall k, t !! k = expected triggers open k) ->
  forall k, remove_all (triggers pos) t !! k = expected triggers (delete (pos_id pos) open) k.
Proof.
  intros Hid Hopen Ht k. rewrite remove_all_lookup, Ht. unfold expected.
  destruct (decide (k.2 = pos_id pos)) as [E|E].
  - rewrite E, lookup_delete_eq, Hopen. simpl. case_decide as Hn; [done|].
    by apply save_all_keys.
  - rewrite lookup_delete_ne by done. case_decide as Hin; [|done].
    by apply Hid in Hin.
Qed.

Lemma expected_insert (triggers : Position -> TriggerList) (open : gmap PositionId Position) (pos : Position) (t : Triggers) :
  (forall k, k ∈ (triggers pos).*1 -> k.2 = pos_id pos) ->
  open !! pos_id pos = None -> (forall k, t !! k = expected triggers open k) ->
  forall k, save_all (triggers pos) t !! k = expected triggers (<[pos_id pos := pos]> open) k.
Proof.
  intros Hid Hopen Ht k. rewrite save_all_lookup, Ht. unfold expected.
  destruct (decide (k.2 = pos_id pos)) as [E|E].
  - rewrite E, lookup_insert_eq, Hopen. simpl. by destruct (save_all _ _ !! k).
  - rewrite lookup_insert_ne by done. destruct (save_all _ _ !! k) as [r|] eqn:Hs; [|done].
    exfalso. apply E, Hid. apply dec_stable. intros Hn%save_all_keys. congruence.
Qed.

Lemma expected_next_delete (open : gmap PositionId Position) (pos : Position) (t : gmap (Z * Z) unit) :
  open !! pos_id pos = Some pos -> (forall k, t !! k = expected_next open k) ->
  forall k, delete (next_liquifunding pos, pos_id pos) t !! k
            = expected_next (delete (pos_id pos) open) k.
Proof.
  intros Hopen Ht [time id]. unfold expected_next in *. simpl.
  destruct (decide ((next_liquifunding pos, pos_id pos) = (time, id))) as [[= <- <-]|Hne].
  - by rewrite !lookup_delete_eq.
  - rewrite lookup_delete_ne, Ht by done. simpl.
    destruct (decide (pos_id pos = id)) as [<-|]; [|by rewrite lookup_delete_ne].
    rewrite lookup_delete_eq, Hopen. simpl. destruct (Z.eqb_spec (next_liquifunding pos) time); [|done].
    congruence.
Qed.

Lemma expected_next_insert (open : gmap PositionId Position) (pos : Position) (t : gmap (Z * Z) unit) :
  open !! pos_id pos = None -> (forall k, t !! k = expected_next open k) ->
  forall k, <[(next_liquifunding pos, pos_id pos) := tt]> t !! k
            = expected_next (<[pos_id pos := pos]> open) k.
Proof.
  intros Hopen Ht [time id]. unfold expected_next in *. simpl.
  destruct (decide ((next_liquifunding pos, pos_id pos) = (time, id))) as [[= <- <-]|Hne].
  - rewrite !lookup_insert_eq. simpl. by rewrite Z.eqb_refl.
  - rewrite lookup_insert_ne, Ht by done. simpl.
    destruct (decide (pos_id pos = id)) as [<-|]; [|by rewrite lookup_insert_ne].
    rewrite lookup_insert_eq, Hopen. simpl. destruct (Z.eqb_spec (next_liquifunding pos) time); [|done].
    congruence.
Qed.

(** ** What the operations do *)

(** Only the store of positions and the total funding margin change. *)
Definition with_store (p : PositionStore) (total : Collateral) (s : Sheet) : Sheet :=
  with_positions p (with_margin total s).

(** The parts of the store the indexes do not touch. *)
Definition same_history (s s' : PositionStore) : Prop :=
  LAST_POSITION_ID s' = LAST_POSITION_ID s /\
  CLOSED_POSITION_HISTORY s' = CLOSED_POSITION_HISTORY s /\
  CLOSED_POSITIONS s' = CLOSED_POSITIONS s.

Lemma same_history_trans s1 s2 s3 : same_history s1 s2 -> same_history s2 s3 -> same_history s1 s3.
Proof. intros (? & ? & ?) (? & ? & ?). repeat split; congruence. Qed.

Definition open_positions (s : Sheet) : gmap PositionId Position := OPEN_POSITIONS (s_positions s).
Definition sheet_positions (s : Sheet) : Prop := positions_inv (s_positions s) (s_margin s).

Section Operations.
Context {CW : CosmwasmStd} {CWS : CosmwasmStdSpec CW}.

Lemma get_position_ok m id pos :
  get_position m id = Ok pos <-> open_positions (sheet m) !! id = Some pos.
Proof. apply of_option_ok. Qed.

Lemma position_remove_ok m m' id u :
  sheet_positions (sheet m) -> position_remove id m = Ok (u, m') ->
  exists pos store total, open_positions (sheet m) !! id = Some pos /\
    sheet m' = with_store store total (sheet m) /\
    OPEN_POSITIONS store = delete id (open_positions (sheet m)) /\
    positions_inv store total /\ is_dec total /\ same_history (m_positions m) store.
Proof.
  unfold sheet_positions, open_positions. simpl. intros Hinv H. unfold position_remove in H.
  lift_in H pos Hpos. apply get_position_ok in Hpos. pose proof (pi_ids _ _ Hinv _ _ Hpos) as <-.
  unfold remove_liquidation_prices, decrease_total_funding_margin, mod_positions, mod_funding in H.
  inv_ok. match goal with Hs : ud_checked_sub _ _ = Ok _ |- _ => apply ud_sub_ok in Hs as [-> Hle] end.
  simpl in *. eexists pos, _, _. split; [done|]. split; [reflexivity|]. split; [done|].
  split; [|split; [done|by repeat split]]. destruct Hinv as [Hids Hd Ha Hn Hm]. split; simpl.
  - intros id q [_ Hq]%lookup_delete_Some. by apply Hids.
  - apply expected_delete; [|done..]. intros k Hk. apply trigger_id. by left.
  - apply expected_delete; [|done..]. intros k Hk. apply trigger_id. by right.
  - by apply expected_next_delete.
  - rewrite Hm. symmetry. by apply (map_sum_delete funding_margin).
Qed.

Lemma position_recalc_ok st pos pp recalc pos' :
  position_recalc st pos pp recalc = Ok pos' ->
  pos_id pos' = pos_id pos /\ pos_owner pos' = pos_owner pos /\
  active_collateral pos' = active_collateral pos /\
  counter_collateral pos' = counter_collateral pos /\ notional_size pos' = notional_size pos /\
  next_liquifunding pos' = next_liquifunding pos /\
  (exists total, margin_total (pos_liquidation_margin pos') = Ok total /\
                 total <= active_collateral pos') /\
  (if recalc then liquidation_margin pos pp (st_config st) = Ok (pos_liquidation_margin pos')
   else pos_liquidation_margin pos' = pos_liquidation_margin pos).
Proof.
  unfold position_recalc. intros H. apply rbind_ok in H as (p & Hp & H).
  apply rbind_ok in H as (total & Ht & H). apply rbind_ok in H as (u & Hu & H).
  apply ensure_ok, Z.leb_le in Hu. apply rbind_ok in H as (tp & _ & H). injection H as <-. simpl.
  destruct recalc; [apply rbind_ok in Hp as (mg & Hmg & Hp)|]; injection Hp as <-; simpl in *;
    split_and!; try done; by exists total.
Qed.

(** Storing a position under a free id. *)
Definition store_with (pos : Position) (store : PositionStore) : PositionStore :=
  set_PRICE_TRIGGER_DESC (save_all (desc_triggers pos) (PRICE_TRIGGER_DESC store))
    (set_PRICE_TRIGGER_ASC (save_all (asc_triggers pos) (PRICE_TRIGGER_ASC store))
      (set_NEXT_LIQUIFUNDING (<[(next_liquifunding pos, pos_id pos) := tt]> (NEXT_LIQUIFUNDING store))
        (set_OPEN_POSITIONS (<[pos_id pos := pos]> (OPEN_POSITIONS store)) store))).

Lemma position_insert_inv store total pos :
  positions_inv store total -> OPEN_POSITIONS store !! pos_id pos = None ->
  positions_inv (store_with pos store) (total + funding_margin pos).
Proof.
  intros [Hids Hd Ha Hn Hm] Hfree. split; simpl.
  - intros id q [[<- <-]|[_ Hq]]%lookup_insert_Some; [done|]. by apply Hids.
  - apply expected_insert; [|done..]. intros k Hk. apply trigger_id. by left.
  - apply expected_insert; [|done..]. intros k Hk. apply trigger_id. by right.
  - by apply expected_next_insert.
  - rewrite Hm, map_sum_insert_new by done. lia.
Qed.

Lemma position_save_ok st m m' pos pp is_update recalc reason pos' :
  sheet_positions (sheet m) ->
  (is_update = false -> open_positions (sheet m) !! pos_id pos = None) ->
  position_save st pos pp is_update recalc reason m = Ok (pos', m') ->
  exists store total, position_recalc st pos pp recalc = Ok pos' /\
    (is_update = true -> is_Some (open_positions (sheet m) !! pos_id pos)) /\
    sheet m' = with_store store total (sheet m) /\
    OPEN_POSITIONS store = <[pos_id pos := pos']> (open_positions (sheet m)) /\
    positions_inv store total /\ is_dec total /\ same_history (m_positions m) store.
Proof.
  unfold sheet_positions, open_positions. simpl. intros Hinv Hnew H. unfold position_save in H.
  step_in H u m1 Hr.
  assert (exists store total, sheet m1 = with_store store total (sheet m) /\
    positions_inv store total /\ OPEN_POSITIONS store = delete (pos_id pos) (OPEN_POSITIONS (m_positions m)) /\
    (is_update = true -> is_Some (OPEN_POSITIONS (m_positions m) !! pos_id pos)) /\
    same_history (m_positions m) store) as (store & total & Hs & Hi & Hdel & Hsome & Hh).
  { destruct is_update.
    - apply position_remove_ok in Hr as (old & store & total & Hold & Hs & Ho & Hi & _ & Hh); [|done].
      exists store, total. by split_and!.
    - apply hret_ok in Hr as [_ ->]. exists (m_positions m), (TOTAL_FUNDING_MARGIN (m_funding m)).
      split_and!; try done. symmetry. apply delete_id. auto. }
  lift_in H p Hp. pose proof (position_recalc_ok _ _ _ _ _ Hp) as (Hid & _ & _ & _ & _ & Hnext & _).
  unfold store_liquidation_prices, increase_total_funding_margin, mod_positions, mod_funding in H.
  step_in H u1 m2 H2. apply hmod_ok in H2. step_in H u2 m3 H3. apply hmod_ok in H3.
  step_in H u3 m4 H4. apply hmod_ok in H4. step_in H u4 m5 H5. lift_in H5 tot Htot. apply hmod_ok in H5.
  step_in H u5 m6 H6. apply hret_ok in H as [-> ->]. apply ud_add_ok in Htot as [-> Htot].
  pose proof (quiet_event st _ _ _ _ H6) as ->. rewrite <- Hid in Hdel.
  assert (m_positions m1 = store) as Hst by exact (f_equal s_positions Hs).
  assert (TOTAL_FUNDING_MARGIN (m_funding m1) = total) as Hto by exact (f_equal s_margin Hs).
  exists (store_with p store), (total + funding_margin p). split; [exact Hp|]. split; [exact Hsome|].
  split; [|split; [|split; [|split]]].
  - assert (sheet m5 = with_store (store_with p (m_positions m1))
      (TOTAL_FUNDING_MARGIN (m_funding m1) + funding_margin p) (sheet m1)) as ->
      by (rewrite H5, H4, H3, H2; reflexivity).
    by rewrite Hst, Hto, Hs.
  - simpl. by rewrite Hdel, insert_delete_eq, Hid.
  - apply position_insert_inv; [done|]. by rewrite Hdel, lookup_delete_eq.
  - rewrite H4, H3, H2 in Htot. simpl in Htot. by rewrite Hto in Htot.
  - destruct Hh as (? & ? & ?). by repeat split.
Qed.
End Operations.
