(* ===== verification/BalanceEffects.v ===== *)
(** * Effects on the balance sheet

    What each fee, funding, interest and liquidity operation of the market does
    to its balance sheet. *)

From stdpp Require Import base option gmap strings list pretty.
From Stdlib Require Import ZArith Lia.
From S2P Require Import Prelude Index Storage Cosmwasm Types Number Time Market Price Token DataSeries Config Position Trading State Pool LpHistory Liquidity Books LiquidityInv Fees FeesInv LiquiditySystem Funding FundingInv DeltaNeutrality DeltaNeutralityInv OpenInterest PositionStore TradeHistory BalanceSheet.
Local Open Scope Z_scope.

(** The fees grow by [x]. *)
Definition credit (x : Collateral) (s : Sheet) : Sheet := with_fees (s_fees s + x) s.

Lemma credit_credit x y s : credit x (credit y s) = credit (y + x) s.
Proof. unfold credit, with_fees. simpl. f_equal. lia. Qed.
Lemma credit_0 s : credit 0 s = s.
Proof. destruct s. unfold credit, with_fees. simpl. f_equal. lia. Qed.

(** Replace a successful run of a quiet handler by the equation. *)
Ltac quiet_in H :=
  match type of H with
  | ?h ?m = Ok (_, ?m') =>
      let Hq := fresh "Hq" in
      assert (sheet m' = sheet m) as Hq by (revert H; assert (quiet h) as Hq by quiet; apply Hq);
      clear H; rename Hq into H
  end.

Section Effects.
Context {CW : CosmwasmStd} {CWS : CosmwasmStdSpec CW}.
Context (st : State).

(** ** Fees *)

Lemma save_fees_effect f m u m' :
  save_fees f m = Ok (u, m') -> sheet m' = credit (fees_total f - fees_total (ALL_FEES m)) (sheet m).
Proof.
  unfold save_fees. intros ->%hmod_ok. unfold credit, with_fees, sheet. simpl. f_equal. lia.
Qed.

Lemma earmark_effect l x p m u m' :
  earmark_fees l x p m = Ok (u, m') -> sheet m' = credit (l + x + p) (sheet m).
Proof.
  intros (w & pr & H & -> & ->)%earmark_ok. apply save_fees_effect in H as ->. f_equal.
  unfold fees_total. simpl. lia.
Qed.

Lemma trading_fee_inner_effect amount price t src m u m' :
  collect_trading_fee_inner st amount price t src m = Ok (u, m') -> sheet m' = credit amount (sheet m).
Proof.
  unfold collect_trading_fee_inner. intros H.
  lift_in H pf Hpf. lift_in H fee Hfee. apply ud_sub_ok in Hfee as [-> Hfee].
  lift_in H lr Hlr. lift_in H xr Hxr. step_in H x m1 Hens. apply hensure_ok in Hens as [_ ->].
  apply hbind_ok in H as ([l xl] & m2 & Hsplit & H). apply hlift_ok in Hsplit as [Hsplit ->].
  apply split_by_rates_ok in Hsplit as (Hsum & _ & _); [|unfold is_dec in *; lia].
  step_in H y m2 Hear. apply earmark_effect in Hear. quiet_in H. rewrite H, Hear. f_equal. lia.
Qed.

Lemma reward_referrer_effect a b reward m u m' :
  reward_referrer st a b reward m = Ok (u, m') -> sheet m' = credit reward (sheet m).
Proof.
  unfold reward_referrer. intros H. step_in H f m1 Hf. get_in Hf. lift_in H r Hr.
  apply ud_add_ok in Hr as [-> _]. step_in H x m1 Hs. apply save_fees_effect in Hs. quiet_in H.
  rewrite H, Hs. f_equal. unfold fees_total. simpl. lia.
Qed.

Lemma trading_fee_effect id amount price src owner m u m' :
  collect_trading_fee st id amount price src owner m = Ok (u, m') ->
  sheet m' = credit amount (sheet m).
Proof.
  unfold collect_trading_fee. intros H. lift_in H r Hr. step_in H n m1 Hn.
  apply trading_fee_inner_effect in H as ->. destruct r as [referrer|].
  - lift_in Hn rw Hrw. step_in Hn x m2 Hx. apply reward_referrer_effect in Hx.
    apply hlift_ok in Hn as [[-> _]%ud_sub_ok ->]. rewrite Hx, credit_credit. f_equal. lia.
  - by apply hret_ok in Hn as [-> ->].
Qed.

Lemma borrow_fee_effect c m u m' :
  borrow_fee_apply st c m = Ok (u, m') -> sheet m' = credit (borrow_collected c) (sheet m).
Proof.
  unfold borrow_fee_apply. intros H. step_in H x m1 H1. quiet_in H1. step_in H y m2 H2.
  apply earmark_effect in H2. quiet_in H. rewrite H, H2, H1. done.
Qed.

Lemma cap_crank_effect c m u m' :
  cap_crank_fee_apply st c m = Ok (u, m') -> sheet m' = credit (cap_amount c) (sheet m).
Proof.
  unfold cap_crank_fee_apply. intros H. step_in H x m1 H1. quiet_in H1. step_in H f m2 Hf. get_in Hf.
  lift_in H cr Hcr. apply ud_add_ok in Hcr as [-> _]. step_in H y m2 H2. apply save_fees_effect in H2.
  quiet_in H. rewrite H, H2, H1. f_equal. unfold fees_total. simpl. lia.
Qed.

Lemma return_funds_effect addr amount price m u m' :
  return_funds_to_user st addr amount price m = Ok (u, m') -> sheet m' = credit amount (sheet m).
Proof.
  unfold return_funds_to_user. intros H. step_in H f m1 Hf. get_in Hf. lift_in H w Hw.
  apply ud_add_ok in Hw as [-> _]. step_in H y m1 H1. apply save_fees_effect in H1. quiet_in H.
  rewrite H, H1. f_equal. unfold fees_total. simpl. lia.
Qed.

Lemma provide_crank_effect added m u m' :
  provide_crank_funds added m = Ok (u, m') -> sheet m' = credit added (sheet m).
Proof.
  unfold provide_crank_funds. intros H. step_in H f m1 Hf. get_in Hf. lift_in H c Hc.
  apply ud_add_ok in Hc as [-> _]. apply save_fees_effect in H as ->. f_equal.
  unfold fees_total. simpl. lia.
Qed.

(** The crank's rewards only change hands. *)
Lemma allocate_crank_quiet addr n : quiet (allocate_crank_fees st addr n).
Proof.
  unfold allocate_crank_fees. intros m u m' H. destruct (n =? 0); [by apply hret_ok in H as [_ ->]|].
  lift_in H k Hk. lift_in H mx Hmx. step_in H f m1 Hf. get_in Hf.
  destruct (nonzero_new _) as [p|]; [|by apply hret_ok in H as [_ ->]].
  lift_in H c Hc. apply ud_sub_ok in Hc as [-> _]. lift_in H w Hw. apply ud_add_ok in Hw as [-> _].
  step_in H x m1 Hs. apply save_fees_effect in Hs. quiet_in H. rewrite H, Hs, <- credit_0. f_equal.
  unfold fees_total. simpl. lia.
Qed.

(** ** Funding and the delta neutrality fund *)

Lemma funding_payment_effect p m u m' :
  funding_fee_payment_apply st p m = Ok (u, m') ->
  sheet m' = with_paid (ffp_total_net_funding_paid p) (sheet m).
Proof.
  unfold funding_fee_payment_apply, mod_funding. intros H. step_in H x m1 H1. quiet_in H1.
  apply hmod_ok in H as ->. rewrite <- H1. done.
Qed.

Lemma fee_settlement_effect s m u m' :
  fee_settlement_apply st s m = Ok (u, m') ->
  sheet m' = credit (borrow_collected (pfs_borrow_fee_collection s) + crank_charged s)
    (with_paid (ffp_total_net_funding_paid (pfs_funding_fee_payment s)) (sheet m)).
Proof.
  unfold fee_settlement_apply, crank_charged. intros H. step_in H x m1 H1. quiet_in H1.
  step_in H y m2 H2. apply funding_payment_effect in H2. step_in H z m3 H3. apply borrow_fee_effect in H3.
  step_in H w m4 H4. quiet_in H4. rewrite <- H1, <- H2, <- credit_credit, <- H3, <- H4.
  destruct (pfs_cap_crank_fee s) as [c|].
  - by apply cap_crank_effect in H.
  - apply hret_ok in H as [_ ->]. by rewrite credit_0.
Qed.

Lemma charge_result_effect r m fee m' :
  charge_result_apply st r m = Ok (fee, m') ->
  fee = cr_fee r /\
  sheet m' = credit (cr_protocol_fees r) (with_dnf (cr_total_funds_after r) (sheet m)).
Proof.
  unfold charge_result_apply, collect_delta_neutrality_fee_for_protocol. intros H.
  step_in H x m1 H1. quiet_in H1. step_in H y m2 H2. quiet_in H2. step_in H z m3 H3.
  apply hmod_ok in H3 as ->. step_in H w m4 H4. apply trading_fee_inner_effect in H4.
  apply hret_ok in H as [-> ->]. split; [done|]. rewrite H4, <- H1, <- H2. done.
Qed.

(** ** Liquidity *)

Definition with_stats (l : LiquidityStats) (s : Sheet) : Sheet :=
  with_locked (locked l) (with_unlocked (unlocked l) s).

Lemma with_stats_id (s : Sheet) l :
  locked l = s_locked s -> unlocked l = s_unlocked s -> with_stats l s = s.
Proof. destruct s. unfold with_stats, with_locked, with_unlocked. simpl. by intros -> ->. Qed.

Definition stats_typed (l : LiquidityStats) : Prop := is_dec (locked l) /\ is_dec (unlocked l).

(** An empty pool is reset to the same empty pool. *)
Lemma save_stats_effect l m u m' :
  stats_typed l -> save_liquidity_stats l m = Ok (u, m') -> sheet m' = with_stats l (sheet m).
Proof.
  intros [Hl Hu] H. unfold save_liquidity_stats, mod_liquidity in H. lift_in H t Ht.
  apply ud_add_ok in Ht as [-> _]. step_in H r m1 Hr. unfold ud_is_zero in Hr.
  destruct (Z.eqb_spec (locked l + unlocked l) 0) as [Hz|_].
  - lift_in Hr ts Hts. apply hret_ok in Hr as [-> ->]. destruct (negb _); apply hmod_ok in H as ->; [|done].
    unfold is_dec in *. unfold sheet, with_stats, with_locked, with_unlocked. simpl. f_equal; lia.
  - apply hret_ok in Hr as [-> ->]. by apply hmod_ok in H as ->.
Qed.

Lemma update_locked_effect x m u m' :
  stats_typed (update_stats x) -> liquidity_update_locked_apply st x m = Ok (u, m') ->
  sheet m' = with_stats (update_stats x) (sheet m).
Proof.
  unfold liquidity_update_locked_apply. intros Hx H. step_in H y m1 H1.
  apply save_stats_effect in H1; [|done]. quiet_in H. congruence.
Qed.
Lemma unlock_effect x m u m' :
  stats_typed (unlock_stats x) -> liquidity_unlock_apply st x m = Ok (u, m') ->
  sheet m' = with_stats (unlock_stats x) (sheet m).
Proof.
  unfold liquidity_unlock_apply. intros Hx H. step_in H y m1 H1.
  apply save_stats_effect in H1; [|done]. quiet_in H. congruence.
Qed.
Lemma lock_effect x m u m' :
  stats_typed (lock_stats x) -> liquidity_lock_apply st x m = Ok (u, m') ->
  sheet m' = with_stats (lock_stats x) (sheet m).
Proof.
  unfold liquidity_lock_apply. intros Hx H. step_in H y m1 H1.
  apply save_stats_effect in H1; [|done]. quiet_in H. congruence.
Qed.

(** The stats of a change of the locked liquidity. *)
Lemma update_locked_new_ok m amount pp o x :
  let l := default (liquidity_stats m) o in
  stats_typed l -> signed_ok amount -> liquidity_update_locked_new m amount pp o = Ok x ->
  stats_typed (update_stats x) /\ locked (update_stats x) = locked l + sval amount /\
  unlocked (update_stats x) = unlocked l.
Proof.
  intros l [Hl Hu] Ha H. unfold liquidity_update_locked_new in H. fold l in H.
  apply rbind_ok in H as (s & Hs & H). apply signed_checked_add_ok in Hs as [Hs Hok]; [|auto with perps..].
  destruct (try_into_non_negative_value s) as [v|] eqn:E; [|done]. injection H as <-.
  apply try_into_non_negative_value_Some in E as [Hneg ->]. rewrite sval_into_signed in Hs. simpl.
  split; [|by rewrite Hs]. split; [|done]. unfold sval in *. rewrite Hneg in *. apply Hok.
Qed.

Lemma unlock_new_ok m amount pp o x :
  let l := default (liquidity_stats m) o in
  stats_typed l -> liquidity_unlock_new m amount pp o = Ok x ->
  stats_typed (unlock_stats x) /\ locked (unlock_stats x) = locked l - amount /\
  unlocked (unlock_stats x) = unlocked l + amount.
Proof.
  intros l [Hl Hu] H. unfold liquidity_unlock_new in H. fold l in H.
  destruct (_ <? _); [done|]. apply rbind_ok in H as (a & [-> Ha]%ud_sub_ok & H).
  apply rbind_ok in H as (b & [-> Hb]%ud_add_ok & H). injection H as <-. by split_and!.
Qed.

Lemma lock_new_ok m amount pp d n o x :
  let l := default (liquidity_stats m) o in
  stats_typed l -> liquidity_lock_new st m amount pp d n o = Ok x ->
  stats_typed (lock_stats x) /\ locked (lock_stats x) = locked l + amount /\
  unlocked (lock_stats x) = unlocked l - amount.
Proof.
  intros l [Hl Hu] H. unfold liquidity_lock_new in H. fold l in H.
  apply rbind_ok in H as (nn & _ & H). apply rbind_ok in H as (nn2 & _ & H).
  apply rbind_ok in H as (mu & _ & H). apply rbind_ok in H as (ne & _ & H).
  destruct (_ <? _); [done|]. apply rbind_ok in H as (a & [-> Ha]%ud_add_ok & H).
  apply rbind_ok in H as (b & [-> Hb]%ud_sub_ok & H). injection H as <-. by split_and!.
Qed.

(** ** Transfers *)

Lemma nonzero_add_ok (a b c : Z) : nonzero_checked_add a b = Ok c -> c = a + b.
Proof.
  unfold nonzero_checked_add. intros (x & [-> _]%ud_add_ok & H)%rbind_ok.
  by apply panics_ok, nonzero_new_Some in H as [-> _].
Qed.

Lemma transfer_effect addr amount m u m' :
  add_token_transfer_msg addr amount m = Ok (u, m') ->
  sheet m' = with_transfers (s_transfers (sheet m) + amount) (sheet m).
Proof.
  unfold add_token_transfer_msg, fund_transfer. intros H. step_in H t m1 Ht. get_in Ht. lift_in H t' Ht'.
  apply hmod_ok in H as ->. unfold sheet, with_transfers. simpl. f_equal.
  destruct (fund_transfers m !! addr) as [old|] eqn:E.
  - apply rbind_ok in Ht' as (v & ->%nonzero_add_ok & Ht'). injection Ht' as <-.
    rewrite map_sum_insert. unfold map_get. rewrite E. simpl. unfold id. lia.
  - injection Ht' as <-. rewrite map_sum_insert_new by done. unfold id. lia.
Qed.

(** ** Open interest *)

(** The interest of a direction moves by the difference. *)
Definition with_interest (dir : DirectionToNotional) (diff : Signed) (s0 s : Sheet) : Sheet :=
  match dir with
  | LongToNotional => with_long (s_long s0 + sval diff) s
  | ShortToNotional => with_short (s_short s0 - sval diff) s
  end.

Lemma adjust_interest_effect m diff dir b a u m1 m2 :
  is_dec (open_long_interest m) -> is_dec (open_short_interest m) -> signed_ok diff ->
  adjust_open_interest_new st m diff dir b = Ok a -> adjust_open_interest_apply a m1 = Ok (u, m2) ->
  sheet m2 = with_interest dir diff (sheet m) (sheet m1) /\
  match dir with
  | LongToNotional => is_dec (s_long (sheet m) + sval diff)
  | ShortToNotional => is_dec (s_short (sheet m) - sval diff)
  end.
Proof.
  intros Hl Hs Hd H Ha. unfold adjust_open_interest_new in H.
  apply rbind_ok in H as ([[l s] a'] & Hi & H).
  assert (a' = a) as ->.
  { destruct b; [|by injection H]. apply rbind_ok in H as (? & _ & H).
    apply rbind_ok in H as (? & _ & H). apply rbind_ok in H as (? & _ & H). by injection H. }
  unfold interest_after in Hi. destruct dir; apply rbind_ok in Hi as (x & Hx & Hi);
    (apply ud_checked_add_signed_ok in Hx as [-> ?]; [|done|auto with perps]);
    injection Hi as <- <- <-; apply hmod_ok in Ha as ->.
  - done.
  - by rewrite sval_neg in *.
Qed.
End Effects.
