(* ===== verification/MarketInv.v ===== *)
(** * The invariant of the market

    What every message of the market keeps: the stored numbers are within their
    types, the position indexes are exact, the locked liquidity is the counter
    collateral of the open positions less what was lost, the open interest is
    their size, and each position covers its liquidation margin.  Collateral
    is lost when a withdrawal of the last token resets the totals of a pool
    that still has less than [DUST] locked.  [obligations] is everything the
    contract owes, the total the code compares with its token balance. *)

From stdpp Require Import base option gmap strings list pretty.
From Stdlib Require Import ZArith Lia.
From S2P Require Import Prelude Index Storage Cosmwasm Types Number Time Market Price Token DataSeries Config Position Trading State Pool LpHistory Liquidity Books LiquidityInv Fees FeesInv LiquiditySystem Funding FundingInv DeltaNeutrality DeltaNeutralityInv OpenInterest PositionStore TradeHistory BalanceSheet PositionStoreInv BalanceEffects PositionToken ClosePosition.
Local Open Scope Z_scope.

Record margins_typed (m : LiquidationMargin) : Prop := {
  mg_typed : margin_typed m;
  mg_dnf : is_dec (margin_delta_neutrality m);
  mg_exposure : is_dec (margin_exposure m);
}.

(** The collateral covers the margin set aside for the fees. *)
Definition margin_sum (m : LiquidationMargin) : Z :=
  margin_borrow m + margin_funding m + margin_delta_neutrality m + margin_crank m + margin_exposure m.
Definition covered (p : Position) : Prop :=
  margin_sum (pos_liquidation_margin p) <= active_collateral p.

Record pos_inv (p : Position) : Prop := {
  pv_ok : position_ok p;
  pv_margins : margins_typed (pos_liquidation_margin p);
  pv_covered : covered p;
}.

Definition long_size (p : Position) : Z :=
  match pos_direction p with LongToNotional => sval (notional_size p) | ShortToNotional => 0 end.
Definition short_size (p : Position) : Z :=
  match pos_direction p with LongToNotional => 0 | ShortToNotional => - sval (notional_size p) end.

(** The stored amounts as their types have them. *)
Record sheet_typed (s : Sheet) : Prop := {
  ty_stats : is_dec (s_locked s) /\ is_dec (s_unlocked s);
  ty_paid : signed_ok (s_paid s);
  ty_margin : is_dec (s_margin s);
  ty_dnf : is_dec (s_dnf s);
  ty_interest : is_dec (s_long s) /\ is_dec (s_short s);
}.

Record market_inv (lost : Collateral) (s : Sheet) : Prop := {
  mi_typed : sheet_typed s;
  mi_store : sheet_positions s;
  mi_open : forall id p, open_positions s !! id = Some p ->
              pos_inv p /\ id <= LAST_POSITION_ID (s_positions s);
  mi_locked : s_locked s + lost = map_sum counter_collateral (open_positions s);
  mi_long : s_long s = map_sum long_size (open_positions s);
  mi_short : s_short s = map_sum short_size (open_positions s);
}.
Arguments mi_typed {lost} s _.
Arguments mi_store {lost} s _.
Arguments mi_open {lost} s _.
Arguments mi_locked {lost} s _.
Arguments mi_long {lost} s _.
Arguments mi_short {lost} s _.

(** What the contract holds outside positions, orders and the queue. *)
Definition assets (s : Sheet) : Z :=
  s_locked s + s_unlocked s + s_fees s + s_dnf s + sval (s_paid s) + s_transfers s.

Definition active_total (s : Sheet) : Z := map_sum active_collateral (open_positions s).
Definition orders_total (s : Sheet) : Z := map_sum lo_collateral (LIMIT_ORDERS (s_orders s)).
Definition pending_deposit (d : DeferredExecWithStatus) : Z :=
  if is_pending (de_status d) then deposited_amount (de_item d) else 0.
Definition deferred_total (s : Sheet) : Z := map_sum pending_deposit (DEFERRED_EXECS (s_deferred s)).

Definition obligations (s : Sheet) : Z :=
  assets s + active_total s + orders_total s + deferred_total s.

(** The parts positions do not touch. *)
Definition same_rest (s s' : Sheet) : Prop :=
  s_orders s' = s_orders s /\ s_deferred s' = s_deferred s /\ s_crank s' = s_crank s /\
  s_prices s' = s_prices s /\ s_manual s' = s_manual s.

(** ** Positions *)

Lemma long_size_dir p : long_size p = sval (notional_size p) /\ short_size p = 0 \/
  long_size p = 0 /\ short_size p = - sval (notional_size p).
Proof. unfold long_size, short_size. destruct (pos_direction p); auto. Qed.

(** The sizes depend on the notional size only. *)
Lemma sizes_eq p q : notional_size p = notional_size q ->
  long_size p = long_size q /\ short_size p = short_size q /\ pos_direction p = pos_direction q.
Proof. unfold long_size, short_size, pos_direction. by intros ->. Qed.

Section Theory.
Context {CW : CosmwasmStd} {CWS : CosmwasmStdSpec CW}.
Context {lost : Collateral}.

Lemma margin_total_ok m t : margin_total m = Ok t -> t = margin_sum m.
Proof.
  unfold margin_total, margin_sum. intros (a & [-> _]%ud_add_ok & H)%rbind_ok.
  apply rbind_ok in H as (b & [-> _]%ud_add_ok & H).
  apply rbind_ok in H as (c & [-> _]%ud_add_ok & [-> _]%ud_add_ok). lia.
Qed.

Lemma op_mul_dec (a b c : Z) : op_mul a b = Ok c -> is_dec c.
Proof. by intros [-> ?]%op_mul_ok. Qed.
Lemma mul_dec_dec (a b c : Z) : checked_mul_dec a b = Ok c -> is_dec c.
Proof. by intros [-> ?]%mul_dec_ok. Qed.

Lemma liquidation_margin_typed p pp c m :
  liquidation_margin p pp c = Ok m -> margins_typed m.
Proof.
  unfold liquidation_margin. intros H.
  repeat (apply rbind_ok in H as (? & ? & H)). injection H as <-.
  split; [split|..]; simpl; eauto using op_mul_dec, mul_dec_dec, usd_to_collateral_dec.
Qed.

(** ** Liquifunding *)

(** What [settle_price_exposure] does, whatever the prices. *)
Lemma settle_ok p start end_ margin r e :
  position_ok p -> is_dec margin -> settle_price_exposure p start end_ margin = Ok (r, e) ->
  signed_ok e /\
  match r with
  | PosOpen q =>
      q = set_collaterals p (active_collateral p + sval e) (counter_collateral p - sval e) /\
      position_ok q
  | PosClose i => close_pos i = p /\ capped_exposure i = e /\ is_dec (additional_losses i)
  end.
Proof.
  intros Hp Hm H. unfold settle_price_exposure, get_price_exposure in H.
  apply rbind_ok in H as (ex & Hex & H). apply rbind_ok in Hex as (d & _ & Hex).
  apply rbind_ok in Hex as (x & Hx%number_mul_typed & Hex). injection Hex as <-.
  rewrite from_number_id in H. destruct Hp as [[Ha Ha'] [Hc Hc'] Hsz].
  assert (is_dec (active_collateral p)) by (unfold is_dec; lia).
  assert (is_dec (counter_collateral p)) by (unfold is_dec; lia).
  apply rbind_ok in H as (mn & Hmn & H). apply signed_checked_sub_ok in Hmn as [_ Hmn]; [|auto with perps..].
  destruct (signed_leb x mn).
  - apply rbind_ok in H as (dd & Hdd & H). apply signed_checked_sub_ok in Hdd as [_ Hdd]; [|done..].
    apply rbind_ok in H as (l & Hl & H). injection H as <- <-. simpl. split_and!; try done.
    apply of_option_ok, try_into_non_negative_value_Some in Hl as [Hn ->]. unfold sval. rewrite Hn. apply Hdd.
  - destruct (signed_leb _ x).
    + injection H as <- <-. simpl. split; [auto with perps|]. by split_and!.
    + apply rbind_ok in H as (a & Hadd & H). apply rbind_ok in H as (c & Hsub & H). injection H as <- <-.
      apply nonzero_checked_add_signed_ok in Hadd as [-> ?]; [|done..].
      apply nonzero_checked_sub_signed_ok in Hsub as [-> ?]; [|done..].
      split; [done|]. split; [done|]. by split.
Qed.

Definition pending_exposure (r : MaybeClosedPosition) : Z :=
  match r with PosOpen _ => 0 | PosClose i => sval (capped_exposure i) end.
Definition instructions_typed (r : MaybeClosedPosition) : Prop :=
  match r with
  | PosOpen _ => True
  | PosClose i => signed_ok (capped_exposure i) /\ is_dec (additional_losses i)
  end.

(** The same trade, whatever its collaterals. *)
Definition same_trade (p q : Position) : Prop :=
  pos_id p = pos_id q /\ pos_owner p = pos_owner q /\ notional_size p = notional_size q.

(** The stats a liquifunding leaves. *)
Definition liquifund_stats (m : MarketCtx) (l : PositionLiquifund) : LiquidityStats :=
  match pl_liquidity_update_locked l with Some u => update_stats u | None => liquidity_stats m end.

(** The fees collected and the change of the funding total. *)
Definition collected (s : PositionFeeSettlement) : Z :=
  borrow_collected (pfs_borrow_fee_collection s) + crank_charged s.
Definition paid_after (s : PositionFeeSettlement) : Signed :=
  ffp_total_net_funding_paid (pfs_funding_fee_payment s).

(** A liquifunding computed in [m] from [pos] moves [e] out of the locked
    liquidity; [short] is what the contract loses on a position whose fees used
    up its collateral. *)
Record liquifunded (m : MarketCtx) (pos : Position) (l : PositionLiquifund) (e short : Z) : Prop := {
  lf_trade : same_trade (maybe_closed_position (pl_position l)) pos;
  lf_ok : position_ok (maybe_closed_position (pl_position l));
  lf_margins : margins_typed (pos_liquidation_margin (maybe_closed_position (pl_position l)));
  lf_instructions : instructions_typed (pl_position l);
  lf_covered : match pl_position l with
               | PosOpen p => covered p
               | PosClose _ => True
               end;
  lf_stats : stats_typed (liquifund_stats m l);
  lf_locked : locked (liquifund_stats m l) = locked (liquidity_stats m) - e;
  lf_unlocked : unlocked (liquifund_stats m l) = unlocked (liquidity_stats m);
  lf_paid : signed_ok (paid_after (pl_fee_settlement l));
  lf_active :
    active_collateral (maybe_closed_position (pl_position l)) + collected (pl_fee_settlement l)
      + (sval (paid_after (pl_fee_settlement l)) - sval (TOTAL_NET_FUNDING_PAID (m_funding m)))
    = active_collateral pos + e - pending_exposure (pl_position l) + short;
  lf_counter : counter_collateral (maybe_closed_position (pl_position l))
    = counter_collateral pos - e + pending_exposure (pl_position l);
  lf_short : short <= TINY_COLLATERAL /\
    (short = 0 \/ active_collateral pos <= settled_total (pl_fee_settlement l) \/
     U256_MAX < active_collateral pos - settled_total (pl_fee_settlement l));
}.

Context (st : State).

Lemma set_next_liquifunding_ok pos t q :
  set_next_liquifunding st pos t = Ok q ->
  exists n, q = set_pos_next_liquifunding n (set_liquifunded_at t pos).
Proof.
  unfold set_next_liquifunding. intros H. apply rbind_ok in H as (n & _ & H).
  destruct (_ =? 0); [injection H as <-; by exists n|].
  destruct (_ <=? _); [|injection H as <-; by exists n].
  apply rbind_ok in H as (n' & _ & H). injection H as <-. by exists n'.
Qed.

(** The amounts of a liquifunding that keeps the fees [pos] could pay. *)
Lemma liquifund_new_ok m pos a b c l :
  market_inv lost (sheet m) -> pos_inv pos -> position_liquifund_new st m pos a b c = Ok l ->
  exists e short, liquifunded m pos l e short.
Proof.
  intros Hinv [Hok [Hmt Hmd Hme] Hcov] H. unfold position_liquifund_new in H.
  assert (stats_typed (liquidity_stats m)) as Hstats by apply (ty_stats _ (mi_typed _ Hinv)).
  apply rbind_ok in H as (sp & _ & H). apply rbind_ok in H as (ep & _ & H).
  apply rbind_ok in H as (d0 & _ & H). apply rbind_ok in H as (fs & Hfs & H).
  apply fee_settlement_ok in Hfs as (Hb & Hfu & Hcr & Hpaid & Hpok & price & fu & bo & cr & _ & Hpos);
    [|done|done|split; apply (mi_typed _ Hinv)].
  destruct Hok as [[Ha Ha'] [Hc Hc'] Hsz].
  destruct (pfs_position fs) as [q|i].
  2:{ destruct Hpos as [-> Hpos]. injection H as <-.
      exists 0, (TINY_COLLATERAL - (active_collateral pos - settled_total fs)).
      assert (settled_total fs <= active_collateral pos) as Hle.
      { unfold covered, margin_sum in Hcov. unfold settled_total, is_dec in *. lia. }
      split; simpl; try done; try (by repeat split).
      - unfold liquifund_stats. simpl. lia.
      - unfold paid_after, collected, settled_total in *. simpl. rewrite sval_zero. lia.
      - rewrite sval_zero. lia.
      - unfold TINY_COLLATERAL in *. lia. }
  destruct Hpos as [-> [Hlo Hhi]].
  set (p1 := set_collaterals _ _ _) in *.
  assert (position_ok p1) as Hok1 by (split; simpl; done || lia).
  assert (margins_typed (pos_liquidation_margin p1)) as Hm1 by (by split).
  apply rbind_ok in H as ([r e] & Hse & H). apply settle_ok in Hse as [He Hr]; [|done|done].
  apply rbind_ok in H as (u & Hu & H).
  apply (update_locked_new_ok m _ _ None) in Hu as (Hut & Hul & Huu); [|done|auto with perps].
  simpl in Hul, Huu. rewrite sval_neg in Hul. exists (sval e), 0.
  assert (forall r', let p := maybe_closed_position r' in
    same_trade p pos -> position_ok p -> margins_typed (pos_liquidation_margin p) ->
    instructions_typed r' -> match r' with PosOpen q => covered q | PosClose _ => True end ->
    active_collateral p = active_collateral p1 + sval e - pending_exposure r' ->
    counter_collateral p = counter_collateral pos - sval e + pending_exposure r' ->
    liquifunded m pos (mkPositionLiquifund fs r' (Some u)) (sval e) 0) as Hfin.
  { intros r' q Htr Hq Hqm Hin Hcv Hqa Hqc. subst q. split; try done.
    - cbn [pl_position pl_fee_settlement]. rewrite Hqa. unfold p1, paid_after, collected, settled_total. simpl. lia.
    - unfold TINY_COLLATERAL. lia. }
  destruct r as [p2|i].
  - destruct Hr as [-> Hok2]. set (p2 := set_collaterals p1 _ _) in *.
    apply rbind_ok in H as (mg & Hmg%liquidation_margin_typed & H).
    apply rbind_ok in H as (tot & ->%margin_total_ok & H). destruct (Z.leb_spec (active_collateral p2) (margin_sum mg)).
    + injection H as <-. apply Hfin; simpl; rewrite ?sval_zero; try done; try lia.
    + apply rbind_ok in H as (d1 & _ & H). destruct (negb _).
      * injection H as <-. apply Hfin; simpl; rewrite ?sval_zero; try done; try lia.
      * apply rbind_ok in H as (p3 & (n & ->)%set_next_liquifunding_ok & H). injection H as <-.
        apply Hfin; simpl; try done; try lia.
        -- destruct Hok2. by split.
        -- unfold covered. simpl. unfold p2 in *. simpl in *. lia.
  - destruct Hr as (Hi & Hex & Hal). injection H as <-.
    apply Hfin; simpl; rewrite ?Hi, ?Hex; try done; simpl; lia.
Qed.
End Theory.
