(* ===== verification/ClosingInv.v ===== *)
(** * Closing a position pays out what it held

    Settling, closing and liquifunding keep the invariant of the market, and
    what leaves a position arrives elsewhere: the trader, the pool, the fees. *)

From stdpp Require Import base option gmap strings list pretty.
From Stdlib Require Import ZArith Lia.
From S2P Require Import Prelude Index Storage Cosmwasm Types Number Time Market Price Token DataSeries Config Position Trading State Pool LpHistory Liquidity Books LiquidityInv Fees FeesInv LiquiditySystem Funding FundingInv DeltaNeutrality DeltaNeutralityInv OpenInterest PositionStore TradeHistory BalanceSheet PositionStoreInv BalanceEffects PositionToken ClosePosition MarketInv.
Local Open Scope Z_scope.

Section Theory.
Context {CW : CosmwasmStd} {CWS : CosmwasmStdSpec CW}.
Context {lost : Collateral}.
Context (st : State).

(** ** What closing computes *)

Lemma close_settlement_ok p fee capped losses a c lp :
  position_ok p -> signed_ok fee -> signed_ok capped -> is_dec losses ->
  close_settlement p fee capped losses = Ok (a, c, lp) ->
  exists final, a = active_collateral p - sval fee + final /\ c = counter_collateral p - final /\
    sval lp = sval capped - final /\ signed_ok lp /\ is_dec a /\ is_dec c.
Proof.
  intros [[Ha Ha'] [Hc Hc'] _] Hf Hcap Hl H. unfold close_settlement in H.
  assert (is_dec (active_collateral p)) by (unfold is_dec; lia).
  assert (is_dec (counter_collateral p)) by (unfold is_dec; lia).
  apply rbind_ok in H as (u1 & _ & H). apply rbind_ok in H as (u2 & _ & H).
  apply rbind_ok in H as (act & Hact & H). apply signed_checked_sub_ok in Hact as [Hact Hactok]; [|auto with perps..].
  apply rbind_ok in H as (u3 & _ & H). apply rbind_ok in H as (wl & Hwl & H).
  apply signed_checked_sub_ok in Hwl as [_ Hwlok]; [|auto with perps..].
  set (final := signed_max wl (signed_neg act)) in *.
  assert (signed_ok final) as Hfinal by (unfold final, signed_max; destruct (signed_gtb _ _); auto with perps).
  apply rbind_ok in H as (ad & Had & H). apply signed_checked_sub_ok in Had as [Had Hadok]; [|done..].
  apply rbind_ok in H as (x & Hx & H); apply signed_checked_add_ok in Hx as [Hx Hxok]; [|done..].
  apply rbind_ok in H as (af & Haf & H). apply of_option_ok, try_into_non_negative_value_Some in Haf as [Hn ->].
  apply rbind_ok in H as (y & Hy & H). apply signed_checked_sub_ok in Hy as [Hy Hyok]; [|auto with perps..].
  apply rbind_ok in H as (cf & Hcf & H). apply of_option_ok, try_into_non_negative_value_Some in Hcf as [Hn' ->].
  injection H as <- <- <-. rewrite sval_into_signed in *. exists (sval final).
  split_and!; try done; try lia.
  - unfold sval. rewrite Hn. apply Hxok.
  - unfold sval. rewrite Hn'. apply Hyok.
Qed.

(** The amounts of a closing computed in [m], with the stats [l] it starts
    from; [final] is the exposure settled last. *)
Record closing (m : MarketCtx) (l : LiquidityStats) (i : ClosePositionInstructions)
    (e : ClosePositionExec) (final : Z) : Prop := {
  cl_id : cp_id (ce_closed_position e) = pos_id (close_pos i);
  cl_fund : cr_total_funds_after (ce_dnf e) + cr_protocol_fees (ce_dnf e) =
            default 0 (DELTA_NEUTRALITY_FUND m) + sval (cr_fee (ce_dnf e));
  cl_fund_ok : is_dec (cr_total_funds_after (ce_dnf e));
  cl_interest : adjust_open_interest_new st m (signed_neg (notional_size (close_pos i)))
                  (pos_direction (close_pos i)) false = Ok (ce_open_interest e);
  cl_stats : stats_typed (update_stats (ce_liquidity_update e)) /\
    locked (update_stats (ce_liquidity_update e)) = locked l + sval (capped_exposure i) - final /\
    unlocked (update_stats (ce_liquidity_update e)) = unlocked l;
  cl_unlock :
    let c := counter_collateral (close_pos i) - final in
    match ce_liquidity_unlock e with
    | None => c = 0
    | Some u => stats_typed (unlock_stats u) /\
        locked (unlock_stats u) = locked l + sval (capped_exposure i) - final - c /\
        unlocked (unlock_stats u) = unlocked l + c
    end;
  cl_send :
    default 0 (ce_trader_collateral_to_send e) =
      active_collateral (close_pos i) - sval (cr_fee (ce_dnf e)) + final;
}.

Lemma nonzero_new_default (x : Z) : default 0 (nonzero_new x) = x.
Proof. unfold nonzero_new, ud_is_zero. destruct (Z.eqb_spec x 0); simpl; lia. Qed.

Lemma close_position_new_ok m i lq e :
  let l := default (liquidity_stats m)
             (l ← lq; u ← pl_liquidity_update_locked l; Some (update_stats u)) in
  dnf_config (st_config st) -> sheet_typed (sheet m) -> stats_typed l ->
  position_ok (close_pos i) -> margins_typed (pos_liquidation_margin (close_pos i)) ->
  signed_ok (capped_exposure i) -> is_dec (additional_losses i) ->
  close_position_new st m i lq = Ok e ->
  ce_liquifund_via_close_msg e = lq /\ exists final, closing m l i e final.
Proof.
  intros l Hcfg Hinv Hl Hok Hmg Hcap Hal H. unfold close_position_new in H.
  apply rbind_ok in H as (dnf & Hdnf & H).
  apply charge_no_update_ok in Hdnf as (Hfee & _ & _ & Hpr & Htot & Htok);
    [|done|apply signed_neg_ok, Hok|apply (ty_interest _ Hinv)..|apply (ty_dnf _ Hinv)|intros _; apply Hmg].
  apply rbind_ok in H as (pos & Hpos & H). unfold add_delta_neutrality_fee in Hpos.
  apply rbind_ok in Hpos as (f & _ & Hpos). injection Hpos as <-.
  apply rbind_ok in H as (oi & Hoi & H). apply rbind_ok in H as ([[a c] lp] & Hse & H).
  apply close_settlement_ok in Hse as (final & -> & -> & Hlp & Hlpok & Ha & Hc);
    [|by destruct Hok; split|done..].
  simpl in *. apply rbind_ok in H as (lu & Hlu & H). fold l in Hlu.
  apply update_locked_new_ok in Hlu as (Hlut & Hlul & Hluu); [|done..]. fold l in Hlul, Hluu.
  apply rbind_ok in H as (un & Hun & H). apply rbind_ok in H as (cp & Hcp & H). injection H as <-.
  split; [done|]. exists final. split; simpl.
  - unfold closed_position_of in Hcp. apply rbind_ok in Hcp as (? & _ & Hcp).
    apply rbind_ok in Hcp as (? & _ & Hcp). apply rbind_ok in Hcp as (? & _ & Hcp).
    apply rbind_ok in Hcp as (? & _ & Hcp). by injection Hcp as <-.
  - lia.
  - done.
  - done.
  - split; [done|]. lia.
  - destruct (nonzero_new _) as [cc|] eqn:Ecc.
    + apply nonzero_new_Some in Ecc as [-> _]. apply rbind_ok in Hun as (u & Hu & Hun). injection Hun as <-.
      apply unlock_new_ok in Hu as (? & ? & ?); [|done]. simpl in *. split; [done|]. lia.
    + injection Hun as <-. pose proof (nonzero_new_default (counter_collateral (close_pos i) - final)) as Hd.
      rewrite Ecc in Hd. simpl in Hd. lia.
  - apply nonzero_new_default.
Qed.

(** ** What applying it does *)

Lemma burn_effect owner id m u m' :
  nft_burn st owner id m = Ok (u, m') -> sheet m' = with_nft (m_nft m') (sheet m).
Proof.
  unfold nft_burn, nft_decrement_tokens, mod_nft. intros H.
  step_in H a m1 H1. apply hmod_ok in H1. step_in H b m2 H2. apply hmod_ok in H2.
  step_in H c m3 H3. apply hmod_ok in H3. step_in H d m4 H4. lift_in H4 v Hv. apply hmod_ok in H4.
  pose proof (quiet_event st _ _ _ _ H) as Hq. pose proof (f_equal s_nft Hq) as Hn. simpl in Hn.
  rewrite Hq, Hn, H4, H3, H2, H1. done.
Qed.

Lemma record_closed_effect c m u m' :
  record_closed c m = Ok (u, m') ->
  exists h h', sheet m' = with_positions (set_CLOSED_POSITIONS h
    (set_CLOSED_POSITION_HISTORY h' (s_positions (sheet m)))) (sheet m).
Proof.
  unfold record_closed, mod_positions. intros H. step_in H a m1 H1. apply hmod_ok in H1 as ->. apply hmod_ok in H as ->.
  eexists _, _. reflexivity.
Qed.

(** [close_position_apply] after the liquifunding. *)
Definition close_rest (e : ClosePositionExec) : mhandler unit :=
  let closed := ce_closed_position e in
  charge_result_apply st (ce_dnf e);;;
  adjust_open_interest_apply (ce_open_interest e);;;
  liquidity_update_locked_apply st (ce_liquidity_update e);;;
  match ce_liquidity_unlock e with Some u => liquidity_unlock_apply st u | None => hret tt end;;;
  match ce_trader_collateral_to_send e with
  | Some collateral => add_token_transfer_msg (cp_owner closed) collateral
  | None => hret tt
  end;;;
  position_remove (cp_id closed);;;
  position_history_add_close st closed (cr_fee (ce_dnf e)) (ce_settlement_price e);;;
  nft_burn st (cp_owner closed) (position_token_id (cp_id closed));;;
  record_closed closed;;;
  add_event st (EvPositionClose closed).

Lemma close_position_apply_eq e :
  close_position_apply st e =
  (match ce_liquifund_via_close_msg e with
   | Some liquifund => position_liquifund_apply st liquifund;;; hret tt
   | None => hret tt
   end;;; close_rest e).
Proof. reflexivity. Qed.

(** A position with the collaterals of [p] and an exposure of [pending] still
    to be taken from the pool has left the open positions. *)
Record closed_out (s s' : Sheet) (p : Position) (pending : Z) : Prop := {
  co_locked : s_locked s' = s_locked s + pending - counter_collateral p;
  co_stats : is_dec (s_locked s') /\ is_dec (s_unlocked s');
  co_paid : s_paid s' = s_paid s;
  co_margin : is_dec (s_margin s');
  co_dnf : is_dec (s_dnf s');
  co_interest : is_dec (s_long s') /\ is_dec (s_short s');
  co_long : s_long s' = s_long s - long_size p;
  co_short : s_short s' = s_short s - short_size p;
  co_store : sheet_positions s';
  co_open : open_positions s' = delete (pos_id p) (open_positions s);
  co_was_open : is_Some (open_positions s !! pos_id p);
  co_last : LAST_POSITION_ID (s_positions s') = LAST_POSITION_ID (s_positions s);
  co_rest : same_rest s s';
  co_assets : assets s' = assets s + active_collateral p + pending;
}.

Lemma close_rest_ok m0 l i e final m u m' :
  closing m0 l i e final -> sheet_typed (sheet m0) ->
  position_ok (close_pos i) -> sheet_positions (sheet m) ->
  s_dnf (sheet m) = s_dnf (sheet m0) -> s_long (sheet m) = s_long (sheet m0) ->
  s_short (sheet m) = s_short (sheet m0) -> s_locked (sheet m) = locked l ->
  s_unlocked (sheet m) = unlocked l ->
  close_rest e m = Ok (u, m') ->
  closed_out (sheet m) (sheet m') (close_pos i) (sval (capped_exposure i)).
Proof.
  intros Hcl Hinv Hok Hst Hd Hlo Hsh Hlk Hul H. unfold close_rest in H.
  step_in H fee m1 H1. apply charge_result_effect in H1 as [_ H1].
  step_in H v2 m2 H2. destruct (adjust_interest_effect st m0 _ _ _ _ _ _ _ (proj1 (ty_interest _ Hinv))
    (proj2 (ty_interest _ Hinv)) (signed_neg_ok _ (pos_size _ Hok)) (cl_interest _ _ _ _ _ Hcl) H2) as [H2e Hint].
  destruct (cl_stats _ _ _ _ _ Hcl) as (Hst1 & Hst2 & Hst3).
  step_in H v3 m3 H3. apply update_locked_effect in H3; [|done].
  step_in H v4 m4 H4.
  assert (exists ln un, sheet m4 = with_locked ln (with_unlocked un (sheet m3)) /\ is_dec ln /\ is_dec un /\
    ln = locked l + sval (capped_exposure i) - counter_collateral (close_pos i) /\
    un = unlocked l + (counter_collateral (close_pos i) - final)) as (ln & un & H4e & Hln & Hun & Hlv & Huv).
  { pose proof (cl_unlock _ _ _ _ _ Hcl) as Hu. simpl in Hu. destruct (ce_liquidity_unlock e) as [x|].
    - destruct Hu as (Hut & Hu1 & Hu2). apply unlock_effect in H4; [|done].
      exists (locked (unlock_stats x)), (unlocked (unlock_stats x)). destruct Hut. split_and!; done || lia.
    - apply hret_ok in H4 as [_ ->]. exists (s_locked (sheet m3)), (s_unlocked (sheet m3)).
      destruct Hst1. rewrite H3. simpl. split_and!; done || lia. }
  step_in H v5 m5 H5.
  assert (sheet m5 = with_transfers (s_transfers (sheet m4) + default 0 (ce_trader_collateral_to_send e))
    (sheet m4)) as H5e.
  { destruct (ce_trader_collateral_to_send e) as [x|]; [by eapply transfer_effect|].
    apply hret_ok in H5 as [_ ->]. cbn [default]. rewrite Z.add_0_r. by destruct (sheet m4). }
  step_in H v6 m6 H6.
  assert (s_positions (sheet m5) = s_positions (sheet m) /\ s_margin (sheet m5) = s_margin (sheet m)) as [Hp5 Hm5].
  { rewrite H5e, H4e, H3, H2e, H1. by destruct (pos_direction _). }
  apply position_remove_ok in H6 as (old & store & total & Hold & H6 & Hop & Hpi & Htot & Hhist);
    [|unfold sheet_positions; by rewrite Hp5, Hm5].
  step_in H v7 m7 H7. quiet_in H7. step_in H v8 m8 H8. apply burn_effect in H8.
  step_in H v9 m9 H9. apply record_closed_effect in H9 as (h & h' & H9). quiet_in H.
  pose proof (cl_send _ _ _ _ _ Hcl) as Hsend. rewrite (cl_id _ _ _ _ _ Hcl) in *.
  pose proof (cl_fund _ _ _ _ _ Hcl) as Hfund. pose proof (cl_fund_ok _ _ _ _ _ Hcl) as Hfok.
  rewrite sval_neg in Hint.
  assert (open_positions (sheet m5) = open_positions (sheet m)) as Ho5 by (unfold open_positions; by rewrite Hp5).
  rewrite Ho5 in Hold, Hop.
  destruct Hhist as (Hlast & _ & _). change (m_positions m5) with (s_positions (sheet m5)) in Hlast.
  rewrite Hp5 in Hlast.
  pose proof (ty_interest _ Hinv) as [Hil His].
  rewrite H, H9, H8, H7, H6, H5e, H4e, H3, H2e, H1 in *. clear H H9 H8 H7 H6 H5e H4e H3 H2e H1.
  change (default 0 (DELTA_NEUTRALITY_FUND m0)) with (s_dnf (sheet m0)) in Hfund.
  set (s := sheet m) in *. set (s0 := sheet m0) in *. clearbody s s0.
  split; unfold long_size, short_size, assets; destruct (pos_direction (close_pos i)); simpl;
    rewrite ?sval_neg; try done; try lia; try (by destruct Hpi; split);
    rewrite ?Hlo, ?Hsh; done.
Qed.

Lemma liquifund_apply_effect l m r m' :
  stats_typed (liquifund_stats m l) -> position_liquifund_apply st l m = Ok (r, m') ->
  r = pl_position l /\
  sheet m' = with_stats (liquifund_stats m l) (credit (collected (pl_fee_settlement l))
               (with_paid (paid_after (pl_fee_settlement l)) (sheet m))).
Proof.
  unfold position_liquifund_apply, liquifund_stats. intros Hst H. step_in H u m1 H1.
  apply fee_settlement_effect in H1. step_in H v m2 H2. apply hret_ok in H as [-> ->].
  split; [done|]. fold (collected (pl_fee_settlement l)) in H1.
  fold (paid_after (pl_fee_settlement l)) in H1. rewrite <- H1.
  destruct (pl_liquidity_update_locked l) as [x|]; [by eapply update_locked_effect|].
  apply hret_ok in H2 as [_ ->]. by rewrite with_stats_id; rewrite ?H1.
Qed.

(** ** The invariant *)

(** The sheets differ in money only. *)
Definition same_positions (s s' : Sheet) : Prop :=
  s_positions s' = s_positions s /\ s_margin s' = s_margin s /\ s_long s' = s_long s /\
  s_short s' = s_short s /\ s_dnf s' = s_dnf s.

Lemma closed_market_inv s s1 s2 pos p pending e :
  market_inv lost s -> open_positions s !! pos_id pos = Some pos -> same_positions s s1 ->
  signed_ok (s_paid s1) -> s_locked s1 = s_locked s - e ->
  counter_collateral p = counter_collateral pos - e + pending -> same_trade p pos ->
  closed_out s1 s2 p pending ->
  market_inv lost s2 /\ active_total s2 = active_total s - active_collateral pos.
Proof.
  intros Hinv Hpos (Hp & Hm & Hlo & Hsh & Hd) Hpaid Hlk Hc (Hid & _ & Hsz) Hout.
  destruct (sizes_eq p pos Hsz) as (Hls & Hss & _).
  assert (open_positions s1 = open_positions s) as Ho1 by (unfold open_positions; by rewrite Hp).
  pose proof (co_open _ _ _ _ Hout) as Ho. rewrite Ho1, Hid in Ho.
  assert (forall f, map_sum f (open_positions s2) = map_sum f (open_positions s) - f pos) as Hsum.
  { intros f. rewrite Ho. pose proof (map_sum_delete f _ _ _ Hpos). lia. }
  split; [|unfold active_total; by rewrite Hsum].
  split; [split; [apply Hout|by rewrite (co_paid _ _ _ _ Hout)|apply Hout..]|apply Hout| | | |].
  - intros id q Hq. rewrite Ho in Hq. apply lookup_delete_Some in Hq as [_ Hq].
    rewrite (co_last _ _ _ _ Hout), Hp. by apply (mi_open _ Hinv).
  - rewrite (co_locked _ _ _ _ Hout), Hsum, <- (mi_locked _ Hinv). lia.
  - rewrite (co_long _ _ _ _ Hout), Hsum, <- (mi_long _ Hinv). lia.
  - rewrite (co_short _ _ _ _ Hout), Hsum, <- (mi_short _ Hinv). lia.
Qed.

(** ** Handlers *)

(** The invariant holds again, and what the market owes through positions and
    its own balances grows by [d]. *)
Definition conserves (lost : Collateral) (s s' : Sheet) (d : Z) : Prop :=
  market_inv lost s' /\ same_rest s s' /\ assets s' + active_total s' = assets s + active_total s + d.

(** What a position whose fees used up its collateral leaves unpaid. *)
Definition shortfall (pos : Position) (l : PositionLiquifund) (short : Z) : Prop :=
  short <= TINY_COLLATERAL /\
  (short = 0 \/ active_collateral pos <= settled_total (pl_fee_settlement l) \/
   U256_MAX < active_collateral pos - settled_total (pl_fee_settlement l)).

(** After the liquifunding of an open position. *)
Definition after_liquifund (m : MarketCtx) (l : PositionLiquifund) : Sheet :=
  with_stats (liquifund_stats m l) (credit (collected (pl_fee_settlement l))
    (with_paid (paid_after (pl_fee_settlement l)) (sheet m))).

Lemma after_liquifund_same m l : same_positions (sheet m) (after_liquifund m l).
Proof. by repeat split. Qed.

Lemma after_liquifund_assets m pos l e short :
  liquifunded m pos l e short ->
  assets (after_liquifund m l) =
    assets (sheet m) - e + collected (pl_fee_settlement l)
    + (sval (paid_after (pl_fee_settlement l)) - sval (TOTAL_NET_FUNDING_PAID (m_funding m))).
Proof. intros H. unfold assets, after_liquifund. simpl. rewrite (lf_locked _ _ _ _ _ H), (lf_unlocked _ _ _ _ _ H). unfold liquidity_stats. lia. Qed.

Lemma after_liquifund_typed m pos l e short :
  sheet_typed (sheet m) -> liquifunded m pos l e short -> sheet_typed (after_liquifund m l).
Proof.
  intros [] H. destruct (lf_stats _ _ _ _ _ H). split; simpl; try done. apply H.
Qed.

(** Closing right after a liquifunding. *)
Lemma closed_after_liquifund m pos l e short s2 :
  market_inv lost (sheet m) -> open_positions (sheet m) !! pos_id pos = Some pos ->
  liquifunded m pos l e short ->
  closed_out (after_liquifund m l) s2 (maybe_closed_position (pl_position l))
    (pending_exposure (pl_position l)) ->
  conserves lost (sheet m) s2 short.
Proof.
  intros Hinv Hpos Hl Hout.
  destruct (closed_market_inv (sheet m) (after_liquifund m l) s2 pos
    (maybe_closed_position (pl_position l)) (pending_exposure (pl_position l)) e Hinv Hpos
    (after_liquifund_same m l)) as [Hinv' Hact]; [apply Hl| |apply Hl|apply Hl|done|].
  { simpl. apply Hl. }
  split; [done|]. split; [apply (co_rest _ _ _ _ Hout)|].
  rewrite (co_assets _ _ _ _ Hout), (after_liquifund_assets _ _ _ _ _ Hl), Hact.
  pose proof (lf_active _ _ _ _ _ Hl). lia.
Qed.

(** A position stored in the place of [old]. *)
Lemma replaced_market_inv s s2 p :
  let old f := map_get f (open_positions s) (pos_id p) in
  market_inv lost s -> sheet_typed s2 -> sheet_positions s2 -> pos_inv p ->
  open_positions s2 = <[pos_id p := p]> (open_positions s) ->
  LAST_POSITION_ID (s_positions s) <= LAST_POSITION_ID (s_positions s2) ->
  pos_id p <= LAST_POSITION_ID (s_positions s2) ->
  s_locked s2 = s_locked s - old counter_collateral + counter_collateral p ->
  s_long s2 = s_long s - old long_size + long_size p ->
  s_short s2 = s_short s - old short_size + short_size p ->
  market_inv lost s2 /\ active_total s2 = active_total s - old active_collateral + active_collateral p.
Proof.
  intros old Hinv Hty Hst Hp Ho Hlast Hid Hlk Hlo Hsh.
  assert (forall f, map_sum f (open_positions s2) = map_sum f (open_positions s) - old f + f p) as Hsum.
  { intros f. rewrite Ho. apply map_sum_insert. }
  split; [|unfold active_total; by rewrite Hsum]. split; [done|done|..].
  - intros id q Hq. rewrite Ho in Hq. apply lookup_insert_Some in Hq as [[<- <-]|[_ Hq]]; [done|].
    destruct (mi_open _ Hinv _ _ Hq) as [? ?]. split; [done|lia].
  - rewrite Hsum, <- (mi_locked _ Hinv). lia.
  - rewrite Hsum, <- (mi_long _ Hinv). lia.
  - rewrite Hsum, <- (mi_short _ Hinv). lia.
Qed.

(** Saving the position a liquifunding leaves open. *)
Lemma saved_after_liquifund m pos l e short m1 p pp recalc reason p' m2 :
  market_inv lost (sheet m) -> open_positions (sheet m) !! pos_id pos = Some pos ->
  liquifunded m pos l e short -> sheet m1 = after_liquifund m l -> pl_position l = PosOpen p ->
  position_save st p pp true recalc reason m1 = Ok (p', m2) ->
  conserves lost (sheet m) (sheet m2) short /\ open_positions (sheet m2) = <[pos_id pos := p']> (open_positions (sheet m)).
Proof.
  intros Hinv Hpos Hl Hm1 Hopen H.
  destruct (mi_open _ Hinv _ _ Hpos) as [_ Hlast].
  assert (sheet_positions (sheet m1)) as Hst1 by (rewrite Hm1; apply (mi_store _ Hinv)).
  assert (open_positions (sheet m1) = open_positions (sheet m)) as Ho1 by (by rewrite Hm1).
  apply position_save_ok in H as (store & total & Hrec & _ & Hm2 & Ho & Hpi & Htot & Hh & _); [|done|done].
  pose proof Hl as [Htr Hok Hmg Hins Hcov Hlst Hlk Hul Hpaid Hac Hco Hsh].
  rewrite Hopen in *. simpl in *. destruct Htr as (Hid & _ & Hsz).
  apply position_recalc_ok in Hrec as (Hid' & _ & Ha' & Hc' & Hs' & _ & (t & Ht & Hle) & Hmargin).
  apply margin_total_ok in Ht as ->.
  assert (pos_inv p') as Hp'.
  { destruct Hok as [Hoa Hoc Hos]. split.
    - split; [by rewrite Ha'|by rewrite Hc'|by rewrite Hs'].
    - destruct recalc; [by eapply liquidation_margin_typed|by rewrite Hmargin].
    - done. }
  assert (notional_size p' = notional_size pos) as Hsz' by congruence.
  destruct (sizes_eq p' pos Hsz') as (Hls & Hss & _).
  assert (pos_id p' = pos_id pos) as Hid2 by congruence.
  change (m_positions m1) with (s_positions (sheet m1)) in Hh. rewrite Hm1 in *.
  destruct (replaced_market_inv (sheet m) (sheet m2) p' Hinv) as [Hinv' Hact];
    rewrite ?Hid2, ?(map_get_Some _ _ _ _ Hpos), ?Hls, ?Hss in *; rewrite ?Hm2; try done; simpl;
    try lia; try (rewrite Ho, Hid; done).
  - by destruct (after_liquifund_typed _ _ _ _ _ (mi_typed _ Hinv) Hl).
  - rewrite <- Hid. exact Ho.
  - rewrite Hh. simpl. lia.
  - rewrite Hh. simpl. lia.
  - split; [|rewrite <- Hid; exact Ho]. rewrite Hm2 in Hinv', Hact. split; [done|]. split; [done|].
    pose proof (after_liquifund_assets _ _ _ _ _ Hl) as Has. unfold assets in *. simpl in *. lia.
Qed.
End Theory.
