(* ===== verification/PositionMsgs.v ===== *)
(** * What the messages on positions conserve

    Each way the market touches a position keeps its invariant, and every unit
    that enters arrives somewhere: liquifunding, closing, liquidating, opening
    and the updates of an open position. *)

From stdpp Require Import base option gmap strings list pretty.
From Stdlib Require Import ZArith Lia.
From S2P Require Import Prelude Index Storage Cosmwasm Types Number Time Market Price Token DataSeries Config Position Trading State Pool LpHistory Liquidity Books LiquidityInv Fees FeesInv LiquiditySystem Funding FundingInv DeltaNeutrality DeltaNeutralityInv OpenInterest PositionStore TradeHistory BalanceSheet PositionStoreInv BalanceEffects PositionToken ClosePosition OpenPosition UpdatePosition MarketInv ClosingInv.
Local Open Scope Z_scope.

(** Up to the dust a position leaves whose fees used up its collateral. *)
Definition conserves_dust (lost : Collateral) (s s' : Sheet) (d : Z) : Prop :=
  exists short, short <= TINY_COLLATERAL /\ conserves lost s s' (d + short).

Lemma rest_trans s1 s2 s3 : same_rest s1 s2 -> same_rest s2 s3 -> same_rest s1 s3.
Proof. intros (?&?&?&?&?) (?&?&?&?&?). split_and!; congruence. Qed.

Lemma conserves_trans {lost} s1 s2 s3 d e :
  conserves lost s1 s2 d -> conserves lost s2 s3 e -> conserves lost s1 s3 (d + e).
Proof.
  intros (_ & H1 & H2) (H3 & H4 & H5). split; [done|]. split; [by eapply rest_trans|]. lia.
Qed.

Section Theory.
Context {CW : CosmwasmStd} {CWS : CosmwasmStdSpec CW}.
Context {lost : Collateral}.

(** ** The numbers of a new size and a new counter collateral *)

Lemma op_div_dec (a b c : Z) : op_div a b = Ok c -> is_dec c.
Proof. by intros (_ & -> & ?)%op_div_ok. Qed.

Lemma try_map_typed f s r :
  (forall x y, f x = Ok y -> is_dec y) -> try_map f s = Ok r -> signed_ok r.
Proof.
  unfold try_map. intros Hf (v & Hv%Hf & H)%rbind_ok. injection H as <-.
  destruct (is_negative s); auto with perps.
Qed.

Lemma clamp_typed (v lo hi c : Z) : clamp v lo hi = Ok c -> 0 <= lo -> is_dec hi -> is_dec c.
Proof. unfold clamp, is_dec. destruct (Z.leb_spec lo hi); [|done]. intros [= <-]. lia. Qed.

(** A counter collateral within the limits of the size. *)
Lemma clamped_counter size config pp req c :
  (in_collateral <- notional_to_collateral pp (abs_unsigned size);
   max_leverage <- of_option (AnyhowError "Impossible negative max_leverage")
                     (try_into_non_negative_value (max_leverage config));
   min_counter_collateral <- checked_div_dec in_collateral max_leverage;
   counter <- clamp req min_counter_collateral in_collateral;
   of_option (AnyhowError "Calculated counter_collateral is 0") (nonzero_new counter)) = Ok c ->
  0 < c <= U256_MAX.
Proof.
  intros (ic & Hic%op_mul_dec & H)%rbind_ok. apply rbind_ok in H as (ml & _ & H).
  apply rbind_ok in H as (mn & Hmn & H). unfold checked_div_dec in Hmn.
  apply std_ok, dec_div_Some in Hmn as (_ & -> & Hmn).
  apply rbind_ok in H as (cc & Hcc & H). apply clamp_typed in Hcc; [|apply Hmn|done].
  apply of_option_ok, nonzero_new_Some in H as [-> ?]. unfold is_dec in Hcc. lia.
Qed.

Lemma take_profit_calc_typed t c : take_profit_calc t = Ok c -> 0 < c <= U256_MAX.
Proof.
  unfold take_profit_calc. intros (size & _ & H)%rbind_ok.
  apply rbind_ok in H as (ic & Hic%op_mul_dec & H). apply rbind_ok in H as (ml & _ & H).
  apply rbind_ok in H as (mn & Hmn & H). unfold checked_div_dec in Hmn.
  apply std_ok, dec_div_Some in Hmn as (_ & -> & Hmn). apply rbind_ok in H as (rq & _ & H).
  apply rbind_ok in H as (cc & Hcc & H). apply clamp_typed in Hcc; [|apply Hmn|done].
  apply of_option_ok, nonzero_new_Some in H as [-> ?]. unfold is_dec in Hcc. lia.
Qed.

Lemma trade_fee_typed cfg a b c d fee : calculate_trade_fee cfg a b c d = Ok fee -> is_dec fee.
Proof.
  unfold calculate_trade_fee. intros (x & _ & H)%rbind_ok. apply rbind_ok in H as (y & _ & H).
  apply of_option_ok in H. destruct (ud_checked_add x y) as [v|] eqn:E; [|done].
  injection H as <-. by apply ud_add_ok in E as [-> ?].
Qed.

Context (st : State).
Hypothesis Hcfg : dnf_config (st_config st).

(** The delta neutrality fee moves from the position to its fund and to the
    protocol. *)
Lemma charge_fee_ok m pos size pp reason r q :
  sheet_typed (sheet m) -> signed_ok size -> is_dec (active_collateral pos) ->
  (reason <> PositionOpen -> is_dec (margin_delta_neutrality (pos_liquidation_margin pos))) ->
  charge_delta_neutrality_fee st m pos size pp reason = Ok (r, q) ->
  exists f, q = set_delta_neutrality_fee
      (set_collaterals pos (active_collateral pos - sval (cr_fee r)) (counter_collateral pos)) f /\
    0 < active_collateral pos - sval (cr_fee r) <= U256_MAX /\ is_dec (cr_total_funds_after r) /\
    cr_total_funds_after r + cr_protocol_fees r = s_dnf (sheet m) + sval (cr_fee r).
Proof.
  intros Hty Hsz Ha Hmg H. unfold charge_delta_neutrality_fee in H.
  apply rbind_ok in H as (r' & Hr & H).
  apply charge_no_update_ok in Hr as (Hfee & _ & _ & _ & Htot & Hok);
    [|done|done|apply (ty_interest _ Hty)..|apply (ty_dnf _ Hty)|done].
  apply rbind_ok in H as (a & Hact & H).
  apply nonzero_checked_sub_signed_ok in Hact as [-> Hact]; [|done..].
  apply rbind_ok in H as (q' & Hq & H). injection H as -> <-. unfold add_delta_neutrality_fee in Hq.
  apply rbind_ok in Hq as (f & _ & Hq). injection Hq as <-. exists f. split_and!; try done; try lia.
  simpl. lia.
Qed.

Lemma recalc_pos_inv p pp recalc p' :
  position_recalc st p pp recalc = Ok p' -> position_ok p ->
  margins_typed (pos_liquidation_margin p) ->
  pos_inv p' /\ pos_id p' = pos_id p /\ pos_owner p' = pos_owner p /\
  active_collateral p' = active_collateral p /\ counter_collateral p' = counter_collateral p /\
  notional_size p' = notional_size p.
Proof.
  intros (Hid & Ho & Ha & Hc & Hs & _ & (t & Ht & Hle) & Hm)%position_recalc_ok [] Hmg.
  apply margin_total_ok in Ht as ->. split_and!; try done. split; [|destruct recalc|done].
  - split; by rewrite ?Ha, ?Hc, ?Hs.
  - by eapply liquidation_margin_typed.
  - by rewrite Hm.
Qed.

(** ** Liquifunding and closing *)

Lemma get_open m id pos :
  market_inv lost (sheet m) -> get_position m id = Ok pos ->
  pos_id pos = id /\ open_positions (sheet m) !! pos_id pos = Some pos /\ pos_inv pos.
Proof.
  intros Hinv H%get_position_ok. pose proof (pi_ids _ _ (mi_store _ Hinv) _ _ H) as <-.
  split; [done|]. split; [exact H|]. by destruct (mi_open _ Hinv _ _ H).
Qed.

(** Closing with the instructions of a liquifunding that was applied. *)
Lemma close_after_apply m pos l e short m1 i ce u m2 :
  market_inv lost (sheet m) -> open_positions (sheet m) !! pos_id pos = Some pos ->
  liquifunded m pos l e short -> sheet m1 = after_liquifund m l ->
  close_pos i = maybe_closed_position (pl_position l) ->
  sval (capped_exposure i) = pending_exposure (pl_position l) ->
  signed_ok (capped_exposure i) -> is_dec (additional_losses i) ->
  close_position_new st m1 i None = Ok ce -> close_position_apply st ce m1 = Ok (u, m2) ->
  conserves lost (sheet m) (sheet m2) short.
Proof.
  intros Hinv Hpos Hl Hm1 Hi Hx Hxo Hal Hce H.
  pose proof (after_liquifund_typed _ _ _ _ _ (mi_typed _ Hinv) Hl) as Hty. rewrite <- Hm1 in Hty.
  pose proof (lf_ok _ _ _ _ _ Hl) as Hok. rewrite <- Hi in Hok.
  apply close_position_new_ok in Hce as (Hlq & final & Hcl); try done; [| |rewrite Hi; apply Hl].
  2:{ simpl. destruct Hty as [Hs _ _ _ _]. exact Hs. }
  rewrite close_position_apply_eq, Hlq in H. step_in H v m3 H3. apply hret_ok in H3 as [_ ->].
  eapply close_rest_ok in H; try done; [|rewrite Hm1; apply (mi_store _ Hinv)].
  eapply closed_after_liquifund; try done. by rewrite <- Hm1, <- Hi, <- Hx.
Qed.

Lemma liquifund_store_conserves m pos a b c reason u m' :
  market_inv lost (sheet m) -> open_positions (sheet m) !! pos_id pos = Some pos ->
  position_liquifund_store st pos a b c reason m = Ok (u, m') ->
  conserves_dust lost (sheet m) (sheet m') 0.
Proof.
  intros Hinv Hpos H. unfold position_liquifund_store in H. lift_in H l Hl.
  destruct (mi_open _ Hinv _ _ Hpos) as [Hp _].
  apply (liquifund_new_ok (lost:=lost)) in Hl as (e & short & Hl); [|done..].
  step_in H r m1 H1. apply liquifund_apply_effect in H1 as [-> H1]; [|apply Hl].
  pose proof (lf_short _ _ _ _ _ Hl) as [Hdust _].
  destruct (pl_position l) as [p|i] eqn:Ep.
  - lift_in H pp Hpp. step_in H p' m2 H2. apply hret_ok in H as [_ ->].
    eapply saved_after_liquifund in H2 as [Hc _]; try done. by exists short.
  - lift_in H ce Hce. exists short. split; [done|].
    pose proof (lf_instructions _ _ _ _ _ Hl) as Hit. rewrite Ep in Hit. destruct Hit.
    eapply close_after_apply; try done; by rewrite Ep.
Qed.

(** A close message settles the position first; the amounts of both are
    computed before either is written. *)
Lemma close_msg_conserves m pos pp ce u m' :
  market_inv lost (sheet m) -> open_positions (sheet m) !! pos_id pos = Some pos ->
  close_position_new_via_msg st m pos pp = Ok ce -> close_position_apply st ce m = Ok (u, m') ->
  conserves_dust lost (sheet m) (sheet m') 0.
Proof.
  intros Hinv Hpos Hce H. unfold close_position_new_via_msg in Hce.
  destruct (mi_open _ Hinv _ _ Hpos) as [Hp _].
  apply rbind_ok in Hce as (l & Hl & Hce). apply (liquifund_new_ok (lost:=lost)) in Hl as (e & short & Hl); [|done..].
  set (i := match pl_position l with PosOpen _ => _ | PosClose _ => _ end) in Hce.
  assert (close_pos i = maybe_closed_position (pl_position l) /\
    sval (capped_exposure i) = pending_exposure (pl_position l) /\
    signed_ok (capped_exposure i) /\ is_dec (additional_losses i)) as (Hi & Hx & Hxo & Hal).
  { pose proof (lf_instructions _ _ _ _ _ Hl) as Hit. unfold i.
    destruct (pl_position l); simpl in *; [|by destruct Hit]. split_and!; auto with perps. }
  pose proof (lf_ok _ _ _ _ _ Hl) as Hok. rewrite <- Hi in Hok.
  assert (default (liquidity_stats m) (l ← Some l; u ← pl_liquidity_update_locked l; Some (update_stats u))
    = liquifund_stats m l) as Hst by (unfold liquifund_stats; simpl; by destruct (pl_liquidity_update_locked l)).
  apply close_position_new_ok in Hce as (Hlq & final & Hcl); try done; rewrite ?Hst in *;
    try (by apply (mi_typed _ Hinv)); try (by apply Hl); [|rewrite Hi; apply Hl].
  rewrite close_position_apply_eq, Hlq in H. step_in H v m1 H1. step_in H1 r m2 H2.
  apply hret_ok in H1 as [_ ->]. apply liquifund_apply_effect in H2 as [_ H2]; [|apply Hl].
  exists short. split; [apply (lf_short _ _ _ _ _ Hl)|].
  eapply close_rest_ok in H; try done; try (by rewrite H2);
    [|apply (mi_typed _ Hinv)|rewrite H2; apply (mi_store _ Hinv)].
  eapply closed_after_liquifund; try done. unfold after_liquifund. by rewrite <- H2, <- Hi, <- Hx.
Qed.

(** ** Opening *)

Record opening (m : MarketCtx) (o : OpenPositionParams) (e : OpenPositionExec) : Prop := {
  og_id : pos_id (oe_pos e) = LAST_POSITION_ID (m_positions m) + 1;
  og_owner : pos_owner (oe_pos e) = op_owner o;
  og_ok : position_ok (oe_pos e);
  og_margins : margins_typed (pos_liquidation_margin (oe_pos e));
  og_active : active_collateral (oe_pos e) + cu_collateral (pos_trading_fee (oe_pos e))
    + sval (cr_fee (oe_delta_neutrality_fee e)) = op_collateral o;
  og_fund : is_dec (cr_total_funds_after (oe_delta_neutrality_fee e)) /\
    cr_total_funds_after (oe_delta_neutrality_fee e) + cr_protocol_fees (oe_delta_neutrality_fee e)
    = s_dnf (sheet m) + sval (cr_fee (oe_delta_neutrality_fee e));
  og_interest : adjust_open_interest_new st m (notional_size (oe_pos e))
    (pos_direction (oe_pos e)) true = Ok (oe_open_interest e);
  og_lock : let l := lock_stats (oe_liquidity e) in let c := counter_collateral (oe_pos e) in
    stats_typed l /\ locked l = s_locked (sheet m) + c /\ unlocked l = s_unlocked (sheet m) - c;
}.

Lemma initial_position_ok m o counter size pp p :
  open_initial_position st m o counter size pp = Ok p ->
  pos_id p = LAST_POSITION_ID (m_positions m) + 1 /\ pos_owner p = op_owner o /\
  active_collateral p = op_collateral o /\ counter_collateral p = counter /\
  notional_size p = size /\ pos_trading_fee p = mkCollateralAndUsd 0 0.
Proof.
  unfold open_initial_position. intros (id & Hid & H)%rbind_ok.
  apply u64_checked_ok in Hid as [-> _]. do 4 (apply rbind_ok in H as (? & _ & H)).
  apply set_next_liquifunding_ok in H as (n & ->). by split_and!.
Qed.

Lemma open_position_new_ok m o pp e :
  sheet_typed (sheet m) -> 0 < op_collateral o <= U256_MAX ->
  open_position_new st m o pp = Ok e -> opening m o e.
Proof.
  intros Hty Hcol H. unfold open_position_new in H.
  apply rbind_ok in H as (l & _ & H). apply rbind_ok in H as (sc & _ & H).
  apply rbind_ok in H as (size & Hsize & H). apply try_map_typed in Hsize; [|intros x y; exact (op_div_dec x _ y)].
  apply rbind_ok in H as (u1 & _ & H). apply rbind_ok in H as (cc & Hcc%take_profit_calc_typed & H).
  apply rbind_ok in H as (p & Hp & H).
  apply initial_position_ok in Hp as (Hid & Ho & Ha & Hc & Hs & Hf).
  apply rbind_ok in H as (vol & _ & H). apply rbind_ok in H as (u2 & _ & H).
  apply rbind_ok in H as (u3 & _ & H). apply rbind_ok in H as (fee & Hfee%trade_fee_typed & H).
  apply rbind_ok in H as (tf & Htf & H). unfold cu_checked_add_assign in Htf.
  apply rbind_ok in Htf as (c1 & Hc1 & Htf). rewrite Hf in Hc1. simpl in Hc1.
  apply ud_add_ok in Hc1 as [-> _]. apply rbind_ok in Htf as (? & _ & Htf).
  apply rbind_ok in Htf as (? & _ & Htf). injection Htf as <-. simpl in H.
  apply rbind_ok in H as (act & Hact & H). rewrite Ha in Hact. unfold is_dec in Hfee.
  apply nonzero_checked_sub_ok in Hact as [-> Hlt]; [|unfold is_dec; lia|lia].
  apply rbind_ok in H as ([dnf q] & Hq & H).
  apply charge_fee_ok in Hq as (f & -> & Hq & Hfo & Hfs); [|done|done|simpl; unfold is_dec; lia|done].
  simpl in *. apply rbind_ok in H as (lk & Hlk & H).
  apply lock_new_ok in Hlk as (Hl1 & Hl2 & Hl3); [|simpl; apply (ty_stats _ Hty)]. simpl in *.
  apply rbind_ok in H as (mg & Hmg%liquidation_margin_typed & H).
  apply rbind_ok in H as (tot & _ & H). apply rbind_ok in H as (u4 & _ & H).
  apply rbind_ok in H as (oi & Hoi & H). injection H as <-.
  split; simpl; try done; try lia.
  split; simpl; [done|by rewrite Hc|by rewrite Hs].
Qed.

Lemma mint_effect owner id m u m' :
  nft_mint st owner id m = Ok (u, m') -> sheet m' = with_nft (m_nft m') (sheet m).
Proof.
  unfold nft_mint, nft_increment_tokens, save_approvals, mod_nft. intros H.
  step_in H a m1 H1. apply hmod_ok in H1. step_in H b m2 H2. apply hmod_ok in H2.
  step_in H c m3 H3. apply hmod_ok in H3. step_in H d m4 H4. lift_in H4 v Hv. apply hmod_ok in H4.
  pose proof (quiet_event st _ _ _ _ H) as Hq. pose proof (f_equal s_nft Hq) as Hn. simpl in Hn.
  rewrite Hq, Hn, H4, H3, H2, H1. done.
Qed.

(** A change of [x] in the size of the positions of a direction. *)
Definition long_part (d : DirectionToNotional) (x : Z) : Z :=
  match d with LongToNotional => x | ShortToNotional => 0 end.
Definition short_part (d : DirectionToNotional) (x : Z) : Z :=
  match d with LongToNotional => 0 | ShortToNotional => - x end.

Lemma with_interest_eq d diff s0 s :
  s_long s = s_long s0 -> s_short s = s_short s0 ->
  with_interest d diff s0 s =
  with_long (s_long s0 + long_part d (sval diff)) (with_short (s_short s0 + short_part d (sval diff)) s).
Proof.
  intros Hl Hs. destruct s, d; unfold with_interest, with_long, with_short; simpl in *; f_equal; lia.
Qed.

(** The interest after the adjustment [a] computed for [diff]. *)
Lemma interest_moved m m1 m2 a d diff b u :
  sheet_typed (sheet m) -> signed_ok diff -> adjust_open_interest_new st m diff d b = Ok a ->
  adjust_open_interest_apply a m1 = Ok (u, m2) ->
  s_long (sheet m1) = s_long (sheet m) -> s_short (sheet m1) = s_short (sheet m) ->
  let l := s_long (sheet m) + long_part d (sval diff) in
  let s := s_short (sheet m) + short_part d (sval diff) in
  sheet m2 = with_long l (with_short s (sheet m1)) /\ is_dec l /\ is_dec s.
Proof.
  intros Hty Hd Ha H Hm1 Hm1'. destruct (ty_interest _ Hty) as [Hl Hs].
  destruct (adjust_interest_effect st m _ _ _ _ _ _ _ Hl Hs Hd Ha H) as [-> Hit].
  rewrite with_interest_eq by done. split; [done|]. destruct d; simpl; rewrite Z.add_0_r; [done|].
  split; [done|]. by replace (s_short (sheet m) + - sval diff) with (s_short (sheet m) - sval diff) by lia.
Qed.

Lemma map_get_None {A} (f : A -> Z) (m : gmap Z A) i : m !! i = None -> map_get f m i = 0.
Proof. unfold map_get. by intros ->. Qed.

(** What opening leaves: the position is stored and the rest of the deposit is
    in the fees and the fund. *)
Lemma open_position_conserves m o pp e reason id m' :
  market_inv lost (sheet m) -> 0 < op_collateral o <= U256_MAX ->
  open_position_new st m o pp = Ok e -> open_position_apply st e reason m = Ok (id, m') ->
  conserves lost (sheet m) (sheet m') (op_collateral o) /\
  exists p, id = pos_id p /\ pos_owner p = op_owner o /\
    open_positions (sheet m') = <[id := p]> (open_positions (sheet m)) /\
    open_positions (sheet m) !! id = None.
Proof.
  intros Hinv Hcol He H. apply open_position_new_ok in He; [|apply (mi_typed _ Hinv)|done].
  destruct He as [Hid Hown Hok Hmg Hact [Hfo Hfs] Hint Hlk]. unfold open_position_apply in H.
  set (p := oe_pos e) in *. destruct Hlk as (Hlt & Hll & Hlu).
  assert (open_positions (sheet m) !! pos_id p = None) as Hfree.
  { destruct (open_positions (sheet m) !! pos_id p) as [q|] eqn:E; [|done].
    apply (mi_open _ Hinv) in E as [_ E]. rewrite Hid in E. simpl in E. lia. }
  step_in H u1 m1 H1. quiet_in H1. step_in H u2 m2 H2.
  eapply interest_moved in H2 as (H2e & Hil & His); [|apply (mi_typed _ Hinv)|apply Hok|done|by rewrite H1..].
  step_in H u3 m3 H3. apply trading_fee_effect in H3.
  step_in H u4 m4 H4. apply charge_result_effect in H4 as [_ H4].
  step_in H u5 m5 H5. apply lock_effect in H5; [|done].
  step_in H p' m6 H6.
  assert (s_positions (sheet m5) = s_positions (sheet m) /\ s_margin (sheet m5) = s_margin (sheet m)) as [Hp5 Hm5].
  { by rewrite H5, H4, H3, H2e, H1. }
  assert (open_positions (sheet m5) = open_positions (sheet m)) as Ho5 by (unfold open_positions; by rewrite Hp5).
  apply position_save_ok in H6 as (store & total & Hrec & _ & H6 & Hop & Hpi & Htot & Hhist);
    [|unfold sheet_positions; rewrite Hp5, Hm5; apply (mi_store _ Hinv)|by rewrite Ho5].
  apply recalc_pos_inv in Hrec as (Hpv & Hid' & Hown' & Ha' & Hc' & Hs'); [|done..].
  step_in H u7 m7 H7. apply mint_effect in H7. unfold mod_positions in H.
  step_in H u8 m8 H8. apply hmod_ok in H8.
  assert (sheet m8 = with_positions (set_LAST_POSITION_ID (pos_id p') (s_positions (sheet m7))) (sheet m7)) as H8e
    by (by rewrite H8).
  lift_in H fee Hfee. lift_in H d Hd. destruct d as [dir lev]. lift_in H cl Hcl. destruct cl as [cd clv].
  step_in H u9 m9 H9. quiet_in H9. lift_in H at_ Hat. step_in H u10 m10 H10. quiet_in H10.
  apply hret_ok in H as [-> ->]. rewrite Ho5, <- Hid' in Hop. rewrite <- Hid' in Hfree.
  destruct (sizes_eq p' p Hs') as (Hls & Hss & _).
  assert (exists h, sheet m10 = with_positions (set_LAST_POSITION_ID (pos_id p') store) (with_nft h
    (with_margin total (with_stats (lock_stats (oe_liquidity e)) (credit (cu_collateral (pos_trading_fee p)
      + cr_protocol_fees (oe_delta_neutrality_fee e)) (with_dnf (cr_total_funds_after (oe_delta_neutrality_fee e))
      (with_long (s_long (sheet m) + long_size p) (with_short (s_short (sheet m) + short_size p)
        (sheet m))))))))) as [h Hfin].
  { exists (m_nft m7). rewrite H10, H9, H8e, H7, H6, H5, H4, H3, H2e, H1. unfold credit. simpl.
    rewrite Z.add_assoc. reflexivity. }
  clear H1 H2e H3 H4 H5 H6 H7 H8e H9 H10 H8.
  destruct (replaced_market_inv (sheet m) (sheet m10) p' Hinv) as [Hinv' Hat'];
    rewrite ?(map_get_None _ _ _ Hfree), ?Hls, ?Hss, ?Hc', ?Ha', ?Hfin in *; simpl in *; try done; try lia.
  - destruct Hlt. destruct (mi_typed _ Hinv). by split.
  - by destruct Hpi; split.
  - split; [|exists p'; by rewrite Hown', Hown]. split; [done|]. split; [done|]. 
    unfold assets. simpl. lia.
Qed.

(** ** Updating *)

(** A new version [p] of the open position [pos], and [d] more in the books. *)
Lemma updated_conserves s s2 pos p d :
  market_inv lost s -> open_positions s !! pos_id pos = Some pos -> pos_id p = pos_id pos ->
  pos_inv p -> sheet_typed s2 -> sheet_positions s2 ->
  open_positions s2 = <[pos_id p := p]> (open_positions s) ->
  LAST_POSITION_ID (s_positions s2) = LAST_POSITION_ID (s_positions s) ->
  s_locked s2 = s_locked s - counter_collateral pos + counter_collateral p ->
  s_long s2 = s_long s - long_size pos + long_size p ->
  s_short s2 = s_short s - short_size pos + short_size p -> same_rest s s2 ->
  assets s2 + active_collateral p = assets s + active_collateral pos + d ->
  conserves lost s s2 d.
Proof.
  intros Hinv Hpos Hid Hp Hty Hst Ho Hl Hlk Hlo Hsh Hr Ha.
  destruct (mi_open _ Hinv _ _ Hpos) as [_ Hlast].
  destruct (replaced_market_inv s s2 p Hinv) as [Hinv' Hact];
    rewrite ?Hid, ?(map_get_Some _ _ _ _ Hpos) in *; try done; try lia.
  split; [done|]. split; [done|]. lia.
Qed.

Lemma refund_amount x : signed_ok x -> default 0 (try_into_non_zero x) = Z.max 0 (sval x).
Proof.
  intros [Hv Hneg]. unfold is_dec in Hv. destruct (try_into_non_zero x) as [v|] eqn:E; simpl.
  - apply try_into_non_zero_Some in E as (Hn & -> & _). unfold sval. rewrite Hn. lia.
  - destruct (Z.leb_spec (sval x) 0) as [|Hx]; [lia|]. exfalso.
    assert (negative x = false) as Hn by (destruct (negative x) eqn:N; [unfold sval in Hx; rewrite N in Hx; lia|done]).
    assert (try_into_non_zero x = Some (sval x)) as E' by (apply try_into_non_zero_Some; split_and!; done || lia).
    by rewrite E in E'.
Qed.

Lemma refund_effect p delta m u m' :
  signed_ok delta ->
  refund_apply p (try_into_non_zero (signed_neg delta)) m = Ok (u, m') ->
  sheet m' = with_transfers (s_transfers (sheet m) + Z.max 0 (- sval delta)) (sheet m).
Proof.
  intros Hd H. unfold refund_apply in H. rewrite <- sval_neg, <- refund_amount by auto with perps.
  destruct (try_into_non_zero (signed_neg delta)) as [x|].
  - by apply transfer_effect in H as ->.
  - apply hret_ok in H as [_ ->]. cbn [default]. rewrite Z.add_0_r. by destruct (sheet m).
Qed.

Lemma quiet_emit e p pp : quiet (update_event_emit st e p pp).
Proof. unfold update_event_emit. quiet. Qed.

(** Storing a new version of an open position. *)
Lemma save_update m m1 pos p pp recalc reason p' m2 :
  market_inv lost (sheet m) -> open_positions (sheet m) !! pos_id pos = Some pos ->
  s_positions (sheet m1) = s_positions (sheet m) -> s_margin (sheet m1) = s_margin (sheet m) ->
  pos_id p = pos_id pos -> position_ok p -> margins_typed (pos_liquidation_margin p) ->
  position_save st p pp true recalc reason m1 = Ok (p', m2) ->
  exists store total, sheet m2 = with_store store total (sheet m1) /\ positions_inv store total /\
    is_dec total /\ OPEN_POSITIONS store = <[pos_id p' := p']> (open_positions (sheet m)) /\
    LAST_POSITION_ID store = LAST_POSITION_ID (s_positions (sheet m)) /\
    pos_inv p' /\ pos_id p' = pos_id pos /\ active_collateral p' = active_collateral p /\
    counter_collateral p' = counter_collateral p /\ notional_size p' = notional_size p.
Proof.
  intros Hinv Hpos Hst Hmg Hid Hok Hm H.
  apply position_save_ok in H as (store & total & Hrec & _ & Hs & Ho & Hpi & Ht & Hh & _); [|
    unfold sheet_positions; rewrite Hst, Hmg; apply (mi_store _ Hinv)|done].
  apply recalc_pos_inv in Hrec as (Hp & Hid' & _ & Ha & Hc & Hs'); [|done..].
  change (m_positions m1) with (s_positions (sheet m1)) in Hh. rewrite Hst in Hh.
  unfold open_positions in Ho. rewrite Hst, <- Hid' in Ho.
  exists store, total. split_and!; try done. congruence.
Qed.

Lemma update_collateral_conserves m pos delta pp e u m' :
  market_inv lost (sheet m) -> open_positions (sheet m) !! pos_id pos = Some pos -> signed_ok delta ->
  update_collateral_new st pos delta pp = Ok e -> update_collateral_apply st e m = Ok (u, m') ->
  conserves lost (sheet m) (sheet m') (Z.max 0 (sval delta)).
Proof.
  intros Hinv Hpos Hd He H. destruct (mi_open _ Hinv _ _ Hpos) as [[[[Ha Ha'] Hc Hs] Hmg _] _].
  unfold update_collateral_new in He. apply rbind_ok in He as (a & Hact & He).
  apply nonzero_checked_add_signed_ok in Hact as [-> Hact]; [|unfold is_dec; lia|done].
  apply rbind_ok in He as (dep & _ & He). apply rbind_ok in He as (vol & _ & He).
  apply rbind_ok in He as (u1 & _ & He). apply rbind_ok in He as (u2 & _ & He).
  apply rbind_ok in He as (ev & _ & He). injection He as <-.
  unfold update_collateral_apply in H. simpl in H. step_in H v1 m1 H1. quiet_in H1.
  step_in H v2 m2 H2. pose proof (quiet_emit _ _ _ _ _ _ H2) as H2e. step_in H p m3 H3.
  eapply (save_update m) in H3 as (store & total & Hs3 & Hpi & Htot & Ho & Hl & Hp & Hid & Hpa & Hpc & Hps);
    try done; rewrite ?H2e, ?H1; try done; try (by split).
  apply refund_effect in H; [|done]. simpl in Hpa, Hpc, Hps.
  destruct (sizes_eq p pos Hps) as (Hls & Hss & _). destruct (mi_typed _ Hinv).
  eapply (updated_conserves _ _ pos p); try done; rewrite H, Hs3, H2e, H1; simpl; try done; try lia.
  unfold assets. simpl. lia.
Qed.

Lemma is_strictly_positive_sval x : signed_ok x -> is_strictly_positive x = (0 <? sval x).
Proof.
  intros [Hv Hn]. unfold is_dec in Hv. unfold is_strictly_positive, signed_is_zero, ud_is_zero, is_negative, sval.
  destruct (negative x); destruct (Z.eqb_spec (value x) 0) as [E|E]; simpl; symmetry;
    try (by apply Z.ltb_ge; lia); by apply Z.ltb_lt; lia.
Qed.

(** A change of the counter collateral by [delta] locks or unlocks as much. *)
Lemma liquidity_update_effect m m1 delta pp oi x u m2 :
  sheet_typed (sheet m) -> signed_ok delta ->
  s_locked (sheet m1) = s_locked (sheet m) -> s_unlocked (sheet m1) = s_unlocked (sheet m) ->
  liquidity_update_new st m delta pp oi = Ok x -> liquidity_update_apply st x m1 = Ok (u, m2) ->
  exists l, sheet m2 = with_stats l (sheet m1) /\ stats_typed l /\
    locked l = s_locked (sheet m) + sval delta /\ unlocked l = s_unlocked (sheet m) - sval delta.
Proof.
  intros Hty Hd Hl Hu Hx H. pose proof (ty_stats _ Hty) as Hst. unfold liquidity_update_new in Hx.
  destruct (nonzero_new (abs_unsigned delta)) as [a|] eqn:E.
  - apply nonzero_new_Some in E as [-> Ha]. destruct (is_strictly_positive delta) eqn:Hp.
    + rewrite is_strictly_positive_sval in Hp by done. apply Z.ltb_lt in Hp. apply rbind_ok in Hx as (net & _ & Hx).
      apply rbind_ok in Hx as (lk & Hlk & Hx). injection Hx as <-.
      apply lock_new_ok in Hlk as (Ht & H1 & H2); [|done]. apply lock_effect in H; [|done].
      exists (lock_stats lk). simpl in *. unfold abs_unsigned in *. rewrite <- sval_abs in * by done.
      split_and!; try done; lia.
    + rewrite is_strictly_positive_sval in Hp by done. apply Z.ltb_ge in Hp.
      apply rbind_ok in Hx as (lk & Hlk & Hx). injection Hx as <-.
      apply unlock_new_ok in Hlk as (Ht & H1 & H2); [|done]. apply unlock_effect in H; [|done].
      exists (unlock_stats lk). simpl in *. unfold abs_unsigned in *. rewrite <- sval_abs in * by done.
      split_and!; try done; lia.
  - injection Hx as <-. apply hret_ok in H as [_ ->].
    assert (sval delta = 0) as Hz.
    { unfold nonzero_new, ud_is_zero in E. destruct (Z.eqb_spec (abs_unsigned delta) 0) as [E0|]; [|done].
      unfold abs_unsigned in E0. unfold sval. rewrite E0. by destruct (negative delta). }
    exists (liquidity_stats m). simpl in *. split; [rewrite with_stats_id; done|]. split; [done|lia].
Qed.

Lemma same_direction mt pos pp cur u :
  position_validate_leverage_data st mt pos pp (Some cur) = Ok u -> pos_direction pos = pos_direction cur.
Proof.
  unfold position_validate_leverage_data. intros (v & Hv & _)%rbind_ok.
  apply ensure_ok, bool_decide_eq_true in Hv. by destruct mt, (pos_direction pos), (pos_direction cur).
Qed.

Lemma charge_trading_fee_ok pos fee pp q :
  is_dec (active_collateral pos) -> is_dec fee -> charge_trading_fee pos fee pp = Ok q ->
  exists t, q = set_pos_trading_fee t (set_active_collateral (active_collateral pos - fee) pos) /\
    0 < active_collateral pos - fee.
Proof.
  intros Ha Hf H. unfold charge_trading_fee in H. apply rbind_ok in H as (a & Hact & H).
  apply nonzero_checked_sub_ok in Hact as [-> Hlt]; [|done|apply Hf].
  apply rbind_ok in H as (t & _ & H). injection H as <-. exists t. split; [done|lia].
Qed.

(** Changing the size and the counter collateral of [original] as in [pos0]. *)
Record resizing (m : MarketCtx) (original pos0 : Position) (delta : Signed) (e : PositionResize) : Prop := {
  rz_id : pos_id (rs_pos e) = pos_id pos0;
  rz_ok : position_ok (rs_pos e);
  rz_margins : pos_liquidation_margin (rs_pos e) = pos_liquidation_margin pos0;
  rz_size : notional_size (rs_pos e) = notional_size pos0;
  rz_counter : counter_collateral (rs_pos e) = counter_collateral pos0;
  rz_active : active_collateral (rs_pos e) + rs_trading_fee_delta e + sval (cr_fee (rs_dnf e))
    = active_collateral pos0;
  rz_direction : pos_direction (rs_pos e) = pos_direction original;
  rz_fund : is_dec (cr_total_funds_after (rs_dnf e)) /\
    cr_total_funds_after (rs_dnf e) + cr_protocol_fees (rs_dnf e) = s_dnf (sheet m) + sval (cr_fee (rs_dnf e));
  rz_interest : exists diff, signed_ok diff /\
    sval diff = sval (notional_size pos0) - sval (notional_size original) /\
    adjust_open_interest_new st m diff (pos_direction (rs_pos e)) true = Ok (rs_open_interest e);
  rz_liquidity : exists pp oi, liquidity_update_new st m delta pp oi = Ok (rs_liquidity_update e);
}.

Lemma resize_new_ok m original pos0 a b delta chk pp e :
  sheet_typed (sheet m) -> position_ok original -> position_ok pos0 ->
  margins_typed (pos_liquidation_margin pos0) ->
  resize_new st m original pos0 a b delta chk pp = Ok e -> resizing m original pos0 delta e.
Proof.
  intros Hty Hor [[Ha Ha'] Hc Hs] Hmg H. unfold resize_new in H.
  apply rbind_ok in H as (vol & _ & H). apply rbind_ok in H as (u1 & Hdir%same_direction & H).
  apply rbind_ok in H as (u2 & _ & H). apply rbind_ok in H as (fee & Hfee%trade_fee_typed & H).
  apply rbind_ok in H as (q & Hq & H). apply charge_trading_fee_ok in Hq as (t & -> & Hpos);
    [|unfold is_dec; lia|done].
  apply rbind_ok in H as (diff & Hdiff & H). apply signed_checked_sub_ok in Hdiff as [Hdiff Hdok];
    [|apply Hs|apply Hor].
  apply rbind_ok in H as ([r q] & Hr & H).
  apply charge_fee_ok in Hr as (f & -> & Hb & Hfo & Hfs); [|done|done|unfold is_dec in *; simpl; lia|].
  2:{ intros _. apply Hmg. }
  simpl in *. apply rbind_ok in H as (oi & Hoi & H). apply rbind_ok in H as (lu & Hlu & H).
  apply rbind_ok in H as (ev & _ & H). injection H as <-. split; simpl; try done; try lia.
  - by exists diff.
  - by eexists _, _.
Qed.

Lemma resized p pos d diff :
  pos_direction p = d -> pos_direction pos = d ->
  sval diff = sval (notional_size p) - sval (notional_size pos) ->
  long_size p = long_size pos + long_part d (sval diff) /\
  short_size p = short_size pos + short_part d (sval diff).
Proof. unfold long_size, short_size. intros -> -> ->. destruct d; simpl; lia. Qed.

(** Applying it: the fees it took reach the fund and the fee accounts, and the
    liquidity its counter collateral. *)
Lemma resize_apply_effect m pos pos0 delta e p m' :
  resizing m pos pos0 delta e ->
  market_inv lost (sheet m) -> open_positions (sheet m) !! pos_id pos = Some pos ->
  pos_id pos0 = pos_id pos -> signed_ok delta ->
  margins_typed (pos_liquidation_margin pos0) ->
  counter_collateral pos0 = counter_collateral pos + sval delta ->
  resize_apply st e m = Ok (p, m') ->
  conserves lost (sheet m) (sheet m') (active_collateral pos0 - active_collateral pos).
Proof.
  intros [Hid Hok Hmg Hsz Hc Ha Hdir [Hfo Hfs] (diff & Hdok & Hdiff & Hoi) (lpp & oi & Hliq)] Hinv Hpos
    Hid0 Hdelta Hmt Hcd H.
  destruct (mi_open _ Hinv _ _ Hpos) as [_ Hlast]. unfold resize_apply in H.
  set (q := rs_pos e) in *.
  step_in H u1 m1 H1. quiet_in H1. step_in H u2 m2 H2. apply charge_result_effect in H2 as [_ H2].
  step_in H u3 m3 H3. eapply interest_moved in H3 as (H3e & Hil & His); [|apply (mi_typed _ Hinv)|
    exact Hdok|exact Hoi|by rewrite H2, H1..].
  step_in H p' m4 H4. eapply (save_update m) in H4 as (store & total & Hs4 & Hpi & Htot & Ho & Hl & Hp & Hpid & Hpa & Hpc & Hps);
    try done; try (by rewrite H3e, H2, H1); [|congruence|by rewrite Hmg].
  step_in H stats m5 H5. get_in H5. step_in H u6 m6 H6. quiet_in H6.
  step_in H u7 m7 H7. eapply liquidity_update_effect in H7 as (l & H7 & Hlt & Hll & Hlu);
    [|apply (mi_typed _ Hinv)|exact Hdelta|by rewrite H6, Hs4, H3e, H2, H1..|exact Hliq].
  step_in H u8 m8 H8. apply trading_fee_effect in H8. step_in H u9 m9 H9. apply quiet_emit in H9.
  apply hret_ok in H as [_ ->].
  destruct (resized p' pos (pos_direction q) diff) as [Hls Hss];
    [apply (sizes_eq p' q Hps)|done|rewrite Hps, Hsz; lia|].
  assert (sheet m9 = with_stats l (credit (cr_protocol_fees (rs_dnf e) + rs_trading_fee_delta e)
    (with_store store total (with_long (s_long (sheet m) + long_part (pos_direction q) (sval diff))
      (with_short (s_short (sheet m) + short_part (pos_direction q) (sval diff))
        (with_dnf (cr_total_funds_after (rs_dnf e)) (sheet m))))))) as Hfin.
  { rewrite H9, H8, H7, H6, Hs4, H3e, H2, H1. unfold credit, with_stats. simpl. by rewrite Z.add_assoc. }
  clear H1 H2 H3e Hs4 H6 H7 H8 H9. pose proof (mi_typed _ Hinv) as [].
  eapply (updated_conserves _ _ pos p'); rewrite ?Hfin; simpl in *; try done; try lia.
  unfold assets. simpl. lia.
Qed.

(** A payment to a trader that was not part of the books before. *)
Lemma transfer_conserves s s' d x :
  conserves lost s s' d -> conserves lost s (with_transfers (s_transfers s' + x) s') (d + x).
Proof.
  intros ([[] Hst Hop Hlk Hlo Hsh] & Hr & Ha). split; [split; [by split|done..]|]. split; [done|].
  unfold assets, active_total, open_positions in *. simpl in *. lia.
Qed.

Lemma delta_counter_ok (a b : Z) d :
  is_dec a -> is_dec b -> signed_checked_sub (into_signed a) (into_signed b) = Ok d ->
  signed_ok d /\ a = b + sval d.
Proof.
  intros Ha Hb H. apply signed_checked_sub_ok in H as [H ?]; [|auto with perps..].
  rewrite !sval_into_signed in H. split; [done|lia].
Qed.

Lemma update_size_conserves m pos delta pp e u m' :
  market_inv lost (sheet m) -> open_positions (sheet m) !! pos_id pos = Some pos -> signed_ok delta ->
  update_size_new st m pos delta pp = Ok e -> update_size_apply st e m = Ok (u, m') ->
  conserves lost (sheet m) (sheet m') (Z.max 0 (sval delta)).
Proof.
  intros Hinv Hpos Hd He H. destruct (mi_open _ Hinv _ _ Hpos) as [[Hok Hmg _] _].
  pose proof Hok as [[Ha Ha'] [Hc Hc'] Hs].
  unfold update_size_new in He. do 5 (apply rbind_ok in He as (? & _ & He)).
  apply rbind_ok in He as (factor & _ & He). apply rbind_ok in He as (a & Hact & He).
  apply nonzero_checked_add_signed_ok in Hact as [-> Hact]; [|unfold is_dec; lia|done].
  apply rbind_ok in He as (dep & _ & He). apply rbind_ok in He as (o1 & _ & He).
  apply rbind_ok in He as (o2 & _ & He). apply rbind_ok in He as (size & Hsize & He).
  apply try_map_typed in Hsize; [|intros v w; exact (op_div_dec v _ w)].
  apply rbind_ok in He as (sc & _ & He). apply rbind_ok in He as (cc & Hcc & He).
  apply clamped_counter in Hcc. apply rbind_ok in He as (dc & Hdc & He).
  apply delta_counter_ok in Hdc as [Hdc1 Hdc2]; [|unfold is_dec; simpl; lia..].
  apply rbind_ok in He as (rs & Hrs & He). injection He as <-.
  apply resize_new_ok in Hrs; [|apply (mi_typed _ Hinv)|done|by split|done].
  unfold update_size_apply in H. simpl in H. step_in H p m1 H1.
  eapply resize_apply_effect in H1; try done. apply refund_effect in H as ->; [|done].
  replace (Z.max 0 (sval delta)) with (sval delta + Z.max 0 (- sval delta)) by lia.
  apply transfer_conserves. simpl in H1.
  by replace (active_collateral pos + sval delta - active_collateral pos) with (sval delta) in H1 by lia.
Qed.

Lemma update_leverage_conserves m pos size pp e u m' :
  market_inv lost (sheet m) -> open_positions (sheet m) !! pos_id pos = Some pos -> signed_ok size ->
  update_leverage_new st m pos size pp = Ok e -> update_leverage_apply st e m = Ok (u, m') ->
  conserves lost (sheet m) (sheet m') 0.
Proof.
  intros Hinv Hpos Hd He H. destruct (mi_open _ Hinv _ _ Hpos) as [[Hok Hmg _] _].
  pose proof Hok as [Ha [Hc Hc'] Hs].
  unfold update_leverage_new in He. do 9 (apply rbind_ok in He as (? & _ & He)).
  apply rbind_ok in He as (cc & Hcc & He). apply clamped_counter in Hcc.
  apply rbind_ok in He as (dc & Hdc & He).
  apply delta_counter_ok in Hdc as [Hdc1 Hdc2]; [|unfold is_dec; simpl; lia..].
  apply resize_new_ok in He; [|apply (mi_typed _ Hinv)|done|by split|done].
  unfold update_leverage_apply in H. step_in H p m1 H1. apply hret_ok in H as [_ ->].
  eapply resize_apply_effect in H1; try done. simpl in H1. by rewrite Z.sub_diag in H1.
Qed.

(** *** A new counter collateral, at a constant size *)

Record recountered (m : MarketCtx) (pos : Position) (e : CounterCollateralExec) : Prop := {
  rc_id : pos_id (ucc_pos e) = pos_id pos;
  rc_ok : position_ok (ucc_pos e);
  rc_margins : pos_liquidation_margin (ucc_pos e) = pos_liquidation_margin pos;
  rc_size : notional_size (ucc_pos e) = notional_size pos;
  rc_active : active_collateral (ucc_pos e) + ucc_trading_fee_delta e = active_collateral pos;
  rc_liquidity : exists delta pp, signed_ok delta /\
    counter_collateral (ucc_pos e) = counter_collateral pos + sval delta /\
    liquidity_update_new st m delta pp None = Ok (ucc_liquidity_update e);
}.

Lemma counter_collateral_update_new_ok m pos counter pp e :
  position_ok pos -> 0 < counter <= U256_MAX ->
  counter_collateral_update_new st m pos counter pp = Ok e -> recountered m pos e.
Proof.
  intros [[Ha Ha'] [Hc Hc'] Hs] Hco H. unfold counter_collateral_update_new in H.
  apply rbind_ok in H as (d & Hd & H). apply delta_counter_ok in Hd as [Hd Hcd]; [|unfold is_dec; lia..].
  apply rbind_ok in H as (u1 & _ & H). apply rbind_ok in H as (fee & Hfee%trade_fee_typed & H).
  apply rbind_ok in H as (q & Hq & H). unfold is_dec in Hfee.
  apply charge_trading_fee_ok in Hq as (t & -> & Hpos); [|unfold is_dec; simpl; lia|done].
  apply rbind_ok in H as (u2 & _ & H). apply rbind_ok in H as (lu & Hlu & H).
  apply rbind_ok in H as (ev & _ & H). injection H as <-. simpl in *.
  split; simpl; try done; try lia.
  - split; simpl; try done; lia.
  - by exists d, pp.
Qed.

Lemma counter_collateral_update_conserves m pos e u m' :
  market_inv lost (sheet m) -> open_positions (sheet m) !! pos_id pos = Some pos ->
  recountered m pos e -> counter_collateral_update_apply st e m = Ok (u, m') ->
  conserves lost (sheet m) (sheet m') 0.
Proof.
  intros Hinv Hpos [Hid Hok Hm Hsz Ha (delta & pp & Hd & Hcd & Hliq)] H.
  destruct (mi_open _ Hinv _ _ Hpos) as [[_ Hmg _] _]. unfold counter_collateral_update_apply in H.
  step_in H p' m1 H1. eapply (save_update m) in H1 as (store & total & Hs1 & Hpi & Htot & Ho & Hl & Hp & Hpid & Hpa & Hpc & Hps);
    try done; [|by rewrite Hm].
  step_in H u2 m2 H2. eapply liquidity_update_effect in H2 as (l & H2 & Hlt & Hll & Hlu);
    [|apply (mi_typed _ Hinv)|exact Hd|by rewrite Hs1..|exact Hliq].
  step_in H u3 m3 H3. apply trading_fee_effect in H3. apply quiet_emit in H.
  destruct (sizes_eq p' pos) as (Hls & Hss & _); [congruence|].
  rewrite H3, H2, Hs1 in H. pose proof (mi_typed _ Hinv) as [].
  eapply (updated_conserves _ _ pos p'); rewrite ?H; simpl in *; try done; try lia.
  unfold assets. simpl. lia.
Qed.

(** *** Trigger prices *)

Lemma trigger_order_conserves m pos e u m' :
  market_inv lost (sheet m) -> open_positions (sheet m) !! pos_id pos = Some pos ->
  (exists sl sln tp tpn, to_pos e = set_take_profit tp tpn (set_stop_loss sl sln pos)) \/
  (exists sl sln, to_pos e = set_stop_loss sl sln pos) ->
  trigger_order_apply st e m = Ok (u, m') -> conserves lost (sheet m) (sheet m') 0.
Proof.
  intros Hinv Hpos Hp H. destruct (mi_open _ Hinv _ _ Hpos) as [[[] Hmg _] _].
  assert (pos_id (to_pos e) = pos_id pos /\ position_ok (to_pos e) /\
    pos_liquidation_margin (to_pos e) = pos_liquidation_margin pos /\
    notional_size (to_pos e) = notional_size pos /\
    active_collateral (to_pos e) = active_collateral pos /\
    counter_collateral (to_pos e) = counter_collateral pos) as (Hid & Hok & Hm & Hsz & Ha & Hc).
  { destruct Hp as [(? & ? & ? & ? & ->)|(? & ? & ->)]; by split_and!. }
  unfold trigger_order_apply in H. step_in H p' m1 H1. apply hret_ok in H as [_ ->].
  eapply (save_update m) in H1 as (store & total & Hs1 & Hpi & Htot & Ho & Hl & Hpv & Hpid & Hpa & Hpc & Hps);
    try done; [|by rewrite Hm].
  destruct (sizes_eq p' pos) as (Hls & Hss & _); [congruence|]. pose proof (mi_typed _ Hinv) as [].
  eapply (updated_conserves _ _ pos p'); rewrite ?Hs1; simpl in *; try done; try lia.
  unfold assets. simpl. lia.
Qed.
End Theory.
