(* ===== verification/OrdersInv.v ===== *)
(** * Limit orders keep what they hold

    The indexes of the limit orders are exact, and placing, executing and
    cancelling an order only moves its collateral: into a position, or back to
    its owner. *)

From stdpp Require Import base option gmap strings list pretty.
From Stdlib Require Import ZArith Lia.
From S2P Require Import Prelude Index Storage Cosmwasm Types Number Time Market Price Token DataSeries Config Position Trading State Pool LpHistory Liquidity Books LiquidityInv Fees FeesInv LiquiditySystem Funding FundingInv DeltaNeutrality DeltaNeutralityInv OpenInterest PositionStore TradeHistory BalanceSheet PositionStoreInv BalanceEffects PositionToken ClosePosition OpenPosition UpdatePosition Orders MarketInv ClosingInv PositionMsgs.
Local Open Scope Z_scope.

(** ** Indexes *)

Section Indexed.
Context {A : Type} `{Countable A} (key : LimitOrder -> option A).

(** Every order with a key is in the index under it, and nothing else is. *)
Definition indexed (orders : gmap OrderId LimitOrder) (idx : gmap (A * OrderId) unit) : Prop :=
  forall k, idx !! k = Some tt <-> exists o, orders !! k.2 = Some o /\ key o = Some k.1.

Lemma indexed_insert orders idx id o a :
  indexed orders idx -> orders !! id = None -> key o = Some a ->
  indexed (<[id := o]> orders) (<[(a, id) := tt]> idx).
Proof.
  unfold indexed. intros Hi Hn Ha [b i]. simpl. rewrite lookup_insert_Some, Hi. simpl. destruct (decide (id = i)) as [<-|Hne].
  - rewrite lookup_insert_eq. split.
    + intros [[[= ->] _]|(_ & q & Hq & _)]; [by exists o|congruence].
    + intros (q & [= <-] & Hk). left. split; [congruence|done].
  - rewrite lookup_insert_ne by done. split.
    + intros [[[= _ ?] _]|[_ Hq]]; [done|exact Hq].
    + intros Hq. right. split; [congruence|done].
Qed.

Lemma indexed_insert_none orders idx id o :
  indexed orders idx -> orders !! id = None -> key o = None -> indexed (<[id := o]> orders) idx.
Proof.
  unfold indexed. intros Hi Hn Ha [b i]. rewrite Hi. simpl. destruct (decide (id = i)) as [<-|Hne].
  - rewrite lookup_insert_eq. split; intros (q & Hq & Hk); congruence.
  - by rewrite lookup_insert_ne.
Qed.

Lemma indexed_delete orders idx id o a :
  indexed orders idx -> orders !! id = Some o -> key o = Some a ->
  indexed (delete id orders) (delete (a, id) idx).
Proof.
  unfold indexed. intros Hi Hn Ha [b i]. simpl. rewrite lookup_delete_Some, Hi. simpl. destruct (decide (id = i)) as [<-|Hne].
  - rewrite lookup_delete_eq. split; [|by intros (q & Hq & _)].
    intros (Hne & q & Hq & Hk). exfalso. apply Hne. congruence.
  - rewrite lookup_delete_ne by done. split; [by intros [_ Hq]|]. intros Hq. split; [congruence|done].
Qed.

Lemma indexed_delete_none orders idx id o :
  indexed orders idx -> orders !! id = Some o -> key o = None -> indexed (delete id orders) idx.
Proof.
  unfold indexed. intros Hi Hn Ha [b i]. rewrite Hi. simpl. destruct (decide (id = i)) as [<-|Hne].
  - rewrite lookup_delete_eq. split; intros (q & Hq & Hk); congruence.
  - by rewrite lookup_delete_ne.
Qed.
End Indexed.

Definition is_long (o : LimitOrder) : bool :=
  match lo_direction o with LongToNotional => true | ShortToNotional => false end.

Record orders_inv {CW : CosmwasmStd} (mt : MarketType) (s : OrderStore) : Prop := {
  oi_orders : forall id o, LIMIT_ORDERS s !! id = Some o ->
    lo_order_id o = id /\ 0 < lo_collateral o <= U256_MAX /\ id <= default 0 (LAST_ORDER_ID s);
  oi_addr : indexed (fun o => Some (lo_owner o)) (LIMIT_ORDERS s) (LIMIT_ORDERS_BY_ADDR s);
  oi_long : indexed (fun o => if is_long o then res_ok (into_notional_price (lo_trigger_price o) mt)
                              else None) (LIMIT_ORDERS s) (LIMIT_ORDERS_BY_PRICE_LONG s);
  oi_short : indexed (fun o => if is_long o then None
                               else res_ok (into_notional_price (lo_trigger_price o) mt))
               (LIMIT_ORDERS s) (LIMIT_ORDERS_BY_PRICE_SHORT s);
}.

(** ** What the messages move *)

Definition held (s : Sheet) : Z := assets s + active_total s + orders_total s.

(** The parts positions and orders do not touch. *)
Definition same_queue (s s' : Sheet) : Prop :=
  s_deferred s' = s_deferred s /\ s_crank s' = s_crank s /\ s_prices s' = s_prices s /\
  s_manual s' = s_manual s.

Section Theory.
Context {CW : CosmwasmStd} {CWS : CosmwasmStdSpec CW}.
Context {lost : Collateral}.

Record books_inv (lost : Collateral) (mt : MarketType) (s : Sheet) : Prop := {
  bi_market : market_inv lost s;
  bi_orders : orders_inv mt (s_orders s);
}.
#[global] Arguments bi_market {lost} mt s _.
#[global] Arguments bi_orders {lost} mt s _.

(** The invariants hold again and the contract holds [d] more. *)
Definition moves (lost : Collateral) (mt : MarketType) (s s' : Sheet) (d : Z) : Prop :=
  books_inv lost mt s' /\ same_queue s s' /\ held s' = held s + d.

(** ... up to the dust of a position whose fees used up its collateral. *)
Definition moves_dust (lost : Collateral) (mt : MarketType) (s s' : Sheet) (d : Z) : Prop :=
  exists short, short <= TINY_COLLATERAL /\ moves lost mt s s' (d + short).

Lemma same_queue_trans s1 s2 s3 : same_queue s1 s2 -> same_queue s2 s3 -> same_queue s1 s3.
Proof. intros (?&?&?&?) (?&?&?&?). split_and!; congruence. Qed.

Lemma moves_trans mt s1 s2 s3 d e : moves lost mt s1 s2 d -> moves lost mt s2 s3 e -> moves lost mt s1 s3 (d + e).
Proof.
  intros (_ & H1 & H2) (H3 & H4 & H5). split; [done|]. split; [by eapply same_queue_trans|]. lia.
Qed.

Lemma conserves_moves mt s s' d : books_inv lost mt s -> conserves lost s s' d -> moves lost mt s s' d.
Proof.
  intros [_ Ho] (H1 & (H2 & H3 & H4 & H5 & H6) & H7). split; [split; [done|by rewrite H2]|].
  split; [done|]. unfold held, orders_total. rewrite H2. lia.
Qed.
Lemma conserves_dust_moves mt s s' d : books_inv lost mt s -> conserves_dust lost s s' d -> moves_dust lost mt s s' d.
Proof. intros Hb (x & Hx & H). exists x. split; [done|]. by apply conserves_moves. Qed.

Context (st : State).
Hypothesis Hcfg : dnf_config (st_config st).
Local Abbreviation mt := (market_type st).

Lemma transfer_moves s s' d x : moves lost mt s s' d -> moves lost mt s (with_transfers (s_transfers s' + x) s') (d + x).
Proof.
  intros ([Hm Ho] & Hq & Hh). destruct (transfer_conserves (lost:=lost) s' s' 0 x) as (H1 & _ & H3).
  { split; [done|]. split; [done|]. lia. }
  split; [by split|]. split; [done|]. unfold held in *. simpl in *. unfold orders_total in *. simpl in *. lia.
Qed.

Lemma credit_moves s x : books_inv lost mt s -> moves lost mt s (credit x s) x.
Proof.
  intros [[[] ? ? ? ? ?] ?]. split; [split; [split; [by split|done..]|done]|]. split; [done|].
  unfold held, assets, active_total, open_positions, orders_total. simpl. lia.
Qed.

(** The order store replaced by another. *)
Lemma orders_moves s os :
  books_inv lost mt s -> orders_inv mt os ->
  moves lost mt s (with_orders os s) (map_sum lo_collateral (LIMIT_ORDERS os) - orders_total s).
Proof.
  intros [[[] ? ? ? ? ?] _] Ho. split; [split; [split; [by split|done..]|done]|]. split; [done|].
  unfold held, orders_total. simpl. unfold assets, active_total, open_positions. simpl. lia.
Qed.

Lemma index_order_ok d f m u m' :
  index_order d f m = Ok (u, m') ->
  sheet m' = with_orders (match d with
    | LongToNotional => set_LIMIT_ORDERS_BY_PRICE_LONG (f (LIMIT_ORDERS_BY_PRICE_LONG (m_orders m))) (m_orders m)
    | ShortToNotional => set_LIMIT_ORDERS_BY_PRICE_SHORT (f (LIMIT_ORDERS_BY_PRICE_SHORT (m_orders m))) (m_orders m)
    end) (sheet m).
Proof. unfold index_order, mod_orders. destruct d; by intros ->%hmod_ok. Qed.

(** Removing an order. *)
Lemma remove_moves m id o u m' :
  books_inv lost mt (sheet m) -> LIMIT_ORDERS (m_orders m) !! id = Some o ->
  limit_order_remove st o m = Ok (u, m') ->
  moves lost mt (sheet m) (sheet m') (- lo_collateral o) /\
  LIMIT_ORDERS (m_orders m') = delete id (LIMIT_ORDERS (m_orders m)).
Proof.
  intros Hb Hid H. pose proof (bi_orders _ _ Hb) as [Ho Ha Hl Hs].
  destruct (Ho _ _ Hid) as (<- & Hc & Hlast). unfold limit_order_remove, mod_orders, order_price_key in H.
  step_in H u1 m1 H1. apply hmod_ok in H1. lift_in H k Hk. apply rbind_ok in Hk as (price & Hp & Hk).
  injection Hk as <-. step_in H u2 m2 H2. apply index_order_ok in H2.
  assert (sheet m1 = with_orders (set_LIMIT_ORDERS (delete (lo_order_id o) (LIMIT_ORDERS (m_orders m)))
    (m_orders m)) (sheet m)) as H1s by (by rewrite H1).
  apply hmod_ok in H as Hm'. set (os := m_orders m') in *.
  assert (sheet m' = with_orders os (sheet m)) as Hs'.
  { assert (sheet m' = with_orders os (sheet m2)) as -> by (unfold os; by rewrite Hm').
    rewrite H2, H1s. reflexivity. }
  assert (m_orders m2 = s_orders (sheet m2)) as E2 by done. rewrite H2 in E2. simpl in E2.
  assert (LIMIT_ORDERS os = delete (lo_order_id o) (LIMIT_ORDERS (m_orders m)) /\ orders_inv mt os) as [Hdel Hinv].
  { unfold os. rewrite Hm'. simpl. rewrite E2, H1. unfold is_long in *. simpl.
    destruct (lo_direction o) eqn:Ed; (split; [done|]); (split; simpl;
      [intros i q [_ Hq]%lookup_delete_Some; by apply Ho|by eapply indexed_delete| |]).
    - eapply indexed_delete; [done|done|]. unfold is_long. by rewrite Ed, Hp.
    - eapply indexed_delete_none; [done|done|]. unfold is_long. by rewrite Ed.
    - eapply indexed_delete_none; [done|done|]. unfold is_long. by rewrite Ed.
    - eapply indexed_delete; [done|done|]. unfold is_long. by rewrite Ed, Hp. }
  split; [|done]. rewrite Hs'. pose proof (orders_moves _ _ Hb Hinv) as Hmv.
  rewrite Hdel in Hmv. pose proof (map_sum_delete lo_collateral _ _ _ Hid) as Hsum.
  unfold orders_total in Hmv. simpl in Hmv, Hsum.
  by replace (- lo_collateral o) with (map_sum lo_collateral (delete (lo_order_id o) (LIMIT_ORDERS (m_orders m)))
    - map_sum lo_collateral (LIMIT_ORDERS (m_orders m))) by lia.
Qed.

(** Cancelling pays the collateral back. *)
Lemma cancel_moves m id e u m' :
  books_inv lost mt (sheet m) -> cancel_limit_order_new m id = Ok e ->
  cancel_limit_order_apply st e m = Ok (u, m') -> moves lost mt (sheet m) (sheet m') 0.
Proof.
  intros Hb He H. unfold cancel_limit_order_new, load_order in He.
  apply rbind_ok in He as (o & Ho%std_ok & He). injection He as <-.
  unfold cancel_limit_order_apply in H. simpl in H. step_in H u1 m1 H1.
  eapply remove_moves in H1 as [H1 _]; [|done..]. step_in H u2 m2 H2. apply transfer_effect in H2.
  quiet_in H. rewrite H, H2. replace 0 with (- lo_collateral o + lo_collateral o) by lia.
  by apply transfer_moves.
Qed.

(** Placing takes the crank fee out of the collateral. *)
Lemma place_moves m owner trigger collateral leverage dir sl tp cf cfu price e id m' :
  books_inv lost mt (sheet m) -> 0 < collateral <= U256_MAX ->
  place_limit_order_new st m owner trigger collateral leverage dir sl tp cf cfu price = Ok e ->
  place_limit_order_apply st e m = Ok (id, m') ->
  moves lost mt (sheet m) (sheet m') collateral /\
  exists o, lo_owner o = owner /\ LIMIT_ORDERS (m_orders m) !! id = None /\
    LIMIT_ORDERS (m_orders m') = <[id := o]> (LIMIT_ORDERS (m_orders m)).
Proof.
  intros Hb Hc He H. pose proof (bi_orders _ _ Hb) as [Ho Ha Hl Hs]. unfold place_limit_order_new in He.
  apply rbind_ok in He as (oid & Hoid & He). apply u64_checked_ok in Hoid as [-> _].
  apply rbind_ok in He as (fee & Hfee%usd_to_collateral_dec & He). simpl in He.
  apply rbind_ok in He as (coll & Hcoll & He).
  apply nonzero_checked_sub_ok in Hcoll as [-> Hlt]; [|unfold is_dec; lia|apply Hfee].
  apply rbind_ok in He as (f1 & _ & He). apply rbind_ok in He as (f2 & _ & He). injection He as <-.
  unfold place_limit_order_apply, mod_orders in H. simpl in H.
  set (nid := default 0 (LAST_ORDER_ID (m_orders m)) + 1) in *. set (o := mkLimitOrder _ _ _ _ _ _ _ _ _ _ _) in *.
  assert (LIMIT_ORDERS (m_orders m) !! nid = None) as Hfree.
  { destruct (LIMIT_ORDERS (m_orders m) !! nid) eqn:E; [|done]. apply Ho in E as (_ & _ & E). unfold nid in E. simpl in E. lia. }
  step_in H u1 m1 H1. apply hmod_ok in H1. step_in H u2 m2 H2. apply cap_crank_effect in H2. simpl in H2.
  step_in H u3 m3 H3. apply hmod_ok in H3. lift_in H p Hp. step_in H u4 m4 H4. apply index_order_ok in H4.
  step_in H u5 m5 H5. apply hmod_ok in H5. lift_in H usd Husd. step_in H u6 m6 H6. quiet_in H6.
  apply hret_ok in H as [-> ->]. set (os := m_orders m5) in *.
  assert (m_orders m2 = set_LAST_ORDER_ID (Some nid) (m_orders m)) as E2.
  { change (m_orders m2) with (s_orders (sheet m2)). by rewrite H2, H1. }
  assert (sheet m6 = with_orders os (credit fee (sheet m))) as Hs6.
  { rewrite H6. assert (sheet m5 = with_orders os (sheet m4)) as -> by (unfold os; by rewrite H5).
    rewrite H4. assert (sheet m3 = with_orders (m_orders m3) (sheet m2)) as -> by (by rewrite H3).
    rewrite H2, H1. reflexivity. }
  assert (m_orders m6 = os) as E6 by (change (m_orders m6) with (s_orders (sheet m6)); by rewrite Hs6).
  assert (m_orders m4 = s_orders (sheet m4)) as E4 by done. rewrite H4 in E4. simpl in E4.
  assert (LIMIT_ORDERS os = <[nid := o]> (LIMIT_ORDERS (m_orders m)) /\ orders_inv mt os) as [Hins Hinv].
  { unfold os. rewrite H5. simpl. rewrite E4, H3. simpl. rewrite E2. simpl.
    destruct dir; (split; [done|]); (split; simpl;
      [intros i q [[<- <-]|[_ Hq]]%lookup_insert_Some; [simpl; split_and!; [done|lia|unfold is_dec in Hfee; lia|lia]|];
         apply Ho in Hq as (? & ? & ?); split_and!; try done; unfold nid; simpl in *; lia
      |by apply indexed_insert| |]).
    - apply indexed_insert; [done|done|]. simpl. by rewrite Hp.
    - by apply indexed_insert_none.
    - by apply indexed_insert_none.
    - apply indexed_insert; [done|done|]. simpl. by rewrite Hp. }
  split; [|exists o; by rewrite E6].
  rewrite Hs6. destruct (credit_moves (sheet m) fee Hb) as (Hb' & Hq & Hh).
  replace collateral with (fee + (map_sum lo_collateral (LIMIT_ORDERS os) - orders_total (credit fee (sheet m)))).
  - eapply moves_trans; [by split|]. by apply orders_moves.
  - rewrite Hins, map_sum_insert_new by done. unfold orders_total. simpl. lia.
Qed.

(** Executing turns it into a position, or pays it back. *)
Lemma execute_moves m id pp u m' :
  books_inv lost mt (sheet m) -> limit_order_execute_order st id pp m = Ok (u, m') ->
  moves lost mt (sheet m) (sheet m') 0 /\
  LIMIT_ORDERS (m_orders m') = delete id (LIMIT_ORDERS (m_orders m)).
Proof.
  intros Hb H. unfold limit_order_execute_order, load_order in H. lift_in H o Ho. apply std_ok in Ho.
  destruct (oi_orders _ _ (bi_orders _ _ Hb) _ _ Ho) as (_ & Hc & _).
  step_in H u1 m1 H1. eapply remove_moves in H1 as [H1 Hd1]; [|done..].
  lift_in H tp Htp. lift_in H v Hv. step_in H outcome m2 H2.
  assert (moves lost mt (sheet m) (sheet m2) 0 /\ m_orders m2 = m_orders m1) as [Hmv Hor].
  { pose proof H1 as ([Hm1 _] & _ & _). destruct v as [e|er].
    - assert (open_position_new st m1 (order_params st o tp) pp = Ok e) as He.
      { unfold catch in Hv. destruct (open_position_new _ _ _ _) as [x|[]]; congruence. }
      step_in H2 pid m3 H3. apply hret_ok in H2 as [_ ->].
      eapply open_position_conserves in H3 as [H3 _]; try done; try exact Hc. simpl in H3.
      destruct H3 as (H3 & (Hor & Hrest) & Hh).
      split; [|exact Hor]. replace 0 with (- lo_collateral o + lo_collateral o) by lia.
      eapply moves_trans; [done|]. apply conserves_moves; [apply H1|done].
    - step_in H2 u3 m3 H3. apply transfer_effect in H3. apply hret_ok in H2 as [_ ->].
      split; [|change (m_orders m3) with (s_orders (sheet m3)); by rewrite H3].
      rewrite H3. replace 0 with (- lo_collateral o + lo_collateral o) by lia. by apply transfer_moves. }
  step_in H u3 m3 H3. quiet_in H3. apply hmod_ok in H as ->.
  assert (m_orders m3 = m_orders m2) as E3 by (change (s_orders (sheet m3) = s_orders (sheet m2)); by rewrite H3).
  split; [|simpl; by rewrite E3, Hor, Hd1].
  rewrite <- H3 in Hmv. destruct Hmv as (Hb3 & Hq3 & Hh3).
  pose proof (bi_orders _ _ Hb3) as [].
  match goal with |- moves _ _ _ ?s _ => set (s' := s) end.
  assert (s' = with_orders (s_orders s') (sheet m3)) as -> by done.
  assert (orders_inv mt (s_orders s')) as Hos by done.
  pose proof (orders_moves _ _ Hb3 Hos) as Hmv.
  replace 0 with (0 + (map_sum lo_collateral (LIMIT_ORDERS (s_orders s')) - orders_total (sheet m3)))
    by (unfold orders_total; simpl; lia).
  by eapply moves_trans.
Qed.
End Theory.
