(* ===== verification/DeferredInv.v ===== *)
(** * Deferred execution keeps what traders deposit

    Executing a queued item moves its deposit into the market, a failed one is
    paid back, and queueing takes only the crank fee.  An item runs only against
    a price published after it was made, and items run in the order they were
    queued. *)

From stdpp Require Import base option gmap strings list pretty.
From Stdlib Require Import ZArith Lia.
From S2P Require Import Prelude Index Storage Cosmwasm Types Number Time Market Price Token DataSeries Config Position Trading State Pool LpHistory Liquidity Books LiquidityInv Fees FeesInv LiquiditySystem Funding FundingInv DeltaNeutrality DeltaNeutralityInv OpenInterest PositionStore SpotPrice TradeHistory BalanceSheet PositionStoreInv BalanceEffects PositionToken ClosePosition OpenPosition UpdatePosition Orders Deferred MarketInv ClosingInv PositionMsgs OrdersInv.
Local Open Scope Z_scope.

(** The amounts of an item as their types have them. *)
Definition item_typed (item : DeferredExecItem) : Prop :=
  match item with
  | DeferOpenPosition _ _ _ _ _ _ amount _ _
  | DeferAddCollateralImpactLeverage _ amount
  | DeferAddCollateralImpactSize _ _ amount
  | DeferRemoveCollateralImpactLeverage _ amount
  | DeferRemoveCollateralImpactSize _ amount _
  | DeferPlaceLimitOrder _ _ _ _ _ _ amount _ _ => 0 < amount <= U256_MAX
  | _ => True
  end.

Section Theory.
Context {CW : CosmwasmStd} {CWS : CosmwasmStdSpec CW}.
Context {lost : Collateral}.
Context (st : State).
Hypothesis Hcfg : dnf_config (st_config st).
Local Abbreviation mt := (market_type st).

(** ** Executing *)

Lemma liquifund_first m id size sa pp u m' :
  market_inv lost (sheet m) -> execute_slippage_assert_and_liquifund st id size sa pp m = Ok (u, m') ->
  conserves_dust lost (sheet m) (sheet m') 0.
Proof.
  intros Hinv H. unfold execute_slippage_assert_and_liquifund in H. lift_in H u1 H1. lift_in H pos Hpos.
  apply (get_open (lost:=lost)) in Hpos as (_ & Hpos & _); [|done]. by eapply liquifund_store_conserves.
Qed.

(** What an update applied to the liquifunded position moves. *)
Lemma update_after_moves {A} m id size sa pp (compute : MarketCtx -> Position -> res A)
    (apply : A -> mhandler unit) d t m' :
  (forall m pos e u m', market_inv lost (sheet m) -> open_positions (sheet m) !! pos_id pos = Some pos ->
     compute m pos = Ok e -> apply e m = Ok (u, m') -> conserves lost (sheet m) (sheet m') d) ->
  books_inv lost mt (sheet m) -> update_after_liquifund st id size sa pp compute apply m = Ok (t, m') ->
  moves_dust lost mt (sheet m) (sheet m') d.
Proof.
  intros Hupd Hb H. unfold update_after_liquifund in H. step_in H u1 m1 H1.
  apply liquifund_first in H1 as (x & Hx & H1); [|apply Hb].
  lift_in H pos Hpos. apply (get_open (lost:=lost)) in Hpos as (_ & Hpos & _); [|apply H1]. lift_in H e He.
  step_in H u2 m2 H2. apply hret_ok in H as [_ ->]. eapply Hupd in H2; [|apply H1|done..].
  apply conserves_dust_moves; [done|]. exists x. split; [done|].
  replace (d + x) with (0 + x + d) by lia. by eapply conserves_trans.
Qed.

Lemma trigger_after_moves m id pp compute t m' :
  (forall m e, compute m = Ok e -> exists pos, get_position m id = Ok pos /\
    ((exists sl sln tp tpn, to_pos e = set_take_profit tp tpn (set_stop_loss sl sln pos)) \/
     (exists sl sln, to_pos e = set_stop_loss sl sln pos))) ->
  books_inv lost mt (sheet m) ->
  (execute_slippage_assert_and_liquifund st id None None pp;;; e <~ hask compute;
   trigger_order_apply st e;;; hret (CompletePosition id)) m = Ok (t, m') ->
  moves_dust lost mt (sheet m) (sheet m') 0.
Proof.
  intros Hc Hb H. step_in H u1 m1 H1. apply liquifund_first in H1 as (x & Hx & H1); [|apply Hb].
  lift_in H e He. destruct (Hc _ _ He) as (pos & Hpos & He').
  apply (get_open (lost:=lost)) in Hpos as (_ & Hpos & _); [|apply H1].
  step_in H u2 m2 H2. apply hret_ok in H as [_ ->]. eapply trigger_order_conserves in H2; [|apply H1|done..].
  apply conserves_dust_moves; [done|]. exists x. split; [done|].
  replace (0 + x) with (0 + x + 0) by lia. by eapply conserves_trans.
Qed.

Lemma moves_no_dust s s' d : moves lost mt s s' d -> moves_dust lost mt s s' d.
Proof. intros H. exists 0. split; [done|]. by rewrite Z.add_0_r. Qed.

Lemma leverage_size_typed m id leverage pp size :
  update_leverage_new_notional_size st m id leverage pp = Ok size -> signed_ok size.
Proof.
  unfold update_leverage_new_notional_size. intros H. do 3 (apply rbind_ok in H as (? & _ & H)).
  apply try_map_typed in H; [done|]. intros v w. exact (op_div_dec v _ w).
Qed.

Lemma take_profit_recountered m pos tp pp e :
  position_ok pos -> update_take_profit_price_new st m pos tp pp = Ok e -> recountered st m pos e.
Proof.
  intros Hok H. unfold update_take_profit_price_new in H. apply rbind_ok in H as ([d l] & _ & H).
  apply rbind_ok in H as (c & Hc%take_profit_calc_typed & H). apply rbind_ok in H as (e' & He & H).
  apply rbind_ok in H as (n & _ & H). injection H as <-.
  apply counter_collateral_update_new_ok in He as [? [] ? ? ? ?]; [|done..].
  split; simpl; done.
Qed.

Lemma max_gains_recountered m pos mg pp e :
  position_ok pos -> update_max_gains_new st m pos mg pp = Ok e -> recountered st m pos e.
Proof.
  intros Hok H. unfold update_max_gains_new in H. apply rbind_ok in H as (r & _ & H).
  apply rbind_ok in H as (c & Hc%clamped_counter & H).
  by eapply counter_collateral_update_new_ok.
Qed.

Lemma typed_amount (x : Z) : 0 < x <= U256_MAX ->
  signed_ok (into_signed x) /\ signed_ok (signed_neg (into_signed x)).
Proof. intros Hx. assert (is_dec x) by (unfold is_dec; lia). auto with perps. Qed.

(** What executing an item does to the books: its deposit is in them. *)
Lemma helper_execute_moves m item pp t m' :
  books_inv lost mt (sheet m) -> item_typed (de_item item) ->
  helper_execute st item pp m = Ok (t, m') ->
  moves_dust lost mt (sheet m) (sheet m') (deposited_amount (de_item item)).
Proof.
  intros Hb Ht H. unfold helper_execute in H.
  destruct (de_item item) eqn:Ei; cbn [deposited_amount item_typed] in *.
  - lift_in H tp Htp. lift_in H e He. step_in H i m1 H1. apply hret_ok in H as [_ ->].
    eapply open_position_conserves in H1 as [H1 _]; [|done|apply Hb| |exact He];
      [by apply moves_no_dust, conserves_moves|exact Ht].
  - eapply update_after_moves in H; [exact H| |done]. intros m1 pos e u m2 Hinv Hpos He Ha.
    eapply update_collateral_conserves in Ha; [| |..|exact He]; [|done..|by apply typed_amount].
    rewrite sval_into_signed in Ha. by replace amount with (Z.max 0 amount) by lia.
  - lift_in H sz Hsz. eapply update_after_moves in H; [exact H| |done].
    intros m1 pos e u m2 Hinv Hpos He Ha.
    eapply update_size_conserves in Ha; [| |..|exact He]; [|done..|by apply typed_amount].
    rewrite sval_into_signed in Ha. by replace amount with (Z.max 0 amount) by lia.
  - eapply update_after_moves in H; [exact H| |done]. intros m1 pos e u m2 Hinv Hpos He Ha.
    eapply update_collateral_conserves in Ha; [| |..|exact He]; [|done..|by apply typed_amount].
    rewrite sval_neg, sval_into_signed in Ha. by replace 0 with (Z.max 0 (- amount)) by lia.
  - lift_in H sz Hsz. eapply update_after_moves in H; [exact H| |done].
    intros m1 pos e u m2 Hinv Hpos He Ha.
    eapply update_size_conserves in Ha; [| |..|exact He]; [|done..|by apply typed_amount].
    rewrite sval_neg, sval_into_signed in Ha. by replace 0 with (Z.max 0 (- amount)) by lia.
  - eapply update_after_moves in H; [exact H| |done]. intros m1 pos e u m2 Hinv Hpos He Ha.
    apply rbind_ok in He as (size & Hsize%leverage_size_typed & He).
    apply rbind_ok in He as (u1 & _ & He). by eapply update_leverage_conserves.
  - eapply update_after_moves in H; [exact H| |done]. intros m1 pos e u m2 Hinv Hpos He Ha.
    eapply counter_collateral_update_conserves; try done. eapply max_gains_recountered; [|done].
    by destruct (mi_open _ Hinv _ _ Hpos) as [[] _].
  - eapply update_after_moves in H; [exact H| |done]. intros m1 pos e u m2 Hinv Hpos He Ha.
    eapply counter_collateral_update_conserves; try done. eapply take_profit_recountered; [|done].
    by destruct (mi_open _ Hinv _ _ Hpos) as [[] _].
  - eapply trigger_after_moves; [|done|exact H]. intros m1 e He. unfold update_stop_loss_price_new in He.
    apply rbind_ok in He as (pos & Hpos & He). exists pos. split; [done|]. right. destruct stop_loss.
    + injection He as <-. by eexists _, _.
    + apply rbind_ok in He as (n & _ & He). injection He as <-. by eexists _, _.
  - lift_in H e He. step_in H u m1 H1. apply hret_ok in H as [_ ->]. unfold helper_close_position in He.
    apply rbind_ok in He as (pos & Hpos & He). apply rbind_ok in He as (u1 & _ & He).
    assert (get_position m id = Ok pos) as Hget.
    { destruct (get_position m id); [done|]. by destruct (load_closed_position m id). }
    apply (get_open (lost:=lost)) in Hget as (_ & Hget & _); [|apply Hb].
    apply conserves_dust_moves; [done|]. by eapply close_msg_conserves; [..|apply Hb| | |].
  - eapply trigger_after_moves; [|done|exact H]. intros m1 e He. unfold trigger_order_new in He.
    apply rbind_ok in He as (pos & Hpos & He). exists pos. split; [done|]. left.
    apply rbind_ok in He as (n & _ & He). apply rbind_ok in He as (n' & _ & He). injection He as <-.
    by eexists _, _, _, _.
  - lift_in H tp Htp. lift_in H e He. step_in H i m1 H1. apply hret_ok in H as [_ ->].
    eapply place_moves in H1 as [H1 _]; [|done|exact Ht|exact He]. by apply moves_no_dust.
  - lift_in H e He. step_in H u m1 H1. apply hret_ok in H as [_ ->].
    eapply cancel_moves in H1; [|done..]. by apply moves_no_dust.
Qed.
End Theory.
