(* ===== verification/QueueInv.v ===== *)
(** * The deferred queue

    The queue's counters, items and pending indexes agree at every point of a
    crank: at rest, while a submessage executes an item, and before the reply
    records the outcome.  Nothing but a trader's payment changes what the
    market owes. *)

From stdpp Require Import base option gmap strings list pretty.
From Stdlib Require Import ZArith Lia.
From S2P Require Import Prelude Index Storage Cosmwasm Types Number Time Market Price Token DataSeries Config Position Trading State Pool LpHistory Liquidity Books LiquidityInv Fees FeesInv LiquiditySystem Funding FundingInv DeltaNeutrality DeltaNeutralityInv OpenInterest PositionStore SpotPrice TradeHistory BalanceSheet PositionStoreInv BalanceEffects PositionToken ClosePosition OpenPosition UpdatePosition Orders Deferred MarketInv ClosingInv PositionMsgs OrdersInv DeferredInv.
Local Open Scope Z_scope.

(** Where the crank is with the queue. *)
Inductive phase := Idle | Queued (id : DeferredExecId) | Executed (id : DeferredExecId).
#[global] Instance phase_eq_dec : EqDecision phase.
Proof. solve_decision. Defined.

Definition last_issued (s : DeferredStore) : Z :=
  match DEFERRED_EXEC_LATEST_IDS s with Some ids => issued ids | None => 0 end.
Definition last_processed (s : DeferredStore) : Z :=
  match DEFERRED_EXEC_LATEST_IDS s with Some ids => default 0 (processed ids) | None => 0 end.

(** The items still to execute, and those whose reply is still to come. *)
Definition waiting (p : phase) (s : DeferredStore) (id : DeferredExecId) : Prop :=
  last_processed s < id \/ p = Queued id.
Definition unanswered (p : phase) (s : DeferredStore) (id : DeferredExecId) : Prop :=
  waiting p s id \/ p = Executed id.

(** The pending index of a kind of target. *)
Definition pending_index (p : phase) (s : DeferredStore) (target : Z -> DeferredExecTarget)
    (idx : gmap (Z * Z) unit) : Prop :=
  forall k, idx !! k = Some tt <->
    exists d, DEFERRED_EXECS s !! k.2 = Some d /\ defer_target (de_item d) = target k.1 /\
      unanswered p s k.2.

Record queue_inv (p : phase) (s : DeferredStore) : Prop := {
  qi_range : 0 <= last_processed s <= last_issued s;
  qi_phase : match p with Idle => True | Queued id | Executed id => id = last_processed s /\ 1 <= id end;
  qi_items : forall id d, DEFERRED_EXECS s !! id = Some d ->
    1 <= id <= last_issued s /\ de_id d = id /\ item_typed (de_item d) /\
    (is_pending (de_status d) = true <-> waiting p s id) /\
    match de_status d with DeferFailure _ _ _ => p <> Executed id | _ => True end;
  qi_all : forall id, 1 <= id <= last_issued s -> is_Some (DEFERRED_EXECS s !! id);
  qi_positions : pending_index p s TargetPosition (PENDING_DEFERRED_FOR_POSITION s);
  qi_orders : pending_index p s TargetOrder (PENDING_DEFERRED_FOR_ORDER s);
}.

(** The stores differ in the marks of closing positions and orders only. *)
Definition same_items (s s' : DeferredStore) : Prop :=
  DEFERRED_EXEC_LATEST_IDS s' = DEFERRED_EXEC_LATEST_IDS s /\ DEFERRED_EXECS s' = DEFERRED_EXECS s /\
  PENDING_DEFERRED_FOR_POSITION s' = PENDING_DEFERRED_FOR_POSITION s /\
  PENDING_DEFERRED_FOR_ORDER s' = PENDING_DEFERRED_FOR_ORDER s.

Lemma same_items_inv p s s' : same_items s s' -> queue_inv p s -> queue_inv p s'.
Proof.
  intros (H1 & H2 & H3 & H4) [].
  assert (last_issued s' = last_issued s /\ last_processed s' = last_processed s) as [Hi Hp]
    by (unfold last_issued, last_processed; by rewrite H1).
  split; unfold pending_index, unanswered, waiting; rewrite ?Hi, ?Hp, ?H2, ?H3, ?H4; done.
Qed.

Section Theory.
Context {CW : CosmwasmStd} {CWS : CosmwasmStdSpec CW}.
Context {lost : Collateral}.
Context (st : State).
Hypothesis Hcfg : dnf_config (st_config st).
Local Abbreviation mt := (market_type st).

(** Everything the market keeps. *)
Record ledger_inv (lost : Collateral) (p : phase) (s : Sheet) : Prop := {
  li_books : books_inv lost mt s;
  li_queue : queue_inv p (s_deferred s);
}.
#[global] Arguments li_books {lost} p s _.
#[global] Arguments li_queue {lost} p s _.

(** The deferred store replaced by another. *)
Lemma with_deferred_books ds s : books_inv lost mt s -> books_inv lost mt (with_deferred ds s).
Proof. intros [[[] ? ? ? ? ?] ?]. split; [split; [by split|done..]|done]. Qed.

Lemma moves_ledger p s s' d :
  ledger_inv lost p s -> moves lost mt s s' d -> ledger_inv lost p s' /\ obligations s' = obligations s + d.
Proof.
  intros [_ Hq] (Hb & (Hd & _) & Hh). split; [split; [done|by rewrite Hd]|].
  unfold obligations, deferred_total, held in *. rewrite Hd. lia.
Qed.

Lemma save_deferred_ok d id m u m' :
  save_deferred d id m = Ok (u, m') ->
  sheet m' = with_deferred (set_DEFERRED_EXECS (<[id := d]> (DEFERRED_EXECS (m_deferred m)))
                              (m_deferred m)) (sheet m).
Proof. unfold save_deferred, mod_deferred. by intros ->%hmod_ok. Qed.

Lemma obligations_held s : obligations s = held s + deferred_total s.
Proof. unfold obligations, held. lia. Qed.
Lemma obligations_deferred ds s :
  obligations (with_deferred ds s) = held s + map_sum pending_deposit (DEFERRED_EXECS ds).
Proof. by rewrite obligations_held. Qed.

(** ** Executing an item *)

Lemma set_status_pending status d : pending_deposit (set_de_status status d) =
  if is_pending status then deposited_amount (de_item d) else 0.
Proof. done. Qed.

(** Replacing the status of the item being worked on. *)
Lemma status_index p p' s id d status target idx :
  DEFERRED_EXECS s !! id = Some d -> pending_index p s target idx ->
  (forall i, unanswered p' s i <-> unanswered p s i) ->
  pending_index p' (set_DEFERRED_EXECS (<[id := set_de_status status d]> (DEFERRED_EXECS s)) s) target idx.
Proof.
  unfold pending_index. intros Hd Hi Hu k. rewrite Hi.
  change (unanswered p' (set_DEFERRED_EXECS _ s) k.2) with (unanswered p' s k.2). setoid_rewrite Hu.
  simpl. destruct (decide (id = k.2)) as [->|Hne].
  - rewrite lookup_insert_eq, Hd. split; intros (e & [= <-] & ?); by eexists.
  - by rewrite lookup_insert_ne.
Qed.

Lemma perform_ledger m id t u m' :
  ledger_inv lost (Queued id) (sheet m) -> perform_deferred_exec st id t m = Ok (u, m') ->
  ledger_inv lost (Executed id) (sheet m') /\
  exists short, short <= TINY_COLLATERAL /\ obligations (sheet m') = obligations (sheet m) + short.
Proof.
  intros [Hb Hq] H. unfold perform_deferred_exec in H. lift_in H pp Hpp. lift_in H d Hd.
  unfold load_deferred_exec_item, load_deferred in Hd. apply of_option_ok in Hd.
  destruct (qi_items _ _ Hq _ _ Hd) as (Hrange & Hdi & Hty & Hpend & _).
  step_in H target m1 H1. eapply helper_execute_moves in H1 as (short & Hs & Hb1 & (Hd1 & _) & Hh); [|done..].
  unfold mark_deferred_exec_success in H. apply save_deferred_ok in H. rewrite Hdi in H.
  change (m_deferred m1) with (s_deferred (sheet m1)) in H. rewrite Hd1 in H.
  assert (is_pending (de_status d) = true) as Hp by (apply Hpend; by right).
  set (ds := s_deferred (sheet m)) in *.
  change (DEFERRED_EXECS ds !! id = Some d) in Hd.
  assert (forall i, unanswered (Executed id) ds i <-> unanswered (Queued id) ds i) as Hu.
  { intros i. unfold unanswered, waiting. split; intros [[?|?]|?]; naive_solver. }
  split; [split|].
  - rewrite H. by apply with_deferred_books.
  - rewrite H. simpl. destruct Hq as [Hr Hph Hit Hall Hps Hor]. split; try done.
    + intros i e He. simpl in He. apply lookup_insert_Some in He as [[<- <-]|[Hne He]].
      * split_and!; [apply Hrange|apply Hrange|exact Hdi|exact Hty|split; [done|]|done]. unfold waiting. simpl in *.
        change (last_processed (set_DEFERRED_EXECS _ ds)) with (last_processed ds). intros [?|?]; [lia|done].
      * destruct (Hit _ _ He) as (? & ? & ? & Hpe & Hf). do 3 (split; [done|]). split.
        -- rewrite Hpe. unfold waiting.
           change (last_processed (set_DEFERRED_EXECS _ ds)) with (last_processed ds). naive_solver.
        -- destruct (de_status e); naive_solver.
    + intros i Hi. simpl. rewrite lookup_insert_is_Some. destruct (decide (id = i)); [by left|right; split; auto].
    + by eapply status_index.
    + by eapply status_index.
  - exists short. split; [done|]. rewrite H, obligations_deferred, Hh, obligations_held. simpl.
    rewrite map_sum_insert, (map_get_Some _ _ _ _ Hd), set_status_pending. unfold pending_deposit at 2.
    rewrite Hp. simpl. unfold deferred_total. fold ds. lia.
Qed.

(** ** Taking the next item *)

Lemma next_item m r :
  queue_inv Idle (m_deferred m) -> get_next_deferred_execution m = Ok r ->
  let s := m_deferred m in
  match r with
  | None => last_processed s = last_issued s
  | Some (id, d) => id = last_processed s + 1 /\ DEFERRED_EXECS s !! id = Some d
  end.
Proof.
  intros [Hr _ _ _ _ _] H. unfold get_next_deferred_execution in H. unfold last_issued, last_processed in *.
  destruct (DEFERRED_EXEC_LATEST_IDS (m_deferred m)) as [ids|]; [|by injection H as <-].
  apply rbind_ok in H as (nx & Hnx & H). destruct (processed ids) as [p|]; simpl in *.
  - destruct (Z.leb_spec (issued ids) p); [injection Hnx as <-; injection H as <-; lia|].
    apply rbind_ok in Hnx as (n & Hn & Hnx). injection Hnx as <-. apply u64_checked_ok in Hn as [-> _].
    apply rbind_ok in H as (d & Hd%panics_ok & H). by injection H as <-.
  - injection Hnx as <-. apply rbind_ok in H as (d & Hd%panics_ok & H). by injection H as <-.
Qed.

(** The phase after the item is handed to a submessage. *)
Lemma taken_inv id s s' :
  queue_inv Idle s -> id = last_processed s + 1 -> is_Some (DEFERRED_EXECS s !! id) ->
  last_processed s' = id -> last_issued s' = last_issued s ->
  DEFERRED_EXECS s' = DEFERRED_EXECS s ->
  PENDING_DEFERRED_FOR_POSITION s' = PENDING_DEFERRED_FOR_POSITION s ->
  PENDING_DEFERRED_FOR_ORDER s' = PENDING_DEFERRED_FOR_ORDER s -> queue_inv (Queued id) s'.
Proof.
  intros [Hr Hp Hit Hall Hps Hor] Hid [d Hd] Hpr Hiss He H1 H2.
  assert (forall i, waiting (Queued id) s' i <-> waiting Idle s i) as Hw.
  { intros i. unfold waiting. rewrite Hpr. split; [intros [?|[= ->]]; left; lia|].
    intros [?|?]; [|done]. destruct (Z.eq_dec id i) as [->|]; [by right|left; lia]. }
  assert (forall i, unanswered (Queued id) s' i <-> unanswered Idle s i) as Hu.
  { intros i. unfold unanswered. rewrite Hw. naive_solver. }
  destruct (Hit _ _ Hd) as (Hrange & _). split.
  - lia.
  - lia.
  - intros i e. rewrite He, Hiss. intros Hi. destruct (Hit _ _ Hi) as (? & ? & ? & Hpe & ?).
    do 3 (split; [done|]). split; [by rewrite Hpe, Hw|]. by destruct (de_status e).
  - by rewrite Hiss, He.
  - unfold pending_index. rewrite H1, He. setoid_rewrite Hu. exact Hps.
  - unfold pending_index. rewrite H2, He. setoid_rewrite Hu. exact Hor.
Qed.

Lemma process_ledger m id target t pp u m' :
  ledger_inv lost Idle (sheet m) -> next_crankable_deferred_exec_id m t = Ok (Some (id, target)) ->
  process_deferred_exec id pp m = Ok (u, m') ->
  ledger_inv lost (Queued id) (sheet m') /\ obligations (sheet m') = obligations (sheet m) /\
  m_messages m' = m_messages m ++ [PerformDeferredExec id (pp_timestamp pp)].
Proof.
  intros [Hb Hq] Hn H. unfold next_crankable_deferred_exec_id in Hn.
  apply rbind_ok in Hn as (nx & Hnx & Hn). apply next_item in Hnx; [|done].
  destruct nx as [[i d]|]; [|done]. simpl in Hnx. destruct Hnx as [Hi Hd].
  destruct (de_created d <? t); [|done]. injection Hn as -> _.
  unfold process_deferred_exec, mod_deferred in H. step_in H u1 m1 H1. apply hmod_ok in H1.
  lift_in H ids Hids. apply panics_ok in Hids. step_in H u2 m2 H2. apply hmod_ok in H2. lift_in H e He.
  set (ds := m_deferred m) in *.
  assert (exists ds', sheet m' = with_deferred ds' (sheet m) /\ last_processed ds' = id /\
    last_issued ds' = last_issued ds /\ DEFERRED_EXECS ds' = DEFERRED_EXECS ds /\
    PENDING_DEFERRED_FOR_POSITION ds' = PENDING_DEFERRED_FOR_POSITION ds /\
    PENDING_DEFERRED_FOR_ORDER ds' = PENDING_DEFERRED_FOR_ORDER ds /\ m_messages m' = m_messages m2)
    as (ds' & Hs & Hp & Hl & Hex & Hps & Hor & Hmsg).
  { assert (last_issued ds = issued ids) as Hiss.
    { rewrite H1 in Hids. unfold last_issued, ds. simpl in Hids. by rewrite Hids. }
    exists (m_deferred m'). destruct (de_item e) as [| | | | | | | | |pid [sa|]| | |];
      first [apply hret_ok in H as [_ ->] | apply hmod_ok in H as ->]; rewrite H2, H1; simpl;
      split_and!; try done; try (by rewrite Hiss). }
  split; [split|split].
  - rewrite Hs. by apply with_deferred_books.
  - rewrite Hs. eapply (taken_inv _ ds); done.
  - rewrite Hs, obligations_deferred, obligations_held, Hex. done.
  - rewrite Hmsg, H2, H1. done.
Qed.

(** ** Recording the outcome *)

(** The store once an item that is no longer pending is answered. *)
Lemma answered_inv p id s d d' :
  queue_inv p s -> p = Queued id \/ p = Executed id -> DEFERRED_EXECS s !! id = Some d ->
  de_id d' = de_id d -> de_item d' = de_item d -> is_pending (de_status d') = false ->
  forall s', last_processed s' = last_processed s -> last_issued s' = last_issued s ->
  DEFERRED_EXECS s' = <[id := d']> (DEFERRED_EXECS s) ->
  PENDING_DEFERRED_FOR_POSITION s' =
    match defer_target (de_item d) with
    | TargetPosition i => delete (i, id) (PENDING_DEFERRED_FOR_POSITION s)
    | _ => PENDING_DEFERRED_FOR_POSITION s
    end ->
  PENDING_DEFERRED_FOR_ORDER s' =
    match defer_target (de_item d) with
    | TargetOrder i => delete (i, id) (PENDING_DEFERRED_FOR_ORDER s)
    | _ => PENDING_DEFERRED_FOR_ORDER s
    end -> queue_inv Idle s'.
Proof.
  intros [Hr Hp Hit Hall Hps Hor] Hph Hd Hid Hitem Hst s' Hpr Hiss He H1 H2.
  assert (id = last_processed s /\ 1 <= id) as [Hidp Hid1] by (by destruct Hph as [->| ->]).
  assert (forall i, i <> id -> unanswered p s i <-> unanswered Idle s' i) as Hu.
  { intros i Hi. unfold unanswered, waiting. rewrite Hpr. destruct Hph as [->| ->]; naive_solver. }
  assert (~ unanswered Idle s' id) as Hn by (unfold unanswered, waiting; intros [[?|?]|?]; lia || done).
  assert (forall (target : Z -> DeferredExecTarget) sel idx,
    (forall i, defer_target (de_item d) = target i <-> sel = Some i) ->
    pending_index p s target idx ->
    pending_index Idle s' target (match sel with Some i => delete (i, id) idx | None => idx end)) as Hidx.
  { intros target sel idx Hsel Hix [a i]. rewrite He. simpl. destruct (decide (id = i)) as [<-|Hne].
    - split; [|by intros (e & _ & _ & ?)]. intros Hk. exfalso.
      assert (idx !! (a, id) = Some tt /\ sel <> Some a) as [Hix' Hna].
      { destruct sel as [b|]; [|done]. apply lookup_delete_Some in Hk as [Hne Hk]. split; [done|congruence]. }
      apply Hix in Hix' as (e & Hk' & Ht & _). simpl in *. apply Hna, Hsel. congruence.
    - rewrite lookup_insert_ne by done.
      assert (match sel with Some j => delete (j, id) idx | None => idx end !! (a, i) = idx !! (a, i)) as ->
        by (destruct sel; [rewrite lookup_delete_ne; [done|congruence]|done]).
      rewrite (Hix (a, i)). simpl. by setoid_rewrite (Hu i (not_eq_sym Hne)). }
  split.
  - by rewrite Hpr, Hiss.
  - done.
  - rewrite Hiss, He. intros i e [[<- <-]|[Hne Hi]]%lookup_insert_Some.
    + destruct (Hit _ _ Hd) as (? & ? & ? & _). rewrite Hid, Hitem, Hst. do 3 (split; [done|]).
      split; [|by destruct (de_status d')]. split; [done|]. intros Hw. exfalso. apply Hn. by left.
    + destruct (Hit _ _ Hi) as (? & ? & ? & Hpe & ?). do 3 (split; [done|]).
      split; [|by destruct (de_status e)]. rewrite Hpe. unfold waiting. rewrite Hpr.
      destruct Hph as [->| ->]; naive_solver.
  - rewrite Hiss, He. intros i Hi. rewrite lookup_insert_is_Some. destruct (decide (id = i)); [by left|right; auto].
  - rewrite H1. destruct (defer_target (de_item d)) as [|t|t] eqn:Et.
    + apply (Hidx _ None); [|done]. naive_solver.
    + apply (Hidx _ (Some t)); [|done]. naive_solver.
    + apply (Hidx _ None); [|done]. naive_solver.
  - rewrite H2. destruct (defer_target (de_item d)) as [|t|t] eqn:Et.
    + apply (Hidx _ None); [|done]. naive_solver.
    + apply (Hidx _ None); [|done]. naive_solver.
    + apply (Hidx _ (Some t)); [|done]. naive_solver.
Qed.

Lemma clear_pending_ok id target m u m' :
  clear_pending id target m = Ok (u, m') ->
  let s := m_deferred m in
  sheet m' = with_deferred (match target with
    | TargetDoesNotExist => s
    | TargetPosition i => set_PENDING_DEFERRED_FOR_POSITION (delete (i, id) (PENDING_DEFERRED_FOR_POSITION s)) s
    | TargetOrder i => set_PENDING_DEFERRED_FOR_ORDER (delete (i, id) (PENDING_DEFERRED_FOR_ORDER s)) s
    end) (sheet m).
Proof.
  unfold clear_pending, mod_deferred. intros H. destruct target.
  - by apply hret_ok in H as [_ ->].
  - step_in H p m1 H1. get_in H1. step_in H v m2 H2. apply hensure_ok in H2 as [_ ->]. by apply hmod_ok in H as ->.
  - step_in H p m1 H1. get_in H1. step_in H v m2 H2. apply hensure_ok in H2 as [_ ->]. by apply hmod_ok in H as ->.
Qed.

(** The reply answers the item: a failed one is paid back. *)
Lemma reply_ledger m p id r u m' :
  ledger_inv lost p (sheet m) -> p = match r with SubMsgOk => Executed id | SubMsgErr => Queued id end ->
  handle_deferred_exec_reply st id r m = Ok (u, m') ->
  ledger_inv lost Idle (sheet m') /\ obligations (sheet m') = obligations (sheet m).
Proof.
  intros [Hb Hq] Hp H. unfold handle_deferred_exec_reply in H. lift_in H d Hd.
  unfold load_deferred in Hd. apply panics_ok in Hd.
  destruct (qi_items _ _ Hq _ _ Hd) as (_ & _ & Hty & Hpend & Hf).
  apply hbind_ok in H as ([d' ok] & m1 & Hx & H).
  assert (exists x, sheet m1 = with_transfers (s_transfers (sheet m) + x) (sheet m) /\
    x + pending_deposit d' = pending_deposit d /\
    de_id d' = de_id d /\ de_item d' = de_item d /\ is_pending (de_status d') = false)
    as (x & Hm1 & Hxs & Hid & Hitem & Hnp).
  { destruct r.
    - exists 0. destruct (de_status d) eqn:Es; [done| |done]. apply hret_ok in Hx as [[= -> ->] ->].
      unfold pending_deposit. rewrite Es, Z.add_0_r. split_and!; done.
    - step_in Hx pp m2 H2. get_in H2. lift_in Hx reason Hreason. step_in Hx v m2 H2.
      apply hensure_ok in H2 as [Hpe ->]. step_in Hx w m3 H3. apply hret_ok in Hx as [[= -> ->] ->].
      exists (deposited_amount (de_item d)). unfold pending_deposit. rewrite Hpe. simpl.
      split_and!; try done; [|lia]. destruct (nonzero_new _) as [a|] eqn:E.
      + apply nonzero_new_Some in E as [-> _]. by apply transfer_effect in H3.
      + apply hret_ok in H3 as [_ ->]. pose proof (nonzero_new_default (deposited_amount (de_item d))) as Hz.
        rewrite E in Hz. simpl in Hz. rewrite <- Hz, Z.add_0_r. done. }
  simpl in H. step_in H u1 m2 H2. apply save_deferred_ok in H2. step_in H u2 m3 H3.
  apply clear_pending_ok in H3. simpl in H3. quiet_in H. change (m_deferred m2) with (s_deferred (sheet m2)) in H3.
  rewrite H2 in H3. simpl in H3. change (m_deferred m1) with (s_deferred (sheet m1)) in H3. rewrite Hm1 in H3. simpl in H3.
  rewrite Hitem in H3. set (ds := m_deferred m) in *.
  set (ds1 := set_DEFERRED_EXECS (<[id := d']> (DEFERRED_EXECS ds)) ds) in *.
  match type of H3 with _ = with_deferred ?d _ => set (ds' := d) in H3 end.
  assert (queue_inv Idle ds') as Hq'.
  { eapply (answered_inv p id ds d d'); try done.
    - destruct r; subst p; [by right|by left].
    - unfold ds', ds1. by destruct (defer_target (de_item d)).
    - unfold ds', ds1. by destruct (defer_target (de_item d)).
    - unfold ds', ds1. by destruct (defer_target (de_item d)).
    - unfold ds', ds1. by destruct (defer_target (de_item d)).
    - unfold ds', ds1. by destruct (defer_target (de_item d)). }
  assert (sheet m' = with_deferred ds' (with_transfers (s_transfers (sheet m) + x) (sheet m))) as Hs.
  { rewrite H, H3. reflexivity. }
  destruct (transfer_moves (lost:=lost) st (sheet m) (sheet m) 0 x) as (Hb' & _ & Hh).
  { split; [done|]. split; [done|]. lia. }
  split; [split|]; rewrite Hs.
  - by apply with_deferred_books.
  - done.
  - rewrite obligations_deferred, Hh, obligations_held.
    assert (DEFERRED_EXECS ds' = <[id := d']> (DEFERRED_EXECS ds)) as -> by
      (unfold ds', ds1; by destruct (defer_target (de_item d))).
    rewrite map_sum_insert, (map_get_Some _ _ _ _ Hd). unfold deferred_total. simpl. fold ds. lia.
Qed.

(** A success reply is never stuck. *)
Lemma reply_ok_total m id :
  ledger_inv lost (Executed id) (sheet m) ->
  exists m', handle_deferred_exec_reply st id SubMsgOk m = Ok (tt, m').
Proof.
  intros [_ [Hr [Hid H1] Hit Hall Hps Hor]]. destruct (Hall id) as [d Hd]; [lia|].
  destruct (Hit _ _ Hd) as (_ & Hdid & _ & Hpend & Hf). unfold handle_deferred_exec_reply.
  assert (exists t e, de_status d = DeferSuccess t e) as (t & e & Es).
  { destruct (de_status d); [|by eexists _, _|done]. exfalso.
    destruct Hpend as [Hp _]. destruct (Hp eq_refl) as [?|?]; [lia|done]. }
  unfold hask, hlift, hbind, load_deferred. simpl in Hd. rewrite Hd. simpl. rewrite Es. simpl.
  unfold clear_pending, hbind, hensure, hget, mod_deferred, hmod, hret, save_deferred. simpl.
  destruct (defer_target (de_item d)) as [|i|i] eqn:Et; simpl.
  - by eexists.
  - assert (PENDING_DEFERRED_FOR_POSITION (m_deferred m) !! (i, id) = Some tt) as ->.
    { apply Hps. exists d. split_and!; try done. by right. } by eexists.
  - assert (PENDING_DEFERRED_FOR_ORDER (m_deferred m) !! (i, id) = Some tt) as ->.
    { apply Hor. exists d. split_and!; try done. by right. } by eexists.
Qed.

(** ** Queueing *)

(** Replacing an open position by one with the same amounts, size, triggers and
    schedule. *)
Lemma save_no_recalc_conserves m pos q u m' :
  market_inv lost (sheet m) -> open_positions (sheet m) !! pos_id pos = Some pos ->
  pos_id q = pos_id pos -> active_collateral q = active_collateral pos ->
  counter_collateral q = counter_collateral pos -> notional_size q = notional_size pos ->
  pos_liquidation_margin q = pos_liquidation_margin pos ->
  next_liquifunding q = next_liquifunding pos ->
  desc_triggers q = desc_triggers pos -> asc_triggers q = asc_triggers pos ->
  position_save_no_recalc q m = Ok (u, m') -> conserves lost (sheet m) (sheet m') 0.
Proof.
  intros Hinv Hpos Hid Ha Hc Hs Hm Hn Hdt Hat H. destruct (mi_open _ Hinv _ _ Hpos) as [[[] Hmg Hcov] _].
  unfold position_save_no_recalc, mod_positions in H. apply hmod_ok in H.
  assert (sheet m' = with_positions (set_OPEN_POSITIONS (<[pos_id q := q]> (OPEN_POSITIONS (m_positions m)))
    (m_positions m)) (sheet m)) as Hsh by (by rewrite H).
  destruct (sizes_eq q pos Hs) as (Hls & Hss & _). pose proof (mi_typed _ Hinv) as [].
  pose proof (mi_store _ Hinv) as [Hids Hd Has Hnx Hmt]. unfold open_positions in Hpos. simpl in *.
  assert (pos_inv q) as Hq.
  { split; [split|by rewrite Hm|unfold covered; by rewrite Hm, Ha]; by rewrite ?Ha, ?Hc, ?Hs. }
  eapply (updated_conserves _ _ pos q); rewrite ?Hsh; simpl; try done; try lia;
    [|unfold assets; simpl; lia].
  assert (forall (triggers : Position -> _) k, triggers q = triggers pos ->
    expected triggers (<[pos_id pos := q]> (OPEN_POSITIONS (m_positions m))) k
    = expected triggers (OPEN_POSITIONS (m_positions m)) k) as Hexp.
  { intros triggers k Ht. unfold expected. destruct (decide (pos_id pos = k.2)) as [<-|].
    - rewrite lookup_insert_eq, Hpos. simpl. by rewrite Ht.
    - by rewrite lookup_insert_ne. }
  rewrite Hid. split; simpl.
  - intros i p [[<- <-]|[_ Hp]]%lookup_insert_Some; [done|]. by apply Hids.
  - intros k. rewrite Hexp; auto.
  - intros k. rewrite Hexp; auto.
  - intros k. rewrite Hnx. unfold expected_next. destruct (decide (pos_id pos = k.2)) as [<-|].
    + rewrite lookup_insert_eq, Hpos. simpl. by rewrite Hn.
    + by rewrite lookup_insert_ne.
  - rewrite Hmt, map_sum_insert. unfold funding_margin. rewrite (map_get_Some _ _ _ _ Hpos), Hm. lia.
Qed.

Lemma with_crank_fee_ok m id fee pp q :
  position_with_crank_fee m id fee pp = Ok q ->
  exists pos c d, get_position m id = Ok pos /\ q = set_deposit_collateral d (set_pos_crank_fee c pos).
Proof.
  unfold position_with_crank_fee. intros (pos & Hpos & H)%rbind_ok.
  apply rbind_ok in H as (c & _ & H). apply rbind_ok in H as (d & _ & H). injection H as <-.
  by exists pos, c, d.
Qed.

Lemma save_crank_fee_conserves m id fee pp q u m' :
  market_inv lost (sheet m) -> position_with_crank_fee m id fee pp = Ok q ->
  position_save_no_recalc q m = Ok (u, m') -> conserves lost (sheet m) (sheet m') 0.
Proof.
  intros Hinv (pos & c & d & Hpos & ->)%with_crank_fee_ok H.
  apply (get_open (lost:=lost)) in Hpos as (_ & Hpos & _); [|done].
  by eapply (save_no_recalc_conserves _ pos _ _ _ Hinv Hpos); [..|exact H].
Qed.

Lemma charge_attached_moves trader m id fee fee_usd funds pp u m' :
  books_inv lost mt (sheet m) -> charge_attached st trader id fee fee_usd funds pp m = Ok (u, m') ->
  exists x, moves lost mt (sheet m) (sheet m') x /\ (funds = Ok x \/ fee = 0 /\ x = 0).
Proof.
  intros Hb H. unfold charge_attached in H. lift_in H f Hf. lift_in H rest Hrest.
  apply ud_sub_ok in Hrest as [-> Hrest]. step_in H u1 m1 H1. apply cap_crank_effect in H1. simpl in H1.
  step_in H u2 m2 H2. assert (sheet m2 = credit (f - fee) (sheet m1)) as H2e.
  { destruct (nonzero_new (f - fee)) as [x|] eqn:E.
    - apply nonzero_new_Some in E as [-> _]. by apply return_funds_effect in H2.
    - apply hret_ok in H2 as [_ ->]. pose proof (nonzero_new_default (f - fee)) as Hz. rewrite E in Hz.
      simpl in Hz. by rewrite <- Hz, credit_0. }
  rewrite H1, credit_credit in H2e. replace (fee + (f - fee)) with f in H2e by lia.
  pose proof (credit_moves st _ f Hb) as Hmv. rewrite <- H2e in Hmv.
  lift_in H q Hq. eapply save_crank_fee_conserves in H; [|apply Hmv|exact Hq].
  apply (conserves_moves mt) in H; [|apply Hmv].
  exists f. split; [rewrite <- (Z.add_0_r f); by eapply moves_trans|].
  unfold ud_is_zero in Hf. destruct (Z.eqb_spec fee 0); [injection Hf as <-; by right|by left].
Qed.

Lemma charge_added_moves m id amount fee fee_usd pp a m' :
  books_inv lost mt (sheet m) -> 0 < amount <= U256_MAX -> 0 <= fee ->
  charge_added st id amount fee fee_usd pp m = Ok (a, m') ->
  a = amount - fee /\ 0 < a /\ moves lost mt (sheet m) (sheet m') fee.
Proof.
  intros Hb Ha Hfee H. unfold charge_added in H. lift_in H x Hx.
  apply nonzero_checked_sub_ok in Hx as [-> Hlt]; [|unfold is_dec; lia|done].
  lift_in H q Hq. step_in H u1 m1 H1. apply cap_crank_effect in H1. simpl in H1.
  step_in H u2 m2 H2. apply hret_ok in H as [-> ->]. split; [done|]. split; [lia|].
  pose proof (credit_moves st _ fee Hb) as Hmv. rewrite <- H1 in Hmv.
  apply with_crank_fee_ok in Hq as (pos & c & d & Hpos & ->).
  apply (get_open (lost:=lost)) in Hpos as (_ & Hpos & _); [|apply Hb].
  assert (open_positions (sheet m1) !! pos_id pos = Some pos) as Hpos1 by (by rewrite H1).
  assert (conserves lost (sheet m1) (sheet m2) 0) as Hc
    by (by eapply (save_no_recalc_conserves _ pos _ _ _ (bi_market _ _ (proj1 Hmv)) Hpos1); [..|exact H2]).
  apply (conserves_moves mt) in Hc; [|apply Hmv].
  rewrite <- (Z.add_0_r fee). by eapply moves_trans.
Qed.

(** What the trader pays with a request: the collateral it adds, or the funds
    attached for the crank fee. *)
Definition received (item : DeferredExecItem) (funds : res Collateral) (x : Z) : Prop :=
  if 0 <? deposited_amount item then x = deposited_amount item else funds = Ok x \/ x = 0.

(** A request charged in [m] and queued as [item']. *)
Definition charged (item : DeferredExecItem) (funds : res Collateral) (m m' : MarketCtx)
    (item' : DeferredExecItem) : Prop :=
  exists x s1 ds, sheet m' = with_deferred ds s1 /\ same_items (m_deferred m) ds /\
    moves lost mt (sheet m) s1 (x - deposited_amount item') /\ received item funds x /\
    item_typed item' /\ defer_target item' = defer_target item.

Lemma moves_charged item funds m m1 item' x :
  moves lost mt (sheet m) (sheet m1) (x - deposited_amount item') -> received item funds x ->
  item_typed item' -> defer_target item' = defer_target item -> charged item funds m m1 item'.
Proof.
  intros Hm Hx Ht Htg. exists x, (sheet m1), (s_deferred (sheet m1)). split; [done|]. split; [|done].
  pose proof (proj1 (proj1 (proj2 Hm))) as E. by rewrite E.
Qed.

Lemma charge_deferred_item_moves trader new_id item funds fee fee_usd pp m item' m' :
  books_inv lost mt (sheet m) -> item_typed item -> is_dec fee ->
  charge_deferred_item st trader new_id item funds fee fee_usd pp m = Ok (item', m') ->
  charged item funds m m' item'.
Proof.
  intros Hb Hty [Hf Hf'] H.
  assert (forall id, deposited_amount item = 0 -> item_typed item ->
    (charge_attached st trader id fee fee_usd funds pp;;; hret item) m = Ok (item', m') ->
    charged item funds m m' item') as Hatt.
  { intros id Hz Ht Ha. step_in Ha u m1 H1. apply hret_ok in Ha as [-> ->].
    apply charge_attached_moves in H1 as (x & Hm & Hx); [|done].
    apply (moves_charged item funds m m1 item x); try done.
    - by rewrite Hz, Z.sub_0_r.
    - unfold received. rewrite Hz. simpl. destruct Hx as [?|[_ ?]]; auto. }
  assert (forall item' m1, 0 < deposited_amount item -> moves lost mt (sheet m) (sheet m1) fee ->
    deposited_amount item' = deposited_amount item - fee -> item_typed item' ->
    defer_target item' = defer_target item -> charged item funds m m1 item') as Hdep.
  { intros i m1 Hp Hm Hd Ht Htg. apply (moves_charged item funds m m1 i (deposited_amount item)); try done.
    - by replace (deposited_amount item - deposited_amount i) with fee by lia.
    - unfold received. by apply Z.ltb_lt in Hp as ->. }
  assert (forall ds, same_items (m_deferred m) ds -> sheet m' = with_deferred ds (sheet m) ->
    deposited_amount item = 0 -> charged item funds m m' item) as Hmark.
  { intros ds Hds Hs Hz. exists 0, (sheet m), ds. split; [done|]. split; [done|].
    split; [rewrite Hz; split; [done|split; [done|lia]]|]. split; [|done].
    unfold received. rewrite Hz. by right. }
  unfold charge_deferred_item in H.
  destruct item as [sa lev dir mg sl tp amount cf cfu|id amount|id sa amount|id amount|id amount sa|id lev sa|id mg|id tp
    |id sl|id [sa|]|id sl tp|trig lev dir mg sl tp amount cf cfu|oid]; cbn [item_typed] in Hty;
    try (by apply (Hatt _ eq_refl) in H).
  - lift_in H a Ha. apply nonzero_checked_sub_ok in Ha as [-> Hlt]; [|unfold is_dec; lia|done].
    step_in H u m1 H1. apply cap_crank_effect in H1. simpl in H1. apply hret_ok in H as [-> ->].
    apply Hdep; simpl; try done; try lia. rewrite H1. by apply credit_moves.
  - step_in H a m1 H1. apply hret_ok in H as [-> ->]. apply charge_added_moves in H1 as (-> & Hp & Hm); [|done..].
    apply Hdep; simpl; try done; lia.
  - step_in H a m1 H1. apply hret_ok in H as [-> ->]. apply charge_added_moves in H1 as (-> & Hp & Hm); [|done..].
    apply Hdep; simpl; try done; lia.
  - step_in H u m1 H1. apply hensure_ok in H1 as [_ ->]. step_in H c m1 H1. get_in H1.
    step_in H u2 m2 H2. apply hensure_ok in H2 as [_ ->]. step_in H u3 m3 H3. apply hmod_ok in H3.
    apply hret_ok in H as [-> ->]. eapply Hmark; [| |done]; [|rewrite H3; reflexivity]. by repeat split.
  - lift_in H a Ha. apply nonzero_checked_sub_ok in Ha as [-> Hlt]; [|unfold is_dec; lia|done].
    step_in H u m1 H1. apply cap_crank_effect in H1. simpl in H1. apply hret_ok in H as [-> ->].
    apply Hdep; simpl; try done; try lia. rewrite H1. by apply credit_moves.
  - step_in H u m1 H1. apply hensure_ok in H1 as [_ ->]. step_in H c m1 H1. get_in H1.
    step_in H u2 m2 H2. apply hensure_ok in H2 as [_ ->]. step_in H u3 m3 H3. apply hmod_ok in H3.
    apply hret_ok in H as [-> ->]. eapply Hmark; [| |done]; [|rewrite H3; reflexivity]. by repeat split.
Qed.

(** The store with a new item at the end of the queue. *)
Lemma queued_inv s s' d id :
  queue_inv Idle s -> id = last_issued s + 1 -> de_id d = id -> item_typed (de_item d) ->
  de_status d = DeferPending -> last_issued s' = id -> last_processed s' = last_processed s ->
  DEFERRED_EXECS s' = <[id := d]> (DEFERRED_EXECS s) ->
  PENDING_DEFERRED_FOR_POSITION s' =
    match defer_target (de_item d) with
    | TargetPosition i => <[(i, id) := tt]> (PENDING_DEFERRED_FOR_POSITION s)
    | _ => PENDING_DEFERRED_FOR_POSITION s
    end ->
  PENDING_DEFERRED_FOR_ORDER s' =
    match defer_target (de_item d) with
    | TargetOrder i => <[(i, id) := tt]> (PENDING_DEFERRED_FOR_ORDER s)
    | _ => PENDING_DEFERRED_FOR_ORDER s
    end -> queue_inv Idle s'.
Proof.
  intros [Hr _ Hit Hall Hps Hor] Hid Hdi Hty Hst Hiss Hpr He H1 H2.
  assert (DEFERRED_EXECS s !! id = None) as Hfree.
  { destruct (DEFERRED_EXECS s !! id) as [e|] eqn:E; [|done]. apply Hit in E as ([_ E] & _). lia. }
  assert (forall i, waiting Idle s' i <-> waiting Idle s i) as Hw by (intros i; unfold waiting; by rewrite Hpr).
  assert (forall i, unanswered Idle s' i <-> unanswered Idle s i) as Hu by (intros i; unfold unanswered; by rewrite Hw).
  assert (unanswered Idle s id) as Hun by (left; left; lia).
  assert (forall (target : Z -> DeferredExecTarget) sel idx,
    (forall i, defer_target (de_item d) = target i <-> sel = Some i) -> pending_index Idle s target idx ->
    pending_index Idle s' target (match sel with Some i => <[(i, id) := tt]> idx | None => idx end)) as Hidx.
  { intros target sel idx Hsel Hix [a i]. rewrite He. simpl. destruct (decide (id = i)) as [<-|Hne].
    - rewrite lookup_insert_eq.
      assert (idx !! (a, id) = None) as Hno.
      { destruct (idx !! (a, id)) as [[]|] eqn:E; [|done]. apply Hix in E as (e & E & _). simpl in E. congruence. }
      split.
      + intros Hk. exists d. split; [done|]. split; [|by apply Hu]. apply Hsel. destruct sel as [b|]; [|congruence].
        apply lookup_insert_Some in Hk as [[[= ->] _]|[_ Hk]]; [done|congruence].
      + intros (e & [= <-] & Ht & _). apply Hsel in Ht as ->. by rewrite lookup_insert_eq.
    - rewrite lookup_insert_ne by done.
      assert (match sel with Some j => <[(j, id) := tt]> idx | None => idx end !! (a, i) = idx !! (a, i)) as ->
        by (destruct sel; [rewrite lookup_insert_ne; [done|congruence]|done]).
      rewrite (Hix (a, i)). simpl. by setoid_rewrite (Hu i). }
  split.
  - lia.
  - done.
  - rewrite Hiss, He. intros i e [[<- <-]|[Hne Hi]]%lookup_insert_Some.
    + split; [lia|]. do 2 (split; [done|]). rewrite Hst. split; [|done]. split; [intros _; left; lia|done].
    + destruct (Hit _ _ Hi) as (? & ? & ? & Hpe & ?). split; [lia|]. do 2 (split; [done|]).
      split; [by rewrite Hpe, Hw|]. by destruct (de_status e).
  - rewrite Hiss, He. intros i Hi. rewrite lookup_insert_is_Some.
    destruct (decide (id = i)); [by left|right; split; [done|]]. apply Hall. lia.
  - rewrite H1. destruct (defer_target (de_item d)) as [|t|t] eqn:Et.
    + apply (Hidx _ None); [|done]. naive_solver.
    + apply (Hidx _ (Some t)); [|done]. naive_solver.
    + apply (Hidx _ None); [|done]. naive_solver.
  - rewrite H2. destruct (defer_target (de_item d)) as [|t|t] eqn:Et.
    + apply (Hidx _ None); [|done]. naive_solver.
    + apply (Hidx _ None); [|done]. naive_solver.
    + apply (Hidx _ (Some t)); [|done]. naive_solver.
Qed.

Lemma issue_ok m id ids size :
  issue_deferred_id m = Ok (id, ids, size) ->
  id = last_issued (m_deferred m) + 1 /\ issued ids = id /\
  default 0 (processed ids) = last_processed (m_deferred m).
Proof.
  unfold issue_deferred_id, last_issued, last_processed.
  destruct (DEFERRED_EXEC_LATEST_IDS (m_deferred m)) as [i|].
  - intros (x & _ & H)%rbind_ok. apply rbind_ok in H as (n & Hn & H). apply u64_checked_ok in Hn as [-> _].
    by injection H as <- <- <-.
  - by intros [= <- <- <-].
Qed.

(** A request takes from the trader exactly what joins the books. *)
Lemma defer_ledger m trader item funds u m' :
  ledger_inv lost Idle (sheet m) -> item_typed item -> defer_execution st trader item funds m = Ok (u, m') ->
  ledger_inv lost Idle (sheet m') /\
  exists x, received item funds x /\ obligations (sheet m') = obligations (sheet m) + x.
Proof.
  intros [Hb Hq] Hty H. unfold defer_execution, mod_deferred in H.
  apply hbind_ok in H as ([[id ids] size] & m0 & Hi & H). apply hask_ok in Hi as [Hi ->].
  apply issue_ok in Hi as (Hid & Hids & Hproc).
  step_in H u1 m1 H1. apply hmod_ok in H1. step_in H u2 m2 H2. apply hmod_ok in H2.
  lift_in H fusd Hfusd. lift_in H price Hprice. lift_in H fee Hfee. apply usd_to_collateral_dec in Hfee.
  assert (sheet m2 = with_deferred (m_deferred m2) (sheet m)) as Hm2 by (by rewrite H2, H1).
  assert (books_inv lost mt (sheet m2)) as Hb2 by (rewrite Hm2; by apply with_deferred_books).
  step_in H item' m3 H3. apply charge_deferred_item_moves in H3 as (x & s1 & ds & H3 & Hds & Hmv & Hx & Hty' & Htg);
    [|done..].
  step_in H u4 m4 H4. assert (m4 = m3) as ->.
  { destruct (defer_target item); [by apply hret_ok in H4 as [_ ->]|by apply hask_ok in H4 as [_ ->]..]. }
  step_in H u5 m5 H5. apply save_deferred_ok in H5. step_in H u6 m6 H6. lift_in H pp Hpp. lift_in H v Hv. quiet_in H.
  set (d := mkDeferredExecWithStatus id (st_now st) DeferPending trader item') in *.
  set (ds1 := set_DEFERRED_EXECS (<[id := d]> (DEFERRED_EXECS ds)) ds).
  assert (m_deferred m3 = ds) as Hd3 by (change (s_deferred (sheet m3) = ds); by rewrite H3). rewrite Hd3 in H5. fold ds1 in H5.
  assert (m_deferred m5 = ds1) as Hd5 by (change (s_deferred (sheet m5) = ds1); by rewrite H5).
  set (ds2 := match defer_target item with
    | TargetDoesNotExist => ds1
    | TargetPosition i => set_PENDING_DEFERRED_FOR_POSITION (<[(i, id) := tt]> (PENDING_DEFERRED_FOR_POSITION ds1)) ds1
    | TargetOrder i => set_PENDING_DEFERRED_FOR_ORDER (<[(i, id) := tt]> (PENDING_DEFERRED_FOR_ORDER ds1)) ds1
    end).
  assert (sheet m6 = with_deferred ds2 s1) as Hs6.
  { assert (sheet m6 = with_deferred ds2 (sheet m5)) as ->; [|by rewrite H5, H3].
    unfold ds2. rewrite <- Hd5. destruct (defer_target item); [by apply hret_ok in H6 as [_ ->]|
      by apply hmod_ok in H6 as ->..]. }
  destruct Hds as (E1 & E2 & E3 & E4). rewrite H2, H1 in E1, E2, E3, E4. simpl in E1, E2, E3, E4.
  assert (last_issued ds = id /\ last_processed ds = last_processed (m_deferred m)) as [Hli Hlp].
  { unfold last_issued, last_processed. by rewrite E1, Hproc. }
  assert (DEFERRED_EXECS ds2 = <[id := d]> (DEFERRED_EXECS (m_deferred m))) as Hex.
  { unfold ds2, ds1. rewrite <- E2. by destruct (defer_target item). }
  assert (queue_inv Idle ds2) as Hq2.
  { eapply (queued_inv (m_deferred m) ds2 d id); try done; unfold ds2, ds1; cbn [de_item d]; rewrite ?Htg, <- ?E3, <- ?E4;
      by destruct (defer_target item). }
  rewrite H, Hs6. split; [split; [by apply with_deferred_books; apply Hmv|exact Hq2]|].
  exists x. split; [done|]. rewrite obligations_deferred, Hex.
  destruct Hmv as (_ & _ & Hh). rewrite Hh, Hm2, obligations_held.
  assert (DEFERRED_EXECS (m_deferred m) !! id = None) as Hfree.
  { destruct (DEFERRED_EXECS (m_deferred m) !! id) as [e|] eqn:E; [|done].
    apply (qi_items _ _ Hq) in E as ([_ E] & _). simpl in E. lia. }
  rewrite map_sum_insert_new by done. change (pending_deposit d) with (deposited_amount item').
  change (held (with_deferred (m_deferred m2) (sheet m))) with (held (sheet m)).
  unfold deferred_total. simpl. lia.
Qed.
End Theory.
