(* ===== verification/CrankInv.v ===== *)
(** * What a crank does

    A piece of work keeps the books whatever it is; work is found exactly when
    something is due, so a price point is completed only when nothing is left to
    do at its price; and a batch ends within its budget. *)

From stdpp Require Import base option gmap strings list pretty.
From Stdlib Require Import ZArith Lia.
From S2P Require Import Prelude Index Storage Cosmwasm Types Number Time Market Price Token DataSeries Config Position Trading State Pool LpHistory Liquidity Books LiquidityInv Fees FeesInv LiquiditySystem Funding FundingInv DeltaNeutrality DeltaNeutralityInv OpenInterest PositionStore SpotPrice TradeHistory BalanceSheet PositionStoreInv BalanceEffects PositionToken ClosePosition OpenPosition UpdatePosition Orders Deferred Crank MarketInv ClosingInv PositionMsgs OrdersInv DeferredInv QueueInv.
Local Open Scope Z_scope.

(** ** Operations that send no message *)

Definition silent {A} (h : mhandler A) : Prop :=
  forall m a m', h m = Ok (a, m') -> m_messages m' = m_messages m.

Section Silent.
Lemma silent_bind {A B} (c : mhandler A) (k : A -> mhandler B) :
  silent c -> (forall a, silent (k a)) -> silent (hbind c k).
Proof. intros Hc Hk m b m' H. inv_ok. rewrite (Hk _ _ _ _ H). by eapply Hc. Qed.
Lemma silent_ret {A} (a : A) : silent (hret a).
Proof. intros m b m' H. by inv_ok. Qed.
Lemma silent_err {A} (e : error) : silent (herr (A:=A) e).
Proof. intros m b m' H. by inv_ok. Qed.
Lemma silent_lift {A} (r : res A) : silent (hlift r).
Proof. intros m b m' H. by inv_ok. Qed.
Lemma silent_ask {A} (f : MarketCtx -> res A) : silent (hask f).
Proof. intros m b m' H. by inv_ok. Qed.
Lemma silent_get {A} (f : MarketCtx -> A) : silent (hget f).
Proof. intros m b m' H. by inv_ok. Qed.
Lemma silent_ensure b (e : error) : silent (hensure b e).
Proof. intros m u m' H. by inv_ok. Qed.
Lemma silent_mod f : (forall m, m_messages (f m) = m_messages m) -> silent (hmod f).
Proof. intros Hf m u m' H. inv_ok. apply Hf. Qed.
Lemma silent_event st e : silent (add_event st e).
Proof. intros m u m' H. unfold add_event in H. inv_ok. by destruct (mute_events _). Qed.
Lemma silent_events st es : silent (add_events st es).
Proof. intros m u m' H. unfold add_events in H. inv_ok. by destruct (mute_events _). Qed.
End Silent.

Create HintDb silent.
#[export] Hint Resolve silent_bind silent_ret silent_err silent_lift silent_ask silent_get silent_ensure
  silent_event silent_events : silent.

(** Follow the structure of a handler down to the updates of the store. *)
Ltac silent :=
  repeat first
    [ progress intros
    | apply silent_bind
    | solve [eauto 1 with silent nocore]
    | solve [apply silent_mod; intros []; reflexivity]
    | match goal with
      | |- silent (match ?x with _ => _ end) => destruct x
      | |- silent (if ?x then _ else _) => destruct x
      | |- silent ?h => let f := head_of h in unfold f
      end ].

Section Handlers.
Context {CW : CosmwasmStd}.
Context (st : State).

Lemma silent_save_addr a s : silent (save_liquidity_stats_addr a s).
Proof. silent. Qed.
Lemma silent_accrue a : silent (update_accrued_yield a).
Proof. silent. Qed.
Lemma silent_save_stats l : silent (save_liquidity_stats l).
Proof. silent. Qed.
Lemma silent_pool_events s p : silent (add_pool_size_change_events st s p).
Proof. silent. Qed.
Lemma silent_transfer a x : silent (add_token_transfer_msg a x).
Proof. silent. Qed.
Hint Resolve silent_save_addr silent_accrue silent_save_stats silent_pool_events silent_transfer : silent.
Lemma silent_reset : silent crank_reset_lp_balances.
Proof. silent. Qed.
Lemma silent_trading_fee id a p s o : silent (collect_trading_fee st id a p s o).
Proof. silent. Qed.
Lemma silent_fee_settlement s : silent (fee_settlement_apply st s).
Proof. silent. Qed.
Lemma silent_charge r : silent (charge_result_apply st r).
Proof. silent. Qed.
Hint Resolve silent_trading_fee silent_fee_settlement silent_charge : silent.
Lemma silent_liquifund l : silent (position_liquifund_apply st l).
Proof. silent. Qed.
Lemma silent_save p pp u r s : silent (position_save st p pp u r s).
Proof. silent. Qed.
Lemma silent_close_history c d p : silent (position_history_add_close st c d p).
Proof. silent. Qed.
Lemma silent_update_history p k t d x pp :
  silent (position_history_add_open_update_action st p k t d x pp).
Proof. silent. Qed.
Hint Resolve silent_liquifund silent_save silent_close_history silent_update_history : silent.
Lemma silent_close e : silent (close_position_apply st e).
Proof. silent. Qed.
Hint Resolve silent_close : silent.
Lemma silent_liquifund_store p a b c r : silent (position_liquifund_store st p a b c r).
Proof. silent. Qed.
Lemma silent_open e r : silent (open_position_apply st e r).
Proof. silent. Qed.
Hint Resolve silent_open silent_liquifund_store : silent.
Lemma silent_execute_order id pp : silent (limit_order_execute_order st id pp).
Proof. silent. Qed.
Lemma silent_helper_execute d pp : silent (helper_execute st d pp).
Proof. unfold helper_execute. destruct (de_item d); silent. Qed.
Lemma silent_reply id r : silent (handle_deferred_exec_reply st id r).
Proof. silent. Qed.
Lemma silent_defer trader item funds : silent (defer_execution st trader item funds).
Proof. unfold defer_execution. silent. Qed.
Lemma silent_rewards a n : silent (allocate_crank_fees st a n).
Proof. silent. Qed.
End Handlers.

#[export] Hint Resolve silent_reset silent_liquifund_store silent_close silent_execute_order
  silent_helper_execute silent_reply silent_defer silent_rewards silent_liquifund : silent.

Section Theory.
Context {CW : CosmwasmStd} {CWS : CosmwasmStdSpec CW}.
Context {lost : Collateral}.
Context (st : State).
Hypothesis Hcfg : dnf_config (st_config st).
Local Abbreviation mt := (market_type st).
Local Abbreviation ledger := (ledger_inv st lost).

(** ** A piece of work *)

Lemma quiet_borrow_rate pp : quiet (accumulate_borrow_fee_rate st pp).
Proof. unfold accumulate_borrow_fee_rate, append_to. quiet; apply quiet_funding; by intros []. Qed.
Lemma quiet_funding_rate pp : quiet (accumulate_funding_rate st pp).
Proof. unfold accumulate_funding_rate, append_to. quiet; apply quiet_funding; by intros []. Qed.
Lemma quiet_reset : quiet crank_reset_lp_balances.
Proof. unfold crank_reset_lp_balances. quiet. Qed.

(** The crank's own marks are not part of the books. *)
Lemma with_crank_ledger p s c :
  ledger p s -> ledger p (with_crank c s) /\ obligations (with_crank c s) = obligations s.
Proof.
  intros [[[[] ? ? ? ? ?] ?] ?]. split; [|done]. split; [split; [split; [by split|done..]|done]|done].
Qed.

Lemma mod_crank_ledger p f m u m' :
  ledger p (sheet m) -> mod_crank f m = Ok (u, m') ->
  ledger p (sheet m') /\ obligations (sheet m') = obligations (sheet m) /\ m_messages m' = m_messages m.
Proof.
  intros Hl H. unfold mod_crank in H. apply hmod_ok in H.
  assert (sheet m' = with_crank (f (m_crank m)) (sheet m)) as Hs by (by rewrite H).
  destruct (with_crank_ledger _ _ (f (m_crank m)) Hl) as [H1 H2].
  rewrite Hs. split_and!; try done. by rewrite H.
Qed.

Lemma conserves_dust_ledger p s s' :
  ledger p s -> conserves_dust lost s s' 0 ->
  ledger p s' /\ exists short, short <= TINY_COLLATERAL /\ obligations s' = obligations s + short.
Proof.
  intros Hl (x & Hx & Hc). apply (conserves_moves mt) in Hc; [|apply Hl].
  destruct (moves_ledger st _ _ _ _ Hl Hc) as [H1 H2]. split; [done|]. by exists x.
Qed.

Lemma crank_liquidate_conserves m id reason pp u m' :
  market_inv lost (sheet m) -> crank_liquidate st id reason pp m = Ok (u, m') ->
  conserves_dust lost (sheet m) (sheet m') 0.
Proof.
  intros Hinv H. unfold crank_liquidate in H. lift_in H pos Hpos.
  apply (get_open (lost:=lost)) in Hpos as (_ & Hpos & Hpv); [|done]. lift_in H l Hl.
  apply (liquifund_new_ok (lost:=lost)) in Hl as (e & short & Hl); [|done..].
  step_in H r m1 H1. apply liquifund_apply_effect in H1 as [-> H1]; [|apply Hl]. lift_in H ce Hce.
  exists short. split; [apply (lf_short _ _ _ _ _ Hl)|].
  pose proof (lf_instructions _ _ _ _ _ Hl) as Hit.
  eapply (close_after_apply st Hcfg m pos l e short m1 _ ce); try done;
    destruct (pl_position l); simpl; try done; try (by destruct Hit); auto with perps.
Qed.

(** The phase a piece of work leaves the queue in. *)
Definition next_phase (m m' : MarketCtx) (more : bool) : Prop :=
  if more
  then exists id t, ledger (Queued id) (sheet m') /\ m_messages m' = m_messages m ++ [PerformDeferredExec id t]
  else ledger Idle (sheet m') /\ m_messages m' = m_messages m.

Lemma crank_exec_ledger m w pp more m' :
  ledger Idle (sheet m) -> crank_work m pp = Ok w -> crank_exec st w pp m = Ok (more, m') ->
  next_phase m m' more /\
  exists short, short <= TINY_COLLATERAL /\ obligations (sheet m') = obligations (sheet m) + short.
Proof.
  intros Hl Hw H. unfold crank_exec in H. step_in H u m0 H0.
  pose proof (silent_event _ _ _ _ _ H0) as Hm0. pose proof (quiet_event _ _ _ _ _ H0) as Hs0.
  assert (forall m2, ledger Idle (sheet m2) /\ (exists short, short <= TINY_COLLATERAL /\
      obligations (sheet m2) = obligations (sheet m0) + short) -> m_messages m2 = m_messages m0 ->
    next_phase m m2 false /\
    exists short, short <= TINY_COLLATERAL /\ obligations (sheet m2) = obligations (sheet m) + short) as Hstay.
  { intros m2 [H1 H2] H3. rewrite Hs0 in H2. split; [split; [done|congruence]|done]. }
  assert (forall m2, sheet m2 = sheet m0 -> ledger Idle (sheet m2) /\ (exists short, short <= TINY_COLLATERAL /\
      obligations (sheet m2) = obligations (sheet m0) + short)) as Hq.
  { intros m2 E. rewrite E, Hs0. split; [done|]. exists 0. split; [done|lia]. }
  rewrite <- Hs0 in Hl. pose proof (bi_market _ _ (li_books _ _ _ Hl)) as Hmk.
  destruct w as [id| |id|id reason|id target|id|].
  - lift_in H pos Hpos. apply (get_open (lost:=lost)) in Hpos as (_ & Hpos & _); [|done]. lift_in H e He.
    step_in H v m1 H1. apply hret_ok in H as [-> ->]. apply Hstay; [|by eapply silent_close].
    eapply conserves_dust_ledger; [done|]. by eapply close_msg_conserves.
  - step_in H v m1 H1. apply hret_ok in H as [-> ->]. apply Hstay; [|by eapply silent_reset].
    apply Hq. by eapply quiet_reset.
  - lift_in H pos Hpos. apply (get_open (lost:=lost)) in Hpos as (_ & Hpos & _); [|done]. step_in H v m1 H1.
    apply hret_ok in H as [-> ->]. apply Hstay; [|by eapply silent_liquifund_store].
    eapply conserves_dust_ledger; [done|]. by eapply liquifund_store_conserves.
  - step_in H v m1 H1. apply hret_ok in H as [-> ->]. apply Hstay.
    + eapply conserves_dust_ledger; [done|]. by eapply crank_liquidate_conserves.
    + revert H1. assert (silent (crank_liquidate st id reason pp)) as Hsil by silent. apply Hsil.
  - step_in H v m1 H1. apply hret_ok in H as [-> ->].
    assert (exists t, next_crankable_deferred_exec_id m0 t = Ok (Some (id, target))) as [t Hn].
    { exists (pp_timestamp pp). unfold crank_work in Hw.
      assert (forall m1 m2, m_deferred m1 = m_deferred m2 -> next_crankable_deferred_exec_id m1 (pp_timestamp pp) =
        next_crankable_deferred_exec_id m2 (pp_timestamp pp)) as Hcong.
      { intros a b E. unfold next_crankable_deferred_exec_id, get_next_deferred_execution, load_deferred. by rewrite E. }
      rewrite (Hcong m0 m) by (change (s_deferred (sheet m0) = s_deferred (sheet m)); by rewrite Hs0).
      destruct (should_reset_lp_balances m); [done|]. destruct (liquifunding_due _ _); [done|].
      destruct (get_close_all_positions_work _); [done|]. destruct (liquidatable_position _ _); [done|].
      apply rbind_ok in Hw as (d & Hd & Hw). rewrite Hd. destruct d as [[i tg]|]; [by injection Hw as -> ->|].
      by destruct (limit_order_triggered_order _ _). }
    eapply process_ledger in H1 as (H1 & H2 & H3); [|done..].
    split; [by exists id, (pp_timestamp pp); rewrite H3, Hm0|]. exists 0. rewrite H2, Hs0. split; [done|lia].
  - step_in H v m1 H1. apply hret_ok in H as [-> ->]. apply Hstay; [|by eapply silent_execute_order].
    eapply execute_moves in H1 as [H1 _]; [|done|apply Hl].
    destruct (moves_ledger st _ _ _ _ Hl H1) as [H2 H3]. split; [done|]. by exists 0.
  - unfold with_context in H. apply hbind_ok in H as (v & m1 & H1 & H).
    destruct (accumulate_borrow_fee_rate st pp m0) as [[v' m1']|[]] eqn:E1; try done. injection H1 as -> ->.
    pose proof (quiet_borrow_rate _ _ _ _ E1) as E1s.
    assert (m_messages m1 = m_messages m0) as E1m.
    { revert E1. assert (silent (accumulate_borrow_fee_rate st pp)) as Hsil by silent. apply Hsil. }
    step_in H v2 m2 H2. pose proof (quiet_funding_rate _ _ _ _ H2) as E2s.
    assert (m_messages m2 = m_messages m1) as E2m.
    { revert H2. assert (silent (accumulate_funding_rate st pp)) as Hsil by silent. apply Hsil. }
    step_in H v3 m3 H3. apply hret_ok in H as [-> ->].
    assert (ledger Idle (sheet m2)) as Hl2 by (by rewrite E2s, E1s).
    eapply mod_crank_ledger in H3 as (H4 & H5 & H6); [|done]. apply Hstay; [|congruence].
    split; [done|]. exists 0. rewrite H5, E2s, E1s. split; [done|lia].
Qed.

(** ** The batch *)

(** At most [n] units of dust more than before. *)
Definition dusted (s s' : Sheet) (n : nat) : Prop :=
  obligations s' <= obligations s + Z.of_nat n * TINY_COLLATERAL.

Lemma progress_with_left p w work pp q :
  progress_with p w work pp = Ok q -> weight_budget_left q = w.
Proof. unfold progress_with. intros (x & _ & H)%rbind_ok. by injection H as <-. Qed.

Lemma hbind_cong {A B} (c : mhandler A) (k1 k2 : A -> mhandler B) m :
  (forall a m', c m = Ok (a, m') -> k1 a m' = k2 a m') -> hbind c k1 m = hbind c k2 m.
Proof. unfold hbind. intros Hk. destruct (c m) as [[a m']|e]; [by apply Hk|done]. Qed.

(** The fuel of the loop is enough: more never changes the outcome. *)
Lemma crank_loop_fuel f1 f2 p m :
  (Z.to_nat (weight_budget_left p) < f1)%nat -> (Z.to_nat (weight_budget_left p) < f2)%nat ->
  crank_loop st f1 p m = crank_loop st f2 p m.
Proof.
  revert f2 p m. induction f1 as [|f1 IH]; intros [|f2] p m H1 H2; try lia.
  cbn [crank_loop]. apply hbind_cong. intros [pp|] m0 _; [|done].
  apply hbind_cong. intros w m1 _. destruct (Z.ltb_spec (weight_budget_left p) (work_weight w)) as [|Hw]; [done|].
  apply hbind_cong. intros q m2 Hq%hlift_ok. destruct Hq as [Hq%progress_with_left _].
  apply hbind_cong. intros [|] m3 _; [done|].
  apply IH; rewrite Hq; destruct w; simpl in *; unfold COMPLETED_WEIGHT, REGULAR_WEIGHT in *; lia.
Qed.

Lemma crank_loop_ledger f p m r m' :
  ledger Idle (sheet m) -> m_messages m = [] -> crank_loop st f p m = Ok (r, m') ->
  dusted (sheet m) (sheet m') f /\
  match r with
  | Some _ => ledger Idle (sheet m') /\ m_messages m' = []
  | None => exists id t, ledger (Queued id) (sheet m') /\ m_messages m' = [PerformDeferredExec id t]
  end.
Proof.
  unfold dusted. revert p m. induction f as [|f IH]; intros p m Hl Hm H; [done|]. cbn [crank_loop] in H.
  unfold TINY_COLLATERAL in *.
  step_in H next m0 H0. get_in H0. destruct (next_crank_timestamp st m) as [pp|] eqn:Hn.
  2:{ apply hret_ok in H as [-> ->]. split; [lia|done]. }
  lift_in H w Hw. destruct (_ <? _).
  { step_in H v m1 H1. apply hret_ok in H as [-> ->]. eapply mod_crank_ledger in H1 as (H2 & H3 & H4); [|done].
    split; [lia|]. split; [done|congruence]. }
  lift_in H q Hq. step_in H more m1 H1. eapply crank_exec_ledger in H1 as [Hp (short & Hs & Ho)]; [|done..].
  unfold TINY_COLLATERAL in Hs. destruct more; simpl in Hp.
  - destruct Hp as (id & t & Hl1 & Hm1). step_in H v m2 H2. apply hret_ok in H as [-> ->].
    eapply mod_crank_ledger in H2 as (H3 & H4 & H5); [|done]. split; [lia|]. exists id, t.
    split; [done|]. by rewrite H5, Hm1, Hm.
  - destruct Hp as [Hl1 Hm1]. rewrite Hm in Hm1. destruct (IH _ _ Hl1 Hm1 H) as [Hd Hr]. split; [lia|done].
Qed.

Lemma quiet_rewards a n : quiet (allocate_crank_fees st a n).
Proof. apply allocate_crank_quiet. Qed.

(** The work a batch may do: what is asked for, or what an earlier message of
    the batch has left. *)
Definition batch_work (start : option (Z * Addr)) (s : CrankStore) : nat :=
  S (Z.to_nat match start with
              | Some (execs, _) => execs * REGULAR_WEIGHT
              | None => from_option weight_budget_left 0 (CRANK_BATCH_WEIGHT_LEFT s)
              end).

Lemma crank_batch_ledger start m u m' :
  ledger Idle (sheet m) -> m_messages m = [] -> crank_exec_batch st start m = Ok (u, m') ->
  dusted (sheet m) (sheet m') (batch_work start (m_crank m)) /\
  (ledger Idle (sheet m') /\ m_messages m' = [] \/
   exists id t, ledger (Queued id) (sheet m') /\ m_messages m' = [PerformDeferredExec id t]).
Proof.
  intros Hl Hm H. unfold crank_exec_batch in H. step_in H p m0 H0.
  assert (m0 = m /\ S (Z.to_nat (weight_budget_left p)) = batch_work start (m_crank m)) as [-> Hw].
  { destruct start as [[k r]|].
    - lift_in H0 w Hw. apply panics_ok, fits_Some in Hw as [-> _]. by apply hret_ok in H0 as [-> ->].
    - apply hask_ok in H0 as [H0 ->]. split; [done|]. apply std_ok in H0. unfold batch_work. by rewrite H0. }
  rewrite Hw in H.
  step_in H r m1 H1. apply crank_loop_ledger in H1 as [Hd Hr]; [|done..]. destruct r as [q|].
  - destruct Hr as [Hl1 Hm1]. step_in H v m2 H2. pose proof (silent_rewards _ _ _ _ _ _ H2) as Hm2.
    apply quiet_rewards in H2. pose proof (silent_event _ _ _ _ _ H) as Hm3. quiet_in H.
    rewrite H, H2. split; [done|]. left. split; [done|congruence].
  - apply hret_ok in H as [_ ->]. split; [done|]. by right.
Qed.

(** ** The work that is found *)

(** The price reaches a trigger of the position. *)
Definition triggered (pos : Position) (price : Price) : Prop :=
  (exists p, (pos_liquidation_price pos = Some p \/ stop_loss_override_notional pos = Some p) /\
     match pos_direction pos with LongToNotional => price <= p | ShortToNotional => p <= price end) \/
  (exists p, (take_profit_total pos = Some p \/ take_profit_trader_notional pos = Some p) /\
     match pos_direction pos with LongToNotional => p <= price | ShortToNotional => price <= p end).

Lemma price_key_elem id r p k : k ∈ (price_key id r p).*1 <-> exists x, p = Some x /\ k = (x, id).
Proof.
  destruct p as [x|]; simpl.
  - rewrite list_elem_of_singleton. naive_solver.
  - split; [by intros ?%elem_of_nil|by intros (x & ? & _)].
Qed.

Lemma triggered_keys pos price :
  triggered pos price <->
  (exists k, k ∈ (desc_triggers pos).*1 /\ price <= k.1) \/ (exists k, k ∈ (asc_triggers pos).*1 /\ k.1 <= price).
Proof.
  unfold triggered, desc_triggers, asc_triggers, loss_triggers, gain_triggers.
  destruct (pos_direction pos); setoid_rewrite fmap_app; setoid_rewrite elem_of_app;
    setoid_rewrite price_key_elem; naive_solver.
Qed.

Lemma expected_some (triggers : Position -> TriggerList) (open : gmap PositionId Position) k :
  is_Some (expected triggers open k) <-> exists pos, open !! k.2 = Some pos /\ k ∈ (triggers pos).*1.
Proof.
  unfold expected. destruct (open !! k.2) as [pos|]; simpl; [|split; [by intros [? ?]|by intros (? & ? & _)]].
  split.
  - intros [r Hr]. exists pos. split; [done|]. apply dec_stable. intros Hn%save_all_keys. congruence.
  - intros (q & [= <-] & Hk). destruct (save_all _ _ !! k) eqn:E; [done|]. by apply save_all_keys in E.
Qed.

(** A liquidation is found exactly when a trigger is reached. *)
Lemma liquidatable_ok m price :
  positions_inv (m_positions m) (TOTAL_FUNDING_MARGIN (m_funding m)) ->
  match liquidatable_position m price with
  | Some l => exists pos, OPEN_POSITIONS (m_positions m) !! liq_id l = Some pos /\ triggered pos price
  | None => forall id pos, OPEN_POSITIONS (m_positions m) !! id = Some pos -> ~ triggered pos price
  end.
Proof.
  intros [Hids Hd Ha _ _]. unfold liquidatable_position.
  destruct (entry_max _ (PRICE_TRIGGER_DESC (m_positions m))) as [[[x id] r]|] eqn:Ed.
  - apply entry_max_Some in Ed as (Hk & HP & _). simpl in *. apply Z.leb_le in HP. rewrite Hd in Hk.
    assert (is_Some (expected desc_triggers (OPEN_POSITIONS (m_positions m)) (x, id))) as Hs by (by rewrite Hk).
    apply expected_some in Hs as (pos & Hpos & Hin). exists pos. split; [done|]. apply triggered_keys. left. by eexists.
  - destruct (entry_min _ (PRICE_TRIGGER_ASC (m_positions m))) as [[[x id] r]|] eqn:Ea.
    + apply entry_min_Some in Ea as (Hk & HP & _). simpl in *. apply Z.leb_le in HP. rewrite Ha in Hk.
      assert (is_Some (expected asc_triggers (OPEN_POSITIONS (m_positions m)) (x, id))) as Hs by (by rewrite Hk).
      apply expected_some in Hs as (pos & Hpos & Hin). exists pos. split; [done|]. apply triggered_keys. right. by eexists.
    + intros id pos Hpos Htr%triggered_keys.
      assert (forall k, k ∈ (desc_triggers pos).*1 \/ k ∈ (asc_triggers pos).*1 ->
        OPEN_POSITIONS (m_positions m) !! k.2 = Some pos) as Hk.
      { intros k Hk%trigger_id. by rewrite Hk, (Hids _ _ Hpos). }
      destruct Htr as [(k & Hin & Hle)|(k & Hin & Hle)].
      * assert (is_Some (expected desc_triggers (OPEN_POSITIONS (m_positions m)) k)) as [r Hr]
          by (apply expected_some; exists pos; split; [apply Hk; by left|done]).
        rewrite <- Hd in Hr. apply (entry_max_None _ _ _ _ Ed) in Hr. apply Z.leb_gt in Hr. lia.
      * assert (is_Some (expected asc_triggers (OPEN_POSITIONS (m_positions m)) k)) as [r Hr]
          by (apply expected_some; exists pos; split; [apply Hk; by right|done]).
        rewrite <- Ha in Hr. apply (entry_min_None _ _ _ _ Ea) in Hr. apply Z.leb_gt in Hr. lia.
Qed.

(** The price an order waits for is reached. *)
Definition order_reached (o : LimitOrder) (price : Price) : Prop :=
  exists p, into_notional_price (lo_trigger_price o) mt = Ok p /\
    if is_long o then price <= p else p <= price.

Lemma triggered_order_ok m price :
  orders_inv mt (m_orders m) ->
  match limit_order_triggered_order m price with
  | Some id => exists o, LIMIT_ORDERS (m_orders m) !! id = Some o /\ order_reached o price
  | None => forall id o, LIMIT_ORDERS (m_orders m) !! id = Some o -> ~ order_reached o price
  end.
Proof.
  intros [Ho _ Hl Hs]. unfold limit_order_triggered_order, order_reached.
  assert (forall x y, res_ok (into_notional_price x mt) = Some y <-> into_notional_price x mt = Ok y) as Hok.
  { intros x y. destruct (into_notional_price x mt); simpl; naive_solver. }
  destruct (entry_max _ (LIMIT_ORDERS_BY_PRICE_LONG (m_orders m))) as [[[x id] []]|] eqn:Ed.
  - apply entry_max_Some in Ed as (Hk & HP & _). simpl in *. apply Z.leb_le in HP.
    apply Hl in Hk as (o & Hoo & Hk). simpl in *. exists o. split; [done|]. destruct (is_long o); [|done].
    apply Hok in Hk. by exists x.
  - destruct (entry_min _ (LIMIT_ORDERS_BY_PRICE_SHORT (m_orders m))) as [[[x id] []]|] eqn:Ea.
    + apply entry_min_Some in Ea as (Hk & HP & _). simpl in *. apply Z.leb_le in HP.
      apply Hs in Hk as (o & Hoo & Hk). simpl in *. exists o. split; [done|]. destruct (is_long o); [done|].
      apply Hok in Hk. by exists x.
    + intros id o Hoo (p & Hp%Hok & Hle). destruct (is_long o) eqn:El.
      * assert (LIMIT_ORDERS_BY_PRICE_LONG (m_orders m) !! (p, id) = Some tt) as Hk
          by (apply Hl; exists o; rewrite El; done).
        apply (entry_max_None _ _ _ _ Ed) in Hk. simpl in Hk. apply Z.leb_gt in Hk. lia.
      * assert (LIMIT_ORDERS_BY_PRICE_SHORT (m_orders m) !! (p, id) = Some tt) as Hk
          by (apply Hs; exists o; rewrite El; done).
        apply (entry_min_None _ _ _ _ Ea) in Hk. simpl in Hk. apply Z.leb_gt in Hk. lia.
Qed.

Lemma liquifunding_due_ok m now :
  positions_inv (m_positions m) (TOTAL_FUNDING_MARGIN (m_funding m)) ->
  match liquifunding_due m now with
  | Some id => exists pos, OPEN_POSITIONS (m_positions m) !! id = Some pos /\ next_liquifunding pos <= now
  | None => forall id pos, OPEN_POSITIONS (m_positions m) !! id = Some pos -> now < next_liquifunding pos
  end.
Proof.
  intros [Hids _ _ Hn _]. unfold liquifunding_due.
  destruct (entry_min _ (NEXT_LIQUIFUNDING (m_positions m))) as [[[t id] r]|] eqn:Ed.
  - apply entry_min_Some in Ed as (Hk & HP & _). simpl in *. apply Z.leb_le in HP. rewrite Hn in Hk.
    unfold expected_next in Hk. simpl in Hk.
    destruct (OPEN_POSITIONS (m_positions m) !! id) as [pos|] eqn:Hpos; [|done]. simpl in Hk.
    destruct (Z.eqb_spec (next_liquifunding pos) t); [|done]. exists pos. split; [done|lia].
  - intros id pos Hpos. apply Z.nle_gt. intros Hle.
    assert (NEXT_LIQUIFUNDING (m_positions m) !! (next_liquifunding pos, id) = Some tt) as Hk.
    { rewrite Hn. unfold expected_next. simpl. rewrite Hpos. simpl. by rewrite Z.eqb_refl. }
    apply (entry_min_None _ _ _ _ Ed) in Hk. simpl in Hk. apply Z.leb_gt in Hk. lia.
Qed.
End Theory.
