(* ===== verification/ProviderEffects.v ===== *)
(** * What the provider messages do to the balance sheet

    Deposits, withdrawals, staking, claims and the transfers of fees move
    amounts between the unlocked liquidity, the fees and the payments, and
    nothing else; the withdrawal of the last token also writes off the dust
    left in the pool, unlocked or locked. *)

From stdpp Require Import base option gmap strings list pretty.
From Stdlib Require Import ZArith Lia.
From S2P Require Import Prelude Index Storage Cosmwasm Types Number Time Market Price Token DataSeries Config Position Trading State Pool LpHistory Liquidity LpToken Books LiquidityInv Fees FeesInv LiquiditySystem Funding FundingInv DeltaNeutrality DeltaNeutralityInv OpenInterest PositionStore TradeHistory BalanceSheet PositionStoreInv BalanceEffects PositionToken ClosePosition MarketInv.
Local Open Scope Z_scope.

(** [du] more unlocked, [df] more in the fees and [dt] more to pay. *)
Definition shift (du df dt : Z) (s : Sheet) : Sheet :=
  with_unlocked (s_unlocked s + du) (with_fees (s_fees s + df) (with_transfers (s_transfers s + dt) s)).

Lemma shift_0 s : shift 0 0 0 s = s.
Proof. destruct s. cbv -[Z.add]. f_equal; lia. Qed.
Lemma shift_shift a b c d e f s : shift a b c (shift d e f s) = shift (d + a) (e + b) (f + c) s.
Proof. destruct s. cbv -[Z.add]. f_equal; lia. Qed.
Lemma credit_shift x s : credit x s = shift 0 x 0 s.
Proof. destruct s. cbv -[Z.add]. f_equal; lia. Qed.

(** What the message brings in. *)
Definition paid_in (msg : LiquidityMsg) : Z :=
  match msg with
  | MsgDepositLiquidity funds _ => funds
  | MsgProvideCrankFunds funds => funds
  | _ => 0
  end.

(** [approx_eq] of the collateral left in a pool without tokens. *)
Definition DUST : Z := DEC_ONE / 10000000.

(** A pool withdrawn to the last token while dust was locked: the totals are
    reset, and the counter collateral of the open positions is not covered by
    the locked collateral any more. *)
Definition dust_locked (s s' : Sheet) : Prop :=
  0 < s_locked s < DUST /\ s_locked s' = 0 /\ s_unlocked s' = 0.
#[export] Instance dust_locked_dec s s' : Decision (dust_locked s s').
Proof. unfold dust_locked. apply _. Defined.
Definition dust_resets (s s' : Sheet) : nat := if decide (dust_locked s s') then 1 else 0.

Section Effects.
Context {CW : CosmwasmStd} {CWS : CosmwasmStdSpec CW}.
Context (st : State).

Lemma quiet_collect a : quiet (collect_unstaked_lp st a).
Proof. unfold collect_unstaked_lp, lp_history_add_collect_lp. quiet. Qed.
Lemma quiet_book_keeping a : quiet (perform_lp_book_keeping st a).
Proof.
  apply quiet_bind; [apply quiet_accrue|intros _]. apply quiet_bind; [apply quiet_collect|intros _].
  apply quiet_ret.
Qed.

Lemma quiet_token_move o r n k : quiet (liquidity_token_move st o r n k).
Proof.
  unfold liquidity_token_move, liquidity_token_balance_change_inner.
  pose proof quiet_book_keeping. quiet.
Qed.
Lemma quiet_token_exec sender k msg : quiet (liquidity_token_handle_exec st sender k msg).
Proof.
  pose proof quiet_token_move.
  destruct msg; cbn [liquidity_token_handle_exec];
    unfold liquidity_token_transfer, liquidity_token_transfer_from, liquidity_token_send_with_msg,
      liquidity_token_send_with_msg_from, liquidity_token_deduct_allowance_inner,
      liquidity_token_increase_allowance, liquidity_token_decrease_allowance,
      lt_update_allowance, lt_update_allowance_spender; quiet.
Qed.

(** Saving other totals of tokens. *)
Lemma save_tokens_effect l m u m' :
  sheet_typed (sheet m) -> locked l = s_locked (sheet m) -> unlocked l = s_unlocked (sheet m) ->
  save_liquidity_stats l m = Ok (u, m') -> sheet m' = sheet m.
Proof.
  intros Hty Hl Hu H. apply save_stats_effect in H.
  - by rewrite H, with_stats_id.
  - unfold stats_typed. rewrite Hl, Hu. apply (ty_stats _ Hty).
Qed.

Lemma load_stats_ok m l m' : load_liquidity_stats m = Ok (l, m') -> l = liquidity_stats m /\ m' = m.
Proof. unfold load_liquidity_stats. intros H. by get_in H. Qed.

Lemma stake_effect a x m u m' :
  sheet_typed (sheet m) -> liquidity_stake_lp st a x m = Ok (u, m') -> sheet m' = sheet m.
Proof.
  intros Hty H. unfold liquidity_stake_lp in H. step_in H u1 m1 H1. apply quiet_book_keeping in H1.
  step_in H s m2 H2. apply quiet_load_addr in H2. lift_in H o Ho. step_in H l m3 H3.
  apply load_stats_ok in H3 as [-> ->]. lift_in H n1 Hn1. lift_in H n2 Hn2.
  step_in H u4 m4 H4. apply quiet_save_addr in H4. lift_in H n3 Hn3. lift_in H n4 Hn4.
  assert (sheet m4 = sheet m2) as E by done.
  apply save_tokens_effect in H; [congruence|by rewrite H4, H2, H1|by rewrite H4..].
Qed.

Lemma stop_unstaking_effect a f s m r m' :
  sheet_typed (sheet m) -> liquidity_stop_unstaking_xlp st a f s m = Ok (r, m') -> sheet m' = sheet m.
Proof.
  intros Hty H. unfold liquidity_stop_unstaking_xlp in H. step_in H u1 m1 H1. apply quiet_book_keeping in H1.
  step_in H s0 m2 H2. apply quiet_load_addr in H2. step_in H s1 m3 H3.
  assert (sheet m3 = sheet m2) as H3e.
  { destruct (unstaking s0) as [old|].
    - lift_in H3 x Hx. destruct (negb _); [|by apply hret_ok in H3 as [_ ->]].
      step_in H3 l m4 H4. apply load_stats_ok in H4 as [-> ->]. lift_in H3 a1 Ha1. lift_in H3 a2 Ha2.
      step_in H3 u4 m4 H4. lift_in H3 a3 Ha3. apply hret_ok in H3 as [_ ->].
      apply save_tokens_effect in H4; [done|by rewrite H2, H1|done..].
    - destruct f; [by inv_ok|]. by apply hret_ok in H3 as [_ ->]. }
  step_in H u4 m4 H4. apply hret_ok in H as [_ ->].
  assert (sheet m4 = sheet m3) by (destruct s; [by apply quiet_save_addr in H4|by apply hret_ok in H4 as [_ ->]]).
  congruence.
Qed.

Lemma unstake_effect a x m u m' :
  sheet_typed (sheet m) -> liquidity_unstake_xlp st a x m = Ok (u, m') -> sheet m' = sheet m.
Proof.
  intros Hty H. unfold liquidity_unstake_xlp in H. step_in H s m1 H1. apply stop_unstaking_effect in H1; [|done].
  lift_in H o Ho. step_in H y m2 H2. assert (m2 = m1) as ->.
  { destruct x; [|by apply hret_ok in H2 as [_ ->]]. step_in H2 v m3 H3.
    apply hensure_ok in H3 as [_ ->]. by apply hret_ok in H2 as [_ ->]. }
  lift_in H d Hd. lift_in H n Hn. step_in H u3 m3 H3. apply quiet_save_addr in H3.
  step_in H l m4 H4. apply load_stats_ok in H4 as [-> ->]. lift_in H a1 Ha1. lift_in H a2 Ha2.
  step_in H u4 m4 H4. apply save_tokens_effect in H4; [|by rewrite H3, H1|done..].
  lift_in H v Hv. unfold lp_history_add_unstake_xlp in H. quiet_in H. congruence.
Qed.

Lemma deposit_inner_effect a x c m n m' :
  sheet_typed (sheet m) -> liquidity_deposit_inner st a x c m = Ok (n, m') ->
  sheet m' = shift x 0 0 (sheet m) /\ is_dec (s_unlocked (sheet m) + x).
Proof.
  intros Hty H. unfold liquidity_deposit_inner in H. step_in H l m1 H1. apply load_stats_ok in H1 as [-> ->].
  lift_in H v Hv. step_in H u1 m1 H1. apply quiet_book_keeping in H1. lift_in H sh Hsh. lift_in H tl' Htl.
  lift_in H un Hun. apply ud_add_ok in Hun as [-> Hun]. step_in H u2 m2 H2.
  apply save_stats_effect in H2; [|split; [apply (ty_stats _ Hty)|done]]. quiet_in H.
  split; [|done]. rewrite H, H2, H1. unfold shift, with_stats, with_locked, with_unlocked, with_fees, with_transfers.
  simpl. f_equal; unfold liquidity_stats; lia.
Qed.

Lemma claim_effect a send m y m' :
  liquidity_claim_yield st a send m = Ok (y, m') ->
  sheet m' = shift 0 (- y) (if send then y else 0) (sheet m).
Proof.
  intros H. unfold liquidity_claim_yield in H. step_in H u1 m1 H1. apply quiet_book_keeping in H1.
  step_in H s m2 H2. apply quiet_load_addr in H2. lift_in H t Ht. lift_in H z Hz.
  apply of_option_ok, nonzero_new_Some in Hz as [-> _].
  step_in H u3 m3 H3. apply quiet_save_addr in H3. step_in H u4 m4 H4. unfold register_lp_claimed_yield in H4.
  step_in H4 f m5 H5. get_in H5. lift_in H4 w Hw. apply ud_sub_ok in Hw as [-> _]. apply save_fees_effect in H4.
  assert (sheet m4 = shift 0 (- t) 0 (sheet m3)) as H4e.
  { rewrite H4, credit_shift. f_equal. unfold fees_total. simpl. lia. }
  step_in H u5 m5 H5. apply hret_ok in H as [-> ->]. destruct send.
  - step_in H5 u6 m6 H6. apply transfer_effect in H6. unfold lp_history_add_claim_yield in H5. quiet_in H5.
    rewrite H5, H6, H4e, H3, H2, H1. set (s0 := sheet m). clearbody s0. destruct s0.
    cbv -[Z.add Z.opp]. f_equal; lia.
  - apply hret_ok in H5 as [_ ->]. by rewrite H4e, H3, H2, H1.
Qed.

Lemma reinvest_effect a x s m u m' :
  sheet_typed (sheet m) -> reinvest_yield st a x s m = Ok (u, m') ->
  exists du df dt, sheet m' = shift du df dt (sheet m) /\ is_dec (s_unlocked (sheet m) + du) /\ du + df + dt = 0.
Proof.
  intros Hty H. unfold reinvest_yield in H. step_in H y m1 H1. apply claim_effect in H1.
  step_in H z m2 H2.
  assert (sheet m2 = shift 0 0 (y - z) (sheet m1)) as H2e.
  { destruct x as [k|].
    - lift_in H2 rem Hrem. apply of_option_ok in Hrem. destruct (ud_checked_sub y k) as [v|] eqn:E; [|done].
      injection Hrem as ->. apply ud_sub_ok in E as [-> _]. step_in H2 u3 m3 H3. apply hret_ok in H2 as [-> ->].
      destruct (nonzero_new (y - k)) as [w|] eqn:En.
      + apply nonzero_new_Some in En as [-> _]. step_in H3 u4 m4 H4. apply transfer_effect in H4.
        unfold lp_history_add_claim_yield in H3. quiet_in H3. rewrite H3, H4.
        unfold shift, with_unlocked, with_fees, with_transfers. simpl. f_equal; lia.
      + apply hret_ok in H3 as [_ ->]. unfold nonzero_new, ud_is_zero in En.
        destruct (Z.eqb_spec (y - k) 0) as [->|]; [|done]. by rewrite shift_0.
    - apply hret_ok in H2 as [-> ->]. by rewrite Z.sub_diag, shift_0. }
  rewrite H1, shift_shift in H2e.
  assert (sheet_typed (sheet m2)) as Hty2.
  { rewrite H2e. destruct Hty as [[] ? ? ? ?]. split; try done. split; [done|]. simpl.
    by replace (unlocked (liquidity_stats m) + (0 + 0)) with (unlocked (liquidity_stats m)) by lia. }
  step_in H n m3 H3. apply deposit_inner_effect in H3 as [H3 Hd]; [|done].
  rewrite H2e in H3, Hd. rewrite shift_shift in H3. simpl in Hd.
  step_in H u4 m4 H4. assert (sheet m4 = sheet m3) as H4e.
  { destruct s; [|by apply hret_ok in H4 as [_ ->]]. apply stake_effect in H4; [done|].
    rewrite H3. destruct Hty as [[] ? ? ? ?]. split; try done. split; [done|]. simpl.
    by replace (unlocked (liquidity_stats m) + (0 + 0 + z)) with (unlocked (liquidity_stats m) + (0 + 0) + z) by lia. }
  unfold lp_history_add_reinvest_yield in H. quiet_in H.
  rewrite H, H4e, H3. eexists _, _, _. split; [reflexivity|]. simpl. split; [|lia].
  by replace (unlocked (liquidity_stats m) + (0 + 0 + z)) with (unlocked (liquidity_stats m) + (0 + 0) + z) by lia.
Qed.

Lemma approx_zero (x : Z) b : ud_approx_eq x 0 = Ok b -> is_dec x -> b = true -> x < DUST.
Proof.
  unfold ud_approx_eq. intros (d & Hd & H)%rbind_ok Hx ->. apply rbind_ok in H as (e & He & H).
  apply panics_ok in He. assert (e = DUST) as ->.
  { rewrite dec_from_ratio_spec in He. by vm_compute in He; injection He as <-. }
  injection H as H. apply Z.ltb_lt in H. unfold ud_diff in Hd. unfold is_dec in Hx.
  destruct (_ <? _) in Hd; apply panics_ok, dec_op_sub_Some in Hd as [-> Hd];
    unfold is_dec in *; lia.
Qed.

(** A withdrawal pays what it takes; the last one also resets the pool. *)
Lemma withdraw_effect a x m u m' :
  sheet_typed (sheet m) -> liquidity_withdraw st a x m = Ok (u, m') ->
  exists r, sheet m' = shift (- r) 0 r (sheet m) /\ is_dec (s_unlocked (sheet m) - r) \/
    s_locked (sheet m') = 0 /\ s_unlocked (sheet m') = 0 /\
    s_locked (sheet m) + s_unlocked (sheet m) - r < DUST /\ 0 <= s_unlocked (sheet m) - r /\
    sheet m' = with_locked 0 (shift (- s_unlocked (sheet m)) 0 r (sheet m)).
Proof.
  intros Hty H. destruct (ty_stats _ Hty) as [Hlk _]. unfold liquidity_withdraw in H.
  step_in H u1 m1 H1. apply quiet_book_keeping in H1.
  step_in H s m2 H2. apply quiet_load_addr in H2. lift_in H y Hy. lift_in H old Hold. step_in H n m3 H3.
  assert (m3 = m2) as ->.
  { destruct x as [k|]; [destruct (old <? k)|]; by inv_ok. }
  lift_in H nl Hnl. step_in H u4 m4 H4. apply quiet_save_addr in H4. step_in H l m5 H5.
  apply load_stats_ok in H5 as [-> ->]. lift_in H z Hz. lift_in H r Hr. step_in H li m5 H5. get_in H5.
  step_in H si m5 H5. get_in H5. lift_in H nn Hnn. lift_in H price Hprice. lift_in H mu Hmu. lift_in H nd Hnd.
  step_in H w m5 Hw. assert (m5 = m4) as ->.
  { destruct (_ <? _) in Hw; [|by inv_ok]. lift_in Hw av Hav. by inv_ok. }
  clear w Hw.
  lift_in H t1 Ht1. lift_in H t2 Ht2. apply ud_sub_ok in Ht2 as [-> Ht2].
  assert (sheet m4 = sheet m) as Hs4 by congruence.
  assert (locked (liquidity_stats m4) = s_locked (sheet m) /\ unlocked (liquidity_stats m4) = s_unlocked (sheet m))
    as [El Eu] by (split; [exact (f_equal s_locked Hs4)|exact (f_equal s_unlocked Hs4)]).
  rewrite Eu in *. lift_in H tk Htk. step_in H lf m5 H5.
  assert (m5 = m4 /\ (locked lf = s_locked (sheet m) /\ unlocked lf = s_unlocked (sheet m) - r \/
    lf = liquidity_stats_default /\ s_locked (sheet m) + s_unlocked (sheet m) - r < DUST)) as [-> Hfin].
  { destruct (ud_is_zero tk); [|apply hret_ok in H5 as [-> ->]; split; [done|left; done]].
    lift_in H5 d Hd. apply ud_add_ok in Hd as [-> Hd]. lift_in H5 b Hb. step_in H5 v m6 H6.
    apply hensure_ok in H6 as [-> ->]. apply hret_ok in H5 as [-> ->]. split; [done|]. right. split; [done|].
    apply approx_zero in Hb; [|done..]. simpl in Hb. rewrite El in Hb. simpl in *. lia. }
  step_in H u6 m6 H6. apply save_stats_effect in H6.
  2:{ destruct Hfin as [[El' Eu']|[-> _]]; [|split; auto with perps]. unfold stats_typed. by rewrite El', Eu'. }
  step_in H u7 m7 H7. quiet_in H7. step_in H u8 m8 H8. apply transfer_effect in H8.
  unfold lp_history_add_withdraw in H. quiet_in H. rewrite H7, H6, Hs4 in H8. rewrite H8 in H.
  exists r. destruct Hfin as [[El' Eu']|[-> Hdust]]; [left|right].
  - split; [|done]. rewrite H. unfold with_stats. rewrite El', Eu'. set (s0 := sheet m). clearbody s0. destruct s0.
    cbv -[Z.add Z.opp Z.sub]. f_equal; lia.
  - unfold is_dec in Ht2. rewrite H. split; [done|]. split; [done|]. split; [done|]. split; [lia|].
    set (s0 := sheet m). clearbody s0. destruct s0. cbv -[Z.add Z.opp Z.sub]. f_equal; lia.
Qed.

(** Every message of a provider. *)
Lemma provider_effect sender msg m u m' :
  sheet_typed (sheet m) -> liquidity_execute st sender msg m = Ok (u, m') ->
  (dust_locked (sheet m) (sheet m') /\ exists df dt, df + dt <= s_unlocked (sheet m) + paid_in msg /\
    sheet m' = with_locked 0 (shift (- s_unlocked (sheet m)) df dt (sheet m))) \/
  exists du df dt, sheet m' = shift du df dt (sheet m) /\ is_dec (s_unlocked (sheet m) + du) /\
    du + df + dt <= paid_in msg.
Proof.
  intros Hty H. unfold liquidity_execute, ensure_not_resetting_lps in H. step_in H u1 m1 H1.
  step_in H1 b m2 H2. get_in H2. apply hensure_ok in H1 as [_ ->]. unfold liquidity_dispatch in H.
  assert (forall m2, sheet m2 = sheet m -> exists du df dt, sheet m2 = shift du df dt (sheet m) /\
    is_dec (s_unlocked (sheet m) + du) /\ du + df + dt <= 0) as Hsame.
  { intros m2 E. exists 0, 0, 0. rewrite shift_0, Z.add_0_r. split; [done|]. split; [apply (ty_stats _ Hty)|lia]. }
  assert (forall a m2 y m3, sheet m2 = sheet m -> liquidity_claim_yield st a true m2 = Ok (y, m3) ->
    sheet m3 = shift 0 (- y) y (sheet m)) as Hclaim.
  { intros a m2 y m3 E Hc. apply claim_effect in Hc. by rewrite Hc, E. }
  destruct msg as [funds stake|stake x|x claim| |x|x| | | |funds|k msg]; cbn [paid_in]; try (right; eauto; fail).
  - right. unfold liquidity_deposit in H. step_in H n m3 H3. apply deposit_inner_effect in H3 as [H3 Hd]; [|done].
    step_in H u4 m4 H4. unfold lp_history_add_deposit in H4. quiet_in H4.
    assert (sheet m' = sheet m3) as ->.
    { destruct stake; [|by apply hret_ok in H as [_ ->]]. apply stake_effect in H; [congruence|].
      rewrite H4, H3. destruct Hty as [[] ? ? ? ?]. by split. }
    exists funds, 0, 0. split; [done|]. split; [done|lia].
  - right. apply reinvest_effect in H as (du & df & dt & E & Hd & Hsum); [|done].
    exists du, df, dt. split; [done|]. split; [done|lia].
  - step_in H u3 m3 H3.
    assert (exists y, sheet m3 = shift 0 (- y) y (sheet m)) as [y Hy].
    { destruct claim.
      - step_in H3 y m4 H4. apply hret_ok in H3 as [_ ->]. eexists. by eapply Hclaim.
      - apply hret_ok in H3 as [_ ->]. exists 0. by rewrite shift_0. }
    assert (sheet_typed (sheet m3)) as Hty3.
    { rewrite Hy. destruct Hty as [[] ? ? ? ?]. split; try done. split; [done|]. simpl. by rewrite Z.add_0_r. }
    apply withdraw_effect in H as (r & [[H Hd]|(Hl & Hu & Hdust & Hr & H)]); [| |done].
    + right. rewrite Hy in H, Hd. rewrite shift_shift in H. eexists _, _, _. split; [exact H|].
      simpl in *. rewrite Z.add_0_r in Hd. split; [exact Hd|lia].
    + rewrite Hy in *. simpl in Hdust, Hr. destruct Hty as [[Hlo Hun] ? ? ? ?]. simpl in Hlo, Hun. unfold is_dec in Hlo.
      destruct (Z.eq_dec (locked (liquidity_stats m)) 0) as [Hz|Hnz].
      * right. exists (- unlocked (liquidity_stats m)), (- y), (y + r). split; [|split].
        -- rewrite H. set (s0 := sheet m) in *. assert (s_locked s0 = 0) as Hz' by done.
           change (unlocked (liquidity_stats m)) with (s_unlocked s0). clearbody s0. destruct s0. simpl in Hz'. subst.
           cbv -[Z.add Z.opp Z.sub]. f_equal; lia.
        -- simpl. rewrite Z.add_opp_diag_r. auto with perps.
        -- lia.
      * left. split; [split; [simpl; lia|done]|]. exists (- y), (y + r). split; [simpl in *; lia|].
        rewrite H. set (s0 := sheet m). change (unlocked (liquidity_stats m)) with (s_unlocked s0). clearbody s0.
        destruct s0. cbv -[Z.add Z.opp Z.sub]. f_equal; lia.
  - right. step_in H y m3 H3. apply hret_ok in H as [_ ->]. exists 0, (- y), y.
    split; [by eapply Hclaim|]. rewrite Z.add_0_r. split; [apply (ty_stats _ Hty)|lia].
  - right. apply stake_effect in H; [|done]. by apply Hsame.
  - right. apply unstake_effect in H; [|done]. by apply Hsame.
  - right. step_in H s m3 H3. apply hret_ok in H as [_ ->]. apply stop_unstaking_effect in H3; [|done]. by apply Hsame.
  - right. step_in H b' m3 H3. apply hensure_ok in H as [_ ->]. apply quiet_collect in H3. by apply Hsame.
  - right. unfold transfer_fees_to_dao in H. step_in H f m3 H3. get_in H3. lift_in H x Hx.
    apply of_option_ok, nonzero_new_Some in Hx as [-> _]. step_in H u4 m4 H4. apply save_fees_effect in H4.
    lift_in H dao Hdao. apply transfer_effect in H.
    exists 0, (- fees_protocol (ALL_FEES m)), (fees_protocol (ALL_FEES m)). split.
    + rewrite H, H4, credit_shift. unfold fees_total. simpl.
      match goal with |- with_transfers _ (shift 0 ?x 0 _) = _ => replace x with (- fees_protocol (ALL_FEES m)) by lia end.
      set (f := fees_protocol (ALL_FEES m)). set (s0 := sheet m). change (map_sum id (fund_transfers m)) with (s_transfers s0).
      clearbody s0 f. destruct s0. cbv -[Z.add Z.opp Z.sub]. f_equal; lia.
    + rewrite Z.add_0_r. split; [apply (ty_stats _ Hty)|lia].
  - right. apply provide_crank_effect in H. exists 0, funds, 0. rewrite H, credit_shift. split; [done|].
    rewrite Z.add_0_r. split; [apply (ty_stats _ Hty)|lia].
  - right. apply quiet_token_exec in H. by apply Hsame.
Qed.
End Effects.
