(* ===== verification/SystemEffects.v ===== *)
(** * What every entry point does to the ledger

    The effects of the messages that neither trade nor provide liquidity
    (prices, the position NFT, the wind down), and of the response, on the
    invariant of QueueInv.v and on what the market owes. *)

From stdpp Require Import base option gmap strings list pretty.
From Stdlib Require Import ZArith Lia.
From S2P Require Import Prelude Index Storage Cosmwasm Types Number Time Market Price Token DataSeries Config Position Trading State Pool LpHistory Liquidity LpToken Books LiquidityInv Fees FeesInv LiquiditySystem Funding FundingInv DeltaNeutrality DeltaNeutralityInv OpenInterest PositionStore SpotPrice TradeHistory BalanceSheet PositionStoreInv BalanceEffects PositionToken ClosePosition OpenPosition UpdatePosition Orders Deferred MarketInv ClosingInv PositionMsgs OrdersInv DeferredInv QueueInv Crank CrankInv ProviderEffects Entry.
Local Open Scope Z_scope.

Section Effects.
Context {CW : CosmwasmStd} {CWS : CosmwasmStdSpec CW}.
Context {lost : Collateral}.
Context (st : State).

Local Abbreviation ledger := (ledger_inv st lost).

(** What the market owes once the message's payments are made. *)
Definition owed_after (s : Sheet) : Z := obligations s - s_transfers s.

(** ** Parts of the storage the ledger does not count *)

Lemma with_nft_ledger p s n :
  ledger p s -> ledger p (with_nft n s) /\ obligations (with_nft n s) = obligations s.
Proof.
  intros [[[[] ? ? ? ? ?] ?] ?]. split; [|done]. split; [split; [split; [by split|done..]|done]|done].
Qed.
Lemma with_prices_ledger p s v :
  ledger p s -> ledger p (with_prices v s) /\ obligations (with_prices v s) = obligations s.
Proof.
  intros [[[[] ? ? ? ? ?] ?] ?]. split; [|done]. split; [split; [split; [by split|done..]|done]|done].
Qed.
Lemma with_manual_ledger p s v :
  ledger p s -> ledger p (with_manual v s) /\ obligations (with_manual v s) = obligations s.
Proof.
  intros [[[[] ? ? ? ? ?] ?] ?]. split; [|done]. split; [split; [split; [by split|done..]|done]|done].
Qed.
Lemma with_transfers_ledger p s v :
  ledger p s -> ledger p (with_transfers v s) /\ owed_after (with_transfers v s) = owed_after s.
Proof.
  intros [[[[] ? ? ? ? ?] ?] ?]. split.
  - split; [split; [split; [by split|done..]|done]|done].
  - unfold owed_after, obligations, assets, active_total, orders_total, deferred_total, open_positions.
    simpl. lia.
Qed.

(** A message that keeps the ledger and what is owed. *)
Definition neutral {A} (h : mhandler A) : Prop :=
  forall p m a m', ledger p (sheet m) -> h m = Ok (a, m') ->
    ledger p (sheet m') /\ obligations (sheet m') = obligations (sheet m).

Lemma neutral_bind {A B} (c : mhandler A) (k : A -> mhandler B) :
  neutral c -> (forall a, neutral (k a)) -> neutral (hbind c k).
Proof.
  intros Hc Hk p m b m' Hl H. apply hbind_ok in H as (a & m1 & H1 & H2).
  destruct (Hc _ _ _ _ Hl H1) as [Hl1 E1]. destruct (Hk _ _ _ _ _ Hl1 H2) as [Hl2 E2].
  split; [done|congruence].
Qed.
Lemma neutral_quiet {A} (h : mhandler A) : quiet h -> neutral h.
Proof. intros Hq p m a m' Hl H. rewrite (Hq _ _ _ H). done. Qed.
Lemma neutral_mod_nft f : neutral (mod_nft f).
Proof.
  intros p m a m' Hl H. unfold mod_nft in H. apply hmod_ok in H.
  assert (sheet m' = with_nft (f (m_nft m)) (sheet m)) as -> by (by rewrite H). by apply with_nft_ledger.
Qed.

Ltac neutral :=
  repeat first
    [ progress intros
    | match goal with H : forall _, neutral _ |- neutral _ => solve [apply H] end
    | match goal with H : forall _ _ _, neutral _ |- neutral _ => solve [apply H] end
    | apply neutral_bind
    | apply neutral_mod_nft
    | solve [apply neutral_quiet; quiet]
    | match goal with
      | |- neutral (match ?x with _ => _ end) => destruct x
      | |- neutral (if ?x then _ else _) => destruct x
      end ].

(** ** Prices *)

Lemma spot_price_append_neutral : neutral (spot_price_append st).
Proof.
  unfold spot_price_append. apply neutral_bind; [apply neutral_quiet; quiet|intros [t ps]].
  apply neutral_bind; [apply neutral_quiet; quiet|intros last].
  assert (neutral (add_event st (EvSpotPrice (make_price_point st t ps));;;
    hmod (fun m => set_PRICES (<[t := ps]> (PRICES m)) m))) as Happ.
  { apply neutral_bind; [apply neutral_quiet; quiet|intros _]. intros p m a m' Hl H. apply hmod_ok in H.
    assert (sheet m' = with_prices (<[t := ps]> (PRICES m)) (sheet m)) as -> by (by rewrite H).
    by apply with_prices_ledger. }
  destruct last as [[last x]|].
  - destruct (t <=? last); [apply neutral_quiet; quiet|exact Happ].
  - apply neutral_bind; [apply neutral_quiet; quiet|intros _; exact Happ].
Qed.

Lemma save_manual_neutral a b : neutral (save_manual_spot_price st a b).
Proof.
  unfold save_manual_spot_price. apply neutral_bind; [apply neutral_quiet; quiet|intros price].
  intros p m u m' Hl H. apply hmod_ok in H.
  match type of H with _ = set_MANUAL_SPOT_PRICE ?v _ =>
    assert (sheet m' = with_manual v (sheet m)) as -> by (by rewrite H) end.
  by apply with_manual_ledger.
Qed.

Lemma close_all_neutral : neutral set_close_all_positions.
Proof.
  unfold set_close_all_positions. apply neutral_bind; [apply neutral_quiet; quiet|intros c].
  apply neutral_bind; [apply neutral_quiet; quiet|intros _].
  intros p m u m' Hl H. eapply (mod_crank_ledger st) in H as (? & ? & _); [|exact Hl]. done.
Qed.

(** ** The position NFT *)

Lemma save_owner_ledger p m pos a u m' :
  ledger p (sheet m) -> open_positions (sheet m) !! pos_id pos = Some pos ->
  position_save_no_recalc (set_pos_owner a pos) m = Ok (u, m') ->
  ledger p (sheet m') /\ obligations (sheet m') = obligations (sheet m).
Proof.
  intros Hl Hpos H. assert (conserves lost (sheet m) (sheet m') 0) as Hc.
  { by eapply (save_no_recalc_conserves _ pos _ _ _ (bi_market _ _ (li_books _ _ _ Hl)) Hpos); [..|exact H]. }
  apply (conserves_moves (market_type st)) in Hc; [|apply Hl].
  destruct (moves_ledger st _ _ _ _ Hl Hc). split; [done|lia].
Qed.

Lemma nft_transfer_neutral sender recipient token_id :
  neutral (nft_transfer_inner st sender recipient token_id).
Proof.
  intros p m u m' Hl H. unfold nft_transfer_inner in H. lift_in H appr Happr. lift_in H u1 H1.
  lift_in H pid Hid. lift_in H pos Hpos.
  apply (get_open (lost:=lost)) in Hpos as (_ & Hpos & _); [|apply Hl].
  apply hbind_ok in H as (? & m1 & H2 & H). apply hbind_ok in H as (? & m2 & H3 & H).
  assert (open_positions (sheet m2) !! pos_id pos = Some pos) as Hpos2.
  { unfold mod_nft in H2, H3. apply hmod_ok in H2, H3. by rewrite H3, H2. }
  destruct (neutral_mod_nft _ _ _ _ _ Hl H2) as [Hl1 E1].
  destruct (neutral_mod_nft _ _ _ _ _ Hl1 H3) as [Hl2 E2].
  apply hbind_ok in H as (? & m3 & H4 & H).
  destruct (save_owner_ledger _ _ _ _ _ _ Hl2 Hpos2 H4) as [Hl3 E3].
  pose proof (quiet_history_transfer st).
  match type of H with ?h m3 = _ => assert (neutral h) as Hn by (unfold save_approvals; neutral) end.
  destruct (Hn _ _ _ _ Hl3 H) as [Hl4 E4]. split; [done|congruence].
Qed.

Lemma nft_exec_neutral sender msg : neutral (nft_handle_exec st sender msg).
Proof.
  pose proof nft_transfer_neutral as Ht.
  unfold nft_handle_exec, nft_transfer, nft_send, nft_approve, nft_revoke, nft_approve_all,
    nft_revoke_all, nft_update_approvals, save_approvals.
  destruct (disable_position_nft_exec (st_config st)); [apply neutral_quiet; quiet|].
  destruct msg; neutral.
Qed.

(** ** Messages *)

(** None of them executes a deferred item. *)
Definition no_exec (l : list SubMessage) : Prop :=
  Forall (fun s => match s with PerformDeferredExec _ _ => False | _ => True end) l.
Definition calm {A} (h : mhandler A) : Prop :=
  forall m a m', h m = Ok (a, m') -> no_exec (m_messages m) -> no_exec (m_messages m').

Lemma calm_silent {A} (h : mhandler A) : silent h -> calm h.
Proof. intros Hs m a m' H Hm. by rewrite (Hs _ _ _ H). Qed.
Lemma calm_bind {A B} (c : mhandler A) (k : A -> mhandler B) :
  calm c -> (forall a, calm (k a)) -> calm (hbind c k).
Proof.
  intros Hc Hk m b m' H Hm. apply hbind_ok in H as (a & m1 & H1 & H2).
  by eapply Hk, Hc.
Qed.
Lemma calm_message msg : no_exec [msg] -> calm (add_message msg).
Proof. intros Hm m a m' H Hl. unfold add_message in H. apply hmod_ok in H as ->. by apply Forall_app. Qed.

Ltac calm :=
  repeat first
    [ progress intros
    | apply calm_message; by repeat constructor
    | solve [apply calm_silent; silent]
    | apply calm_bind
    | match goal with
      | |- calm (match ?x with _ => _ end) => destruct x
      | |- calm (if ?x then _ else _) => destruct x
      | |- calm ?h => let f := head_of h in unfold f
      end ].

Lemma calm_nft sender msg : calm (nft_handle_exec st sender msg).
Proof. calm. Qed.
Lemma calm_move o r n k : calm (liquidity_token_move st o r n k).
Proof. apply calm_silent. silent. Qed.
Lemma calm_token sender k msg : calm (liquidity_token_handle_exec st sender k msg).
Proof. destruct msg; cbn [liquidity_token_handle_exec]; calm. Qed.
Lemma calm_provider sender msg : calm (liquidity_dispatch st sender msg).
Proof.
  destruct msg; cbn [liquidity_dispatch]; try (apply calm_token); apply calm_silent; silent.
Qed.

(** ** The response *)

(** The messages to be paid, in the token's units. *)
Definition pays (msgs : list ResponseMsg) : list Z :=
  omap (fun r => match r with RespPay c => Some (msg_amount c) | RespSub _ => None end) msgs.
Definition paid_out (t : Token) (msgs : list ResponseMsg) : Z :=
  foldr Z.add 0 (pays msgs) * token_unit t.

Lemma transfer_amount t addr x o :
  token_ok t -> into_transfer_msg t addr x = Ok o ->
  0 <= from_option msg_amount 0 o /\ from_option msg_amount 0 o * token_unit t <= x.
Proof.
  intros Ht H. pose proof (token_unit_pos t Ht).
  assert (exists n, token_into_u128 t x = Ok n /\ from_option msg_amount 0 o = default 0 n) as (n & Hn & ->).
  { unfold into_transfer_msg, into_native_coin, into_cw20_execute_transfer_msg in H.
    destruct t; apply rbind_ok in H as (c & Hc & H); apply rbind_ok in Hc as (n & Hn & Hc);
      inv_ok; exists n; (split; [done|]); by destruct n. }
  unfold token_into_u128 in Hn. rewrite to_u128_with_precision_total in Hn by done. simpl in Hn.
  fold (token_unit t) in Hn. apply rbind_ok in Hn as (v & Hv & Hn).
  apply of_option_ok, fits_Some in Hv as [-> Hv]. apply u128_ok_true in Hv.
  pose proof (Z.mul_div_le x (token_unit t)). injection Hn as <-.
  destruct (Z.ltb_spec 0 (x / token_unit t)); simpl; nia.
Qed.

Lemma transfer_messages_paid t l msgs :
  token_ok t -> transfer_messages t l = Ok msgs ->
  0 <= foldr Z.add 0 (map msg_amount msgs) /\
  foldr Z.add 0 (map msg_amount msgs) * token_unit t <= foldr (fun e acc => e.2 + acc) 0 l.
Proof.
  intros Ht. revert msgs. induction l as [|[addr x] l IH]; intros msgs H; simpl in H.
  - injection H as <-. simpl. lia.
  - apply rbind_ok in H as (o & Ho & H). apply rbind_ok in H as (ms & Hms & H). injection H as <-.
    destruct (IH _ Hms). destruct (transfer_amount _ _ _ _ Ht Ho).
    pose proof (token_unit_pos t Ht). destruct o; simpl in *; nia.
Qed.

Lemma map_sum_foldr {K V} `{Countable K} (f : V -> Z) (m : gmap K V) :
  map_sum f m = foldr (fun e acc => f e.2 + acc) 0 (map_to_list m).
Proof.
  unfold map_sum. rewrite map_fold_foldr.
  induction (map_to_list m) as [|[k v] l IH]; simpl; [done|by rewrite IH].
Qed.

Lemma response_paid m msgs :
  token_ok (st_token st) -> market_response st m = Ok msgs ->
  0 <= paid_out (st_token st) msgs <= s_transfers (sheet m).
Proof.
  intros Ht H. unfold market_response, into_response in H.
  apply rbind_ok in H as (ps & Hp & H). injection H as <-.
  apply (transfer_messages_paid _ _ _ Ht) in Hp as [H0 Hp].
  assert (pays (map RespSub (m_messages m) ++ map RespPay ps) = map msg_amount ps) as E.
  { clear Hp H0. induction (m_messages m) as [|s l IH]; [|exact IH]. simpl.
    induction ps as [|c ps IH]; [done|]. simpl. by f_equal. }
  unfold paid_out. rewrite E. simpl. rewrite map_sum_foldr. pose proof (token_unit_pos _ Ht).
  split; [nia|exact Hp].
Qed.

(** A message starts without payments. *)
Lemma new_ctx_sheet m : sheet (new_ctx m) = with_transfers 0 (sheet m).
Proof. unfold new_ctx, sheet. simpl. by rewrite map_sum_empty. Qed.
Lemma new_ctx_owed m : obligations (sheet (new_ctx m)) = owed_after (sheet m).
Proof.
  rewrite new_ctx_sheet. unfold owed_after, obligations, assets, active_total, orders_total, deferred_total,
    open_positions. simpl. lia.
Qed.
Lemma new_ctx_ledger p m :
  ledger p (sheet m) ->
  ledger p (sheet (new_ctx m)) /\ obligations (sheet (new_ctx m)) = owed_after (sheet m) /\
  m_messages (new_ctx m) = [].
Proof.
  intros Hl. split; [|split; [apply new_ctx_owed|done]]. rewrite new_ctx_sheet. by apply with_transfers_ledger.
Qed.
End Effects.
