(* ===== verification/MarketSystem.v ===== *)
(** * The market on its chain

    The transactions that reach a market: a message from anyone, the
    submessage a crank hands a deferred item to, its failure, the reply, and
    the configuration updates of the chain's governance.  The chain keeps the
    market's storage and its balance of collateral; it runs a submessage
    before anything else reaches the market, drops what a failed one wrote,
    and pays the transfers of a response. *)

From stdpp Require Import base option gmap strings list pretty.
From Stdlib Require Import ZArith Lia.
From S2P Require Import Prelude Index Storage Cosmwasm Types Number Time Market Price Token DataSeries Config Position Trading State Pool LpHistory Liquidity LpToken Books LiquidityInv Fees FeesInv LiquiditySystem Funding FundingInv DeltaNeutrality DeltaNeutralityInv OpenInterest PositionStore SpotPrice TradeHistory BalanceSheet PositionStoreInv BalanceEffects PositionToken ClosePosition OpenPosition UpdatePosition Orders Deferred MarketInv ClosingInv PositionMsgs OrdersInv DeferredInv QueueInv Crank CrankInv ProviderEffects Entry SystemEffects.
Local Open Scope Z_scope.

(** ** What the chain is waiting for *)

Inductive stage :=
| Resting
| Performing (id : DeferredExecId) (price_point_timestamp : Timestamp)
| Replying (id : DeferredExecId) (r : SubMsgResult).

Definition stage_phase (s : stage) : phase :=
  match s with
  | Resting => Idle
  | Performing id _ => Queued id
  | Replying id SubMsgOk => Executed id
  | Replying id SubMsgErr => Queued id
  end.

(** The submessage of a response that comes back with a reply. *)
Definition stage_after (msgs : list ResponseMsg) : stage :=
  match msgs with
  | RespSub (PerformDeferredExec id t) :: _ => Performing id t
  | _ => Resting
  end.

Record Chain := mkChain {
  ch_config : Config;
  ch_market : MarketCtx;
  ch_balance : Z;
  ch_stage : stage;
}.

(** ** The types of a message's numbers *)

Definition update_typed (u : ConfigUpdate) : Prop :=
  (forall x, u_delta_neutrality_fee_cap u = Some x -> is_dec x) /\
  (forall x, u_delta_neutrality_fee_sensitivity u = Some x -> is_dec x /\ x <> 0) /\
  (forall x, u_delta_neutrality_fee_tax u = Some x -> 0 <= x).

Definition execute_typed (msg : ExecuteMsg) : Prop :=
  match msg with
  | Owner (OwnerConfigUpdate u) => update_typed u
  | UpdatePositionRemoveCollateralImpactLeverage _ amount
  | UpdatePositionRemoveCollateralImpactSize _ amount _ => 0 < amount <= U256_MAX
  | _ => True
  end.

Section System.
Context {CW : CosmwasmStd}.
Context (from_json : Binary -> res ExecuteMsg).
(** The market's id and token, and the contract's address. *)
Context (mid : MarketId) (tok : Token) (self : Addr).

(** The state a message runs with: stored data, and an environment that may
    answer anything. *)
Definition runs (env : State) (c : Chain) : Prop :=
  st_config env = ch_config c /\ st_market_id env = mid /\ st_token env = tok /\
  st_contract env = self.

(** How many positions a message may liquifund. *)
Definition message_work (env : State) (info : PerpsMessageInfo) : nat :=
  match pmi_msg info with
  | CrankMsg execs _ =>
      batch_work (Some (default (crank_execs (st_config env)) execs, pmi_sender info))
        (mkCrankStore None None None)
  | _ => 0%nat
  end.

(** [step c c' n]: a transaction, or a part of one, that liquifunds at most
    [n] positions. *)
Inductive step (c : Chain) : Chain -> nat -> Prop :=
| step_execute env info msg pmi config m msgs :
    runs env c -> ch_stage c = Resting ->
    parse_perps_message_info from_json env info msg = Ok pmi ->
    pmi_sender pmi <> self -> execute_typed (pmi_msg pmi) ->
    execute from_json env info msg (ch_market c) = Ok (config, m, msgs) ->
    step c (mkChain config m (ch_balance c + default 0 (pmi_funds pmi) - paid_out tok msgs)
              (stage_after msgs)) (message_work env pmi)
| step_sudo env u config m msgs :
    runs env c -> ch_stage c = Resting -> update_typed u ->
    sudo env (SudoConfigUpdate u) (ch_market c) = Ok (config, m, msgs) ->
    step c (mkChain config m (ch_balance c - paid_out tok msgs) (stage_after msgs)) 0
| step_perform env id t config m msgs :
    runs env c -> ch_stage c = Performing id t ->
    execute from_json env (mkMessageInfo self []) (PerformDeferredExecMsg id t) (ch_market c)
      = Ok (config, m, msgs) ->
    step c (mkChain config m (ch_balance c - paid_out tok msgs) (Replying id SubMsgOk)) 1
| step_perform_failed id t :
    ch_stage c = Performing id t ->
    step c (mkChain (ch_config c) (ch_market c) (ch_balance c) (Replying id SubMsgErr)) 0
| step_reply env id r u m msgs :
    runs env c -> ch_stage c = Replying id r ->
    reply env id r (ch_market c) = Ok (u, m, msgs) ->
    step c (mkChain (ch_config c) m (ch_balance c - paid_out tok msgs) (stage_after msgs))
      (batch_work None (m_crank (ch_market c))).

(** The chains that come out of [instantiate], with the positions that could
    be liquifunded and the times the pool was emptied while dust was locked. *)
Inductive reachable : Chain -> nat -> nat -> Prop :=
| reach_instantiate env query_decimals msg factory st' m msgs :
    instantiate env query_decimals msg = Ok (factory, st', m, msgs) ->
    update_typed (default config_update_default (inst_config msg)) ->
    inst_market_id msg = mid -> st_token st' = tok ->
    reachable (mkChain (st_config st') m 0 Resting) 0 0
| reach_step c n r c' k :
    reachable c n r -> step c c' k ->
    reachable c' (n + k) (r + dust_resets (sheet (ch_market c)) (sheet (ch_market c'))).

End System.

(** * Theory *)

Section Theory.
Context {CW : CosmwasmStd} {CWS : CosmwasmStdSpec CW}.
Context (from_json : Binary -> res ExecuteMsg).
Context (mid : MarketId) (tok : Token) (self : Addr).
Hypothesis Htok : token_ok tok.

Local Abbreviation runs := (runs mid tok self).

(** The ledger depends on the market's id alone. *)
Lemma ledger_env st st' lost p s :
  st_market_id st = st_market_id st' -> ledger_inv st lost p s -> ledger_inv st' lost p s.
Proof. intros E [Hb Hq]. split; [|done]. unfold market_type in *. by rewrite <- E. Qed.

Lemma update_config_keeps c u c' :
  update_config c u = Ok c' -> update_typed u -> dnf_config c -> dnf_config c'.
Proof.
  unfold update_config. intros H (Hc & Hs & Ht) [].
  apply rbind_ok in H as (spot & _ & H). apply rbind_ok in H as ([] & Hv & H). injection H as <-.
  unfold config_validate in Hv. do 14 (apply rbind_ok in Hv as (? & _ & Hv)).
  apply reject_if_bind in Hv as [Htax _]. apply Z.ltb_ge in Htax. simpl in Htax. split; simpl.
  - destruct (u_delta_neutrality_fee_cap u); simpl; auto.
  - destruct (u_delta_neutrality_fee_sensitivity u); simpl; auto.
  - destruct (u_delta_neutrality_fee_tax u); simpl in *; [|lia]. split; [by apply Ht|done].
Qed.

(** ** Funds *)

Lemma parsed_funds st info msg pmi :
  st_token st = tok -> parse_perps_message_info from_json st info msg = Ok pmi ->
  forall x, pmi_funds pmi = Some x -> 0 < x <= U256_MAX.
Proof.
  intros Et H.
  assert (forall (e : error) n d x, 0 <= d <= 18 -> std (dec_from_atomics n d) = Ok x ->
    forall y, of_option e (nonzero_new x) = Ok y -> 0 < y <= U256_MAX) as Hdec.
  { intros e n d x Hd Hx y Hy. apply of_option_ok, nonzero_new_Some in Hy as [-> Hne].
    apply std_ok in Hx. rewrite dec_from_atomics_spec in Hx by exact Hd.
    apply fits_Some in Hx as [-> Hx]. apply is_dec_ok in Hx. unfold is_dec in Hx. lia. }
  unfold token_ok in Htok. rewrite <- Et in Htok. unfold parse_perps_message_info in H.
  assert (match info_funds info with
    | [] => Ok (mkPerpsMessageInfo None msg (info_sender info))
    | (coin_denom, coin_amount) :: funds =>
        _ <- ensure (is_empty funds) (perp_market NativeFunds);
        match st_token st with
        | TokenNative denom decimal_places =>
            _ <- ensure (String.eqb coin_denom denom) (perp_market NativeFunds);
            n <- std (dec_from_atomics coin_amount decimal_places);
            amount <- of_option (perp_market NativeFunds) (nonzero_new n);
            Ok (mkPerpsMessageInfo (Some amount) msg (info_sender info))
        | TokenCw20 _ _ => Err (perp_market NativeFunds)
        end
    end = Ok pmi -> forall x, pmi_funds pmi = Some x -> 0 < x <= U256_MAX) as Hnat.
  { intros Hn x Hx. destruct (info_funds info) as [|[cd ca] fs]; [by inv_ok|].
    apply rbind_ok in Hn as (? & _ & Hn). destruct (st_token st) as [|dn d]; [done|].
    apply rbind_ok in Hn as (? & _ & Hn). apply rbind_ok in Hn as (n & Hd & Hn).
    apply rbind_ok in Hn as (y & Hy & Hn). injection Hn as <-. injection Hx as <-. by eapply Hdec. }
  destruct msg; try exact (Hnat H). clear Hnat. intros x Hx.
  apply rbind_ok in H as (inner & _ & H). apply rbind_ok in H as (y & Hy & H).
  do 2 (apply rbind_ok in H as (? & _ & H)). injection H as <-. injection Hx as <-.
  destruct (st_token st) as [a d|]; [|done]. apply rbind_ok in Hy as (? & _ & Hy).
  apply rbind_ok in Hy as (n & Hd & Hy). by eapply Hdec.
Qed.

(** ** The dispatch *)

Section Message.
Context (st : State).
Hypothesis Hcfg : dnf_config (st_config st).

Local Abbreviation ledger lost := (ledger_inv st lost).

(** A request is well typed and takes what was sent, or nothing. *)
Lemma deferred_request_ok funds msg item attached r :
  deferred_request st funds msg = Some r -> r = Ok (item, attached) ->
  execute_typed msg -> (forall x, funds = Some x -> 0 < x <= U256_MAX) ->
  item_typed item /\ forall x, received item attached x -> x <= default 0 funds.
Proof.
  intros H -> Hty Hf.
  assert (0 <= default 0 funds) as H0 by (destruct funds as [x|]; simpl; [specialize (Hf x eq_refl)|]; lia).
  assert (forall x, funds_take funds = Ok x -> x = default 0 funds /\ 0 < x <= U256_MAX) as Htake.
  { intros x Hx. apply of_option_ok in Hx. rewrite Hx in *. split; [done|]. by apply Hf. }
  destruct msg; try discriminate H; simpl in H; apply (inj Some) in H;
    repeat (apply rbind_ok in H as (? & ? & H)); injection H as <- <-; simpl in Hty;
    unfold received; simpl; split; try done;
    repeat match goal with H : funds_take funds = Ok _ |- _ => apply Htake in H as [-> ?] end;
    try (intros y Hy; rewrite (proj2 (Z.ltb_lt 0 _)) in Hy by lia; lia);
    try done; intros y [Hy| ->]; try lia;
    destruct (Htake _ Hy) as [-> _]; lia.
Qed.

(** What the handler of a message leaves, given the funds [x] it takes and the
    positions [n] it may liquifund, with [lost] of the locked collateral
    missing. *)
Definition handled (lost : Collateral) (x : Z) (n : nat) (m m' : MarketCtx) : Prop :=
  obligations (sheet m') <= obligations (sheet m) + x + Z.of_nat n * TINY_COLLATERAL /\
  (ledger lost Idle (sheet m') /\ no_exec (m_messages m') \/
   exists id t, ledger lost (Queued id) (sheet m') /\ m_messages m' = [PerformDeferredExec id t]).

(** What may be missing after a message. *)
Definition may_lose (lost lost' : Collateral) (s s' : Sheet) : Prop :=
  lost <= lost' <= lost + Z.of_nat (dust_resets s s') * DUST.
Lemma loses_nothing lost s s' : may_lose lost lost s s'.
Proof. unfold may_lose, DUST. pose proof DEC_ONE_pos. assert (0 <= DEC_ONE / 10000000) by (apply Z.div_pos; lia). nia. Qed.

Lemma handled_idle lost x n m m' :
  ledger lost Idle (sheet m') -> no_exec (m_messages m') ->
  obligations (sheet m') <= obligations (sheet m) + x -> handled lost x n m m'.
Proof. intros Hl Hm Ho. split; [unfold TINY_COLLATERAL; lia|by left]. Qed.

Lemma neutral_handled {A} (h : mhandler A) lost x n m a m' :
  neutral (lost:=lost) st h -> calm h -> ledger lost Idle (sheet m) -> m_messages m = [] -> 0 <= x ->
  h m = Ok (a, m') -> handled lost x n m m'.
Proof.
  intros Hn Hc Hl Hm Hx H. destruct (Hn _ _ _ _ Hl H) as [Hl' Ho].
  apply handled_idle; [done| |lia]. eapply Hc; [done|]. rewrite Hm. constructor.
Qed.

Lemma provider_handled sender lost lmsg m u m' :
  ledger lost Idle (sheet m) -> m_messages m = [] ->
  ensure_not_resetting_lps (kind_of lmsg) m = Ok (tt, m) ->
  liquidity_dispatch st sender lmsg m = Ok (u, m') ->
  exists lost', may_lose lost lost' (sheet m) (sheet m') /\ handled lost' (paid_in lmsg) 0 m m'.
Proof.
  intros Hl Hm Hens H.
  assert (liquidity_execute st sender lmsg m = Ok (u, m')) as Hx.
  { unfold liquidity_execute, hbind. by rewrite Hens. }
  pose proof (calm_provider st sender lmsg m u m' H) as Hc.
  assert (no_exec (m_messages m')) by (apply Hc; rewrite Hm; constructor).
  apply provider_effect in Hx as [(Hd & df & dt & Hle & E)|(du & df & dt & E & Hu & Hle)]; [| |apply Hl].
  - exists (lost + s_locked (sheet m)). split.
    { unfold may_lose, dust_resets. rewrite decide_True by done. destruct Hd as [[H1 H2] _]. lia. }
    apply handled_idle; [|done|].
    + destruct Hl as [[[[] ? ? Hlk ? ?] ?] ?]. rewrite E.
      split; [split; [split; [split; [|done..]|done|done| |done|done]|done]|done]; simpl in *.
      * rewrite Z.add_opp_diag_r. auto with perps.
      * unfold open_positions in *. simpl in *. lia.
    + rewrite E. unfold obligations, assets, active_total, orders_total, deferred_total, open_positions.
      simpl in *. destruct Hd as [[H1 H2] _]. simpl in H1. lia.
  - exists lost. split; [apply loses_nothing|]. apply handled_idle; [|done|].
    + destruct Hl as [[[[] ? ? ? ? ?] ?] ?]. rewrite E.
      split; [split; [split; [split; try done; split; [apply ty_stats|exact Hu]|done..]|done]|done].
    + rewrite E. unfold obligations, assets, active_total, orders_total, deferred_total, open_positions.
      simpl. lia.
Qed.

Lemma crank_handled lost start m u m' :
  ledger lost Idle (sheet m) -> m_messages m = [] ->
  (spot_price_append st;;; crank_exec_batch st (Some start)) m = Ok (u, m') ->
  handled lost 0 (batch_work (Some start) (m_crank m)) m m'.
Proof.
  intros Hl Hm H. step_in H v m1 H1.
  destruct (spot_price_append_neutral st _ _ _ _ Hl H1) as [Hl1 Ho1].
  assert (silent (spot_price_append st)) as Hs by (unfold spot_price_append; cbv zeta; silent). apply Hs in H1. rewrite Hm in H1.
  destruct (crank_batch_ledger st Hcfg _ _ _ _ Hl1 H1 H) as [Hd Hend]. unfold dusted in Hd.
  split; [unfold batch_work in *; lia|]. destruct Hend as [[Hl' Hm']|Hend]; [left|by right].
  split; [done|]. rewrite Hm'. constructor.
Qed.

Lemma handled_weaken lost x y n m m' : x <= y -> handled lost x n m m' -> handled lost y n m m'.
Proof. intros Hle [Ho Hs]. split; [lia|done]. Qed.

(** The messages that are neither requests nor a provider's. *)
Lemma other_handled lost pmi m config m' :
  ledger lost Idle (sheet m) -> m_messages m = [] -> execute_typed (pmi_msg pmi) ->
  pmi_sender pmi <> st_contract st ->
  execute_other st (pmi_sender pmi) (pmi_msg pmi) m = Ok (config, m') ->
  dnf_config config /\ handled lost 0 (message_work st pmi) m m'.
Proof.
  intros Hl Hm Hty Hs H. unfold message_work. destruct pmi as [funds msg sender]. simpl in *.
  assert (forall m1, sheet m1 = sheet m -> m_messages m1 = [] -> handled lost 0 0 m m1) as Hsame.
  { intros m1 E E1. apply handled_idle; rewrite ?E, ?E1; [done|constructor|lia]. }
  destruct msg as [[u]| | | | | | | | | | | | | | | | | | | | | | |execs rewards
    |nsender nmsg|tsender kind tmsg| | | |price usd|id t]; simpl in H, Hty;
    try (apply hret_ok in H as [-> ->]; split; [done|by apply Hsame]).
  - lift_in H v Hv. apply hlift_ok in H as [H ->]. split; [by eapply update_config_keeps|by apply Hsame].
  - done.
  - apply hbind_ok in H as (rw & m1 & H1 & H). apply hlift_ok in H1 as [_ ->].
    assert ((spot_price_append st;;; crank_exec_batch st (Some (default (crank_execs (st_config st)) execs, rw)))
      m = Ok (tt, m') /\ config = st_config st) as [Hc ->].
    { apply hbind_ok in H as ([] & m1 & H1 & H). apply hbind_ok in H as ([] & m2 & H2 & H).
      apply hret_ok in H as [-> ->]. unfold hbind. rewrite H1. simpl. by rewrite H2. }
    split; [done|]. eapply crank_handled in Hc; [exact Hc|done..].
  - lift_in H a Ha. lift_in H v Hv. lift_in H pid Hpid. step_in H w m1 H1.
    assert (m1 = m) as -> by (destruct pid; [by apply hask_ok in H1 as [_ ->]|by apply hret_ok in H1 as [_ ->]]).
    lift_in H b Hb. step_in H x m2 H2. apply hret_ok in H as [-> ->]. split; [done|].
    eapply neutral_handled; [apply nft_exec_neutral|apply calm_nft|done..|exact H2].
  - lift_in H a Ha. lift_in H v Hv. lift_in H b Hb. step_in H x m2 H2. apply hret_ok in H as [-> ->].
    split; [done|]. eapply neutral_handled; [apply neutral_quiet, quiet_token_exec|apply calm_token|done..|exact H2].
  - lift_in H v Hv. step_in H x m2 H2. apply hret_ok in H as [-> ->]. split; [done|].
    eapply neutral_handled; [apply close_all_neutral|apply calm_silent; silent|done..|exact H2].
  - step_in H v m1 H1. assert (m1 = m) as ->.
    { destruct (spot_price (st_config st)); [by apply hlift_ok in H1 as [_ ->]|done]. }
    apply hbind_ok in H as ([] & m2 & H2 & H). apply hbind_ok in H as ([] & m3 & H3 & H).
    apply hret_ok in H as [-> ->]. split; [done|].
    eapply (neutral_handled (save_manual_spot_price st price usd;;; spot_price_append st) lost);
      [apply neutral_bind; [apply save_manual_neutral|intros _; apply spot_price_append_neutral]
      |apply calm_silent; unfold spot_price_append; cbv zeta; silent|done..|].
    unfold hbind. rewrite H2. exact H3.
  - lift_in H v Hv. exfalso. unfold assert_auth in Hv. simpl in Hv.
    destruct (String.eqb_spec sender (st_contract st)); done.
Qed.

Lemma dispatch_handled lost pmi m config m' :
  ledger lost Idle (sheet m) -> m_messages m = [] -> execute_typed (pmi_msg pmi) ->
  (forall x, pmi_funds pmi = Some x -> 0 < x <= U256_MAX) -> pmi_sender pmi <> st_contract st ->
  ensure_not_resetting_lps (execute_kind (pmi_msg pmi)) m = Ok (tt, m) ->
  execute_dispatch st (pmi_sender pmi) (pmi_funds pmi) (pmi_msg pmi) m = Ok (config, m') ->
  dnf_config config /\ exists lost', may_lose lost lost' (sheet m) (sheet m') /\
    handled lost' (default 0 (pmi_funds pmi)) (message_work st pmi) m m'.
Proof.
  intros Hl Hm Hty Hf Hs Hens H. unfold execute_dispatch in H.
  assert (0 <= default 0 (pmi_funds pmi)) as H0.
  { destruct (pmi_funds pmi) as [x|]; simpl; [specialize (Hf x eq_refl)|]; lia. }
  destruct (deferred_request st (pmi_funds pmi) (pmi_msg pmi)) as [r|] eqn:Er.
  - apply hbind_ok in H as ([item attached] & m1 & H1 & H). apply hlift_ok in H1 as [Hr ->].
    destruct (deferred_request_ok _ _ _ _ _ Er Hr Hty Hf) as [Hit Hrec].
    apply hbind_ok in H as ([] & m1 & H1 & H). apply hret_ok in H as [-> ->]. split; [done|].
    pose proof (silent_defer _ _ _ _ _ _ _ H1) as Hm1.
    apply (defer_ledger (lost:=lost) st) in H1 as [Hl1 (x & Hx & Ho)]; [|done..]. specialize (Hrec x Hx).
    exists lost. split; [apply loses_nothing|]. split; [unfold TINY_COLLATERAL; lia|]. left. split; [done|]. rewrite Hm1, Hm. constructor.
  - destruct (provider_request (pmi_funds pmi) (pmi_msg pmi)) as [r|] eqn:Ep.
    + apply hbind_ok in H as (lmsg & m1 & H1 & H). apply hlift_ok in H1 as [-> ->].
      apply hbind_ok in H as ([] & m1 & H1 & H). apply hret_ok in H as [-> ->]. split; [done|].
      assert (kind_of lmsg = execute_kind (pmi_msg pmi) /\ paid_in lmsg <= default 0 (pmi_funds pmi))
        as [Hk Hp].
      { clear -Ep H0. unfold funds_take in Ep. destruct (pmi_msg pmi); try discriminate Ep; simpl in Ep;
          apply (inj Some) in Ep; try (injection Ep as <-; simpl; done);
          apply rbind_ok in Ep as (f & Hf & Ep); apply of_option_ok in Hf; rewrite Hf;
          injection Ep as <-; simpl; done. }
      rewrite <- Hk in Hens. eapply provider_handled in H1 as (lost' & Hlost & Hh); [|done..].
      exists lost'. split; [done|]. apply (handled_weaken _ (paid_in lmsg)); [done|].
      by replace (message_work st pmi) with 0%nat by (unfold message_work; by destruct (pmi_msg pmi)).
    + eapply other_handled in H as [Hc H]; [|done..]. split; [done|].
      exists lost. split; [apply loses_nothing|]. by apply (handled_weaken _ 0).
Qed.

(** A handler between an empty response and the payments. *)
Lemma entry_ok {A} (h : mhandler A) m a m' msgs :
  entry_point st h m = Ok (a, m', msgs) ->
  h (new_ctx m) = Ok (a, m') /\ market_response st m' = Ok msgs.
Proof.
  unfold entry_point. intros H. apply rbind_ok in H as ([a' m1] & H1 & H).
  apply rbind_ok in H as (ms & H2 & H). by injection H as <- <- <-.
Qed.

Lemma response_stage m msgs :
  market_response st m = Ok msgs ->
  (no_exec (m_messages m) -> stage_after msgs = Resting) /\
  forall id t, m_messages m = [PerformDeferredExec id t] -> stage_after msgs = Performing id t.
Proof.
  unfold market_response. intros (ps & _ & H)%rbind_ok. injection H as <-. split.
  - intros Hn. destruct (m_messages m) as [|s l]; [by destruct ps|].
    apply Forall_cons in Hn as [Hs _]. by destruct s.
  - by intros id t ->.
Qed.

(** What is owed and what is paid after a handled message. *)
Lemma handled_settles lost x n m m' msgs :
  token_ok (st_token st) -> handled lost x n (new_ctx m) m' -> market_response st m' = Ok msgs ->
  ledger lost (stage_phase (stage_after msgs)) (sheet m') /\
  owed_after (sheet m') <=
    owed_after (sheet m) + x - paid_out (st_token st) msgs + Z.of_nat n * TINY_COLLATERAL.
Proof.
  intros Ht [Ho Hst] Hr. pose proof (new_ctx_owed m) as Hn.
  destruct (response_paid st _ _ Ht Hr) as [_ Hp]. destruct (response_stage _ _ Hr) as [Hs1 Hs2].
  split.
  - destruct Hst as [[Hl' Hc]|(id & t & Hl' & Hc)]; [by rewrite Hs1|by erewrite Hs2].
  - rewrite Hn in Ho. unfold owed_after in *. lia.
Qed.
End Message.

(** ** The invariant of the chain *)

Record chain_inv (c : Chain) (n : nat) (lost : Collateral) : Prop := {
  ci_config : dnf_config (ch_config c);
  ci_ledger : forall st, st_market_id st = mid ->
    ledger_inv st lost (stage_phase (ch_stage c)) (sheet (ch_market c));
  ci_solvent : owed_after (sheet (ch_market c)) <= ch_balance c + Z.of_nat n * TINY_COLLATERAL;
}.

(** A handled message of an environment gives the invariant back. *)
Lemma settled_inv env c n lost lost' x k config m' msgs :
  runs env c -> chain_inv c n lost -> dnf_config config ->
  handled env lost' x k (new_ctx (ch_market c)) m' -> market_response env m' = Ok msgs ->
  chain_inv (mkChain config m' (ch_balance c + x - paid_out tok msgs) (stage_after msgs)) (n + k) lost'.
Proof.
  intros (Ec & Em & Et & _) [Hc Hl Ho] Hc' Hh Hr.
  destruct (handled_settles env _ _ _ _ _ _ ltac:(by rewrite Et) Hh Hr) as [Hl' Ho'].
  rewrite Et in Ho'. split; simpl; [done|..].
  - intros st Hst. eapply ledger_env; [|exact Hl']. congruence.
  - unfold TINY_COLLATERAL in *. lia.
Qed.

Lemma execute_inv env c n lost info msg pmi config m msgs :
  runs env c -> chain_inv c n lost -> ch_stage c = Resting ->
  parse_perps_message_info from_json env info msg = Ok pmi -> pmi_sender pmi <> self ->
  execute_typed (pmi_msg pmi) ->
  execute from_json env info msg (ch_market c) = Ok (config, m, msgs) ->
  exists lost', may_lose lost lost' (sheet (ch_market c)) (sheet m) /\
    chain_inv (mkChain config m (ch_balance c + default 0 (pmi_funds pmi) - paid_out tok msgs)
                 (stage_after msgs)) (n + message_work env pmi) lost'.
Proof.
  intros Hr Hci Hs Hp Hsend Hty H. pose proof Hr as (Ec & Em & Et & Eself).
  unfold execute in H. apply entry_ok in H as [H Hresp]. unfold execute_handler in H.
  apply hbind_ok in H as (pmi' & m1 & H1 & H). apply hlift_ok in H1 as [H1 ->].
  rewrite Hp in H1. injection H1 as <-. apply hbind_ok in H as (v & m1 & H1 & H).
  assert (m1 = new_ctx (ch_market c)) as ->.
  { destruct (for_market_execute_msg _); [by apply hlift_ok in H1 as [_ ->]|by apply hret_ok in H1 as [_ ->]]. }
  apply hbind_ok in H as ([] & m1 & Hens & H).
  assert (m1 = new_ctx (ch_market c)) as -> by by apply ensure_not_resetting_balanced in Hens as [-> _].
  apply hbind_ok in H as (config' & m1 & Hdisp & H). lift_in H w Hw. apply hret_ok in H as [-> ->].
  pose proof (ci_ledger _ _ _ Hci env Em) as Hl. rewrite Hs in Hl.
  destruct (new_ctx_ledger env _ _ Hl) as (Hl0 & _ & Hm0).
  assert (dnf_config (st_config env)) as Hcfg by (rewrite Ec; apply Hci).
  eapply dispatch_handled in Hdisp as (Hc & lost' & Hlost & Hh); [|done|exact Hl0|exact Hm0|done| |congruence|done].
  - exists lost'. split; [exact Hlost|]. by eapply settled_inv.
  - intros x. by eapply parsed_funds.
Qed.

Lemma perform_inv env c n lost id t config m msgs :
  runs env c -> chain_inv c n lost -> ch_stage c = Performing id t ->
  execute from_json env (mkMessageInfo self []) (PerformDeferredExecMsg id t) (ch_market c)
    = Ok (config, m, msgs) ->
  chain_inv (mkChain config m (ch_balance c - paid_out tok msgs) (Replying id SubMsgOk)) (n + 1) lost.
Proof.
  intros Hr Hci Hs H. pose proof Hr as (Ec & Em & Et & Eself).
  unfold execute in H. apply entry_ok in H as [H Hresp]. unfold execute_handler in H.
  lift_in H pmi Hp. injection Hp as <-. apply hbind_ok in H as (v & m1 & H1 & H). simpl in H1.
  apply hret_ok in H1 as [_ ->]. apply hbind_ok in H as ([] & m1 & Hens & H).
  apply ensure_not_resetting_balanced in Hens as [-> _].
  apply hbind_ok in H as (config' & m2 & Hx & H). lift_in H w Hw. apply hret_ok in H as [-> ->].
  unfold execute_dispatch in Hx. simpl in Hx. lift_in Hx a Ha.
  apply hbind_ok in Hx as ([] & m3 & Hx & H). apply hret_ok in H as [-> ->].
  pose proof (ci_ledger _ _ _ Hci env Em) as Hl. rewrite Hs in Hl.
  destruct (new_ctx_ledger env _ _ Hl) as (Hl0 & Ho0 & _).
  assert (dnf_config (st_config env)) as Hcfg by (rewrite Ec; apply Hci).
  apply (perform_ledger (lost:=lost) env Hcfg) in Hx as [Hl1 (short & Hsh & Ho1)]; [|exact Hl0].
  destruct (response_paid env _ _ ltac:(by rewrite Et) Hresp) as [_ Hpay]. rewrite Et in Hpay.
  pose proof (ci_solvent _ _ _ Hci). split; simpl; [done|..].
  - intros st Hst. eapply ledger_env; [|exact Hl1]. congruence.
  - unfold owed_after, TINY_COLLATERAL in *. lia.
Qed.

Lemma reply_inv env c n lost id r u m msgs :
  runs env c -> chain_inv c n lost -> ch_stage c = Replying id r ->
  reply env id r (ch_market c) = Ok (u, m, msgs) ->
  chain_inv (mkChain (ch_config c) m (ch_balance c - paid_out tok msgs) (stage_after msgs))
    (n + batch_work None (m_crank (ch_market c))) lost.
Proof.
  intros Hr Hci Hs H. pose proof Hr as (Ec & Em & Et & Eself).
  unfold reply in H. apply entry_ok in H as [H Hresp]. unfold market_reply in H.
  pose proof (ci_ledger _ _ _ Hci env Em) as Hl. rewrite Hs in Hl.
  destruct (new_ctx_ledger env _ _ Hl) as (Hl0 & Ho0 & Hm0).
  assert (dnf_config (st_config env)) as Hcfg by (rewrite Ec; apply Hci).
  step_in H v m1 H1. pose proof (silent_reply _ _ _ _ _ _ H1) as Hm1. rewrite Hm0 in Hm1.
  assert (m_crank m1 = m_crank (ch_market c)) as Hcr.
  { enough (preserves (fun x => m_crank x = m_crank (ch_market c)) (handle_deferred_exec_reply env id r))
      as Hk by (by eapply Hk; [|exact H1]). frame. }
  apply (reply_ledger (lost:=lost) env) with (p := stage_phase (Replying id r)) in H1 as [Hl1 Ho1];
    [|exact Hl0|by destruct r].
  apply (crank_batch_ledger (lost:=lost) env Hcfg) in H as [Hd Hend]; [|done..]. unfold dusted in Hd. rewrite Hcr in Hd.
  destruct (response_paid env _ _ ltac:(by rewrite Et) Hresp) as [_ Hpay]. rewrite Et in Hpay.
  destruct (response_stage env _ _ Hresp) as [Hs1 Hs2]. pose proof (ci_solvent _ _ _ Hci).
  split; simpl; [apply Hci|..].
  - intros st Hst. eapply (ledger_env env); [congruence|].
    destruct Hend as [[Hl' Hc]|(i & t & Hl' & Hc)]; [|by erewrite Hs2].
    rewrite Hs1; [done|]. rewrite Hc. constructor.
  - unfold owed_after, TINY_COLLATERAL in *. lia.
Qed.

Lemma sudo_inv env c n lost u config m msgs :
  runs env c -> chain_inv c n lost -> ch_stage c = Resting -> update_typed u ->
  sudo env (SudoConfigUpdate u) (ch_market c) = Ok (config, m, msgs) ->
  chain_inv (mkChain config m (ch_balance c - paid_out tok msgs) (stage_after msgs)) (n + 0) lost.
Proof.
  intros Hr Hci Hs Hu H. pose proof Hr as (Ec & Em & Et & Eself).
  unfold sudo in H. apply entry_ok in H as [H Hresp]. apply hlift_ok in H as [H ->].
  pose proof (ci_ledger _ _ _ Hci env Em) as Hl. rewrite Hs in Hl.
  destruct (new_ctx_ledger env _ _ Hl) as (Hl0 & Ho0 & Hm0).
  rewrite <- (Z.add_0_r (ch_balance c)).
  eapply (settled_inv env c n lost lost 0 0); [done..| | |done].
  - eapply update_config_keeps; [exact H|done|]. rewrite Ec. apply Hci.
  - apply handled_idle; [done| |lia]. rewrite Hm0. constructor.
Qed.

(** ** The first state *)

Lemma empty_ledger env cs prices manual :
  ledger_inv env 0 Idle (mkSheet 0 0 0 signed_zero 0 0 0 0 0 (mkPositionStore ∅ 0 ∅ ∅ ∅ ∅ ∅)
    (mkNftStore ∅ ∅ None ∅ ∅) (mkOrderStore None ∅ ∅ ∅ ∅ ∅) (mkDeferredStore None ∅ ∅ ∅ ∅ ∅ ∅)
    cs prices manual).
Proof.
  assert (is_dec 0) as Hz by (unfold is_dec, U256_MAX; lia).
  assert (forall A (key : LimitOrder -> option A) `{Countable A},
    indexed key ∅ ∅) as Hidx.
  { intros A key ? ? k. rewrite lookup_empty. split; [done|]. by intros (? & ? & _). }
  assert (forall target, pending_index Idle (mkDeferredStore None ∅ ∅ ∅ ∅ ∅ ∅) target ∅) as Hpend.
  { intros target k. simpl. rewrite lookup_empty. split; [done|]. by intros (? & ? & _). }
  split; [split; [split|split]|split]; simpl; try done; try (unfold open_positions; simpl; by rewrite map_sum_empty).
  intros id Hid. unfold last_issued in Hid. simpl in Hid. lia.
Qed.

Lemma instantiate_inv env query_decimals msg factory st' m msgs :
  instantiate env query_decimals msg = Ok (factory, st', m, msgs) ->
  update_typed (default config_update_default (inst_config msg)) ->
  inst_market_id msg = mid -> st_token st' = tok ->
  chain_inv (mkChain (st_config st') m 0 Resting) 0 0.
Proof.
  intros H Hu Hmid Htk. unfold instantiate in H.
  apply rbind_ok in H as ([] & _ & H). apply rbind_ok in H as (f & _ & H).
  apply rbind_ok in H as (config & Hc & H). apply rbind_ok in H as (token & Ht & H).
  cbv zeta in H. apply rbind_ok in H as ([[u m2] msgs2] & H & Hr). injection Hr as <- <- <- <-.
  apply entry_ok in H as [H Hresp].
  set (st' := with_stored env config (inst_market_id msg) token) in *.
  assert (dnf_config config) as Hcfg.
  { unfold config_init in Hc. apply rbind_ok in Hc as (s & _ & Hc).
    eapply update_config_keeps; [exact Hc|exact Hu|]. by split; vm_compute. }
  step_in H v1 m3 H1. apply hmod_ok in H1. step_in H v2 m4 H2.
  step_in H2 v3 m5 H3. apply hmod_ok in H3. step_in H2 v4 m6 H4. apply hmod_ok in H4. apply hmod_ok in H2.
  step_in H v5 m7 H5.
  assert (quiet (initialize_borrow_fee_rate st' (inst_initial_borrow_fee_rate msg))) as Hq
    
    by (unfold initialize_borrow_fee_rate, append_to; quiet; by apply quiet_funding).
  apply Hq in H5. step_in H v6 m8 H6. unfold initialize_funding_totals in H6. step_in H6 v7 m9 H7.
  apply hmod_ok in H7. apply hmod_ok in H6.
  assert (exists cs, sheet m8 = mkSheet 0 0 0 signed_zero 0 0 0 0 0 (mkPositionStore ∅ 0 ∅ ∅ ∅ ∅ ∅)
    (mkNftStore ∅ ∅ None ∅ ∅) (mkOrderStore None ∅ ∅ ∅ ∅ ∅) (mkDeferredStore None ∅ ∅ ∅ ∅ ∅ ∅)
    cs ∅ None) as [cs E8].
  { assert (forall a, sheet m7 = a -> sheet m8 = mkSheet (s_locked a) (s_unlocked a) (s_fees a)
      signed_zero 0 (s_dnf a) (s_long a) (s_short a) (s_transfers a) (s_positions a) (s_nft a)
      (s_orders a) (s_deferred a) (s_crank a) (s_prices a) (s_manual a)) as Ez
      by (intros a <-; subst m8 m9; reflexivity).
    eexists. rewrite (Ez _ H5). subst m4 m6 m5 m3. reflexivity. }
  assert (ledger_inv st' 0 Idle (sheet m8) /\ obligations (sheet m8) = 0) as [Hl8 Ho8].
  { rewrite E8. split; [apply empty_ledger|].
    unfold obligations, assets, active_total, orders_total, deferred_total, open_positions. simpl.
    by rewrite !map_sum_empty. }
  assert (ledger_inv st' 0 Idle (sheet m2) /\ obligations (sheet m2) = 0) as [Hl2 Ho2].
  { destruct (inst_initial_price msg) as [p|]; [|by apply hret_ok in H as [_ ->]].
    enough (neutral st' (save_manual_spot_price st' (ip_price p) (ip_price_usd p);;; spot_price_append st'))
      as Hn by (destruct (Hn _ _ _ _ Hl8 H) as [Hl2 Ho2]; split; [done|congruence]).
    apply neutral_bind; [apply save_manual_neutral|intros _; apply spot_price_append_neutral]. }
  split; simpl; [done|..].
  - intros st Hst. eapply ledger_env; [|exact Hl2]. simpl. congruence.
  - destruct (response_paid st' _ _ ltac:(by rewrite Htk) Hresp) as [H0 Hpay].
    unfold owed_after. lia.
Qed.

Lemma step_inv c n lost c' k :
  step from_json mid tok self c c' k -> chain_inv c n lost ->
  exists lost', may_lose lost lost' (sheet (ch_market c)) (sheet (ch_market c')) /\ chain_inv c' (n + k) lost'.
Proof.
  intros H Hci.
  destruct H as [env info msg pmi config m msgs|env u config m msgs|env id t config m msgs|id t Hs|env id r u m msgs];
    [by eapply execute_inv|exists lost; split; [apply loses_nothing|]..].
  - by eapply sudo_inv.
  - by eapply perform_inv.
  - destruct Hci as [? Hl Ho]. split; simpl; [done|..].
    + intros st Hst. specialize (Hl st Hst). by rewrite Hs in Hl.
    + unfold TINY_COLLATERAL in *. lia.
  - by eapply reply_inv.
Qed.

Lemma reachable_inv c n r :
  reachable from_json mid tok self c n r -> exists lost, 0 <= lost <= Z.of_nat r * DUST /\ chain_inv c n lost.
Proof.
  induction 1 as [env q msg factory st' m msgs H Hu Hm Ht|c n r c' k _ (lost & Hlost & Hci) Hs].
  - exists 0. split; [done|]. by eapply instantiate_inv.
  - destruct (step_inv _ _ _ _ _ Hs Hci) as (lost' & Hl & Hci'). exists lost'. split; [|done].
    unfold may_lose in Hl. lia.
Qed.
End Theory.

(** * The theorem *)

(** C1: The market stays solvent.  On every chain that comes out of
    [instantiate] by messages of anyone else than the market itself (whose
    only message to itself is the submessage of a crank), crank batches with
    their submessages and replies in any order of events the chain allows,
    failed submessages included, with numbers of the messages within their
    types, as deserialisation ensures, the stored data is consistent (positions, triggers, open interest,
    orders, the queue of deferred items and its indices, in the phase the chain
    is in), and the collateral the market owes to positions, orders, waiting
    items, providers, fee collectors and the funding pool, payments in flight
    set aside, is at most its balance, up to a dust of [TINY_COLLATERAL] for
    each position that a crank could have liquifunded.  The locked collateral
    is the counter collateral of the open positions, less what was [lost]: a
    withdrawal of the last token resets the totals of the pool even if less
    than [DUST] is still locked, so [lost] is at most [DUST] for each time
    ([r]) that happened, and zero if it never did. *)
Theorem market_solvent {CW : CosmwasmStd} {CWS : CosmwasmStdSpec CW}
    (from_json : Binary -> res ExecuteMsg) (mid : MarketId) (tok : Token) (self : Addr)
    (c : Chain) (n r : nat) :
  token_ok tok -> reachable from_json mid tok self c n r ->
  (exists lost, 0 <= lost <= Z.of_nat r * DUST /\
     forall env, st_market_id env = mid ->
       ledger_inv env lost (stage_phase (ch_stage c)) (sheet (ch_market c))) /\
  owed_after (sheet (ch_market c)) <= ch_balance c + Z.of_nat n * TINY_COLLATERAL.
Proof.
  intros Ht Hr. destruct (reachable_inv _ _ _ _ Ht _ _ _ Hr) as (lost & Hl & []).
  split; [|done]. by exists lost.
Qed.

(** * A concrete run

    Alice provides 1000, a trader asks for a position with 10, the admin
    posts a price and a crank opens the position. *)

Definition sample_no_json : Binary -> res ExecuteMsg := fun _ => Err StdError.
Definition sample_msg : InstantiateMsg :=
  mkInstantiateMsg "factory" None (SpotManual "admin")
    (Some (mkInitialPrice (7 * DEC_ONE) DEC_ONE)) (st_market_id (sample_state 0))
    (InitNative "uusdc" 6) (DEC_ONE / 10).

Definition sample_coins (amount : Z) : list (string * Z) := [("uusdc"%string, amount)].

Definition sample_start : Chain :=
  match instantiate (CW:=cosmwasm_ref) (sample_state 1000) (fun _ => Err StdError) sample_msg with
  | Ok (_, st', m, _) => mkChain (st_config st') m 0 Resting
  | Err _ => mkChain sample_config sample_market 0 Resting
  end.
Definition sample_pmi (info : MessageInfo) (msg : ExecuteMsg) : PerpsMessageInfo :=
  mkPerpsMessageInfo (match info_funds info with [] => None | (_, x) :: _ => Some (x * 10 ^ 12) end)
    msg (info_sender info).
Definition sample_execute (now : Timestamp) (info : MessageInfo) (msg : ExecuteMsg) (c : Chain) : Chain :=
  match execute (CW:=cosmwasm_ref) sample_no_json (sample_state now) info msg (ch_market c) with
  | Ok (config, m, msgs) =>
      mkChain config m
        (ch_balance c + default 0 (pmi_funds (sample_pmi info msg))
         - paid_out (st_token (sample_state 0)) msgs) (stage_after msgs)
  | Err _ => c
  end.
Definition sample_deposit : Chain :=
  sample_execute 2000 (mkMessageInfo "alice" (sample_coins 1000000000)) (DepositLiquidity false) sample_start.
Definition sample_asked : Chain :=
  sample_execute 3000 (mkMessageInfo "trader" (sample_coins 20000000))
    (OpenPositionMsg None (5 * DEC_ONE) LongToBase None (TakeProfitFinite (8 * DEC_ONE))) sample_deposit.
Definition sample_posted : Chain :=
  sample_execute 4000 (mkMessageInfo "admin" []) (SetManualPrice (7 * DEC_ONE) DEC_ONE) sample_asked.
Definition sample_cranked : Chain :=
  sample_execute 5000 (mkMessageInfo "bot" []) (CrankMsg (Some 2) None) sample_posted.
Definition sample_perform (now : Timestamp) (id : DeferredExecId) (t : Timestamp) (c : Chain) : Chain :=
  match execute (CW:=cosmwasm_ref) sample_no_json (sample_state now) (mkMessageInfo "market" [])
    (PerformDeferredExecMsg id t) (ch_market c) with
  | Ok (config, m, msgs) =>
      mkChain config m (ch_balance c - paid_out (st_token (sample_state 0)) msgs) (Replying id SubMsgOk)
  | Err _ => c
  end.
Definition sample_performed : Chain := sample_perform 5000 1 4000 sample_cranked.

Local Abbreviation sample_step :=
  (step (CW:=cosmwasm_ref) sample_no_json (st_market_id (sample_state 0)) (st_token (sample_state 0)) "market"%string).

Lemma sample_execute_step now info msg c :
  ch_config c = sample_config -> ch_stage c = Resting ->
  parse_perps_message_info (CW:=cosmwasm_ref) sample_no_json (sample_state now) info msg
    = Ok (sample_pmi info msg) ->
  info_sender info <> "market"%string -> execute_typed msg ->
  is_ok (execute (CW:=cosmwasm_ref) sample_no_json (sample_state now) info msg (ch_market c)) = true ->
  sample_step c (sample_execute now info msg c) (message_work (sample_state now) (sample_pmi info msg)).
Proof.
  intros Hc Hs Hp Hn Ht Hok. apply is_ok_Ok in Hok as [[[config m] msgs] E].
  unfold sample_execute. rewrite E. eapply step_execute; [|done..|exact E]. by repeat split.
Qed.

Lemma sample_perform_step now id t c :
  ch_config c = sample_config -> ch_stage c = Performing id t ->
  is_ok (execute (CW:=cosmwasm_ref) sample_no_json (sample_state now) (mkMessageInfo "market" [])
    (PerformDeferredExecMsg id t) (ch_market c)) = true ->
  sample_step c (sample_perform now id t c) 1.
Proof.
  intros Hc Hs Hok. apply is_ok_Ok in Hok as [[[config m] msgs] E].
  unfold sample_perform. rewrite E. eapply step_perform; [|exact Hs|exact E]. by repeat split.
Qed.

Local Abbreviation sample_reachable :=
  (reachable (CW:=cosmwasm_ref) sample_no_json (st_market_id (sample_state 0)) (st_token (sample_state 0)) "market"%string).

Lemma sample_start_reachable : sample_reachable sample_start 0 0.
Proof.
  unfold sample_start.
  destruct (instantiate (CW:=cosmwasm_ref) (sample_state 1000) (fun _ => Err StdError) sample_msg)
    as [[[[f st'] m] msgs]|e] eqn:E; [|exfalso; revert E; vm_compute; discriminate].
  eapply reach_instantiate; [exact E| |done|].
  - repeat split; discriminate.
  - revert E. unfold instantiate. vm_compute. by intros [= <- <- _ _].
Qed.

(** One more step of the run, with nothing locked before it. *)
Lemma sample_next c c' k :
  (exists n, sample_reachable c n 0) -> sample_step c c' k -> s_locked (sheet (ch_market c)) = 0 ->
  exists n, sample_reachable c' n 0.
Proof.
  intros [n Hn] Hs Hl. exists (n + k)%nat. pose proof (reach_step _ _ _ _ _ _ _ _ _ Hn Hs) as H.
  unfold dust_resets in H. rewrite decide_False in H by (intros [[H0 _] _]; lia). exact H.
Qed.

Lemma sample_run : exists n, sample_reachable sample_performed n 0.
Proof.
  assert (exists n, sample_reachable sample_deposit n 0) as Hr.
  { eapply (sample_next sample_start); [eexists; apply sample_start_reachable| |vm_compute; reflexivity].
    apply sample_execute_step; vm_compute; done. }
  assert (exists n, sample_reachable sample_asked n 0) as Hr'.
  { eapply (sample_next _ _ _ Hr); [|vm_compute; reflexivity]. apply sample_execute_step; vm_compute; done. }
  clear Hr. assert (exists n, sample_reachable sample_posted n 0) as Hr.
  { eapply (sample_next _ _ _ Hr'); [|vm_compute; reflexivity]. apply sample_execute_step; vm_compute; done. }
  clear Hr'. assert (exists n, sample_reachable sample_cranked n 0) as Hr'.
  { eapply (sample_next _ _ _ Hr); [|vm_compute; reflexivity]. apply sample_execute_step; vm_compute; done. }
  eapply (sample_next _ _ _ Hr'); [|vm_compute; reflexivity]. apply sample_perform_step; vm_compute; done.
Qed.

Lemma market_solvent_witness :
  size (OPEN_POSITIONS (m_positions (ch_market sample_performed))) = 1%nat /\
  ch_balance sample_performed = 1020 * DEC_ONE /\
  ledger_inv (CW:=cosmwasm_ref) (sample_state 0) 0 (Executed 1) (sheet (ch_market sample_performed)) /\
  exists n, owed_after (sheet (ch_market sample_performed)) <= 1020 * DEC_ONE + Z.of_nat n * TINY_COLLATERAL.
Proof.
  split; [vm_compute; reflexivity|]. split; [vm_compute; reflexivity|].
  destruct sample_run as [n Hn].
  assert (token_ok (st_token (sample_state 0))) as Ht by (vm_compute; done).
  destruct (market_solvent (CW:=cosmwasm_ref) (CWS:=cosmwasm_ref_spec) _ _ _ _ _ n 0 Ht Hn) as [(lost & H0 & Hl) Ho].
  assert (lost = 0) as -> by lia. split; [exact (Hl (sample_state 0) eq_refl)|]. exists n. exact Ho.
Defined.
