(* ===== verification/Factory.v ===== *)
(** * The factory contract

    [contracts/factory/src/{contract,state/*}.rs] with the messages of
    [packages/perpswap/src/contracts/factory/entry.rs] and the shutdown
    permissions of [packages/perpswap/src/shutdown.rs].  The factory makes the
    contracts of a market, holds the protocol-wide roles, registers referrers
    and records which parts of which market are shut down.

    A [Map] over market ids is keyed by the text of the id, as the chain
    stores it.  [FactoryEnv] has the block time and the factory's address.
    The [semver] comparison of [migrate] is third-party code and is left
    out. *)

From stdpp Require Import base option gmap strings list sorting.
From Stdlib Require Import ZArith Lia Ascii.
From S2P Require Import Prelude Storage Index Cosmwasm Types Market Time Token Config Trading State PositionToken Entry.
Local Open Scope Z_scope.

(** ** Messages (entry.rs) *)

Abbreviation MarketKey := string (only parsing).

Inductive ContractType :=
| CtFactory | CtLiquidityToken | CtPositionToken | CtMarket | CtCopyTrading | CtCounterTrade | CtVault.

Inductive ShutdownEffect := Disable | Enable.
Inductive ShutdownWallet := KillSwitch | WindDown.

Record FactoryInstantiate := mkFactoryInstantiate {
  fi_market_code_id : string;
  fi_position_token_code_id : string;
  fi_liquidity_token_code_id : string;
  fi_copy_trading_code_id : option string;
  fi_counter_trade_code_id : option string;
  fi_migration_admin : RawAddr;
  fi_owner : RawAddr;
  fi_dao : RawAddr;
  fi_kill_switch : RawAddr;
  fi_wind_down : RawAddr;
  fi_label_suffix : option string;
}.

Record NewMarketParams := mkNewMarketParams {
  nm_market_id : MarketId;
  nm_token : TokenInit;
  nm_config : option ConfigUpdate;
  nm_initial_borrow_fee_rate : Decimal256;
  nm_spot_price : SpotPriceConfig;
  nm_initial_price : option InitialPrice;
}.

Inductive FactoryExecute :=
| AddMarket (new_market : NewMarketParams)
| SetMarketCodeId (code_id : string)
| SetPositionTokenCodeId (code_id : string)
| SetLiquidityTokenCodeId (code_id : string)
| SetOwner (owner : RawAddr)
| SetMigrationAdmin (migration_admin : RawAddr)
| SetDao (dao : RawAddr)
| SetKillSwitch (kill_switch : RawAddr)
| SetWindDown (wind_down : RawAddr)
| TransferAllDaoFees
| Shutdown (markets : list MarketId) (impacts : list ShutdownImpact) (effect : ShutdownEffect)
| RegisterReferrer (addr : RawAddr)
| AddCopyTrading (name description : string)
| AddCounterTrade (market_id : MarketId)
| SetCopyTradingCodeId (code_id : string)
| SetCounterTradeCodeId (code_id : string)
| RemoveOwner.

Definition requires_owner (msg : FactoryExecute) : bool :=
  match msg with
  | AddMarket _ | SetMarketCodeId _ | SetPositionTokenCodeId _ | SetLiquidityTokenCodeId _
  | SetCounterTradeCodeId _ | SetOwner _ | SetMigrationAdmin _ | SetDao _ | SetKillSwitch _
  | SetWindDown _ | TransferAllDaoFees | SetCopyTradingCodeId _ | RemoveOwner => true
  | RegisterReferrer _ | AddCounterTrade _ | Shutdown _ _ _ | AddCopyTrading _ _ => false
  end.

(** [ReplyId] and its numbers. *)
Inductive ReplyId :=
| ReplyMarket | ReplyPositionToken | ReplyLiquidityTokenLp | ReplyLiquidityTokenXlp
| ReplyCopyTrading | ReplyCountertrade.

Definition reply_id_u64 (id : ReplyId) : Z :=
  match id with
  | ReplyMarket => 0 | ReplyPositionToken => 1 | ReplyLiquidityTokenLp => 2
  | ReplyLiquidityTokenXlp => 3 | ReplyCopyTrading => 4 | ReplyCountertrade => 5
  end.

Definition reply_id_try_from (value : Z) : option ReplyId :=
  match value with
  | 0 => Some ReplyMarket | 1 => Some ReplyPositionToken | 2 => Some ReplyLiquidityTokenLp
  | 3 => Some ReplyLiquidityTokenXlp | 4 => Some ReplyCopyTrading | 5 => Some ReplyCountertrade
  | _ => None
  end.

(** What a submessage instantiates, with the message of the new contract. *)
Inductive NewContract :=
| NewMarket (msg : InstantiateMsg)
| NewPositionToken (factory : RawAddr) (market_id : MarketId)
| NewLiquidityToken (factory : RawAddr) (market_id : MarketId) (kind : LiquidityTokenKind)
| NewCopyTrading (leader : RawAddr) (name description : string)
| NewCounterTrade (market admin : RawAddr).

Inductive FactoryMsg :=
| InstantiateSub (reply : ReplyId) (admin : Addr) (code_id : Z) (label : string) (msg : NewContract)
| TransferDaoFeesSub (market : Addr).

Inductive NewContractKind := KindMarket | KindPosition | KindLpToken | KindXlpToken.
Inductive FactoryEvent :=
| EvInstantiate (kind : NewContractKind) (market_id : MarketId) (addr : Addr)
| EvRegisterReferrer (referrer referee : Addr)
| EvInstantiateCopyTrading (leader contract : Addr)
| EvInstantiateCounterTrade (market_id : MarketId) (contract : Addr).

(** ** Storage *)

#[global] Instance ShutdownImpact_eq_dec : EqDecision ShutdownImpact.
Proof. solve_decision. Defined.

(** [enum_iterator::all]. *)
Definition all_impacts : list ShutdownImpact :=
  [NewTrades; ClosePositions; OwnerActions; ImpactDepositLiquidity; ImpactWithdrawLiquidity;
   Staking; Unstaking; TransferPositions; TransferLp; SetPrice; ImpactTransferDaoFees;
   ImpactCrank; ImpactSetManualPrice].

(** [ShutdownImpact::as_bytes]: the key is the name of the variant. *)
Definition impact_bytes (i : ShutdownImpact) : string :=
  match i with
  | NewTrades => "NewTrades" | ClosePositions => "ClosePositions" | OwnerActions => "OwnerActions"
  | ImpactDepositLiquidity => "DepositLiquidity" | ImpactWithdrawLiquidity => "WithdrawLiquidity"
  | Staking => "Staking" | Unstaking => "Unstaking" | TransferPositions => "TransferPositions"
  | TransferLp => "TransferLp" | SetPrice => "SetPrice"
  | ImpactTransferDaoFees => "TransferDaoFees" | ImpactCrank => "Crank"
  | ImpactSetManualPrice => "SetManualPrice"
  end.
Definition impact_try_from_bytes (s : string) : option ShutdownImpact :=
  find (fun i => String.eqb (impact_bytes i) s) all_impacts.

#[global, program] Instance ShutdownImpact_countable : Countable ShutdownImpact :=
  inj_countable impact_bytes impact_try_from_bytes _.
Next Obligation. by intros []. Qed.

(** The protocol-wide roles (state/auth.rs). *)
Record FactoryAuth := mkFactoryAuth {
  OWNER_ADDR : option Addr;
  MIGRATION_ADMIN : option Addr;
  DAO_ADDR : option Addr;
  KILL_SWITCH_ADDR : option Addr;
  WIND_DOWN_ADDR : option Addr;
}.
Definition set_OWNER_ADDR (v : option Addr) (a : FactoryAuth) : FactoryAuth :=
  mkFactoryAuth v (MIGRATION_ADMIN a) (DAO_ADDR a) (KILL_SWITCH_ADDR a) (WIND_DOWN_ADDR a).
Definition set_MIGRATION_ADMIN (v : option Addr) (a : FactoryAuth) : FactoryAuth :=
  mkFactoryAuth (OWNER_ADDR a) v (DAO_ADDR a) (KILL_SWITCH_ADDR a) (WIND_DOWN_ADDR a).
Definition set_DAO_ADDR (v : option Addr) (a : FactoryAuth) : FactoryAuth :=
  mkFactoryAuth (OWNER_ADDR a) (MIGRATION_ADMIN a) v (KILL_SWITCH_ADDR a) (WIND_DOWN_ADDR a).
Definition set_KILL_SWITCH_ADDR (v : option Addr) (a : FactoryAuth) : FactoryAuth :=
  mkFactoryAuth (OWNER_ADDR a) (MIGRATION_ADMIN a) (DAO_ADDR a) v (WIND_DOWN_ADDR a).
Definition set_WIND_DOWN_ADDR (v : option Addr) (a : FactoryAuth) : FactoryAuth :=
  mkFactoryAuth (OWNER_ADDR a) (MIGRATION_ADMIN a) (DAO_ADDR a) (KILL_SWITCH_ADDR a) v.

(** The code ids of the contracts the factory makes, and the suffix of their labels. *)
Record FactoryCodes := mkFactoryCodes {
  MARKET_CODE_ID : option Z;
  POSITION_TOKEN_CODE_ID : option Z;
  LIQUIDITY_TOKEN_CODE_ID : option Z;
  COPY_TRADING_CODE_ID : option Z;
  COUNTER_TRADE_CODE_ID : option Z;
  LABEL_SUFFIX : option string;
}.
Definition set_MARKET_CODE_ID (v : option Z) (c : FactoryCodes) : FactoryCodes :=
  mkFactoryCodes v (POSITION_TOKEN_CODE_ID c) (LIQUIDITY_TOKEN_CODE_ID c) (COPY_TRADING_CODE_ID c)
    (COUNTER_TRADE_CODE_ID c) (LABEL_SUFFIX c).
Definition set_POSITION_TOKEN_CODE_ID (v : option Z) (c : FactoryCodes) : FactoryCodes :=
  mkFactoryCodes (MARKET_CODE_ID c) v (LIQUIDITY_TOKEN_CODE_ID c) (COPY_TRADING_CODE_ID c)
    (COUNTER_TRADE_CODE_ID c) (LABEL_SUFFIX c).
Definition set_LIQUIDITY_TOKEN_CODE_ID (v : option Z) (c : FactoryCodes) : FactoryCodes :=
  mkFactoryCodes (MARKET_CODE_ID c) (POSITION_TOKEN_CODE_ID c) v (COPY_TRADING_CODE_ID c)
    (COUNTER_TRADE_CODE_ID c) (LABEL_SUFFIX c).
Definition set_COPY_TRADING_CODE_ID (v : option Z) (c : FactoryCodes) : FactoryCodes :=
  mkFactoryCodes (MARKET_CODE_ID c) (POSITION_TOKEN_CODE_ID c) (LIQUIDITY_TOKEN_CODE_ID c) v
    (COUNTER_TRADE_CODE_ID c) (LABEL_SUFFIX c).
Definition set_COUNTER_TRADE_CODE_ID (v : option Z) (c : FactoryCodes) : FactoryCodes :=
  mkFactoryCodes (MARKET_CODE_ID c) (POSITION_TOKEN_CODE_ID c) (LIQUIDITY_TOKEN_CODE_ID c)
    (COPY_TRADING_CODE_ID c) v (LABEL_SUFFIX c).
Definition set_LABEL_SUFFIX (v : option string) (c : FactoryCodes) : FactoryCodes :=
  mkFactoryCodes (MARKET_CODE_ID c) (POSITION_TOKEN_CODE_ID c) (LIQUIDITY_TOKEN_CODE_ID c)
    (COPY_TRADING_CODE_ID c) (COUNTER_TRADE_CODE_ID c) v.

(** The contracts of the markets (state/{market,position_token,liquidity_token,countertrade}.rs). *)
Record FactoryMarkets := mkFactoryMarkets {
  MARKET_ADDRS : gmap MarketKey Addr;
  MARKET_LAST_ADDED : option Timestamp;
  POSITION_TOKEN_ADDRS : gmap MarketKey Addr;
  LP_ADDRS : gmap MarketKey Addr;
  XLP_ADDRS : gmap MarketKey Addr;
  LP_ADDRS_REVERSE : gmap Addr MarketKey;
  XLP_ADDRS_REVERSE : gmap Addr MarketKey;
  COUNTER_TRADE_ADDRS : gmap MarketKey Addr;
}.
Definition set_MARKET_ADDRS (v : gmap MarketKey Addr) (m : FactoryMarkets) : FactoryMarkets :=
  mkFactoryMarkets v (MARKET_LAST_ADDED m) (POSITION_TOKEN_ADDRS m) (LP_ADDRS m) (XLP_ADDRS m)
    (LP_ADDRS_REVERSE m) (XLP_ADDRS_REVERSE m) (COUNTER_TRADE_ADDRS m).
Definition set_MARKET_LAST_ADDED (v : option Timestamp) (m : FactoryMarkets) : FactoryMarkets :=
  mkFactoryMarkets (MARKET_ADDRS m) v (POSITION_TOKEN_ADDRS m) (LP_ADDRS m) (XLP_ADDRS m)
    (LP_ADDRS_REVERSE m) (XLP_ADDRS_REVERSE m) (COUNTER_TRADE_ADDRS m).
Definition set_POSITION_TOKEN_ADDRS (v : gmap MarketKey Addr) (m : FactoryMarkets) : FactoryMarkets :=
  mkFactoryMarkets (MARKET_ADDRS m) (MARKET_LAST_ADDED m) v (LP_ADDRS m) (XLP_ADDRS m)
    (LP_ADDRS_REVERSE m) (XLP_ADDRS_REVERSE m) (COUNTER_TRADE_ADDRS m).
Definition set_LP_ADDRS (v : gmap MarketKey Addr) (m : FactoryMarkets) : FactoryMarkets :=
  mkFactoryMarkets (MARKET_ADDRS m) (MARKET_LAST_ADDED m) (POSITION_TOKEN_ADDRS m) v (XLP_ADDRS m)
    (LP_ADDRS_REVERSE m) (XLP_ADDRS_REVERSE m) (COUNTER_TRADE_ADDRS m).
Definition set_XLP_ADDRS (v : gmap MarketKey Addr) (m : FactoryMarkets) : FactoryMarkets :=
  mkFactoryMarkets (MARKET_ADDRS m) (MARKET_LAST_ADDED m) (POSITION_TOKEN_ADDRS m) (LP_ADDRS m) v
    (LP_ADDRS_REVERSE m) (XLP_ADDRS_REVERSE m) (COUNTER_TRADE_ADDRS m).
Definition set_LP_ADDRS_REVERSE (v : gmap Addr MarketKey) (m : FactoryMarkets) : FactoryMarkets :=
  mkFactoryMarkets (MARKET_ADDRS m) (MARKET_LAST_ADDED m) (POSITION_TOKEN_ADDRS m) (LP_ADDRS m)
    (XLP_ADDRS m) v (XLP_ADDRS_REVERSE m) (COUNTER_TRADE_ADDRS m).
Definition set_XLP_ADDRS_REVERSE (v : gmap Addr MarketKey) (m : FactoryMarkets) : FactoryMarkets :=
  mkFactoryMarkets (MARKET_ADDRS m) (MARKET_LAST_ADDED m) (POSITION_TOKEN_ADDRS m) (LP_ADDRS m)
    (XLP_ADDRS m) (LP_ADDRS_REVERSE m) v (COUNTER_TRADE_ADDRS m).
Definition set_COUNTER_TRADE_ADDRS (v : gmap MarketKey Addr) (m : FactoryMarkets) : FactoryMarkets :=
  mkFactoryMarkets (MARKET_ADDRS m) (MARKET_LAST_ADDED m) (POSITION_TOKEN_ADDRS m) (LP_ADDRS m)
    (XLP_ADDRS m) (LP_ADDRS_REVERSE m) (XLP_ADDRS_REVERSE m) v.

(** The referrals (state/referrer.rs). *)
Record FactoryReferrals := mkFactoryReferrals {
  (** the raw keys of [make_referrer_key] *)
  REFERRERS : gmap Addr Addr;
  REFEREES_REVERSE_MAP : gmap (Addr * Addr) unit;
  (** the raw keys of [make_referee_count_key], with the number their text is *)
  REFEREE_COUNTS : gmap Addr Z;
  REFEREE_COUNT_REVERSE_MAP : gmap (Z * Addr) unit;
}.
Definition set_REFERRERS (v : gmap Addr Addr) (r : FactoryReferrals) : FactoryReferrals :=
  mkFactoryReferrals v (REFEREES_REVERSE_MAP r) (REFEREE_COUNTS r) (REFEREE_COUNT_REVERSE_MAP r).
Definition set_REFEREES_REVERSE_MAP (v : gmap (Addr * Addr) unit) (r : FactoryReferrals) : FactoryReferrals :=
  mkFactoryReferrals (REFERRERS r) v (REFEREE_COUNTS r) (REFEREE_COUNT_REVERSE_MAP r).
Definition set_REFEREE_COUNTS (v : gmap Addr Z) (r : FactoryReferrals) : FactoryReferrals :=
  mkFactoryReferrals (REFERRERS r) (REFEREES_REVERSE_MAP r) v (REFEREE_COUNT_REVERSE_MAP r).
Definition set_REFEREE_COUNT_REVERSE_MAP (v : gmap (Z * Addr) unit) (r : FactoryReferrals) : FactoryReferrals :=
  mkFactoryReferrals (REFERRERS r) (REFEREES_REVERSE_MAP r) (REFEREE_COUNTS r) v.

(** The copy trading contracts (state/copy_trading.rs). *)
Record FactoryCopyTrading := mkFactoryCopyTrading {
  COPY_TRADING_ADDRS : gmap (Addr * Addr) Z;
  COPY_TRADING_ADDRS_REVERSE : gmap Z (Addr * Addr);
  COPY_TRADING_TOTAL_CONTRACTS : option Z;
  COPY_TRADING_LAST_ADDED : option Timestamp;
}.
Definition set_COPY_TRADING_ADDRS (v : gmap (Addr * Addr) Z) (t : FactoryCopyTrading) : FactoryCopyTrading :=
  mkFactoryCopyTrading v (COPY_TRADING_ADDRS_REVERSE t) (COPY_TRADING_TOTAL_CONTRACTS t)
    (COPY_TRADING_LAST_ADDED t).
Definition set_COPY_TRADING_ADDRS_REVERSE (v : gmap Z (Addr * Addr)) (t : FactoryCopyTrading) : FactoryCopyTrading :=
  mkFactoryCopyTrading (COPY_TRADING_ADDRS t) v (COPY_TRADING_TOTAL_CONTRACTS t)
    (COPY_TRADING_LAST_ADDED t).
Definition set_COPY_TRADING_TOTAL_CONTRACTS (v : option Z) (t : FactoryCopyTrading) : FactoryCopyTrading :=
  mkFactoryCopyTrading (COPY_TRADING_ADDRS t) (COPY_TRADING_ADDRS_REVERSE t) v
    (COPY_TRADING_LAST_ADDED t).
Definition set_COPY_TRADING_LAST_ADDED (v : option Timestamp) (t : FactoryCopyTrading) : FactoryCopyTrading :=
  mkFactoryCopyTrading (COPY_TRADING_ADDRS t) (COPY_TRADING_ADDRS_REVERSE t)
    (COPY_TRADING_TOTAL_CONTRACTS t) v.

(** What a reply needs to know: the market and the migration admin, the migration admin and
    the leader, the migration admin and the market (state/reply.rs). *)
Record FactoryReplies := mkFactoryReplies {
  INSTANTIATE_MARKET : option (MarketId * Addr);
  INSTANTIATE_COPY_TRADING : option (Addr * Addr);
  INSTANTIATE_COUNTERTRADE : option (Addr * MarketId);
}.
Definition set_INSTANTIATE_MARKET (v : option (MarketId * Addr)) (r : FactoryReplies) : FactoryReplies :=
  mkFactoryReplies v (INSTANTIATE_COPY_TRADING r) (INSTANTIATE_COUNTERTRADE r).
Definition set_INSTANTIATE_COPY_TRADING (v : option (Addr * Addr)) (r : FactoryReplies) : FactoryReplies :=
  mkFactoryReplies (INSTANTIATE_MARKET r) v (INSTANTIATE_COUNTERTRADE r).
Definition set_INSTANTIATE_COUNTERTRADE (v : option (Addr * MarketId)) (r : FactoryReplies) : FactoryReplies :=
  mkFactoryReplies (INSTANTIATE_MARKET r) (INSTANTIATE_COPY_TRADING r) v.

Record FactoryStore := mkFactoryStore {
  fs_auth : FactoryAuth;
  fs_codes : FactoryCodes;
  ALL_CONTRACTS : gmap Addr ContractType;
  fs_markets : FactoryMarkets;
  SHUTDOWNS : gmap (Addr * ShutdownImpact) unit;
  fs_referrals : FactoryReferrals;
  fs_copy_trading : FactoryCopyTrading;
  fs_replies : FactoryReplies;
}.
Definition set_fs_auth (v : FactoryAuth) (s : FactoryStore) : FactoryStore :=
  mkFactoryStore v (fs_codes s) (ALL_CONTRACTS s) (fs_markets s) (SHUTDOWNS s) (fs_referrals s)
    (fs_copy_trading s) (fs_replies s).
Definition set_fs_codes (v : FactoryCodes) (s : FactoryStore) : FactoryStore :=
  mkFactoryStore (fs_auth s) v (ALL_CONTRACTS s) (fs_markets s) (SHUTDOWNS s) (fs_referrals s)
    (fs_copy_trading s) (fs_replies s).
Definition set_ALL_CONTRACTS (v : gmap Addr ContractType) (s : FactoryStore) : FactoryStore :=
  mkFactoryStore (fs_auth s) (fs_codes s) v (fs_markets s) (SHUTDOWNS s) (fs_referrals s)
    (fs_copy_trading s) (fs_replies s).
Definition set_fs_markets (v : FactoryMarkets) (s : FactoryStore) : FactoryStore :=
  mkFactoryStore (fs_auth s) (fs_codes s) (ALL_CONTRACTS s) v (SHUTDOWNS s) (fs_referrals s)
    (fs_copy_trading s) (fs_replies s).
Definition set_SHUTDOWNS (v : gmap (Addr * ShutdownImpact) unit) (s : FactoryStore) : FactoryStore :=
  mkFactoryStore (fs_auth s) (fs_codes s) (ALL_CONTRACTS s) (fs_markets s) v (fs_referrals s)
    (fs_copy_trading s) (fs_replies s).
Definition set_fs_referrals (v : FactoryReferrals) (s : FactoryStore) : FactoryStore :=
  mkFactoryStore (fs_auth s) (fs_codes s) (ALL_CONTRACTS s) (fs_markets s) (SHUTDOWNS s) v
    (fs_copy_trading s) (fs_replies s).
Definition set_fs_copy_trading (v : FactoryCopyTrading) (s : FactoryStore) : FactoryStore :=
  mkFactoryStore (fs_auth s) (fs_codes s) (ALL_CONTRACTS s) (fs_markets s) (SHUTDOWNS s)
    (fs_referrals s) v (fs_replies s).
Definition set_fs_replies (v : FactoryReplies) (s : FactoryStore) : FactoryStore :=
  mkFactoryStore (fs_auth s) (fs_codes s) (ALL_CONTRACTS s) (fs_markets s) (SHUTDOWNS s)
    (fs_referrals s) (fs_copy_trading s) v.

(** The storage with the response being built. *)
Record FactoryCtx := mkFactoryCtx {
  fstore : FactoryStore;
  fevents : list FactoryEvent;
  fmessages : list FactoryMsg;
}.


Definition factory_handler (A : Type) : Type := handler FactoryCtx error A.
Definition mod_store (f : FactoryStore -> FactoryStore) : factory_handler unit :=
  hmod (fun c => mkFactoryCtx (f (fstore c)) (fevents c) (fmessages c)).
Definition mod_auth (f : FactoryAuth -> FactoryAuth) : factory_handler unit :=
  mod_store (fun s => set_fs_auth (f (fs_auth s)) s).
Definition mod_codes (f : FactoryCodes -> FactoryCodes) : factory_handler unit :=
  mod_store (fun s => set_fs_codes (f (fs_codes s)) s).
Definition mod_markets (f : FactoryMarkets -> FactoryMarkets) : factory_handler unit :=
  mod_store (fun s => set_fs_markets (f (fs_markets s)) s).
Definition mod_referrals (f : FactoryReferrals -> FactoryReferrals) : factory_handler unit :=
  mod_store (fun s => set_fs_referrals (f (fs_referrals s)) s).
Definition mod_copy_trading (f : FactoryCopyTrading -> FactoryCopyTrading) : factory_handler unit :=
  mod_store (fun s => set_fs_copy_trading (f (fs_copy_trading s)) s).
Definition mod_replies (f : FactoryReplies -> FactoryReplies) : factory_handler unit :=
  mod_store (fun s => set_fs_replies (f (fs_replies s)) s).
Definition factory_event (e : FactoryEvent) : factory_handler unit :=
  hmod (fun c => mkFactoryCtx (fstore c) (fevents c ++ [e]) (fmessages c)).
Definition factory_message (m : FactoryMsg) : factory_handler unit :=
  hmod (fun c => mkFactoryCtx (fstore c) (fevents c) (fmessages c ++ [m])).

(** [Item::load]. *)
Definition load_item {A} (f : FactoryStore -> option A) : factory_handler A :=
  hask (fun c => std (f (fstore c))).

Definition register_contract (addr : Addr) (ct : ContractType) : factory_handler unit :=
  mod_store (fun s => set_ALL_CONTRACTS (<[addr := ct]> (ALL_CONTRACTS s)) s).

(** ** state/*.rs *)

Definition get_owner (s : FactoryStore) : option Addr := OWNER_ADDR (fs_auth s).
Definition get_label_suffix (s : FactoryStore) : string := default ""%string (LABEL_SUFFIX (fs_codes s)).
Definition get_market_addr (s : FactoryStore) (id : MarketId) : res Addr :=
  std (MARKET_ADDRS (fs_markets s) !! mid_encoded id).

Definition save_market_addr (now : Timestamp) (id : MarketId) (addr : Addr) : factory_handler unit :=
  mod_markets (fun m => set_MARKET_ADDRS (<[mid_encoded id := addr]> (MARKET_ADDRS m)) m);;;
  register_contract addr CtMarket;;;
  mod_markets (set_MARKET_LAST_ADDED (Some now)).

Definition position_token_addr (s : FactoryStore) (id : MarketId) : res Addr :=
  std (POSITION_TOKEN_ADDRS (fs_markets s) !! mid_encoded id).
Definition save_position_token_addr (id : MarketId) (addr : Addr) : factory_handler unit :=
  mod_markets (fun m => set_POSITION_TOKEN_ADDRS (<[mid_encoded id := addr]> (POSITION_TOKEN_ADDRS m)) m);;;
  register_contract addr CtPositionToken.

Definition addrs_map (kind : LiquidityTokenKind) (m : FactoryMarkets) : gmap MarketKey Addr :=
  match kind with KindLp => LP_ADDRS m | KindXlp => XLP_ADDRS m end.
Definition set_addrs_map (kind : LiquidityTokenKind) (v : gmap MarketKey Addr) (m : FactoryMarkets) :=
  match kind with KindLp => set_LP_ADDRS v m | KindXlp => set_XLP_ADDRS v m end.
Definition addrs_map_rev (kind : LiquidityTokenKind) (m : FactoryMarkets) : gmap Addr MarketKey :=
  match kind with KindLp => LP_ADDRS_REVERSE m | KindXlp => XLP_ADDRS_REVERSE m end.
Definition set_addrs_map_rev (kind : LiquidityTokenKind) (v : gmap Addr MarketKey) (m : FactoryMarkets) :=
  match kind with KindLp => set_LP_ADDRS_REVERSE v m | KindXlp => set_XLP_ADDRS_REVERSE v m end.

Definition liquidity_token_addr (s : FactoryStore) (id : MarketId) (kind : LiquidityTokenKind) : res Addr :=
  std (addrs_map kind (fs_markets s) !! mid_encoded id).
Definition save_liquidity_token_addr (id : MarketId) (addr : Addr) (kind : LiquidityTokenKind) :
    factory_handler unit :=
  existing <~ hget (fun c => addrs_map kind (fs_markets (fstore c)) !! mid_encoded id);
  hensure (negb (is_some existing)) (PerpError AddressAlreadyExists DomFactory None);;;
  mod_markets (fun m => set_addrs_map kind (<[mid_encoded id := addr]> (addrs_map kind m)) m);;;
  mod_markets (fun m => set_addrs_map_rev kind (<[addr := mid_encoded id]> (addrs_map_rev kind m)) m);;;
  register_contract addr CtLiquidityToken.

(** [CopyTradingId::next] panics on overflow. *)
Definition store_new_copy_trading_contract (leader contract : Addr) : factory_handler unit :=
  contract_index <~ hget (fun c => default 0 (COPY_TRADING_TOTAL_CONTRACTS (fs_copy_trading (fstore c))));
  mod_copy_trading (fun t =>
    set_COPY_TRADING_ADDRS (<[(leader, contract) := contract_index]> (COPY_TRADING_ADDRS t)) t);;;
  mod_copy_trading (fun t =>
    set_COPY_TRADING_ADDRS_REVERSE (<[contract_index := (leader, contract)]> (COPY_TRADING_ADDRS_REVERSE t)) t);;;
  new_total <~ hlift (panics "attempt to add with overflow" (fits u64_ok (contract_index + 1)));
  mod_copy_trading (set_COPY_TRADING_TOTAL_CONTRACTS (Some new_total)).

(** *** Referrers (state/referrer.rs) *)

Definition u32_ok (z : Z) : bool := (0 <=? z) && (z <=? 2 ^ 32 - 1).

Definition set_referrer_for (referee referrer : Addr) : factory_handler unit :=
  registered <~ hget (fun c => REFERRERS (fs_referrals (fstore c)) !! referee);
  hensure (negb (is_some registered)) (AnyhowError "Cannot register a new referrer");;;
  mod_referrals (fun r => set_REFERRERS (<[referee := referrer]> (REFERRERS r)) r);;;
  mod_referrals (fun r =>
    set_REFEREES_REVERSE_MAP (<[(referrer, referee) := tt]> (REFEREES_REVERSE_MAP r)) r);;;
  old <~ hget (fun c => REFEREE_COUNTS (fs_referrals (fstore c)) !! referrer);
  count <~ match old with
           | None => hret 1
           | Some old_count =>
               mod_referrals (fun r => set_REFEREE_COUNT_REVERSE_MAP
                 (delete (old_count, referrer) (REFEREE_COUNT_REVERSE_MAP r)) r);;;
               hlift (panics "attempt to add with overflow" (fits u32_ok (old_count + 1)))
           end;
  mod_referrals (fun r => set_REFEREE_COUNTS (<[referrer := count]> (REFEREE_COUNTS r)) r);;;
  mod_referrals (fun r => set_REFEREE_COUNT_REVERSE_MAP
    (<[(count, referrer) := tt]> (REFEREE_COUNT_REVERSE_MAP r)) r).

(** *** Shutdown (shutdown.rs, state/shutdown.rs) *)

Definition can_perform (i : ShutdownImpact) (w : ShutdownWallet) : bool :=
  match w, i with
  | KillSwitch, _ => true
  | WindDown, NewTrades => true
  | WindDown, ClosePositions => false
  | WindDown, OwnerActions => false
  | WindDown, ImpactDepositLiquidity => true
  | WindDown, ImpactWithdrawLiquidity => false
  | WindDown, Staking => true
  | WindDown, Unstaking => false
  | WindDown, TransferPositions => false
  | WindDown, TransferLp => false
  | WindDown, SetPrice => false
  | WindDown, ImpactTransferDaoFees => false
  | WindDown, ImpactCrank => false
  | WindDown, ImpactSetManualPrice => false
  end.
Definition ensure_can_perform (i : ShutdownImpact) (w : ShutdownWallet) : res unit :=
  ensure (can_perform i w) (perp_auth DomFactory).

Definition is_disabled (s : FactoryStore) (market_addr : Addr) (i : ShutdownImpact) : bool :=
  is_some (SHUTDOWNS s !! (market_addr, i)).

(** The body of the loop over the impacts; the two cases with nothing to do
    ask no permission. *)
Definition shutdown_impact (market_addr : Addr) (effect : ShutdownEffect) (w : ShutdownWallet)
    (i : ShutdownImpact) : factory_handler unit :=
  disabled <~ hget (fun c => is_disabled (fstore c) market_addr i);
  match effect, disabled with
  | Disable, true | Enable, false => hret tt
  | Disable, false =>
      hlift (ensure_can_perform i w);;;
      mod_store (fun s => set_SHUTDOWNS (<[(market_addr, i) := tt]> (SHUTDOWNS s)) s)
  | Enable, true =>
      hlift (ensure_can_perform i w);;;
      mod_store (fun s => set_SHUTDOWNS (delete (market_addr, i) (SHUTDOWNS s)) s)
  end.

Fixpoint shutdown_market (market_addr : Addr) (effect : ShutdownEffect) (w : ShutdownWallet)
    (impacts : list ShutdownImpact) : factory_handler unit :=
  match impacts with
  | [] => hret tt
  | i :: impacts =>
      shutdown_impact market_addr effect w i;;; shutdown_market market_addr effect w impacts
  end.

Fixpoint shutdown_markets (market_addrs : list Addr) (effect : ShutdownEffect) (w : ShutdownWallet)
    (impacts : list ShutdownImpact) : factory_handler unit :=
  match market_addrs with
  | [] => hret tt
  | a :: market_addrs =>
      shutdown_market a effect w (if is_empty impacts then all_impacts else impacts);;;
      shutdown_markets market_addrs effect w impacts
  end.

(** The markets in key order, and those of a list of ids. *)
Definition all_market_addrs (s : FactoryStore) : list Addr :=
  omap (fun k => MARKET_ADDRS (fs_markets s) !! k) (keys_after None (MARKET_ADDRS (fs_markets s))).
Fixpoint load_market_addrs (s : FactoryStore) (ids : list MarketId) : res (list Addr) :=
  match ids with
  | [] => Ok []
  | id :: ids => a <- get_market_addr s id; l <- load_market_addrs s ids; Ok (a :: l)
  end.

Definition shutdown (sender : Addr) (markets : list MarketId) (impacts : list ShutdownImpact)
    (effect : ShutdownEffect) : factory_handler unit :=
  kill_switch <~ load_item (fun s => KILL_SWITCH_ADDR (fs_auth s));
  wind_down <~ load_item (fun s => WIND_DOWN_ADDR (fs_auth s));
  w <~ (if String.eqb kill_switch sender then hret KillSwitch
        else if String.eqb wind_down sender then hret WindDown
        else herr (perp_auth DomFactory));
  market_addrs <~ hask (fun c => if is_empty markets then Ok (all_market_addrs (fstore c))
                                 else load_market_addrs (fstore c) markets);
  shutdown_markets market_addrs effect w impacts.

(** ** Entry points (contract.rs) *)

Record FactoryEnv := mkFactoryEnv { fe_now : Timestamp; fe_contract : Addr }.

Section Entry.
Context {CW : CosmwasmStd}.
Context (env : FactoryEnv).

Definition code_id_parse (s : string) : res Z := std (parse_u64 s).
Definition code_id_parse_opt (s : option string) : res (option Z) :=
  match s with None => Ok None | Some s => n <- code_id_parse s; Ok (Some n) end.

Definition factory_empty : FactoryStore :=
  mkFactoryStore (mkFactoryAuth None None None None None)
    (mkFactoryCodes None None None None None None) ∅ (mkFactoryMarkets ∅ None ∅ ∅ ∅ ∅ ∅ ∅) ∅
    (mkFactoryReferrals ∅ ∅ ∅ ∅) (mkFactoryCopyTrading ∅ ∅ None None) (mkFactoryReplies None None None).

Definition factory_instantiate (msg : FactoryInstantiate) : res FactoryStore :=
  market <- code_id_parse (fi_market_code_id msg);
  position_token <- code_id_parse (fi_position_token_code_id msg);
  liquidity_token <- code_id_parse (fi_liquidity_token_code_id msg);
  owner <- std (addr_validate (fi_owner msg));
  dao <- std (addr_validate (fi_dao msg));
  migration_admin <- std (addr_validate (fi_migration_admin msg));
  kill_switch <- std (addr_validate (fi_kill_switch msg));
  wind_down <- std (addr_validate (fi_wind_down msg));
  copy_trading <- code_id_parse_opt (fi_copy_trading_code_id msg);
  counter_trade <- code_id_parse_opt (fi_counter_trade_code_id msg);
  Ok (set_fs_auth (mkFactoryAuth (Some owner) (Some migration_admin) (Some dao) (Some kill_switch)
                     (Some wind_down))
       (set_fs_codes (mkFactoryCodes (Some market) (Some position_token) (Some liquidity_token)
                        copy_trading counter_trade (Some (default ""%string (fi_label_suffix msg))))
         (set_ALL_CONTRACTS {[ fe_contract env := CtFactory ]} factory_empty))).

(** A validated address for a role. *)
Definition set_role (set : option Addr -> FactoryAuth -> FactoryAuth) (addr : RawAddr) :
    factory_handler unit :=
  a <~ hlift (std (addr_validate addr)); mod_auth (set (Some a)).
Definition set_code_id (set : option Z -> FactoryCodes -> FactoryCodes) (code_id : string) :
    factory_handler unit :=
  n <~ hlift (code_id_parse code_id); mod_codes (set (Some n)).

Definition add_market (p : NewMarketParams) : factory_handler unit :=
  existing <~ hget (fun c => get_market_addr (fstore c) (nm_market_id p));
  hensure (negb (is_ok existing)) (AnyhowError "market already exists");;;
  migration_admin <~ load_item (fun s => MIGRATION_ADMIN (fs_auth s));
  mod_replies (set_INSTANTIATE_MARKET (Some (nm_market_id p, migration_admin)));;;
  label_suffix <~ hget (fun c => get_label_suffix (fstore c));
  code_id <~ load_item (fun s => MARKET_CODE_ID (fs_codes s));
  factory_message (InstantiateSub ReplyMarket migration_admin code_id
    ("Levana Perps Market - " ++ mid_encoded (nm_market_id p) ++ label_suffix)
    (NewMarket (mkInstantiateMsg (fe_contract env) (nm_config p) (nm_spot_price p)
                  (nm_initial_price p) (nm_market_id p) (nm_token p) (nm_initial_borrow_fee_rate p)))).

Definition add_counter_trade (market_id : MarketId) : factory_handler unit :=
  market_addr <~ hask (fun c => of_option (AnyhowError "No market id found")
                                  (MARKET_ADDRS (fs_markets (fstore c)) !! mid_encoded market_id));
  existing <~ hget (fun c => COUNTER_TRADE_ADDRS (fs_markets (fstore c)) !! mid_encoded market_id);
  hensure (negb (is_some existing)) (AnyhowError "Countertrade contract already exists");;;
  migration_admin <~ load_item (fun s => MIGRATION_ADMIN (fs_auth s));
  mod_replies (set_INSTANTIATE_COUNTERTRADE (Some (migration_admin, market_id)));;;
  label_suffix <~ hget (fun c => get_label_suffix (fstore c));
  code_id <~ hask (fun c => of_option (AnyhowError "countertrade code id is not stored yet")
                              (COUNTER_TRADE_CODE_ID (fs_codes (fstore c))));
  factory_message (InstantiateSub ReplyCountertrade migration_admin code_id
    ("Levana Perps Countertrade - " ++ mid_encoded market_id ++ label_suffix)
    (NewCounterTrade market_addr (fe_contract env))).

Definition add_copy_trading (leader : Addr) (name description : string) : factory_handler unit :=
  migration_admin <~ load_item (fun s => MIGRATION_ADMIN (fs_auth s));
  mod_replies (set_INSTANTIATE_COPY_TRADING (Some (migration_admin, leader)));;;
  label_suffix <~ hget (fun c => get_label_suffix (fstore c));
  code_id <~ hask (fun c => of_option (AnyhowError "copy_trading code id is not stored yet")
                              (COPY_TRADING_CODE_ID (fs_codes (fstore c))));
  factory_message (InstantiateSub ReplyCopyTrading migration_admin code_id
    ("Levana Perps Copy Trading - " ++ label_suffix) (NewCopyTrading leader name description)).

Fixpoint transfer_dao_fees_all (addrs : list Addr) : factory_handler unit :=
  match addrs with
  | [] => hret tt
  | a :: addrs => factory_message (TransferDaoFeesSub a);;; transfer_dao_fees_all addrs
  end.

Definition register_referrer (sender : Addr) (addr : RawAddr) : factory_handler unit :=
  referrer <~ hlift (std (addr_validate addr));
  hensure (negb (String.eqb sender referrer))
    (AnyhowError "You cannot set yourself as your own referrer");;;
  set_referrer_for sender referrer;;;
  factory_event (EvRegisterReferrer referrer sender).

(** [info.context("Cannot call this method via sudo")]. *)
Definition sent_by (info : option Addr) : res Addr :=
  of_option (AnyhowError "Cannot call this method via sudo") info.

Definition execute_msg (info : option Addr) (msg : FactoryExecute) : factory_handler unit :=
  match msg with
  | AddMarket p => add_market p
  | AddCounterTrade market_id => add_counter_trade market_id
  | AddCopyTrading name description =>
      leader <~ hlift (sent_by info); add_copy_trading leader name description
  | SetMarketCodeId code_id => set_code_id set_MARKET_CODE_ID code_id
  | SetPositionTokenCodeId code_id => set_code_id set_POSITION_TOKEN_CODE_ID code_id
  | SetLiquidityTokenCodeId code_id => set_code_id set_LIQUIDITY_TOKEN_CODE_ID code_id
  | SetCopyTradingCodeId code_id => set_code_id set_COPY_TRADING_CODE_ID code_id
  | SetCounterTradeCodeId code_id => set_code_id set_COUNTER_TRADE_CODE_ID code_id
  | SetOwner owner => set_role set_OWNER_ADDR owner
  | SetMigrationAdmin migration_admin => set_role set_MIGRATION_ADMIN migration_admin
  | SetDao dao => set_role set_DAO_ADDR dao
  | SetKillSwitch kill_switch => set_role set_KILL_SWITCH_ADDR kill_switch
  | SetWindDown wind_down => set_role set_WIND_DOWN_ADDR wind_down
  | TransferAllDaoFees =>
      addrs <~ hget (fun c => all_market_addrs (fstore c)); transfer_dao_fees_all addrs
  | Shutdown markets impacts effect =>
      sender <~ hlift (sent_by info); shutdown sender markets impacts effect
  | RegisterReferrer addr => sender <~ hlift (sent_by info); register_referrer sender addr
  | RemoveOwner => mod_auth (set_OWNER_ADDR None)
  end.

(** A handler on the stored data, with an empty response. *)
Definition factory_run (h : factory_handler unit) (s : FactoryStore) : res FactoryCtx :=
  '(_, c) <- h (mkFactoryCtx s [] []); Ok c.

Definition factory_execute (sender : Addr) (msg : FactoryExecute) (s : FactoryStore) : res FactoryCtx :=
  _ <- ensure (negb (requires_owner msg && negb (bool_decide (Some sender = get_owner s))))
         (perp_auth DomDefault);
  factory_run (execute_msg (Some sender) msg) s.

Definition factory_sudo (msg : FactoryExecute) (s : FactoryStore) : res FactoryCtx :=
  _ <- ensure (negb (negb (requires_owner msg) || is_some (get_owner s))) (perp_auth DomDefault);
  factory_run (execute_msg None msg) s.

(** *** Replies *)

(** A [cosmwasm_std::Event]: its type and its attributes. *)
Record RawEvent := mkRawEvent { ev_ty : string; ev_attributes : list (string * string) }.
Inductive ReplyResult := ReplyOk (events : list RawEvent) | ReplyErr (msg : string).

Definition extract_attribute (ty key : string) (events : list RawEvent) : option string :=
  ev ← find (fun e => String.eqb (ev_ty e) ty) events;
  attr ← find (fun a => String.eqb a.1 key) (ev_attributes ev);
  Some attr.2.

Definition dquote : ascii := ascii_of_nat 34.
Definition unquote (addr : string) : string :=
  default addr (match addr with
                | String c s => if Ascii.eqb c dquote then strip_suffix dquote s else None
                | EmptyString => None
                end).

Fixpoint extract_first (keys : list (string * string)) (events : list RawEvent) : res Addr :=
  match keys with
  | [] => Err (AnyhowError "Couldn't find instantiated address")
  | (ty, key) :: keys =>
      match extract_attribute ty key events with
      | Some addr => std (addr_validate (unquote addr))
      | None => extract_first keys events
      end
  end.
Definition extract_instantiated_addr (events : list RawEvent) : res Addr :=
  extract_first
    [("cosmwasm.wasm.v1.EventContractInstantiated", "contract_address");
     ("instantiate", "_contract_address"); ("instantiate", "_contract_addr");
     ("wasm", "contract_address"); ("instantiate_contract", "contract_address")]%string events.

(** The market whose contracts are being made. *)
Definition reply_market : factory_handler (MarketId * Addr) :=
  load_item (fun s => INSTANTIATE_MARKET (fs_replies s)).

Definition reply_instantiate_market (addr : Addr) : factory_handler unit :=
  '(market_id, migration_admin) <~ reply_market;
  save_market_addr (fe_now env) market_id addr;;;
  factory_event (EvInstantiate KindMarket market_id addr);;;
  label_suffix <~ hget (fun c => get_label_suffix (fstore c));
  let factory := fe_contract env in
  let label name := ("Levana Perps " ++ name ++ " Token - " ++ mid_encoded market_id ++ label_suffix)%string in
  position_code <~ load_item (fun s => POSITION_TOKEN_CODE_ID (fs_codes s));
  factory_message (InstantiateSub ReplyPositionToken migration_admin position_code (label "Position"%string)
    (NewPositionToken factory market_id));;;
  liquidity_code <~ load_item (fun s => LIQUIDITY_TOKEN_CODE_ID (fs_codes s));
  factory_message (InstantiateSub ReplyLiquidityTokenLp migration_admin liquidity_code (label "LP"%string)
    (NewLiquidityToken factory market_id KindLp));;;
  factory_message (InstantiateSub ReplyLiquidityTokenXlp migration_admin liquidity_code (label "xLP"%string)
    (NewLiquidityToken factory market_id KindXlp)).

Definition reply_handler (id : ReplyId) (addr : Addr) : factory_handler unit :=
  match id with
  | ReplyMarket => reply_instantiate_market addr
  | ReplyPositionToken =>
      '(market_id, _) <~ reply_market;
      save_position_token_addr market_id addr;;;
      factory_event (EvInstantiate KindPosition market_id addr)
  | ReplyLiquidityTokenLp =>
      '(market_id, _) <~ reply_market;
      save_liquidity_token_addr market_id addr KindLp;;;
      factory_event (EvInstantiate KindLpToken market_id addr)
  | ReplyLiquidityTokenXlp =>
      '(market_id, _) <~ reply_market;
      save_liquidity_token_addr market_id addr KindXlp;;;
      factory_event (EvInstantiate KindXlpToken market_id addr)
  | ReplyCopyTrading =>
      '(_, leader) <~ hask (fun c => of_option (AnyhowError "No data in INSTANTIATE_COPY_TRADING")
                                       (INSTANTIATE_COPY_TRADING (fs_replies (fstore c))));
      store_new_copy_trading_contract leader addr;;;
      register_contract addr CtCopyTrading;;;
      mod_copy_trading (set_COPY_TRADING_LAST_ADDED (Some (fe_now env)));;;
      factory_event (EvInstantiateCopyTrading leader addr)
  | ReplyCountertrade =>
      '(_, market_id) <~ hask (fun c => of_option (AnyhowError "No data in INSTANTIATE_COPY_TRADING")
                                          (INSTANTIATE_COUNTERTRADE (fs_replies (fstore c))));
      register_contract addr CtCounterTrade;;;
      mod_markets (fun m =>
        set_COUNTER_TRADE_ADDRS (<[mid_encoded market_id := addr]> (COUNTER_TRADE_ADDRS m)) m);;;
      factory_event (EvInstantiateCounterTrade market_id addr)
  end.

Definition factory_reply (id : Z) (result : ReplyResult) (s : FactoryStore) : res FactoryCtx :=
  match reply_id_try_from id with
  | Some id =>
      events <- match result with ReplyOk events => Ok events | ReplyErr msg => Err (AnyhowError msg) end;
      addr <- extract_instantiated_addr events;
      factory_run (reply_handler id addr) s
  | None => Err (PerpError InternalReply DomFactory None)
  end.

End Entry.

(** ** Queries *)

Definition MARKETS_QUERY_LIMIT_DEFAULT : Z := 15.
Definition QUERY_LIMIT_DEFAULT : Z := 15.
Definition REFEREES_MAX_LIMIT : Z := 30.

(** The keys of a map after an optional start, at most [limit]. *)
Definition key_page {V} (start_after : option string) (limit : Z) (m : gmap string V) : list string :=
  take (Z.to_nat limit) (keys_after start_after m).

(** [limit.map_or(max, |limit| limit.min(max))]. *)
Definition capped_limit (limit : option Z) (max : Z) : Z :=
  match limit with None => max | Some l => Z.min l max end.

Definition markets (s : FactoryStore) (start_after : option MarketId) (limit : option Z) : list MarketKey :=
  key_page (mid_encoded <$> start_after) (default MARKETS_QUERY_LIMIT_DEFAULT limit)
    (MARKET_ADDRS (fs_markets s)).

Record MarketInfoResponse := mkMarketInfoResponse {
  mir_market_addr : Addr;
  mir_position_token : Addr;
  mir_liquidity_token_lp : Addr;
  mir_liquidity_token_xlp : Addr;
}.
Definition market_info (s : FactoryStore) (id : MarketId) : res MarketInfoResponse :=
  market_addr <- get_market_addr s id;
  position_token <- position_token_addr s id;
  lp <- liquidity_token_addr s id KindLp;
  xlp <- liquidity_token_addr s id KindXlp;
  Ok (mkMarketInfoResponse market_addr position_token lp xlp).

(** The keys under a market's prefix, in the order of their names. *)
Definition get_shutdown_status (s : FactoryStore) (id : MarketId) : res (list ShutdownImpact) :=
  addr <- get_market_addr s id;
  Ok (omap impact_try_from_bytes
        (merge_sort str_le (map impact_bytes (filter (fun i => is_disabled s addr i = true) all_impacts)))).

Record CodeIds := mkCodeIds {
  ci_market : Z; ci_position_token : Z; ci_liquidity_token : Z; ci_counter_trade : option Z }.
Definition get_code_ids (s : FactoryStore) : res CodeIds :=
  market <- std (MARKET_CODE_ID (fs_codes s));
  position_token <- std (POSITION_TOKEN_CODE_ID (fs_codes s));
  liquidity_token <- std (LIQUIDITY_TOKEN_CODE_ID (fs_codes s));
  Ok (mkCodeIds market position_token liquidity_token (COUNTER_TRADE_CODE_ID (fs_codes s))).

Section Queries.
Context {CW : CosmwasmStd}.

Definition addr_is_contract (s : FactoryStore) (addr : RawAddr) : res (option ContractType) :=
  addr <- std (addr_validate addr); Ok (ALL_CONTRACTS s !! addr).

Definition get_referrer_for (s : FactoryStore) (referee : Addr) : res (option Addr) :=
  match REFERRERS (fs_referrals s) !! referee with
  | None => Ok None
  | Some referrer => r <- std (addr_validate referrer); Ok (Some r)
  end.

(** [while page.len() <= limit]: a page holds one entry more than the limit. *)
Definition page_with_next {A} (limit : Z) (entries : list A) : list A * option A :=
  let n := S (Z.to_nat limit) in
  (take n entries, if is_empty (drop n entries) then None else last (take n entries)).

Definition list_referees_for (s : FactoryStore) (referrer : Addr) (limit : option Z)
    (start_after : option Addr) : list Addr * option Addr :=
  page_with_next (capped_limit limit REFEREES_MAX_LIMIT)
    (merge_sort str_le (filter (fun a => str_after start_after a = true)
      (omap (fun k => if String.eqb k.1.1 referrer then Some k.1.2 else None)
         (map_to_list (REFEREES_REVERSE_MAP (fs_referrals s)))))).

(** The order of [(u32, &Addr)] keys. *)
Definition count_lt (a b : Z * string) : bool :=
  (a.1 <? b.1) || ((a.1 =? b.1) && String.ltb a.2 b.2).
Definition count_ge (a b : (Z * string)) : Prop := count_lt a b = false.
#[global] Instance count_ge_dec a b : Decision (count_ge a b).
Proof. unfold count_ge. apply _. Defined.

Definition list_referee_count (s : FactoryStore) (limit : option Z) (start_after : option (Z * Addr)) :
    list (Z * Addr) * option (Z * Addr) :=
  page_with_next (capped_limit limit REFEREES_MAX_LIMIT)
    (merge_sort count_ge
      (filter (fun k => match start_after with None => true | Some b => count_lt k b end = true)
        (map fst (map_to_list (REFEREE_COUNT_REVERSE_MAP (fs_referrals s)))))).

Definition counter_trades (s : FactoryStore) (start_after : option MarketId) (limit : option Z) :
    list (MarketKey * Addr) :=
  let m := COUNTER_TRADE_ADDRS (fs_markets s) in
  omap (fun k => pair k <$> m !! k)
    (key_page (mid_encoded <$> start_after) (capped_limit limit QUERY_LIMIT_DEFAULT) m).

Definition copy_tradings (s : FactoryStore) (start_after : option (RawAddr * RawAddr)) (limit : option Z) :
    res (list (Addr * Addr)) :=
  start <- match start_after with
           | None => Ok None
           | Some (leader, contract) =>
               leader <- std (addr_validate leader);
               contract <- std (addr_validate contract);
               i <- of_option (AnyhowError "Invalid combination of leader and contract passed")
                      (COPY_TRADING_ADDRS (fs_copy_trading s) !! (leader, contract));
               Ok (Some i)
           end;
  Ok (map snd (take (Z.to_nat (capped_limit limit QUERY_LIMIT_DEFAULT))
    (range_asc (fun i => match start with None => true | Some b => b <? i end)
       (COPY_TRADING_ADDRS_REVERSE (fs_copy_trading s))))).

Definition copy_tradings_for_leader (s : FactoryStore) (leader : RawAddr) (start_after : option RawAddr)
    (limit : option Z) : res (list Addr) :=
  start <- match start_after with
           | None => Ok None
           | Some a => a <- std (addr_validate a); Ok (Some a)
           end;
  leader <- std (addr_validate leader);
  Ok (take (Z.to_nat (capped_limit limit QUERY_LIMIT_DEFAULT))
    (merge_sort str_le (filter (fun a => str_after start a = true)
      (omap (fun k => if String.eqb k.1.1 leader then Some k.1.2 else None)
         (map_to_list (COPY_TRADING_ADDRS (fs_copy_trading s))))))).

End Queries.

(** ** What a market reads of the factory's storage

    [load_external_item], [load_external_map] and [external_map_has] on the
    items the market knows (packages/perpswap/src/storage.rs). *)

Definition external {A} (value : option A) : res A := of_option (PerpError Any DomDefault None) value.

Definition factory_querier (s : FactoryStore) (market_addr : Addr) (market_id : MarketId) : FactoryQuerier :=
  mkFactoryQuerier (external (OWNER_ADDR (fs_auth s))) (external (WIND_DOWN_ADDR (fs_auth s)))
    (fun impact => Ok (is_disabled s market_addr impact))
    (external (POSITION_TOKEN_ADDRS (fs_markets s) !! mid_encoded market_id))
    (fun kind => external (addrs_map kind (fs_markets s) !! mid_encoded market_id)).

Definition query_dao (s : FactoryStore) : res Addr := external (DAO_ADDR (fs_auth s)).
Definition query_referrer (s : FactoryStore) (referee : Addr) : res (option RawAddr) :=
  Ok (REFERRERS (fs_referrals s) !! referee).
