(* ===== verification/FactoryInv.v ===== *)
(** * What the factory guarantees

    Who may shut down what and what a shutdown changes, that a shutdown stops
    the market's messages until an authorised wallet lifts it, and that the
    referral maps agree with each other and never change a referrer. *)

From stdpp Require Import base option gmap strings list sorting.
From Stdlib Require Import ZArith Lia.
From S2P Require Import Prelude Storage Index Cosmwasm Types Market Time Token Config Trading State PositionToken Entry Factory.
Local Open Scope Z_scope.

(** ** Shutdown *)

(** Whether the parts of an effect end up disabled. *)
Definition shut (effect : ShutdownEffect) : bool :=
  match effect with Disable => true | Enable => false end.

Definition with_shutdowns (m : gmap (Addr * ShutdownImpact) unit) (c : FactoryCtx) : FactoryCtx :=
  mkFactoryCtx (set_SHUTDOWNS m (fstore c)) (fevents c) (fmessages c).

(** The parts [impacts] of the markets [addrs]. *)
Definition targeted (addrs : list Addr) (impacts : list ShutdownImpact) (a : Addr) (i : ShutdownImpact) : Prop :=
  a ∈ addrs /\ i ∈ (if is_empty impacts then all_impacts else impacts).
#[global] Instance targeted_dec addrs impacts a i : Decision (targeted addrs impacts a i).
Proof. unfold targeted. apply _. Defined.

(** The wallet may bring every part of the target into the wanted state. *)
Definition permitted (s : FactoryStore) (addrs : list Addr) (impacts : list ShutdownImpact)
    (effect : ShutdownEffect) (w : ShutdownWallet) : Prop :=
  forall a i, targeted addrs impacts a i -> is_disabled s a i = shut effect \/ can_perform i w = true.

(** The state the shutdown asks for: the target changed and nothing else. *)
Definition shut_down (addrs : list Addr) (impacts : list ShutdownImpact) (effect : ShutdownEffect)
    (s s' : FactoryStore) : Prop :=
  forall a i, is_disabled s' a i = if decide (targeted addrs impacts a i) then shut effect else is_disabled s a i.

Lemma is_disabled_insert s a i b j :
  is_disabled (set_SHUTDOWNS (<[(a, i) := tt]> (SHUTDOWNS s)) s) b j
  = if decide (b = a /\ j = i) then true else is_disabled s b j.
Proof.
  unfold is_disabled. simpl. case_decide as Hd.
  - destruct Hd as [-> ->]. by rewrite lookup_insert_eq.
  - rewrite lookup_insert_ne; [done|]. intros [= -> ->]. by apply Hd.
Qed.
Lemma is_disabled_delete s a i b j :
  is_disabled (set_SHUTDOWNS (delete (a, i) (SHUTDOWNS s)) s) b j
  = if decide (b = a /\ j = i) then false else is_disabled s b j.
Proof.
  unfold is_disabled. simpl. case_decide as Hd.
  - destruct Hd as [-> ->]. by rewrite lookup_delete_eq.
  - rewrite lookup_delete_ne; [done|]. intros [= -> ->]. by apply Hd.
Qed.


Lemma shutdown_impact_ok a effect w i c :
  is_disabled (fstore c) a i = shut effect \/ can_perform i w = true ->
  exists m, shutdown_impact a effect w i c = Ok (tt, with_shutdowns m c) /\
    forall b j, is_some (m !! (b, j)) =
      if decide (b = a /\ j = i) then shut effect else is_disabled (fstore c) b j.
Proof.
  intros Hp. unfold shutdown_impact, hbind at 1, hget.
  assert (is_disabled (fstore c) a i = shut effect -> forall b j, is_some (SHUTDOWNS (fstore c) !! (b, j)) =
    if decide (b = a /\ j = i) then shut effect else is_disabled (fstore c) b j) as Hsame.
  { intros Hd b j. case_decide as E; [|done]. destruct E as [-> ->]. exact Hd. }
  destruct (Bool.eqb_spec (is_disabled (fstore c) a i) (shut effect)) as [Hd|Hn].
  - exists (SHUTDOWNS (fstore c)). split; [|by apply Hsame].
    rewrite Hd. by destruct c as [[] ? ?], effect.
  - destruct Hp as [Hd|Hcan]; [done|]. unfold ensure_can_perform. rewrite Hcan.
    destruct effect, (is_disabled (fstore c) a i); try done; (eexists; split; [reflexivity|]); intros b j.
    + apply is_disabled_insert.
    + apply is_disabled_delete.
Qed.

Lemma shutdown_impact_err a effect w i c :
  is_disabled (fstore c) a i <> shut effect -> can_perform i w = false ->
  shutdown_impact a effect w i c = Err (perp_auth DomFactory).
Proof.
  intros Hn Hcan. unfold shutdown_impact, hbind at 1, hget, ensure_can_perform. rewrite Hcan.
  by destruct effect, (is_disabled (fstore c) a i).
Qed.

Lemma shutdown_market_ok a effect w l : forall c,
  (forall i, i ∈ l -> is_disabled (fstore c) a i = shut effect \/ can_perform i w = true) ->
  exists m, shutdown_market a effect w l c = Ok (tt, with_shutdowns m c) /\
    forall b j, is_some (m !! (b, j)) = if decide (b = a /\ j ∈ l) then shut effect else is_disabled (fstore c) b j.
Proof.
  induction l as [|i l IH]; intros c Hp.
  - exists (SHUTDOWNS (fstore c)). split; [by destruct c as [[] ? ?]|].
    intros b j. rewrite decide_False; [done|]. intros [_ H]. by apply elem_of_nil in H.
  - destruct (shutdown_impact_ok a effect w i c) as (m & Hm & Hspec); [apply Hp; by left|].
    assert (forall b j, is_disabled (fstore (with_shutdowns m c)) b j =
      if decide (b = a /\ j = i) then shut effect else is_disabled (fstore c) b j) as Hd by exact Hspec.
    destruct (IH (with_shutdowns m c)) as (m' & Hm' & Hspec').
    { intros j Hj. rewrite Hd. case_decide; [by left|]. apply Hp. by right. }
    exists m'. split.
    + simpl. unfold hbind. rewrite Hm, Hm'. by destruct c as [[] ? ?].
    + intros b j. rewrite Hspec', Hd. repeat case_decide; try done; exfalso; set_solver.
Qed.

(** A part the wallet may not change makes the whole message fail. *)
Lemma shutdown_market_err a effect w l i : forall c,
  i ∈ l -> is_disabled (fstore c) a i <> shut effect -> can_perform i w = false ->
  shutdown_market a effect w l c = Err (perp_auth DomFactory).
Proof.
  induction l as [|j l IH]; intros c Hin Hn Hcan; [by apply elem_of_nil in Hin|]. simpl. unfold hbind.
  destruct (decide (is_disabled (fstore c) a j = shut effect \/ can_perform j w = true)) as [Hp|Hp].
  - destruct (shutdown_impact_ok _ _ _ _ _ Hp) as (m & -> & Hspec).
    destruct (decide (j = i)) as [->|Hne]; [destruct Hp; congruence|].
    apply elem_of_cons in Hin as [->|Hin]; [done|]. apply IH; [done| |done].
    unfold is_disabled at 1. simpl. rewrite Hspec. rewrite decide_False by naive_solver. done.
  - rewrite shutdown_impact_err; [done|naive_solver|]. destruct (can_perform j w); naive_solver.
Qed.

Lemma shutdown_markets_ok effect w impacts addrs : forall c,
  permitted (fstore c) addrs impacts effect w ->
  exists m, shutdown_markets addrs effect w impacts c = Ok (tt, with_shutdowns m c) /\
    shut_down addrs impacts effect (fstore c) (fstore (with_shutdowns m c)).
Proof.
  induction addrs as [|a addrs IH]; intros c Hp.
  - exists (SHUTDOWNS (fstore c)). split; [by destruct c as [[] ? ?]|].
    intros b j. rewrite decide_False; [done|]. intros [H _]. by apply elem_of_nil in H.
  - destruct (shutdown_market_ok a effect w (if is_empty impacts then all_impacts else impacts) c)
      as (m & Hm & Hspec); [intros i Hi; apply Hp; split; [by left|done]|].
    assert (forall b j, is_disabled (fstore (with_shutdowns m c)) b j = if decide (b = a /\
      j ∈ (if is_empty impacts then all_impacts else impacts)) then shut effect else is_disabled (fstore c) b j)
      as Hd by exact Hspec.
    destruct (IH (with_shutdowns m c)) as (m' & Hm' & Hspec').
    { intros b j [Hb Hj]. rewrite Hd. case_decide; [by left|]. apply Hp. split; [by right|done]. }
    exists m'. split.
    + simpl. unfold hbind. rewrite Hm, Hm'. by destruct c as [[] ? ?].
    + intros b j. 
      assert (is_disabled (fstore (with_shutdowns m' c)) b j =
        is_disabled (fstore (with_shutdowns m' (with_shutdowns m c))) b j) as -> by reflexivity.
      rewrite Hspec', Hd. unfold targeted. repeat case_decide; try done; exfalso; set_solver.
Qed.

Lemma shutdown_markets_err effect w impacts a i addrs : forall c,
  targeted addrs impacts a i -> is_disabled (fstore c) a i <> shut effect -> can_perform i w = false ->
  shutdown_markets addrs effect w impacts c = Err (perp_auth DomFactory).
Proof.
  induction addrs as [|b addrs IH]; intros c [Ha Hi] Hn Hcan; [by apply elem_of_nil in Ha|].
  simpl. unfold hbind. set (l := if is_empty impacts then all_impacts else impacts) in *.
  destruct (forallb (fun j => Bool.eqb (is_disabled (fstore c) b j) (shut effect) || can_perform j w) l) eqn:Hp.
  - assert (forall j, j ∈ l -> is_disabled (fstore c) b j = shut effect \/ can_perform j w = true) as Hall.
    { intros j Hj. rewrite forallb_forall in Hp. apply list_elem_of_In, Hp, orb_true_iff in Hj.
      rewrite Bool.eqb_true_iff in Hj. done. }
    destruct (shutdown_market_ok _ _ _ _ _ Hall) as (m & -> & Hspec).
    destruct (decide (a = b)) as [->|Hne]; [destruct (Hall i Hi); congruence|].
    apply elem_of_cons in Ha as [->|Ha]; [done|]. apply IH; [by split| |done].
    unfold is_disabled at 1. simpl. rewrite Hspec, decide_False by naive_solver. done.
  - assert (exists j, j ∈ l /\ Bool.eqb (is_disabled (fstore c) b j) (shut effect) || can_perform j w = false)
      as (j & Hj & [Hd Hc]%orb_false_iff).
    { clear -Hp. induction l as [|j l IH]; [done|]. simpl in Hp. apply andb_false_iff in Hp as [Hp|Hp].
      - exists j. split; [by left|done].
      - destruct (IH Hp) as (k & Hk & E). exists k. split; [by right|done]. }
    apply Bool.eqb_false_iff in Hd. by rewrite (shutdown_market_err _ _ _ _ j).
Qed.

(** ** The factory's steps *)

Section Steps.
Context {CW : CosmwasmStd} {CWS : CosmwasmStdSpec CW}.

Inductive factory_step (s s' : FactoryStore) : Prop :=
| fstep_execute env sender msg c :
    factory_execute env sender msg s = Ok c -> fstore c = s' -> factory_step s s'
| fstep_sudo env msg c : factory_sudo env msg s = Ok c -> fstore c = s' -> factory_step s s'
| fstep_reply env id result c : factory_reply env id result s = Ok c -> fstore c = s' -> factory_step s s'.

Inductive factory_reachable : FactoryStore -> Prop :=
| freach_instantiate env msg s : factory_instantiate env msg = Ok s -> factory_reachable s
| freach_step s s' : factory_reachable s -> factory_step s s' -> factory_reachable s'.

(** A part of the storage a handler leaves alone. *)
Definition untouched {A B} (f : FactoryStore -> B) (h : factory_handler A) : Prop :=
  forall v, preserves (fun c => f (fstore c) = v) h.

Lemma transfer_dao_fees_untouched {B} (f : FactoryStore -> B) addrs : untouched f (transfer_dao_fees_all addrs).
Proof. intros v. induction addrs; simpl; frame. exact IHaddrs. Qed.

(** What the loops keep. *)
Lemma shutdown_markets_preserves P addrs effect w impacts :
  (forall a i, preserves P (shutdown_impact a effect w i)) ->
  preserves P (shutdown_markets addrs effect w impacts).
Proof.
  intros Hi. assert (forall a l, preserves P (shutdown_market a effect w l)) as Hm.
  { intros a l. induction l as [|i l IH]; simpl; [apply preserves_ret|].
    apply preserves_bind; [apply Hi|intros _; exact IH]. }
  induction addrs as [|a addrs IH]; simpl; [apply preserves_ret|].
  apply preserves_bind; [apply Hm|intros _; exact IH].
Qed.

Lemma shutdown_markets_untouched {B} (f : FactoryStore -> B) addrs effect w impacts :
  (forall m s, f (set_SHUTDOWNS m s) = f s) -> untouched f (shutdown_markets addrs effect w impacts).
Proof.
  intros Hf v. apply shutdown_markets_preserves. intros a i. unfold shutdown_impact.
  apply preserves_bind; [apply preserves_get|]. intros d.
  destruct effect, d; try apply preserves_ret; (apply preserves_bind; [apply preserves_lift|intros _]);
    apply preserves_mod; intros c Hc; simpl; by rewrite Hf.
Qed.

Lemma shutdown_untouched {B} (f : FactoryStore -> B) sender markets impacts effect :
  (forall m s, f (set_SHUTDOWNS m s) = f s) -> untouched f (shutdown sender markets impacts effect).
Proof.
  intros Hf v. unfold shutdown, load_item. do 2 (apply preserves_bind; [apply preserves_ask|intros ?]).
  apply preserves_bind; [frame|intros w]. apply preserves_bind; [apply preserves_ask|intros addrs].
  by apply shutdown_markets_untouched.
Qed.

Lemma reply_untouched_referrals env id addr : untouched fs_referrals (reply_handler env id addr).
Proof. intros v. frame. Qed.
Lemma reply_untouched_shutdowns env id addr : untouched SHUTDOWNS (reply_handler env id addr).
Proof. intros v. frame. Qed.

Lemma execute_untouched_referrals env info msg :
  match msg with RegisterReferrer _ => False | _ => True end ->
  untouched fs_referrals (execute_msg env info msg).
Proof.
  intros Hm v. destruct msg; try done; simpl; try (frame; fail).
  - apply preserves_bind; [apply preserves_get|intros addrs; apply transfer_dao_fees_untouched].
  - apply preserves_bind; [apply preserves_lift|intros sender; by apply shutdown_untouched].
Qed.
Lemma execute_untouched_shutdowns env info msg :
  match msg with Shutdown _ _ _ => False | _ => True end ->
  untouched SHUTDOWNS (execute_msg env info msg).
Proof.
  intros Hm v. destruct msg; try done; simpl; try (frame; fail).
  apply preserves_bind; [apply preserves_get|intros addrs; apply transfer_dao_fees_untouched].
Qed.

Lemma run_ok h s c : factory_run h s = Ok c -> h (mkFactoryCtx s [] []) = Ok (tt, c).
Proof. unfold factory_run. intros ([[] c'] & H & Hc)%rbind_ok. by injection Hc as ->. Qed.

Lemma untouched_eq {B} (f : FactoryStore -> B) h s u c :
  untouched f h -> h (mkFactoryCtx s [] []) = Ok (u : unit, c) -> f (fstore c) = f s.
Proof. intros Hu H. by eapply (Hu (f s)); [|exact H]. Qed.

(** A step, by what ran. *)
Lemma step_handler s s' :
  factory_step s s' -> exists h c, h (mkFactoryCtx s [] []) = Ok (tt, c) /\ fstore c = s' /\
    ((exists env info msg, h = execute_msg env info msg) \/ exists env id addr, h = reply_handler env id addr).
Proof.
  intros [env sender msg c H E|env msg c H E|env id result c H E].
  - apply rbind_ok in H as (_ & _ & H%run_ok). eauto 10.
  - apply rbind_ok in H as (_ & _ & H%run_ok). eauto 10.
  - unfold factory_reply in H. destruct (reply_id_try_from id) as [rid|]; [|done].
    apply rbind_ok in H as (events & _ & H). apply rbind_ok in H as (addr & _ & H%run_ok). eauto 10.
Qed.

(** ** Referrals *)

(** How many accounts a referrer referred. *)
Definition referred (r : FactoryReferrals) (a : Addr) : Z :=
  map_sum (fun b => if String.eqb b a then 1 else 0) (REFERRERS r).

Record referrals_ok (r : FactoryReferrals) : Prop := {
  ro_reverse : forall a b, REFEREES_REVERSE_MAP r !! (a, b) = Some tt <-> REFERRERS r !! b = Some a;
  ro_count : forall a, default 0 (REFEREE_COUNTS r !! a) = referred r a;
  ro_board : forall n a, REFEREE_COUNT_REVERSE_MAP r !! (n, a) = Some tt <-> REFEREE_COUNTS r !! a = Some n;
  ro_self : forall a, REFERRERS r !! a <> Some a;
}.

Lemma referred_insert r a b m :
  REFERRERS r !! b = None ->
  map_sum (fun x => if String.eqb x a then 1 else 0) (<[b := m]> (REFERRERS r))
  = (if String.eqb m a then 1 else 0) + referred r a.
Proof. intros H. by rewrite map_sum_insert_new. Qed.

(** What registering a referrer does. *)
Lemma set_referrer_ok referee referrer c u c' :
  set_referrer_for referee referrer c = Ok (u, c') ->
  let r := fs_referrals (fstore c) in
  exists count, REFERRERS r !! referee = None /\ count = default 0 (REFEREE_COUNTS r !! referrer) + 1 /\
    fs_referrals (fstore c') =
      mkFactoryReferrals (<[referee := referrer]> (REFERRERS r))
        (<[(referrer, referee) := tt]> (REFEREES_REVERSE_MAP r)) (<[referrer := count]> (REFEREE_COUNTS r))
        (<[(count, referrer) := tt]> match REFEREE_COUNTS r !! referrer with
           | Some n => delete (n, referrer) (REFEREE_COUNT_REVERSE_MAP r)
           | None => REFEREE_COUNT_REVERSE_MAP r end).
Proof.
  intros H r. unfold set_referrer_for in H. step_in H reg c1 H1. get_in H1.
  step_in H v1 c2 H2. apply hensure_ok in H2 as [Hn ->].
  destruct (REFERRERS (fs_referrals (fstore c)) !! referee) as [x|] eqn:E; [done|].
  step_in H v2 c3 H3. apply hmod_ok in H3. step_in H v3 c4 H4. apply hmod_ok in H4.
  step_in H old c5 H5. get_in H5. step_in H count c6 H6. step_in H v4 c7 H7. apply hmod_ok in H7, H.
  assert (REFEREE_COUNTS (fs_referrals (fstore c4)) !! referrer = REFEREE_COUNTS r !! referrer) as Ho
    by (by subst c4 c3).
  rewrite Ho in H6. exists count. split; [done|]. destruct (REFEREE_COUNTS r !! referrer) as [n|] eqn:En.
  - step_in H6 v5 c8 H8. apply hmod_ok in H8. apply hlift_ok in H6 as [H6 ->].
    apply panics_ok, fits_Some in H6 as [-> _]. split; [done|]. by subst.
  - apply hret_ok in H6 as [-> ->]. split; [done|]. by subst.
Qed.

Lemma set_referrer_inv referee referrer c u c' :
  referee <> referrer -> referrals_ok (fs_referrals (fstore c)) ->
  set_referrer_for referee referrer c = Ok (u, c') -> referrals_ok (fs_referrals (fstore c')).
Proof.
  intros Hne [Hrev Hcnt Hboard Hself] H. apply set_referrer_ok in H as (n & Hnone & Hn & ->).
  set (r := fs_referrals (fstore c)) in *. split; simpl.
  - intros a b. rewrite !lookup_insert_Some, Hrev. split.
    + intros [[[= -> ->] _]|[Hk Hr]]; [by left|]. right. split; [|done]. intros ->. congruence.
    + intros [[-> ->]|[Hk Hr]]; [by left|]. right. split; [congruence|done].
  - intros a. unfold referred. simpl. rewrite referred_insert by done.
    destruct (String.eqb_spec referrer a) as [<-|Ha].
    + rewrite lookup_insert_eq. simpl. rewrite <- Hcnt. lia.
    + rewrite lookup_insert_ne, Hcnt by done. done.
  - intros m a. rewrite !lookup_insert_Some. split.
    + intros [[[= -> ->] _]|[Hk Hr]]; [by left|]. right.
      destruct (REFEREE_COUNTS r !! referrer) as [o|] eqn:Eo.
      * apply lookup_delete_Some in Hr as [Hd Hr]. apply Hboard in Hr. split; [|done].
        intros ->. rewrite Eo in Hr. injection Hr as ->. done.
      * apply Hboard in Hr. split; [|done]. intros ->. congruence.
    + intros [[-> ->]|[Ha Hr]]; [by left|]. right. split; [congruence|].
      apply Hboard in Hr. destruct (REFEREE_COUNTS r !! referrer) as [o|]; [|done].
      rewrite lookup_delete_ne; [done|congruence].
  - intros a. rewrite lookup_insert_Some. intros [[-> ->]|[_ H]]; [done|]. by apply Hself in H.
Qed.

(** What a step does to the referrals, from [r] to [r']. *)
Definition referrals_step (r r' : FactoryReferrals) : Prop :=
  (referrals_ok r -> referrals_ok r') /\
  forall a b, REFERRERS r !! b = Some a -> REFERRERS r' !! b = Some a.

Lemma register_referrals sender addr c u c' :
  register_referrer sender addr c = Ok (u, c') ->
  referrals_step (fs_referrals (fstore c)) (fs_referrals (fstore c')).
Proof.
  unfold register_referrer. intros H. lift_in H referrer Hr. step_in H v1 c1 H1.
  apply hensure_ok in H1 as [Hne ->]. step_in H v2 c2 H2. apply hmod_ok in H.
  assert (fs_referrals (fstore c') = fs_referrals (fstore c2)) as -> by by subst c'.
  destruct (String.eqb_spec sender referrer) as [|Hn]; [done|]. split.
  - intros Hok. by eapply set_referrer_inv.
  - apply set_referrer_ok in H2 as (n & Hnone & _ & ->). simpl. intros a b Hb.
    rewrite lookup_insert_ne; [done|congruence].
Qed.

Lemma step_referrals s s' : factory_step s s' -> referrals_step (fs_referrals s) (fs_referrals s').
Proof.
  intros (h & c & H & <- & Hh)%step_handler.
  assert (untouched fs_referrals h -> referrals_step (fs_referrals s) (fs_referrals (fstore c))) as Hsame.
  { intros Hu. apply (Hu (fs_referrals s)) in H; [|done]. rewrite H. by split. }
  destruct Hh as [(env & info & msg & ->)|(env & id & addr & ->)]; [|apply Hsame, reply_untouched_referrals].
  destruct msg; try (apply Hsame, execute_untouched_referrals; done).
  simpl in H. lift_in H sender Hs. by apply register_referrals in H.
Qed.

Lemma reachable_referrals s : factory_reachable s -> referrals_ok (fs_referrals s).
Proof.
  induction 1 as [env msg s H|s s' _ IH Hs%step_referrals]; [|by apply Hs].
  unfold factory_instantiate in H. do 10 (apply rbind_ok in H as (? & _ & H)). injection H as <-. simpl.
  split; simpl; intros; try done.
Qed.

(** ** A part that is shut down stays so *)

(** The message lifts the shutdown of [i], sent by a wallet that may. *)
Definition lifts (s : FactoryStore) (i : ShutdownImpact) (sender : Addr) (msg : FactoryExecute) : Prop :=
  exists markets impacts w, msg = Shutdown markets impacts Enable /\ can_perform i w = true /\
    match w with
    | KillSwitch => KILL_SWITCH_ADDR (fs_auth s) = Some sender
    | WindDown => WIND_DOWN_ADDR (fs_auth s) = Some sender
    end.

Lemma shutdown_wallet sender markets impacts effect c u c' :
  shutdown sender markets impacts effect c = Ok (u, c') ->
  exists w addrs, match w with
    | KillSwitch => KILL_SWITCH_ADDR (fs_auth (fstore c)) = Some sender
    | WindDown => WIND_DOWN_ADDR (fs_auth (fstore c)) = Some sender end /\
    shutdown_markets addrs effect w impacts c = Ok (u, c').
Proof.
  unfold shutdown, load_item. intros H. lift_in H k Hk. lift_in H d Hd.
  apply std_ok in Hk, Hd. step_in H w c1 Hw. lift_in H addrs Ha.
  destruct (String.eqb_spec k sender) as [->|]; [|destruct (String.eqb_spec d sender) as [->|]; [|done]];
    apply hret_ok in Hw as [-> ->]; eexists _, addrs; (split; [|exact H]); done.
Qed.

Lemma shutdown_markets_changes effect w impacts addrs c u c' a i :
  shutdown_markets addrs effect w impacts c = Ok (u, c') ->
  is_disabled (fstore c') a i = is_disabled (fstore c) a i \/
  is_disabled (fstore c') a i = shut effect /\ can_perform i w = true.
Proof.
  set (P c' := is_disabled (fstore c') a i = is_disabled (fstore c) a i \/
    is_disabled (fstore c') a i = shut effect /\ can_perform i w = true).
  intros H. enough (preserves P (shutdown_markets addrs effect w impacts)) as Hp by (eapply Hp; [by left|exact H]).
  apply shutdown_markets_preserves. intros b j c1 v c2 H1 H2. unfold shutdown_impact in H2.
  step_in H2 d c3 H3. get_in H3.
  destruct effect, (is_disabled (fstore c1) b j);
    try (by apply hret_ok in H2 as [_ ->]); lift_in H2 x Hx; apply ensure_ok in Hx; apply hmod_ok in H2; subst c2;
    unfold P; simpl; rewrite ?is_disabled_insert, ?is_disabled_delete; case_decide as E; try exact H1;
    destruct E as [-> ->]; by right.
Qed.

Lemma step_shutdowns s s' a i :
  factory_step s s' -> is_disabled s a i = true ->
  is_disabled s' a i = true \/
  exists env sender msg c, factory_execute env sender msg s = Ok c /\ fstore c = s' /\ lifts s i sender msg.
Proof.
  intros Hs Hd. destruct (is_disabled s' a i) eqn:E; [by left|right].
  destruct (Hs) as [env sender msg c H <-|env msg c H <-|env id result c H <-].
  - exists env, sender, msg, c. split; [done|]. split; [done|].
    apply rbind_ok in H as (_ & _ & H%run_ok).
    assert (SHUTDOWNS (fstore c) <> SHUTDOWNS s) as Hne by (unfold is_disabled in *; intros Heq; congruence).
    destruct msg; try (exfalso; apply Hne; eapply untouched_eq; [|exact H]; by apply execute_untouched_shutdowns).
    simpl in H. unfold sent_by in H. apply shutdown_wallet in H as (w & addrs & Hw & H).
    apply (shutdown_markets_changes _ _ _ _ _ _ _ a i) in H as [H|[H Hcan]]; [simpl in H; congruence|].
    exists markets, impacts, w. destruct effect; simpl in H; [congruence|]. by split_and!.
  - apply rbind_ok in H as (_ & _ & H%run_ok). exfalso.
    assert (SHUTDOWNS (fstore c) <> SHUTDOWNS s) as Hne by (unfold is_disabled in *; intros Heq; congruence).
    destruct msg; try (apply Hne; eapply untouched_eq; [|exact H]; by apply execute_untouched_shutdowns).
  - unfold factory_reply in H. destruct (reply_id_try_from id) as [rid|]; [|done].
    apply rbind_ok in H as (events & _ & H). apply rbind_ok in H as (addr & _ & H%run_ok). exfalso.
    apply (untouched_eq SHUTDOWNS) in H; [|apply reply_untouched_shutdowns].
    unfold is_disabled in *. congruence.
Qed.

(** A market message of a part that is shut down fails. *)
Lemma gated_message_fails from_json (st : State) s mid info msg pmi i m :
  st_factory st = factory_querier s (st_contract st) mid ->
  parse_perps_message_info from_json st info msg = Ok pmi ->
  for_market_execute_msg (pmi_msg pmi) = Some i -> is_disabled s (st_contract st) i = true ->
  execute from_json st info msg m =
    Err (AnyhowError "Cannot perform action, market shutdown in place").
Proof.
  intros Hf Hp Hi Hd. unfold execute, entry_point, execute_handler, hbind, hlift.
  rewrite Hp, Hi. unfold ensure_not_shut_down. rewrite Hf. simpl. by rewrite Hd.
Qed.

(** * Theorems *)

(** The wallet of a sender, the kill switch first. *)
Definition wallet_of (k d sender : Addr) : option ShutdownWallet :=
  if String.eqb k sender then Some KillSwitch
  else if String.eqb d sender then Some WindDown else None.

(** [Shutdown] changes exactly what it names.  It is refused to everyone
    but the kill switch and the wind down wallet.  When the wallet may change
    each part that is not already in the wanted state, the message succeeds,
    every named part of every named market ends up in that state (all markets
    and all parts when none are named), and nothing else of the storage
    changes; otherwise the whole message is refused. *)
Theorem shutdown_exact (env : FactoryEnv) (s : FactoryStore) (sender k d : Addr) (markets : list MarketId)
    (impacts : list ShutdownImpact) (effect : ShutdownEffect) (addrs : list Addr) :
  KILL_SWITCH_ADDR (fs_auth s) = Some k -> WIND_DOWN_ADDR (fs_auth s) = Some d ->
  (if is_empty markets then Ok (all_market_addrs s) else load_market_addrs s markets) = Ok addrs ->
  let r := factory_execute env sender (Shutdown markets impacts effect) s in
  match wallet_of k d sender with
  | None => r = Err (perp_auth DomFactory)
  | Some w =>
      (permitted s addrs impacts effect w ->
       exists m, r = Ok (mkFactoryCtx (set_SHUTDOWNS m s) [] []) /\
         shut_down addrs impacts effect s (set_SHUTDOWNS m s)) /\
      (forall a i, targeted addrs impacts a i -> is_disabled s a i <> shut effect ->
         can_perform i w = false -> r = Err (perp_auth DomFactory))
  end.
Proof.
  intros Hk Hd Ha r. unfold r, factory_execute, factory_run. simpl.
  unfold shutdown, load_item, hbind, hask, hlift. simpl. rewrite Hk. simpl. rewrite Hd. simpl. unfold wallet_of.
  assert (forall w, (permitted s addrs impacts effect w -> exists m,
      ('(_, c) <- shutdown_markets addrs effect w impacts (mkFactoryCtx s [] []); Ok c)
        = Ok (mkFactoryCtx (set_SHUTDOWNS m s) [] []) /\
      shut_down addrs impacts effect s (set_SHUTDOWNS m s)) /\
    (forall a i, targeted addrs impacts a i -> is_disabled s a i <> shut effect -> can_perform i w = false ->
      ('(_, c) <- shutdown_markets addrs effect w impacts (mkFactoryCtx s [] []); Ok c)
        = Err (perp_auth DomFactory))) as Hw.
  { intros w. split.
    - intros Hp. destruct (shutdown_markets_ok effect w impacts addrs (mkFactoryCtx s [] []) Hp) as (m & -> & Hm).
      by exists m.
    - intros a i Ht Hn Hc. by rewrite (shutdown_markets_err effect w impacts a i addrs (mkFactoryCtx s [] [])). }
  destruct (String.eqb k sender); [|destruct (String.eqb d sender); [|done]]; unfold hret; cbn [fstore];
    rewrite Ha; apply Hw.
Qed.

(** C28: A shutdown holds.  While the factory has a part of a market shut down,
    every message of that market gated by the part fails, whatever the
    market's state; and no message, sudo call or reply of the factory ends
    the shutdown of the part, except a [Shutdown] with [Enable] from the kill
    switch or a wind down wallet with the permission. *)
Theorem shutdown_holds (from_json : Binary -> res ExecuteMsg) (s : FactoryStore) (a : Addr)
    (i : ShutdownImpact) :
  is_disabled s a i = true ->
  (forall st mid info msg pmi m,
     st_contract st = a -> st_factory st = factory_querier s a mid ->
     parse_perps_message_info from_json st info msg = Ok pmi ->
     for_market_execute_msg (pmi_msg pmi) = Some i ->
     execute from_json st info msg m =
       Err (AnyhowError "Cannot perform action, market shutdown in place")) /\
  (forall s', factory_step s s' -> is_disabled s' a i = true \/
     exists env sender msg c, factory_execute env sender msg s = Ok c /\ fstore c = s' /\ lifts s i sender msg).
Proof.
  intros Hd. split.
  - intros st mid info msg pmi m <- Hf Hp Hi. by eapply gated_message_fails.
  - intros s' Hs. by apply step_shutdowns.
Qed.

(** Referrals are consistent and final.  In every reachable state of the
    factory the reverse map lists exactly the registered pairs, the stored
    count of a referrer is the number of accounts registered with them, the
    leaderboard has one entry per referrer with that count, and nobody refers
    themselves; a registered referrer is never replaced. *)
Theorem referrals_consistent (s : FactoryStore) :
  factory_reachable s ->
  referrals_ok (fs_referrals s) /\
  forall s', factory_step s s' ->
    forall a b, REFERRERS (fs_referrals s) !! b = Some a -> REFERRERS (fs_referrals s') !! b = Some a.
Proof.
  intros Hr. split; [by apply reachable_referrals|]. intros s' Hs. by apply step_referrals.
Qed.
End Steps.

(** * A concrete factory *)

Definition sample_fenv : FactoryEnv := mkFactoryEnv 1000 "factory".
Definition sample_roles : FactoryInstantiate :=
  mkFactoryInstantiate "1" "2" "3" None None "migrator" "owner" "dao" "kill" "wind" None.
Definition factory_after (r : res FactoryCtx) : FactoryStore :=
  match r with Ok c => fstore c | Err _ => factory_empty end.
Definition sample_factory : FactoryStore :=
  match factory_instantiate (CW:=cosmwasm_ref) sample_fenv sample_roles with
  | Ok s => s | Err _ => factory_empty end.
Definition sample_mid : MarketId := market_id_new "ATOM" "USDC" CollateralIsQuote.

(** The factory with a market at the address "market", then a referral. *)
Definition sample_listed : FactoryStore :=
  set_fs_markets (set_MARKET_ADDRS {[ mid_encoded sample_mid := "market"%string ]} (fs_markets sample_factory))
    sample_factory.
Definition sample_referral : FactoryStore :=
  factory_after (factory_execute (CW:=cosmwasm_ref) sample_fenv "trader" (RegisterReferrer "carol") sample_factory).

Lemma shutdown_exact_witness :
  exists m, factory_execute (CW:=cosmwasm_ref) sample_fenv "wind" (Shutdown [sample_mid] [NewTrades] Disable)
              sample_listed = Ok (mkFactoryCtx (set_SHUTDOWNS m sample_listed) [] []) /\
    is_disabled (set_SHUTDOWNS m sample_listed) "market" NewTrades = true /\
    is_disabled (set_SHUTDOWNS m sample_listed) "market" ImpactCrank = false.
Proof.
  destruct (shutdown_exact (CW:=cosmwasm_ref) sample_fenv sample_listed "wind" "kill" "wind" [sample_mid]
    [NewTrades] Disable ["market"%string]) as [H _]; [vm_compute; reflexivity..|].
  destruct H as (m & Hm & Hs); [|exists m; split; [exact Hm|split]].
  - intros a i [_ Hi]. right. apply list_elem_of_singleton in Hi as ->. reflexivity.
  - rewrite Hs, decide_True; [done|]. split; by apply list_elem_of_singleton.
  - rewrite Hs, decide_False; [vm_compute; reflexivity|]. intros [_ Hi]. by apply list_elem_of_singleton in Hi.
Defined.

Definition sample_shut : FactoryStore :=
  factory_after (factory_execute (CW:=cosmwasm_ref) sample_fenv "kill" (Shutdown [] [] Disable) sample_listed).

Lemma shutdown_holds_witness :
  is_disabled sample_shut "market" NewTrades = true /\
  forall s', factory_step (CW:=cosmwasm_ref) sample_shut s' -> is_disabled s' "market" NewTrades = true \/
    exists env sender msg c, factory_execute (CW:=cosmwasm_ref) env sender msg sample_shut = Ok c /\
      fstore c = s' /\ lifts sample_shut NewTrades sender msg.
Proof.
  assert (is_disabled sample_shut "market" NewTrades = true) as Hd by (vm_compute; reflexivity).
  split; [exact Hd|].
  apply (shutdown_holds (CW:=cosmwasm_ref) (fun _ => Err StdError) sample_shut "market" NewTrades Hd).
Defined.

Lemma referrals_consistent_witness :
  referrals_ok (fs_referrals sample_referral) /\
  REFERRERS (fs_referrals sample_referral) !! "trader"%string = Some "carol"%string.
Proof.
  split; [|vm_compute; reflexivity].
  apply (referrals_consistent (CW:=cosmwasm_ref)).
  eapply freach_step.
  - apply (freach_instantiate sample_fenv sample_roles). vm_compute. reflexivity.
  - eapply (fstep_execute _ _ sample_fenv "trader" (RegisterReferrer "carol"));
      [vm_compute; reflexivity|vm_compute; reflexivity].
Defined.
