(* ===== verification/TokenProxy.v ===== *)
(** * The token facade contracts

    [contracts/liquidity_token/src] and [contracts/position_token/src]: the
    CW20 and CW721 addresses of a market.  A facade keeps the factory, the
    market and its kind, and passes every message to the market with the
    sender it saw.  The answers of the factory and of the market are those of
    the models of this development ([market_info] of Factory.v for the
    first). *)

From stdpp Require Import base option strings list.
From S2P Require Import Cw20.
From S2P Require Import Prelude Cosmwasm Types Market Config Trading LpToken Entry Factory.
Local Open Scope Z_scope.

(** The stored items; a position token has no kind. *)
Record LiquidityProxy := mkLiquidityProxy {
  lpx_factory : Addr;
  lpx_market_id : MarketId;
  lpx_kind : LiquidityTokenKind;
}.
Record PositionProxy := mkPositionProxy { ppx_factory : Addr; ppx_market_id : MarketId }.

(** What a facade sends: a message to a market, or a CW20 receipt. *)
Inductive ProxySub :=
| ProxyToMarket (market : Addr) (msg : ExecuteMsg)
| ProxyReceive (msg : ReceiveMsg).

Section Proxies.
Context {CW : CosmwasmStd}.
(** The smart query [MarketInfo] to a factory. *)
Context (query_market_info : Addr -> MarketId -> res MarketInfoResponse).

Definition liquidity_token_instantiate (factory : RawAddr) (market_id : MarketId)
    (kind : LiquidityTokenKind) : res LiquidityProxy :=
  factory <- std (addr_validate factory); Ok (mkLiquidityProxy factory market_id kind).
Definition position_token_instantiate (factory : RawAddr) (market_id : MarketId) : res PositionProxy :=
  factory <- std (addr_validate factory); Ok (mkPositionProxy factory market_id).

Definition lpx_market_addr (p : LiquidityProxy) : res Addr :=
  resp <- query_market_info (lpx_factory p) (lpx_market_id p); Ok (mir_market_addr resp).
Definition ppx_market_addr (p : PositionProxy) : res Addr :=
  resp <- query_market_info (ppx_factory p) (ppx_market_id p); Ok (mir_market_addr resp).

(** A send becomes a transfer on the market, with the receipt sent to the
    contract from here. *)
Definition proxied_msg (sender : Addr) (msg : LpTokenMsg) : LpTokenMsg * option ReceiveMsg :=
  match msg with
  | LtSend contract amount msg =>
      (LtTransfer contract amount, Some (mkReceive contract sender amount msg))
  | LtSendFrom owner contract amount msg =>
      (LtTransferFrom owner contract amount, Some (mkReceive contract sender amount msg))
  | _ => (msg, None)
  end.

Definition market_execute_liquidity_token (p : LiquidityProxy) (sender : Addr) (msg : LpTokenMsg) :
    res (list ProxySub) :=
  let '(msg, send) := proxied_msg sender msg in
  market <- lpx_market_addr p;
  Ok (ProxyToMarket market (LiquidityTokenProxy sender (lpx_kind p) msg)
        :: match send with Some r => [ProxyReceive r] | None => [] end).

Definition market_execute_nft (p : PositionProxy) (sender : Addr) (msg : NftExecuteMsg) :
    res (list ProxySub) :=
  market <- ppx_market_addr p; Ok [ProxyToMarket market (NftProxy sender msg)].

(** The entry points; [info.funds] is not looked at. *)
Definition liquidity_token_execute (p : LiquidityProxy) (info : MessageInfo) (msg : LpTokenMsg) :=
  market_execute_liquidity_token p (info_sender info) msg.
Definition position_token_execute (p : PositionProxy) (info : MessageInfo) (msg : NftExecuteMsg) :=
  market_execute_nft p (info_sender info) msg.
End Proxies.
