(* ===== verification/Sanity.v ===== *)
(** * The market's own consistency checks

    [contracts/market/src/state/sanity.rs]: what the test builds of the market
    check before and after every entry point.  The checks are read-only; a
    failure is the panic of an [expect]. *)

From stdpp Require Import base option gmap strings list pretty.
From Stdlib Require Import ZArith Lia.
From S2P Require Import Prelude Index Storage Cosmwasm Types Number Time Market Price Token DataSeries Config Position Trading State Pool LpHistory Liquidity Fees Funding PositionStore Orders Deferred.
Local Open Scope Z_scope.

(** [map.range(store, None, None, Order::Ascending)]. *)
Definition entries {K V} `{Countable K, KeyOrder K} (m : gmap K V) : list (K * V) :=
  range_asc (fun _ => true) m.

(** [for x in iter { f(x)?; }]. *)
Fixpoint for_each {A} (f : A -> res unit) (l : list A) : res unit :=
  match l with
  | [] => Ok tt
  | x :: l => _ <- f x; for_each f l
  end.

(** [anyhow::ensure!(cond)]. *)
Definition ensure_that (b : bool) : res unit := ensure b (AnyhowError "Condition failed").

Record SubTotals := mkSubTotals {
  position_collateral : Collateral;
  limit_order_collateral : Collateral;
  pending_transfer : Collateral;
  liquidity_stats_part : LiquidityStats;
  fees_part : Fees;
  net_funding_paid : Signed;
  delta_neutrality_fund_part : Collateral;
  deferred_exec_part : Collateral;
}.

Section Definitions.
Context {CW : CosmwasmStd}.

(** [for x in iter { total = (total + f(x))?; }]. *)
Fixpoint add_each {A} (f : A -> Collateral) (l : list A) (total : Collateral) : res Collateral :=
  match l with
  | [] => Ok total
  | x :: l => total <- ud_checked_add total (f x); add_each f l total
  end.

Context (st : State).

Definition get_total_net_funding_paid (m : MarketCtx) : Signed := TOTAL_NET_FUNDING_PAID (m_funding m).
Definition get_total_funding_margin (m : MarketCtx) : Collateral := TOTAL_FUNDING_MARGIN (m_funding m).

Definition limit_order_load_all (m : MarketCtx) : list LimitOrder :=
  (entries (LIMIT_ORDERS (m_orders m))).*2.

Definition iter_liquidity_stats_addrs (m : MarketCtx) : list (Addr * LiquidityStatsByAddr) :=
  entries (LIQUIDITY_STATS_BY_ADDR (m_liquidity m)).

(** The loop of [deferred_exec_deposit_balance], over the items in descending
    order, ends at the first that is not pending. *)
Fixpoint deposit_balance_loop (items : list (DeferredExecId * DeferredExecWithStatus))
    (deposited : Collateral) : res Collateral :=
  match items with
  | [] => Ok deposited
  | (id, item) :: items =>
      _ <- ensure_that (id =? de_id item);
      if negb (is_pending (de_status item)) then Ok deposited
      else
        deposited <- ud_checked_add deposited (deposited_amount (de_item item));
        deposit_balance_loop items deposited
  end.
Definition deferred_exec_deposit_balance (m : MarketCtx) : res Collateral :=
  deposit_balance_loop (range_desc (fun _ => true) (DEFERRED_EXECS (m_deferred m))) 0.

(** ** The due times *)

Definition check_next_liquifunding (m : MarketCtx) (delay : Duration) (key : Timestamp * PositionId) :
    res unit :=
  let '(timestamp, position_id) := key in
  position <- std (OPEN_POSITIONS (m_positions m) !! position_id);
  soon <- (if timestamp <? st_now st then Ok true
           else d <- timestamp_checked_sub timestamp (st_now st); Ok (d <=? delay));
  _ <- ensure_that soon;
  due <- timestamp_add (liquifunded_at position) delay;
  ensure_that (timestamp <=? due).

Definition next_last_liquifunding (m : MarketCtx) : res unit :=
  let s := m_positions m in
  delay <- duration_from_seconds (liquifunding_delay_seconds (st_config st));
  let open_position_count := length (entries (OPEN_POSITIONS s)) in
  let keys := (entries (NEXT_LIQUIFUNDING s)).*1 in
  _ <- for_each (check_next_liquifunding m delay) keys;
  _ <- ensure_that (Nat.eqb (length keys) open_position_count);
  for_each (fun '(position_id, pos) =>
              ensure_that (is_some (NEXT_LIQUIFUNDING s !! (next_liquifunding pos, position_id))))
    (entries (OPEN_POSITIONS s)).

(** ** The price triggers *)

Definition ensure_missing (m : gmap (Z * Z) LiquidationReason) (posid : PositionId) : res unit :=
  for_each (fun '(_, x) => ensure_that (negb (x =? posid))) (entries m).*1.

Fixpoint at_most_one_loop (keys : list (Z * Z)) (posid : PositionId) (found_one : bool) : res unit :=
  match keys with
  | [] => Ok tt
  | (_, x) :: keys =>
      if x =? posid
      then if found_one then Err (AnyhowError "found more than one entry")
           else at_most_one_loop keys posid true
      else at_most_one_loop keys posid found_one
  end.
Definition ensure_at_most_one (m : gmap (Z * Z) LiquidationReason) (posid : PositionId) : res unit :=
  at_most_one_loop (entries m).*1 posid false.

(** [map.load(store, (price.into(), posid))?]. *)
Definition load_trigger (m : gmap (Z * Z) LiquidationReason) (posid : PositionId) (price : Price) : res unit :=
  _ <- std (m !! (price, posid)); Ok tt.

(** The two arms of the match on the direction are the same with the indexes
    exchanged: [losses] has the liquidation price and the stop loss, [gains]
    the take profit prices. *)
Definition check_triggers (losses gains : gmap (Z * Z) LiquidationReason) (posid : PositionId) (pos : Position) :
    res unit :=
  let liquidation := pos_liquidation_price pos in
  _ <- match liquidation with
       | Some price => load_trigger losses posid price
       | None => ensure_missing losses posid
       end;
  _ <- match take_profit_total pos with
       | Some price => load_trigger gains posid price
       | None => Ok tt
       end;
  _ <- match stop_loss_override_notional pos with
       | Some price => load_trigger losses posid price
       | None => if is_some liquidation then ensure_at_most_one losses posid
                 else ensure_missing losses posid
       end;
  match take_profit_trader_notional pos with
  | Some price => load_trigger gains posid price
  | None => if is_some (take_profit_total pos) then ensure_at_most_one gains posid
            else ensure_missing gains posid
  end.

Definition liquidation_prices (m : MarketCtx) : res unit :=
  let s := m_positions m in
  for_each (fun '(posid, pos) =>
    match pos_direction pos with
    | LongToNotional => check_triggers (PRICE_TRIGGER_DESC s) (PRICE_TRIGGER_ASC s) posid pos
    | ShortToNotional => check_triggers (PRICE_TRIGGER_ASC s) (PRICE_TRIGGER_DESC s) posid pos
    end) (entries (OPEN_POSITIONS s)).

(** ** The pool *)

Definition locked_balances (m : MarketCtx) : res unit :=
  total <- add_each (fun e => counter_collateral e.2) (entries (OPEN_POSITIONS (m_positions m))) 0;
  ensure_that (locked (liquidity_stats m) =? total).

(** The sums of the tokens of the providers. *)
Fixpoint sum_tokens (l : list (Addr * LiquidityStatsByAddr)) (sum_lp sum_xlp : LpToken) :
    res (LpToken * LpToken) :=
  match l with
  | [] => Ok (sum_lp, sum_xlp)
  | (_, stats) :: l =>
      _ <- ensure_that (negb (stats_is_empty stats));
      sum_lp <- ud_checked_add sum_lp (lp stats);
      sum_xlp <- ud_checked_add sum_xlp (xlp stats);
      sum_lp <- match unstaking stats with
                | Some u => pending <- ud_checked_sub (xlp_amount u) (collected u);
                            ud_checked_add sum_lp pending
                | None => Ok sum_lp
                end;
      sum_tokens l sum_lp sum_xlp
  end.

(** [bank] and [cw20] are what the chain answers about the contract's balance. *)
Context (bank cw20 : string -> res Z).

Definition liquidity_balances (m : MarketCtx) : res unit :=
  if should_reset_lp_balances m then Ok tt
  else
    let stats := liquidity_stats m in
    '(sum_lp, sum_xlp) <- sum_tokens (iter_liquidity_stats_addrs m) 0 0;
    _ <- ensure_that (total_lp stats =? sum_lp);
    _ <- ensure_that (total_xlp stats =? sum_xlp);
    actual <- query_balance (st_token st) bank cw20;
    held <- ud_checked_add (locked stats) (unlocked stats);
    ensure_that (held <=? actual).

Definition sufficient_collateral_for_margins (m : MarketCtx) : res unit :=
  let open := entries (OPEN_POSITIONS (m_positions m)) in
  _ <- for_each (fun '(_, pos) =>
         total <- margin_total (pos_liquidation_margin pos);
         ensure_that (total <=? active_collateral pos)) open;
  total <- add_each (fun e => margin_funding (pos_liquidation_margin e.2)) open 0;
  ensure_that (total =? get_total_funding_margin m).

(** ** The answers to [lp_info] *)

Definition check_lp_info (info : LpInfoResp) : res unit :=
  _ <- ensure_that (Bool.eqb (ud_is_zero (info_lp_amount info)) (ud_is_zero (info_lp_collateral info)));
  _ <- ensure_that (Bool.eqb (ud_is_zero (info_xlp_amount info)) (ud_is_zero (info_xlp_collateral info)));
  a <- ud_checked_add (info_available_yield_lp info) (info_available_yield_xlp info);
  b <- ud_checked_add a (info_available_crank_rewards info);
  c <- ud_checked_add b (info_available_referrer_rewards info);
  _ <- ensure_that (info_available_yield info =? c);
  match info_unstaking info with
  | None => Ok tt
  | Some u =>
      a <- ud_checked_add (us_collected u) (us_available u);
      b <- ud_checked_add a (us_pending u);
      ensure_that (us_xlp_unstaking u =? b)
  end.

Definition valid_lp_info (m : MarketCtx) : res unit :=
  for_each (fun '(lp_addr, _) => info <- lp_info st m lp_addr; check_lp_info info)
    (iter_liquidity_stats_addrs m).

(** ** The checks before an entry point *)

Definition sanity_check (m : MarketCtx) : res unit :=
  _ <- panics "next_last_liquifunding sanity check failed" (res_ok (next_last_liquifunding m));
  _ <- panics "liquidation_prices sanity check failed" (res_ok (liquidation_prices m));
  _ <- panics "locked balance does not match counter collateral" (res_ok (locked_balances m));
  _ <- panics "liquidity_balances sanity check failed" (res_ok (liquidity_balances m));
  _ <- panics "insufficient collateral for margins" (res_ok (sufficient_collateral_for_margins m));
  panics "Invalid lp_info response found" (res_ok (valid_lp_info m)).

(** ** The balance after an entry point *)

(** The order in which a [HashMap] is iterated is unspecified: [map_to_list]
    stands for it. *)
Definition sub_totals_load (m : MarketCtx) : res SubTotals :=
  pending <- add_each (fun e => e.2) (map_to_list (fund_transfers m)) 0;
  deferred <- deferred_exec_deposit_balance m;
  positions <- add_each (fun e => active_collateral e.2) (entries (OPEN_POSITIONS (m_positions m))) 0;
  orders <- add_each lo_collateral (limit_order_load_all m) 0;
  Ok (mkSubTotals positions orders pending (liquidity_stats m) (ALL_FEES m)
        (get_total_net_funding_paid m) (default 0 (DELTA_NEUTRALITY_FUND m)) deferred).

Definition sub_totals_total (t : SubTotals) : res Collateral :=
  positive_total <- add_each (fun x => x)
    [pending_transfer t; position_collateral t; limit_order_collateral t;
     unlocked (liquidity_stats_part t); locked (liquidity_stats_part t);
     fees_protocol (fees_part t); fees_wallets (fees_part t); fees_crank (fees_part t);
     fees_referral (fees_part t); delta_neutrality_fund_part t; deferred_exec_part t] 0;
  total <- signed_checked_add (into_signed positive_total) (net_funding_paid t);
  of_option (AnyhowError "Calculated total is negative") (try_into_non_negative_value total).

(** ["0.0001".parse()]. *)
Definition balance_epsilon : Signed := new_positive (10 ^ 14).

Definition token_balance (m : MarketCtx) : res unit :=
  subtotals <- sub_totals_load m;
  calculated_total <- sub_totals_total subtotals;
  token_balance <- query_balance (st_token st) bank cw20;
  d <- signed_checked_sub (into_signed token_balance) (into_signed calculated_total);
  ensure (signed_ltb (signed_abs d) balance_epsilon) (AnyhowError "Mismatched token balance").

Definition sanity_check_post_execute (m : MarketCtx) : res unit :=
  _ <- sanity_check m;
  panics "token_balance check failed" (res_ok (token_balance m)).

End Definitions.
