(* ===== verification/SanityInv.v ===== *)
(** * What the market's own checks find

    The checks of [Sanity.v] against the invariants: the sums, margins and
    triggers they recompute are those every reachable state has, so a check
    fails exactly on the parts that are no invariant of the market. *)

From stdpp Require Import base option gmap strings list pretty sorting.
From Stdlib Require Import ZArith Lia.
From S2P Require Import Prelude Index Storage Cosmwasm Types Number Time Market Price Token DataSeries Config Position Trading State Pool LpHistory Liquidity Books LiquidityInv Fees FeesInv LiquiditySystem Funding FundingInv DeltaNeutrality DeltaNeutralityInv OpenInterest PositionStore BalanceSheet PositionStoreInv MarketInv Orders Deferred OrdersInv DeferredInv QueueInv CrankInv SystemEffects MarketSystem Sanity.
Local Open Scope Z_scope.

(** ** Loops *)

Lemma ensure_that_ok b u : ensure_that b = Ok u <-> b = true.
Proof. apply ensure_ok. Qed.

Lemma for_each_ok {A} (f : A -> res unit) l u :
  for_each f l = Ok u <-> forall x, x ∈ l -> f x = Ok tt.
Proof.
  destruct u. induction l as [|x l IH]; simpl.
  - split; [|done]. intros _ x Hx. by apply elem_of_nil in Hx.
  - rewrite rbind_ok. split.
    + intros ([] & Hx & Hl) y [->|Hy]%elem_of_cons; [done|]. by apply IH.
    + intros H. exists tt. split; [apply H; by left|]. apply IH. intros y Hy. apply H. by right.
Qed.

Section Entries.
Context {K V : Type} `{Countable K, KeyOrder K}.
Implicit Types (m : gmap K V).

Lemma elem_of_entries m k v : (k, v) ∈ entries m <-> m !! k = Some v.
Proof. destruct (range_asc_spec (fun _ => true) m) as (_ & _ & H1). rewrite H1. naive_solver. Qed.

Lemma entries_permutation m : entries m ≡ₚ map_to_list m.
Proof.
  unfold entries, range_asc. rewrite merge_sort_Permutation.
  apply reflexive_eq. induction (map_to_list m) as [|e l IH]; [done|].
  rewrite filter_cons_True by done. by rewrite IH.
Qed.

Lemma entries_keys_nodup m : NoDup (entries m).*1.
Proof. apply range_asc_spec. Qed.

Lemma elem_of_entries_keys m k : k ∈ (entries m).*1 <-> is_Some (m !! k).
Proof.
  rewrite list_elem_of_fmap. split.
  - intros ([k' v] & -> & Hv%elem_of_entries). by exists v.
  - intros [v Hv%elem_of_entries]. by exists (k, v).
Qed.

Lemma for_each_entries (f : K * V -> res unit) m u :
  for_each f (entries m) = Ok u <-> forall k v, m !! k = Some v -> f (k, v) = Ok tt.
Proof.
  rewrite for_each_ok. split.
  - intros Hf k v Hv. by apply Hf, elem_of_entries.
  - intros Hf [k v] Hv%elem_of_entries. by apply Hf.
Qed.
End Entries.

(** *** Sums *)

Definition list_total {A} (f : A -> Z) (l : list A) : Z := foldr (fun x acc => f x + acc) 0 l.

Lemma list_total_cons {A} (f : A -> Z) x l : list_total f (x :: l) = f x + list_total f l.
Proof. done. Qed.
Lemma list_total_permutation {A} (f : A -> Z) l l' : l ≡ₚ l' -> list_total f l = list_total f l'.
Proof. induction 1; simpl; lia. Qed.
Lemma list_total_nonneg {A} (f : A -> Z) l :
  (forall x, x ∈ l -> 0 <= f x) -> 0 <= list_total f l.
Proof.
  induction l as [|x l IH]; intros Hf; simpl; [lia|].
  assert (0 <= f x) by (apply Hf; by left).
  assert (0 <= list_total f l); [|lia]. apply IH. intros y Hy. apply Hf. by right.
Qed.
Lemma list_total_map {K V} `{Countable K} (f : V -> Z) (m : gmap K V) :
  list_total (fun e => f e.2) (map_to_list m) = map_sum f m.
Proof. by rewrite map_sum_foldr. Qed.
Lemma list_total_entries {K V} `{Countable K, KeyOrder K} (f : V -> Z) (m : gmap K V) :
  list_total (fun e => f e.2) (entries m) = map_sum f m.
Proof. rewrite (list_total_permutation _ _ _ (entries_permutation m)). apply list_total_map. Qed.
Lemma list_total_fmap {A B} (f : B -> Z) (g : A -> B) l :
  list_total f (g <$> l) = list_total (fun x => f (g x)) l.
Proof. induction l as [|x l IH]; [done|]. simpl. f_equal. exact IH. Qed.

Section Sums.
Context {CW : CosmwasmStd} {CWS : CosmwasmStdSpec CW}.

Lemma ud_add_fits (a b : Z) : 0 <= a + b <= U256_MAX -> ud_checked_add a b = Ok (a + b).
Proof. intros Hd. by apply ud_add_ok. Qed.
Lemma ud_sub_fits (a b : Z) : 0 <= a - b <= U256_MAX -> ud_checked_sub a b = Ok (a - b).
Proof. intros Hd. by apply ud_sub_ok. Qed.

(** A loop that adds is exact, and overflows where the total does. *)
Lemma add_each_ok {A} (f : A -> Z) l t r :
  is_dec t -> (forall x, x ∈ l -> 0 <= f x) ->
  add_each f l t = Ok r <-> r = t + list_total f l /\ is_dec r.
Proof.
  revert t. induction l as [|x l IH]; intros t Ht Hf; simpl.
  - split; [intros [= <-]; split; [lia|done]|intros [-> ?]; f_equal; lia].
  - assert (0 <= f x) as Hx by (apply Hf; by left).
    assert (0 <= list_total f l) as Hl by (apply list_total_nonneg; intros; apply Hf; by right).
    rewrite rbind_ok. split.
    + intros (t' & [-> Ht']%ud_add_ok & H). apply IH in H as [-> Hd]; [|done|].
      * split; [lia|done].
      * intros y Hy. apply Hf. by right.
    + intros [-> Hd]. exists (t + f x).
      assert (is_dec (t + f x)) by (unfold is_dec in *; lia).
      split; [by apply ud_add_ok|]. apply IH; [done|intros y Hy; apply Hf; by right|].
      split; [lia|done].
Qed.

(** The sum over a map whose total is known to fit. *)
Lemma add_each_entries {K V} `{Countable K, KeyOrder K} (f : V -> Z) (m : gmap K V) :
  (forall k v, m !! k = Some v -> 0 <= f v) -> is_dec (map_sum f m) ->
  add_each (fun e => f e.2) (entries m) 0 = Ok (map_sum f m).
Proof.
  intros Hf Hd. apply add_each_ok; [apply is_dec_0|..].
  - intros [k v] Hv%elem_of_entries. by apply (Hf k).
  - by rewrite list_total_entries.
Qed.
End Sums.

(** ** Positions *)

Section Positions.
Context {CW : CosmwasmStd} {CWS : CosmwasmStdSpec CW}.
Context (m : MarketCtx).
Context {lost : Collateral}.
Hypothesis Hinv : market_inv lost (sheet m).
Local Abbreviation open := (OPEN_POSITIONS (m_positions m)).

Lemma open_inv id p : open !! id = Some p -> pos_inv p.
Proof. intros Hp. by destruct (mi_open _ Hinv id p Hp). Qed.
Lemma open_id id p : open !! id = Some p -> pos_id p = id.
Proof. apply (pi_ids _ _ (mi_store _ Hinv)). Qed.

(** The locked collateral is the counter collateral exactly while none of it
    was lost. *)
Lemma locked_balances_exact : locked_balances m = Ok tt <-> lost = 0.
Proof.
  pose proof (mi_locked _ Hinv) as Hl. change (s_locked (sheet m)) with (locked (liquidity_stats m)) in Hl.
  change (open_positions (sheet m)) with open in Hl. unfold locked_balances. rewrite rbind_ok.
  setoid_rewrite ensure_that_ok. setoid_rewrite Z.eqb_eq.
  assert (forall t, add_each (fun e => counter_collateral e.2) (entries open) 0 = Ok t <->
    t = map_sum counter_collateral open /\ is_dec t) as Ht.
  { intros t. rewrite add_each_ok; [by rewrite list_total_entries|apply is_dec_0|].
    intros [id p] Hp%elem_of_entries%open_inv. destruct (pv_ok _ Hp) as [_ Hc _]. simpl. lia. }
  pose proof (ty_stats _ (mi_typed _ Hinv)) as [Hd _]. change (s_locked (sheet m)) with (locked (liquidity_stats m)) in Hd.
  split.
  - intros (t & [-> _]%Ht & E). lia.
  - intros E. eexists. split; [|reflexivity]. apply Ht. split; [lia|done].
Qed.

(** The sum of a margin that the collateral covers is computed. *)
Lemma margin_total_covered p : pos_inv p -> margin_total (pos_liquidation_margin p) = Ok (margin_sum (pos_liquidation_margin p)).
Proof.
  intros [[Ha _ _] [[Hb Hf Hc] Hd He] Hcov]. unfold covered, margin_sum in *. unfold margin_total.
  set (mg := pos_liquidation_margin p) in *. unfold is_dec in *.
  rewrite ud_add_fits by lia. simpl. rewrite (ud_add_fits (margin_delta_neutrality mg)) by lia.
  simpl. rewrite ud_add_fits by lia. simpl. rewrite ud_add_fits by lia. f_equal. lia.
Qed.

Lemma sufficient_collateral_pass : sufficient_collateral_for_margins m = Ok tt.
Proof.
  unfold sufficient_collateral_for_margins. pose proof (pi_margin _ _ (mi_store _ Hinv)) as Hm.
  change (s_margin (sheet m)) with (get_total_funding_margin m) in Hm.
  change (OPEN_POSITIONS (s_positions (sheet m))) with open in Hm.
  rewrite (proj2 (for_each_entries _ open tt)).
  - simpl. rewrite (add_each_entries (fun p => margin_funding (pos_liquidation_margin p))).
    + simpl. rewrite Hm. unfold funding_margin. by rewrite Z.eqb_refl.
    + intros id p Hp%open_inv. destruct (pv_margins _ Hp) as [[_ Hf _] _ _]. unfold is_dec in Hf. lia.
    + fold funding_margin. rewrite <- Hm. apply (ty_margin _ (mi_typed _ Hinv)).
  - intros id p Hp%open_inv. rewrite margin_total_covered by done. simpl.
    apply ensure_that_ok, Z.leb_le, (pv_covered _ Hp).
Qed.
End Positions.

(** *** The price triggers *)

Section Triggers.
Implicit Types (t : gmap (Z * Z) LiquidationReason).

Lemma load_trigger_ok t id price u : load_trigger t id price = Ok u <-> is_Some (t !! (price, id)).
Proof.
  unfold load_trigger. rewrite rbind_ok. setoid_rewrite std_ok. destruct u. unfold is_Some. naive_solver.
Qed.

Lemma ensure_missing_ok t id u :
  ensure_missing t id = Ok u <-> forall price, t !! (price, id) = None.
Proof.
  unfold ensure_missing. rewrite for_each_ok. split.
  - intros Hk price. apply eq_None_not_Some. intros Hs%elem_of_entries_keys.
    apply Hk, ensure_that_ok in Hs. by rewrite Z.eqb_refl in Hs.
  - intros Hn [price x] [r Hr]%elem_of_entries_keys. apply ensure_that_ok, negb_true_iff, Z.eqb_neq.
    intros ->. by rewrite Hn in Hr.
Qed.

Lemma at_most_one_found keys id u :
  at_most_one_loop keys id true = Ok u <-> forall price, (price, id) ∉ keys.
Proof.
  destruct u. induction keys as [|[p x] keys IH]; simpl.
  - split; [|done]. intros _ price []%elem_of_nil.
  - destruct (Z.eqb_spec x id) as [->|Hne].
    + split; [done|]. intros Hn. destruct (Hn p). by left.
    + rewrite IH. setoid_rewrite elem_of_cons. naive_solver.
Qed.
Lemma at_most_one_ok t id u :
  ensure_at_most_one t id = Ok u <->
  forall a b, is_Some (t !! (a, id)) -> is_Some (t !! (b, id)) -> a = b.
Proof.
  unfold ensure_at_most_one. setoid_rewrite <- elem_of_entries_keys.
  pose proof (entries_keys_nodup t) as Hd. destruct u.
  induction (entries t).*1 as [|[p x] keys IH]; simpl.
  - split; [|done]. intros _ a b []%elem_of_nil.
  - apply NoDup_cons in Hd as [Hx Hd]. destruct (Z.eqb_spec x id) as [->|Hne].
    + rewrite at_most_one_found. setoid_rewrite elem_of_cons. split.
      * intros Hn a b [[= ->]|Ha] [[= ->]|Hb]; [done|by apply Hn in Hb|by apply Hn in Ha..].
      * intros Hall price Hin. apply Hx. by rewrite <- (Hall price p) by auto.
    + rewrite (IH Hd). setoid_rewrite elem_of_cons. naive_solver.
Qed.

(** Given the triggers of the position, the checks fail on one shape only. *)
Lemma check_triggers_ok losses gains id p :
  (forall price, is_Some (losses !! (price, id)) <->
     pos_liquidation_price p = Some price \/ stop_loss_override_notional p = Some price) ->
  (forall price, is_Some (gains !! (price, id)) <->
     take_profit_total p = Some price \/ take_profit_trader_notional p = Some price) ->
  check_triggers losses gains id p = Ok tt <->
  (pos_liquidation_price p = None -> stop_loss_override_notional p = None).
Proof.
  intros HL HG. unfold check_triggers. rewrite rbind_ok.
  setoid_rewrite rbind_ok. setoid_rewrite rbind_ok.
  assert (forall t x o, (forall price, is_Some (t !! (price, id)) <-> o = Some price \/ None = Some price) ->
    o = Some x -> ensure_at_most_one t id = Ok tt) as Hone.
  { intros t x o Ht ->. apply at_most_one_ok. setoid_rewrite Ht. naive_solver. }
  assert (forall t, (forall price, is_Some (t !! (price, id)) <-> None = Some price \/ None = Some price) ->
    ensure_missing t id = Ok tt) as Hnone.
  { intros t Ht. apply ensure_missing_ok. intros price. apply eq_None_not_Some. rewrite Ht. naive_solver. }
  assert (match take_profit_total p with Some price => load_trigger gains id price | None => Ok tt end = Ok tt) as ->.
  { destruct (take_profit_total p) as [x|]; [|done]. apply load_trigger_ok, HG. by left. }
  assert (match take_profit_trader_notional p with
    | Some price => load_trigger gains id price
    | None => if is_some (take_profit_total p) then ensure_at_most_one gains id else ensure_missing gains id
    end = Ok tt) as ->.
  { destruct (take_profit_trader_notional p) as [y|]; [apply load_trigger_ok, HG; by right|].
    destruct (take_profit_total p) as [x|]; simpl; [by eapply Hone|by apply Hnone]. }
  destruct (pos_liquidation_price p) as [x|] eqn:El, (stop_loss_override_notional p) as [y|] eqn:Es; simpl.
  - split; [done|]. intros _. exists tt. split; [by apply load_trigger_ok, HL; left|].
    exists tt. split; [done|]. exists tt. split; [by apply load_trigger_ok, HL; right|done].
  - split; [done|]. intros _. exists tt. split; [by apply load_trigger_ok, HL; left|].
    exists tt. split; [done|]. exists tt. split; [by eapply Hone|done].
  - split; [|by intros ?%(fun H => H eq_refl)]. intros (u & Hm & _). exfalso.
    eapply ensure_missing_ok in Hm. apply eq_None_not_Some in Hm. by apply Hm, HL; right.
  - split; [done|]. intros _. exists tt. split; [by apply Hnone|].
    exists tt. split; [done|]. exists tt. split; [by apply Hnone|done].
Qed.
End Triggers.

Section Indexes.
Context {CW : CosmwasmStd} {CWS : CosmwasmStdSpec CW}.
Context (m : MarketCtx).
Context {lost : Collateral}.
Hypothesis Hinv : market_inv lost (sheet m).
Local Abbreviation open := (OPEN_POSITIONS (m_positions m)).
Local Abbreviation next := (NEXT_LIQUIFUNDING (m_positions m)).

(** An index has the triggers of an open position, under its id. *)
Lemma expected_is_Some (triggers : Position -> TriggerList) (t : Triggers) id p price :
  (forall k, t !! k = expected triggers open k) -> open !! id = Some p ->
  is_Some (t !! (price, id)) <-> (price, id) ∈ (triggers p).*1.
Proof.
  intros Ht Hp. rewrite Ht. unfold expected. simpl. rewrite Hp. simpl.
  rewrite <- not_eq_None_Some, save_all_keys. split; [apply dec_stable|tauto].
Qed.
Lemma loss_elem p price :
  (price, pos_id p) ∈ (loss_triggers p).*1 <->
  pos_liquidation_price p = Some price \/ stop_loss_override_notional p = Some price.
Proof. unfold loss_triggers. rewrite fmap_app, elem_of_app, !price_key_elem. naive_solver. Qed.
Lemma gain_elem p price :
  (price, pos_id p) ∈ (gain_triggers p).*1 <->
  take_profit_total p = Some price \/ take_profit_trader_notional p = Some price.
Proof. unfold gain_triggers. rewrite fmap_app, elem_of_app, !price_key_elem. naive_solver. Qed.

(** The trigger check fails for a position that has a stop loss and no
    liquidation price, and for no other. *)
Lemma liquidation_prices_exact :
  liquidation_prices m = Ok tt <->
  forall id p, open !! id = Some p ->
    pos_liquidation_price p = None -> stop_loss_override_notional p = None.
Proof.
  unfold liquidation_prices. rewrite for_each_entries.
  assert (forall id p, open !! id = Some p ->
    (match pos_direction p with
     | LongToNotional =>
         check_triggers (PRICE_TRIGGER_DESC (m_positions m)) (PRICE_TRIGGER_ASC (m_positions m)) id p
     | ShortToNotional =>
         check_triggers (PRICE_TRIGGER_ASC (m_positions m)) (PRICE_TRIGGER_DESC (m_positions m)) id p
     end = Ok tt <-> (pos_liquidation_price p = None -> stop_loss_override_notional p = None))) as Hp.
  { intros id p Hp. pose proof (open_id m Hinv id p Hp) as <-.
    pose proof (fun price => expected_is_Some _ _ _ _ price (pi_desc _ _ (mi_store _ Hinv)) Hp) as Hd.
    pose proof (fun price => expected_is_Some _ _ _ _ price (pi_asc _ _ (mi_store _ Hinv)) Hp) as Ha.
    unfold desc_triggers, asc_triggers in Hd, Ha. simpl in Hd, Ha.
    destruct (pos_direction p); apply check_triggers_ok; intros price;
      rewrite ?Hd, ?Ha, ?loss_elem, ?gain_elem; done. }
  split; intros H id p Hid; apply (Hp id p Hid), (H id p Hid).
Qed.

(** ** The due times *)

Lemma next_lookup time id :
  is_Some (next !! (time, id)) <-> exists p, open !! id = Some p /\ next_liquifunding p = time.
Proof.
  pose proof (pi_next _ _ (mi_store _ Hinv) (time, id)) as Hn. simpl in Hn.
  change (s_positions (sheet m)) with (m_positions m) in Hn. rewrite Hn. unfold expected_next. simpl.
  destruct (open !! id) as [p|]; simpl.
  - destruct (Z.eqb_spec (next_liquifunding p) time) as [E|E]; [naive_solver|].
    split; [by intros []|]. naive_solver.
  - split; [by intros []|]. by intros (? & ? & _).
Qed.

Lemma next_count : length (entries next).*1 = length (entries open).
Proof.
  transitivity (length ((entries next).*1).*2); [by rewrite !length_fmap|].
  transitivity (length (entries open).*1); [|by rewrite length_fmap].
  apply Permutation_length, NoDup_Permutation.
  - apply NoDup_fmap_2_strong; [|apply entries_keys_nodup].
    intros [t1 i1] [t2 i2] H1%elem_of_entries_keys H2%elem_of_entries_keys. simpl. intros <-.
    apply next_lookup in H1 as (p1 & Hp1 & <-). apply next_lookup in H2 as (p2 & Hp2 & <-). congruence.
  - apply entries_keys_nodup.
  - intros id. rewrite list_elem_of_fmap. setoid_rewrite elem_of_entries_keys. split.
    + intros ([t i] & -> & (p & Hp & _)%next_lookup). by exists p.
    + intros [p Hp]. exists (next_liquifunding p, id). split; [done|]. apply next_lookup. by exists p.
Qed.

(** A position is due in time: not later than one delay from now, nor than one
    delay after its last liquifunding. *)
Definition due_in_time (now delay : Z) (p : Position) : Prop :=
  (next_liquifunding p < now \/ next_liquifunding p <= now + delay) /\
  next_liquifunding p <= liquifunded_at p + delay /\ 0 <= liquifunded_at p + delay <= U64_MAX.

Context (st : State) (delay : Duration).
Hypothesis Hdelay : duration_from_seconds (liquifunding_delay_seconds (st_config st)) = Ok delay.

Lemma check_next_ok time id p :
  open !! id = Some p -> next_liquifunding p = time ->
  check_next_liquifunding st m delay (time, id) = Ok tt <-> due_in_time (st_now st) delay p.
Proof.
  intros Hp <-. unfold check_next_liquifunding, due_in_time. rewrite Hp. simpl.
  destruct (Z.ltb_spec (next_liquifunding p) (st_now st)) as [Hlt|Hge]; simpl.
  - rewrite rbind_ok. setoid_rewrite timestamp_add_ok. setoid_rewrite ensure_that_ok.
    setoid_rewrite Z.leb_le. split; [intros (r & [-> ?] & ?); auto|].
    intros (_ & ? & ?). by eexists.
  - unfold timestamp_checked_sub. rewrite (proj2 (Z.leb_le _ _) Hge). simpl. rewrite rbind_ok.
    setoid_rewrite ensure_that_ok. setoid_rewrite Z.leb_le. setoid_rewrite rbind_ok.
    setoid_rewrite timestamp_add_ok. setoid_rewrite ensure_that_ok. setoid_rewrite Z.leb_le.
    split; [intros (_ & ? & r & [-> ?] & ?); split_and!; lia|].
    intros ([?|?] & ? & ?); [lia|]. exists tt. split; [lia|]. by eexists.
Qed.

Lemma next_last_liquifunding_exact :
  next_last_liquifunding st m = Ok tt <->
  forall id p, open !! id = Some p -> due_in_time (st_now st) delay p.
Proof.
  unfold next_last_liquifunding. rewrite Hdelay. simpl.
  rewrite next_count, Nat.eqb_refl. rewrite rbind_ok. simpl. split.
  - intros (u & Hk & _) id p Hp. rewrite for_each_ok in Hk.
    apply (check_next_ok _ id p Hp eq_refl), Hk, elem_of_entries_keys, next_lookup. by exists p.
  - intros Hdue. exists tt. split.
    + apply for_each_ok. intros [t id] (p & Hp & E)%elem_of_entries_keys%next_lookup.
      apply (check_next_ok _ id p Hp E). by apply (Hdue id).
    + apply for_each_entries. intros id p Hp. apply ensure_that_ok.
      destruct (proj2 (next_lookup (next_liquifunding p) id)) as [v ->]; [by exists p|done].
Qed.
End Indexes.

(** ** The total of what the market holds *)

Lemma reverse_sorted {A} (R S : relation A) l :
  (forall a b, R a b -> S b a) -> StronglySorted R l -> StronglySorted S (reverse l).
Proof.
  intros HS. induction 1 as [|x l Hs IH Hx]; [constructor|]. rewrite reverse_cons.
  apply StronglySorted_app_2; [|done|by repeat constructor].
  intros y z Hy ->%list_elem_of_singleton. rewrite elem_of_reverse in Hy.
  apply HS. exact (proj1 (Forall_forall _ _) Hx y Hy).
Qed.

Section Totals.
Context {CW : CosmwasmStd} {CWS : CosmwasmStdSpec CW}.

Lemma pending_deposit_nonneg d : item_typed (de_item d) -> 0 <= pending_deposit d.
Proof.
  unfold pending_deposit. destruct (is_pending _); [|done].
  destruct (de_item d); simpl; intros; try lia.
Qed.

Lemma none_pending_total (l : list (DeferredExecId * DeferredExecWithStatus)) :
  (forall x, x ∈ l -> is_pending (de_status x.2) = false) ->
  list_total (fun e => pending_deposit e.2) l = 0.
Proof.
  induction l as [|x l IH]; intros Hn; [done|]. simpl. unfold pending_deposit at 1.
  rewrite Hn by (by left). apply IH. intros y Hy. apply Hn. by right.
Qed.

(** Where the pending items are those with the greatest ids, the loop that
    ends at the first processed item adds them all. *)
Lemma deposit_balance_loop_ok (threshold : Z) l t r :
  StronglySorted (fun a b => b.1 <= a.1) l -> is_dec t ->
  (forall id d, (id, d) ∈ l -> de_id d = id /\ item_typed (de_item d) /\
     (is_pending (de_status d) = true <-> threshold <= id)) ->
  deposit_balance_loop l t = Ok r <-> r = t + list_total (fun e => pending_deposit e.2) l /\ is_dec r.
Proof.
  intros Hs. revert t. induction Hs as [|[id d] l Hs IH Hle]; intros t Ht Hl; simpl.
  - split; [intros [= <-]; split; [lia|done]|intros [-> ?]; f_equal; lia].
  - destruct (Hl id d) as (-> & Hty & Hp); [by left|]. rewrite Z.eqb_refl. simpl.
    assert (forall x, x ∈ l -> 0 <= pending_deposit x.2) as Hnn.
    { intros [i e] Hx. apply pending_deposit_nonneg, (Hl i e). by right. }
    pose proof (pending_deposit_nonneg d Hty) as Hd. pose proof (list_total_nonneg _ _ Hnn) as Hrest.
    assert (pending_deposit d = if is_pending (de_status d) then deposited_amount (de_item d) else 0)
      as Ed by done.
    destruct (is_pending (de_status d)) eqn:Es; simpl.
    + rewrite rbind_ok. setoid_rewrite ud_add_ok. rewrite Ed in *. split.
      * intros (t' & [-> Ht'] & H). apply IH in H as [-> ?]; [|done|]; [split; [lia|done]|].
        intros i e Hi. apply Hl. by right.
      * intros [-> Hr]. eexists. split; [split; [done|unfold is_dec in *; lia]|].
        apply IH; [unfold is_dec in *; lia|intros i e Hi; apply Hl; by right|]. split; [lia|done].
    + rewrite none_pending_total, Ed.
      { split; [intros [= <-]; split; [lia|done]|intros [-> _]; f_equal; lia]. }
      intros [i e] Hi. destruct (Hl i e) as (_ & _ & Hpe); [by right|]. simpl.
      apply (proj1 (Forall_forall _ _)) with (x := (i, e)) in Hle; [|done]. simpl in Hle.
      destruct (is_pending (de_status e)); [|done]. assert (threshold <= id); [|naive_solver].
      transitivity i; [by apply Hpe|done].
Qed.

(** *** The sub totals *)

(** The amounts beside the balance sheet are unsigned. *)
Record amounts_typed (m : MarketCtx) : Prop := {
  am_fees : 0 <= fees_wallets (ALL_FEES m) /\ 0 <= fees_protocol (ALL_FEES m) /\
            0 <= fees_crank (ALL_FEES m) /\ 0 <= fees_referral (ALL_FEES m);
  am_transfers : forall a x, fund_transfers m !! a = Some x -> 0 <= x;
}.

(** What the market holds before the funding account is added to it. *)
Definition positive_part (s : Sheet) : Z := obligations s - sval (s_paid s).

Context (st : State) (m : MarketCtx) (p : phase).
Context {lost : Collateral}.
Hypothesis Hinv : ledger_inv st lost p (sheet m).
Hypothesis Ham : amounts_typed m.
Local Abbreviation queue := (m_deferred m).

Lemma deposit_balance_exact r :
  deferred_exec_deposit_balance m = Ok r <-> r = deferred_total (sheet m) /\ is_dec r.
Proof.
  pose proof (li_queue _ _ _ Hinv) as Hq. change (s_deferred (sheet m)) with queue in Hq.
  assert (exists th, forall id, waiting p queue id <-> th <= id) as [th Hth].
  { unfold waiting. pose proof (qi_phase _ _ Hq). destruct p as [|i|i].
    - exists (last_processed queue + 1). intros id. split; [intros [?|?]; [lia|done]|left; lia].
    - exists (last_processed queue). destruct H as [-> _]. intros id. split.
      + intros [?|[= ->]]; lia.
      + intros Hle. destruct (decide (id = last_processed queue)) as [->|]; [by right|left; lia].
    - exists (last_processed queue + 1). intros id. split; [intros [?|?]; [lia|done]|left; lia]. }
  unfold deferred_exec_deposit_balance, deferred_total. simpl.
  rewrite <- (list_total_entries pending_deposit).
  rewrite <- (list_total_permutation _ _ _ (reverse_Permutation _)).
  apply (deposit_balance_loop_ok th); [|apply is_dec_0|].
  - apply (reverse_sorted entry_le); [|apply range_asc_spec].
    intros a b Hab. unfold entry_le in Hab. simpl in Hab. by apply Z.ltb_ge in Hab.
  - unfold range_desc. intros id d Hd. rewrite elem_of_reverse in Hd. apply elem_of_entries in Hd.
    destruct (qi_items _ _ Hq id d Hd) as (_ & ? & ? & Hp & _). split_and!; [done..|]. by rewrite Hp, Hth.
Qed.

Lemma deferred_total_nonneg : 0 <= deferred_total (sheet m).
Proof.
  apply map_sum_nonneg. intros id d Hd. apply pending_deposit_nonneg.
  by destruct (qi_items _ _ (li_queue _ _ _ Hinv) id d Hd) as (_ & _ & ? & _).
Qed.
Lemma active_nonneg id q : OPEN_POSITIONS (m_positions m) !! id = Some q -> 0 <= active_collateral q.
Proof.
  intros Hq%(open_inv m (bi_market _ _ (li_books _ _ _ Hinv))). destruct (pv_ok _ Hq) as [Ha _ _]. lia.
Qed.
Lemma order_nonneg id o : LIMIT_ORDERS (m_orders m) !! id = Some o -> 0 <= lo_collateral o.
Proof. intros Ho. destruct (oi_orders _ _ (bi_orders _ _ (li_books _ _ _ Hinv)) id o Ho). lia. Qed.

Lemma sub_totals_load_ok t :
  sub_totals_load m = Ok t <->
  is_dec (s_transfers (sheet m)) /\ is_dec (deferred_total (sheet m)) /\
  is_dec (active_total (sheet m)) /\ is_dec (orders_total (sheet m)) /\
  t = mkSubTotals (active_total (sheet m)) (orders_total (sheet m)) (s_transfers (sheet m))
        (liquidity_stats m) (ALL_FEES m) (s_paid (sheet m)) (s_dnf (sheet m)) (deferred_total (sheet m)).
Proof.
  unfold sub_totals_load. setoid_rewrite rbind_ok. setoid_rewrite rbind_ok. setoid_rewrite rbind_ok.
  setoid_rewrite rbind_ok. setoid_rewrite deposit_balance_exact.
  assert (forall r, add_each (fun e : Addr * Collateral => e.2) (map_to_list (fund_transfers m)) 0 = Ok r <->
    r = s_transfers (sheet m) /\ is_dec r) as Ht.
  { intros r. rewrite add_each_ok; [|apply is_dec_0|].
    - change (fun e : Addr * Collateral => e.2) with (fun e : Addr * Collateral => id e.2).
      by rewrite list_total_map.
    - intros [a x] Hx%elem_of_map_to_list. by apply (am_transfers _ Ham a). }
  assert (forall r, add_each (fun e => active_collateral e.2) (entries (OPEN_POSITIONS (m_positions m))) 0 = Ok r <->
    r = active_total (sheet m) /\ is_dec r) as Ha.
  { intros r. rewrite add_each_ok; [|apply is_dec_0|].
    - by rewrite list_total_entries.
    - intros [id q] Hq%elem_of_entries. by eapply active_nonneg. }
  assert (forall r, add_each lo_collateral (limit_order_load_all m) 0 = Ok r <->
    r = orders_total (sheet m) /\ is_dec r) as Ho.
  { intros r. unfold limit_order_load_all. rewrite add_each_ok; [|apply is_dec_0|].
    - by rewrite list_total_fmap, list_total_entries.
    - intros o ([id o'] & -> & Ho%elem_of_entries)%list_elem_of_fmap. by eapply order_nonneg. }
  setoid_rewrite Ht. setoid_rewrite Ha. setoid_rewrite Ho. split.
  - intros (? & [-> ?] & ? & [-> ?] & ? & [-> ?] & ? & [-> ?] & [= <-]). done.
  - intros (? & ? & ? & ? & ->). do 4 (eexists; split; [by split|]). done.
Qed.

Lemma sub_totals_total_typed t r :
  (forall x, x ∈ [pending_transfer t; position_collateral t; limit_order_collateral t;
     unlocked (liquidity_stats_part t); locked (liquidity_stats_part t);
     fees_protocol (fees_part t); fees_wallets (fees_part t); fees_crank (fees_part t);
     fees_referral (fees_part t); delta_neutrality_fund_part t; deferred_exec_part t] -> 0 <= x) ->
  signed_ok (net_funding_paid t) ->
  let positive := pending_transfer t + position_collateral t + limit_order_collateral t +
    unlocked (liquidity_stats_part t) + locked (liquidity_stats_part t) + fees_total (fees_part t) +
    delta_neutrality_fund_part t + deferred_exec_part t in
  sub_totals_total t = Ok r <->
  is_dec positive /\ r = positive + sval (net_funding_paid t) /\ is_dec r.
Proof.
  intros Hnn Hpaid positive. unfold sub_totals_total. rewrite rbind_ok.
  set (l := [_; _; _; _; _; _; _; _; _; _; _]) in *.
  assert (list_total (fun x => x) l = positive) as El
    by (unfold l, positive, fees_total; simpl; lia).
  setoid_rewrite add_each_ok; [|apply is_dec_0|exact Hnn]. rewrite El.
  assert (forall x, is_dec x ->
    (total <- signed_checked_add (into_signed x) (net_funding_paid t);
     of_option (AnyhowError "Calculated total is negative") (try_into_non_negative_value total)) = Ok r <->
    r = x + sval (net_funding_paid t) /\ is_dec r) as Hadd.
  { intros x Hx. transitivity (ud_checked_add_signed x (net_funding_paid t) = Ok r).
    - unfold ud_checked_add_signed. rewrite !rbind_ok. by setoid_rewrite of_option_ok.
    - rewrite ud_checked_add_signed_ok by done. naive_solver. }
  split.
  - intros (x & [-> Hx] & H). split; [done|]. by apply Hadd in H.
  - intros (Hp & Hr). exists positive. split; [split; [lia|done]|]. by apply Hadd.
Qed.

(** The total of the checks is what the market owes. *)
Lemma sub_totals_total_ok t :
  (s <- sub_totals_load m; sub_totals_total s) = Ok t <->
  is_dec (positive_part (sheet m)) /\ t = obligations (sheet m) /\ is_dec t.
Proof.
  rewrite rbind_ok. setoid_rewrite sub_totals_load_ok.
  pose proof (mi_typed _ (bi_market _ _ (li_books _ _ _ Hinv))) as [[Hl Hu] Hpaid _ Hdnf _].
  destruct (am_fees _ Ham) as (Hf1 & Hf2 & Hf3 & Hf4).
  assert (0 <= s_transfers (sheet m)) as Htr by (apply map_sum_nonneg, am_transfers, Ham).
  assert (0 <= active_total (sheet m)) as Hact by (apply map_sum_nonneg, active_nonneg).
  assert (0 <= orders_total (sheet m)) as Hord by (apply map_sum_nonneg, order_nonneg).
  pose proof deferred_total_nonneg as Hdef.
  set (parts := mkSubTotals _ _ _ _ _ _ _ _).
  assert (sub_totals_total parts = Ok t <->
    is_dec (positive_part (sheet m)) /\ t = obligations (sheet m) /\ is_dec t) as Htot.
  { rewrite sub_totals_total_typed; [|intros x Hx|done].
    2: { repeat (apply elem_of_cons in Hx as [->|Hx];
           [first [assumption|apply Hl|apply Hu|apply Hdnf]|]). by apply elem_of_nil in Hx. }
    match goal with |- is_dec ?x /\ _ <-> _ => assert (x = positive_part (sheet m)) as -> by
      (unfold positive_part, obligations, assets; simpl; unfold fees_total; lia) end.
    unfold positive_part at 2. simpl.
    replace (obligations _ - _ + _) with (obligations (sheet m)) by lia. done. }
  split.
  - intros (x & (_ & _ & _ & _ & ->) & H). by apply Htot.
  - intros H. exists parts. split; [|by apply Htot]. destruct H as [Hp _].
    assert (positive_part (sheet m) = s_locked (sheet m) + s_unlocked (sheet m) + s_fees (sheet m) +
      s_dnf (sheet m) + s_transfers (sheet m) + active_total (sheet m) + orders_total (sheet m) +
      deferred_total (sheet m)) as Ep by (unfold positive_part, obligations, assets; lia).
    assert (0 <= s_fees (sheet m)) by (simpl; unfold fees_total; lia).
    unfold is_dec in *. split_and!; try done; lia.
Qed.

(** The comparison with the balance. *)
Lemma close_enough (b t : Z) :
  is_dec b -> is_dec t ->
  (d <- signed_checked_sub (into_signed b) (into_signed t);
   ensure (signed_ltb (signed_abs d) balance_epsilon) (AnyhowError "Mismatched token balance")) = Ok tt <->
  Z.abs (b - t) < 10 ^ 14.
Proof.
  intros Hb Ht. rewrite signed_checked_sub_fits, !sval_into_signed by auto using into_signed_ok.
  assert (is_dec (Z.abs (b - t))) as Hd by (unfold is_dec in *; lia).
  rewrite (proj2 (signed_fits_ok StdError (b - t) _)) by done. simpl.
  assert (signed_abs (signed_of (b - t)) = new_positive (Z.abs (b - t))) as ->.
  { unfold signed_abs, signed_of. destruct (Z.ltb_spec (b - t) 0); simpl; f_equal; lia. }
  rewrite ensure_ok, signed_ltb_sval, Z.ltb_lt; [done|by apply new_positive_ok|by vm_compute].
Qed.

Lemma balance_check_ok bank cw20 b :
  query_balance (st_token st) bank cw20 = Ok b -> is_dec b ->
  token_balance st bank cw20 m = Ok tt <->
  is_dec (positive_part (sheet m)) /\ is_dec (obligations (sheet m)) /\
  Z.abs (b - obligations (sheet m)) < 10 ^ 14.
Proof.
  intros Hb Hd. unfold token_balance. rewrite rbind_ok. split.
  - intros (s & Hs & H). apply rbind_ok in H as (t & Ht & H). rewrite Hb in H. simpl in H.
    destruct (proj1 (sub_totals_total_ok t)) as (Hp & -> & Ho).
    { apply rbind_ok. by exists s. }
    split_and!; [done..|]. by apply close_enough.
  - intros (Hp & Ho & Hc). assert ((s <- sub_totals_load m; sub_totals_total s) = Ok (obligations (sheet m)))
      as (s & Hs & Ht)%rbind_ok by by apply sub_totals_total_ok.
    exists s. split; [done|]. rewrite Ht, Hb. simpl. by apply close_enough.
Qed.
End Totals.

(** ** The pool *)

Section PoolChecks.
Context {CW : CosmwasmStd} {CWS : CosmwasmStdSpec CW}.

Lemma lp_weight_nonneg y s : addr_ok y s -> 0 <= lp_weight s.
Proof.
  intros Hok. pose proof (addr_lp _ _ Hok). unfold lp_weight, pending_xlp.
  destruct (unstaking s) as [u|] eqn:Eu; [|lia].
  destruct (addr_unstaking _ _ Hok u Eu). lia.
Qed.

Lemma sum_tokens_ok y (l : list (Addr * LiquidityStatsByAddr)) a b :
  (forall e, e ∈ l -> addr_ok y e.2 /\ stats_is_empty e.2 = false) -> 0 <= a -> 0 <= b ->
  a + list_total (fun e => lp_weight e.2) l <= U256_MAX ->
  b + list_total (fun e => xlp e.2) l <= U256_MAX ->
  sum_tokens l a b =
    Ok (a + list_total (fun e => lp_weight e.2) l, b + list_total (fun e => xlp e.2) l).
Proof.
  revert a b. induction l as [|[addr s] l IH]; intros a b Hl Ha Hb; [by rewrite !Z.add_0_r|].
  destruct (Hl (addr, s)) as [Hok Hne]; [by left|]. simpl in Hok, Hne.
  assert (forall e, e ∈ l -> addr_ok y e.2 /\ stats_is_empty e.2 = false) as Hrest
    by (intros e He; apply Hl; by right).
  pose proof (addr_lp _ _ Hok) as Hlp. pose proof (addr_xlp _ _ Hok) as [Hx _].
  assert (0 <= list_total (fun e => lp_weight e.2) l) as Hl1.
  { apply list_total_nonneg. intros e He. by eapply lp_weight_nonneg, Hrest. }
  assert (0 <= list_total (fun e => xlp e.2) l) as Hl2.
  { apply list_total_nonneg. intros e He. destruct (Hrest e He) as [He' _]. apply (addr_xlp _ _ He'). }
  rewrite !list_total_cons. cbn [snd sum_tokens]. rewrite Hne. cbn [ensure_that ensure negb rbind].
  assert (lp_weight s = lp s + pending_xlp s /\ 0 <= pending_xlp s) as [-> Hp].
  { split; [done|]. unfold pending_xlp. destruct (unstaking s) as [u|] eqn:Eu; [|lia].
    destruct (addr_unstaking _ _ Hok u Eu). lia. }
  intros HA HB. rewrite ud_add_fits by lia. cbn [rbind]. rewrite ud_add_fits by lia. cbn [rbind].
  assert (match unstaking s with
    | Some u => pending <- ud_checked_sub (xlp_amount u) (State.collected u); ud_checked_add (a + lp s) pending
    | None => Ok (a + lp s) end = Ok (a + lp s + pending_xlp s)) as ->.
  { unfold pending_xlp in *. destruct (unstaking s) as [u|] eqn:Eu; [|by rewrite Z.add_0_r].
    destruct (addr_unstaking _ _ Hok u Eu) as [Hd Hc _ _ _]. unfold is_dec in Hd.
    rewrite ud_sub_fits by lia. cbn [rbind]. by rewrite ud_add_fits by lia. }
  cbn [rbind]. rewrite IH by (done || lia). f_equal. f_equal; lia.
Qed.

Context (st : State) (m : MarketCtx).

(** The totals of the pool are numbers their type has. *)
Record pool_typed (s : LiquidityStats) : Prop := {
  pt_lp : is_dec (total_lp s);
  pt_xlp : is_dec (total_xlp s);
  pt_collateral : is_dec (locked s + unlocked s);
}.

Lemma liquidity_balances_ok bank cw20 :
  books_ok (books m) -> pool_typed (liquidity_stats m) ->
  liquidity_balances st bank cw20 m = Ok tt <->
  should_reset_lp_balances m = true \/
  exists actual, query_balance (st_token st) bank cw20 = Ok actual /\
    locked (liquidity_stats m) + unlocked (liquidity_stats m) <= actual.
Proof.
  intros [Hc Ht] [Hlp Hxlp Hcol]. unfold liquidity_balances, should_reset_lp_balances.
  destruct Ht as [(Hr & Hl & Hx)|(r & Hr & _)]; change (b_reset (books m)) with
    (RESET_LP_STATUS (m_liquidity m)) in Hr; rewrite Hr; [|split; [by left|done]].
  unfold iter_liquidity_stats_addrs. rewrite Z.add_0_r in Hl, Hx. simpl in Hl, Hx.
  rewrite <- Hl in Hlp. rewrite <- Hx in Hxlp. rewrite (sum_tokens_ok (b_yields (books m))); try lia.
  - simpl. rewrite !list_total_entries, Hl, Hx, !Z.eqb_refl. simpl. rewrite rbind_ok.
    rewrite (ud_add_fits (locked _)) by apply Hcol. simpl.
    split; [intros (b & Hb & H)|intros [?|(b & Hb & H)]; [done|]].
    + right. exists b. split; [done|]. by apply ensure_that_ok, Z.leb_le in H.
    + exists b. split; [done|]. by apply ensure_that_ok, Z.leb_le.
  - intros [a s] Hs%elem_of_entries. split; [apply (core_addrs _ _ Hc a s Hs)|apply (core_nonempty _ _ Hc a s Hs)].
  - rewrite list_total_entries. apply Hlp.
  - rewrite list_total_entries. apply Hxlp.
Qed.

(** The answer to [lp_info] about a stored provider adds up. *)
Lemma lp_info_adds_up addr s info :
  core (books m) 0 -> LIQUIDITY_STATS_BY_ADDR (m_liquidity m) !! addr = Some s ->
  lp_info st m addr = Ok info ->
  info_available_yield info = info_available_yield_lp info + info_available_yield_xlp info +
    info_available_crank_rewards info + info_available_referrer_rewards info /\
  is_dec (info_available_yield_lp info + info_available_yield_xlp info) /\
  is_dec (info_available_yield_lp info + info_available_yield_xlp info + info_available_crank_rewards info) /\
  is_dec (info_available_yield info) /\
  forall u, info_unstaking info = Some u ->
    us_xlp_unstaking u = us_collected u + us_available u + us_pending u /\
    is_dec (us_collected u + us_available u) /\ is_dec (us_xlp_unstaking u).
Proof.
  intros Hc Hs. unfold lp_info, liquidity_stats_addr_may. rewrite Hs. simpl.
  pose proof (core_addrs _ _ Hc addr s Hs) as Hok. intros H. apply rbind_ok in H as (cd & _ & H).
  apply rbind_ok in H as (acc & _ & H). apply rbind_ok in H as (yl & _ & H).
  apply rbind_ok in H as (yx & _ & H). apply rbind_ok in H as (a & [-> Ha]%ud_add_ok & H).
  apply rbind_ok in H as (b & [-> Hb]%ud_add_ok & H). apply rbind_ok in H as (y & [-> Hy]%ud_add_ok & H).
  apply rbind_ok in H as ([[l x] u] & Hu & H). apply rbind_ok in H as (c & _ & H).
  assert (forall v, u = Some v -> us_xlp_unstaking v = us_collected v + us_available v + us_pending v /\
    is_dec (us_collected v + us_available v) /\ is_dec (us_xlp_unstaking v)) as Hv.
  { intros v ->. destruct (unstaking s) as [k|] eqn:Ek; [|done].
    pose proof (addr_unstaking _ _ Hok k Ek) as Hk. pose proof Hk as [Hd Hcol _ _ _].
    apply rbind_ok in Hu as (av & Hav & Hu). apply (calculate_unstaked_ok _ _ _ Hk) in Hav as (H0 & Hle & _).
    repeat (apply rbind_ok in Hu as (? & ? & Hu)). injection Hu as <- <- <-. simpl.
    repeat match goal with E : ud_checked_sub _ _ = Ok _ |- _ => apply ud_sub_ok in E as [-> _] end.
    unfold is_dec in *. lia. }
  clear Hu. destruct (ud_is_zero c);
    apply rbind_ok in H as (lc & _ & H); apply rbind_ok in H as (xc & _ & H); injection H as <-; simpl;
    split_and!; try done; lia.
Qed.

(** What can fail is that a holding is rounded down to no collateral. *)
Definition visible_holdings (info : LpInfoResp) : Prop :=
  (info_lp_amount info = 0 <-> info_lp_collateral info = 0) /\
  (info_xlp_amount info = 0 <-> info_xlp_collateral info = 0).

Lemma zero_together (a b : Z) u :
  ensure_that (Bool.eqb (ud_is_zero a) (ud_is_zero b)) = Ok u <-> (a = 0 <-> b = 0).
Proof.
  rewrite ensure_that_ok, Bool.eqb_true_iff. unfold ud_is_zero.
  destruct (Z.eqb_spec a 0), (Z.eqb_spec b 0); naive_solver.
Qed.

Lemma check_lp_info_ok addr s info :
  core (books m) 0 -> LIQUIDITY_STATS_BY_ADDR (m_liquidity m) !! addr = Some s ->
  lp_info st m addr = Ok info -> check_lp_info info = Ok tt <-> visible_holdings info.
Proof.
  intros Hc Hs Hi. destruct (lp_info_adds_up _ _ _ Hc Hs Hi) as (Hy & Ha & Hb & Hd & Hu).
  unfold check_lp_info, visible_holdings. rewrite rbind_ok. setoid_rewrite zero_together.
  rewrite (ud_add_fits (info_available_yield_lp info)) by done. cbn [rbind].
  rewrite (ud_add_fits (_ + _)) by done. cbn [rbind]. rewrite ud_add_fits by (rewrite <- Hy; apply Hd).
  cbn [rbind]. rewrite <- Hy, Z.eqb_refl. cbn [ensure_that ensure rbind].
  assert (match info_unstaking info with
    | None => Ok tt
    | Some u => a <- ud_checked_add (us_collected u) (us_available u); b <- ud_checked_add a (us_pending u);
                ensure_that (us_xlp_unstaking u =? b)
    end = Ok tt) as ->.
  { destruct (info_unstaking info) as [u|]; [|done]. destruct (Hu u eq_refl) as (E & H1 & H2).
    rewrite (ud_add_fits (us_collected u)) by done. cbn [rbind].
    rewrite ud_add_fits by (rewrite <- E; apply H2). cbn [rbind]. by rewrite <- E, Z.eqb_refl. }
  setoid_rewrite rbind_ok. setoid_rewrite zero_together. split.
  - by intros (_ & ? & _ & ? & _).
  - intros [? ?]. exists tt. split; [done|]. by exists tt.
Qed.

Lemma valid_lp_info_ok :
  core (books m) 0 ->
  valid_lp_info st m = Ok tt <->
  forall addr s, LIQUIDITY_STATS_BY_ADDR (m_liquidity m) !! addr = Some s ->
    exists info, lp_info st m addr = Ok info /\ visible_holdings info.
Proof.
  intros Hc. unfold valid_lp_info, iter_liquidity_stats_addrs. rewrite for_each_entries. split; intros H addr s Hs.
  - specialize (H addr s Hs). apply rbind_ok in H as (info & Hi & H). exists info. split; [done|].
    by apply (check_lp_info_ok _ _ _ Hc Hs Hi).
  - destruct (H addr s Hs) as (info & Hi & Hv). apply rbind_ok. exists info. split; [done|].
    by apply (check_lp_info_ok _ _ _ Hc Hs Hi).
Qed.
End PoolChecks.

(** * The theorems *)

(** C3: The consistency checks of the market against its invariants: in every
    state with the invariant of the market (kept by every transaction, in any
    phase of the queue) and the books of the pool, the sums of the margins and
    of the tokens of the providers, and the indexes of triggers and due times
    agree with what the checks recompute, and so does the locked collateral
    unless dust of it was lost in a withdrawal of the last token ([lost], see
    the solvency theorem).  So the checks pass unless such dust was lost, a
    position is due too late for the configured
    delay (as after the delay was shortened), a position has a stop loss but no
    liquidation price (the check of the missing liquidation price finds the
    trigger of the stop loss), the balance is below the collateral of the pool,
    or the holding of a provider is rounded down to no collateral. *)
Theorem sanity_check_exact {CW : CosmwasmStd} {CWS : CosmwasmStdSpec CW} (st : State) (lost : Collateral)
    (p : phase) (m : MarketCtx) (bank cw20 : string -> res Z) (delay : Duration) (actual : Collateral) :
  ledger_inv st lost p (sheet m) -> books_ok (books m) -> pool_typed (liquidity_stats m) ->
  duration_from_seconds (liquifunding_delay_seconds (st_config st)) = Ok delay ->
  query_balance (st_token st) bank cw20 = Ok actual ->
  sanity_check st bank cw20 m = Ok tt <->
  lost = 0 /\
  (forall id pos, OPEN_POSITIONS (m_positions m) !! id = Some pos ->
     due_in_time (st_now st) delay pos /\
     (pos_liquidation_price pos = None -> stop_loss_override_notional pos = None)) /\
  (should_reset_lp_balances m = true \/
   locked (liquidity_stats m) + unlocked (liquidity_stats m) <= actual) /\
  (forall addr s, LIQUIDITY_STATS_BY_ADDR (m_liquidity m) !! addr = Some s ->
     exists info, lp_info st m addr = Ok info /\ visible_holdings info).
Proof.
  intros Hl Hb Hty Hd Hq. pose proof (bi_market _ _ (li_books _ _ _ Hl)) as Hm.
  transitivity (next_last_liquifunding st m = Ok tt /\ liquidation_prices m = Ok tt /\
    locked_balances m = Ok tt /\ liquidity_balances st bank cw20 m = Ok tt /\
    sufficient_collateral_for_margins m = Ok tt /\ valid_lp_info st m = Ok tt).
  - unfold sanity_check. destruct (next_last_liquifunding _ _) as [[]|], (liquidation_prices _) as [[]|],
      (locked_balances _) as [[]|], (liquidity_balances _ _ _ _) as [[]|],
      (sufficient_collateral_for_margins _) as [[]|], (valid_lp_info _ _) as [[]|]; naive_solver.
  - rewrite (next_last_liquifunding_exact m Hm st delay Hd), (liquidation_prices_exact m Hm).
    rewrite (liquidity_balances_ok _ _ _ _ Hb Hty), Hq, (valid_lp_info_ok _ _ (proj1 Hb)).
    rewrite (locked_balances_exact m Hm). pose proof (sufficient_collateral_pass m Hm). naive_solver.
Qed.

(** C2: The balance check compares the contract's balance with exactly what the
    market owes, the obligations of the solvency theorem: the loops over the
    positions, the orders, the payments and the queue, which ends at the first
    processed item, add up to them in every state with the invariant, and fail
    only where a sum leaves the 256 bits.  The check passes exactly when the
    balance is within a ten thousandth of a token of the obligations. *)
Theorem sanity_balance_exact {CW : CosmwasmStd} {CWS : CosmwasmStdSpec CW} (st : State) (lost : Collateral)
    (p : phase) (m : MarketCtx) (bank cw20 : string -> res Z) (actual : Collateral) :
  ledger_inv st lost p (sheet m) -> amounts_typed m ->
  query_balance (st_token st) bank cw20 = Ok actual -> is_dec actual ->
  (forall t, (s <- sub_totals_load m; sub_totals_total s) = Ok t <->
     is_dec (positive_part (sheet m)) /\ t = obligations (sheet m) /\ is_dec t) /\
  (token_balance st bank cw20 m = Ok tt <->
     is_dec (positive_part (sheet m)) /\ is_dec (obligations (sheet m)) /\
     Z.abs (actual - obligations (sheet m)) < 10 ^ 14).
Proof.
  intros Hl Ha Hq Hd. split; [intros t; by eapply sub_totals_total_ok|by eapply balance_check_ok].
Qed.

(** ** Witnesses: the run of [MarketSystem.v], with a position open *)

Definition sample_checked : MarketCtx := ch_market sample_performed.
Definition sample_bank (_ : string) : res Z := Ok 1020000000.

Lemma sample_checked_ledger :
  exists p, ledger_inv (CW:=cosmwasm_ref) (sample_state 6000) 0 p (sheet sample_checked).
Proof.
  destruct sample_run as [n Hn].
  assert (token_ok (st_token (sample_state 0))) as Ht by (vm_compute; done).
  destruct (reachable_inv (CWS:=cosmwasm_ref_spec) _ _ _ _ Ht _ _ _ Hn) as (lost & H0 & Hi).
  assert (lost = 0) as -> by lia. eexists. by apply (ci_ledger _ _ _ _ Hi (sample_state 6000)).
Qed.

Lemma lookup_forallb {K V} `{Countable K} (f : K -> V -> bool) (m : gmap K V) :
  forallb (fun e => f e.1 e.2) (map_to_list m) = true -> forall k v, m !! k = Some v -> f k v = true.
Proof.
  intros Hf k v Hv%elem_of_map_to_list. rewrite forallb_forall in Hf.
  by apply (Hf (k, v)), list_elem_of_In.
Qed.

(** A provider that is not unstaking, as a test. *)
Definition resting_provider (y : Yields) (s : LiquidityStatsByAddr) : bool :=
  (0 <=? lp s) && u256_ok (xlp s) && (0 <=? lp_accrued_yield s) && (0 <=? xlp_accrued_yield s) &&
  (0 <=? crank_rewards s) && (0 <=? referrer_rewards s) && negb (is_some (unstaking s)) &&
  is_some (y !! last_accrue_key s).
Lemma resting_provider_ok y s : resting_provider y s = true -> addr_ok y s.
Proof.
  unfold resting_provider. intros H. bool_prop. split; try lia; try done.
  - by apply is_dec_ok.
  - by destruct (unstaking s).
  - destruct (y !! last_accrue_key s); [by eexists|done].
Qed.

Lemma sample_checked_books : books_ok (books sample_checked).
Proof.
  pose proof (lookup_forallb (fun _ s => resting_provider (b_yields (books sample_checked)) s &&
    negb (stats_is_empty s)) (b_addrs (books sample_checked)) ltac:(vm_compute; reflexivity)) as Ha.
  pose proof (lookup_forallb (fun _ e => (y_lp e <=? 75620495012500) && (y_xlp e <=? 0))
    (b_yields (books sample_checked)) ltac:(vm_compute; reflexivity)) as Hy.
  split; [split|left; split_and!; vm_compute; reflexivity].
  - split; vm_compute; try done; split; discriminate.
  - vm_compute. discriminate.
  - exists 2, (mkYieldPerToken 75620495012500 0). split; [vm_compute; reflexivity|]. split; [done|].
    intros k e He%Hy. simpl. bool_prop. lia.
  - intros a s Hs%Ha. bool_prop. by apply resting_provider_ok.
  - intros a s Hs%Ha. by bool_prop.
  - vm_compute. discriminate.
  - vm_compute. discriminate.
Qed.

Lemma no_transfers_typed (t : gmap Addr Collateral) :
  t = ∅ -> forall a x, t !! a = Some x -> 0 <= x.
Proof. intros -> a x. by rewrite lookup_empty. Qed.

Lemma sanity_check_exact_witness :
  sanity_check (CW:=cosmwasm_ref) (sample_state 6000) sample_bank sample_bank sample_checked = Ok tt /\
  forall pos, OPEN_POSITIONS (m_positions sample_checked) !! 1 = Some pos ->
    due_in_time 6000 (86400 * 1000000000) pos.
Proof.
  destruct sample_checked_ledger as [p Hl].
  assert (sanity_check (CW:=cosmwasm_ref) (sample_state 6000) sample_bank sample_bank sample_checked = Ok tt)
    as Hs by (vm_compute; reflexivity).
  split; [exact Hs|]. intros pos Hp.
  destruct (sanity_check_exact (CW:=cosmwasm_ref) (CWS:=cosmwasm_ref_spec) (sample_state 6000) 0 p
    sample_checked sample_bank sample_bank (86400 * 1000000000) (1020 * DEC_ONE) Hl sample_checked_books)
    as [H _]; [split; vm_compute; split; discriminate|vm_compute; reflexivity|vm_compute; reflexivity|].
  destruct (H Hs) as (_ & Hd & _ & _). apply (Hd 1 pos Hp).
Defined.

Lemma sanity_balance_exact_witness :
  token_balance (CW:=cosmwasm_ref) (sample_state 6000) sample_bank sample_bank sample_checked = Ok tt /\
  Z.abs (1020 * DEC_ONE - obligations (sheet sample_checked)) < 10 ^ 14.
Proof.
  destruct sample_checked_ledger as [p Hl].
  assert (token_balance (CW:=cosmwasm_ref) (sample_state 6000) sample_bank sample_bank sample_checked = Ok tt)
    as Hb by (vm_compute; reflexivity).
  split; [exact Hb|].
  destruct (sanity_balance_exact (CW:=cosmwasm_ref) (CWS:=cosmwasm_ref_spec) (sample_state 6000) 0 p
    sample_checked sample_bank sample_bank (1020 * DEC_ONE) Hl) as [_ [H _]].
  - split; [repeat split; apply Z.leb_le; vm_compute; reflexivity|].
    apply no_transfers_typed. vm_compute. reflexivity.
  - vm_compute. reflexivity.
  - vm_compute. split; discriminate.
  - destruct (H Hb) as (_ & _ & Hc). exact Hc.
Defined.
