(* ===== verification/EntrySpec.v ===== *)
(** * Who may send what to a market

    The authorisation, the shutdown gate and the funds rule of [execute], and
    what the token facades add to them: the sender a proxied message names is
    the one who called the facade. *)

From stdpp Require Import base option gmap strings list pretty.
From Stdlib Require Import ZArith Lia.
From S2P Require Import Cw20.
From S2P Require Import Prelude Index Storage Cosmwasm Types Number Time Market Price Token DataSeries Config Position Trading State Pool LpHistory Liquidity LpToken Fees LiquiditySystem PositionStore SpotPrice PositionToken Orders Deferred Crank Entry Factory TokenProxy SystemEffects MarketSystem.
Local Open Scope Z_scope.

Section Theory.
Context {CW : CosmwasmStd} {CWS : CosmwasmStdSpec CW}.
Context (from_json : Binary -> res ExecuteMsg).

(** What the sender of a message must be. *)
Definition authorised (st : State) (sender : Addr) (msg : ExecuteMsg) : Prop :=
  match msg with
  | Owner _ => fq_owner (st_factory st) = Ok sender
  | CloseAllPositions => fq_wind_down (st_factory st) = Ok sender
  | SetManualPrice _ _ => spot_price (st_config st) = SpotManual sender
  | NftProxy _ _ => fq_position_token (st_factory st) = Ok sender
  | LiquidityTokenProxy _ kind _ => fq_liquidity_token (st_factory st) kind = Ok sender
  | PerformDeferredExecMsg _ _ => sender = st_contract st
  | Receive _ _ _ => False
  | _ => True
  end.

Lemma assert_auth_ok st addr check u :
  assert_auth st addr check = Ok u ->
  match check with
  | AuthOwner => fq_owner (st_factory st) = Ok addr
  | AuthAddr a => addr = a
  | AuthWindDown => fq_wind_down (st_factory st) = Ok addr
  end.
Proof.
  unfold assert_auth. intros H. apply rbind_ok in H as (b & H1 & H2). apply ensure_ok in H2 as ->.
  destruct check.
  - apply rbind_ok in H1 as (o & Ho & [= E]). apply String.eqb_eq in E as ->. done.
  - injection H1 as E. by apply String.eqb_eq in E.
  - apply rbind_ok in H1 as (o & Ho & [= E]). apply String.eqb_eq in E as ->. done.
Qed.

Lemma other_authorised st funds sender msg m config m' :
  execute_other st sender msg m = Ok (config, m') ->
  deferred_request st funds msg = None -> provider_request funds msg = None -> authorised st sender msg.
Proof.
  intros H Hd Hp. destruct msg; try discriminate Hd; try discriminate Hp; simpl in *; try done.
  - destruct msg as [u]. lift_in H v Hv. exact (assert_auth_ok _ _ _ _ Hv).
  - lift_in H a Ha. lift_in H v Hv. apply assert_auth_ok in Hv as ->. exact Ha.
  - lift_in H a Ha. lift_in H v Hv. apply assert_auth_ok in Hv as ->. exact Ha.
  - lift_in H v Hv. exact (assert_auth_ok _ _ _ _ Hv).
  - step_in H v m1 Hv. destruct (spot_price (st_config st)) as [admin|]; [|done].
    apply hlift_ok in Hv as [Hv _]. by apply assert_auth_ok in Hv as ->.
  - lift_in H v Hv. exact (assert_auth_ok _ _ _ _ Hv).
Qed.

Lemma dispatch_authorised st sender funds msg m config m' :
  execute_dispatch st sender funds msg m = Ok (config, m') -> authorised st sender msg.
Proof.
  unfold execute_dispatch. intros H.
  destruct (deferred_request st funds msg) as [r|] eqn:Ed; [by destruct msg|].
  destruct (provider_request funds msg) as [r|] eqn:Ep; [by destruct msg|].
  by eapply other_authorised.
Qed.

(** C15: A market acts for the right sender only.  A message that [execute]
    accepts, unwrapped from the CW20 receipt it may have come in, passes its
    shutdown gate; owner messages come from the factory's owner, a wind down
    from the wind down address, manual prices from the market's price admin,
    proxied messages from the token contract the factory registered, and
    deferred executions from the market itself; collateral attached to a
    message that takes none makes it fail.  The facade contracts pass on the
    sender they were called by: what a registered facade makes the market do
    to tokens, it does in the name of its caller. *)
Theorem execute_authorised (st : State) (info : MessageInfo) (msg : ExecuteMsg) (m m' : MarketCtx)
    (config : Config) (msgs : list ResponseMsg) :
  execute from_json st info msg m = Ok (config, m', msgs) ->
  exists pmi, parse_perps_message_info from_json st info msg = Ok pmi /\
    authorised st (pmi_sender pmi) (pmi_msg pmi) /\
    (forall i, for_market_execute_msg (pmi_msg pmi) = Some i -> fq_is_shut_down (st_factory st) i = Ok false) /\
    (pmi_funds pmi <> None -> takes_funds st (pmi_msg pmi) = true) /\
    (forall q p caller lmsg l, market_execute_liquidity_token q p caller lmsg = Ok l ->
       exists market m1, l !! 0%nat = Some (ProxyToMarket market (LiquidityTokenProxy caller (lpx_kind p) m1))) /\
    (forall q p caller nmsg l, market_execute_nft q p caller nmsg = Ok l ->
       exists market, l = [ProxyToMarket market (NftProxy caller nmsg)]).
Proof.
  intros H. unfold execute in H. apply entry_ok in H as [H _]. unfold execute_handler in H.
  lift_in H pmi Hp. apply hbind_ok in H as (v1 & m1 & Hg & H). apply hbind_ok in H as (v2 & m2 & He & H).
  apply hbind_ok in H as (c2 & m3 & Hd & H). lift_in H v3 Hf. exists pmi. split_and!.
  - done.
  - by eapply dispatch_authorised.
  - intros i Hi. rewrite Hi in Hg. apply hlift_ok in Hg as [Hg _]. unfold ensure_not_shut_down in Hg.
    apply rbind_ok in Hg as (b & -> & Hg). apply ensure_ok in Hg. by destruct b.
  - intros Hn. destruct (takes_funds st (pmi_msg pmi)); [done|]. apply ensure_ok in Hf.
    by destruct (pmi_funds pmi).
  - intros q p caller lmsg l Hl. unfold market_execute_liquidity_token in Hl.
    destruct (proxied_msg caller lmsg) as [m4 send]. apply rbind_ok in Hl as (market & _ & [= <-]). eauto.
  - intros q p caller nmsg l Hl. apply rbind_ok in Hl as (market & _ & [= <-]). eauto.
Qed.
End Theory.

(** * A concrete message

    The admin posts a price on the market of [sample_asked]. *)
Lemma execute_authorised_witness :
  authorised (sample_state 4000) "admin" (SetManualPrice (7 * DEC_ONE) DEC_ONE).
Proof.
  assert (is_ok (execute (CW:=cosmwasm_ref) sample_no_json (sample_state 4000) (mkMessageInfo "admin" [])
    (SetManualPrice (7 * DEC_ONE) DEC_ONE) (ch_market sample_asked)) = true) as Hok by (vm_compute; reflexivity).
  destruct (is_ok_Ok _ Hok) as [[[config m'] msgs] E].
  destruct (execute_authorised (CW:=cosmwasm_ref) _ _ _ _ _ _ _ _ E) as (pmi & Hp & Ha & _).
  injection Hp as <-. exact Ha.
Defined.
