(* ===== verification/Vault.v ===== *)
(** * The vault contract

    [contracts/vault/src] with the messages of
    [packages/perpswap/src/contracts/vault.rs]: users deposit USDC for shares,
    governance spreads the balance over markets, and withdrawals wait in a
    queue that pays in order.  [VaultEnv] has the address of the vault and the
    answers of the chain to its balance queries.  [HashMap]s are gmaps; the
    order of the messages to the markets is the one of [map_to_list], which
    the code leaves to the hasher. *)

From stdpp Require Import base option gmap strings list.
From Stdlib Require Import ZArith Lia.
From S2P Require Import Prelude Storage Index Cosmwasm Types Number.
Local Open Scope Z_scope.

Abbreviation Uint128 := Z (only parsing).
Abbreviation Binary := string (only parsing).

(** ** Messages *)

Inductive UsdcAsset := UsdcCw20 (addr : Addr) | UsdcNative (denom : string).
Inductive UsdcAssetInit := InitUsdcCw20 (address : string) | InitUsdcNative (denom : string).

(** [Display]. *)
Definition usdc_to_string (a : UsdcAsset) : string :=
  match a with UsdcCw20 addr => addr | UsdcNative denom => denom end.

Record VaultInstantiate := mkVaultInstantiate {
  vi_usdc_denom : UsdcAssetInit;
  vi_governance : string;
  vi_markets_allocation_bps : gmap string Z;
}.

Inductive VaultExecute :=
| VaultDeposit
| VaultReceive (sender : string) (amount : Uint128) (msg : Binary)
| RequestWithdrawal (amount : Uint128)
| RedistributeFunds
| CollectYield
| ProcessWithdrawal
| WithdrawFromMarket (market : string) (amount : Uint128)
| EmergencyPause
| ResumeOperations
| UpdateAllocations (new_allocations : gmap Addr Z)
| AddVaultMarket (market : string).

Record WithdrawalRequest := mkWithdrawalRequest { wr_user : Addr; wr_amount : Uint128 }.

(** What the vault sends: a deposit into a market with native coins or
    through the CW20 contract, a payment in either way, a claim, a
    withdrawal of liquidity. *)
Inductive VaultMsg :=
| VmDepositNative (market : Addr) (denom : string) (amount : Uint128)
| VmDepositCw20 (token market : Addr) (amount : Uint128)
| VmTransferCw20 (token recipient : Addr) (amount : Uint128)
| VmBankSend (recipient : Addr) (denom : string) (amount : Uint128)
| VmClaimYield (market : string)
| VmWithdrawLiquidity (market : string) (lp_amount : LpToken).

(** ** Storage (state.rs) *)

Record VaultConfig := mkVaultConfig {
  vc_governance : Addr;
  vc_markets_allocation_bps : gmap Addr Z;
  vc_usdc_denom : UsdcAsset;
  vc_paused : bool;
}.
Definition set_vc_governance (v : Addr) (c : VaultConfig) : VaultConfig :=
  mkVaultConfig v (vc_markets_allocation_bps c) (vc_usdc_denom c) (vc_paused c).
Definition set_vc_markets_allocation_bps (v : gmap Addr Z) (c : VaultConfig) : VaultConfig :=
  mkVaultConfig (vc_governance c) v (vc_usdc_denom c) (vc_paused c).
Definition set_vc_usdc_denom (v : UsdcAsset) (c : VaultConfig) : VaultConfig :=
  mkVaultConfig (vc_governance c) (vc_markets_allocation_bps c) v (vc_paused c).
Definition set_vc_paused (v : bool) (c : VaultConfig) : VaultConfig :=
  mkVaultConfig (vc_governance c) (vc_markets_allocation_bps c) (vc_usdc_denom c) v.

Record VaultStore := mkVaultStore {
  VAULT_CONFIG : VaultConfig;
  TOTAL_PENDING_WITHDRAWALS : Uint128;
  QUEUE_ID : option Z;
  USER_WITHDRAWALS : gmap (Addr * Z) unit;
  WITHDRAWAL_QUEUE : gmap Z WithdrawalRequest;
  TOTAL_LP_SUPPLY : Uint128;
  LP_BALANCES : gmap Addr Uint128;
  MARKET_ALLOCATIONS : gmap string Uint128;
}.
Definition set_VAULT_CONFIG (v : VaultConfig) (s : VaultStore) : VaultStore :=
  mkVaultStore v (TOTAL_PENDING_WITHDRAWALS s) (QUEUE_ID s) (USER_WITHDRAWALS s) (WITHDRAWAL_QUEUE
    s) (TOTAL_LP_SUPPLY s) (LP_BALANCES s) (MARKET_ALLOCATIONS s).
Definition set_TOTAL_PENDING_WITHDRAWALS (v : Uint128) (s : VaultStore) : VaultStore :=
  mkVaultStore (VAULT_CONFIG s) v (QUEUE_ID s) (USER_WITHDRAWALS s) (WITHDRAWAL_QUEUE s)
    (TOTAL_LP_SUPPLY s) (LP_BALANCES s) (MARKET_ALLOCATIONS s).
Definition set_QUEUE_ID (v : option Z) (s : VaultStore) : VaultStore :=
  mkVaultStore (VAULT_CONFIG s) (TOTAL_PENDING_WITHDRAWALS s) v (USER_WITHDRAWALS s)
    (WITHDRAWAL_QUEUE s) (TOTAL_LP_SUPPLY s) (LP_BALANCES s) (MARKET_ALLOCATIONS s).
Definition set_USER_WITHDRAWALS (v : gmap (Addr * Z) unit) (s : VaultStore) : VaultStore :=
  mkVaultStore (VAULT_CONFIG s) (TOTAL_PENDING_WITHDRAWALS s) (QUEUE_ID s) v (WITHDRAWAL_QUEUE s)
    (TOTAL_LP_SUPPLY s) (LP_BALANCES s) (MARKET_ALLOCATIONS s).
Definition set_WITHDRAWAL_QUEUE (v : gmap Z WithdrawalRequest) (s : VaultStore) : VaultStore :=
  mkVaultStore (VAULT_CONFIG s) (TOTAL_PENDING_WITHDRAWALS s) (QUEUE_ID s) (USER_WITHDRAWALS s) v
    (TOTAL_LP_SUPPLY s) (LP_BALANCES s) (MARKET_ALLOCATIONS s).
Definition set_TOTAL_LP_SUPPLY (v : Uint128) (s : VaultStore) : VaultStore :=
  mkVaultStore (VAULT_CONFIG s) (TOTAL_PENDING_WITHDRAWALS s) (QUEUE_ID s) (USER_WITHDRAWALS s)
    (WITHDRAWAL_QUEUE s) v (LP_BALANCES s) (MARKET_ALLOCATIONS s).
Definition set_LP_BALANCES (v : gmap Addr Uint128) (s : VaultStore) : VaultStore :=
  mkVaultStore (VAULT_CONFIG s) (TOTAL_PENDING_WITHDRAWALS s) (QUEUE_ID s) (USER_WITHDRAWALS s)
    (WITHDRAWAL_QUEUE s) (TOTAL_LP_SUPPLY s) v (MARKET_ALLOCATIONS s).
Definition set_MARKET_ALLOCATIONS (v : gmap string Uint128) (s : VaultStore) : VaultStore :=
  mkVaultStore (VAULT_CONFIG s) (TOTAL_PENDING_WITHDRAWALS s) (QUEUE_ID s) (USER_WITHDRAWALS s)
    (WITHDRAWAL_QUEUE s) (TOTAL_LP_SUPPLY s) (LP_BALANCES s) v.

Record VaultEnv := mkVaultEnv {
  ve_contract : Addr;
  (** the bank balance of the vault in a denom *)
  ve_balance : string -> res Uint128;
  (** the balance of the vault a CW20 contract reports *)
  ve_cw20_balance : Addr -> res Uint128;
}.

Definition vault_handler (A : Type) : Type := handler VaultStore error A.
Definition u16_ok (z : Z) : bool := (0 <=? z) && (z <=? 2 ^ 16 - 1).
Definition overflow_add : string := "attempt to add with overflow".

Section Definitions.
Context {CW : CosmwasmStd}.
(** [from_json] at [Cw20HookMsg], whose one message is a deposit. *)
Context (hook_from_json : Binary -> res unit).
Context (env : VaultEnv).

(** [values().sum()] over [u16]. *)
Definition total_bps (m : gmap Addr Z) : res Z :=
  panics overflow_add (fits u16_ok (map_sum id m)).

Definition usdc_from_init (init : UsdcAssetInit) : res UsdcAsset :=
  match init with
  | InitUsdcCw20 address => addr <- std (addr_validate address); Ok (UsdcCw20 addr)
  | InitUsdcNative denom =>
      _ <- ensure (negb (String.eqb denom "")) (AnyhowError "Native denom cannot be empty");
      Ok (UsdcNative denom)
  end.

(** [try_fold] with [+], which panics. *)
Definition allocated_amount (s : VaultStore) : res Uint128 :=
  foldr (fun x acc => a <- acc; panics overflow_add (u128_op_add a x)) (Ok 0)
    (map snd (map_to_list (MARKET_ALLOCATIONS s))).

(** ** common.rs *)

Definition get_total_assets (s : VaultStore) : res Uint128 :=
  vault_balance <- ve_balance env (usdc_to_string (vc_usdc_denom (VAULT_CONFIG s)));
  allocated <- allocated_amount s;
  of_option (AnyhowError "Overflow in total assets calculation") (fits128 (vault_balance + allocated)).

Definition usdc_balance (s : VaultStore) : res Uint128 :=
  match vc_usdc_denom (VAULT_CONFIG s) with
  | UsdcCw20 addr => ve_cw20_balance env addr
  | UsdcNative denom => ve_balance env denom
  end.

Record VaultBalance := mkVaultBalance {
  vb_vault_balance : Uint128; vb_allocated_amount : Uint128;
  vb_pending_withdrawals : Uint128; vb_total_allocated : Uint128 }.
Definition get_vault_balance (s : VaultStore) : res VaultBalance :=
  vault_balance <- usdc_balance s;
  allocated <- allocated_amount s;
  total <- of_option (AnyhowError "Overflow in total calculation") (fits128 (vault_balance + allocated));
  Ok (mkVaultBalance vault_balance allocated (TOTAL_PENDING_WITHDRAWALS s) total).

Definition get_market_allocations (s : VaultStore) (start_after : option string) : list (string * Uint128) :=
  omap (fun k => pair k <$> MARKET_ALLOCATIONS s !! k) (keys_after start_after (MARKET_ALLOCATIONS s)).

Definition check_not_paused : vault_handler unit :=
  config <~ hget VAULT_CONFIG;
  hensure (negb (vc_paused config)) (AnyhowError "Contract operations are paused").

Definition check_governance (sender : Addr) (text : string) : vault_handler unit :=
  config <~ hget VAULT_CONFIG;
  hensure (String.eqb (vc_governance config) sender) (AnyhowError text).

(** [QueueId] is a [Uint64]; its [+] panics. *)
Definition get_and_increment_queue_id : vault_handler Z :=
  current_id <~ hget (fun s => default 0 (QUEUE_ID s));
  next_id <~ hlift (panics overflow_add (fits u64_ok (current_id + 1)));
  hmod (set_QUEUE_ID (Some next_id));;;
  hret current_id.

(** ** execute.rs *)

(** Give [amount] shares to [user]. *)
Definition mint_lp (user : Addr) (amount : Uint128) : vault_handler unit :=
  balance <~ hget (fun s => default 0 (LP_BALANCES s !! user));
  new_balance <~ hlift (panics overflow_add (u128_op_add balance amount));
  hmod (fun s => set_LP_BALANCES (<[user := new_balance]> (LP_BALANCES s)) s);;;
  supply <~ hget TOTAL_LP_SUPPLY;
  new_supply <~ hlift (panics overflow_add (u128_op_add supply amount));
  hmod (set_TOTAL_LP_SUPPLY new_supply).

Definition lp_for_deposit (s : VaultStore) (amount : Uint128) : res Uint128 :=
  total_assets <- get_total_assets s;
  if TOTAL_LP_SUPPLY s =? 0 then Ok amount
  else panics "multiply_ratio" (u128_multiply_ratio amount (TOTAL_LP_SUPPLY s) total_assets).

Definition execute_deposit (sender : Addr) (funds : list (string * Uint128)) : vault_handler (list VaultMsg) :=
  check_not_paused;;;
  config <~ hget VAULT_CONFIG;
  match funds with
  | [(denom, amount)] =>
      hensure (String.eqb denom (usdc_to_string (vc_usdc_denom config)))
        (AnyhowError "Exactly one coin (USDC) must be sent");;;
      lp_amount <~ hask (fun s => lp_for_deposit s amount);
      mint_lp sender lp_amount;;;
      hret []
  | _ => herr (AnyhowError "Exactly one coin (USDC) must be sent")
  end.

Definition execute_receive (info_sender : Addr) (sender : string) (amount : Uint128) (msg : Binary) :
    vault_handler (list VaultMsg) :=
  config <~ hget VAULT_CONFIG;
  match vc_usdc_denom config with
  | UsdcCw20 addr => hensure (String.eqb info_sender addr) (AnyhowError "Invalid CW20 token")
  | UsdcNative _ => herr (AnyhowError "USDC denomination is not a CW20 token")
  end;;;
  check_not_paused;;;
  hlift (match hook_from_json msg with
         | Ok _ => Ok tt
         | Err _ => Err (AnyhowError "Invalid CW20 hook message") end);;;
  sender_addr <~ hlift (std (addr_validate sender));
  mint_lp sender_addr amount;;;
  hret [].

Definition execute_request_withdrawal (sender : Addr) (amount : Uint128) : vault_handler (list VaultMsg) :=
  check_not_paused;;;
  balance <~ hget (fun s => default 0 (LP_BALANCES s !! sender));
  new_balance <~ hlift (of_option (AnyhowError "Error reducing balances") (u128_sub balance amount));
  hmod (fun s => set_LP_BALANCES (<[sender := new_balance]> (LP_BALANCES s)) s);;;
  queue_id <~ get_and_increment_queue_id;
  hensure (negb (amount =? 0)) (AnyhowError "Withdrawal amount cannot be zero");;;
  hmod (fun s => set_WITHDRAWAL_QUEUE
    (<[queue_id := mkWithdrawalRequest sender amount]> (WITHDRAWAL_QUEUE s)) s);;;
  hmod (fun s => set_USER_WITHDRAWALS (<[(sender, queue_id) := tt]> (USER_WITHDRAWALS s)) s);;;
  pending <~ hget TOTAL_PENDING_WITHDRAWALS;
  new_pending <~ hlift (of_option (AnyhowError "Error updating total pending withdrawals")
                          (fits128 (pending + amount)));
  hmod (set_TOTAL_PENDING_WITHDRAWALS new_pending);;;
  supply <~ hget TOTAL_LP_SUPPLY;
  new_supply <~ hlift (of_option (AnyhowError "Insufficient LP supply") (u128_sub supply amount));
  hmod (set_TOTAL_LP_SUPPLY new_supply);;;
  hret [].

(** [saturating_sub]. *)
Definition saturating_sub (a b : Z) : Z := Z.max 0 (a - b).

(** The loop over the markets, with what remains of the excess. *)
Fixpoint redistribute (usdc : UsdcAsset) (excess total : Z) (markets : list (Addr * Z)) (remaining : Uint128) :
    vault_handler (list VaultMsg * Uint128) :=
  match markets with
  | [] => hret ([], remaining)
  | (market, allocation_bps) :: markets =>
      amount <~ hlift (panics "multiply_ratio" (u128_multiply_ratio excess allocation_bps total));
      if amount =? 0 then redistribute usdc excess total markets remaining
      else
        old <~ hget (fun s => default 0 (MARKET_ALLOCATIONS s !! market));
        new <~ hlift (panics overflow_add (u128_op_add old amount));
        hmod (fun s => set_MARKET_ALLOCATIONS (<[market := new]> (MARKET_ALLOCATIONS s)) s);;;
        '(msgs, rest) <~ redistribute usdc excess total markets (saturating_sub remaining amount);
        hret (match usdc with
              | UsdcCw20 addr => VmDepositCw20 addr market amount
              | UsdcNative denom => VmDepositNative market denom amount
              end :: msgs, rest)
  end.

Definition execute_redistribute_funds (sender : Addr) : vault_handler (list VaultMsg) :=
  check_not_paused;;;
  check_governance sender "Unauthorized redistribute_funds";;;
  config <~ hget VAULT_CONFIG;
  pending <~ hget TOTAL_PENDING_WITHDRAWALS;
  vault_balance <~ hask usdc_balance;
  let excess := saturating_sub vault_balance pending in
  hensure (negb (excess =? 0)) (AnyhowError "No excess to redistribute");;;
  total <~ hlift (total_bps (vc_markets_allocation_bps config));
  hensure (negb (total =? 0)) (AnyhowError "No allocation percentages defined");;;
  hensure (total <=? 10000) (AnyhowError "Market allocation exceeds 100%");;;
  '(msgs, remaining) <~ redistribute (vc_usdc_denom config) excess total
                          (map_to_list (vc_markets_allocation_bps config)) excess;
  hret (msgs ++ if remaining =? 0 then []
                else [match vc_usdc_denom config with
                      | UsdcCw20 addr => VmTransferCw20 addr (vc_governance config) remaining
                      | UsdcNative denom => VmBankSend (vc_governance config) denom remaining
                      end]).

Definition execute_collect_yield (sender : Addr) : vault_handler (list VaultMsg) :=
  check_not_paused;;;
  check_governance sender "Unauthorized";;;
  markets <~ hget (fun s => keys_after None (MARKET_ALLOCATIONS s));
  hret (map VmClaimYield markets).

(** The requests that the balance covers, in order. *)
Fixpoint take_covered (vault_balance : Uint128) (requests : list (Z * WithdrawalRequest)) (processed : Uint128) :
    res (list (Z * WithdrawalRequest) * Uint128) :=
  match requests with
  | [] => Ok ([], processed)
  | (id, request) :: requests =>
      new_total <- panics overflow_add (u128_op_add processed (wr_amount request));
      if vault_balance <? new_total then Ok ([], processed)
      else '(l, total) <- take_covered vault_balance requests new_total; Ok ((id, request) :: l, total)
  end.

Definition WITHDRAWAL_LIMIT : nat := 20.

(** The entries are removed from the queue and from the index. *)
Definition remove_request (s : VaultStore) (e : Z * WithdrawalRequest) : VaultStore :=
  set_USER_WITHDRAWALS (delete (wr_user e.2, e.1) (USER_WITHDRAWALS s))
    (set_WITHDRAWAL_QUEUE (delete e.1 (WITHDRAWAL_QUEUE s)) s).

Definition execute_process_withdrawal : vault_handler (list VaultMsg) :=
  config <~ hget VAULT_CONFIG;
  hensure (negb (vc_paused config)) (AnyhowError "The contract is paused");;;
  vault_balance <~ hlift (ve_balance env (usdc_to_string (vc_usdc_denom config)));
  '(entries, processed) <~ hask (fun s =>
    take_covered vault_balance (take WITHDRAWAL_LIMIT (range_asc (fun _ => true) (WITHDRAWAL_QUEUE s))) 0);
  hmod (fun s => foldl remove_request s entries);;;
  (if processed =? 0 then hret tt
   else
     total <~ hget TOTAL_PENDING_WITHDRAWALS;
     new_total <~ hlift (of_option (AnyhowError "Error proccesing pending withdrawals")
                           (u128_sub total processed));
     hmod (set_TOTAL_PENDING_WITHDRAWALS new_total));;;
  hret (map (fun e => VmBankSend (wr_user e.2) (usdc_to_string (vc_usdc_denom config)) (wr_amount e.2))
          entries).

Definition execute_withdraw_from_market (sender : Addr) (market : string) (amount : Uint128) :
    vault_handler (list VaultMsg) :=
  check_not_paused;;;
  check_governance sender "Unauthorized";;;
  current_allocation <~ hask (fun s => std (MARKET_ALLOCATIONS s !! market));
  hensure (negb (current_allocation <? amount)) (AnyhowError "Insufficient market allocation");;;
  lp <~ hlift (match lp_token_from_u128 amount with
               | Ok lp => Ok lp
               | Err _ => Err (Panic "Can't convert Uint128 to LpToken") end);
  lp_amount <~ hlift (of_option (AnyhowError "Amount must be non-zero") (nonzero_new lp));
  remaining <~ hlift (panics "attempt to subtract with overflow" (u128_sub current_allocation amount));
  hmod (fun s => set_MARKET_ALLOCATIONS (<[market := remaining]> (MARKET_ALLOCATIONS s)) s);;;
  hret [VmWithdrawLiquidity market lp_amount].

Definition set_paused (paused : bool) (sender : Addr) : vault_handler (list VaultMsg) :=
  check_governance sender "Unauthorized";;;
  hmod (fun s => set_VAULT_CONFIG (set_vc_paused paused (VAULT_CONFIG s)) s);;;
  hret [].
Definition execute_emergency_pause : Addr -> vault_handler (list VaultMsg) := set_paused true.
Definition execute_resume_operations : Addr -> vault_handler (list VaultMsg) := set_paused false.

Definition execute_update_allocations (sender : Addr) (new_allocations : gmap Addr Z) :
    vault_handler (list VaultMsg) :=
  check_governance sender "Unauthorized";;;
  market_count <~ hget (fun s => size (MARKET_ALLOCATIONS s));
  hensure (Nat.eqb (size new_allocations) market_count)
    (AnyhowError "Number of allocations must match number of markets");;;
  total <~ hlift (total_bps new_allocations);
  hensure (negb (total =? 0)) (AnyhowError "No allocation percentages defined");;;
  hensure (total <=? 10000) (AnyhowError "Market allocation exceeds 100%");;;
  hmod (fun s => set_VAULT_CONFIG (set_vc_markets_allocation_bps new_allocations (VAULT_CONFIG s)) s);;;
  hret [].

Definition execute_add_market (sender : Addr) (market : string) : vault_handler (list VaultMsg) :=
  check_governance sender "Unauthorized";;;
  market_addr <~ hlift (std (addr_validate market));
  hmod (fun s => set_MARKET_ALLOCATIONS (<[market_addr := 0]> (MARKET_ALLOCATIONS s)) s);;;
  hret [].

Definition vault_execute (sender : Addr) (funds : list (string * Uint128)) (msg : VaultExecute) :
    vault_handler (list VaultMsg) :=
  match msg with
  | VaultDeposit => execute_deposit sender funds
  | VaultReceive cw20_sender amount msg => execute_receive sender cw20_sender amount msg
  | RequestWithdrawal amount => execute_request_withdrawal sender amount
  | RedistributeFunds => execute_redistribute_funds sender
  | CollectYield => execute_collect_yield sender
  | ProcessWithdrawal => execute_process_withdrawal
  | WithdrawFromMarket market amount => execute_withdraw_from_market sender market amount
  | EmergencyPause => execute_emergency_pause sender
  | ResumeOperations => execute_resume_operations sender
  | UpdateAllocations new_allocations => execute_update_allocations sender new_allocations
  | AddVaultMarket market => execute_add_market sender market
  end.

(** ** lib.rs: instantiate *)

Fixpoint init_markets (markets : list (string * Z)) (bps : gmap Addr Z) (allocations : gmap string Uint128) :
    res (gmap Addr Z * gmap string Uint128) :=
  match markets with
  | [] => Ok (bps, allocations)
  | (market, b) :: markets =>
      addr <- of_option (AnyhowError "Invalid address") (addr_validate market);
      init_markets markets (<[addr := b]> bps) (<[market := 0]> allocations)
  end.

Definition vault_instantiate (msg : VaultInstantiate) : res VaultStore :=
  governance <- std (addr_validate (vi_governance msg));
  total <- total_bps (vi_markets_allocation_bps msg);
  _ <- ensure (total <=? 10000) (AnyhowError "Yield allocation exceeds 100%");
  '(bps, allocations) <- init_markets (map_to_list (vi_markets_allocation_bps msg)) ∅ ∅;
  usdc_asset <- usdc_from_init (vi_usdc_denom msg);
  Ok (mkVaultStore (mkVaultConfig governance bps usdc_asset false) 0 None ∅ ∅ 0 ∅ allocations).

(** ** query.rs *)

Definition get_pending_withdrawal (s : VaultStore) (user : string) : res Uint128 :=
  user <- std (addr_validate user);
  foldl (fun acc k =>
      pending <- acc;
      if String.eqb k.1.1 user then
        req <- std (WITHDRAWAL_QUEUE s !! k.1.2);
        std (fits128 (pending + wr_amount req))
      else Ok pending) (Ok 0) (map_to_list (USER_WITHDRAWALS s)).

End Definitions.
