(* ===== verification/VaultInv.v ===== *)
(** * What the vault guarantees

    The books of the vault agree with each other in every reachable state;
    processing the queue pays a prefix of it, in order, as long as the balance
    lasts; redistribution leaves the collateral of pending withdrawals alone.
    The last theorem shows what a deposit into a vault in use is worth. *)

From stdpp Require Import base option gmap strings list sorting.
From Stdlib Require Import ZArith Lia.
From S2P Require Import Prelude Storage Index Cosmwasm Types Number Vault.
Local Open Scope Z_scope.

(** The books, with payments of [d] on their way out of the queue. *)
Record books_paying (d : Z) (s : VaultStore) : Prop := {
  vk_supply : TOTAL_LP_SUPPLY s = map_sum id (LP_BALANCES s);
  vk_balances : forall a n, LP_BALANCES s !! a = Some n -> 0 <= n;
  vk_pending : TOTAL_PENDING_WITHDRAWALS s = map_sum wr_amount (WITHDRAWAL_QUEUE s) + d /\
               TOTAL_PENDING_WITHDRAWALS s <= U128_MAX;
  vk_queue : forall i r, WITHDRAWAL_QUEUE s !! i = Some r -> 0 < wr_amount r /\ 0 <= i < default 0 (QUEUE_ID s);
  vk_next : 0 <= default 0 (QUEUE_ID s);
  vk_index : forall u i, USER_WITHDRAWALS s !! (u, i) = Some tt <->
               exists r, WITHDRAWAL_QUEUE s !! i = Some r /\ wr_user r = u;
}.

Abbreviation vault_books := (books_paying 0).

(** The numbers of a message and of the chain's answers are [Uint128]s. *)
Definition vault_typed (env : VaultEnv) (funds : list (string * Z)) (msg : VaultExecute) : Prop :=
  (forall d b, ve_balance env d = Ok b -> 0 <= b) /\ Forall (fun c => 0 <= c.2) funds /\
  match msg with
  | VaultReceive _ amount _ | RequestWithdrawal amount | WithdrawFromMarket _ amount => 0 <= amount
  | _ => True
  end.

Section Theory.
Context {CW : CosmwasmStd} {CWS : CosmwasmStdSpec CW}.
Context (hook_from_json : string -> res unit).

Inductive vault_step (s s' : VaultStore) : Prop :=
| vstep env sender funds msg msgs :
    vault_typed env funds msg ->
    vault_execute hook_from_json env sender funds msg s = Ok (msgs, s') -> vault_step s s'.

Inductive vault_reachable : VaultStore -> Prop :=
| vreach_instantiate msg s : vault_instantiate msg = Ok s -> vault_reachable s
| vreach_step s s' : vault_reachable s -> vault_step s s' -> vault_reachable s'.

(** Handlers that leave the books' items alone. *)
Definition books_part (s : VaultStore) :=
  (TOTAL_LP_SUPPLY s, LP_BALANCES s, TOTAL_PENDING_WITHDRAWALS s, WITHDRAWAL_QUEUE s, QUEUE_ID s,
   USER_WITHDRAWALS s).

Lemma books_part_eq s s' : books_part s' = books_part s -> vault_books s -> vault_books s'.
Proof. unfold books_part. intros [= E1 E2 E3 E4 E5 E6] []. split; rewrite ?E1, ?E2, ?E3, ?E4, ?E5, ?E6; done. Qed.

Lemma mint_books user n s u s' :
  0 <= n -> vault_books s -> mint_lp user n s = Ok (u, s') -> vault_books s'.
Proof.
  intros Hn [Hs Hb Hp Hq Hx Hi] H. unfold mint_lp in H. step_in H b s1 H1. get_in H1.
  lift_in H nb Hnb. apply panics_ok, u128_op_add_Some in Hnb as [-> _].
  step_in H v s2 H2. apply hmod_ok in H2. step_in H t s3 H3. get_in H3.
  lift_in H nt Hnt. apply panics_ok, u128_op_add_Some in Hnt as [-> _]. apply hmod_ok in H. subst s' s2.
  split; simpl; try done.
  - rewrite map_sum_insert, Hs. unfold map_get. destruct (LP_BALANCES s !! user); simpl; unfold id; lia.
  - intros a m. rewrite lookup_insert_Some. intros [[_ <-]|[_ H]]; [|by eapply Hb].
    destruct (LP_BALANCES s !! user) as [b|] eqn:E; simpl; [apply Hb in E|]; lia.
Qed.

Lemma request_books sender n s msgs s' :
  0 <= n -> vault_books s -> execute_request_withdrawal sender n s = Ok (msgs, s') -> vault_books s'.
Proof.
  intros Hn [Hs Hb [Hp Hmax] Hq Hx Hi] H. unfold execute_request_withdrawal, check_not_paused in H.
  step_in H v0 s0 H0. apply hbind_ok in H0 as (cfg & s9 & H9 & H0). get_in H9.
  apply hensure_ok in H0 as [_ ->].
  step_in H b s1 H1. get_in H1. lift_in H nb Hnb. apply of_option_ok, u128_sub_Some in Hnb as [-> Hnb].
  step_in H v s2 H2. apply hmod_ok in H2. step_in H qid s3 H3.
  unfold get_and_increment_queue_id in H3. step_in H3 cur s4 H4. get_in H4. lift_in H3 nx Hnx.
  apply panics_ok, fits_Some in Hnx as [-> _]. step_in H3 v1 s5 H5. apply hmod_ok in H5.
  apply hret_ok in H3 as [-> ->]. step_in H v2 s6 H6. apply hensure_ok in H6 as [Hz ->]. bool_prop.
  step_in H v3 s7 H7. apply hmod_ok in H7. step_in H v4 s8 H8. apply hmod_ok in H8.
  step_in H p s10 H10. get_in H10. lift_in H np Hnp. apply of_option_ok, fits_Some in Hnp as [-> Hfit].
  apply u128_ok_true in Hfit. step_in H v5 s11 H11. apply hmod_ok in H11. step_in H t s12 H12. get_in H12.
  lift_in H nt Hnt. apply of_option_ok, u128_sub_Some in Hnt as [-> _]. step_in H v6 s13 H13. apply hmod_ok in H13.
  apply hret_ok in H as [_ ->]. subst s13 s11 s8 s7 s5 s2. simpl in *.
  set (q := default 0 (QUEUE_ID s)) in *.
  assert (WITHDRAWAL_QUEUE s !! q = None) as Hnew.
  { destruct (WITHDRAWAL_QUEUE s !! q) as [r|] eqn:E; [|done]. apply Hq in E. lia. }
  split; simpl.
  - rewrite map_sum_insert, Hs. unfold map_get. destruct (LP_BALANCES s !! sender); simpl; unfold id; lia.
  - intros a m. rewrite lookup_insert_Some. intros [[_ <-]|[_ H]]; [lia|by eapply Hb].
  - rewrite map_sum_insert_new by done. simpl. lia.
  - intros i r. rewrite lookup_insert_Some. intros [[<- <-]|[_ H]]; [simpl; lia|]. apply Hq in H. lia.
  - lia.
  - intros u i. rewrite lookup_insert_Some. split.
    + intros [[[= -> ->] _]|[Hne H]].
      * exists (mkWithdrawalRequest u n). by rewrite lookup_insert_eq.
      * apply Hi in H as (r & Hr & Hu). exists r. rewrite lookup_insert_ne; [done|]. intros <-. congruence.
    + intros (r & Hr & Hu). apply lookup_insert_Some in Hr as [[<- <-]|[Hne Hr]]; [left; by simpl in Hu; subst|].
      right. split; [intros [= _ ?]; done|]. apply Hi. by exists r.
Qed.

(** *** Processing the queue *)

Definition paid_sum (l : list (Z * WithdrawalRequest)) : Z := foldr (fun e acc => wr_amount e.2 + acc) 0 l.

Lemma take_covered_ok b reqs : forall p l total,
  take_covered b reqs p = Ok (l, total) -> p <= b ->
  exists k, l = take k reqs /\ (k <= length reqs)%nat /\ total = p + paid_sum l /\ total <= b /\
    forall e, reqs !! k = Some e -> b < total + wr_amount e.2.
Proof.
  induction reqs as [|[i r] reqs IH]; intros p l total H Hp.
  - injection H as <- <-. exists 0%nat. simpl. split_and!; done || lia.
  - simpl in H. apply rbind_ok in H as (n & Hn & H). apply panics_ok, u128_op_add_Some in Hn as [-> _].
    destruct (b <? p + wr_amount r) eqn:E; bool_prop.
    + injection H as <- <-. exists 0%nat. simpl. split_and!; try done; try lia; intros e [= <-]; simpl; lia.
    + apply rbind_ok in H as ([l' t] & H & [= <- <-]). apply IH in H as (k & -> & Hk & -> & Hb & Hnext); [|lia].
      exists (S k). simpl. split_and!; try done; try lia; intros e He; specialize (Hnext e He); simpl in *; lia.
Qed.

Lemma remove_books d s e :
  books_paying d s -> WITHDRAWAL_QUEUE s !! e.1 = Some e.2 ->
  books_paying (d + wr_amount e.2) (remove_request s e).
Proof.
  intros [Hs Hb [Hp Hmax] Hq Hx Hi] He. split; simpl; try done.
  - rewrite (map_sum_delete _ _ _ e.2) by done. lia.
  - intros i r [_ Hr]%lookup_delete_Some. by apply Hq.
  - intros u i. rewrite lookup_delete_Some, Hi. split.
    + intros [Hne (r & Hr & Hu)]. exists r. rewrite lookup_delete_ne; [done|]. intros <-.
      apply Hne. f_equal. congruence.
    + intros (r & [Hne Hr]%lookup_delete_Some & Hu). split; [congruence|by exists r].
Qed.

Lemma remove_all_books l : forall d s,
  books_paying d s -> NoDup l.*1 -> (forall e, e ∈ l -> WITHDRAWAL_QUEUE s !! e.1 = Some e.2) ->
  books_paying (d + paid_sum l) (foldl remove_request s l) /\
  WITHDRAWAL_QUEUE (foldl remove_request s l) = foldr (fun e m => delete e.1 m) (WITHDRAWAL_QUEUE s) l /\
  TOTAL_PENDING_WITHDRAWALS (foldl remove_request s l) = TOTAL_PENDING_WITHDRAWALS s.
Proof.
  induction l as [|e l IH]; intros d s Hb Hn Hin; simpl.
  - rewrite Z.add_0_r. done.
  - apply NoDup_cons in Hn as [Hne Hn]. destruct (IH (d + wr_amount e.2) (remove_request s e)) as (H1 & H2 & H3).
    + apply remove_books; [done|]. apply Hin. by left.
    + done.
    + intros e' He'. simpl. rewrite lookup_delete_ne; [apply Hin; by right|].
      intros Heq. apply Hne. rewrite Heq. by apply list_elem_of_fmap_2.
    + replace (d + (wr_amount e.2 + paid_sum l)) with (d + wr_amount e.2 + paid_sum l) by lia.
      split; [done|]. rewrite H2, H3. split; [|done]. simpl. clear.
      induction l as [|e' l IH]; [done|]. simpl. rewrite IH. apply delete_delete.
Qed.

Definition waiting_requests (s : VaultStore) : list (Z * WithdrawalRequest) :=
  range_asc (fun _ => true) (WITHDRAWAL_QUEUE s).

Lemma waiting_spec s :
  NoDup (waiting_requests s).*1 /\
  forall e, e ∈ waiting_requests s <-> WITHDRAWAL_QUEUE s !! e.1 = Some e.2.
Proof.
  destruct (range_asc_spec (fun _ => true) (WITHDRAWAL_QUEUE s)) as (_ & Hn & Hin). split; [done|].
  intros [i r]. unfold waiting_requests. rewrite Hin. naive_solver.
Qed.

(** What processing does. *)
Lemma process_ok env s msgs s' :
  vault_books s -> execute_process_withdrawal env s = Ok (msgs, s') ->
  exists balance k,
    ve_balance env (usdc_to_string (vc_usdc_denom (VAULT_CONFIG s))) = Ok balance /\
    (0 <= balance ->
    let due := take WITHDRAWAL_LIMIT (waiting_requests s) in
    let paid := take k due in
    msgs = map (fun e => VmBankSend (wr_user e.2) (usdc_to_string (vc_usdc_denom (VAULT_CONFIG s)))
                           (wr_amount e.2)) paid /\
    WITHDRAWAL_QUEUE s' = foldr (fun e m => delete e.1 m) (WITHDRAWAL_QUEUE s) paid /\
    paid_sum paid <= balance /\
    (forall e, due !! k = Some e -> balance < paid_sum paid + wr_amount e.2) /\
    vault_books s').
Proof.
  intros Hbk H. unfold execute_process_withdrawal in H. step_in H cfg s1 H1. get_in H1.
  step_in H v s2 H2. apply hensure_ok in H2 as [_ ->]. lift_in H b Hb.
  apply hbind_ok in H as ([l total] & s3 & H3 & H). apply hask_ok in H3 as [H3 ->].
  step_in H v2 s4 H4. apply hmod_ok in H4. step_in H v3 s5 H5. apply hret_ok in H as [-> ->].
  destruct (decide (0 <= b)) as [Hb0|Hb0]; [|exists b, 0%nat; split; [exact Hb|]; intros; lia].
  apply take_covered_ok in H3 as (k & -> & Hk & -> & Hle & Hnext); [|done].
  exists b, k. split; [exact Hb|]. intros _. cbv zeta. unfold waiting_requests in *.
  set (due := take WITHDRAWAL_LIMIT (range_asc (fun _ => true) (WITHDRAWAL_QUEUE s))) in *.
  destruct (waiting_spec s) as [Hnd Hin]. unfold waiting_requests in *.
  assert (NoDup (take k due).*1 /\ forall e, e ∈ take k due -> WITHDRAWAL_QUEUE s !! e.1 = Some e.2) as [Hnd' Hin'].
  { split.
    - eapply sublist_NoDup; [exact Hnd|]. apply fmap_sublist. unfold due. rewrite take_take. apply sublist_take.
    - intros e He. apply Hin. unfold due in He. by do 2 apply subseteq_take in He. }
  destruct (remove_all_books (take k due) 0 s Hbk Hnd' Hin') as (Hb1 & Hq1 & Hp1).
  rewrite <- H4 in Hb1, Hq1, Hp1. simpl in Hb1.
  assert (WITHDRAWAL_QUEUE s5 = WITHDRAWAL_QUEUE s4 /\ vault_books s5) as [Eq Hbs].
  { destruct (0 + paid_sum (take k due) =? 0) eqn:Ez; bool_prop.
    - apply hret_ok in H5 as [_ ->]. split; [done|]. by replace (paid_sum (take k due)) with 0 in Hb1 by lia.
    - step_in H5 t s6 H6. get_in H6. lift_in H5 nt Hnt. apply of_option_ok, u128_sub_Some in Hnt as [-> Hnt].
      apply hmod_ok in H5. subst s5. split; [done|]. destruct Hb1 as [? ? [? ?] ? ? ?].
      split; simpl; try done. lia. }
  split_and!; [done|by rewrite Eq|lia| |done].
  intros e He. specialize (Hnext e He). lia.
Qed.

(** *** Redistribution *)

(** The collateral a message sends away. *)
Definition spent (m : VaultMsg) : Z :=
  match m with
  | VmDepositNative _ _ n | VmDepositCw20 _ _ n | VmTransferCw20 _ _ n | VmBankSend _ _ n => n
  | VmClaimYield _ | VmWithdrawLiquidity _ _ => 0
  end.
Definition spent_sum (l : list VaultMsg) : Z := foldr (fun m acc => spent m + acc) 0 l.
Lemma spent_sum_app l l' : spent_sum (l ++ l') = spent_sum l + spent_sum l'.
Proof. induction l as [|m l IH]; simpl; lia. Qed.

(** The share of a market. *)
Definition share (excess total bps : Z) : Z := excess * bps / total.
Definition shares (excess total : Z) (l : list (Addr * Z)) : Z :=
  foldr (fun e acc => share excess total e.2 + acc) 0 l.
Definition bps_sum (l : list (Addr * Z)) : Z := foldr (fun e acc => e.2 + acc) 0 l.

Lemma shares_le excess total l : 0 < total -> 0 <= excess -> shares excess total l * total <= excess * bps_sum l.
Proof.
  intros Ht He. induction l as [|[m b] l IH]; simpl; [lia|]. unfold share.
  pose proof (Z.mul_div_le (excess * b) total Ht). nia.
Qed.

Lemma map_sum_list (m : gmap Addr Z) : map_sum id m = bps_sum (map_to_list m).
Proof.
  induction m as [|i x m Hi IH] using map_ind; [by rewrite map_sum_empty, map_to_list_empty|].
  rewrite map_sum_insert_new by done. rewrite IH.
  assert (forall l l', l ≡ₚ l' -> bps_sum l = bps_sum l') as Hperm.
  { induction 1; simpl; lia. }
  rewrite (Hperm _ _ (map_to_list_insert m i x Hi)). reflexivity.
Qed.

Definition allocation (s : VaultStore) (m : string) : Z := default 0 (MARKET_ALLOCATIONS s !! m).

Lemma redistribute_ok usdc excess total l : forall rem s msgs r s',
  redistribute usdc excess total l rem s = Ok ((msgs, r), s') ->
  Forall (fun e => 0 <= share excess total e.2) l -> shares excess total l <= rem -> NoDup l.*1 ->
  spent_sum msgs + r = rem /\ 0 <= r /\ books_part s' = books_part s /\ VAULT_CONFIG s' = VAULT_CONFIG s /\
  (forall m b, (m, b) ∈ l -> allocation s' m = allocation s m + share excess total b) /\
  (forall m, m ∉ l.*1 -> allocation s' m = allocation s m).
Proof.
  induction l as [|[m b] l IH]; intros rem s msgs r s' H Hpos Hle Hnd.
  - apply hret_ok in H as [[= -> ->] ->]. simpl in *. split_and!; try done; try lia.
    intros m b Hin. by apply elem_of_nil in Hin.
  - simpl in H. lift_in H amount Ha. apply panics_ok, u128_multiply_ratio_Some in Ha as (Ht & -> & Hfit).
    fold (share excess total b) in *. simpl in Hle. apply Forall_cons in Hpos as [Hb Hpos]. simpl in Hb.
    apply NoDup_cons in Hnd as [Hm Hnd].
    destruct (share excess total b =? 0) eqn:E; bool_prop.
    + apply IH in H as (H1 & H2 & H3 & H4 & H5 & H6); [|done|lia|done]. split_and!; try done.
      * intros m' b' [[= -> ->]|Hin]%elem_of_cons; [rewrite H6 by done; lia|by apply H5].
      * intros m' Hm'. apply H6. intros Hin. apply Hm'. by right.
    + step_in H old s1 H1. get_in H1. lift_in H nw Hnw. apply panics_ok, u128_op_add_Some in Hnw as [-> _].
      step_in H v s2 H2. apply hmod_ok in H2. apply hbind_ok in H as ([msgs' rest] & s3 & H & Hr).
      apply hret_ok in Hr as [[= -> ->] ->].
      assert (0 <= shares excess total l) as Hs0.
      { clear -Hpos. induction Hpos; simpl; [lia|]. lia. }
      unfold saturating_sub in H. rewrite Z.max_r in H by lia.
      apply IH in H as (H1 & H3 & H4 & H5 & H6 & H7); [|done|lia|done].
      assert (forall k, allocation s2 k = if decide (k = m) then allocation s m + share excess total b else allocation s k) as Hal.
      { intros k. subst s2. unfold allocation. simpl. case_decide as Hk.
        - subst k. by rewrite lookup_insert_eq.
        - by rewrite lookup_insert_ne. }
      split_and!.
      * simpl. destruct usdc; simpl; lia.
      * done.
      * rewrite H4. by subst s2.
      * rewrite H5. by subst s2.
      * intros m' b' [[= -> ->]|Hin]%elem_of_cons.
        -- rewrite H7, Hal, decide_True by done. done.
        -- rewrite (H6 m' b'), Hal by done. rewrite decide_False; [done|]. intros ->. apply Hm.
           apply list_elem_of_fmap. by exists (m, b').
      * intros m' Hm'. rewrite H7, Hal by (intros Hin; apply Hm'; by right).
        rewrite decide_False; [done|]. intros ->. apply Hm'. by left.
Qed.

Lemma redistribute_funds_ok env sender s msgs s' :
  (forall m b, vc_markets_allocation_bps (VAULT_CONFIG s) !! m = Some b -> 0 <= b) ->
  execute_redistribute_funds env sender s = Ok (msgs, s') ->
  let bps := vc_markets_allocation_bps (VAULT_CONFIG s) in
  exists balance, usdc_balance env s = Ok balance /\ sender = vc_governance (VAULT_CONFIG s) /\
    vc_paused (VAULT_CONFIG s) = false /\
    TOTAL_PENDING_WITHDRAWALS s < balance /\
    spent_sum msgs = balance - TOTAL_PENDING_WITHDRAWALS s /\
    books_part s' = books_part s /\
    forall m b, bps !! m = Some b ->
      allocation s' m = allocation s m + share (balance - TOTAL_PENDING_WITHDRAWALS s) (map_sum id bps) b.
Proof.
  intros Hbps H bps. unfold execute_redistribute_funds, check_not_paused, check_governance in H.
  step_in H v0 s0 H0. apply hbind_ok in H0 as (cfg & s9 & H9 & H0). get_in H9. apply hensure_ok in H0 as [Hpaused ->].
  step_in H v1 s1 H1. apply hbind_ok in H1 as (cfg1 & s9 & H9 & H1). get_in H9. apply hensure_ok in H1 as [Hgov ->].
  step_in H cfg2 s2 H2. get_in H2. step_in H pending s3 H3. get_in H3. lift_in H balance Hbal.
  step_in H v2 s4 H4. apply hensure_ok in H4 as [Hex ->]. lift_in H tot Htot.
  step_in H v3 s5 H5. apply hensure_ok in H5 as [Hnz ->]. step_in H v4 s6 H6. apply hensure_ok in H6 as [_ ->].
  apply hbind_ok in H as ([ms rest] & s7 & H & Hr). apply hret_ok in Hr as [-> ->].
  unfold total_bps in Htot. apply panics_ok, fits_Some in Htot as [-> Htot].
  unfold u16_ok in Htot. bool_prop. unfold saturating_sub in *.
  assert (0 < balance - TOTAL_PENDING_WITHDRAWALS s) as Hpos by lia.
  rewrite Z.max_r in H by lia. set (ex := balance - TOTAL_PENDING_WITHDRAWALS s) in *.
  assert (Forall (fun e => 0 <= e.2) (map_to_list bps)) as Hall.
  { apply Forall_forall. intros [m b] Hin. apply elem_of_map_to_list in Hin. by apply (Hbps m). }
  apply redistribute_ok in H as (K1 & K2 & K3 & K4 & K5 & _).
  - exists balance. apply String.eqb_eq in Hgov. split_and!; try done.
    + lia.
    + rewrite spent_sum_app. destruct (rest =? 0) eqn:E; bool_prop; simpl; [lia|].
      destruct (vc_usdc_denom (VAULT_CONFIG s)); simpl; lia.
    + intros m b Hm. apply K5, elem_of_map_to_list, Hm.
  - eapply Forall_impl; [exact Hall|]. intros [m b] Hb. simpl in *. apply Z.div_pos; [|lia]. nia.
  - assert (0 < map_sum id bps) as Ht by (unfold bps; lia).
    pose proof (shares_le ex (map_sum id bps) (map_to_list bps) Ht ltac:(lia)) as Hs.
    rewrite <- map_sum_list in Hs. fold bps. nia.
  - apply NoDup_fst_map_to_list.
Qed.

(** *** Reachable states *)

Ltac books_same := match goal with H : vault_books ?s |- vault_books ?s' => apply (books_part_eq s s'); [|exact H] end.

Lemma execute_books env sender funds msg s msgs s' :
  vault_typed env funds msg -> vault_books s ->
  vault_execute hook_from_json env sender funds msg s = Ok (msgs, s') -> vault_books s'.
Proof.
  intros (He & Hf & Ht) Hb H. destruct msg as [|cs n m|n| | | |mk n| | |al|mk]; simpl in H, Ht.
  - unfold execute_deposit in H. step_in H v0 s0 H0. apply hbind_ok in H0 as (c & s9 & H9 & H0). get_in H9.
    apply hensure_ok in H0 as [_ ->]. step_in H c1 s1 H1. get_in H1.
    destruct funds as [|[d n] [|]]; [done| |done]. step_in H v2 s2 H2. apply hensure_ok in H2 as [_ ->].
    lift_in H lp Hlp. step_in H v3 s3 H3. apply hret_ok in H as [-> ->]. eapply mint_books; [|exact Hb|exact H3].
    apply Forall_cons in Hf as [Hn _]. simpl in Hn. unfold lp_for_deposit in Hlp.
    apply rbind_ok in Hlp as (ta & _ & Hlp). destruct (TOTAL_LP_SUPPLY s =? 0); [by injection Hlp as <-|].
    apply panics_ok, u128_multiply_ratio_Some in Hlp as (_ & -> & ?). lia.
  - unfold execute_receive in H. step_in H c0 s0 H0. get_in H0. step_in H v1 s1 H1.
    assert (s1 = s) as ->.
    { destruct (vc_usdc_denom (VAULT_CONFIG s)); [by apply hensure_ok in H1 as [_ ->]|done]. }
    step_in H v2 s2 H2. apply hbind_ok in H2 as (c & s9 & H9 & H2). get_in H9. apply hensure_ok in H2 as [_ ->].
    lift_in H v3 H3. lift_in H a Ha. step_in H v4 s4 H4. apply hret_ok in H as [-> ->].
    by eapply mint_books.
  - by eapply request_books.
  - unfold execute_redistribute_funds, check_not_paused, check_governance in H. revert H.
    enough (preserves (fun x => books_part x = books_part s) (execute_redistribute_funds env sender)) as Hp.
    { intros H. books_same. by eapply Hp; [|exact H]. }
    assert (forall usdc ex t l r, preserves (fun x => books_part x = books_part s) (redistribute usdc ex t l r)) as Hr.
    { intros usdc ex t l. induction l as [|[m b] l IH]; intros r; simpl; [frame|]. frame; apply IH. }
    unfold execute_redistribute_funds, check_not_paused, check_governance. frame. apply Hr.
  - books_same. enough (preserves (fun x => books_part x = books_part s) (execute_collect_yield sender)) as Hp
      by (by eapply Hp; [|exact H]). frame.
  - apply process_ok in H as (balance & k & Hbal & H); [|done]. by apply H, (He _ _ Hbal).
  - books_same. enough (preserves (fun x => books_part x = books_part s)
      (execute_withdraw_from_market sender mk n)) as Hp by (by eapply Hp; [|exact H]). frame.
  - books_same. enough (preserves (fun x => books_part x = books_part s) (execute_emergency_pause sender)) as Hp
      by (by eapply Hp; [|exact H]). frame.
  - books_same. enough (preserves (fun x => books_part x = books_part s) (execute_resume_operations sender)) as Hp
      by (by eapply Hp; [|exact H]). frame.
  - books_same. enough (preserves (fun x => books_part x = books_part s)
      (execute_update_allocations sender al)) as Hp by (by eapply Hp; [|exact H]). frame.
  - books_same. enough (preserves (fun x => books_part x = books_part s)
      (execute_add_market sender mk)) as Hp by (by eapply Hp; [|exact H]). frame.
Qed.

Lemma reachable_books s : vault_reachable s -> vault_books s.
Proof.
  induction 1 as [msg s H|s s' _ IH [env sender funds msg msgs Ht H]].
  - unfold vault_instantiate in H. apply rbind_ok in H as (g & _ & H). apply rbind_ok in H as (t & _ & H).
    apply rbind_ok in H as (v & _ & H). apply rbind_ok in H as ([b al] & _ & H).
    apply rbind_ok in H as (u & _ & H). injection H as <-. split; simpl; try done.
    intros u' i. split; [done|]. by intros (r & Hr & _).
  - by eapply execute_books.
Qed.

(** *** Processing cannot fail *)

Lemma paid_sum_app l l' : paid_sum (l ++ l') = paid_sum l + paid_sum l'.
Proof. induction l as [|e l IH]; simpl; lia. Qed.

Lemma paid_le_pending s l :
  vault_books s -> NoDup l.*1 -> (forall e, e ∈ l -> WITHDRAWAL_QUEUE s !! e.1 = Some e.2) ->
  0 <= paid_sum l <= TOTAL_PENDING_WITHDRAWALS s.
Proof.
  intros Hb Hn Hin. split.
  - assert (Forall (fun e => 0 <= wr_amount e.2) l) as Hall.
    { apply Forall_forall. intros e He. apply Hin in He. apply (vk_queue _ _ Hb) in He. lia. }
    clear -Hall. induction Hall; simpl; lia.
  - destruct (remove_all_books l 0 s Hb Hn Hin) as ([_ _ [Hp _] Hq _ _] & _ & Ht).
    rewrite Ht in Hp. assert (0 <= map_sum wr_amount (WITHDRAWAL_QUEUE (foldl remove_request s l))).
    { apply map_sum_nonneg. intros i r Hr. apply Hq in Hr. lia. }
    simpl in Hp. lia.
Qed.

Lemma take_covered_total b reqs : forall p,
  0 <= p -> Forall (fun e => 0 <= wr_amount e.2) reqs -> p + paid_sum reqs <= U128_MAX ->
  exists l t, take_covered b reqs p = Ok (l, t).
Proof.
  induction reqs as [|[i r] reqs IH]; intros p Hp Hall Hs; [by eauto|].
  simpl in *. apply Forall_cons in Hall as [Hr Hall]. simpl in Hr.
  assert (0 <= paid_sum reqs) by (clear -Hall; induction Hall; simpl; lia).
  assert (u128_op_add p (wr_amount r) = Some (p + wr_amount r)) as -> by (apply u128_op_add_Some; split; [done|lia]).
  simpl. destruct (b <? p + wr_amount r); [by eauto|].
  destruct (IH (p + wr_amount r)) as (l & t & ->); [lia|done|lia|]. simpl. by eauto.
Qed.

Lemma process_total env s balance :
  vault_books s -> vc_paused (VAULT_CONFIG s) = false ->
  ve_balance env (usdc_to_string (vc_usdc_denom (VAULT_CONFIG s))) = Ok balance -> 0 <= balance ->
  exists msgs s', execute_process_withdrawal env s = Ok (msgs, s').
Proof.
  intros Hb Hp Hbal H0. unfold execute_process_withdrawal, hbind, hget, hensure, hlift, hask, hmod, hret.
  rewrite Hp, Hbal. simpl. destruct (waiting_spec s) as [Hnd Hin]. unfold waiting_requests in *.
  set (due := take WITHDRAWAL_LIMIT (range_asc (fun _ => true) (WITHDRAWAL_QUEUE s))).
  assert (forall k, NoDup (take k due).*1 /\ forall e, e ∈ take k due -> WITHDRAWAL_QUEUE s !! e.1 = Some e.2) as Hdue.
  { intros k. split.
    - eapply sublist_NoDup; [exact Hnd|]. apply fmap_sublist. unfold due. rewrite take_take. apply sublist_take.
    - intros e He. apply Hin. unfold due in He. by do 2 apply subseteq_take in He. }
  destruct (Hdue (length due)) as [Hd1 Hd2]. rewrite firstn_all in Hd1, Hd2.
  pose proof (paid_le_pending s due Hb Hd1 Hd2) as Hle. destruct (vk_pending _ _ Hb) as [_ Hmax].
  destruct (take_covered_total balance due 0) as (l & t & E).
  - done.
  - apply Forall_forall. intros e He. apply Hd2, (vk_queue _ _ Hb) in He. lia.
  - lia.
  - rewrite E. apply take_covered_ok in E as (k & -> & _ & -> & _ & _); [|done].
    destruct (Hdue k) as [Hk1 Hk2]. pose proof (paid_le_pending s _ Hb Hk1 Hk2) as Hk.
    destruct (remove_all_books _ 0 s Hb Hk1 Hk2) as (_ & _ & Ht).
    destruct (0 + paid_sum (take k due) =? 0); [by eauto|]. rewrite Ht.
    assert (u128_sub (TOTAL_PENDING_WITHDRAWALS s) (0 + paid_sum (take k due)) =
      Some (TOTAL_PENDING_WITHDRAWALS s - (0 + paid_sum (take k due)))) as ->.
    { apply u128_sub_Some. split; [done|lia]. }
    simpl. by eauto.
Qed.

(** * Theorems *)

(** C17: The vault's books balance in every reachable state: the supply of
    shares is the sum of the balances, the pending total is the sum of the
    queued requests, each request is positive and has an id already handed
    out, and the index by user lists exactly the queue. *)
Theorem vault_books_invariant (s : VaultStore) : vault_reachable s -> vault_books s.
Proof. apply reachable_books. Qed.

(** C16: The withdrawal queue moves.  Unless the vault is paused, processing
    always succeeds: of the twenty oldest requests it pays, in order and in
    full, as many as the balance covers, stopping only at a request that does
    not fit, removes exactly those and keeps the rest; so the oldest request
    is paid as soon as the balance reaches it. *)
Theorem withdrawals_paid_in_order (env : VaultEnv) (s : VaultStore) (balance : Z) :
  vault_reachable s -> vc_paused (VAULT_CONFIG s) = false ->
  ve_balance env (usdc_to_string (vc_usdc_denom (VAULT_CONFIG s))) = Ok balance -> 0 <= balance ->
  let due := take WITHDRAWAL_LIMIT (waiting_requests s) in
  exists msgs s' k, execute_process_withdrawal env s = Ok (msgs, s') /\
    msgs = map (fun e => VmBankSend (wr_user e.2) (usdc_to_string (vc_usdc_denom (VAULT_CONFIG s)))
                           (wr_amount e.2)) (take k due) /\
    WITHDRAWAL_QUEUE s' = foldr (fun e m => delete e.1 m) (WITHDRAWAL_QUEUE s) (take k due) /\
    paid_sum (take k due) <= balance /\
    (forall e, due !! k = Some e -> balance < paid_sum (take k due) + wr_amount e.2) /\
    (forall e, due !! 0%nat = Some e -> wr_amount e.2 <= balance -> k <> 0%nat).
Proof.
  intros Hb%reachable_books Hp Hbal H0 due. destruct (process_total env s balance Hb Hp Hbal H0) as (msgs & s' & H).
  exists msgs, s'. pose proof (process_ok _ _ _ _ Hb H) as (b & k & Hb' & Hs). rewrite Hbal in Hb'. injection Hb' as <-.
  destruct (Hs H0) as (H1 & H2 & H3 & H4 & _). exists k. split_and!; try done.
  intros e He Hle ->. apply H4 in He. simpl in He. lia.
Qed.

(** Redistribution spends the excess and nothing of what is pending: it
    is governance's alone and needs more than the pending withdrawals in the
    vault; what it sends away, the remainder to governance included, is
    exactly the balance less the pending total; every market is allocated its
    share of the excess, rounded down, and the books of users are untouched. *)
Theorem redistribution_keeps_pending (env : VaultEnv) (sender : Addr) (s s' : VaultStore) (msgs : list VaultMsg) :
  (forall m b, vc_markets_allocation_bps (VAULT_CONFIG s) !! m = Some b -> 0 <= b) ->
  execute_redistribute_funds env sender s = Ok (msgs, s') ->
  let bps := vc_markets_allocation_bps (VAULT_CONFIG s) in
  exists balance, usdc_balance env s = Ok balance /\ sender = vc_governance (VAULT_CONFIG s) /\
    vc_paused (VAULT_CONFIG s) = false /\ TOTAL_PENDING_WITHDRAWALS s < balance /\
    spent_sum msgs = balance - TOTAL_PENDING_WITHDRAWALS s /\ books_part s' = books_part s /\
    forall m b, bps !! m = Some b ->
      allocation s' m = allocation s m + share (balance - TOTAL_PENDING_WITHDRAWALS s) (map_sum id bps) b.
Proof. apply redistribute_funds_ok. Qed.

(** C18: A deposit into a vault in use is worth less than it cost.  The total
    the shares are priced with already contains the deposit, so when a vault
    holds one unit for each of its [supply] shares, depositing [amount] mints
    [amount * supply / (supply + amount)] shares only, although every share
    withdraws exactly one unit: part of the deposit belongs to nobody. *)
Theorem deposit_diluted (env : VaultEnv) (sender : Addr) (denom : string) (amount supply : Z)
    (s s' : VaultStore) (msgs : list VaultMsg) :
  0 < amount -> 0 < supply -> TOTAL_LP_SUPPLY s = supply -> MARKET_ALLOCATIONS s = ∅ ->
  vc_usdc_denom (VAULT_CONFIG s) = UsdcNative denom ->
  (** the bank has moved the deposit before the message runs *)
  ve_balance env denom = Ok (supply + amount) ->
  execute_deposit env sender [(denom, amount)] s = Ok (msgs, s') ->
  let minted := default 0 (LP_BALANCES s' !! sender) - default 0 (LP_BALANCES s !! sender) in
  minted = amount * supply / (supply + amount) /\ minted < amount.
Proof.
  intros Ha Hpos Hs Hm Hd Hbal H. unfold execute_deposit, check_not_paused in H.
  step_in H v0 s0 H0. apply hbind_ok in H0 as (c & s9 & H9 & H0). get_in H9. apply hensure_ok in H0 as [_ ->].
  step_in H c1 s1 H1. get_in H1. step_in H v2 s2 H2. apply hensure_ok in H2 as [_ ->].
  lift_in H lp Hlp. step_in H v3 s3 H3. apply hret_ok in H as [-> ->].
  unfold lp_for_deposit, get_total_assets, allocated_amount in Hlp. rewrite Hd in Hlp. simpl in Hlp.
  rewrite Hbal, Hm, map_to_list_empty in Hlp. simpl in Hlp. rewrite Z.add_0_r in Hlp.
  apply rbind_ok in Hlp as (ta & Hta & Hlp). apply of_option_ok, fits_Some in Hta as [-> _].
  rewrite Hs, (proj2 (Z.eqb_neq supply 0)) in Hlp by lia.
  apply panics_ok, u128_multiply_ratio_Some in Hlp as (_ & -> & _).
  unfold mint_lp in H3. step_in H3 b s4 H4. get_in H4. lift_in H3 nb Hnb.
  apply panics_ok, u128_op_add_Some in Hnb as [-> _]. step_in H3 v5 s5 H5. apply hmod_ok in H5.
  step_in H3 t s6 H6. get_in H6. lift_in H3 nt Hnt. apply hmod_ok in H3. subst s3 s5. simpl.
  rewrite lookup_insert_eq. simpl.
  assert (amount * supply / (supply + amount) < amount) by (apply Z.div_lt_upper_bound; nia). lia.
Qed.
End Theory.

(** * A concrete vault

    Alice deposits 100, then Bob; Alice asks for 40 back. *)

Definition sample_venv (balance : Z) : VaultEnv :=
  mkVaultEnv "vault" (fun _ => Ok balance) (fun _ => Err StdError).
Definition sample_hook : string -> res unit := fun _ => Err StdError.
Definition sample_init : VaultInstantiate :=
  mkVaultInstantiate (InitUsdcNative "usdc") "gov" {[ "m1"%string := 6000; "m2"%string := 3000 ]}.
Definition sample_vault : VaultStore :=
  match vault_instantiate (CW:=cosmwasm_ref) sample_init with
  | Ok s => s
  | Err _ => mkVaultStore (mkVaultConfig "" ∅ (UsdcNative "") false) 0 None ∅ ∅ 0 ∅ ∅
  end.
Definition vault_after (r : res (list VaultMsg * VaultStore)) : VaultStore :=
  match r with Ok (_, s) => s | Err _ => sample_vault end.
Definition sample_run (balance : Z) (sender : Addr) (funds : list (string * Z)) (msg : VaultExecute)
    (s : VaultStore) : VaultStore :=
  vault_after (vault_execute (CW:=cosmwasm_ref) sample_hook (sample_venv balance) sender funds msg s).
Definition sample_vault_deposit : VaultStore :=
  sample_run 100 "alice" [("usdc"%string, 100)] VaultDeposit sample_vault.
Definition sample_vault_asked : VaultStore := sample_run 100 "alice" [] (RequestWithdrawal 40) sample_vault_deposit.

Lemma sample_vault_step balance sender funds msg s :
  0 <= balance -> vault_typed (sample_venv balance) funds msg ->
  is_ok (vault_execute (CW:=cosmwasm_ref) sample_hook (sample_venv balance) sender funds msg s) = true ->
  vault_reachable (CW:=cosmwasm_ref) sample_hook s ->
  vault_reachable (CW:=cosmwasm_ref) sample_hook (sample_run balance sender funds msg s).
Proof.
  intros Hb Ht Hok Hr. apply is_ok_Ok in Hok as [[msgs s'] E]. eapply vreach_step; [exact Hr|].
  unfold sample_run. rewrite E. by eapply vstep.
Qed.

Lemma sample_vault_asked_reachable : vault_reachable (CW:=cosmwasm_ref) sample_hook sample_vault_asked.
Proof.
  apply sample_vault_step; [done|split; [by intros d b [= <-]|by split]|vm_compute; reflexivity|].
  apply sample_vault_step; [done|split; [by intros d b [= <-]|split; [by repeat constructor|done]]|vm_compute; reflexivity|].
  apply (vreach_instantiate (CW:=cosmwasm_ref) _ sample_init). vm_compute. reflexivity.
Qed.

Lemma vault_books_invariant_witness :
  books_paying 0 sample_vault_asked /\ TOTAL_PENDING_WITHDRAWALS sample_vault_asked = 40.
Proof.
  split; [|vm_compute; reflexivity].
  apply (vault_books_invariant (CW:=cosmwasm_ref) (CWS:=cosmwasm_ref_spec) sample_hook),
    sample_vault_asked_reachable.
Defined.

Lemma withdrawals_paid_in_order_witness :
  exists msgs s' k, execute_process_withdrawal (CW:=cosmwasm_ref) (sample_venv 100) sample_vault_asked = Ok (msgs, s') /\
    k <> 0%nat.
Proof.
  destruct (withdrawals_paid_in_order (CW:=cosmwasm_ref) (CWS:=cosmwasm_ref_spec) sample_hook (sample_venv 100)
    sample_vault_asked 100 sample_vault_asked_reachable) as (msgs & s' & k & H & _ & _ & _ & _ & Hk);
    [vm_compute; reflexivity|reflexivity|done|].
  exists msgs, s', k. split; [exact H|]. eapply Hk; [vm_compute; reflexivity|vm_compute; discriminate].
Defined.

Lemma sample_bps_positive m b :
  vc_markets_allocation_bps (VAULT_CONFIG sample_vault_asked) !! m = Some b -> 0 <= b.
Proof.
  assert (forallb (fun e => 0 <=? e.2) (map_to_list (vc_markets_allocation_bps (VAULT_CONFIG sample_vault_asked))) = true)
    as Hall by (vm_compute; reflexivity).
  intros Hm. rewrite forallb_forall in Hall. apply elem_of_map_to_list, list_elem_of_In, Hall in Hm. simpl in Hm. lia.
Qed.

Lemma redistribution_keeps_pending_witness :
  exists msgs s', execute_redistribute_funds (CW:=cosmwasm_ref) (sample_venv 100) "gov" sample_vault_asked = Ok (msgs, s') /\
    spent_sum msgs = 60.
Proof.
  assert (is_ok (execute_redistribute_funds (CW:=cosmwasm_ref) (sample_venv 100) "gov" sample_vault_asked) = true)
    as Hok by (vm_compute; reflexivity).
  assert (TOTAL_PENDING_WITHDRAWALS sample_vault_asked = 40) as Hp by (vm_compute; reflexivity).
  assert (usdc_balance (sample_venv 100) sample_vault_asked = Ok 100) as Hu by (vm_compute; reflexivity).
  apply is_ok_Ok in Hok as [[msgs s'] E]. exists msgs, s'. split; [exact E|].
  destruct (redistribution_keeps_pending (CW:=cosmwasm_ref) (CWS:=cosmwasm_ref_spec) _ _ _ _ _
    sample_bps_positive E) as (balance & Hbal & _ & _ & _ & Hs & _).
  rewrite Hu in Hbal. injection Hbal as <-. rewrite Hs, Hp. reflexivity.
Defined.

(** Alice's vault, without markets, when Bob's 100 arrive. *)
Definition sample_plain : VaultStore := set_MARKET_ALLOCATIONS ∅ sample_vault_deposit.
Lemma deposit_diluted_witness :
  exists msgs s', execute_deposit (CW:=cosmwasm_ref) (sample_venv 200) "bob" [("usdc"%string, 100)] sample_plain
    = Ok (msgs, s') /\ default 0 (LP_BALANCES s' !! "bob"%string) = 50.
Proof.
  assert (is_ok (execute_deposit (CW:=cosmwasm_ref) (sample_venv 200) "bob" [("usdc"%string, 100)] sample_plain) = true)
    as Hok by (vm_compute; reflexivity).
  destruct (is_ok_Ok _ Hok) as [[msgs s'] E]. exists msgs, s'. split; [exact E|].
  destruct (deposit_diluted (CW:=cosmwasm_ref) (CWS:=cosmwasm_ref_spec) (sample_venv 200) "bob" "usdc" 100 100
    sample_plain s' msgs) as [Hm _]; [done|done|vm_compute; reflexivity..|exact E|].
  assert (default 0 (LP_BALANCES sample_plain !! "bob"%string) = 0) as E0 by (vm_compute; reflexivity).
  rewrite E0 in Hm. rewrite Z.sub_0_r in Hm. rewrite Hm. reflexivity.
Defined.
