(* ===== verification/Queries.v ===== *)
(** * The queries of the market contract

    [contracts/market/src/contract.rs: query] with [state/status.rs], the
    snapshots of open positions ([state/position.rs: pos_snapshot_for_open],
    [into_query_response*] of
    [packages/perpswap/src/contracts/market/position.rs]) and the paginated
    lists.  A query reads the [MarketCtx]; the price a caller may override for
    the query fills the cache of the spot price, which is a parameter here. *)

From stdpp Require Import base option gmap strings list.
From Stdlib Require Import ZArith Lia.
From S2P Require Import Prelude Index Storage Cosmwasm Types Number Time Market Price Token DataSeries Config Position Trading State Pool LpHistory Liquidity LpToken Fees Funding DeltaNeutrality OpenInterest PositionStore SpotPrice TradeHistory PositionToken ClosePosition OpenPosition Orders Deferred Crank Entry.
Local Open Scope Z_scope.

(** ** Positions *)

Inductive PositionsQueryFeeApproach := NoFees | Accumulated | AllFees.

(** [PositionQueryResponse]; a collateral amount and its USD value are one
    field, as in [Position]. *)
Record PositionQueryResponse := mkPositionQueryResponse {
  pq_owner : Addr;
  pq_id : PositionId;
  pq_direction_to_base : DirectionToBase;
  pq_leverage : LeverageToBase;
  pq_counter_leverage : LeverageToBase;
  pq_created_at : Timestamp;
  pq_price_point_created_at : option Timestamp;
  pq_liquifunded_at : Timestamp;
  pq_trading_fee : CollateralAndUsd;
  pq_funding_fee : SignedCollateralAndUsd;
  pq_borrow_fee : CollateralAndUsd;
  pq_crank_fee : CollateralAndUsd;
  pq_delta_neutrality_fee : SignedCollateralAndUsd;
  pq_deposit_collateral : SignedCollateralAndUsd;
  pq_active_collateral : Collateral;
  pq_active_collateral_usd : Usd;
  pq_counter_collateral : Collateral;
  pq_pnl_collateral : Signed;
  pq_pnl_usd : Signed;
  pq_dnf_on_close_collateral : Signed;
  pq_notional_size : Signed;
  pq_notional_size_in_collateral : Signed;
  pq_position_size_base : Signed;
  pq_position_size_usd : Signed;
  pq_liquidation_price_base : option PriceBaseInQuote;
  pq_liquidation_margin : LiquidationMargin;
  pq_max_gains_in_quote : option MaxGainsInQuote;
  pq_entry_price_base : PriceBaseInQuote;
  pq_next_liquifunding : Timestamp;
  pq_stop_loss_override : option PriceBaseInQuote;
  pq_take_profit_trader : option TakeProfitTrader;
  pq_take_profit_total_base : option PriceBaseInQuote;
}.

Inductive PositionOrPendingClose :=
| SnapOpen (pos : PositionQueryResponse)
| SnapPendingClose (pos : ClosedPosition).

Record PositionsResp := mkPositionsResp {
  pr_positions : list PositionQueryResponse;
  pr_pending_close : list ClosedPosition;
  pr_closed : list ClosedPosition;
}.

(** The liquidation margin of a position. *)
Definition set_margin (margin : LiquidationMargin) (p : Position) : Position :=
  mkPosition (pos_owner p) (pos_id p) (deposit_collateral p) (active_collateral p)
    (counter_collateral p) (notional_size p) (created_at p) (price_point_created_at p)
    (pos_trading_fee p) (funding_fee p) (borrow_fee p) (pos_crank_fee p) (delta_neutrality_fee p)
    (liquifunded_at p) (next_liquifunding p) (stop_loss_override p) (stop_loss_override_notional p)
    (pos_liquidation_price p) margin (take_profit_trader p) (take_profit_trader_notional p)
    (take_profit_total p).

(** A price a caller supplies for a query. *)
Record PriceForQuery := mkPriceForQuery { pfq_base : PriceBaseInQuote; pfq_collateral : PriceCollateralInUsd }.

Section Snapshots.
Context {CW : CosmwasmStd}.
Context (st : State).
(** The cached spot price, when the query came with one. *)
Context (cache : option PricePoint).

(** [override_current_price]: the cache is empty before. *)
Definition override_current_price (price : option PriceForQuery) : res (option PricePoint) :=
  match price with
  | None => Ok None
  | Some p =>
      notional <- into_notional_price (pfq_base p) (market_type st);
      Ok (Some (mkPricePoint notional (pfq_collateral p) (pfq_base p) (st_now st)
                  (market_is_notional_usd (st_market_id st)) (market_type st) None None))
  end.

Definition cached_spot_price (m : MarketCtx) : res PricePoint :=
  match cache with Some p => Ok p | None => current_spot_price st m end.

Definition into_query_response (p : Position) (end_price : PricePoint) (entry_price : Price)
    (market_type : MarketType) (dnf_on_close_collateral : Signed) : res PositionQueryResponse :=
  active <- active_leverage_to_notional p end_price;
  active <- leverage_into_base active market_type;
  let '(direction_to_base, leverage) := leverage_split active in
  counter <- counter_leverage_to_notional p end_price;
  counter <- leverage_into_base counter market_type;
  pnl_collateral <- pnl_in_collateral p;
  pnl_usd <- pnl_in_usd p end_price;
  size_in_collateral <- notional_size_in_collateral p end_price;
  size_base <- position_size_base p market_type end_price;
  active_usd <- collateral_to_usd_non_zero end_price (active_collateral p);
  size_usd <- try_map (base_to_usd end_price) size_base;
  liquidation <- map_option (fun x => into_base_price x market_type) (pos_liquidation_price p);
  take_profit <- map_option (fun x => into_base_price x market_type) (take_profit_total p);
  entry <- into_base_price entry_price market_type;
  Ok (mkPositionQueryResponse (pos_owner p) (pos_id p) direction_to_base leverage
        (leverage_split counter).2 (created_at p) (price_point_created_at p) (liquifunded_at p)
        (pos_trading_fee p) (funding_fee p) (borrow_fee p) (pos_crank_fee p)
        (delta_neutrality_fee p) (deposit_collateral p) (active_collateral p) active_usd
        (counter_collateral p) pnl_collateral pnl_usd dnf_on_close_collateral (notional_size p)
        size_in_collateral size_base size_usd liquidation (pos_liquidation_margin p) None entry
        (next_liquifunding p) (stop_loss_override p) (take_profit_trader p) take_profit).

(** The collaterals after the exposure, if both stay positive. *)
Definition extrapolate (p : Position) (is_profit : bool) (exposure : Collateral) : res (option Position) :=
  if is_profit then
    match nonzero_checked_sub (counter_collateral p) exposure with
    | Ok counter => active <- nonzero_checked_add (active_collateral p) exposure;
                    Ok (Some (set_collaterals p active counter))
    | Err _ => Ok None
    end
  else
    match nonzero_checked_sub (active_collateral p) exposure with
    | Ok active => counter <- nonzero_checked_add (counter_collateral p) exposure;
                   Ok (Some (set_collaterals p active counter))
    | Err _ => Ok None
    end.

(** What a position that has run out of one of them will be closed as. *)
Definition pending_close (p : Position) (is_profit : bool) (exposure : Collateral) (end_price : PricePoint)
    (entry_price : Price) (market_type : MarketType) : res ClosedPosition :=
  entry <- into_base_price entry_price market_type;
  active <- (if is_profit then ud_checked_add (active_collateral p) exposure else Ok 0);
  active_usd <- collateral_to_usd end_price active;
  pnl_collateral <- signed_checked_sub (into_signed active) (scu_collateral (deposit_collateral p));
  pnl_usd <- signed_checked_sub (into_signed active_usd) (scu_usd (deposit_collateral p));
  Ok (mkClosedPosition (pos_owner p) (pos_id p) (direction_into_base (pos_direction p) market_type)
        (created_at p) (price_point_created_at p) (liquifunded_at p) (pos_trading_fee p)
        (funding_fee p) (borrow_fee p) (pos_crank_fee p) (delta_neutrality_fee p)
        (deposit_collateral p) active pnl_collateral pnl_usd (notional_size p) entry
        (pp_timestamp end_price) (pp_timestamp end_price)
        (CloseLiquidated (if is_profit then LiqMaxGains else LiqLiquidated))
        (Some (pos_liquidation_margin p))).

Definition into_query_response_extrapolate_exposure (p : Position) (start_price end_price : PricePoint)
    (entry_price : Price) (market_type : MarketType) (dnf_on_close_collateral : Signed) :
    res PositionOrPendingClose :=
  exposure <- get_price_exposure p (price_notional start_price) end_price;
  let is_profit := is_strictly_positive exposure in
  let exposure := abs_unsigned exposure in
  open <- extrapolate p is_profit exposure;
  match open with
  | Some p => r <- into_query_response p end_price entry_price market_type dnf_on_close_collateral;
              Ok (SnapOpen r)
  | None => c <- pending_close p is_profit exposure end_price entry_price market_type;
            Ok (SnapPendingClose c)
  end.

(** ["0.00001"]. *)
Definition SNAPSHOT_COLLATERAL : Collateral := 10000000000000.

(** The pending fees taken off a position. *)
Definition with_pending_fees (m : MarketCtx) (pos : Position) (spot_price : PricePoint)
    (delta_neutrality_fee : Signed) : res Position :=
  '(borrow, _) <- calc_capped_borrow_fee_payment m pos (liquifunded_at pos) (st_now st);
  borrow_fees <- ud_checked_add (la_lp borrow) (la_xlp borrow);
  '(funding_payments, _) <- calc_capped_funding_payment m pos (liquifunded_at pos) (st_now st);
  borrow_fee <- cu_checked_add_assign (borrow_fee pos) borrow_fees spot_price;
  funding_fee <- scu_checked_add_assign (funding_fee pos) funding_payments spot_price;
  dnf <- scu_checked_add_assign (Position.delta_neutrality_fee pos) delta_neutrality_fee spot_price;
  let margin := pos_liquidation_margin pos in
  let margin := mkLiquidationMargin
    (default 0 (res_ok (ud_checked_sub (margin_borrow margin) borrow_fees)))
    (default 0 (res_ok (ud_checked_add_signed (margin_funding margin) (signed_neg funding_payments))))
    (* the new delta neutrality margin is computed and dropped *)
    (margin_delta_neutrality margin) (margin_crank margin) (margin_exposure margin) in
  active <- signed_checked_sub (into_signed (active_collateral pos)) (into_signed borrow_fees);
  active <- signed_checked_sub active funding_payments;
  active <- signed_checked_sub active delta_neutrality_fee;
  Ok (set_active_collateral (default SNAPSHOT_COLLATERAL (try_into_non_zero active))
       (set_margin margin
         (set_delta_neutrality_fee (set_accrued_fees pos funding_fee borrow_fee (pos_crank_fee pos)) dnf))).

Definition pos_snapshot_for_open (m : MarketCtx) (pos : Position) (fees : PositionsQueryFeeApproach) :
    res PositionOrPendingClose :=
  entry_price <- spot_price_at st m (default (created_at pos) (price_point_created_at pos));
  spot_price <- cached_spot_price m;
  dnf_on_close_collateral <- calc_delta_neutrality_fee st m (signed_neg (notional_size pos)) spot_price
                               (Some (margin_delta_neutrality (pos_liquidation_margin pos)));
  pos <- match fees with
         | NoFees => Ok pos
         | Accumulated => with_pending_fees m pos spot_price NUMBER_ZERO
         | AllFees => with_pending_fees m pos spot_price dnf_on_close_collateral
         end;
  start_price <- spot_price_at st m (liquifunded_at pos);
  into_query_response_extrapolate_exposure pos start_price spot_price (price_notional entry_price)
    (market_type st) dnf_on_close_collateral.

(** [QueryMsg::Positions]. *)
Fixpoint positions_snapshots (m : MarketCtx) (ids : list PositionId) (fees : PositionsQueryFeeApproach)
    (r : PositionsResp) : res PositionsResp :=
  match ids with
  | [] => Ok r
  | id :: ids =>
      r <- match load_closed_position m id with
           | Some pos => Ok (mkPositionsResp (pr_positions r) (pr_pending_close r) (pr_closed r ++ [pos]))
           | None =>
               pos <- get_position m id;
               snap <- pos_snapshot_for_open m pos fees;
               match snap with
               | SnapOpen pos =>
                   Ok (mkPositionsResp (pr_positions r ++ [pos]) (pr_pending_close r) (pr_closed r))
               | SnapPendingClose pending =>
                   Ok (mkPositionsResp (pr_positions r) (pr_pending_close r ++ [pending]) (pr_closed r))
               end
           end;
      positions_snapshots m ids fees r
  end.
Definition positions_fees (skip_calc_pending_fees : option bool)
    (fees : option PositionsQueryFeeApproach) : PositionsQueryFeeApproach :=
  match fees with
  | Some fees => fees
  | None => if default false skip_calc_pending_fees then NoFees else AllFees
  end.
Definition query_positions (m : MarketCtx) (ids : list PositionId) (skip_calc_pending_fees : option bool)
    (fees : option PositionsQueryFeeApproach) : res PositionsResp :=
  positions_snapshots m ids (positions_fees skip_calc_pending_fees fees) (mkPositionsResp [] [] []).
End Snapshots.

(** ** Lists *)

(** The entries of a map under the first component of its key. *)
Definition under {V} (owner : Addr) (m : gmap (Addr * Z) V) : gmap Z V :=
  map_fold (fun k v acc => if bool_decide (k.1 = owner) then <[k.2 := v]> acc else acc) ∅ m.

Record LimitOrderResp := mkLimitOrderResp {
  lor_order_id : OrderId;
  lor_trigger_price : PriceBaseInQuote;
  lor_collateral : Collateral;
  lor_leverage : LeverageToBase;
  lor_direction : DirectionToBase;
  lor_max_gains : option MaxGainsInQuote;
  lor_stop_loss_override : option PriceBaseInQuote;
  lor_take_profit : TakeProfitTrader;
}.

Definition ORDER_DEFAULT_LIMIT : Z := 20.
Definition DEFERRED_DEFAULT_LIMIT : Z := 10.

Inductive GetDeferredExecResp := DeferredFound (item : DeferredExecWithStatus) | DeferredNotFound.

Definition get_deferred_exec_resp (m : MarketCtx) (id : DeferredExecId) : GetDeferredExecResp :=
  match load_deferred m id with Some item => DeferredFound item | None => DeferredNotFound end.

(** The [expect]ed item of every listed id. *)
Fixpoint load_deferred_items (m : MarketCtx) (ids : list DeferredExecId) : res (list DeferredExecWithStatus) :=
  match ids with
  | [] => Ok []
  | id :: ids =>
      item <- panics "Logic error in list_deferred_execs" (load_deferred m id);
      items <- load_deferred_items m ids;
      Ok (item :: items)
  end.
Definition list_deferred_execs (m : MarketCtx) (addr : Addr) (start_after : option DeferredExecId)
    (limit : option Z) : res (list DeferredExecWithStatus * option DeferredExecId) :=
  let ids := map fst (range_desc (fun k => match start_after with Some a => k <? a | None => true end)
                        (under addr (DEFERRED_EXECS_BY_WALLET (m_deferred m)))) in
  let limit := Z.to_nat (Z.min (default DEFERRED_DEFAULT_LIMIT limit) QUERY_MAX_LIMIT) in
  items <- load_deferred_items m (take limit ids);
  Ok (items, if is_empty (drop limit ids) then None else last (take limit ids)).

(** [State::referral_stats]: with the factory's count of referees. *)
Record ReferralStatsResp := mkReferralStatsResp {
  rsr_generated : CollateralAndUsd;
  rsr_received : CollateralAndUsd;
  rsr_referees : Z;
  rsr_referrer : option Addr;
}.

Section Lists.
Context {CW : CosmwasmStd}.
Context (st : State).

Definition limit_order_resp (m : MarketCtx) (order_id : OrderId) : res LimitOrderResp :=
  order <- load_order m order_id;
  take_profit <- backwards_compat_limit_order_take_profit st m order;
  Ok (mkLimitOrderResp order_id (lo_trigger_price order) (lo_collateral order) (lo_leverage order)
        (direction_into_base (lo_direction order) (market_type st)) (lo_max_gains order)
        (lo_stop_loss_override order) take_profit).

(** The loop over at most [limit] ids. *)
Fixpoint limit_orders_loop (m : MarketCtx) (limit : nat) (orders : list LimitOrderResp)
    (next_start_after : option OrderId) (iter : list OrderId) :
    res (list LimitOrderResp * option OrderId * list OrderId) :=
  match limit with
  | O => Ok (orders, next_start_after, iter)
  | S limit =>
      match iter with
      | order_id :: iter =>
          order_resp <- limit_order_resp m order_id;
          limit_orders_loop m limit (orders ++ [order_resp]) (Some order_id) iter
      | [] => Ok (orders, None, [])
      end
  end.

(** [start_after] is the lower bound in both orders. *)
Definition owner_order_ids (m : MarketCtx) (addr : Addr) (start_after : option OrderId)
    (order : OrderInMessage) : list OrderId :=
  let admitted k := match start_after with Some a => a <? k | None => true end in
  let ids := under addr (LIMIT_ORDERS_BY_ADDR (m_orders m)) in
  map fst (match order with
           | OrderAscending => range_asc admitted ids
           | OrderDescending => range_desc admitted ids
           end).

Definition limit_order_load_by_addr (m : MarketCtx) (addr : Addr) (start_after : option OrderId)
    (limit : option Z) (order : option OrderInMessage) : res (list LimitOrderResp * option OrderId) :=
  let limit := Z.to_nat (Z.min (default ORDER_DEFAULT_LIMIT limit) QUERY_MAX_LIMIT) in
  '(orders, next_start_after, iter) <-
    limit_orders_loop m limit [] None
      (owner_order_ids m addr start_after (default OrderAscending order));
  Ok (orders, if is_empty iter then None else next_start_after).

Definition lp_action_get_history (m : MarketCtx) (addr : Addr) (start_after limit : option Z)
    (descending : bool) : list LpAction * option Z :=
  get_history_helper (under addr (LP_HISTORY_BY_ADDRESS (m_history m))) start_after limit descending.

Definition referral_stats (query_referee_count : Addr -> res (option Z)) (m : MarketCtx) (addr : Addr) :
    res ReferralStatsResp :=
  referees <- query_referee_count addr;
  let stats := referral_stats_of m addr in
  referrer <- get_referrer_for st addr;
  Ok (mkReferralStatsResp (generated stats) (received_referral stats) (default 0 referees) referrer).
End Lists.

(** ** The status of the market (status.rs) *)

Record StatusResp := mkStatusResp {
  status_market_id : MarketId;
  status_base : string;
  status_quote : string;
  status_market_type : MarketType;
  status_collateral : Token;
  status_config : Config;
  status_liquidity : LiquidityStats;
  status_next_crank : option CrankWorkInfo;
  status_last_crank_completed : option Timestamp;
  status_next_deferred_execution : option Timestamp;
  status_newest_deferred_execution : option Timestamp;
  status_next_liquifunding : option Timestamp;
  status_deferred_execution_items : Z;
  status_last_processed_deferred_exec_id : option DeferredExecId;
  status_borrow_fee : Decimal256;
  status_borrow_fee_lp : Decimal256;
  status_borrow_fee_xlp : Decimal256;
  status_long_funding : Number;
  status_short_funding : Number;
  status_long_notional : Notional;
  status_short_notional : Notional;
  status_long_usd : Usd;
  status_short_usd : Usd;
  status_instant_delta_neutrality_fee_value : Signed;
  status_delta_neutrality_fee_fund : Collateral;
  status_fees : Fees;
}.

Section Status.
Context {CW : CosmwasmStd}.
Context (st : State).
Context (cache : option PricePoint).

Definition status_next_crank_work (m : MarketCtx) : res (option CrankWorkInfo) :=
  match next_crank_timestamp st m with
  | None => Ok None
  | Some crank_price_point =>
      price_point <- cached_spot_price st cache m;
      work_item <- crank_work m crank_price_point;
      Ok (match work_item with
          | WorkCompleted =>
              if pp_timestamp price_point =? pp_timestamp crank_price_point then None else Some work_item
          | _ => Some work_item
          end)
  end.

(** By direction to base. *)
Definition in_base {A} (p : A * A) : A * A :=
  match market_type st with CollateralIsQuote => p | CollateralIsBase => (p.2, p.1) end.

Definition status_usd (m : MarketCtx) (long short : Notional) : res (Usd * Usd) :=
  if (long =? 0) && (short =? 0) then Ok (0, 0)
  else
    price_point <- cached_spot_price st cache m;
    long_usd <- notional_to_usd price_point long;
    short_usd <- notional_to_usd price_point short;
    Ok (long_usd, short_usd).

(** When the newest item was created, if it is still pending. *)
Definition newest_deferred (m : MarketCtx) (ids : option DeferredExecLatestIds) : res (option Timestamp) :=
  match ids with
  | None => Ok None
  | Some ids =>
      deferred <- std (load_deferred m (issued ids));
      Ok (if is_pending (de_status deferred) then Some (de_created deferred) else None)
  end.

Definition status (m : MarketCtx) : res StatusResp :=
  next_crank <- status_next_crank_work m;
  funding <- derive_instant_funding_rate_annual st m;
  '(_, borrow_fee) <- get_current_borrow_fee_rate_annual m;
  let '(long_funding, short_funding) := in_base funding in
  let '(long_notional, short_notional) := in_base (open_long_interest m, open_short_interest m) in
  '(long_usd, short_usd) <- status_usd m long_notional short_notional;
  net <- signed_checked_sub (into_signed long_notional) (into_signed short_notional);
  instant <- number_checked_div (into_number net)
               (into_signed (delta_neutrality_fee_sensitivity (st_config st)));
  next_deferred <- get_next_deferred_execution m;
  let ids := DEFERRED_EXEC_LATEST_IDS (m_deferred m) in
  items <- match ids with Some ids => queue_size ids | None => Ok 0 end;
  newest <- newest_deferred m ids;
  borrow_total <- borrow_fees_total borrow_fee;
  Ok (mkStatusResp (st_market_id st) (mid_base (st_market_id st)) (mid_quote (st_market_id st))
        (market_type st) (st_token st) (st_config st) (liquidity_stats m) next_crank
        (LAST_CRANK_COMPLETED (m_crank m)) ((fun d => de_created d.2) <$> next_deferred) newest
        ((fun e => e.1.1) <$> entry_min (fun _ => true) (NEXT_LIQUIFUNDING (m_positions m)))
        items (ids ≫= processed) borrow_total (bf_lp borrow_fee) (bf_xlp borrow_fee) long_funding
        short_funding long_notional short_notional long_usd short_usd instant
        (default 0 (DELTA_NEUTRALITY_FUND m)) (ALL_FEES m)).
End Status.

(** ** The dispatch *)

(** [QueryMsg] of the position token. *)
Inductive NftQuery :=
| NqVersion
| NqOwnerOf (token_id : string) (include_expired : option bool)
| NqApproval (token_id : string) (spender : RawAddr) (include_expired : option bool)
| NqApprovals (token_id : string) (include_expired : option bool)
| NqAllOperators (owner : RawAddr) (include_expired : option bool) (start_after : option RawAddr)
    (limit : option Z)
| NqNumTokens
| NqContractInfo
| NqNftInfo (token_id : string)
| NqAllNftInfo (token_id : string) (include_expired : option bool)
| NqTokens (owner : RawAddr) (start_after : option string) (limit : option Z)
| NqAllTokens (start_after : option string) (limit : option Z).

(** The metadata of a token is the position, whose fields are its attributes,
    and the market id. *)
Record FullTokenInfo := mkFullTokenInfo {
  fti_owner : Addr;
  fti_approvals : list Approval;
  fti_extension : Position * MarketId;
}.

(** [cw2::ContractVersion]. *)
Record ContractVersion := mkContractVersion { cv_contract : string; cv_version : string }.

Inductive NftAnswer :=
| NaVersion (version : ContractVersion)
| NaOwnerOf (owner : Addr) (approvals : list Approval)
| NaApproval (a : Approval)
| NaApprovals (l : list Approval)
| NaNumTokens (count : Z)
| NaContractInfo (name symbol : string)
| NaNftInfo (extension : Position * MarketId)
| NaAllNftInfo (owner : Addr) (approvals : list Approval) (extension : Position * MarketId)
| NaTokens (tokens : list string).

Inductive MarketQuery :=
| QVersion
| QStatus (price : option PriceForQuery)
| QSpotPrice (timestamp : option Timestamp)
| QSpotPriceHistory (start_after : option Timestamp) (limit : option Z) (order : option OrderInMessage)
| QOraclePrice (validate_age : bool)
| QPositions (position_ids : list PositionId) (skip_calc_pending_fees : option bool)
    (fees : option PositionsQueryFeeApproach) (price : option PriceForQuery)
| QLimitOrder (order_id : OrderId)
| QLimitOrders (owner : RawAddr) (start_after : option OrderId) (limit : option Z)
    (order : option OrderInMessage)
| QClosedPositionHistory (owner : RawAddr) (cursor : option ClosedPositionCursor) (limit : option Z)
    (order : option OrderInMessage)
| QNftProxy (nft_msg : NftQuery)
| QLiquidityTokenProxy (kind : LiquidityTokenKind) (msg : LpTokenQuery)
| QTradeHistorySummary (addr : RawAddr)
| QPositionActionHistory (id : PositionId) (start_after : option string) (limit : option Z)
    (order : option OrderInMessage)
| QTraderActionHistory (owner : RawAddr) (start_after : option string) (limit : option Z)
    (order : option OrderInMessage)
| QLpActionHistory (addr : RawAddr) (start_after : option string) (limit : option Z)
    (order : option OrderInMessage)
| QLimitOrderHistory (addr : RawAddr) (start_after : option string) (limit : option Z)
    (order : option OrderInMessage)
| QLpInfo (liquidity_provider : RawAddr)
| QReferralStats (addr : RawAddr)
| QDeltaNeutralityFee (notional_delta : Signed) (pos_delta_neutrality_fee_margin : option Collateral)
| QPriceWouldTrigger (price : PriceBaseInQuote)
| QListDeferredExecs (addr : RawAddr) (start_after : option DeferredExecId) (limit : option Z)
| QGetDeferredExec (id : DeferredExecId).

Inductive MarketAnswer :=
| AVersion (version : ContractVersion)
| AStatus (r : StatusResp)
| ASpotPrice (p : PricePoint)
| ASpotPriceHistory (l : list PricePoint)
| AOraclePrice (prices : OraclePriceInternal) (composed : PricePoint)
| APositions (r : PositionsResp)
| ALimitOrder (r : LimitOrderResp)
| ALimitOrders (orders : list LimitOrderResp) (next_start_after : option OrderId)
| AClosedPositions (r : ClosedPositionsResp)
| ANft (r : NftAnswer)
| ALiquidityToken (r : LpTokenAnswer)
| ATradeSummary (r : TradeHistorySummary)
| APositionActions (actions : list PositionAction) (next_start_after : option Z)
| ALpActions (actions : list LpAction) (next_start_after : option Z)
| ALimitOrderHistory (orders : list ExecutedLimitOrder) (next_start_after : option Z)
| ALpInfo (r : LpInfoResp)
| AReferralStats (r : ReferralStatsResp)
| ADeltaNeutralityFee (amount : Signed) (fund_total : Collateral) (slippage_assert_price : PriceBaseInQuote)
| APriceWouldTrigger (would_trigger : bool)
| AListDeferredExecs (items : list DeferredExecWithStatus) (next_start_after : option DeferredExecId)
| AGetDeferredExec (r : GetDeferredExecResp).

Section Dispatch.
Context {CW : CosmwasmStd}.
Context (st : State).
(** The stored contract version, the one the position token reports, and the
    factory's count of a wallet's referees. *)
Context (version nft_version : res ContractVersion).
Context (query_referee_count : Addr -> res (option Z)).

Definition nft_token_full (m : MarketCtx) (token_id : string) : res FullTokenInfo :=
  id <- position_id_parse token_id;
  approvals <- nft_token_approvals m token_id;
  position <- get_position m id;
  Ok (mkFullTokenInfo (pos_owner position) approvals (position, st_market_id st)).

Definition operators_of (m : MarketCtx) (owner : Addr) : gmap Addr Expiration :=
  map_fold (fun k v acc => if bool_decide (k.1 = owner) then <[k.2 := v]> acc else acc) ∅
    (NFT_OPERATORS (m_nft m)).
Definition nft_operators (m : MarketCtx) (owner : Addr) (include_expired : bool)
    (start_addr : option Addr) (limit : option Z) : list Approval :=
  let ops := operators_of m owner in
  take (Z.to_nat (Z.min (default NFT_DEFAULT_LIMIT limit) QUERY_MAX_LIMIT))
    (filter (fun a => (include_expired || negb (is_expired (approval_expires a) (st_block st))) = true)
      (omap (fun k => mkApproval k <$> ops !! k) (keys_after start_addr ops))).

Definition validate_raw (a : RawAddr) : res Addr := std (addr_validate a).

Definition nft_handle_query (m : MarketCtx) (msg : NftQuery) : res NftAnswer :=
  match msg with
  | NqVersion => _ <- fq_position_token (st_factory st); v <- nft_version; Ok (NaVersion v)
  | NqContractInfo => Ok (NaContractInfo (mid_encoded (st_market_id st)) (mid_encoded (st_market_id st)))
  | NqNftInfo token_id => t <- nft_token_full m token_id; Ok (NaNftInfo (fti_extension t))
  | NqOwnerOf token_id include_expired =>
      '(owner, approvals) <- nft_owner_of st m token_id (default false include_expired);
      Ok (NaOwnerOf owner approvals)
  | NqAllNftInfo token_id include_expired =>
      t <- nft_token_full m token_id;
      Ok (NaAllNftInfo (fti_owner t)
            (filter_approvals st (fti_approvals t) (default false include_expired)) (fti_extension t))
  | NqAllOperators owner include_expired start_after limit =>
      owner <- validate_raw owner;
      start <- map_option validate_raw start_after;
      Ok (NaApprovals (nft_operators m owner (default false include_expired) start limit))
  | NqNumTokens => Ok (NaNumTokens (nft_num_tokens m))
  | NqTokens owner start_after limit =>
      owner <- validate_raw owner; Ok (NaTokens (nft_map_token_ids m (Some owner) start_after limit))
  | NqAllTokens start_after limit => Ok (NaTokens (nft_map_token_ids m None start_after limit))
  | NqApproval token_id spender include_expired =>
      spender <- validate_raw spender;
      a <- nft_approval st m token_id spender (default false include_expired);
      Ok (NaApproval a)
  | NqApprovals token_id include_expired =>
      l <- nft_approvals st m token_id (default false include_expired); Ok (NaApprovals l)
  end.

(** [QueryMsg::OraclePrice]. *)
Definition oracle_price (validate_age : bool) : res (OraclePriceInternal * PricePoint) :=
  match spot_price (st_config st) with
  | SpotManual _ =>
      Err (AnyhowError "there is no oracle for this market, it uses a manual price instead")
  | SpotOracle _ _ feeds feeds_usd _ =>
      o <- get_oracle_price st validate_age;
      price_storage <- compose_price o (oq_rujira_symbol (st_oracle st)) (market_type st) feeds feeds_usd
                         (st_now st);
      time <- calculate_publish_time o (if validate_age then config_volatile_time st else 2 ^ 32 - 1)
                (st_now st);
      time <- of_option (AnyhowError "couldn't get an oracle price (no-volatile)") time;
      Ok (o, make_price_point st time price_storage)
  end.

(** [QueryMsg::DeltaNeutralityFee]. *)
Definition query_delta_neutrality_fee (m : MarketCtx) (notional_delta : Signed)
    (margin : option Collateral) : res (Signed * PriceBaseInQuote) :=
  price <- current_spot_price st m;
  fees <- calc_delta_neutrality_fee st m notional_delta price margin;
  fee_rate <- number_checked_div (into_number fees) (into_number notional_delta);
  factor <- signed_checked_add (into_signed DEC_ONE) fee_rate;
  number <- number_checked_mul (into_signed (price_notional price)) factor;
  p <- price_try_from_number number;
  b <- into_base_price p (market_type st);
  Ok (fees, b).

Definition start_parse (start_after : option string) : res (option Z) :=
  map_option (fun s => std (parse_u64 s)) start_after.
Definition is_descending (order : option OrderInMessage) : bool :=
  match order with Some OrderDescending => true | _ => false end.

Definition query (m : MarketCtx) (msg : MarketQuery) : res MarketAnswer :=
  match msg with
  | QVersion => v <- version; Ok (AVersion v)
  | QStatus price => cache <- override_current_price st price; r <- status st cache m; Ok (AStatus r)
  | QSpotPrice timestamp =>
      p <- match timestamp with Some t => spot_price_at st m t | None => current_spot_price st m end;
      Ok (ASpotPrice p)
  | QSpotPriceHistory start_after limit order =>
      Ok (ASpotPriceHistory (historical_spot_prices st m start_after limit order))
  | QOraclePrice validate_age => '(o, p) <- oracle_price validate_age; Ok (AOraclePrice o p)
  | QPositions ids skip_calc_pending_fees fees price =>
      cache <- override_current_price st price;
      r <- query_positions st cache m ids skip_calc_pending_fees fees;
      Ok (APositions r)
  | QLimitOrder order_id => r <- limit_order_resp st m order_id; Ok (ALimitOrder r)
  | QLimitOrders owner start_after limit order =>
      owner <- validate_raw owner;
      '(l, next) <- limit_order_load_by_addr st m owner start_after limit order;
      Ok (ALimitOrders l next)
  | QClosedPositionHistory owner cursor limit order =>
      owner <- validate_raw owner;
      Ok (AClosedPositions (closed_positions_history m owner cursor order limit))
  | QNftProxy nft_msg => r <- nft_handle_query m nft_msg; Ok (ANft r)
  | QLiquidityTokenProxy kind msg =>
      r <- liquidity_token_handle_query st m kind msg; Ok (ALiquidityToken r)
  | QTradeHistorySummary addr =>
      addr <- validate_raw addr; Ok (ATradeSummary (trade_history_get_summary m addr))
  | QPositionActionHistory id start_after limit order =>
      start <- start_parse start_after;
      let '(l, next) := position_action_get_history m id start limit (is_descending order) in
      Ok (APositionActions l next)
  | QTraderActionHistory owner start_after limit order =>
      owner <- validate_raw owner;
      start <- start_parse start_after;
      let '(l, next) := trader_action_get_history m owner start limit (is_descending order) in
      Ok (APositionActions l next)
  | QLpActionHistory addr start_after limit order =>
      addr <- validate_raw addr;
      start <- start_parse start_after;
      let '(l, next) := lp_action_get_history m addr start limit (is_descending order) in
      Ok (ALpActions l next)
  | QLimitOrderHistory addr start_after limit order =>
      addr <- validate_raw addr;
      start <- start_parse start_after;
      let '(l, next) := limit_order_get_history m addr start limit (is_descending order) in
      Ok (ALimitOrderHistory l next)
  | QLpInfo liquidity_provider =>
      addr <- validate_raw liquidity_provider; r <- lp_info st m addr; Ok (ALpInfo r)
  | QReferralStats addr =>
      addr <- validate_raw addr;
      r <- referral_stats st query_referee_count m addr;
      Ok (AReferralStats r)
  | QDeltaNeutralityFee notional_delta margin =>
      '(amount, price) <- query_delta_neutrality_fee m notional_delta margin;
      Ok (ADeltaNeutralityFee amount (default 0 (DELTA_NEUTRALITY_FUND m)) price)
  | QPriceWouldTrigger price => b <- price_would_trigger st m price; Ok (APriceWouldTrigger b)
  | QListDeferredExecs addr start_after limit =>
      addr <- validate_raw addr;
      '(l, next) <- list_deferred_execs m addr start_after limit;
      Ok (AListDeferredExecs l next)
  | QGetDeferredExec id => Ok (AGetDeferredExec (get_deferred_exec_resp m id))
  end.
End Dispatch.
