(* ===== verification/QueriesInv.v ===== *)
(** * Properties of the market's queries

    Pages: what the pages of an ordered index add up to, and what the pages
    of open limit orders show.  Snapshots: a position a query shows has the
    collateral of the stored one, moved by the price exposure and the pending
    fees. *)

From stdpp Require Import base option gmap strings list sorting.
From Stdlib Require Import ZArith Lia.
From S2P Require Import Prelude Index Storage Cosmwasm Types Number Time Market Price Token DataSeries Config Position Trading State TradeHistory PositionStore Orders LiquiditySystem Queries.
Local Open Scope Z_scope.

(** ** The rest of an index after one of its keys *)

Section Pages.
Context {K V : Type} `{Countable K} `{KeyOrder K}.

Lemma range_asc_drop P (m : gmap K V) l1 e l2 :
  range_asc P m = l1 ++ e :: l2 ->
  range_asc (fun k => P k && key_lt e.1 k) m = l2.
Proof.
  intros E. destruct (range_asc_spec P m) as (Hs & Hnd & Hin). rewrite E in Hs, Hnd.
  destruct (range_asc_spec (fun k => P k && key_lt e.1 k) m) as (Hs' & Hnd' & Hin').
  apply StronglySorted_app in Hs as (Hbefore & _ & [Hafter Hs2]%StronglySorted_cons).
  rewrite fmap_app, fmap_cons in Hnd. apply NoDup_app in Hnd as (_ & Hdis & [Hne Hnd2]%NoDup_cons).
  rewrite Forall_forall in Hafter.
  apply (StronglySorted_unique_strong entry_le); [|done|done|].
  - intros [k v] [k' v'] Hk Hk' H1 H2. unfold entry_le in *. simpl in *.
    assert (k = k') as <- by (by apply key_lt_total). apply Hin' in Hk as [Hk _].
    assert ((k, v') ∈ range_asc P m) as [Hk'' _]%Hin; [rewrite E, elem_of_app, elem_of_cons; auto|]. congruence.
  - apply NoDup_Permutation; [by apply NoDup_fmap_1 in Hnd'|by apply NoDup_fmap_1 in Hnd2|].
    intros [k v]. rewrite Hin', andb_true_iff. split.
    + intros (Hk & HP & Hlt). assert ((k, v) ∈ range_asc P m) as Hm by (by apply Hin).
      rewrite E, elem_of_app, elem_of_cons in Hm. destruct Hm as [Hm|[<-|Hm]]; [|by rewrite key_lt_irrefl in Hlt|done].
      specialize (Hbefore _ e Hm ltac:(by left)). unfold entry_le in Hbefore. simpl in Hbefore. congruence.
    + intros Hm. assert ((k, v) ∈ range_asc P m) as [Hk HP]%Hin by (rewrite E, elem_of_app, elem_of_cons; auto).
      split; [done|]. split; [done|]. specialize (Hafter _ Hm). unfold entry_le in Hafter. simpl in Hafter.
      destruct (key_lt e.1 k) eqn:Hlt; [done|]. destruct Hne. rewrite list_elem_of_fmap.
      exists (k, v). split; [by apply key_lt_total|done].
Qed.
End Pages.

(** ** The pages of open limit orders *)

Section Orders.
Context {CW : CosmwasmStd}.
Context (st : State).

(** A page is the next ids with their orders, and the cursor is the last id
    of a page that is not the last. *)
Lemma limit_orders_loop_ok m limit : forall orders next iter r next' rest,
  limit_orders_loop st m limit orders next iter = Ok (r, next', rest) ->
  exists page new, iter = page ++ rest /\ r = orders ++ new /\ (length page <= limit)%nat /\
    Forall2 (fun id o => limit_order_resp st m id = Ok o) page new /\
    (rest <> [] -> length page = limit /\ next' = (if is_empty page then next else last page)).
Proof.
  induction limit as [|limit IH]; intros orders next iter r next' rest Hloop; simpl in Hloop.
  - injection Hloop as <- <- <-. exists [], []. rewrite !app_nil_r. split_and!; simpl; try done; try lia; constructor.
  - destruct iter as [|id iter].
    + injection Hloop as <- <- <-. exists [], []. rewrite !app_nil_r. split_and!; simpl; try done; try lia; constructor.
    + apply rbind_ok in Hloop as (o & Ho & Hloop). apply IH in Hloop as (page & new & -> & -> & Hl & Hf & Hn).
      exists (id :: page), (o :: new). rewrite <- app_assoc. simpl. split_and!; [done|done|lia|by constructor|].
      intros Hr. destruct (Hn Hr) as [<- ->]. split; [done|]. by destruct page.
Qed.

Lemma limit_order_resp_id m id o : limit_order_resp st m id = Ok o -> lor_order_id o = id.
Proof. unfold limit_order_resp. intros (? & _ & (? & _ & [= <-])%rbind_ok)%rbind_ok. done. Qed.
Lemma page_ids m page new :
  Forall2 (fun id o => limit_order_resp st m id = Ok o) page new -> map lor_order_id new = page.
Proof. induction 1 as [|id o ? ? Ho _ IH]; [done|]. simpl. by rewrite (limit_order_resp_id _ _ _ Ho), IH. Qed.

Definition admitted (start_after : option OrderId) (k : OrderId) : bool :=
  match start_after with Some a => a <? k | None => true end.

Lemma owner_order_ids_rest m addr start page c rest :
  owner_order_ids m addr start OrderAscending = page ++ c :: rest ->
  owner_order_ids m addr (Some c) OrderAscending = rest.
Proof.
  unfold owner_order_ids. set (ids := under addr _). intros E.
  apply map_eq_app in E as (l1 & l2 & E & _ & E2). destruct l2 as [|e l2]; [done|]. injection E2 as <- <-.
  rewrite <- (range_asc_drop _ _ _ _ _ E). f_equal.
  unfold range_asc. f_equal. apply list_filter_iff. intros [k v]. simpl.
  assert (admitted start e.1 = true) as Hadm.
  { destruct (range_asc_spec (admitted start) ids) as (_ & _ & Hin).
    destruct e as [i w]. apply (Hin i w). unfold admitted. rewrite E, elem_of_app, elem_of_cons. auto. }
  unfold admitted in Hadm. destruct start as [a|]; rewrite ?andb_true_iff, ?Z.ltb_lt in *; naive_solver lia.
Qed.

Lemma map_reverse {A B} (f : A -> B) (l : list A) : map f (reverse l) = reverse (map f l).
Proof. apply (fmap_reverse f). Qed.
Lemma range_asc_lt {V} P (ids : gmap Z V) : StronglySorted Z.lt (map fst (range_asc P ids)).
Proof.
  destruct (range_asc_spec P ids) as (Hs & Hnd & _). revert Hs Hnd.
  induction (range_asc P ids) as [|e l IH]; [constructor|].
  intros [He Hs]%StronglySorted_cons [Hne Hnd]%NoDup_cons. constructor; [by apply IH|].
  change (Forall (Z.lt e.1) (map fst l)). change (e.1 ∉ l.*1) in Hne.
  apply Forall_forall. intros k ([k' v] & -> & Hk)%list_elem_of_fmap. simpl.
  apply (proj1 (Forall_forall _ _)) with (x := (k', v)) in He; [|done]. unfold entry_le in He. simpl in He. apply Z.ltb_ge in He.
  destruct (decide (e.1 = k')) as [E|]; [|lia]. destruct Hne. rewrite E. apply list_elem_of_fmap.
  by exists (k', v).
Qed.

(** In descending order the ids fall, and the cursor is a lower bound. *)
Lemma owner_order_ids_desc m addr start page c rest :
  owner_order_ids m addr start OrderDescending = page ++ c :: rest ->
  Forall (fun id => id < c) rest /\
  Forall (fun id => c < id) (owner_order_ids m addr (Some c) OrderDescending).
Proof.
  unfold owner_order_ids, range_desc. set (ids := under addr _). intros E. rewrite map_reverse in E.
  pose proof (range_asc_lt (admitted start) ids) as Hs. fold (admitted start) in E.
  apply (f_equal reverse) in E. rewrite reverse_involutive, reverse_app, reverse_cons in E. rewrite E in Hs.
  split; apply Forall_forall; intros id Hid.
  - rewrite <- app_assoc in Hs. apply (StronglySorted_app_1_elem_of _ _ _ _ _ Hs); [by apply elem_of_reverse|].
    rewrite elem_of_app. left. by left.
  - rewrite map_reverse, elem_of_reverse in Hid. apply list_elem_of_fmap in Hid as ([k v] & -> & Hid).
    apply range_asc_spec in Hid as [_ Hid]. by apply Z.ltb_lt.
Qed.

(** C31: The pages of a wallet's open limit orders.  A page shows, in order,
    the next orders of the wallet as they are stored; without a cursor it is
    the last one.  In ascending order the cursor leads to exactly the orders
    not shown yet.  In descending order it does not: the cursor is a lower
    bound there too, so the next page goes back to orders already shown and
    the remaining, older ones are never reached. *)
Theorem limit_orders_pages (m : MarketCtx) (addr : Addr) (start next : option OrderId)
    (limit : option Z) (order : option OrderInMessage) (orders : list LimitOrderResp) :
  0 < default ORDER_DEFAULT_LIMIT limit ->
  limit_order_load_by_addr st m addr start limit order = Ok (orders, next) ->
  let ord := default OrderAscending order in
  let ids := map lor_order_id orders in
  let all := owner_order_ids m addr start ord in
  Forall2 (fun id o => limit_order_resp st m id = Ok o) ids orders /\
  match next with
  | None => ids = all
  | Some c =>
      last ids = Some c /\
      exists rest, all = ids ++ rest /\ rest <> [] /\
        match ord with
        | OrderAscending => owner_order_ids m addr (Some c) ord = rest
        | OrderDescending =>
            Forall (fun id => id < c) rest /\
            Forall (fun id => c < id) (owner_order_ids m addr (Some c) ord)
        end
  end.
Proof.
  intros Hlim Hl ord ids all. unfold limit_order_load_by_addr in Hl. fold ord in Hl. fold all in Hl.
  apply rbind_ok in Hl as ([[r n] rest] & Hl & [= <- <-]).
  apply limit_orders_loop_ok in Hl as (page & new & Hall & -> & Hlen & Hf & Hn). simpl in *.
  assert (ids = page) as Hids by (by apply (page_ids m)). rewrite Hids. split; [done|].
  destruct rest as [|id rest]; simpl; [by rewrite app_nil_r in Hall|].
  destruct (Hn ltac:(done)) as [Hlen' ->].
  assert (page <> []) as Hne. { intros ->. simpl in Hlen'. unfold QUERY_MAX_LIMIT in Hlen'. lia. }
  assert (is_empty page = false) as -> by (by destruct page).
  destruct (exists_last Hne) as (page0 & c & ->). rewrite last_snoc. split; [done|].
  exists (id :: rest). split; [done|]. split; [done|]. subst all. rewrite <- app_assoc in Hall. simpl in Hall.
  destruct ord.
  - by apply owner_order_ids_rest in Hall.
  - by apply owner_order_ids_desc in Hall.
Qed.
End Orders.

(** ** Snapshots of positions *)

Section Snapshots.
Context {CW : CosmwasmStd} {CWS : CosmwasmStdSpec CW}.

Lemma strictly_positive_sval x : signed_ok x -> is_strictly_positive x = (0 <? sval x).
Proof.
  intros [[Hv _] Hneg]. unfold is_strictly_positive, is_negative, sval, signed_is_zero, ud_is_zero in *.
  destruct (negative x), (Z.eqb_spec (value x) 0); simpl; symmetry; (apply Z.ltb_lt || apply Z.ltb_ge); try lia.
Qed.
Lemma abs_unsigned_sval x : signed_ok x -> abs_unsigned x = Z.abs (sval x).
Proof. intros [[Hv _] _]. unfold abs_unsigned, sval. destruct (negative x); lia. Qed.

Lemma nonzero_checked_sub_err x y e : is_dec x -> 0 <= y -> nonzero_checked_sub x y = Err e -> x <= y.
Proof.
  intros Hx Hy E. destruct (Z.le_gt_cases x y) as [|Hlt]; [done|].
  by rewrite (proj2 (nonzero_checked_sub_ok x y (x - y) Hx Hy)) in E by (split; [done|lia]).
Qed.

Lemma extrapolate_ok p exposure r :
  position_ok p -> signed_ok exposure ->
  extrapolate p (is_strictly_positive exposure) (abs_unsigned exposure) = Ok r ->
  match r with
  | Some p' => exists active counter, p' = set_collaterals p active counter /\
      active = active_collateral p + sval exposure /\ counter = counter_collateral p - sval exposure /\
      0 < active <= U256_MAX /\ 0 < counter
  | None => if 0 <? sval exposure then counter_collateral p <= sval exposure
            else active_collateral p <= - sval exposure
  end.
Proof.
  intros [Ha Hc _] Hok. unfold extrapolate. rewrite strictly_positive_sval, abs_unsigned_sval by done.
  assert (is_dec (active_collateral p) /\ is_dec (counter_collateral p)) as [Hda Hdc] by (unfold is_dec; lia).
  destruct (Z.ltb_spec 0 (sval exposure)) as [Hpos|Hpos].
  - destruct (nonzero_checked_sub _ _) as [counter|e] eqn:E; intros H.
    + apply nonzero_checked_sub_ok in E as [-> E]; [|done|lia].
      apply rbind_ok in H as (active & H & [= <-]). rewrite nonzero_checked_add_total in H by lia.
      case_match; [|done]. injection H as <-. eexists _, _. split; [done|]. lia.
    + injection H as <-. apply nonzero_checked_sub_err in E; [lia|done|lia].
  - destruct (nonzero_checked_sub _ _) as [active|e] eqn:E; intros H.
    + apply nonzero_checked_sub_ok in E as [-> E]; [|done|lia].
      apply rbind_ok in H as (counter & H & [= <-]).
      destruct (Z.eq_dec (sval exposure) 0) as [H0|H0].
      * unfold nonzero_checked_add in H. apply rbind_ok in H as (c & H & Hn).
        apply ud_add_ok in H as [-> _]. apply of_option_ok, nonzero_new_Some in Hn as [-> ?].
        eexists _, _. split; [done|]. lia.
      * rewrite nonzero_checked_add_total in H by lia. case_match; [|done]. injection H as <-.
        eexists _, _. split; [done|]. lia.
    + injection H as <-. apply nonzero_checked_sub_err in E; [lia|done|lia].
Qed.

Lemma into_query_response_collaterals p active counter end_ entry mt dnf q :
  0 < active <= U256_MAX -> 0 < counter ->
  into_query_response (set_collaterals p active counter) end_ entry mt dnf = Ok q ->
  pq_active_collateral q = active /\ pq_counter_collateral q = counter /\ 
  0 < pq_active_collateral q /\ 0 < pq_counter_collateral q /\
  (signed_ok (scu_collateral (deposit_collateral p)) ->
   sval (pq_pnl_collateral q) = pq_active_collateral q - sval (scu_collateral (deposit_collateral p))).
Proof.
  intros Ha Hc H. unfold into_query_response in H.
  do 2 apply rbind_ok in H as (? & _ & H). case_match.
  do 2 apply rbind_ok in H as (? & _ & H).
  apply rbind_ok in H as (pnl & Hpnl & H). do 8 apply rbind_ok in H as (? & _ & H).
  injection H as <-. simpl. split_and!; [done|done|lia|lia|]. intros Hd.
  unfold pnl_in_collateral in Hpnl. apply signed_checked_sub_ok in Hpnl as [-> _]; [|apply into_signed_ok; split; simpl; lia|done].
  by rewrite sval_into_signed.
Qed.

Lemma pending_close_ok p is_profit exposure end_ entry mt c :
  pending_close p is_profit exposure end_ entry mt = Ok c ->
  cp_reason c = CloseLiquidated (if is_profit then LiqMaxGains else LiqLiquidated) /\
  cp_active_collateral c = if is_profit then active_collateral p + exposure else 0.
Proof.
  unfold pending_close. intros H. apply rbind_ok in H as (? & _ & H). apply rbind_ok in H as (a & Ha & H).
  do 3 apply rbind_ok in H as (? & _ & H). injection H as <-. simpl. split; [done|].
  destruct is_profit; [by apply ud_add_ok in Ha as [-> _]|by injection Ha].
Qed.

(** Prices a query can see. *)
Definition prices_typed (cache : option PricePoint) (m : MarketCtx) : Prop :=
  (forall t p, PRICES m !! t = Some p -> is_dec (ps_price p)) /\
  (forall p, cache = Some p -> is_dec (price_notional p)).

Context (st : State).

Lemma spot_price_at_typed m t p :
  (forall t p, PRICES m !! t = Some p -> is_dec (ps_price p)) ->
  spot_price_at st m t = Ok p -> is_dec (price_notional p).
Proof.
  intros Hp. unfold spot_price_at, spot_price_inner_opt. intros H%of_option_ok.
  apply bind_Some in H as ([k v] & H & [= <-]). apply last_entry_Some in H as (H & _). simpl. eauto.
Qed.

(** C32: What a position query shows, without pending fees.  An open position
    is shown with both collaterals moved by the price exposure since its last
    liquifunding, their sum unchanged and both positive, and with the profit
    of closing it there.  A position that is due is reported as pending: with
    nothing left when the loss exceeds the trader's collateral, and, when the
    gain reaches the counter collateral, with the whole gain, which is at least
    everything locked for the position and in general more than it will be
    paid. *)
Theorem snapshot_settles_exposure (cache : option PricePoint) (m : MarketCtx) (pos : Position)
    (r : PositionOrPendingClose) :
  position_ok pos -> prices_typed cache m ->
  pos_snapshot_for_open st cache m pos NoFees = Ok r ->
  exists start spot, spot_price_at st m (liquifunded_at pos) = Ok start /\
    cached_spot_price st cache m = Ok spot /\
    let exposure := Z.quot ((price_notional spot - price_notional start) * sval (notional_size pos)) DEC_ONE in
    match r with
    | SnapOpen q =>
        pq_active_collateral q = active_collateral pos + exposure /\
        pq_counter_collateral q = counter_collateral pos - exposure /\
        0 < pq_active_collateral q /\ 0 < pq_counter_collateral q /\
        (signed_ok (scu_collateral (deposit_collateral pos)) ->
         sval (pq_pnl_collateral q) = pq_active_collateral q - sval (scu_collateral (deposit_collateral pos)))
    | SnapPendingClose c =>
        (cp_reason c = CloseLiquidated LiqMaxGains /\ counter_collateral pos <= exposure /\
         cp_active_collateral c = active_collateral pos + exposure /\
         active_collateral pos + counter_collateral pos <= cp_active_collateral c) \/
        (cp_reason c = CloseLiquidated LiqLiquidated /\ exposure <= - active_collateral pos /\
         cp_active_collateral c = 0)
    end.
Proof.
  intros Hpos [Hpr Hca] H. unfold pos_snapshot_for_open in H.
  apply rbind_ok in H as (entry & _ & H). apply rbind_ok in H as (spot & Hspot & H).
  apply rbind_ok in H as (dnf & _ & H). apply rbind_ok in H as (pos' & [= <-] & H).
  apply rbind_ok in H as (start & Hstart & H). exists start, spot. split; [done|]. split; [done|].
  assert (is_dec (price_notional spot)) as Hspd.
  { unfold cached_spot_price in Hspot. destruct cache as [c|]; [injection Hspot as <-; eauto|].
    by apply spot_price_at_typed in Hspot. }
  pose proof (spot_price_at_typed _ _ _ Hpr Hstart) as Hstd.
  unfold into_query_response_extrapolate_exposure in H.
  apply rbind_ok in H as (e & He & H). apply get_price_exposure_ok in He as [Hok Hv]; [|done..].
  rewrite <- Hv. simpl. apply rbind_ok in H as (open & Hopen & H).
  apply extrapolate_ok in Hopen; [|done|done]. destruct open as [p'|].
  - destruct Hopen as (active & counter & -> & -> & -> & Hactive & Hcounter).
    apply rbind_ok in H as (q & Hq & [= <-]). by apply into_query_response_collaterals in Hq.
  - rewrite strictly_positive_sval, abs_unsigned_sval in H by done.
    apply rbind_ok in H as (c & Hc & [= <-]). apply pending_close_ok in Hc as [Hr Hact].
    rewrite Hr. destruct (Z.ltb_spec 0 (sval e)).
    + left. rewrite Hact, Z.abs_eq by lia. split_and!; try done; lia.
    + right. split_and!; try done; lia.
Qed.
End Snapshots.

(** * Concrete queries *)

Definition sample_order (id : OrderId) : LimitOrder :=
  mkLimitOrder id "alice" (7 * DEC_ONE) DEC_ONE (2 * DEC_ONE) LongToNotional None None
    (Some TakeProfitPosInfinity) 0 0.
(** Alice has three open limit orders. *)
Definition sample_orders : MarketCtx :=
  set_m_orders (mkOrderStore (Some 3) {[ 1 := sample_order 1; 2 := sample_order 2; 3 := sample_order 3 ]} ∅ ∅
    {[ ("alice"%string, 1) := tt; ("alice"%string, 2) := tt; ("alice"%string, 3) := tt ]} ∅) sample_market.
Definition sample_page (start : option OrderId) (order : OrderInMessage) :=
  limit_order_load_by_addr (CW:=cosmwasm_ref) (sample_state 1000) sample_orders "alice" start (Some 2) (Some order).

Lemma limit_orders_pages_witness :
  (exists l, sample_page None OrderDescending = Ok (l, Some 2)) /\
  Forall (fun id => 2 < id) (owner_order_ids sample_orders "alice" (Some 2) OrderDescending).
Proof.
  assert (exists l, sample_page None OrderDescending = Ok (l, Some 2)) as [l E] by (vm_compute; eauto).
  split; [by exists l|].
  destruct (limit_orders_pages (CW:=cosmwasm_ref) (sample_state 1000) sample_orders "alice" None (Some 2)
    (Some 2) (Some OrderDescending) l ltac:(done) E) as (_ & _ & rest & _ & _ & _ & H). exact H.
Defined.

(** The spot price rises from 7 to 10. *)
Definition sample_risen : MarketCtx :=
  set_PRICES {[ 0 := sample_price; 1000 := mkPriceStorage (10 * DEC_ONE) DEC_ONE (10 * DEC_ONE) None None None ]} sample_market.
Definition sample_snapshot := pos_snapshot_for_open (CW:=cosmwasm_ref) (sample_state 2000) None sample_risen sample_position NoFees.

Lemma sample_prices_typed : prices_typed None sample_risen.
Proof.
  split; [|by intros p]. intros t p Hp. unfold sample_risen in Hp. simpl in Hp.
  apply lookup_insert_Some in Hp as [[_ <-]|[_ Hp]]; [by vm_compute|].
  apply lookup_singleton_Some in Hp as [_ <-]. by vm_compute.
Qed.

Lemma snapshot_settles_exposure_witness :
  exists c, sample_snapshot = Ok (SnapPendingClose c) /\
    active_collateral sample_position + counter_collateral sample_position <= cp_active_collateral c.
Proof.
  assert (exists c, sample_snapshot = Ok (SnapPendingClose c) /\ cp_reason c = CloseLiquidated LiqMaxGains)
    as (c & E & Hr) by (vm_compute; eauto).
  exists c. split; [exact E|].
  destruct (snapshot_settles_exposure (CW:=cosmwasm_ref) (CWS:=cosmwasm_ref_spec) (sample_state 2000) None
    sample_risen sample_position (SnapPendingClose c) sample_position_ok sample_prices_typed E)
    as (start & spot & _ & _ & [(_ & _ & _ & H)|(Hl & _)]); [exact H|congruence].
Defined.
