(* ===== verification/Countertrade.v ===== *)
(** * The countertrade contract

    [contracts/countertrade/src] with the messages of
    [packages/perpswap/src/contracts/countertrade.rs]: liquidity providers
    pool collateral for shares, and the contract trades on the unpopular side
    of one market to keep its funding rate in a range.  What the market, the
    bank and the token contract answer is the record [CtQuerier]; for the
    market these are the queries of Queries.v.  The events of a response
    render the values of the message and are left out, as is [migrate]. *)

From stdpp Require Import base option gmap strings list.
From Stdlib Require Import ZArith Lia.
From S2P Require Import Prelude Storage Cosmwasm Types Number Market Price Token Config Position Trading State PositionStore PositionToken Entry Factory Queries.
Local Open Scope Z_scope.

(** ** Messages and data *)

Record CtConfig := mkCtConfig {
  cc_admin : Addr;
  cc_pending_admin : option Addr;
  cc_market : Addr;
  cc_min_funding : Decimal256;
  cc_target_funding : Decimal256;
  cc_max_funding : Decimal256;
  cc_iterations : Z;
  cc_take_profit_factor : Decimal256;
  cc_stop_loss_factor : Decimal256;
  cc_max_leverage : LeverageToBase;
}.
Definition set_cc_admin (admin : Addr) (pending : option Addr) (c : CtConfig) : CtConfig :=
  mkCtConfig admin pending (cc_market c) (cc_min_funding c) (cc_target_funding c) (cc_max_funding c)
    (cc_iterations c) (cc_take_profit_factor c) (cc_stop_loss_factor c) (cc_max_leverage c).

Record CtConfigUpdate := mkCtConfigUpdate {
  cu_min_funding : option Decimal256;
  cu_target_funding : option Decimal256;
  cu_max_funding : option Decimal256;
  cu_max_leverage : option LeverageToBase;
  cu_iterations : option Z;
  cu_take_profit_factor : option Decimal256;
  cu_stop_loss_factor : option Decimal256;
}.

Inductive CtExecute :=
| CtReceive (sender : RawAddr) (amount : Z) (msg : Binary)
| CtDeposit
| CtWithdraw (amount : LpToken)
| CtDoWork
| CtAppointAdmin (admin : RawAddr)
| CtAcceptAdmin
| CtUpdateConfig (update : CtConfigUpdate).

Inductive WorkDescription :=
| WdOpenPosition (direction : DirectionToBase) (leverage : LeverageToBase) (collateral : Collateral)
    (take_profit : TakeProfitTrader) (stop_loss_override : option PriceBaseInQuote)
| WdClosePosition (pos_id : PositionId)
| WdResetShares
| WdClearDeferredExec (id : DeferredExecId)
| WdAddCollateralImpactSize (pos_id : PositionId) (amount : Collateral)
| WdRemoveCollateralImpactSize (pos_id : PositionId) (amount crank_fee : Collateral).

Definition is_close_position (w : WorkDescription) : bool :=
  match w with WdClosePosition _ => true | _ => false end.
Definition is_collect_closed_position (w : WorkDescription) : bool := false.
Definition is_update_position (w : WorkDescription) : bool :=
  match w with WdAddCollateralImpactSize _ _ | WdRemoveCollateralImpactSize _ _ _ => true | _ => false end.
Definition is_open_position (w : WorkDescription) : bool :=
  match w with WdOpenPosition _ _ _ _ _ => true | _ => false end.
Definition is_handle_deferred_exec (w : WorkDescription) : bool :=
  match w with WdClearDeferredExec _ => true | _ => false end.

Inductive HasWorkResp :=
| NoWork
| Work (desc : WorkDescription).
Definition work_resp (desc : option WorkDescription) : HasWorkResp :=
  match desc with Some desc => Work desc | None => NoWork end.

(** Native coins or a CW20 contract, as a message brings them. *)
Inductive CtToken := CtNative (denom : string) | CtCw20 (addr : Addr).

Record Totals := mkTotals {
  ct_shares : LpToken;
  ct_last_closed : option ClosedPositionCursor;
  ct_deferred_exec : option DeferredExecId;
}.
Definition totals_default : Totals := mkTotals 0 None None.
Definition set_ct_shares (v : LpToken) (t : Totals) : Totals := mkTotals v (ct_last_closed t) (ct_deferred_exec t).
Definition set_ct_deferred_exec (v : option DeferredExecId) (t : Totals) : Totals :=
  mkTotals (ct_shares t) (ct_last_closed t) v.

Inductive PositionsInfo :=
| TooManyPositions (to_close : PositionId)
| NoPositions
| OnePosition (pos : PositionQueryResponse).

Record MarketInfo := mkMarketInfo { mi_id : MarketId; mi_addr : Addr; mi_token : Token }.

Record CtStore := mkCtStore {
  CT_CONFIG : CtConfig;
  SHARES : gmap Addr LpToken;
  TOTALS : option Totals;
  MARKET_INFO : option MarketInfo;
  REPLY_MARKET : option MarketId;
}.
Definition set_CT_CONFIG (v : CtConfig) (s : CtStore) : CtStore :=
  mkCtStore v (SHARES s) (TOTALS s) (MARKET_INFO s) (REPLY_MARKET s).
Definition set_SHARES (v : gmap Addr LpToken) (s : CtStore) : CtStore :=
  mkCtStore (CT_CONFIG s) v (TOTALS s) (MARKET_INFO s) (REPLY_MARKET s).
Definition set_TOTALS (v : option Totals) (s : CtStore) : CtStore :=
  mkCtStore (CT_CONFIG s) (SHARES s) v (MARKET_INFO s) (REPLY_MARKET s).
Definition set_MARKET_INFO (v : option MarketInfo) (s : CtStore) : CtStore :=
  mkCtStore (CT_CONFIG s) (SHARES s) (TOTALS s) v (REPLY_MARKET s).
Definition set_REPLY_MARKET (v : option MarketId) (s : CtStore) : CtStore :=
  mkCtStore (CT_CONFIG s) (SHARES s) (TOTALS s) (MARKET_INFO s) v.

(** What the contract sends: a market message whose success comes back as
    reply 0, and a payment. *)
Inductive CtMsg := CtMarketMsg (msg : WasmExecute ExecuteMsg) | CtPay (msg : CosmosMsg).

(** The answers to its queries, by the address asked. *)
Record CtQuerier := mkCtQuerier {
  cq_my_addr : Addr;
  cq_status : Addr -> res StatusResp;
  (** the tokens of an owner, as ids *)
  cq_tokens : Addr -> Addr -> res (list PositionId);
  (** [Positions] with accumulated fees: the open ones *)
  cq_positions : Addr -> PositionId -> res (list PositionQueryResponse);
  cq_deferred : Addr -> DeferredExecId -> res GetDeferredExecResp;
  cq_spot_price : Addr -> res PricePoint;
  cq_bank : string -> res Z;
  cq_cw20 : string -> res Z;
}.

Definition ct_handler (A : Type) : Type := handler CtStore error A.

Section Definitions.
Context {CW : CosmwasmStd}.
(** [from_json] at [ExecuteMsg]. *)
Context (ct_from_json : Binary -> res CtExecute).
Context (q : CtQuerier).

(** [Config::check]. *)
Definition ct_config_check (c : CtConfig) : res unit :=
  if cc_target_funding c <=? cc_min_funding c then
    Err (AnyhowError "Minimum funding must be strictly less than target")
  else if cc_max_funding c <=? cc_target_funding c then
    Err (AnyhowError "Target funding must be strictly less than max")
  else if cc_max_leverage c <? 2 * DEC_ONE then Err (AnyhowError "Max leverage must be at least 2")
  else Ok tt.

(** ** common.rs *)

Definition load_market_info_inner (s : CtStore) : res (MarketInfo * bool) :=
  match MARKET_INFO s with
  | Some info => Ok (info, true)
  | None =>
      let addr := cc_market (CT_CONFIG s) in
      status <- cq_status q addr;
      Ok (mkMarketInfo (status_market_id status) addr (status_collateral status), false)
  end.
Definition load_market_info (s : CtStore) : res MarketInfo := x <- load_market_info_inner s; Ok x.1.
Definition load_cache_market_info : ct_handler MarketInfo :=
  '(market, is_cached) <~ hask load_market_info_inner;
  (if is_cached then hret tt else hmod (set_MARKET_INFO (Some market)));;;
  hret market.

Definition contract_balance (s : CtStore) : res Collateral :=
  market_info <- load_market_info s;
  query_balance (mi_token market_info) (cq_bank q) (cq_cw20 q).

Definition positions_active_collateral (p : PositionsInfo) : res Collateral :=
  match p with
  | TooManyPositions _ =>
      Err (AnyhowError "Invalid state detected, multiple positions open. Perform work to close those.")
  | NoPositions => Ok 0
  | OnePosition pos => Ok (pq_active_collateral pos)
  end.

Definition shares_to_collateral (t : Totals) (contract_balance : Collateral) (shares : LpToken)
    (pos : PositionsInfo) : res Collateral :=
  active <- positions_active_collateral pos;
  total_collateral <- ud_checked_add contract_balance active;
  one_share_value <- std (dec_div total_collateral (ct_shares t));
  std (dec_mul shares one_share_value).

(** The new shares and the totals with them. *)
Definition add_collateral (t : Totals) (contract_balance funds : Collateral) (pos : PositionsInfo) :
    res (LpToken * Totals) :=
  active <- positions_active_collateral pos;
  collateral <- ud_checked_add contract_balance active;
  collateral <- ud_checked_sub collateral funds;
  new_shares <-
    (if (ud_is_zero collateral && ud_is_zero (ct_shares t)) || ud_is_zero contract_balance
     then panics "Impossible: NonZero to NonZero produced a 0" (nonzero_new funds)
     else if ud_is_zero collateral || ud_is_zero (ct_shares t)
     then Err (AnyhowError "Invalid collateral/shares totals")
     else
       fund_units <- std (dec_div funds collateral);
       new_shares <- std (dec_mul fund_units (ct_shares t));
       of_option (AnyhowError "new_shares ended up 0") (nonzero_new new_shares));
  shares <- ud_checked_add (ct_shares t) new_shares;
  Ok (new_shares, set_ct_shares shares t).

Definition remove_collateral (t : Totals) (contract_balance : Collateral) (amount : LpToken)
    (pos : PositionsInfo) : res (Collateral * Totals) :=
  collateral <- shares_to_collateral t contract_balance amount pos;
  _ <- ensure (collateral <=? contract_balance) (AnyhowError "Insufficient collateral for withdrawal");
  _ <- ensure (amount <=? ct_shares t) (AnyhowError "Insufficient shares for withdrawal");
  shares <- ud_checked_sub (ct_shares t) amount;
  Ok (collateral, set_ct_shares shares t).

(** [PositionsInfo::load]. *)
Definition positions_info_load (market : MarketInfo) : res PositionsInfo :=
  tokens <- cq_tokens q (mi_addr market) (cq_my_addr q);
  match tokens with
  | [] => Ok NoPositions
  | pos_id :: rest =>
      if negb (is_empty rest) then Ok (TooManyPositions pos_id)
      else
        positions <- cq_positions q (mi_addr market) pos_id;
        match last positions with
        | Some pos => Ok (OnePosition pos)
        | None => Err (AnyhowError "Our open position is in an unhealthy state, waiting for cranks")
        end
  end.

(** ** work.rs: the target *)

(** ["0.00001"]. *)
Definition SEARCH_EPSILON : Decimal256 := 10000000000000.

Section Search.
Context (config : Config).

(** The closures of [derive_popular_funding_rate_annual]. *)
Definition ct_rf_popular (effective_sensitivity : Decimal256) (net : Signed)
    (open_long open_short : Notional) : res Decimal256 :=
  total <- ud_checked_add open_long open_short;
  ratio <- std (dec_div (abs_unsigned net) total);
  r <- std (dec_mul effective_sensitivity ratio);
  Ok (Z.min r (funding_rate_max_annualized config)).
Definition ct_rf_unpopular (effective_sensitivity : Decimal256) (net : Signed)
    (open_long open_short : Notional) : res Decimal256 :=
  match Z.compare open_long open_short with
  | Gt =>
      r <- ct_rf_popular effective_sensitivity net open_long open_short;
      x <- std (dec_div open_long open_short);
      std (dec_mul r x)
  | Lt =>
      r <- ct_rf_popular effective_sensitivity net open_long open_short;
      x <- std (dec_div open_short open_long);
      std (dec_mul r x)
  | Eq => Ok 0
  end.

Definition derive_popular_funding_rate_annual (popular_notional unpopular_notional : Notional) :
    res Decimal256 :=
  let rf_per_annual_cap := funding_rate_max_annualized config in
  net <- signed_checked_sub (into_signed popular_notional) (into_signed unpopular_notional);
  let open_short := unpopular_notional in
  let open_long := popular_notional in
  total_interest <- ud_checked_add open_long open_short;
  notional_high_cap <-
    std (dec_mul (delta_neutrality_fee_sensitivity config) (delta_neutrality_fee_cap config));
  p <- std (dec_mul rf_per_annual_cap total_interest);
  from_delta_neutrality <- std (dec_div p notional_high_cap);
  let effective := Z.max (funding_rate_sensitivity config) from_delta_neutrality in
  let one_sided := ud_is_zero open_long || ud_is_zero open_short in
  '(popular, unpopular) <-
    (if one_sided then Ok (NUMBER_ZERO, NUMBER_ZERO)
     else
       match Z.compare open_long open_short with
       | Gt =>
           popular <- ct_rf_popular effective net open_long open_short;
           unpopular <- ct_rf_unpopular effective net open_long open_short;
           Ok (into_signed popular, signed_neg (into_signed unpopular))
       | Lt =>
           unpopular <- ct_rf_unpopular effective net open_long open_short;
           popular <- ct_rf_popular effective net open_long open_short;
           Ok (signed_neg (into_signed unpopular), into_signed popular)
       | Eq => Ok (NUMBER_ZERO, NUMBER_ZERO)
       end);
  _ <- (if one_sided then
          _ <- assert (signed_is_zero unpopular); assert (signed_is_zero popular)
        else
          _ <- assert (is_negative unpopular); assert (is_strictly_positive popular));
  Ok (abs_unsigned popular).

(** The notional of the unpopular side at a ratio of the market. *)
Definition unpopular_at (target_ratio : Decimal256) (popular_notional : Notional) : res Notional :=
  p <- std (dec_mul target_ratio popular_notional);
  rest <- std (dec_sub DEC_ONE target_ratio);
  std (dec_div p rest).

(** The loop of [smart_search].  [fuel] is how often the [u8] counter can
    still be increased: it is out when the increment overflows. *)
Fixpoint search_loop (popular_notional unpopular_notional : Notional) (target_funding : Number)
    (allowed_iterations : Z) (fuel : nat) (iteration : Z) (high_ratio low_ratio : Decimal256) :
    res Notional :=
  match fuel with
  | O => Err (Panic "attempt to add with overflow")
  | S fuel =>
      let iteration := iteration + 1 in
      sum <- std (dec_add high_ratio low_ratio);
      target_ratio <- std (dec_div sum (2 * DEC_ONE));
      desired_unpopular <- unpopular_at target_ratio popular_notional;
      _ <- assert (desired_unpopular <=? popular_notional);
      new_funding_rate <- derive_popular_funding_rate_annual popular_notional desired_unpopular;
      difference <- signed_checked_sub (into_signed new_funding_rate) target_funding;
      if desired_unpopular <? unpopular_notional then Ok 0
      else if abs_unsigned difference <? SEARCH_EPSILON then
        ud_checked_sub desired_unpopular unpopular_notional
      else if allowed_iterations <=? iteration then
        Err (AnyhowError "Iteration limit reached without converging")
      else if signed_gtb (into_signed new_funding_rate) target_funding then
        search_loop popular_notional unpopular_notional target_funding allowed_iterations fuel
          iteration high_ratio target_ratio
      else
        search_loop popular_notional unpopular_notional target_funding allowed_iterations fuel
          iteration target_ratio low_ratio
  end.

Definition smart_search (long_notional short_notional : Notional) (target_funding : Number)
    (allowed_iterations iteration : Z) : res Notional :=
  let '(popular_notional, unpopular_notional) :=
    if short_notional <? long_notional then (long_notional, short_notional)
    else (short_notional, long_notional) in
  if (unpopular_notional =? 0) && (popular_notional =? 0) then Ok 0
  else
    total <- std (dec_add popular_notional unpopular_notional);
    low_ratio <- std (dec_div unpopular_notional total);
    search_loop popular_notional unpopular_notional target_funding allowed_iterations
      (Z.to_nat (255 - iteration)) iteration (DEC_ONE / 2) low_ratio.

Definition determine_target_notional (market_type : MarketType) (long_interest short_interest : Notional)
    (target_funding : Number) (allowed_iterations : Z)
    (countertrade_position : option PositionQueryResponse) : res (option Signed) :=
  '(long_interest, short_interest) <-
    match countertrade_position with
    | Some pos =>
        let size := abs_unsigned (pq_notional_size pos) in
        let '(pos_long, pos_short) :=
          match direction_into_notional (pq_direction_to_base pos) market_type with
          | LongToNotional => (size, 0)
          | ShortToNotional => (0, size)
          end in
        long_interest <- ud_checked_sub long_interest pos_long;
        short_interest <- ud_checked_sub short_interest pos_short;
        Ok (long_interest, short_interest)
    | None => Ok (long_interest, short_interest)
    end;
  desired_notional <- smart_search long_interest short_interest target_funding allowed_iterations 0;
  Ok (Some (if long_interest <? short_interest then into_signed desired_notional
            else signed_neg (into_signed desired_notional))).
End Search.

(** ** work.rs: how to reach it *)

Definition estimate_crank_fee_from_status (status : StatusResp) (price : PricePoint) : res Collateral :=
  let config := status_config status in
  half <- panics "from_ratio" (dec_from_ratio 5 10);
  fees <- checked_mul_dec (crank_fee_surcharge config) half;
  fees <- ud_checked_add fees (crank_fee_charged config);
  usd_to_collateral price fees.
Definition estimate_crank_fee (market : MarketInfo) (price : PricePoint) : res Collateral :=
  status <- cq_status q (mi_addr market); estimate_crank_fee_from_status status price.

Inductive Capital :=
| CapNew (deposit_collateral : Collateral) (leverage : SignedLeverageToNotional)
| CapAddCollateral (collateral : Collateral) (pos_id : PositionId)
| CapRemoveCollateral (collateral : Collateral) (pos_id : PositionId) (crank_fee : Collateral)
| CapClose (pos_id : PositionId).

(** What to take out of the open position. *)
Definition reduce_capital (pos : PositionQueryResponse) (collateral min_deposit_collateral : Collateral)
    (market_info : MarketInfo) (price : PricePoint) : res (option Capital) :=
  estimated_crank_fee <- estimate_crank_fee market_info price;
  final_active <- signed_checked_sub (into_signed (pq_active_collateral pos)) (into_signed collateral);
  max_deduct <-
    (if signed_leb (into_signed min_deposit_collateral) final_active then Ok collateral
     else
       result <- signed_checked_sub (scu_collateral (pq_deposit_collateral pos))
                   (into_signed min_deposit_collateral);
       Ok (abs_unsigned result));
  Ok (if max_deduct <? estimated_crank_fee then None
      else if pq_active_collateral pos <=? max_deduct then Some (CapClose (pq_id pos))
      else Some (CapRemoveCollateral max_deduct (pq_id pos) estimated_crank_fee)).

Definition optimize_capital_efficiency (available_collateral : Collateral)
    (position_notional_size_in_collateral : Signed) (desired_leverage : SignedLeverageToNotional)
    (countertrade_position : option PositionQueryResponse) (market_type : MarketType)
    (min_deposit_collateral : Collateral) (market_info : MarketInfo) (price : PricePoint) :
    res (option Capital) :=
  match countertrade_position with
  | Some pos =>
      leverage <- leverage_into_notional (leverage_into_signed (pq_leverage pos) (pq_direction_to_base pos))
                    market_type;
      deposit <- number_checked_div (into_number position_notional_size_in_collateral) (into_number leverage);
      let deposit_collateral := abs_unsigned deposit in
      diff <- signed_checked_sub (into_signed deposit_collateral) (scu_collateral (pq_deposit_collateral pos));
      if is_strictly_positive diff then
        Ok (Some (CapAddCollateral (Z.min (abs_unsigned diff) available_collateral) (pq_id pos)))
      else if signed_is_zero diff then Ok None
      else reduce_capital pos (abs_unsigned diff) min_deposit_collateral market_info price
  | None =>
      deposit <- number_checked_div (into_number position_notional_size_in_collateral)
                   (into_number desired_leverage);
      _ <- assert (is_strictly_positive deposit);
      Ok (Some (CapNew (Z.min (abs_unsigned deposit) available_collateral) desired_leverage))
  end.

(** The entry price moved by a percentage, up or down. *)
Definition price_moved (factor : Decimal256) (entry_price : Price) (up : bool) : res Price :=
  m <- number_checked_mul (into_signed factor) (into_signed entry_price);
  diff <- number_checked_div m (into_signed (100 * DEC_ONE));
  moved <- (if up then signed_checked_add (into_signed entry_price) diff
            else signed_checked_sub (into_signed entry_price) diff);
  price_try_from_number moved.

Definition work_for_capital (status : StatusResp) (price : PricePoint)
    (available_collateral min_deposit_collateral : Collateral) (take_profit : TakeProfitTrader)
    (stop_loss_override : option PriceBaseInQuote) (capital : Capital) : res (option WorkDescription) :=
  match capital with
  | CapNew deposit_collateral leverage =>
      deposit <- of_option (AnyhowError "deposit_collateral is zero") (nonzero_new deposit_collateral);
      let deposit := Z.min deposit available_collateral in
      if deposit <? min_deposit_collateral then Ok None
      else
        l <- leverage_into_base leverage (status_market_type status);
        let '(direction, leverage) := leverage_split l in
        Ok (Some (WdOpenPosition direction leverage deposit take_profit stop_loss_override))
  | CapAddCollateral collateral pos_id =>
      fee <- estimate_crank_fee_from_status status price;
      five <- panics "from_ratio" (dec_from_ratio 5 1);
      crank_fee_collateral <- checked_mul_dec fee five;
      if collateral <=? crank_fee_collateral then Ok None
      else
        amount <- of_option (AnyhowError "add_collateral is zero") (nonzero_new collateral);
        Ok (Some (WdAddCollateralImpactSize pos_id amount))
  | CapRemoveCollateral collateral pos_id crank_fee =>
      amount <- of_option (AnyhowError "remove_collateral is zero") (nonzero_new collateral);
      Ok (Some (WdRemoveCollateralImpactSize pos_id amount crank_fee))
  | CapClose pos_id => Ok (Some (WdClosePosition pos_id))
  end.

Definition compute_delta_notional (c : CtConfig) (position_notional_size : Signed) (price : PricePoint)
    (status : StatusResp) (available_collateral : Collateral)
    (countertrade_position : option PositionQueryResponse) (market_info : MarketInfo) :
    res (option WorkDescription) :=
  let mt := status_market_type status in
  let up := is_strictly_positive position_notional_size in
  let entry_price := price_notional price in
  take_profit <- price_moved (cc_take_profit_factor c) entry_price up;
  take_profit <- into_base_price take_profit mt;
  stop_loss <- price_moved (cc_stop_loss_factor c) entry_price (negb up);
  stop_loss <- into_base_price stop_loss mt;
  m <- of_option (AnyhowError "Market max_leverage is negative")
         (try_into_non_negative_value (max_leverage (status_config status)));
  market_max_leverage <- of_option (AnyhowError "Market max_leverage is zero") (nonzero_new m);
  let desired_leverage := Z.min (cc_max_leverage c) market_max_leverage in
  let notional_direction := if up then LongToNotional else ShortToNotional in
  let base_direction := direction_into_base notional_direction mt in
  desired_leverage <- leverage_into_notional (leverage_into_signed desired_leverage base_direction) mt;
  size_in_collateral <- try_map (notional_to_collateral price) position_notional_size;
  min_deposit_collateral <- usd_to_collateral price (minimum_deposit_usd (status_config status));
  capital <- optimize_capital_efficiency available_collateral size_in_collateral desired_leverage
               countertrade_position mt min_deposit_collateral market_info price;
  match capital with
  | Some capital =>
      work_for_capital status price available_collateral min_deposit_collateral
        (TakeProfitFinite take_profit) (Some stop_loss) capital
  | None => Ok None
  end.

(** Both at once, as every branch of the decision does. *)
Definition rebalance (c : CtConfig) (status : StatusResp) (price : PricePoint)
    (long_interest short_interest : Notional) (available_collateral : Collateral)
    (pos : option PositionQueryResponse) (market_info : MarketInfo) : res (option WorkDescription) :=
  result <- determine_target_notional (status_config status) (status_market_type status) long_interest
              short_interest (into_signed (cc_target_funding c)) (cc_iterations c) pos;
  match result with
  | Some position_notional_size =>
      compute_delta_notional c position_notional_size price status available_collateral pos market_info
  | None => Ok None
  end.

(** ** work.rs: the decision *)

(** Internal long and short, from the ones by direction to base. *)
Definition flip {A} (market_type : MarketType) (long short : A) : A * A :=
  match market_type with CollateralIsQuote => (long, short) | CollateralIsBase => (short, long) end.

(** Whether the market is one-sided, or nothing is to be done. *)
Definition one_sided_market (status : StatusResp) : res (option bool) :=
  if signed_is_zero (status_long_funding status) || signed_is_zero (status_short_funding status) then
    _ <- assert (signed_is_zero (status_long_funding status));
    _ <- assert (signed_is_zero (status_short_funding status));
    match ud_is_zero (status_long_notional status), ud_is_zero (status_short_notional status) with
    | true, true => Ok None
    | false, false =>
        _ <- assert (status_long_notional status =? status_short_notional status); Ok None
    | _, _ => Ok (Some true)
    end
  else Ok (Some false).

Definition desired_action (c : CtConfig) (status : StatusResp) (price : PricePoint)
    (pos : option PositionQueryResponse) (available_collateral : Collateral) (market_info : MarketInfo) :
    res (option WorkDescription) :=
  one_sided <- one_sided_market status;
  match one_sided with
  | None => Ok None
  | Some one_sided =>
      let mt := status_market_type status in
      let '(long_funding, short_funding) := flip mt (status_long_funding status) (status_short_funding status) in
      let '(long_interest, short_interest) :=
        flip mt (status_long_notional status) (status_short_notional status) in
      let min_funding := into_signed (cc_min_funding c) in
      let max_funding := into_signed (cc_max_funding c) in
      '(popular_funding, unpopular_interest) <-
        (if is_strictly_positive long_funding then
           _ <- assert (is_negative short_funding || one_sided); Ok (long_funding, short_interest)
         else
           _ <- assert (is_negative long_funding || one_sided); Ok (short_funding, long_interest));
      let act pos :=
        rebalance c status price long_interest short_interest available_collateral pos market_info in
      if signed_leb min_funding popular_funding && signed_leb popular_funding max_funding then
        _ <- assert (signed_is_zero popular_funding || negb one_sided); Ok None
      else if signed_ltb popular_funding min_funding then
        match pos with
        | Some pos =>
            Ok (if abs_unsigned (pq_notional_size pos) =? unpopular_interest then None
                else Some (WdClosePosition (pq_id pos)))
        | None => if one_sided then act None else Ok None
        end
      else
        match pos with
        | Some p =>
            d <- signed_checked_sub (into_signed (pq_active_collateral p)) (into_signed available_collateral);
            delta <- number_checked_div (signed_abs d) (into_signed available_collateral);
            if signed_ltb delta (into_signed (DEC_ONE / 2)) then Ok None else act (Some p)
        | None => act None
        end
  end.

(** The branch for a position on the popular side, which must go or shrink. *)
Definition popular_side_work (c : CtConfig) (status : StatusResp) (price : PricePoint)
    (pos : PositionQueryResponse) (available_collateral minimum_position_collateral : Collateral)
    (market : MarketInfo) : res HasWorkResp :=
  notional_diff <- match pq_direction_to_base pos with
                   | LongToBase => ud_checked_sub (status_long_notional status) (status_short_notional status)
                   | ShortToBase => ud_checked_sub (status_short_notional status) (status_long_notional status)
                   end;
  if (abs_unsigned (pq_notional_size pos) <? notional_diff)
     || signed_leb (scu_collateral (pq_deposit_collateral pos)) (into_signed minimum_position_collateral)
  then Ok (Work (WdClosePosition (pq_id pos)))
  else
    let '(long_interest, short_interest) :=
      flip (status_market_type status) (status_long_notional status) (status_short_notional status) in
    desc <- rebalance c status price long_interest short_interest available_collateral (Some pos) market;
    Ok (work_resp desc).

Definition deferred_exec_work (market : MarketInfo) (id : DeferredExecId) : res HasWorkResp :=
  resp <- cq_deferred q (mi_addr market) id;
  match resp with
  | DeferredFound item =>
      match de_status item with
      | DeferPending => Ok NoWork
      | DeferSuccess _ _ | DeferFailure _ _ _ => Ok (Work (WdClearDeferredExec id))
      end
  | DeferredNotFound => Err (AnyhowError "cannot find expected deferred exec item")
  end.

(** With the queries of the market's price and status. *)
Definition trading_work (s : CtStore) (market : MarketInfo) (balance : Collateral)
    (pos : option PositionQueryResponse) : res HasWorkResp :=
  let c := CT_CONFIG s in
  price <- cq_spot_price q (mi_addr market);
  status <- cq_status q (mi_addr market);
  available_collateral <- of_option (AnyhowError "Impossible, zero collateral") (nonzero_new balance);
  minimum <- usd_to_collateral price (minimum_deposit_usd (status_config status));
  let popular_side :=
    match pos with
    | Some pos =>
        is_positive_or_zero (match pq_direction_to_base pos with
                             | LongToBase => status_long_funding status
                             | ShortToBase => status_short_funding status
                             end)
    | None => false
    end in
  match pos, popular_side with
  | Some pos, true => popular_side_work c status price pos available_collateral minimum market
  | _, _ =>
      usd <- collateral_to_usd price balance;
      if usd <? minimum_deposit_usd (status_config status) then Ok NoWork
      else
        desc <- desired_action c status price pos available_collateral market;
        Ok (work_resp desc)
  end.

Definition get_work_for (s : CtStore) (market : MarketInfo) (totals : Totals) : res HasWorkResp :=
  if ud_is_zero (ct_shares totals) then Ok NoWork
  else
    match ct_deferred_exec totals with
    | Some id => deferred_exec_work market id
    | None =>
        pos <- positions_info_load market;
        match pos with
        | TooManyPositions to_close => Ok (Work (WdClosePosition to_close))
        | NoPositions =>
            balance <- contract_balance s;
            if ud_is_zero balance then Ok (Work WdResetShares) else trading_work s market balance None
        | OnePosition pos =>
            balance <- contract_balance s;
            if ud_is_zero balance then Ok NoWork else trading_work s market balance (Some pos)
        end
    end.

(** ** Doing it *)

Definition get_totals : ct_handler Totals := hget (fun s => default totals_default (TOTALS s)).
Definition save_totals (t : Totals) : ct_handler unit := hmod (set_TOTALS (Some t)).

(** The market message goes out with its reply. *)
Definition add_market_msg (market : MarketInfo) (msg : WasmExecute ExecuteMsg) : ct_handler (list CtMsg) :=
  reply_market <~ hget REPLY_MARKET;
  hlift (assert (negb (is_some reply_market)));;;
  hmod (set_REPLY_MARKET (Some (mi_id market)));;;
  hret [CtMarketMsg msg].

Definition no_deferred_exec (totals : Totals) : ct_handler unit :=
  hlift (assert (negb (is_some (ct_deferred_exec totals)))).

Definition perform_work (market : MarketInfo) (totals : Totals) (desc : WorkDescription) :
    ct_handler (list CtMsg) :=
  let send amount msg :=
    msg <~ hlift (into_execute_msg (mi_token market) (mi_addr market) amount msg);
    add_market_msg market msg in
  match desc with
  | WdOpenPosition direction leverage collateral take_profit stop_loss_override =>
      no_deferred_exec totals;;;
      send collateral (OpenPositionMsg None leverage direction stop_loss_override take_profit)
  | WdClosePosition pos_id =>
      no_deferred_exec totals;;;
      add_market_msg market (ExecDirect (mi_addr market) (ClosePositionMsg pos_id None) [])
  | WdResetShares =>
      hmod (set_SHARES ∅);;;
      save_totals (set_ct_shares 0 totals);;;
      hret []
  | WdClearDeferredExec id =>
      hlift (assert (bool_decide (ct_deferred_exec totals = Some id)));;;
      save_totals (set_ct_deferred_exec None totals);;;
      hret []
  | WdAddCollateralImpactSize pos_id amount =>
      no_deferred_exec totals;;;
      send amount (UpdatePositionAddCollateralImpactSize pos_id None)
  | WdRemoveCollateralImpactSize pos_id amount crank_fee =>
      no_deferred_exec totals;;;
      amount <~ hlift (round_down_to_precision (mi_token market) amount);
      amount <~ hlift (of_option (AnyhowError "Remove amount is zero") (nonzero_new amount));
      send crank_fee (UpdatePositionRemoveCollateralImpactSize pos_id amount None)
  end.

(** [work::execute]. *)
Definition do_work (market : MarketInfo) : ct_handler (list CtMsg) :=
  totals <~ get_totals;
  work <~ hask (fun s => get_work_for s market totals);
  match work with
  | NoWork => herr (AnyhowError "No work items available")
  | Work desc => perform_work market totals desc
  end.

(** ** execute.rs *)

(** [Funds]: what the message brought. *)
Inductive CtFunds :=
| CtNoFunds
| CtWithFunds (token : CtToken) (amount : Z).

Definition funds_require_none (funds : CtFunds) : res unit :=
  match funds with
  | CtNoFunds => Ok tt
  | CtWithFunds _ _ => Err (AnyhowError "Unnecessary funds sent")
  end.

(** [Token::ensure_matches]. *)
Definition ensure_matches (t : CtToken) (token : Token) : res unit :=
  match t, token with
  | CtNative _, TokenCw20 _ _ => Err (AnyhowError "Provided native funds, but market requires a CW20")
  | CtNative denom1, TokenNative denom2 _ =>
      ensure (String.eqb denom1 denom2) (AnyhowError "Wrong denom provided")
  | CtCw20 addr1, TokenCw20 addr2 _ => ensure (String.eqb addr1 addr2) (AnyhowError "Wrong CW20 used")
  | CtCw20 _, TokenNative _ _ => Err (AnyhowError "Provided CW20 funds, but market requires native funds")
  end.
Definition funds_require_some (funds : CtFunds) (market : MarketInfo) : res Collateral :=
  match funds with
  | CtNoFunds => Err (AnyhowError "Message requires attached funds, but none were provided")
  | CtWithFunds token amount =>
      _ <- ensure_matches token (mi_token market);
      collateral <- token_from_u128 (mi_token market) amount;
      of_option (AnyhowError "Impossible 0 collateral provided") (nonzero_new collateral)
  end.

Definition handle_funds (info : MessageInfo) (msg : CtExecute) : res (CtFunds * CtExecute * Addr) :=
  match msg with
  | CtReceive sender amount msg =>
      if is_empty (info_funds info) then
        msg <- ct_from_json msg;
        sender <- std (addr_validate sender);
        Ok (CtWithFunds (CtCw20 (info_sender info)) amount, msg, sender)
      else Err (AnyhowError "Cannot attach funds when performing a CW20 receive")
  | _ =>
      match info_funds info with
      | [] => Ok (CtNoFunds, msg, info_sender info)
      | [(denom, amount)] => Ok (CtWithFunds (CtNative denom) amount, msg, info_sender info)
      | _ => Err (AnyhowError "Multiple funds provided, messages only support one fund denom")
      end
  end.

Definition shares_of (sender : Addr) : ct_handler LpToken := hget (fun s => default 0 (SHARES s !! sender)).

(** Nothing moves while a deferred execution is awaited. *)
Definition ensure_settled (totals : Totals) : ct_handler unit :=
  hensure (negb (is_some (ct_deferred_exec totals))) (AnyhowError "Undergoing Deferred execution, try again later.").

Definition ct_deposit (sender : Addr) (funds : Collateral) (market : MarketInfo) : ct_handler (list CtMsg) :=
  sender_shares <~ shares_of sender;
  totals <~ get_totals;
  ensure_settled totals;;;
  balance <~ hask contract_balance;
  position_info <~ hlift (positions_info_load market);
  '(new_shares, totals) <~ hlift (add_collateral totals balance funds position_info);
  sender_shares <~ hlift (nonzero_checked_add new_shares sender_shares);
  hmod (fun s => set_SHARES (<[sender := sender_shares]> (SHARES s)) s);;;
  save_totals totals;;;
  hret [].

Definition ct_withdraw (sender : Addr) (market : MarketInfo) (amount : LpToken) : ct_handler (list CtMsg) :=
  totals <~ get_totals;
  ensure_settled totals;;;
  sender_shares <~ shares_of sender;
  hensure (amount <=? sender_shares) (AnyhowError "Insufficient shares");;;
  position_info <~ hlift (positions_info_load market);
  balance <~ hask contract_balance;
  '(collateral, totals) <~ hlift (remove_collateral totals balance amount position_info);
  sender_shares <~ hlift (ud_checked_sub sender_shares amount);
  hmod (fun s => set_SHARES (match nonzero_new sender_shares with
                             | None => delete sender (SHARES s)
                             | Some sender_shares => <[sender := sender_shares]> (SHARES s)
                             end) s);;;
  save_totals totals;;;
  collateral <~ hlift (of_option (AnyhowError "Action would result in 0 collateral transferred")
                         (nonzero_new collateral));
  msg <~ hlift (into_transfer_msg (mi_token market) sender collateral);
  msg <~ hlift (of_option (AnyhowError "Collateral amount would be less than the chain's minimum representation") msg);
  hret [CtPay msg].

Definition ct_is_admin (sender : Addr) (text : string) : ct_handler unit :=
  c <~ hget CT_CONFIG; hensure (String.eqb (cc_admin c) sender) (AnyhowError text).

Definition appoint_admin (sender new_admin : Addr) : ct_handler (list CtMsg) :=
  ct_is_admin sender "You are not the admin, you cannot appoint a new admin";;;
  hmod (fun s => set_CT_CONFIG (set_cc_admin (cc_admin (CT_CONFIG s)) (Some new_admin) (CT_CONFIG s)) s);;;
  hret [].
Definition accept_admin (sender : Addr) : ct_handler (list CtMsg) :=
  c <~ hget CT_CONFIG;
  hensure (bool_decide (cc_pending_admin c = Some sender))
    (AnyhowError "Cannot accept admin, you're not currently the pending admin");;;
  hmod (fun s => set_CT_CONFIG (set_cc_admin sender None (CT_CONFIG s)) s);;;
  hret [].

Definition updated_config (c : CtConfig) (u : CtConfigUpdate) : CtConfig :=
  mkCtConfig (cc_admin c) (cc_pending_admin c) (cc_market c)
    (default (cc_min_funding c) (cu_min_funding u)) (default (cc_target_funding c) (cu_target_funding u))
    (default (cc_max_funding c) (cu_max_funding u)) (default (cc_iterations c) (cu_iterations u))
    (default (cc_take_profit_factor c) (cu_take_profit_factor u))
    (default (cc_stop_loss_factor c) (cu_stop_loss_factor u))
    (default (cc_max_leverage c) (cu_max_leverage u)).
Definition ct_update_config (sender : Addr) (u : CtConfigUpdate) : ct_handler (list CtMsg) :=
  ct_is_admin sender "You are not the admin, you cannot update the config";;;
  c <~ hget CT_CONFIG;
  hlift (ct_config_check (updated_config c u));;;
  hmod (set_CT_CONFIG (updated_config c u));;;
  hret [].

Definition ct_execute (info : MessageInfo) (msg : CtExecute) : ct_handler (list CtMsg) :=
  '(funds, msg, sender) <~ hlift (handle_funds info msg);
  match msg with
  | CtReceive _ _ _ => herr (AnyhowError "Cannot perform a receive within a receive")
  | CtDeposit =>
      market <~ load_cache_market_info;
      funds <~ hlift (funds_require_some funds market);
      ct_deposit sender funds market
  | CtWithdraw amount =>
      hlift (funds_require_none funds);;;
      market <~ load_cache_market_info;
      ct_withdraw sender market amount
  | CtDoWork =>
      hlift (funds_require_none funds);;;
      market <~ load_cache_market_info;
      do_work market
  | CtAppointAdmin admin =>
      hlift (funds_require_none funds);;;
      admin <~ hlift (std (addr_validate admin));
      appoint_admin sender admin
  | CtAcceptAdmin => hlift (funds_require_none funds);;; accept_admin sender
  | CtUpdateConfig update => hlift (funds_require_none funds);;; ct_update_config sender update
  end.

(** ** reply.rs *)

Definition deferred_exec_id_of (events : list RawEvent) : res DeferredExecId :=
  e <- of_option (AnyhowError "No wasm-deferred-exec-queued event found")
         (find (fun e => String.eqb (ev_ty e) "wasm-deferred-exec-queued") events);
  a <- of_option (AnyhowError "No deferred-exec-id found in wasm-deferred-exec-queued event")
         (find (fun a => String.eqb a.1 "deferred-exec-id") (ev_attributes e));
  std (parse_u64 a.2).

Definition ct_reply (id : Z) (result : ReplyResult) : ct_handler unit :=
  hensure (id =? 0) (AnyhowError "Only reply ID 0 is supported");;;
  market <~ hget REPLY_MARKET;
  hensure (is_some market) (AnyhowError "In reply function with no REPLY_MARKET set");;;
  hmod (set_REPLY_MARKET None);;;
  deferred_exec_id <~ hlift (match result with
                             | ReplyOk events => deferred_exec_id_of events
                             | ReplyErr e => Err (AnyhowError e)
                             end);
  totals <~ hask (fun s => of_option (AnyhowError "Totals missing in reply") (TOTALS s));
  hensure (negb (is_some (ct_deferred_exec totals)))
    (AnyhowError "Cannot handle reply with deferred exec ID, still waiting");;;
  save_totals (set_ct_deferred_exec (Some deferred_exec_id) totals).

(** ** query.rs *)

Record MarketBalance := mkMarketBalance {
  mb_market : MarketId; mb_token : Token; mb_shares : LpToken; mb_collateral : Collateral;
  mb_pool_size : LpToken }.
Definition ct_balance (s : CtStore) (address : RawAddr) : res MarketBalance :=
  address <- std (addr_validate address);
  let shares := default 0 (SHARES s !! address) in
  market_info <- load_market_info s;
  let totals := default totals_default (TOTALS s) in
  collateral <-
    (if ud_is_zero (ct_shares totals) then Ok 0
     else
       balance <- contract_balance s;
       pos <- positions_info_load market_info;
       shares_to_collateral totals balance shares pos);
  Ok (mkMarketBalance (mi_id market_info) (mi_token market_info) shares collateral (ct_shares totals)).

Record MarketStatus := mkMarketStatus {
  ms_id : MarketId; ms_collateral : Collateral; ms_shares : LpToken;
  ms_position : option PositionQueryResponse; ms_too_many_positions : bool }.
Definition ct_markets (s : CtStore) : res MarketStatus :=
  let totals := default totals_default (TOTALS s) in
  market_info <- load_market_info s;
  pos <- positions_info_load market_info;
  let '(pos, too_many_positions) :=
    match pos with
    | TooManyPositions _ => (None, true)
    | NoPositions => (None, false)
    | OnePosition pos => (Some pos, false)
    end in
  balance <- contract_balance s;
  Ok (mkMarketStatus (mi_id market_info) balance (ct_shares totals) pos too_many_positions).

Definition has_work (s : CtStore) : res HasWorkResp :=
  market <- load_market_info s; get_work_for s market (default totals_default (TOTALS s)).

(** ** lib.rs: instantiate *)

Definition ct_instantiate (market admin : RawAddr) (u : CtConfigUpdate) : res CtStore :=
  admin <- std (addr_validate admin);
  market <- std (addr_validate market);
  let config := mkCtConfig admin None market
    (default (DEC_ONE / 10) (cu_min_funding u)) (default (2 * DEC_ONE / 5) (cu_target_funding u))
    (default (3 * DEC_ONE / 5) (cu_max_funding u)) (default 50 (cu_iterations u))
    (default (3 * DEC_ONE / 2) (cu_take_profit_factor u)) (default DEC_ONE (cu_stop_loss_factor u))
    (default (10 * DEC_ONE) (cu_max_leverage u)) in
  _ <- ct_config_check config;
  Ok (mkCtStore config ∅ None None None).
End Definitions.
