(* ===== verification/CountertradeInv.v ===== *)
(** * What the countertrade contract guarantees

    Transactions are messages with the reply they ask for.  In every reachable
    state the shares add up and nothing is in flight; an awaited deferred
    execution blocks everything but its own settlement; deposits and
    withdrawals never cost the other providers; the search for a position
    ends and predicts the rate the market will charge.  Two theorems show
    states the contract cannot leave. *)

From stdpp Require Import base option gmap strings list.
From Stdlib Require Import ZArith Lia.
From S2P Require Import Prelude Storage Cosmwasm Types Number Time Market Price Token Config Position Trading State Pool LpHistory Liquidity Fees Funding PositionStore PositionToken Entry LiquiditySystem FundingInv Factory Queries QueriesInv Countertrade.
Local Open Scope Z_scope.

Definition ct_total_shares (s : CtStore) : LpToken := ct_shares (default totals_default (TOTALS s)).
Definition ct_awaited (s : CtStore) : option DeferredExecId :=
  ct_deferred_exec (default totals_default (TOTALS s)).

(** The books: nothing in flight between transactions, and positive shares
    that add up to the total. *)
Record ct_books (s : CtStore) : Prop := {
  ctb_total : ct_total_shares s = map_sum id (SHARES s);
  ctb_positive : forall a n, SHARES s !! a = Some n -> 0 < n;
  ctb_config : is_ok (ct_config_check (CT_CONFIG s)) = true;
}.

Definition is_market_msg (m : CtMsg) : bool := match m with CtMarketMsg _ => true | CtPay _ => false end.

Section Theory.
Context {CW : CosmwasmStd} {CWS : CosmwasmStdSpec CW}.
Context (ct_from_json : Binary -> res CtExecute).

(** A transaction: the message, then the reply to its market message, with
    the events the market emitted. *)
Definition ct_transaction (q : CtQuerier) (info : MessageInfo) (msg : CtExecute) (events : list RawEvent) :
    ct_handler (list CtMsg) :=
  msgs <~ ct_execute ct_from_json q info msg;
  (if existsb is_market_msg msgs then ct_reply 0 (ReplyOk events) else hret tt);;;
  hret msgs.

Inductive ct_reachable : CtStore -> Prop :=
| ct_reach_instantiate market admin u s : ct_instantiate market admin u = Ok s -> ct_reachable s
| ct_reach_step q info msg events s msgs s' :
    ct_reachable s -> ct_transaction q info msg events s = Ok (msgs, s') -> ct_reachable s'.

(** ** The parts of the state a handler touches *)

Definition ct_part (s : CtStore) := (SHARES s, TOTALS s, CT_CONFIG s).

Lemma ct_books_part s s' : ct_part s' = ct_part s -> ct_books s -> ct_books s'.
Proof.
  unfold ct_part. intros [= E1 E2 E3] [H1 H2 H3]. split; unfold ct_total_shares in *; by rewrite ?E1, ?E2, ?E3.
Qed.

Lemma load_cache_part q s m s' :
  load_cache_market_info q s = Ok (m, s') -> ct_part s' = ct_part s /\ REPLY_MARKET s' = REPLY_MARKET s.
Proof.
  intros H. unfold load_cache_market_info in H. apply hbind_ok in H as ([m' b] & s1 & H1 & H).
  apply hask_ok in H1 as [_ ->]. step_in H u s2 H2. apply hret_ok in H as [_ ->].
  destruct b; [by apply hret_ok in H2 as [_ ->]|apply hmod_ok in H2; by subst].
Qed.

Lemma nonzero_new_ok e v w : of_option (E:=error) e (nonzero_new v) = Ok w -> w = v /\ v <> 0.
Proof. intros H%of_option_ok. by apply nonzero_new_Some. Qed.
Lemma nonzero_add_pos x y z : nonzero_checked_add x y = Ok z -> z = x + y /\ 0 < z.
Proof.
  intros H. unfold nonzero_checked_add in H. apply rbind_ok in H as (v & [-> Hd]%ud_add_ok & H).
  apply panics_ok, nonzero_new_Some in H as [-> H]. unfold is_dec in Hd. lia.
Qed.

Lemma add_collateral_total t b f pos n t' :
  add_collateral t b f pos = Ok (n, t') ->
  ct_shares t' = ct_shares t + n /\ ct_deferred_exec t' = ct_deferred_exec t.
Proof.
  intros H. unfold add_collateral in H. apply rbind_ok in H as (a & _ & H). apply rbind_ok in H as (c & _ & H).
  apply rbind_ok in H as (c' & _ & H). apply rbind_ok in H as (n' & _ & H).
  apply rbind_ok in H as (t1 & [-> _]%ud_add_ok & [= -> <-]). done.
Qed.

(** What a deposit and a withdrawal do. *)
Lemma ct_deposit_ok q sender funds market s msgs s' :
  ct_deposit q sender funds market s = Ok (msgs, s') ->
  exists b pos n t, ct_awaited s = None /\ contract_balance q s = Ok b /\ positions_info_load q market = Ok pos /\
    add_collateral (default totals_default (TOTALS s)) b funds pos = Ok (n, t) /\ msgs = [] /\
    0 < n + default 0 (SHARES s !! sender) /\
    s' = set_TOTALS (Some t) (set_SHARES (<[sender := n + default 0 (SHARES s !! sender)]> (SHARES s)) s).
Proof.
  intros H. unfold ct_deposit, shares_of, get_totals, ensure_settled, save_totals in H.
  step_in H mine s1 H1. get_in H1. step_in H t s2 H2. get_in H2. step_in H u s3 H3.
  apply hensure_ok in H3 as [Hd ->]. lift_in H b Hb. lift_in H pos Hpos.
  apply hbind_ok in H as ([n t] & s4 & H4 & H). apply hlift_ok in H4 as [H4 ->].
  lift_in H mine1 Hsum. apply nonzero_add_pos in Hsum as [-> Hsum].
  step_in H v s5 H5. apply hmod_ok in H5. step_in H w s6 H6. apply hmod_ok in H6.
  apply hret_ok in H as [-> ->]. subst s6 s5. exists b, pos, n, t. split_and!; try done.
  unfold ct_awaited. by destruct (ct_deferred_exec _).
Qed.

Lemma ct_withdraw_ok q sender market amount s msgs s' :
  ct_withdraw q sender market amount s = Ok (msgs, s') ->
  exists b pos paid t m, ct_awaited s = None /\ contract_balance q s = Ok b /\ positions_info_load q market = Ok pos /\
    remove_collateral (default totals_default (TOTALS s)) b amount pos = Ok (paid, t) /\ paid <> 0 /\
    into_transfer_msg (mi_token market) sender paid = Ok (Some m) /\ msgs = [CtPay m] /\
    is_dec (default 0 (SHARES s !! sender) - amount) /\
    s' = set_TOTALS (Some t)
           (set_SHARES (match nonzero_new (default 0 (SHARES s !! sender) - amount) with
                        | None => delete sender (SHARES s)
                        | Some n => <[sender := n]> (SHARES s)
                        end) s).
Proof.
  intros H. unfold ct_withdraw, shares_of, get_totals, ensure_settled, save_totals in H.
  step_in H t s1 H1. get_in H1. step_in H u s2 H2. apply hensure_ok in H2 as [Hd ->].
  step_in H mine s3 H3. get_in H3. step_in H v s4 H4. apply hensure_ok in H4 as [_ ->].
  lift_in H pos Hpos. lift_in H b Hb.
  apply hbind_ok in H as ([c t] & s5 & H5 & H). apply hlift_ok in H5 as [H5 ->].
  lift_in H left_shares Hrest. apply ud_sub_ok in Hrest as [-> Hrest]. step_in H w s6 H6. apply hmod_ok in H6.
  step_in H w1 s7 H7. apply hmod_ok in H7. lift_in H paid Hc'. apply nonzero_new_ok in Hc' as [-> Hnz].
  lift_in H m Hm. lift_in H m' Hm'. apply of_option_ok in Hm' as ->.
  apply hret_ok in H as [-> ->]. subst s7 s6. exists b, pos, c, t, m'. split_and!; try done.
  unfold ct_awaited. by destruct (ct_deferred_exec _).
Qed.

Lemma remove_collateral_ok t b amount pos paid t' :
  remove_collateral t b amount pos = Ok (paid, t') ->
  shares_to_collateral t b amount pos = Ok paid /\ paid <= b /\ ct_shares t' = ct_shares t - amount.
Proof.
  intros H. unfold remove_collateral in H. apply rbind_ok in H as (c & Hc & H).
  apply rbind_ok in H as (u1 & Hle%ensure_ok & H). apply rbind_ok in H as (u2 & _ & H).
  apply rbind_ok in H as (sh & [-> _]%ud_sub_ok & [= -> <-]). bool_prop. done.
Qed.

Lemma deposit_books q sender funds market s msgs s' :
  ct_books s -> ct_deposit q sender funds market s = Ok (msgs, s') ->
  ct_awaited s = None /\ msgs = [] /\ REPLY_MARKET s' = REPLY_MARKET s /\ ct_books s'.
Proof.
  intros [Ht Hp Hc] (b & pos & n & t & Ha & _ & _ & [Hn _]%add_collateral_total & -> & Hpos & ->)%ct_deposit_ok.
  split_and!; [done..|]. split; [|intros a m|done]; unfold ct_total_shares in *; simpl.
  - rewrite Hn, Ht, map_sum_insert. unfold map_get. destruct (SHARES s !! sender); simpl; unfold id; lia.
  - rewrite lookup_insert_Some. intros [[_ <-]|[_ H]]; [done|by eapply Hp].
Qed.

Lemma withdraw_books q sender market amount s msgs s' :
  ct_books s -> ct_withdraw q sender market amount s = Ok (msgs, s') ->
  ct_awaited s = None /\ existsb is_market_msg msgs = false /\ REPLY_MARKET s' = REPLY_MARKET s /\ ct_books s'.
Proof.
  intros [Ht Hp Hc] (b & pos & paid & t & m & Ha & _ & _ & (_ & _ & Hn)%remove_collateral_ok & _ & _ & -> & Hd & ->)%ct_withdraw_ok.
  split_and!; [done..|]. unfold is_dec in Hd. split; [|intros a n|done]; unfold ct_total_shares in *; simpl.
  - rewrite Hn, Ht. destruct (nonzero_new _) as [r|] eqn:E.
    + apply nonzero_new_Some in E as [-> _]. rewrite map_sum_insert. unfold map_get.
      destruct (SHARES s !! sender); simpl; unfold id; lia.
    + apply nonzero_new_None in E. rewrite map_sum_remove. unfold map_get.
      destruct (SHARES s !! sender); simpl in *; unfold id; lia.
  - destruct (nonzero_new _) as [r|] eqn:E.
    + apply nonzero_new_Some in E as [-> E]. rewrite lookup_insert_Some. intros [[_ <-]|[_ H]]; [lia|by eapply Hp].
    + rewrite lookup_delete_Some. intros [_ H]. by eapply Hp.
Qed.

Lemma reply_effect events s u s' :
  ct_reply 0 (ReplyOk events) s = Ok (u, s') ->
  exists id t, TOTALS s = Some t /\ ct_deferred_exec t = None /\
    s' = set_TOTALS (Some (set_ct_deferred_exec (Some id) t)) (set_REPLY_MARKET None s).
Proof.
  intros H. unfold ct_reply, save_totals in H. step_in H v s1 H1. apply hensure_ok in H1 as [_ ->].
  step_in H m s2 H2. get_in H2. step_in H v1 s3 H3. apply hensure_ok in H3 as [_ ->].
  step_in H v2 s4 H4. apply hmod_ok in H4. lift_in H did Hid. lift_in H t Ht. apply of_option_ok in Ht.
  step_in H v3 s5 H5. apply hensure_ok in H5 as [Hn ->]. apply hmod_ok in H. subst.
  exists did, t. split_and!; [done| |done]. by destruct (ct_deferred_exec t).
Qed.

(** What work does. *)
Inductive ct_worked (q : CtQuerier) (market : MarketInfo) (s : CtStore) : list CtMsg -> CtStore -> Prop :=
| worked_message m :
    ct_awaited s = None -> ct_worked q market s [CtMarketMsg m] (set_REPLY_MARKET (Some (mi_id market)) s)
| worked_reset :
    ct_awaited s = None ->
    ct_worked q market s []
      (set_TOTALS (Some (set_ct_shares 0 (default totals_default (TOTALS s)))) (set_SHARES ∅ s))
| worked_clear id item :
    ct_awaited s = Some id -> cq_deferred q (mi_addr market) id = Ok (DeferredFound item) ->
    is_pending (de_status item) = false ->
    ct_worked q market s [] (set_TOTALS (Some (set_ct_deferred_exec None (default totals_default (TOTALS s)))) s).

Lemma assert_ok b u : assert b = Ok u -> b = true.
Proof. unfold assert. by destruct b. Qed.
Lemma bind_message (s : CtStore) (h : ct_handler (WasmExecute ExecuteMsg)) market msgs s' :
  preserves (eq s) h -> (msg <~ h; add_market_msg market msg) s = Ok (msgs, s') ->
  exists m, msgs = [CtMarketMsg m] /\ s' = set_REPLY_MARKET (Some (mi_id market)) s.
Proof.
  intros Hh H. apply hbind_ok in H as (m & s1 & H1 & H). pose proof (Hh _ _ _ eq_refl H1) as <-.
  unfold add_market_msg in H. step_in H r s2 H2. get_in H2. lift_in H u Hu. step_in H v s3 H3.
  apply hmod_ok in H3. apply hret_ok in H as [-> ->]. subst. by exists m.
Qed.

Lemma deferred_work_ok q market id w :
  deferred_exec_work q market id = Ok (Work w) ->
  w = WdClearDeferredExec id /\
  exists item, cq_deferred q (mi_addr market) id = Ok (DeferredFound item) /\ is_pending (de_status item) = false.
Proof.
  intros H. unfold deferred_exec_work in H. apply rbind_ok in H as (r & Hr & H).
  destruct r as [item|]; [|done]. destruct (de_status item) eqn:E; simplify_eq;
    (split; [done|]; exists item; by rewrite E).
Qed.

Lemma perform_message market totals desc s msgs s' :
  perform_work market totals desc s = Ok (msgs, s') -> ct_deferred_exec totals = None -> desc <> WdResetShares ->
  exists m, msgs = [CtMarketMsg m] /\ s' = set_REPLY_MARKET (Some (mi_id market)) s.
Proof.
  intros H Hn Hd. unfold perform_work in H.
  destruct desc; try done; apply hbind_ok in H as (u & s1 & H1 & H);
    try (apply hlift_ok in H1 as [H1 ->]).
  all: try (unfold no_deferred_exec in H1; apply hlift_ok in H1 as [_ ->]).
  - eapply bind_message, H. frame.
  - unfold add_market_msg in H. step_in H r s2 H2. get_in H2. lift_in H u1 Hu. step_in H v s3 H3.
    apply hmod_ok in H3. apply hret_ok in H as [-> ->]. subst. by eexists.
  - apply assert_ok in H1. rewrite Hn in H1. by apply bool_decide_eq_true_1 in H1.
  - eapply bind_message, H. frame.
  - lift_in H am Ham. lift_in H am1 Ham1. eapply bind_message, H. frame.
Qed.

Lemma do_work_ok q market s msgs s' :
  do_work q market s = Ok (msgs, s') -> ct_worked q market s msgs s'.
Proof.
  intros H. unfold do_work, get_totals in H. step_in H t s1 H1. get_in H1.
  apply hbind_ok in H as (w & s2 & Hw & H). apply hask_ok in Hw as [Hw ->].
  set (t := default totals_default (TOTALS s)) in *. destruct w as [|desc]; [done|].
  unfold get_work_for in Hw. destruct (ud_is_zero (ct_shares t)); [done|].
  destruct (ct_deferred_exec t) as [id|] eqn:Ed.
  - apply deferred_work_ok in Hw as (-> & item & Hi & Hp). simpl in H. step_in H u s3 H3.
    apply hlift_ok in H3 as [_ ->]. unfold save_totals in H. step_in H v s4 H4. apply hmod_ok in H4.
    apply hret_ok in H as [-> ->]. subst. by eapply worked_clear.
  - assert (desc = WdResetShares \/ desc <> WdResetShares) as [->|Hd] by (destruct desc; auto).
    + simpl in H. step_in H u s3 H3. apply hmod_ok in H3. unfold save_totals in H. step_in H v s4 H4.
      apply hmod_ok in H4. apply hret_ok in H as [-> ->]. subst. by apply worked_reset.
    + apply perform_message in H as (m & -> & ->); [|done..]. by apply worked_message.
Qed.

(** What a message may do while an execution is awaited, or to the books. *)
Definition ct_settles (q : CtQuerier) (s : CtStore) (msgs : list CtMsg) (s' : CtStore) : Prop :=
  match ct_awaited s with
  | None => True
  | Some id =>
      msgs = [] /\ SHARES s' = SHARES s /\ ct_total_shares s' = ct_total_shares s /\
      (ct_awaited s' = Some id \/
       ct_awaited s' = None /\
       exists market item, load_market_info q s = Ok market /\
         cq_deferred q (mi_addr market) id = Ok (DeferredFound item) /\ is_pending (de_status item) = false)
  end.

Lemma quiet_settles q s s' :
  ct_part s' = ct_part s \/ (SHARES s' = SHARES s /\ TOTALS s' = TOTALS s) -> ct_settles q s [] s'.
Proof.
  intros Hp. assert (SHARES s' = SHARES s /\ TOTALS s' = TOTALS s) as [E1 E2].
  { destruct Hp as [[= ? ? ?]|?]; done. }
  unfold ct_settles, ct_awaited, ct_total_shares. rewrite E1, E2. destruct (ct_deferred_exec _); auto.
Qed.

(** The message itself: the books stay, and a reply is only awaited together
    with a market message. *)
Definition ct_kept (q : CtQuerier) (s : CtStore) (msgs : list CtMsg) (s' : CtStore) : Prop :=
  ct_books s' /\ (existsb is_market_msg msgs = false -> REPLY_MARKET s' = REPLY_MARKET s) /\
  (existsb is_market_msg msgs = true -> ct_awaited s' = None) /\ ct_settles q s msgs s'.

Lemma admin_kept q s c :
  ct_books s -> is_ok (ct_config_check c) = true -> ct_kept q s [] (set_CT_CONFIG c s).
Proof.
  intros [Ht Hp _] Hc. split_and!; [by split|done|done|]. apply quiet_settles. by right.
Qed.
Lemma check_admin a p c : ct_config_check (set_cc_admin a p c) = ct_config_check c.
Proof. reflexivity. Qed.

(** The cached market information changes nothing else. *)
Lemma cached_awaited s s' : ct_part s' = ct_part s -> ct_awaited s' = ct_awaited s /\ ct_total_shares s' = ct_total_shares s.
Proof. unfold ct_part, ct_awaited, ct_total_shares. by intros [= _ -> _]. Qed.
Lemma cached_kept q s s1 msgs s' :
  ct_part s1 = ct_part s -> REPLY_MARKET s1 = REPLY_MARKET s ->
  ct_kept q s1 msgs s' -> (ct_awaited s <> None -> load_market_info q s1 = load_market_info q s) -> ct_kept q s msgs s'.
Proof.
  intros Hp Hr (H1 & H2 & H3 & H4) Hl. split_and!; [done|by rewrite <- Hr|done|].
  unfold ct_settles in *. destruct (cached_awaited _ _ Hp) as [E1 E2]. rewrite E1, E2 in H4.
  destruct (ct_awaited s) as [d|]; [|done]. rewrite Hl in H4 by done. by injection Hp as <- _ _.
Qed.
Lemma load_cache_same q s m s' :
  load_cache_market_info q s = Ok (m, s') -> load_market_info q s' = Ok m /\ load_market_info q s = Ok m.
Proof.
  intros H. unfold load_cache_market_info in H. apply hbind_ok in H as ([m' b] & s1 & H1 & H).
  apply hask_ok in H1 as [H1 ->]. step_in H u s2 H2. apply hret_ok in H as [-> ->].
  unfold load_market_info. rewrite H1. simpl. split; [|done].
  destruct b; [apply hret_ok in H2 as [_ ->]; by rewrite H1|]. apply hmod_ok in H2. by subst.
Qed.

Lemma worked_kept q market s msgs s' :
  ct_books s -> load_market_info q s = Ok market -> ct_worked q market s msgs s' -> ct_kept q s msgs s'.
Proof.
  intros Hb Hm H. destruct H as [m Ha|Ha|d item Ha Hd Hp]; (split_and!; [|done|done|unfold ct_settles; rewrite Ha]).
  all: try done.
  - by apply (ct_books_part s).
  - destruct Hb as [_ _ Hc]. by split.
  - destruct Hb as [Ht Hpos Hc]. by split.
  - split_and!; [done..|]. right. split; [done|]. by exists market, item.
Qed.

Lemma execute_kept q info msg s msgs s' :
  ct_books s -> ct_execute ct_from_json q info msg s = Ok (msgs, s') -> ct_kept q s msgs s'.
Proof.
  intros Hb H. unfold ct_execute in H. apply hbind_ok in H as ([[funds m] sender] & s1 & H1 & H).
  apply hlift_ok in H1 as [_ ->].
  destruct m as [snd n b| |n| |adm| |u]; [by inv_ok|..].
  - step_in H mk s1 H1. pose proof (load_cache_part _ _ _ _ H1) as [Hp Hr]. lift_in H f Hf.
    apply deposit_books in H as (Ha & -> & Hr' & Hb'); [|by apply (ct_books_part s)].
    apply (cached_kept q s s1); [done..| |by destruct (cached_awaited _ _ Hp) as [<- _]].
    split_and!; [done..|]. unfold ct_settles. by rewrite Ha.
  - lift_in H u Hu. step_in H mk s1 H1. pose proof (load_cache_part _ _ _ _ H1) as [Hp Hr].
    apply withdraw_books in H as (Ha & Hm & Hr' & Hb'); [|by apply (ct_books_part s)].
    apply (cached_kept q s s1); [done..| |by destruct (cached_awaited _ _ Hp) as [<- _]].
    split_and!; [done|done|by rewrite Hm|]. unfold ct_settles. by rewrite Ha.
  - lift_in H u Hu. step_in H mk s1 H1. pose proof (load_cache_part _ _ _ _ H1) as [Hp Hr].
    apply load_cache_same in H1 as [Hl1 Hl2]. apply do_work_ok in H.
    apply (cached_kept q s s1); [done..| |by rewrite Hl1, Hl2].
    eapply worked_kept; [by apply (ct_books_part s)|done|done].
  - lift_in H u Hu. lift_in H a Ha. unfold appoint_admin, ct_is_admin in H. step_in H v s2 H2.
    apply hbind_ok in H2 as (c & s9 & H9 & H2). get_in H9. apply hensure_ok in H2 as [_ ->].
    step_in H w s3 H3. apply hmod_ok in H3. apply hret_ok in H as [-> ->]. subst.
    apply admin_kept; [done|]. rewrite check_admin. by destruct Hb.
  - lift_in H u Hu. unfold accept_admin in H. step_in H c s2 H2. get_in H2. step_in H v s3 H3.
    apply hensure_ok in H3 as [_ ->].
    step_in H w s3 H3. apply hmod_ok in H3. apply hret_ok in H as [-> ->]. subst.
    apply admin_kept; [done|]. rewrite check_admin. by destruct Hb.
  - lift_in H u1 Hu. unfold ct_update_config, ct_is_admin in H. step_in H v s2 H2.
    apply hbind_ok in H2 as (c & s9 & H9 & H2). get_in H9. apply hensure_ok in H2 as [_ ->].
    step_in H c s2 H2. get_in H2. lift_in H v1 Hv. step_in H w s3 H3. apply hmod_ok in H3.
    apply hret_ok in H as [-> ->]. subst. apply admin_kept; [done|by rewrite Hv].
Qed.

Lemma transaction_kept q info msg events s msgs s' :
  ct_books s -> REPLY_MARKET s = None -> ct_transaction q info msg events s = Ok (msgs, s') ->
  ct_books s' /\ REPLY_MARKET s' = None /\ ct_settles q s msgs s'.
Proof.
  intros Hb Hr H. unfold ct_transaction in H. step_in H m s1 H1.
  apply execute_kept in H1 as (Hb1 & Hq & Hn & Hs); [|done]. step_in H u s2 H2. apply hret_ok in H as [-> ->].
  destruct (existsb is_market_msg m) eqn:E.
  - apply reply_effect in H2 as (d & t & Ht & Hd & ->). specialize (Hn eq_refl).
    destruct Hb1 as [Hb1 Hb2 Hb3]. split_and!; [|done|].
    + split; [|done|done]. unfold ct_total_shares in *. simpl. by rewrite Ht in Hb1.
    + unfold ct_settles in *. destruct (ct_awaited s); [|done]. destruct Hs as (-> & _). done.
  - apply hret_ok in H2 as [_ ->]. rewrite Hq by done. by rewrite Hr.
Qed.

Lemma ct_reachable_kept s : ct_reachable s -> ct_books s /\ REPLY_MARKET s = None.
Proof.
  induction 1 as [market admin u s H|q info msg events s msgs s' _ [Hb Hr] H].
  - unfold ct_instantiate in H. apply rbind_ok in H as (a & _ & H). apply rbind_ok in H as (m & _ & H).
    apply rbind_ok in H as (v & Hv & [= <-]). split; [|done]. split; [done|done|]. simpl. by rewrite Hv.
  - apply transaction_kept in H as (? & ? & _); done.
Qed.

(** C19: The books of the pool in every reachable state: the total of the
    shares is the sum of what the providers hold, each holds a positive
    number, the configuration is a valid one, and no reply is outstanding
    between transactions.  While the contract awaits a deferred execution of
    the market, no transaction sends anything or changes a share; the wait
    ends only by work that found the execution finished. *)
Theorem ct_shares_consistent (s : CtStore) :
  ct_reachable s ->
  ct_total_shares s = map_sum id (SHARES s) /\ (forall a n, SHARES s !! a = Some n -> 0 < n) /\
  is_ok (ct_config_check (CT_CONFIG s)) = true /\ REPLY_MARKET s = None /\
  forall q info msg events msgs s',
    ct_transaction q info msg events s = Ok (msgs, s') -> ct_settles q s msgs s'.
Proof.
  intros [[Ht Hp Hc] Hr]%ct_reachable_kept. split_and!; try done.
  intros q info msg events msgs s' H. by apply transaction_kept in H as (_ & _ & H).
Qed.

(** ** The value of a share *)

Lemma add_collateral_fair t b f pos a n t' :
  0 <= ct_shares t -> 0 < f <= b -> 0 <= a -> positions_active_collateral pos = Ok a ->
  add_collateral t b f pos = Ok (n, t') ->
  ct_shares t' = ct_shares t + n /\ n * (b + a - f) <= f * ct_shares t + (if ct_shares t =? 0 then n * (b + a - f) else 0) /\
  (ct_shares t = 0 -> b + a = f).
Proof.
  intros Hs Hf Ha Hpa H. pose proof H as [Hn _]%add_collateral_total. split; [done|].
  unfold add_collateral in H. rewrite Hpa in H. simpl in H.
  apply rbind_ok in H as (c0 & [-> _]%ud_add_ok & H). apply rbind_ok in H as (c & [-> Hc]%ud_sub_ok & H).
  apply rbind_ok in H as (n' & Hn' & H). apply rbind_ok in H as (t1 & _ & [= -> _]). unfold is_dec in Hc.
  unfold ud_is_zero in Hn'. destruct (Z.eqb_spec b 0); [lia|]. rewrite orb_false_r in Hn'.
  destruct (Z.eqb_spec (b + a - f) 0) as [E|E], (Z.eqb_spec (ct_shares t) 0) as [E'|E']; simpl in Hn'; try done.
  - split; [nia|lia].
  - apply rbind_ok in Hn' as (u & (_ & -> & _)%std_div_ok & Hn').
    apply rbind_ok in Hn' as (x & [-> _]%std_mul_ok & Hn'). apply nonzero_new_ok in Hn' as [-> _].
    split; [|lia]. rewrite Z.add_0_r. set (c := b + a - f) in *. pose proof DEC_ONE_pos.
    pose proof (Z.mul_div_le (f * DEC_ONE / c * ct_shares t) DEC_ONE ltac:(lia)).
    pose proof (Z.mul_div_le (f * DEC_ONE) c ltac:(lia)).
    assert (0 <= f * DEC_ONE / c) by (apply Z.div_pos; nia).
    set (u := f * DEC_ONE / c) in *. set (x := u * ct_shares t / DEC_ONE) in *.
    assert (DEC_ONE * (x * c) <= DEC_ONE * (f * ct_shares t)); [|nia].
    transitivity (u * ct_shares t * c); [nia|]. nia.
Qed.

Lemma shares_to_collateral_le t b n pos a v :
  0 <= n -> 0 <= ct_shares t -> 0 <= b -> 0 <= a -> positions_active_collateral pos = Ok a ->
  shares_to_collateral t b n pos = Ok v -> 0 <= v /\ v * ct_shares t <= n * (b + a).
Proof.
  intros Hn Hs Hb Ha Hp H. unfold shares_to_collateral in H. rewrite Hp in H. simpl in H.
  apply rbind_ok in H as (c & [-> _]%ud_add_ok & H). apply rbind_ok in H as (o & (Hz & -> & _)%std_div_ok & H).
  apply std_mul_ok in H as [-> Hd]. unfold is_dec in Hd. split; [lia|]. pose proof DEC_ONE_pos.
  set (S := ct_shares t) in *. set (c := b + a) in *. set (o := c * DEC_ONE / S) in *.
  pose proof (Z.mul_div_le (n * o) DEC_ONE ltac:(lia)). pose proof (Z.mul_div_le (c * DEC_ONE) S ltac:(lia)).
  fold o in H1. set (v := n * o / DEC_ONE) in *.
  assert (DEC_ONE * (v * S) <= DEC_ONE * (n * c)); [|nia]. transitivity (n * o * S); [nia|]. nia.
Qed.

(** C20: Moving in and out of the pool never costs the other providers.  With
    [value] the collateral behind all shares, that is the balance and the
    active collateral of the position, a deposit mints at most its part of
    the value before it, and what a withdrawal pays is at most the part of the
    shares it burns: the value of a share never falls by either.  A payment
    is never more than the balance. *)
Theorem share_value_never_falls (q : CtQuerier) (sender : Addr) (market : MarketInfo) (s s' : CtStore)
    (msgs : list CtMsg) (balance active : Collateral) (pos : PositionsInfo) :
  ct_books s -> contract_balance q s = Ok balance -> positions_info_load q market = Ok pos ->
  positions_active_collateral pos = Ok active -> 0 <= balance -> 0 <= active ->
  let value := balance + active in
  (forall funds, 0 < funds <= balance -> ct_deposit q sender funds market s = Ok (msgs, s') ->
     (value - funds) * ct_total_shares s' <= value * ct_total_shares s) /\
  (forall amount, 0 < amount -> ct_withdraw q sender market amount s = Ok (msgs, s') ->
     exists paid msg, 0 < paid <= balance /\ paid * ct_total_shares s <= amount * value /\
       into_transfer_msg (mi_token market) sender paid = Ok (Some msg) /\ msgs = [CtPay msg] /\
       value * ct_total_shares s' <= (value - paid) * ct_total_shares s).
Proof.
  intros [Ht Hp _] Hb Hpos Ha Hb0 Ha0 value.
  assert (0 <= ct_total_shares s) as Hs0.
  { rewrite Ht. apply map_sum_nonneg. intros i x Hx. apply Hp in Hx. unfold id. lia. }
  split.
  - intros funds Hf (b & pos' & n & t' & _ & Hb' & Hpos' & H4 & _ & _ & ->)%ct_deposit_ok.
    rewrite Hb in Hb'. rewrite Hpos in Hpos'. injection Hb' as <-. injection Hpos' as <-.
    apply (add_collateral_fair _ _ _ _ active) in H4 as (Hn & Hfair & Hz); [|done..].
    unfold ct_total_shares in *. simpl. rewrite Hn. unfold value.
    destruct (Z.eqb_spec (ct_shares (default totals_default (TOTALS s))) 0) as [E|E]; [|nia].
    specialize (Hz E). rewrite E, Hz. lia.
  - intros amount Hamt (b & pos' & c & t' & m & _ & Hb' & Hpos' & H5 & Hnz & Hm & -> & _ & ->)%ct_withdraw_ok.
    rewrite Hb in Hb'. rewrite Hpos in Hpos'. injection Hb' as <-. injection Hpos' as <-.
    apply remove_collateral_ok in H5 as (Hc & Hle & Hn).
    apply (shares_to_collateral_le _ _ _ _ active) in Hc as [Hc0 Hc]; [|lia|done..].
    exists c, m. unfold ct_total_shares in *. simpl. unfold value. split_and!; [lia|lia|done|done|done|]. nia.
Qed.

(** ** A state without shares *)

(** The contract holds some collateral, and more than the message brings. *)
Definition ct_unowned (q : CtQuerier) (info : MessageInfo) (msg : CtExecute) (s : CtStore) : Prop :=
  exists market balance, load_market_info q s = Ok market /\ contract_balance q s = Ok balance /\ 0 < balance /\
    forall funds msg' sender collateral,
      handle_funds ct_from_json info msg = Ok (funds, msg', sender) ->
      funds_require_some funds market = Ok collateral -> collateral < balance.

(** The messages of the administrators, and who may send them. *)
Definition admin_message (c : CtConfig) (sender : Addr) (msg : CtExecute) : Prop :=
  match msg with
  | CtAppointAdmin _ | CtUpdateConfig _ => sender = cc_admin c
  | CtAcceptAdmin => cc_pending_admin c = Some sender
  | _ => False
  end.
Definition ct_answers_typed (q : CtQuerier) : Prop :=
  forall a p l, cq_positions q a p = Ok l -> Forall (fun pos => 0 <= pq_active_collateral pos) l.

Lemma positions_info_typed q m pos a :
  ct_answers_typed q -> positions_info_load q m = Ok pos -> positions_active_collateral pos = Ok a -> 0 <= a.
Proof.
  intros Hq H Ha. unfold positions_info_load in H. apply rbind_ok in H as (l & _ & H).
  destruct l as [|p l]; [injection H as <-; by injection Ha as <-|].
  destruct (negb (is_empty l)); [injection H as <-; done|]. apply rbind_ok in H as (ps & Hps & H).
  destruct (last ps) as [x|] eqn:E; [|done]. injection H as <-. injection Ha as <-.
  apply Hq in Hps. apply (proj1 (Forall_forall _ _) Hps). by apply last_Some_elem_of.
Qed.

Lemma deposit_refused q sender funds market s r balance :
  ct_answers_typed q -> ct_total_shares s = 0 -> contract_balance q s = Ok balance -> 0 < balance -> funds < balance ->
  ct_deposit q sender funds market s = Ok r -> False.
Proof.
  intros Hq Hz Hb Hb0 Hf H. destruct r as [msgs s'].
  apply ct_deposit_ok in H as (b & pos & n & t & _ & Hb' & Hpos & H4 & _).
  rewrite Hb in Hb'. injection Hb' as <-.
  unfold add_collateral in H4. apply rbind_ok in H4 as (a & Ha & H4). pose proof (positions_info_typed _ _ _ _ Hq Hpos Ha).
  apply rbind_ok in H4 as (c0 & [-> _]%ud_add_ok & H4). apply rbind_ok in H4 as (c & [-> _]%ud_sub_ok & H4).
  unfold ud_is_zero in H4. change (ct_shares (default totals_default (TOTALS s))) with (ct_total_shares s) in H4.
  rewrite Hz, (proj2 (Z.eqb_neq (balance + a - funds) 0)), (proj2 (Z.eqb_neq balance 0)) in H4 by lia. done.
Qed.

Lemma withdraw_refused q sender market amount s r :
  ct_total_shares s = 0 -> ct_withdraw q sender market amount s = Ok r -> False.
Proof.
  intros Hz H. destruct r as [msgs s'].
  apply ct_withdraw_ok in H as (b & pos & paid & t & m & _ & _ & _ & (H5 & _ & _)%remove_collateral_ok & _).
  unfold shares_to_collateral in H5. apply rbind_ok in H5 as (a & _ & H5). apply rbind_ok in H5 as (tc & _ & H5).
  apply rbind_ok in H5 as (o & (Hne & _)%std_div_ok & _). by apply Hne.
Qed.

Lemma no_funds funds u : funds_require_none funds = Ok u -> funds = CtNoFunds.
Proof. by destruct funds. Qed.
Lemma is_admin_ok sender e s u s' : ct_is_admin sender e s = Ok (u, s') -> sender = cc_admin (CT_CONFIG s) /\ s' = s.
Proof.
  unfold ct_is_admin. intros (c & s1 & H1 & H)%hbind_ok. get_in H1. apply hensure_ok in H as [H ->].
  split; [|done]. by apply String.eqb_eq in H.
Qed.

Lemma cached_balance q s s1 m :
  load_cache_market_info q s = Ok (m, s1) -> contract_balance q s1 = contract_balance q s.
Proof. intros [H1 H2]%load_cache_same. unfold contract_balance. by rewrite H1, H2. Qed.

(** C22: Collateral nobody owns locks the pool.  When no shares are left but
    the contract holds more than a message brings, be it by a single unit,
    every transaction that succeeds is one of the administrator's (appointing
    another or a new configuration) or the acceptance of the one appointed,
    without funds: deposits and withdrawals are refused and there is no work.
    It sends nothing, and leaves the shares, the totals and the collateral the
    contract sees as they are, so that the next message finds the same. *)
Theorem unowned_collateral_locks_pool (q : CtQuerier) (info : MessageInfo) (msg : CtExecute)
    (events : list RawEvent) (s s' : CtStore) (msgs : list CtMsg) :
  ct_answers_typed q -> ct_total_shares s = 0 -> ct_unowned q info msg s ->
  ct_transaction q info msg events s = Ok (msgs, s') ->
  (exists msg' sender, handle_funds ct_from_json info msg = Ok (CtNoFunds, msg', sender) /\
     admin_message (CT_CONFIG s) sender msg') /\
  msgs = [] /\ SHARES s' = SHARES s /\ TOTALS s' = TOTALS s /\ ct_total_shares s' = 0 /\
  contract_balance q s' = contract_balance q s.
Proof.
  intros Hq Hz (market & balance & Hmk & Hbal & Hb0 & Hlt) H.
  unfold ct_transaction in H. step_in H m s1 H1. step_in H u0 s2 H2. apply hret_ok in H as [-> ->].
  enough ((exists msg' sender, handle_funds ct_from_json info msg = Ok (CtNoFunds, msg', sender) /\
     admin_message (CT_CONFIG s) sender msg') /\ m = [] /\ SHARES s1 = SHARES s /\ TOTALS s1 = TOTALS s /\
     MARKET_INFO s1 = MARKET_INFO s /\ cc_market (CT_CONFIG s1) = cc_market (CT_CONFIG s))
    as (Ha & -> & Hs & Ht & Hmi & Hcm).
  { apply hret_ok in H2 as [_ ->]. split; [done|]. split; [done|]. split; [done|]. split; [done|].
    split; [by rewrite <- Hz; unfold ct_total_shares; rewrite Ht|].
    unfold contract_balance, load_market_info, load_market_info_inner. by rewrite Hmi, Hcm. }
  clear H2. unfold ct_execute in H1. apply hbind_ok in H1 as ([[funds m'] sender] & s3 & H3 & H1).
  apply hlift_ok in H3 as [Hf ->]. destruct m' as [snd n b| |n| |adm| |u]; [by inv_ok|..].
  - step_in H1 mk s3 H3. lift_in H1 f Hfu. exfalso.
    pose proof (load_cache_same _ _ _ _ H3) as [_ Hm]. pose proof (cached_balance _ _ _ _ H3) as Hcb.
    pose proof (load_cache_part _ _ _ _ H3) as [Hp _]. destruct (cached_awaited _ _ Hp) as [_ Et].
    rewrite Hmk in Hm. injection Hm as <-.
    eapply deposit_refused, H1; [done|by rewrite Et|by rewrite Hcb|done|by eapply Hlt].
  - lift_in H1 v Hv. step_in H1 mk s3 H3. exfalso. pose proof (load_cache_part _ _ _ _ H3) as [Hp _].
    destruct (cached_awaited _ _ Hp) as [_ Et]. eapply withdraw_refused, H1. by rewrite Et.
  - lift_in H1 v Hv. step_in H1 mk s3 H3. exfalso. pose proof (load_cache_part _ _ _ _ H3) as [Hp _].
    destruct (cached_awaited _ _ Hp) as [_ Et]. unfold do_work, get_totals in H1. step_in H1 t s4 H4. get_in H4.
    apply hbind_ok in H1 as (w & s5 & Hw & H1). apply hask_ok in Hw as [Hw ->].
    unfold get_work_for, ud_is_zero in Hw. fold (ct_total_shares s3) in Hw. rewrite Et, Hz in Hw.
    simpl in Hw. by injection Hw as <-.
  - lift_in H1 v Hv. lift_in H1 a Ha. apply no_funds in Hv as ->.
    unfold appoint_admin in H1. step_in H1 w s4 H2. apply is_admin_ok in H2 as [-> ->].
    step_in H1 w1 s3 H3. apply hmod_ok in H3. apply hret_ok in H1 as [-> ->]. subst. split; [by do 2 eexists|done].
  - lift_in H1 v Hv. apply no_funds in Hv as ->. unfold accept_admin in H1. step_in H1 c s5 H2. get_in H2.
    step_in H1 w s3 H3. apply hensure_ok in H3 as [Hp ->]. apply bool_decide_eq_true_1 in Hp.
    step_in H1 w1 s3 H3. apply hmod_ok in H3. apply hret_ok in H1 as [-> ->]. subst. split; [by do 2 eexists|done].
  - lift_in H1 v Hv. apply no_funds in Hv as ->. unfold ct_update_config in H1. step_in H1 w s4 H2.
    apply is_admin_ok in H2 as [-> ->]. step_in H1 c1 s5 H2. get_in H2. lift_in H1 v1 Hv1. step_in H1 w1 s3 H3.
    apply hmod_ok in H3. apply hret_ok in H1 as [-> ->]. subst. split; [by do 2 eexists|done].
Qed.

(** ** The search for a position *)

Section Search.
Context (config : Config).

Lemma opposite_net p d x y :
  0 <= d <= p -> is_dec (p + d) ->
  signed_checked_sub (into_signed p) (into_signed d) = Ok x ->
  signed_checked_sub (into_signed d) (into_signed p) = Ok y -> abs_unsigned x = abs_unsigned y.
Proof.
  unfold is_dec. intros Hd Hs Hx Hy.
  apply signed_checked_sub_ok in Hx as [Hx Hx']; [|apply into_signed_ok; unfold is_dec; lia..].
  apply signed_checked_sub_ok in Hy as [Hy Hy']; [|apply into_signed_ok; unfold is_dec; lia..].
  rewrite !sval_into_signed in *. rewrite !abs_unsigned_sval by done. lia.
Qed.

Lemma ct_rf_market st e net l s :
  st_config st = config -> rf_popular st e net l s = ct_rf_popular config e net l s /\
  rf_unpopular st e net l s = ct_rf_unpopular config e net l s.
Proof. intros <-. done. Qed.

Lemma ct_rf_opposite e x y p d :
  abs_unsigned x = abs_unsigned y ->
  ct_rf_popular config e y d p = ct_rf_popular config e x p d.
Proof.
  intros E. unfold ct_rf_popular, ud_checked_add. rewrite E, !dec_add_spec, (Z.add_comm d p). done.
Qed.

Lemma net_exists a b :
  is_dec a -> is_dec b -> exists x, signed_checked_sub (into_signed a) (into_signed b) = Ok x.
Proof.
  unfold is_dec. intros Ha Hb. rewrite signed_checked_sub_fits by (apply into_signed_ok; unfold is_dec; lia).
  rewrite !sval_into_signed. eexists. apply signed_fits_ok. split; [done|]. unfold is_dec, U256_MAX in *. lia.
Qed.

(** The rate the search works with is the one the market will charge the
    popular side, whichever that is. *)
Lemma predicted_rate st m p d r :
  st_config st = config -> 0 <= d <= p ->
  derive_popular_funding_rate_annual config p d = Ok r ->
  (open_long_interest m = p -> open_short_interest m = d ->
   exists u, derive_instant_funding_rate_annual st m = Ok (into_signed r, u)) /\
  (open_long_interest m = d -> open_short_interest m = p ->
   exists u, derive_instant_funding_rate_annual st m = Ok (u, into_signed r)).
Proof.
  intros Hc Hd H. unfold derive_popular_funding_rate_annual in H.
  apply rbind_ok in H as (x & Hx & H). apply rbind_ok in H as (tot & Htot & H).
  apply rbind_ok in H as (cap & Hcap & H). apply rbind_ok in H as (pr & Hpr & H).
  apply rbind_ok in H as (dn & Hdn & H). apply rbind_ok in H as ([pop unp] & Hrates & H).
  apply rbind_ok in H as (chk & Hchk & H). injection H as <-.
  pose proof Htot as [-> Hsum]%ud_add_ok. assert (is_dec p /\ is_dec d) as [Hp' Hd'] by (unfold is_dec in *; lia).
  destruct (net_exists d p Hd' Hp') as [y Hy]. pose proof (opposite_net _ _ _ _ Hd Hsum Hx Hy) as Eabs.
  set (e := Z.max (funding_rate_sensitivity config) dn) in *.
  unfold derive_instant_funding_rate_annual, positions_net_open_interest. rewrite Hc. split; intros El Es; rewrite El, Es.
  - rewrite Hx. simpl. rewrite Htot. simpl. rewrite Hcap. simpl. rewrite Hpr. simpl. rewrite Hdn. simpl. fold e.
    destruct (ct_rf_market st e x p d Hc) as [-> ->].
    destruct (ud_is_zero p || ud_is_zero d); [injection Hrates as <- <-; by exists NUMBER_ZERO|].
    destruct (Z.compare_spec p d); [injection Hrates as <- <-; by exists NUMBER_ZERO|lia|].
    apply rbind_ok in Hrates as (r1 & -> & Hrates). apply rbind_ok in Hrates as (r2 & -> & [= <- <-]). simpl. by eexists.
  - rewrite Hy. simpl. assert (ud_checked_add d p = Ok (p + d)) as ->.
    { apply ud_add_ok. split; [lia|]. by rewrite Z.add_comm. }
    simpl. rewrite Hcap. simpl. rewrite Hpr. simpl. rewrite Hdn. simpl. fold e.
    destruct (ct_rf_market st e y d p Hc) as [E1 E2]. rewrite E1, E2. clear E1 E2.
    rewrite (orb_comm (ud_is_zero d)).
    destruct (ud_is_zero p || ud_is_zero d); [injection Hrates as <- <-; by exists NUMBER_ZERO|].
    destruct (Z.compare_spec p d) as [E|E|E]; [injection Hrates as <- <-; rewrite E, Z.compare_refl; by exists NUMBER_ZERO|lia|].
    rewrite (proj2 (Z.compare_lt_iff d p)) by lia.
    apply rbind_ok in Hrates as (r1 & Hr1 & Hrates). apply rbind_ok in Hrates as (r2 & Hr2 & [= <- <-]).
    unfold ct_rf_unpopular in *. rewrite (proj2 (Z.compare_gt_iff p d)) in Hr2 by lia.
    rewrite (proj2 (Z.compare_lt_iff d p)) by lia. rewrite (ct_rf_opposite e x y p d Eabs), Hr1 in *. simpl in *.
    rewrite Hr2. simpl. by eexists.
Qed.

(** What the loop returns, and how far its counter gets. *)
Lemma search_loop_ok p u target allowed fuel : forall it hi lo r,
  search_loop config p u target allowed fuel it hi lo = Ok r ->
  r = 0 \/ exists d rate diff, d = u + r /\ 0 <= r /\ d <= p /\ derive_popular_funding_rate_annual config p d = Ok rate /\
    signed_checked_sub (into_signed rate) target = Ok diff /\ abs_unsigned diff < SEARCH_EPSILON.
Proof.
  induction fuel as [|fuel IH]; intros it hi lo r H; [done|]. simpl in H.
  apply rbind_ok in H as (s & _ & H). apply rbind_ok in H as (tr & _ & H). apply rbind_ok in H as (d & _ & H).
  apply rbind_ok in H as (v & Hle%assert_ok & H). apply rbind_ok in H as (rate & Hrate & H).
  apply rbind_ok in H as (diff & Hdiff & H). bool_prop.
  destruct (d <? u) eqn:Edu; [injection H as <-; by left|].
  destruct (abs_unsigned diff <? SEARCH_EPSILON) eqn:Eeps.
  - apply ud_sub_ok in H as [-> H]. unfold is_dec in H. bool_prop. right. exists d, rate, diff. split_and!; try done; lia.
  - destruct (allowed <=? it + 1); [done|]. destruct (signed_gtb _ _); by eapply IH.
Qed.

Lemma search_loop_fuel p u target allowed extra fuel : forall it hi lo,
  (0 < fuel)%nat -> allowed - it <= Z.of_nat fuel ->
  search_loop config p u target allowed (fuel + extra) it hi lo = search_loop config p u target allowed fuel it hi lo.
Proof.
  induction fuel as [|fuel IH]; intros it hi lo Hf Hle; [lia|]. simpl.
  destruct (std _) as [s|]; [|done]. simpl. destruct (std _) as [tr|]; [|done]. simpl.
  destruct (unpopular_at tr p) as [d|]; [|done]. simpl. destruct (assert _) as [v|]; [|done]. simpl.
  destruct (derive_popular_funding_rate_annual config p d) as [rate|]; [|done]. simpl.
  destruct (signed_checked_sub _ _) as [diff|]; [|done]. simpl.
  destruct (d <? u); [done|]. destruct (abs_unsigned diff <? SEARCH_EPSILON); [done|].
  destruct (Z.leb_spec allowed (it + 1)); [done|]. destruct (signed_gtb _ _); apply IH; lia.
Qed.
End Search.

(** The open interest of a market after [r] more on the side that has less,
    which is the short one when both have the same. *)
Definition with_unpopular (long short r : Notional) : Notional * Notional :=
  if short <? long then (long, short + r) else (long + r, short).

(** C21: The search for a position.  The counter of iterations is a byte, and
    no configured limit makes it overflow: a wider counter, with [extra] more
    steps, would give the same result.  A position the search finds leaves
    the popular side popular, and once it is open the rate the market charges
    that side is within the tolerance of the target; the rate the search
    computes on its own is exactly the one the market derives. *)
Theorem search_hits_target (config : Config) (long short : Notional) (target : Number)
    (allowed : Z) (r : Notional) :
  0 <= long -> 0 <= short -> allowed <= 255 ->
  smart_search config long short target allowed 0 = Ok r ->
  (forall p u hi lo extra,
     search_loop config p u target allowed (Z.to_nat 255 + extra) 0 hi lo =
     search_loop config p u target allowed (Z.to_nat 255) 0 hi lo) /\
  0 <= r /\
  (0 < r ->
   exists rate diff,
     signed_checked_sub (into_signed rate) target = Ok diff /\ abs_unsigned diff < SEARCH_EPSILON /\
     forall st m, st_config st = config ->
       (open_long_interest m, open_short_interest m) = with_unpopular long short r ->
       exists other, derive_instant_funding_rate_annual st m =
         Ok (if short <? long then (into_signed rate, other) else (other, into_signed rate))).
Proof.
  intros Hl Hs Ha H. split; [intros; apply search_loop_fuel; lia|]. unfold smart_search, with_unpopular in *.
  destruct (Z.ltb_spec short long) as [Hlt|Hle].
  all: match type of H with context [if ?b then _ else _] => destruct b end; [injection H as <-; split; lia|].
  all: apply rbind_ok in H as (t & _ & H); apply rbind_ok in H as (lo & _ & H).
  all: apply search_loop_ok in H as [->|(d & rate & diff & -> & Hr & Hd & Hrate & Hdiff & Heps)]; [split; lia|].
  all: split; [done|]; intros Hpos; exists rate, diff; split; [done|]; split; [done|]; intros st m Hc [= E1 E2].
  - eapply predicted_rate in Hrate as [Hrate _]; [|exact Hc|lia]. by apply Hrate.
  - eapply predicted_rate in Hrate as [_ Hrate]; [|exact Hc|lia]. by apply Hrate.
Qed.

(** ** A market that is balanced but for the contract *)

Lemma half_of_balanced n d :
  0 < n -> unpopular_at (DEC_ONE / 2) n = Ok d -> d <= n /\ n - 1 <= d.
Proof.
  intros Hn H. unfold unpopular_at in H. apply rbind_ok in H as (p & [-> _]%std_mul_ok & H).
  apply rbind_ok in H as (rest & [-> _]%std_sub_ok & H). apply std_div_ok in H as (_ & -> & _).
  assert (DEC_ONE - DEC_ONE / 2 = DEC_ONE / 2) as -> by reflexivity.
  assert (DEC_ONE / 2 * n / DEC_ONE = n / 2) as ->.
  { change DEC_ONE with (DEC_ONE / 2 * 2) at 2. rewrite Z.mul_comm, <- Z.div_div by (vm_compute; congruence).
    rewrite Z.div_mul by (vm_compute; congruence). done. }
  change DEC_ONE with (2 * (DEC_ONE / 2)) at 1 3.
  replace (n / 2 * (2 * (DEC_ONE / 2))) with (n / 2 * 2 * (DEC_ONE / 2)) by lia.
  rewrite Z.div_mul by (vm_compute; congruence). pose proof (Z.div_mod n 2). pose proof (Z.mod_pos_bound n 2). lia.
Qed.

(** The rate of a market as good as balanced rounds to zero, which the
    computation asserts it does not. *)
Lemma near_balance_fails config n d :
  0 <= funding_rate_max_annualized config -> DEC_ONE <= n -> n - 1 <= d <= n ->
  is_ok (derive_popular_funding_rate_annual config n d) = false.
Proof.
  intros Hmax Hn Hd. destruct (derive_popular_funding_rate_annual config n d) as [r|e] eqn:H; [|done]. exfalso.
  assert (1 < DEC_ONE) as H1 by (vm_compute; congruence).
  unfold derive_popular_funding_rate_annual in H.
  apply rbind_ok in H as (x & Hx & H). apply rbind_ok in H as (tot & [-> Htot]%ud_add_ok & H).
  apply rbind_ok in H as (cap & _ & H). apply rbind_ok in H as (pr & _ & H).
  apply rbind_ok in H as (dn & _ & H). apply rbind_ok in H as ([pop unp] & Hrates & H).
  apply rbind_ok in H as (chk & Hchk & _). unfold ud_is_zero in *.
  destruct (Z.eqb_spec n 0); [lia|]. destruct (Z.eqb_spec d 0); [lia|]. simpl in *.
  apply rbind_ok in Hchk as (c1 & _ & Hpos%assert_ok). unfold is_dec in Htot.
  apply signed_checked_sub_ok in Hx as [Hx Hxo]; [|apply into_signed_ok; unfold is_dec; lia..].
  rewrite !sval_into_signed in Hx.
  destruct (Z.compare_spec n d); [|lia|].
  - injection Hrates as <- <-. done.
  - apply rbind_ok in Hrates as (r1 & Hr1 & Hrates). apply rbind_ok in Hrates as (r2 & Hr2 & [= <- <-]).
    assert (r1 = 0) as ->.
    { unfold ct_rf_popular in Hr1. apply rbind_ok in Hr1 as (t & [-> _]%ud_add_ok & Hr1).
      apply rbind_ok in Hr1 as (ra & (_ & -> & _)%std_div_ok & Hr1).
      apply rbind_ok in Hr1 as (p & [-> _]%std_mul_ok & [= <-]).
      rewrite abs_unsigned_sval, Hx by done. rewrite (Z.div_small (Z.abs (n - d) * DEC_ONE)) by nia.
      rewrite Z.mul_0_r. rewrite Z.div_0_l by lia. lia. }
    done.
Qed.

Lemma balanced_search_fails config n allowed target :
  0 <= funding_rate_max_annualized config -> DEC_ONE <= n ->
  is_ok (smart_search config n n target allowed 0) = false.
Proof.
  intros Hmax Hn. unfold smart_search. rewrite Z.ltb_irrefl.
  assert (1 < DEC_ONE) by (vm_compute; congruence). rewrite (proj2 (Z.eqb_neq n 0)) by lia. cbn [andb].
  destruct (std (dec_add n n)) as [t|e] eqn:Et; [|done]. apply std_add_ok in Et as [-> _]. cbn [rbind].
  destruct (std (dec_div n (n + n))) as [lo|e] eqn:El; [|done]. apply std_div_ok in El as (_ & -> & _). cbn [rbind].
  replace (n * DEC_ONE / (n + n)) with (DEC_ONE / 2)
    by (replace (n + n) with (n * 2) by lia; rewrite Z.div_mul_cancel_l by lia; done).
  assert (Z.to_nat (255 - 0) = S 254) as -> by reflexivity. generalize 254%nat as k. intros k. cbn [search_loop].
  destruct (std (dec_add (DEC_ONE / 2) (DEC_ONE / 2))) as [s2|e] eqn:E1; [|done]. apply std_add_ok in E1 as [-> _].
  cbn [rbind]. destruct (std (dec_div _ _)) as [tr|e] eqn:E2; [|done]. apply std_div_ok in E2 as (_ & -> & _).
  assert ((DEC_ONE / 2 + DEC_ONE / 2) * DEC_ONE / (2 * DEC_ONE) = DEC_ONE / 2) as -> by (vm_compute; reflexivity). cbn [rbind].
  destruct (unpopular_at (DEC_ONE / 2) n) as [d|e] eqn:E3; [|done]. apply half_of_balanced in E3; [|lia].
  cbn [rbind]. destruct (assert (d <=? n)); [|done]. cbn [rbind].
  pose proof (near_balance_fails config n d Hmax Hn ltac:(lia)) as Hf.
  by destruct (derive_popular_funding_rate_annual _ n d).
Qed.

(** A market that only the contract's own position tips.  When the rest
    of the open interest is balanced, at one unit of notional or more a side,
    and the contract holds the difference on the popular side with more than
    the minimum deposit, it can neither close the position nor shrink it: the
    search it would size the position with asserts that the rate it computes
    is not zero, so looking for work fails as long as the market stays that
    way and the position goes on paying. *)
Theorem balanced_others_block_work (q : CtQuerier) (c : CtConfig) (status : StatusResp) (price : PricePoint)
    (pos : PositionQueryResponse) (available minimum : Collateral) (market : MarketInfo) (n : Notional) :
  0 <= funding_rate_max_annualized (status_config status) -> DEC_ONE <= n ->
  signed_leb (scu_collateral (pq_deposit_collateral pos)) (into_signed minimum) = false ->
  (status_long_notional status, status_short_notional status) =
    match pq_direction_to_base pos with
    | LongToBase => (n + abs_unsigned (pq_notional_size pos), n)
    | ShortToBase => (n, n + abs_unsigned (pq_notional_size pos))
    end ->
  exists e, popular_side_work q c status price pos available minimum market = Err e.
Proof.
  intros Hmax Hn Hdep Hint. set (size := abs_unsigned (pq_notional_size pos)) in *.
  assert (forall allowed target, is_ok (smart_search (status_config status) n n target allowed 0) = false) as Hsearch
    by (intros; by apply balanced_search_fails).
  assert (forall z, ud_checked_sub (n + z) n = Ok z \/ exists e, ud_checked_sub (n + z) n = Err e) as Hsub.
  { intros z. destruct (ud_checked_sub (n + z) n) as [w|e] eqn:E; [|by eauto]. apply ud_sub_ok in E as [-> _].
    left. f_equal. lia. }
  assert (ud_checked_sub n 0 = Ok n \/ exists e, ud_checked_sub n 0 = Err e) as H0.
  { destruct (ud_checked_sub n 0) as [w|e] eqn:E; [|by eauto]. apply ud_sub_ok in E as [-> _]. left. f_equal. lia. }
  assert (ud_checked_sub (n + size) size = Ok n \/ exists e, ud_checked_sub (n + size) size = Err e) as H2.
  { destruct (ud_checked_sub (n + size) size) as [w|e] eqn:E; [|by eauto]. apply ud_sub_ok in E as [-> _].
    left. f_equal. lia. }
  unfold popular_side_work, rebalance, determine_target_notional, flip. fold size.
  destruct (pq_direction_to_base pos) eqn:Edir; injection Hint as El Es; rewrite El, Es;
    (destruct (Hsub size) as [->|[e ->]]; [|by eexists]); cbn [rbind]; rewrite Z.ltb_irrefl, Hdep; simpl;
    destruct (status_market_type status); simpl;
    (destruct H0 as [->|[e ->]]; destruct H2 as [->|[e' ->]]; cbn [rbind]; try by eexists);
    match goal with |- context [smart_search ?cf n n ?t ?al 0] =>
      specialize (Hsearch al t); destruct (smart_search cf n n t al 0); [done|by eexists] end.
Qed.
End Theory.

(** * A concrete pool

    The market's collateral is a native coin of six decimals.  Alice deposits
    three units of it, one comes in as profit, and she withdraws all of her
    shares: a third is not a decimal number, so she is paid three. *)

Definition sample_ct_status (long short : Notional) (funding : Number) : StatusResp :=
  mkStatusResp (market_id_new "ATOM" "USDC" CollateralIsQuote) "ATOM" "USDC" CollateralIsQuote
    (TokenNative "uusdc" 6) sample_config (mkLiquidityStats 0 0 0 0) None None None None None 0 None 0 0 0
    funding (signed_neg funding) long short 0 0 NUMBER_ZERO 0 (mkFees 0 0 0 0).
Definition sample_ct_price : PricePoint :=
  mkPricePoint (7 * DEC_ONE) DEC_ONE (7 * DEC_ONE) 0 true CollateralIsQuote None None.
Definition sample_querier (balance : Z) : CtQuerier :=
  mkCtQuerier "pool" (fun _ => Ok (sample_ct_status 0 0 NUMBER_ZERO)) (fun _ _ => Ok []) (fun _ _ => Ok [])
    (fun _ _ => Ok DeferredNotFound) (fun _ => Ok sample_ct_price) (fun _ => Ok balance) (fun _ => Ok 0).
Definition sample_ct_json : Binary -> res CtExecute := fun _ => Err StdError.
Definition sample_ct_pool : CtStore :=
  mkCtStore (mkCtConfig "admin" None "market" (DEC_ONE / 10) (2 * DEC_ONE / 5) (3 * DEC_ONE / 5) 50
               (3 * DEC_ONE / 2) DEC_ONE (10 * DEC_ONE)) ∅ None None None.
Definition sample_ct_update : CtConfigUpdate := mkCtConfigUpdate None None None None None None None.
Definition sample_ct_run (balance : Z) (info : MessageInfo) (msg : CtExecute) (s : CtStore) :=
  ct_transaction (CW:=cosmwasm_ref) sample_ct_json (sample_querier balance) info msg [] s.
Definition ct_after (r : res (list CtMsg * CtStore)) : CtStore :=
  match r with Ok (_, s) => s | Err _ => sample_ct_pool end.
Definition sample_ct_pool_deposit : CtStore :=
  ct_after (sample_ct_run 3 (mkMessageInfo "alice" [("uusdc"%string, 3)]) CtDeposit sample_ct_pool).
Definition sample_ct_pool_empty : CtStore :=
  ct_after (sample_ct_run 4 (mkMessageInfo "alice" []) (CtWithdraw 3000000000000) sample_ct_pool_deposit).

Lemma sample_ct_step balance info msg s :
  is_ok (sample_ct_run balance info msg s) = true -> ct_reachable (CW:=cosmwasm_ref) sample_ct_json s ->
  ct_reachable (CW:=cosmwasm_ref) sample_ct_json (ct_after (sample_ct_run balance info msg s)).
Proof.
  intros Hok Hr. destruct (sample_ct_run balance info msg s) as [[msgs s']|e] eqn:E; [|done].
  eapply ct_reach_step; [exact Hr|exact E].
Qed.
Lemma sample_ct_pool_deposit_reachable : ct_reachable (CW:=cosmwasm_ref) sample_ct_json sample_ct_pool_deposit.
Proof.
  apply sample_ct_step; [vm_compute; reflexivity|].
  apply (ct_reach_instantiate _ "market" "admin" sample_ct_update). vm_compute. reflexivity.
Qed.
Lemma sample_ct_pool_empty_reachable : ct_reachable (CW:=cosmwasm_ref) sample_ct_json sample_ct_pool_empty.
Proof. apply sample_ct_step; [vm_compute; reflexivity|apply sample_ct_pool_deposit_reachable]. Qed.

Lemma ct_shares_consistent_witness :
  ct_total_shares sample_ct_pool_deposit = map_sum id (SHARES sample_ct_pool_deposit) /\
  ct_total_shares sample_ct_pool_deposit = 3000000000000.
Proof.
  split; [|vm_compute; reflexivity].
  destruct (ct_shares_consistent (CW:=cosmwasm_ref) (CWS:=cosmwasm_ref_spec) sample_ct_json _
    sample_ct_pool_deposit_reachable) as [H _]. exact H.
Defined.

Lemma sample_ct_pool_deposit_books : ct_books sample_ct_pool_deposit.
Proof.
  apply (ct_reachable_kept (CW:=cosmwasm_ref) (CWS:=cosmwasm_ref_spec) sample_ct_json), sample_ct_pool_deposit_reachable.
Qed.
Definition sample_market_info : MarketInfo :=
  mkMarketInfo (market_id_new "ATOM" "USDC" CollateralIsQuote) "market" (TokenNative "uusdc" 6).
Definition sample_withdrawal :=
  ct_withdraw (CW:=cosmwasm_ref) (sample_querier 4) "alice" sample_market_info 3000000000000 sample_ct_pool_deposit.

(** Alice's shares are worth four units; she gets less than a whole one less. *)
Lemma share_value_never_falls_witness :
  exists paid msgs s', sample_withdrawal = Ok (msgs, s') /\ 0 < paid <= 4000000000000 /\
    paid * 3000000000000 <= 3000000000000 * 4000000000000.
Proof.
  assert (is_ok sample_withdrawal = true) as Hok by (vm_compute; reflexivity).
  apply is_ok_Ok in Hok as [[msgs s'] E].
  destruct (share_value_never_falls (CW:=cosmwasm_ref) (CWS:=cosmwasm_ref_spec) (sample_querier 4) "alice"
    sample_market_info sample_ct_pool_deposit s' msgs 4000000000000 0 NoPositions sample_ct_pool_deposit_books)
    as [_ Hw]; [vm_compute; reflexivity..|done|done|].
  destruct (Hw 3000000000000 ltac:(done) E) as (paid & msg & Hp & Hle & _).
  exists paid, msgs, s'. split; [exact E|]. split; [exact Hp|].
  assert (ct_total_shares sample_ct_pool_deposit = 3000000000000) as Et by (vm_compute; reflexivity).
  rewrite Et in Hle. exact Hle.
Defined.

(** One unit stays when Alice withdraws all her shares; with the hundred that
    Bob sends the contract holds 101. *)
Definition sample_appoint := sample_ct_run 1 (mkMessageInfo "admin" []) (CtAppointAdmin "carol") sample_ct_pool_empty.
Definition sample_bob : MessageInfo := mkMessageInfo "bob" [("uusdc"%string, 100)].
Lemma sample_appoint_unowned : ct_unowned (CW:=cosmwasm_ref) sample_ct_json (sample_querier 1)
  (mkMessageInfo "admin" []) (CtAppointAdmin "carol") sample_ct_pool_empty.
Proof.
  exists sample_market_info, 1000000000000. split; [vm_compute; reflexivity|]. split; [vm_compute; reflexivity|].
  split; [done|]. intros funds msg sender c [= <- <- <-] H. discriminate H.
Qed.
Lemma sample_deposit_unowned : ct_unowned (CW:=cosmwasm_ref) sample_ct_json (sample_querier 101)
  sample_bob CtDeposit sample_ct_pool_empty.
Proof.
  exists sample_market_info, 101000000000000. split; [vm_compute; reflexivity|]. split; [vm_compute; reflexivity|].
  split; [done|]. intros funds msg sender c [= <- <- <-] H. vm_compute in H. by injection H as <-.
Qed.

(** Bob's deposit is refused, the administrator's message is not. *)
Lemma unowned_collateral_locks_pool_witness :
  is_ok (sample_ct_run 101 sample_bob CtDeposit sample_ct_pool_empty) = false /\
  exists s', sample_appoint = Ok ([], s') /\ SHARES s' = SHARES sample_ct_pool_empty.
Proof.
  assert (forall b, ct_answers_typed (sample_querier b)) as Hq by (by intros b a p l [= <-]).
  assert (ct_total_shares sample_ct_pool_empty = 0) as Hz by (vm_compute; reflexivity). split.
  - destruct (sample_ct_run 101 sample_bob CtDeposit sample_ct_pool_empty) as [[msgs s']|e] eqn:E; [|reflexivity].
    destruct (unowned_collateral_locks_pool (CW:=cosmwasm_ref) (CWS:=cosmwasm_ref_spec) sample_ct_json
      (sample_querier 101) sample_bob CtDeposit [] sample_ct_pool_empty s' msgs (Hq 101) Hz sample_deposit_unowned E)
      as [(msg' & sender & Hf & _) _].
    discriminate Hf.
  - assert (is_ok sample_appoint = true) as Hok by (vm_compute; reflexivity).
    apply is_ok_Ok in Hok as [[msgs s'] E].
    destruct (unowned_collateral_locks_pool (CW:=cosmwasm_ref) (CWS:=cosmwasm_ref_spec) sample_ct_json
      (sample_querier 1) (mkMessageInfo "admin" []) (CtAppointAdmin "carol") [] sample_ct_pool_empty s' msgs
      (Hq 1) Hz sample_appoint_unowned E) as (_ & -> & Hs & _).
    exists s'. split; [exact E|exact Hs].
Defined.

(** A market with thousand long and a hundred short. *)
Definition sample_search : res Notional :=
  smart_search (CW:=cosmwasm_ref) sample_config (1000 * DEC_ONE) (100 * DEC_ONE) (into_signed (2 * DEC_ONE / 5)) 50 0.
Lemma search_hits_target_witness :
  exists r, sample_search = Ok r /\ 0 < r /\
    exists rate diff, signed_checked_sub (CW:=cosmwasm_ref) (into_signed rate) (into_signed (2 * DEC_ONE / 5)) = Ok diff /\
      abs_unsigned diff < SEARCH_EPSILON.
Proof.
  assert (match sample_search with Ok r => 0 <? r | Err _ => false end = true) as Hok by (vm_compute; reflexivity).
  destruct sample_search as [r|] eqn:E; [|discriminate Hok]. apply Z.ltb_lt in Hok.
  destruct (search_hits_target (CW:=cosmwasm_ref) (CWS:=cosmwasm_ref_spec) sample_config (1000 * DEC_ONE)
    (100 * DEC_ONE) (into_signed (2 * DEC_ONE / 5)) 50 r) as (_ & _ & H); [done|done|done|exact E|].
  exists r. split; [done|]. split; [exact Hok|]. destruct (H Hok) as (rate & diff & H1 & H2 & _).
  exists rate, diff. split; [exact H1|exact H2].
Defined.

(** Ten units on each side, and ten more of the contract's own. *)
Definition sample_ct_position : PositionQueryResponse :=
  mkPositionQueryResponse "pool" 1 LongToBase (2 * DEC_ONE) (2 * DEC_ONE) 0 None 0 (mkCollateralAndUsd 0 0)
    (mkSignedCollateralAndUsd NUMBER_ZERO NUMBER_ZERO) (mkCollateralAndUsd 0 0) (mkCollateralAndUsd 0 0)
    (mkSignedCollateralAndUsd NUMBER_ZERO NUMBER_ZERO)
    (mkSignedCollateralAndUsd (into_signed (40 * DEC_ONE)) (into_signed (40 * DEC_ONE))) (40 * DEC_ONE) (40 * DEC_ONE)
    (40 * DEC_ONE) NUMBER_ZERO NUMBER_ZERO NUMBER_ZERO (into_signed (10 * DEC_ONE)) (into_signed (70 * DEC_ONE))
    (into_signed (10 * DEC_ONE)) (into_signed (70 * DEC_ONE)) None (mkLiquidationMargin 0 0 0 0 0) None (7 * DEC_ONE)
    0 None None None.
Definition sample_tipped : res HasWorkResp :=
  popular_side_work (CW:=cosmwasm_ref) (sample_querier 10) (CT_CONFIG sample_ct_pool)
    (sample_ct_status (20 * DEC_ONE) (10 * DEC_ONE) (into_signed (DEC_ONE / 2))) sample_ct_price sample_ct_position
    DEC_ONE (5 * DEC_ONE) sample_market_info.
Lemma balanced_others_block_work_witness :
  sample_tipped = Err (Panic "assertion failed") /\ exists e, sample_tipped = Err e.
Proof.
  split; [vm_compute; reflexivity|].
  apply (balanced_others_block_work (CW:=cosmwasm_ref) (CWS:=cosmwasm_ref_spec) (sample_querier 10)
    (CT_CONFIG sample_ct_pool) (sample_ct_status (20 * DEC_ONE) (10 * DEC_ONE) (into_signed (DEC_ONE / 2)))
    sample_ct_price sample_ct_position DEC_ONE (5 * DEC_ONE) sample_market_info (10 * DEC_ONE)).
  - vm_compute. discriminate.
  - vm_compute. discriminate.
  - vm_compute. reflexivity.
  - vm_compute. reflexivity.
Defined.
