(* ===== verification/CopyTrading.v ===== *)
(** * The copy trading contract: state, queues and messages

    [contracts/copy_trading/src] ([types.rs], [state.rs], [common.rs],
    [lib.rs] and the message handlers of [execute.rs]) with the messages of
    [packages/perpswap/src/contracts/copy_trading.rs].  A leader trades the
    pooled collateral of the depositors on every market of a factory; deposits
    and closings wait in one queue, withdrawals and trades in another, and the
    work of CopyTradingWork.v processes them.  What the factory, the markets,
    the bank and the token contracts answer is the record [CopyEnv].  The
    events of a response render the values of the message and are left out, as
    is [migrate]; [sanity] is compiled into debug builds only and is the
    predicate [queue_sane] of CopyTradingInv.v. *)

From stdpp Require Import base option gmap strings list countable pretty.
From Stdlib Require Import ZArith Lia Ascii.
From S2P Require Import Prelude Storage Index Cosmwasm Types Number Market Time Price Token Config Position Trading State PositionStore PositionToken Entry Factory Queries.
Local Open Scope Z_scope.

(** ** Keys *)

(** [copy_trading::Token]. *)
Inductive CopyToken := CopyNative (denom : string) | CopyCw20 (addr : Addr).
#[export] Instance CopyToken_eq_dec : EqDecision CopyToken.
Proof. solve_decision. Defined.
#[export, program] Instance CopyToken_countable : Countable CopyToken :=
  inj_countable' (fun t => match t with CopyNative d => inl d | CopyCw20 a => inr a end)
    (fun x => match x with inl d => CopyNative d | inr a => CopyCw20 a end) _.
Next Obligation. by intros []. Qed.

(** [QueuePositionId], by the queue it is of. *)
Inductive QueuePositionId := IncQueuePositionId (id : Z) | DecQueuePositionId (id : Z).
#[export] Instance QueuePositionId_eq_dec : EqDecision QueuePositionId.
Proof. solve_decision. Defined.
#[export, program] Instance QueuePositionId_countable : Countable QueuePositionId :=
  inj_countable' (fun t => match t with IncQueuePositionId i => inl i | DecQueuePositionId i => inr i end)
    (fun x => match x with inl i => IncQueuePositionId i | inr i => DecQueuePositionId i end) _.
Next Obligation. by intros []. Qed.

(** The byte order of their keys: the variant's number comes first. *)
Definition copy_token_lt (a b : CopyToken) : bool :=
  match a, b with
  | CopyNative x, CopyNative y | CopyCw20 x, CopyCw20 y => String.ltb x y
  | CopyNative _, CopyCw20 _ => true
  | CopyCw20 _, CopyNative _ => false
  end.
Definition queue_position_lt (a b : QueuePositionId) : bool :=
  match a, b with
  | IncQueuePositionId x, IncQueuePositionId y | DecQueuePositionId x, DecQueuePositionId y => x <? y
  | IncQueuePositionId _, DecQueuePositionId _ => true
  | DecQueuePositionId _, IncQueuePositionId _ => false
  end.

#[export, program] Instance KeyOrder_copy_token : KeyOrder CopyToken := {| key_lt := copy_token_lt |}.
Next Obligation. intros [x|x]; exact (key_lt_irrefl (K:=string) x). Qed.
Next Obligation.
  intros [x|x] [y|y] [z|z]; simpl; try done; exact (key_lt_trans (K:=string) x y z).
Qed.
Next Obligation.
  intros [x|x] [y|y]; simpl; intros H1 H2; try done; f_equal; exact (key_lt_total (K:=string) x y H1 H2).
Qed.
#[export, program] Instance KeyOrder_queue_position : KeyOrder QueuePositionId :=
  {| key_lt := queue_position_lt |}.
Next Obligation. intros [x|x]; simpl; lia. Qed.
Next Obligation. intros [x|x] [y|y] [z|z]; simpl; try done; lia. Qed.
Next Obligation. intros [x|x] [y|y]; simpl; intros; try done; f_equal; lia. Qed.

(** ** Data *)

(** [copy_trading::FailedReason]; the texts of the last two are the errors
    they render. *)
Inductive FailedReason :=
| NotEnoughCollateral (available requested : Collateral)
| NotEnoughCrankFee (available requested : Collateral)
| FundLessThanMinChain (funds : Collateral)
| NotEnoughShares (available requested : LpToken)
| FailedMarketError (market_id : MarketId) (message : string)
| DeferredExecFailure (reason : option error) (executed : Timestamp) (crank_price : option PricePoint).

(** [copy_trading::ProcessingStatus]. *)
Inductive ItemStatus := NotProcessed | Finished | InProgress | Failed (reason : FailedReason).
Definition status_failed (s : ItemStatus) : bool := match s with Failed _ => true | _ => false end.
Definition status_pending (s : ItemStatus) : bool :=
  match s with NotProcessed | InProgress => true | Finished | Failed _ => false end.
Definition status_finish (s : ItemStatus) : bool := match s with Finished => true | _ => false end.
Definition in_progress (s : ItemStatus) : bool := match s with InProgress => true | _ => false end.

Inductive IncMarketItem :=
| IncRemoveCollateralImpactLeverage (id : PositionId) (amount : Collateral)
| IncRemoveCollateralImpactSize (id : PositionId) (amount : Collateral)
    (slippage_assert : option SlippageAssertion)
| IncCancelLimitOrder (order_id : OrderId)
| IncClosePosition (id : PositionId) (slippage_assert : option SlippageAssertion).

Inductive DecMarketItem :=
| DecOpenPosition (collateral : Collateral) (slippage_assert : option SlippageAssertion)
    (leverage : LeverageToBase) (direction : DirectionToBase)
    (stop_loss_override : option PriceBaseInQuote) (take_profit : TakeProfitTrader)
| DecAddCollateralImpactLeverage (collateral : Collateral) (id : PositionId)
| DecAddCollateralImpactSize (collateral : Collateral) (id : PositionId)
    (slippage_assert : option SlippageAssertion)
| DecUpdateLeverage (id : PositionId) (leverage : LeverageToBase)
    (slippage_assert : option SlippageAssertion)
| DecUpdateTakeProfitPrice (id : PositionId) (price : TakeProfitTrader)
| DecUpdateStopLossPrice (id : PositionId) (stop_loss : StopLoss)
| DecPlaceLimitOrder (collateral : Collateral) (trigger_price : PriceBaseInQuote)
    (leverage : LeverageToBase) (direction : DirectionToBase)
    (stop_loss_override : option PriceBaseInQuote) (take_profit : TakeProfitTrader).

Inductive IncQueueItem :=
| IncDeposit (funds : Collateral) (token : CopyToken)
| IncMarket (id : MarketId) (token : CopyToken) (item : IncMarketItem).
Inductive DecQueueItem :=
| DecWithdrawal (tokens : LpToken) (token : CopyToken)
| DecMarket (id : MarketId) (token : CopyToken) (item : DecMarketItem).

(** [requires_token]: the token whose share value the item needs. *)
Definition inc_requires_token (i : IncQueueItem) : option CopyToken :=
  match i with IncDeposit _ token => Some token | IncMarket _ _ _ => None end.
Definition dec_requires_token (i : DecQueueItem) : option CopyToken :=
  match i with DecWithdrawal _ token => Some token | DecMarket _ _ _ => None end.

Record IncQueuePosition := mkIncQueuePosition {
  inc_item : IncQueueItem; inc_wallet : Addr; inc_status : ItemStatus }.
Record DecQueuePosition := mkDecQueuePosition {
  dec_item : DecQueueItem; dec_wallet : Addr; dec_status : ItemStatus }.
Definition set_inc_status (v : ItemStatus) (p : IncQueuePosition) : IncQueuePosition :=
  mkIncQueuePosition (inc_item p) (inc_wallet p) v.
Definition set_dec_status (v : ItemStatus) (p : DecQueuePosition) : DecQueuePosition :=
  mkDecQueuePosition (dec_item p) (dec_wallet p) v.

(** [types::ProcessingStatus] of a market. *)
Inductive MarketProgress :=
| NotStarted
| ProcessOpenPositions (start_after : option string)
| ProcessLimitOrder (start_after : option OrderId)
| ValidateOpenPositions (start_after : option string) (open_positions : Z)
| ValidateLimitOrder (start_after : option OrderId) (open_orders : Z)
| ResetRequired
| Validated.
Definition reset_required (p : MarketProgress) : bool :=
  match p with ResetRequired => true | _ => false end.
Definition is_batch_operation (p : MarketProgress) : bool :=
  match p with
  | NotStarted | ResetRequired | Validated => false
  | ProcessOpenPositions _ | ProcessLimitOrder _ | ValidateOpenPositions _ _ | ValidateLimitOrder _ _ => true
  end.
Definition not_started_yet (p : MarketProgress) : bool :=
  match p with NotStarted => true | _ => false end.
Definition is_process_open_positions (p : MarketProgress) : bool :=
  match p with ProcessOpenPositions _ => true | _ => false end.
Definition is_validate_status (p : MarketProgress) : bool :=
  match p with ValidateOpenPositions _ _ | ValidateLimitOrder _ _ => true | _ => false end.
Definition is_validate_open_position_status (p : MarketProgress) : bool :=
  match p with ValidateOpenPositions _ _ => true | _ => false end.

Record CopyMarketInfo := mkCopyMarketInfo { cmi_id : MarketId; cmi_addr : Addr; cmi_token : Token }.

Record CopyTotals := mkCopyTotals {
  (** what is still in this contract, active positions excluded *)
  total_collateral : Collateral;
  total_shares : LpToken }.
Definition copy_totals_default : CopyTotals := mkCopyTotals 0 0.

Record MarketWorkInfo := mkMarketWorkInfo {
  mw_status : MarketProgress;
  mw_active_collateral : Collateral;
  mw_count_open_positions : Z;
  mw_count_orders : Z }.
Definition market_work_default : MarketWorkInfo := mkMarketWorkInfo NotStarted 0 0 0.
Definition set_mw_status (v : MarketProgress) (w : MarketWorkInfo) : MarketWorkInfo :=
  mkMarketWorkInfo v (mw_active_collateral w) (mw_count_open_positions w) (mw_count_orders w).

(** [OneLpTokenValue] is the value of one share. *)
Inductive LpTokenStatus := LpValid (timestamp : Timestamp) (queue_id : QueuePositionId) | LpOutdated.
Definition lp_status_valid (s : LpTokenStatus) (queue_id : QueuePositionId) : bool :=
  match s with LpValid _ id => bool_decide (id = queue_id) | LpOutdated => false end.
Record LpTokenValue := mkLpTokenValue { lv_value : Collateral; lv_status : LpTokenStatus }.
Definition set_outdated (v : LpTokenValue) : LpTokenValue := mkLpTokenValue (lv_value v) LpOutdated.

Inductive MarketLoaderStatus :=
| LoaderNotStarted | LoaderOnGoing (last_seen : MarketId) | LoaderFinished (last_seen : MarketId).

Record HighWaterMark := mkHighWaterMark { hwm_current : Signed; hwm_hwm : Collateral }.
Definition hwm_default : HighWaterMark := mkHighWaterMark signed_zero 0.
Record CommissionStats := mkCommissionStats { com_unclaimed : Collateral; com_claimed : Collateral }.
Definition commission_default : CommissionStats := mkCommissionStats 0 0.

(** What a closed position leaves for the pool. *)
Record LeaderCommission := mkLeaderCommission {
  lc_active_collateral : Collateral; lc_profit : Collateral; lc_remaining_collateral : Collateral }.

Inductive BatchWork :=
| BatchNoWork
| BatchRebalance (start_from : option MarketId) (balance : Collateral) (token : CopyToken)
| BatchLpTokenValue (process_start_from validate_start_from : option MarketId) (token : CopyToken).

(** The two fields of a market's configuration the contract parses. *)
Record CrankFeeConfig := mkCrankFeeConfig { cf_crank_fee_charged : Usd; cf_crank_fee_surcharge : Usd }.

Record CopyConfig := mkCopyConfig {
  cyc_factory : Addr;
  cyc_admin : Addr;
  cyc_pending_admin : option Addr;
  cyc_leader : Addr;
  cyc_name : string;
  cyc_description : string;
  cyc_commission_rate : Decimal256;
  cyc_created_at : Timestamp;
  cyc_allowed_rebalance_queries : Z;
  cyc_allowed_lp_token_queries : Z;
}.

Record CopyConfigUpdate := mkCopyConfigUpdate {
  cyu_name : option string;
  cyu_description : option string;
  cyu_commission_rate : option Decimal256 }.
Record FactoryConfigUpdate := mkFactoryConfigUpdate {
  fcu_allowed_rebalance_queries : option Z;
  fcu_allowed_lp_token_queries : option Z }.

Inductive CopyExecute :=
| CopyReceive (sender : RawAddr) (amount : Z) (msg : Binary)
| CopyDeposit
| CopyWithdraw (shares : LpToken) (token : CopyToken)
| CopyLeaderUpdateConfig (update : CopyConfigUpdate)
| CopyFactoryUpdateConfig (update : FactoryConfigUpdate)
| CopyLeaderMsg (market_id : MarketId) (message : ExecuteMsg) (collateral : option Collateral)
| CopyLeaderWithdrawal (requested_funds : Collateral) (token : CopyToken)
| CopyDoWork.

Inductive CopyWork :=
| LoadMarket
| ComputeLpTokenValue (token : CopyToken) (process_start_from validate_start_from : option MarketId)
| ProcessQueueItem (id : QueuePositionId)
| ResetStats (token : CopyToken)
| HandleDeferredExecId
| RebalanceWork (token : CopyToken) (amount : Collateral) (start_from : option MarketId).
Inductive WorkResp :=
| CopyNoWork
| CopyHasWork (work_description : CopyWork).
Definition work_is_rebalance (w : WorkResp) : bool :=
  match w with CopyHasWork (RebalanceWork _ _ _) => true | _ => false end.
Definition work_is_compute_lp_token (w : WorkResp) : bool :=
  match w with CopyHasWork (ComputeLpTokenValue _ _ _) => true | _ => false end.
Definition work_is_reset_status (w : WorkResp) : bool :=
  match w with CopyHasWork (ResetStats _) => true | _ => false end.
Definition work_is_deferred_work (w : WorkResp) : bool :=
  match w with CopyHasWork HandleDeferredExecId => true | _ => false end.

(** What the contract sends: a market message whose outcome, good or bad,
    comes back as a reply, and a payment. *)
Inductive CopyMsg :=
| CopyMarketMsg (reply_id : Z) (msg : WasmExecute ExecuteMsg)
| CopyPay (msg : CosmosMsg).

(** The block and the answers to the contract's queries, by the address asked. *)
Record CopyEnv := mkCopyEnv {
  ce_now : Timestamp;
  ce_my_addr : Addr;
  (** the factory: [Markets] after an id, 30 at most; the address of
      [MarketInfo]; the raw time the last market was added *)
  ce_markets : option MarketId -> res (list MarketId);
  ce_market_addr : MarketId -> res Addr;
  ce_last_market_added : res (option Timestamp);
  (** a market: [Status], the contract's position tokens after an id, its
      positions with accumulated fees, its closed positions and limit orders in
      ascending order, a deferred execution, the spot price, and the crank fees
      in the raw configuration *)
  ce_status : Addr -> res StatusResp;
  ce_tokens : Addr -> option string -> res (list PositionId);
  ce_positions : Addr -> list PositionId -> res PositionsResp;
  ce_closed_positions : Addr -> option ClosedPositionCursor -> res ClosedPositionsResp;
  ce_orders : Addr -> option OrderId -> res (list LimitOrderResp * option OrderId);
  ce_deferred : Addr -> DeferredExecId -> res GetDeferredExecResp;
  ce_spot_price : Addr -> res PricePoint;
  ce_crank_fee : Addr -> res (option CrankFeeConfig);
  ce_bank : string -> res Z;
  ce_cw20 : string -> res Z;
  (** the iterations the block's gas allows a loop the code does not bound *)
  ce_gas : nat;
}.

(** ** The store (state.rs) *)

Record CopyStore := mkCopyStore {
  COPY_CONFIG : CopyConfig;
  (** by the wallet, then the token *)
  COPY_SHARES : gmap (Addr * CopyToken) LpToken;
  WALLET_QUEUE_ITEMS : gmap (Addr * QueuePositionId) unit;
  COLLATERAL_INCREASE_QUEUE : gmap Z IncQueuePosition;
  COLLATERAL_DECREASE_QUEUE : gmap Z DecQueuePosition;
  LAST_INSERTED_INC_QUEUE_ID : option Z;
  LAST_INSERTED_DEC_QUEUE_ID : option Z;
  LAST_PROCESSED_INC_QUEUE_ID : option Z;
  LAST_PROCESSED_DEC_QUEUE_ID : option Z;
  COPY_TOTALS : gmap CopyToken CopyTotals;
  PENDING_DEPOSITS : gmap CopyToken Collateral;
  LP_TOKEN_VALUE : gmap CopyToken LpTokenValue;
  (** by the encoded market id, as the maps below *)
  MARKET_WORK_INFO : gmap string MarketWorkInfo;
  MARKETS : gmap string CopyMarketInfo;
  MARKETS_TOKEN : gmap (CopyToken * string) CopyMarketInfo;
  LAST_MARKET_ADD_CHECK : option Timestamp;
  MARKET_LOADER_STATUS : option MarketLoaderStatus;
  REPLY_DEFERRED_EXEC_ID : option (option DeferredExecId);
  LAST_CLOSED_POSITION_CURSOR : gmap string ClosedPositionCursor;
  LEADER_COMMISSION : gmap CopyToken CommissionStats;
  HIGH_WATER_MARK : gmap CopyToken HighWaterMark;
  CURRENT_BATCH_WORK : option BatchWork;
}.
Definition set_COPY_CONFIG (v : CopyConfig) (s : CopyStore) : CopyStore :=
  mkCopyStore v (COPY_SHARES s) (WALLET_QUEUE_ITEMS s) (COLLATERAL_INCREASE_QUEUE s)
    (COLLATERAL_DECREASE_QUEUE s) (LAST_INSERTED_INC_QUEUE_ID s) (LAST_INSERTED_DEC_QUEUE_ID s)
    (LAST_PROCESSED_INC_QUEUE_ID s) (LAST_PROCESSED_DEC_QUEUE_ID s) (COPY_TOTALS s)
    (PENDING_DEPOSITS s) (LP_TOKEN_VALUE s) (MARKET_WORK_INFO s) (MARKETS s) (MARKETS_TOKEN s)
    (LAST_MARKET_ADD_CHECK s) (MARKET_LOADER_STATUS s) (REPLY_DEFERRED_EXEC_ID s)
    (LAST_CLOSED_POSITION_CURSOR s) (LEADER_COMMISSION s) (HIGH_WATER_MARK s) (CURRENT_BATCH_WORK
    s).
Definition set_COPY_SHARES (v : gmap (Addr * CopyToken) LpToken) (s : CopyStore) : CopyStore :=
  mkCopyStore (COPY_CONFIG s) v (WALLET_QUEUE_ITEMS s) (COLLATERAL_INCREASE_QUEUE s)
    (COLLATERAL_DECREASE_QUEUE s) (LAST_INSERTED_INC_QUEUE_ID s) (LAST_INSERTED_DEC_QUEUE_ID s)
    (LAST_PROCESSED_INC_QUEUE_ID s) (LAST_PROCESSED_DEC_QUEUE_ID s) (COPY_TOTALS s)
    (PENDING_DEPOSITS s) (LP_TOKEN_VALUE s) (MARKET_WORK_INFO s) (MARKETS s) (MARKETS_TOKEN s)
    (LAST_MARKET_ADD_CHECK s) (MARKET_LOADER_STATUS s) (REPLY_DEFERRED_EXEC_ID s)
    (LAST_CLOSED_POSITION_CURSOR s) (LEADER_COMMISSION s) (HIGH_WATER_MARK s) (CURRENT_BATCH_WORK
    s).
Definition set_WALLET_QUEUE_ITEMS (v : gmap (Addr * QueuePositionId) unit) (s : CopyStore) : CopyStore :=
  mkCopyStore (COPY_CONFIG s) (COPY_SHARES s) v (COLLATERAL_INCREASE_QUEUE s)
    (COLLATERAL_DECREASE_QUEUE s) (LAST_INSERTED_INC_QUEUE_ID s) (LAST_INSERTED_DEC_QUEUE_ID s)
    (LAST_PROCESSED_INC_QUEUE_ID s) (LAST_PROCESSED_DEC_QUEUE_ID s) (COPY_TOTALS s)
    (PENDING_DEPOSITS s) (LP_TOKEN_VALUE s) (MARKET_WORK_INFO s) (MARKETS s) (MARKETS_TOKEN s)
    (LAST_MARKET_ADD_CHECK s) (MARKET_LOADER_STATUS s) (REPLY_DEFERRED_EXEC_ID s)
    (LAST_CLOSED_POSITION_CURSOR s) (LEADER_COMMISSION s) (HIGH_WATER_MARK s) (CURRENT_BATCH_WORK
    s).
Definition set_COLLATERAL_INCREASE_QUEUE (v : gmap Z IncQueuePosition) (s : CopyStore) : CopyStore :=
  mkCopyStore (COPY_CONFIG s) (COPY_SHARES s) (WALLET_QUEUE_ITEMS s) v (COLLATERAL_DECREASE_QUEUE
    s) (LAST_INSERTED_INC_QUEUE_ID s) (LAST_INSERTED_DEC_QUEUE_ID s) (LAST_PROCESSED_INC_QUEUE_ID
    s) (LAST_PROCESSED_DEC_QUEUE_ID s) (COPY_TOTALS s) (PENDING_DEPOSITS s) (LP_TOKEN_VALUE s)
    (MARKET_WORK_INFO s) (MARKETS s) (MARKETS_TOKEN s) (LAST_MARKET_ADD_CHECK s)
    (MARKET_LOADER_STATUS s) (REPLY_DEFERRED_EXEC_ID s) (LAST_CLOSED_POSITION_CURSOR s)
    (LEADER_COMMISSION s) (HIGH_WATER_MARK s) (CURRENT_BATCH_WORK s).
Definition set_COLLATERAL_DECREASE_QUEUE (v : gmap Z DecQueuePosition) (s : CopyStore) : CopyStore :=
  mkCopyStore (COPY_CONFIG s) (COPY_SHARES s) (WALLET_QUEUE_ITEMS s) (COLLATERAL_INCREASE_QUEUE s)
    v (LAST_INSERTED_INC_QUEUE_ID s) (LAST_INSERTED_DEC_QUEUE_ID s) (LAST_PROCESSED_INC_QUEUE_ID
    s) (LAST_PROCESSED_DEC_QUEUE_ID s) (COPY_TOTALS s) (PENDING_DEPOSITS s) (LP_TOKEN_VALUE s)
    (MARKET_WORK_INFO s) (MARKETS s) (MARKETS_TOKEN s) (LAST_MARKET_ADD_CHECK s)
    (MARKET_LOADER_STATUS s) (REPLY_DEFERRED_EXEC_ID s) (LAST_CLOSED_POSITION_CURSOR s)
    (LEADER_COMMISSION s) (HIGH_WATER_MARK s) (CURRENT_BATCH_WORK s).
Definition set_LAST_INSERTED_INC_QUEUE_ID (v : option Z) (s : CopyStore) : CopyStore :=
  mkCopyStore (COPY_CONFIG s) (COPY_SHARES s) (WALLET_QUEUE_ITEMS s) (COLLATERAL_INCREASE_QUEUE s)
    (COLLATERAL_DECREASE_QUEUE s) v (LAST_INSERTED_DEC_QUEUE_ID s) (LAST_PROCESSED_INC_QUEUE_ID s)
    (LAST_PROCESSED_DEC_QUEUE_ID s) (COPY_TOTALS s) (PENDING_DEPOSITS s) (LP_TOKEN_VALUE s)
    (MARKET_WORK_INFO s) (MARKETS s) (MARKETS_TOKEN s) (LAST_MARKET_ADD_CHECK s)
    (MARKET_LOADER_STATUS s) (REPLY_DEFERRED_EXEC_ID s) (LAST_CLOSED_POSITION_CURSOR s)
    (LEADER_COMMISSION s) (HIGH_WATER_MARK s) (CURRENT_BATCH_WORK s).
Definition set_LAST_INSERTED_DEC_QUEUE_ID (v : option Z) (s : CopyStore) : CopyStore :=
  mkCopyStore (COPY_CONFIG s) (COPY_SHARES s) (WALLET_QUEUE_ITEMS s) (COLLATERAL_INCREASE_QUEUE s)
    (COLLATERAL_DECREASE_QUEUE s) (LAST_INSERTED_INC_QUEUE_ID s) v (LAST_PROCESSED_INC_QUEUE_ID s)
    (LAST_PROCESSED_DEC_QUEUE_ID s) (COPY_TOTALS s) (PENDING_DEPOSITS s) (LP_TOKEN_VALUE s)
    (MARKET_WORK_INFO s) (MARKETS s) (MARKETS_TOKEN s) (LAST_MARKET_ADD_CHECK s)
    (MARKET_LOADER_STATUS s) (REPLY_DEFERRED_EXEC_ID s) (LAST_CLOSED_POSITION_CURSOR s)
    (LEADER_COMMISSION s) (HIGH_WATER_MARK s) (CURRENT_BATCH_WORK s).
Definition set_LAST_PROCESSED_INC_QUEUE_ID (v : option Z) (s : CopyStore) : CopyStore :=
  mkCopyStore (COPY_CONFIG s) (COPY_SHARES s) (WALLET_QUEUE_ITEMS s) (COLLATERAL_INCREASE_QUEUE s)
    (COLLATERAL_DECREASE_QUEUE s) (LAST_INSERTED_INC_QUEUE_ID s) (LAST_INSERTED_DEC_QUEUE_ID s) v
    (LAST_PROCESSED_DEC_QUEUE_ID s) (COPY_TOTALS s) (PENDING_DEPOSITS s) (LP_TOKEN_VALUE s)
    (MARKET_WORK_INFO s) (MARKETS s) (MARKETS_TOKEN s) (LAST_MARKET_ADD_CHECK s)
    (MARKET_LOADER_STATUS s) (REPLY_DEFERRED_EXEC_ID s) (LAST_CLOSED_POSITION_CURSOR s)
    (LEADER_COMMISSION s) (HIGH_WATER_MARK s) (CURRENT_BATCH_WORK s).
Definition set_LAST_PROCESSED_DEC_QUEUE_ID (v : option Z) (s : CopyStore) : CopyStore :=
  mkCopyStore (COPY_CONFIG s) (COPY_SHARES s) (WALLET_QUEUE_ITEMS s) (COLLATERAL_INCREASE_QUEUE s)
    (COLLATERAL_DECREASE_QUEUE s) (LAST_INSERTED_INC_QUEUE_ID s) (LAST_INSERTED_DEC_QUEUE_ID s)
    (LAST_PROCESSED_INC_QUEUE_ID s) v (COPY_TOTALS s) (PENDING_DEPOSITS s) (LP_TOKEN_VALUE s)
    (MARKET_WORK_INFO s) (MARKETS s) (MARKETS_TOKEN s) (LAST_MARKET_ADD_CHECK s)
    (MARKET_LOADER_STATUS s) (REPLY_DEFERRED_EXEC_ID s) (LAST_CLOSED_POSITION_CURSOR s)
    (LEADER_COMMISSION s) (HIGH_WATER_MARK s) (CURRENT_BATCH_WORK s).
Definition set_COPY_TOTALS (v : gmap CopyToken CopyTotals) (s : CopyStore) : CopyStore :=
  mkCopyStore (COPY_CONFIG s) (COPY_SHARES s) (WALLET_QUEUE_ITEMS s) (COLLATERAL_INCREASE_QUEUE s)
    (COLLATERAL_DECREASE_QUEUE s) (LAST_INSERTED_INC_QUEUE_ID s) (LAST_INSERTED_DEC_QUEUE_ID s)
    (LAST_PROCESSED_INC_QUEUE_ID s) (LAST_PROCESSED_DEC_QUEUE_ID s) v (PENDING_DEPOSITS s)
    (LP_TOKEN_VALUE s) (MARKET_WORK_INFO s) (MARKETS s) (MARKETS_TOKEN s) (LAST_MARKET_ADD_CHECK
    s) (MARKET_LOADER_STATUS s) (REPLY_DEFERRED_EXEC_ID s) (LAST_CLOSED_POSITION_CURSOR s)
    (LEADER_COMMISSION s) (HIGH_WATER_MARK s) (CURRENT_BATCH_WORK s).
Definition set_PENDING_DEPOSITS (v : gmap CopyToken Collateral) (s : CopyStore) : CopyStore :=
  mkCopyStore (COPY_CONFIG s) (COPY_SHARES s) (WALLET_QUEUE_ITEMS s) (COLLATERAL_INCREASE_QUEUE s)
    (COLLATERAL_DECREASE_QUEUE s) (LAST_INSERTED_INC_QUEUE_ID s) (LAST_INSERTED_DEC_QUEUE_ID s)
    (LAST_PROCESSED_INC_QUEUE_ID s) (LAST_PROCESSED_DEC_QUEUE_ID s) (COPY_TOTALS s) v
    (LP_TOKEN_VALUE s) (MARKET_WORK_INFO s) (MARKETS s) (MARKETS_TOKEN s) (LAST_MARKET_ADD_CHECK
    s) (MARKET_LOADER_STATUS s) (REPLY_DEFERRED_EXEC_ID s) (LAST_CLOSED_POSITION_CURSOR s)
    (LEADER_COMMISSION s) (HIGH_WATER_MARK s) (CURRENT_BATCH_WORK s).
Definition set_LP_TOKEN_VALUE (v : gmap CopyToken LpTokenValue) (s : CopyStore) : CopyStore :=
  mkCopyStore (COPY_CONFIG s) (COPY_SHARES s) (WALLET_QUEUE_ITEMS s) (COLLATERAL_INCREASE_QUEUE s)
    (COLLATERAL_DECREASE_QUEUE s) (LAST_INSERTED_INC_QUEUE_ID s) (LAST_INSERTED_DEC_QUEUE_ID s)
    (LAST_PROCESSED_INC_QUEUE_ID s) (LAST_PROCESSED_DEC_QUEUE_ID s) (COPY_TOTALS s)
    (PENDING_DEPOSITS s) v (MARKET_WORK_INFO s) (MARKETS s) (MARKETS_TOKEN s)
    (LAST_MARKET_ADD_CHECK s) (MARKET_LOADER_STATUS s) (REPLY_DEFERRED_EXEC_ID s)
    (LAST_CLOSED_POSITION_CURSOR s) (LEADER_COMMISSION s) (HIGH_WATER_MARK s) (CURRENT_BATCH_WORK
    s).
Definition set_MARKET_WORK_INFO (v : gmap string MarketWorkInfo) (s : CopyStore) : CopyStore :=
  mkCopyStore (COPY_CONFIG s) (COPY_SHARES s) (WALLET_QUEUE_ITEMS s) (COLLATERAL_INCREASE_QUEUE s)
    (COLLATERAL_DECREASE_QUEUE s) (LAST_INSERTED_INC_QUEUE_ID s) (LAST_INSERTED_DEC_QUEUE_ID s)
    (LAST_PROCESSED_INC_QUEUE_ID s) (LAST_PROCESSED_DEC_QUEUE_ID s) (COPY_TOTALS s)
    (PENDING_DEPOSITS s) (LP_TOKEN_VALUE s) v (MARKETS s) (MARKETS_TOKEN s) (LAST_MARKET_ADD_CHECK
    s) (MARKET_LOADER_STATUS s) (REPLY_DEFERRED_EXEC_ID s) (LAST_CLOSED_POSITION_CURSOR s)
    (LEADER_COMMISSION s) (HIGH_WATER_MARK s) (CURRENT_BATCH_WORK s).
Definition set_MARKETS (v : gmap string CopyMarketInfo) (s : CopyStore) : CopyStore :=
  mkCopyStore (COPY_CONFIG s) (COPY_SHARES s) (WALLET_QUEUE_ITEMS s) (COLLATERAL_INCREASE_QUEUE s)
    (COLLATERAL_DECREASE_QUEUE s) (LAST_INSERTED_INC_QUEUE_ID s) (LAST_INSERTED_DEC_QUEUE_ID s)
    (LAST_PROCESSED_INC_QUEUE_ID s) (LAST_PROCESSED_DEC_QUEUE_ID s) (COPY_TOTALS s)
    (PENDING_DEPOSITS s) (LP_TOKEN_VALUE s) (MARKET_WORK_INFO s) v (MARKETS_TOKEN s)
    (LAST_MARKET_ADD_CHECK s) (MARKET_LOADER_STATUS s) (REPLY_DEFERRED_EXEC_ID s)
    (LAST_CLOSED_POSITION_CURSOR s) (LEADER_COMMISSION s) (HIGH_WATER_MARK s) (CURRENT_BATCH_WORK
    s).
Definition set_MARKETS_TOKEN (v : gmap (CopyToken * string) CopyMarketInfo) (s : CopyStore) : CopyStore :=
  mkCopyStore (COPY_CONFIG s) (COPY_SHARES s) (WALLET_QUEUE_ITEMS s) (COLLATERAL_INCREASE_QUEUE s)
    (COLLATERAL_DECREASE_QUEUE s) (LAST_INSERTED_INC_QUEUE_ID s) (LAST_INSERTED_DEC_QUEUE_ID s)
    (LAST_PROCESSED_INC_QUEUE_ID s) (LAST_PROCESSED_DEC_QUEUE_ID s) (COPY_TOTALS s)
    (PENDING_DEPOSITS s) (LP_TOKEN_VALUE s) (MARKET_WORK_INFO s) (MARKETS s) v
    (LAST_MARKET_ADD_CHECK s) (MARKET_LOADER_STATUS s) (REPLY_DEFERRED_EXEC_ID s)
    (LAST_CLOSED_POSITION_CURSOR s) (LEADER_COMMISSION s) (HIGH_WATER_MARK s) (CURRENT_BATCH_WORK
    s).
Definition set_LAST_MARKET_ADD_CHECK (v : option Timestamp) (s : CopyStore) : CopyStore :=
  mkCopyStore (COPY_CONFIG s) (COPY_SHARES s) (WALLET_QUEUE_ITEMS s) (COLLATERAL_INCREASE_QUEUE s)
    (COLLATERAL_DECREASE_QUEUE s) (LAST_INSERTED_INC_QUEUE_ID s) (LAST_INSERTED_DEC_QUEUE_ID s)
    (LAST_PROCESSED_INC_QUEUE_ID s) (LAST_PROCESSED_DEC_QUEUE_ID s) (COPY_TOTALS s)
    (PENDING_DEPOSITS s) (LP_TOKEN_VALUE s) (MARKET_WORK_INFO s) (MARKETS s) (MARKETS_TOKEN s) v
    (MARKET_LOADER_STATUS s) (REPLY_DEFERRED_EXEC_ID s) (LAST_CLOSED_POSITION_CURSOR s)
    (LEADER_COMMISSION s) (HIGH_WATER_MARK s) (CURRENT_BATCH_WORK s).
Definition set_MARKET_LOADER_STATUS (v : option MarketLoaderStatus) (s : CopyStore) : CopyStore :=
  mkCopyStore (COPY_CONFIG s) (COPY_SHARES s) (WALLET_QUEUE_ITEMS s) (COLLATERAL_INCREASE_QUEUE s)
    (COLLATERAL_DECREASE_QUEUE s) (LAST_INSERTED_INC_QUEUE_ID s) (LAST_INSERTED_DEC_QUEUE_ID s)
    (LAST_PROCESSED_INC_QUEUE_ID s) (LAST_PROCESSED_DEC_QUEUE_ID s) (COPY_TOTALS s)
    (PENDING_DEPOSITS s) (LP_TOKEN_VALUE s) (MARKET_WORK_INFO s) (MARKETS s) (MARKETS_TOKEN s)
    (LAST_MARKET_ADD_CHECK s) v (REPLY_DEFERRED_EXEC_ID s) (LAST_CLOSED_POSITION_CURSOR s)
    (LEADER_COMMISSION s) (HIGH_WATER_MARK s) (CURRENT_BATCH_WORK s).
Definition set_REPLY_DEFERRED_EXEC_ID (v : option (option DeferredExecId)) (s : CopyStore) : CopyStore :=
  mkCopyStore (COPY_CONFIG s) (COPY_SHARES s) (WALLET_QUEUE_ITEMS s) (COLLATERAL_INCREASE_QUEUE s)
    (COLLATERAL_DECREASE_QUEUE s) (LAST_INSERTED_INC_QUEUE_ID s) (LAST_INSERTED_DEC_QUEUE_ID s)
    (LAST_PROCESSED_INC_QUEUE_ID s) (LAST_PROCESSED_DEC_QUEUE_ID s) (COPY_TOTALS s)
    (PENDING_DEPOSITS s) (LP_TOKEN_VALUE s) (MARKET_WORK_INFO s) (MARKETS s) (MARKETS_TOKEN s)
    (LAST_MARKET_ADD_CHECK s) (MARKET_LOADER_STATUS s) v (LAST_CLOSED_POSITION_CURSOR s)
    (LEADER_COMMISSION s) (HIGH_WATER_MARK s) (CURRENT_BATCH_WORK s).
Definition set_LAST_CLOSED_POSITION_CURSOR (v : gmap string ClosedPositionCursor) (s : CopyStore) : CopyStore :=
  mkCopyStore (COPY_CONFIG s) (COPY_SHARES s) (WALLET_QUEUE_ITEMS s) (COLLATERAL_INCREASE_QUEUE s)
    (COLLATERAL_DECREASE_QUEUE s) (LAST_INSERTED_INC_QUEUE_ID s) (LAST_INSERTED_DEC_QUEUE_ID s)
    (LAST_PROCESSED_INC_QUEUE_ID s) (LAST_PROCESSED_DEC_QUEUE_ID s) (COPY_TOTALS s)
    (PENDING_DEPOSITS s) (LP_TOKEN_VALUE s) (MARKET_WORK_INFO s) (MARKETS s) (MARKETS_TOKEN s)
    (LAST_MARKET_ADD_CHECK s) (MARKET_LOADER_STATUS s) (REPLY_DEFERRED_EXEC_ID s) v
    (LEADER_COMMISSION s) (HIGH_WATER_MARK s) (CURRENT_BATCH_WORK s).
Definition set_LEADER_COMMISSION (v : gmap CopyToken CommissionStats) (s : CopyStore) : CopyStore :=
  mkCopyStore (COPY_CONFIG s) (COPY_SHARES s) (WALLET_QUEUE_ITEMS s) (COLLATERAL_INCREASE_QUEUE s)
    (COLLATERAL_DECREASE_QUEUE s) (LAST_INSERTED_INC_QUEUE_ID s) (LAST_INSERTED_DEC_QUEUE_ID s)
    (LAST_PROCESSED_INC_QUEUE_ID s) (LAST_PROCESSED_DEC_QUEUE_ID s) (COPY_TOTALS s)
    (PENDING_DEPOSITS s) (LP_TOKEN_VALUE s) (MARKET_WORK_INFO s) (MARKETS s) (MARKETS_TOKEN s)
    (LAST_MARKET_ADD_CHECK s) (MARKET_LOADER_STATUS s) (REPLY_DEFERRED_EXEC_ID s)
    (LAST_CLOSED_POSITION_CURSOR s) v (HIGH_WATER_MARK s) (CURRENT_BATCH_WORK s).
Definition set_HIGH_WATER_MARK (v : gmap CopyToken HighWaterMark) (s : CopyStore) : CopyStore :=
  mkCopyStore (COPY_CONFIG s) (COPY_SHARES s) (WALLET_QUEUE_ITEMS s) (COLLATERAL_INCREASE_QUEUE s)
    (COLLATERAL_DECREASE_QUEUE s) (LAST_INSERTED_INC_QUEUE_ID s) (LAST_INSERTED_DEC_QUEUE_ID s)
    (LAST_PROCESSED_INC_QUEUE_ID s) (LAST_PROCESSED_DEC_QUEUE_ID s) (COPY_TOTALS s)
    (PENDING_DEPOSITS s) (LP_TOKEN_VALUE s) (MARKET_WORK_INFO s) (MARKETS s) (MARKETS_TOKEN s)
    (LAST_MARKET_ADD_CHECK s) (MARKET_LOADER_STATUS s) (REPLY_DEFERRED_EXEC_ID s)
    (LAST_CLOSED_POSITION_CURSOR s) (LEADER_COMMISSION s) v (CURRENT_BATCH_WORK s).
Definition set_CURRENT_BATCH_WORK (v : option BatchWork) (s : CopyStore) : CopyStore :=
  mkCopyStore (COPY_CONFIG s) (COPY_SHARES s) (WALLET_QUEUE_ITEMS s) (COLLATERAL_INCREASE_QUEUE s)
    (COLLATERAL_DECREASE_QUEUE s) (LAST_INSERTED_INC_QUEUE_ID s) (LAST_INSERTED_DEC_QUEUE_ID s)
    (LAST_PROCESSED_INC_QUEUE_ID s) (LAST_PROCESSED_DEC_QUEUE_ID s) (COPY_TOTALS s)
    (PENDING_DEPOSITS s) (LP_TOKEN_VALUE s) (MARKET_WORK_INFO s) (MARKETS s) (MARKETS_TOKEN s)
    (LAST_MARKET_ADD_CHECK s) (MARKET_LOADER_STATUS s) (REPLY_DEFERRED_EXEC_ID s)
    (LAST_CLOSED_POSITION_CURSOR s) (LEADER_COMMISSION s) (HIGH_WATER_MARK s) v.

Definition copy_handler (A : Type) : Type := handler CopyStore error A.

(** Saving one entry of a map. *)
Definition save_totals_of (token : CopyToken) (t : CopyTotals) : copy_handler unit :=
  hmod (fun s => set_COPY_TOTALS (<[token := t]> (COPY_TOTALS s)) s).
Definition save_lp_value (token : CopyToken) (v : LpTokenValue) : copy_handler unit :=
  hmod (fun s => set_LP_TOKEN_VALUE (<[token := v]> (LP_TOKEN_VALUE s)) s).
Definition save_work_info (id : MarketId) (w : MarketWorkInfo) : copy_handler unit :=
  hmod (fun s => set_MARKET_WORK_INFO (<[mid_encoded id := w]> (MARKET_WORK_INFO s)) s).
Definition save_inc_item (id : Z) (p : IncQueuePosition) : copy_handler unit :=
  hmod (fun s => set_COLLATERAL_INCREASE_QUEUE (<[id := p]> (COLLATERAL_INCREASE_QUEUE s)) s).
Definition save_dec_item (id : Z) (p : DecQueuePosition) : copy_handler unit :=
  hmod (fun s => set_COLLATERAL_DECREASE_QUEUE (<[id := p]> (COLLATERAL_DECREASE_QUEUE s)) s).
Definition save_wallet_item (wallet : Addr) (id : QueuePositionId) : copy_handler unit :=
  hmod (fun s => set_WALLET_QUEUE_ITEMS (<[(wallet, id) := tt]> (WALLET_QUEUE_ITEMS s)) s).
Definition save_batch_work (w : BatchWork) : copy_handler unit := hmod (set_CURRENT_BATCH_WORK (Some w)).

(** Loading with [unwrap_or_default], and [may_load(..)?.flatten()]. *)
Definition totals_of (token : CopyToken) (s : CopyStore) : CopyTotals :=
  default copy_totals_default (COPY_TOTALS s !! token).
Definition pending_deposits_of (token : CopyToken) (s : CopyStore) : Collateral :=
  default 0 (PENDING_DEPOSITS s !! token).
Definition commission_of (token : CopyToken) (s : CopyStore) : CommissionStats :=
  default commission_default (LEADER_COMMISSION s !! token).
Definition work_info_of (id : MarketId) (s : CopyStore) : MarketWorkInfo :=
  default market_work_default (MARKET_WORK_INFO s !! mid_encoded id).
Definition deferred_exec_of (s : CopyStore) : option DeferredExecId :=
  mjoin (REPLY_DEFERRED_EXEC_ID s).

Section Definitions.
Context {CW : CosmwasmStd}.
(** [from_json] at [ExecuteMsg]. *)
Context (copy_from_json : Binary -> res CopyExecute).
Context (env : CopyEnv).

(** ** types.rs *)

Definition collateral_to_shares (token_value : Collateral) (funds : Collateral) : res LpToken :=
  new_shares <- std (dec_div funds token_value);
  of_option (AnyhowError "tokens is zero in collateral_to_shares") (nonzero_new new_shares).
Definition copy_shares_to_collateral (token_value : Collateral) (shares : LpToken) : res Collateral :=
  funds <- std (dec_mul token_value shares);
  of_option (AnyhowError "funds is zero in shares_to_collateral") (nonzero_new funds).

(** [HighWaterMark::add_pnl]: the commission, and the mark it leaves. *)
Definition add_pnl (h : HighWaterMark) (pnl : Signed) (rate : Decimal256) :
    res (Collateral * HighWaterMark) :=
  current <- signed_checked_add (hwm_current h) pnl;
  if signed_leb current (into_signed (hwm_hwm h)) then Ok (0, mkHighWaterMark current (hwm_hwm h))
  else
    profit <- signed_checked_sub current (into_signed (hwm_hwm h));
    hwm <- of_option (AnyhowError "Impossible: current is negative") (try_into_non_negative_value current);
    c <- checked_mul_number profit (into_signed rate);
    commission <- of_option (AnyhowError "Impossible: commission is negative") (try_into_non_negative_value c);
    Ok (commission, mkHighWaterMark current hwm).

(** [Totals::add_collateral]. *)
Definition totals_add_collateral (t : CopyTotals) (funds token_value : Collateral) :
    res (LpToken * CopyTotals) :=
  new_shares <- collateral_to_shares token_value funds;
  collateral <- ud_checked_add (total_collateral t) funds;
  shares <- ud_checked_add (total_shares t) new_shares;
  Ok (new_shares, mkCopyTotals collateral shares).

(** [Token::is_same] and [Token::ensure_matches]. *)
Definition is_same (t : CopyToken) (token : Token) : bool :=
  match token, t with
  | TokenCw20 addr _, CopyCw20 a => String.eqb a addr
  | TokenNative denom _, CopyNative d => String.eqb d denom
  | _, _ => false
  end.
Definition copy_ensure_matches (t : CopyToken) (token : Token) : res unit :=
  match t, token with
  | CopyNative _, TokenCw20 _ _ => Err (AnyhowError "Provided native funds, but market requires a CW20")
  | CopyNative denom1, TokenNative denom2 _ =>
      ensure (String.eqb denom1 denom2) (AnyhowError "Wrong denom provided")
  | CopyCw20 addr1, TokenCw20 addr2 _ => ensure (String.eqb addr1 addr2) (AnyhowError "Wrong CW20 used")
  | CopyCw20 _, TokenNative _ _ => Err (AnyhowError "Provided CW20 funds, but market requires native funds")
  end.

(** ** common.rs: the markets *)

Definition to_token (token : Token) : res CopyToken :=
  match token with
  | TokenCw20 addr _ => addr <- std (addr_validate addr); Ok (CopyCw20 addr)
  | TokenNative denom _ => Ok (CopyNative denom)
  end.

(** Whether it comes from the cache. *)
Definition copy_market_info_inner (market_id : MarketId) (s : CopyStore) : res (CopyMarketInfo * bool) :=
  match MARKETS s !! mid_encoded market_id with
  | Some info => Ok (info, true)
  | None =>
      market_addr <- ce_market_addr env market_id;
      status <- ce_status env market_addr;
      Ok (mkCopyMarketInfo (status_market_id status) market_addr (status_collateral status), false)
  end.

Definition copy_cache_market_info (market_id : MarketId) : copy_handler CopyMarketInfo :=
  '(market, is_cached) <~ hask (copy_market_info_inner market_id);
  if is_cached then hret market
  else
    let key := mid_encoded (cmi_id market) in
    hmod (fun s => set_MARKETS (<[key := market]> (MARKETS s)) s);;;
    token <~ hlift (to_token (cmi_token market));
    hmod (fun s => set_MARKETS_TOKEN (<[(token, key) := market]> (MARKETS_TOKEN s)) s);;;
    hret market.

(** The loop over a page of markets; the last id seen. *)
Fixpoint load_markets (markets : list MarketId) (last_seen : option MarketId) :
    copy_handler (option MarketId) :=
  match markets with
  | [] => hret last_seen
  | market :: markets =>
      result <~ copy_cache_market_info market;
      load_markets markets (Some (cmi_id result))
  end.

Definition checked_markets_now : copy_handler unit := hmod (set_LAST_MARKET_ADD_CHECK (Some (ce_now env))).

(** The page after [start_after]. *)
Definition load_market_page (start_after : option MarketId) : copy_handler unit :=
  markets <~ hlift (ce_markets env start_after);
  if is_empty markets then
    checked_markets_now;;;
    match start_after with
    | Some last_seen => hmod (set_MARKET_LOADER_STATUS (Some (LoaderFinished last_seen)))
    | None => hret tt
    end
  else
    last_seen <~ load_markets markets None;
    match last_seen with
    | Some last_seen => hmod (set_MARKET_LOADER_STATUS (Some (LoaderOnGoing last_seen)))
    | None => hret tt
    end;;;
    checked_markets_now.

Definition batched_stored_market_info : copy_handler unit :=
  status <~ hget (fun s => default LoaderNotStarted (MARKET_LOADER_STATUS s));
  match status with
  | LoaderNotStarted => load_market_page None
  | LoaderOnGoing last_seen => load_market_page (Some last_seen)
  | LoaderFinished last_seen =>
      factory_market_last_added <~ hlift (ce_last_market_added env);
      match factory_market_last_added with
      | Some factory_market_last_added =>
          market_added_at <~ hget LAST_MARKET_ADD_CHECK;
          match market_added_at with
          | Some market_added_at =>
              if market_added_at <? factory_market_last_added then load_market_page (Some last_seen)
              else checked_markets_now
          | None =>
              herr (AnyhowError "Impossible case: LAST_MARKET_ADD_CHECK is not loaded in finished step")
          end
      | None => hret tt
      end
  end.

Definition copy_market (market_id : MarketId) (s : CopyStore) : res CopyMarketInfo :=
  of_option (AnyhowError "MARKETS store is empty") (MARKETS s !! mid_encoded market_id).

(** [MARKETS_TOKEN.prefix(token).range(.., Ascending)]. *)
Definition load_market_ids_with_token (s : CopyStore) (token : CopyToken) (start_from : option MarketId) :
    list CopyMarketInfo :=
  map snd (range_asc (fun k => match start_from with
                               | Some m => negb (String.ltb k (mid_encoded m))
                               | None => true
                               end) (prefix_of token (MARKETS_TOKEN s))).
Definition get_first_full_token_info (s : CopyStore) (token : CopyToken) : res Token :=
  match load_market_ids_with_token s token None with
  | market_info :: _ => Ok (cmi_token market_info)
  | [] => Err (AnyhowError "token not supported by factory")
  end.

Definition load_lp_token_value (s : CopyStore) (token : CopyToken) : res Collateral :=
  v <- of_option (AnyhowError "LP_TOKEN_VALUE not computed yet") (LP_TOKEN_VALUE s !! token);
  Ok (lv_value v).

(** ** common.rs: queries to a market *)

(** The token page, and the id to start the next one after. *)
Definition query_tokens (market_addr : Addr) (start_after : option string) :
    res (list PositionId * option string) :=
  tokens <- ce_tokens env market_addr start_after;
  Ok (tokens, (fun id : Z => pretty id) <$> last tokens).
Definition copy_query_positions (market_addr : Addr) (position_ids : list PositionId) :
    res (list PositionQueryResponse) :=
  r <- ce_positions env market_addr position_ids;
  _ <- ensure (is_empty (pr_pending_close r)) (AnyhowError "pending_close is not empty in positions response");
  _ <- ensure (is_empty (pr_closed r)) (AnyhowError "closed is not empty in positions response");
  Ok (pr_positions r).

Definition copy_estimate_crank_fee (market : CopyMarketInfo) : res Collateral :=
  o <- ce_crank_fee env (cmi_addr market);
  crank_fee <- of_option (AnyhowError "No Config found on market contract") o;
  half <- panics "from_ratio" (dec_from_ratio 5 10);
  fees <- checked_mul_dec (cf_crank_fee_surcharge crank_fee) half;
  fees <- ud_checked_add fees (cf_crank_fee_charged crank_fee);
  price <- ce_spot_price env (cmi_addr market);
  usd_to_collateral price fees.

(** ** common.rs: the queues *)

Definition next_queue_id (last : option Z) : res Z :=
  match last with Some queue_id => u64_checked (queue_id + 1) | None => Ok 0 end.

Definition get_next_inc_queue_id : copy_handler Z :=
  queue_id <~ hask (fun s => next_queue_id (LAST_INSERTED_INC_QUEUE_ID s));
  hmod (set_LAST_INSERTED_INC_QUEUE_ID (Some queue_id));;;
  hret queue_id.
Definition get_next_dec_queue_id : copy_handler Z :=
  queue_id <~ hask (fun s => next_queue_id (LAST_INSERTED_DEC_QUEUE_ID s));
  hmod (set_LAST_INSERTED_DEC_QUEUE_ID (Some queue_id));;;
  hret queue_id.

Definition get_current_processed_dec_queue_id (s : CopyStore) : res (option (Z * DecQueuePosition)) :=
  queue_id <- next_queue_id (LAST_PROCESSED_DEC_QUEUE_ID s);
  Ok (pair queue_id <$> COLLATERAL_DECREASE_QUEUE s !! queue_id).
Definition get_current_processed_inc_queue_id (s : CopyStore) : res (option (Z * IncQueuePosition)) :=
  queue_id <- next_queue_id (LAST_PROCESSED_INC_QUEUE_ID s);
  Ok (pair queue_id <$> COLLATERAL_INCREASE_QUEUE s !! queue_id).

Definition get_current_queue_element (s : CopyStore) : res QueuePositionId :=
  inc_queue <- get_current_processed_inc_queue_id s;
  match inc_queue with
  | Some (queue_id, _) => Ok (IncQueuePositionId queue_id)
  | None =>
      dec_queue <- get_current_processed_dec_queue_id s;
      match dec_queue with
      | Some (queue_id, _) => Ok (DecQueuePositionId queue_id)
      | None => Err (AnyhowError "No queue item found to process")
      end
  end.

(** ** execute.rs: the attached funds *)

(** [Funds]: what the message brought. *)
Inductive CopyFunds :=
| CopyNoFunds
| CopyWithFunds (token : CopyToken) (amount : Z).

Definition copy_require_none (funds : CopyFunds) : res unit :=
  match funds with
  | CopyNoFunds => Ok tt
  | CopyWithFunds _ _ => Err (AnyhowError "Unnecessary funds sent")
  end.
Definition require_token (funds : CopyFunds) : res CopyToken :=
  match funds with
  | CopyNoFunds => Err (AnyhowError "Message requires attached funds, but none were provided")
  | CopyWithFunds token _ => Ok token
  end.
Definition copy_require_some (funds : CopyFunds) (market_token : Token) : res Collateral :=
  match funds with
  | CopyNoFunds => Err (AnyhowError "Message requires attached funds, but none were provided")
  | CopyWithFunds token amount =>
      _ <- copy_ensure_matches token market_token;
      collateral <- token_from_u128 market_token amount;
      of_option (AnyhowError "Impossible 0 collateral provided") (nonzero_new collateral)
  end.

Definition copy_handle_funds (info : MessageInfo) (msg : CopyExecute) :
    res (CopyFunds * CopyExecute * Addr) :=
  match msg with
  | CopyReceive sender amount msg =>
      if is_empty (info_funds info) then
        msg <- copy_from_json msg;
        sender <- std (addr_validate sender);
        Ok (CopyWithFunds (CopyCw20 (info_sender info)) amount, msg, sender)
      else Err (AnyhowError "Cannot attach funds when performing a CW20 receive")
  | _ =>
      match info_funds info with
      | [] => Ok (CopyNoFunds, msg, info_sender info)
      | [(denom, amount)] => Ok (CopyWithFunds (CopyNative denom) amount, msg, info_sender info)
      | _ => Err (AnyhowError "Multiple funds provided, messages only support one fund denom")
      end
  end.

(** ** execute.rs: configuration *)

Definition copy_config_check (c : CopyConfig) : res unit :=
  low <- panics "from_ratio" (dec_from_ratio 1 100);
  high <- panics "from_ratio" (dec_from_ratio 30 100);
  if (128 <? Z.of_nat (String.length (cyc_name c))) then
    Err (AnyhowError "Description should not be more than 128 characters")
  else if cyc_commission_rate c <? low then Err (AnyhowError "Commission rate less than 1 percent")
  else if high <? cyc_commission_rate c then Err (AnyhowError "Commission rate greater than 30 percent")
  else Ok tt.
Definition ensure_leader (c : CopyConfig) (sender : Addr) : res unit :=
  ensure (String.eqb (cyc_leader c) sender) (AnyhowError "Unautorized access").
Definition ensure_factory (c : CopyConfig) (sender : Addr) : res unit :=
  ensure (String.eqb (cyc_factory c) sender) (AnyhowError "Unautorized access").

Definition leader_update_config (u : CopyConfigUpdate) : copy_handler (list CopyMsg) :=
  c <~ hget COPY_CONFIG;
  let c := mkCopyConfig (cyc_factory c) (cyc_admin c) (cyc_pending_admin c) (cyc_leader c)
    (default (cyc_name c) (cyu_name u)) (default (cyc_description c) (cyu_description u))
    (default (cyc_commission_rate c) (cyu_commission_rate u)) (cyc_created_at c)
    (cyc_allowed_rebalance_queries c) (cyc_allowed_lp_token_queries c) in
  hlift (copy_config_check c);;;
  hmod (set_COPY_CONFIG c);;;
  hret [].

Definition factory_update_config (u : FactoryConfigUpdate) : copy_handler (list CopyMsg) :=
  c <~ hget COPY_CONFIG;
  hmod (set_COPY_CONFIG (mkCopyConfig (cyc_factory c) (cyc_admin c) (cyc_pending_admin c)
    (cyc_leader c) (cyc_name c) (cyc_description c) (cyc_commission_rate c) (cyc_created_at c)
    (default (cyc_allowed_rebalance_queries c) (fcu_allowed_rebalance_queries u))
    (default (cyc_allowed_lp_token_queries c) (fcu_allowed_lp_token_queries u))));;;
  hret [].

(** ** execute.rs: what joins a queue *)

Definition leader_withdrawal (requested_funds : Collateral) (token : CopyToken) :
    copy_handler (list CopyMsg) :=
  commission <~ hget (commission_of token);
  market_token <~ hask (fun s => get_first_full_token_info s token);
  hensure (requested_funds <=? com_unclaimed commission) (AnyhowError "not enough collateral");;;
  unclaimed <~ hlift (ud_checked_sub (com_unclaimed commission) requested_funds);
  claimed <~ hlift (ud_checked_add (com_claimed commission) requested_funds);
  hmod (fun s => set_LEADER_COMMISSION (<[token := mkCommissionStats unclaimed claimed]> (LEADER_COMMISSION s)) s);;;
  c <~ hget COPY_CONFIG;
  msg <~ hlift (into_transfer_msg market_token (cyc_leader c) requested_funds);
  msg <~ hlift (of_option (AnyhowError "Collateral amount would be less than the chain's minimum representation") msg);
  hret [CopyPay msg].

Definition copy_deposit (sender : Addr) (funds : Collateral) (token : CopyToken) :
    copy_handler (list CopyMsg) :=
  inc_queue_id <~ get_next_inc_queue_id;
  save_wallet_item sender (IncQueuePositionId inc_queue_id);;;
  save_inc_item inc_queue_id (mkIncQueuePosition (IncDeposit funds token) sender NotProcessed);;;
  pending_deposits <~ hget (pending_deposits_of token);
  pending_deposits <~ hlift (ud_checked_add pending_deposits funds);
  hmod (fun s => set_PENDING_DEPOSITS (<[token := pending_deposits]> (PENDING_DEPOSITS s)) s);;;
  hret [].

Definition copy_withdraw (wallet : Addr) (shares : LpToken) (token : CopyToken) :
    copy_handler (list CopyMsg) :=
  actual_shares <~ hget (fun s => COPY_SHARES s !! (wallet, token));
  match actual_shares with
  | Some actual_shares =>
      hensure (negb ((actual_shares <? shares) && negb (shares =? actual_shares)))
        (AnyhowError "Requesting more withdrawal than balance")
  | None => herr (AnyhowError "No shares found")
  end;;;
  dec_queue_id <~ get_next_dec_queue_id;
  save_wallet_item wallet (DecQueuePositionId dec_queue_id);;;
  save_dec_item dec_queue_id (mkDecQueuePosition (DecWithdrawal shares token) wallet NotProcessed);;;
  hret [].

Definition increase_collateral_response (queue_position : IncQueuePosition) : copy_handler (list CopyMsg) :=
  inc_queue_id <~ get_next_inc_queue_id;
  c <~ hget COPY_CONFIG;
  save_wallet_item (cyc_leader c) (IncQueuePositionId inc_queue_id);;;
  save_inc_item inc_queue_id queue_position;;;
  hret [].
Definition decrease_collateral_response (queue_position : DecQueuePosition) : copy_handler (list CopyMsg) :=
  dec_queue_id <~ get_next_dec_queue_id;
  c <~ hget COPY_CONFIG;
  save_wallet_item (cyc_leader c) (DecQueuePositionId dec_queue_id);;;
  save_dec_item dec_queue_id queue_position;;;
  hret [].

(** The queue item of a leader's message: the messages that take collateral
    out of the pool, the other updates of a position, and those that may
    bring collateral back. *)
Definition leader_collateral_item (message : ExecuteMsg) (collateral : option Collateral) :
    option (res DecMarketItem) :=
  let supplied text k := match collateral with
                         | Some collateral => Ok (k collateral)
                         | None => Err (AnyhowError text)
                         end in
  match message with
  | OpenPositionMsg slippage_assert leverage direction stop_loss_override take_profit =>
      Some (supplied "No supplied collateral for opening position"%string (fun collateral =>
        DecOpenPosition collateral slippage_assert leverage direction stop_loss_override take_profit))
  | UpdatePositionAddCollateralImpactLeverage id =>
      Some (supplied "No supplied collateral for updating position"%string (fun collateral =>
        DecAddCollateralImpactLeverage collateral id))
  | UpdatePositionAddCollateralImpactSize id slippage_assert =>
      Some (supplied "No supplied collateral for updating position"%string (fun collateral =>
        DecAddCollateralImpactSize collateral id slippage_assert))
  | PlaceLimitOrderMsg trigger_price leverage direction stop_loss_override take_profit =>
      Some (supplied "No supplied collateral for opening position"%string (fun collateral =>
        DecPlaceLimitOrder collateral trigger_price leverage direction stop_loss_override take_profit))
  | _ => None
  end.
Definition leader_update_item (message : ExecuteMsg) : option DecMarketItem :=
  match message with
  | UpdatePositionLeverage id leverage slippage_assert =>
      Some (DecUpdateLeverage id leverage slippage_assert)
  | UpdatePositionTakeProfitPrice id price => Some (DecUpdateTakeProfitPrice id price)
  | UpdatePositionStopLossPrice id stop_loss => Some (DecUpdateStopLossPrice id stop_loss)
  | _ => None
  end.
Definition leader_increase_item (message : ExecuteMsg) : option IncMarketItem :=
  match message with
  | UpdatePositionRemoveCollateralImpactLeverage id amount =>
      Some (IncRemoveCollateralImpactLeverage id amount)
  | UpdatePositionRemoveCollateralImpactSize id amount slippage_assert =>
      Some (IncRemoveCollateralImpactSize id amount slippage_assert)
  | CancelLimitOrderMsg order_id => Some (IncCancelLimitOrder order_id)
  | ClosePositionMsg id slippage_assert => Some (IncClosePosition id slippage_assert)
  | _ => None
  end.

(** The messages none of these takes are answered with an event only. *)
Definition execute_leader_msg (market_id : MarketId) (message : ExecuteMsg)
    (collateral : option Collateral) : copy_handler (list CopyMsg) :=
  market_info <~ hask (copy_market market_id);
  token <~ hlift (to_token (cmi_token market_info));
  match collateral with
  | Some collateral =>
      totals <~ hget (totals_of token);
      hensure (collateral <=? total_collateral totals) (AnyhowError "not enough collateral")
  | None => hret tt
  end;;;
  c <~ hget COPY_CONFIG;
  let decrease item :=
    decrease_collateral_response (mkDecQueuePosition (DecMarket market_id token item) (cyc_leader c) NotProcessed) in
  match leader_collateral_item message collateral, leader_update_item message, leader_increase_item message with
  | Some item, _, _ => item <~ hlift item; decrease item
  | None, Some item, _ => decrease item
  | None, None, Some item =>
      increase_collateral_response (mkIncQueuePosition (IncMarket market_id token item) (cyc_leader c) NotProcessed)
  | None, None, None => hret []
  end.

(** ** lib.rs: instantiate *)

Definition copy_instantiate (factory : Addr) (leader : RawAddr) (u : CopyConfigUpdate)
    (p : FactoryConfigUpdate) : res CopyStore :=
  leader <- std (addr_validate leader);
  rate <- match cyu_commission_rate u with
          | Some rate => Ok rate
          | None => panics "from_ratio" (dec_from_ratio 10 100)
          end;
  let config := mkCopyConfig factory factory None leader (default "Name"%string (cyu_name u))
    (default "Description"%string (cyu_description u)) rate (ce_now env)
    (default 30 (fcu_allowed_rebalance_queries p)) (default 30 (fcu_allowed_lp_token_queries p)) in
  _ <- copy_config_check config;
  Ok (mkCopyStore config ∅ ∅ ∅ ∅ None None None None ∅ ∅ ∅ ∅ ∅ ∅ None None None ∅ ∅ ∅ None).

(** ** query.rs *)

Definition DEFAULT_QUERY_LIMIT : Z := 10.
Definition copy_limit (limit : option Z) : nat :=
  Z.to_nat (Z.min (default DEFAULT_QUERY_LIMIT limit) DEFAULT_QUERY_LIMIT).

Record TokenStatus := mkTokenStatus {
  ts_token : CopyToken; ts_collateral : Collateral; ts_shares : LpToken;
  ts_unclaimed_commission : Collateral; ts_claimed_commission : Collateral }.
(** [start_after] is the upper bound of the ascending range. *)
Definition leader_status (s : CopyStore) (start_after : option CopyToken) (limit : option Z) :
    list TokenStatus :=
  map (fun '(token, totals) =>
         let commission := commission_of token s in
         mkTokenStatus token (total_collateral totals) (total_shares totals)
           (com_unclaimed commission) (com_claimed commission))
    (take (copy_limit limit)
       (range_asc (fun k => match start_after with Some t => key_lt k t | None => true end)
          (COPY_TOTALS s))).

(** The shares of a wallet, and the token to continue after. *)
Definition copy_balance (s : CopyStore) (wallet : Addr) (start_after : option CopyToken)
    (limit : option Z) : list (CopyToken * LpToken) * option CopyToken :=
  let balance :=
    take (copy_limit limit)
      (range_desc (fun k => match start_after with Some t => key_lt k t | None => true end)
         (prefix_of wallet (COPY_SHARES s))) in
  (balance, fst <$> last balance).

(** [QueueItemStatus]: an item with its id, and its status. *)
Inductive QueueItem :=
| IncCollateral (item : IncQueueItem) (id : Z)
| DecCollateral (item : DecQueueItem) (id : Z).
Definition inc_into_queue_item (p : IncQueuePosition) (id : Z) : QueueItem * ItemStatus :=
  (IncCollateral (inc_item p) id, inc_status p).
Definition dec_into_queue_item (p : DecQueuePosition) (id : Z) : QueueItem * ItemStatus :=
  (DecCollateral (dec_item p) id, dec_status p).

Definition queue_item_status (s : CopyStore) (id : QueuePositionId) : res (QueueItem * ItemStatus) :=
  panics "Logic error in queue_status: PENDING_QUEUE_ITEMS.may_load returned None"
    match id with
    | IncQueuePositionId id => (fun p => inc_into_queue_item p id) <$> COLLATERAL_INCREASE_QUEUE s !! id
    | DecQueuePositionId id => (fun p => dec_into_queue_item p id) <$> COLLATERAL_DECREASE_QUEUE s !! id
    end.
Fixpoint queue_item_statuses (s : CopyStore) (ids : list QueuePositionId) :
    res (list (QueueItem * ItemStatus)) :=
  match ids with
  | [] => Ok []
  | id :: ids => item <- queue_item_status s id; items <- queue_item_statuses s ids; Ok (item :: items)
  end.

Record QueueResp := mkQueueResp {
  qr_items : list (QueueItem * ItemStatus);
  qr_inc_processed_till : option Z;
  qr_dec_processed_till : option Z }.
Definition queue_status (s : CopyStore) (wallet : Addr) (start_after : option QueuePositionId)
    (limit : option Z) : res QueueResp :=
  items <- queue_item_statuses s
    (take (copy_limit limit)
       (map fst (range_desc (fun k => match start_after with Some i => key_lt k i | None => true end)
                   (prefix_of wallet (WALLET_QUEUE_ITEMS s)))));
  Ok (mkQueueResp items (LAST_PROCESSED_INC_QUEUE_ID s) (LAST_PROCESSED_DEC_QUEUE_ID s)).
End Definitions.
