(* ===== verification/CopyTradingWork.v ===== *)
(** * The copy trading contract: its work

    [contracts/copy_trading/src/work.rs], the working half of [execute.rs],
    and [reply.rs]: which work is next, the value of a share from the
    positions and orders of every market (computed, then validated, in batches
    bounded by a query budget), the settling of closed positions with the
    leader's commission, the queue items and the deferred executions they wait
    for.

    A loop over pages of answers has as fuel the query budget that ends it,
    with room to spare; the loop over limit orders of [process_single_market]
    does not count its queries and gets what the block's gas allows. *)

From stdpp Require Import base option gmap strings list.
From Stdlib Require Import ZArith Lia.
From S2P Require Import Prelude Storage Index Cosmwasm Types Number Market Time Price Token Config Position Trading State PositionStore PositionToken Entry Factory Queries CopyTrading.
Local Open Scope Z_scope.

Definition REPLY_ID_OPEN_POSITION : Z := 0.
Definition REPLY_ID_ADD_COLLATERAL_IMPACT_LEVERAGE : Z := 1.
Definition REPLY_ID_ADD_COLLATERAL_IMPACT_SIZE : Z := 2.
Definition REPLY_ID_REMOVE_COLLATERAL_IMPACT_LEVERAGE : Z := 3.
Definition REPLY_ID_REMOVE_COLLATERAL_IMPACT_SIZE : Z := 4.
Definition REPLY_ID_UPDATE_POSITION_LEVERAGE : Z := 5.
Definition REPLY_ID_UPDATE_POSITION_TAKE_PROFIT_PRICE : Z := 6.
Definition REPLY_ID_UPDATE_POSITION_STOP_LOSS_PRICE : Z := 7.
Definition REPLY_ID_PLACE_LIMIT_ORDER : Z := 8.
Definition REPLY_ID_CANCEL_LIMIT_ORDER : Z := 9.
Definition REPLY_ID_CLOSE_POSITION : Z := 10.

Definition SIX_HOURS_IN_SECONDS : Z := 6 * 60 * 60.
(** ["0.00001"]. *)
Definition BALANCE_EPSILON : Decimal256 := 10000000000000.

(** [x += 1] on a [u32]. *)
Definition u32_succ (x : Z) : res Z :=
  if x <? 2 ^ 32 - 1 then Ok (x + 1) else Err (Panic "attempt to add with overflow").
Definition out_of_gas {A} : res A := Err (Panic "out of gas").

(** Where a closed position stands in its owner's history. *)
Definition closed_position_cursor (p : ClosedPosition) : ClosedPositionCursor :=
  mkClosedPositionCursor (cp_close_time p) (cp_id p).

Section Definitions.
Context {CW : CosmwasmStd}.
Context (copy_from_json : Binary -> res CopyExecute).
Context (env : CopyEnv).

(** ** work.rs: which work is next *)

(** Work for a deferred execution that is not pending any more. *)
Definition settled_deferred_work (s : CopyStore) (market_id : MarketId) (id : DeferredExecId) :
    res WorkResp :=
  market <- of_option (AnyhowError "MARKETS state is empty") (MARKETS s !! mid_encoded market_id);
  response <- ce_deferred env (cmi_addr market) id;
  match response with
  | DeferredFound item => Ok (if is_pending (de_status item) then CopyNoWork else CopyHasWork HandleDeferredExecId)
  | DeferredNotFound => Err (AnyhowError "Impossible: Deferred exec id not found")
  end.

Definition get_dec_deferred_work (s : CopyStore) (deferred_exec_id : DeferredExecId) : res WorkResp :=
  queue_item <- get_current_processed_dec_queue_id s;
  match queue_item with
  | None => Err (AnyhowError "Impossible: Work handle not able to find queue item")
  | Some (_, queue_item) =>
      match dec_item queue_item with
      | DecMarket id _ _ => settled_deferred_work s id deferred_exec_id
      | DecWithdrawal _ _ => Err (AnyhowError "Impossible: Deferred work handler got non market item")
      end
  end.
Definition get_inc_deferred_work (s : CopyStore) (deferred_exec_id : DeferredExecId) : res WorkResp :=
  queue_item <- get_current_processed_inc_queue_id s;
  match queue_item with
  | None => Err (AnyhowError "Impossible: Inc Work handle not able to find queue item")
  | Some (_, queue_item) =>
      match inc_item queue_item with
      | IncMarket id _ _ => settled_deferred_work s id deferred_exec_id
      | IncDeposit _ _ => Err (AnyhowError "Impossible: Deferred Inc work handler got non market item")
      end
  end.

(** The loops over the token's markets, which must not be inside a batch. *)
Fixpoint find_market_work (P : MarketProgress -> bool) (s : CopyStore) (markets : list CopyMarketInfo) :
    res bool :=
  match markets with
  | [] => Ok false
  | market :: markets =>
      let work := work_info_of (cmi_id market) s in
      _ <- assert (negb (is_batch_operation (mw_status work)));
      if P (mw_status work) then Ok true else find_market_work P s markets
  end.

(** What the pool accounts for of the contract's balance. *)
Definition accounted (token : CopyToken) (s : CopyStore) : res Collateral :=
  t <- ud_checked_add (total_collateral (totals_of token s)) (pending_deposits_of token s);
  ud_checked_add t (com_unclaimed (commission_of token s)).

Definition check_balance_work (s : CopyStore) (token : CopyToken) : res WorkResp :=
  market_token <- get_first_full_token_info s token;
  contract_balance <- query_balance market_token (ce_bank env) (ce_cw20 env);
  total <- accounted token s;
  diff <- ud_diff total contract_balance;
  if diff <=? BALANCE_EPSILON then
    started <- find_market_work (fun p => negb (not_started_yet p)) s (load_market_ids_with_token s token None);
    Ok (CopyHasWork (if (started : bool) then ResetStats token else ComputeLpTokenValue token None None))
  else
    rebalance_amount <- ud_checked_sub contract_balance total;
    rebalance_amount <-
      of_option (AnyhowError "Impossible: rebalance_amount is zero") (nonzero_new rebalance_amount);
    Ok (CopyHasWork (RebalanceWork token rebalance_amount None)).

(** The work for the item a queue is at: first for the deferred execution it
    waits for, then for the share value it needs, then the item itself. *)
Definition queue_item_work (s : CopyStore) (queue_id : QueuePositionId) (status : ItemStatus)
    (requires_token : option CopyToken) (deferred_work : DeferredExecId -> res WorkResp) : res WorkResp :=
  let process :=
    match in_progress status, deferred_exec_of s with
    | true, Some deferred_exec_id => deferred_work deferred_exec_id
    | _, _ => Ok (CopyHasWork (ProcessQueueItem queue_id))
    end in
  match requires_token with
  | Some token =>
      match LP_TOKEN_VALUE s !! token with
      | Some lp_token_value =>
          if lp_status_valid (lv_status lp_token_value) queue_id then process
          else
            match deferred_exec_of s with
            | Some deferred_exec_id => deferred_work deferred_exec_id
            | None =>
                reset <- find_market_work reset_required s (load_market_ids_with_token s token None);
                if (reset : bool) then Ok (CopyHasWork (ResetStats token)) else check_balance_work s token
            end
      | None => check_balance_work s token
      end
  | None => process
  end.

Definition get_work_from_dec_queue (s : CopyStore) (queue_id : Z) (queue_item : DecQueuePosition) :
    res WorkResp :=
  queue_item_work s (DecQueuePositionId queue_id) (dec_status queue_item)
    (dec_requires_token (dec_item queue_item)) (get_dec_deferred_work s).

Definition get_batch_work (s : CopyStore) : option CopyWork :=
  match CURRENT_BATCH_WORK s with
  | None | Some BatchNoWork => None
  | Some (BatchRebalance start_from balance token) => Some (RebalanceWork token balance start_from)
  | Some (BatchLpTokenValue process_start_from validate_start_from token) =>
      Some (ComputeLpTokenValue token process_start_from validate_start_from)
  end.

(** Whether the markets are to be loaded, or looked for again. *)
Definition market_loading_due (s : CopyStore) : res bool :=
  match MARKET_LOADER_STATUS s with
  | Some (LoaderFinished _) =>
      match LAST_MARKET_ADD_CHECK s with
      | Some last_seen =>
          due <- plus_seconds last_seen SIX_HOURS_IN_SECONDS; Ok (due <? ce_now env)
      | None =>
          Err (AnyhowError "Impossible: LAST_MARKET_ADD_CHECK uninitialized during Finished status")
      end
  | _ => Ok true
  end.

Definition copy_get_work (s : CopyStore) : res WorkResp :=
  match get_batch_work s with
  | Some work => Ok (CopyHasWork work)
  | None =>
      due <- market_loading_due s;
      if (due : bool) then Ok (CopyHasWork LoadMarket)
      else
        inc_queue_item <- get_current_processed_inc_queue_id s;
        match inc_queue_item with
        | Some (queue_id, queue_item) =>
            queue_item_work s (IncQueuePositionId queue_id) (inc_status queue_item)
              (inc_requires_token (inc_item queue_item)) (get_inc_deferred_work s)
        | None =>
            dec_queue <- get_current_processed_dec_queue_id s;
            match dec_queue with
            | Some (queue_id, queue_item) => get_work_from_dec_queue s queue_id queue_item
            | None => Ok CopyNoWork
            end
        end
  end.

(** ** work.rs: processing a queue item *)

(** The share value is out of date once something goes to a market. *)
Definition outdate_lp_value (token : CopyToken) : copy_handler unit :=
  token_value <~ hask (fun s => of_option (AnyhowError "LP_TOKEN_VALUE store is empty") (LP_TOKEN_VALUE s !! token));
  save_lp_value token (set_outdated token_value).
Definition load_totals (text : string) (token : CopyToken) : copy_handler CopyTotals :=
  hask (fun s => of_option (AnyhowError text) (COPY_TOTALS s !! token)).

Definition finish_dec_item (queue_id : Z) (queue_item : DecQueuePosition) (status : ItemStatus) :
    copy_handler unit :=
  save_dec_item queue_id (set_dec_status status queue_item);;;
  hmod (set_LAST_PROCESSED_DEC_QUEUE_ID (Some queue_id)).
Definition finish_inc_item (queue_id : Z) (queue_item : IncQueuePosition) (status : ItemStatus) :
    copy_handler unit :=
  save_inc_item queue_id (set_inc_status status queue_item);;;
  hmod (set_LAST_PROCESSED_INC_QUEUE_ID (Some queue_id)).

(** [process_dec_queue] and [process_dec_crank_queue]: [taken] leaves the pool
    with the message, or the item fails for [reason]. *)
Definition take_and_send (taken : Collateral) (reason : Collateral -> FailedReason) (token : CopyToken)
    (queue_id : Z) (queue_item : DecQueuePosition) (sub_msg : CopyMsg) : copy_handler (list CopyMsg) :=
  totals <~ load_totals "TOTALS store is empty" token;
  if taken <=? total_collateral totals then
    collateral <~ hlift (ud_checked_sub (total_collateral totals) taken);
    save_totals_of token (mkCopyTotals collateral (total_shares totals));;;
    outdate_lp_value token;;;
    save_dec_item queue_id (set_dec_status InProgress queue_item);;;
    hret [sub_msg]
  else
    finish_dec_item queue_id queue_item (Failed (reason (total_collateral totals)));;;
    hret [].
Definition process_dec_queue (collateral : Collateral) (token : CopyToken) (queue_id : Z)
    (queue_item : DecQueuePosition) (sub_msg : CopyMsg) : copy_handler (list CopyMsg) :=
  take_and_send collateral (fun available => NotEnoughCollateral available collateral) token queue_id
    queue_item sub_msg.
Definition process_dec_crank_queue (crank_fees : Collateral) (token : CopyToken) (queue_id : Z)
    (queue_item : DecQueuePosition) (sub_msg : CopyMsg) : copy_handler (list CopyMsg) :=
  take_and_send crank_fees (fun available => NotEnoughCrankFee available crank_fees) token queue_id
    queue_item sub_msg.

Definition process_inc_queue (collateral : option Collateral) (token : CopyToken) (queue_id : Z)
    (queue_item : IncQueuePosition) (sub_msg : CopyMsg) : copy_handler (list CopyMsg) :=
  let send :=
    outdate_lp_value token;;;
    save_inc_item queue_id (set_inc_status InProgress queue_item);;;
    hret [sub_msg] in
  match collateral with
  | Some collateral =>
      totals <~ load_totals "TOTALS store is empty" token;
      if collateral <=? total_collateral totals then
        rest <~ hlift (ud_checked_sub (total_collateral totals) collateral);
        save_totals_of token (mkCopyTotals rest (total_shares totals));;;
        send
      else
        finish_inc_item queue_id queue_item (Failed (NotEnoughCrankFee (total_collateral totals) collateral));;;
        hret []
  | None => send
  end.

(** A market item of the increase queue. *)
Definition process_inc_market_item (queue_id : Z) (queue_item : IncQueuePosition) (market_id : MarketId)
    (token : CopyToken) (item : IncMarketItem) : copy_handler (list CopyMsg) :=
  market_info <~ hask (copy_market market_id);
  let direct reply_id msg :=
    process_inc_queue None token queue_id queue_item
      (CopyMarketMsg reply_id (ExecDirect (cmi_addr market_info) msg [])) in
  let with_fee reply_id msg :=
    crank_fee <~ hlift (copy_estimate_crank_fee env market_info);
    msg <~ hlift (into_execute_msg (cmi_token market_info) (cmi_addr market_info) crank_fee msg);
    process_inc_queue (Some crank_fee) token queue_id queue_item (CopyMarketMsg reply_id msg) in
  match item with
  | IncClosePosition id slippage_assert =>
      direct REPLY_ID_CLOSE_POSITION (ClosePositionMsg id slippage_assert)
  | IncCancelLimitOrder order_id => direct REPLY_ID_CANCEL_LIMIT_ORDER (CancelLimitOrderMsg order_id)
  | IncRemoveCollateralImpactSize id amount slippage_assert =>
      with_fee REPLY_ID_REMOVE_COLLATERAL_IMPACT_SIZE
        (UpdatePositionRemoveCollateralImpactSize id amount slippage_assert)
  | IncRemoveCollateralImpactLeverage id amount =>
      with_fee REPLY_ID_REMOVE_COLLATERAL_IMPACT_LEVERAGE
        (UpdatePositionRemoveCollateralImpactLeverage id amount)
  end.

Definition process_deposit (queue_id : Z) (queue_item : IncQueuePosition) (funds : Collateral)
    (token : CopyToken) : copy_handler (list CopyMsg) :=
  token_value <~ hask (fun s => load_lp_token_value s token);
  totals <~ hget (totals_of token);
  '(_, totals) <~ hlift (totals_add_collateral totals funds token_value);
  save_totals_of token totals;;;
  pending_deposits <~ hget (pending_deposits_of token);
  pending_deposits <~ hlift (ud_checked_sub pending_deposits funds);
  hmod (fun s => set_PENDING_DEPOSITS (<[token := pending_deposits]> (PENDING_DEPOSITS s)) s);;;
  new_shares <~ hlift (collateral_to_shares token_value funds);
  shares <~ hget (fun s => COPY_SHARES s !! (inc_wallet queue_item, token));
  new_shares <~ hlift (match shares with
                       | Some shares => nonzero_checked_add shares new_shares
                       | None => Ok new_shares
                       end);
  hmod (fun s => set_COPY_SHARES (<[(inc_wallet queue_item, token) := new_shares]> (COPY_SHARES s)) s);;;
  finish_inc_item queue_id queue_item Finished;;;
  hret [].

(** The item of a withdrawal is counted as processed before anything else. *)
Definition process_withdrawal (queue_id : Z) (queue_item : DecQueuePosition) (shares : LpToken)
    (token : CopyToken) : copy_handler (list CopyMsg) :=
  hmod (set_LAST_PROCESSED_DEC_QUEUE_ID (Some queue_id));;;
  let wallet := dec_wallet queue_item in
  let finish status msgs :=
    save_dec_item queue_id (set_dec_status status queue_item);;; hret msgs in
  actual_shares <~ hget (fun s => COPY_SHARES s !! (wallet, token));
  match actual_shares with
  | None => finish (Failed (NotEnoughShares 0 shares)) []
  | Some actual_shares =>
      if (actual_shares <? shares) && negb (shares =? actual_shares) then
        finish (Failed (NotEnoughShares actual_shares shares)) []
      else
        token_value <~ hask (fun s => load_lp_token_value s token);
        funds <~ hlift (copy_shares_to_collateral token_value shares);
        market_token <~ hask (fun s => get_first_full_token_info s token);
        withdraw_msg <~ hlift (into_transfer_msg market_token wallet funds);
        remaining_shares <~ hlift (ud_checked_sub actual_shares shares);
        contract_token <~ hlift (to_token market_token);
        totals <~ load_totals "TOTALS is empty" contract_token;
        if total_collateral totals <? funds then
          finish (Failed (NotEnoughCollateral (total_collateral totals) funds)) []
        else
          collateral <~ hlift (ud_checked_sub (total_collateral totals) funds);
          total <~ hlift (ud_checked_sub (total_shares totals) shares);
          match withdraw_msg with
          | Some withdraw_msg =>
              hmod (fun s => set_COPY_SHARES (match nonzero_new remaining_shares with
                                              | None => delete (wallet, token) (COPY_SHARES s)
                                              | Some rest => <[(wallet, token) := rest]> (COPY_SHARES s)
                                              end) s);;;
              save_totals_of contract_token (mkCopyTotals collateral total);;;
              finish Finished [CopyPay withdraw_msg]
          | None => finish (Failed (FundLessThanMinChain funds)) []
          end
  end.

(** The market items of the decrease queue: collateral goes out with the
    message, or the estimated crank fee does. *)
Definition dec_collateral_msg (item : DecMarketItem) : option (Collateral * Z * ExecuteMsg) :=
  match item with
  | DecAddCollateralImpactSize collateral id slippage_assert =>
      Some (collateral, REPLY_ID_ADD_COLLATERAL_IMPACT_SIZE,
            UpdatePositionAddCollateralImpactSize id slippage_assert)
  | DecAddCollateralImpactLeverage collateral id =>
      Some (collateral, REPLY_ID_ADD_COLLATERAL_IMPACT_LEVERAGE,
            UpdatePositionAddCollateralImpactLeverage id)
  | DecOpenPosition collateral slippage_assert leverage direction stop_loss_override take_profit =>
      Some (collateral, REPLY_ID_OPEN_POSITION,
            OpenPositionMsg slippage_assert leverage direction stop_loss_override take_profit)
  | DecPlaceLimitOrder collateral trigger_price leverage direction stop_loss_override take_profit =>
      Some (collateral, REPLY_ID_PLACE_LIMIT_ORDER,
            PlaceLimitOrderMsg trigger_price leverage direction stop_loss_override take_profit)
  | _ => None
  end.
Definition dec_update_msg (item : DecMarketItem) : option (Z * ExecuteMsg) :=
  match item with
  | DecUpdateStopLossPrice id stop_loss =>
      Some (REPLY_ID_UPDATE_POSITION_STOP_LOSS_PRICE, UpdatePositionStopLossPrice id stop_loss)
  | DecUpdateTakeProfitPrice id price =>
      Some (REPLY_ID_UPDATE_POSITION_TAKE_PROFIT_PRICE, UpdatePositionTakeProfitPrice id price)
  | DecUpdateLeverage id leverage slippage_assert =>
      Some (REPLY_ID_UPDATE_POSITION_LEVERAGE, UpdatePositionLeverage id leverage slippage_assert)
  | _ => None
  end.
Definition process_dec_market_item (queue_id : Z) (queue_item : DecQueuePosition) (market_id : MarketId)
    (token : CopyToken) (item : DecMarketItem) : copy_handler (list CopyMsg) :=
  market_info <~ hask (copy_market market_id);
  let message amount msg := into_execute_msg (cmi_token market_info) (cmi_addr market_info) amount msg in
  match dec_collateral_msg item, dec_update_msg item with
  | Some (collateral, reply_id, msg), _ =>
      msg <~ hlift (message collateral msg);
      process_dec_queue collateral token queue_id queue_item (CopyMarketMsg reply_id msg)
  | None, Some (reply_id, msg) =>
      crank_fees <~ hlift (copy_estimate_crank_fee env market_info);
      msg <~ hlift (message crank_fees msg);
      process_dec_crank_queue crank_fees token queue_id queue_item (CopyMarketMsg reply_id msg)
  | None, None => hret []
  end.

Definition process_queue_item (queue_pos_id : QueuePositionId) : copy_handler (list CopyMsg) :=
  match queue_pos_id with
  | IncQueuePositionId queue_id =>
      queue_item <~ hask (fun s =>
        of_option (AnyhowError "PENDING_QUEUE_ITEMS load failed") (COLLATERAL_INCREASE_QUEUE s !! queue_id));
      match inc_item queue_item with
      | IncMarket market_id token item => process_inc_market_item queue_id queue_item market_id token item
      | IncDeposit funds token => process_deposit queue_id queue_item funds token
      end
  | DecQueuePositionId queue_id =>
      queue_item <~ hask (fun s =>
        of_option (AnyhowError "COLLATERAL_DECREASE_QUEUE load failed") (COLLATERAL_DECREASE_QUEUE s !! queue_id));
      match dec_item queue_item with
      | DecWithdrawal tokens token => process_withdrawal queue_id queue_item tokens token
      | DecMarket market_id token item => process_dec_market_item queue_id queue_item market_id token item
      end
  end.

(** ** execute.rs: settling closed positions *)

Definition handle_leader_commission (token : CopyToken) (closed_position : ClosedPosition)
    (hwm : HighWaterMark) : copy_handler (LeaderCommission * HighWaterMark) :=
  let active_collateral := cp_active_collateral closed_position in
  c <~ hget COPY_CONFIG;
  '(commission, hwm) <~ hlift (add_pnl hwm (cp_pnl_collateral closed_position) (cyc_commission_rate c));
  if negb (ud_is_zero commission) then
    stats <~ hget (commission_of token);
    unclaimed <~ hlift (ud_checked_add (com_unclaimed stats) commission);
    hmod (fun s => set_LEADER_COMMISSION (<[token := mkCommissionStats unclaimed (com_claimed stats)]> (LEADER_COMMISSION s)) s);;;
    pnl <~ hlift (of_option (AnyhowError "Impossible: profit is negative")
                    (try_into_non_negative_value (cp_pnl_collateral closed_position)));
    remaining_collateral <~ hlift (ud_checked_sub active_collateral commission);
    hret (mkLeaderCommission active_collateral pnl remaining_collateral, hwm)
  else hret (mkLeaderCommission active_collateral 0 active_collateral, hwm).

(** What the loops of [rebalance] carry: the high water mark, the collateral
    of the positions settled, and the pool's collateral with it. *)
Record Settled := mkSettled {
  sd_hwm : HighWaterMark; sd_check_balance : Collateral; sd_collateral : Collateral }.

(** The loop over a page of closed positions. *)
Fixpoint settle_positions (token : CopyToken) (positions : list ClosedPosition) (acc : Settled) :
    copy_handler Settled :=
  match positions with
  | [] => hret acc
  | position :: positions =>
      '(commission, hwm) <~ handle_leader_commission token position (sd_hwm acc);
      check_balance <~ hlift (ud_checked_add (sd_check_balance acc) (lc_active_collateral commission));
      collateral <~ hlift (ud_checked_add (sd_collateral acc) (lc_remaining_collateral commission));
      settle_positions token positions (mkSettled hwm check_balance collateral)
  end.

(** The loop over the pages of one market; [true] when the query budget ends
    it. *)
Fixpoint settle_market (fuel : nat) (token : CopyToken) (market : CopyMarketInfo)
    (rebalance_amount : Collateral) (cursor : option ClosedPositionCursor) (total_queries : Z)
    (acc : Settled) : copy_handler (Settled * Z * bool) :=
  match fuel with
  | O => hlift out_of_gas
  | S fuel =>
      closed_positions <~ hlift (ce_closed_positions env (cmi_addr market) cursor);
      total_queries <~ hlift (u32_succ total_queries);
      let cursor := closed_position_cursor <$> last (resp_positions closed_positions) in
      match cursor with
      | Some cursor =>
          hmod (fun s => set_LAST_CLOSED_POSITION_CURSOR
                           (<[mid_encoded (cmi_id market) := cursor]> (LAST_CLOSED_POSITION_CURSOR s)) s)
      | None => hret tt
      end;;;
      acc <~ settle_positions token (resp_positions closed_positions) acc;
      settled <~ hlift (ud_approx_eq (sd_check_balance acc) rebalance_amount);
      if (settled : bool) then hret (acc, total_queries, false)
      else if negb (is_some (resp_cursor closed_positions)) then hret (acc, total_queries, false)
      else
        c <~ hget COPY_CONFIG;
        if cyc_allowed_rebalance_queries c <=? total_queries then hret (acc, total_queries, true)
        else settle_market fuel token market rebalance_amount cursor total_queries acc
  end.

(** The loop over the markets: with what was settled, whether it ended early,
    and the market it was at. *)
Fixpoint settle_markets (token : CopyToken) (markets : list CopyMarketInfo) (rebalance_amount : Collateral)
    (total_queries : Z) (early_exit : bool) (market_id : option MarketId) (check_balance collateral : Collateral) :
    copy_handler (Collateral * Collateral * bool * option MarketId) :=
  match markets with
  | [] => hret (check_balance, collateral, early_exit, market_id)
  | market :: markets =>
      let market_id := Some (cmi_id market) in
      cursor <~ hget (fun s => LAST_CLOSED_POSITION_CURSOR s !! mid_encoded (cmi_id market));
      hwm <~ hget (fun s => default hwm_default (HIGH_WATER_MARK s !! token));
      c <~ hget COPY_CONFIG;
      '(acc, total_queries, exhausted) <~
        settle_market (S (Z.to_nat (cyc_allowed_rebalance_queries c))) token market rebalance_amount cursor
          total_queries (mkSettled hwm check_balance collateral);
      let early_exit := early_exit || exhausted in
      hmod (fun s => set_HIGH_WATER_MARK (<[token := sd_hwm acc]> (HIGH_WATER_MARK s)) s);;;
      settled <~ hlift (ud_approx_eq (sd_check_balance acc) rebalance_amount);
      if (settled : bool) then hret (sd_check_balance acc, sd_collateral acc, early_exit, market_id)
      else if cyc_allowed_rebalance_queries c <? total_queries then
        hret (sd_check_balance acc, sd_collateral acc, true, market_id)
      else
        settle_markets token markets rebalance_amount total_queries early_exit market_id
          (sd_check_balance acc) (sd_collateral acc)
  end.

Definition copy_rebalance (token : CopyToken) (rebalance_amount : Collateral)
    (start_from : option MarketId) : copy_handler (list CopyMsg) :=
  markets <~ hget (fun s => load_market_ids_with_token s token start_from);
  totals <~ hget (totals_of token);
  '(check_balance, collateral, early_exit, market_id) <~
    settle_markets token markets rebalance_amount 0 false None 0 (total_collateral totals);
  collateral <~
    (if (check_balance <? rebalance_amount) && negb early_exit then
       diff <~ hlift (ud_checked_sub rebalance_amount check_balance);
       hlift (ud_checked_add collateral diff)
     else hret collateral);
  (if (early_exit : bool) then
     same <~ hlift (ud_approx_eq check_balance rebalance_amount);
     balance <~
       (if ud_is_zero check_balance then hret (Some rebalance_amount)
        else if (same : bool) || (rebalance_amount <? check_balance) then hret None
        else diff <~ hlift (ud_checked_sub rebalance_amount check_balance); hret (Some diff));
     match balance with
     | Some balance =>
         balance <~ hlift (of_option (AnyhowError "Impossible: balance is zero") (nonzero_new balance));
         save_batch_work (BatchRebalance market_id balance token)
     | None => hret tt
     end
   else save_batch_work BatchNoWork);;;
  save_totals_of token (mkCopyTotals collateral (total_shares totals));;;
  hret [].

Fixpoint reset_markets (markets : list CopyMarketInfo) : copy_handler unit :=
  match markets with
  | [] => hret tt
  | market :: markets => save_work_info (cmi_id market) market_work_default;;; reset_markets markets
  end.
Definition reset_stats (token : CopyToken) : copy_handler (list CopyMsg) :=
  markets <~ hget (fun s => load_market_ids_with_token s token None);
  reset_markets markets;;;
  hret [].

(** ** execute.rs: a deferred execution has ended *)

Definition deferred_outcome (market_id : MarketId) (deferred_exec_id : DeferredExecId) :
    copy_handler ItemStatus :=
  market <~ hask (fun s => of_option (AnyhowError "MARKETS state is empty") (MARKETS s !! mid_encoded market_id));
  response <~ hlift (ce_deferred env (cmi_addr market) deferred_exec_id);
  match response with
  | DeferredFound item =>
      match de_status item with
      | DeferPending => herr (AnyhowError "Impossible: Deferred exec status is pending")
      | DeferSuccess _ _ => hret Finished
      | DeferFailure reason executed crank_price =>
          hret (Failed (DeferredExecFailure reason executed crank_price))
      end
  | DeferredNotFound => herr (AnyhowError "Impossible: Deferred exec id not found")
  end.

Definition handle_deferred_exec_id : copy_handler (list CopyMsg) :=
  deferred_exec_id <~ hget deferred_exec_of;
  deferred_exec_id <~ hlift (of_option (AnyhowError "Impossible: Work handle unable to find deferred exec id")
                               deferred_exec_id);
  inc_queue_item <~ hask get_current_processed_inc_queue_id;
  match inc_queue_item with
  | Some (queue_id, queue_item) =>
      hlift (assert (in_progress (inc_status queue_item)));;;
      match inc_item queue_item with
      | IncMarket market_id _ _ =>
          status <~ deferred_outcome market_id deferred_exec_id;
          finish_inc_item queue_id queue_item status;;;
          hmod (set_REPLY_DEFERRED_EXEC_ID (Some None));;;
          hret []
      | IncDeposit _ _ => herr (AnyhowError "Impossible: Deferred work handler got non market item")
      end
  | None =>
      dec_queue_item <~ hask get_current_processed_dec_queue_id;
      match dec_queue_item with
      | None => herr (AnyhowError "Impossible: Work handle not able to find queue item")
      | Some (queue_id, queue_item) =>
          hlift (assert (in_progress (dec_status queue_item)));;;
          match dec_item queue_item with
          | DecMarket market_id _ _ =>
              status <~ deferred_outcome market_id deferred_exec_id;
              finish_dec_item queue_id queue_item status;;;
              hmod (set_REPLY_DEFERRED_EXEC_ID (Some None));;;
              hret []
          | DecWithdrawal _ _ => herr (AnyhowError "Impossible: Deferred work handler got non market item")
          end
      end
  end.

(** ** execute.rs: the value of a share *)

Fixpoint position_collateral (positions : list PositionQueryResponse) (total : Collateral) : res Collateral :=
  match positions with
  | [] => Ok total
  | position :: positions =>
      total <- ud_checked_add total (pq_active_collateral position);
      position_collateral positions total
  end.
Fixpoint order_collateral (orders : list LimitOrderResp) (total : Collateral) : res Collateral :=
  match orders with
  | [] => Ok total
  | order :: orders =>
      total <- ud_checked_add total (lor_collateral order);
      order_collateral orders total
  end.
Definition add_positions (positions : list PositionQueryResponse) (w : MarketWorkInfo) : res MarketWorkInfo :=
  total_collateral <- position_collateral positions 0;
  count <- u64_checked (mw_count_open_positions w + Z.of_nat (length positions));
  active <- ud_checked_add (mw_active_collateral w) total_collateral;
  Ok (mkMarketWorkInfo (mw_status w) active count (mw_count_orders w)).
Definition add_orders (orders : list LimitOrderResp) (w : MarketWorkInfo) : res MarketWorkInfo :=
  total_collateral <- order_collateral orders 0;
  count <- u64_checked (mw_count_orders w + Z.of_nat (length orders));
  active <- ud_checked_add (mw_active_collateral w) total_collateral;
  Ok (mkMarketWorkInfo (mw_status w) active (mw_count_open_positions w) count).

Section Budget.
(** [allowed_lp_token_queries] of the configuration, and the queries so far. *)
Context (total_allowed_queries : Z).

Definition budget_fuel : nat := S (S (Z.to_nat total_allowed_queries)).

(** The loop of [process_single_market] over the positions; [true] when the
    budget ends it. *)
Fixpoint process_positions (fuel : nat) (addr : Addr) (w : MarketWorkInfo) (start_after : option string)
    (allowed_queries : Z) : res (MarketWorkInfo * option string * Z * bool) :=
  match fuel with
  | O => out_of_gas
  | S fuel =>
      '(tokens, next) <- query_tokens env addr start_after;
      allowed_queries <- u32_succ allowed_queries;
      if is_empty tokens then Ok (w, start_after, allowed_queries, false)
      else
        positions <- copy_query_positions env addr tokens;
        allowed_queries <- u32_succ allowed_queries;
        w <- add_positions positions w;
        if negb (is_some next) then Ok (w, start_after, allowed_queries, false)
        else if total_allowed_queries <? allowed_queries then Ok (w, next, allowed_queries, true)
        else process_positions fuel addr w next allowed_queries
  end.

(** The loop over the limit orders. *)
Fixpoint process_orders (gas : nat) (addr : Addr) (w : MarketWorkInfo) (start_after : option OrderId)
    (allowed_queries : Z) : res (MarketWorkInfo * option OrderId * bool) :=
  match gas with
  | O => out_of_gas
  | S gas =>
      '(orders, next) <- ce_orders env addr start_after;
      if is_empty orders then Ok (w, next, false)
      else
        w <- add_orders orders w;
        if negb (is_some next) then Ok (w, next, false)
        else if total_allowed_queries <? allowed_queries then Ok (w, next, true)
        else process_orders gas addr w next allowed_queries
  end.

(** The queries so far, and whether to exit early. *)
Definition process_single_market (market : CopyMarketInfo) (allowed_queries : Z) : copy_handler (Z * bool) :=
  let id := cmi_id market in
  let exhausted :=
    token <~ hlift (to_token (cmi_token market));
    save_batch_work (BatchLpTokenValue (Some id) None token) in
  w <~ hget (work_info_of id);
  let status := mw_status w in
  let tokens_start_after := match status with ProcessOpenPositions start_after => start_after | _ => None end in
  '(w, allowed_queries, early_exit) <~
    (if not_started_yet status || is_process_open_positions status then
       '(w, start_after, allowed_queries, early_exit) <~
         hlift (process_positions budget_fuel (cmi_addr market) w tokens_start_after allowed_queries);
       let w := set_mw_status (ProcessOpenPositions start_after) w in
       save_work_info id w;;;
       hret (w, allowed_queries, early_exit)
     else hret (w, allowed_queries, false));
  if total_allowed_queries <? allowed_queries then exhausted;;; hret (allowed_queries, true)
  else
    let orders_start_after := match status with ProcessLimitOrder start_after => start_after | _ => None end in
    early_exit <~
      (if negb early_exit && negb (is_validate_status status) then
         '(w, start_after, early_exit) <~
           hlift (process_orders (ce_gas env) (cmi_addr market) w orders_start_after allowed_queries);
         save_work_info id
           (set_mw_status (if (early_exit : bool) then ProcessLimitOrder start_after
                           else ValidateOpenPositions None 0) w);;;
         hret early_exit
       else hret early_exit);
    if total_allowed_queries <? allowed_queries then exhausted;;; hret (allowed_queries, true)
    else save_batch_work BatchNoWork;;; hret (allowed_queries, early_exit).

(** The loop of [validate_single_market] over the positions; [true] when all
    were seen. *)
Fixpoint validate_positions (fuel : nat) (addr : Addr) (start_after : option string)
    (open_positions allowed_queries : Z) : res (option string * Z * Z * bool) :=
  match fuel with
  | O => out_of_gas
  | S fuel =>
      '(tokens, next) <- query_tokens env addr start_after;
      allowed_queries <- u32_succ allowed_queries;
      if is_empty tokens then Ok (start_after, open_positions, allowed_queries, true)
      else
        positions <- copy_query_positions env addr tokens;
        allowed_queries <- u32_succ allowed_queries;
        open_positions <- u64_checked (open_positions + Z.of_nat (length positions));
        if negb (is_some next) then Ok (start_after, open_positions, allowed_queries, true)
        else if total_allowed_queries <? allowed_queries then Ok (next, open_positions, allowed_queries, false)
        else validate_positions fuel addr next open_positions allowed_queries
  end.
Fixpoint validate_orders (fuel : nat) (addr : Addr) (start_after : option OrderId)
    (open_orders allowed_queries : Z) : res (option OrderId * Z * Z * bool) :=
  match fuel with
  | O => out_of_gas
  | S fuel =>
      '(orders, next) <- ce_orders env addr start_after;
      allowed_queries <- u32_succ allowed_queries;
      if is_empty orders then Ok (next, open_orders, allowed_queries, true)
      else
        open_orders <- u64_checked (open_orders + Z.of_nat (length orders));
        if negb (is_some next) then Ok (next, open_orders, allowed_queries, true)
        else if total_allowed_queries <? allowed_queries then Ok (next, open_orders, allowed_queries, false)
        else validate_orders fuel addr next open_orders allowed_queries
  end.

Inductive ValidationStatus := ValidationFailed | ValidationSuccess (market : MarketWorkInfo) | ValidationInProgress.

Definition validate_single_market (market : CopyMarketInfo) (allowed_queries : Z) :
    copy_handler (ValidationStatus * Z) :=
  let id := cmi_id market in
  w <~ hget (work_info_of id);
  let status := mw_status w in
  hlift (assert (is_validate_status status));;;
  let failed allowed_queries :=
    save_work_info id (set_mw_status ResetRequired w);;;
    save_batch_work BatchNoWork;;;
    hret (ValidationFailed, allowed_queries) in
  let continue p allowed_queries :=
    save_work_info id (set_mw_status p w);;;
    token <~ hlift (to_token (cmi_token market));
    save_batch_work (BatchLpTokenValue None (Some id) token);;;
    hret (ValidationInProgress, allowed_queries) in
  let '(tokens_start_after, total_open_positions) :=
    match status with
    | ValidateOpenPositions start_after open_positions => (start_after, open_positions)
    | _ => (None, 0)
    end in
  '(start_after, open_positions, allowed_queries, finished) <~
    (if is_validate_open_position_status status then
       hlift (validate_positions budget_fuel (cmi_addr market) tokens_start_after total_open_positions allowed_queries)
     else hret (None, mw_count_open_positions w, allowed_queries, false));
  if finished && negb (open_positions =? mw_count_open_positions w) then failed allowed_queries
  else if is_validate_open_position_status status && (total_allowed_queries <? allowed_queries) then
    continue (ValidateOpenPositions start_after open_positions) allowed_queries
  else
    let '(orders_start_after, total_orders) :=
      match status with
      | ValidateLimitOrder start_after open_orders => (start_after, open_orders)
      | _ => (None, 0)
      end in
    '(start_after, total_orders, allowed_queries, finished) <~
      hlift (validate_orders budget_fuel (cmi_addr market) orders_start_after total_orders allowed_queries);
    if (finished : bool) then
      if total_orders =? mw_count_orders w then
        save_work_info id (set_mw_status Validated w);;;
        save_batch_work BatchNoWork;;;
        hret (ValidationSuccess (set_mw_status Validated w), allowed_queries)
      else failed allowed_queries
    else if total_allowed_queries <? allowed_queries then
      continue (ValidateLimitOrder start_after total_orders) allowed_queries
    else save_batch_work BatchNoWork;;; hret (ValidationSuccess w, allowed_queries).

(** The two loops of [compute_lp_token_value] over the markets: [None] when
    the computation is not finished. *)
Fixpoint process_markets (markets : list CopyMarketInfo) (allowed_queries : Z) : copy_handler (option Z) :=
  match markets with
  | [] => hret (Some allowed_queries)
  | market :: markets =>
      '(allowed_queries, early_exit) <~ process_single_market market allowed_queries;
      if (early_exit : bool) then hret None else process_markets markets allowed_queries
  end.
Fixpoint validate_markets (markets : list CopyMarketInfo) (allowed_queries : Z) (total : Collateral) :
    copy_handler (option Collateral) :=
  match markets with
  | [] => hret (Some total)
  | market :: markets =>
      '(validation, allowed_queries) <~ validate_single_market market allowed_queries;
      match validation with
      | ValidationFailed | ValidationInProgress => hret None
      | ValidationSuccess w =>
          total <~ hlift (ud_checked_add total (mw_active_collateral w));
          validate_markets markets allowed_queries total
      end
  end.
End Budget.

(** The value of one share of [total_shares] in [total_collateral]. *)
Definition one_share_value (total_collateral : Collateral) (total_shares : LpToken) : res Collateral :=
  if ud_is_zero total_shares || ud_is_zero total_collateral then Ok DEC_ONE
  else checked_div_dec total_collateral total_shares.

Definition compute_lp_token_value (token : CopyToken) (process_start_from validate_start_from : option MarketId) :
    copy_handler unit :=
  token_value <~ hget (fun s => LP_TOKEN_VALUE s !! token);
  queue_id <~ hask get_current_queue_element;
  match token_value with
  | None => save_lp_value token (mkLpTokenValue DEC_ONE (LpValid (ce_now env) queue_id))
  | Some token_value =>
      if lp_status_valid (lv_status token_value) queue_id then hret tt
      else
        c <~ hget COPY_CONFIG;
        let budget := cyc_allowed_lp_token_queries c in
        markets <~ hget (fun s => load_market_ids_with_token s token process_start_from);
        processed <~ process_markets budget markets 0;
        match processed with
        | None => hret tt
        | Some allowed_queries =>
            markets <~ hget (fun s => load_market_ids_with_token s token validate_start_from);
            validated <~ validate_markets budget markets allowed_queries 0;
            match validated with
            | None => hret tt
            | Some total_open_position_and_order =>
                totals <~ hget (totals_of token);
                total <~ hlift (ud_checked_add (total_collateral totals) total_open_position_and_order);
                value <~ hlift (one_share_value total (total_shares totals));
                queue_id <~ hask get_current_queue_element;
                save_lp_value token (mkLpTokenValue value (LpValid (ce_now env) queue_id))
            end
        end
  end.

(** ** execute.rs: the entry point *)

Definition copy_do_work : copy_handler (list CopyMsg) :=
  work <~ hask copy_get_work;
  match work with
  | CopyNoWork => herr (AnyhowError "No work items available")
  | CopyHasWork LoadMarket => batched_stored_market_info env;;; hret []
  | CopyHasWork (ComputeLpTokenValue token process_start_from validate_start_from) =>
      compute_lp_token_value token process_start_from validate_start_from;;; hret []
  | CopyHasWork (ProcessQueueItem id) => process_queue_item id
  | CopyHasWork (ResetStats token) => reset_stats token
  | CopyHasWork HandleDeferredExecId => handle_deferred_exec_id
  | CopyHasWork (RebalanceWork token amount start_from) => copy_rebalance token amount start_from
  end.

Definition copy_execute (info : MessageInfo) (msg : CopyExecute) : copy_handler (list CopyMsg) :=
  '(funds, msg, sender) <~ hlift (copy_handle_funds copy_from_json info msg);
  c <~ hget COPY_CONFIG;
  match msg with
  | CopyReceive _ _ _ => herr (AnyhowError "Cannot perform a receive within a receive")
  | CopyDeposit =>
      token <~ hlift (require_token funds);
      market_token <~ hask (fun s => get_first_full_token_info s token);
      funds <~ hlift (copy_require_some funds market_token);
      copy_deposit sender funds token
  | CopyWithdraw shares token => hlift (copy_require_none funds);;; copy_withdraw sender shares token
  | CopyDoWork => hlift (copy_require_none funds);;; copy_do_work
  | CopyLeaderMsg market_id message collateral =>
      hlift (ensure_leader c sender);;;
      hlift (copy_require_none funds);;;
      execute_leader_msg market_id message collateral
  | CopyFactoryUpdateConfig config =>
      hlift (ensure_factory c sender);;;
      hlift (copy_require_none funds);;;
      factory_update_config config
  | CopyLeaderWithdrawal requested_funds token =>
      hlift (ensure_leader c sender);;;
      hlift (copy_require_none funds);;;
      leader_withdrawal requested_funds token
  | CopyLeaderUpdateConfig config =>
      hlift (ensure_leader c sender);;;
      hlift (copy_require_none funds);;;
      leader_update_config config
  end.

(** ** reply.rs *)

Definition copy_deferred_exec_id (events : list RawEvent) : res DeferredExecId :=
  e <- of_option (AnyhowError "No wasm-deferred-exec-queued event found")
         (find (fun e => String.eqb (ev_ty e) "wasm-deferred-exec-queued") events);
  a <- of_option (AnyhowError "No deferred-exec-id found in wasm-deferred-exec-queued event")
         (find (fun a => String.eqb a.1 "deferred-exec-id") (ev_attributes e));
  std (parse_u64 a.2).

Definition handle_sucess (events : list RawEvent) : copy_handler unit :=
  deferred_exec_id <~ hlift (copy_deferred_exec_id events);
  exec_id <~ hget deferred_exec_of;
  hensure (negb (is_some exec_id)) (AnyhowError "Impossible: Deferred exec id already initialized");;;
  hmod (set_REPLY_DEFERRED_EXEC_ID (Some (Some deferred_exec_id))).

(** The market item in progress at the head of a queue. *)
Definition current_dec_market_item : copy_handler (Z * DecQueuePosition * MarketId * CopyToken * DecMarketItem) :=
  queue_item <~ hask get_current_processed_dec_queue_id;
  '(queue_id, queue_item) <~
    hlift (of_option (AnyhowError "Impossible: Work handle not able to find queue item") queue_item);
  hlift (assert (in_progress (dec_status queue_item)));;;
  match dec_item queue_item with
  | DecMarket id token item => hret (queue_id, queue_item, id, token, item)
  | DecWithdrawal _ _ => herr (AnyhowError "Impossible: Deferred work handler got non market item")
  end.

Definition handle_dec_failure (error_text : string) (undo : CopyToken -> DecMarketItem -> copy_handler unit) :
    copy_handler unit :=
  '(queue_id, queue_item, market_id, token, item) <~ current_dec_market_item;
  undo token item;;;
  finish_dec_item queue_id queue_item (Failed (FailedMarketError market_id error_text)).
Definition dec_failure (error_text : string) : copy_handler unit :=
  '(queue_id, queue_item, market_id, _, _) <~ current_dec_market_item;
  finish_dec_item queue_id queue_item (Failed (FailedMarketError market_id error_text)).
Definition handle_inc_failure (error_text : string) : copy_handler unit :=
  queue_item <~ hask get_current_processed_inc_queue_id;
  '(queue_id, queue_item) <~
    hlift (of_option (AnyhowError "Impossible: Work handle not able to find queue item") queue_item);
  hlift (assert (in_progress (inc_status queue_item)));;;
  match inc_item queue_item with
  | IncMarket market_id _ _ =>
      finish_inc_item queue_id queue_item (Failed (FailedMarketError market_id error_text))
  | IncDeposit _ _ => herr (AnyhowError "Impossible: Deferred work handler got non market item")
  end.

(** Collateral the market did not take comes back to the pool. *)
Definition give_back (collateral : option Collateral) (text : string) (token : CopyToken) :
    copy_handler unit :=
  totals <~ load_totals "TOTALS store is empty" token;
  match collateral with
  | Some collateral =>
      sum <~ hlift (ud_checked_add (total_collateral totals) collateral);
      save_totals_of token (mkCopyTotals sum (total_shares totals))
  | None => herr (AnyhowError text)
  end.
Definition open_position_failure (token : CopyToken) (item : DecMarketItem) : copy_handler unit :=
  give_back (match item with DecOpenPosition collateral _ _ _ _ _ => Some collateral | _ => None end)
    "Impossible: Reply handler got non open position" token.
Definition place_limit_order_failure (token : CopyToken) (item : DecMarketItem) : copy_handler unit :=
  give_back (match item with DecPlaceLimitOrder collateral _ _ _ _ _ => Some collateral | _ => None end)
    "Impossible: Reply handler got non place limit order" token.
Definition add_collateral_impact_leverage_failure (token : CopyToken) (item : DecMarketItem) :
    copy_handler unit :=
  give_back (match item with DecAddCollateralImpactLeverage collateral _ => Some collateral | _ => None end)
    "Impossible: Reply handler got non update position" token.
Definition add_collateral_impact_size_failure (token : CopyToken) (item : DecMarketItem) :
    copy_handler unit :=
  give_back (match item with DecAddCollateralImpactSize collateral _ _ => Some collateral | _ => None end)
    "Impossible: Reply handler got non update position" token.

(** What a failed message means, by its reply id. *)
Definition reply_failure (id : Z) (error_text : string) : copy_handler unit :=
  if id =? REPLY_ID_OPEN_POSITION then handle_dec_failure error_text open_position_failure
  else if id =? REPLY_ID_ADD_COLLATERAL_IMPACT_LEVERAGE then
    handle_dec_failure error_text add_collateral_impact_leverage_failure
  else if id =? REPLY_ID_ADD_COLLATERAL_IMPACT_SIZE then
    handle_dec_failure error_text add_collateral_impact_size_failure
  else if bool_decide (id ∈ [REPLY_ID_REMOVE_COLLATERAL_IMPACT_LEVERAGE; REPLY_ID_REMOVE_COLLATERAL_IMPACT_SIZE;
                             REPLY_ID_CANCEL_LIMIT_ORDER; REPLY_ID_CLOSE_POSITION]) then
    handle_inc_failure error_text
  else if bool_decide (id ∈ [REPLY_ID_UPDATE_POSITION_LEVERAGE; REPLY_ID_UPDATE_POSITION_TAKE_PROFIT_PRICE;
                             REPLY_ID_UPDATE_POSITION_STOP_LOSS_PRICE]) then
    dec_failure error_text
  else handle_dec_failure error_text place_limit_order_failure.
Definition copy_reply (id : Z) (result : ReplyResult) : copy_handler unit :=
  hensure ((0 <=? id) && (id <=? REPLY_ID_CLOSE_POSITION)) (AnyhowError "Got unknown reply id");;;
  match result with
  | ReplyOk events => handle_sucess events
  | ReplyErr error_text => reply_failure id error_text
  end.

(** A message with the reply of the market message it sends, if it sends one:
    the chain keeps both or neither. *)
Definition copy_transaction (info : MessageInfo) (msg : CopyExecute) (outcome : ReplyResult) :
    copy_handler (list CopyMsg) :=
  msgs <~ copy_execute info msg;
  match msgs with
  | [CopyMarketMsg reply_id _] => copy_reply reply_id outcome
  | _ => hret tt
  end;;;
  hret msgs.
End Definitions.
