(* ===== verification/CopyTradingInv.v ===== *)
(** * What the copy trading contract keeps

    Transactions are messages with the reply of the market message they send,
    whatever the factory, the markets and the tokens answer.  In every
    reachable state both queues are sane (the assertions of
    [contracts/copy_trading/src/sanity.rs], which only debug builds make), the
    shares of the wallets and the deposits that wait add up to the totals, and
    the markets are filed under their own token. *)

From stdpp Require Import base option gmap strings list.
From Stdlib Require Import ZArith Lia.
From S2P Require Import Prelude Storage Index Cosmwasm Types Number Time Market Price Token Config Position Trading State PositionStore PositionToken Entry Factory Queries CopyTrading CopyTradingWork.
Local Open Scope Z_scope.

(** ** The books *)

(** An unset id counts as the one before the first. *)
Definition last_or_none (last : option Z) : Z := default (-1) last.

(** Ids are consecutive, and exactly those after the last processed one are
    pending. *)
Definition queue_sane {P} (status : P -> ItemStatus) (queue : gmap Z P) (inserted processed : option Z) : Prop :=
  -1 <= last_or_none processed <= last_or_none inserted /\
  (forall i, is_Some (queue !! i) <-> 0 <= i <= last_or_none inserted) /\
  (forall i p, queue !! i = Some p -> status_pending (status p) = true <-> last_or_none processed < i).

(** The funds a queue item will bring to the pool of [token]. *)
Definition deposit_funds (token : CopyToken) (p : IncQueuePosition) : Collateral :=
  match inc_item p with
  | IncDeposit funds t => if bool_decide (t = token) && status_pending (inc_status p) then funds else 0
  | IncMarket _ _ _ => 0
  end.
Definition queued_deposits (token : CopyToken) (s : CopyStore) : Collateral :=
  map_sum (deposit_funds token) (COLLATERAL_INCREASE_QUEUE s).
Definition wallet_shares (token : CopyToken) (shares : gmap (Addr * CopyToken) LpToken) : LpToken :=
  map_sum id (filter (fun kv => kv.1.2 = token) shares).

(** A wallet's item is in its queue. *)
Definition is_queued (s : CopyStore) (id : QueuePositionId) : Prop :=
  match id with
  | IncQueuePositionId i => 0 <= i <= last_or_none (LAST_INSERTED_INC_QUEUE_ID s)
  | DecQueuePositionId i => 0 <= i <= last_or_none (LAST_INSERTED_DEC_QUEUE_ID s)
  end.

Record copy_books {CW : CosmwasmStd} (s : CopyStore) : Prop := {
  cb_inc : queue_sane inc_status (COLLATERAL_INCREASE_QUEUE s) (LAST_INSERTED_INC_QUEUE_ID s)
             (LAST_PROCESSED_INC_QUEUE_ID s);
  cb_dec : queue_sane dec_status (COLLATERAL_DECREASE_QUEUE s) (LAST_INSERTED_DEC_QUEUE_ID s)
             (LAST_PROCESSED_DEC_QUEUE_ID s);
  cb_wallets : forall w id u, WALLET_QUEUE_ITEMS s !! (w, id) = Some u -> is_queued s id;
  cb_pending : forall t, pending_deposits_of t s = queued_deposits t s;
  cb_shares : forall t, total_shares (totals_of t s) = wallet_shares t (COPY_SHARES s);
  cb_positive : forall k n, COPY_SHARES s !! k = Some n -> 0 < n;
  cb_markets : forall t k m, MARKETS_TOKEN s !! (t, k) = Some m ->
    to_token (cmi_token m) = Ok t /\ k = mid_encoded (cmi_id m);
}.

(** ** Queues *)

Section Queue.
Context {P : Type} (status : P -> ItemStatus).
Implicit Types (queue : gmap Z P) (inserted processed : option Z).

Lemma last_or_none_Some q : last_or_none (Some q) = q.
Proof. done. Qed.

Lemma next_queue_id_ok last q : next_queue_id last = Ok q -> q = last_or_none last + 1.
Proof.
  unfold next_queue_id, last_or_none. destruct last as [l|]; simpl; [|by intros [= <-]].
  intros [-> _]%u64_checked_ok. done.
Qed.

Lemma queue_sane_insert queue inserted processed q p :
  queue_sane status queue inserted processed -> next_queue_id inserted = Ok q ->
  status_pending (status p) = true -> queue_sane status (<[q := p]> queue) (Some q) processed.
Proof.
  intros (Hb & Hdom & Hp) ->%next_queue_id_ok Hpend. unfold queue_sane.
  rewrite last_or_none_Some. split_and!; [lia..|intros i|intros i x].
  - rewrite lookup_insert_is_Some, Hdom. destruct (decide (last_or_none inserted + 1 = i)); naive_solver lia.
  - rewrite lookup_insert_Some. intros [[<- <-]|[Hne Hi]]; [|by apply Hp].
    rewrite Hpend. split; [lia|done].
Qed.

(** What happens to the item at the head. *)
Lemma queue_sane_head queue inserted processed q p p' :
  queue_sane status queue inserted processed -> next_queue_id processed = Ok q -> queue !! q = Some p ->
  queue_sane status (<[q := p']> queue) inserted
    (if status_pending (status p') then processed else Some q).
Proof.
  intros (Hb & Hdom & Hp) ->%next_queue_id_ok Hq.
  assert (0 <= last_or_none processed + 1 <= last_or_none inserted) as Hin by (by apply Hdom).
  unfold queue_sane. split_and!.
  - destruct (status_pending _); rewrite ?last_or_none_Some; lia.
  - destruct (status_pending _); rewrite ?last_or_none_Some; lia.
  - intros i. rewrite lookup_insert_is_Some, Hdom.
    destruct (decide (last_or_none processed + 1 = i)); naive_solver lia.
  - intros i x. rewrite lookup_insert_Some. intros [[<- <-]|[Hne Hi]].
    + destruct (status_pending (status p')) eqn:E; rewrite ?last_or_none_Some; split; (done || lia).
    + rewrite (Hp i x Hi). destruct (status_pending (status p')); rewrite ?last_or_none_Some; [done|]. lia.
Qed.
End Queue.

(** ** Shares *)

Section Shares.
Implicit Types (m : gmap (Addr * CopyToken) LpToken).

Lemma wallet_shares_insert t m k v :
  wallet_shares t (<[k := v]> m) = wallet_shares t m + if decide (k.2 = t) then v - default 0 (m !! k) else 0.
Proof.
  unfold wallet_shares. destruct (decide (k.2 = t)) as [E|E].
  - rewrite map_filter_insert_True by done. rewrite map_sum_insert. unfold map_get.
    assert (filter (fun kv => kv.1.2 = t) m !! k = m !! k) as ->.
    { destruct (m !! k) as [x|] eqn:Hk; [by apply map_lookup_filter_Some|].
      apply map_lookup_filter_None. by left. }
    destruct (m !! k); simpl; unfold id; lia.
  - rewrite map_filter_insert_False by done. rewrite map_filter_delete, delete_id; [lia|].
    apply map_lookup_filter_None. right. intros x _. done.
Qed.

Lemma wallet_shares_delete t m k :
  wallet_shares t (delete k m) = wallet_shares t m - if decide (k.2 = t) then default 0 (m !! k) else 0.
Proof.
  unfold wallet_shares. rewrite map_filter_delete, map_sum_remove. unfold map_get.
  destruct (decide (k.2 = t)) as [E|E].
  - assert (filter (fun kv => kv.1.2 = t) m !! k = m !! k) as ->.
    { destruct (m !! k) as [x|] eqn:Hk; [by apply map_lookup_filter_Some|].
      apply map_lookup_filter_None. by left. }
    destruct (m !! k); simpl; unfold id; lia.
  - assert (filter (fun kv => kv.1.2 = t) m !! k = None) as ->; [|simpl; lia].
    apply map_lookup_filter_None. right. intros x _. done.
Qed.
End Shares.

(** ** What the parts of the work leave alone *)

(** The books without the markets and the collateral. *)
Definition books_part (s : CopyStore) :=
  (COLLATERAL_INCREASE_QUEUE s, COLLATERAL_DECREASE_QUEUE s, LAST_INSERTED_INC_QUEUE_ID s,
   LAST_INSERTED_DEC_QUEUE_ID s, LAST_PROCESSED_INC_QUEUE_ID s, LAST_PROCESSED_DEC_QUEUE_ID s,
   PENDING_DEPOSITS s, COPY_SHARES s, WALLET_QUEUE_ITEMS s).
(** And what decides which work is next. *)
Definition work_part (s : CopyStore) :=
  (LP_TOKEN_VALUE s, MARKET_WORK_INFO s, CURRENT_BATCH_WORK s, REPLY_DEFERRED_EXEC_ID s).

Abbreviation keeps f h := (forall x, preserves (fun s => f s = x) h) (only parsing).

Create HintDb copy.

(** [frame] below the loops, which have lemmas. *)
Ltac calm := frame_with ltac:(first [assumption | eauto with copy]).

Section Frames.
Context {CW : CosmwasmStd} (env : CopyEnv).

Definition sums_part (s : CopyStore) := (books_part s, COPY_TOTALS s, MARKETS_TOKEN s).

Lemma settle_positions_keeps token positions acc : keeps sums_part (settle_positions token positions acc).
Proof. revert acc. induction positions as [|p l IH]; intros acc x; simpl; calm. Qed.
Hint Resolve settle_positions_keeps : copy.
Lemma settle_market_keeps fuel token market amount cursor q acc :
  keeps sums_part (settle_market env fuel token market amount cursor q acc).
Proof. revert cursor q acc. induction fuel as [|fuel IH]; intros cursor q acc x; simpl; calm. Qed.
Hint Resolve settle_market_keeps : copy.
Lemma settle_markets_keeps token markets amount q early id check c :
  keeps sums_part (settle_markets env token markets amount q early id check c).
Proof. revert q early id check c. induction markets as [|m l IH]; intros q early id check c x; simpl; calm. Qed.
Lemma reset_markets_keeps markets : keeps sums_part (reset_markets markets).
Proof. induction markets as [|m l IH]; intros x; simpl; calm. Qed.
Hint Resolve settle_markets_keeps reset_markets_keeps : copy.
Lemma reset_stats_keeps token : keeps sums_part (reset_stats token).
Proof. calm. Qed.

Lemma process_single_market_keeps budget market q : keeps sums_part (process_single_market env budget market q).
Proof. calm. Qed.
Lemma validate_single_market_keeps budget market q : keeps sums_part (validate_single_market env budget market q).
Proof. calm. Qed.
Hint Resolve process_single_market_keeps validate_single_market_keeps : copy.
Lemma process_markets_keeps budget markets q : keeps sums_part (process_markets env budget markets q).
Proof. revert q. induction markets as [|m l IH]; intros q x; simpl; calm. Qed.
Lemma validate_markets_keeps budget markets q total :
  keeps sums_part (validate_markets env budget markets q total).
Proof. revert q total. induction markets as [|m l IH]; intros q total x; simpl; calm. Qed.
Hint Resolve process_markets_keeps validate_markets_keeps : copy.
Lemma compute_lp_token_value_keeps token a b : keeps sums_part (compute_lp_token_value env token a b).
Proof. calm. Qed.

Lemma load_markets_keeps_books markets last_seen :
  keeps (fun s => (books_part s, work_part s, COPY_TOTALS s)) (load_markets env markets last_seen).
Proof. revert last_seen. induction markets as [|m l IH]; intros last_seen x; simpl; calm. Qed.
Hint Resolve load_markets_keeps_books : copy.
Lemma loader_keeps_books : keeps (fun s => (books_part s, work_part s, COPY_TOTALS s)) (batched_stored_market_info env).
Proof. calm. Qed.
End Frames.

(** ** Steps of the books *)

Section Steps.
Context {CW : CosmwasmStd} {CWS : CosmwasmStdSpec CW}.

(** What a step on the increase queue leaves alone, and one on the other. *)
Definition not_inc_part (s : CopyStore) :=
  (COLLATERAL_DECREASE_QUEUE s, LAST_INSERTED_DEC_QUEUE_ID s, LAST_PROCESSED_DEC_QUEUE_ID s, MARKETS_TOKEN s).
Definition not_dec_part (s : CopyStore) :=
  (COLLATERAL_INCREASE_QUEUE s, LAST_INSERTED_INC_QUEUE_ID s, LAST_PROCESSED_INC_QUEUE_ID s, MARKETS_TOKEN s,
   PENDING_DEPOSITS s).

Definition same_shares (s s' : CopyStore) : Prop :=
  COPY_SHARES s' = COPY_SHARES s /\ forall t, total_shares (totals_of t s') = total_shares (totals_of t s).
(** The shares' clauses alone. *)
Definition shares_sum (s : CopyStore) : Prop :=
  (forall t, total_shares (totals_of t s) = wallet_shares t (COPY_SHARES s)) /\
  (forall k n, COPY_SHARES s !! k = Some n -> 0 < n).

Lemma same_shares_sum s s' : copy_books s -> same_shares s s' -> shares_sum s'.
Proof. intros Hs [E Ht]. split; rewrite E; [intros t; rewrite Ht|]; apply Hs. Qed.

Lemma books_quiet s s' :
  copy_books s -> books_part s' = books_part s -> MARKETS_TOKEN s' = MARKETS_TOKEN s ->
  (forall t, total_shares (totals_of t s') = total_shares (totals_of t s)) -> copy_books s'.
Proof.
  unfold books_part. intros [H1 H2 H3 H4 H5 H6 H7] [= E1 E2 E3 E4 E5 E6 E7 E8 E9] EM Ht.
  unfold pending_deposits_of, queued_deposits in *.
  split; unfold is_queued, pending_deposits_of, queued_deposits; rewrite ?E1, ?E2, ?E3, ?E4, ?E5, ?E6, ?E7, ?E8, ?E9, ?EM; try done.
  intros t. by rewrite Ht.
Qed.

Lemma books_push_inc s s' w q p :
  copy_books s -> next_queue_id (LAST_INSERTED_INC_QUEUE_ID s) = Ok q -> inc_status p = NotProcessed ->
  COLLATERAL_INCREASE_QUEUE s' = <[q := p]> (COLLATERAL_INCREASE_QUEUE s) ->
  LAST_INSERTED_INC_QUEUE_ID s' = Some q -> LAST_PROCESSED_INC_QUEUE_ID s' = LAST_PROCESSED_INC_QUEUE_ID s ->
  WALLET_QUEUE_ITEMS s' = <[(w, IncQueuePositionId q) := tt]> (WALLET_QUEUE_ITEMS s) ->
  not_inc_part s' = not_inc_part s -> same_shares s s' ->
  (forall t, pending_deposits_of t s' = pending_deposits_of t s + deposit_funds t p) -> copy_books s'.
Proof.
  intros Hs Hq Hp E1 E2 E3 E4 [= E5 E6 E7 E8] Hsh Hpend.
  pose proof (same_shares_sum _ _ Hs Hsh) as [Hsum Hpos]. destruct Hs as [H1 H2 H3 H4 _ _ H7].
  pose proof (next_queue_id_ok _ _ Hq) as Hq'.
  split; [| | | |done|done|by rewrite E8].
  - rewrite E1, E2, E3. eapply queue_sane_insert; [done..|by rewrite Hp].
  - by rewrite E5, E6, E7.
  - rewrite E4. intros w' id u. rewrite lookup_insert_Some. intros [[[= <- <-] _]|[_ Hi]]; simpl.
    + rewrite E2, last_or_none_Some. destruct H1 as [? _]. lia.
    + specialize (H3 _ _ _ Hi). destruct id; simpl in *; [rewrite E2, last_or_none_Some; lia|by rewrite E6].
  - intros t. unfold queued_deposits. rewrite Hpend, E1, map_sum_insert, H4. unfold queued_deposits, map_get.
    destruct (COLLATERAL_INCREASE_QUEUE s !! q) eqn:Hi; simpl; [|lia].
    assert (is_Some (COLLATERAL_INCREASE_QUEUE s !! q)) as Hx by (by rewrite Hi).
    apply H1 in Hx. lia.
Qed.

Lemma books_push_dec s s' w q p :
  copy_books s -> next_queue_id (LAST_INSERTED_DEC_QUEUE_ID s) = Ok q -> dec_status p = NotProcessed ->
  COLLATERAL_DECREASE_QUEUE s' = <[q := p]> (COLLATERAL_DECREASE_QUEUE s) ->
  LAST_INSERTED_DEC_QUEUE_ID s' = Some q -> LAST_PROCESSED_DEC_QUEUE_ID s' = LAST_PROCESSED_DEC_QUEUE_ID s ->
  WALLET_QUEUE_ITEMS s' = <[(w, DecQueuePositionId q) := tt]> (WALLET_QUEUE_ITEMS s) ->
  not_dec_part s' = not_dec_part s -> same_shares s s' -> copy_books s'.
Proof.
  intros Hs Hq Hp E1 E2 E3 E4 [= E5 E6 E7 E8 E9] Hsh.
  pose proof (same_shares_sum _ _ Hs Hsh) as [Hsum Hpos]. destruct Hs as [H1 H2 H3 H4 _ _ H7].
  pose proof (next_queue_id_ok _ _ Hq) as Hq'.
  split; [| | | |done|done|by rewrite E8].
  - by rewrite E5, E6, E7.
  - rewrite E1, E2, E3. eapply queue_sane_insert; [done..|by rewrite Hp].
  - rewrite E4. intros w' id u. rewrite lookup_insert_Some. intros [[[= <- <-] _]|[_ Hi]]; simpl.
    + rewrite E2, last_or_none_Some. destruct H2 as [? _]. lia.
    + specialize (H3 _ _ _ Hi). destruct id; simpl in *; [by rewrite E6|rewrite E2, last_or_none_Some; lia].
  - intros t. unfold pending_deposits_of, queued_deposits in *. by rewrite E5, E9.
Qed.

(** The item at the head of a queue changes, and is passed when it ends. *)
Definition inc_head (s : CopyStore) (q : Z) (p : IncQueuePosition) : Prop :=
  next_queue_id (LAST_PROCESSED_INC_QUEUE_ID s) = Ok q /\ COLLATERAL_INCREASE_QUEUE s !! q = Some p.
Definition dec_head (s : CopyStore) (q : Z) (p : DecQueuePosition) : Prop :=
  next_queue_id (LAST_PROCESSED_DEC_QUEUE_ID s) = Ok q /\ COLLATERAL_DECREASE_QUEUE s !! q = Some p.

Lemma books_head_inc s s' q p p' :
  copy_books s -> inc_head s q p ->
  COLLATERAL_INCREASE_QUEUE s' = <[q := p']> (COLLATERAL_INCREASE_QUEUE s) ->
  LAST_PROCESSED_INC_QUEUE_ID s' =
    (if status_pending (inc_status p') then LAST_PROCESSED_INC_QUEUE_ID s else Some q) ->
  LAST_INSERTED_INC_QUEUE_ID s' = LAST_INSERTED_INC_QUEUE_ID s ->
  WALLET_QUEUE_ITEMS s' = WALLET_QUEUE_ITEMS s -> not_inc_part s' = not_inc_part s -> shares_sum s' ->
  (forall t, pending_deposits_of t s' = pending_deposits_of t s - deposit_funds t p + deposit_funds t p') ->
  copy_books s'.
Proof.
  intros Hs [Hq Hi] E1 E2 E3 E4 [= E5 E6 E7 E8] [Hsum Hpos] Hpend. destruct Hs as [H1 H2 H3 H4 _ _ H7].
  split; [| | | |done|done|by rewrite E8].
  - rewrite E1, E2, E3. by eapply queue_sane_head.
  - by rewrite E5, E6, E7.
  - rewrite E4. intros w id u Hu. specialize (H3 _ _ _ Hu). destruct id; simpl in *; by rewrite ?E3, ?E6.
  - intros t. unfold queued_deposits. rewrite Hpend, E1, map_sum_insert, H4. unfold queued_deposits, map_get.
    rewrite Hi. simpl. lia.
Qed.

Lemma books_head_dec s s' q p p' :
  copy_books s -> dec_head s q p ->
  COLLATERAL_DECREASE_QUEUE s' = <[q := p']> (COLLATERAL_DECREASE_QUEUE s) ->
  LAST_PROCESSED_DEC_QUEUE_ID s' =
    (if status_pending (dec_status p') then LAST_PROCESSED_DEC_QUEUE_ID s else Some q) ->
  LAST_INSERTED_DEC_QUEUE_ID s' = LAST_INSERTED_DEC_QUEUE_ID s ->
  WALLET_QUEUE_ITEMS s' = WALLET_QUEUE_ITEMS s -> not_dec_part s' = not_dec_part s -> shares_sum s' ->
  copy_books s'.
Proof.
  intros Hs [Hq Hi] E1 E2 E3 E4 [= E5 E6 E7 E8 E9] [Hsum Hpos]. destruct Hs as [H1 H2 H3 H4 _ _ H7].
  split; [| | | |done|done|by rewrite E8].
  - by rewrite E5, E6, E7.
  - rewrite E1, E2, E3. by eapply queue_sane_head.
  - rewrite E4. intros w id u Hu. specialize (H3 _ _ _ Hu). destruct id; simpl in *; by rewrite ?E3, ?E6.
  - intros t. unfold pending_deposits_of, queued_deposits in *. by rewrite E5, E9.
Qed.

Lemma get_current_inc_ok s r :
  get_current_processed_inc_queue_id s = Ok r ->
  match r with Some (q, p) => inc_head s q p | None => True end.
Proof.
  unfold get_current_processed_inc_queue_id, inc_head. intros (q & Hq & [= <-])%rbind_ok.
  by destruct (_ !! q) eqn:E.
Qed.
Lemma get_current_dec_ok s r :
  get_current_processed_dec_queue_id s = Ok r ->
  match r with Some (q, p) => dec_head s q p | None => True end.
Proof.
  unfold get_current_processed_dec_queue_id, dec_head. intros (q & Hq & [= <-])%rbind_ok.
  by destruct (_ !! q) eqn:E.
Qed.

(** A market item does not wait for a deposit. *)
Lemma market_item_funds t p st :
  (forall f t', inc_item p <> IncDeposit f t') -> deposit_funds t (set_inc_status st p) = 0 /\ deposit_funds t p = 0.
Proof. intros H. unfold deposit_funds. simpl. destruct (inc_item p) as [f t'|]; [by destruct (H f t')|done]. Qed.

Lemma finish_inc_books s q p st u s' :
  copy_books s -> inc_head s q p -> (forall f t, inc_item p <> IncDeposit f t) ->
  status_pending st = false -> finish_inc_item q p st s = Ok (u, s') -> copy_books s'.
Proof.
  intros Hs Hh Hm Hst H. unfold finish_inc_item, save_inc_item in H. inv_ok.
  eapply (books_head_inc s _ q p (set_inc_status st p)); try done.
  - simpl. by rewrite Hst.
  - by apply (same_shares_sum s).
  - intros t. destruct (market_item_funds t p st Hm) as [-> ->]. unfold pending_deposits_of. simpl. lia.
Qed.
Lemma finish_dec_books s q p st u s' :
  copy_books s -> dec_head s q p -> status_pending st = false ->
  finish_dec_item q p st s = Ok (u, s') -> copy_books s'.
Proof.
  intros Hs Hh Hst H. unfold finish_dec_item, save_dec_item in H. inv_ok.
  eapply (books_head_dec s _ q p (set_dec_status st p)); try done.
  - simpl. by rewrite Hst.
  - by apply (same_shares_sum s).
Qed.
End Steps.

(** ** Operations *)

Section Operations.
Context {CW : CosmwasmStd} {CWS : CosmwasmStdSpec CW}.

Lemma totals_saved_shares m token x t :
  total_shares x = total_shares (default copy_totals_default (m !! token)) ->
  total_shares (default copy_totals_default ((<[token := x]> m : gmap CopyToken CopyTotals) !! t)) =
  total_shares (default copy_totals_default (m !! t)).
Proof.
  intros E. destruct (decide (token = t)) as [<-|Hne].
  - by rewrite lookup_insert_eq.
  - by rewrite lookup_insert_ne.
Qed.

Lemma load_totals_ok text token s t s' :
  load_totals text token s = Ok (t, s') -> s' = s /\ COPY_TOTALS s !! token = Some t.
Proof. unfold load_totals. intros [H%of_option_ok ->]%hask_ok. done. Qed.

Lemma outdate_lp_ok token s u s' :
  outdate_lp_value token s = Ok (u, s') ->
  exists v, LP_TOKEN_VALUE s !! token = Some v /\
    s' = set_LP_TOKEN_VALUE (<[token := set_outdated v]> (LP_TOKEN_VALUE s)) s.
Proof.
  unfold outdate_lp_value, save_lp_value. intros H. lift_in H v Hv. apply of_option_ok in Hv.
  apply hmod_ok in H. subst. by exists v.
Qed.

(** A message that takes collateral: sent, or the item fails. *)
Lemma take_and_send_books taken reason token q p m s msgs s' :
  copy_books s -> dec_head s q p -> take_and_send taken reason token q p m s = Ok (msgs, s') ->
  copy_books s' /\
  (msgs = [m] /\ dec_head s' q (set_dec_status InProgress p) /\ LAST_PROCESSED_DEC_QUEUE_ID s' = LAST_PROCESSED_DEC_QUEUE_ID s
   \/ msgs = []).
Proof.
  intros Hs Hh H. unfold take_and_send in H. step_in H t s1 H1. apply load_totals_ok in H1 as [-> Ht].
  destruct (taken <=? _).
  - lift_in H c Hc. step_in H u s2 H2. unfold save_totals_of in H2. apply hmod_ok in H2. subst s2.
    step_in H u2 s3 H3. apply outdate_lp_ok in H3 as (v & Hv & ->). unfold save_dec_item in H.
    inv_ok. split; [|left; split_and!; [done| |done]].
    + eapply (books_head_dec s _ q p (set_dec_status InProgress p)); try done.
      apply (same_shares_sum s); [done|]. split; [done|]. intros t0. unfold totals_of. simpl.
      apply totals_saved_shares. by rewrite Ht.
    + destruct Hh as [? ?]. split; [done|]. apply lookup_insert_eq.
  - step_in H u s2 H2. apply hret_ok in H as [-> ->]. split; [|by right].
    by refine (finish_dec_books _ _ _ _ _ _ Hs Hh _ H2).
Qed.

Lemma process_inc_queue_books fee token q p m s msgs s' :
  copy_books s -> inc_head s q p -> (forall f t, inc_item p <> IncDeposit f t) ->
  process_inc_queue fee token q p m s = Ok (msgs, s') ->
  copy_books s' /\
  (msgs = [m] /\ inc_head s' q (set_inc_status InProgress p) /\ LAST_PROCESSED_INC_QUEUE_ID s' = LAST_PROCESSED_INC_QUEUE_ID s
   \/ msgs = []).
Proof.
  intros Hs Hh Hm H. unfold process_inc_queue in H.
  assert (forall s1, same_shares s s1 -> inc_head s1 q p -> not_inc_part s1 = not_inc_part s -> books_part s1 = books_part s ->
    (outdate_lp_value token;;; save_inc_item q (set_inc_status InProgress p);;; hret [m]) s1 = Ok (msgs, s') ->
    copy_books s' /\ (msgs = [m] /\ inc_head s' q (set_inc_status InProgress p) /\
      LAST_PROCESSED_INC_QUEUE_ID s' = LAST_PROCESSED_INC_QUEUE_ID s \/ msgs = [])) as Hsend.
  { intros s1 Hsh [Hq1 _] Hn Hb K. step_in K u s2 H2. apply outdate_lp_ok in H2 as (v & Hv & ->).
    unfold save_inc_item in K. inv_ok. unfold books_part in Hb. injection Hb as E1 E2 E3 E4 E5 E6 E7 E8 E9.
    split; [|left; split_and!; [done| |done]].
    - eapply (books_head_inc s _ q p (set_inc_status InProgress p)); try done; simpl; try congruence.
      + by apply (same_shares_sum s).
      + intros t. destruct (market_item_funds t p InProgress Hm) as [-> ->]. unfold pending_deposits_of. simpl.
        rewrite E7. lia.
    - destruct Hh as [? ?]. split; [done|]. apply lookup_insert_eq. }
  destruct fee as [fee|]; [|by apply (Hsend s)].
  step_in H t s1 H1. apply load_totals_ok in H1 as [-> Ht]. destruct (fee <=? _).
  - lift_in H c Hc. step_in H u s2 H2. unfold save_totals_of in H2. apply hmod_ok in H2. subst s2.
    eapply Hsend; [| | | |exact H]; try done. split; [done|]. intros t0. unfold totals_of. simpl.
    apply totals_saved_shares. by rewrite Ht.
  - step_in H u s2 H2. apply hret_ok in H as [-> ->]. split; [|by right].
    by refine (finish_inc_books _ _ _ _ _ _ Hs Hh Hm _ H2).
Qed.

Lemma collateral_to_shares_ok v f n :
  collateral_to_shares v f = Ok n -> n = f * DEC_ONE / v /\ v <> 0 /\ 0 < n.
Proof.
  unfold collateral_to_shares. intros (x & Hx%std_ok & H%of_option_ok)%rbind_ok.
  apply dec_div_Some in Hx as (Hv & -> & Hd). apply nonzero_new_Some in H as [-> ?]. unfold is_dec in Hd.
  split_and!; [done..|lia].
Qed.

Lemma nonzero_sum x y z : nonzero_checked_add x y = Ok z -> z = x + y /\ 0 < z.
Proof.
  intros H. unfold nonzero_checked_add in H. apply rbind_ok in H as (v & [-> Hd]%ud_add_ok & H).
  apply panics_ok, nonzero_new_Some in H as [-> H]. unfold is_dec in Hd. lia.
Qed.

(** What a processed deposit does. *)
Lemma process_deposit_ok q p funds token s msgs s' :
  process_deposit q p funds token s = Ok (msgs, s') ->
  let k := (inc_wallet p, token) in
  exists v n collateral, LP_TOKEN_VALUE s !! token = Some v /\ collateral_to_shares (lv_value v) funds = Ok n /\
    collateral = total_collateral (totals_of token s) + funds /\ is_dec (total_shares (totals_of token s) + n) /\
    (COPY_SHARES s !! k <> None -> 0 < default 0 (COPY_SHARES s !! k) + n) /\
    msgs = [] /\ inc_status (set_inc_status Finished p) = Finished /\
    s' = set_LAST_PROCESSED_INC_QUEUE_ID (Some q)
           (set_COLLATERAL_INCREASE_QUEUE (<[q := set_inc_status Finished p]> (COLLATERAL_INCREASE_QUEUE s))
           (set_COPY_SHARES (<[k := default 0 (COPY_SHARES s !! k) + n]> (COPY_SHARES s))
           (set_PENDING_DEPOSITS (<[token := pending_deposits_of token s - funds]> (PENDING_DEPOSITS s))
           (set_COPY_TOTALS (<[token := mkCopyTotals collateral (total_shares (totals_of token s) + n)]> (COPY_TOTALS s)) s)))).
Proof.
  intros H k. unfold process_deposit in H. lift_in H lpv Hv. unfold load_lp_token_value in Hv.
  apply rbind_ok in Hv as (v & Hv%of_option_ok & [= <-]). step_in H t s1 H1. get_in H1.
  apply hbind_ok in H as ([n1 t1] & s2 & H2 & H). apply hlift_ok in H2 as [H2 ->].
  unfold totals_add_collateral in H2. apply rbind_ok in H2 as (n2 & Hn & H2).
  apply rbind_ok in H2 as (c & [-> _]%ud_add_ok & H2). apply rbind_ok in H2 as (sh & [-> Hsh]%ud_add_ok & [= <- <-]).
  step_in H u s3 H3. unfold save_totals_of in H3. apply hmod_ok in H3. subst s3.
  step_in H d s4 H4. get_in H4. lift_in H d' Hd. apply ud_sub_ok in Hd as [-> _].
  step_in H u2 s5 H5. apply hmod_ok in H5. subst s5. lift_in H n Hn'. rewrite Hn in Hn'. injection Hn' as <-.
  step_in H old s6 H6. get_in H6. lift_in H sum1 Htot. simpl in Htot.
  step_in H u3 s7 H7. apply hmod_ok in H7. subst s7. step_in H u4 s8 H8.
  unfold finish_inc_item, save_inc_item in H8. step_in H8 u5 s9 H9. apply hmod_ok in H9. apply hmod_ok in H8.
  apply hret_ok in H as [-> ->]. subst s9 s8. fold k in Htot. simpl.
  exists v, n2, (total_collateral (totals_of token s) + funds). split_and!; try done.
  - intros Hk. destruct (COPY_SHARES s !! k) as [old|]; [|done]. simpl.
    apply nonzero_sum in Htot as [-> ?]. done.
  - assert (sum1 = default 0 (COPY_SHARES s !! k) + n2) as ->; [|done].
    destruct (COPY_SHARES s !! k) as [old|]; simpl.
    + by apply nonzero_sum in Htot as [-> ?].
    + by injection Htot as <-.
Qed.

Lemma process_deposit_books q p funds token s msgs s' :
  copy_books s -> inc_head s q p -> inc_item p = IncDeposit funds token ->
  process_deposit q p funds token s = Ok (msgs, s') -> copy_books s' /\ msgs = [].
Proof.
  intros Hs Hh Hp (v & n & c & Hv & Hn & Hc & Hd & Hpos & -> & _ & ->)%process_deposit_ok.
  destruct (collateral_to_shares_ok _ _ _ Hn) as (_ & _ & Hnz).
  split; [|done]. eapply (books_head_inc s _ q p (set_inc_status Finished p)); try done.
  - split; simpl.
    + intros t. rewrite wallet_shares_insert. simpl. rewrite <- (cb_shares s Hs).
      unfold totals_of. simpl. destruct (decide (token = t)) as [<-|Hne].
      * rewrite lookup_insert_eq. simpl. lia.
      * rewrite lookup_insert_ne by done. lia.
    + intros k m. rewrite lookup_insert_Some. intros [[<- <-]|[_ Hk]]; [|by eapply (cb_positive s Hs)].
      destruct (COPY_SHARES s !! (inc_wallet p, token)) as [old|] eqn:E; simpl in *; [by apply Hpos|].
      done.
  - intros t. unfold pending_deposits_of, deposit_funds. simpl. rewrite Hp.
    assert (status_pending (inc_status p) = true) as ->.
    { destruct Hh as [Hq Hi]. destruct (cb_inc s Hs) as (_ & _ & Hpend). apply (Hpend _ _ Hi).
      rewrite (next_queue_id_ok _ _ Hq). lia. }
    rewrite andb_false_r, andb_true_r. destruct (decide (token = t)) as [<-|Hne].
    + rewrite lookup_insert_eq, bool_decide_true by done. unfold pending_deposits_of. simpl. lia.
    + rewrite lookup_insert_ne, bool_decide_false by done. lia.
Qed.

(** What a processed withdrawal does. *)
Definition withdrawn (q : Z) (p : DecQueuePosition) (st : ItemStatus) (s : CopyStore) : CopyStore :=
  set_COLLATERAL_DECREASE_QUEUE (<[q := set_dec_status st p]> (COLLATERAL_DECREASE_QUEUE s)) s.
Lemma process_withdrawal_ok q p shares token s msgs s' :
  process_withdrawal q p shares token s = Ok (msgs, s') ->
  let k := (dec_wallet p, token) in let s1 := set_LAST_PROCESSED_DEC_QUEUE_ID (Some q) s in
  (exists reason, msgs = [] /\ s' = withdrawn q p (Failed reason) s1) \/
  (exists actual v funds market_token m t totals, COPY_SHARES s !! k = Some actual /\ shares <= actual /\
     LP_TOKEN_VALUE s !! token = Some v /\ copy_shares_to_collateral (lv_value v) shares = Ok funds /\
     get_first_full_token_info s token = Ok market_token /\
     into_transfer_msg market_token (dec_wallet p) funds = Ok (Some m) /\ to_token market_token = Ok t /\
     COPY_TOTALS s !! t = Some totals /\ funds <= total_collateral totals /\
     is_dec (total_shares totals - shares) /\ is_dec (actual - shares) /\ msgs = [CopyPay m] /\
     s' = withdrawn q p Finished
            (set_COPY_TOTALS (<[t := mkCopyTotals (total_collateral totals - funds) (total_shares totals - shares)]>
                                (COPY_TOTALS s))
            (set_COPY_SHARES (match nonzero_new (actual - shares) with
                              | None => delete k (COPY_SHARES s)
                              | Some rest => <[k := rest]> (COPY_SHARES s)
                              end) s1))).
Proof.
  intros H k s1. unfold process_withdrawal in H. step_in H u s2 H1. apply hmod_ok in H1. subst s2. fold s1 in H.
  cbv zeta in H. step_in H actual s2 H2. get_in H2. unfold save_dec_item in H.
  destruct (COPY_SHARES s1 !! _) as [actual|] eqn:Ha; simpl in Ha.
  2: { inv_ok. left. by eexists. }
  destruct ((actual <? shares) && negb (shares =? actual)) eqn:E; [inv_ok; left; by eexists|].
  lift_in H v Hv. unfold load_lp_token_value in Hv. apply rbind_ok in Hv as (v0 & Hv%of_option_ok & [= <-]).
  lift_in H funds Hf. lift_in H mt Hmt. lift_in H msg Hmsg. lift_in H rest Hrest. apply ud_sub_ok in Hrest as [-> Hrest].
  lift_in H t Ht. step_in H totals s3 H3. apply load_totals_ok in H3 as [-> Htot].
  destruct (total_collateral totals <? funds) eqn:Hle; [inv_ok; left; by eexists|].
  lift_in H c Hc. apply ud_sub_ok in Hc as [-> _]. lift_in H sh Hsh. apply ud_sub_ok in Hsh as [-> Hsh].
  destruct msg as [m|]; [|inv_ok; left; by eexists].
  right. step_in H u1 s4 H4. apply hmod_ok in H4. subst s4. step_in H u2 s5 H5. unfold save_totals_of in H5.
  apply hmod_ok in H5. subst s5. step_in H u3 s6 H6. apply hmod_ok in H6. apply hret_ok in H as [-> ->]. subst s6.
  bool_prop. exists actual, v0, funds, mt, m, t, totals. split_and!; try done.
  destruct (actual <? shares) eqn:E1; simpl in E; bool_prop; lia.
Qed.

(** The token of a market is the one it is filed under. *)
Lemma token_markets_lookup s token from m :
  m ∈ load_market_ids_with_token s token from -> exists k, MARKETS_TOKEN s !! (token, k) = Some m.
Proof.
  unfold load_market_ids_with_token. rewrite list_elem_of_fmap. intros ([k m'] & -> & Hin). exists k.
  apply range_asc_spec in Hin as [Hin _]. by rewrite prefix_of_lookup in Hin.
Qed.
Lemma first_token_filed s token market_token :
  copy_books s -> get_first_full_token_info s token = Ok market_token -> to_token market_token = Ok token.
Proof.
  unfold get_first_full_token_info. intros Hs H.
  destruct (load_market_ids_with_token s token None) as [|m l] eqn:E; [done|]. injection H as <-.
  destruct (token_markets_lookup s token None m) as [k Hk]; [rewrite E; by left|].
  by apply (cb_markets s Hs) in Hk as [? _].
Qed.

Lemma process_withdrawal_books q p shares token s msgs s' :
  copy_books s -> dec_head s q p -> process_withdrawal q p shares token s = Ok (msgs, s') ->
  copy_books s' /\ (forall reply_id m, msgs <> [CopyMarketMsg reply_id m]).
Proof.
  intros Hs Hh [(reason & -> & ->)|(actual & v & funds & mt & m & t & totals & Hact & Hle & Hv & Hf & Hmt & Hmsg & Ht & Htot & _ & Hd & Hd' & -> & ->)]%process_withdrawal_ok;
    (split; [|done]); unfold withdrawn.
  - eapply (books_head_dec s _ q p (set_dec_status (Failed reason) p)); try done. by apply (same_shares_sum s).
  - rewrite (first_token_filed _ _ _ Hs Hmt) in Ht. injection Ht as <-.
    eapply (books_head_dec s _ q p (set_dec_status Finished p)); try done.
    pose proof (cb_shares s Hs) as Hsum. unfold totals_of in Hsum.
    assert (forall t0, wallet_shares t0 match nonzero_new (actual - shares) with
              | Some rest => <[(dec_wallet p, token) := rest]> (COPY_SHARES s)
              | None => delete (dec_wallet p, token) (COPY_SHARES s) end =
            wallet_shares t0 (COPY_SHARES s) - if decide (token = t0) then shares else 0) as Hw.
    { intros t0. destruct (nonzero_new _) as [r|] eqn:E.
      - apply nonzero_new_Some in E as [-> _]. rewrite wallet_shares_insert, Hact. simpl. destruct (decide _); lia.
      - apply nonzero_new_None in E. rewrite wallet_shares_delete, Hact. simpl. destruct (decide _); lia. }
    split; simpl.
    + intros t0. rewrite Hw, <- Hsum. unfold totals_of. simpl. destruct (decide (token = t0)) as [<-|Hne].
      * rewrite lookup_insert_eq, Htot. simpl. lia.
      * rewrite lookup_insert_ne by done. lia.
    + intros k n. destruct (nonzero_new _) as [r|] eqn:E.
      * apply nonzero_new_Some in E as [-> E]. unfold is_dec in Hd'. rewrite lookup_insert_Some.
        intros [[_ <-]|[_ Hk]]; [lia|by eapply (cb_positive s Hs)].
      * rewrite lookup_delete_Some. intros [_ Hk]. by eapply (cb_positive s Hs).
Qed.

Lemma process_queue_item_books env qid s msgs s' :
  copy_books s ->
  match qid with
  | IncQueuePositionId q => exists p, inc_head s q p
  | DecQueuePositionId q => exists p, dec_head s q p
  end ->
  process_queue_item env qid s = Ok (msgs, s') -> copy_books s'.
Proof.
  intros Hs Hh H. unfold process_queue_item in H. destruct qid as [q|q]; destruct Hh as [p Hh].
  - lift_in H p' Hp. apply of_option_ok in Hp. destruct Hh as [Hq Hi]. rewrite Hi in Hp. injection Hp as <-.
    destruct (inc_item p) as [funds token|mid token item] eqn:Hitem.
    + by eapply (process_deposit_books q p funds token s) in H as [? _].
    + unfold process_inc_market_item in H. lift_in H info Hinfo.
      assert (forall f t, inc_item p <> IncDeposit f t) as Hm by (rewrite Hitem; done).
      destruct item; cbv zeta beta in H;
        [lift_in H fee Hfee; lift_in H msg Hmsg|lift_in H fee Hfee; lift_in H msg Hmsg| |];
        by apply (process_inc_queue_books _ _ _ _ _ _ _ _ Hs (conj Hq Hi) Hm) in H as [? _].
  - lift_in H p' Hp. apply of_option_ok in Hp. destruct Hh as [Hq Hi]. rewrite Hi in Hp. injection Hp as <-.
    destruct (dec_item p) as [tokens token|mid token item] eqn:Hitem.
    + by eapply (process_withdrawal_books q p tokens token s) in H as [? _].
    + unfold process_dec_market_item in H. lift_in H info Hinfo. cbv zeta in H.
      unfold process_dec_queue, process_dec_crank_queue in H.
      destruct (dec_collateral_msg item) as [[[c rid] msg]|], (dec_update_msg item) as [[rid' msg']|];
        try (apply hret_ok in H as [_ ->]; exact Hs);
        [lift_in H m1 Hm1|lift_in H m1 Hm1|lift_in H fee Hfee; lift_in H m1 Hm1];
        by apply (take_and_send_books _ _ _ _ _ _ _ _ _ Hs (conj Hq Hi)) in H as [? _].
Qed.
End Operations.

(** ** Work and messages *)

Section Messages.
Context {CW : CosmwasmStd} {CWS : CosmwasmStdSpec CW}.

Lemma keeps_ok {A} {B} (f : CopyStore -> B) (h : copy_handler A) s a s' :
  keeps f h -> h s = Ok (a, s') -> f s' = f s.
Proof. intros Hk H. exact (Hk (f s) s a s' eq_refl H). Qed.

Lemma books_keeps {A} (h : copy_handler A) s a s' :
  keeps sums_part h -> copy_books s -> h s = Ok (a, s') -> copy_books s'.
Proof.
  intros Hk Hs H. pose proof (keeps_ok sums_part h _ _ _ Hk H) as E.
  pose proof (f_equal fst E) as EM; pose proof (f_equal (fun x => x.1.2) E) as ET.
  unfold sums_part in EM, ET; simpl in EM, ET.
  apply (books_quiet s); [done|exact (f_equal (fun x => x.1.1) E)|exact (f_equal snd E)|].
  intros t. unfold totals_of. by rewrite ET.
Qed.

(** The markets that are loaded are filed under their token. *)
Definition markets_filed (s : CopyStore) : Prop :=
  forall t k m, MARKETS_TOKEN s !! (t, k) = Some m -> to_token (cmi_token m) = Ok t /\ k = mid_encoded (cmi_id m).

Lemma cache_market_filed env id : preserves markets_filed (copy_cache_market_info env id).
Proof.
  intros s m s' Hs H. unfold copy_cache_market_info in H. apply hbind_ok in H as ([m1 b] & s1 & H1 & H).
  apply hask_ok in H1 as [_ ->]. destruct b; [by apply hret_ok in H as [_ ->]|].
  step_in H u s2 H2. apply hmod_ok in H2. subst s2. lift_in H t Ht. step_in H u2 s3 H3. apply hmod_ok in H3.
  apply hret_ok in H as [-> ->]. subst s3. intros t' k m'. simpl. rewrite lookup_insert_Some.
  intros [[[= <- <-] <-]|[_ Hk]]; [done|by apply Hs].
Qed.
Lemma loader_filed env : preserves markets_filed (batched_stored_market_info env).
Proof.
  assert (forall markets last_seen, preserves markets_filed (load_markets env markets last_seen)) as Hl.
  { induction markets as [|m l IH]; intros last_seen; simpl; [apply preserves_ret|].
    apply preserves_bind; [apply cache_market_filed|auto]. }
  assert (forall start, preserves markets_filed (load_market_page env start)) as Hp.
  { intros start. unfold load_market_page, checked_markets_now. apply preserves_bind; [apply preserves_lift|].
    intros markets. destruct (is_empty markets).
    - apply preserves_bind; [apply preserves_mod; auto|]. intros _.
      destruct start; [apply preserves_mod; auto|apply preserves_ret].
    - apply preserves_bind; [apply Hl|]. intros l.
      apply preserves_bind; [|intros _; apply preserves_mod; auto].
      destruct l; [apply preserves_mod; auto|apply preserves_ret]. }
  unfold batched_stored_market_info, checked_markets_now. apply preserves_bind; [apply preserves_get|].
  intros [|l|l]; [apply Hp..|]. apply preserves_bind; [apply preserves_lift|]. intros [a|]; [|apply preserves_ret].
  apply preserves_bind; [apply preserves_get|]. intros [b|]; [|apply preserves_err].
  destruct (b <? a); [apply Hp|apply preserves_mod; auto].
Qed.

Lemma loader_books env s u s' : copy_books s -> batched_stored_market_info env s = Ok (u, s') -> copy_books s'.
Proof.
  intros Hs H. pose proof (keeps_ok _ _ _ _ _ (loader_keeps_books env) H) as E.
  assert (markets_filed s') as Hm by (eapply loader_filed; [|exact H]; exact (cb_markets s Hs)).
  unfold books_part in E. injection E. intros ET _ _ _ _ E9 E8 E7 E6 E5 E4 E3 E2 E1.
  destruct Hs as [H1 H2 H3 H4 H5 H6 H7].
  split; unfold is_queued, pending_deposits_of, queued_deposits, totals_of in *;
    rewrite ?E1, ?E2, ?E3, ?E4, ?E5, ?E6, ?E7, ?E8, ?E9, ?ET; done.
Qed.

Lemma rebalance_books env token amount start s msgs s' :
  copy_books s -> copy_rebalance env token amount start s = Ok (msgs, s') -> copy_books s' /\ msgs = [].
Proof.
  intros Hs H. unfold copy_rebalance in H. step_in H ms s1 H1. get_in H1. step_in H t s2 H2. get_in H2.
  apply hbind_ok in H as ([[[check c] early] at_market] & s3 & H3 & H).
  pose proof (books_keeps _ _ _ _ (settle_markets_keeps env _ _ _ _ _ _ _ _) Hs H3) as Hs3.
  pose proof (keeps_ok _ _ _ _ _ (settle_markets_keeps env _ _ _ _ _ _ _ _) H3) as E3.
  pose proof (f_equal (fun x => x.1.2) E3) as ET. simpl in ET.
  apply hbind_ok in H as (c2 & s4 & H4 & H).
  assert (s4 = s3) as ->.
  { destruct (_ && _); [lift_in H4 d Hd; by apply hlift_ok in H4 as [_ ->]|by apply hret_ok in H4 as [_ ->]]. }
  step_in H u s5 H5. unfold save_totals_of in H. step_in H u2 s6 H6. apply hmod_ok in H6.
  apply hret_ok in H as [-> ->]. subst s6. split; [|done].
  assert (sums_part s5 = sums_part s3) as E5 by (eapply (keeps_ok sums_part); [|exact H5]; calm).
  pose proof (f_equal (fun x => x.1.2) E5) as ET5. simpl in ET5.
  apply (books_quiet s3); [done|exact (f_equal (fun x => x.1.1) E5)|exact (f_equal snd E5)|].
  intros t0. unfold totals_of. simpl. rewrite ET5. apply totals_saved_shares. simpl. unfold totals_of. by rewrite ET.
Qed.

(** Which item is processed: the one a queue is at. *)
Lemma queue_item_work_process env s qid status token d q :
  (forall id q, d id <> Ok (CopyHasWork (ProcessQueueItem q))) ->
  queue_item_work env s qid status token d = Ok (CopyHasWork (ProcessQueueItem q)) -> q = qid.
Proof.
  intros Hd H. unfold queue_item_work in H.
  assert (forall t q, check_balance_work env s t <> Ok (CopyHasWork (ProcessQueueItem q))) as Hb.
  { intros t q' K. unfold check_balance_work in K. do 4 (apply rbind_ok in K as (? & _ & K)).
    destruct (_ <=? BALANCE_EPSILON).
    - apply rbind_ok in K as ([] & _ & K); discriminate K.
    - do 2 (apply rbind_ok in K as (? & _ & K)). discriminate K. }
  destruct token as [t|]; [destruct (LP_TOKEN_VALUE s !! t) as [v|]; [destruct (lp_status_valid _ _)|]|].
  - destruct (in_progress status), (deferred_exec_of s); try (by injection H as <-). by apply Hd in H.
  - destruct (deferred_exec_of s); [by apply Hd in H|]. apply rbind_ok in H as ([] & _ & H); [discriminate H|].
    by apply Hb in H.
  - by apply Hb in H.
  - destruct (in_progress status), (deferred_exec_of s); try (by injection H as <-). by apply Hd in H.
Qed.

Lemma settled_deferred_never env s mid id q : settled_deferred_work env s mid id <> Ok (CopyHasWork (ProcessQueueItem q)).
Proof.
  unfold settled_deferred_work. intros (m & _ & H)%rbind_ok. apply rbind_ok in H as (r & _ & H).
  destruct r as [item|]; [|discriminate H]. destruct (is_pending _); discriminate H.
Qed.

Lemma get_work_process env s qid :
  copy_get_work env s = Ok (CopyHasWork (ProcessQueueItem qid)) ->
  match qid with
  | IncQueuePositionId q => exists p, inc_head s q p
  | DecQueuePositionId q => exists p, dec_head s q p
  end.
Proof.
  intros H. unfold copy_get_work in H. destruct (get_batch_work s) as [w|] eqn:Hb.
  - injection H as ->. unfold get_batch_work in Hb. destruct (CURRENT_BATCH_WORK s) as [[]|]; discriminate Hb.
  - apply rbind_ok in H as ([] & _ & H); [discriminate H|]. apply rbind_ok in H as (inc & Hinc & H).
    apply get_current_inc_ok in Hinc. destruct inc as [[q p]|].
    + apply queue_item_work_process in H as ->; [by exists p|]. intros id q' K.
      unfold get_inc_deferred_work in K. apply rbind_ok in K as ([[z i]|] & _ & K); [|discriminate K].
      destruct (inc_item i); [discriminate K|by apply settled_deferred_never in K].
    + apply rbind_ok in H as (dec & Hdec & H). apply get_current_dec_ok in Hdec.
      destruct dec as [[q p]|]; [|discriminate H].
      apply queue_item_work_process in H as ->; [by exists p|]. intros id q' K.
      unfold get_dec_deferred_work in K. apply rbind_ok in K as ([[z i]|] & _ & K); [|discriminate K].
      destruct (dec_item i); [discriminate K|by apply settled_deferred_never in K].
Qed.

Lemma deferred_outcome_ok env mid id s st s' :
  deferred_outcome env mid id s = Ok (st, s') -> s' = s /\ status_pending st = false.
Proof.
  intros H. unfold deferred_outcome in H. lift_in H m Hm. lift_in H r Hr. destruct r as [item|]; [|by inv_ok].
  destruct (de_status item); inv_ok; done.
Qed.

Lemma handle_deferred_books env s msgs s' :
  copy_books s -> handle_deferred_exec_id env s = Ok (msgs, s') -> copy_books s' /\ msgs = [].
Proof.
  intros Hs H. unfold handle_deferred_exec_id in H. step_in H o s1 H1. get_in H1. lift_in H did Hdid.
  lift_in H inc Hinc. apply get_current_inc_ok in Hinc. destruct inc as [[q p]|].
  - lift_in H u Hu. destruct (inc_item p) as [|mid token item] eqn:Hi; [by inv_ok|].
    step_in H st s2 H2. apply deferred_outcome_ok in H2 as [-> Hst]. step_in H u2 s3 H3.
    apply finish_inc_books in H3; [|done..|by rewrite Hi|done].
    step_in H u3 s4 H4. apply hmod_ok in H4. apply hret_ok in H as [-> ->]. subst s4. split; [|done].
    by apply (books_quiet s3).
  - lift_in H dec Hdec. apply get_current_dec_ok in Hdec. destruct dec as [[q p]|]; [|by inv_ok].
    lift_in H u Hu. destruct (dec_item p) as [|mid token item] eqn:Hi; [by inv_ok|].
    step_in H st s2 H2. apply deferred_outcome_ok in H2 as [-> Hst]. step_in H u2 s3 H3.
    apply finish_dec_books in H3; [|done..].
    step_in H u3 s4 H4. apply hmod_ok in H4. apply hret_ok in H as [-> ->]. subst s4. split; [|done].
    by apply (books_quiet s3).
Qed.

Lemma do_work_books env s msgs s' : copy_books s -> copy_do_work env s = Ok (msgs, s') -> copy_books s'.
Proof.
  intros Hs H. unfold copy_do_work in H. lift_in H work Hwork. destruct work as [|[]]; [by inv_ok|..].
  - step_in H u s1 H1. apply hret_ok in H as [-> ->]. by eapply loader_books.
  - step_in H u s1 H1. apply hret_ok in H as [-> ->].
    exact (books_keeps _ _ _ _ (compute_lp_token_value_keeps env _ _ _) Hs H1).
  - eapply process_queue_item_books; [done| |exact H]. exact (get_work_process _ _ _ Hwork).
  - exact (books_keeps _ _ _ _ (reset_stats_keeps _) Hs H).
  - by apply handle_deferred_books in H as [? _].
  - by apply rebalance_books in H as [? _].
Qed.

(** Messages that join a queue. *)
Lemma push_dec_ok p s msgs s' :
  copy_books s -> dec_status p = NotProcessed -> decrease_collateral_response p s = Ok (msgs, s') ->
  copy_books s' /\ msgs = [].
Proof.
  intros Hs Hp H. unfold decrease_collateral_response, get_next_dec_queue_id, save_wallet_item, save_dec_item in H.
  step_in H q s1 H1. lift_in H1 q1 Hq. step_in H1 u s2 H2. apply hmod_ok in H2. apply hret_ok in H1 as [-> ->].
  step_in H c s3 H3. get_in H3. step_in H u1 s4 H4. apply hmod_ok in H4. step_in H u2 s5 H5. apply hmod_ok in H5.
  apply hret_ok in H as [-> ->]. subst s5 s4 s2. split; [|done].
  by eapply (books_push_dec s _ (cyc_leader (COPY_CONFIG s)) q1 p).
Qed.
(** The state after [get_next_inc_queue_id] and the two saves of an item. *)
Definition inc_pushed (wallet : Addr) (q : Z) (p : IncQueuePosition) (s : CopyStore) : CopyStore :=
  set_COLLATERAL_INCREASE_QUEUE (<[q := p]> (COLLATERAL_INCREASE_QUEUE s))
    (set_WALLET_QUEUE_ITEMS (<[(wallet, IncQueuePositionId q) := tt]> (WALLET_QUEUE_ITEMS s))
       (set_LAST_INSERTED_INC_QUEUE_ID (Some q) s)).
Lemma increase_response_ok p s msgs s' :
  increase_collateral_response p s = Ok (msgs, s') ->
  msgs = [] /\ exists q, next_queue_id (LAST_INSERTED_INC_QUEUE_ID s) = Ok q /\
    s' = inc_pushed (cyc_leader (COPY_CONFIG s)) q p s.
Proof.
  intros H. unfold increase_collateral_response, get_next_inc_queue_id, save_wallet_item, save_inc_item in H.
  step_in H q s1 H1. lift_in H1 q1 Hq. step_in H1 u s2 H2. apply hmod_ok in H2. apply hret_ok in H1 as [-> ->].
  step_in H c s3 H3. get_in H3. step_in H u1 s4 H4. apply hmod_ok in H4. step_in H u2 s5 H5. apply hmod_ok in H5.
  apply hret_ok in H as [-> ->]. subst s5 s4 s2. split; [done|]. by exists q1.
Qed.
Lemma copy_deposit_ok sender funds token s msgs s' :
  copy_deposit sender funds token s = Ok (msgs, s') ->
  msgs = [] /\ exists q, next_queue_id (LAST_INSERTED_INC_QUEUE_ID s) = Ok q /\
    s' = set_PENDING_DEPOSITS (<[token := pending_deposits_of token s + funds]> (PENDING_DEPOSITS s))
           (inc_pushed sender q (mkIncQueuePosition (IncDeposit funds token) sender NotProcessed) s).
Proof.
  intros H. unfold copy_deposit, get_next_inc_queue_id, save_wallet_item, save_inc_item in H.
  step_in H q s1 H1. lift_in H1 q1 Hq. step_in H1 u s2 H2. apply hmod_ok in H2. apply hret_ok in H1 as [-> ->].
  step_in H u1 s4 H4. apply hmod_ok in H4. step_in H u2 s5 H5. apply hmod_ok in H5.
  step_in H d s6 H6. get_in H6. lift_in H d' Hd. apply ud_add_ok in Hd as [-> _].
  step_in H u3 s7 H7. apply hmod_ok in H7. apply hret_ok in H as [-> ->]. subst s7 s5 s4 s2. split; [done|].
  by exists q1.
Qed.
Lemma push_inc_ok p s msgs s' :
  copy_books s -> inc_status p = NotProcessed -> (forall f t, inc_item p <> IncDeposit f t) ->
  increase_collateral_response p s = Ok (msgs, s') -> copy_books s' /\ msgs = [].
Proof.
  intros Hs Hp Hm [-> (q & Hq & ->)]%increase_response_ok. split; [|done].
  eapply (books_push_inc s _ (cyc_leader (COPY_CONFIG s)) q p); try done.
  intros t. destruct (market_item_funds t p NotProcessed Hm) as [_ ->]. unfold pending_deposits_of. simpl. lia.
Qed.

Lemma leader_msg_books mid msg c s msgs s' :
  copy_books s -> execute_leader_msg mid msg c s = Ok (msgs, s') -> copy_books s' /\ msgs = [].
Proof.
  intros Hs H. unfold execute_leader_msg in H. lift_in H m Hm. lift_in H t Ht. step_in H u s1 H1.
  assert (s1 = s) as -> by (destruct c; [step_in H1 tt1 s2 H2; get_in H2; by inv_ok|by inv_ok]).
  step_in H cfg s2 H2. get_in H2. cbv zeta in H.
  destruct (leader_collateral_item msg c) as [r|].
  - lift_in H item Hitem. by eapply push_dec_ok in H.
  - destruct (leader_update_item msg) as [item|]; [by eapply push_dec_ok in H|].
    destruct (leader_increase_item msg) as [item|]; [by eapply push_inc_ok in H|]. by inv_ok.
Qed.

Lemma copy_deposit_books sender funds token s msgs s' :
  copy_books s -> copy_deposit sender funds token s = Ok (msgs, s') -> copy_books s' /\ msgs = [].
Proof.
  intros Hs [-> (q & Hq & ->)]%copy_deposit_ok. split; [|done].
  eapply (books_push_inc s _ sender q (mkIncQueuePosition (IncDeposit funds token) sender NotProcessed)); try done.
  intros t. unfold pending_deposits_of, deposit_funds. simpl.
  rewrite andb_true_r. destruct (decide (token = t)) as [<-|Hne].
  - rewrite lookup_insert_eq, bool_decide_true by done. done.
  - rewrite lookup_insert_ne, bool_decide_false by done. lia.
Qed.

Lemma copy_withdraw_books wallet shares token s msgs s' :
  copy_books s -> copy_withdraw wallet shares token s = Ok (msgs, s') -> copy_books s' /\ msgs = [].
Proof.
  intros Hs H. unfold copy_withdraw, get_next_dec_queue_id, save_wallet_item, save_dec_item in H.
  step_in H a s1 H1. get_in H1. step_in H u s2 H2.
  assert (s2 = s) as -> by (destruct (COPY_SHARES s !! _); by inv_ok).
  step_in H q s3 H3. lift_in H3 q1 Hq. step_in H3 u1 s4 H4. apply hmod_ok in H4. apply hret_ok in H3 as [-> ->].
  step_in H u2 s5 H5. apply hmod_ok in H5. step_in H u3 s6 H6. apply hmod_ok in H6.
  apply hret_ok in H as [-> ->]. subst s6 s5 s4. split; [|done].
  by eapply (books_push_dec s _ wallet q1 (mkDecQueuePosition (DecWithdrawal shares token) wallet NotProcessed)).
Qed.

Lemma leader_withdrawal_keeps requested token : keeps sums_part (leader_withdrawal requested token).
Proof. calm. Qed.
Lemma leader_update_config_keeps u : keeps sums_part (leader_update_config u).
Proof. calm. Qed.
Lemma factory_update_config_keeps u : keeps sums_part (factory_update_config u).
Proof. calm. Qed.

Lemma copy_execute_books from_json env info msg s msgs s' :
  copy_books s -> copy_execute from_json env info msg s = Ok (msgs, s') -> copy_books s'.
Proof.
  intros Hs H. unfold copy_execute in H. apply hbind_ok in H as ([[funds m] sender] & s0 & H0 & H).
  apply hlift_ok in H0 as [_ ->]. step_in H c s1 H1. get_in H1. destruct m.
  - by inv_ok.
  - lift_in H t Ht. lift_in H mt Hmt. lift_in H f Hf. by apply copy_deposit_books in H as [? _].
  - lift_in H u Hu. apply copy_withdraw_books in H as [Hb _]; done.
  - lift_in H u Hu. lift_in H u2 Hu2. exact (books_keeps _ _ _ _ (leader_update_config_keeps _) Hs H).
  - lift_in H u Hu. lift_in H u2 Hu2. exact (books_keeps _ _ _ _ (factory_update_config_keeps _) Hs H).
  - lift_in H u Hu. lift_in H u2 Hu2. by apply leader_msg_books in H as [? _].
  - lift_in H u Hu. lift_in H u2 Hu2. exact (books_keeps _ _ _ _ (leader_withdrawal_keeps _ _) Hs H).
  - lift_in H u Hu. by eapply do_work_books.
Qed.

(** ** Replies *)

Lemma current_dec_item_ok s q p mid t item s' :
  current_dec_market_item s = Ok (q, p, mid, t, item, s') -> s' = s /\ dec_head s q p.
Proof.
  intros H. unfold current_dec_market_item in H. lift_in H o Ho.
  apply hbind_ok in H as ([q1 p1] & s1 & H1 & H). apply hlift_ok in H1 as [H1%of_option_ok ->]. subst o.
  apply get_current_dec_ok in Ho. lift_in H u Hu. destruct (dec_item p1); [by inv_ok|].
  apply hret_ok in H as [[= -> -> -> -> ->] ->]. done.
Qed.

Lemma give_back_books c text token s u s' :
  copy_books s -> give_back c text token s = Ok (u, s') -> copy_books s' /\ books_part s' = books_part s.
Proof.
  intros Hs H. unfold give_back in H. step_in H t s1 H1. apply load_totals_ok in H1 as [-> Ht].
  destruct c as [c|]; [|by inv_ok]. lift_in H n Hn. unfold save_totals_of in H. inv_ok. split; [|done].
  apply (books_quiet s); [done..|]. intros t0. unfold totals_of. simpl. apply totals_saved_shares. by rewrite Ht.
Qed.

Lemma handle_dec_failure_books text undo s u s' :
  (forall token item s u s', copy_books s -> undo token item s = Ok (u, s') ->
     copy_books s' /\ books_part s' = books_part s) ->
  copy_books s -> handle_dec_failure text undo s = Ok (u, s') -> copy_books s'.
Proof.
  intros Hundo Hs H. unfold handle_dec_failure in H.
  apply hbind_ok in H as ([[[[q p] mid] t] item] & s1 & [-> [Hq Hi]]%current_dec_item_ok & H).
  step_in H u1 s2 H2. apply Hundo in H2 as [H2 E]; [|done]. unfold books_part in E. injection E as E1 E2 E3 E4 E5 E6 E7 E8 E9.
  refine (finish_dec_books _ _ _ _ _ _ H2 _ _ H); [|done]. split; congruence.
Qed.

Lemma copy_reply_books id result s u s' : copy_books s -> copy_reply id result s = Ok (u, s') -> copy_books s'.
Proof.
  intros Hs H. unfold copy_reply in H. step_in H u1 s1 H1. apply hensure_ok in H1 as [_ ->].
  destruct result as [events|e].
  - unfold handle_sucess in H. lift_in H did Hid. step_in H o s2 H2. get_in H2.
    step_in H u2 s3 H3. apply hensure_ok in H3 as [_ ->]. apply hmod_ok in H. subst s'. by apply (books_quiet s).
  - unfold reply_failure in H.
    repeat match type of H with (if ?b then _ else _) _ = _ => destruct b end;
      try (eapply handle_dec_failure_books; [|done|exact H]; intros token item s1 v s2 Hs1 K;
           exact (give_back_books _ _ _ _ _ _ Hs1 K)).
    + unfold handle_inc_failure in H. lift_in H o Ho. apply hbind_ok in H as ([q p] & s1 & H1 & H).
      apply hlift_ok in H1 as [H1%of_option_ok ->]. subst o. apply get_current_inc_ok in Ho.
      lift_in H u2 Hu. destruct (inc_item p) as [|mid t item] eqn:Hi; [by inv_ok|].
      refine (finish_inc_books _ _ _ _ _ _ Hs Ho _ _ H); [by rewrite Hi|done].
    + unfold dec_failure in H.
      apply hbind_ok in H as ([[[[q p] mid] t] item] & s1 & [-> Hh]%current_dec_item_ok & H).
      by refine (finish_dec_books _ _ _ _ _ _ Hs Hh _ H).
Qed.

Lemma copy_transaction_books from_json env info msg outcome s msgs s' :
  copy_books s -> copy_transaction from_json env info msg outcome s = Ok (msgs, s') -> copy_books s'.
Proof.
  intros Hs H. unfold copy_transaction in H. step_in H ms s1 H1. apply copy_execute_books in H1; [|done].
  step_in H u s2 H2. apply hret_ok in H as [-> ->].
  destruct ms as [|[rid m|m] [|]]; try (by apply hret_ok in H2 as [_ ->]). by eapply copy_reply_books.
Qed.
End Messages.
