(* ===== verification/CopyTradingSpec.v ===== *)
(** * What the copy trading contract guarantees, and what blocks it

    The books of CopyTradingInv.v hold in every reachable state, so no query
    of a queue panics.  The leader is paid for new highs of the pool only.  A
    deposit made while a trade of the same token awaits its execution leads
    into a state the contract cannot leave. *)

From stdpp Require Import base option gmap strings list pretty.
From Stdlib Require Import ZArith Lia.
From S2P Require Import Prelude Storage Index Cosmwasm Types Number Time Market Price Token Config Position Trading State PositionStore PositionToken Entry Factory Queries CopyTrading CopyTradingWork CopyTradingInv.
Local Open Scope Z_scope.

Section Reachable.
Context {CW : CosmwasmStd}.
Context (from_json : Binary -> res CopyExecute).

Inductive copy_reachable : CopyStore -> Prop :=
| copy_reach_instantiate env factory leader u p s :
    copy_instantiate env factory leader u p = Ok s -> copy_reachable s
| copy_reach_step env info msg outcome s msgs s' :
    copy_reachable s -> copy_transaction from_json env info msg outcome s = Ok (msgs, s') -> copy_reachable s'.

(** Any number of transactions. *)
Inductive copy_steps (s : CopyStore) : CopyStore -> Prop :=
| copy_steps_refl : copy_steps s s
| copy_steps_step env info msg outcome s1 msgs s2 :
    copy_steps s s1 -> copy_transaction from_json env info msg outcome s1 = Ok (msgs, s2) -> copy_steps s s2.

Context {CWS : CosmwasmStdSpec CW}.

Lemma instantiate_books env factory leader u p s :
  copy_instantiate env factory leader u p = Ok s -> copy_books s.
Proof.
  unfold copy_instantiate. intros (l & _ & H)%rbind_ok. apply rbind_ok in H as (r & _ & H).
  apply rbind_ok in H as (tt1 & _ & [= <-]).
  assert (forall A (st : A -> ItemStatus), queue_sane st ∅ None None) as Hq.
  { intros A st. unfold queue_sane, last_or_none. simpl. split_and!; [lia..|intros i|intros i x Hx].
    - rewrite lookup_empty. split; [by intros [? ?]|lia].
    - by rewrite lookup_empty in Hx. }
  split; simpl; done || apply Hq.
Qed.

Lemma copy_reachable_books s : copy_reachable s -> copy_books s.
Proof.
  induction 1; [by eapply instantiate_books|by eapply copy_transaction_books].
Qed.

Lemma queue_items_ok s ids : copy_books s -> Forall (is_queued s) ids -> is_ok (queue_item_statuses s ids) = true.
Proof.
  intros Hs. induction 1 as [|id l Hid _ IH]; [done|]. simpl.
  assert (exists x, queue_item_status s id = Ok x) as [x ->].
  { unfold queue_item_status. destruct id as [i|i]; simpl in Hid.
    - destruct (cb_inc s Hs) as (_ & Hdom & _). apply Hdom in Hid as [p ->]. by eexists.
    - destruct (cb_dec s Hs) as (_ & Hdom & _). apply Hdom in Hid as [p ->]. by eexists. }
  simpl. apply is_ok_Ok in IH as [l' ->]. done.
Qed.

(** C23: in every reachable state of the copy trading contract, whatever the
    factory, the markets and the replies answered: the queue ids are
    consecutive and exactly the items after the last processed one are pending
    (the assertions of [sanity.rs]); the shares of the wallets add up to the
    total of each token and the funds of the waiting deposits to the pending
    deposits; every market is filed under its own token; and the query for a
    wallet's queue never hits its [expect]. *)
Theorem copy_books_kept s :
  copy_reachable s ->
  copy_books s /\ forall wallet start_after limit, is_ok (queue_status s wallet start_after limit) = true.
Proof.
  intros Hr. pose proof (copy_reachable_books s Hr) as Hs. split; [done|]. intros wallet start_after limit.
  unfold queue_status.
  match goal with |- context [queue_item_statuses s ?l] =>
    assert (Forall (is_queued s) l) as Hl; [|apply (queue_items_ok s l Hs) in Hl;
      apply is_ok_Ok in Hl as [items ->]; done] end.
  apply Forall_take, Forall_fmap, Forall_forall. intros [id u] Hin.
  unfold range_desc in Hin. apply elem_of_reverse, range_asc_spec in Hin as [Hin _].
  rewrite prefix_of_lookup in Hin. simpl. by eapply (cb_wallets s Hs).
Qed.
End Reachable.

(** ** A deposit behind a deferred trade *)

Section Blocked.
Context {CW : CosmwasmStd} {CWS : CosmwasmStdSpec CW}.
Context (from_json : Binary -> res CopyExecute).

(** A deferred execution is awaited, and the increase queue, which goes first,
    is at a deposit whose token's share value is outdated. *)
Record deposit_blocked (s : CopyStore) : Prop := {
  bl_batch : get_batch_work s = None;
  bl_deferred : deferred_exec_of s <> None;
  bl_item : exists q p funds token v, inc_head s q p /\ inc_item p = IncDeposit funds token /\
    LP_TOKEN_VALUE s !! token = Some v /\ lp_status_valid (lv_status v) (IncQueuePositionId q) = false;
}.

(** What stays for good. *)
Definition frozen_part (s : CopyStore) :=
  (LP_TOKEN_VALUE s, CURRENT_BATCH_WORK s, REPLY_DEFERRED_EXEC_ID s, LAST_PROCESSED_INC_QUEUE_ID s,
   LAST_PROCESSED_DEC_QUEUE_ID s, COPY_SHARES s, COPY_TOTALS s).

Lemma blocked_work env s :
  deposit_blocked s -> copy_get_work env s = Ok (CopyHasWork LoadMarket) \/ exists e, copy_get_work env s = Err e.
Proof.
  intros [Hb Hd (q & p & funds & token & v & [Hq Hi] & Hp & Hv & Hval)]. unfold copy_get_work. rewrite Hb.
  destruct (market_loading_due env s) as [[]|e]; simpl; [by left| |by right; exists e].
  right. unfold get_current_processed_inc_queue_id. rewrite Hq. simpl. rewrite Hi. simpl.
  unfold queue_item_work. rewrite Hp. simpl. rewrite Hv, Hval.
  destruct (deferred_exec_of s) as [id|] eqn:E; [|done].
  unfold get_inc_deferred_work, get_current_processed_inc_queue_id. rewrite Hq. simpl. rewrite Hi. simpl.
  rewrite Hp. by eexists.
Qed.

(** Nothing but new items is written to the increase queue. *)
Definition inc_grows (s s' : CopyStore) : Prop :=
  forall q p, COLLATERAL_INCREASE_QUEUE s !! q = Some p -> COLLATERAL_INCREASE_QUEUE s' !! q = Some p.

Lemma new_inc_item_grows s q p :
  copy_books s -> next_queue_id (LAST_INSERTED_INC_QUEUE_ID s) = Ok q ->
  forall q' p', COLLATERAL_INCREASE_QUEUE s !! q' = Some p' ->
    (<[q := p]> (COLLATERAL_INCREASE_QUEUE s)) !! q' = Some p'.
Proof.
  intros Hs Hq q' p' Hi. rewrite lookup_insert_ne; [done|]. intros <-.
  assert (0 <= q <= last_or_none (LAST_INSERTED_INC_QUEUE_ID s)) as Hin
    by (apply (proj1 (proj2 (cb_inc s Hs))); by eexists).
  apply next_queue_id_ok in Hq. lia.
Qed.

Lemma copy_deposit_frozen sender funds token s msgs s' :
  copy_books s -> copy_deposit sender funds token s = Ok (msgs, s') ->
  frozen_part s' = frozen_part s /\ inc_grows s s'.
Proof.
  intros Hs H. split; [eapply (keeps_ok frozen_part); [|exact H]; calm|].
  apply copy_deposit_ok in H as [_ (q & Hq & ->)]. intros q' p'. by apply (new_inc_item_grows s).
Qed.
Lemma push_inc_frozen p s msgs s' :
  copy_books s -> increase_collateral_response p s = Ok (msgs, s') ->
  frozen_part s' = frozen_part s /\ inc_grows s s'.
Proof.
  intros Hs H. split; [eapply (keeps_ok frozen_part); [|exact H]; calm|].
  apply increase_response_ok in H as [_ (q & Hq & ->)]. intros q' p'. by apply (new_inc_item_grows s).
Qed.

(** Everything else leaves the increase queue alone altogether. *)
Definition still_part (s : CopyStore) := (frozen_part s, COLLATERAL_INCREASE_QUEUE s).
Lemma still_frozen {A} (h : copy_handler A) s a s' :
  keeps still_part h -> h s = Ok (a, s') -> frozen_part s' = frozen_part s /\ inc_grows s s'.
Proof.
  intros Hk H. pose proof (keeps_ok still_part h _ _ _ Hk H) as E. split; [exact (f_equal fst E)|].
  pose proof (f_equal snd E) as Ei. simpl in Ei. intros q p. by rewrite Ei.
Qed.
Lemma load_markets_still env markets last_seen : keeps still_part (load_markets env markets last_seen).
Proof. revert last_seen. induction markets as [|m l IH]; intros last_seen x; simpl; calm. Qed.
Hint Resolve load_markets_still : copy.

Lemma leader_msg_frozen mid msg c s msgs s' :
  copy_books s -> execute_leader_msg mid msg c s = Ok (msgs, s') ->
  frozen_part s' = frozen_part s /\ inc_grows s s'.
Proof.
  intros Hs H. unfold execute_leader_msg in H. lift_in H m Hm. lift_in H t Ht. step_in H u s1 H1.
  assert (s1 = s) as -> by (destruct c; [step_in H1 tt1 s2 H2; get_in H2; by inv_ok|by inv_ok]).
  step_in H cfg s2 H2. get_in H2. cbv zeta in H.
  destruct (leader_collateral_item msg c) as [r|]; [|destruct (leader_update_item msg) as [item|];
    [|destruct (leader_increase_item msg) as [item|]; [by apply push_inc_frozen in H|]]].
  - lift_in H item Hitem. eapply still_frozen; [|exact H]. calm.
  - eapply still_frozen; [|exact H]. calm.
  - inv_ok. split; [done|by intros q p].
Qed.

Lemma blocked_execute env info msg s msgs s' :
  copy_books s -> deposit_blocked s -> copy_execute from_json env info msg s = Ok (msgs, s') ->
  frozen_part s' = frozen_part s /\ inc_grows s s' /\ (forall id m, msgs <> [CopyMarketMsg id m]).
Proof.
  intros Hs Hb H. unfold copy_execute in H. apply hbind_ok in H as ([[funds m] sender] & s0 & H0 & H).
  apply hlift_ok in H0 as [_ ->]. step_in H c s1 H1. get_in H1.
  assert (forall (h : copy_handler (list CopyMsg)), keeps still_part h -> h s = Ok (msgs, s') ->
    (forall id m, msgs <> [CopyMarketMsg id m]) ->
    frozen_part s' = frozen_part s /\ inc_grows s s' /\ (forall id m, msgs <> [CopyMarketMsg id m])) as Hstill.
  { intros h Hk Hh Hn. destruct (still_frozen h _ _ _ Hk Hh) as [? ?]. done. }
  destruct m.
  - by inv_ok.
  - lift_in H t Ht. lift_in H mt Hmt. lift_in H f Hf.
    pose proof (copy_deposit_books _ _ _ _ _ _ Hs H) as [_ ->].
    destruct (copy_deposit_frozen _ _ _ _ _ _ Hs H) as [? ?]. done.
  - lift_in H u Hu. pose proof (copy_withdraw_books _ _ _ _ _ _ Hs H) as [_ ->].
    eapply Hstill; [|exact H|done]. calm.
  - lift_in H u Hu. lift_in H u2 Hu2. eapply Hstill; [|exact H|]; [calm|].
    unfold leader_update_config in H. step_in H c s1 H1. lift_in H u3 Hu3. step_in H u4 s4 H4. by inv_ok.
  - lift_in H u Hu. lift_in H u2 Hu2. eapply Hstill; [|exact H|]; [calm|].
    unfold factory_update_config in H. step_in H c s1 H1. step_in H u4 s4 H4. by inv_ok.
  - lift_in H u Hu. lift_in H u2 Hu2. pose proof (leader_msg_books _ _ _ _ _ _ Hs H) as [_ ->].
    destruct (leader_msg_frozen _ _ _ _ _ _ Hs H) as [? ?]. done.
  - lift_in H u Hu. lift_in H u2 Hu2. eapply Hstill; [|exact H|]; [calm|].
    unfold leader_withdrawal in H. repeat (step_in H x1 sx Hx1; clear Hx1). by inv_ok.
  - lift_in H u Hu. unfold copy_do_work in H. lift_in H work Hwork.
    destruct (blocked_work env s Hb) as [E|[e E]]; rewrite E in Hwork; [|done]. injection Hwork as <-.
    step_in H u2 s2 H2. apply hret_ok in H as [-> ->].
    destruct (still_frozen (batched_stored_market_info env) s u2 s2) as [? ?]; [calm|done|]. done.
Qed.

Lemma blocked_step env info msg outcome s msgs s' :
  copy_books s -> deposit_blocked s -> copy_transaction from_json env info msg outcome s = Ok (msgs, s') ->
  frozen_part s' = frozen_part s /\ deposit_blocked s'.
Proof.
  intros Hs Hb H. unfold copy_transaction in H. step_in H ms s1 H1.
  apply blocked_execute in H1 as (E & Hg & Hn); [|done..].
  step_in H u s2 H2. apply hret_ok in H as [-> ->].
  assert (s2 = s1) as -> by (destruct ms as [|[id m|m] [|]]; try (by apply hret_ok in H2 as [_ ->]); by destruct (Hn id m)).
  split; [done|]. unfold frozen_part in E. injection E as E1 E2 E3 E4 E5 E6 E7.
  destruct Hb as [Hb Hd (q & p & funds & token & v & [Hq Hi] & Hp & Hv & Hval)].
  split; unfold get_batch_work, deferred_exec_of in *; rewrite ?E2, ?E3; [done..|].
  exists q, p, funds, token, v. rewrite E1. split_and!; try done. split; [by rewrite E4|by apply Hg].
Qed.

(** C24: a deposit can block the pool for good.  Once a deferred execution is
    awaited while the next item of the increase queue is a deposit whose token
    has an outdated share value, the work is to settle the deferred execution
    of the deposit, which is an error: in every later state, whatever is sent
    to the contract and whatever the chain answers, work fails or loads
    markets, no queue item is processed any more, and no share changes hands
    or is paid out. *)
Theorem deposit_blocks_queues s s' env :
  copy_reachable from_json s -> deposit_blocked s -> copy_steps from_json s s' ->
  deposit_blocked s' /\ frozen_part s' = frozen_part s /\
  (copy_get_work env s' = Ok (CopyHasWork LoadMarket) \/ exists e, copy_get_work env s' = Err e).
Proof.
  intros Hr Hb Hsteps.
  assert (copy_books s' /\ deposit_blocked s' /\ frozen_part s' = frozen_part s) as (_ & Hb' & E).
  { induction Hsteps as [|env1 info msg outcome s1 msgs s2 _ (Hs1 & Hb1 & E1) H].
    - split; [by apply (copy_reachable_books from_json)|done].
    - destruct (blocked_step _ _ _ _ _ _ _ Hs1 Hb1 H) as [E Hb2].
      split; [by eapply copy_transaction_books|]. split; [done|congruence]. }
  split; [done|]. split; [done|]. by apply blocked_work.
Qed.
End Blocked.

(** ** The leader's commission *)

Section Commission.
Context {CW : CosmwasmStd} {CWS : CosmwasmStdSpec CW}.

Definition hwm_ok (h : HighWaterMark) : Prop := signed_ok (hwm_current h) /\ is_dec (hwm_hwm h).

Lemma add_pnl_ok h pnl rate c h' :
  hwm_ok h -> signed_ok pnl -> is_dec rate -> add_pnl h pnl rate = Ok (c, h') ->
  sval (hwm_current h') = sval (hwm_current h) + sval pnl /\
  hwm_hwm h' = Z.max (hwm_hwm h) (sval (hwm_current h')) /\
  c = (hwm_hwm h' - hwm_hwm h) * rate / DEC_ONE /\ hwm_ok h'.
Proof.
  intros [Hc Hh] Hp Hr H. unfold add_pnl in H. apply rbind_ok in H as (cur & Hcur & H).
  apply signed_checked_add_ok in Hcur as [Ecur Hcur]; [|done..].
  rewrite signed_leb_sval, sval_into_signed in H by (done || by apply into_signed_ok).
  destruct (Z.leb_spec (sval cur) (hwm_hwm h)) as [Hle|Hgt].
  - injection H as <- <-. simpl. split_and!; [done|lia| |done]. rewrite Z.sub_diag. done.
  - apply rbind_ok in H as (profit & Hprofit & H). apply rbind_ok in H as (hwm & Hhwm%of_option_ok & H).
    apply rbind_ok in H as (m & Hm & H). apply rbind_ok in H as (c' & Hc'%of_option_ok & [= <- <-]). simpl.
    apply signed_checked_sub_ok in Hprofit as [Eprofit Hprofit]; [|done|by apply into_signed_ok].
    rewrite sval_into_signed in Eprofit.
    apply try_into_non_negative_value_Some in Hhwm as [Hpos ->], Hc' as [_ ->].
    unfold checked_mul_number in Hm. apply rbind_ok in Hm as (n & Hn & [= <-]).
    rewrite number_checked_mul_fits in Hn; [|by destruct profit|by apply into_signed_ok].
    apply signed_fits_ok in Hn as [-> Hn]. rewrite sval_into_signed in *.
    change (sval (into_number profit)) with (sval profit) in *. unfold is_dec in Hh, Hr.
    pose proof DEC_ONE_pos.
    assert (sval (from_number (signed_of (Z.quot (sval profit * rate) DEC_ONE)))
              = (sval cur - hwm_hwm h) * rate / DEC_ONE) as ->.
    { transitivity (sval (signed_of (Z.quot (sval profit * rate) DEC_ONE))); [done|].
      rewrite sval_signed_of, Eprofit, Z.quot_div_nonneg by nia. done. }
    split_and!; [done|lia|done|].
    split; [done|]. destruct Hcur as [Hcd _]. simpl. unfold sval, is_dec in *. by rewrite Hpos.
Qed.

(** The commissions for the profits and losses of a run of closed positions. *)
Fixpoint add_pnls (h : HighWaterMark) (pnls : list Signed) (rate : Decimal256) : res (Collateral * HighWaterMark) :=
  match pnls with
  | [] => Ok (0, h)
  | pnl :: pnls =>
      '(c, h) <- add_pnl h pnl rate; '(cs, h) <- add_pnls h pnls rate; Ok (c + cs, h)
  end.
(** The highest the net profit gets. *)
Fixpoint net_peak (mark current : Z) (pnls : list Signed) : Z :=
  match pnls with
  | [] => mark
  | pnl :: pnls => net_peak (Z.max mark (current + sval pnl)) (current + sval pnl) pnls
  end.
Definition net_profit (pnls : list Signed) : Z := foldr (fun p acc => sval p + acc) 0 pnls.

(** C27: over any run of closed positions the leader's commissions come to the
    commission rate times the rise of the highest net profit so far, less
    what is rounded off for each position: losses are made up for before
    anything is paid again, however the profits and losses are ordered. *)
Theorem commission_for_new_highs h pnls rate total h' :
  hwm_ok h -> Forall signed_ok pnls -> is_dec rate -> add_pnls h pnls rate = Ok (total, h') ->
  sval (hwm_current h') = sval (hwm_current h) + net_profit pnls /\
  hwm_hwm h' = net_peak (hwm_hwm h) (sval (hwm_current h)) pnls /\
  hwm_hwm h <= hwm_hwm h' /\
  total * DEC_ONE <= (hwm_hwm h' - hwm_hwm h) * rate <= (total + Z.of_nat (length pnls)) * DEC_ONE.
Proof.
  intros Hh Hp Hr. revert h total Hh. induction Hp as [|pnl l Hpnl _ IH]; intros h total Hh H; cbn [add_pnls] in H.
  - injection H as <- <-. simpl. split_and!; lia.
  - apply rbind_ok in H as ([c h1] & H1 & H). apply rbind_ok in H as ([cs h2] & H2 & [= <- <-]).
    apply add_pnl_ok in H1 as (Ecur & Ehwm & Ec & Hh1); [|done..].
    destruct (IH h1 cs Hh1 H2) as (IHcur & IHhwm & IHle & IHlow & IHup).
    cbn [net_profit net_peak foldr length]. rewrite <- Ecur. fold (net_profit l).
    split_and!; [lia|by rewrite IHhwm, Ehwm|lia| |].
    + pose proof DEC_ONE_pos. pose proof (Z.mul_div_le ((hwm_hwm h1 - hwm_hwm h) * rate) DEC_ONE). nia.
    + pose proof DEC_ONE_pos. pose proof (Z.mul_succ_div_gt ((hwm_hwm h1 - hwm_hwm h) * rate) DEC_ONE). nia.
Qed.
End Commission.

(** * A concrete pool

    One market, whose collateral is a native coin of six decimals, and a
    leader who takes ten percent.  Alice deposits three units; the leader
    opens a position with one of them, which the market defers. *)

Definition sample_copy_market (name : string) : MarketId := market_id_new name "USDC" CollateralIsQuote.
Definition sample_copy_status (name : string) : StatusResp :=
  mkStatusResp (sample_copy_market name) name "USDC" CollateralIsQuote
    (TokenNative "uusdc" 6) sample_config (mkLiquidityStats 0 0 0 0) None None None None None 0 None 0 0 0
    NUMBER_ZERO NUMBER_ZERO 0 0 0 0 NUMBER_ZERO 0 (mkFees 0 0 0 0).
Definition sample_copy_price : PricePoint :=
  mkPricePoint (7 * DEC_ONE) DEC_ONE (7 * DEC_ONE) 0 true CollateralIsQuote None None.
Definition sample_copy_env (markets : option MarketId -> list string) (balance : Z) : CopyEnv :=
  mkCopyEnv 1000 "pool" (fun after => Ok (map sample_copy_market (markets after)))
    (fun id => Ok (mid_base id)) (Ok None) (fun addr => Ok (sample_copy_status addr))
    (fun _ _ => Ok []) (fun _ _ => Ok (mkPositionsResp [] [] [])) (fun _ _ => Ok (mkClosedPositionsResp [] None))
    (fun _ _ => Ok ([], None)) (fun _ _ => Ok DeferredNotFound) (fun _ => Ok sample_copy_price)
    (fun _ => Ok (Some (mkCrankFeeConfig 0 0))) (fun _ => Ok balance) (fun _ => Ok 0) 10.
Definition sample_one_market (after : option MarketId) : list string :=
  match after with None => ["ETH"%string] | Some _ => [] end.
Definition sample_copy_json : Binary -> res CopyExecute := fun _ => Err StdError.
Definition sample_copy_init : res CopyStore :=
  copy_instantiate (CW:=cosmwasm_ref) (sample_copy_env sample_one_market 0) "factory" "leader"
    (mkCopyConfigUpdate None None None) (mkFactoryConfigUpdate None None).
Definition sample_copy_empty : CopyStore :=
  mkCopyStore (mkCopyConfig "factory" "factory" None "leader" "Name" "Description" (DEC_ONE / 10) 1000 30 30)
    ∅ ∅ ∅ ∅ None None None None ∅ ∅ ∅ ∅ ∅ ∅ None None None ∅ ∅ ∅ None.

(** A transaction: who sends what with which coins, the answers, the reply. *)
Record SampleTx := mkSampleTx {
  tx_env : CopyEnv; tx_sender : Addr; tx_coins : list (string * Z); tx_msg : CopyExecute; tx_reply : ReplyResult }.
Definition sample_tx (t : SampleTx) (s : CopyStore) :=
  copy_transaction (CW:=cosmwasm_ref) sample_copy_json (tx_env t) (mkMessageInfo (tx_sender t) (tx_coins t)) (tx_msg t)
    (tx_reply t) s.
Fixpoint sample_copy_run (l : list SampleTx) (s : CopyStore) : res CopyStore :=
  match l with
  | [] => Ok s
  | t :: l => match sample_tx t s with Ok (_, s') => sample_copy_run l s' | Err e => Err e end
  end.
Definition copy_after (l : list SampleTx) (s : CopyStore) : CopyStore :=
  match sample_copy_run l s with Ok s' => s' | Err _ => sample_copy_empty end.

Definition sample_no_reply : ReplyResult := ReplyErr "".
Definition sample_work (balance : Z) : SampleTx :=
  mkSampleTx (sample_copy_env sample_one_market balance) "bot" [] CopyDoWork sample_no_reply.
Definition sample_copy_deposit (sender : Addr) (amount : Z) : SampleTx :=
  mkSampleTx (sample_copy_env sample_one_market 0) sender [("uusdc"%string, amount)] CopyDeposit sample_no_reply.
(** Alice's deposit is processed. *)
Definition sample_funded : CopyStore :=
  copy_after [sample_work 0; sample_work 0; sample_copy_deposit "alice" 3; sample_work 3; sample_work 3] sample_copy_empty.
Definition sample_open : SampleTx :=
  mkSampleTx (sample_copy_env sample_one_market 3) "leader" []
    (CopyLeaderMsg (sample_copy_market "ETH")
       (OpenPositionMsg None (2 * DEC_ONE) LongToBase None TakeProfitPosInfinity) (Some 1000000000000)) sample_no_reply.
Definition sample_opening : SampleTx :=
  mkSampleTx (sample_copy_env sample_one_market 3) "bot" [] CopyDoWork
    (ReplyOk [mkRawEvent "wasm-deferred-exec-queued" [("deferred-exec-id"%string, "5"%string)]]).
Definition sample_traded : CopyStore := copy_after [sample_open; sample_opening] sample_funded.

(** Bob's deposit, while the leader's trade waits for the market. *)
Definition sample_blocked : CopyStore := copy_after [sample_copy_deposit "bob" 5] sample_traded.

Lemma sample_copy_reach l s :
  copy_reachable (CW:=cosmwasm_ref) sample_copy_json s -> is_ok (sample_copy_run l s) = true ->
  copy_reachable (CW:=cosmwasm_ref) sample_copy_json (copy_after l s) /\
  copy_steps (CW:=cosmwasm_ref) sample_copy_json s (copy_after l s).
Proof.
  intros Hr Hok. unfold copy_after. destruct (sample_copy_run l s) as [s'|] eqn:E; [clear Hok|done].
  assert (forall l s0, copy_reachable (CW:=cosmwasm_ref) sample_copy_json s0 ->
    copy_steps (CW:=cosmwasm_ref) sample_copy_json s s0 -> sample_copy_run l s0 = Ok s' ->
    copy_reachable (CW:=cosmwasm_ref) sample_copy_json s' /\
    copy_steps (CW:=cosmwasm_ref) sample_copy_json s s') as Hrun.
  { clear. intros l. induction l as [|t l IH]; intros s0 Hr Hs E; cbn [sample_copy_run] in E.
    - injection E as <-. done.
    - destruct (sample_tx t s0) as [[msgs s1]|] eqn:Et; [|done].
      apply (IH s1); [exact (copy_reach_step _ _ _ _ _ _ _ _ Hr Et)|exact (copy_steps_step _ _ _ _ _ _ _ _ _ Hs Et)|done]. }
  apply (Hrun l s); [done|apply copy_steps_refl|done].
Qed.
Lemma sample_copy_empty_reachable : copy_reachable (CW:=cosmwasm_ref) sample_copy_json sample_copy_empty.
Proof.
  eapply (copy_reach_instantiate (CW:=cosmwasm_ref) _ (sample_copy_env sample_one_market 0) "factory" "leader"
    (mkCopyConfigUpdate None None None) (mkFactoryConfigUpdate None None)). vm_compute. reflexivity.
Qed.
Lemma sample_funded_reachable : copy_reachable (CW:=cosmwasm_ref) sample_copy_json sample_funded.
Proof. apply sample_copy_reach; [apply sample_copy_empty_reachable|vm_compute; reflexivity]. Qed.
Lemma sample_traded_reachable : copy_reachable (CW:=cosmwasm_ref) sample_copy_json sample_traded.
Proof. apply sample_copy_reach; [apply sample_funded_reachable|vm_compute; reflexivity]. Qed.
Lemma sample_blocked_reachable : copy_reachable (CW:=cosmwasm_ref) sample_copy_json sample_blocked.
Proof. apply sample_copy_reach; [apply sample_traded_reachable|vm_compute; reflexivity]. Qed.

Lemma copy_books_kept_witness :
  copy_books (CW:=cosmwasm_ref) sample_traded /\
  match queue_status sample_traded "alice" None None with
  | Ok r => length (qr_items r) = 1%nat
  | Err _ => False
  end.
Proof.
  destruct (copy_books_kept (CW:=cosmwasm_ref) (CWS:=cosmwasm_ref_spec) sample_copy_json _ sample_traded_reachable)
    as [H _].
  split; [exact H|vm_compute; reflexivity].
Defined.

Lemma deposit_blocks_queues_witness :
  deposit_blocked sample_blocked /\
  copy_get_work (CW:=cosmwasm_ref) (sample_copy_env sample_one_market 8) sample_blocked
    = Err (AnyhowError "Impossible: Deferred Inc work handler got non market item") /\
  COPY_SHARES (copy_after [sample_copy_deposit "carol" 7] sample_blocked) = COPY_SHARES sample_traded.
Proof.
  assert (deposit_blocked sample_blocked) as Hb.
  { split; [vm_compute; reflexivity|vm_compute; discriminate|].
    assert (exists p v, COLLATERAL_INCREASE_QUEUE sample_blocked !! 1 = Some p /\ inc_item p = IncDeposit 5000000000000 (CopyNative "uusdc")
        /\ LP_TOKEN_VALUE sample_blocked !! CopyNative "uusdc" = Some v
        /\ lp_status_valid (lv_status v) (IncQueuePositionId 1) = false) as (p & v & H).
    { eexists _, _. split_and!; vm_compute; reflexivity. }
    exists 1, p, 5000000000000, (CopyNative "uusdc"), v. split; [|exact (proj2 H)].
    split; [vm_compute; reflexivity|exact (proj1 H)]. }
  split; [exact Hb|]. split; [vm_compute; reflexivity|].
  destruct (deposit_blocks_queues (CW:=cosmwasm_ref) (CWS:=cosmwasm_ref_spec) sample_copy_json sample_blocked
    (copy_after [sample_copy_deposit "carol" 7] sample_blocked) (sample_copy_env sample_one_market 8)
    sample_blocked_reachable Hb) as (_ & E & _).
  - apply sample_copy_reach; [exact sample_blocked_reachable|vm_compute; reflexivity].
  - transitivity (COPY_SHARES sample_blocked); [exact (f_equal snd (f_equal fst E))|vm_compute; reflexivity].
Defined.

(** Up ten, down six, up nine: thirteen units are new highs. *)
Definition sample_pnls : list Signed :=
  [into_signed (10 * DEC_ONE); mkSigned (6 * DEC_ONE) true; into_signed (9 * DEC_ONE)].
Lemma commission_for_new_highs_witness :
  exists total h', add_pnls (CW:=cosmwasm_ref) (mkHighWaterMark signed_zero 0) sample_pnls (DEC_ONE / 10) = Ok (total, h') /\
    total = 13 * DEC_ONE / 10 /\ hwm_hwm h' = 13 * DEC_ONE.
Proof.
  assert (is_ok (add_pnls (CW:=cosmwasm_ref) (mkHighWaterMark signed_zero 0) sample_pnls (DEC_ONE / 10)) = true) as Hok
    by (vm_compute; reflexivity).
  apply is_ok_Ok in Hok as [[total h'] E].
  destruct (commission_for_new_highs (CW:=cosmwasm_ref) (CWS:=cosmwasm_ref_spec) (mkHighWaterMark signed_zero 0)
    sample_pnls (DEC_ONE / 10) total h') as (_ & Hpeak & _).
  - split; [exact signed_zero_ok|exact is_dec_0].
  - repeat constructor; vm_compute; discriminate.
  - split; vm_compute; discriminate || reflexivity.
  - exact E.
  - exists total, h'. split; [exact E|]. split; [|rewrite Hpeak; vm_compute; reflexivity].
    assert (match add_pnls (CW:=cosmwasm_ref) (mkHighWaterMark signed_zero 0) sample_pnls (DEC_ONE / 10) with
            | Ok (t, _) => t = 13 * DEC_ONE / 10
            | Err _ => False
            end) as Et by (vm_compute; reflexivity).
    rewrite E in Et. exact Et.
Defined.
