(* ===== verification/CopyTradingValue.v ===== *)
(** * The value of a share of a copy trading pool

    What [compute_lp_token_value] of [contracts/copy_trading/src/execute.rs]
    makes of the pages the markets answer.  Computed in one transaction the
    value counts every open position and limit order of every market of the
    token; resumed in the middle of the validation it counts the remaining
    markets only, and leaves the earlier ones in a state no later work
    accepts. *)

From stdpp Require Import base option gmap strings list sorting pretty.
From Stdlib Require Import ZArith Lia.
From S2P Require Import Prelude Storage Index Cosmwasm Types Number Time Market Price Token Config Position Trading State PositionStore PositionToken Entry Factory Queries CopyTrading CopyTradingWork CopyTradingInv CopyTradingSpec.
Local Open Scope Z_scope.

Definition sum_of {A} (f : A -> Z) (l : list A) : Z := foldr (fun x acc => f x + acc) 0 l.
Lemma sum_of_app {A} (f : A -> Z) l l' : sum_of f (l ++ l') = sum_of f l + sum_of f l'.
Proof. induction l as [|x l IH]; simpl; lia. Qed.
Lemma sum_of_map {A} (f : A -> Z) l : sum_of (fun h => h) (map f l) = sum_of f l.
Proof. induction l as [|x l IH]; simpl; lia. Qed.
Lemma sum_of_ext {A} (f g : A -> Z) l : (forall x, x ∈ l -> f x = g x) -> sum_of f l = sum_of g l.
Proof.
  induction l as [|x l IH]; intros H; simpl; [done|]. rewrite H, IH; [done| |by left].
  intros y Hy. apply H. by right.
Qed.

(** ** What a market holds for the pool *)

Section Pages.
Context (env : CopyEnv) (addr : Addr).

(** The positions on the pages after [start_after]. *)
Inductive position_pages : option string -> list PositionQueryResponse -> Prop :=
| position_pages_end start_after : ce_tokens env addr start_after = Ok [] -> position_pages start_after []
| position_pages_more start_after ids id positions rest :
    ce_tokens env addr start_after = Ok ids -> last ids = Some id ->
    copy_query_positions env addr ids = Ok positions -> position_pages (Some (pretty id)) rest ->
    position_pages start_after (positions ++ rest).
(** The limit orders likewise. *)
Inductive order_pages : option OrderId -> list LimitOrderResp -> Prop :=
| order_pages_end start_after next : ce_orders env addr start_after = Ok ([], next) -> order_pages start_after []
| order_pages_last start_after orders : ce_orders env addr start_after = Ok (orders, None) -> order_pages start_after orders
| order_pages_more start_after orders next rest :
    ce_orders env addr start_after = Ok (orders, Some next) -> order_pages (Some next) rest ->
    order_pages start_after (orders ++ rest).

Definition positions_value (l : list PositionQueryResponse) : Z := sum_of pq_active_collateral l.
Definition orders_value (l : list LimitOrderResp) : Z := sum_of lor_collateral l.
(** Everything the pool has in the market. *)
Definition market_holds (v : Z) : Prop :=
  exists positions orders, position_pages None positions /\ order_pages None orders /\
    v = positions_value positions + orders_value orders.
End Pages.

(** ** One market *)

Section Market.
Context {CW : CosmwasmStd} {CWS : CosmwasmStdSpec CW} (env : CopyEnv) (budget : Z).

Lemma position_collateral_ok l t v : position_collateral l t = Ok v -> v = t + positions_value l.
Proof.
  revert t. induction l as [|p l IH]; intros t H; simpl in H; [injection H as <-; simpl; unfold positions_value; simpl; lia|].
  apply rbind_ok in H as (t1 & [-> _]%ud_add_ok & H). apply IH in H as ->. unfold positions_value. simpl. lia.
Qed.
Lemma order_collateral_ok l t v : order_collateral l t = Ok v -> v = t + orders_value l.
Proof.
  revert t. induction l as [|p l IH]; intros t H; simpl in H; [injection H as <-; unfold orders_value; simpl; lia|].
  apply rbind_ok in H as (t1 & [-> _]%ud_add_ok & H). apply IH in H as ->. unfold orders_value. simpl. lia.
Qed.
Lemma add_positions_ok l w w' :
  add_positions l w = Ok w' -> mw_active_collateral w' = mw_active_collateral w + positions_value l.
Proof.
  intros (t & ->%position_collateral_ok & H)%rbind_ok. apply rbind_ok in H as (c & _ & H).
  apply rbind_ok in H as (a & [-> _]%ud_add_ok & [= <-]). simpl. lia.
Qed.
Lemma add_orders_ok l w w' :
  add_orders l w = Ok w' -> mw_active_collateral w' = mw_active_collateral w + orders_value l.
Proof.
  intros (t & ->%order_collateral_ok & H)%rbind_ok. apply rbind_ok in H as (c & _ & H).
  apply rbind_ok in H as (a & [-> _]%ud_add_ok & [= <-]). simpl. lia.
Qed.

Lemma process_positions_pages fuel addr w start q w' start' q' :
  process_positions env budget fuel addr w start q = Ok (w', start', q', false) ->
  exists l, position_pages env addr start l /\
    mw_active_collateral w' = mw_active_collateral w + positions_value l.
Proof.
  revert w start q. induction fuel as [|fuel IH]; intros w start q H; simpl in H; [done|].
  apply rbind_ok in H as ([tokens next] & Ht & H). apply rbind_ok in H as (q1 & _ & H).
  apply rbind_ok in Ht as (ids & Hids & [= <- <-]).
  destruct ids as [|i ids]; simpl in H.
  - injection H as <- <- <-. exists []. split; [by apply position_pages_end|]. unfold positions_value. simpl. lia.
  - apply rbind_ok in H as (ps & Hps & H). apply rbind_ok in H as (q2 & _ & H).
    apply rbind_ok in H as (w1 & Hw1 & H).
    apply add_positions_ok in Hw1.
    destruct (last (i :: ids)) as [id|] eqn:Hl; [|by apply last_None in Hl]. simpl in H.
    destruct (budget <? q2); [done|]. apply IH in H as (l & Hl' & E).
    exists (ps ++ l). split; [by apply (position_pages_more env addr start (i :: ids) id ps l)|].
    unfold positions_value in *. rewrite sum_of_app. lia.
Qed.

Lemma process_orders_pages gas addr w start q w' start' stop :
  process_orders env budget gas addr w start q = Ok (w', start', stop) ->
  if (stop : bool) then budget < q
  else exists l, order_pages env addr start l /\
    mw_active_collateral w' = mw_active_collateral w + orders_value l.
Proof.
  revert w start. induction gas as [|gas IH]; intros w start H; simpl in H; [done|].
  apply rbind_ok in H as ([orders next] & Ho & H). destruct orders as [|o l].
  - injection H as <- <- <-. exists []. split; [by eapply order_pages_end|]. unfold orders_value. simpl. lia.
  - simpl in H. apply rbind_ok in H as (w1 & Hw1 & H). apply add_orders_ok in Hw1.
    destruct next as [next|]; simpl in H.
    + destruct (Z.ltb_spec budget q); [by injection H as <- <- <-|]. apply IH in H. destruct stop; [done|].
      destruct H as (rest & Hr & E). exists ((o :: l) ++ rest). split; [by eapply order_pages_more|].
      unfold orders_value in *. rewrite sum_of_app. lia.
    + injection H as <- <- <-. exists (o :: l). split; [by apply order_pages_last|done].
Qed.

Lemma validate_orders_finished fuel addr start n q start' n' q' :
  validate_orders env budget fuel addr start n q = Ok (start', n', q', false) -> budget < q'.
Proof.
  revert start n q. induction fuel as [|fuel IH]; intros start n q H; simpl in H; [done|].
  apply rbind_ok in H as ([orders next] & _ & H). apply rbind_ok in H as (q1 & _ & H).
  destruct orders; [done|]. simpl in H. apply rbind_ok in H as (n1 & _ & H).
  destruct next as [next|]; simpl in H; [|done]. destruct (Z.ltb_spec budget q1); [by injection H as <- <- <-|eauto].
Qed.

(** The work on a market is recorded, and no batch is left. *)
Definition recorded (id : MarketId) (w : MarketWorkInfo) (s : CopyStore) : CopyStore :=
  set_CURRENT_BATCH_WORK (Some BatchNoWork) (set_MARKET_WORK_INFO (<[mid_encoded id := w]> (MARKET_WORK_INFO s)) s).

Lemma recorded_same id s :
  is_validate_status (mw_status (work_info_of id s)) = true ->
  set_CURRENT_BATCH_WORK (Some BatchNoWork) s = recorded id (work_info_of id s) s.
Proof.
  unfold recorded, work_info_of. intros H. destruct (MARKET_WORK_INFO s !! mid_encoded id) as [w|] eqn:E; [|done].
  simpl. rewrite insert_id by done. by destruct s.
Qed.
Lemma recorded_twice id w w' s :
  set_CURRENT_BATCH_WORK (Some BatchNoWork)
    (set_MARKET_WORK_INFO (<[mid_encoded id := w']> (<[mid_encoded id := w]> (MARKET_WORK_INFO s)))
      (set_MARKET_WORK_INFO (<[mid_encoded id := w]> (MARKET_WORK_INFO s)) s)) = recorded id w' s.
Proof. unfold recorded. by rewrite insert_insert_eq. Qed.

(** Unless the budget stops it, the processing of a market leaves it to be
    validated; from the start, with all the market holds. *)
Lemma process_single_ok m q s q' s' :
  process_single_market env budget m q s = Ok ((q', false), s') ->
  exists w, is_validate_status (mw_status w) = true /\ s' = recorded (cmi_id m) w s /\
    (is_validate_status (mw_status (work_info_of (cmi_id m) s)) = true -> w = work_info_of (cmi_id m) s) /\
    (work_info_of (cmi_id m) s = market_work_default -> market_holds env (cmi_addr m) (mw_active_collateral w)).
Proof.
  unfold process_single_market. intros H. step_in H w0 s0 H0. get_in H0. cbv zeta in H.
  set (w0 := work_info_of (cmi_id m) s) in *. step_in H r s1 H1. destruct r as [[w1 q1] early].
  destruct (budget <? q1) eqn:Hq1; [step_in H u s2 H2; by apply hret_ok in H as [? _]|].
  step_in H early2 s2 H2.
  step_in H u s3 H3. apply hmod_ok in H3. apply hret_ok in H as [[= -> <-] ->]. subst s3.
  destruct (is_validate_status (mw_status w0)) eqn:Hval.
  - assert (s1 = s /\ early = false) as [-> ->].
    { destruct (mw_status w0); try done; simpl in H1; by apply hret_ok in H1 as [[= -> -> ->] ->]. }
    simpl in H2. apply hret_ok in H2 as [_ ->]. exists w0. split; [done|]. split; [by apply recorded_same|].
    split; [done|]. intros E. by rewrite E in Hval.
  - assert ((exists i, s1 = set_MARKET_WORK_INFO (<[mid_encoded (cmi_id m) := i]> (MARKET_WORK_INFO s)) s \/ s1 = s) /\
      (early = false -> w0 = market_work_default -> exists l, position_pages env (cmi_addr m) None l /\
        mw_active_collateral w1 = positions_value l)) as [Hs1 Hpos].
    { destruct (not_started_yet (mw_status w0) || is_process_open_positions (mw_status w0)) eqn:Hst.
      - step_in H1 r2 s4 H4. apply hlift_ok in H4 as [H4 ->]. destruct r2 as [[[w2 start] q2] e2].
        step_in H1 u2 s5 H5. apply hmod_ok in H5. apply hret_ok in H1 as [[= -> -> ->] ->].
        split; [eexists; by left|]. intros -> E. rewrite E in H4. cbn [mw_status market_work_default] in H4.
        apply process_positions_pages in H4 as (l & Hl & El). by exists l.
      - apply hret_ok in H1 as [[= -> -> ->] ->]. split; [exists w0; by right|]. intros _ E. by rewrite E in Hst. }
    destruct early; simpl in H2; [by apply hret_ok in H2 as [? _]|]. rewrite ?Hval in H2; cbn [negb andb] in H2.
    step_in H2 r3 s6 H6. apply hlift_ok in H6 as [H6 ->]. destruct r3 as [[w3 start3] e3].
    step_in H2 u3 s7 H7. apply hmod_ok in H7. apply hret_ok in H2 as [<- ->].
    apply process_orders_pages in H6. apply Z.ltb_ge in Hq1. destruct H6 as (ol & Hol & Eo).
    exists (set_mw_status (ValidateOpenPositions None 0) w3). split; [done|]. split; [|split; [done|]].
    + subst s7. destruct Hs1 as [w4 [-> | ->]]; [exact (recorded_twice _ w4 _ _)|done].
    + intros E. destruct (Hpos eq_refl E) as (l & Hl & El). exists l, ol. rewrite E in Hol. simpl in *.
      split_and!; [done..|lia].
Qed.

Lemma validate_single_ok m q s w q' s' :
  validate_single_market env budget m q s = Ok ((ValidationSuccess w, q'), s') ->
  is_validate_status (mw_status (work_info_of (cmi_id m) s)) = true /\
  w = set_mw_status Validated (work_info_of (cmi_id m) s) /\ s' = recorded (cmi_id m) w s.
Proof.
  unfold validate_single_market. intros H. step_in H w0 s0 H0. get_in H0. cbv zeta in H.
  set (w0 := work_info_of (cmi_id m) s) in *. step_in H u s1 H1.
  apply hlift_ok in H1 as [H1 ->]. apply ensure_ok in H1. split; [done|].
  match type of H with (let '(_, _) := ?x in _) _ = _ => destruct x as [start opened] end.
  step_in H r s2 H2. destruct r as [[[start1 opened1] q1] finished1].
  assert (s2 = s) as ->.
  { destruct (is_validate_open_position_status (mw_status w0)); [by apply hlift_ok in H2 as [_ ->]|].
    by apply hret_ok in H2 as [_ ->]. }
  destruct (finished1 && negb (opened1 =? mw_count_open_positions w0)).
  { step_in H u1 s3 H3. step_in H u2 s4 H4. by apply hret_ok in H as [? _]. }
  destruct (is_validate_open_position_status (mw_status w0) && (budget <? q1)).
  { step_in H u1 s3 H3. step_in H u2 s4 H4. step_in H u3 s5 H5. by apply hret_ok in H as [? _]. }
  match type of H with (let '(_, _) := ?x in _) _ = _ => destruct x as [ostart orders] end.
  step_in H r s2 H3. apply hlift_ok in H3 as [H3 ->]. destruct r as [[[start2 orders2] q2] finished2].
  destruct finished2.
  - destruct (orders2 =? mw_count_orders w0).
    + step_in H u1 s3 H4. apply hmod_ok in H4. step_in H u2 s4 H5. apply hmod_ok in H5.
      apply hret_ok in H as [[= -> ->] ->]. subst. done.
    + step_in H u1 s3 H4. step_in H u2 s4 H5. by apply hret_ok in H as [? _].
  - apply validate_orders_finished in H3. replace (budget <? q2) with true in H by (symmetry; by apply Z.ltb_lt).
    step_in H u1 s3 H4. step_in H u2 s4 H5. step_in H u3 s5 H6. by apply hret_ok in H as [? _].
Qed.
End Market.

(** ** All markets of a token *)

Section Markets.
Context {CW : CosmwasmStd} {CWS : CosmwasmStdSpec CW} (env : CopyEnv) (budget : Z).

Definition market_key (m : CopyMarketInfo) : string := mid_encoded (cmi_id m).
(** The store but for the work on markets. *)
Definition outside_work (s : CopyStore) : CopyStore :=
  set_CURRENT_BATCH_WORK None (set_MARKET_WORK_INFO ∅ s).
Definition market_active (s : CopyStore) (m : CopyMarketInfo) : Z := mw_active_collateral (work_info_of (cmi_id m) s).
Definition market_status (s : CopyStore) (m : CopyMarketInfo) : MarketProgress := mw_status (work_info_of (cmi_id m) s).

Lemma work_info_recorded id w s id' :
  work_info_of id' (recorded id w s) =
  if decide (mid_encoded id' = mid_encoded id) then w else work_info_of id' s.
Proof.
  unfold work_info_of, recorded. simpl. destruct (decide _) as [->|Hne].
  - by rewrite lookup_insert_eq.
  - by rewrite lookup_insert_ne by done.
Qed.

(** What a pass over the markets leaves alone. *)
Record pass_kept (l : list CopyMarketInfo) (s s' : CopyStore) : Prop := {
  pk_outside : outside_work s' = outside_work s;
  pk_others : forall id, mid_encoded id ∉ map market_key l -> work_info_of id s' = work_info_of id s;
  pk_batch : l <> [] \/ get_batch_work s = None -> get_batch_work s' = None;
}.

Lemma pass_kept_nil s : pass_kept [] s s.
Proof. split; [done..|]. by intros [?|?]. Qed.
Lemma pass_kept_cons m w l s s' :
  pass_kept l (recorded (cmi_id m) w s) s' -> pass_kept (m :: l) s s'.
Proof.
  intros [Ho Hn Hb]. split.
  - by rewrite Ho.
  - intros id Hid. apply not_elem_of_cons in Hid as [Hid Hl]. rewrite Hn by done.
    rewrite work_info_recorded, decide_False by done. done.
  - intros _. apply Hb. by right.
Qed.

Lemma process_markets_ok l q s q' s' :
  NoDup (map market_key l) -> process_markets env budget l q s = Ok (Some q', s') ->
  pass_kept l s s' /\
  forall m, m ∈ l -> is_validate_status (market_status s' m) = true /\
    (work_info_of (cmi_id m) s = market_work_default -> market_holds env (cmi_addr m) (market_active s' m)).
Proof.
  revert q s. induction l as [|m l IH]; intros q s Hnd H; cbn [process_markets] in H.
  - apply hret_ok in H as [_ ->]. split; [apply pass_kept_nil|by intros m ?%elem_of_nil].
  - step_in H r s1 H1. destruct r as [q1 early]. destruct early; [by apply hret_ok in H as [? _]|].
    apply process_single_ok in H1 as (w & Hw & -> & _ & Hholds).
    apply NoDup_cons in Hnd as [Hm Hnd]. apply (IH _ _ Hnd) in H as [Hk Hl].
    split; [by apply pass_kept_cons in Hk|]. intros m' [->|Hin]%elem_of_cons.
    + unfold market_status, market_active. rewrite (pk_others _ _ _ Hk) by done.
      rewrite work_info_recorded, decide_True by done. done.
    + destruct (Hl m' Hin) as [Hv Hh]. split; [done|]. intros E. apply Hh.
      rewrite work_info_recorded, decide_False; [done|]. intros Ek. apply Hm. apply list_elem_of_fmap. by exists m'.
Qed.

Lemma validate_markets_ok l q t s total s' :
  NoDup (map market_key l) -> validate_markets env budget l q t s = Ok (Some total, s') ->
  pass_kept l s s' /\ total = t + sum_of (market_active s) l /\
  forall m, m ∈ l -> market_status s' m = Validated /\ market_active s' m = market_active s m.
Proof.
  revert q t s. induction l as [|m l IH]; intros q t s Hnd H; cbn [validate_markets] in H.
  - apply hret_ok in H as [[= ->] ->]. split; [apply pass_kept_nil|]. split; [simpl; lia|by intros m ?%elem_of_nil].
  - step_in H r s1 H1. destruct r as [v q1]. destruct v as [|w|]; [by apply hret_ok in H as [? _]| |by apply hret_ok in H as [? _]].
    apply validate_single_ok in H1 as (Hv & -> & ->). lift_in H t1 Ht1. apply ud_add_ok in Ht1 as [-> _].
    apply NoDup_cons in Hnd as [Hm Hnd]. apply (IH _ _ _ Hnd) in H as (Hk & -> & Hl).
    assert (forall m', m' ∈ l -> market_key m' <> market_key m) as Hne.
    { intros m' Hin E. apply Hm. apply list_elem_of_fmap. by exists m'. }
    split; [by apply pass_kept_cons in Hk|]. split.
    + simpl. rewrite <- (sum_of_ext (market_active s)); [unfold market_active at 2; simpl; lia|].
      intros m' Hin. unfold market_active. rewrite work_info_recorded, decide_False; [done|by apply Hne].
    + intros m' [->|Hin]%elem_of_cons.
      * unfold market_status, market_active. rewrite (pk_others _ _ _ Hk) by done.
        rewrite work_info_recorded, decide_True by done. done.
      * destruct (Hl m' Hin) as [-> ->]. split; [done|]. unfold market_active.
        rewrite work_info_recorded, decide_False; [done|by apply Hne].
Qed.

(** The markets of a token are listed once each. *)
Lemma token_market_in s token start m :
  copy_books s -> m ∈ load_market_ids_with_token s token start <->
    MARKETS_TOKEN s !! (token, market_key m) = Some m /\
    match start with Some from => String.ltb (market_key m) (mid_encoded from) = false | None => True end.
Proof.
  intros Hs. unfold load_market_ids_with_token. rewrite list_elem_of_fmap.
  match goal with |- context [range_asc ?P ?mm] => destruct (range_asc_spec P mm) as (_ & _ & Hin) end. split.
  - intros ([k m'] & -> & Hk). apply Hin in Hk as [Hk HP]. rewrite prefix_of_lookup in Hk. simpl.
    pose proof (cb_markets s Hs _ _ _ Hk) as [_ E]. unfold market_key. rewrite <- E. split; [done|].
    destruct start; [by apply negb_true_iff|done].
  - intros [Hk HP]. exists (market_key m, m). split; [done|]. apply Hin. rewrite prefix_of_lookup. split; [done|].
    destruct start; [by apply negb_true_iff|done].
Qed.
Lemma token_markets_nodup s token start :
  copy_books s -> NoDup (map market_key (load_market_ids_with_token s token start)).
Proof.
  intros Hs. unfold load_market_ids_with_token.
  match goal with |- context [range_asc ?P ?mm] => destruct (range_asc_spec P mm) as (_ & Hnd & Hin) end.
  rewrite map_map. erewrite (map_ext_in _ fst); [exact Hnd|]. intros [k m] Hk%list_elem_of_In.
  apply Hin in Hk as [Hk _]. rewrite prefix_of_lookup in Hk. by apply (cb_markets s Hs) in Hk as [_ ->].
Qed.

Lemma find_market_work_panics P s l :
  (forall m, m ∈ l -> is_batch_operation (market_status s m) = true \/ P (market_status s m) = false) ->
  (exists m, m ∈ l /\ is_batch_operation (market_status s m) = true) ->
  find_market_work P s l = Err (Panic "assertion failed").
Proof.
  induction l as [|m l IH]; intros Hall [m0 [Hin Hm0]]; [by apply elem_of_nil in Hin|]. simpl.
  fold (market_status s m). destruct (is_batch_operation (market_status s m)) eqn:Hb; [done|]. simpl.
  destruct (Hall m) as [?|HP]; [by left|congruence|]. rewrite HP. apply IH; [intros m' Hm'; apply Hall; by right|].
  exists m0. split; [|done]. by apply elem_of_cons in Hin as [->|Hin]; [congruence|].
Qed.
Lemma find_market_work_none P s l :
  find_market_work P s l = Ok false -> forall m, m ∈ l -> P (market_status s m) = false.
Proof.
  induction l as [|m l IH]; intros H m' Hin; [by apply elem_of_nil in Hin|]. simpl in H.
  apply rbind_ok in H as (u & _ & H). fold (market_status s m) in H. destruct (P (market_status s m)) eqn:HP; [done|].
  apply elem_of_cons in Hin as [->|Hin]; [done|by apply IH].
Qed.
End Markets.

(** ** A market not started holds no work, and no shares without a value *)

Section Fresh.
Context {CW : CosmwasmStd} (env : CopyEnv).

(** Who holds shares of a token got them at a value. *)
Definition shares_valued (s : CopyStore) : Prop :=
  forall w t n, COPY_SHARES s !! (w, t) = Some n -> is_Some (LP_TOKEN_VALUE s !! t).

Definition work_fresh (s : CopyStore) : Prop :=
  forall k w, MARKET_WORK_INFO s !! k = Some w -> mw_status w = NotStarted -> w = market_work_default.
Definition pool_fresh (s : CopyStore) : Prop := work_fresh s /\ shares_valued s.

Lemma work_fresh_default s m : work_fresh s -> market_status s m = NotStarted -> work_info_of (cmi_id m) s = market_work_default.
Proof.
  intros Hs. unfold market_status, work_info_of. destruct (_ !! _) as [w|] eqn:E; [|done]. simpl. by apply Hs in E.
Qed.

Lemma save_fresh id w :
  (mw_status w = NotStarted -> w = market_work_default) -> preserves pool_fresh (save_work_info id w).
Proof.
  intros Hw. apply preserves_mod. intros s [Hs Hv]. split; [|exact Hv].
  intros k w'. simpl. rewrite lookup_insert_Some. intros [[_ <-]|[_ Hk]]; [done|by apply (Hs k)].
Qed.
Lemma save_status_fresh id p w : p <> NotStarted -> preserves pool_fresh (save_work_info id (set_mw_status p w)).
Proof. intros Hp. by apply save_fresh. Qed.
Lemma save_default_fresh id : preserves pool_fresh (save_work_info id market_work_default).
Proof. by apply save_fresh. Qed.
Lemma save_orders_fresh id (b : bool) start w :
  preserves pool_fresh (save_work_info id (set_mw_status (if b then ProcessLimitOrder start else ValidateOpenPositions None 0) w)).
Proof. apply save_status_fresh. by destruct b. Qed.
Hint Resolve save_default_fresh save_orders_fresh : copy.
Hint Extern 2 (preserves pool_fresh (save_work_info _ (set_mw_status _ _))) => apply save_status_fresh; discriminate : copy.

Lemma save_value_fresh token v : preserves pool_fresh (save_lp_value token v).
Proof.
  apply preserves_mod. intros s [Hs Hv]. split; [exact Hs|]. intros w t n Hn. simpl in *. apply Hv in Hn.
  destruct (decide (token = t)) as [->|Hne]; [by rewrite lookup_insert_eq; eexists|by rewrite lookup_insert_ne].
Qed.
Hint Resolve save_value_fresh : copy.

(** Once the value of a token is read, shares of it may change. *)
Definition priced (token : CopyToken) (s : CopyStore) : Prop := pool_fresh s /\ is_Some (LP_TOKEN_VALUE s !! token).
Lemma bind_priced {B} token (k : Collateral -> copy_handler B) :
  (forall v, preserves (priced token) (k v)) ->
  preserves pool_fresh (hbind (hask (fun s => load_lp_token_value s token)) k).
Proof.
  intros Hk s b s' Hs (v & s1 & H1 & H)%hbind_ok. apply hask_ok in H1 as [H1 ->].
  apply (Hk v s b s'); [|exact H]. split; [exact Hs|].
  unfold load_lp_token_value in H1. apply rbind_ok in H1 as (x & Hx%of_option_ok & _). by eexists.
Qed.
Lemma insert_priced token w (v : CopyStore -> LpToken) :
  preserves (E:=error) (priced token) (hmod (fun s => set_COPY_SHARES (<[(w, token) := v s]> (COPY_SHARES s)) s)).
Proof.
  apply preserves_mod. intros s [[Hs Hv] Ht]. split; [split; [exact Hs|]|exact Ht]. intros w' t n. simpl.
  rewrite lookup_insert_Some. intros [[[= <- <-] _]|[_ Hn]]; [exact Ht|by apply Hv in Hn].
Qed.
Lemma change_priced token w (o : option LpToken) :
  preserves (E:=error) (priced token) (hmod (fun s => set_COPY_SHARES (match o with
    | None => delete (w, token) (COPY_SHARES s) | Some rest => <[(w, token) := rest]> (COPY_SHARES s) end) s)).
Proof.
  destruct o as [rest|]; [apply (insert_priced token w (fun _ => rest))|].
  apply preserves_mod. intros s [[Hs Hv] Ht]. split; [split; [exact Hs|]|exact Ht]. intros w' t n. simpl.
  rewrite lookup_delete_Some. intros [_ Hn]. by apply Hv in Hn.
Qed.
Hint Extern 1 (preserves (priced _) (hmod (fun s => set_COPY_SHARES (<[_ := _]> (COPY_SHARES s)) s))) =>
  apply (insert_priced _ _ (fun _ => _)) : copy.
Hint Extern 1 (preserves (priced _) (hmod (fun s => set_COPY_SHARES (match _ with _ => _ end) s))) =>
  apply change_priced : copy.
Lemma process_deposit_fresh q i funds token : preserves pool_fresh (process_deposit q i funds token).
Proof. apply bind_priced. intros v. calm. Qed.
Hint Extern 1 (preserves pool_fresh (hbind (hask (fun s => load_lp_token_value s _)) _)) =>
  apply bind_priced; calm : copy.
Lemma process_withdrawal_fresh q i shares token : preserves pool_fresh (process_withdrawal q i shares token).
Proof. calm. Qed.
Hint Resolve process_deposit_fresh process_withdrawal_fresh : copy.

Lemma process_single_fresh budget m q : preserves pool_fresh (process_single_market env budget m q).
Proof. calm. Qed.
Lemma validate_single_fresh budget m q : preserves pool_fresh (validate_single_market env budget m q).
Proof. calm. Qed.
Hint Resolve process_single_fresh validate_single_fresh : copy.
Lemma process_markets_fresh budget l q : preserves pool_fresh (process_markets env budget l q).
Proof. revert q. induction l as [|m l IH]; intros q; simpl; calm. Qed.
Lemma validate_markets_fresh budget l q t : preserves pool_fresh (validate_markets env budget l q t).
Proof. revert q t. induction l as [|m l IH]; intros q t; simpl; calm. Qed.
Lemma reset_markets_fresh l : preserves pool_fresh (reset_markets l).
Proof. induction l as [|m l IH]; simpl; calm. Qed.
Lemma settle_positions_fresh token positions acc : preserves pool_fresh (settle_positions token positions acc).
Proof. revert acc. induction positions as [|p l IH]; intros acc; simpl; calm. Qed.
Hint Resolve process_markets_fresh validate_markets_fresh reset_markets_fresh settle_positions_fresh : copy.
Lemma settle_market_fresh fuel token market amount cursor q acc :
  preserves pool_fresh (settle_market env fuel token market amount cursor q acc).
Proof. revert cursor q acc. induction fuel as [|fuel IH]; intros cursor q acc; simpl; calm. Qed.
Hint Resolve settle_market_fresh : copy.
Lemma settle_markets_fresh token markets amount q early id check c :
  preserves pool_fresh (settle_markets env token markets amount q early id check c).
Proof. revert q early id check c. induction markets as [|m l IH]; intros q early id check c; simpl; calm. Qed.
Lemma load_markets_fresh markets last_seen : preserves pool_fresh (load_markets env markets last_seen).
Proof. revert last_seen. induction markets as [|m l IH]; intros last_seen; simpl; calm. Qed.
Hint Resolve settle_markets_fresh load_markets_fresh : copy.
Lemma copy_execute_fresh from_json info msg : preserves pool_fresh (copy_execute from_json env info msg).
Proof. calm. Qed.
Lemma copy_reply_fresh id r : preserves pool_fresh (copy_reply id r).
Proof. calm. Qed.
End Fresh.

(** ** The value *)

Section Value.
Context {CW : CosmwasmStd} {CWS : CosmwasmStdSpec CW}.
Context (from_json : Binary -> res CopyExecute).

Lemma reachable_fresh s : copy_reachable from_json s -> pool_fresh s.
Proof.
  induction 1 as [env factory leader u p s H|env info msg outcome s msgs s' _ IH H].
  - unfold copy_instantiate in H. apply rbind_ok in H as (l & _ & H). apply rbind_ok in H as (r & _ & H).
    apply rbind_ok in H as (tt1 & _ & [= <-]).
    split; [intros k w|intros w t n]; simpl; by rewrite lookup_empty.
  - unfold copy_transaction in H. step_in H ms s1 H1. apply (copy_execute_fresh env from_json info msg s ms s1 IH) in H1.
    step_in H u s2 H2. apply hret_ok in H as [-> ->].
    destruct ms as [|[id m|m] [|]]; try (apply hret_ok in H2 as [_ ->]; exact H1).
    by apply (copy_reply_fresh id outcome s1 u s2 H1) in H2.
Qed.

Lemma process_markets_outside env budget l q : keeps outside_work (process_markets env budget l q).
Proof.
  assert (forall m q, keeps outside_work (process_single_market env budget m q)) as Hm by calm.
  revert q. induction l as [|m l IH]; intros q x; simpl; calm.
Qed.
Lemma validate_markets_outside env budget l q t : keeps outside_work (validate_markets env budget l q t).
Proof.
  assert (forall m q, keeps outside_work (validate_single_market env budget m q)) as Hm by calm.
  revert q t. induction l as [|m l IH]; intros q t x; simpl; calm.
Qed.

(** A finished computation went through both passes. *)
Lemma compute_finished env token a b s u s' old q v :
  LP_TOKEN_VALUE s !! token = Some old -> get_current_queue_element s = Ok q ->
  lp_status_valid (lv_status old) q = false -> compute_lp_token_value env token a b s = Ok (u, s') ->
  LP_TOKEN_VALUE s' !! token = Some v -> lp_status_valid (lv_status v) q = true ->
  let budget := cyc_allowed_lp_token_queries (COPY_CONFIG s) in
  exists q1 total s1 s2,
    process_markets env budget (load_market_ids_with_token s token a) 0 s = Ok (Some q1, s1) /\
    validate_markets env budget (load_market_ids_with_token s token b) q1 0 s1 = Ok (Some total, s2) /\
    one_share_value (total_collateral (totals_of token s) + total) (total_shares (totals_of token s)) = Ok (lv_value v) /\
    MARKET_WORK_INFO s' = MARKET_WORK_INFO s2 /\ get_batch_work s' = get_batch_work s2 /\
    outside_work s2 = outside_work s /\ MARKETS_TOKEN s' = MARKETS_TOKEN s.
Proof.
  intros Hold Hq Hinv H Hv Hval budget. unfold compute_lp_token_value in H. step_in H o s0 H0. get_in H0.
  lift_in H q0 Hq0. rewrite Hq in Hq0. injection Hq0 as <-. rewrite Hold, Hinv in H.
  assert (forall s1, outside_work s1 = outside_work s -> LP_TOKEN_VALUE s1 !! token = Some v -> False) as Hsame.
  { intros s1 E Hv1. apply (f_equal LP_TOKEN_VALUE) in E. simpl in E. rewrite E in Hv1. congruence. }
  step_in H c s3 H3. get_in H3. cbv zeta in H. fold budget in H. step_in H l s3 H3. get_in H3.
  step_in H r1 s1 Hp. pose proof (keeps_ok outside_work _ _ _ _ (process_markets_outside _ _ _ _) Hp) as E1.
  destruct r1 as [q1|]; [|apply hret_ok in H as [_ ->]; by destruct (Hsame s1 E1)].
  step_in H l2 s4 H4. get_in H4. step_in H r2 s2 Hw.
  pose proof (keeps_ok outside_work _ _ _ _ (validate_markets_outside _ _ _ _ _) Hw) as E2. rewrite E1 in E2.
  destruct r2 as [tot|]; [|apply hret_ok in H as [_ ->]; by destruct (Hsame s2 E2)].
  step_in H t s5 H5. get_in H5. lift_in H sm Hsum. apply ud_add_ok in Hsum as [-> _]. lift_in H vl Hvalue.
  lift_in H q2 Hq2. apply hmod_ok in H. subst s'. simpl in Hv. rewrite lookup_insert_eq in Hv. injection Hv as <-.
  exists q1, tot, s1, s2. split; [done|]. split.
  { replace (load_market_ids_with_token s token b) with (load_market_ids_with_token s1 token b); [done|].
    exact (f_equal (fun x => load_market_ids_with_token x token b) E1). }
  split; [|split; [done|split; [done|split; [done|exact (f_equal MARKETS_TOKEN E2)]]]].
  replace (totals_of token s) with (totals_of token s2); [done|]. exact (f_equal (totals_of token) E2).
Qed.

Lemma check_balance_compute env s token token' :
  check_balance_work env s token = Ok (CopyHasWork (ComputeLpTokenValue token' None None)) ->
  token' = token /\ forall m, m ∈ load_market_ids_with_token s token None -> market_status s m = NotStarted.
Proof.
  unfold check_balance_work. intros (mt & _ & H)%rbind_ok. apply rbind_ok in H as (b & _ & H).
  apply rbind_ok in H as (t & _ & H). apply rbind_ok in H as (d & _ & H). destruct (d <=? BALANCE_EPSILON).
  - apply rbind_ok in H as (started & Hs & H). destruct started; [done|]. injection H as <-. split; [done|].
    intros m Hm. apply (find_market_work_none _ _ _ Hs) in Hm. by destruct (market_status s m).
  - apply rbind_ok in H as (r & _ & H). by apply rbind_ok in H as (r' & _ & [= H]).
Qed.

(** Settling a deferred execution is no computation. *)
Definition settles (deferred_work : DeferredExecId -> res WorkResp) : Prop :=
  forall id token a b, deferred_work id <> Ok (CopyHasWork (ComputeLpTokenValue token a b)).
Lemma settled_settles env s id : settles (settled_deferred_work env s id).
Proof.
  intros i token a b H. unfold settled_deferred_work in H. apply rbind_ok in H as (m & _ & H).
  apply rbind_ok in H as (r & _ & H). destruct r as [item|]; [|done]. by destruct (is_pending (de_status item)).
Qed.
Lemma inc_settles env s : settles (get_inc_deferred_work env s).
Proof.
  intros i token a b H. unfold get_inc_deferred_work in H. apply rbind_ok in H as ([[q p]|] & _ & H); [|done].
  destruct (inc_item p); [done|by apply settled_settles in H].
Qed.
Lemma dec_settles env s : settles (get_dec_deferred_work env s).
Proof.
  intros i token a b H. unfold get_dec_deferred_work in H. apply rbind_ok in H as ([[q p]|] & _ & H); [|done].
  destruct (dec_item p); [done|by apply settled_settles in H].
Qed.

Lemma queue_item_compute env s q st req dw token :
  settles dw -> queue_item_work env s q st req dw = Ok (CopyHasWork (ComputeLpTokenValue token None None)) ->
  (forall v, LP_TOKEN_VALUE s !! token = Some v -> lp_status_valid (lv_status v) q = false) /\
  forall m, m ∈ load_market_ids_with_token s token None -> market_status s m = NotStarted.
Proof.
  intros Hdw H. unfold queue_item_work in H.
  assert (forall o : option DeferredExecId, (match in_progress st, o with
    | true, Some i => dw i | _, _ => Ok (CopyHasWork (ProcessQueueItem q)) end)
    <> Ok (CopyHasWork (ComputeLpTokenValue token None None))) as Hp.
  { intros o. by destruct (in_progress st), o. }
  destruct req as [t|]; [|by apply Hp in H].
  destruct (LP_TOKEN_VALUE s !! t) as [v|] eqn:Hv.
  - destruct (lp_status_valid (lv_status v) q) eqn:Hval; [by apply Hp in H|].
    destruct (deferred_exec_of s) as [i|]; [by apply Hdw in H|].
    apply rbind_ok in H as (r & _ & H). destruct r; [done|]. apply check_balance_compute in H as [-> Hm].
    split; [|done]. intros v' Hv'. congruence.
  - apply check_balance_compute in H as [-> Hm]. split; [congruence|done].
Qed.

Lemma fresh_work_is_outdated env s token :
  get_batch_work s = None -> copy_get_work env s = Ok (CopyHasWork (ComputeLpTokenValue token None None)) ->
  exists q, get_current_queue_element s = Ok q /\
    (forall v, LP_TOKEN_VALUE s !! token = Some v -> lp_status_valid (lv_status v) q = false) /\
    forall m, m ∈ load_market_ids_with_token s token None -> market_status s m = NotStarted.
Proof.
  intros Hb H. unfold copy_get_work in H. rewrite Hb in H. apply rbind_ok in H as (due & _ & H). destruct due; [done|].
  unfold get_current_queue_element. apply rbind_ok in H as (o & Ho & H). rewrite Ho. simpl.
  destruct o as [[q p]|].
  - exists (IncQueuePositionId q). split; [done|]. by eapply queue_item_compute, H; apply inc_settles.
  - apply rbind_ok in H as (d & Hd & H). rewrite Hd. simpl. destruct d as [[q p]|]; [|done].
    exists (DecQueuePositionId q). split; [done|]. unfold get_work_from_dec_queue in H.
    by eapply queue_item_compute, H; apply dec_settles.
Qed.

(** A token without a value has no shares. *)
Lemma no_value_no_shares s token :
  copy_books s -> shares_valued s -> LP_TOKEN_VALUE s !! token = None ->
  (forall w, COPY_SHARES s !! (w, token) = None) /\ total_shares (totals_of token s) = 0.
Proof.
  intros Hs Hv Hn. assert (forall w, COPY_SHARES s !! (w, token) = None) as Hw.
  { intros w. destruct (COPY_SHARES s !! (w, token)) as [n|] eqn:E; [|done]. apply Hv in E as [x Hx]. congruence. }
  split; [done|]. rewrite (cb_shares s Hs). unfold wallet_shares. apply map_sum_zero.
  intros [w t] n [Hk Ht]%map_lookup_filter_Some. simpl in Ht. subst t. by rewrite Hw in Hk.
Qed.

(** The first value of a token is one, whatever the markets hold. *)
Lemma compute_first env token a b s u s' v :
  LP_TOKEN_VALUE s !! token = None -> compute_lp_token_value env token a b s = Ok (u, s') ->
  LP_TOKEN_VALUE s' !! token = Some v ->
  lv_value v = DEC_ONE /\ MARKET_WORK_INFO s' = MARKET_WORK_INFO s /\ get_batch_work s' = get_batch_work s.
Proof.
  intros Hn H Hv. unfold compute_lp_token_value in H. step_in H o s0 H0. get_in H0. lift_in H q Hq. rewrite Hn in H.
  apply hmod_ok in H. subst s'. simpl in Hv. rewrite lookup_insert_eq in Hv. by injection Hv as <-.
Qed.

(** C25: the value of a share is exact.  When the work of a reachable pool is
    to compute the value of a token from the start, and one transaction
    completes it, then there are two cases.  If the token had a value before,
    the new one is the collateral in the contract together with what every
    open position and every limit order of every market of the token holds, on
    all the pages the markets answer, for each share; all markets of the token
    are left validated.  If it had none, nobody has shares of it yet, and the
    value is one: no market is asked, and the work on the markets stays as it
    is.  No batch is open afterwards in either case. *)
Theorem lp_value_exact env s msgs s' token v q :
  copy_reachable from_json s -> get_batch_work s = None ->
  copy_get_work env s = Ok (CopyHasWork (ComputeLpTokenValue token None None)) ->
  copy_do_work env s = Ok (msgs, s') ->
  LP_TOKEN_VALUE s' !! token = Some v -> get_current_queue_element s = Ok q ->
  lp_status_valid (lv_status v) q = true ->
  let markets := load_market_ids_with_token s token None in
  let totals := totals_of token s in
  get_batch_work s' = None /\
  match LP_TOKEN_VALUE s !! token with
  | Some _ =>
      exists held, Forall2 (fun m h => market_holds env (cmi_addr m) h) markets held /\
        one_share_value (total_collateral totals + sum_of (fun h => h) held) (total_shares totals) = Ok (lv_value v) /\
        Forall (fun m => market_status s' m = Validated) markets
  | None =>
      (forall w, COPY_SHARES s !! (w, token) = None) /\ total_shares totals = 0 /\
      lv_value v = DEC_ONE /\ MARKET_WORK_INFO s' = MARKET_WORK_INFO s
  end.
Proof.
  intros Hr Hb Hw H Hv Hq Hval markets totals.
  pose proof (copy_reachable_books from_json _ Hr) as Hs. destruct (reachable_fresh _ Hr) as [Hf Hsv].
  destruct (fresh_work_is_outdated _ _ _ Hb Hw) as (q' & Hq' & Hinv & Hfresh).
  rewrite Hq in Hq'. injection Hq' as <-.
  unfold copy_do_work in H. lift_in H work Hwork. rewrite Hw in Hwork. injection Hwork as <-.
  step_in H u s3 H3. apply hret_ok in H as [_ ->].
  destruct (LP_TOKEN_VALUE s !! token) as [old|] eqn:Hold.
  2:{ destruct (compute_first _ _ _ _ _ _ _ _ Hold H3 Hv) as (Hone & Ewi & Ebatch).
      destruct (no_value_no_shares _ _ Hs Hsv Hold) as [Hns Ht]. rewrite Ebatch. by split_and!. }
  specialize (Hinv old eq_refl).
  destruct (compute_finished _ _ _ _ _ _ _ _ _ _ Hold Hq Hinv H3 Hv Hval)
    as (q1 & total & s1 & s2 & Hp & Hval2 & Hone & Ewi & Ebatch & Eout & _).
  pose proof (token_markets_nodup _ token None Hs) as Hnd. fold markets in Hp, Hval2, Hnd, Hfresh.
  apply process_markets_ok in Hp as [Hk1 Hl1]; [|done]. apply validate_markets_ok in Hval2 as (Hk2 & -> & Hl2); [|done].
  split; [rewrite Ebatch; apply (pk_batch _ _ _ Hk2); right; apply (pk_batch _ _ _ Hk1); by right|].
  exists (map (market_active s1) markets). split_and!.
  - apply Forall2_fmap_r, Forall_Forall2_diag, Forall_forall. intros m Hm. apply (Hl1 m Hm).
    apply work_fresh_default, Hfresh, Hm. exact Hf.
  - by rewrite sum_of_map, <- Hone.
  - apply Forall_forall. intros m Hm. destruct (Hl2 m Hm) as [Hst _]. unfold market_status, work_info_of. rewrite Ewi. done.
Qed.

(** C26: a validation resumed in its middle breaks the pool.  When the
    computation of the value continues the validation at a market while other
    markets of the token come before it, and completes, then the value leaves
    those out: it is the collateral in the contract with what the later
    markets hold only.  The earlier markets are left in the middle of a
    batch, so from then on, as long as the work on the markets stays as it
    is, no item that needs a fresh value of the token can be worked on: the
    choice of work fails an assertion. *)
Theorem resumed_validation_breaks env s msgs s' token from m0 old v q :
  copy_reachable from_json s -> get_batch_work s = Some (ComputeLpTokenValue token None (Some from)) ->
  MARKETS_TOKEN s !! (token, market_key m0) = Some m0 -> String.ltb (market_key m0) (mid_encoded from) = true ->
  LP_TOKEN_VALUE s !! token = Some old -> get_current_queue_element s = Ok q ->
  lp_status_valid (lv_status old) q = false ->
  copy_do_work env s = Ok (msgs, s') ->
  LP_TOKEN_VALUE s' !! token = Some v -> lp_status_valid (lv_status v) q = true ->
  let later := load_market_ids_with_token s token (Some from) in
  let totals := totals_of token s in
  one_share_value (total_collateral totals + sum_of (market_active s') later) (total_shares totals) = Ok (lv_value v) /\
  ~ In m0 later /\ is_batch_operation (market_status s' m0) = true /\
  forall env' s'' v'' id status deferred_work,
    MARKET_WORK_INFO s'' = MARKET_WORK_INFO s' -> MARKETS_TOKEN s'' = MARKETS_TOKEN s' ->
    LP_TOKEN_VALUE s'' !! token = Some v'' -> lp_status_valid (lv_status v'') id = false ->
    deferred_exec_of s'' = None ->
    queue_item_work env' s'' id status (Some token) deferred_work = Err (Panic "assertion failed").
Proof.
  intros Hr Hb Hm0 Hlt Hold Hq Hinv H Hv Hval later totals.
  pose proof (copy_reachable_books from_json _ Hr) as Hs.
  unfold copy_do_work in H. lift_in H work Hwork. unfold copy_get_work in Hwork. rewrite Hb in Hwork. injection Hwork as <-.
  step_in H u s3 H3. apply hret_ok in H as [_ ->].
  destruct (compute_finished _ _ _ _ _ _ _ _ _ _ Hold Hq Hinv H3 Hv Hval)
    as (q1 & total & s1 & s2 & Hp & Hval2 & Hone & Ewi & Ebatch & Eout & EM).
  apply process_markets_ok in Hp as [Hk1 Hl1]; [|by apply token_markets_nodup].
  apply validate_markets_ok in Hval2 as (Hk2 & -> & Hl2); [|by apply token_markets_nodup]. fold later in Hk2, Hl2, Hone.
  assert (forall m, market_status s3 m = market_status s2 m) as Est by (intros m; unfold market_status, work_info_of; by rewrite Ewi).
  assert (forall m, market_key m ∉ map market_key later ->
    m ∈ load_market_ids_with_token s token None -> is_batch_operation (market_status s3 m) = true) as Hbatch.
  { intros m Hm Hin. rewrite Est. unfold market_status. rewrite (pk_others _ _ _ Hk2) by done.
    destruct (Hl1 m Hin) as [Hvs _]. unfold market_status in Hvs. by destruct (mw_status _). }
  assert (market_key m0 ∉ map market_key later) as Hout.
  { intros (m & E & Hm)%list_elem_of_fmap. apply token_market_in in Hm as [_ Hm]; [|done]. rewrite <- E in Hm. congruence. }
  assert (m0 ∈ load_market_ids_with_token s token None) as Hin0 by (by apply token_market_in).
  split; [|split; [|split]].
  - rewrite <- Hone, Z.add_0_l. f_equal. f_equal. apply sum_of_ext. intros m Hm. destruct (Hl2 m Hm) as [_ <-].
    unfold market_active, work_info_of. by rewrite Ewi.
  - intros Hm%list_elem_of_In. apply Hout, list_elem_of_fmap. by exists m0.
  - by apply Hbatch.
  - intros env' s'' v'' id status dw Ew Em Hlv Hid Hd. unfold queue_item_work. rewrite Hlv, Hid, Hd.
    assert (load_market_ids_with_token s'' token None = load_market_ids_with_token s token None) as ->
      by (unfold load_market_ids_with_token; by rewrite Em, EM).
    assert (forall m, market_status s'' m = market_status s3 m) as Est2
      by (intros m; unfold market_status, work_info_of; by rewrite Ew).
    rewrite find_market_work_panics; [done| |exists m0; rewrite Est2; split; [done|by apply Hbatch]].
    intros m Hm. rewrite Est2. destruct (decide (market_key m ∈ map market_key later)) as [(m' & E & Hm')%list_elem_of_fmap|Hn].
    + right. assert (m = m') as ->.
      { apply token_market_in in Hm as [Hm _], Hm' as [Hm' _]; [|done..]. rewrite E in Hm. congruence. }
      rewrite Est. by destruct (Hl2 m' Hm') as [-> _].
    + left. by apply Hbatch.
Qed.
End Value.

(** * Two concrete pools

    Two markets of one token: in the one that sorts first the leader has a
    limit order, in the other three positions, on two pages.  Alice's three
    units are in the pool, Bob deposits five.  With a budget of thirty queries
    the value counts all of them; with a budget of eight the validation is
    interrupted and the order is lost. *)

Definition sample_two_markets (after : option MarketId) : list string :=
  match after with None => ["BTC"%string; "ETH"%string] | Some _ => [] end.
Definition sample_unit : Z := 1000000000000.
Definition sample_held_position (id : PositionId) : PositionQueryResponse :=
  mkPositionQueryResponse "pool" id LongToBase (2 * DEC_ONE) (2 * DEC_ONE) 0 None 0 (mkCollateralAndUsd 0 0)
    (mkSignedCollateralAndUsd NUMBER_ZERO NUMBER_ZERO) (mkCollateralAndUsd 0 0) (mkCollateralAndUsd 0 0)
    (mkSignedCollateralAndUsd NUMBER_ZERO NUMBER_ZERO)
    (mkSignedCollateralAndUsd (into_signed sample_unit) (into_signed sample_unit)) sample_unit sample_unit
    sample_unit NUMBER_ZERO NUMBER_ZERO NUMBER_ZERO (into_signed sample_unit) (into_signed sample_unit)
    (into_signed sample_unit) (into_signed sample_unit) None (mkLiquidationMargin 0 0 0 0 0) None (7 * DEC_ONE)
    0 None None None.
Definition sample_tokens (addr : Addr) (after : option string) : list PositionId :=
  if bool_decide (addr = "BTC"%string) then []
  else match after with
       | None => [1; 2]
       | Some id => if bool_decide (id = "2"%string) then [3] else []
       end.
Definition sample_orders (addr : Addr) : list LimitOrderResp :=
  if bool_decide (addr = "BTC"%string)
  then [mkLimitOrderResp 1 (5 * DEC_ONE) sample_unit (2 * DEC_ONE) LongToBase None None TakeProfitPosInfinity]
  else [].
Definition sample_value_env (balance : Z) : CopyEnv :=
  mkCopyEnv 1000 "pool" (fun after => Ok (map sample_copy_market (sample_two_markets after)))
    (fun id => Ok (mid_base id)) (Ok None) (fun addr => Ok (sample_copy_status addr))
    (fun addr after => Ok (sample_tokens addr after))
    (fun _ ids => Ok (mkPositionsResp (map sample_held_position ids) [] []))
    (fun _ _ => Ok (mkClosedPositionsResp [] None))
    (fun addr _ => Ok (sample_orders addr, None)) (fun _ _ => Ok DeferredNotFound) (fun _ => Ok sample_copy_price)
    (fun _ => Ok (Some (mkCrankFeeConfig 0 0))) (fun _ => Ok balance) (fun _ => Ok 0) 10.
Definition sample_value_work (balance : Z) : SampleTx :=
  mkSampleTx (sample_value_env balance) "bot" [] CopyDoWork sample_no_reply.
Definition sample_value_deposit (sender : Addr) (amount : Z) : SampleTx :=
  mkSampleTx (sample_value_env 0) sender [("uusdc"%string, amount)] CopyDeposit sample_no_reply.
Definition sample_value_start (queries : Z) : CopyStore :=
  set_COPY_CONFIG (mkCopyConfig "factory" "factory" None "leader" "Name" "Description" (DEC_ONE / 10) 1000 30 queries)
    sample_copy_empty.
(** Bob's deposit waits for a value. *)
Definition sample_waiting (queries : Z) : CopyStore :=
  copy_after [sample_value_work 0; sample_value_work 0; sample_value_deposit "alice" 3; sample_value_work 3;
    sample_value_work 3; sample_value_deposit "bob" 5] (sample_value_start queries).
Definition sample_interrupted : CopyStore := copy_after [sample_value_work 8] (sample_waiting 8).

Lemma sample_waiting_reachable queries :
  copy_instantiate (CW:=cosmwasm_ref) (sample_value_env 0) "factory" "leader" (mkCopyConfigUpdate None None None)
    (mkFactoryConfigUpdate None (Some queries)) = Ok (sample_value_start queries) ->
  is_ok (sample_copy_run [sample_value_work 0; sample_value_work 0; sample_value_deposit "alice" 3; sample_value_work 3;
    sample_value_work 3; sample_value_deposit "bob" 5] (sample_value_start queries)) = true ->
  copy_reachable (CW:=cosmwasm_ref) sample_copy_json (sample_waiting queries).
Proof.
  intros Hi Hok.
  refine (proj1 (sample_copy_reach _ (sample_value_start queries) _ Hok)).
  exact (copy_reach_instantiate (CW:=cosmwasm_ref) sample_copy_json _ _ _ _ _ _ Hi).
Qed.

(** Seven units for three shares: three in the contract, three in positions,
    one in the order. *)
Lemma lp_value_exact_witness :
  exists msgs s' held v,
    copy_do_work (CW:=cosmwasm_ref) (sample_value_env 8) (sample_waiting 30) = Ok (msgs, s') /\
    Forall2 (fun m h => market_holds (sample_value_env 8) (cmi_addr m) h)
      (load_market_ids_with_token (sample_waiting 30) (CopyNative "uusdc") None) held /\
    one_share_value (CW:=cosmwasm_ref) (3 * sample_unit + sum_of (fun h => h) held) (3 * sample_unit) = Ok v /\
    v = 7 * DEC_ONE / 3.
Proof.
  assert (is_ok (copy_do_work (CW:=cosmwasm_ref) (sample_value_env 8) (sample_waiting 30)) = true) as Hok
    by (vm_compute; reflexivity).
  apply is_ok_Ok in Hok as [[msgs s'] E].
  assert (match copy_do_work (CW:=cosmwasm_ref) (sample_value_env 8) (sample_waiting 30) with
    | Ok (_, s1) => LP_TOKEN_VALUE s1 !! CopyNative "uusdc"
        = Some (mkLpTokenValue (7 * DEC_ONE / 3) (LpValid 1000 (IncQueuePositionId 1)))
    | Err _ => False end) as Ev by (vm_compute; reflexivity).
  rewrite E in Ev.
  destruct (lp_value_exact (CW:=cosmwasm_ref) (CWS:=cosmwasm_ref_spec) sample_copy_json (sample_value_env 8)
    (sample_waiting 30) msgs s' (CopyNative "uusdc")
    (mkLpTokenValue (7 * DEC_ONE / 3) (LpValid 1000 (IncQueuePositionId 1))) (IncQueuePositionId 1))
    as (_ & Hcase).
  - apply sample_waiting_reachable; vm_compute; reflexivity.
  - vm_compute. reflexivity.
  - vm_compute. reflexivity.
  - exact E.
  - exact Ev.
  - vm_compute. reflexivity.
  - vm_compute. reflexivity.
  - assert (LP_TOKEN_VALUE (sample_waiting 30) !! CopyNative "uusdc"
      = Some (mkLpTokenValue DEC_ONE (LpValid 1000 (IncQueuePositionId 0)))) as Eold by (vm_compute; reflexivity).
    rewrite Eold in Hcase. destruct Hcase as (held & Hheld & Hone & _).
    exists msgs, s', held, (7 * DEC_ONE / 3). split; [exact E|]. split; [exact Hheld|]. split; [|reflexivity].
    assert (totals_of (CopyNative "uusdc") (sample_waiting 30) = mkCopyTotals (3 * sample_unit) (3 * sample_unit)) as Et
      by (vm_compute; reflexivity).
    rewrite Et in Hone. exact Hone.
Defined.

(** Six units for the same three shares: the order of the first market is
    lost, and with it the pool stands still. *)
Lemma resumed_validation_breaks_witness :
  exists msgs s', copy_do_work (CW:=cosmwasm_ref) (sample_value_env 8) sample_interrupted = Ok (msgs, s') /\
    LP_TOKEN_VALUE s' !! CopyNative "uusdc"
      = Some (mkLpTokenValue (2 * DEC_ONE) (LpValid 1000 (IncQueuePositionId 1))) /\
    is_batch_operation (market_status s' (mkCopyMarketInfo (sample_copy_market "BTC") "BTC" (TokenNative "uusdc" 6))) = true.
Proof.
  assert (is_ok (copy_do_work (CW:=cosmwasm_ref) (sample_value_env 8) sample_interrupted) = true) as Hok
    by (vm_compute; reflexivity).
  apply is_ok_Ok in Hok as [[msgs s'] E].
  assert (match copy_do_work (CW:=cosmwasm_ref) (sample_value_env 8) sample_interrupted with
    | Ok (_, s1) => LP_TOKEN_VALUE s1 !! CopyNative "uusdc"
        = Some (mkLpTokenValue (2 * DEC_ONE) (LpValid 1000 (IncQueuePositionId 1)))
    | Err _ => False end) as Ev by (vm_compute; reflexivity).
  rewrite E in Ev.
  destruct (resumed_validation_breaks (CW:=cosmwasm_ref) (CWS:=cosmwasm_ref_spec) sample_copy_json (sample_value_env 8)
    sample_interrupted msgs s' (CopyNative "uusdc") (sample_copy_market "ETH")
    (mkCopyMarketInfo (sample_copy_market "BTC") "BTC" (TokenNative "uusdc" 6))
    (mkLpTokenValue DEC_ONE (LpValid 1000 (IncQueuePositionId 0)))
    (mkLpTokenValue (2 * DEC_ONE) (LpValid 1000 (IncQueuePositionId 1))) (IncQueuePositionId 1))
    as (_ & _ & Hbatch & _).
  - apply sample_copy_reach; [apply sample_waiting_reachable; vm_compute; reflexivity|vm_compute; reflexivity].
  - vm_compute. reflexivity.
  - vm_compute. reflexivity.
  - vm_compute. reflexivity.
  - vm_compute. reflexivity.
  - vm_compute. reflexivity.
  - vm_compute. reflexivity.
  - exact E.
  - exact Ev.
  - vm_compute. reflexivity.
  - exists msgs, s'. split; [exact E|]. split; [exact Ev|exact Hbatch].
Defined.
