(* ===== verification/Keys.v ===== *)
(** * Storage keys

    The contracts iterate over maps in the order of the encoded keys, and read
    maps of other contracts by keys they encode themselves.  This file has the
    encodings of the repository: the [PrimaryKey] and [KeyDeserialize]
    implementations of its types and [map_key] of
    [packages/perpswap/src/storage.rs].  The theorems are what the rest of the
    development builds on: the byte order of the encoded keys is the order
    [KeyOrder] iterates in. *)

From stdpp Require Import base option gmap strings list.
From Stdlib Require Import ZArith Lia Ascii.
From S2P Require Import Prelude Index Storage Cosmwasm Types Number Time Market Price Token DataSeries Config Position Trading Factory CopyTrading.
Local Open Scope Z_scope.

(** ** Bytes *)

Abbreviation bytes := (list Z).

Fixpoint bytes_of (s : string) : bytes :=
  match s with
  | EmptyString => []
  | String c s => Z.of_N (N_of_ascii c) :: bytes_of s
  end.

(** The order of the storage. *)
Fixpoint bytes_lt (a b : bytes) : bool :=
  match a, b with
  | _, [] => false
  | [], _ :: _ => true
  | x :: a, y :: b => (x <? y) || ((x =? y) && bytes_lt a b)
  end.

(** [to_be_bytes] and [from_be_bytes] of an integer of [w] bytes. *)
Fixpoint be_bytes (w : nat) (z : Z) : bytes :=
  match w with
  | O => []
  | S w => be_bytes w (z / 256) ++ [z mod 256]
  end.
Definition be_value (l : bytes) : Z := foldl (fun acc b => acc * 256 + b) 0 l.

(** [cw_storage_plus::Key], as far as the sources use it. *)
Inductive Key := KeyRef (b : bytes) | KeyVal8 (b : Z) | KeyVal64 (b : bytes).
Definition key_as_ref (k : Key) : bytes :=
  match k with KeyRef b => b | KeyVal8 b => [b] | KeyVal64 b => b end.

(** What the sources use of cosmwasm-std and cw-storage-plus. *)
Class KeyCodec := {
  (** [Uint256::to_be_bytes], [Uint256::from_be_bytes] *)
  u256_to_be_bytes : Z -> bytes;
  u256_from_be_bytes : bytes -> Z;
  (** [u64::to_cw_bytes], [u64::from_vec] *)
  u64_to_cw_bytes : Z -> bytes;
  u64_from_vec : bytes -> res Z;
  (** [<(u8, Vec<u8>) as KeyDeserialize>::from_vec] *)
  u8_pair_from_vec : bytes -> res (Z * bytes);
  (** [String::from_slice] and [Addr::from_slice] *)
  string_from_slice : bytes -> res string;
  (** [<Vec<u8> as PrimaryKey>::key] *)
  vec_key : bytes -> list Key;
  (** the texts that are valid UTF-8 *)
  is_utf8 : string -> bool;
}.

Class KeyCodecSpec (KC : KeyCodec) : Prop := {
  u256_to_be_bytes_spec z : 0 <= z <= U256_MAX -> u256_to_be_bytes z = be_bytes 32 z;
  u256_from_be_bytes_spec l : length l = 32%nat -> u256_from_be_bytes l = be_value l;
  u64_to_cw_bytes_spec z : 0 <= z <= U64_MAX -> u64_to_cw_bytes z = be_bytes 8 z;
  u64_from_vec_spec l : length l = 8%nat -> u64_from_vec l = Ok (be_value l);
  u8_pair_from_vec_spec x l : 0 <= x < 256 -> u8_pair_from_vec (0 :: 1 :: x :: l) = Ok (x, l);
  vec_key_spec v : vec_key v = [KeyRef v];
  string_from_slice_spec s : is_utf8 s = true -> string_from_slice (bytes_of s) = Ok s;
}.

(** ** [storage.rs] *)

Definition encode_length (l : bytes) : res bytes :=
  if Z.of_nat (length l) <=? 65535 then Ok (be_bytes 2 (Z.of_nat (length l)))
  else Err (Panic "only supports namespaces up to length 0xFFFF").

(** The loop over the namespace and all parts but the last. *)
Fixpoint encode_prefixes (prefixes : list bytes) : res bytes :=
  match prefixes with
  | [] => Ok []
  | p :: prefixes =>
      n <- encode_length p;
      out <- encode_prefixes prefixes;
      Ok (n ++ p ++ out)
  end.

Definition map_key (namespace : string) (key : list Key) : res bytes :=
  _ <- assert (negb (is_empty key));
  out <- encode_prefixes (bytes_of namespace :: map key_as_ref (take (length key - 1) key));
  Ok (out ++ default [] (key_as_ref <$> last key)).

Section Definitions.
Context {KC : KeyCodec}.

(** ** Numbers *)

Definition nonzero_to_be_bytes (n : Z) : bytes := u256_to_be_bytes n.
Definition nonzero_from_be_bytes (l : bytes) : option Z :=
  if bool_decide (l = replicate 32 0) then None else Some (u256_from_be_bytes l).

Definition to_unsigned_key_bytes (n : Number) : option bytes :=
  if is_negative n then None else Some (u256_to_be_bytes (value n)).
Definition from_unsigned_key_bytes (l : bytes) : Number := new_positive (u256_from_be_bytes l).

(** [PriceKey], whose bytes are those of the price. *)
Definition price_key_from (price : Price) : bytes := nonzero_to_be_bytes price.
Definition price_key_key (k : bytes) : list Key := [KeyRef k].
Definition price_key_from_vec (v : bytes) : res Price :=
  of_option StdError (if Nat.eqb (length v) 32 then nonzero_from_be_bytes v else None).

(** ** Times and ids *)

Definition timestamp_key (t : Timestamp) : list Key := [KeyVal64 (u64_to_cw_bytes t)].
Definition timestamp_from_vec (v : bytes) : res Timestamp := u64_from_vec v.

Definition position_id_key (id : PositionId) : list Key := [KeyVal64 (u64_to_cw_bytes id)].
Definition position_id_from_vec (v : bytes) : res PositionId := u64_from_vec v.
Definition order_id_key (id : OrderId) : list Key := [KeyVal64 (u64_to_cw_bytes id)].
Definition order_id_from_vec (v : bytes) : res OrderId := u64_from_vec v.
Definition deferred_exec_id_key (id : DeferredExecId) : list Key := [KeyVal64 (u64_to_cw_bytes id)].
Definition deferred_exec_id_from_vec (v : bytes) : res DeferredExecId := u64_from_vec v.
Definition inc_queue_position_id_key (id : Z) : list Key := [KeyVal64 (u64_to_cw_bytes id)].
Definition dec_queue_position_id_key (id : Z) : list Key := [KeyVal64 (u64_to_cw_bytes id)].

(** [QueueId] of the vault uses the standard library. *)
Definition queue_id_key (id : Z) : list Key := [KeyVal64 (be_bytes 8 id)].
Definition queue_id_from_vec (v : bytes) : res Z :=
  if Nat.eqb (length v) 8 then Ok (be_value v) else Err StdError.

(** ** Texts and enumerations *)

Definition market_id_key (id : MarketId) : list Key := [KeyRef (bytes_of (mid_encoded id))].
Definition market_id_from_vec (v : bytes) : res MarketId :=
  s <- string_from_slice v; market_id_from_str s.

Definition direction_to_u8 (d : DirectionToNotional) : Z :=
  match d with LongToNotional => 0 | ShortToNotional => 1 end.
Definition direction_key (d : DirectionToNotional) : list Key := [KeyVal8 (direction_to_u8 d)].
(** The output type is [u8]. *)
Definition direction_from_vec (v : bytes) : res Z :=
  match v with [b] => Ok b | _ => Err StdError end.

Definition shutdown_impact_key (i : ShutdownImpact) : list Key := [KeyRef (bytes_of (impact_bytes i))].

Definition copy_token_key (t : CopyToken) : list Key :=
  match t with
  | CopyNative native => [KeyVal8 0; KeyRef (bytes_of native)]
  | CopyCw20 cw20 => [KeyVal8 1; KeyRef (bytes_of cw20)]
  end.
Definition copy_token_from_vec (v : bytes) : res CopyToken :=
  '(token_type, token) <- u8_pair_from_vec v;
  if token_type =? 0 then s <- string_from_slice token; Ok (CopyNative s)
  else if token_type =? 1 then a <- string_from_slice token; Ok (CopyCw20 a)
  else Err StdError.

Definition queue_position_id_key (q : QueuePositionId) : list Key :=
  match q with
  | IncQueuePositionId id => KeyVal8 0 :: inc_queue_position_id_key id
  | DecQueuePositionId id => KeyVal8 1 :: dec_queue_position_id_key id
  end.
Definition queue_position_id_from_vec (v : bytes) : res QueuePositionId :=
  '(queue_type, rest) <- u8_pair_from_vec v;
  queue_id <- u64_from_vec rest;
  if queue_type =? 0 then Ok (IncQueuePositionId queue_id)
  else if queue_type =? 1 then Ok (DecQueuePositionId queue_id)
  else Err StdError.

(** [WalletInfo]: a wallet and a token. *)
Definition wallet_info_key (w : Addr * CopyToken) : list Key := KeyRef (bytes_of w.1) :: copy_token_key w.2.
Definition wallet_info_from_vec (v : bytes) : res (Addr * CopyToken) :=
  match vec_key v with
  | [w; ty; tok] =>
      wallet <- string_from_slice (key_as_ref w);
      token_type <- match ty with KeyVal8 t => Ok t | _ => Err StdError end;
      token <- (if token_type =? 0 then s <- string_from_slice (key_as_ref tok); Ok (CopyNative s)
                else if token_type =? 1 then a <- string_from_slice (key_as_ref tok); Ok (CopyCw20 a)
                else Err StdError);
      Ok (wallet, token)
  | _ => Err StdError
  end.

End Definitions.

(** * Theory *)

(** ** The order of bytes *)

Lemma bytes_lt_irrefl a : bytes_lt a a = false.
Proof. induction a as [|x a IH]; [done|]. simpl. rewrite Z.ltb_irrefl, Z.eqb_refl. exact IH. Qed.

Lemma bytes_lt_prefix p a b : bytes_lt (p ++ a) (p ++ b) = bytes_lt a b.
Proof. induction p as [|x p IH]; [done|]. simpl. rewrite Z.ltb_irrefl, Z.eqb_refl. exact IH. Qed.

(** Parts of the same length are compared one after the other. *)
Lemma bytes_lt_app a a' b b' :
  length a = length a' ->
  bytes_lt (a ++ b) (a' ++ b') = bytes_lt a a' || (bool_decide (a = a') && bytes_lt b b').
Proof.
  revert a'. induction a as [|x a IH]; intros [|y a'] Hl; simpl in Hl; try done.
  simpl. rewrite IH by lia. destruct (Z.ltb_spec x y), (Z.eqb_spec x y) as [E|E]; simpl; try done.
  - subst y. destruct (bytes_lt a a'); [done|]. simpl.
    destruct (bool_decide_reflect (a = a')) as [->|Hne].
    + by rewrite bool_decide_true.
    + rewrite bool_decide_false; [done|]. by intros [= ?].
  - rewrite bool_decide_false; [done|]. by intros [= ?].
Qed.

Lemma be_bytes_length w z : length (be_bytes w z) = w.
Proof. revert z. induction w as [|w IH]; intros z; simpl; [done|]. rewrite length_app, IH. simpl. lia. Qed.

Lemma be_value_app a x : be_value (a ++ [x]) = be_value a * 256 + x.
Proof. unfold be_value. by rewrite foldl_app. Qed.

Lemma be_value_bytes w z : 0 <= z < 256 ^ Z.of_nat w -> be_value (be_bytes w z) = z.
Proof.
  revert z. induction w as [|w IH]; intros z Hz; simpl.
  - change (be_value []) with 0. simpl in Hz. lia.
  - rewrite be_value_app, IH; [pose proof (Z.div_mod z 256); lia|].
    rewrite Nat2Z.inj_succ, Z.pow_succ_r in Hz by lia.
    split; [apply Z.div_pos; lia|apply Z.div_lt_upper_bound; lia].
Qed.

(** Big-endian bytes sort as the numbers. *)
Lemma be_bytes_order w x y :
  0 <= x < 256 ^ Z.of_nat w -> 0 <= y < 256 ^ Z.of_nat w ->
  bytes_lt (be_bytes w x) (be_bytes w y) = (x <? y).
Proof.
  revert x y. induction w as [|w IH]; intros x y Hx Hy.
  - simpl in *. symmetry. apply Z.ltb_ge. lia.
  - assert (forall z, 0 <= z < 256 ^ Z.of_nat (S w) -> 0 <= z / 256 < 256 ^ Z.of_nat w) as Hd.
    { intros z Hz. rewrite Nat2Z.inj_succ, Z.pow_succ_r in Hz by lia.
      split; [apply Z.div_pos; lia|apply Z.div_lt_upper_bound; lia]. }
    simpl. rewrite bytes_lt_app by by rewrite !be_bytes_length. rewrite IH by auto.
    assert (bool_decide (be_bytes w (x / 256) = be_bytes w (y / 256)) = (x / 256 =? y / 256)) as ->.
    { destruct (Z.eqb_spec (x / 256) (y / 256)) as [->|Hne]; [by rewrite bool_decide_true|].
      apply bool_decide_false. intros E%(f_equal be_value). rewrite !be_value_bytes in E by auto. done. }
    simpl. rewrite Bool.andb_false_r, Bool.orb_false_r.
    pose proof (Z.div_mod x 256). pose proof (Z.div_mod y 256).
    pose proof (Z.mod_pos_bound x 256). pose proof (Z.mod_pos_bound y 256).
    destruct (Z.ltb_spec (x / 256) (y / 256)), (Z.eqb_spec (x / 256) (y / 256)),
      (Z.ltb_spec (x mod 256) (y mod 256)); simpl; symmetry; rewrite ?Z.ltb_lt, ?Z.ltb_ge; lia.
Qed.

(** Texts sort as their bytes. *)
Lemma bytes_of_order a b : bytes_lt (bytes_of a) (bytes_of b) = String.ltb a b.
Proof.
  revert b. induction a as [|x a IH]; intros [|y b]; try done.
  simpl. rewrite IH. unfold String.ltb. simpl. unfold Ascii.compare.
  destruct (N.compare_spec (N_of_ascii x) (N_of_ascii y)) as [E|E|E].
  - rewrite E, Z.ltb_irrefl, Z.eqb_refl. done.
  - by rewrite (proj2 (Z.ltb_lt _ _)) by lia.
  - rewrite (proj2 (Z.ltb_ge _ _)) by lia. by rewrite (proj2 (Z.eqb_neq _ _)) by lia.
Qed.

Lemma bytes_of_inj a b : bytes_of a = bytes_of b -> a = b.
Proof.
  intros E. apply (key_lt_total (K:=string)); simpl; rewrite <- bytes_of_order, E; apply bytes_lt_irrefl.
Qed.

(** ** Encoded keys *)

(** A text whose length the prefix can hold. *)
Definition short (s : string) : Prop := Z.of_nat (length (bytes_of s)) <= 65535.

Lemma encode_length_ok l : Z.of_nat (length l) <= 65535 -> encode_length l = Ok (be_bytes 2 (Z.of_nat (length l))).
Proof. intros Hl. unfold encode_length. by rewrite (proj2 (Z.leb_le _ _) Hl). Qed.

Lemma map_key_one ns k :
  short ns ->
  map_key ns [k] = Ok ((be_bytes 2 (Z.of_nat (length (bytes_of ns))) ++ bytes_of ns) ++ key_as_ref k).
Proof.
  intros Hs. unfold map_key. simpl. rewrite encode_length_ok by done. simpl.
  f_equal. by rewrite app_nil_r.
Qed.

(** A first part in front is a namespace inside the namespace. *)
Lemma map_key_cons ns w key a :
  short ns -> map_key w key = Ok a ->
  map_key ns (KeyRef (bytes_of w) :: key) =
    Ok ((be_bytes 2 (Z.of_nat (length (bytes_of ns))) ++ bytes_of ns) ++ a).
Proof.
  intros Hs H. unfold map_key in *. destruct key as [|k key]; [done|].
  apply rbind_ok in H as (u & _ & H). apply rbind_ok in H as (out & Hout & [= <-]).
  assert (map key_as_ref (take (length (KeyRef (bytes_of w) :: k :: key) - 1) (KeyRef (bytes_of w) :: k :: key))
    = bytes_of w :: map key_as_ref (take (length (k :: key) - 1) (k :: key))) as ->
    by (simpl; by rewrite Nat.sub_0_r).
  set (prefixes := bytes_of w :: _) in *. clearbody prefixes.
  simpl. rewrite encode_length_ok by done. simpl.
  rewrite Hout. simpl. f_equal. by rewrite !app_assoc.
Qed.

(** The byte order of the keys is the order of the iteration. *)
Definition keys_ordered {K} `{KeyOrder K} (key : K -> list Key) (ok : K -> Prop) : Prop :=
  forall ns x y, short ns -> ok x -> ok y -> exists a b,
    map_key ns (key x) = Ok a /\ map_key ns (key y) = Ok b /\ bytes_lt a b = key_lt x y.

Lemma ordered_one {K} `{KeyOrder K} (part : K -> Key) (ok : K -> Prop) :
  (forall x y, ok x -> ok y -> bytes_lt (key_as_ref (part x)) (key_as_ref (part y)) = key_lt x y) ->
  keys_ordered (fun x => [part x]) ok.
Proof.
  intros Hp ns x y Hs Hx Hy. do 2 eexists. split; [by apply map_key_one|]. split; [by apply map_key_one|].
  rewrite bytes_lt_prefix. by apply Hp.
Qed.

Lemma ordered_under {K} `{KeyOrder K} (key : K -> list Key) (ok : K -> Prop) w :
  short w -> keys_ordered key ok -> keys_ordered (fun x => KeyRef (bytes_of w) :: key x) ok.
Proof.
  intros Hw Hk ns x y Hs Hx Hy. destruct (Hk w x y Hw Hx Hy) as (a & b & Ha & Hb & Hlt).
  do 2 eexists. split; [by apply map_key_cons|]. split; [by apply map_key_cons|].
  by rewrite bytes_lt_prefix.
Qed.

(** Two parts, the first of a fixed length. *)
Lemma ordered_two {K} `{KeyOrder K} (head tail : K -> Key) (ok : K -> Prop) (n : nat) :
  Z.of_nat n <= 65535 -> (forall x, ok x -> length (key_as_ref (head x)) = n) ->
  (forall x y, ok x -> ok y ->
     bytes_lt (key_as_ref (head x)) (key_as_ref (head y)) ||
     (bool_decide (key_as_ref (head x) = key_as_ref (head y)) &&
      bytes_lt (key_as_ref (tail x)) (key_as_ref (tail y))) = key_lt x y) ->
  keys_ordered (fun x => [head x; tail x]) ok.
Proof.
  intros Hn Hl Hp ns x y Hs Hx Hy.
  assert (forall z, ok z -> map_key ns [head z; tail z] =
    Ok ((be_bytes 2 (Z.of_nat (length (bytes_of ns))) ++ bytes_of ns) ++
        be_bytes 2 (Z.of_nat n) ++ key_as_ref (head z) ++ key_as_ref (tail z))) as Hk.
  { intros z Hz. unfold map_key. simpl rbind. cbn [encode_prefixes map take length Nat.sub].
    rewrite encode_length_ok by done. cbn [rbind]. rewrite encode_length_ok by (by rewrite Hl).
    cbn [rbind]. rewrite Hl by done. f_equal. simpl default. by rewrite !app_nil_r, <- !app_assoc. }
  do 2 eexists. split; [by apply Hk|]. split; [by apply Hk|].
  rewrite !bytes_lt_prefix, bytes_lt_app by (by rewrite !Hl). by apply Hp.
Qed.

Section Orders.
Context {KC : KeyCodec} {KCS : KeyCodecSpec KC}.

Definition is_u64 (z : Z) : Prop := 0 <= z <= U64_MAX.

Lemma u64_bytes_order x y : is_u64 x -> is_u64 y -> bytes_lt (u64_to_cw_bytes x) (u64_to_cw_bytes y) = (x <? y).
Proof.
  intros Hx Hy. rewrite !u64_to_cw_bytes_spec by done.
  assert (256 ^ Z.of_nat 8 = U64_MAX + 1) as E by done. unfold is_u64 in *. apply be_bytes_order; lia.
Qed.
Lemma price_bytes_order x y : is_dec x -> is_dec y -> bytes_lt (price_key_from x) (price_key_from y) = (x <? y).
Proof.
  intros Hx Hy. unfold price_key_from, nonzero_to_be_bytes. rewrite !u256_to_be_bytes_spec by done.
  assert (256 ^ Z.of_nat 32 = U256_MAX + 1) as E by done. unfold is_dec in *. apply be_bytes_order; lia.
Qed.

(** A pair of numbers, the first of a fixed width. *)
Lemma ordered_pair (head tail : Z -> Key) (okh okt : Z -> Prop) (n : nat) :
  Z.of_nat n <= 65535 -> (forall x, okh x -> length (key_as_ref (head x)) = n) ->
  (forall x y, okh x -> okh y -> bytes_lt (key_as_ref (head x)) (key_as_ref (head y)) = (x <? y)) ->
  (forall x y, okt x -> okt y -> bytes_lt (key_as_ref (tail x)) (key_as_ref (tail y)) = (x <? y)) ->
  keys_ordered (fun p => [head p.1; tail p.2]) (fun p => okh p.1 /\ okt p.2).
Proof.
  intros Hn Hl Hh Ht. apply (ordered_two (fun p => head p.1) (fun p => tail p.2) _ n); [done|..].
  - intros x [Hx _]. by apply Hl.
  - intros x y [Hx1 Hx2] [Hy1 Hy2]. rewrite Hh, Ht by done. simpl. unfold pair_lt. f_equal. f_equal.
    destruct (Z.eqb_spec x.1 y.1) as [->|Hne]; [by rewrite bool_decide_true|].
    apply bool_decide_false. intros E. pose proof (Hh _ _ Hx1 Hy1) as H1. pose proof (Hh _ _ Hy1 Hx1) as H2.
    rewrite E, bytes_lt_irrefl in H1. rewrite E, bytes_lt_irrefl in H2.
    symmetry in H1, H2. apply Z.ltb_ge in H1, H2. lia.
Qed.

Lemma ordered_u64 (key : Z -> list Key) :
  (forall z, key z = [KeyVal64 (u64_to_cw_bytes z)]) -> keys_ordered key is_u64.
Proof.
  intros Hk ns x y. rewrite !Hk. revert ns x y.
  apply (ordered_one (fun z => KeyVal64 (u64_to_cw_bytes z))). apply u64_bytes_order.
Qed.

Lemma copy_token_ordered : keys_ordered copy_token_key (fun _ => True).
Proof.
  pose proof (ordered_two (fun t => KeyVal8 (match t with CopyNative _ => 0 | CopyCw20 _ => 1 end))
    (fun t => KeyRef (bytes_of match t with CopyNative s | CopyCw20 s => s end)) (fun _ => True) 1) as H.
  intros ns x y Hs Hx Hy. destruct (H ltac:(done) ltac:(done)) with ns x y as (a & b & Ha & Hb & E); try done.
  - clear. intros [x|x] [y|y] _ _; simpl; rewrite ?bytes_of_order; done.
  - exists a, b. by destruct x, y.
Qed.

Lemma queue_position_ordered :
  keys_ordered queue_position_id_key
    (fun q => is_u64 match q with IncQueuePositionId i | DecQueuePositionId i => i end).
Proof.
  pose proof (ordered_two (fun q => KeyVal8 (match q with IncQueuePositionId _ => 0 | DecQueuePositionId _ => 1 end))
    (fun q => KeyVal64 (u64_to_cw_bytes match q with IncQueuePositionId i | DecQueuePositionId i => i end))
    (fun q => is_u64 match q with IncQueuePositionId i | DecQueuePositionId i => i end) 1) as H.
  intros ns x y Hs Hx Hy. destruct (H ltac:(done) ltac:(done)) with ns x y as (a & b & Ha & Hb & E); try done.
  - clear -KCS. intros [x|x] [y|y] Hx Hy; simpl in *; rewrite ?u64_bytes_order by done; done.
  - exists a, b. by destruct x, y.
Qed.

Lemma u64_roundtrip z : is_u64 z -> u64_from_vec (u64_to_cw_bytes z) = Ok z.
Proof.
  intros Hz. rewrite u64_to_cw_bytes_spec by done.
  rewrite u64_from_vec_spec by apply be_bytes_length. f_equal. apply be_value_bytes.
  assert (256 ^ Z.of_nat 8 = U64_MAX + 1) as E by done. unfold is_u64 in Hz. lia.
Qed.
Lemma u256_roundtrip z : is_dec z -> u256_from_be_bytes (u256_to_be_bytes z) = z.
Proof.
  intros Hz. rewrite u256_to_be_bytes_spec by done.
  rewrite u256_from_be_bytes_spec by apply be_bytes_length. apply be_value_bytes.
  assert (256 ^ Z.of_nat 32 = U256_MAX + 1) as E by done. unfold is_dec in Hz. lia.
Qed.
End Orders.

(** * The theorems *)

(** C33: The storage iterates as the development does: for the keys of the
    price triggers, of the due times, of the ids, of texts, and of a wallet's
    tokens and queue items, encoding never fails (the prefixes being at most
    65535 bytes), and the bytes [map_key] produces sort exactly as the order
    [KeyOrder] the ordered iteration of the model uses; so different keys have
    different bytes. *)
Theorem encoded_keys_ordered {KC : KeyCodec} {KCS : KeyCodecSpec KC} (wallet : Addr) :
  short wallet ->
  keys_ordered (fun k : Price * PositionId => price_key_key (price_key_from k.1) ++ position_id_key k.2)
    (fun k => is_dec k.1 /\ is_u64 k.2) /\
  keys_ordered (fun k : Price * OrderId => price_key_key (price_key_from k.1) ++ order_id_key k.2)
    (fun k => is_dec k.1 /\ is_u64 k.2) /\
  keys_ordered (fun k : Timestamp * PositionId => timestamp_key k.1 ++ position_id_key k.2)
    (fun k => is_u64 k.1 /\ is_u64 k.2) /\
  keys_ordered timestamp_key is_u64 /\ keys_ordered position_id_key is_u64 /\
  keys_ordered order_id_key is_u64 /\ keys_ordered deferred_exec_id_key is_u64 /\
  keys_ordered queue_id_key is_u64 /\
  (forall ns m m', short ns -> exists a b, map_key ns (market_id_key m) = Ok a /\
     map_key ns (market_id_key m') = Ok b /\ bytes_lt a b = String.ltb (mid_encoded m) (mid_encoded m')) /\
  keys_ordered (fun t => wallet_info_key (wallet, t)) (fun _ => True) /\
  keys_ordered (fun q => KeyRef (bytes_of wallet) :: queue_position_id_key q)
    (fun q => is_u64 match q with IncQueuePositionId i | DecQueuePositionId i => i end).
Proof.
  intros Hw. assert (forall z, is_dec z -> length (price_key_from z) = 32%nat) as Hl.
  { intros z Hz. unfold price_key_from, nonzero_to_be_bytes. rewrite u256_to_be_bytes_spec by done.
    apply be_bytes_length. }
  assert (forall z, is_u64 z -> length (u64_to_cw_bytes z) = 8%nat) as Hl8.
  { intros z Hz. rewrite u64_to_cw_bytes_spec by done. apply be_bytes_length. }
  split_and!; try (by apply ordered_u64).
  1, 2: apply (ordered_pair (fun x => KeyRef (price_key_from x)) (fun i => KeyVal64 (u64_to_cw_bytes i)) is_dec
    is_u64 32);
    [lia|exact Hl|exact price_bytes_order|exact u64_bytes_order].
  - apply (ordered_pair (fun x => KeyVal64 (u64_to_cw_bytes x)) (fun i => KeyVal64 (u64_to_cw_bytes i)) is_u64
      is_u64 8);
      [lia|exact Hl8|exact u64_bytes_order|exact u64_bytes_order].
  - apply (ordered_one (fun z => KeyVal64 (be_bytes 8 z))). intros x y Hx Hy. cbn [key_as_ref].
    rewrite <- !u64_to_cw_bytes_spec by done. by apply u64_bytes_order.
  - intros ns m m' Hs.
    refine (ordered_one (K:=string) (fun s => KeyRef (bytes_of s)) (fun _ => True) _ ns
      (mid_encoded m) (mid_encoded m') Hs I I). intros x y _ _. apply bytes_of_order.
  - exact (ordered_under copy_token_key _ wallet Hw copy_token_ordered).
  - exact (ordered_under queue_position_id_key _ wallet Hw queue_position_ordered).
Qed.

(** The bytes of the last part of a key, as the storage hands them back. *)
Definition last_part (key : list Key) : bytes := default [] (key_as_ref <$> last key).

(** C34: Reading a key back gives what was encoded: prices, unsigned numbers,
    times, the ids of positions, orders, deferred executions and of the vault's
    queue, the texts of market ids (with plain names), directions (as their
    number), and the two-part keys of tokens and queue positions as the
    storage hands them over.  The exception is [WalletInfo]: its [from_vec]
    takes the parts of a byte vector, which is one part, for the three of the
    key, and rejects everything. *)
Theorem keys_roundtrip {KC : KeyCodec} {KCS : KeyCodecSpec KC} :
  (forall p, is_dec p -> p <> 0 -> price_key_from_vec (price_key_from p) = Ok p) /\
  (forall n, signed_ok n -> forall l, to_unsigned_key_bytes n = Some l -> from_unsigned_key_bytes l = n) /\
  (forall t, is_u64 t -> timestamp_from_vec (last_part (timestamp_key t)) = Ok t) /\
  (forall i, is_u64 i -> position_id_from_vec (last_part (position_id_key i)) = Ok i /\
     order_id_from_vec (last_part (order_id_key i)) = Ok i /\
     deferred_exec_id_from_vec (last_part (deferred_exec_id_key i)) = Ok i /\
     queue_id_from_vec (last_part (queue_id_key i)) = Ok i) /\
  (forall base quote mt, plain_pair base quote ->
     let id := market_id_new base quote mt in
     is_utf8 (mid_encoded id) = true -> market_id_from_vec (last_part (market_id_key id)) = Ok id) /\
  (forall d, direction_from_vec (last_part (direction_key d)) = Ok (direction_to_u8 d)) /\
  (forall t, is_utf8 (match t with CopyNative s | CopyCw20 s => s end) = true ->
     exists v, encode_prefixes (map key_as_ref (take 1 (copy_token_key t))) = Ok v /\
       copy_token_from_vec (v ++ last_part (copy_token_key t)) = Ok t) /\
  (forall q, is_u64 (match q with IncQueuePositionId i | DecQueuePositionId i => i end) ->
     exists v, encode_prefixes (map key_as_ref (take 1 (queue_position_id_key q))) = Ok v /\
       queue_position_id_from_vec (v ++ last_part (queue_position_id_key q)) = Ok q) /\
  (forall v, wallet_info_from_vec v = Err StdError).
Proof.
  split_and!; try done.
  - intros p Hp Hne. unfold price_key_from_vec, price_key_from, nonzero_to_be_bytes, nonzero_from_be_bytes.
    rewrite bool_decide_false.
    + rewrite u256_roundtrip by done. rewrite u256_to_be_bytes_spec, be_bytes_length by done. done.
    + intros E%(f_equal u256_from_be_bytes). rewrite u256_roundtrip in E by done.
      rewrite u256_from_be_bytes_spec in E by done. by subst p.
  - intros n [Hd Hn] l. unfold to_unsigned_key_bytes, from_unsigned_key_bytes, is_negative.
    destruct n as [v [|]]; [done|]. intros [= <-]. simpl in *. by rewrite u256_roundtrip.
  - intros t. apply u64_roundtrip.
  - intros i Hi. split; [by apply u64_roundtrip|]. split; [by apply u64_roundtrip|]. split; [by apply u64_roundtrip|].
    change (last_part (queue_id_key i)) with (be_bytes 8 i). unfold queue_id_from_vec.
    rewrite be_bytes_length. f_equal. apply be_value_bytes.
    assert (256 ^ Z.of_nat 8 = U64_MAX + 1) as E by done. unfold is_u64 in Hi. lia.
  - intros base quote mt Hp id Hu. unfold market_id_from_vec, last_part. simpl.
    rewrite string_from_slice_spec by done. by apply market_id_read_back.
  - unfold last_part. intros [s|s] Hs; eexists; (split; [reflexivity|]); simpl; unfold copy_token_from_vec.
    + rewrite (u8_pair_from_vec_spec 0) by lia. simpl. by rewrite string_from_slice_spec.
    + rewrite (u8_pair_from_vec_spec 1) by lia. simpl. by rewrite string_from_slice_spec.
  - unfold last_part. intros [i|i] Hi; eexists; (split; [reflexivity|]); simpl; unfold queue_position_id_from_vec.
    + rewrite (u8_pair_from_vec_spec 0) by lia. simpl. by rewrite u64_roundtrip.
    + rewrite (u8_pair_from_vec_spec 1) by lia. simpl. by rewrite u64_roundtrip.
  - intros v. unfold wallet_info_from_vec. by rewrite vec_key_spec.
Qed.

(** ** Witnesses: the encodings with ASCII texts *)

Fixpoint ascii_text (l : bytes) : res string :=
  match l with
  | [] => Ok ""%string
  | b :: l => if (0 <=? b) && (b <? 128) then s <- ascii_text l; Ok (String (ascii_of_N (Z.to_N b)) s)
              else Err StdError
  end.

#[export] Instance codec_ref : KeyCodec := {|
  u256_to_be_bytes := be_bytes 32;
  u256_from_be_bytes := be_value;
  u64_to_cw_bytes := be_bytes 8;
  u64_from_vec l := if Nat.eqb (length l) 8 then Ok (be_value l) else Err StdError;
  u8_pair_from_vec l := match l with 0 :: 1 :: x :: l => Ok (x, l) | _ => Err StdError end;
  vec_key v := [KeyRef v];
  string_from_slice := ascii_text;
  is_utf8 s := forallb (fun b => b <? 128) (bytes_of s);
|}.

#[export] Instance codec_ref_spec : KeyCodecSpec codec_ref.
Proof.
  split; try done.
  - intros l Hl. simpl. by rewrite Hl.
  - induction s as [|c s IH]; [done|]. simpl in *. intros [Hc Hs]%andb_true_iff. rewrite Hc.
    rewrite (proj2 (Z.leb_le _ _)) by lia. rewrite IH by done. simpl.
    by rewrite N2Z.id, ascii_N_embedding.
Qed.

(** The trigger keys of a low and a high price. *)
Lemma encoded_keys_ordered_witness :
  exists a b, map_key "p" (price_key_key (price_key_from 255) ++ position_id_key 7) = Ok a /\
    map_key "p" (price_key_key (price_key_from 256) ++ position_id_key 3) = Ok b /\ bytes_lt a b = true.
Proof.
  destruct (encoded_keys_ordered (KC:=codec_ref) (KCS:=codec_ref_spec) "alice" ltac:(vm_compute; discriminate))
    as [H _].
  apply (H "p"%string (255, 7) (256, 3)); vm_compute; repeat split; discriminate.
Defined.

Lemma keys_roundtrip_witness :
  price_key_from_vec (price_key_from (7 * DEC_ONE)) = Ok (7 * DEC_ONE) /\
  market_id_from_vec [66; 84; 67; 95; 85; 83; 68; 43] = Ok (market_id_new "BTC" "USD" CollateralIsQuote) /\
  wallet_info_from_vec [0; 5; 97; 108; 105; 99; 101; 0; 1; 0; 117] = Err StdError.
Proof.
  destruct (keys_roundtrip (KC:=codec_ref) (KCS:=codec_ref_spec)) as (Hp & _ & _ & _ & Hm & _ & _ & _ & Hw).
  split; [|split; [|apply Hw]].
  - apply Hp; [vm_compute; split; discriminate|discriminate].
  - exact (Hm "BTC"%string "USD"%string CollateralIsQuote (conj eq_refl (conj eq_refl eq_refl)) eq_refl).
Defined.
