(* ===== verification/Faucet.v ===== *)
(** * The faucet contract

    [contracts/faucet/src] with the messages of
    [packages/perpswap/src/contracts/faucet/entry.rs]: the faucet of the test
    networks, which mints CW20 tokens and sends coins to whoever taps it.  A
    wallet may tap again after a time limit, and a token of a trading
    competition only once; a batch of taps ([multitap.rs]) skips the wallets
    that may not.  The balances of the bank and the token information of other
    contracts are in [FaucetEnv]. *)

From stdpp Require Import base option gmap strings list sorting pretty.
From Stdlib Require Import ZArith Lia Ascii.
From S2P Require Import Prelude Storage Index Cosmwasm Types Number Time Market Token Config Cw20 Trading State PositionToken Entry Factory.
Local Open Scope Z_scope.

(** ** Messages (entry.rs) *)

Inductive FaucetAsset := FaucetCw20 (addr : RawAddr) | FaucetNative (denom : string).
#[export] Instance FaucetAsset_eq_dec : EqDecision FaucetAsset.
Proof. solve_decision. Defined.

Record GasAllowance := mkGasAllowance { ga_denom : string; ga_amount : Uint128 }.
Record MultitapRecipient := mkMultitapRecipient { mr_addr : RawAddr; mr_assets : list FaucetAsset }.

Record FaucetInstantiate := mkFaucetInstantiate {
  fai_tap_limit : option Z;
  fai_cw20_code_id : Z;
  fai_gas_allowance : option GasAllowance;
}.

Inductive OwnerMsg :=
| FaucetAddAdmin (admin : RawAddr)
| FaucetRemoveAdmin (admin : RawAddr)
| SetTapLimit (tap_limit : option Z)
| SetTapAmount (asset : FaucetAsset) (amount : Number)
| DeployToken (name : string) (tap_amount : Number) (trading_competition_index : option Z)
    (initial_balances : list (string * Uint128))
| SetMarketAddress (name : string) (trading_competition_index : Z) (market : RawAddr)
| SetCw20CodeId (cw20_code_id : Z)
| FaucetMint (cw20 : string) (balances : list (string * Uint128))
| SetGasAllowance (allowance : GasAllowance)
| ClearGasAllowance
| SetMultitapAmount (name : string) (amount : Decimal256).

Inductive FaucetExecute :=
| Tap (assets : list FaucetAsset) (recipient : RawAddr) (amount : option Number)
| Multitap (recipients : list MultitapRecipient)
| FaucetOwnerMsg (msg : OwnerMsg).

(** What the contract sends: messages to CW20 contracts, coins, and a new CW20
    contract. *)
Inductive FaucetSub :=
| FaucetCw20Sub (cw20 : Addr) (msg : Cw20ExecuteMsg)
| FaucetBankSend (recipient : Addr) (denom : string) (amount : Uint128)
| FaucetInstantiateSub (admin : Addr) (code_id : Z) (label : string) (msg : Cw20Instantiate).
Inductive FaucetEvent :=
| EvTap (asset : FaucetAsset) (recipient : Addr) (amount : Number)
| EvTooSoon (recipient : Addr) (wait_secs : Decimal256)
| EvAlreadyTapped (recipient cw20 : Addr)
| EvTapSuccess (recipient : Addr).

(** ** Storage *)

Record FaucetTokenInfo := mkFaucetTokenInfo {
  fti_name : string;
  fti_trading_competition_index : option Z;
  fti_tap_amount : Number;
}.

Record FaucetStore := mkFaucetStore {
  (** owner.rs, gas_coin.rs *)
  FAUCET_ADMINS : gmap Addr unit;
  GAS_ALLOWANCE : option GasAllowance;
  (** faucet.rs *)
  LAST_TAP_TIMESTAMP : gmap Addr Timestamp;
  CW20_TOKEN_INFO : gmap Addr TokenInfo;
  TAP_LIMIT : option (option Z);
  CW20_TAP_AMOUNT : gmap Addr Number;
  NATIVE_TAP_AMOUNT : gmap string Number;
  (** tokens.rs *)
  FAUCET_TOKEN_INFO : gmap Addr FaucetTokenInfo;
  CW20_CODE_ID : option Z;
  FAUCET_TOKENS : gmap string Addr;
  FAUCET_TOKENS_TRADE : gmap (string * Z) Addr;
  NEXT_TOKEN : option FaucetTokenInfo;
  (** trading_competition.rs, history.rs, multitap.rs *)
  TAPPED_ONCE : gmap (Addr * Addr) unit;
  HISTORY_CW20 : gmap (string * Timestamp) Decimal256;
  HISTORY_NATIVE : gmap (string * Timestamp) Decimal256;
  NAMED_AMOUNT : gmap string Decimal256;
}.
Definition set_FAUCET_ADMINS (v : gmap Addr unit) (s : FaucetStore) : FaucetStore :=
  mkFaucetStore v (GAS_ALLOWANCE s) (LAST_TAP_TIMESTAMP s) (CW20_TOKEN_INFO s) (TAP_LIMIT s)
    (CW20_TAP_AMOUNT s) (NATIVE_TAP_AMOUNT s) (FAUCET_TOKEN_INFO s) (CW20_CODE_ID s) (FAUCET_TOKENS s)
    (FAUCET_TOKENS_TRADE s) (NEXT_TOKEN s) (TAPPED_ONCE s) (HISTORY_CW20 s) (HISTORY_NATIVE s)
    (NAMED_AMOUNT s).
Definition set_GAS_ALLOWANCE (v : option GasAllowance) (s : FaucetStore) : FaucetStore :=
  mkFaucetStore (FAUCET_ADMINS s) v (LAST_TAP_TIMESTAMP s) (CW20_TOKEN_INFO s) (TAP_LIMIT s)
    (CW20_TAP_AMOUNT s) (NATIVE_TAP_AMOUNT s) (FAUCET_TOKEN_INFO s) (CW20_CODE_ID s) (FAUCET_TOKENS s)
    (FAUCET_TOKENS_TRADE s) (NEXT_TOKEN s) (TAPPED_ONCE s) (HISTORY_CW20 s) (HISTORY_NATIVE s)
    (NAMED_AMOUNT s).
Definition set_LAST_TAP_TIMESTAMP (v : gmap Addr Timestamp) (s : FaucetStore) : FaucetStore :=
  mkFaucetStore (FAUCET_ADMINS s) (GAS_ALLOWANCE s) v (CW20_TOKEN_INFO s) (TAP_LIMIT s) (CW20_TAP_AMOUNT s)
    (NATIVE_TAP_AMOUNT s) (FAUCET_TOKEN_INFO s) (CW20_CODE_ID s) (FAUCET_TOKENS s) (FAUCET_TOKENS_TRADE s)
    (NEXT_TOKEN s) (TAPPED_ONCE s) (HISTORY_CW20 s) (HISTORY_NATIVE s) (NAMED_AMOUNT s).
Definition set_CW20_TOKEN_INFO (v : gmap Addr TokenInfo) (s : FaucetStore) : FaucetStore :=
  mkFaucetStore (FAUCET_ADMINS s) (GAS_ALLOWANCE s) (LAST_TAP_TIMESTAMP s) v (TAP_LIMIT s)
    (CW20_TAP_AMOUNT s) (NATIVE_TAP_AMOUNT s) (FAUCET_TOKEN_INFO s) (CW20_CODE_ID s) (FAUCET_TOKENS s)
    (FAUCET_TOKENS_TRADE s) (NEXT_TOKEN s) (TAPPED_ONCE s) (HISTORY_CW20 s) (HISTORY_NATIVE s)
    (NAMED_AMOUNT s).
Definition set_TAP_LIMIT (v : option (option Z)) (s : FaucetStore) : FaucetStore :=
  mkFaucetStore (FAUCET_ADMINS s) (GAS_ALLOWANCE s) (LAST_TAP_TIMESTAMP s) (CW20_TOKEN_INFO s) v
    (CW20_TAP_AMOUNT s) (NATIVE_TAP_AMOUNT s) (FAUCET_TOKEN_INFO s) (CW20_CODE_ID s) (FAUCET_TOKENS s)
    (FAUCET_TOKENS_TRADE s) (NEXT_TOKEN s) (TAPPED_ONCE s) (HISTORY_CW20 s) (HISTORY_NATIVE s)
    (NAMED_AMOUNT s).
Definition set_CW20_TAP_AMOUNT (v : gmap Addr Number) (s : FaucetStore) : FaucetStore :=
  mkFaucetStore (FAUCET_ADMINS s) (GAS_ALLOWANCE s) (LAST_TAP_TIMESTAMP s) (CW20_TOKEN_INFO s) (TAP_LIMIT s)
    v (NATIVE_TAP_AMOUNT s) (FAUCET_TOKEN_INFO s) (CW20_CODE_ID s) (FAUCET_TOKENS s) (FAUCET_TOKENS_TRADE s)
    (NEXT_TOKEN s) (TAPPED_ONCE s) (HISTORY_CW20 s) (HISTORY_NATIVE s) (NAMED_AMOUNT s).
Definition set_NATIVE_TAP_AMOUNT (v : gmap string Number) (s : FaucetStore) : FaucetStore :=
  mkFaucetStore (FAUCET_ADMINS s) (GAS_ALLOWANCE s) (LAST_TAP_TIMESTAMP s) (CW20_TOKEN_INFO s) (TAP_LIMIT s)
    (CW20_TAP_AMOUNT s) v (FAUCET_TOKEN_INFO s) (CW20_CODE_ID s) (FAUCET_TOKENS s) (FAUCET_TOKENS_TRADE s)
    (NEXT_TOKEN s) (TAPPED_ONCE s) (HISTORY_CW20 s) (HISTORY_NATIVE s) (NAMED_AMOUNT s).
Definition set_FAUCET_TOKEN_INFO (v : gmap Addr FaucetTokenInfo) (s : FaucetStore) : FaucetStore :=
  mkFaucetStore (FAUCET_ADMINS s) (GAS_ALLOWANCE s) (LAST_TAP_TIMESTAMP s) (CW20_TOKEN_INFO s) (TAP_LIMIT s)
    (CW20_TAP_AMOUNT s) (NATIVE_TAP_AMOUNT s) v (CW20_CODE_ID s) (FAUCET_TOKENS s) (FAUCET_TOKENS_TRADE s)
    (NEXT_TOKEN s) (TAPPED_ONCE s) (HISTORY_CW20 s) (HISTORY_NATIVE s) (NAMED_AMOUNT s).
Definition set_CW20_CODE_ID (v : option Z) (s : FaucetStore) : FaucetStore :=
  mkFaucetStore (FAUCET_ADMINS s) (GAS_ALLOWANCE s) (LAST_TAP_TIMESTAMP s) (CW20_TOKEN_INFO s) (TAP_LIMIT s)
    (CW20_TAP_AMOUNT s) (NATIVE_TAP_AMOUNT s) (FAUCET_TOKEN_INFO s) v (FAUCET_TOKENS s)
    (FAUCET_TOKENS_TRADE s) (NEXT_TOKEN s) (TAPPED_ONCE s) (HISTORY_CW20 s) (HISTORY_NATIVE s)
    (NAMED_AMOUNT s).
Definition set_FAUCET_TOKENS (v : gmap string Addr) (s : FaucetStore) : FaucetStore :=
  mkFaucetStore (FAUCET_ADMINS s) (GAS_ALLOWANCE s) (LAST_TAP_TIMESTAMP s) (CW20_TOKEN_INFO s) (TAP_LIMIT s)
    (CW20_TAP_AMOUNT s) (NATIVE_TAP_AMOUNT s) (FAUCET_TOKEN_INFO s) (CW20_CODE_ID s) v
    (FAUCET_TOKENS_TRADE s) (NEXT_TOKEN s) (TAPPED_ONCE s) (HISTORY_CW20 s) (HISTORY_NATIVE s)
    (NAMED_AMOUNT s).
Definition set_FAUCET_TOKENS_TRADE (v : gmap (string * Z) Addr) (s : FaucetStore) : FaucetStore :=
  mkFaucetStore (FAUCET_ADMINS s) (GAS_ALLOWANCE s) (LAST_TAP_TIMESTAMP s) (CW20_TOKEN_INFO s) (TAP_LIMIT s)
    (CW20_TAP_AMOUNT s) (NATIVE_TAP_AMOUNT s) (FAUCET_TOKEN_INFO s) (CW20_CODE_ID s) (FAUCET_TOKENS s) v
    (NEXT_TOKEN s) (TAPPED_ONCE s) (HISTORY_CW20 s) (HISTORY_NATIVE s) (NAMED_AMOUNT s).
Definition set_NEXT_TOKEN (v : option FaucetTokenInfo) (s : FaucetStore) : FaucetStore :=
  mkFaucetStore (FAUCET_ADMINS s) (GAS_ALLOWANCE s) (LAST_TAP_TIMESTAMP s) (CW20_TOKEN_INFO s) (TAP_LIMIT s)
    (CW20_TAP_AMOUNT s) (NATIVE_TAP_AMOUNT s) (FAUCET_TOKEN_INFO s) (CW20_CODE_ID s) (FAUCET_TOKENS s)
    (FAUCET_TOKENS_TRADE s) v (TAPPED_ONCE s) (HISTORY_CW20 s) (HISTORY_NATIVE s) (NAMED_AMOUNT s).
Definition set_TAPPED_ONCE (v : gmap (Addr * Addr) unit) (s : FaucetStore) : FaucetStore :=
  mkFaucetStore (FAUCET_ADMINS s) (GAS_ALLOWANCE s) (LAST_TAP_TIMESTAMP s) (CW20_TOKEN_INFO s) (TAP_LIMIT s)
    (CW20_TAP_AMOUNT s) (NATIVE_TAP_AMOUNT s) (FAUCET_TOKEN_INFO s) (CW20_CODE_ID s) (FAUCET_TOKENS s)
    (FAUCET_TOKENS_TRADE s) (NEXT_TOKEN s) v (HISTORY_CW20 s) (HISTORY_NATIVE s) (NAMED_AMOUNT s).
Definition set_HISTORY_CW20 (v : gmap (string * Timestamp) Decimal256) (s : FaucetStore) : FaucetStore :=
  mkFaucetStore (FAUCET_ADMINS s) (GAS_ALLOWANCE s) (LAST_TAP_TIMESTAMP s) (CW20_TOKEN_INFO s) (TAP_LIMIT s)
    (CW20_TAP_AMOUNT s) (NATIVE_TAP_AMOUNT s) (FAUCET_TOKEN_INFO s) (CW20_CODE_ID s) (FAUCET_TOKENS s)
    (FAUCET_TOKENS_TRADE s) (NEXT_TOKEN s) (TAPPED_ONCE s) v (HISTORY_NATIVE s) (NAMED_AMOUNT s).
Definition set_HISTORY_NATIVE (v : gmap (string * Timestamp) Decimal256) (s : FaucetStore) : FaucetStore :=
  mkFaucetStore (FAUCET_ADMINS s) (GAS_ALLOWANCE s) (LAST_TAP_TIMESTAMP s) (CW20_TOKEN_INFO s) (TAP_LIMIT s)
    (CW20_TAP_AMOUNT s) (NATIVE_TAP_AMOUNT s) (FAUCET_TOKEN_INFO s) (CW20_CODE_ID s) (FAUCET_TOKENS s)
    (FAUCET_TOKENS_TRADE s) (NEXT_TOKEN s) (TAPPED_ONCE s) (HISTORY_CW20 s) v (NAMED_AMOUNT s).
Definition set_NAMED_AMOUNT (v : gmap string Decimal256) (s : FaucetStore) : FaucetStore :=
  mkFaucetStore (FAUCET_ADMINS s) (GAS_ALLOWANCE s) (LAST_TAP_TIMESTAMP s) (CW20_TOKEN_INFO s) (TAP_LIMIT s)
    (CW20_TAP_AMOUNT s) (NATIVE_TAP_AMOUNT s) (FAUCET_TOKEN_INFO s) (CW20_CODE_ID s) (FAUCET_TOKENS s)
    (FAUCET_TOKENS_TRADE s) (NEXT_TOKEN s) (TAPPED_ONCE s) (HISTORY_CW20 s) (HISTORY_NATIVE s) v.

(** The storage with the response being built. *)
Record FaucetCtx := mkFaucetCtx {
  fau_store : FaucetStore;
  fau_messages : list FaucetSub;
  fau_events : list FaucetEvent;
}.
Definition faucet_handler (A : Type) : Type := handler FaucetCtx error A.
Definition mod_faucet (f : FaucetStore -> FaucetStore) : faucet_handler unit :=
  hmod (fun c => mkFaucetCtx (f (fau_store c)) (fau_messages c) (fau_events c)).
Definition faucet_message (m : FaucetSub) : faucet_handler unit :=
  hmod (fun c => mkFaucetCtx (fau_store c) (fau_messages c ++ [m]) (fau_events c)).
Definition faucet_event (e : FaucetEvent) : faucet_handler unit :=
  hmod (fun c => mkFaucetCtx (fau_store c) (fau_messages c) (fau_events c ++ [e])).
Definition faucet_get {A} (f : FaucetStore -> A) : faucet_handler A := hget (fun c => f (fau_store c)).
Definition faucet_ask {A} (f : FaucetStore -> res A) : faucet_handler A := hask (fun c => f (fau_store c)).

(** The block, the contract's address, the answers of the bank and of the CW20
    contracts. *)
Record FaucetEnv := mkFaucetEnv {
  fae_now : Timestamp;
  fae_contract : Addr;
  fae_balance : Addr -> string -> res Uint128;
  fae_token_info : Addr -> res TokenInfo;
}.

Definition DEFAULT_CW20_TAP_AMOUNT : Number := into_signed (1000 * DEC_ONE).
Definition DEFAULT_NATIVE_TAP_AMOUNT : Number := into_signed (10 * DEC_ONE).
Definition NATIVE_DECIMAL_PLACES : Z := 6.

(** [faucet::FaucetError]. *)
Inductive FaucetError := TooSoon (wait_secs : Decimal256) | AlreadyTapped (cw20 : Addr).
Inductive AlreadyTappedTradingCompetition :=
| NotTradingCompetition | CompetitionTapped (cw20 : Addr) | DidNotTap (cw20 : Addr).

Section Faucet.
Context {CW : CosmwasmStd}.
Context (env : FaucetEnv).

(** ** owner.rs *)

Definition is_admin (s : FaucetStore) (addr : Addr) : bool := is_some (FAUCET_ADMINS s !! addr).
Definition add_admin (admin : Addr) : faucet_handler unit :=
  faucet_ask (fun s => ensure (negb (is_admin s admin)) (AnyhowError "Condition failed"));;;
  mod_faucet (fun s => set_FAUCET_ADMINS (<[admin := tt]> (FAUCET_ADMINS s)) s).
Definition remove_admin (admin : Addr) : faucet_handler unit :=
  faucet_ask (fun s => ensure (is_admin s admin) (AnyhowError "Condition failed"));;;
  mod_faucet (fun s => set_FAUCET_ADMINS (delete admin (FAUCET_ADMINS s)) s).
Definition get_all_admins (s : FaucetStore) : list Addr := map fst (range_asc (fun _ => true) (FAUCET_ADMINS s)).

(** ** tokens.rs *)

Definition get_cw20_code_id (s : FaucetStore) : res Z := std (CW20_CODE_ID s).
Definition get_token (s : FaucetStore) (token_name : string) (trading_competition_index : option Z) : option Addr :=
  match trading_competition_index with
  | Some index => FAUCET_TOKENS_TRADE s !! (token_name, index)
  | None => FAUCET_TOKENS s !! token_name
  end.
Definition u32_checked (z : Z) : res Z := panics "attempt to add with overflow" (fits (fun z => (0 <=? z) && (z <=? 2 ^ 32 - 1)) z).
Definition get_next_index (s : FaucetStore) (token_name : string) : res Z :=
  match entry_max (fun _ => true) (prefix_of token_name (FAUCET_TOKENS_TRADE s)) with
  | Some (x, _) => u32_checked (x + 1)
  | None => Ok 1
  end.

(** ** trading_competition.rs *)

(** The CW20 address of an asset that belongs to a trading competition. *)
Definition get_trading_competition_cw20 (s : FaucetStore) (asset : FaucetAsset) : res (option Addr) :=
  match asset with
  | FaucetCw20 addr =>
      cw20 <- std (addr_validate addr);
      Ok (match FAUCET_TOKEN_INFO s !! cw20 with
          | Some token_info => (fun _ => cw20) <$> fti_trading_competition_index token_info
          | None => None
          end)
  | FaucetNative _ => Ok None
  end.
Definition already_tapped_trading_competition (s : FaucetStore) (recipient : Addr) (asset : FaucetAsset) :
    res AlreadyTappedTradingCompetition :=
  cw20 <- get_trading_competition_cw20 s asset;
  Ok (match cw20 with
      | Some cw20 =>
          if is_some (TAPPED_ONCE s !! (recipient, cw20)) then CompetitionTapped cw20 else DidNotTap cw20
      | None => NotTradingCompetition
      end).
Definition save_tapped_once (key : Addr * Addr) : faucet_handler unit :=
  mod_faucet (fun s => set_TAPPED_ONCE (<[key := tt]> (TAPPED_ONCE s)) s).
Definition set_tapped_trading_competition (recipient : Addr) (asset : FaucetAsset) : faucet_handler unit :=
  cw20 <~ faucet_ask (fun s => get_trading_competition_cw20 s asset);
  match cw20 with
  | Some cw20 => save_tapped_once (recipient, cw20)
  | None => hret tt
  end.
(** As the code has it, the key is the other way round here. *)
Definition assert_trading_competition (recipient : Addr) (asset : FaucetAsset) : faucet_handler unit :=
  match asset with
  | FaucetNative _ => hret tt
  | FaucetCw20 cw20 =>
      cw20 <~ hlift (std (addr_validate cw20));
      token_info <~ faucet_get (fun s => FAUCET_TOKEN_INFO s !! cw20);
      match token_info with
      | None => hret tt
      | Some token_info =>
          if negb (is_some (fti_trading_competition_index token_info)) then hret tt
          else
            tapped <~ faucet_get (fun s => TAPPED_ONCE s !! (cw20, recipient));
            if is_some tapped then herr (perp_auth DomFaucet) else save_tapped_once (cw20, recipient)
      end
  end.

(** ** history.rs *)

Definition asset_history (asset : FaucetAsset) (s : FaucetStore) : gmap Timestamp Decimal256 :=
  match asset with
  | FaucetCw20 x => prefix_of x (HISTORY_CW20 s)
  | FaucetNative x => prefix_of x (HISTORY_NATIVE s)
  end.
(** The total given out up to and including the time. *)
Definition get_history (s : FaucetStore) (asset : FaucetAsset) (timestamp : Timestamp) : Decimal256 :=
  match entry_max (fun t => t <=? timestamp) (asset_history asset s) with
  | Some (_, amount) => amount
  | None => 0
  end.
Definition save_history (asset : FaucetAsset) (now : Timestamp) (amount : Decimal256) : faucet_handler unit :=
  mod_faucet (fun s => match asset with
                       | FaucetCw20 x => set_HISTORY_CW20 (<[(x, now) := amount]> (HISTORY_CW20 s)) s
                       | FaucetNative x => set_HISTORY_NATIVE (<[(x, now) := amount]> (HISTORY_NATIVE s)) s
                       end).
Definition add_history (asset : FaucetAsset) (amount : Decimal256) : faucet_handler unit :=
  old_amount <~ faucet_get (fun s => get_history s asset (fae_now env));
  new_amount <~ hlift (std (dec_add amount old_amount));
  save_history asset (fae_now env) new_amount.

(** ** faucet.rs *)

Definition tap_limit (s : FaucetStore) : res (option Z) := std (TAP_LIMIT s).

(** The first asset of a trading competition the recipient has tapped. *)
Fixpoint first_tapped (s : FaucetStore) (recipient : Addr) (assets : list FaucetAsset) : res (option Addr) :=
  match assets with
  | [] => Ok None
  | asset :: assets =>
      already <- already_tapped_trading_competition s recipient asset;
      match already with
      | CompetitionTapped cw20 => Ok (Some cw20)
      | NotTradingCompetition | DidNotTap _ => first_tapped s recipient assets
      end
  end.
Definition validate_tap_faucet_error (s : FaucetStore) (recipient : Addr) (assets : list FaucetAsset) :
    res (option FaucetError) :=
  tapped <- first_tapped s recipient assets;
  match tapped with
  | Some cw20 => Ok (Some (AlreadyTapped cw20))
  | None =>
      limit <- tap_limit s;
      match limit, LAST_TAP_TIMESTAMP s !! recipient with
      | Some limit, Some last_tap =>
          elapsed <- timestamp_checked_sub (fae_now env) last_tap;
          limit <- duration_from_seconds limit;
          if elapsed <? limit then
            time_remaining <- duration_sub limit elapsed;
            ms <- as_ms_decimal_lossy time_remaining;
            wait_secs <- panics "attempt to divide by zero" (dec_op_div ms (1000 * DEC_ONE));
            Ok (Some (TooSoon wait_secs))
          else Ok None
      | _, _ => Ok None
      end
  end.
Definition validate_tap (recipient : Addr) (assets : list FaucetAsset) (s : FaucetStore) : res unit :=
  e <- validate_tap_faucet_error s recipient assets;
  match e with
  | None => Ok tt
  | Some _ => Err (PerpError Exceeded DomFaucet None)
  end.

Definition set_tap_amount (asset : FaucetAsset) (amount : Number) : faucet_handler unit :=
  match asset with
  | FaucetCw20 addr =>
      addr <~ hlift (std (addr_validate addr));
      mod_faucet (fun s => set_CW20_TAP_AMOUNT (<[addr := amount]> (CW20_TAP_AMOUNT s)) s)
  | FaucetNative denom =>
      mod_faucet (fun s => set_NATIVE_TAP_AMOUNT (<[denom := amount]> (NATIVE_TAP_AMOUNT s)) s)
  end.
Definition tap_amount (asset : FaucetAsset) : faucet_handler Number :=
  match asset with
  | FaucetCw20 addr =>
      addr <~ hlift (std (addr_validate addr));
      known <~ faucet_get (fun s => CW20_TAP_AMOUNT s !! addr);
      match known with
      | Some amount => hret amount
      | None =>
          mod_faucet (fun s => set_CW20_TAP_AMOUNT (<[addr := DEFAULT_CW20_TAP_AMOUNT]> (CW20_TAP_AMOUNT s)) s);;;
          hret DEFAULT_CW20_TAP_AMOUNT
      end
  | FaucetNative denom =>
      known <~ faucet_get (fun s => NATIVE_TAP_AMOUNT s !! denom);
      match known with
      | Some amount => hret amount
      | None =>
          mod_faucet (fun s =>
            set_NATIVE_TAP_AMOUNT (<[denom := DEFAULT_NATIVE_TAP_AMOUNT]> (NATIVE_TAP_AMOUNT s)) s);;;
          hret DEFAULT_NATIVE_TAP_AMOUNT
      end
  end.
Definition cw20_token_info (addr : Addr) : faucet_handler TokenInfo :=
  known <~ faucet_get (fun s => CW20_TOKEN_INFO s !! addr);
  match known with
  | Some info => hret info
  | None =>
      token_info <~ hlift (fae_token_info env addr);
      mod_faucet (fun s => set_CW20_TOKEN_INFO (<[addr := token_info]> (CW20_TOKEN_INFO s)) s);;;
      hret token_info
  end.
Definition save_last_tap (recipient : Addr) : faucet_handler unit :=
  mod_faucet (fun s => set_LAST_TAP_TIMESTAMP (<[recipient := fae_now env]> (LAST_TAP_TIMESTAMP s)) s).

(** The units of a token the amount is. *)
Definition tap_units (amount : Number) (decimals : Z) : res Uint128 :=
  units <- to_u128_with_precision amount decimals;
  of_option (PerpError Conversion DomFaucet None) units.
Definition tap (asset : FaucetAsset) (recipient : Addr) (amount : option Number) : faucet_handler unit :=
  amount <~ match amount with Some amount => hret amount | None => tap_amount asset end;
  hensure (negb (signed_ltb amount NUMBER_ZERO)) (PerpError InvalidAmount DomFaucet None);;;
  match asset with
  | FaucetCw20 cw20_addr =>
      cw20_addr <~ hlift (std (addr_validate cw20_addr));
      token_info <~ cw20_token_info cw20_addr;
      units <~ hlift (tap_units amount (ti_decimals token_info));
      faucet_message (FaucetCw20Sub cw20_addr (ExecMint recipient units))
  | FaucetNative denom =>
      units <~ hlift (tap_units amount NATIVE_DECIMAL_PLACES);
      faucet_message (FaucetBankSend recipient denom units)
  end;;;
  amount_unsigned <~ hlift (of_option (AnyhowError "Tried to tap a negative value") (try_into_non_zero amount));
  add_history asset amount_unsigned;;;
  faucet_event (EvTap asset recipient amount).
Fixpoint tap_assets (assets : list FaucetAsset) (recipient : Addr) (amount : option Number) : faucet_handler unit :=
  match assets with
  | [] => hret tt
  | asset :: assets => tap asset recipient amount;;; tap_assets assets recipient amount
  end.

Definition set_tap_limit (limit : option Z) : faucet_handler unit := mod_faucet (set_TAP_LIMIT (Some limit)).

Definition save_next_token (new_contract : Addr) : faucet_handler unit :=
  token_info <~ faucet_ask (fun s => std (NEXT_TOKEN s));
  mod_faucet (set_NEXT_TOKEN None);;;
  mod_faucet (fun s => set_FAUCET_TOKEN_INFO (<[new_contract := token_info]> (FAUCET_TOKEN_INFO s)) s);;;
  match fti_trading_competition_index token_info with
  | None => mod_faucet (fun s => set_FAUCET_TOKENS (<[fti_name token_info := new_contract]> (FAUCET_TOKENS s)) s)
  | Some index =>
      mod_faucet (fun s =>
        set_FAUCET_TOKENS_TRADE (<[(fti_name token_info, index) := new_contract]> (FAUCET_TOKENS_TRADE s)) s)
  end;;;
  set_tap_amount (FaucetCw20 new_contract) (fti_tap_amount token_info).

(** The missing part of a wallet's gas. *)
Definition top_off_gas (recipient : Addr) (allowance : GasAllowance) : faucet_handler unit :=
  curr_amount <~ hlift (fae_balance env recipient (ga_denom allowance));
  if curr_amount <? ga_amount allowance then
    missing <~ hlift (std (dec_from_atomics (ga_amount allowance - curr_amount) 6));
    tap (FaucetNative (ga_denom allowance)) recipient (Some (into_signed missing))
  else hret tt.

(** ** multitap.rs *)

Definition get_multitap_amount_by_name (s : FaucetStore) (name : string) : option Decimal256 :=
  match NAMED_AMOUNT s !! name with
  | Some amount => Some amount
  | None =>
      if String.eqb name "ATOM" then Some (1000 * DEC_ONE)
      else if String.eqb name "ETH" then Some DEC_ONE
      else if String.eqb name "BTC" then Some (DEC_ONE / 10)
      else if String.eqb name "USDC" then Some (10000 * DEC_ONE)
      else None
  end.
Definition get_multitap_amount (s : FaucetStore) (asset : FaucetAsset) : res (option Decimal256) :=
  match asset with
  | FaucetCw20 addr =>
      addr <- std (addr_validate addr);
      Ok (match FAUCET_TOKEN_INFO s !! addr with
          | None => None
          | Some info => get_multitap_amount_by_name s (fti_name info)
          end)
  | FaucetNative _ => Ok None
  end.
Definition multitap_single_asset (addr : Addr) (asset : FaucetAsset) : faucet_handler unit :=
  amount <~ faucet_ask (fun s => get_multitap_amount s asset);
  match amount with
  | Some amount => tap asset addr (Some (into_signed amount))
  | None => hret tt
  end.
Fixpoint multitap_assets (addr : Addr) (assets : list FaucetAsset) : faucet_handler unit :=
  match assets with
  | [] => hret tt
  | asset :: assets => multitap_single_asset addr asset;;; multitap_assets addr assets
  end.
Fixpoint set_all_tapped (recipient : Addr) (assets : list FaucetAsset) : faucet_handler unit :=
  match assets with
  | [] => hret tt
  | asset :: assets => set_tapped_trading_competition recipient asset;;; set_all_tapped recipient assets
  end.
Definition multitap_single (r : MultitapRecipient) (gas_allowance : option GasAllowance) : faucet_handler unit :=
  addr <~ hlift (std (addr_validate (mr_addr r)));
  e <~ faucet_ask (fun s => validate_tap_faucet_error s addr (mr_assets r));
  match e with
  | Some (TooSoon wait_secs) => faucet_event (EvTooSoon addr wait_secs)
  | Some (AlreadyTapped cw20) => faucet_event (EvAlreadyTapped addr cw20)
  | None =>
      save_last_tap addr;;;
      set_all_tapped addr (mr_assets r);;;
      faucet_event (EvTapSuccess addr);;;
      match gas_allowance with
      | Some allowance => top_off_gas addr allowance
      | None => hret tt
      end;;;
      multitap_assets addr (mr_assets r)
  end.
Fixpoint multitap_all (recipients : list MultitapRecipient) (gas_allowance : option GasAllowance) : faucet_handler unit :=
  match recipients with
  | [] => hret tt
  | r :: recipients => multitap_single r gas_allowance;;; multitap_all recipients gas_allowance
  end.
Definition multitap (recipients : list MultitapRecipient) : faucet_handler unit :=
  gas_allowance <~ faucet_get GAS_ALLOWANCE;
  multitap_all recipients gas_allowance.

(** ** contract.rs *)

Definition validate_owner (sender : Addr) : faucet_handler unit :=
  faucet_ask (fun s => ensure (is_admin s sender) (perp_auth DomFaucet)).

(** The gas coin is topped off, not tapped. *)
Definition without_gas (denom : string) (assets : list FaucetAsset) : list FaucetAsset :=
  List.filter (fun asset => match asset with
                            | FaucetCw20 _ => true
                            | FaucetNative requested_denom => negb (String.eqb denom requested_denom)
                            end) assets.
Fixpoint assert_all_competitions (recipient : Addr) (assets : list FaucetAsset) : faucet_handler unit :=
  match assets with
  | [] => hret tt
  | asset :: assets => assert_trading_competition recipient asset;;; assert_all_competitions recipient assets
  end.
Definition execute_tap (sender : Addr) (assets : list FaucetAsset) (recipient : RawAddr) (amount : option Number) :
    faucet_handler unit :=
  recipient <~ hlift (std (addr_validate recipient));
  (if is_some amount then validate_owner sender else hret tt);;;
  gas_allowance <~ faucet_get GAS_ALLOWANCE;
  assets <~ match gas_allowance with
            | None => hret assets
            | Some allowance => top_off_gas recipient allowance;;; hret (without_gas (ga_denom allowance) assets)
            end;
  admin <~ faucet_get (fun s => is_admin s sender);
  (if (admin : bool) then hret tt else assert_all_competitions recipient assets);;;
  faucet_ask (validate_tap recipient assets);;;
  tap_assets assets recipient amount;;;
  save_last_tap recipient.

(** CW20 names have three characters at least. *)
Fixpoint push_x (n : nat) : string := match n with O => EmptyString | S n => String "X"%char (push_x n) end.
Definition padded_name (name : string) : string := String.append name (push_x (3 - String.length name)).
Definition deploy_label (name : string) (trading_competition_index : option Z) : string :=
  match trading_competition_index with
  | Some i => ("Levana Faucet CW20 " +:+ name +:+ " #" +:+ pretty i)%string
  | None => ("Levana Faucet CW20 " +:+ name)%string
  end.
Fixpoint mint_all (cw20 : Addr) (balances : list (string * Uint128)) : faucet_handler unit :=
  match balances with
  | [] => hret tt
  | (address, amount) :: balances =>
      address <~ hlift (std (addr_validate address));
      faucet_message (FaucetCw20Sub cw20 (ExecMint address amount));;;
      mint_all cw20 balances
  end.

Definition execute_owner_msg (msg : OwnerMsg) : faucet_handler unit :=
  match msg with
  | SetTapLimit limit => set_tap_limit limit
  | SetTapAmount asset amount => set_tap_amount asset amount
  | FaucetAddAdmin admin => admin <~ hlift (std (addr_validate admin)); add_admin admin
  | FaucetRemoveAdmin admin => admin <~ hlift (std (addr_validate admin)); remove_admin admin
  | DeployToken name tap_amount index initial_balances =>
      mod_faucet (set_NEXT_TOKEN (Some (mkFaucetTokenInfo name index tap_amount)));;;
      code_id <~ faucet_ask get_cw20_code_id;
      faucet_message
        (FaucetInstantiateSub (fae_contract env) code_id (deploy_label name index)
          (mkCw20Instantiate (padded_name name) (padded_name name) 6 initial_balances (fae_contract env) None None))
  | SetMarketAddress name index market =>
      cw20 <~ faucet_ask (fun s => of_option (AnyhowError "CW20 not found") (get_token s name (Some index)));
      faucet_message (FaucetCw20Sub cw20 (ExecSetMarket market))
  | SetCw20CodeId cw20_code_id => mod_faucet (set_CW20_CODE_ID (Some cw20_code_id))
  | FaucetMint cw20 balances => cw20 <~ hlift (std (addr_validate cw20)); mint_all cw20 balances
  | SetGasAllowance allowance => mod_faucet (set_GAS_ALLOWANCE (Some allowance))
  | ClearGasAllowance => mod_faucet (set_GAS_ALLOWANCE None)
  | SetMultitapAmount name amount =>
      mod_faucet (fun s => set_NAMED_AMOUNT (<[name := amount]> (NAMED_AMOUNT s)) s)
  end.

Definition faucet_execute (sender : Addr) (msg : FaucetExecute) : faucet_handler unit :=
  match msg with
  | Tap assets recipient amount => execute_tap sender assets recipient amount
  | Multitap recipients => multitap recipients
  | FaucetOwnerMsg msg => validate_owner sender;;; execute_owner_msg msg
  end.

Definition faucet_reply (result : ReplyResult) : faucet_handler unit :=
  events <~ hlift (match result with ReplyOk events => Ok events | ReplyErr msg => Err (AnyhowError msg) end);
  addr <~ hlift (extract_instantiated_addr events);
  save_next_token addr.

Definition faucet_store_default : FaucetStore :=
  mkFaucetStore ∅ None ∅ ∅ None ∅ ∅ ∅ None ∅ ∅ None ∅ ∅ ∅ ∅.
Definition faucet_instantiate (sender : Addr) (msg : FaucetInstantiate) : faucet_handler unit :=
  add_admin sender;;;
  set_tap_limit (fai_tap_limit msg);;;
  mod_faucet (set_CW20_CODE_ID (Some (fai_cw20_code_id msg)));;;
  match fai_gas_allowance msg with
  | Some gas_allowance => mod_faucet (set_GAS_ALLOWANCE (Some gas_allowance))
  | None => hret tt
  end.

(** A message, its reply or the instantiation, with a fresh response. *)
Definition faucet_run {A} (h : faucet_handler A) (s : FaucetStore) : res (FaucetCtx * FaucetStore) :=
  match h (mkFaucetCtx s [] []) with
  | Ok (_, c) => Ok (c, fau_store c)
  | Err e => Err e
  end.

(** ** Queries *)

(** [PrettyTimeRemaining]. *)
Definition pretty_part (number : Z) (letter : string) : list string :=
  if 0 <? number then [(pretty number +:+ letter)%string] else [].
Definition pretty_time_remaining (secs : Decimal256) : string :=
  match u128_try_from (secs / DEC_ONE) with
  | None => "a really long time"
  | Some secs =>
      let secs := Z.max secs 1 in
      if secs <? 60 then (pretty secs +:+ "s")%string
      else
        let minutes := secs / 60 in
        let hours := minutes / 60 in
        String.concat " " (pretty_part (hours / 24) "d" ++ pretty_part (hours mod 24) "h"
                             ++ pretty_part (minutes mod 60) "m")
  end.

Inductive IneligibleReason := IneligibleTooSoon | IneligibleAlreadyTapped.
Inductive TapEligibleResponse :=
| Eligible
| Ineligible (seconds : Decimal256) (message : string) (reason : IneligibleReason).
Definition is_tap_eligible (s : FaucetStore) (addr : RawAddr) (assets : list FaucetAsset) : res TapEligibleResponse :=
  addr <- std (addr_validate addr);
  e <- validate_tap_faucet_error s addr assets;
  Ok (match e with
      | None => Eligible
      | Some (TooSoon wait_secs) =>
          Ineligible wait_secs
            ("You can only tap the faucet again in " +:+ pretty_time_remaining wait_secs)%string IneligibleTooSoon
      | Some (AlreadyTapped _) =>
          Ineligible 0 "During the trading competition there is a limit of one faucet tap per person"
            IneligibleAlreadyTapped
      end).
Definition faucet_tappers (s : FaucetStore) (start_after : option RawAddr) (limit : option Z) : res (list Addr) :=
  start_after <- match start_after with
                 | Some raw => addr <- std (addr_validate raw); Ok (Some addr)
                 | None => Ok None
                 end;
  Ok (take (Z.to_nat (default 30 limit))
        (map fst (range_asc (fun k => match start_after with Some a => String.ltb a k | None => true end)
                    (LAST_TAP_TIMESTAMP s)))).

Inductive FaucetQuery :=
| FaucetConfigQuery
| GetToken (name : string) (trading_competition_index : option Z)
| NextTradingIndex (name : string)
| GetGasAllowance
| IsTapEligible (addr : RawAddr) (assets : list FaucetAsset)
| IsAdmin (addr : RawAddr)
| TapAmount (asset : FaucetAsset)
| TapAmountByName (name : string)
| FundsSent (asset : FaucetAsset) (timestamp : option Timestamp)
| Tappers (start_after : option RawAddr) (limit : option Z).
Inductive FaucetAnswer :=
| AnsConfig (admins : list Addr) (tap_limit : option Z)
| AnsToken (address : option Addr)
| AnsIndex (next_index : Z)
| AnsGas (allowance : option GasAllowance)
| AnsEligible (r : TapEligibleResponse)
| AnsAdmin (b : bool)
| AnsTapAmount (amount : option Decimal256)
| AnsSent (amount : Decimal256)
| AnsTappers (tappers : list Addr).
Definition faucet_query (s : FaucetStore) (q : FaucetQuery) : res FaucetAnswer :=
  match q with
  | FaucetConfigQuery => limit <- tap_limit s; Ok (AnsConfig (get_all_admins s) limit)
  | GetToken name index => Ok (AnsToken (get_token s name index))
  | NextTradingIndex name => i <- get_next_index s name; Ok (AnsIndex i)
  | GetGasAllowance => Ok (AnsGas (GAS_ALLOWANCE s))
  | IsTapEligible addr assets => r <- is_tap_eligible s addr assets; Ok (AnsEligible r)
  | IsAdmin addr => addr <- std (addr_validate addr); Ok (AnsAdmin (is_admin s addr))
  | TapAmount asset => a <- get_multitap_amount s asset; Ok (AnsTapAmount a)
  | TapAmountByName name => Ok (AnsTapAmount (get_multitap_amount_by_name s name))
  | FundsSent asset timestamp => Ok (AnsSent (get_history s asset (default (fae_now env) timestamp)))
  | Tappers start_after limit => l <- faucet_tappers s start_after limit; Ok (AnsTappers l)
  end.
End Faucet.

(** The examples of the code's tests. *)
Example pretty_times :
  map (fun s => pretty_time_remaining (CW:=cosmwasm_ref) (s * DEC_ONE)) [5; 300; 3600; 3660; 3661; 90061] =
  ["5s"; "5m"; "1h"; "1h 1m"; "1h 1m"; "1d 1h 1m"]%string.
Proof. vm_compute. reflexivity. Qed.
