(* ===== verification/Tracker.v ===== *)
(** * The tracker contract

    [contracts/tracker/src] with the messages of
    [packages/perpswap/src/contracts/tracker/entry.rs]: a registry of the
    uploaded codes and of the contracts made from them, with an invariant that
    keeps its queries total and a contract of one type for life. *)

From stdpp Require Import base option gmap strings list sorting.
From Stdlib Require Import ZArith Lia.
From S2P Require Import Prelude Storage Index Cosmwasm Types Time.
Local Open Scope Z_scope.

(** ** Messages and storage *)

Inductive TrackerExecute :=
| TrackCodeId (contract_type : string) (code_id : Z) (hash : string) (gitrev : option string)
| TrackInstantiate (code_id : Z) (address : RawAddr) (family : string)
| TrackMigrate (new_code_id : Z) (address : RawAddr)
| TrackerAddAdmin (address : RawAddr)
| TrackerRemoveAdmin (address : RawAddr).

Record CodeIdInfo := mkCodeIdInfo {
  cii_contract_type : string;
  cii_code_id : Z;
  cii_hash : string;
  cii_tracked_at : Timestamp;
  cii_gitrev : option string;
}.
Record ContractInfo := mkContractInfo {
  coi_original_code_id : Z;
  coi_original_tracked_at : Timestamp;
  coi_current_code_id : Z;
  coi_current_tracked_at : Timestamp;
  coi_family : string;
  coi_sequence : Z;
  coi_migrate_count : Z;
}.

Record TrackerStore := mkTrackerStore {
  TRACKER_ADMINS : gmap Addr unit;
  CODE_BY_HASH : gmap string Z;
  CODE_BY_ID : gmap Z CodeIdInfo;
  (** family, contract type, sequence *)
  CONTRACT_BY_FAMILY : gmap ((string * string) * Z) Addr;
  CONTRACT_BY_ADDR : gmap Addr ContractInfo;
}.
Definition set_TRACKER_ADMINS (v : gmap Addr unit) (s : TrackerStore) : TrackerStore :=
  mkTrackerStore v (CODE_BY_HASH s) (CODE_BY_ID s) (CONTRACT_BY_FAMILY s) (CONTRACT_BY_ADDR s).
Definition set_CODE_BY_HASH (v : gmap string Z) (s : TrackerStore) : TrackerStore :=
  mkTrackerStore (TRACKER_ADMINS s) v (CODE_BY_ID s) (CONTRACT_BY_FAMILY s) (CONTRACT_BY_ADDR s).
Definition set_CODE_BY_ID (v : gmap Z CodeIdInfo) (s : TrackerStore) : TrackerStore :=
  mkTrackerStore (TRACKER_ADMINS s) (CODE_BY_HASH s) v (CONTRACT_BY_FAMILY s) (CONTRACT_BY_ADDR s).
Definition set_CONTRACT_BY_FAMILY (v : gmap ((string * string) * Z) Addr) (s : TrackerStore) : TrackerStore :=
  mkTrackerStore (TRACKER_ADMINS s) (CODE_BY_HASH s) (CODE_BY_ID s) v (CONTRACT_BY_ADDR s).
Definition set_CONTRACT_BY_ADDR (v : gmap Addr ContractInfo) (s : TrackerStore) : TrackerStore :=
  mkTrackerStore (TRACKER_ADMINS s) (CODE_BY_HASH s) (CODE_BY_ID s) (CONTRACT_BY_FAMILY s) v.

(** The block time, the contract's admin on the chain, the sender. *)
Record TrackerEnv := mkTrackerEnv { te_now : Timestamp; te_admin : res (option Addr); te_sender : Addr }.

Inductive TrackerEvent :=
| EvNewTracker (admin : Addr)
| EvNewCodeId (contract_type : string) (code_id : Z) (hash : string)
| EvTrackInstantiate (contract_type : string) (code_id : Z) (hash : string) (address : Addr) (family : string)
    (sequence : Z)
| EvTrackMigrate (contract_type : string) (old_code_id new_code_id : Z) (old_hash new_hash : string) (address : Addr)
    (family : string) (sequence new_migrate_count : Z).

Section Tracker.
Context {CW : CosmwasmStd}.

Definition tracker_handler (A : Type) : Type := handler TrackerStore error A.

(** [x + 1] on a [u32]. *)
Definition u32_next (x : Z) : res Z := panics "attempt to add with overflow" (fits (fun z => z <=? 2 ^ 32 - 1) (x + 1)).

(** ** execute.rs and lifecycle.rs *)

Definition track_code_id (env : TrackerEnv) (contract_type : string) (code_id : Z) (hash : string)
    (gitrev : option string) : tracker_handler (list TrackerEvent) :=
  hask (fun s => ensure (negb (is_some (CODE_BY_ID s !! code_id))) (AnyhowError "Code ID already submitted"));;;
  hask (fun s => ensure (negb (is_some (CODE_BY_HASH s !! hash))) (AnyhowError "Code hash already submitted"));;;
  hmod (fun s => set_CODE_BY_HASH (<[hash := code_id]> (CODE_BY_HASH s)) s);;;
  hmod (fun s => set_CODE_BY_ID
    (<[code_id := mkCodeIdInfo contract_type code_id hash (te_now env) gitrev]> (CODE_BY_ID s)) s);;;
  hret [EvNewCodeId contract_type code_id hash].

(** The next number in a family of one type. *)
Definition next_sequence (s : TrackerStore) (family contract_type : string) : res Z :=
  match entry_max (fun _ => true) (prefix_of (family, contract_type) (CONTRACT_BY_FAMILY s)) with
  | Some (x, _) => u32_next x
  | None => Ok 0
  end.

Definition track_instantiate (env : TrackerEnv) (code_id : Z) (address : RawAddr) (family : string) :
    tracker_handler (list TrackerEvent) :=
  address <~ hlift (std (addr_validate address));
  code_id_info <~ hask (fun s => of_option (AnyhowError "Specified code ID not found") (CODE_BY_ID s !! code_id));
  let contract_type := cii_contract_type code_id_info in
  new_sequence <~ hask (fun s => next_sequence s family contract_type);
  hmod (fun s => set_CONTRACT_BY_FAMILY
    (<[((family, contract_type), new_sequence) := address]> (CONTRACT_BY_FAMILY s)) s);;;
  hmod (fun s => set_CONTRACT_BY_ADDR
    (<[address := mkContractInfo code_id (te_now env) code_id (te_now env) family new_sequence 0]> (CONTRACT_BY_ADDR s)) s);;;
  hret [EvTrackInstantiate contract_type code_id (cii_hash code_id_info) address family new_sequence].

Definition track_migrate (env : TrackerEnv) (new_code_id : Z) (address : RawAddr) :
    tracker_handler (list TrackerEvent) :=
  address <~ hlift (std (addr_validate address));
  new_code_info <~ hask (fun s => of_option (AnyhowError "New code ID not found") (CODE_BY_ID s !! new_code_id));
  contract_info <~ hask (fun s => of_option (AnyhowError "Contract not found") (CONTRACT_BY_ADDR s !! address));
  let old_code_id := coi_current_code_id contract_info in
  old_code_info <~ hask (fun s => of_option (AnyhowError "Old code ID not found") (CODE_BY_ID s !! old_code_id));
  hensure (String.eqb (cii_contract_type old_code_info) (cii_contract_type new_code_info))
    (AnyhowError "Attempting to migrate to another type");;;
  migrate_count <~ hlift (u32_next (coi_migrate_count contract_info));
  hmod (fun s => set_CONTRACT_BY_ADDR
    (<[address := mkContractInfo (coi_original_code_id contract_info) (coi_original_tracked_at contract_info)
         new_code_id (te_now env) (coi_family contract_info) (coi_sequence contract_info) migrate_count]>
       (CONTRACT_BY_ADDR s)) s);;;
  hret [EvTrackMigrate (cii_contract_type old_code_info) old_code_id new_code_id (cii_hash old_code_info)
          (cii_hash new_code_info) address (coi_family contract_info) (coi_sequence contract_info) migrate_count].

Definition is_tracker_admin (s : TrackerStore) (a : Addr) : bool := is_some (TRACKER_ADMINS s !! a).

Definition tracker_execute (env : TrackerEnv) (msg : TrackerExecute) : tracker_handler (list TrackerEvent) :=
  listed <~ hget (fun s => is_tracker_admin s (te_sender env));
  (if (listed : bool) then hret tt
   else
     admin <~ hlift (te_admin env);
     hensure (bool_decide (admin = Some (te_sender env))) (AnyhowError "Not in the admin list"));;;
  match msg with
  | TrackCodeId contract_type code_id hash gitrev => track_code_id env contract_type code_id hash gitrev
  | TrackInstantiate code_id address family => track_instantiate env code_id address family
  | TrackMigrate new_code_id address => track_migrate env new_code_id address
  | TrackerAddAdmin address =>
      address <~ hlift (std (addr_validate address));
      hask (fun s => ensure (negb (is_tracker_admin s address)) (AnyhowError "Already an admin"));;;
      hmod (fun s => set_TRACKER_ADMINS (<[address := tt]> (TRACKER_ADMINS s)) s);;;
      hret []
  | TrackerRemoveAdmin address =>
      address <~ hlift (std (addr_validate address));
      hask (fun s => ensure (is_tracker_admin s address) (AnyhowError "Not an admin"));;;
      hmod (fun s => set_TRACKER_ADMINS (delete address (TRACKER_ADMINS s)) s);;;
      hret []
  end.

Definition tracker_instantiate (sender : Addr) : TrackerStore * list TrackerEvent :=
  (mkTrackerStore {[sender := tt]} ∅ ∅ ∅ ∅, [EvNewTracker sender]).

(** ** query.rs *)

Inductive TrackerQuery :=
| CodeById (code_id : Z)
| CodeByHash (hash : string)
| ContractByAddress (address : RawAddr)
| ContractByFamily (contract_type family : string) (sequence : option Z).
Inductive CodeIdResp := CodeNotFound | CodeFound (info : CodeIdInfo).
Inductive ContractResp := ContractNotFound | ContractFound (address : Addr) (contract_type : string) (info : ContractInfo).

Definition code_id_resp (s : TrackerStore) (code_id : option Z) : CodeIdResp :=
  match code_id with
  | None => CodeNotFound
  | Some code_id => match CODE_BY_ID s !! code_id with None => CodeNotFound | Some info => CodeFound info end
  end.
Definition contract_resp (s : TrackerStore) (address : option Addr) : res ContractResp :=
  match address with
  | None => Ok ContractNotFound
  | Some address =>
      match CONTRACT_BY_ADDR s !! address with
      | None => Ok ContractNotFound
      | Some info =>
          code_id_info <- std (CODE_BY_ID s !! coi_current_code_id info);
          Ok (ContractFound address (cii_contract_type code_id_info) info)
      end
  end.
Definition contract_of_family (s : TrackerStore) (contract_type family : string) (sequence : option Z) : option Addr :=
  match sequence with
  | Some sequence => CONTRACT_BY_FAMILY s !! ((family, contract_type), sequence)
  | None => snd <$> entry_max (fun _ => true) (prefix_of (family, contract_type) (CONTRACT_BY_FAMILY s))
  end.
Definition tracker_query (s : TrackerStore) (q : TrackerQuery) : res (CodeIdResp + ContractResp) :=
  match q with
  | CodeById code_id => Ok (inl (code_id_resp s (Some code_id)))
  | CodeByHash hash => Ok (inl (code_id_resp s (CODE_BY_HASH s !! hash)))
  | ContractByAddress address =>
      address <- std (addr_validate address); r <- contract_resp s (Some address); Ok (inr r)
  | ContractByFamily contract_type family sequence =>
      r <- contract_resp s (contract_of_family s contract_type family sequence); Ok (inr r)
  end.
End Tracker.

(** ** What the registry keeps *)

Section Sane.
Context {CW : CosmwasmStd}.

(** The entries of a map are the numbers below some count. *)
Definition consecutive {V} (m : gmap Z V) : Prop := exists n, 0 <= n /\ forall i, is_Some (m !! i) <-> 0 <= i < n.

Lemma consecutive_last {V} (m : gmap Z V) i v :
  consecutive m -> entry_max (fun _ => true) m = Some (i, v) -> forall j, is_Some (m !! j) <-> 0 <= j < i + 1.
Proof.
  intros (n & Hn & Hm) He. apply entry_max_Some in He as (Hi & _ & Hmax).
  assert (i = n - 1) as ->; [|intros j; rewrite Hm; lia].
  assert (0 <= i < n) as Hin by (apply Hm; by eexists).
  destruct (proj2 (Hm (n - 1)) ltac:(lia)) as [w Hw]. specialize (Hmax _ _ Hw eq_refl). simpl in Hmax.
  apply Z.ltb_ge in Hmax. lia.
Qed.
Lemma consecutive_none {V} (m : gmap Z V) :
  consecutive m -> entry_max (fun _ => true) m = None -> forall j, is_Some (m !! j) <-> 0 <= j < 0.
Proof.
  intros (n & Hn & Hm) He j. split; [|lia]. intros [v Hv]. by pose proof (entry_max_None _ _ _ _ He Hv).
Qed.

Lemma next_sequence_fresh s family ty n :
  consecutive (prefix_of (family, ty) (CONTRACT_BY_FAMILY s)) -> next_sequence s family ty = Ok n ->
  0 <= n /\ forall j, is_Some (CONTRACT_BY_FAMILY s !! ((family, ty), j)) <-> 0 <= j < n.
Proof.
  intros Hc H. unfold next_sequence in H.
  destruct (entry_max _ _) as [[x v]|] eqn:He.
  - pose proof (consecutive_last _ _ _ Hc He) as Hl. unfold u32_next, panics in H. apply of_option_ok, fits_Some in H as [-> _].
    split; [|intros j; rewrite <- prefix_of_lookup; apply Hl].
    apply entry_max_Some in He as (Hx & _). assert (0 <= x < x + 1) by (apply Hl; by eexists). lia.
  - injection H as <-. split; [done|]. intros j. rewrite <- prefix_of_lookup. by apply consecutive_none.
Qed.

Record tracker_sane (s : TrackerStore) : Prop := {
  (** a code has one hash and a hash one code *)
  tr_hash : forall h id, CODE_BY_HASH s !! h = Some id <-> exists i, CODE_BY_ID s !! id = Some i /\ cii_hash i = h;
  tr_id : forall id i, CODE_BY_ID s !! id = Some i -> cii_code_id i = id;
  (** a contract's codes are known and of one type, and it is in its family under its number *)
  tr_contract : forall a c, CONTRACT_BY_ADDR s !! a = Some c -> exists o n,
    CODE_BY_ID s !! coi_original_code_id c = Some o /\ CODE_BY_ID s !! coi_current_code_id c = Some n /\
    cii_contract_type o = cii_contract_type n /\
    CONTRACT_BY_FAMILY s !! ((coi_family c, cii_contract_type n), coi_sequence c) = Some a;
  (** a family's contracts are known, and numbered from zero *)
  tr_member : forall k a, CONTRACT_BY_FAMILY s !! k = Some a -> is_Some (CONTRACT_BY_ADDR s !! a);
  tr_numbered : forall k, consecutive (prefix_of k (CONTRACT_BY_FAMILY s));
}.

Lemma track_code_id_sane env ty id h rev s r s' :
  tracker_sane s -> track_code_id env ty id h rev s = Ok (r, s') -> tracker_sane s'.
Proof.
  intros [H1 H2 H3 H4 H5] H. unfold track_code_id in H. lift_in H u1 Hid. lift_in H u2 Hh.
  apply ensure_ok, negb_true_iff in Hid, Hh.
  assert (CODE_BY_ID s !! id = None) as Eid by (by destruct (CODE_BY_ID s !! id)).
  assert (CODE_BY_HASH s !! h = None) as Eh by (by destruct (CODE_BY_HASH s !! h)).
  inv_ok. split; simpl; [| | |done..].
  - intros h' id'. rewrite !lookup_insert_Some. setoid_rewrite lookup_insert_Some. split.
    + intros [[<- <-]|[Hne Hk]]; [eexists; split; [by left|done]|].
      apply H1 in Hk as (i & Hi & <-). exists i. split; [right; split; [congruence|done]|done].
    + intros (i & [[<- <-]|[Hne Hi]] & <-); [by left|]. right. split; [|apply H1; by exists i].
      intros ->. assert (CODE_BY_HASH s !! cii_hash i = Some id') by (apply H1; by exists i). congruence.
  - intros id' i. rewrite lookup_insert_Some. intros [[<- <-]|[_ Hi]]; [done|by apply H2].
  - intros a c Hc. apply H3 in Hc as (o & n & Ho & Hn & E & Hf). exists o, n.
    rewrite !lookup_insert_ne by congruence. done.
Qed.

Lemma track_instantiate_sane env id a f s r s' :
  tracker_sane s -> track_instantiate env id a f s = Ok (r, s') -> tracker_sane s'.
Proof.
  intros [H1 H2 H3 H4 H5] H. unfold track_instantiate in H. lift_in H addr Ha. lift_in H code Hcode.
  apply of_option_ok in Hcode. cbv zeta in H. lift_in H n Hn.
  apply next_sequence_fresh in Hn as [Hn0 Hn]; [|apply H5]. inv_ok.
  assert (CONTRACT_BY_FAMILY s !! ((f, cii_contract_type code), n) = None) as Hnew.
  { destruct (CONTRACT_BY_FAMILY s !! _) as [x|] eqn:E; [|done].
    assert (0 <= n < n) by (apply Hn; by eexists). lia. }
  split; simpl; [done|done| | |].
  - intros a' c. rewrite lookup_insert_Some. intros [[<- <-]|[Hne Hc]].
    + exists code, code. simpl. rewrite lookup_insert_eq. done.
    + apply H3 in Hc as (o & n' & Ho & Hn' & E & Hf). exists o, n'. split_and!; try done.
      rewrite lookup_insert_ne; [done|]. congruence.
  - intros k a'. rewrite lookup_insert_Some. intros [[<- <-]|[_ Hk]].
    + rewrite lookup_insert_eq. by eexists.
    + destruct (decide (addr = a')) as [->|Hne]; [rewrite lookup_insert_eq; by eexists|].
      rewrite lookup_insert_ne by done. by eapply H4.
  - intros k. destruct (decide (k = (f, cii_contract_type code))) as [->|Hne].
    + exists (n + 1). split; [lia|]. intros i. rewrite prefix_of_lookup.
      destruct (decide (i = n)) as [->|Hi]; [rewrite lookup_insert_eq; split; [lia|by eexists]|].
      rewrite lookup_insert_ne by congruence. rewrite Hn. lia.
    + destruct (H5 k) as (n' & Hn' & Hk). exists n'. split; [done|]. intros i. rewrite <- Hk, !prefix_of_lookup.
      by rewrite lookup_insert_ne by congruence.
Qed.

Lemma track_migrate_sane env id a s r s' :
  tracker_sane s -> track_migrate env id a s = Ok (r, s') -> tracker_sane s'.
Proof.
  intros [H1 H2 H3 H4 H5] H. unfold track_migrate in H. lift_in H addr Ha. lift_in H new Hnew.
  apply of_option_ok in Hnew. lift_in H c Hc. apply of_option_ok in Hc. cbv zeta in H. lift_in H old Hold.
  apply of_option_ok in Hold. step_in H u s1 H6. apply hensure_ok in H6 as [H6 ->].
  apply String.eqb_eq in H6. lift_in H count Hcount. inv_ok. split; simpl; [done|done| | |done].
  - intros a' c'. rewrite lookup_insert_Some. intros [[<- <-]|[_ Hc']]; [|by apply H3]. simpl.
    apply H3 in Hc as (o & n & Ho & Hn & E & Hf). exists o, new. rewrite Hold in Hn. injection Hn as <-.
    split_and!; try done; [congruence|]. by rewrite <- H6.
  - intros k a' Hk. destruct (decide (addr = a')) as [->|Hne]; [rewrite lookup_insert_eq; by eexists|].
    rewrite lookup_insert_ne by done. by eapply H4.
Qed.

Inductive tracker_reachable : TrackerStore -> Prop :=
| tracker_reach_instantiate sender : tracker_reachable (fst (tracker_instantiate sender))
| tracker_reach_step env msg s r s' :
    tracker_reachable s -> tracker_execute env msg s = Ok (r, s') -> tracker_reachable s'.

Lemma tracker_reachable_sane s : tracker_reachable s -> tracker_sane s.
Proof.
  induction 1 as [sender|env msg s r s' _ IH H].
  - split; simpl.
    + intros h id. rewrite lookup_empty. split; [done|]. intros (i & Hi & _). by rewrite lookup_empty in Hi.
    + intros id i. by rewrite lookup_empty.
    + intros a c. by rewrite lookup_empty.
    + intros k a. by rewrite lookup_empty.
    + intros k. exists 0. split; [done|]. intros i. rewrite prefix_of_lookup, lookup_empty. split; [by intros [? ?]|lia].
  - unfold tracker_execute in H. step_in H listed s1 H1. get_in H1. step_in H u s2 H2.
    assert (s2 = s) as ->.
    { destruct (is_tracker_admin s (te_sender env)); [by apply hret_ok in H2 as [_ ->]|]. lift_in H2 ad Had.
      by apply hensure_ok in H2 as [_ ->]. }
    destruct msg.
    + by eapply track_code_id_sane.
    + by eapply track_instantiate_sane.
    + by eapply track_migrate_sane.
    + lift_in H a Ha. lift_in H u2 Hu. inv_ok. destruct IH. by split.
    + lift_in H a Ha. lift_in H u2 Hu. inv_ok. destruct IH. by split.
Qed.

(** C29: the registry is well formed.  In every reachable state of the tracker
    codes and hashes correspond one to one; every contract is listed in its
    family under its number, its original and its current code are known, and
    migrations never changed its type; the contracts of a family are numbered
    from zero without gaps; and no query about a contract fails. *)
Theorem tracker_registry_sane s :
  tracker_reachable s ->
  tracker_sane s /\
  (forall a, is_ok (contract_resp s a) = true) /\
  forall ty family n, (forall i, is_Some (contract_of_family s ty family (Some i)) <-> 0 <= i < n) -> 0 < n ->
    contract_of_family s ty family None = contract_of_family s ty family (Some (n - 1)).
Proof.
  intros Hr. pose proof (tracker_reachable_sane _ Hr) as Hs. split; [done|]. split.
  - intros [a|]; [|done]. unfold contract_resp. destruct (CONTRACT_BY_ADDR s !! a) as [c|] eqn:Hc; [|done].
    apply (tr_contract s Hs) in Hc as (o & n & _ & -> & _). done.
  - intros ty family n Hn Hpos. unfold contract_of_family in *.
    destruct (proj2 (Hn (n - 1)) ltac:(lia)) as [a Ha]. rewrite Ha.
    destruct (entry_max _ _) as [[i v]|] eqn:He.
    + apply entry_max_Some in He as (Hi & _ & Hmax). rewrite prefix_of_lookup in Hi. simpl.
      assert (0 <= i < n) by (apply Hn; by eexists). rewrite <- prefix_of_lookup in Ha.
      specialize (Hmax _ _ Ha eq_refl). apply Z.ltb_ge in Hmax. rewrite prefix_of_lookup in Ha.
      assert (i = n - 1) as -> by lia. congruence.
    + rewrite <- prefix_of_lookup in Ha. by pose proof (entry_max_None _ _ _ _ He Ha).
Qed.
End Sane.

(** Two versions of one code, and a contract made from the first and migrated
    to the second. *)
Definition sample_tracker_env (now : Timestamp) : TrackerEnv := mkTrackerEnv now (Ok None) "admin".
Fixpoint tracker_run (l : list (Timestamp * TrackerExecute)) (s : TrackerStore) : res TrackerStore :=
  match l with
  | [] => Ok s
  | (now, msg) :: l =>
      match tracker_execute (CW:=cosmwasm_ref) (sample_tracker_env now) msg s with
      | Ok (_, s') => tracker_run l s'
      | Err e => Err e
      end
  end.
Definition sample_tracked : res TrackerStore :=
  tracker_run [(1, TrackCodeId "market" 7 "aa" None); (2, TrackCodeId "market" 8 "bb" (Some "rev"%string));
    (3, TrackInstantiate 7 "contract" "dragon"); (4, TrackMigrate 8 "contract")]
    (fst (tracker_instantiate "admin")).
Lemma tracker_run_reachable l s s' :
  tracker_reachable (CW:=cosmwasm_ref) s -> tracker_run l s = Ok s' -> tracker_reachable (CW:=cosmwasm_ref) s'.
Proof.
  revert s. induction l as [|[now msg] l IH]; intros s Hs H; cbn [tracker_run] in H; [by injection H as <-|].
  destruct (tracker_execute _ _ _) as [[r s1]|] eqn:E; [|done]. apply (IH s1); [|done]. by eapply tracker_reach_step.
Qed.
Lemma tracker_registry_sane_witness :
  exists s, sample_tracked = Ok s /\ tracker_sane s /\ is_ok (contract_resp s (Some "contract"%string)) = true /\
    contract_of_family s "market" "dragon" None = Some "contract"%string.
Proof.
  assert (match sample_tracked with
          | Ok s => contract_of_family s "market" "dragon" None = Some "contract"%string
          | Err _ => False end) as Hf by (vm_compute; reflexivity).
  destruct sample_tracked as [s|] eqn:E; [|destruct Hf]. exists s. split; [done|].
  destruct (tracker_registry_sane (CW:=cosmwasm_ref) s) as (Hs & Hq & _).
  - apply (tracker_run_reachable _ _ _ (tracker_reach_instantiate (CW:=cosmwasm_ref) "admin") E).
  - split; [exact Hs|]. split; [exact (Hq _)|exact Hf].
Defined.
