(* ===== verification/FaucetInv.v ===== *)
(** * What the faucet guarantees, and what it does not

    Everything the faucet gives out is in its history, and a wallet waits for
    the tap limit between two taps.  The limit of one tap for a token of a
    trading competition does not hold: the two places that record a tap use
    the key in opposite orders. *)

From stdpp Require Import base option gmap strings list pretty.
From Stdlib Require Import ZArith Lia.
From S2P Require Import Prelude Storage Index Cosmwasm Types Number Time Market Token Config Cw20 Trading State PositionToken Entry Factory Faucet.
Local Open Scope Z_scope.

Create HintDb faucet.
Ltac tap_frame := frame_with ltac:(first [assumption | eauto with faucet]).

(** ** Who is given something *)

(** What a tap leaves alone. *)
Definition tap_kept (s : FaucetStore) :=
  (FAUCET_ADMINS s, GAS_ALLOWANCE s, LAST_TAP_TIMESTAMP s, TAP_LIMIT s, FAUCET_TOKEN_INFO s, TAPPED_ONCE s,
   NAMED_AMOUNT s).
Definition is_tap_of (r : Addr) (e : FaucetEvent) : Prop :=
  match e with EvTap _ r' _ => r' = r | _ => True end.
(** Since [c] only [r] was given something, and nothing else was written. *)
Definition only_taps (r : Addr) (c c' : FaucetCtx) : Prop :=
  tap_kept (fau_store c') = tap_kept (fau_store c) /\
  exists l, fau_events c' = fau_events c ++ l /\ Forall (is_tap_of r) l.

Section Faucet.
Context {CW : CosmwasmStd} (env : FaucetEnv).

Lemma only_taps_refl r c : only_taps r c c.
Proof. split; [done|]. exists []. by rewrite app_nil_r. Qed.
Lemma event_only_taps r c e : is_tap_of r e -> preserves (only_taps r c) (faucet_event e).
Proof.
  intros He. apply preserves_mod. intros c' [Hk (l & Hl & Hf)]. split; [exact Hk|]. exists (l ++ [e]). simpl.
  rewrite Hl, app_assoc. split; [done|]. apply Forall_app. by repeat constructor.
Qed.
Lemma history_only_taps r c asset now v : preserves (only_taps r c) (save_history asset now v).
Proof. apply preserves_mod. intros c' Hc. by destruct asset. Qed.
Hint Resolve history_only_taps : faucet.
Hint Extern 1 (preserves (only_taps _ _) (faucet_event _)) => apply event_only_taps; done : faucet.
Lemma tap_only_taps r c asset amount : preserves (only_taps r c) (tap env asset r amount).
Proof. tap_frame. Qed.
Hint Resolve tap_only_taps : faucet.
Lemma tap_assets_only_taps r c assets amount : preserves (only_taps r c) (tap_assets env assets r amount).
Proof. induction assets as [|a l IH]; simpl; tap_frame. Qed.
Lemma top_off_only_taps r c allowance : preserves (only_taps r c) (top_off_gas env r allowance).
Proof. tap_frame. Qed.
Lemma multitap_assets_only_taps r c assets : preserves (only_taps r c) (multitap_assets env r assets).
Proof. induction assets as [|a l IH]; simpl; tap_frame. Qed.
Hint Resolve tap_assets_only_taps top_off_only_taps multitap_assets_only_taps : faucet.

(** ** Waiting for the limit *)

(** The tap limit has passed since the last tap of [r]. *)
Definition waited (s : FaucetStore) (r : Addr) : Prop :=
  forall limit last, TAP_LIMIT s = Some (Some limit) -> LAST_TAP_TIMESTAMP s !! r = Some last ->
    last + limit * 1000000000 <= fae_now env.

Lemma validated_waited s r assets : validate_tap_faucet_error env s r assets = Ok None -> waited s r.
Proof.
  intros H limit last Hl Hlast. unfold validate_tap_faucet_error, tap_limit in H. apply rbind_ok in H as (t & _ & H).
  destruct t; [done|]. rewrite Hl in H. simpl in H. rewrite Hlast in H. apply rbind_ok in H as (el & Hel & H).
  apply timestamp_checked_sub_ok in Hel as [-> _]. apply rbind_ok in H as (d & Hd & H).
  unfold duration_from_seconds in Hd. apply u64_checked_ok in Hd as [-> _].
  destruct (Z.ltb_spec (fae_now env - last) (limit * 1000000000)); [|lia].
  apply rbind_ok in H as (x & _ & H). apply rbind_ok in H as (y & _ & H). by apply rbind_ok in H as (z & _ & H).
Qed.

(** Since [s0], who was given something had waited, and has tapped now. *)
Definition waiting_kept (s0 : FaucetStore) (c : FaucetCtx) : Prop :=
  TAP_LIMIT (fau_store c) = TAP_LIMIT s0 /\
  forall r, (LAST_TAP_TIMESTAMP (fau_store c) !! r = LAST_TAP_TIMESTAMP s0 !! r /\
             forall a v, EvTap a r v ∉ fau_events c) \/
            (LAST_TAP_TIMESTAMP (fau_store c) !! r = Some (fae_now env) /\ waited s0 r).

Lemma waiting_waited s0 c r : waiting_kept s0 c -> waited (fau_store c) r -> waited s0 r.
Proof.
  intros [Hl Hr] Hw. destruct (Hr r) as [[E _]|[_ ?]]; [|done]. intros limit last H1 H2.
  apply (Hw limit last); congruence.
Qed.
Lemma only_taps_waiting s0 r c c' :
  waiting_kept s0 c -> LAST_TAP_TIMESTAMP (fau_store c) !! r = Some (fae_now env) -> waited s0 r ->
  only_taps r c c' -> waiting_kept s0 c'.
Proof.
  intros [Hl Hr] Hlast Hw [Hk (l & El & Hf)]. injection Hk as _ _ E3 E4 _ _ _. split; [congruence|].
  intros r'. destruct (decide (r' = r)) as [->|Hne]; [right; by rewrite E3|].
  destruct (Hr r') as [[E Hn]|[E ?]]; [left|right]; rewrite E3; split; try done.
  intros a v Hin. rewrite El in Hin. apply elem_of_app in Hin as [Hin|Hin]; [by apply (Hn a v)|].
  rewrite Forall_forall in Hf. specialize (Hf _ Hin). simpl in Hf. congruence.
Qed.

(** Marking taps of a competition changes nothing else. *)
Lemma set_all_tapped_waiting s0 r assets : preserves (waiting_kept s0) (set_all_tapped r assets).
Proof. induction assets as [|a l IH]; simpl; tap_frame. Qed.
Lemma set_all_tapped_last r assets r' :
  preserves (fun c => LAST_TAP_TIMESTAMP (fau_store c) !! r' = Some (fae_now env)) (set_all_tapped r assets).
Proof. induction assets as [|a l IH]; simpl; tap_frame. Qed.
Lemma other_event_waiting s0 e :
  (forall a r v, e <> EvTap a r v) -> preserves (waiting_kept s0) (faucet_event e).
Proof.
  intros He. apply preserves_mod. intros c [Hl Hr]. split; [done|]. intros r. destruct (Hr r) as [[E Hn]|?]; [left|by right].
  split; [done|]. intros a v. simpl. rewrite elem_of_app, list_elem_of_singleton. intros [Hin|Hin]; [by apply (Hn a v)|].
  by apply (He a r v).
Qed.

Lemma multitap_single_waiting s0 r gas : preserves (waiting_kept s0) (multitap_single env r gas).
Proof.
  intros c u c' Hc H. unfold multitap_single in H. lift_in H addr Ha. lift_in H e He.
  destruct e as [[w|cw20]|].
  - by apply (other_event_waiting s0 (EvTooSoon addr w)) in H.
  - by apply (other_event_waiting s0 (EvAlreadyTapped addr cw20)) in H.
  - apply validated_waited in He. pose proof (waiting_waited _ _ _ Hc He) as Hw.
    step_in H u1 c1 H1. apply hmod_ok in H1.
    assert (waiting_kept s0 c1) as Hc1.
    { subst c1. destruct Hc as [Hl Hr]. split; [done|]. intros r'. simpl. destruct (decide (addr = r')) as [<-|Hne].
      - right. by rewrite lookup_insert_eq.
      - rewrite lookup_insert_ne by done. apply Hr. }
    step_in H u2 c2 H2.
    assert (LAST_TAP_TIMESTAMP (fau_store c2) !! addr = Some (fae_now env)) as Hlast2.
    { apply (set_all_tapped_last addr (mr_assets r) addr c1 u2 c2); [|exact H2]. subst c1. simpl. by rewrite lookup_insert_eq. }
    apply set_all_tapped_waiting with (s0 := s0) in H2; [|done].
    step_in H u3 c3 H3. pose proof H3 as H3'. apply hmod_ok in H3'.
    apply (other_event_waiting s0 (EvTapSuccess addr)) in H3; [|done..].
    assert (LAST_TAP_TIMESTAMP (fau_store c3) !! addr = Some (fae_now env)) as Hlast3 by (by subst c3).
    apply (only_taps_waiting s0 addr c3); [done..|].
    revert H. apply (preserves_bind (only_taps addr c3)); [|intros _; tap_frame|apply only_taps_refl].
    destruct gas; tap_frame.
Qed.
Lemma multitap_all_waiting s0 l gas : preserves (waiting_kept s0) (multitap_all env l gas).
Proof.
  induction l as [|r l IH]; simpl; [apply preserves_ret|]. apply preserves_bind; [apply multitap_single_waiting|done].
Qed.

(** The mark of a competition keeps the rest. *)
Definition marking_kept (c c' : FaucetCtx) : Prop :=
  LAST_TAP_TIMESTAMP (fau_store c') = LAST_TAP_TIMESTAMP (fau_store c) /\
  TAP_LIMIT (fau_store c') = TAP_LIMIT (fau_store c) /\ FAUCET_TOKEN_INFO (fau_store c') = FAUCET_TOKEN_INFO (fau_store c) /\
  fau_events c' = fau_events c.
Lemma assert_all_marking c recipient assets :
  preserves (marking_kept c) (assert_all_competitions recipient assets).
Proof. induction assets as [|a l IH]; simpl; tap_frame. Qed.

(** A tap went through the marks and the validation. *)
Lemma execute_tap_steps sender assets recipient amount c u c' :
  execute_tap env sender assets recipient amount c = Ok (u, c') ->
  exists r assets' c1 c2 c3, addr_validate recipient = Some r /\ only_taps r c c1 /\
    (if is_admin (fau_store c1) sender then c2 = c1
     else assert_all_competitions r assets' c1 = Ok (tt, c2)) /\
    (forall cw20, FaucetCw20 cw20 ∈ assets -> FaucetCw20 cw20 ∈ assets') /\
    validate_tap_faucet_error env (fau_store c2) r assets' = Ok None /\
    only_taps r c2 c3 /\ save_last_tap env r c3 = Ok (u, c').
Proof.
  unfold execute_tap. intros H. lift_in H r Hr. apply std_ok in Hr. step_in H u1 c1 H1.
  assert (c1 = c) as ->.
  { destruct (is_some amount); [|by apply hret_ok in H1 as [_ ->]]. unfold validate_owner, faucet_ask in H1. by apply hask_ok in H1 as [_ ->]. }
  step_in H gas c2 H2. unfold faucet_get in H2. get_in H2. step_in H assets' c3 H3.
  assert (only_taps r c c3 /\ forall cw20, FaucetCw20 cw20 ∈ assets -> FaucetCw20 cw20 ∈ assets') as [Ho Hn].
  { destruct (GAS_ALLOWANCE (fau_store c)) as [g|]; [|apply hret_ok in H3 as [-> ->]; split; [apply only_taps_refl|done]].
    step_in H3 u2 c2 H2. apply hret_ok in H3 as [-> ->]. split.
    - by apply (top_off_only_taps r c g c u2 c2 (only_taps_refl r c)).
    - intros cw20 Hin%list_elem_of_In. apply list_elem_of_In, filter_In. done. }
  step_in H adm c4 H4. unfold faucet_get in H4. get_in H4. step_in H u3 c5 H5. step_in H u4 c6 H6. unfold faucet_ask in H6. apply hask_ok in H6 as [H6 ->].
  step_in H u5 c7 H7. exists r, assets', c3, c5, c7. split; [done|]. split; [done|]. split.
  { destruct (is_admin (fau_store c3) sender); [by apply hret_ok in H5 as [_ ->]|by destruct u3]. }
  split; [done|]. split.
  { unfold validate_tap in H6. apply rbind_ok in H6 as (e & He & H6). by destruct e. }
  split; [|done]. by apply (tap_assets_only_taps r c5 assets' amount c5 u5 c7 (only_taps_refl _ _)) in H7.
Qed.
Lemma owner_msg_silent msg evs : preserves (fun c => fau_events c = evs) (execute_owner_msg env msg).
Proof.
  assert (forall cw20 l, preserves (fun c => fau_events c = evs) (mint_all cw20 l)) as Hm.
  { intros cw20 l. induction l as [|[a n] l IH]; simpl; tap_frame. }
  tap_frame.
Qed.

(** A wallet waits for the tap limit.  Whatever message is sent to the
    faucet and whoever sends it, a wallet that is given something had not
    tapped before, or the tap limit had passed since it last did, or there
    was no limit; and its tap is recorded with the time of the block, so that
    it waits again. *)
Theorem tap_waits sender msg s c s' asset r amount :
  faucet_run (faucet_execute env sender msg) s = Ok (c, s') -> EvTap asset r amount ∈ fau_events c ->
  waited s r /\ LAST_TAP_TIMESTAMP s' !! r = Some (fae_now env).
Proof.
  intros H Hin. unfold faucet_run in H. set (c0 := mkFaucetCtx s [] []) in H.
  destruct (faucet_execute env sender msg c0) as [[u c1]|] eqn:E; [|done]. injection H as <- <-.
  destruct msg as [assets recipient amt|recipients|msg]; cbn [faucet_execute] in E.
  - apply execute_tap_steps in E as (r0 & assets' & c2 & c3 & c4 & _ & Ho1 & Hm & _ & Hv & Ho2 & Hs).
    apply hmod_ok in Hs. subst c1. destruct Ho1 as [K1 (l1 & E1 & F1)], Ho2 as [K2 (l2 & E2 & F2)].
    assert (marking_kept c2 c3) as (M1 & M2 & _ & M4).
    { destruct (is_admin (fau_store c2) sender); [by subst c3|].
      by apply (assert_all_marking c2 r0 assets' c2 tt c3). }
    assert (r0 = r) as ->.
    { simpl in Hin. rewrite E2, M4, E1 in Hin. simpl in Hin.
      assert (Forall (is_tap_of r0) (l1 ++ l2)) as F by (by apply Forall_app).
      rewrite Forall_forall in F. specialize (F _ Hin). simpl in F. done. }
    split; [|by simpl; rewrite lookup_insert_eq].
    apply validated_waited in Hv. intros limit last H1 H2. injection K1 as _ _ K3 K4 _ _ _. simpl in K3, K4.
    apply (Hv limit last); congruence.
  - unfold multitap in E. step_in E gas c2 H2. unfold faucet_get in H2. get_in H2.
    assert (waiting_kept s c0) as Hc0.
    { split; [done|]. intros r'. left. split; [done|]. intros a v. apply not_elem_of_nil. }
    apply (multitap_all_waiting s _ _ _ _ _ Hc0) in E as [_ Hr].
    destruct (Hr r) as [[_ Hn]|[Hl Hw]]; [by apply Hn in Hin|done].
  - step_in E u2 c2 H2. unfold validate_owner, faucet_ask in H2. apply hask_ok in H2 as [_ ->].
    apply (owner_msg_silent msg [] c0 u c1 eq_refl) in E. rewrite E in Hin. by apply elem_of_nil in Hin.
Qed.
End Faucet.

(** ** The history *)

(** The last value of a map up to a time. *)
Definition latest (m : gmap Timestamp Decimal256) (t : Timestamp) : Decimal256 :=
  match entry_max (fun t' => t' <=? t) m with Some (_, v) => v | None => 0 end.

Lemma latest_Some m t k v :
  m !! k = Some v -> k <= t -> (forall k' v', m !! k' = Some v' -> k' <= t -> k' <= k) -> latest m t = v.
Proof.
  intros Hk Ht Hmax. unfold latest. destruct (entry_max _ m) as [[k' v']|] eqn:E.
  - apply entry_max_Some in E as (Hk' & Ht'%Z.leb_le & Hmax'). specialize (Hmax' _ _ Hk ltac:(by apply Z.leb_le)).
    apply Z.ltb_ge in Hmax'. specialize (Hmax _ _ Hk' Ht'). assert (k = k') as <- by lia. congruence.
  - apply (entry_max_None _ _ _ _ E) in Hk. apply Z.leb_gt in Hk. lia.
Qed.
Lemma latest_None m t : (forall k v, m !! k = Some v -> t < k) -> latest m t = 0.
Proof.
  intros H. unfold latest. destruct (entry_max _ m) as [[k v]|] eqn:E; [|done].
  apply entry_max_Some in E as (Hk & Ht%Z.leb_le & _). apply H in Hk. lia.
Qed.
Lemma latest_insert m now v t :
  (forall k w, m !! k = Some w -> k <= now) ->
  latest (<[now := v]> m) t = if now <=? t then v else latest m t.
Proof.
  intros Hm. destruct (Z.leb_spec now t) as [Hle|Hgt].
  - apply (latest_Some _ _ now); [apply lookup_insert_eq|done|]. intros k w. rewrite lookup_insert_Some.
    intros [[<- _]|[_ Hk]] _; [lia|by eapply Hm].
  - unfold latest at 2. destruct (entry_max _ m) as [[k w]|] eqn:E.
    + apply entry_max_Some in E as (Hk & Ht%Z.leb_le & Hmax). apply (latest_Some _ _ k); [|done|].
      * rewrite lookup_insert_ne by lia. done.
      * intros k' w'. rewrite lookup_insert_Some. intros [[<- _]|[_ Hk']] Ht'; [lia|].
        specialize (Hmax _ _ Hk' ltac:(by apply Z.leb_le)). by apply Z.ltb_ge in Hmax.
    + apply latest_None. intros k w. rewrite lookup_insert_Some. intros [[<- _]|[_ Hk]]; [lia|].
      apply (entry_max_None _ _ _ _ E) in Hk. by apply Z.leb_gt in Hk.
Qed.

(** What a log of events gave of an asset up to a time. *)
Definition given_by (asset : FaucetAsset) (t : Timestamp) (e : Timestamp * FaucetEvent) : Z :=
  match e.2 with
  | EvTap a _ v => if decide (a = asset) then if e.1 <=? t then sval v else 0 else 0
  | _ => 0
  end.
Definition given_until (asset : FaucetAsset) (t : Timestamp) (l : list (Timestamp * FaucetEvent)) : Z :=
  foldr (fun e acc => given_by asset t e + acc) 0 l.
Lemma given_until_app asset t l l' : given_until asset t (l ++ l') = given_until asset t l + given_until asset t l'.
Proof. induction l as [|e l IH]; simpl; [done|]. rewrite IH. lia. Qed.
Lemma given_until_late asset now t l :
  Forall (fun e => e.1 <= now) l -> now <= t -> given_until asset t l = given_until asset now l.
Proof.
  intros Hl Ht. induction Hl as [|e l He _ IH]; [done|]. simpl. rewrite IH. f_equal. unfold given_by.
  destruct e.2; try done. destruct (decide _); [|done]. by rewrite !(proj2 (Z.leb_le _ _)) by lia.
Qed.

Section History.
Context {CW : CosmwasmStd} {CWS : CosmwasmStdSpec CW}.

(** The history of a response under way, after what is logged. *)
Definition history_ok (now : Timestamp) (log : list (Timestamp * FaucetEvent)) (c : FaucetCtx) : Prop :=
  (forall a t v, asset_history a (fau_store c) !! t = Some v -> t <= now) /\
  forall a t, get_history (fau_store c) a t = given_until a t (log ++ map (pair now) (fau_events c)).

Lemma asset_history_saved asset now v c u c' a :
  save_history asset now v c = Ok (u, c') ->
  asset_history a (fau_store c') =
    if decide (a = asset) then <[now := v]> (asset_history a (fau_store c)) else asset_history a (fau_store c).
Proof.
  intros H. apply hmod_ok in H. subst c'.
  assert (forall (m : gmap (string * Timestamp) Decimal256) x y,
    prefix_of x (<[(y, now) := v]> m) = if decide (x = y) then <[now := v]> (prefix_of x m) else prefix_of x m) as Hp.
  { intros m x y. apply map_eq. intros t. rewrite prefix_of_lookup. destruct (decide (x = y)) as [->|Hne].
    - destruct (decide (t = now)) as [->|Ht]; [by rewrite !lookup_insert_eq|].
      rewrite !lookup_insert_ne by congruence. by rewrite prefix_of_lookup.
    - rewrite lookup_insert_ne by congruence. by rewrite prefix_of_lookup. }
  destruct (decide (a = asset)) as [->|Hne].
  - destruct asset as [y|y]; simpl; rewrite Hp; by destruct (decide (y = y)).
  - destruct asset as [y|y], a as [x|x]; simpl; rewrite ?Hp; try done;
      destruct (decide (x = y)) as [->|]; done.
Qed.

Context (env : FaucetEnv) (log : list (Timestamp * FaucetEvent)).
Context (Hlog : Forall (fun e => e.1 <= fae_now env) log).
Let ok := history_ok (fae_now env) log.

Lemma other_event_history e : (forall a r v, e <> EvTap a r v) -> preserves ok (faucet_event e).
Proof.
  intros He. apply preserves_mod. intros c [Hm Hg]. split; [done|]. intros a t. simpl.
  rewrite map_app, app_assoc, given_until_app, <- Hg. simpl. unfold given_by. simpl.
  destruct e; try (rewrite Z.add_0_r; done). by destruct (He asset recipient amount).
Qed.
Hint Extern 1 (preserves _ (faucet_event _)) => apply other_event_history; discriminate : faucet.

Lemma tap_history asset r amount : preserves ok (tap env asset r amount).
Proof.
  unfold tap. apply preserves_bind; [tap_frame|]. intros v. apply preserves_bind; [tap_frame|]. intros _.
  apply preserves_bind; [tap_frame|]. intros _ c u c' Hc H. lift_in H n Hn.
  apply of_option_ok, try_into_non_zero_Some in Hn as (_ & -> & _).
  step_in H u1 c1 H1. apply hmod_ok in H. subst c'. unfold add_history in H1. step_in H1 old c2 H2.
  unfold faucet_get in H2. get_in H2. lift_in H1 new Hnew. apply std_ok, dec_add_Some in Hnew as [-> _].
  destruct Hc as [Hm Hg]. pose proof (fun a => asset_history_saved _ _ _ _ _ _ a H1) as Ha.
  assert (fau_events c1 = fau_events c) as Ee by (apply hmod_ok in H1; by subst c1).
  split; simpl.
  - intros a t w. rewrite Ha. destruct (decide (a = asset)); [|apply Hm]. rewrite lookup_insert_Some.
    intros [[<- _]|[_ Hk]]; [lia|by eapply Hm].
  - intros a t. rewrite Ee, map_app, app_assoc, given_until_app, <- Hg. simpl. unfold given_by. simpl.
    change (get_history (fau_store c1) a t) with (latest (asset_history a (fau_store c1)) t).
    change (get_history (fau_store c) a t) with (latest (asset_history a (fau_store c)) t).
    rewrite Ha. destruct (decide (a = asset)) as [->|Hne]; [|rewrite decide_False by congruence; lia].
    rewrite decide_True by done. rewrite latest_insert by apply Hm.
    destruct (Z.leb_spec (fae_now env) t) as [Ht|Ht]; [|lia].
    change (latest (asset_history asset (fau_store c)) t) with (get_history (fau_store c) asset t).
    rewrite (Hg asset t), (Hg asset (fae_now env)), !given_until_app, (given_until_late asset _ t log Hlog Ht).
    rewrite (given_until_late asset (fae_now env) t); [lia| |done].
    apply Forall_forall. intros e (x & -> & _)%list_elem_of_fmap. simpl. lia.
Qed.
Hint Resolve tap_history : faucet.
Lemma tap_assets_history r assets amount : preserves ok (tap_assets env assets r amount).
Proof. induction assets as [|a l IH]; simpl; tap_frame. Qed.
Lemma multitap_assets_history r assets : preserves ok (multitap_assets env r assets).
Proof. induction assets as [|a l IH]; simpl; tap_frame. Qed.
Lemma set_all_tapped_history r assets : preserves ok (set_all_tapped r assets).
Proof. induction assets as [|a l IH]; simpl; tap_frame. Qed.
Lemma assert_all_history r assets : preserves ok (assert_all_competitions r assets).
Proof. induction assets as [|a l IH]; simpl; tap_frame. Qed.
Lemma mint_all_history cw20 l : preserves ok (mint_all cw20 l).
Proof. induction l as [|[a n] l IH]; simpl; tap_frame. Qed.
Hint Resolve tap_assets_history multitap_assets_history set_all_tapped_history assert_all_history mint_all_history : faucet.
Lemma multitap_all_history l gas : preserves ok (multitap_all env l gas).
Proof. induction l as [|r l IH]; simpl; tap_frame. Qed.
Hint Resolve multitap_all_history : faucet.
Lemma faucet_execute_history sender msg : preserves ok (faucet_execute env sender msg).
Proof. tap_frame. Qed.
Lemma faucet_reply_history result : preserves ok (faucet_reply result).
Proof. tap_frame. Qed.
End History.

Section Log.
Context {CW : CosmwasmStd} {CWS : CosmwasmStdSpec CW}.

(** The states of the faucet, with the time of the last block and the log of
    all events; time does not go back. *)
Inductive faucet_log : FaucetStore -> Timestamp -> list (Timestamp * FaucetEvent) -> Prop :=
| faucet_log_instantiate now sender msg c s :
    faucet_run (faucet_instantiate sender msg) faucet_store_default = Ok (c, s) -> faucet_log s now []
| faucet_log_execute env sender msg s now log c s' :
    faucet_log s now log -> now <= fae_now env -> faucet_run (faucet_execute env sender msg) s = Ok (c, s') ->
    faucet_log s' (fae_now env) (log ++ map (pair (fae_now env)) (fau_events c))
| faucet_log_reply env result s now log c s' :
    faucet_log s now log -> now <= fae_now env -> faucet_run (faucet_reply result) s = Ok (c, s') ->
    faucet_log s' (fae_now env) (log ++ map (pair (fae_now env)) (fau_events c)).

Definition log_sane (s : FaucetStore) (now : Timestamp) (log : list (Timestamp * FaucetEvent)) : Prop :=
  Forall (fun e => e.1 <= now) log /\ (forall a t v, asset_history a s !! t = Some v -> t <= now) /\
  forall a t, get_history s a t = given_until a t log.

Lemma log_step_sane env (h : faucet_handler unit) s now log c s' :
  log_sane s now log -> now <= fae_now env ->
  (Forall (fun e => e.1 <= fae_now env) log -> preserves (history_ok (fae_now env) log) h) ->
  faucet_run h s = Ok (c, s') -> log_sane s' (fae_now env) (log ++ map (pair (fae_now env)) (fau_events c)).
Proof.
  intros (Hl & Hm & Hg) Hnow Hh H. unfold faucet_run in H.
  destruct (h (mkFaucetCtx s [] [])) as [[u c1]|] eqn:E; [|done]. injection H as <- <-.
  assert (Forall (fun e => e.1 <= fae_now env) log) as Hl' by (eapply Forall_impl; [exact Hl|simpl; lia]).
  apply (Hh Hl') in E as [Hm' Hg'].
  - split; [|done]. apply Forall_app. split; [done|]. apply Forall_forall.
    intros e (x & -> & _)%list_elem_of_fmap. simpl. lia.
  - split; simpl; [intros a t v Hv; apply Hm in Hv; lia|]. intros a t. by rewrite app_nil_r.
Qed.

(** The faucet's history is exact.  In every state the faucet reaches
    while time moves on, whatever was sent to it: for every asset and every
    time, the query for the funds sent answers the sum of everything that was
    given out up to and including that time. *)
Theorem faucet_history_exact s now log asset t :
  faucet_log s now log -> get_history s asset t = given_until asset t log.
Proof.
  intros H. cut (log_sane s now log); [intros (_ & _ & Hg); apply Hg|].
  induction H as [now sender msg c s H|env sender msg s now log c s' _ IH Hn H|env result s now log c s' _ IH Hn H].
  - assert (HISTORY_CW20 s = ∅ /\ HISTORY_NATIVE s = ∅) as [E1 E2].
    { unfold faucet_run in H. destruct (faucet_instantiate _ _ _) as [[u c1]|] eqn:E; [|done]. injection H as <- <-.
      assert (preserves (fun c => HISTORY_CW20 (fau_store c) = ∅ /\ HISTORY_NATIVE (fau_store c) = ∅)
        (faucet_instantiate sender msg)) as Hp by tap_frame.
      by apply (Hp (mkFaucetCtx faucet_store_default [] []) u c1). }
    assert (forall a t', asset_history a s !! t' = None) as Hnone.
    { intros [x|x] t'; simpl; rewrite prefix_of_lookup, ?E1, ?E2; apply lookup_empty. }
    split; [done|]. split; [intros a t' v; by rewrite Hnone|]. intros a t'.
    apply latest_None. intros k v. by rewrite Hnone.
  - apply (log_step_sane env (faucet_execute env sender msg) s now); [done..| |done].
    intros Hl. by apply faucet_execute_history.
  - apply (log_step_sane env (faucet_reply result) s now); [done..| |done]. intros _.
    apply faucet_reply_history.
Qed.
End Log.

(** ** One tap for a competition *)

Section Competition.
Context {CW : CosmwasmStd} {CWS : CosmwasmStdSpec CW}.

(** A token of a trading competition. *)
Definition competition_token (s : FaucetStore) (cw20 : Addr) : Prop :=
  exists info, FAUCET_TOKEN_INFO s !! cw20 = Some info /\ is_some (fti_trading_competition_index info) = true.

Lemma competition_already s r cw20 :
  competition_token s cw20 -> addr_validate cw20 = Some cw20 ->
  already_tapped_trading_competition s r (FaucetCw20 cw20) =
    Ok (if is_some (TAPPED_ONCE s !! (r, cw20)) then CompetitionTapped cw20 else DidNotTap cw20).
Proof.
  intros (info & Hi & Hc) Ha. unfold already_tapped_trading_competition, get_trading_competition_cw20.
  rewrite Ha. simpl. rewrite Hi. by destruct (fti_trading_competition_index info).
Qed.

Lemma first_tapped_none s r assets cw20 :
  first_tapped s r assets = Ok None -> FaucetCw20 cw20 ∈ assets -> competition_token s cw20 ->
  addr_validate cw20 = Some cw20 -> is_some (TAPPED_ONCE s !! (r, cw20)) = false.
Proof.
  intros H Hin Ht Ha. induction assets as [|a l IH]; [by apply elem_of_nil in Hin|]. simpl in H.
  apply rbind_ok in H as (al & Hal & H). apply elem_of_cons in Hin as [<-|Hin].
  - rewrite competition_already in Hal by done. injection Hal as <-. by destruct (is_some _).
  - destruct al; [by apply IH|done|by apply IH].
Qed.

(** the limit of one tap of a trading competition's token does not hold.
    A tap marks the pair of the token and the wallet, the check that guards
    the batches looks for the pair of the wallet and the token.  So after
    anyone taps a competition's token for a wallet the check still calls the
    wallet one that did not tap, and once the tap limit is over it admits the
    wallet again, in a batch. *)
Theorem competition_limit_bypassed env sender assets amount s c s' r cw20 :
  faucet_run (faucet_execute env sender (Tap assets r amount)) s = Ok (c, s') ->
  FaucetCw20 cw20 ∈ assets -> competition_token s cw20 -> addr_validate cw20 = Some cw20 ->
  already_tapped_trading_competition s' r (FaucetCw20 cw20) = Ok (DidNotTap cw20) /\
  forall env', waited env' s' r -> fae_now env <= fae_now env' -> is_ok (tap_limit s') = true ->
    (forall limit, TAP_LIMIT s' = Some (Some limit) -> 0 <= limit < 2 ^ 32) ->
    validate_tap_faucet_error env' s' r [FaucetCw20 cw20] = Ok None.
Proof.
  intros H Hin Ht Ha. unfold faucet_run in H. set (c0 := mkFaucetCtx s [] []) in H.
  destruct (faucet_execute env sender (Tap assets r amount) c0) as [[u c1]|] eqn:E; [|done]. injection H as <- <-.
  cbn [faucet_execute] in E.
  apply execute_tap_steps in E as (r0 & assets' & c2 & c3 & c4 & Hr0 & [K1 _] & Hm & Has & Hv & [K2 _] & Hs).
  apply addr_validate_spec in Hr0. subst r0. injection K1 as _ _ _ _ K1 _ _. injection K2 as _ _ _ _ K2 K3 _.
  assert (FAUCET_TOKEN_INFO (fau_store c3) = FAUCET_TOKEN_INFO (fau_store c2)) as M.
  { destruct (is_admin (fau_store c2) sender); [by subst c3|].
    by apply (assert_all_marking c2 r assets' c2 tt c3) in Hm as (_ & _ & ? & _). }
  assert (forall st, FAUCET_TOKEN_INFO st = FAUCET_TOKEN_INFO s -> competition_token st cw20) as Htok.
  { intros st Est. destruct Ht as (info & Hi & Hc). exists info. by rewrite Est. }
  assert (is_some (TAPPED_ONCE (fau_store c3) !! (r, cw20)) = false) as Hmark.
  { unfold validate_tap_faucet_error in Hv. apply rbind_ok in Hv as (o & Ho & Hv). destruct o; [done|].
    apply (first_tapped_none _ _ _ _ Ho (Has _ Hin)); [|done]. apply Htok. simpl in *. congruence. }
  apply hmod_ok in Hs. subst c1. simpl.
  assert (already_tapped_trading_competition
    (set_LAST_TAP_TIMESTAMP (<[r := fae_now env]> (LAST_TAP_TIMESTAMP (fau_store c4))) (fau_store c4)) r
    (FaucetCw20 cw20) = Ok (DidNotTap cw20)) as Hal.
  { rewrite competition_already; [|apply Htok; simpl in *; congruence|done]. simpl. by rewrite K3, Hmark. }
  split; [done|]. intros env' Hw Hnow Hlim Hrange. unfold validate_tap_faucet_error. simpl. rewrite Hal. simpl.
  apply is_ok_Ok in Hlim as [lim Hlim]. rewrite Hlim. apply std_ok in Hlim. simpl. destruct lim as [limit|]; [|done].
  rewrite lookup_insert_eq. specialize (Hw limit (fae_now env) Hlim (lookup_insert_eq _ _ _)).
  specialize (Hrange limit Hlim).
  rewrite (proj2 (timestamp_checked_sub_ok (fae_now env') (fae_now env) (fae_now env' - fae_now env))) by done. simpl.
  unfold duration_from_seconds.
  rewrite (proj2 (u64_checked_ok (limit * 1000000000) _)) by (split; [reflexivity|unfold U64_MAX; lia]). simpl.
  by rewrite (proj2 (Z.ltb_ge _ _)) by lia.
Qed.
End Competition.

(** * A trading competition

    The admin deploys the token of a competition; Alice taps it, and one
    minute later a batch gives it to her again. *)

Definition sample_faucet_env (secs : Z) : FaucetEnv :=
  mkFaucetEnv (secs * 1000000000) "faucet" (fun _ _ => Ok 0) (fun _ => Ok (mkTokenInfo "BTC" "BTC" 6 0)).
Definition sample_faucet_step (secs : Z) (sender : Addr) (msg : FaucetExecute) (s : FaucetStore) :
    res (FaucetCtx * FaucetStore) :=
  faucet_run (faucet_execute (CW:=cosmwasm_ref) (sample_faucet_env secs) sender msg) s.
Definition faucet_after (r : res (FaucetCtx * FaucetStore)) : FaucetCtx * FaucetStore :=
  match r with Ok x => x | Err _ => (mkFaucetCtx faucet_store_default [] [], faucet_store_default) end.
Definition sample_faucet_new : FaucetCtx * FaucetStore :=
  faucet_after (faucet_run (faucet_instantiate "admin" (mkFaucetInstantiate (Some 60) 5 None)) faucet_store_default).
Definition sample_deploying : FaucetCtx * FaucetStore :=
  faucet_after (sample_faucet_step 10 "admin"
    (FaucetOwnerMsg (DeployToken "BTC" (into_signed DEC_ONE) (Some 1) [])) sample_faucet_new.2).
Definition sample_deployed : FaucetCtx * FaucetStore :=
  faucet_after (faucet_run (faucet_reply (CW:=cosmwasm_ref)
    (ReplyOk [mkRawEvent "instantiate" [("_contract_address"%string, "token"%string)]])) sample_deploying.2).
Definition sample_tap : FaucetExecute := Tap [FaucetCw20 "token"] "alice" None.
Definition sample_tapped : FaucetCtx * FaucetStore := faucet_after (sample_faucet_step 100 "alice" sample_tap sample_deployed.2).
Definition sample_batch : FaucetExecute := Multitap [mkMultitapRecipient "alice" [FaucetCw20 "token"]].
Definition sample_batched : FaucetCtx * FaucetStore := faucet_after (sample_faucet_step 160 "bot" sample_batch sample_tapped.2).

(** The competition's token was minted for Alice in both. *)
Lemma competition_limit_bypassed_witness :
  fau_messages sample_tapped.1 = [FaucetCw20Sub "token" (ExecMint "alice" 1000000)] /\
  fau_messages sample_batched.1 = [FaucetCw20Sub "token" (ExecMint "alice" 100000)] /\
  validate_tap_faucet_error (CW:=cosmwasm_ref) (sample_faucet_env 160) sample_tapped.2 "alice" [FaucetCw20 "token"] = Ok None.
Proof.
  assert (TAP_LIMIT sample_tapped.2 = Some (Some 60)) as Hlimit by (vm_compute; reflexivity).
  assert (LAST_TAP_TIMESTAMP sample_tapped.2 !! "alice"%string = Some 100000000000) as Hlast by (vm_compute; reflexivity).
  split; [vm_compute; reflexivity|]. split; [vm_compute; reflexivity|].
  destruct (competition_limit_bypassed (CW:=cosmwasm_ref) (CWS:=cosmwasm_ref_spec) (sample_faucet_env 100) "alice"
    [FaucetCw20 "token"] None sample_deployed.2 sample_tapped.1 sample_tapped.2 "alice" "token") as [_ H].
  - vm_compute. reflexivity.
  - by left.
  - exists (mkFaucetTokenInfo "BTC" (Some 1) (into_signed DEC_ONE)). split; vm_compute; reflexivity.
  - vm_compute. reflexivity.
  - apply (H (sample_faucet_env 160)).
    + intros limit last. rewrite Hlimit, Hlast. intros [= <-] [= <-]. discriminate.
    + discriminate.
    + vm_compute. reflexivity.
    + intros limit. rewrite Hlimit. intros [= <-]. split; [discriminate|reflexivity].
Defined.

Lemma tap_waits_witness :
  LAST_TAP_TIMESTAMP sample_tapped.2 !! "alice"%string = Some 100000000000 /\
  is_ok (sample_faucet_step 159 "alice" sample_tap sample_tapped.2) = false.
Proof.
  split; [|vm_compute; reflexivity].
  apply (tap_waits (CW:=cosmwasm_ref) (sample_faucet_env 100) "alice" sample_tap sample_deployed.2 sample_tapped.1
    sample_tapped.2 (FaucetCw20 "token") "alice" (into_signed DEC_ONE)).
  - vm_compute. reflexivity.
  - vm_compute. by left.
Defined.

Lemma faucet_history_exact_witness :
  get_history sample_batched.2 (FaucetCw20 "token") (200 * 1000000000) = 11 * DEC_ONE / 10.
Proof.
  assert (exists log, faucet_log (CW:=cosmwasm_ref) sample_batched.2 (160 * 1000000000) log /\
    given_until (FaucetCw20 "token") (200 * 1000000000) log = 11 * DEC_ONE / 10) as (log & Hl & Hg).
  { eexists. split.
    - eapply (fun l => faucet_log_execute (sample_faucet_env 160) "bot" sample_batch sample_tapped.2 (100 * 1000000000) l
        sample_batched.1); [|discriminate|vm_compute; reflexivity].
      eapply (fun l => faucet_log_execute (sample_faucet_env 100) "alice" sample_tap sample_deployed.2 (10 * 1000000000) l
        sample_tapped.1); [|discriminate|vm_compute; reflexivity].
      eapply (fun l => faucet_log_reply (sample_faucet_env 10)
        (ReplyOk [mkRawEvent "instantiate" [("_contract_address"%string, "token"%string)]])
        sample_deploying.2 (10 * 1000000000) l sample_deployed.1); [|discriminate|vm_compute; reflexivity].
      eapply (fun l => faucet_log_execute (sample_faucet_env 10) "admin"
        (FaucetOwnerMsg (DeployToken "BTC" (into_signed DEC_ONE) (Some 1) [])) sample_faucet_new.2 0 l
        sample_deploying.1); [|discriminate|vm_compute; reflexivity].
      apply (faucet_log_instantiate 0 "admin" (mkFaucetInstantiate (Some 60) 5 None) sample_faucet_new.1).
      vm_compute. reflexivity.
    - vm_compute. reflexivity. }
  rewrite (faucet_history_exact (CW:=cosmwasm_ref) (CWS:=cosmwasm_ref_spec) _ _ _ (FaucetCw20 "token") (200 * 1000000000) Hl).
  exact Hg.
Defined.
